(* ===== verification/_CoqProject ===== *)
-Q . S2P
Prelude.v
ListHead.v
Helpers.v
EarlyAlloc.v
PageAlloc.v
Buddy.v
Slab.v
Kmalloc.v
PgTable.v
CString.v
Bytes.v
Dirent.v
BlkDev.v
BlkMgr.v
Ktime.v
SectorDev.v
Fat16Table.v
Fat16Dir.v
Fat16.v
Fat16Write.v
VfsPath.v
Vfs.v
VfsRefs.v
VfsRoot.v
VfsFat16.v
Task.v
SchedOk.v
SchedRun.v
SchedLive.v
SchedDemo.v
Font.v
Framebuffer.v
Tty.v
Input.v
Kprintf.v
Exception.v
Kernel.v
Loader.v
LoaderDemo.v
Syscall.v
Frame.v
SysMem.v
SysFiles.v
SysTable.v
SysCalls.v
Fat16List.v
SysDemo.v
UString.v
UStdlib.v
UHeap.v
USys.v
UPrintf.v
UScanf.v
ULibc.v
UFile.v
UKernel.v
Words.v
Shell.v
ShellRun.v
ShellKernel.v
Ports.v
Ata.v
AtaDisk.v
Boot.v
BootRun.v
BootDemo.v
Setup.v
Gdt.v
Interrupts.v
Startup.v
Kmain.v
Cpuid.v
Init.v
