(* ===== verification/Prelude.v ===== *)
(** * Lizard-OS: a verification development

    Lizard-OS is a small 64-bit kernel: a boot loader hands it a memory map and
    a framebuffer, and it runs programs from a FAT16 disk under a round-robin
    scheduler. This library translates the C code of the boot loader, of the kernel, of
    its C library and of its shell into executable definitions and proves what the code does. Names
    are the names of the source; the file that a definition comes from is in
    the comment of the Rocq file that holds it, under src/.

    ** Parts and how they interact

    - Lists. ListHead: the intrusive doubly linked list of nolibc/list.h on a
      store of pairs of pointers. Buddy and Slab keep their lists in it.
    - Memory. EarlyAlloc (lizard/early_alloc.c, boot.h) picks a region from the
      memory map and hands out pages before there is an allocator; Buddy
      (buddy.c) is the allocator of frames; Slab (slab.c) cuts frames into
      objects; Kmalloc (kmalloc.c) chooses a slab cache for a size; PgTable
      (pgtable.c, vmm.c) builds the four-level tables from frames. The three
      clients see the frames through the class [page_allocator] of PageAlloc,
      which Buddy implements.
    - Bytes and text. CString (nolibc/string.c) on a byte memory; Bytes: the
      fields of packed structures; Helpers (helpers.h, helpers.c); Dirent.
    - Block devices. BlkDev (blk_dev.c): drivers, partitions and the cache of
      sectors; BlkMgr (blkdev_manager.c, mbr.c): registered devices and the
      partitions of a disk. A driver is an instance of [block_driver].
      SectorDev is what the layer promises to a file system ([sector_dev]), and
      proves that the block layer keeps the promise.
    - FAT16. Fat16Table (the allocation table), Fat16Dir (names, entries and
      walks), Fat16 (mounting, files, the name space), all of
      fat16_helpers.c and fat16.c, over any [sector_dev]; Fat16Write and
      Fat16List are the theorems on contents and on listings.
    - Virtual file system. VfsPath (vfs_resolve_path), Vfs (vfs.c, dentry.c,
      inode.c, vfs_helper.c) over any file system ([fs_ops]), VfsRoot (fs.c,
      the root); VfsRefs: the reference counts; VfsFat16: FAT16 as an instance
      of [fs_ops].
    - Tasks. Task (task.c, sched.c, pit.c, exception.c): the run list, the
      process tree, the timer interrupt and the faults, over any address space
      manager ([task_mem]); SchedOk is the invariant, SchedRun the steps of the
      scheduler, SchedLive its runs, SchedDemo a concrete system.
    - Console. Font and Framebuffer (framebuffer.c), Tty (the printing half of
      tty.c), Input (the line editor of tty.c and keyboard.c), Kprintf
      (nolibc/stdio.c), Exception (exception.c: the report of a fault).
    - Kernel. Kernel puts the console, the tasks, the virtual file system and
      the memory of the running program into one state; Loader (loader.c) fills
      an address space ([user_mem]) from an ELF file; Syscall (syscall.c) is
      every system call with its dispatcher. Frame, SysMem and SysFiles are
      what a system call leaves alone, SysTable and SysCalls what it does;
      LoaderDemo and SysDemo are concrete systems.
    - Clocks. Ktime (ktime.c, rtc.c): calendar and time of day; FAT16 stamps
      its entries with it.
    - Devices. Ports (io.c) is the interface of the port instructions; Ata (ata.c) is
      the disk driver over it, as an instance of [block_driver], and AtaDisk a disk
      behind the ports. Gdt (gdt.c, tss.c) and Interrupts (idt.c, pic.c, pit.c,
      timer.c) are the tables of the processor and the drivers of the interrupt
      controller and of the timer; Cpuid (cpuid.c).
    - Boot. Boot (boot/main.c) is the loader over the firmware ([firmware]) and the ports,
      BootRun its run under the laws of the firmware, up to the early allocator of the kernel,
      BootDemo a machine. Setup (setup.c) is the command line, Startup (init.c) the order of
      the initialisers and the release of their pages to Buddy, Kmain (main.c,
      sched.c) the step from the boot context to the first tasks, Init (main.c) the loop of init.
    - User space. UString (string.c, ctype.h of userspace), UStdlib (parsing, sorting and random numbers
      of stdlib.c), UHeap (its heap), UPrintf and UScanf (printf.c, scanf.c), USys (the system call
      stubs, over any kernel), ULibc (a number that is printed and read back), UFile
      (stdio_file.c, misc.c); UKernel runs the stubs on the kernel of Syscall. The byte
      memory is that of CString.
    - Shell. Words: words between blanks; Shell (userspace/src/sh.c) is every command, ShellRun the
      splitting of a line, ShellKernel a turn of the shell on the kernel, from the keyboard
      to the screen.

    ** How code is modelled

    A machine integer is a [Z] in its range, with the wrap-around written out
    where the code can wrap. A C structure is a record, a pointer to one is its
    address in a finite map, and a list of the code is the list of its
    addresses or, in ListHead, the pointers themselves. A function that changes
    state is a function of the state: [st S A], where [Stop] has three causes.
    [Panic] is a call of kpanic, [Fault] an access outside of an object, and
    [Diverge] a loop that uses up its fuel. A failure that the C code returns
    is a value: an [option], a pointer that is [None], or the number.

    Fuel is chosen so that it is never used up where the code ends. A scan of a
    string has one step for each mapped byte and one more ([scan_fuel]); a walk
    of a chain of clusters one for each cluster number ([cluster_fuel], 65537);
    the work buffer of a path one for each byte ([work_fuel]); a digit
    loop one for each bit; a transfer one for each byte asked for. The loops of the
    disk driver, of the serial line and of the loader's attempts count down in the code as well. The
    theorems that say what a loop returns say that it returns ([Done]); a chain
    of clusters with a cycle is the case of [Diverge] in
    Fat16Table, and it is excluded where a theorem says so.

    ** What the theorems show

    - Memory: an allocated block is exclusive and its frames are free again when it is
      released; the least order that fits is chosen; slab objects are distinct, a full slab moves
      to the list it belongs to; kmalloc takes the smallest class that fits; a mapped
      page translates to its frame and no other page changes. The heap of user
      space keeps its arena tiled by blocks.
    - Disk: what is written is read back, through the cache, through a
      partition and through a chain of clusters; the tables and the files that a
      write does not touch are unchanged; freeing a chain ends; a name that is
      converted for the disk and back is the same name; a listing is
      the directory in order, with the entry lost at a full buffer. The ATA driver
      reads back what it wrote from the disk behind the ports, and reports a sector that cannot be read.
    - Names: path resolution equals its reference on lists of components; each
      entry of the directory cache counts its references exactly.
    - Tasks: every event keeps the invariant of the run list and the process
      tree; a ready task runs within one round; a task resumes with the registers it
      was interrupted with; the exit code of a child is what its parent collects.
    - Console: presenting scales pixels; the text on the screen is an abstract
      grid of characters; the line editor is a list with backspace; the ring of typed bytes
      is a bounded queue; the log prints its format.
    - System calls: the descriptor tables are well formed under every call; a
      positioned read does not move the offset, a typed line is read by the
      program, the working directory is what was changed to, wrong arguments
      return their error codes; the image of an executable is its segments.
    - Boot: the loader reaches the kernel with the image of the file in memory, and the
      early allocator of the kernel gives out nothing of the loader; the root device is the one of the
      command line; user mode can raise one interrupt vector only; the pages of the
      initialisers join the free frames and no others; the first task starts in
      the state that the scheduler's invariant describes, and starts a new shell when the old one has ended.
    - C library: the string functions equal their references on lists,
      sorting sorts and is stable, a number that is printed is the number that is read
      back, a formatted string stays in its buffer, a program's output is on the screen.
    - Shell: the words of a line are its words between blanks; a line typed
      as echo is answered on the screen with its words.

    ** Not modelled

    The compiler run-time (vendored), the assembly (head.S with the first page tables, the
    entry points of interrupts and of programs), the two test programs hello and argtest, and the floating point of the C library (math.c, atof).
    What the hardware does is a parameter or a law: the instructions of the ports, the
    instruction cpuid, the loading of a descriptor table, the firmware. Interrupts are taken
    between the calls of the C code, as the kernel disables them inside its
    handlers; locks are the flag that they set. The translation of addresses by the
    processor is a walk of the tables; caches of translations are not modelled. *)

From stdpp Require Export base gmap sets list numbers option strings.
From Stdlib Require Export ZArith Lia.

Set Default Proof Using "Type".

(** ** The error monad

    Kernel code stops in three ways that are not return values: [kpanic], an
    access through a pointer that does not point to an object ([Fault]) and a
    loop that does not terminate ([Diverge]: the fuel of the model is used
    up). Everything else is a value; C error codes are ordinary values. *)

Inductive stop : Type := Panic | Fault | Diverge.

#[global] Instance stop_eq_dec : EqDecision stop.
Proof. solve_decision. Defined.

Inductive run (A : Type) : Type :=
  | Done (a : A)
  | Stop (s : stop).
Arguments Done {_} _.
Arguments Stop {_} _.

#[global] Instance run_ret : MRet run := @Done.
#[global] Instance run_bind : MBind run := λ A B f m,
  match m with Done a => f a | Stop s => Stop s end.
#[global] Instance run_fmap : FMap run := λ A B f m,
  match m with Done a => Done (f a) | Stop s => Stop s end.

#[global] Instance run_eq_dec `{!EqDecision A} : EqDecision (run A).
Proof. solve_decision. Defined.

(** A partial access: [None] is an invalid address. *)
Definition access {A} (o : option A) : run A :=
  match o with Some a => Done a | None => Stop Fault end.

(** [kpanic(..)] when the condition holds. *)
Definition panic_if (b : bool) : run unit :=
  if b then Stop Panic else Done ().

Lemma bind_Done {A B} (m : run A) (f : A → run B) b :
  @mbind run _ A B f m = Done b ↔ ∃ a, m = Done a ∧ f a = Done b.
Proof. destruct m; simpl; split; naive_solver. Qed.

Lemma access_Done {A} (o : option A) a : access o = Done a ↔ o = Some a.
Proof. destruct o; simpl; naive_solver. Qed.

(** ** The state monad

    Code that threads a state, over the error monad. [?←] is the early return
    of a function whose callee reports a failure. *)

Definition st (S A : Type) : Type := S → run (A * S).

#[global] Instance st_ret {S} : MRet (st S) := λ A a s, Done (a, s).
#[global] Instance st_bind {S} : MBind (st S) := λ A B f m s,
  match m s with Done (a, s) => f a s | Stop e => Stop e end.

Definition st_get {S} : st S S := λ s, Done (s, s).
Definition st_put {S} (s : S) : st S unit := λ _, Done (tt, s).
Definition st_modify {S} (f : S → S) : st S unit := λ s, Done (tt, f s).
Definition st_run {S A} (m : run A) : st S A := λ s, match m with Done a => Done (a, s) | Stop e => Stop e end.

Lemma st_bind_Done {S A B} (m : st S A) (f : A → st S B) s b s' :
  (m ≫= f) s = Done (b, s') → ∃ a s1, m s = Done (a, s1) ∧ f a s1 = Done (b, s').
Proof. unfold mbind, st_bind. destruct (m s) as [[a s1]|]; [|done]. eauto. Qed.
Definition st_stop {S A} (e : stop) : st S A := λ _, Stop e.

Definition st_try {S A B} (m : st S (option A)) (k : A → st S (option B)) : st S (option B) :=
  m ≫= λ r, match r with Some a => k a | None => mret None end.

Declare Scope lizard_scope.
Notation "x ?← m ; k" := (st_try m (λ x, k))
  (at level 20, m at level 100, k at level 200, only parsing) : lizard_scope.
Open Scope lizard_scope.

(** [wp m Q s]: from [s], [m] ends normally with a result and a state in [Q]. *)
Definition wp {S A} (m : st S A) (Q : A → S → Prop) (s : S) : Prop :=
  match m s with Done (a, s') => Q a s' | Stop _ => False end.

Section wp.
Context {S : Type}.

Lemma wp_ret {A} (a : A) (Q : A → S → Prop) s : Q a s → wp (mret a) Q s.
Proof. done. Qed.

Lemma wp_bind {A B} (m : st S A) (k : A → st S B) Q s :
  wp m (λ a s', wp (k a) Q s') s → wp (m ≫= k) Q s.
Proof. unfold wp, mbind, st_bind. destruct (m s) as [[a s']|e]; done. Qed.

Lemma wp_mono {A} (m : st S A) (Q Q' : A → S → Prop) s :
  wp m Q s → (∀ a s', Q a s' → Q' a s') → wp m Q' s.
Proof. unfold wp. destruct (m s) as [[a s']|e]; auto. Qed.

Lemma wp_try {A B} (m : st S (option A)) (k : A → st S (option B)) Q s :
  wp m (λ r s', match r with Some a => wp (k a) Q s' | None => Q None s' end) s →
  wp (st_try m k) Q s.
Proof.
  unfold wp, st_try, mbind, st_bind. destruct (m s) as [[[a|] s']|e]; done.
Qed.

Lemma wp_get (Q : S → S → Prop) s : Q s s → wp st_get Q s.
Proof. done. Qed.

Lemma wp_put s' (Q : unit → S → Prop) s : Q tt s' → wp (st_put s') Q s.
Proof. done. Qed.

Lemma wp_modify f (Q : unit → S → Prop) s : Q tt (f s) → wp (st_modify f) Q s.
Proof. done. Qed.

Lemma wp_run {A} (m : run A) a (Q : A → S → Prop) s : m = Done a → Q a s → wp (st_run m) Q s.
Proof. intros -> ?. done. Qed.

Lemma wp_elim {A} (m : st S A) (Q : A → S → Prop) s :
  wp m Q s → ∃ a s', m s = Done (a, s') ∧ Q a s'.
Proof. unfold wp. destruct (m s) as [[a s']|e]; [eauto|done]. Qed.
End wp.

(** ** Machine integers

    A w-bit unsigned value is the integer it denotes; every operation that
    can leave the range is followed by the reduction of its C type. *)

Definition wrap (w x : Z) : Z := x mod 2 ^ w.
Definition swrap (w x : Z) : Z := (x + 2 ^ (w - 1)) mod 2 ^ w - 2 ^ (w - 1).

Abbreviation u8 := (wrap 8).
Abbreviation u16 := (wrap 16).
Abbreviation u32 := (wrap 32).
Abbreviation u64 := (wrap 64).
Abbreviation i32 := (swrap 32).
Abbreviation i64 := (swrap 64).

Section machine_integers.
Local Open Scope Z_scope.

Lemma wrap_range w x : 0 <= w → 0 <= wrap w x < 2 ^ w.
Proof. intros. apply Z.mod_pos_bound. lia. Qed.

Lemma wrap_small w x : 0 <= x < 2 ^ w → wrap w x = x.
Proof. apply Z.mod_small. Qed.

Lemma swrap_small w x :
  0 < w → - 2 ^ (w - 1) <= x < 2 ^ (w - 1) → swrap w x = x.
Proof.
  intros Hw Hx. unfold swrap.
  assert (2 ^ w = 2 * 2 ^ (w - 1)) as E.
  { rewrite <- (Z.pow_succ_r 2 (w - 1)) by lia. f_equal. lia. }
  rewrite Z.mod_small; lia.
Qed.

Lemma swrap_range w x : 0 < w → - 2 ^ (w - 1) <= swrap w x < 2 ^ (w - 1).
Proof.
  intros Hw. unfold swrap.
  assert (2 ^ w = 2 * 2 ^ (w - 1)) as E.
  { rewrite <- (Z.pow_succ_r 2 (w - 1)) by lia. f_equal. lia. }
  pose proof (Z.mod_pos_bound (x + 2 ^ (w - 1)) (2 ^ w)). lia.
Qed.

Lemma wrap_wrap w x : 0 <= w → wrap w (wrap w x) = wrap w x.
Proof. intros. apply wrap_small. by apply wrap_range. Qed.

Lemma wrap_add_l w x y : wrap w (wrap w x + y) = wrap w (x + y).
Proof. unfold wrap. apply Zplus_mod_idemp_l. Qed.

Lemma wrap_add_r w x y : wrap w (x + wrap w y) = wrap w (x + y).
Proof. unfold wrap. apply Zplus_mod_idemp_r. Qed.

Lemma wrap_sub_l w x y : wrap w (wrap w x - y) = wrap w (x - y).
Proof. unfold wrap. apply Zminus_mod_idemp_l. Qed.

Lemma pow2_pos n : 0 <= n → 0 < 2 ^ n.
Proof. intros. by apply Z.pow_pos_nonneg. Qed.
End machine_integers.

(** The characters of a string literal. *)
Definition chars (s : string) : list Z := (λ c, Z.of_N (Ascii.N_of_ascii c)) <$> String.list_ascii_of_string s.

(** ** Boolean reflection and small tactics *)

Create HintDb lizard.

Ltac breflect :=
  repeat match goal with
  | H : (_ && _)%bool = true |- _ => apply andb_true_iff in H; destruct H
  | H : (_ || _)%bool = false |- _ => apply orb_false_iff in H; destruct H
  | H : negb _ = true |- _ => apply negb_true_iff in H
  | H : negb _ = false |- _ => apply negb_false_iff in H
  | H : (_ =? _)%Z = true |- _ => apply Z.eqb_eq in H
  | H : (_ =? _)%Z = false |- _ => apply Z.eqb_neq in H
  | H : (_ <? _)%Z = true |- _ => apply Z.ltb_lt in H
  | H : (_ <? _)%Z = false |- _ => apply Z.ltb_ge in H
  | H : (_ <=? _)%Z = true |- _ => apply Z.leb_le in H
  | H : (_ <=? _)%Z = false |- _ => apply Z.leb_gt in H
  | H : bool_decide _ = true |- _ => apply bool_decide_eq_true in H
  | H : bool_decide _ = false |- _ => apply bool_decide_eq_false in H
  end.

(** Case analysis on the condition of the first [if] of the goal. *)
Ltac case_if :=
  match goal with
  | |- context [if ?b then _ else _] =>
      lazymatch b with context [if _ then _ else _] => fail | _ => idtac end;
      let E := fresh "E" in destruct b eqn:E; breflect
  end.

Ltac case_if_in H :=
  match type of H with
  | context [if ?b then _ else _] =>
      lazymatch b with context [if _ then _ else _] => fail | _ => idtac end;
      let E := fresh "E" in destruct b eqn:E; breflect
  end.

(** One step of the error monad, without unfolding the operations. *)
Ltac rsimpl := cbn beta iota delta [mbind run_bind mret run_ret fmap run_fmap access panic_if].
Tactic Notation "rstep" constr(E) := rewrite E; rsimpl.

(** Peels the binds of [H : m ≫= f = Done b] from the left. *)
Ltac run_inv H :=
  let x := fresh "x" in let Hx := fresh "Hx" in
  apply bind_Done in H; destruct H as (x & Hx & H); simpl in H.

(** ** Lists *)

Section lists.
Context {A : Type}.
Implicit Types l k : list A.

Lemma NoDup_app_cons_not_in l1 x l2 :
  NoDup (l1 ++ x :: l2) → x ∉ l1 ∧ x ∉ l2 ∧ NoDup (l1 ++ l2).
Proof.
  rewrite !NoDup_app, NoDup_cons. intros (H1 & H2 & H3 & H4).
  split; [|split; [done|split; [done|split; [|done]]]].
  - intros Hx. apply (H2 x Hx). set_solver.
  - intros y Hy Hy'. apply (H2 y Hy). set_solver.
Qed.
End lists.

(** ** Maps *)

Lemma list_to_map_is_Some `{Countable K} {V} (l : list (K * V)) k v :
  (k, v) ∈ l → is_Some ((list_to_map l : gmap K V) !! k).
Proof.
  intros Hin. apply not_eq_None_Some. intros E%not_elem_of_list_to_map. apply E.
  apply list_elem_of_fmap. by exists (k, v).
Qed.
