(* ===== verification/ListHead.v ===== *)
(** * The intrusive doubly linked list (nolibc/list.h)

    A [struct list_head] is a pair of pointers inside another object. The
    model keeps every such pair of a component in one store indexed by the
    identity of the node; [NULL] is [None]. Each list operation is the
    sequence of pointer writes of the header. The section [lists_ok] gives the
    abstract view, a map from list heads to the sequence of linked nodes, and
    the theorems show that the operations refine the operations on
    sequences, and that [list_for_each] visits exactly that sequence. *)

From S2P Require Import Prelude.

Record list_head (K : Type) : Type := Links { next : option K; prev : option K }.
Arguments Links {_} _ _.
Arguments next {_} _.
Arguments prev {_} _.

Section list_head.
Context {K : Type} `{Countable K}.

Abbreviation store := (gmap K (list_head K)).
Implicit Types (s : store) (k h n : K) (l xs : list K).

(** ** Pointer accesses *)

Definition get (s : store) (p : option K) : run (list_head K) :=
  match p with Some k => access (s !! k) | None => Stop Fault end.

Definition set_next (s : store) (p v : option K) : run store :=
  match p with
  | Some k => e ← access (s !! k); Done (<[k := Links v (prev e)]> s)
  | None => Stop Fault
  end.

Definition set_prev (s : store) (p v : option K) : run store :=
  match p with
  | Some k => e ← access (s !! k); Done (<[k := Links (next e) v]> s)
  | None => Stop Fault
  end.

(** ** The operations of the header *)

Definition InitListHead (list : K) (s : store) : run store :=
  s ← set_next s (Some list) (Some list);
  set_prev s (Some list) (Some list).

Definition ListAdd_ (new prv nxt : option K) (s : store) : run store :=
  s ← set_prev s nxt new;
  s ← set_next s new nxt;
  s ← set_prev s new prv;
  set_next s prv new.

Definition list_add (new head : K) (s : store) : run store :=
  h ← get s (Some head);
  ListAdd_ (Some new) (Some head) (next h) s.

Definition list_add_tail (new head : K) (s : store) : run store :=
  h ← get s (Some head);
  ListAdd_ (Some new) (prev h) (Some head) s.

Definition list_del_ (prv nxt : option K) (s : store) : run store :=
  s ← set_prev s nxt prv;
  set_next s prv nxt.

Definition list_del (entry : K) (s : store) : run store :=
  e ← get s (Some entry);
  s ← list_del_ (prev e) (next e) s;
  s ← set_prev s (Some entry) None;
  set_next s (Some entry) None.

Definition list_move_tail (entry head : K) (s : store) : run store :=
  s ← list_del entry s;
  list_add_tail entry head s.

Definition list_move (entry head : K) (s : store) : run store :=
  s ← list_del entry s;
  list_add entry head s.

Definition list_empty (head : K) (s : store) : run bool :=
  h ← get s (Some head);
  Done (bool_decide (next h = Some head)).

Definition list_next (pos head : K) (s : store) : run (option K) :=
  e ← get s (Some pos);
  if decide (next e = Some head)
  then h ← get s (next e); Done (next h)
  else Done (next e).

(** [list_for_each(pos, tmp, head) body]: [tmp] is read before the body
    runs, so the body may unlink [pos]. The body returns a value to leave
    the loop ([break] or [return]). The store is a part of the state [St]
    of the component, reached by [lk]. *)

Fixpoint for_each_loop {St R : Type} (lk : St → store)
    (body : K → St → run (St * option R)) (fuel : nat)
    (head : K) (pos tmp : option K) (st : St) : run (St * option R) :=
  match fuel with
  | O => Stop Diverge
  | S fuel =>
      if decide (pos = Some head) then Done (st, None)
      else match pos with
           | None => Stop Fault
           | Some k =>
               '(st, r) ← body k st;
               match r with
               | Some _ => Done (st, r)
               | None =>
                   t ← get (lk st) tmp;
                   for_each_loop lk body fuel head tmp (next t) st
               end
           end
  end.

Definition list_for_each {St R : Type} (lk : St → store)
    (body : K → St → run (St * option R)) (head : K) (st : St) : run (St * option R) :=
  h ← get (lk st) (Some head);
  t ← get (lk st) (next h);
  for_each_loop lk body (S (size (lk st))) head (next h) (next t) st.

(** The loop over a sequence that [list_for_each] implements. *)
Fixpoint each {St R : Type} (body : K → St → run (St * option R))
    (xs : list K) (st : St) : run (St * option R) :=
  match xs with
  | [] => Done (st, None)
  | k :: xs =>
      '(st, r) ← body k st;
      match r with Some _ => Done (st, r) | None => each body xs st end
  end.

(** ** Abstract view *)

Definition nxt (s : store) (k : K) : option K := s !! k ≫= next.
Definition prv (s : store) (k : K) : option K := s !! k ≫= prev.

(** The nodes [l] are chained, in both directions, between [a] and [b]. *)
Fixpoint seg (s : store) (a : K) (l : list K) (b : K) : Prop :=
  match l with
  | [] => nxt s a = Some b ∧ prv s b = Some a
  | x :: l => nxt s a = Some x ∧ prv s x = Some a ∧ seg s x l b
  end.

(** [L] maps every list head to the sequence of the nodes on its list; no
    node is on two lists. *)
Record lists_ok (s : store) (L : gmap K (list K)) : Prop := {
  lo_ring h xs : L !! h = Some xs → seg s h xs h;
  lo_nodup h xs : L !! h = Some xs → NoDup (h :: xs);
  lo_disj h1 h2 xs1 xs2 : L !! h1 = Some xs1 → L !! h2 = Some xs2 → h1 ≠ h2 →
    (h1 :: xs1) ## (h2 :: xs2)
}.

(** A node that is on no list of [L] and heads none. *)
Definition detached (L : gmap K (list K)) (n : K) : Prop :=
  ∀ h xs, L !! h = Some xs → n ∉ h :: xs.

(** ** Effects of the single writes *)

Lemma nxt_insert s k e j :
  nxt (<[k:=e]> s) j = if decide (j = k) then next e else nxt s j.
Proof. unfold nxt. case_decide; simplify_map_eq; done. Qed.

Lemma prv_insert s k e j :
  prv (<[k:=e]> s) j = if decide (j = k) then prev e else prv s j.
Proof. unfold prv. case_decide; simplify_map_eq; done. Qed.

Lemma dom_insert_in s k e : is_Some (s !! k) → dom (<[k:=e]> s) = dom s.
Proof. intros Hk. rewrite dom_insert_L. apply elem_of_dom in Hk. set_solver. Qed.

Lemma nxt_get s k e : s !! k = Some e → next e = nxt s k.
Proof. unfold nxt. by intros ->. Qed.

Lemma prv_get s k e : s !! k = Some e → prev e = prv s k.
Proof. unfold prv. by intros ->. Qed.

Lemma nxt_is_Some s k j : nxt s k = Some j → is_Some (s !! k).
Proof. unfold nxt. destruct (s !! k); eauto. done. Qed.

Lemma prv_is_Some s k j : prv s k = Some j → is_Some (s !! k).
Proof. unfold prv. destruct (s !! k); eauto. done. Qed.

Lemma set_next_spec s k v : is_Some (s !! k) → ∃ s',
  set_next s (Some k) v = Done s' ∧
  (∀ j, nxt s' j = if decide (j = k) then v else nxt s j) ∧
  (∀ j, prv s' j = prv s j) ∧ dom s' = dom s.
Proof.
  intros [e He]. simpl. rewrite He. simpl. eexists; split_and!; [done|..].
  - intros j. by rewrite nxt_insert.
  - intros j. rewrite prv_insert. case_decide; [|done]. subst. simpl. by apply prv_get.
  - apply dom_insert_in; eauto.
Qed.

Lemma set_prev_spec s k v : is_Some (s !! k) → ∃ s',
  set_prev s (Some k) v = Done s' ∧
  (∀ j, nxt s' j = nxt s j) ∧
  (∀ j, prv s' j = if decide (j = k) then v else prv s j) ∧ dom s' = dom s.
Proof.
  intros [e He]. simpl. rewrite He. simpl. eexists; split_and!; [done|..].
  - intros j. rewrite nxt_insert. case_decide; [|done]. subst. simpl. by apply nxt_get.
  - intros j. by rewrite prv_insert.
  - apply dom_insert_in; eauto.
Qed.

Lemma get_Some s k e : s !! k = Some e → get s (Some k) = Done e.
Proof. simpl. by intros ->. Qed.

Lemma is_Some_dom s s' k : dom s' = dom s → is_Some (s !! k) → is_Some (s' !! k).
Proof. intros E. rewrite <- !elem_of_dom, E. done. Qed.

(** ** Segments *)

(** The last node of [a :: l]. *)
Fixpoint final (a : K) (l : list K) : K :=
  match l with [] => a | x :: l => final x l end.

Lemma seg_app s a l1 x l2 b :
  seg s a (l1 ++ x :: l2) b ↔ seg s a l1 x ∧ seg s x l2 b.
Proof. revert a. induction l1 as [|y l1 IH]; intros a; simpl; [tauto|]. rewrite IH. tauto. Qed.

Lemma seg_frame s s' a l b :
  (∀ k, k ∈ a :: l → nxt s' k = nxt s k) →
  (∀ k, k ∈ l ++ [b] → prv s' k = prv s k) →
  seg s a l b → seg s' a l b.
Proof.
  revert a. induction l as [|x l IH]; intros a Hn Hp; simpl.
  - rewrite Hn, Hp by set_solver. done.
  - rewrite Hn, Hp by set_solver. intros (? & ? & Hs). split_and!; [done..|].
    apply IH; [| |done]; intros k Hk; [apply Hn|apply Hp]; set_solver.
Qed.

Lemma seg_first s a l b : seg s a l b → nxt s a = Some (hd b l).
Proof. destruct l; simpl; tauto. Qed.

Lemma seg_last s a l b : seg s a l b → prv s b = Some (final a l).
Proof.
  revert a. induction l as [|x l IH]; intros a; simpl; [tauto|].
  intros (_ & _ & Hs). by rewrite (IH _ Hs).
Qed.

Lemma seg_in_dom s a l b k : seg s a l b → k ∈ a :: l → is_Some (s !! k).
Proof.
  revert a. induction l as [|x l IH]; intros a Hs Hk.
  - apply list_elem_of_singleton in Hk as ->. destruct Hs. by eapply nxt_is_Some.
  - destruct Hs as (Ha & _ & Hs). apply elem_of_cons in Hk as [->|Hk]; [|by eapply IH].
    by eapply nxt_is_Some.
Qed.

Lemma final_in (l : list K) a : final a l ∈ a :: l.
Proof.
  revert a. induction l as [|x l IH]; intros a; simpl; [set_solver|].
  specialize (IH x). set_solver.
Qed.

Lemma final_app (l : list K) a x : final a (l ++ [x]) = x.
Proof. revert a. induction l as [|y l IH]; intros a; simpl; done. Qed.

Lemma hd_in (l : list K) b : hd b l ∈ l ++ [b].
Proof. destruct l; set_solver. Qed.

(** The links of [n] between the neighbours [p] and [q]. *)
Lemma ListAdd_spec s n p q :
  is_Some (s !! n) → is_Some (s !! p) → is_Some (s !! q) → n ≠ p → n ≠ q → ∃ s',
    ListAdd_ (Some n) (Some p) (Some q) s = Done s' ∧
    (∀ j, nxt s' j = if decide (j = p) then Some n else
                     if decide (j = n) then Some q else nxt s j) ∧
    (∀ j, prv s' j = if decide (j = n) then Some p else
                     if decide (j = q) then Some n else prv s j) ∧
    dom s' = dom s.
Proof.
  intros Hn Hp Hq Hnp Hnq. unfold ListAdd_.
  destruct (set_prev_spec s q (Some n) Hq) as (s1 & -> & N1 & P1 & D1).
  destruct (set_next_spec s1 n (Some q) (is_Some_dom _ _ _ D1 Hn)) as (s2 & E2 & N2 & P2 & D2).
  destruct (set_prev_spec s2 n (Some p)) as (s3 & E3 & N3 & P3 & D3);
    [eapply is_Some_dom; [|exact Hn]; congruence|].
  destruct (set_next_spec s3 p (Some n)) as (s4 & E4 & N4 & P4 & D4);
    [eapply is_Some_dom; [|exact Hp]; congruence|].
  cbn -[set_next set_prev]. rewrite E2. cbn -[set_next set_prev]. rewrite E3.
  cbn -[set_next set_prev]. rewrite E4. eexists; split_and!; [done|..].
  - intros j. rewrite N4, N3, N2, N1. done.
  - intros j. rewrite P4, P3, P2, P1. done.
  - congruence.
Qed.

(** Unlinking [x] from between its neighbours. *)
Lemma list_del_spec s x p q :
  nxt s x = Some q → prv s x = Some p → is_Some (s !! p) → is_Some (s !! q) → ∃ s',
    list_del x s = Done s' ∧
    (∀ j, nxt s' j = if decide (j = x) then None else
                     if decide (j = p) then Some q else nxt s j) ∧
    (∀ j, prv s' j = if decide (j = x) then None else
                     if decide (j = q) then Some p else prv s j) ∧
    dom s' = dom s.
Proof.
  intros Hq Hp Dp Dq. unfold list_del.
  assert (is_Some (s !! x)) as [e He] by by eapply nxt_is_Some.
  rewrite (get_Some _ _ _ He). cbn -[set_next set_prev list_del_].
  rewrite (nxt_get _ _ _ He), (prv_get _ _ _ He), Hq, Hp. unfold list_del_.
  destruct (set_prev_spec s q (Some p) Dq) as (s1 & -> & N1 & P1 & D1).
  destruct (set_next_spec s1 p (Some q) (is_Some_dom _ _ _ D1 Dp)) as (s2 & E2 & N2 & P2 & D2).
  cbn -[set_next set_prev]. rewrite E2. cbn -[set_next set_prev].
  destruct (set_prev_spec s2 x None) as (s3 & E3 & N3 & P3 & D3);
    [eapply is_Some_dom; [|exists e; exact He]; congruence|].
  destruct (set_next_spec s3 x None) as (s4 & E4 & N4 & P4 & D4);
    [eapply is_Some_dom; [|exists e; exact He]; congruence|].
  cbn -[set_next set_prev]. rewrite E3. cbn -[set_next set_prev]. rewrite E4.
  eexists; split_and!; [done|..].
  - intros j. rewrite N4, N3, N2, N1. done.
  - intros j. rewrite P4, P3, P2, P1. done.
  - congruence.
Qed.

(** Removing [x] from a chain, when only its two neighbours change. *)
Lemma seg_del s s' a l1 x l2 b p q :
  NoDup (l1 ++ x :: l2) → a ∉ l1 ++ x :: l2 → b ∉ l1 ++ x :: l2 →
  nxt s x = Some q → prv s x = Some p →
  (∀ j, j ≠ x → j ≠ p → nxt s' j = nxt s j) → (∀ j, j ≠ x → j ≠ q → prv s' j = prv s j) →
  nxt s' p = Some q → prv s' q = Some p →
  seg s a (l1 ++ x :: l2) b → seg s' a (l1 ++ l2) b.
Proof.
  intros Hnd Ha Hb Hq Hp Fn Fp Hpq Hqp. revert a Ha Hnd Hb.
  induction l1 as [|y l1 IH]; intros a Ha Hnd Hb Hs; simpl in *.
  - destruct Hs as (_ & E & Hs). assert (p = a) as -> by congruence.
    destruct l2 as [|z l2]; simpl in *.
    + destruct Hs as [E' _]. assert (q = b) as -> by congruence. done.
    + destruct Hs as (E' & _ & Hs). assert (q = z) as -> by congruence.
      split_and!; [done..|]. apply NoDup_cons in Hnd as [Hx Hnd].
      apply NoDup_cons in Hnd as [Hz Hnd].
      eapply seg_frame; [| |exact Hs]; intros k Hk; [apply Fn|apply Fp]; set_solver.
  - destruct Hs as (E1 & E2 & Hs).
    apply NoDup_cons in Hnd as [Hy Hnd].
    assert (p ∈ y :: l1) as Hpl.
    { apply seg_app in Hs as [Hs _]. apply seg_last in Hs.
      assert (p = final y l1) as -> by congruence. apply final_in. }
    assert (q ∈ l2 ++ [b]) as Hql.
    { apply seg_app in Hs as [_ Hs]. apply seg_first in Hs.
      assert (q = hd b l2) as -> by congruence. apply hd_in. }
    assert (NoDup (y :: l1 ++ x :: l2)) as Hnd' by (by constructor).
    split_and!.
    + rewrite Fn; [done|set_solver..].
    + rewrite Fp; [done|set_solver|]. intros ->.
      apply elem_of_app in Hql as [Hql|Hql]; [|set_solver].
      apply Hy. set_solver.
    + apply IH; set_solver.
Qed.

(** Decides which links an update touches. *)
Local Ltac links N P :=
  rewrite ?N, ?P; repeat case_decide; subst; try done; exfalso; set_solver.

(** ** The operations refine operations on sequences *)

Lemma lists_ok_update s s' L h xs' :
  lists_ok s L → seg s' h xs' h → NoDup (h :: xs') →
  (∀ h2 xs2, L !! h2 = Some xs2 → h2 ≠ h → (h :: xs') ## (h2 :: xs2)) →
  (∀ h2 xs2 k, L !! h2 = Some xs2 → h2 ≠ h → k ∈ h2 :: xs2 →
     nxt s' k = nxt s k ∧ prv s' k = prv s k) →
  lists_ok s' (<[h:=xs']> L).
Proof.
  intros OK Hs Hnd Hdj Hfr. split.
  - intros h2 xs2 [[<- <-]|[Hne E]]%lookup_insert_Some; [done|].
    eapply seg_frame; [| |by eapply lo_ring]; intros k Hk;
      eapply Hfr; try done; set_solver.
  - intros h2 xs2 [[<- <-]|[Hne E]]%lookup_insert_Some; [done|]. by eapply lo_nodup.
  - intros h1 h2 xs1 xs2 [[<- <-]|[Hne1 E1]]%lookup_insert_Some
      [[<- <-]|[Hne2 E2]]%lookup_insert_Some Hne; [done|..].
    + by eapply Hdj.
    + intros k Hk Hk'. by eapply (Hdj _ _ E1 (not_eq_sym Hne1) k).
    + by eapply lo_disj.
Qed.

Lemma lists_ok_get s L h xs :
  lists_ok s L → L !! h = Some xs → ∃ e, s !! h = Some e ∧
    next e = Some (hd h xs) ∧ prev e = Some (final h xs).
Proof.
  intros OK E. pose proof (lo_ring _ _ OK _ _ E) as Hs.
  pose proof (seg_first _ _ _ _ Hs) as Hn. pose proof (seg_last _ _ _ _ Hs) as Hp.
  destruct (nxt_is_Some _ _ _ Hn) as [e He]. exists e.
  by rewrite (nxt_get _ _ _ He), (prv_get _ _ _ He).
Qed.

Lemma lists_ok_in_dom s L h xs k :
  lists_ok s L → L !! h = Some xs → k ∈ h :: xs → is_Some (s !! k).
Proof. intros OK E Hk. eapply seg_in_dom; [by eapply lo_ring|done]. Qed.

(** A node is on at most one list. *)
Lemma lists_ok_other s L h xs h2 xs2 k :
  lists_ok s L → L !! h = Some xs → L !! h2 = Some xs2 → h2 ≠ h →
  k ∈ h2 :: xs2 → k ∉ h :: xs.
Proof. intros OK E E2 Hne Hk Hk'. exact (lo_disj _ _ OK _ _ _ _ E2 E Hne k Hk Hk'). Qed.

Lemma list_empty_spec s L h xs :
  lists_ok s L → L !! h = Some xs → list_empty h s = Done (bool_decide (xs = [])).
Proof.
  intros OK E. destruct (lists_ok_get _ _ _ _ OK E) as (e & He & Hn & _).
  unfold list_empty. rewrite (get_Some _ _ _ He). simpl. rewrite Hn. f_equal.
  pose proof (lo_nodup _ _ OK _ _ E) as Hnd. apply bool_decide_ext.
  destruct xs as [|x xs]; simpl; [naive_solver|].
  apply NoDup_cons in Hnd as [Hh _]. split; [|done]. intros [= ->]. set_solver.
Qed.

Lemma list_add_ok s L h xs n :
  lists_ok s L → L !! h = Some xs → detached L n → is_Some (s !! n) → ∃ s',
    list_add n h s = Done s' ∧ lists_ok s' (<[h:=n :: xs]> L) ∧ dom s' = dom s.
Proof.
  intros OK E Hdet Hn. destruct (lists_ok_get _ _ _ _ OK E) as (e & He & Hnx & _).
  pose proof (lo_nodup _ _ OK _ _ E) as Hnd. pose proof (lo_ring _ _ OK _ _ E) as Hs.
  pose proof (Hdet _ _ E) as Hnh. pose proof (hd_in xs h) as Hq.
  unfold list_add. rewrite (get_Some _ _ _ He). cbn -[ListAdd_]. rewrite Hnx.
  destruct (ListAdd_spec s n h (hd h xs)) as (s' & -> & N & P & D).
  - done.
  - by exists e.
  - eapply lists_ok_in_dom; [done..|]. set_solver.
  - set_solver.
  - intros ->. set_solver.
  - exists s'. split_and!; [done| |done]. eapply lists_ok_update; [done|..].
    + simpl. split_and!; [links N P..|].
      destruct xs as [|x xs]; simpl in *; [split; links N P|].
      apply NoDup_cons in Hnd as [Hh Hnd]. apply NoDup_cons in Hnd as [Hx Hnd].
      destruct Hs as (_ & _ & Hs). split_and!; [links N P..|].
      eapply seg_frame; [| |exact Hs]; intros k Hk; links N P.
    + apply NoDup_cons in Hnd as [Hh Hnd].
      constructor; [set_solver|]. constructor; [set_solver|done].
    + intros h2 xs2 E2 Hne k Hk Hk2. pose proof (lists_ok_other _ _ _ _ _ _ _ OK E E2 Hne Hk2).
      pose proof (Hdet _ _ E2). set_solver.
    + intros h2 xs2 k E2 Hne Hk2. pose proof (lists_ok_other _ _ _ _ _ _ _ OK E E2 Hne Hk2).
      pose proof (Hdet _ _ E2). split; links N P.
Qed.

Lemma list_add_tail_ok s L h xs n :
  lists_ok s L → L !! h = Some xs → detached L n → is_Some (s !! n) → ∃ s',
    list_add_tail n h s = Done s' ∧ lists_ok s' (<[h:=xs ++ [n]]> L) ∧ dom s' = dom s.
Proof.
  intros OK E Hdet Hn. destruct (lists_ok_get _ _ _ _ OK E) as (e & He & _ & Hpx).
  pose proof (lo_nodup _ _ OK _ _ E) as Hnd. pose proof (lo_ring _ _ OK _ _ E) as Hs.
  pose proof (Hdet _ _ E) as Hnh. pose proof (final_in xs h) as Hq.
  unfold list_add_tail. rewrite (get_Some _ _ _ He). cbn -[ListAdd_]. rewrite Hpx.
  destruct (ListAdd_spec s n (final h xs) h) as (s' & -> & N & P & D).
  - done.
  - eapply lists_ok_in_dom; done.
  - by exists e.
  - intros ->. set_solver.
  - set_solver.
  - exists s'. split_and!; [done| |done].
    assert (h ≠ n) as Hhn by set_solver.
    eapply lists_ok_update; [done|..].
    + destruct xs as [|x xs] using rev_ind; simpl in *.
      * split_and!; links N P.
      * rewrite final_app in *. apply NoDup_cons in Hnd as [Hh Hnd].
        apply NoDup_app in Hnd as (Hnd & Hx & _).
        rewrite <- app_assoc. simpl. apply seg_app. apply seg_app in Hs as [Hs _]. split.
        -- eapply seg_frame; [| |exact Hs]; intros k Hk; links N P.
        -- simpl. split_and!; links N P.
    + apply NoDup_cons in Hnd as [Hh Hnd]. constructor; [set_solver|].
      apply NoDup_app. split_and!; [done|set_solver|apply NoDup_singleton].
    + intros h2 xs2 E2 Hne k Hk Hk2. pose proof (lists_ok_other _ _ _ _ _ _ _ OK E E2 Hne Hk2).
      pose proof (Hdet _ _ E2). set_solver.
    + intros h2 xs2 k E2 Hne Hk2. pose proof (lists_ok_other _ _ _ _ _ _ _ OK E E2 Hne Hk2).
      pose proof (Hdet _ _ E2). split; links N P.
Qed.

Lemma list_del_ok s L h l1 x l2 :
  lists_ok s L → L !! h = Some (l1 ++ x :: l2) → ∃ s',
    list_del x s = Done s' ∧ lists_ok s' (<[h:=l1 ++ l2]> L) ∧
    detached (<[h:=l1 ++ l2]> L) x ∧ s' !! x = Some (Links None None) ∧ dom s' = dom s.
Proof.
  intros OK E. pose proof (lo_nodup _ _ OK _ _ E) as Hnd.
  pose proof (lo_ring _ _ OK _ _ E) as Hs. apply NoDup_cons in Hnd as [Hh Hnd].
  pose proof Hs as Hs'. apply seg_app in Hs' as [Hs1 Hs2].
  apply seg_last in Hs1 as Hp. apply seg_first in Hs2 as Hq.
  pose proof (final_in l1 h) as Hpin. pose proof (hd_in l2 h) as Hqin.
  set (p := final h l1) in *. set (q := hd h l2) in *.
  pose proof (NoDup_app_cons_not_in _ _ _ Hnd) as (Hx1 & Hx2 & Hnd').
  destruct (list_del_spec s x p q Hq Hp) as (s' & -> & N & P & D).
  { eapply lists_ok_in_dom; [done..|]. set_solver. }
  { eapply lists_ok_in_dom; [done..|]. set_solver. }
  assert (p ≠ x) as Hpx by (intros E'; rewrite E' in Hpin; set_solver).
  assert (q ≠ x) as Hqx by (intros E'; rewrite E' in Hqin; set_solver).
  exists s'. split_and!; [done|..].
  - eapply lists_ok_update; [done|..].
    + eapply (seg_del s s' h l1 x l2 h p q); try done.
      * intros j ??. rewrite N, !decide_False; done.
      * intros j ??. rewrite P, !decide_False; done.
      * rewrite N, decide_False, decide_True; done.
      * rewrite P, decide_False, decide_True; done.
    + constructor; [set_solver|done].
    + intros h2 xs2 E2 Hne k Hk Hk2.
      pose proof (lists_ok_other _ _ _ _ _ _ _ OK E E2 Hne Hk2). set_solver.
    + intros h2 xs2 k E2 Hne Hk2.
      pose proof (lists_ok_other _ _ _ _ _ _ _ OK E E2 Hne Hk2).
      rewrite N, P, !decide_False; [done|..]; intros ->; set_solver.
  - intros h2 xs2 [[<- <-]|[Hne E2]]%lookup_insert_Some; [set_solver|].
    intros Hx. apply (lists_ok_other _ _ _ _ _ _ _ OK E E2 (not_eq_sym Hne) Hx). set_solver.
  - specialize (N x). specialize (P x). rewrite decide_True in N, P by done.
    unfold nxt, prv in N, P.
    assert (is_Some (s' !! x)) as [[nx px] Hx'].
    { apply elem_of_dom. rewrite D. apply elem_of_dom.
      eapply lists_ok_in_dom; [done..|]. set_solver. }
    rewrite Hx' in *. simpl in *. by subst.
  - done.
Qed.

Lemma InitListHead_ok s L h :
  lists_ok s L → detached L h → is_Some (s !! h) → ∃ s',
    InitListHead h s = Done s' ∧ lists_ok s' (<[h:=[]]> L) ∧ dom s' = dom s.
Proof.
  intros OK Hdet Hh. unfold InitListHead.
  destruct (set_next_spec s h (Some h) Hh) as (s1 & -> & N1 & P1 & D1).
  destruct (set_prev_spec s1 h (Some h) (is_Some_dom _ _ _ D1 Hh)) as (s2 & E2 & N2 & P2 & D2).
  cbn -[set_prev]. rewrite E2. exists s2. split_and!; [done| |congruence].
  eapply lists_ok_update; [done|..].
  - simpl. rewrite N2, N1, P2, !decide_True by done. done.
  - apply NoDup_singleton.
  - intros h2 xs2 E' Hne k Hk Hk2. apply (Hdet _ _ E'). set_solver.
  - intros h2 xs2 k E' Hne Hk. rewrite N2, N1, P2, P1, !decide_False; [done|..];
      intros ->; by apply (Hdet _ _ E').
Qed.

(** ** Iteration *)

Lemma NoDup_dom_size {V} (m : gmap K V) (l : list K) :
  NoDup l → (∀ k, k ∈ l → is_Some (m !! k)) → length l ≤ size m.
Proof.
  intros Hnd Hin. rewrite <- (size_dom (D:=gset K)).
  rewrite <- (size_list_to_set (C:=gset K) l) by done. apply subseteq_size.
  intros k Hk. apply elem_of_list_to_set in Hk. apply elem_of_dom. auto.
Qed.

Lemma lists_ok_size s L h xs : lists_ok s L → L !! h = Some xs → S (length xs) ≤ size s.
Proof.
  intros OK E. apply (NoDup_dom_size s (h :: xs)); [by eapply lo_nodup|].
  intros. by eapply lists_ok_in_dom.
Qed.

Lemma lists_ok_suffix s L h pre k rest :
  lists_ok s L → L !! h = Some (pre ++ k :: rest) → nxt s k = Some (hd h rest) ∧ k ≠ h.
Proof.
  intros OK E. pose proof (lo_nodup _ _ OK _ _ E) as Hnd.
  pose proof (lo_ring _ _ OK _ _ E) as Hs.
  apply seg_app in Hs as [_ Hs]. split; [by apply seg_first in Hs|].
  apply NoDup_cons in Hnd as [Hh _]. set_solver.
Qed.

Section iteration.
Context {St R : Type} (lk : St → store) (body : K → St → run (St * option R)) (h : K).
Variable I : list K → St → Prop.
Hypothesis I_suffix : ∀ rest st, I rest st → ∃ L pre,
  lists_ok (lk st) L ∧ L !! h = Some (pre ++ rest).
Hypothesis I_step : ∀ k rest st st',
  I (k :: rest) st → body k st = Done (st', None) → I rest st'.

Lemma I_next rest st : I rest st → ∃ e, lk st !! (hd h rest) = Some e ∧
  (∀ k r, rest = k :: r → next e = Some (hd h r) ∧ k ≠ h).
Proof.
  intros HI. destruct (I_suffix _ _ HI) as (L & pre & OK & E).
  assert (is_Some (lk st !! hd h rest)) as [e He].
  { eapply lists_ok_in_dom; [done..|]. pose proof (hd_in rest h). set_solver. }
  exists e. split; [done|]. intros k r ->. simpl in He.
  rewrite (nxt_get _ _ _ He). by eapply lists_ok_suffix.
Qed.

Lemma for_each_loop_each fuel xs tmp st :
  I xs st → length xs < fuel →
  (∀ k r, xs = k :: r → tmp = Some (hd h r)) →
  for_each_loop lk body fuel h (Some (hd h xs)) tmp st = each body xs st.
Proof.
  revert xs tmp st. induction fuel as [|fuel IH]; intros xs tmp st HI Hf Ht; [lia|].
  destruct xs as [|k rest]; simpl; [by rewrite decide_True|].
  destruct (I_next _ _ HI) as (e & He & Hk). destruct (Hk _ _ eq_refl) as [_ Hkh].
  rewrite decide_False by naive_solver. destruct (body k st) as [[st' r]|] eqn:Eb; simpl; [|done].
  destruct r; [done|]. pose proof (I_step _ _ _ _ HI Eb) as HI'.
  destruct (I_next _ _ HI') as (e' & He' & Hk').
  rewrite (Ht _ _ eq_refl). simpl. rewrite He'. simpl. apply IH; [done|simpl in *; lia|].
  intros k2 r2 ->. by destruct (Hk' _ _ eq_refl).
Qed.

Lemma list_for_each_each xs st L :
  lists_ok (lk st) L → L !! h = Some xs → I xs st →
  list_for_each lk body h st = each body xs st.
Proof.
  intros OK E HI. unfold list_for_each.
  destruct (lists_ok_get _ _ _ _ OK E) as (e & He & Hn & _).
  destruct (I_next _ _ HI) as (e' & He' & Hk).
  rewrite (get_Some _ _ _ He). cbn -[for_each_loop]. rewrite Hn.
  rewrite (get_Some _ _ _ He'). cbn -[for_each_loop].
  apply for_each_loop_each; [done| |].
  - pose proof (lists_ok_size _ _ _ _ OK E). lia.
  - intros k r ->. by destruct (Hk _ _ eq_refl).
Qed.
End iteration.

(** A body that does not write links: plain iteration over the sequence. *)
Lemma list_for_each_read {St R} (lk : St → store) (body : K → St → run (St * option R))
    h xs st L :
  lists_ok (lk st) L → L !! h = Some xs →
  (∀ k st1 st2 r, body k st1 = Done (st2, r) → lk st2 = lk st1) →
  list_for_each lk body h st = each body xs st.
Proof.
  intros OK E Hro.
  apply (list_for_each_each lk body h
    (λ rest st', lk st' = lk st ∧ ∃ pre, xs = pre ++ rest)) with (L := L); try done.
  - intros rest st' [Hlk [pre ->]]. exists L, pre. by rewrite Hlk.
  - intros k rest st1 st2 [Hlk [pre Hpre]] Hb. split.
    + rewrite <- Hlk. by eapply Hro.
    + exists (pre ++ [k]). rewrite Hpre. by rewrite <- app_assoc.
  - split; [done|]. by exists [].
Qed.

Lemma list_move_ok s L h1 l1 x l2 h2 ys :
  lists_ok s L → L !! h1 = Some (l1 ++ x :: l2) →
  <[h1:=l1 ++ l2]> L !! h2 = Some ys → ∃ s',
    list_move x h2 s = Done s' ∧
    lists_ok s' (<[h2:=x :: ys]> (<[h1:=l1 ++ l2]> L)) ∧ dom s' = dom s.
Proof.
  intros OK E E2. destruct (list_del_ok _ _ _ _ _ _ OK E) as (s1 & E1 & OK1 & Hdet & Hx & D1).
  destruct (list_add_ok s1 _ h2 ys x OK1 E2 Hdet) as (s2 & E3 & OK2 & D2); [by eexists|].
  unfold list_move. rstep E1. rstep E3. exists s2. split_and!; [done..|congruence].
Qed.

Lemma list_move_tail_ok s L h1 l1 x l2 h2 ys :
  lists_ok s L → L !! h1 = Some (l1 ++ x :: l2) →
  <[h1:=l1 ++ l2]> L !! h2 = Some ys → ∃ s',
    list_move_tail x h2 s = Done s' ∧
    lists_ok s' (<[h2:=ys ++ [x]]> (<[h1:=l1 ++ l2]> L)) ∧ dom s' = dom s.
Proof.
  intros OK E E2. destruct (list_del_ok _ _ _ _ _ _ OK E) as (s1 & E1 & OK1 & Hdet & Hx & D1).
  destruct (list_add_tail_ok s1 _ h2 ys x OK1 E2 Hdet) as (s2 & E3 & OK2 & D2); [by eexists|].
  unfold list_move_tail. rstep E1. rstep E3. exists s2. split_and!; [done..|congruence].
Qed.

(** The common loop body [if (cond) list_del(pos)]. *)
Definition del_if (p : K → bool) (k : K) (s : store) : run (store * option unit) :=
  if p k then s ← list_del k s; Done (s, None) else Done (s, None).

Lemma each_del_if p s L h pre xs :
  lists_ok s L → L !! h = Some (pre ++ xs) → ∃ s',
    each (del_if p) xs s = Done (s', None) ∧
    lists_ok s' (<[h:=pre ++ filter (λ k, p k = false) xs]> L).
Proof.
  revert s L pre. induction xs as [|k xs IH]; intros s L pre OK E; simpl.
  - exists s. split; [done|]. by rewrite insert_id.
  - destruct (p k) eqn:Ek.
    + destruct (list_del_ok _ _ _ _ _ _ OK E) as (s1 & Ed & OK1 & _).
      assert (del_if p k s = Done (s1, None)) as -> by (unfold del_if; by rewrite Ek, Ed).
      rsimpl. destruct (IH s1 _ pre OK1) as (s2 & -> & OK2); [by rewrite lookup_insert_eq|].
      exists s2. split; [done|]. rewrite filter_cons_False by congruence.
      by rewrite insert_insert_eq in OK2.
    + assert (del_if p k s = Done (s, None)) as -> by (unfold del_if; by rewrite Ek).
      rsimpl. destruct (IH s L (pre ++ [k]) OK) as (s2 & -> & OK2); [by rewrite <- app_assoc|].
      exists s2. split; [done|]. rewrite filter_cons_True by done.
      by rewrite <- app_assoc in OK2.
Qed.

End list_head.

(** ** Membership and length, when the order on a list does not matter *)

Section membership.
Context {K : Type} `{Countable K}.
Implicit Types (s : gmap K (list_head K)) (L : gmap K (list K)) (h n x : K).

Definition on_list L h n : Prop := ∃ xs, L !! h = Some xs ∧ n ∈ xs.

Definition llen L h : Z := match L !! h with Some xs => Z.of_nat (length xs) | None => 0%Z end.

Definition one_if (P : Prop) `{Decision P} : Z := if decide P then 1%Z else 0%Z.

Lemma on_list_insert L h xs h' n :
  on_list (<[h:=xs]> L) h' n ↔ (h' = h ∧ n ∈ xs) ∨ (h' ≠ h ∧ on_list L h' n).
Proof.
  unfold on_list. split.
  - intros (ys & [[<- <-]|[Hne E]]%lookup_insert_Some & Hin); [by left|right]. eauto.
  - intros [[-> Hin]|[Hne (ys & E & Hin)]]; [exists xs; by rewrite lookup_insert_eq|].
    exists ys. by rewrite lookup_insert_ne.
Qed.

Lemma llen_insert L h xs h' :
  llen (<[h:=xs]> L) h' = if decide (h' = h) then Z.of_nat (length xs) else llen L h'.
Proof.
  unfold llen. case_decide as E; [subst; by rewrite lookup_insert_eq|].
  by rewrite lookup_insert_ne.
Qed.

Lemma on_list_unique s L h1 h2 n : lists_ok s L → on_list L h1 n → on_list L h2 n → h1 = h2.
Proof.
  intros OK (xs & E1 & H1) (ys & E2 & H2). destruct (decide (h1 = h2)) as [|Hne]; [done|].
  exfalso. apply (lo_disj _ _ OK _ _ _ _ E1 E2 Hne n); set_solver.
Qed.

Lemma on_list_head L s h h' : lists_ok s L → is_Some (L !! h') → ¬ on_list L h h'.
Proof.
  intros OK [ys E2] (xs & E1 & H1). destruct (decide (h = h')) as [->|Hne].
  - rewrite E1 in E2. injection E2 as ->. apply (lo_nodup _ _ OK) in E1.
    apply NoDup_cons in E1. tauto.
  - apply (lo_disj _ _ OK _ _ _ _ E1 E2 Hne h'); set_solver.
Qed.

Lemma detached_spec L n : detached L n ↔ L !! n = None ∧ ∀ h, ¬ on_list L h n.
Proof.
  split.
  - intros Hd. split.
    + destruct (L !! n) as [xs|] eqn:E; [|done]. destruct (Hd n xs E). set_solver.
    + intros h (xs & E & Hin). destruct (Hd h xs E). set_solver.
  - intros [Hn Hno] h xs E [->|Hin]%elem_of_cons; [congruence|]. apply (Hno h). by exists xs.
Qed.

Lemma dom_insert_is_Some {V} (m : gmap K V) k v : is_Some (m !! k) → dom (<[k:=v]> m) = dom m.
Proof. apply dom_insert_lookup_L. Qed.

Lemma list_del_on s L h x : lists_ok s L → on_list L h x → ∃ s' L',
  list_del x s = Done s' ∧ lists_ok s' L' ∧ dom s' = dom s ∧ dom L' = dom L ∧ detached L' x ∧
  (∀ h' n, on_list L' h' n ↔ n ≠ x ∧ on_list L h' n) ∧
  (∀ h', llen L' h' = (llen L h' - one_if (h' = h))%Z).
Proof.
  intros OK (xs & E & (l1 & l2 & ->)%list_elem_of_split).
  destruct (list_del_ok _ _ _ _ _ _ OK E) as (s' & Es & OK' & Hd & _ & D).
  pose proof (lo_nodup _ _ OK _ _ E) as [_ Hnd]%NoDup_cons.
  apply NoDup_app_cons_not_in in Hnd as (Hn1 & Hn2 & _).
  exists s', (<[h:=l1 ++ l2]> L). split_and!; try done.
  - apply dom_insert_is_Some. eauto.
  - intros h' n. rewrite on_list_insert. split.
    + intros [[-> Hin]|[Hne Hin]].
      * split; [intros ->; apply elem_of_app in Hin; tauto|].
        exists (l1 ++ x :: l2). split; [done|]. set_solver.
      * split; [|done]. intros ->. apply Hne.
        eapply (on_list_unique _ _ _ _ _ OK Hin). exists (l1 ++ x :: l2). split; [done|set_solver].
    + intros [Hne Hin]. destruct (decide (h' = h)) as [->|]; [|by right]. left. split; [done|].
      destruct Hin as (ys & E' & Hin). simplify_eq. set_solver.
  - intros h'. rewrite llen_insert. unfold one_if. case_decide as Eh; [|lia]. subst h'.
    unfold llen. rewrite E, !length_app. simpl. lia.
Qed.

Lemma list_add_on s L h x : lists_ok s L → is_Some (L !! h) → detached L x → is_Some (s !! x) →
  ∃ s' L', list_add x h s = Done s' ∧ lists_ok s' L' ∧ dom s' = dom s ∧ dom L' = dom L ∧
  (∀ h' n, on_list L' h' n ↔ (h' = h ∧ n = x) ∨ on_list L h' n) ∧
  (∀ h', llen L' h' = (llen L h' + one_if (h' = h))%Z).
Proof.
  intros OK [xs E] Hd Hx. destruct (list_add_ok _ _ _ _ _ OK E Hd Hx) as (s' & Es & OK' & D).
  exists s', (<[h:=x :: xs]> L). split_and!; try done.
  - apply dom_insert_is_Some. eauto.
  - intros h' n. rewrite on_list_insert, elem_of_cons.
    destruct (decide (h' = h)) as [->|]; [|tauto]. unfold on_list. rewrite E. naive_solver.
  - intros h'. rewrite llen_insert. unfold one_if. case_decide as Eh; [|lia]. subst h'.
    unfold llen. rewrite E. simpl. lia.
Qed.

Lemma list_add_tail_on s L h x :
  lists_ok s L → is_Some (L !! h) → detached L x → is_Some (s !! x) →
  ∃ s' L', list_add_tail x h s = Done s' ∧ lists_ok s' L' ∧ dom s' = dom s ∧ dom L' = dom L ∧
  (∀ h' n, on_list L' h' n ↔ (h' = h ∧ n = x) ∨ on_list L h' n) ∧
  (∀ h', llen L' h' = (llen L h' + one_if (h' = h))%Z).
Proof.
  intros OK [xs E] Hd Hx. destruct (list_add_tail_ok _ _ _ _ _ OK E Hd Hx) as (s' & Es & OK' & D).
  exists s', (<[h:=xs ++ [x]]> L). split_and!; try done.
  - apply dom_insert_is_Some. eauto.
  - intros h' n. rewrite on_list_insert, elem_of_app, list_elem_of_singleton.
    destruct (decide (h' = h)) as [->|]; [|tauto]. unfold on_list. rewrite E. naive_solver.
  - intros h'. rewrite llen_insert. unfold one_if. case_decide as Eh; [|lia]. subst h'.
    unfold llen. rewrite E, length_app. simpl. lia.
Qed.

Lemma list_move_on s L h1 h2 x : lists_ok s L → on_list L h1 x → is_Some (L !! h2) → ∃ s' L',
  list_move x h2 s = Done s' ∧ lists_ok s' L' ∧ dom s' = dom s ∧ dom L' = dom L ∧
  (∀ h' n, on_list L' h' n ↔ (h' = h2 ∧ n = x) ∨ (n ≠ x ∧ on_list L h' n)) ∧
  (∀ h', llen L' h' = (llen L h' - one_if (h' = h1) + one_if (h' = h2))%Z).
Proof.
  intros OK Hx Hh. destruct (list_del_on _ _ _ _ OK Hx) as (s1 & L1 & E1 & OK1 & D1 & DL1 & Hd & O1 & C1).
  destruct (list_add_on s1 L1 h2 x OK1) as (s2 & L2 & E2 & OK2 & D2 & DL2 & O2 & C2); [|done|..].
  - apply elem_of_dom. rewrite DL1. by apply elem_of_dom.
  - apply elem_of_dom. rewrite D1. apply elem_of_dom. destruct Hx as (xs & E & Hin).
    eapply lists_ok_in_dom; [done..|]. set_solver.
  - exists s2, L2. unfold list_move. rstep E1. split_and!; [done..|congruence|congruence| |].
    + intros h' n. rewrite O2, O1. done.
    + intros h'. rewrite C2, C1. done.
Qed.
(** Writing a node that is on no list. *)
Lemma lists_ok_detached s L n e : lists_ok s L → detached L n → lists_ok (<[n:=e]> s) L.
Proof.
  intros OK Hd. split; [|apply (lo_nodup _ _ OK)|apply (lo_disj _ _ OK)].
  intros h xs E. pose proof (Hd _ _ E). eapply seg_frame; [| |by eapply lo_ring];
    intros k Hk; rewrite ?nxt_insert, ?prv_insert; case_decide; subst; try done; set_solver.
Qed.
(** A new, empty list. *)
Lemma lists_ok_new s L h : lists_ok s L → detached L h →
  lists_ok (<[h:=Links (Some h) (Some h)]> s) (<[h:=[]]> L).
Proof.
  intros OK Hd. eapply lists_ok_update; [done|..].
  - simpl. by rewrite nxt_insert, prv_insert, !decide_True by done.
  - apply NoDup_singleton.
  - intros h2 xs2 E Hne k Hk Hk2. apply (Hd _ _ E). set_solver.
  - intros h2 xs2 k E Hne Hk. rewrite nxt_insert, prv_insert, !decide_False; [done|..];
      intros ->; by apply (Hd _ _ E).
Qed.

Lemma detached_insert_nil L h n : detached L n → n ≠ h → detached (<[h:=[]]> L) n.
Proof.
  intros Hd Hne h' xs [[<- <-]|[_ E]]%lookup_insert_Some; [set_solver|by eapply Hd].
Qed.
End membership.

(** ** Properties *)

(** Moving a node with [list_move] or [list_move_tail] (unlink, then
    relink) succeeds on every well-formed family of lists, whatever the two
    lists and the position, never follows a bad pointer, and has on the
    abstract sequences exactly the effect of removing the node and putting it
    at the front, respectively the back, of the target list; all the other
    lists and their links stay well formed. *)
Theorem list_move_refines `{Countable K} (s : gmap K (list_head K)) L h1 l1 x l2 h2 ys :
  lists_ok s L → L !! h1 = Some (l1 ++ x :: l2) →
  <[h1:=l1 ++ l2]> L !! h2 = Some ys →
  (∃ s', list_move x h2 s = Done s' ∧
         lists_ok s' (<[h2:=x :: ys]> (<[h1:=l1 ++ l2]> L))) ∧
  (∃ s', list_move_tail x h2 s = Done s' ∧
         lists_ok s' (<[h2:=ys ++ [x]]> (<[h1:=l1 ++ l2]> L))).
Proof.
  intros OK E E2. split.
  - destruct (list_move_ok _ _ _ _ _ _ _ _ OK E E2) as (s' & ? & ? & _). eauto.
  - destruct (list_move_tail_ok _ _ _ _ _ _ _ _ OK E E2) as (s' & ? & ? & _). eauto.
Qed.

(** [list_for_each] tolerates a body that unlinks the node it visits: the
    loop terminates without following a dangling pointer, visits every node of
    the list once and leaves exactly the nodes the body did not unlink, in
    order. *)
Theorem list_for_each_del `{Countable K} (p : K → bool) (s : gmap K (list_head K)) L h xs :
  lists_ok s L → L !! h = Some xs → ∃ s',
    list_for_each id (del_if p) h s = Done (s', None) ∧
    lists_ok s' (<[h:=filter (λ k, p k = false) xs]> L).
Proof.
  intros OK E. destruct (each_del_if p s L h [] xs OK E) as (s' & E' & OK').
  exists s'. split; [|done]. rewrite <- E'.
  apply (list_for_each_each id (del_if p) h
    (λ rest st, ∃ L pre, lists_ok st L ∧ L !! h = Some (pre ++ rest))) with (L := L); try done.
  - intros k rest st st' (L' & pre & OK1 & E1). unfold del_if. case_if; intros Hb.
    + destruct (list_del_ok _ _ _ _ _ _ OK1 E1) as (s1 & E2 & OK2 & _).
      rewrite E2 in Hb. simpl in Hb. simplify_eq. eexists _, pre. split; [done|].
      by rewrite lookup_insert_eq.
    + simplify_eq. exists L', (pre ++ [k]). split; [done|]. by rewrite <- app_assoc.
  - by exists L, [].
Qed.

(** A concrete family: heads 0 and 10, the nodes 1, 2, 3 on the first list. *)
Definition demo_lists : gmap nat (list_head nat) :=
  match (s ← InitListHead 0 (list_to_map ((λ i, (i, Links None None)) <$> [0; 1; 2; 3; 10]));
         s ← InitListHead 10 s;
         s ← list_add_tail 1 0 s; s ← list_add_tail 2 0 s; list_add_tail 3 0 s) with
  | Done s => s
  | Stop _ => ∅
  end.

Lemma demo_lists_ok : lists_ok demo_lists {[0 := [1; 2; 3]; 10 := []]}.
Proof.
  split.
  - intros h xs [[<- <-]|[_ [<- <-]%lookup_singleton_Some]]%lookup_insert_Some;
      vm_compute; tauto.
  - intros h xs [[<- <-]|[_ [<- <-]%lookup_singleton_Some]]%lookup_insert_Some;
      repeat constructor; set_solver.
  - intros h1 h2 xs1 xs2 [[<- <-]|[_ [<- <-]%lookup_singleton_Some]]%lookup_insert_Some
      [[<- <-]|[_ [<- <-]%lookup_singleton_Some]]%lookup_insert_Some Hne; set_solver.
Qed.

Lemma list_move_refines_witness :
  (∃ s', list_move 2 10 demo_lists = Done s' ∧
         lists_ok s' (<[10:=[2]]> (<[0:=[1; 3]]> {[0 := [1; 2; 3]; 10 := []]}))) ∧
  (∃ s', list_move_tail 2 10 demo_lists = Done s' ∧
         lists_ok s' (<[10:=[2]]> (<[0:=[1; 3]]> {[0 := [1; 2; 3]; 10 := []]}))).
Proof.
  apply (list_move_refines demo_lists {[0 := [1; 2; 3]; 10 := []]} 0 [1] 2 [3] 10 []).
  - exact demo_lists_ok.
  - reflexivity.
  - reflexivity.
Defined.

Lemma list_for_each_del_witness : ∃ s',
  list_for_each id (del_if (λ k, Nat.eqb k 2)) 0 demo_lists = Done (s', None) ∧
  lists_ok s' (<[0:=[1; 3]]> {[0 := [1; 2; 3]; 10 := []]}).
Proof.
  apply (list_for_each_del (λ k, Nat.eqb k 2) demo_lists {[0 := [1; 2; 3]; 10 := []]} 0 [1; 2; 3]).
  - exact demo_lists_ok.
  - reflexivity.
Defined.
