(* ===== verification/Helpers.v ===== *)
(** * Arithmetic helpers (lizard/helpers.h, lizard/helpers.c)

    Alignment of addresses on unsigned 64-bit integers, the octal parser and
    the length of a month. *)

From S2P Require Import Prelude.

Local Open Scope Z_scope.

Definition PAGE_SIZE : Z := 4096.

(** [x & ~(a - 1)] after [x + a - 1], all on 64 bits. *)
Definition align_up (x a : Z) : Z :=
  Z.land (u64 (x + a - 1)) (u64 (Z.lnot (u64 (a - 1)))).

(** The macro [num - (num % align)]. *)
Definition align_down (num align : Z) : Z := num - num mod align.

(** The macro [ptr & ~(align - 1)]. *)
Definition align_ptr_down (ptr align : Z) : Z :=
  Z.land ptr (u64 (Z.lnot (align - 1))).

Fixpoint oct2bin_loop (str : list Z) (size : nat) (n : Z) : run Z :=
  match size with
  | O => Done n
  | S size =>
      match str with
      | [] => Stop Fault
      | c :: str => oct2bin_loop str size (i32 (i32 (n * 8) + (c - 48)))
      end
  end.

Definition oct2bin (str : list Z) (size : Z) : run Z :=
  oct2bin_loop str (Z.to_nat size) 0.

Definition days_in_month (month year : Z) : run Z :=
  let days := [31; 28; 31; 30; 31; 30; 31; 31; 30; 31; 30; 31] in
  if (month =? 2) && (((Z.rem year 4 =? 0) && negb (Z.rem year 100 =? 0))
                      || (Z.rem year 400 =? 0))
  then Done 29
  else if month - 1 <? 0 then Stop Fault
  else access (days !! Z.to_nat (month - 1)).

(** ** Masks *)

Lemma land_wrap x y w : 0 <= w → 0 <= x < 2 ^ w → Z.land x (wrap w y) = Z.land x y.
Proof.
  intros Hw Hx. unfold wrap. rewrite <- Z.land_ones by lia.
  rewrite Z.land_assoc, (Z.land_comm x y), <- Z.land_assoc, (Z.land_ones x) by lia.
  by rewrite Z.mod_small by lia.
Qed.

Lemma land_lnot_ones x k : 0 <= k → Z.land x (Z.lnot (2 ^ k - 1)) = x - x mod 2 ^ k.
Proof.
  intros Hk. replace (2 ^ k - 1) with (Z.ones k) by (rewrite Z.ones_equiv; lia).
  rewrite <- Z.ldiff_land, Z.ldiff_ones_r, Z.shiftr_div_pow2, Z.shiftl_mul_pow2 by lia.
  pose proof (Z.div_mod x (2 ^ k)). pose proof (pow2_pos k). lia.
Qed.

Lemma mask_down x k : 0 <= k <= 64 → 0 <= x < 2 ^ 64 →
  Z.land x (u64 (Z.lnot (2 ^ k - 1))) = x - x mod 2 ^ k.
Proof. intros. rewrite land_wrap by lia. apply land_lnot_ones. lia. Qed.

Lemma align_down_spec x k : 0 <= k → 0 <= x →
  align_down x (2 ^ k) = x / 2 ^ k * 2 ^ k.
Proof.
  intros. unfold align_down. pose proof (pow2_pos k).
  pose proof (Z.div_mod x (2 ^ k)). lia.
Qed.

Lemma align_ptr_down_spec x k : 0 <= k <= 64 → 0 <= x < 2 ^ 64 →
  align_ptr_down x (2 ^ k) = x - x mod 2 ^ k.
Proof. apply mask_down. Qed.

(** Without wrap-around [align_up] rounds up to the next multiple. *)
Lemma align_up_spec x k :
  0 <= k < 64 → 0 <= x → x + 2 ^ k - 1 < 2 ^ 64 →
  align_up x (2 ^ k) = (x + 2 ^ k - 1) / 2 ^ k * 2 ^ k.
Proof.
  intros Hk Hx Hov. pose proof (pow2_pos k). unfold align_up.
  assert (2 ^ k < 2 ^ 64) by (apply Z.pow_lt_mono_r; lia).
  rewrite (wrap_small 64 (2 ^ k - 1)) by lia.
  rewrite (wrap_small 64 (x + 2 ^ k - 1)) by lia.
  rewrite mask_down by lia.
  pose proof (Z.div_mod (x + 2 ^ k - 1) (2 ^ k)). lia.
Qed.

Lemma align_up_bounds x k :
  0 <= k < 64 → 0 <= x → x + 2 ^ k - 1 < 2 ^ 64 →
  x <= align_up x (2 ^ k) < x + 2 ^ k ∧ align_up x (2 ^ k) mod 2 ^ k = 0.
Proof.
  intros Hk Hx Hov. pose proof (pow2_pos k). rewrite align_up_spec by lia. split.
  - pose proof (Z.div_mod (x + 2 ^ k - 1) (2 ^ k)).
    pose proof (Z.mod_pos_bound (x + 2 ^ k - 1) (2 ^ k)). lia.
  - apply Z.mod_mul. lia.
Qed.

Lemma align_up_aligned x k : 0 <= k < 64 → 0 <= x → x + 2 ^ k - 1 < 2 ^ 64 →
  x mod 2 ^ k = 0 → align_up x (2 ^ k) = x.
Proof.
  intros Hk Hx Hov Hm. pose proof (pow2_pos k). rewrite align_up_spec by lia.
  apply Z.mod_divide in Hm as [q ->]; [|lia].
  replace (q * 2 ^ k + 2 ^ k - 1) with (2 ^ k - 1 + q * 2 ^ k) by lia.
  rewrite Z.div_add, Z.div_small by lia. lia.
Qed.

Lemma page_size_pow : PAGE_SIZE = 2 ^ 12.
Proof. reflexivity. Qed.

#[export] Hint Rewrite page_size_pow : lizard.
