(* ===== verification/EarlyAlloc.v ===== *)
(** * Boot memory map and the early bump allocator
    (lizard/boot.h, lizard/early_alloc.c)

    [early_alloc_init] picks the largest usable region of the memory map; the
    bump allocator then hands out consecutive addresses of that region until
    the buddy allocator takes over. *)

From S2P Require Import Prelude Helpers.

Local Open Scope Z_scope.

Definition BOOT_INFO_MAGIC : Z := 0x4C495A424F4F5431.
Definition BOOT_HHDM_BASE : Z := 0xFFFF800000000000.
Definition BI_USABLE : Z := 1.

Record bi_mmap_entry := MmapEntry { base : Z; len : Z; type : Z }.

(** The linear framebuffer of the hand-off structure. *)
Record boot_fb := BootFb {
  fb_base : Z; fb_size : Z; fb_width : Z; fb_height : Z;
  fb_pitch : Z; fb_bpp : Z; fb_format : Z
}.

(** [mmap] is the array with its length [mmap_count]. *)
Record boot_info := BootInfo {
  bi_magic : Z;
  hhdm_base : Z;
  bi_highest_addr : Z;
  kernel_phys_base : Z;
  kernel_virt_base : Z;
  bi_kernel_size : Z;
  scratch_phys_base : Z;
  scratch_size : Z;
  mmap : list bi_mmap_entry;
  cmdline : list Z;
  framebuffer : boot_fb
}.

Definition BI_MMAP_MAX : nat := 256.

(** The copy of the loader's structure keeps at most [BI_MMAP_MAX] entries. *)
Definition boot_info_relocate (src : option boot_info) : run boot_info :=
  match src with
  | None => Stop Panic
  | Some bi =>
      if negb (bi_magic bi =? BOOT_INFO_MAGIC) then Stop Panic
      else Done (BootInfo (bi_magic bi) (hhdm_base bi) (bi_highest_addr bi)
                   (kernel_phys_base bi) (kernel_virt_base bi) (bi_kernel_size bi)
                   (scratch_phys_base bi) (scratch_size bi)
                   (take BI_MMAP_MAX (mmap bi)) (cmdline bi) (framebuffer bi))
  end.

Record early := Early {
  highest_addr : Z;
  hhdm_offset : Z;
  early_base : Z;
  early_end : Z;
  early_current : Z
}.

(** One round of the loop of [early_alloc_init]: the largest usable region so
    far and the highest usable address. *)
Definition early_scan (acc : Z * Z * Z) (entry : bi_mmap_entry) : Z * Z * Z :=
  let '(largest_base, largest_size, highest) := acc in
  if type entry =? BI_USABLE then
    let '(lb, ls) := if largest_size <? len entry
                     then (base entry, len entry) else (largest_base, largest_size) in
    let top := u64 (base entry + len entry) in
    (lb, ls, if highest <? top then top else highest)
  else acc.

Definition early_alloc_init (bi : option boot_info) : run early :=
  match bi with
  | None => Stop Panic
  | Some bi =>
      if negb (bi_magic bi =? BOOT_INFO_MAGIC) || bool_decide (mmap bi = []) then Stop Panic
      else
        let '(lb, ls, hi) := foldl early_scan (0, 0, 0) (mmap bi) in
        let eb := align_up lb PAGE_SIZE in
        Done (Early hi (hhdm_base bi) eb (align_down (u64 (lb + ls)) PAGE_SIZE) eb)
  end.

Definition early_alloc (size align : Z) (e : early) : run (early * Z) :=
  let align := if align =? 0 then 8 else align in
  let curr := align_up (early_current e) align in
  let next := u64 (curr + size) in
  if early_end e <? next then Stop Panic
  else Done (Early (highest_addr e) (hhdm_offset e) (early_base e) (early_end e) next,
             u64 (curr + hhdm_offset e)).

(** ** Correctness *)

Record early_inv (e : early) : Prop := {
  ei_range : 0 <= early_base e <= early_current e ∧ early_current e <= early_end e;
  ei_end : early_end e + PAGE_SIZE <= 2 ^ 64
}.

(** Every allocation lies above everything handed out before and below the
    end of the region. *)
Lemma early_alloc_spec size k e e' p :
  early_inv e → 0 <= k <= 12 → 0 <= size < 2 ^ 62 → early_end e < 2 ^ 63 →
  early_alloc size (2 ^ k) e = Done (e', p) →
  ∃ a, p = u64 (a + hhdm_offset e) ∧ early_current e <= a ∧ a mod 2 ^ k = 0 ∧
    early_current e' = a + size ∧ a + size <= early_end e ∧ early_inv e'.
Proof.
  intros [Hr He] Hk Hs Hend. unfold early_alloc. pose proof (pow2_pos k).
  rewrite (proj2 (Z.eqb_neq _ _)) by lia.
  assert (2 ^ k <= 2 ^ 12) by (apply Z.pow_le_mono_r; lia).
  assert (2 ^ 64 = 4 * 2 ^ 62 ∧ 2 ^ 63 = 2 * 2 ^ 62 ∧ 2 ^ 62 > 5000) as (? & ? & ?) by done.
  unfold PAGE_SIZE in *. change (2 ^ 12) with 4096 in *.
  destruct (align_up_bounds (early_current e) k) as [Hb Hm]; [lia..|].
  set (c := align_up _ _) in *. rewrite (wrap_small 64 (c + size)) by lia.
  case_if; [done|]. intros [= <- <-]. exists c. simpl. split_and!; try done; try lia.
  constructor; simpl; unfold PAGE_SIZE; lia.
Qed.
