(* ===== verification/PageAlloc.v ===== *)
(** * The interface of the page allocator (lizard/buddy.h)

    What [buddy_alloc] and [buddy_free] promise to the slab allocator, the
    general allocator and the page tables. [pa_own s A] says that the blocks
    [A] (order and address) are handed out in the state [s]; the clients'
    theorems are proved against the class, and the buddy allocator is its
    instance. *)

From S2P Require Import Prelude Helpers.

Local Open Scope Z_scope.

(** Two blocks share no byte. *)
Definition apart (x y : Z * Z) : Prop :=
  x.2 + 2 ^ x.1 * PAGE_SIZE <= y.2 ∨ y.2 + 2 ^ y.1 * PAGE_SIZE <= x.2.

Class page_allocator (S : Type) := PageAllocator {
  pa_alloc : Z → S → run (S * Z);         (* buddy_alloc(order) *)
  pa_free : Z → Z → S → run S;            (* buddy_free(vaddr, order) *)
  pa_own : S → list (Z * Z) → Prop
}.

Class PageAllocatorLaws (S : Type) `{!page_allocator S} : Prop := {
  pa_alloc_ok o s A : 0 <= o → pa_own s A → ∃ s' v,
    pa_alloc o s = Done (s', v) ∧
    ((v = 0 ∧ pa_own s' A) ∨ (v ≠ 0 ∧ pa_own s' ((o, v) :: A)));
  pa_free_ok o v s A1 A2 : pa_own s (A1 ++ (o, v) :: A2) → ∃ s',
    pa_free v o s = Done s' ∧ pa_own s' (A1 ++ A2);
  pa_range s A o v : pa_own s A → (o, v) ∈ A →
    0 <= o <= 16 ∧ 0 < v ∧ v mod PAGE_SIZE = 0 ∧ v + 2 ^ o * PAGE_SIZE < 2 ^ 64;
  pa_apart s A i j x y : pa_own s A →
    A !! i = Some x → A !! j = Some y → i ≠ j → apart x y
}.

Lemma apart_sym x y : apart x y → apart y x.
Proof. unfold apart. tauto. Qed.

Lemma lookup_remove {T} (A1 : list T) x A2 i : (A1 ++ A2) !! i =
  (A1 ++ x :: A2) !! (if decide (i < length A1)%nat then i else S i).
Proof.
  case_decide; [by rewrite !lookup_app_l by lia|].
  rewrite !lookup_app_r by lia. by replace (S i - length A1)%nat with (S (i - length A1)) by lia.
Qed.

Section laws.
Context {S : Type} `{PageAllocatorLaws S}.

(** A block handed out is apart from all the others. *)
Lemma pa_apart_head s o v A y : pa_own s ((o, v) :: A) → y ∈ A → apart (o, v) y.
Proof.
  intros Ho [i Hi]%list_elem_of_lookup. by eapply (pa_apart s _ 0%nat (Datatypes.S i)).
Qed.
End laws.
