(* ===== verification/Buddy.v ===== *)
(** * The physical page allocator (lizard/buddy.c, lizard/buddy.h)

    The state is the global [struct buddy_allocator]: the array of page
    descriptors, the free list heads with their counters, and the store of the
    [list_head]s embedded in both. The nodes of the store are the area heads
    and the page descriptors, so [container_of] is the projection of the page
    frame number. An index outside the descriptor array is a [Fault]. *)

From S2P Require Import Prelude ListHead Helpers EarlyAlloc PageAlloc.

Local Open Scope Z_scope.

Definition MAX_ORDER : Z := 16.
Definition PAGE_FREE : Z := 1.
Definition PAGE_RESERVED : Z := 2.
Definition PAGE_ALLOCATED : Z := 4.
Definition SIZEOF_BUDDY_PAGE : Z := 24.

Inductive bnode : Type :=
  | Area (order : Z)   (* &buddy.free_areas[order].free_list *)
  | Page (pfn : Z).    (* &buddy.pages[pfn].list *)

#[global] Instance bnode_eq_dec : EqDecision bnode.
Proof. solve_decision. Defined.

#[global] Instance bnode_countable : Countable bnode.
Proof.
  apply (inj_countable' (λ n, match n with Area o => inl o | Page p => inr p end)
           (λ s, match s with inl o => Area o | inr p => Page p end)).
  by intros [].
Defined.

#[global] Instance Page_inj : Inj (=) (=) Page.
Proof. by intros ?? [= ->]. Qed.
#[global] Instance Area_inj : Inj (=) (=) Area.
Proof. by intros ?? [= ->]. Qed.

Record buddy_page := BPage { order : Z; flags : Z }.

Record buddy_allocator := Buddy {
  links : gmap bnode (list_head bnode);
  pages : gmap Z buddy_page;
  page_count : Z;
  free_count : gmap Z Z
}.

Definition set_links (b : buddy_allocator) l := Buddy l (pages b) (page_count b) (free_count b).
Definition set_pages (b : buddy_allocator) p := Buddy (links b) p (page_count b) (free_count b).
Definition set_count (b : buddy_allocator) c := Buddy (links b) (pages b) (page_count b) c.

Definition IS_ALIGNED (pfn order : Z) : bool := Z.land pfn (Z.shiftl 1 order - 1) =? 0.

(** [32 - __builtin_clz(pages - 1)]: the number of significant bits. *)
Definition pages_to_order (pages : Z) : Z :=
  if pages <=? 1 then 0 else Z.log2 (pages - 1) + 1.

Definition detect_step (max_addr : Z) (e : bi_mmap_entry) : Z :=
  if negb (type e =? BI_USABLE) then max_addr
  else let end_ := u64 (base e + len e) in
       if max_addr <? end_ then end_ else max_addr.

Definition detect_page_count (bi : boot_info) : Z :=
  align_up (foldl detect_step 0 (mmap bi)) PAGE_SIZE / PAGE_SIZE.

(** [free_areas[order].free_count += delta], an [int]. *)
Definition bump_count (order delta : Z) (b : buddy_allocator) : run buddy_allocator :=
  c ← access (free_count b !! order);
  Done (set_count b (<[order := i32 (c + delta)]> (free_count b))).

Definition buddy_add_block (pfn order : Z) (b : buddy_allocator) : run buddy_allocator :=
  let order := u8 order in
  _ ← access (pages b !! pfn);
  let b := set_pages b (<[pfn := BPage order PAGE_FREE]> (pages b)) in
  l ← list_add (Page pfn) (Area order) (links b);
  bump_count order 1 (set_links b l).

(** [pages[pfn].flags = f]. *)
Definition set_flags (pfn f : Z) (ps : gmap Z buddy_page) : run (gmap Z buddy_page) :=
  p ← access (ps !! pfn);
  Done (<[pfn := BPage (order p) f]> ps).

(** ** Initialisation *)

Fixpoint init_areas (n : nat) (order : Z) (b : buddy_allocator) : run buddy_allocator :=
  match n with
  | O => Done b
  | S n =>
      l ← InitListHead (Area order) (links b);
      init_areas n (order + 1)
        (set_count (set_links b l) (<[order := 0]> (free_count b)))
  end.

(** The two half-open ranges of frames that stay reserved. *)
Record reserved := Reserved {
  kernel_start_pfn : Z; kernel_end_pfn : Z;
  early_start_pfn : Z; early_end_pfn : Z
}.

Definition is_reserved (r : reserved) (pfn : Z) : bool :=
  ((kernel_start_pfn r <=? pfn) && (pfn <? kernel_end_pfn r)) ||
  ((early_start_pfn r <=? pfn) && (pfn <? early_end_pfn r)).

Fixpoint mark_pages (r : reserved) (n : nat) (pfn : Z) (ps : gmap Z buddy_page)
    : run (gmap Z buddy_page) :=
  match n with
  | O => Done ps
  | S n =>
      if is_reserved r pfn then mark_pages r n (pfn + 1) ps
      else ps ← set_flags pfn PAGE_FREE ps; mark_pages r n (pfn + 1) ps
  end.

Fixpoint mark_entries (r : reserved) (es : list bi_mmap_entry) (ps : gmap Z buddy_page)
    : run (gmap Z buddy_page) :=
  match es with
  | [] => Done ps
  | e :: es =>
      if negb (type e =? BI_USABLE) then mark_entries r es ps
      else
        let base_ := align_up (base e) PAGE_SIZE in
        let end_ := align_down (u64 (base e + len e)) PAGE_SIZE in
        if end_ <=? base_ then mark_entries r es ps
        else
          let start_pfn := base_ / PAGE_SIZE in
          let end_pfn := end_ / PAGE_SIZE in
          ps ← mark_pages r (Z.to_nat (end_pfn - start_pfn)) start_pfn ps;
          mark_entries r es ps
  end.

(** The inner loop over [j]: are the [n] frames from [pfn] all free? *)
Fixpoint all_free (n : nat) (pfn : Z) (ps : gmap Z buddy_page) : run bool :=
  match n with
  | O => Done true
  | S n =>
      p ← access (ps !! pfn);
      if negb (flags p =? PAGE_FREE) then Done false else all_free n (pfn + 1) ps
  end.

(** The loop [while (order > 0)] from [MAX_ORDER] down. *)
Fixpoint pick_order (o : nat) (i : Z) (b : buddy_allocator) : run Z :=
  match o with
  | O => Done 0
  | S o' =>
      let order := Z.of_nat o in
      if IS_ALIGNED i order && (i + Z.shiftl 1 order <=? page_count b)
      then all ← all_free (Z.to_nat (Z.shiftl 1 order)) i (pages b);
           if (all : bool) then Done order else pick_order o' i b
      else pick_order o' i b
  end.

Fixpoint group_pages (fuel : nat) (i : Z) (b : buddy_allocator) : run buddy_allocator :=
  match fuel with
  | O => Stop Diverge
  | S fuel =>
      if page_count b <=? i then Done b
      else
        p ← access (pages b !! i);
        if negb (flags p =? PAGE_FREE) then group_pages fuel (i + 1) b
        else
          order ← pick_order (Z.to_nat MAX_ORDER) i b;
          b ← buddy_add_block i order b;
          group_pages fuel (i + Z.shiftl 1 order) b
  end.

(** The zeroed array obtained from [early_alloc], every frame reserved; the
    nodes of the store come into being with it. *)
Definition blank (n : Z) : buddy_allocator :=
  Buddy (list_to_map (((λ o, (Area o, Links None None)) <$> seqZ 0 (MAX_ORDER + 1)) ++
                      ((λ p, (Page p, Links None None)) <$> seqZ 0 n)))
        (list_to_map ((λ p, (p, BPage 0 PAGE_RESERVED)) <$> seqZ 0 n))
        n ∅.

Definition buddy_init (bi : boot_info) (kernel_size : Z) (e : early)
    : run (early * buddy_allocator) :=
  let n := detect_page_count bi in
  '(e, _) ← early_alloc (u64 (n * SIZEOF_BUDDY_PAGE)) 0 e;
  b ← init_areas (Z.to_nat (MAX_ORDER + 1)) 0 (blank n);
  let kernel_phys_end := u64 (kernel_phys_base bi + kernel_size) in
  let r := Reserved (kernel_phys_base bi / PAGE_SIZE)
                    (align_up kernel_phys_end PAGE_SIZE / PAGE_SIZE)
                    (align_down (early_base e) PAGE_SIZE / PAGE_SIZE)
                    (align_up (early_current e) PAGE_SIZE / PAGE_SIZE) in
  ps ← mark_entries r (mmap bi) (pages b);
  b ← group_pages (S (Z.to_nat n)) 0 (set_pages b ps);
  Done (e, b).

(** ** Allocation *)

(** [while (i > order) { i--; add the upper half }]. *)
Fixpoint split_blocks (n : nat) (i pfn : Z) (b : buddy_allocator) : run buddy_allocator :=
  match n with
  | O => Done b
  | S n =>
      let i := i - 1 in
      b ← buddy_add_block (pfn + Z.shiftl 1 i) i b;
      split_blocks n i pfn b
  end.

Fixpoint mark_allocated (n : nat) (pfn ord : Z) (ps : gmap Z buddy_page)
    : run (gmap Z buddy_page) :=
  match n with
  | O => Done ps
  | S n =>
      _ ← access (ps !! pfn);
      mark_allocated n (pfn + 1) ord (<[pfn := BPage ord PAGE_ALLOCATED]> ps)
  end.

Fixpoint alloc_loop (n : nat) (i order hhdm_offset : Z) (b : buddy_allocator)
    : run (buddy_allocator * Z) :=
  match n with
  | O => Done (b, 0)
  | S n =>
      empty ← list_empty (Area i) (links b);
      if (empty : bool) then alloc_loop n (i + 1) order hhdm_offset b
      else
        h ← get (links b) (Some (Area i));
        match next h with
        | Some (Page pfn) =>
            l ← list_del (Page pfn) (links b);
            b ← bump_count i (-1) (set_links b l);
            b ← split_blocks (Z.to_nat (i - order)) i pfn b;
            ps ← mark_allocated (Z.to_nat (Z.shiftl 1 order)) pfn order (pages b);
            Done (set_pages b ps, u64 (pfn * PAGE_SIZE + hhdm_offset))
        | _ => Stop Fault
        end
  end.

Definition buddy_alloc_vaddr (order hhdm_offset : Z) (b : buddy_allocator)
    : run (buddy_allocator * Z) :=
  if MAX_ORDER <? order then Done (b, 0)
  else alloc_loop (Z.to_nat (MAX_ORDER + 1 - order)) order order hhdm_offset b.

Definition buddy_alloc (order hhdm_offset : Z) (b : buddy_allocator)
    : run (buddy_allocator * Z) :=
  buddy_alloc_vaddr order hhdm_offset b.

(** ** Release *)

Fixpoint mark_free (n : nat) (pfn : Z) (ps : gmap Z buddy_page) : run (gmap Z buddy_page) :=
  match n with
  | O => Done ps
  | S n => ps ← set_flags pfn PAGE_FREE ps; mark_free n (pfn + 1) ps
  end.

Definition buddy_free (vaddr order hhdm_offset : Z) (b : buddy_allocator)
    : run buddy_allocator :=
  if vaddr =? 0 then Done b
  else
    let paddr := u64 (vaddr - hhdm_offset) in
    let pfn := paddr / PAGE_SIZE in
    if page_count b <=? pfn then Done b
    else
      ps ← mark_free (Z.to_nat (Z.shiftl 1 order)) pfn (pages b);
      buddy_add_block pfn order (set_pages b ps).

(** ** The invariant

    [L] is the abstract view of the free lists. A block of order [o] at frame
    [p] is on the list of its order; its frames are aligned, inside the array,
    flagged free and belong to no other block. *)

Definition blk (L : gmap bnode (list bnode)) (o p : Z) : Prop :=
  ∃ xs, L !! Area o = Some xs ∧ Page p ∈ xs.

Definition in_block (o p q : Z) : Prop := p <= q < p + 2 ^ o.

Definition free_page (L : gmap bnode (list bnode)) (q : Z) : Prop :=
  ∃ o p, blk L o p ∧ in_block o p q.

Definition page_is (b : buddy_allocator) (q f : Z) : Prop :=
  ∃ pg, pages b !! q = Some pg ∧ flags pg = f.

Record buddy_inv (b : buddy_allocator) (L : gmap bnode (list bnode)) : Prop := {
  bi_lists : lists_ok (links b) L;
  bi_heads : ∀ h, is_Some (L !! h) ↔ ∃ o, h = Area o ∧ 0 <= o <= MAX_ORDER;
  bi_nodes : ∀ o xs n, L !! Area o = Some xs → n ∈ xs → ∃ p, n = Page p;
  bi_store : ∀ p, 0 <= p < page_count b → is_Some (links b !! Page p);
  bi_pages : ∀ p, is_Some (pages b !! p) ↔ 0 <= p < page_count b;
  bi_count : ∀ o xs, L !! Area o = Some xs → free_count b !! o = Some (Z.of_nat (length xs));
  bi_blk : ∀ o p, blk L o p →
    0 <= o <= MAX_ORDER ∧ 0 <= p ∧ p mod 2 ^ o = 0 ∧ p + 2 ^ o <= page_count b ∧
    ∃ pg, pages b !! p = Some pg ∧ order pg = o;
  bi_flag : ∀ o p q, blk L o p → in_block o p q → page_is b q PAGE_FREE;
  bi_disj : ∀ o p o' p' q, blk L o p → blk L o' p' →
    in_block o p q → in_block o' p' q → o = o' ∧ p = p';
  bi_bound : 0 <= page_count b < 2 ^ 31 - 1
}.

Lemma blk_range b L o p : buddy_inv b L → blk L o p → 0 <= o <= MAX_ORDER.
Proof. intros I Hb. apply (bi_blk _ _ I) in Hb. tauto. Qed.

Lemma in_block_self o p : 0 <= o → in_block o p p.
Proof. intros. unfold in_block. pose proof (pow2_pos o). lia. Qed.

Lemma order_u8 o : 0 <= o <= MAX_ORDER → u8 o = o.
Proof. unfold MAX_ORDER. intros. apply wrap_small. lia. Qed.

Lemma shiftl_1 o : 0 <= o → Z.shiftl 1 o = 2 ^ o.
Proof. intros. by rewrite Z.shiftl_mul_pow2, Z.mul_1_l by lia. Qed.

Lemma area_list b L o : buddy_inv b L → 0 <= o <= MAX_ORDER → is_Some (L !! Area o).
Proof. intros I Ho. apply (bi_heads _ _ I). eauto. Qed.

Lemma free_list_length b L o xs :
  buddy_inv b L → L !! Area o = Some xs → Z.of_nat (length xs) <= page_count b.
Proof.
  intros I E. pose proof (lo_nodup _ _ (bi_lists _ _ I) _ _ E) as Hnd.
  apply NoDup_cons in Hnd as [_ Hnd].
  assert (∃ ps : list Z, xs = Page <$> ps) as [ps ->].
  { pose proof (λ n, bi_nodes _ _ I o xs n E) as Hn. clear -Hn.
    induction xs as [|x xs IH]; [by exists []|].
    destruct (Hn x) as [p ->]; [set_solver|].
    destruct IH as [ps ->]; [intros; apply Hn; set_solver|]. by exists (p :: ps). }
  apply NoDup_fmap in Hnd; [|apply _]. rewrite length_fmap.
  pose proof (bi_bound _ _ I).
  assert (ps ⊆+ seqZ 0 (page_count b)) as Hsub.
  { apply NoDup_submseteq; [done|]. intros p Hp. apply elem_of_seqZ.
    assert (blk L o p) as Hb by (exists (Page <$> ps); split; [done|by apply list_elem_of_fmap_2]).
    apply (bi_blk _ _ I) in Hb as (?&?&?&?&_). pose proof (pow2_pos o). lia. }
  apply submseteq_length in Hsub. rewrite length_seqZ in Hsub. lia.
Qed.

(** The counter of a list, as an [int], does not overflow. *)
Lemma bump_count_spec b L o xs d :
  buddy_inv b L → L !! Area o = Some xs → -1 <= d → Z.of_nat (length xs) + d < 2 ^ 31 →
  bump_count o d b =
  Done (set_count b (<[o := Z.of_nat (length xs) + d]> (free_count b))).
Proof.
  intros I E Hd Hlt. unfold bump_count. rewrite (bi_count _ _ I _ _ E). rsimpl.
  do 3 f_equal. apply swrap_small; lia.
Qed.

Lemma blk_insert L o xs o' p' :
  blk (<[Area o := xs]> L) o' p' ↔ (o' = o ∧ Page p' ∈ xs) ∨ (o' ≠ o ∧ blk L o' p').
Proof.
  unfold blk. split.
  - intros (ys & [[[= <-] <-]|[Hne E]]%lookup_insert_Some & Hin); [by left|].
    right. split; [congruence|eauto].
  - intros [[-> Hin]|[Hne (ys & E & Hin)]].
    + exists xs. by rewrite lookup_insert_eq.
    + exists ys. by rewrite lookup_insert_ne by congruence.
Qed.

Lemma page_insert b p pg q f :
  page_is (set_pages b (<[p:=pg]> (pages b))) q f ↔
  (q = p ∧ flags pg = f) ∨ (q ≠ p ∧ page_is b q f).
Proof.
  unfold page_is. simpl. split.
  - intros (pg' & [[<- <-]|[Hne E]]%lookup_insert_Some & Hf); [by left|right; eauto].
  - intros [[-> Hf]|[Hne (pg' & E & Hf)]]; [exists pg; by rewrite lookup_insert_eq|].
    exists pg'. by rewrite lookup_insert_ne by congruence.
Qed.

(** The frames of a block, when they are in the array and on no list. *)
Record vacant (b : buddy_allocator) (L : gmap bnode (list bnode)) (o p : Z) : Prop := {
  va_order : 0 <= o <= MAX_ORDER;
  va_low : 0 <= p;
  va_align : p mod 2 ^ o = 0;
  va_high : p + 2 ^ o <= page_count b;
  va_free q : in_block o p q → ¬ free_page L q
}.

Lemma vacant_detached b L o p : buddy_inv b L → vacant b L o p → detached L (Page p).
Proof.
  intros I V h xs E Hin.
  destruct (proj1 (bi_heads _ _ I h)) as (o' & -> & Ho'); [eauto|].
  apply elem_of_cons in Hin as [|Hin]; [done|].
  apply (va_free _ _ _ _ V p); [apply in_block_self; apply (va_order _ _ _ _ V)|].
  exists o', p. split; [by exists xs|]. apply in_block_self; lia.
Qed.

Lemma buddy_add_block_ok b L o p :
  buddy_inv b L → vacant b L o p →
  (∀ q, in_block o p q → q ≠ p → page_is b q PAGE_FREE) →
  ∃ b' L', buddy_add_block p o b = Done b' ∧ buddy_inv b' L' ∧
    page_count b' = page_count b ∧ pages b' = <[p:=BPage o PAGE_FREE]> (pages b) ∧
    (∀ o' p', blk L' o' p' ↔ (o' = o ∧ p' = p) ∨ blk L o' p').
Proof.
  intros I V Hfl. pose proof (vacant_detached _ _ _ _ I V) as Hdet.
  destruct V as [Ho Hp Hal Hhi Hvac]. pose proof (pow2_pos o).
  destruct (area_list _ _ _ I Ho) as [xs E]. pose proof (free_list_length _ _ _ _ I E).
  pose proof (bi_bound _ _ I).
  assert (is_Some (pages b !! p)) as [pg Hpg] by (apply (bi_pages _ _ I); lia).
  destruct (list_add_ok _ _ _ _ _ (bi_lists _ _ I) E Hdet) as (l & El & OK & D).
  { apply (bi_store _ _ I). lia. }
  unfold buddy_add_block. rewrite order_u8 by done. rewrite Hpg. rsimpl. simpl. rstep El.
  unfold bump_count. simpl. rewrite (bi_count _ _ I _ _ E). rsimpl.
  assert (∀ o' p', blk (<[Area o:=Page p :: xs]> L) o' p' ↔ (o' = o ∧ p' = p) ∨ blk L o' p') as Hblk.
  { intros o' p'. rewrite blk_insert. unfold blk. rewrite elem_of_cons.
    destruct (decide (o' = o)) as [->|]; [|naive_solver]. split.
    - intros [[_ [[= ->]|]]|]; naive_solver.
    - intros [[_ ->]|(ys & E' & Hin)]; [naive_solver|]. rewrite E in E'. naive_solver. }
  eexists _, (<[Area o := Page p :: xs]> L). split_and!; [done| |done..|exact Hblk].
  assert (∀ q, in_block o p q → free_page L q → False) as Hvac' by (intros; by eapply Hvac).
  constructor; simpl.
  - done.
  - intros h. rewrite <- (bi_heads _ _ I h), lookup_insert_is_Some.
    destruct (decide (Area o = h)) as [<-|]; [|naive_solver]. naive_solver.
  - intros o' ys n [[[= <-] <-]|[_ E']]%lookup_insert_Some Hn; [|by eapply (bi_nodes _ _ I)].
    apply elem_of_cons in Hn as [->|Hn]; [eauto|by eapply (bi_nodes _ _ I)].
  - intros q Hq. eapply is_Some_dom; [done|]. by apply (bi_store _ _ I).
  - intros q. rewrite <- (bi_pages _ _ I q), lookup_insert_is_Some.
    destruct (decide (p = q)) as [<-|]; naive_solver.
  - intros o' ys [[[= <-] <-]|[Hne E']]%lookup_insert_Some.
    + rewrite lookup_insert_eq. f_equal. rewrite swrap_small by lia. simpl. lia.
    + rewrite lookup_insert_ne by congruence. by apply (bi_count _ _ I).
  - intros o' p' [[-> ->]|Hb]%Hblk.
    + split_and!; try done; try lia. rewrite lookup_insert_eq. eauto.
    + destruct (bi_blk _ _ I _ _ Hb) as (? & ? & ? & ? & pg' & Hpg' & ?).
      split_and!; try done; try lia. rewrite lookup_insert_ne; [eauto|].
      intros <-. eapply (Hvac' p); [apply in_block_self; lia|].
      exists o', p. split; [done|apply in_block_self; lia].
  - intros o' p' q [[-> ->]|Hb]%Hblk Hq; unfold page_is; simpl.
    + destruct (decide (q = p)) as [->|Hne].
      * exists (BPage o PAGE_FREE). by rewrite lookup_insert_eq.
      * destruct (Hfl q Hq Hne) as (pg' & ? & ?). exists pg'. by rewrite lookup_insert_ne.
    + destruct (bi_flag _ _ I _ _ _ Hb Hq) as (pg' & ? & ?).
      destruct (decide (q = p)) as [->|Hne].
      * exists (BPage o PAGE_FREE). by rewrite lookup_insert_eq.
      * exists pg'. by rewrite lookup_insert_ne.
  - intros o1 p1 o2 p2 q [[-> ->]|Hb1]%Hblk [[-> ->]|Hb2]%Hblk Hq1 Hq2; [done|..].
    + destruct (Hvac' q); [done|]. by exists o2, p2.
    + destruct (Hvac' q); [done|]. by exists o1, p1.
    + by eapply (bi_disj _ _ I).
  - done.
Qed.

(** Taking the first block off its list. *)
Lemma buddy_pop_ok b L o p xs :
  buddy_inv b L → L !! Area o = Some (Page p :: xs) → ∃ l b' L',
    list_del (Page p) (links b) = Done l ∧ bump_count o (-1) (set_links b l) = Done b' ∧
    buddy_inv b' L' ∧ page_count b' = page_count b ∧ pages b' = pages b ∧
    vacant b' L' o p ∧ blk L o p ∧
    (∀ o' p', blk L' o' p' ↔ blk L o' p' ∧ (o' ≠ o ∨ p' ≠ p)).
Proof.
  intros I E. assert (blk L o p) as Hb by (exists (Page p :: xs); split; [done|set_solver]).
  destruct (bi_blk _ _ I _ _ Hb) as (Ho & Hp & Hal & Hhi & _).
  destruct (list_del_ok _ _ _ [] _ _ (bi_lists _ _ I) E) as (l & El & OK & _ & _ & D).
  simpl in OK. pose proof (lo_nodup _ _ (bi_lists _ _ I) _ _ E) as Hnd.
  apply NoDup_cons in Hnd as [_ [Hpx Hnd]%NoDup_cons].
  assert (∀ o' p', blk (<[Area o:=xs]> L) o' p' ↔ blk L o' p' ∧ (o' ≠ o ∨ p' ≠ p)) as Hblk.
  { intros o' p'. rewrite blk_insert. unfold blk. destruct (decide (o' = o)) as [->|]; [|naive_solver].
    rewrite E. split.
    - intros [[_ Hin]|[? _]]; [|done]. split; [exists (Page p :: xs); split; [done|set_solver]|].
      right. by intros ->.
    - intros [(ys & [= <-] & Hin) Hne]. left. split; [done|]. set_solver. }
  pose proof (free_list_length _ _ _ _ I E) as Hlen. simpl in Hlen.
  pose proof (bi_bound _ _ I). unfold bump_count. simpl.
  rewrite (bi_count _ _ I _ _ E). rsimpl. rewrite swrap_small by (simpl; lia).
  eexists l, _, (<[Area o:=xs]> L). split_and!; try done.
  - constructor; simpl.
    + done.
    + intros h. rewrite <- (bi_heads _ _ I h), lookup_insert_is_Some.
      destruct (decide (Area o = h)) as [<-|]; [|naive_solver]. naive_solver.
    + intros o' ys n [[[= <-] <-]|[_ E']]%lookup_insert_Some Hn; eapply (bi_nodes _ _ I);
        [exact E|set_solver|exact E'|done].
    + intros q Hq. eapply is_Some_dom; [done|]. by apply (bi_store _ _ I).
    + apply (bi_pages _ _ I).
    + intros o' ys [[[= <-] <-]|[Hne E']]%lookup_insert_Some.
      * rewrite lookup_insert_eq. f_equal. lia.
      * rewrite lookup_insert_ne by congruence. by apply (bi_count _ _ I).
    + intros o' p' [Hb' _]%Hblk. by apply (bi_blk _ _ I).
    + intros o' p' q [Hb' _]%Hblk. by apply (bi_flag _ _ I).
    + intros o1 p1 o2 p2 q [Hb1 _]%Hblk [Hb2 _]%Hblk. by apply (bi_disj _ _ I).
    + done.
  - split; try done; try lia. intros q Hq (o' & p' & [Hb' Hne]%Hblk & Hq').
    destruct (bi_disj _ _ I _ _ _ _ _ Hb Hb' Hq Hq'). naive_solver.
Qed.

(** Writing page descriptors of frames that are on no list. *)
Lemma buddy_inv_pages b L ps :
  buddy_inv b L → dom ps = dom (pages b) →
  (∀ q, free_page L q → ps !! q = pages b !! q) → buddy_inv (set_pages b ps) L.
Proof.
  intros I D F. assert (∀ o p q, blk L o p → in_block o p q → ps !! q = pages b !! q) as F'.
  { intros o p q Hb Hq. apply F. by exists o, p. }
  destruct I as [I1 I2 I3 I4 I5 I6 I7 I8 I9 I10]. split; simpl; try done.
  - intros p. by rewrite <- elem_of_dom, D, elem_of_dom.
  - intros o p Hb. rewrite (F' o p p) by (done || (apply in_block_self; apply I7 in Hb; tauto)).
    by apply I7.
  - intros o p q Hb Hq. unfold page_is. simpl. rewrite (F' o p q) by done. by apply (I8 o p).
Qed.

Lemma vacant_pages b L ps o p : vacant b L o p → vacant (set_pages b ps) L o p.
Proof. intros []. by split. Qed.

Lemma mark_allocated_ok n p ord ps :
  (∀ q, p <= q < p + Z.of_nat n → is_Some (ps !! q)) → ∃ ps',
    mark_allocated n p ord ps = Done ps' ∧ dom ps' = dom ps ∧
    (∀ q, ps' !! q = if decide (p <= q < p + Z.of_nat n) then Some (BPage ord PAGE_ALLOCATED)
                     else ps !! q).
Proof.
  revert p ps. induction n as [|n IH]; intros p ps Hin; cbn -[Z.of_nat].
  { exists ps. split_and!; [done..|]. intros q. rewrite decide_False by lia. done. }
  destruct (Hin p) as [pg Hpg]; [lia|]. rewrite Hpg. rsimpl.
  destruct (IH (p + 1) (<[p:=BPage ord PAGE_ALLOCATED]> ps)) as (ps' & -> & D & Hps).
  { intros q Hq. rewrite lookup_insert_ne by lia. apply Hin. lia. }
  exists ps'. split_and!; [done| |].
  - rewrite D. apply dom_insert_lookup_L; eauto.
  - intros q. rewrite Hps. destruct (decide (q = p)) as [->|].
    + rewrite decide_False, decide_True by lia. by rewrite lookup_insert_eq.
    + rewrite lookup_insert_ne by done. repeat case_decide; try done; lia.
Qed.

Lemma mark_free_ok n p ps :
  (∀ q, p <= q < p + Z.of_nat n → is_Some (ps !! q)) → ∃ ps',
    mark_free n p ps = Done ps' ∧ dom ps' = dom ps ∧
    (∀ q, p <= q < p + Z.of_nat n → ∃ pg, ps' !! q = Some pg ∧ flags pg = PAGE_FREE) ∧
    (∀ q, ¬ p <= q < p + Z.of_nat n → ps' !! q = ps !! q).
Proof.
  revert p ps. induction n as [|n IH]; intros p ps Hin; cbn -[Z.of_nat].
  { exists ps. split_and!; [done..| |done]. lia. }
  destruct (Hin p) as [pg Hpg]; [lia|]. unfold set_flags. rewrite Hpg. rsimpl.
  destruct (IH (p + 1) (<[p:=BPage (order pg) PAGE_FREE]> ps)) as (ps' & -> & D & Hi & Ho).
  { intros q Hq. rewrite lookup_insert_ne by lia. apply Hin. lia. }
  exists ps'. split_and!; [done| | |].
  - rewrite D. apply dom_insert_lookup_L; eauto.
  - intros q Hq. destruct (decide (q = p)) as [->|]; [|apply Hi; lia].
    rewrite Ho by lia. rewrite lookup_insert_eq. eauto.
  - intros q Hq. rewrite Ho by lia. by rewrite lookup_insert_ne by lia.
Qed.

(** ** Splitting and allocation *)

Lemma pow2_half i : 1 <= i → 2 ^ i = 2 * 2 ^ (i - 1).
Proof. intros. rewrite <- Z.pow_succ_r by lia. f_equal. lia. Qed.

Lemma mod_pow2_half p i : 1 <= i → p mod 2 ^ i = 0 →
  p mod 2 ^ (i - 1) = 0 ∧ (p + 2 ^ (i - 1)) mod 2 ^ (i - 1) = 0.
Proof.
  intros Hi Hm. pose proof (pow2_pos (i - 1)). rewrite pow2_half in Hm by done.
  apply Z.mod_divide in Hm as [k ->]; [|lia]. split.
  - replace (k * (2 * 2 ^ (i - 1))) with (k * 2 * 2 ^ (i - 1)) by ring. apply Z.mod_mul. lia.
  - replace (k * (2 * 2 ^ (i - 1)) + 2 ^ (i - 1)) with ((k * 2 + 1) * 2 ^ (i - 1)) by ring.
    apply Z.mod_mul. lia.
Qed.

Lemma vacant_halves b L i p : vacant b L i p → 1 <= i →
  vacant b L (i - 1) p ∧ vacant b L (i - 1) (p + 2 ^ (i - 1)).
Proof.
  intros [Ho Hp Ha Hh Hf] Hi. pose proof (pow2_half i Hi). pose proof (pow2_pos (i - 1)).
  destruct (mod_pow2_half p i Hi Ha). unfold in_block in Hf.
  split; (split; [lia..|done|lia|]); intros q Hq; apply Hf; unfold in_block in Hq; lia.
Qed.

(** What a step that only touches the frames of the block [o, p] keeps. *)
Record frames (b b' : buddy_allocator) (o p : Z) : Prop := {
  fr_count : page_count b' = page_count b;
  fr_dom : dom (pages b') = dom (pages b);
  fr_out q : ¬ in_block o p q → pages b' !! q = pages b !! q
}.

Lemma frames_trans b1 b2 b3 o p : frames b1 b2 o p → frames b2 b3 o p → frames b1 b3 o p.
Proof.
  intros [C1 D1 F1] [C2 D2 F2]. split; [congruence..|].
  intros q Hq. by rewrite F2, F1.
Qed.

Lemma split_blocks_ok n i p b L :
  buddy_inv b L → vacant b L i p → Z.of_nat n <= i →
  (∀ q, in_block i p q → page_is b q PAGE_FREE) → ∃ b' L',
    split_blocks n i p b = Done b' ∧ buddy_inv b' L' ∧ frames b b' i p ∧
    vacant b' L' (i - Z.of_nat n) p ∧
    (∀ q, free_page L' q ↔ free_page L q ∨ p + 2 ^ (i - Z.of_nat n) <= q < p + 2 ^ i).
Proof.
  revert i b L. induction n as [|n IH]; intros i b L I V Hn Hfl; cbn -[Z.of_nat buddy_add_block].
  { exists b, L. rewrite Z.sub_0_r. split_and!; try done. intros q. intuition lia. }
  destruct (vacant_halves _ _ _ _ V) as [Vlo Vhi]; [lia|].
  pose proof (pow2_half i) as E2. pose proof (pow2_pos (i - 1)) as Hpos.
  rewrite shiftl_1 by lia.
  destruct (buddy_add_block_ok b L (i - 1) (p + 2 ^ (i - 1)) I Vhi)
    as (b1 & L1 & -> & I1 & C1 & P1 & B1).
  { intros q Hq _. apply Hfl. unfold in_block in *. lia. }
  assert (∀ q, free_page L1 q ↔ free_page L q ∨ in_block (i - 1) (p + 2 ^ (i - 1)) q) as F1.
  { intros q. unfold free_page. split.
    - intros (o' & p' & [[-> ->]|Hb]%B1 & Hq); [by right|left; eauto].
    - intros [(o' & p' & Hb & Hq)|Hq]; [exists o', p'|exists (i-1), (p+2^(i-1))];
        (split; [apply B1; tauto|done]). }
  assert (is_Some (pages b !! (p + 2 ^ (i - 1)))) as Hs.
  { apply (bi_pages _ _ I). destruct Vhi. lia. }
  rsimpl. destruct (IH (i - 1) b1 L1 I1) as (b' & L' & -> & I' & Fr & V' & F').
  - destruct Vlo. split; try done; try lia. intros q Hq [Hfq|Hq']%F1; [naive_solver|].
    unfold in_block in *. lia.
  - lia.
  - intros q Hq. destruct (Hfl q) as (pg & Hpg & ?); [unfold in_block in *; lia|].
    exists pg. rewrite P1. rewrite lookup_insert_ne; [done|]. unfold in_block in *. lia.
  - replace (i - 1 - Z.of_nat n) with (i - Z.of_nat (S n)) in * by lia.
    exists b', L'. split_and!; [done..| |done|].
    + destruct Fr as [C D F]. split; [congruence| |].
      * rewrite D, P1. by apply dom_insert_lookup_L.
      * intros q Hq. rewrite F, P1, lookup_insert_ne; [done|..]; unfold in_block in *; lia.
    + intros q. rewrite F', F1. unfold in_block.
      assert (2 ^ (i - Z.of_nat (S n)) <= 2 ^ (i - 1)) by (apply Z.pow_le_mono_r; lia).
      intuition lia.
Qed.

(** The outcome of a successful allocation of order [o] at frame [p]. *)
Record allocated (b b' : buddy_allocator) (L L' : gmap bnode (list bnode)) (o p : Z) : Prop := {
  al_inv : buddy_inv b' L';
  al_count : page_count b' = page_count b;
  al_low : 0 <= p;
  al_align : p mod 2 ^ o = 0;
  al_high : p + 2 ^ o <= page_count b;
  al_was_free q : in_block o p q → free_page L q;
  al_free q : free_page L' q ↔ free_page L q ∧ ¬ in_block o p q;
  al_marked q : in_block o p q → pages b' !! q = Some (BPage o PAGE_ALLOCATED);
  al_kept q : ¬ free_page L q → pages b' !! q = pages b !! q
}.

Lemma alloc_take b L i order p xs hhdm :
  buddy_inv b L → 0 <= order <= i → L !! Area i = Some (Page p :: xs) → ∃ b' L',
    (l ← list_del (Page p) (links b);
     b ← bump_count i (-1) (set_links b l);
     b ← split_blocks (Z.to_nat (i - order)) i p b;
     ps ← mark_allocated (Z.to_nat (Z.shiftl 1 order)) p order (pages b);
     Done (set_pages b ps, u64 (p * PAGE_SIZE + hhdm)))
    = Done (b', u64 (p * PAGE_SIZE + hhdm)) ∧ allocated b b' L L' order p.
Proof.
  intros I Ho E.
  destruct (buddy_pop_ok _ _ _ _ _ I E) as (l & b1 & L1 & -> & E1 & I1 & C1 & P1 & V1 & Hb & B1).
  rsimpl. rewrite E1. rsimpl.
  destruct (split_blocks_ok (Z.to_nat (i - order)) i p b1 L1 I1 V1)
    as (b2 & L2 & -> & I2 & [C2 D2 F2] & V2 & Fr2).
  { lia. }
  { intros q Hq. unfold page_is. rewrite P1. by apply (bi_flag _ _ I _ _ _ Hb). }
  rewrite Z2Nat.id in * by lia. replace (i - (i - order)) with order in * by lia.
  pose proof (pow2_pos order). rsimpl. rewrite shiftl_1 by lia.
  destruct (mark_allocated_ok (Z.to_nat (2 ^ order)) p order (pages b2)) as (ps & -> & D3 & P3).
  { intros q Hq. apply (bi_pages _ _ I2). destruct V2. lia. }
  rsimpl. rewrite Z2Nat.id in P3 by lia.
  assert (2 ^ order <= 2 ^ i) by (apply Z.pow_le_mono_r; lia).
  assert (∀ q, free_page L q ↔ free_page L1 q ∨ in_block i p q) as F1.
  { intros q. unfold free_page. split.
    - intros (o' & p' & Hb' & Hq). destruct (decide (o' = i ∧ p' = p)) as [[-> ->]|Hne]; [by right|].
      left. exists o', p'. split; [|done]. apply B1. split; [done|].
      destruct (decide (o' = i)); [right|left]; naive_solver.
    - intros [(o' & p' & [Hb' _]%B1 & Hq)|Hq]; eauto. }
  pose proof (va_free _ _ _ _ V1) as N1. pose proof (va_free _ _ _ _ V2) as N2.
  assert (∀ q, free_page L2 q ↔ free_page L q ∧ ¬ in_block order p q) as F2'.
  { intros q. specialize (N1 q). rewrite Fr2, F1. unfold in_block in *. split.
    - intros [Hq|Hq]; [|lia]. split; [by left|]. intros ?. apply N1; [lia|done].
    - intros [[Hq|Hq] ?]; [by left|right; lia]. }
  exists (set_pages b2 ps), L2. split; [done|]. destruct V2. split; simpl; try done; try lia.
  - apply buddy_inv_pages; [done|done|]. intros q Hq. rewrite P3, decide_False; [done|].
    intros Hin. by apply (N2 q).
  - intros q Hq. apply F1. right. unfold in_block in *. lia.
  - intros q Hq. by rewrite P3, decide_True.
  - intros q Hq. rewrite F1 in Hq. unfold in_block in *.
    rewrite P3, decide_False by (intros ?; apply Hq; right; lia).
    rewrite F2, P1; [done|]. intros ?. apply Hq. by right.
Qed.

(** The search from order [i] upwards finds the smallest order that has a
    free block. *)
Lemma alloc_loop_ok n i order hhdm b L :
  buddy_inv b L → 0 <= order <= i → i + Z.of_nat n = MAX_ORDER + 1 →
  (alloc_loop n i order hhdm b = Done (b, 0) ∧ (∀ o p, blk L o p → o < i)) ∨
  (∃ p b' L', alloc_loop n i order hhdm b = Done (b', u64 (p * PAGE_SIZE + hhdm)) ∧
     allocated b b' L L' order p).
Proof.
  revert i. induction n as [|n IH]; intros i I Ho Hn; cbn -[Z.of_nat list_empty bump_count].
  { left. split; [done|]. intros o p Hb%(blk_range b); [lia|done]. }
  destruct (area_list _ _ i I) as [xs E]; [lia|].
  rewrite (list_empty_spec _ _ _ _ (bi_lists _ _ I) E). rsimpl.
  destruct xs as [|x xs]; cbn -[alloc_loop list_del bump_count set_links split_blocks].
  - destruct (IH (i + 1) I) as [[-> Hno]|(p & b' & L' & -> & A)]; [lia..| |].
    + left. split; [done|]. intros o p Hb. pose proof (Hno _ _ Hb).
      assert (o ≠ i); [|lia]. intros ->. destruct Hb as (ys & E' & Hin).
      rewrite E in E'. simplify_eq. set_solver.
    + right. eauto.
  - right. destruct (lists_ok_get _ _ _ _ (bi_lists _ _ I) E) as (e & He & Hnx & _).
    rewrite He. rsimpl. rewrite Hnx. simpl.
    destruct (bi_nodes _ _ I _ _ x E) as [p ->]; [set_solver|].
    destruct (alloc_take b L i order p xs hhdm) as (b' & L' & Ea & A); [done..|].
    exists p, b', L'. split; [exact Ea|done].
Qed.

Lemma buddy_alloc_ok order hhdm b L :
  buddy_inv b L → 0 <= order →
  (buddy_alloc order hhdm b = Done (b, 0) ∧ (∀ o p, blk L o p → o < order)) ∨
  (∃ p b' L', buddy_alloc order hhdm b = Done (b', u64 (p * PAGE_SIZE + hhdm)) ∧
     allocated b b' L L' order p).
Proof.
  intros I Ho. unfold buddy_alloc, buddy_alloc_vaddr. case_if.
  { left. split; [done|]. intros o p Hb%(blk_range b); [lia|done]. }
  apply alloc_loop_ok; [done|lia..].
Qed.

(** Releasing a block that is on no list. *)
Lemma buddy_free_ok order hhdm b L p :
  buddy_inv b L → vacant b L order p →
  0 <= hhdm → hhdm + page_count b * PAGE_SIZE < 2 ^ 64 → 0 < p * PAGE_SIZE + hhdm →
  ∃ b' L', buddy_free (u64 (p * PAGE_SIZE + hhdm)) order hhdm b = Done b' ∧
    buddy_inv b' L' ∧ frames b b' order p ∧
    (∀ q, free_page L' q ↔ free_page L q ∨ in_block order p q).
Proof.
  intros I V Hh Hhi Hpos. pose proof V as [Ho Hp Ha Hh' Hf]. unfold buddy_free, PAGE_SIZE in *.
  pose proof (pow2_pos order). rewrite (wrap_small 64 (p * 4096 + hhdm)) by lia.
  rewrite (proj2 (Z.eqb_neq _ _)) by lia.
  replace (p * 4096 + hhdm - hhdm) with (p * 4096) by lia.
  rewrite wrap_small, Z.div_mul by lia. rewrite (proj2 (Z.leb_gt _ _)) by lia.
  rewrite shiftl_1 by lia.
  destruct (mark_free_ok (Z.to_nat (2 ^ order)) p (pages b)) as (ps & -> & D & Hi & Hout).
  { intros q Hq. apply (bi_pages _ _ I). lia. }
  rewrite Z2Nat.id in * by lia. rsimpl.
  assert (buddy_inv (set_pages b ps) L) as I'.
  { apply buddy_inv_pages; [done|done|]. intros q Hq. apply Hout. intros Hin. by apply (Hf q). }
  destruct (buddy_add_block_ok _ _ order p I' (vacant_pages _ _ ps _ _ V))
    as (b2 & L2 & -> & I2 & C2 & P2 & B2).
  { intros q Hq _. by apply Hi. }
  exists b2, L2. split_and!; [done..| |].
  - split; [done| |].
    + rewrite P2. simpl. rewrite dom_insert_lookup_L; [done|].
      destruct (Hi p) as (pg & ? & _); [lia|eauto].
    + intros q Hq. rewrite P2, lookup_insert_ne; [by apply Hout|].
      intros ->. apply Hq. apply in_block_self; lia.
  - intros q. unfold free_page. split.
    + intros (o' & p' & [[-> ->]|Hb]%B2 & Hq); [by right|left; eauto].
    + intros [(o' & p' & Hb & Hq)|Hq]; [exists o', p'|exists order, p];
        (split; [apply B2; tauto|done]).
Qed.

(** ** Initialisation establishes the invariant *)

Definition empty_areas (k : Z) (L : gmap bnode (list bnode)) : Prop :=
  ∀ h xs, L !! h = Some xs ↔ ∃ o, h = Area o ∧ 0 <= o < k ∧ xs = [].

Lemma init_areas_ok n k b L :
  0 <= k → lists_ok (links b) L → empty_areas k L →
  (∀ o, k <= o < k + Z.of_nat n → is_Some (links b !! Area o)) →
  (∀ o, 0 <= o < k → free_count b !! o = Some 0) → ∃ b' L',
    init_areas n k b = Done b' ∧ lists_ok (links b') L' ∧
    empty_areas (k + Z.of_nat n) L' ∧ dom (links b') = dom (links b) ∧
    pages b' = pages b ∧ page_count b' = page_count b ∧
    (∀ o, 0 <= o < k + Z.of_nat n → free_count b' !! o = Some 0).
Proof.
  revert k b L. induction n as [|n IH]; intros k b L Hk OK HL Hs Hc; cbn -[Z.of_nat InitListHead].
  { exists b, L. rewrite Z.add_0_r. done. }
  destruct (InitListHead_ok (links b) L (Area k) OK) as (l & -> & OK' & D).
  { intros h xs (o & -> & Ho & ->)%HL. intros [= ->]%list_elem_of_singleton. lia. }
  { apply Hs. lia. }
  rsimpl. destruct (IH (k + 1) (set_count (set_links b l) (<[k:=0]> (free_count b)))
    (<[Area k:=[]]> L)) as (b' & L' & -> & OK2 & HL' & D' & P & C & F); simpl; try done; try lia.
  - intros h xs. unfold empty_areas in HL. rewrite lookup_insert_Some, HL. split.
    + intros [[<- <-]|[Hne (o & -> & Ho & ->)]]; [exists k|exists o]; split_and!; try done; lia.
    + intros (o & -> & Ho & ->). destruct (decide (o = k)) as [->|]; [by left|].
      right. split; [congruence|]. exists o. split_and!; try done; lia.
  - intros o Ho. eapply is_Some_dom; [done|]. apply Hs. lia.
  - intros o Ho. destruct (decide (o = k)) as [->|]; [by rewrite lookup_insert_eq|].
    rewrite lookup_insert_ne by done. apply Hc. lia.
  - replace (k + 1 + Z.of_nat n) with (k + Z.of_nat (S n)) in * by lia.
    exists b', L'. split_and!; try done. by rewrite D'.
Qed.

Lemma no_blocks k L o p : empty_areas k L → ¬ blk L o p.
Proof. intros HL (xs & (? & _ & _ & ->)%HL & Hin). set_solver. Qed.

Lemma blank_links n o : 0 <= o <= MAX_ORDER → is_Some (links (blank n) !! Area o).
Proof.
  intros Ho. unfold blank, MAX_ORDER in *. cbn [links]. eapply list_to_map_is_Some.
  apply elem_of_app. left.
  apply list_elem_of_fmap. exists o. split; [done|]. apply elem_of_seqZ. lia.
Qed.

Lemma blank_page_link n p : 0 <= p < n → is_Some (links (blank n) !! Page p).
Proof.
  intros Hp. unfold blank. cbn [links]. eapply list_to_map_is_Some.
  apply elem_of_app. right. apply list_elem_of_fmap. exists p.
  split; [done|]. apply elem_of_seqZ. lia.
Qed.

Lemma blank_pages n p : 
  pages (blank n) !! p = if decide (0 <= p < n) then Some (BPage 0 PAGE_RESERVED) else None.
Proof.
  simpl. case_decide.
  - apply elem_of_list_to_map_1'.
    + intros y Hy. apply list_elem_of_fmap in Hy as (x & [= -> ->] & _). done.
    + apply list_elem_of_fmap. exists p. split; [done|]. apply elem_of_seqZ. lia.
  - apply not_elem_of_list_to_map_1. rewrite <- list_fmap_compose.
    intros (x & -> & Hx%elem_of_seqZ)%list_elem_of_fmap. simpl in *. lia.
Qed.

Lemma init_areas_inv n : 0 <= n < 2 ^ 31 - 1 → ∃ b L,
  init_areas (Z.to_nat (MAX_ORDER + 1)) 0 (blank n) = Done b ∧
  buddy_inv b L ∧ page_count b = n ∧ pages b = pages (blank n) ∧ (∀ q, ¬ free_page L q).
Proof.
  intros Hn. destruct (init_areas_ok (Z.to_nat (MAX_ORDER + 1)) 0 (blank n) ∅)
    as (b & L & -> & OK & HL & D & P & C & F); try lia.
  - by split.
  - intros h xs. split; [done|]. intros (o & _ & Ho & _). lia.
  - intros o Ho. apply blank_links. lia.
  - change (0 + Z.of_nat (Z.to_nat (MAX_ORDER + 1))) with (MAX_ORDER + 1) in *.
    assert (∀ o p, blk L o p → False) as Hno by (intros ??; by eapply no_blocks).
    exists b, L. split_and!; try done; [|intros q (o & p & Hb & _); eauto].
    split; try done; try (by intros; exfalso; eauto).
    + intros h. split.
      * intros [xs (o & -> & Ho & _)%HL]. exists o. split; [done|lia].
      * intros (o & -> & Ho). exists []. apply HL. exists o. split_and!; try done; lia.
    + intros o xs k (? & _ & _ & ->)%HL Hk. by apply elem_of_nil in Hk.
    + intros p Hp. eapply is_Some_dom; [done|]. apply blank_page_link. rewrite C in Hp. done.
    + intros p. rewrite P, C, blank_pages. simpl. case_decide; [split; eauto|].
      split; [by intros []|done].
    + intros o xs (? & [= <-] & Ho & ->)%HL. by apply F.
    + rewrite C. done.
Qed.

(** The frames marked free by the memory map. *)
Definition usable (es : list bi_mmap_entry) (q : Z) : Prop :=
  ∃ e, e ∈ es ∧ type e = BI_USABLE ∧ base e <= q * PAGE_SIZE ∧ (q + 1) * PAGE_SIZE <= base e + len e.

Definition is_free (ps : gmap Z buddy_page) (q : Z) : Prop :=
  ∃ pg, ps !! q = Some pg ∧ flags pg = PAGE_FREE.

Lemma mark_pages_ok r n p ps :
  (∀ q, p <= q < p + Z.of_nat n → is_Some (ps !! q)) → ∃ ps',
    mark_pages r n p ps = Done ps' ∧ dom ps' = dom ps ∧
    (∀ q, is_free ps' q ↔ is_free ps q ∨ (p <= q < p + Z.of_nat n ∧ is_reserved r q = false)).
Proof.
  revert p ps. induction n as [|n IH]; intros p ps Hin; cbn -[Z.of_nat set_flags].
  { exists ps. split_and!; [done..|]. intros q. intuition lia. }
  destruct (is_reserved r p) eqn:Er.
  - destruct (IH (p + 1) ps) as (ps' & -> & D & F); [intros; apply Hin; lia|].
    exists ps'. split_and!; [done..|]. intros q. rewrite F.
    destruct (decide (q = p)) as [->|]; [rewrite Er|]; intuition (congruence || lia).
  - destruct (Hin p) as [pg Hpg]; [lia|]. unfold set_flags. rewrite Hpg. rsimpl.
    destruct (IH (p + 1) (<[p:=BPage (order pg) PAGE_FREE]> ps)) as (ps' & -> & D & F).
    { intros q Hq. rewrite lookup_insert_ne by lia. apply Hin. lia. }
    exists ps'. split_and!; [done|rewrite D; apply dom_insert_lookup_L; eauto|].
    intros q. rewrite F. unfold is_free. destruct (decide (q = p)) as [->|].
    + rewrite lookup_insert_eq. split; [intros _; right; split; [lia|done]|eauto].
    + rewrite lookup_insert_ne by done. intuition lia.
Qed.

(** Usable memory ends below 4 TiB: the frame count fits an [int]. *)
Definition mmap_ok (es : list bi_mmap_entry) : Prop :=
  ∀ e, e ∈ es → type e = BI_USABLE → 0 <= base e ∧ 0 <= len e ∧ base e + len e <= 2 ^ 42.

Lemma page_round_up x : 0 <= x <= 2 ^ 42 → align_up x PAGE_SIZE / PAGE_SIZE = (x + 4095) / 4096.
Proof.
  intros. rewrite page_size_pow, align_up_spec by lia. rewrite Z.div_mul by lia.
  change (2 ^ 12) with 4096. f_equal. lia.
Qed.

Lemma page_round_down x : 0 <= x → align_down x PAGE_SIZE / PAGE_SIZE = x / 4096.
Proof. intros. rewrite page_size_pow, align_down_spec by lia. apply Z.div_mul. lia. Qed.

Lemma detect_fold es m : mmap_ok es → 0 <= m <= 2 ^ 42 →
  m <= foldl detect_step m es <= 2 ^ 42 ∧
  (∀ e, e ∈ es → type e = BI_USABLE → base e + len e <= foldl detect_step m es).
Proof.
  revert m. induction es as [|e es IH]; intros m Hok Hm; cbn [foldl].
  { split; [lia|]. intros e []%elem_of_nil. }
  assert (m <= detect_step m e <= 2 ^ 42 ∧
    (type e = BI_USABLE → base e + len e <= detect_step m e)) as [Hs He].
  { unfold detect_step. destruct (type e =? BI_USABLE) eqn:Et; simpl; breflect; [|split; [lia|done]].
    destruct (Hok e) as (? & ? & ?); [set_solver|done|]. rewrite wrap_small by lia.
    case_if; split; lia. }
  destruct (IH (detect_step m e)) as [Hle Hin]; [|lia|].
  { intros e' ?. apply Hok. set_solver. }
  split; [lia|]. intros e' [->|He']%elem_of_cons Ht; [|by apply Hin]. specialize (He Ht). lia.
Qed.

Lemma detect_page_count_ok bi : mmap_ok (mmap bi) →
  0 <= detect_page_count bi < 2 ^ 31 - 1 ∧
  (∀ e, e ∈ mmap bi → type e = BI_USABLE →
     base e + len e <= detect_page_count bi * PAGE_SIZE).
Proof.
  intros Hok. unfold detect_page_count.
  destruct (detect_fold _ 0 Hok) as [Hm He]; [lia|].
  rewrite page_round_up by lia. set (m := foldl _ _ _) in *.
  pose proof (Z.div_mod (m + 4095) 4096). pose proof (Z.mod_pos_bound (m + 4095) 4096).
  unfold PAGE_SIZE. split; [lia|]. intros e Hin Ht. specialize (He e Hin Ht). lia.
Qed.

Lemma usable_cons e es q : usable (e :: es) q ↔
  (type e = BI_USABLE ∧ base e <= q * PAGE_SIZE ∧ (q + 1) * PAGE_SIZE <= base e + len e) ∨
  usable es q.
Proof.
  unfold usable. split.
  - intros (e' & [->|He]%elem_of_cons & H); [by left|right; eauto].
  - intros [H|(e' & He & H)]; [exists e|exists e']; (split; [set_solver|done]).
Qed.

Lemma mark_entries_ok r es ps n :
  mmap_ok es → (∀ q, is_Some (ps !! q) ↔ 0 <= q < n) →
  (∀ e, e ∈ es → type e = BI_USABLE → base e + len e <= n * PAGE_SIZE) → ∃ ps',
    mark_entries r es ps = Done ps' ∧ dom ps' = dom ps ∧
    (∀ q, is_free ps' q ↔ is_free ps q ∨ (usable es q ∧ is_reserved r q = false)).
Proof.
  revert ps. induction es as [|e es IH]; intros ps Hok Hd Hhi; cbn -[mark_pages align_up align_down].
  { exists ps. split_and!; [done..|]. intros q. split; [tauto|].
    intros [?|[(e & []%elem_of_nil & _) _]]; done. }
  assert (mmap_ok es) as Hok' by (intros e' ?; apply Hok; set_solver).
  assert (∀ e, e ∈ es → type e = BI_USABLE → base e + len e <= n * PAGE_SIZE) as Hhi'
    by (intros e' ?; apply Hhi; set_solver).
  destruct (type e =? BI_USABLE) eqn:Et; cbn -[mark_pages align_up align_down]; breflect;
    [|destruct (IH ps Hok' Hd Hhi') as (ps' & -> & D & F); exists ps'; split_and!; try done;
      intros q; rewrite F, usable_cons; tauto].
  destruct (Hok e) as (Hb & Hl & Htop); [set_solver|done|].
  pose proof (Hhi e ltac:(set_solver) Et) as Hn. rewrite (wrap_small 64) by lia.
  pose proof (page_round_up (base e)) as Eu. pose proof (page_round_down (base e + len e)) as Ed.
  assert (align_up (base e) PAGE_SIZE = (base e + 4095) / 4096 * 4096) as Eb.
  { rewrite page_size_pow, align_up_spec by lia. change (2 ^ 12) with 4096. do 2 f_equal. lia. }
  assert (align_down (base e + len e) PAGE_SIZE = (base e + len e) / 4096 * 4096) as Ee.
  { rewrite page_size_pow, align_down_spec; [done|lia..]. }
  rewrite Eu, Ed, Eb, Ee by lia. clear Eu Ed Eb Ee. unfold PAGE_SIZE in *.
  pose proof (Z.div_mod (base e + 4095) 4096). pose proof (Z.mod_pos_bound (base e + 4095) 4096).
  pose proof (Z.div_mod (base e + len e) 4096). pose proof (Z.mod_pos_bound (base e + len e) 4096).
  set (lo := (base e + 4095) / 4096) in *. set (hi := (base e + len e) / 4096) in *.
  assert (∀ q, lo <= q < hi ↔ base e <= q * 4096 ∧ (q + 1) * 4096 <= base e + len e) as Hr
    by (intros; lia).
  case_if.
  - destruct (IH ps Hok' Hd Hhi') as (ps' & -> & D & F). exists ps'. split_and!; try done.
    intros q. rewrite F, usable_cons. unfold PAGE_SIZE. rewrite <- Hr.
    assert (¬ lo <= q < hi) by lia. tauto.
  - destruct (mark_pages_ok r (Z.to_nat (hi - lo)) lo ps) as (ps1 & -> & D1 & F1).
    { intros q Hq. apply Hd. lia. }
    rsimpl. destruct (IH ps1 Hok') as (ps' & -> & D & F); [|done|].
    { intros q. by rewrite <- elem_of_dom, D1, elem_of_dom. }
    exists ps'. split_and!; [done|congruence|]. intros q.
    rewrite F, F1, usable_cons. unfold PAGE_SIZE. rewrite <- Hr, Z2Nat.id by lia.
    replace (lo + (hi - lo)) with hi by lia. tauto.
Qed.

Lemma all_free_ok n p ps :
  (∀ q, p <= q < p + Z.of_nat n → is_Some (ps !! q)) → ∃ r,
    all_free n p ps = Done r ∧
    (r = true → ∀ q, p <= q < p + Z.of_nat n → is_free ps q).
Proof.
  revert p. induction n as [|n IH]; intros p Hin; cbn -[Z.of_nat].
  { exists true. split; [done|]. lia. }
  destruct (Hin p) as [pg Hpg]; [lia|]. rewrite Hpg. rsimpl. case_if; [by exists false|].
  destruct (IH (p + 1)) as (r & -> & Hr); [intros; apply Hin; lia|].
  exists r. split; [done|]. intros Hrt q Hq.
  destruct (decide (q = p)) as [->|]; [by exists pg|]. apply Hr; [done|lia].
Qed.

Lemma IS_ALIGNED_spec p o : 0 <= o → IS_ALIGNED p o = true ↔ p mod 2 ^ o = 0.
Proof.
  intros. unfold IS_ALIGNED. rewrite shiftl_1 by done.
  replace (2 ^ o - 1) with (Z.ones o) by (rewrite Z.ones_equiv; lia).
  rewrite Z.land_ones by done. apply Z.eqb_eq.
Qed.

Lemma pick_order_ok o i b :
  (∀ q, is_Some (pages b !! q) ↔ 0 <= q < page_count b) →
  0 <= i < page_count b → is_free (pages b) i → ∃ ord,
    pick_order o i b = Done ord ∧ 0 <= ord <= Z.of_nat o ∧ i mod 2 ^ ord = 0 ∧
    i + 2 ^ ord <= page_count b ∧ (∀ q, in_block ord i q → is_free (pages b) q).
Proof.
  intros Hd Hi Hf. induction o as [|o IH]; cbn -[Z.of_nat all_free].
  { exists 0. rewrite Z.mod_1_r. split_and!; try done; try lia. intros q Hq. unfold in_block in Hq.
    by replace q with i by lia. }
  destruct IH as (ord & -> & Ho & IH).
  assert (∃ r, Done ord = Done r ∧ 0 <= r <= Z.of_nat (S o) ∧ i mod 2 ^ r = 0 ∧
    i + 2 ^ r <= page_count b ∧ (∀ q, in_block r i q → is_free (pages b) q)) as Hrest.
  { exists ord. split; [done|]. split; [lia|done]. }
  case_if; [|done]. apply IS_ALIGNED_spec in H; [|lia]. rewrite shiftl_1 in * by lia.
  pose proof (pow2_pos (Z.of_nat (S o))).
  destruct (all_free_ok (Z.to_nat (2 ^ Z.of_nat (S o))) i (pages b)) as ([] & -> & Ha);
    [intros; apply Hd; lia| |done].
  rsimpl. exists (Z.of_nat (S o)). split_and!; try done; try lia.
  intros q Hq. apply Ha; [done|]. unfold in_block in Hq. lia.
Qed.

(** Grouping turns the set of frames flagged free into the set of frames on
    the lists. *)
Lemma group_pages_ok fuel i b L :
  buddy_inv b L → 0 <= i <= page_count b → page_count b < i + Z.of_nat fuel →
  (∀ q, free_page L q ↔ is_free (pages b) q ∧ q < i) → ∃ b' L',
    group_pages fuel i b = Done b' ∧ buddy_inv b' L' ∧ page_count b' = page_count b ∧
    (∀ q, free_page L' q ↔ is_free (pages b) q).
Proof.
  assert (∀ b L q, buddy_inv b L → is_free (pages b) q → 0 <= q < page_count b) as Hrange.
  { intros b0 L0 q I (pg & Hpg & _). apply (bi_pages _ _ I). eauto. }
  revert i b L. induction fuel as [|fuel IH]; intros i b L I Hi Hfu HF.
  { lia. }
  cbn -[Z.of_nat pick_order buddy_add_block]. case_if.
  { exists b, L. split_and!; [done..|]. intros q. rewrite HF. split; [tauto|].
    intros Hq. split; [done|]. apply (Hrange _ _ _ I) in Hq. lia. }
  destruct (proj2 (bi_pages _ _ I i)) as [pg Hpg]; [lia|]. rewrite Hpg. rsimpl. case_if.
  { destruct (IH (i + 1) b L I) as (b' & L' & -> & ?); [lia..| |eauto].
    intros q. rewrite HF. split; [intros [? ?]; split; [done|lia]|].
    intros [Hq ?]. split; [done|]. assert (q ≠ i); [|lia]. intros ->.
    destruct Hq as (pg' & ? & ?). naive_solver. }
  destruct (pick_order_ok (Z.to_nat MAX_ORDER) i b) as (ord & -> & Ho & Ha & Hhi & Hb).
  { apply (bi_pages _ _ I). } { lia. } { by exists pg. }
  rewrite Z2Nat.id in Ho by (unfold MAX_ORDER; lia). rsimpl. pose proof (pow2_pos ord).
  assert (vacant b L ord i) as V.
  { split; try done; try lia. intros q Hq [_ ?]%HF. unfold in_block in Hq. lia. }
  destruct (buddy_add_block_ok b L ord i I V) as (b1 & L1 & -> & I1 & C1 & P1 & B1).
  { intros q Hq _. by apply Hb. }
  rsimpl. assert (∀ q, is_free (pages b1) q ↔ is_free (pages b) q) as Fq.
  { intros q. rewrite P1. unfold is_free. destruct (decide (q = i)) as [->|].
    - rewrite lookup_insert_eq. split; [intros _; eauto|eauto].
    - by rewrite lookup_insert_ne. }
  rewrite shiftl_1 by lia.
  destruct (IH (i + 2 ^ ord) b1 L1 I1) as (b' & L' & -> & I' & C' & F'); [lia..| |].
  - intros q. rewrite Fq. transitivity (free_page L q ∨ in_block ord i q).
    + unfold free_page. split.
      * intros (o' & p' & [[-> ->]|Hb']%B1 & Hq); [by right|left; eauto].
      * intros [(o' & p' & Hb' & Hq)|Hq]; [exists o', p'|exists ord, i];
          (split; [apply B1; tauto|done]).
    + rewrite HF. unfold in_block in *. split.
      * intros [[? ?]|?]; split; try done; try lia. by apply Hb.
      * intros [? ?]. destruct (decide (q < i)); [by left|right; lia].
  - exists b', L'. split_and!; [done..|congruence|]. intros q. by rewrite F', Fq.
Qed.

Definition early_reserved (bi : boot_info) (kernel_size : Z) (e : early) : reserved :=
  Reserved (kernel_phys_base bi / PAGE_SIZE)
    (align_up (u64 (kernel_phys_base bi + kernel_size)) PAGE_SIZE / PAGE_SIZE)
    (align_down (early_base e) PAGE_SIZE / PAGE_SIZE)
    (align_up (early_current e) PAGE_SIZE / PAGE_SIZE).

Lemma buddy_init_ok bi kernel_size e e' p :
  mmap_ok (mmap bi) →
  early_alloc (u64 (detect_page_count bi * SIZEOF_BUDDY_PAGE)) 0 e = Done (e', p) → ∃ b L,
    buddy_init bi kernel_size e = Done (e', b) ∧ buddy_inv b L ∧
    page_count b = detect_page_count bi ∧
    (∀ q, free_page L q ↔
       usable (mmap bi) q ∧ is_reserved (early_reserved bi kernel_size e') q = false).
Proof.
  intros Hok Ee. destruct (detect_page_count_ok bi Hok) as [Hn Htop].
  unfold buddy_init. rewrite Ee. rsimpl.
  destruct (init_areas_inv (detect_page_count bi) Hn) as (b0 & L0 & E0 & I0 & C0 & P0 & F0).
  rstep E0. fold (early_reserved bi kernel_size e').
  destruct (mark_entries_ok (early_reserved bi kernel_size e') (mmap bi) (pages b0)
    (detect_page_count bi) Hok) as (ps & -> & D & F); [|done|].
  { intros q. rewrite (bi_pages _ _ I0), C0. done. }
  rsimpl. destruct (group_pages_ok (S (Z.to_nat (detect_page_count bi))) 0 (set_pages b0 ps) L0)
    as (b & L & -> & I & C & FL).
  - apply buddy_inv_pages; [done..|]. intros q Hq. by apply F0 in Hq.
  - simpl; lia.
  - simpl. rewrite C0. lia.
  - intros q. split; [intros Hq; by apply F0 in Hq|]. intros [(pg & Hpg & _) Hq].
    assert (0 <= q); [|lia]. apply (bi_pages _ _ I0). rewrite <- elem_of_dom, <- D, elem_of_dom. eauto.
  - exists b, L. rsimpl. split_and!; [done..|by rewrite C|]. intros q. rewrite FL. simpl. rewrite F.
    split; [|tauto]. intros [(pg & Hpg & Hf)|]; [|done]. rewrite P0, blank_pages in Hpg.
    case_decide; [|done]. injection Hpg as <-. done.
Qed.

(** ** Clients of the allocator

    The second component of a configuration is the list of the blocks handed
    out and not released yet: order and virtual address. *)

Inductive buddy_step (hhdm : Z) :
    buddy_allocator * list (Z * Z) → buddy_allocator * list (Z * Z) → Prop :=
  | step_alloc o b A b' v :
      0 <= o → buddy_alloc o hhdm b = Done (b', v) → v ≠ 0 →
      buddy_step hhdm (b, A) (b', (o, v) :: A)
  | step_alloc_fail o b A b' :
      0 <= o → buddy_alloc o hhdm b = Done (b', 0) → buddy_step hhdm (b, A) (b', A)
  | step_free o v b A1 A2 b' :
      buddy_free v o hhdm b = Done b' →
      buddy_step hhdm (b, A1 ++ (o, v) :: A2) (b', A1 ++ A2).

Record buddy_config (hhdm n : Z) (b : buddy_allocator) (A : list (Z * Z)) : Prop := {
  bc_count : page_count b = n;
  bc_inv : ∃ L, buddy_inv b L ∧ ∀ x, x ∈ A → ∃ p,
    x.2 = p * PAGE_SIZE + hhdm ∧ vacant b L x.1 p;
  bc_apart : ∀ i j x y, A !! i = Some x → A !! j = Some y → i ≠ j → apart x y
}.

Section clients.
Variables (hhdm n : Z).
Hypothesis hhdm_pos : 0 < hhdm.
Hypothesis hhdm_top : hhdm + n * PAGE_SIZE < 2 ^ 64.

Lemma vacant_addr b L o p : page_count b = n → vacant b L o p →
  u64 (p * PAGE_SIZE + hhdm) = p * PAGE_SIZE + hhdm ∧ 0 < p * PAGE_SIZE + hhdm.
Proof.
  intros C [Ho Hp _ Hh _]. pose proof (pow2_pos o). unfold PAGE_SIZE in *.
  split; [apply wrap_small|]; lia.
Qed.

(** Two blocks, one of them on no list and the other on the lists. *)
Lemma apart_blocks o1 p1 o2 p2 : 0 <= o1 → 0 <= o2 →
  (∀ q, in_block o1 p1 q → in_block o2 p2 q → False) →
  apart (o1, p1 * PAGE_SIZE + hhdm) (o2, p2 * PAGE_SIZE + hhdm).
Proof.
  intros H1 H2 Hd. unfold apart, in_block, PAGE_SIZE in *. simpl.
  pose proof (pow2_pos o1). pose proof (pow2_pos o2).
  specialize (Hd (Z.max p1 p2)). lia.
Qed.

Lemma apart_in_block o1 p1 o2 p2 q :
  apart (o1, p1 * PAGE_SIZE + hhdm) (o2, p2 * PAGE_SIZE + hhdm) →
  in_block o1 p1 q → in_block o2 p2 q → False.
Proof. unfold apart, in_block, PAGE_SIZE. simpl. lia. Qed.

Lemma config_alloc o b A b' v :
  buddy_config hhdm n b A → 0 <= o → buddy_alloc o hhdm b = Done (b', v) → v ≠ 0 →
  buddy_config hhdm n b' ((o, v) :: A).
Proof.
  intros [C (L & I & HA) Hap] Ho E Hv.
  destruct (buddy_alloc_ok o hhdm b L I Ho) as [[E' _]|(p & b1 & L1 & E' & Al)];
    rewrite E' in E; [naive_solver|]. injection E as <- <-.
  destruct Al as [I1 C1 Hp Hal Hhi Hwas Hfree _ _].
  assert (0 <= o <= MAX_ORDER) as HoM.
  { destruct (Hwas p) as (o' & p' & Hb & Hq); [by apply in_block_self|].
    unfold buddy_alloc, buddy_alloc_vaddr in E'. case_if_in E'; [|lia].
    injection E' as _ E'. done. }
  assert (vacant b1 L1 o p) as V.
  { split; try done; [by rewrite C1|]. intros q Hq [_ ?]%Hfree. done. }
  destruct (vacant_addr b1 L1 o p) as [Ev _]; [congruence|done|]. rewrite Ev.
  assert (∀ y, y ∈ A → apart (o, p * PAGE_SIZE + hhdm) y) as Hnew.
  { intros [o2 v2] (p2 & E2 & V2)%HA. simpl in *. subst v2.
    apply apart_blocks; [done|apply V2|]. intros q Hq Hq2.
    by apply (va_free _ _ _ _ V2 q), Hwas. }
  split; [congruence| |].
  - exists L1. split; [done|]. intros x [->|Hx]%elem_of_cons; [by exists p|].
    destruct (HA _ Hx) as (p2 & E2 & [? ? ? ? Hf]). exists p2. split; [done|].
    split; try done; [by rewrite C1|]. intros q Hq [? _]%Hfree. by apply (Hf q).
  - intros [|i] [|j] x y Hx Hy Hne; simpl in *; [done| | |by eapply (Hap i j); auto].
    + injection Hx as <-. apply Hnew. by eapply list_elem_of_lookup_2.
    + injection Hy as <-. apply apart_sym, Hnew. by eapply list_elem_of_lookup_2.
Qed.

Lemma config_free o v b A1 A2 :
  buddy_config hhdm n b (A1 ++ (o, v) :: A2) → ∃ b', buddy_free v o hhdm b = Done b' ∧
  buddy_config hhdm n b' (A1 ++ A2).
Proof.
  intros [C (L & I & HA) Hap]. destruct (HA (o, v)) as (p & E & V); [set_solver|].
  simpl in *. destruct (vacant_addr b L o p C V) as [Ev Hpos].
  destruct (buddy_free_ok o hhdm b L p I V) as (b' & L' & Ef & I' & [C' D' F'] & Fr);
    [lia|by rewrite C|done|].
  rewrite Ev, <- E in Ef. exists b'. split; [done|]. split; [congruence| |].
  - exists L'. split; [done|]. intros x Hx.
    destruct (HA x) as (p2 & E2 & V2); [set_solver|]. exists p2. split; [done|].
    assert (apart (o, p * PAGE_SIZE + hhdm) (x.1, p2 * PAGE_SIZE + hhdm)) as Hd.
    { apply list_elem_of_lookup in Hx as [i Hi]. rewrite (lookup_remove A1 (o, v)) in Hi.
      rewrite <- E, <- E2. change (apart (o, v) (x.1, x.2)). rewrite <- surjective_pairing.
      eapply (Hap (length A1)); [by apply list_lookup_middle|exact Hi|case_decide; lia]. }
    destruct V2 as [? ? ? ? Hf]. split; try done; [by rewrite C'|].
    intros q Hq [Hq'|Hq']%Fr; [by apply (Hf q)|]. by eapply apart_in_block.
  - intros i j x y Hx Hy Hne. rewrite (lookup_remove A1 (o, v)) in Hx, Hy.
    eapply Hap; [exact Hx|exact Hy|]. repeat case_decide; lia.
Qed.

Lemma config_step c c' : buddy_step hhdm c c' →
  buddy_config hhdm n c.1 c.2 → buddy_config hhdm n c'.1 c'.2.
Proof.
  intros [o b A b' v Ho E Hv|o b A b' Ho E|o v b A1 A2 b' E] HC; simpl in *.
  - by eapply config_alloc.
  - destruct HC as [C (L & I & HA) Hap].
    destruct (buddy_alloc_ok o hhdm b L I Ho) as [[E' _]|(p & b1 & L1 & E' & Al)].
    + rewrite E' in E. injection E as <-. split; eauto.
    + rewrite E' in E. injection E as -> E. destruct Al. pose proof (pow2_pos o).
      unfold PAGE_SIZE in *. rewrite wrap_small in E; lia.
  - destruct (config_free _ _ _ _ _ HC) as (b1 & E' & HC'). rewrite E' in E.
    by injection E as <-.
Qed.

Lemma config_reach c c' : rtc (buddy_step hhdm) c c' →
  buddy_config hhdm n c.1 c.2 → buddy_config hhdm n c'.1 c'.2.
Proof. induction 1; eauto using config_step. Qed.
Hypothesis hhdm_aligned : hhdm mod PAGE_SIZE = 0.

(** The allocator implements the interface its clients rely on. *)
#[local] Instance buddy_pages : page_allocator buddy_allocator :=
  PageAllocator _ (λ o, buddy_alloc o hhdm) (λ v o, buddy_free v o hhdm) (buddy_config hhdm n).

Lemma buddy_pages_laws : PageAllocatorLaws buddy_allocator.
Proof.
  split; simpl.
  - intros o b A Ho HC. pose proof HC as [C (L & I & HA) Hap].
    destruct (buddy_alloc_ok o hhdm b L I Ho) as [[E Hno]|(p & b' & L' & E & Al)].
    + exists b, 0. split; [done|]. by left.
    + exists b', (u64 (p * PAGE_SIZE + hhdm)). split; [done|]. right.
      assert (u64 (p * PAGE_SIZE + hhdm) ≠ 0) as Hv.
      { destruct Al. pose proof (pow2_pos o). unfold PAGE_SIZE in *. rewrite wrap_small; lia. }
      split; [done|]. by eapply config_alloc.
  - intros o v b A1 A2 HC. by apply config_free.
  - intros b A o v [C (L & I & HA) Hap] Hin. destruct (HA _ Hin) as (p & E & V). simpl in *.
    destruct V as [Ho Hp _ Hh _]. pose proof (pow2_pos o). unfold MAX_ORDER in Ho.
    subst v. split_and!; unfold PAGE_SIZE in *; try lia.
    by rewrite Z.add_comm, Z.mod_add by lia.
  - intros b A i j x y [_ _ Hap]. by apply Hap.
Qed.
End clients.

Lemma pages_to_order_min n : 1 <= n →
  0 <= pages_to_order n ∧ n <= 2 ^ pages_to_order n ∧
  (∀ k, 0 <= k → n <= 2 ^ k → pages_to_order n <= k).
Proof.
  intros Hn. unfold pages_to_order. case_if.
  { split_and!; [lia|simpl; lia|lia]. }
  destruct (Z.log2_spec (n - 1)) as [H1 H2]; [lia|]. pose proof (Z.log2_nonneg (n - 1)).
  change (Z.succ ?x) with (x + 1) in H2. split_and!; [lia|lia|]. intros k Hk Hle.
  assert (Z.log2 (n - 1) < k); [|lia]. apply (Z.pow_lt_mono_r_iff 2); lia.
Qed.

(** ** Properties *)

(** On every memory map whose usable memory ends below 4 TiB, once the
    descriptor array is allocated, [buddy_init] returns a well-formed
    allocator (lists, counters, flags, alignment and disjointness of the
    blocks), and a frame is on a free list exactly when it lies wholly inside
    a usable region and is neither a kernel frame nor one of the early
    allocator's: nothing is lost and nothing reserved is ever handed out. *)
Theorem buddy_init_free_frames bi kernel_size e e' p :
  mmap_ok (mmap bi) →
  early_alloc (u64 (detect_page_count bi * SIZEOF_BUDDY_PAGE)) 0 e = Done (e', p) → ∃ b L,
    buddy_init bi kernel_size e = Done (e', b) ∧ buddy_inv b L ∧
    (∀ q, free_page L q ↔
       usable (mmap bi) q ∧ is_reserved (early_reserved bi kernel_size e') q = false).
Proof.
  intros Hok E. destruct (buddy_init_ok bi kernel_size e e' p Hok E) as (b & L & ? & ? & _ & ?).
  by exists b, L.
Qed.

(** C2: [buddy_alloc] never faults on a well-formed allocator. It returns 0,
    with the state untouched, only when no block of the requested order or
    above is free; otherwise it returns the address of an aligned block whose
    frames were all free, marks exactly these frames allocated, keeps the
    invariant, and the free frames afterwards are the former ones minus the
    block (the remainders of the split are all back on the lists). *)
Theorem buddy_alloc_spec order hhdm b L :
  buddy_inv b L → 0 <= order →
  (buddy_alloc order hhdm b = Done (b, 0) ∧ (∀ o p, blk L o p → o < order)) ∨
  (∃ p b' L', buddy_alloc order hhdm b = Done (b', u64 (p * PAGE_SIZE + hhdm)) ∧
     allocated b b' L L' order p).
Proof. apply buddy_alloc_ok. Qed.

(** C1: for every client that releases only blocks it holds, in any
    interleaving of allocations and releases from the state [buddy_init]
    leaves, the blocks held are pairwise disjoint address ranges, none of
    their frames is on a free list, the invariant holds, and the next
    allocation or release cannot fault: memory is never handed out twice. *)
Theorem buddy_exclusive bi kernel_size e e' b0 hhdm b A :
  mmap_ok (mmap bi) → (∃ p, early_alloc (u64 (detect_page_count bi * SIZEOF_BUDDY_PAGE)) 0 e = Done (e', p)) →
  buddy_init bi kernel_size e = Done (e', b0) →
  0 < hhdm → hhdm + detect_page_count bi * PAGE_SIZE < 2 ^ 64 →
  rtc (buddy_step hhdm) (b0, []) (b, A) →
  (∀ i j x y, A !! i = Some x → A !! j = Some y → i ≠ j → apart x y) ∧
  (∃ L, buddy_inv b L ∧ ∀ o v, (o, v) ∈ A → ∃ p, v = p * PAGE_SIZE + hhdm ∧ vacant b L o p) ∧
  (∀ o, 0 <= o → ∃ b' v, buddy_alloc o hhdm b = Done (b', v)) ∧
  (∀ o v, (o, v) ∈ A → ∃ b', buddy_free v o hhdm b = Done b').
Proof.
  intros Hok [p Ee] Ei Hpos Htop Hr.
  destruct (buddy_init_ok bi kernel_size e e' p Hok Ee) as (b1 & L1 & Ei' & I1 & C1 & _).
  rewrite Ei' in Ei. injection Ei as <-.
  assert (buddy_config hhdm (detect_page_count bi) b A) as HC.
  { eapply config_reach in Hr; [exact Hr|done..|]. split; [done| |done].
    exists L1. split; [done|]. by intros x ?%elem_of_nil. }
  pose proof HC as [C (L & I & HA) Hap]. split_and!; [done| | |].
  - exists L. split; [done|]. intros o v Hin. by destruct (HA _ Hin) as (q & ? & ?); exists q.
  - intros o Ho. destruct (buddy_alloc_ok o hhdm b L I Ho) as [[E _]|(q & b' & L' & E & _)]; eauto.
  - intros o v (A1 & A2 & ->)%list_elem_of_split.
    destruct (config_free hhdm _ Hpos Htop _ _ _ _ _ HC) as (b' & E & _). eauto.
Qed.

(** [buddy_free] of a block that is on no free list puts exactly its
    frames back: the call succeeds, the invariant is kept, the free frames
    are the former ones plus the block's, and no other descriptor changes. *)
Theorem buddy_free_spec order hhdm b L p :
  buddy_inv b L → vacant b L order p →
  0 <= hhdm → hhdm + page_count b * PAGE_SIZE < 2 ^ 64 → 0 < p * PAGE_SIZE + hhdm →
  ∃ b' L', buddy_free (u64 (p * PAGE_SIZE + hhdm)) order hhdm b = Done b' ∧
    buddy_inv b' L' ∧ frames b b' order p ∧
    (∀ q, free_page L' q ↔ free_page L q ∨ in_block order p q).
Proof. apply buddy_free_ok. Qed.

(** [pages_to_order n] is the smallest order whose block holds [n] pages. *)
Theorem pages_to_order_least n : 1 <= n →
  n <= 2 ^ pages_to_order n ∧ (∀ k, 0 <= k → n <= 2 ^ k → pages_to_order n <= k).
Proof. intros Hn. destruct (pages_to_order_min n Hn) as (_ & ? & ?). done. Qed.

(** ** Witnesses: 512 KiB of memory with a hole *)

Definition demo_bi : boot_info :=
  BootInfo BOOT_INFO_MAGIC 0xFFFF800000000000 0x80000 0x3000 0xFFFFFFFF80000000 0x2000 0 0
    [MmapEntry 0 0x40000 1; MmapEntry 0x40000 0x10000 2; MmapEntry 0x50000 0x30000 1]
    [] (BootFb 0 0 0 0 0 0 0).

Definition demo_early : early :=
  match early_alloc_init (Some demo_bi) with Done e => e | Stop _ => Early 0 0 0 0 0 end.

Lemma demo_mmap_ok : mmap_ok (mmap demo_bi).
Proof.
  intros e He Ht. simpl in He. repeat apply elem_of_cons in He as [->|He]; simpl in *; try lia.
  by apply elem_of_nil in He.
Qed.

Lemma demo_early_alloc : early_alloc (u64 (detect_page_count demo_bi * SIZEOF_BUDDY_PAGE)) 0
  demo_early = Done (Early 0x80000 0xFFFF800000000000 0 0x40000 3072, 0xFFFF800000000000).
Proof. vm_compute. reflexivity. Qed.

Definition demo_buddy : buddy_allocator :=
  match buddy_init demo_bi 0x2000 demo_early with Done (_, b) => b | Stop _ => blank 0 end.

Lemma demo_buddy_inv : ∃ L, buddy_init demo_bi 0x2000 demo_early
    = Done (Early 0x80000 0xFFFF800000000000 0 0x40000 3072, demo_buddy) ∧
  buddy_inv demo_buddy L ∧ page_count demo_buddy = 128 ∧
  (∀ q, free_page L q ↔ usable (mmap demo_bi) q ∧
     is_reserved (early_reserved demo_bi 0x2000
       (Early 0x80000 0xFFFF800000000000 0 0x40000 3072)) q = false).
Proof.
  destruct (buddy_init_ok demo_bi 0x2000 demo_early _ _ demo_mmap_ok demo_early_alloc)
    as (b & L & E & I & C & F).
  assert (b = demo_buddy) as -> by (unfold demo_buddy; by rewrite E).
  exists L. split_and!; try done.
Qed.

#[global] Opaque demo_buddy.

Lemma buddy_init_free_frames_witness : ∃ b L,
  buddy_init demo_bi 0x2000 demo_early
    = Done (Early 0x80000 0xFFFF800000000000 0 0x40000 3072, b) ∧ buddy_inv b L ∧
  (∀ q, free_page L q ↔ usable (mmap demo_bi) q ∧
     is_reserved (early_reserved demo_bi 0x2000
       (Early 0x80000 0xFFFF800000000000 0 0x40000 3072)) q = false).
Proof.
  eapply buddy_init_free_frames; [apply demo_mmap_ok|apply demo_early_alloc].
Defined.

Lemma buddy_alloc_spec_witness : ∃ L, buddy_inv demo_buddy L ∧
  ((buddy_alloc 2 0xFFFF800000000000 demo_buddy = Done (demo_buddy, 0) ∧
     (∀ o p, blk L o p → o < 2)) ∨
   (∃ p b' L', buddy_alloc 2 0xFFFF800000000000 demo_buddy
      = Done (b', u64 (p * PAGE_SIZE + 0xFFFF800000000000)) ∧
     allocated demo_buddy b' L L' 2 p)).
Proof.
  destruct demo_buddy_inv as (L & _ & I & _). exists L. split; [exact I|].
  apply buddy_alloc_spec; [exact I|lia].
Defined.

(** Two allocations, then the release of the first. *)
Definition demo_trace : run (buddy_allocator * list (Z * Z)) :=
  '(b, v) ← buddy_alloc 1 0xFFFF800000000000 demo_buddy;
  '(b, w) ← buddy_alloc 0 0xFFFF800000000000 b;
  b ← buddy_free v 1 0xFFFF800000000000 b;
  Done (b, [(0, w)]).

Definition demo_trace_runs : bool :=
  match buddy_alloc 1 0xFFFF800000000000 demo_buddy with
  | Done (b, v) => negb (v =? 0) &&
      match buddy_alloc 0 0xFFFF800000000000 b with
      | Done (b, w) => negb (w =? 0) &&
          match buddy_free v 1 0xFFFF800000000000 b with Done _ => true | Stop _ => false end
      | Stop _ => false
      end
  | Stop _ => false
  end.

Lemma demo_trace_reach : match demo_trace with
  | Done c => rtc (buddy_step 0xFFFF800000000000) (demo_buddy, []) c
  | Stop _ => False end.
Proof.
  assert (demo_trace_runs = true) as H by (vm_compute; reflexivity).
  unfold demo_trace, demo_trace_runs in *.
  destruct (buddy_alloc 1 _ demo_buddy) as [[b1 v]|] eqn:E1; [|discriminate H].
  rsimpl. breflect. destruct (buddy_alloc 0 _ b1) as [[b2 w]|] eqn:E2; [|discriminate].
  rsimpl. breflect. destruct (buddy_free v 1 _ b2) as [b3|] eqn:E3; [|discriminate].
  rsimpl. eapply rtc_l; [by eapply (step_alloc _ 1)|].
  eapply rtc_l; [by eapply (step_alloc _ 0)|].
  eapply rtc_l; [by eapply (step_free _ 1 v b2 [(0, w)] [])|]. apply rtc_refl.
Qed.

Lemma buddy_exclusive_witness : match demo_trace with
  | Done (b, A) =>
      (∀ i j x y, A !! i = Some x → A !! j = Some y → i ≠ j → apart x y) ∧
      (∃ L, buddy_inv b L ∧ ∀ o v, (o, v) ∈ A → ∃ p,
         v = p * PAGE_SIZE + 0xFFFF800000000000 ∧ vacant b L o p) ∧
      (∀ o, 0 <= o → ∃ b' v, buddy_alloc o 0xFFFF800000000000 b = Done (b', v)) ∧
      (∀ o v, (o, v) ∈ A → ∃ b', buddy_free v o 0xFFFF800000000000 b = Done b')
  | Stop _ => False end.
Proof.
  pose proof demo_trace_reach as Hr. destruct demo_trace as [[b A]|]; [|exact Hr].
  destruct demo_buddy_inv as (L & E & _).
  eapply (buddy_exclusive demo_bi 0x2000 demo_early).
  - apply demo_mmap_ok.
  - eexists. apply demo_early_alloc.
  - exact E.
  - lia.
  - vm_compute. reflexivity.
  - exact Hr.
Defined.

Lemma buddy_free_spec_witness : ∃ L b' L', buddy_inv demo_buddy L ∧
  buddy_free (u64 (3 * PAGE_SIZE + 0xFFFF800000000000)) 0 0xFFFF800000000000 demo_buddy = Done b' ∧
  buddy_inv b' L' ∧ frames demo_buddy b' 0 3 ∧
  (∀ q, free_page L' q ↔ free_page L q ∨ in_block 0 3 q).
Proof.
  destruct demo_buddy_inv as (L & _ & I & C & F). exists L.
  destruct (buddy_free_spec 0 0xFFFF800000000000 demo_buddy L 3) as (b' & L' & E & R).
  - exact I.
  - split; [unfold MAX_ORDER; lia|lia|done|rewrite C; simpl; lia|].
    intros q Hq. unfold in_block in Hq. replace q with 3 by lia. intros [_ Hf]%F.
    by vm_compute in Hf.
  - lia.
  - rewrite C. vm_compute. reflexivity.
  - vm_compute. reflexivity.
  - exists b', L'. exact (conj I (conj E R)).
Defined.

Lemma pages_to_order_least_witness :
  5 <= 2 ^ pages_to_order 5 ∧ (∀ k, 0 <= k → 5 <= 2 ^ k → pages_to_order 5 <= k).
Proof. apply pages_to_order_least. lia. Defined.
