(* ===== verification/Slab.v ===== *)
(** * The slab allocator (lizard/slab.c, lizard/slab.h)

    Objects live at addresses of a typed heap: the caches, the slab headers
    (at the first byte of their pages) and the object headers each have a map
    from addresses, and the list nodes of caches and slabs share one store.
    The pages come from the page allocator through its interface. Calls of a
    constructor or destructor are recorded, the functions themselves belong to
    the client. *)

From S2P Require Import Prelude ListHead Helpers EarlyAlloc PageAlloc Buddy.

Local Open Scope Z_scope.

Definition KMEMCACHE_NAME_LEN : nat := 32.
Definition SLAB_MAGIC : Z := 0xDEADBEEF.
Definition MAX_FREE_SLABS : Z := 3.
Definition SIZEOF_SLAB : Z := 56.
Definition SIZEOF_SLAB_OBJ : Z := 16.
Definition SIZEOF_PTR : Z := 8.

(** The list nodes: three heads per cache, one node per slab. *)
Inductive snode : Type :=
  | SFull (cache : Z) | SPartial (cache : Z) | SFree (cache : Z) | SSlab (slab : Z).

#[global] Instance snode_eq_dec : EqDecision snode.
Proof. solve_decision. Defined.

#[global] Instance snode_countable : Countable snode.
Proof.
  apply (inj_countable'
    (λ n, match n with SFull c => (0, c) | SPartial c => (1, c) | SFree c => (2, c)
          | SSlab c => (3, c) end)
    (λ p, if p.1 =? 0 then SFull p.2 else if p.1 =? 1 then SPartial p.2
          else if p.1 =? 2 then SFree p.2 else SSlab p.2)).
  by intros [].
Defined.

Record kmem_cache := KCache {
  name : list Z;
  object_size : Z;
  real_object_size : Z;
  align : Z;
  c_in_use : Z;
  free_slab_count : Z;
  objects_per_slab : Z;
  c_order : Z;
  ctor : option Z;
  dtor : option Z
}.

Record slab := Slab {
  start : Z;
  in_use : Z;
  free : Z;
  freelist : Z;
  magic : Z;
  cache : Z
}.

Record slab_obj := SObj { o_slab : Z; o_next : Z }.

Record heap (S : Type) := Heap {
  pgs : S;
  caches : gmap Z kmem_cache;
  slabs : gmap Z slab;
  objs : gmap Z slab_obj;
  snodes : gmap snode (list_head snode);
  calls : list (Z * Z)
}.
Arguments Heap {_} _ _ _ _ _ _.
Arguments pgs {_} _.
Arguments caches {_} _.
Arguments slabs {_} _.
Arguments objs {_} _.
Arguments snodes {_} _.
Arguments calls {_} _.

Section slab_allocator.
Context {S : Type} `{!page_allocator S}.
Implicit Types s : heap S.

Definition set_pgs p (s : heap S) : heap S := Heap p (caches s) (slabs s) (objs s) (snodes s) (calls s).
Definition set_caches c (s : heap S) : heap S := Heap (pgs s) c (slabs s) (objs s) (snodes s) (calls s).
Definition set_slabs sl (s : heap S) : heap S := Heap (pgs s) (caches s) sl (objs s) (snodes s) (calls s).
Definition set_objs o (s : heap S) : heap S := Heap (pgs s) (caches s) (slabs s) o (snodes s) (calls s).
Definition set_snodes n (s : heap S) : heap S := Heap (pgs s) (caches s) (slabs s) (objs s) n (calls s).

(** [f(obj)] when the function pointer is set. *)
Definition call (f : option Z) (obj : Z) (s : heap S) : heap S :=
  match f with
  | Some f => Heap (pgs s) (caches s) (slabs s) (objs s) (snodes s) ((f, obj) :: calls s)
  | None => s
  end.

Definition upd_cache (c : Z) (f : kmem_cache → kmem_cache) (s : heap S)  : run (heap S) :=
  k ← access (caches s !! c); Done (set_caches (<[c := f k]> (caches s)) s).

Definition upd_slab (a : Z) (f : slab → slab) (s : heap S)  : run (heap S) :=
  x ← access (slabs s !! a); Done (set_slabs (<[a := f x]> (slabs s)) s).

Definition on_nodes (f : gmap snode (list_head snode) → run (gmap snode (list_head snode))) (s : heap S)     : run (heap S) :=
  n ← f (snodes s); Done (set_snodes n s).

(** ** Slabs *)

(** The loop from [objs - 1] down to 0 that chains the objects of a slab. *)
Fixpoint chain_objs (n : nat) (slab obj_start size : Z) (fl : Z) (os : gmap Z slab_obj)
    : gmap Z slab_obj * Z :=
  match n with
  | O => (os, fl)
  | Datatypes.S n =>
      let o := obj_start + Z.of_nat n * size in
      chain_objs n slab obj_start size o (<[o := SObj slab fl]> os)
  end.

Definition slab_create (c : Z) (s : heap S)  : run (heap S * Z) :=
  k ← access (caches s !! c);
  '(p, mem) ← pa_alloc (c_order k) (pgs s);
  let s := set_pgs p s in
  if mem =? 0 then Done (s, 0)
  else
    let slab_end := u64 (mem + Z.shiftl PAGE_SIZE (c_order k)) in
    let obj_start := align_up (u64 (mem + SIZEOF_SLAB)) (align k) in
    if slab_end <=? obj_start then Stop Panic
    else
      let n := u32 ((slab_end - obj_start) / real_object_size k) in
      if n =? 0 then Stop Panic
      else
        let '(os, fl) := chain_objs (Z.to_nat n) mem obj_start (real_object_size k) 0 (objs s) in
        Done (Heap (pgs s) (caches s) (<[mem := Slab mem 0 n fl SLAB_MAGIC c]> (slabs s)) os
                (<[SSlab mem := Links (Some (SSlab mem)) (Some (SSlab mem))]> (snodes s))
                (calls s), mem).

Definition slab_destroy (c a : Z) (s : heap S)  : run (heap S) :=
  x ← access (slabs s !! a);
  if negb (magic x =? SLAB_MAGIC) then Stop Panic
  else
    s ← on_nodes (list_del (SSlab a)) s;
    s ← upd_slab a (λ x, Slab (start x) (in_use x) (free x) (freelist x) 0 (cache x)) s;
    k ← access (caches s !! c);
    p ← pa_free a (c_order k) (pgs s);
    Done (set_pgs p s).

(** ** Caches *)

(** [while ((PAGE_SIZE << order) < needed) order++]. *)
Fixpoint order_for (fuel : nat) (needed order : Z) : run Z :=
  match fuel with
  | O => Stop Diverge
  | Datatypes.S fuel =>
      if u64 (Z.shiftl PAGE_SIZE order) <? needed then order_for fuel needed (order + 1)
      else Done order
  end.

(** The name field: at most 31 bytes of the string, zero padded. *)
Fixpoint strncpy_bytes (n : nat) (src : list Z) : list Z :=
  match n with
  | O => []
  | Datatypes.S n =>
      match src with
      | [] => 0 :: strncpy_bytes n []
      | c :: src => c :: strncpy_bytes n (if c =? 0 then [] else src)
      end
  end.

Definition kmemcache_create (nm : option (list Z)) (obj_size : Z) (ct dt : option Z) (s : heap S)     : run (heap S * Z) :=
  '(p, c) ← pa_alloc 0 (pgs s);
  let s := set_pgs p s in
  if c =? 0 then Done (s, 0)
  else
    let name := match nm with
                | Some n => strncpy_bytes (KMEMCACHE_NAME_LEN - 1) n ++ [0]
                | None => replicate KMEMCACHE_NAME_LEN 0
                end in
    let align := SIZEOF_PTR in
    let real := align_up (u64 (SIZEOF_SLAB_OBJ + obj_size)) align in
    let needed := u64 (SIZEOF_SLAB + real) in
    order ← order_for 64 needed 0;
    let slab_bytes := u64 (Z.shiftl PAGE_SIZE order) in
    let per := u32 ((slab_bytes - SIZEOF_SLAB) / real) in
    if per =? 0 then Stop Panic
    else
      let self h := Links (Some h) (Some h) in
      Done (Heap (pgs s) (<[c := KCache name obj_size real align 0 0 per order ct dt]> (caches s))
              (slabs s) (objs s)
              (<[SFull c := self (SFull c)]> (<[SPartial c := self (SPartial c)]>
                 (<[SFree c := self (SFree c)]> (snodes s)))) (calls s), c).

(** [list_first_entry(head, struct slab, list)]. *)
Definition first_slab (h : snode) (s : heap S) : run Z :=
  e ← get (snodes s) (Some h);
  match next e with Some (SSlab a) => Done a | _ => Stop Fault end.

(** The choice of the slab an object is taken from; 0 when there is none. *)
Definition pick_slab (c : Z) (s : heap S)  : run (heap S * Z) :=
  _ ← access (caches s !! c);
  no_partial ← list_empty (SPartial c) (snodes s);
  if negb no_partial then a ← first_slab (SPartial c) s; Done (s, a)
  else
    no_free ← list_empty (SFree c) (snodes s);
    if negb no_free then
      a ← first_slab (SFree c) s;
      s ← on_nodes (list_move (SSlab a) (SPartial c)) s;
      s ← upd_cache c (λ k, KCache (name k) (object_size k) (real_object_size k) (align k)
            (c_in_use k) (u32 (free_slab_count k - 1)) (objects_per_slab k) (c_order k)
            (ctor k) (dtor k)) s;
      Done (s, a)
    else
      '(s, a) ← slab_create c s;
      if a =? 0 then Done (s, 0)
      else s ← on_nodes (list_add (SSlab a) (SPartial c)) s; Done (s, a).

Definition bump_in_use (d : Z) (k : kmem_cache) : kmem_cache :=
  KCache (name k) (object_size k) (real_object_size k) (align k) (u32 (c_in_use k + d))
    (free_slab_count k) (objects_per_slab k) (c_order k) (ctor k) (dtor k).

(** Taking the first object of the slab. *)
Definition take_obj (c a : Z) (s : heap S)  : run (heap S * Z) :=
  x ← access (slabs s !! a);
  let o := freelist x in
  oh ← access (objs s !! o);
  s ← upd_slab a (λ x, Slab (start x) (u32 (in_use x + 1)) (u32 (free x - 1)) (o_next oh)
                         (magic x) (cache x)) s;
  s ← upd_cache c (bump_in_use 1) s;
  x ← access (slabs s !! a);
  s ← (if free x =? 0 then on_nodes (list_move (SSlab a) (SFull c)) s else Done s);
  let obj := o + SIZEOF_SLAB_OBJ in
  k ← access (caches s !! c);
  Done (call (ctor k) obj s, obj).

Definition kmemcache_alloc (c : Z) (s : heap S)  : run (heap S * Z) :=
  '(s, a) ← pick_slab c s;
  if a =? 0 then Done (s, 0) else take_obj c a s.

Definition get_slab (obj : Z) (s : heap S) : run Z :=
  o ← access (objs s !! (obj - SIZEOF_SLAB_OBJ)); Done (o_slab o).

Definition is_valid_slab (a : Z) (s : heap S) : run bool :=
  x ← access (slabs s !! a); Done (magic x =? SLAB_MAGIC).

(** The object goes back to the free list of its slab. *)
Definition put_obj (c a obj : Z) (s : heap S)  : run (heap S) :=
  k ← access (caches s !! c);
  let s := call (dtor k) obj s in
  let o := obj - SIZEOF_SLAB_OBJ in
  x ← access (slabs s !! a);
  oh ← access (objs s !! o);
  let s := set_objs (<[o := SObj (o_slab oh) (freelist x)]> (objs s)) s in
  s ← upd_slab a (λ x, Slab (start x) (u32 (in_use x - 1)) (u32 (free x + 1)) o
                         (magic x) (cache x)) s;
  upd_cache c (bump_in_use (-1)) s.

(** The slab changes lists when it was full or has become empty. *)
Definition requeue_slab (c a : Z) (s : heap S)  : run (heap S) :=
  x ← access (slabs s !! a);
  s ← (if free x =? 1 then on_nodes (list_move (SSlab a) (SPartial c)) s else Done s);
  if in_use x =? 0 then
    k ← access (caches s !! c);
    if MAX_FREE_SLABS <=? free_slab_count k then slab_destroy c a s
    else
      s ← on_nodes (list_move (SSlab a) (SFree c)) s;
      upd_cache c (λ k, KCache (name k) (object_size k) (real_object_size k) (align k)
        (c_in_use k) (u32 (free_slab_count k + 1)) (objects_per_slab k) (c_order k)
        (ctor k) (dtor k)) s
  else Done s.

Definition kmemcache_free (obj : Z) (s : heap S)  : run (heap S * Z) :=
  if obj =? 0 then Done (s, -1)
  else
    a ← get_slab obj s;
    x ← access (slabs s !! a);
    if negb (magic x =? SLAB_MAGIC) then Stop Panic
    else
      s ← put_obj (cache x) a obj s;
      s ← requeue_slab (cache x) a s;
      Done (s, 0).
End slab_allocator.

(** ** The invariant

    [A] are the page blocks the allocator holds, [L] the abstract lists, [F]
    the sequence of free objects of every slab and [Hm] the list every slab is
    on. *)

Definition cap (k : kmem_cache) : Z :=
  (2 ^ c_order k * PAGE_SIZE - SIZEOF_SLAB) / real_object_size k.

(** The header of the object number [i] of the slab at [a]. *)
Definition pos (k : kmem_cache) (a i : Z) : Z := a + SIZEOF_SLAB + i * real_object_size k.

Fixpoint chain (os : gmap Z slab_obj) (p : Z) (l : list Z) : Prop :=
  match l with
  | [] => p = 0
  | o :: l => p = o ∧ o ≠ 0 ∧ ∃ h, os !! o = Some h ∧ chain os (o_next h) l
  end.

Record cache_wf (k : kmem_cache) : Prop := {
  cw_align : align k = SIZEOF_PTR;
  cw_order : 0 <= c_order k <= 16;
  cw_size : 0 <= object_size k ∧ SIZEOF_SLAB_OBJ + object_size k <= real_object_size k;
  cw_real : real_object_size k mod SIZEOF_PTR = 0;
  cw_cap : SIZEOF_SLAB + real_object_size k <= 2 ^ c_order k * PAGE_SIZE
}.

Record slab_ok (os : gmap Z slab_obj) (k : kmem_cache) (a : Z) (x : slab) (fl : list Z) : Prop := {
  so_start : start x = a;
  so_free : free x = Z.of_nat (length fl);
  so_use : in_use x = cap k - Z.of_nat (length fl);
  so_chain : chain os (freelist x) fl;
  so_nodup : NoDup fl;
  so_pos o : o ∈ fl → ∃ i, 0 <= i < cap k ∧ o = pos k a i;
  so_head i : 0 <= i < cap k → ∃ h, os !! pos k a i = Some h ∧ o_slab h = a
}.

(** The list a slab belongs on. *)
Definition home (x : slab) : snode :=
  if free x =? 0 then SFull (cache x) else if in_use x =? 0 then SFree (cache x)
  else SPartial (cache x).

Definition head_of (c : Z) (h : snode) : Prop := h = SFull c ∨ h = SPartial c ∨ h = SFree c.

Section invariant.
Context {S : Type} `{!page_allocator S}.
Implicit Types s : heap S.

Definition live_slab (s : heap S) (a : Z) (x : slab) : Prop :=
  slabs s !! a = Some x ∧ magic x = SLAB_MAGIC.

Record slab_core (s : heap S) (A : list (Z * Z)) (L : gmap snode (list snode))
    (F : gmap Z (list Z)) (Hm : gmap Z snode) : Prop := {
  sc_own : pa_own (pgs s) A;
  sc_lists : lists_ok (snodes s) L;
  sc_heads : ∀ h, is_Some (L !! h) ↔ ∃ c, is_Some (caches s !! c) ∧ head_of c h;
  sc_cache : ∀ c k, caches s !! c = Some k → cache_wf k ∧ (0, c) ∈ A;
  sc_slab : ∀ a x, live_slab s a x → ∃ k fl, caches s !! cache x = Some k ∧
    (c_order k, a) ∈ A ∧ F !! a = Some fl ∧ slab_ok (objs s) k a x fl ∧ caches s !! a = None;
  sc_mem : ∀ h n, on_list L h n → ∃ a x, n = SSlab a ∧ live_slab s a x ∧
    Hm !! a = Some h ∧ head_of (cache x) h;
  sc_home : ∀ a x, live_slab s a x → ∃ h, Hm !! a = Some h ∧ head_of (cache x) h ∧
    on_list L h (SSlab a)
}.

Definition counts_ok (s : heap S) (L : gmap snode (list snode)) : Prop :=
  ∀ c k, caches s !! c = Some k →
    free_slab_count k = llen L (SFree c) ∧ llen L (SFree c) <= MAX_FREE_SLABS.

Record slab_inv (s : heap S) (A : list (Z * Z)) (L : gmap snode (list snode))
    (F : gmap Z (list Z)) : Prop := {
  si_core : ∃ Hm, slab_core s A L F Hm ∧ ∀ a x, live_slab s a x → Hm !! a = Some (home x);
  si_counts : counts_ok s L
}.

(** The objects handed out: their headers are on no free list. *)
Definition live_ptr (s : heap S) (F : gmap Z (list Z)) (c p : Z) : Prop :=
  ∃ a x k fl i, live_slab s a x ∧ cache x = c ∧ caches s !! c = Some k ∧
    F !! a = Some fl ∧ 0 <= i < cap k ∧ p = pos k a i + SIZEOF_SLAB_OBJ ∧ pos k a i ∉ fl.

(** ** Addresses *)

Lemma cap_bounds k : cache_wf k →
  1 <= cap k < 2 ^ 32 ∧ 16 <= real_object_size k ∧
  cap k * real_object_size k <= 2 ^ c_order k * PAGE_SIZE - SIZEOF_SLAB.
Proof.
  intros [_ Ho Hs _ Hc]. unfold cap, SIZEOF_SLAB, SIZEOF_SLAB_OBJ, PAGE_SIZE in *.
  set (r := real_object_size k) in *. set (t := 2 ^ c_order k * 4096 - 56) in *.
  assert (2 ^ c_order k <= 2 ^ 16) by (apply Z.pow_le_mono_r; lia).
  assert (0 < r) by lia. pose proof (Z.div_mod t r). pose proof (Z.mod_pos_bound t r).
  assert (1 <= t / r) by (apply Z.div_le_lower_bound; lia).
  assert (t / r <= t) by (apply Z.div_le_upper_bound; nia). lia.
Qed.

Lemma pos_in_block k a i : cache_wf k → 0 <= i < cap k →
  a + SIZEOF_SLAB <= pos k a i ∧ pos k a i + real_object_size k <= a + 2 ^ c_order k * PAGE_SIZE.
Proof.
  intros W Hi. destruct (cap_bounds k W) as (_ & ? & ?). unfold pos. nia.
Qed.

Lemma pos_apart k a i j : cache_wf k → i ≠ j →
  pos k a i + real_object_size k <= pos k a j ∨ pos k a j + real_object_size k <= pos k a i.
Proof. intros W Hne. destruct (cap_bounds k W) as (_ & ? & _). unfold pos. nia. Qed.

Lemma pos_inj k a i j : cache_wf k → pos k a i = pos k a j → i = j.
Proof. intros W E. destruct (cap_bounds k W) as (_ & ? & _). unfold pos in E. nia. Qed.

Context `{!PageAllocatorLaws S}.

Lemma own_apart p A o a o' a' :
  pa_own p A → (o, a) ∈ A → (o', a') ∈ A → (o, a) ≠ (o', a') → apart (o, a) (o', a').
Proof.
  intros Hown [i Hi]%list_elem_of_lookup [j Hj]%list_elem_of_lookup Hne.
  eapply pa_apart; [exact Hown|exact Hi|exact Hj|]. intros ->. congruence.
Qed.

Lemma core_pos_ne s A L F Hm a x k a' x' k' i j :
  slab_core s A L F Hm → live_slab s a x → caches s !! cache x = Some k →
  live_slab s a' x' → caches s !! cache x' = Some k' → a ≠ a' →
  0 <= i < cap k → 0 <= j < cap k' →
  pos k a i + real_object_size k <= pos k' a' j ∨ pos k' a' j + real_object_size k' <= pos k a i.
Proof.
  intros C Hl Hk Hl' Hk' Hne Hi Hj.
  destruct (sc_slab _ _ _ _ _ C _ _ Hl) as (k1 & _ & E1 & HA & _).
  destruct (sc_slab _ _ _ _ _ C _ _ Hl') as (k2 & _ & E2 & HA' & _).
  assert (k1 = k) as -> by congruence. assert (k2 = k') as -> by congruence.
  destruct (sc_cache _ _ _ _ _ C _ _ Hk) as [W _]. destruct (sc_cache _ _ _ _ _ C _ _ Hk') as [W' _].
  pose proof (pos_in_block k a i W Hi). pose proof (pos_in_block k' a' j W' Hj).
  destruct (own_apart _ _ _ _ _ _ (sc_own _ _ _ _ _ C) HA HA'); [congruence|..]; simpl in *;
    unfold SIZEOF_SLAB in *; lia.
Qed.

(** No byte of an object handed out belongs to another one. *)
Lemma live_apart s A L F c p k c' p' k' :
  slab_inv s A L F → live_ptr s F c p → caches s !! c = Some k →
  live_ptr s F c' p' → caches s !! c' = Some k' → p ≠ p' →
  p + object_size k <= p' - SIZEOF_SLAB_OBJ ∨ p' + object_size k' <= p - SIZEOF_SLAB_OBJ.
Proof.
  intros [(Hm & C & _) _] (a & x & k1 & fl & i & Hl & Hc & Hk1 & _ & Hi & -> & _) Hk
    (a' & x' & k2 & fl' & j & Hl' & Hc' & Hk2 & _ & Hj & -> & _) Hk' Hne. subst c c'.
  assert (k1 = k) as -> by congruence. assert (k2 = k') as -> by congruence.
  destruct (sc_cache _ _ _ _ _ C _ _ Hk) as [W _]. destruct (sc_cache _ _ _ _ _ C _ _ Hk') as [W' _].
  pose proof (cw_size _ W). pose proof (cw_size _ W'). unfold SIZEOF_SLAB_OBJ in *.
  destruct (decide (a = a')) as [<-|Ha].
  - assert (x' = x) as -> by (destruct Hl, Hl'; congruence).
    assert (k' = k) as -> by congruence.
    destruct (pos_apart k a i j W'); [congruence|lia|lia].
  - destruct (core_pos_ne _ _ _ _ _ _ _ _ _ _ _ i j C Hl Hk Hl' Hk' Ha Hi Hj); lia.
Qed.

(** ** The steps *)

Lemma heads_dom (L L' : gmap snode (list snode)) (s : heap S) : dom L' = dom L →
  (∀ h, is_Some (L !! h) ↔ ∃ c, is_Some (caches s !! c) ∧ head_of c h) →
  ∀ h, is_Some (L' !! h) ↔ ∃ c, is_Some (caches s !! c) ∧ head_of c h.
Proof. intros D Hh h. by rewrite <- Hh, <- !elem_of_dom, D. Qed.

Lemma core_move s A L F Hm a x h :
  slab_core s A L F Hm → live_slab s a x → head_of (cache x) h → ∃ n L' h1,
    list_move (SSlab a) h (snodes s) = Done n ∧
    slab_core (set_snodes n s) A L' F (<[a:=h]> Hm) ∧ Hm !! a = Some h1 ∧
    (∀ h', llen L' h' = llen L h' - one_if (h' = h1) + one_if (h' = h)).
Proof.
  intros C Hl Hh. destruct (sc_home _ _ _ _ _ C _ _ Hl) as (h1 & E1 & _ & Hon).
  destruct (sc_slab _ _ _ _ _ C _ _ Hl) as (k & _ & Hk & _).
  destruct (list_move_on _ _ _ h _ (sc_lists _ _ _ _ _ C) Hon)
    as (n & L' & E & OK & D & DL & O & Cn).
  { apply (sc_heads _ _ _ _ _ C). eauto. }
  exists n, L', h1. split_and!; try done. destruct C as [C1 C2 C3 C4 C5 C6 C7]. split; simpl; try done.
  - by apply (heads_dom _ _ s DL).
  - intros h' n' [[-> ->]|[Hne Hin]]%O.
    + exists a, x. split_and!; try done. by rewrite lookup_insert_eq.
    + destruct (C6 _ _ Hin) as (a' & x' & -> & ? & ? & ?). exists a', x'. split_and!; try done.
      rewrite lookup_insert_ne; [done|congruence].
  - intros a' x' Hl'. destruct (decide (a' = a)) as [->|Hne].
    + exists h. rewrite lookup_insert_eq.
      assert (x' = x) as -> by (destruct Hl, Hl'; simpl in *; congruence).
      split_and!; [done..|]. apply O. by left.
    + destruct (C7 _ _ Hl') as (h' & ? & ? & ?). exists h'. rewrite lookup_insert_ne by done.
      split_and!; try done. apply O. right. split; [congruence|done].
Qed.

(** The fields of a cache that the invariant of the slabs reads. *)
Definition same_cache (k k' : kmem_cache) : Prop :=
  object_size k' = object_size k ∧ real_object_size k' = real_object_size k ∧
  align k' = align k ∧ c_order k' = c_order k.

Lemma same_cache_wf k k' : same_cache k k' → cache_wf k → cache_wf k'.
Proof. intros (E1 & E2 & E3 & E4) []. split; rewrite ?E1, ?E2, ?E3, ?E4; done. Qed.

Lemma same_cap k k' : same_cache k k' → cap k' = cap k.
Proof. intros (E1 & E2 & E3 & E4). unfold cap. by rewrite E2, E4. Qed.

Lemma same_pos k k' a i : same_cache k k' → pos k' a i = pos k a i.
Proof. intros (E1 & E2 & E3 & E4). unfold pos. by rewrite E2. Qed.

Lemma same_slab_ok os k k' a x fl : same_cache k k' → slab_ok os k a x fl → slab_ok os k' a x fl.
Proof.
  intros E []. split; try done; rewrite ?(same_cap _ _ E); try done.
  - intros o Ho. destruct (so_pos0 o Ho) as (i & ? & ->). exists i. by rewrite (same_pos _ _ _ _ E).
  - intros i Hi. rewrite (same_pos _ _ _ _ E). auto.
Qed.

Lemma core_cache s A L F Hm c k k' :
  slab_core s A L F Hm → caches s !! c = Some k → same_cache k k' →
  slab_core (set_caches (<[c:=k']> (caches s)) s) A L F Hm.
Proof.
  intros [C1 C2 C3 C4 C5 C6 C7] Hk E. split; simpl; try done.
  - intros h. rewrite C3. split; intros (c' & Hc & Hh); exists c'; (split; [|done]);
      rewrite <- elem_of_dom, dom_insert_is_Some, elem_of_dom in *; eauto.
  - intros c' k1 [[<- <-]|[Hne H]]%lookup_insert_Some; [|by apply C4].
    destruct (C4 _ _ Hk). split; [by eapply same_cache_wf|done].
  - intros a x Hl. destruct (C5 a x Hl) as (k1 & fl & Hk1 & HA & HF & Hs & Hn).
    assert (caches s !! c ≠ None) by congruence.
    destruct (decide (cache x = c)) as [Ec|Hne].
    + rewrite Ec in *. assert (k1 = k) as -> by congruence. exists k', fl.
      pose proof E as (_ & _ & _ & E4). rewrite E4, lookup_insert_eq, lookup_insert_ne by congruence. split_and!; try done.
      by eapply same_slab_ok.
    + exists k1, fl. rewrite !lookup_insert_ne by congruence. by split_and!.
Qed.

Lemma chain_frame (os os' : gmap Z slab_obj) p l :
  (∀ o, o ∈ l → os' !! o = os !! o) → chain os p l → chain os' p l.
Proof.
  revert p. induction l as [|o l IH]; intros p Hf; simpl; [done|].
  intros (-> & Hne & h & Hh & Hc). split_and!; try done. exists h.
  rewrite Hf by set_solver. split; [done|]. apply IH; [|done]. intros. apply Hf. set_solver.
Qed.

Lemma slab_ok_frame (os os' : gmap Z slab_obj) k a x fl :
  cache_wf k → (∀ i, 0 <= i < cap k → os' !! pos k a i = os !! pos k a i) →
  slab_ok os k a x fl → slab_ok os' k a x fl.
Proof.
  intros W Hf []. split; try done.
  - eapply chain_frame; [|done]. intros o Ho. destruct (so_pos0 o Ho) as (i & ? & ->). auto.
  - intros i Hi. rewrite Hf by done. auto.
Qed.

(** Changing the free list of one slab, its object headers included. *)
Lemma core_slab s A L F Hm a x x' k fl' os :
  slab_core s A L F Hm → live_slab s a x → caches s !! cache x = Some k →
  magic x' = SLAB_MAGIC → cache x' = cache x → slab_ok os k a x' fl' →
  (∀ o, (∀ i, 0 <= i < cap k → o ≠ pos k a i) → os !! o = objs s !! o) →
  slab_core (set_slabs (<[a:=x']> (slabs s)) (set_objs os s)) A L (<[a:=fl']> F) Hm.
Proof.
  intros C Hl Hk Hm' Hc Hs Hf. pose proof C as [C1 C2 C3 C4 C5 C6 C7].
  assert (∀ b y, live_slab (set_slabs (<[a:=x']> (slabs s)) (set_objs os s)) b y ↔
            (b = a ∧ y = x') ∨ (b ≠ a ∧ live_slab s b y)) as Hlive.
  { intros b y. unfold live_slab. simpl. rewrite lookup_insert_Some. naive_solver. }
  split; try done.
  - intros b y [[-> ->]|[Hne Hb]]%Hlive.
    + destruct (C5 _ _ Hl) as (k1 & fl & Hk1 & ? & ? & ? & ?). assert (k1 = k) as -> by congruence.
      exists k, fl'. simpl. rewrite lookup_insert_eq, Hc. by split_and!.
    + destruct (C5 _ _ Hb) as (k1 & fl & Hk1 & ? & ? & Hsl & ?). exists k1, fl. simpl.
      rewrite lookup_insert_ne by done. split_and!; try done.
      destruct (C4 _ _ Hk1) as [W1 _]. destruct (C4 _ _ Hk) as [W _].
      eapply slab_ok_frame; [done| |done]. intros i Hi. apply Hf. intros j Hj E.
      destruct (core_pos_ne _ _ _ _ _ _ _ _ _ _ _ i j C Hb Hk1 Hl Hk) as [Ho|Ho]; try done;
        pose proof (cap_bounds _ W); pose proof (cap_bounds _ W1); lia.
  - intros h n Hin. destruct (C6 _ _ Hin) as (b & y & -> & Hb & ? & Hh). exists b.
    destruct (decide (b = a)) as [->|Hne].
    + assert (y = x) as -> by (destruct Hb, Hl; congruence).
      exists x'. split_and!; [done|apply Hlive; by left|done|by rewrite Hc].
    + exists y. split_and!; [done|apply Hlive; by right|done..].
  - intros b y [[-> ->]|[Hne Hb]]%Hlive; [|by apply C7]. rewrite Hc. by apply C7.
Qed.

Lemma chain_objs_ok n a st size fl os l :
  0 < st → 0 < size → chain os fl l → (∀ o, o ∈ l → st + Z.of_nat n * size <= o) →
  chain (chain_objs n a st size fl os).1 (chain_objs n a st size fl os).2
    (((λ i, st + i * size) <$> seqZ 0 (Z.of_nat n)) ++ l) ∧
  (∀ i, 0 <= i < Z.of_nat n → ∃ h,
     (chain_objs n a st size fl os).1 !! (st + i * size) = Some h ∧ o_slab h = a) ∧
  (∀ o, (∀ i, 0 <= i < Z.of_nat n → o ≠ st + i * size) →
     (chain_objs n a st size fl os).1 !! o = os !! o).
Proof.
  intros Hst Hsz. revert fl os l. induction n as [|n IH]; intros fl os l Hc Hl.
  { simpl. split_and!; [done|lia|done]. }
  cbn [chain_objs]. cbv zeta. set (o := st + Z.of_nat n * size).
  destruct (IH o (<[o:=SObj a fl]> os) (o :: l)) as (H1 & H2 & H3).
  - simpl. split_and!; [done|unfold o; nia|]. exists (SObj a fl). rewrite lookup_insert_eq.
    split; [done|]. eapply chain_frame; [|exact Hc]. intros o' Ho'.
    rewrite lookup_insert_ne; [done|]. specialize (Hl _ Ho'). unfold o. nia.
  - intros o' [->|Ho']%elem_of_cons; [unfold o; lia|]. specialize (Hl _ Ho'). nia.
  - split_and!.
    + rewrite seqZ_S, fmap_app, <- app_assoc. apply H1.
    + intros i Hi. destruct (decide (i = Z.of_nat n)) as [->|]; [|apply H2; lia].
      fold o. rewrite H3 by (intros j Hj; unfold o; nia).
      rewrite lookup_insert_eq. by eexists.
    + intros o' Ho'. rewrite H3 by (intros i Hi; apply Ho'; lia).
      rewrite lookup_insert_ne; [done|]. intros Eo. apply (Ho' (Z.of_nat n)); [lia|by rewrite <- Eo].
Qed.

Definition all_pos (k : kmem_cache) (a : Z) : list Z := pos k a <$> seqZ 0 (cap k).

Lemma all_pos_elem k a o : o ∈ all_pos k a ↔ ∃ i, 0 <= i < cap k ∧ o = pos k a i.
Proof.
  unfold all_pos. rewrite list_elem_of_fmap. split; intros (i & H1 & H2); exists i.
  - apply elem_of_seqZ in H2. split; [lia|done].
  - split; [done|]. apply elem_of_seqZ. lia.
Qed.

Lemma align_8 x : 0 <= x → x + 8 < 2 ^ 64 → x mod 8 = 0 → align_up x SIZEOF_PTR = x.
Proof. intros. apply (align_up_aligned x 3); [lia|lia|simpl; lia|done]. Qed.

Lemma fresh_block s A L F Hm p o m :
  slab_core s A L F Hm → pa_own p ((o, m) :: A) →
  caches s !! m = None ∧ (∀ x, ¬ live_slab s m x) ∧
  (∀ a x k i, live_slab s a x → caches s !! cache x = Some k → 0 <= i < cap k →
     ¬ m <= pos k a i < m + 2 ^ o * PAGE_SIZE).
Proof.
  intros C Hown. pose proof (pa_range _ _ o m Hown ltac:(set_solver)) as (Ho & Hm0 & _).
  pose proof (pow2_pos o). unfold PAGE_SIZE in *. split_and!.
  - destruct (caches s !! m) as [k|] eqn:E; [|done]. exfalso.
    destruct (sc_cache _ _ _ _ _ C _ _ E) as [_ HA].
    destruct (pa_apart_head _ _ _ _ _ Hown HA); simpl in *; unfold PAGE_SIZE in *; lia.
  - intros x Hl. destruct (sc_slab _ _ _ _ _ C _ _ Hl) as (k & fl & _ & HA & _).
    pose proof (pa_range _ _ _ _ (sc_own _ _ _ _ _ C) HA) as (Ho' & _).
    pose proof (pow2_pos (c_order k)).
    destruct (pa_apart_head _ _ _ _ _ Hown HA); simpl in *; unfold PAGE_SIZE in *; lia.
  - intros a x k i Hl Hk Hi. destruct (sc_slab _ _ _ _ _ C _ _ Hl) as (k1 & fl & Hk1 & HA & _).
    assert (k1 = k) as -> by congruence. destruct (sc_cache _ _ _ _ _ C _ _ Hk) as [W _].
    pose proof (pos_in_block k a i W Hi) as Hp. destruct (cap_bounds _ W) as (_ & ? & _).
    destruct (pa_apart_head _ _ _ _ _ Hown HA); simpl in *;
      unfold PAGE_SIZE, SIZEOF_SLAB in *; lia.
Qed.

(** The geometry of a new slab as [slab_create] computes it. *)
Lemma slab_geometry k m : cache_wf k → 0 < m → m mod PAGE_SIZE = 0 →
  m + 2 ^ c_order k * PAGE_SIZE < 2 ^ 64 →
  u64 (m + Z.shiftl PAGE_SIZE (c_order k)) = m + 2 ^ c_order k * PAGE_SIZE ∧
  align_up (u64 (m + SIZEOF_SLAB)) (align k) = m + SIZEOF_SLAB ∧
  u32 ((m + 2 ^ c_order k * PAGE_SIZE - (m + SIZEOF_SLAB)) / real_object_size k) = cap k ∧
  m + SIZEOF_SLAB < m + 2 ^ c_order k * PAGE_SIZE.
Proof.
  intros W Hm Hmod Hhi. pose proof (cap_bounds k W) as (Hc & Hr & Hb).
  pose proof W as [Wa Wo Ws Wr Wc]. pose proof (pow2_pos (c_order k)).
  rewrite Z.shiftl_mul_pow2 by lia. unfold PAGE_SIZE, SIZEOF_SLAB in *.
  rewrite (Z.mul_comm 4096). rewrite !(wrap_small 64) by lia. rewrite Wa, align_8.
  - split_and!; [done..| |lia]. replace (m + 2 ^ c_order k * 4096 - (m + 56))
      with (2 ^ c_order k * 4096 - 56) by lia. apply wrap_small. unfold cap, PAGE_SIZE, SIZEOF_SLAB in *. lia.
  - lia.
  - lia.
  - apply Z.mod_divide in Hmod as [q ->]; [|lia].
    replace (q * 4096 + 56) with ((q * 512 + 7) * 8) by lia. apply Z.mod_mul. lia.
Qed.

(** The heap once a new slab is in place, before it is linked. *)
Definition with_slab (s : heap S) (p : S) (c m : Z) (x : slab) (os : gmap Z slab_obj) : heap S :=
  Heap p (caches s) (<[m:=x]> (slabs s)) os
    (<[SSlab m := Links (Some (SSlab m)) (Some (SSlab m))]> (snodes s)) (calls s).

Lemma slab_create_ok s A L F Hm c k :
  slab_core s A L F Hm → caches s !! c = Some k →
  (∃ p, slab_create c s = Done (set_pgs p s, 0) ∧ pa_own p A) ∨
  (∃ p m x os, slab_create c s = Done (with_slab s p c m x os, m) ∧ m ≠ 0 ∧
     pa_own p ((c_order k, m) :: A) ∧ magic x = SLAB_MAGIC ∧ cache x = c ∧
     slab_ok os k m x (all_pos k m) ∧
     (∀ o, (∀ i, 0 <= i < cap k → o ≠ pos k m i) → os !! o = objs s !! o)).
Proof.
  intros C Hk. destruct (sc_cache _ _ _ _ _ C _ _ Hk) as [W _].
  pose proof W as [_ Wo _ _ _]. destruct (cap_bounds k W) as (Hc & Hr & Hb).
  destruct (pa_alloc_ok (c_order k) _ _ (proj1 Wo) (sc_own _ _ _ _ _ C))
    as (p & m & Ea & [[-> Hown]|[Hm0 Hown]]); unfold slab_create; rewrite Hk; rsimpl; rstep Ea.
  { left. by exists p. }
  rewrite (proj2 (Z.eqb_neq _ _)) by done.
  pose proof (pa_range _ _ (c_order k) m Hown ltac:(set_solver)) as (_ & Hpos & Hmod & Hhi).
  destruct (slab_geometry k m W Hpos Hmod Hhi) as (E1 & E2 & E3 & E4). cbn [caches set_pgs].
  rewrite E1, E2, (proj2 (Z.leb_gt _ _)), E3 by lia. rewrite (proj2 (Z.eqb_neq _ _)) by lia.
  right. destruct (chain_objs_ok (Z.to_nat (cap k)) m (m + SIZEOF_SLAB) (real_object_size k) 0
    (objs s) []) as (H1 & H2 & H3); [unfold SIZEOF_SLAB; lia|lia|done|set_solver|].
  cbn [objs set_pgs]. destruct (chain_objs _ _ _ _ _ _) as [os fl]. simpl in H1, H2, H3.
  rewrite Z2Nat.id in H1, H2, H3 by lia. rewrite app_nil_r in H1.
  exists p, m, (Slab m 0 (cap k) fl SLAB_MAGIC c), os. split_and!; try done.
  assert (Z.of_nat (length (all_pos k m)) = cap k) as El.
  { unfold all_pos. rewrite length_fmap, length_seqZ. lia. }
  split; simpl; rewrite ?El; try done; try lia.
  - unfold all_pos. apply NoDup_fmap_2_strong; [|apply NoDup_seqZ].
    intros i j _ _ E. by eapply pos_inj.
  - intros o Ho. by apply all_pos_elem.
Qed.

Lemma pick_new_ok s A L F Hm c k :
  slab_core s A L F Hm → caches s !! c = Some k →
  (∃ p, slab_create c s = Done (set_pgs p s, 0) ∧ pa_own p A) ∨
  (∃ s1 s' a x L', slab_create c s = Done (s1, a) ∧ a ≠ 0 ∧
     on_nodes (list_add (SSlab a) (SPartial c)) s1 = Done s' ∧
     slab_core s' ((c_order k, a) :: A) L' (<[a:=all_pos k a]> F) (<[a:=SPartial c]> Hm) ∧
     caches s' = caches s ∧ live_slab s' a x ∧ cache x = c ∧
     (∀ x, ¬ live_slab s a x) ∧ (∀ b y, b ≠ a → live_slab s' b y ↔ live_slab s b y) ∧
     (∀ h, llen L' h = llen L h + one_if (h = SPartial c))).
Proof.
  intros C Hk. destruct (slab_create_ok _ _ _ _ _ _ _ C Hk)
    as [?|(p & a & x & os & Ec & Ha0 & Hown & Hmg & Hcx & Hok & Hos)]; [by left|right].
  destruct (fresh_block _ _ _ _ _ _ _ _ C Hown) as (Hnc & Hnl & Hnp).
  destruct (sc_cache _ _ _ _ _ C _ _ Hk) as [W _].
  assert (detached L (SSlab a)) as Hdet.
  { apply detached_spec. split.
    - apply eq_None_not_Some. rewrite (sc_heads _ _ _ _ _ C). unfold head_of. naive_solver.
    - intros h Hin. destruct (sc_mem _ _ _ _ _ C _ _ Hin) as (b & y & [= <-] & Hb & _).
      by eapply Hnl. }
  assert (is_Some (L !! SPartial c)) as HLc.
  { apply (sc_heads _ _ _ _ _ C). exists c. unfold head_of. eauto. }
  pose proof (lists_ok_detached _ _ _ (Links (Some (SSlab a)) (Some (SSlab a)))
    (sc_lists _ _ _ _ _ C) Hdet) as OK1.
  destruct (list_add_on _ _ _ _ OK1 HLc Hdet) as (n & L' & El & OK & D & DL & O & Cn).
  { rewrite lookup_insert_eq. eauto. }
  exists (with_slab s p c a x os), (set_snodes n (with_slab s p c a x os)), a, x, L'.
  unfold on_nodes. simpl. rewrite El. rsimpl.
  assert (∀ b y, live_slab (set_snodes n (with_slab s p c a x os)) b y ↔
            (b = a ∧ y = x) ∨ (b ≠ a ∧ live_slab s b y)) as Hlive.
  { intros b y. unfold live_slab. simpl. rewrite lookup_insert_Some. naive_solver. }
  split_and!; try done; [|apply Hlive; by left|intros b y Hne; rewrite Hlive; tauto].
  destruct C as [C1 C2 C3 C4 C5 C6 C7]. split; simpl; try done.
  - by apply (heads_dom _ _ s DL).
  - intros c' k' Hk'. destruct (C4 _ _ Hk'). split; [done|set_solver].
  - intros b y [[-> ->]|[Hne Hb]]%Hlive.
    + exists k, (all_pos k a). rewrite lookup_insert_eq, Hcx. split_and!; [done|set_solver|done..].
    + destruct (C5 _ _ Hb) as (k1 & fl & Hk1 & ? & ? & Hsl & ?). exists k1, fl.
      rewrite lookup_insert_ne by done. split_and!; try done; [set_solver|].
      destruct (C4 _ _ Hk1) as [W1 _]. eapply slab_ok_frame; [done| |done].
      intros i Hi. apply Hos. intros j Hj E. apply (Hnp _ _ _ _ Hb Hk1 Hi). rewrite E.
      pose proof (pos_in_block k a j W Hj). destruct (cap_bounds _ W) as (_ & ? & _).
      unfold SIZEOF_SLAB in *. lia.
  - intros h n' [[-> ->]|Hin]%O.
    + exists a, x. rewrite lookup_insert_eq. unfold head_of. rewrite Hcx.
      split_and!; [done|apply Hlive; by left|done|tauto].
    + destruct (C6 _ _ Hin) as (b & y & -> & Hb & ? & ?). exists b, y.
      assert (b ≠ a) by (intros ->; by eapply Hnl). rewrite lookup_insert_ne by done.
      split_and!; [done|apply Hlive; by right|done..].
  - intros b y [[-> ->]|[Hne Hb]]%Hlive.
    + exists (SPartial c). rewrite lookup_insert_eq. unfold head_of. rewrite Hcx.
      split_and!; [done|tauto|apply O; by left].
    + destruct (C7 _ _ Hb) as (h & ? & ? & ?). exists h. rewrite lookup_insert_ne by done.
      split_and!; [done..|apply O; by right].
Qed.

Definition same_caches (m m' : gmap Z kmem_cache) : Prop :=
  ∀ c k, m !! c = Some k → ∃ k', m' !! c = Some k' ∧ same_cache k k'.

Lemma same_cache_refl k : same_cache k k.
Proof. done. Qed.

Lemma same_caches_refl m : same_caches m m.
Proof. intros c k Hk. by exists k. Qed.

Lemma same_caches_insert m c k k' : m !! c = Some k → same_cache k k' →
  same_caches m (<[c:=k']> m) ∧ same_caches (<[c:=k']> m) m.
Proof.
  intros Hk (E1 & E2 & E3 & E4). split; intros c1 k1 H1.
  - destruct (decide (c1 = c)) as [->|]; [exists k'|exists k1]; simplify_map_eq; done.
  - destruct (decide (c1 = c)) as [->|]; [exists k|exists k1]; simplify_map_eq; done.
Qed.

Lemma live_ptr_impl s s' F F' c p :
  (∀ a x, live_slab s a x → live_slab s' a x) →
  (∀ a x, live_slab s a x → F' !! a = F !! a) → same_caches (caches s) (caches s') →
  live_ptr s F c p → live_ptr s' F' c p.
Proof.
  intros Hl HF Hc (a & x & k & fl & i & Ha & Ex & Hk & Hfl & Hi & -> & Hni).
  destruct (Hc _ _ Hk) as (k' & Hk' & Sk). exists a, x, k', fl, i.
  rewrite (same_pos _ _ _ _ Sk), (same_cap _ _ Sk), (HF _ _ Ha). split_and!; try done; auto; lia.
Qed.

(** A slab has an object to give unless it is on the full list. *)
Lemma home_has_obj os k a x fl c : slab_ok os k a x fl → cache x = c →
  home x = SPartial c ∨ home x = SFree c → ∃ o fl', fl = o :: fl'.
Proof.
  intros [_ Hf _ _ _ _ _] Hc Hh. destruct fl as [|o fl']; [|eauto].
  simpl in Hf. unfold home in Hh. rewrite Hf in Hh. simpl in Hh. naive_solver.
Qed.

Lemma home_free k os a x fl : slab_ok os k a x fl → home x = SFree (cache x) →
  in_use x = 0 ∧ free x ≠ 0.
Proof. intros _. unfold home. case_if; [done|]. case_if; [done|done]. Qed.

Lemma first_slab_ok s A L F Hm c h :
  slab_core s A L F Hm → is_Some (caches s !! c) → head_of c h →
  ∃ e, list_empty h (snodes s) = Done e ∧
    if e : bool then llen L h = 0
    else 1 <= llen L h ∧
      ∃ a x, first_slab h s = Done a ∧ on_list L h (SSlab a) ∧ live_slab s a x ∧
      Hm !! a = Some h ∧ head_of (cache x) h.
Proof.
  intros C Hc Hh. destruct (proj2 (sc_heads _ _ _ _ _ C h)) as [xs E]; [eauto|].
  exists (bool_decide (xs = [])). split; [by eapply list_empty_spec; [apply (sc_lists _ _ _ _ _ C)|]|].
  unfold llen. rewrite E. destruct xs as [|n xs]; simpl; [done|]. split; [lia|].
  assert (on_list L h n) as Hon by (exists (n :: xs); split; [done|set_solver]).
  destruct (sc_mem _ _ _ _ _ C _ _ Hon) as (a & x & -> & Hl & HHm & Hhx).
  exists a, x. split_and!; try done. unfold first_slab.
  destruct (lists_ok_get _ _ _ _ (sc_lists _ _ _ _ _ C) E) as (e & He & Hn & _).
  rewrite (get_Some _ _ _ He). rsimpl. by rewrite Hn.
Qed.

Lemma head_of_inj c c' h : head_of c h → head_of c' h → c = c'.
Proof. unfold head_of. naive_solver. Qed.

(** The state between the choice of the slab and the removal of its object. *)
Record picked (s s' : heap S) (F F' : gmap Z (list Z)) (A' : list (Z * Z)) (c a : Z) : Prop := {
  pk_slab : ∃ L' Hm' x o fl, slab_core s' A' L' F' Hm' ∧ counts_ok s' L' ∧
    live_slab s' a x ∧ cache x = c ∧ F' !! a = Some (o :: fl) ∧ Hm' !! a = Some (SPartial c) ∧
    (∀ b y, b ≠ a → live_slab s' b y → Hm' !! b = Some (home y));
  pk_caches : same_caches (caches s) (caches s') ∧ same_caches (caches s') (caches s);
  pk_live c' p : live_ptr s' F' c' p ↔ live_ptr s F c' p
}.

Lemma pick_partial s A L F c :
  slab_inv s A L F → is_Some (caches s !! c) →
  list_empty (SPartial c) (snodes s) = Done false → ∃ a,
  first_slab (SPartial c) s = Done a ∧ picked s s F F A c a.
Proof.
  intros [(Hm & C & Hh) Hcnt] Hc He.
  destruct (first_slab_ok _ _ _ _ _ c (SPartial c) C Hc) as (e & He' & Hx); [unfold head_of; tauto|].
  rewrite He' in He. injection He as ->. destruct Hx as (_ & a & x & Ef & _ & Hl & HHm & Hhx).
  assert (cache x = c) as Ecx by (eapply head_of_inj; [done|unfold head_of; tauto]).
  destruct (sc_slab _ _ _ _ _ C _ _ Hl) as (k & fl & Hk & _ & HF & Hs & _).
  pose proof (Hh _ _ Hl) as Ehome. rewrite HHm in Ehome. injection Ehome as Ehome.
  destruct (home_has_obj _ _ _ _ _ c Hs Ecx) as (o & fl' & ->); [by left|].
  exists a. split; [done|]. split; [|split; apply same_caches_refl|done].
  exists L, Hm, x, o, fl'. split_and!; try done. intros b y _ Hb. by apply Hh.
Qed.

Definition less_free (k : kmem_cache) : kmem_cache :=
  KCache (name k) (object_size k) (real_object_size k) (align k)
    (c_in_use k) (u32 (free_slab_count k - 1)) (objects_per_slab k) (c_order k)
    (ctor k) (dtor k).

Lemma one_if_true (P : Prop) `{Decision P} : P → one_if P = 1.
Proof. intros. unfold one_if. by rewrite decide_True. Qed.

Lemma one_if_false (P : Prop) `{Decision P} : ¬ P → one_if P = 0.
Proof. intros. unfold one_if. by rewrite decide_False. Qed.

Lemma pick_free s A L F c k :
  slab_inv s A L F → caches s !! c = Some k →
  list_empty (SFree c) (snodes s) = Done false → ∃ a n,
  first_slab (SFree c) s = Done a ∧ list_move (SSlab a) (SPartial c) (snodes s) = Done n ∧
  picked s (set_caches (<[c:=less_free k]> (caches s)) (set_snodes n s)) F F A c a.
Proof.
  intros [(Hm & C & Hh) Hcnt] Hc He.
  destruct (first_slab_ok _ _ _ _ _ c (SFree c) C) as (e & He' & Hx); [eauto|unfold head_of; tauto|].
  rewrite He' in He. injection He as ->. destruct Hx as (Hlen & a & x & Ef & _ & Hl & HHm & Hhx).
  assert (cache x = c) as Ecx by (eapply head_of_inj; [done|unfold head_of; tauto]).
  destruct (sc_slab _ _ _ _ _ C _ _ Hl) as (k1 & fl & Hk & _ & HF & Hs & _).
  pose proof (Hh _ _ Hl) as Ehome. rewrite HHm in Ehome. injection Ehome as Ehome.
  destruct (home_has_obj _ _ _ _ _ c Hs Ecx) as (o & fl' & ->); [by right|].
  destruct (core_move _ _ _ _ _ _ _ (SPartial c) C Hl) as (n & L' & h1 & Em & C' & Eh1 & Cn).
  { rewrite Ecx. unfold head_of. tauto. }
  assert (h1 = SFree c) as -> by congruence.
  assert (same_cache k (less_free k)) as Sk by done.
  pose proof (core_cache _ _ _ _ _ c _ _ C' Hc Sk) as C2.
  exists a, n. split_and!; [done..|]. split.
  - eexists L', _, x, o, fl'. split; [exact C2|]. split_and!; try done.
    + intros c' k' Hk'. rewrite Cn. cbn [caches set_caches] in Hk'.
      apply lookup_insert_Some in Hk' as [[<- <-]|[Hne Hk']]; simpl in *.
      * rewrite one_if_true, one_if_false by done. destruct (Hcnt _ _ Hc) as [E1 E2].
        rewrite E1, wrap_small; unfold MAX_FREE_SLABS in *; lia.
      * rewrite !one_if_false by congruence. destruct (Hcnt _ _ Hk'). lia.
    + by rewrite lookup_insert_eq.
    + intros b y Hne Hb. rewrite lookup_insert_ne by done. by apply Hh.
  - by apply (same_caches_insert _ _ k).
  - destruct (same_caches_insert (caches s) c k (less_free k) Hc Sk).
    intros c' p. split; apply live_ptr_impl; done.
Qed.

Lemma core_pgs s A L F Hm p : slab_core s A L F Hm → pa_own p A → slab_core (set_pgs p s) A L F Hm.
Proof. intros [] Hown. by split. Qed.

Lemma core_addr s A L F Hm a x : slab_core s A L F Hm → live_slab s a x → 0 < a.
Proof.
  intros C Hl. destruct (sc_slab _ _ _ _ _ C _ _ Hl) as (k & fl & _ & HA & _).
  by destruct (pa_range _ _ _ _ (sc_own _ _ _ _ _ C) HA) as (_ & ? & _).
Qed.

Lemma picked_addr s s' F F' A' c a : picked s s' F F' A' c a → a ≠ 0.
Proof.
  intros [(L' & Hm' & x & o & fl & C & _ & Hl & _) _ _].
  pose proof (core_addr _ _ _ _ _ _ _ C Hl). lia.
Qed.

Lemma pick_slab_ok s A L F c k :
  slab_inv s A L F → caches s !! c = Some k →
  (∃ p, pick_slab c s = Done (set_pgs p s, 0) ∧ slab_inv (set_pgs p s) A L F) ∨
  (∃ s' a F' A', pick_slab c s = Done (s', a) ∧ picked s s' F F' A' c a).
Proof.
  intros I Hk. pose proof I as [(Hm & C & Hh) Hcnt]. assert (is_Some (caches s !! c)) as Hc by eauto.
  unfold pick_slab. rewrite Hk. rsimpl.
  destruct (first_slab_ok _ _ _ _ _ c (SPartial c) C Hc) as ([] & Ep & _); [unfold head_of; tauto| |].
  2:{ rstep Ep. destruct (pick_partial _ _ _ _ _ I Hc Ep) as (a & Ef & P). right.
      exists s, a, F, A. split; [|done]. simpl. by rewrite Ef. }
  rstep Ep. cbn [negb].
  destruct (first_slab_ok _ _ _ _ _ c (SFree c) C Hc) as ([] & Ef & _); [unfold head_of; tauto| |].
  2:{ rstep Ef. destruct (pick_free _ _ _ _ _ _ I Hk Ef) as (a & n & Eh & Em & P). right.
      eexists _, a, F, A. split; [|exact P]. cbn [negb]. rstep Eh. unfold on_nodes. rstep Em.
      unfold upd_cache. cbn [caches set_snodes]. rewrite Hk. done. }
  rstep Ef. cbn [negb].
  destruct (pick_new_ok _ _ _ _ _ _ _ C Hk) as [(p & Ec & Hown)|(s1 & s' & a & x & L' & Ec & Ha & Ea & C' & Ecs & Hl & Ecx & Hnl & Hll & Cn)].
  { left. exists p. rstep Ec. split; [done|]. split; [|done]. exists Hm. split; [|done].
    by apply core_pgs. }
  right. exists s', a, (<[a:=all_pos k a]> F), ((c_order k, a) :: A). rstep Ec.
  rewrite (proj2 (Z.eqb_neq _ _)) by done. rstep Ea. split; [done|].
  destruct (sc_cache _ _ _ _ _ C _ _ Hk) as [W _]. destruct (cap_bounds k W) as (Hcap & _).
  assert (all_pos k a = pos k a 0 :: tail (all_pos k a)) as Eall.
  { unfold all_pos. destruct (seqZ 0 (cap k)) as [|z zs] eqn:Es.
    - apply (f_equal length) in Es. rewrite length_seqZ in Es. simpl in Es. lia.
    - rewrite seqZ_cons in Es by lia. injection Es as <- <-. done. }
  split.
  - exists L', (<[a:=SPartial c]> Hm), x, (pos k a 0), (tail (all_pos k a)).
    rewrite !lookup_insert_eq, <- Eall. split_and!; try done.
    + intros c' k' Hk'. rewrite Ecs in Hk'. rewrite Cn, one_if_false by congruence.
      destruct (Hcnt _ _ Hk'). lia.
    + intros b y Hne Hb. rewrite lookup_insert_ne by done. apply Hh. by apply Hll.
  - rewrite Ecs. split; apply same_caches_refl.
  - intros c' q. assert (∀ b y, live_slab s b y → b ≠ a) as Hba by (intros b y Hb ->; by eapply Hnl).
    split.
    + intros (b & y & k' & fl & i & Hb & Ey & Hk' & Hfl & Hi & -> & Hni).
      rewrite Ecs in Hk'. destruct (decide (b = a)) as [->|Hne].
      * rewrite lookup_insert_eq in Hfl. injection Hfl as <-. exfalso. apply Hni.
        assert (y = x) as -> by (destruct Hb, Hl; congruence).
        assert (k' = k) as -> by congruence. apply all_pos_elem. eauto.
      * exists b, y, k', fl, i. rewrite lookup_insert_ne in Hfl by done.
        split_and!; try done; [by apply Hll|lia..].
    + apply live_ptr_impl; [| |rewrite Ecs; apply same_caches_refl].
      * intros b y Hb. apply Hll; [by eapply Hba|done].
      * intros b y Hb. rewrite lookup_insert_ne; [done|]. symmetry. by eapply Hba.
Qed.

Lemma set_objs_id s : set_objs (objs s) s = s.
Proof. by destruct s. Qed.

Lemma set_snodes_id s : set_snodes (snodes s) s = s.
Proof. by destruct s. Qed.

Lemma core_calls s A L F Hm f o : slab_core s A L F Hm → slab_core (call f o s) A L F Hm.
Proof. intros []. destruct f; by split. Qed.

Lemma call_fields f o (s : heap S) :
  caches (call f o s) = caches s ∧ slabs (call f o s) = slabs s ∧
  objs (call f o s) = objs s ∧ snodes (call f o s) = snodes s ∧ pgs (call f o s) = pgs s.
Proof. by destruct f. Qed.

Lemma slab_ok_length os k a x fl :
  cache_wf k → slab_ok os k a x fl → Z.of_nat (length fl) <= cap k.
Proof.
  intros W Hs. assert (fl ⊆+ all_pos k a) as Hsub.
  { apply NoDup_submseteq; [apply Hs|]. intros q Hq. apply all_pos_elem. by apply Hs. }
  apply submseteq_length in Hsub. unfold all_pos in Hsub.
  rewrite length_fmap, length_seqZ in Hsub. destruct (cap_bounds k W). lia.
Qed.

(** Removing the first free object keeps the slab well formed. *)
Lemma slab_ok_take os k a x o fl :
  cache_wf k → slab_ok os k a x (o :: fl) → ∃ h,
    freelist x = o ∧ os !! o = Some h ∧ o ≠ 0 ∧ (∃ i, 0 <= i < cap k ∧ o = pos k a i) ∧ o ∉ fl ∧
    slab_ok os k a (Slab (start x) (u32 (in_use x + 1)) (u32 (free x - 1)) (o_next h)
                      (magic x) (cache x)) fl.
Proof.
  intros W Hok. pose proof (slab_ok_length _ _ _ _ _ W Hok) as Hlen.
  destruct Hok as [Hs Hf Hu Hc Hnd Hp Hh]. simpl in Hc. destruct Hc as (Ho & Hne & h & Eh & Hc).
  apply NoDup_cons in Hnd as [Hni Hnd]. destruct (cap_bounds k W) as (Hcap & _).
  simpl in Hf, Hu. exists h. split_and!; try done; [apply Hp; set_solver|].
  simpl in Hlen. rewrite !wrap_small by lia. split; simpl; try done; try lia.
  intros q Hq. apply Hp. set_solver.
Qed.

Lemma inv_calls s A L F f o : slab_inv s A L F → slab_inv (call f o s) A L F.
Proof.
  intros [(Hm & C & Hh) Hcnt]. split; [exists Hm; split; [by apply core_calls|]|].
  - intros a x Hl. apply Hh. unfold live_slab in *. by destruct f.
  - unfold counts_ok in *. by destruct f.
Qed.

Lemma live_ptr_calls s F f o c p : live_ptr (call f o s) F c p ↔ live_ptr s F c p.
Proof. by destruct f. Qed.

Lemma bump_same d k : same_cache k (bump_in_use d k).
Proof. done. Qed.

Lemma counts_cache s L c k k' : counts_ok s L → caches s !! c = Some k →
  free_slab_count k' = free_slab_count k → counts_ok (set_caches (<[c:=k']> (caches s)) s) L.
Proof.
  intros H Hk E c1 k1 H1. cbn [caches set_caches] in H1.
  apply lookup_insert_Some in H1 as [[<- <-]|[Hne H1]]; [rewrite E|]; by apply H.
Qed.

(** A slab that lost an object and still has some belongs on the partial list. *)
Lemma partial_home os k a x fl : cache_wf k → slab_ok os k a x fl → free x ≠ 0 →
  Z.of_nat (length fl) < cap k → home x = SPartial (cache x).
Proof.
  intros W Hs Hf Hl. unfold home. rewrite (proj2 (Z.eqb_neq _ _)) by done.
  rewrite (proj2 (Z.eqb_neq _ _)); [done|]. rewrite (so_use _ _ _ _ _ Hs). lia.
Qed.

Lemma full_home x c : free x = 0 → cache x = c → home x = SFull c.
Proof. unfold home. by intros -> <-. Qed.

(** Moving a slab whose record has changed to the list it now belongs on. *)
Lemma settle s A L F Hm a x h : slab_core s A L F Hm → counts_ok s L → live_slab s a x →
  (∀ b y, b ≠ a → live_slab s b y → Hm !! b = Some (home y)) →
  head_of (cache x) h → h = home x → h ≠ SFree (cache x) → Hm !! a ≠ Some (SFree (cache x)) →
  ∃ n L', list_move (SSlab a) h (snodes s) = Done n ∧ slab_inv (set_snodes n s) A L' F.
Proof.
  intros C Hcnt Hl Hh Hhd Ehome Hnf Hof.
  destruct (core_move _ _ _ _ _ _ _ h C Hl Hhd) as (n & L' & h1 & Em & C' & Eh1 & Cn).
  exists n, L'. split; [done|]. split.
  - eexists. split; [exact C'|]. intros b y Hb. destruct (decide (b = a)) as [->|Hne].
    + rewrite lookup_insert_eq. assert (y = x) as -> by (destruct Hb, Hl; simpl in *; congruence).
      by rewrite Ehome.
    + rewrite lookup_insert_ne by done. by apply Hh.
  - intros c' k' Hk'. rewrite Cn. rewrite !one_if_false; [destruct (Hcnt _ _ Hk'); lia|..].
    + intros E. rewrite <- E in Hhd. destruct Hhd as [|[|[= ->]]]; done.
    + intros E. rewrite <- E in Eh1. destruct (sc_home _ _ _ _ _ C _ _ Hl) as (h2 & E2 & Hh2 & _).
      rewrite Eh1 in E2. injection E2 as <-. destruct Hh2 as [|[|[= ->]]]; done.
Qed.

Lemma same_caches_trans m1 m2 m3 : same_caches m1 m2 → same_caches m2 m3 → same_caches m1 m3.
Proof.
  intros H1 H2 c k Hk. destruct (H1 _ _ Hk) as (k2 & Hk2 & E1 & E2 & E3 & E4).
  destruct (H2 _ _ Hk2) as (k3 & Hk3 & E5 & E6 & E7 & E8). exists k3.
  split; [done|]. unfold same_cache. split_and!; congruence.
Qed.

(** Taking the header [o] off the free list of one slab adds one object. *)
Lemma live_ptr_take s s1 F a x x' c k o fl i :
  live_slab s a x → cache x = c → caches s !! c = Some k → F !! a = Some (o :: fl) →
  o ∉ fl → 0 <= i < cap k → o = pos k a i → cache_wf k →
  live_slab s1 a x' → cache x' = c → (∀ b y, b ≠ a → live_slab s1 b y ↔ live_slab s b y) →
  same_caches (caches s) (caches s1) → same_caches (caches s1) (caches s) →
  (∀ c' q, live_ptr s1 (<[a:=fl]> F) c' q ↔
     live_ptr s F c' q ∨ (c' = c ∧ q = o + SIZEOF_SLAB_OBJ)).
Proof.
  intros Hl Ecx Hk EF Hni Hi Eo W Hl1 Ecx1 Hll S1 S2 c' q. split.
  - intros (b & y & k1 & f1 & j & Hb & Ey & Hk1 & Hf & Hj & -> & Hnj).
    destruct (S2 _ _ Hk1) as (k2 & Hk2 & Sk).
    rewrite <- (same_pos _ _ _ _ Sk) in *. rewrite <- (same_cap _ _ Sk) in Hj.
    destruct (decide (b = a)) as [->|Hne].
    + assert (y = x') as -> by (destruct Hb, Hl1; congruence). subst c'. rewrite Ecx1 in *.
      assert (k2 = k) as -> by congruence. rewrite lookup_insert_eq in Hf. injection Hf as <-.
      destruct (decide (pos k a j = o)) as [->|Hjo]; [by right|left].
      exists a, x, k, (o :: fl), j. split_and!; try done; try lia. set_solver.
    + left. rewrite lookup_insert_ne in Hf by done. exists b, y, k2, f1, j.
      split_and!; try done; try lia. by apply Hll.
  - intros [(b & y & k1 & f1 & j & Hb & Ey & Hk1 & Hf & Hj & -> & Hnj)|[-> ->]].
    + destruct (S1 _ _ Hk1) as (k2 & Hk2 & Sk).
      rewrite <- (same_pos _ _ _ _ Sk) in *. rewrite <- (same_cap _ _ Sk) in Hj.
      destruct (decide (b = a)) as [->|Hne].
      * assert (y = x) as -> by (destruct Hb, Hl; congruence).
        assert (f1 = o :: fl) as -> by congruence.
        exists a, x', k2, fl, j. rewrite lookup_insert_eq.
        split_and!; try done; try lia; set_solver.
      * exists b, y, k2, f1, j. rewrite lookup_insert_ne by done.
        split_and!; try done; try lia. by apply Hll.
    + destruct (S1 _ _ Hk) as (k2 & Hk2 & Sk). exists a, x', k2, fl, i.
      rewrite (same_pos _ _ _ _ Sk), (same_cap _ _ Sk), lookup_insert_eq, <- Eo.
      by split_and!; try lia.
Qed.

Lemma take_obj_ok s s' F F' A' c a :
  picked s s' F F' A' c a → is_Some (caches s' !! c) → ∃ s'' p L'' F'',
    take_obj c a s' = Done (s'', p) ∧ slab_inv s'' A' L'' F'' ∧ p ≠ 0 ∧
    same_caches (caches s) (caches s'') ∧ same_caches (caches s'') (caches s) ∧
    (∀ c' q, live_ptr s'' F'' c' q ↔ live_ptr s F c' q ∨ (c' = c ∧ q = p)) ∧
    ¬ live_ptr s F c p.
Proof.
  intros [(L & Hm & x & o & fl & C & Hcnt & Hl & Ecx & EF & EHm & Hh) [Hc1 Hc2] Hlp] [k Hk].
  destruct (sc_slab _ _ _ _ _ C _ _ Hl) as (k1 & fl1 & Hk1 & _ & EF1 & Hs & _).
  rewrite Ecx in Hk1. assert (k1 = k) as -> by congruence.
  assert (fl1 = o :: fl) as -> by congruence.
  destruct (sc_cache _ _ _ _ _ C _ _ Hk) as [W _].
  destruct (slab_ok_take _ _ _ _ _ _ W Hs) as (h & Efl & Eo & Hno & (i & Hi & Epos) & Hni & Hs').
  unfold take_obj. destruct Hl as [Ea Hmg]. rewrite Ea. rsimpl. rewrite Efl, Eo. rsimpl.
  unfold upd_slab. rewrite Ea. rsimpl. set (x' := Slab _ _ _ _ _ _) in *.
  unfold upd_cache. cbn [caches set_slabs slabs]. rewrite Hk. rsimpl.
  cbn [slabs set_caches set_slabs]. rewrite lookup_insert_eq. rsimpl.
  set (s1 := set_caches _ _).
  assert (slab_core s1 A' L (<[a:=fl]> F') Hm) as C1.
  { apply (core_cache (set_slabs (<[a:=x']> (slabs s')) s') _ _ _ _ c k); [|done|apply bump_same].
    rewrite <- (set_objs_id s') at 2.
    apply (core_slab _ _ _ _ _ a x x' k); try done; by rewrite ?Ecx. }
  assert (live_slab s1 a x') as Hl1.
  { split; [apply lookup_insert_eq|done]. }
  assert (∀ b y, b ≠ a → live_slab s1 b y ↔ live_slab s' b y) as Hl2.
  { intros b y Hne. unfold live_slab. simpl. by rewrite lookup_insert_ne. }
  assert (counts_ok s1 L) as Hcnt1 by by apply (counts_cache (set_slabs _ s') _ _ k).
  assert (∃ n L'', (if free x' =? 0 then on_nodes (list_move (SSlab a) (SFull c)) s1 else Done s1)
    = Done (set_snodes n s1) ∧ slab_inv (set_snodes n s1) A' L'' (<[a:=fl]> F')) as (n & L'' & En & I2).
  { destruct (free x' =? 0) eqn:Ef; breflect.
    - destruct (settle s1 A' L _ Hm a x' (SFull c) C1 Hcnt1 Hl1) as (n & L'' & Em & I2).
      + intros b y Hne Hb. apply Hh; [done|]. by apply Hl2.
      + simpl. rewrite Ecx. unfold head_of. tauto.
      + symmetry. by apply full_home.
      + done.
      + congruence.
      + exists n, L''. split; [|done]. unfold on_nodes. by rewrite Em.
    - exists (snodes s1), L. rewrite set_snodes_id. split; [done|]. split; [|done]. exists Hm. split; [done|]. intros b y Hb.
      destruct (decide (b = a)) as [->|Hne]; [|apply Hh; [done|by apply Hl2]].
      assert (y = x') as -> by (destruct Hb, Hl1; congruence). rewrite EHm, <- Ecx. f_equal.
      symmetry. eapply (partial_home _ _ _ _ _ W Hs'); [done|].
      pose proof (slab_ok_length _ _ _ _ _ W Hs) as Hlen. simpl in Hlen. lia. }
  rewrite En. rsimpl. assert (caches (set_snodes n s1) !! c = Some (bump_in_use 1 k)) as ->
    by apply lookup_insert_eq. rsimpl.
  eexists _, _, L'', (<[a:=fl]> F'). split; [done|]. split; [by apply inv_calls|].
  destruct (call_fields (ctor (bump_in_use 1 k)) (o + SIZEOF_SLAB_OBJ) (set_snodes n s1)) as (Ec & _).
  rewrite Ec. destruct (same_caches_insert (caches s') c k (bump_in_use 1 k) Hk) as [S1 S2]; [done|].
  pose proof (core_addr _ _ _ _ _ _ _ C1 Hl1). pose proof (pos_in_block k a i W Hi).
  split_and!.
  - unfold SIZEOF_SLAB, SIZEOF_SLAB_OBJ in *. lia.
  - by eapply same_caches_trans.
  - by eapply same_caches_trans.
  - intros c' q. rewrite live_ptr_calls, <- Hlp.
    by apply (live_ptr_take s' s1 F' a x x' c k o fl i).
  - rewrite <- Hlp. intros (b & y & k1 & f1 & j & Hb & Ey & Hk1' & Hf & Hj & Eq & Hnj).
    assert (k1 = k) as -> by congruence. assert (o = pos k b j) as Eoj by lia.
    destruct (decide (b = a)) as [->|Hne].
    + assert (f1 = o :: fl) as -> by congruence. set_solver.
    + destruct (core_pos_ne _ _ _ _ _ b y k a x k j i C Hb) as [|]; try done; try congruence.
      all: destruct (cap_bounds k W) as (_ & ? & _); lia.
Qed.

(** ** Release *)

(** A page block is released by its slab only: its address and the caches'
    differ, and so do the blocks of two slabs. *)
Lemma core_destroy s A L F Hm a x k :
  slab_core s A L F Hm → live_slab s a x → caches s !! cache x = Some k → ∃ n p A' L' h1,
    list_del (SSlab a) (snodes s) = Done n ∧ pa_free a (c_order k) (pgs s) = Done p ∧
    slab_core (Heap p (caches s)
      (<[a:=Slab (start x) (in_use x) (free x) (freelist x) 0 (cache x)]> (slabs s))
      (objs s) n (calls s)) A' L' F Hm ∧
    Hm !! a = Some h1 ∧ (∀ h, llen L' h = llen L h - one_if (h = h1)).
Proof.
  intros C Hl Hk. destruct (sc_home _ _ _ _ _ C _ _ Hl) as (h1 & Eh1 & Hhd & Hon).
  destruct (sc_slab _ _ _ _ _ C _ _ Hl) as (k1 & fl & Hk1 & HA & HF & Hs & Hna).
  assert (k1 = k) as -> by congruence. pose proof C as [C1 C2 C3 C4 C5 C6 C7].
  destruct (list_del_on _ _ _ _ C2 Hon) as (n & L' & En & OK & D & DL & Hdet & O & Cn).
  apply list_elem_of_split in HA as (A1 & A2 & EA). rewrite EA in C1.
  destruct (pa_free_ok _ _ _ _ _ C1) as (p & Ep & Hown).
  exists n, p, (A1 ++ A2), L', h1. split_and!; try done.
  set (x0 := Slab _ _ _ _ _ _). set (s' := Heap _ _ _ _ _ _).
  assert (∀ b y, live_slab s' b y ↔ b ≠ a ∧ live_slab s b y) as Hlive.
  { intros b y. unfold live_slab, s'. simpl. rewrite lookup_insert_Some. split.
    - intros [[[<- <-]|[? ?]] Hmg]; [done|by split].
    - intros (? & ? & ?). split; [by right|done]. }
  assert (∀ y, y ∈ A → y.2 ≠ a → y ∈ A1 ++ A2) as Hin.
  { intros y Hy Hne. rewrite EA in Hy. assert (y ≠ (c_order k, a)) by (intros ->; done). set_solver. }
  split; unfold s'; simpl; try done.
  - by apply (heads_dom _ _ s DL).
  - intros c k' Hk'. destruct (C4 _ _ Hk') as [W HA]. split; [done|]. apply Hin; [done|].
    simpl. congruence.
  - intros b y [Hne Hb]%Hlive. destruct (C5 _ _ Hb) as (k1 & fl1 & ? & ? & ? & ? & ?).
    exists k1, fl1. split_and!; try done. by apply Hin.
  - intros h n' [Hne Hin']%O. destruct (C6 _ _ Hin') as (b & y & -> & Hb & ? & ?).
    exists b, y. split_and!; try done. apply Hlive. split; [congruence|done].
  - intros b y [Hne Hb]%Hlive. destruct (C7 _ _ Hb) as (h & ? & ? & ?). exists h.
    split_and!; try done. apply O. split; [congruence|done].
Qed.

Lemma slab_ok_put os k a x o i fl h :
  cache_wf k → slab_ok os k a x fl → 0 < a → o ∉ fl → 0 <= i < cap k → o = pos k a i →
  os !! o = Some h → Z.of_nat (length fl) < cap k ∧
  slab_ok (<[o := SObj (o_slab h) (freelist x)]> os) k a
    (Slab (start x) (u32 (in_use x - 1)) (u32 (free x + 1)) o (magic x) (cache x)) (o :: fl).
Proof.
  intros W [Hs Hf Hu Hc Hnd Hp Hh] Ha Hni Hi Eo Hos. destruct (cap_bounds k W) as (Hcap & _).
  pose proof (pos_in_block k a i W Hi) as Hb. unfold SIZEOF_SLAB in Hb.
  assert (Z.of_nat (length (o :: fl)) <= cap k) as Hlen.
  { assert (o :: fl ⊆+ all_pos k a) as Hsub.
    { apply NoDup_submseteq; [by constructor|]. intros q [->|Hq]%elem_of_cons;
        apply all_pos_elem; eauto. }
    apply submseteq_length in Hsub. unfold all_pos in Hsub.
    rewrite length_fmap, length_seqZ in Hsub. lia. }
  simpl in Hlen. split; [lia|]. rewrite !wrap_small by lia.
  split; simpl; try done; try lia.
  - split_and!; [done|lia|]. eexists. rewrite lookup_insert_eq. split; [done|]. simpl.
    eapply chain_frame; [|exact Hc]. intros q Hq. rewrite lookup_insert_ne; [done|]. set_solver.
  - by constructor.
  - intros q [->|Hq]%elem_of_cons; [eauto|by apply Hp].
  - intros j Hj. destruct (decide (pos k a j = o)) as [->|].
    + rewrite lookup_insert_eq. eexists. split; [done|]. simpl.
      destruct (Hh i Hi) as (h' & E' & Eh'). rewrite <- Eo in E'. congruence.
    + rewrite lookup_insert_ne by done. by apply Hh.
Qed.

(** After the object is back on the free list of its slab. *)
Lemma put_obj_ok s A L F Hm c p :
  slab_core s A L F Hm → (∀ a x, live_slab s a x → Hm !! a = Some (home x)) →
  counts_ok s L → live_ptr s F c p → ∃ a x s1 x1 o fl k1,
    live_slab s a x ∧ cache x = c ∧ get_slab p s = Done a ∧ p ≠ 0 ∧
    put_obj c a p s = Done s1 ∧ slab_core s1 A L (<[a:=o :: fl]> F) Hm ∧ counts_ok s1 L ∧
    live_slab s1 a x1 ∧ cache x1 = c ∧ caches s1 !! c = Some k1 ∧ cache_wf k1 ∧
    slab_ok (objs s1) k1 a x1 (o :: fl) ∧ Hm !! a = Some (if free x1 =? 1 then SFull c else SPartial c) ∧
    (∀ b y, b ≠ a → live_slab s1 b y ↔ live_slab s b y) ∧
    same_caches (caches s) (caches s1) ∧ same_caches (caches s1) (caches s) ∧
    (∀ c' q, live_ptr s F c' q ↔ live_ptr s1 (<[a:=o :: fl]> F) c' q ∨ (c' = c ∧ q = p)) ∧
    ¬ live_ptr s1 (<[a:=o :: fl]> F) c p.
Proof.
  intros C Hh Hcnt (a & x & k & fl & i & Hl & Ecx & Hk & Hfl & Hi & -> & Hni).
  destruct (sc_slab _ _ _ _ _ C _ _ Hl) as (k1 & fl1 & Hk1 & _ & EF1 & Hs & _).
  rewrite Ecx in Hk1. assert (k1 = k) as -> by congruence. assert (fl1 = fl) as -> by congruence.
  destruct (sc_cache _ _ _ _ _ C _ _ Hk) as [W _].
  pose proof (core_addr _ _ _ _ _ _ _ C Hl) as Ha.
  pose proof (pos_in_block k a i W Hi) as Hb. set (o := pos k a i) in *.
  destruct (so_head _ _ _ _ _ Hs i Hi) as (h & Eh & Eha). fold o in Eh.
  destruct (slab_ok_put _ _ _ _ _ i _ h W Hs Ha Hni Hi eq_refl Eh) as [Hlen Hs1].
  assert (o + SIZEOF_SLAB_OBJ - SIZEOF_SLAB_OBJ = o) as Eoo by lia.
  set (x1 := Slab _ _ _ _ _ _) in Hs1. destruct Hl as [Ex Hmg]. set (k1 := bump_in_use (-1) k).
  set (s0 := call (dtor k) (o + SIZEOF_SLAB_OBJ) s).
  set (s1 := set_caches (<[c:=k1]> (caches s0)) (set_slabs (<[a:=x1]> (slabs s0))
    (set_objs (<[o:=SObj (o_slab h) (freelist x)]> (objs s0)) s0))).
  destruct (call_fields (dtor k) (o + SIZEOF_SLAB_OBJ) s) as (F1 & F2 & F3 & F4 & F5).
  fold s0 in F1, F2, F3, F4, F5.
  assert (live_slab s1 a x1) as Hl1 by (split; [apply lookup_insert_eq|done]).
  assert (∀ b y, b ≠ a → live_slab s1 b y ↔ live_slab s b y) as Hll.
  { intros b y Hne. unfold live_slab. simpl. by rewrite F2, lookup_insert_ne. }
  destruct (same_caches_insert (caches s) c k k1 Hk) as [S1 S2]; [done|].
  exists a, x, s1, x1, o, fl, k1. split; [done|]. split; [done|].
  split; [unfold get_slab; rewrite Eoo, Eh; simpl; by rewrite Eha|].
  split; [unfold SIZEOF_SLAB, SIZEOF_SLAB_OBJ in *; lia|].
  split.
  { unfold put_obj. rewrite Hk. rsimpl. fold s0. rewrite F2, Ex, F3, Eoo, Eh. rsimpl.
    unfold upd_slab. cbn [slabs set_objs]. rewrite F2, Ex. rsimpl. unfold upd_cache.
    cbn [caches set_slabs set_objs]. rewrite F1, Hk. rsimpl. unfold s1. by rewrite F1, F2, F3. }
  assert (slab_core s1 A L (<[a:=o :: fl]> F) Hm) as C1.
  { apply (core_cache (set_slabs (<[a:=x1]> (slabs s0))
      (set_objs (<[o:=SObj (o_slab h) (freelist x)]> (objs s0)) s0)) A L _ Hm c k k1);
      [|simpl; by rewrite F1|apply bump_same].
    eapply core_slab; [by apply core_calls|by split; rewrite ?F2| |done|done|by rewrite F3|].
    - by rewrite F1, Ecx.
    - intros q Hq. apply lookup_insert_ne. intros <-. by apply (Hq i). }
  split_and!; try done.
  - intros c' k' Hk'. unfold s1 in Hk'. cbn [caches set_caches] in Hk'. rewrite F1 in Hk'.
    apply lookup_insert_Some in Hk' as [[<- <-]|[Hne Hk']]; [by apply (Hcnt c k)|by apply Hcnt].
  - simpl. by rewrite lookup_insert_eq.
  - by apply (same_cache_wf k).
  - unfold s1. cbn [objs set_caches set_slabs set_objs]. rewrite F3. by apply (same_slab_ok _ k).
  - rewrite (Hh a x) by done. f_equal. simpl. rewrite (so_free _ _ _ _ _ Hs).
    destruct (cap_bounds k W) as (Hc & _). rewrite wrap_small by lia. case_if.
    + apply full_home; [rewrite (so_free _ _ _ _ _ Hs); lia|done].
    + rewrite <- Ecx. eapply (partial_home _ _ _ _ _ W Hs); [|done].
      rewrite (so_free _ _ _ _ _ Hs). lia.
  - simpl. by rewrite F1.
  - simpl. by rewrite F1.
  - intros c' q. pose proof (live_ptr_take s1 s (<[a:=o :: fl]> F) a x1 x c k1 o fl i) as Ht.
    rewrite insert_insert_eq, (insert_id F a fl Hfl) in Ht.
    assert (caches s1 = <[c:=k1]> (caches s)) as Ecs by (simpl; by rewrite F1).
    apply Ht; rewrite ?Ecs, ?lookup_insert_eq; try done; [by apply (same_cache_wf k)|].
    intros b y Hne. symmetry. by apply Hll.
  - intros (b & y & k2 & f2 & j & Hb' & Ey & Hk2 & Hf2 & Hj & Eq & Hnj).
    assert (k2 = k1) as -> by (simpl in Hk2; rewrite lookup_insert_eq in Hk2; congruence).
    assert (o = pos k1 b j) as Eoj by lia. destruct (decide (b = a)) as [->|Hne].
    + rewrite lookup_insert_eq in Hf2. injection Hf2 as <-. set_solver.
    + assert (caches s1 !! cache x1 = Some k1) as Hc1 by (change (cache x1) with (cache x); congruence).
      destruct (core_pos_ne _ _ _ _ _ b y k1 a x1 k1 j i C1 Hb') as [|]; try done; try congruence.
      all: change (pos k1 a i) with o in *; rewrite <- Eoj in *;
        destruct (cap_bounds k W) as (_ & ? & _);
        change (real_object_size k1) with (real_object_size k) in *; lia.
Qed.

Lemma all_free_pos os k a x fl i : cache_wf k → slab_ok os k a x fl → in_use x = 0 →
  0 <= i < cap k → pos k a i ∈ fl.
Proof.
  intros W Hs Hu Hi. assert (fl ≡ₚ all_pos k a) as ->; [|apply all_pos_elem; eauto].
  apply submseteq_length_Permutation.
  - apply NoDup_submseteq; [apply Hs|]. intros q Hq. apply all_pos_elem. by apply Hs.
  - rewrite (so_use _ _ _ _ _ Hs) in Hu. unfold all_pos. rewrite length_fmap, length_seqZ.
    destruct (cap_bounds k W). lia.
Qed.

Definition more_free (k : kmem_cache) : kmem_cache :=
  KCache (name k) (object_size k) (real_object_size k) (align k)
    (c_in_use k) (u32 (free_slab_count k + 1)) (objects_per_slab k) (c_order k)
    (ctor k) (dtor k).

(** The slab is on the partial list when the emptiness test runs. *)
Lemma requeue_partial s A L F Hm c a x :
  slab_core s A L F Hm → counts_ok s L → live_slab s a x → cache x = c →
  Hm !! a = Some (if free x =? 1 then SFull c else SPartial c) → ∃ n L2,
  (if free x =? 1 then on_nodes (list_move (SSlab a) (SPartial c)) s else Done s)
    = Done (set_snodes n s) ∧
  slab_core (set_snodes n s) A L2 F (<[a:=SPartial c]> Hm) ∧ counts_ok s L2.
Proof.
  intros C Hcnt Hl Ecx Eh. destruct (free x =? 1) eqn:Ef.
  - destruct (core_move _ _ _ _ _ _ _ (SPartial c) C Hl) as (n & L2 & h1 & Em & C2 & Eh1 & Cn).
    { rewrite Ecx. unfold head_of. tauto. }
    exists n, L2. unfold on_nodes. rewrite Em. split; [done|]. split; [done|].
    intros c' k' Hk'. rewrite Cn, !one_if_false by congruence. destruct (Hcnt _ _ Hk'). lia.
  - exists (snodes s), L. rewrite set_snodes_id. split; [done|]. split; [|done].
    by rewrite insert_id.
Qed.

Lemma requeue_destroy s A L F Hm c a x k fl :
  slab_core s A L F Hm → counts_ok s L → live_slab s a x → cache x = c →
  Hm !! a = Some (SPartial c) → (∀ b y, b ≠ a → live_slab s b y → Hm !! b = Some (home y)) →
  caches s !! c = Some k → F !! a = Some fl → slab_ok (objs s) k a x fl → in_use x = 0 →
  ∃ s' A' L', slab_destroy c a s = Done s' ∧ slab_inv s' A' L' F ∧ caches s' = caches s ∧
    (∀ c' q, live_ptr s' F c' q ↔ live_ptr s F c' q).
Proof.
  intros C Hcnt Hl Ecx EHm Hh Hk HF Hs Hu.
  destruct (core_destroy _ _ _ _ _ _ _ k C Hl) as (n & p & A' & L' & h1 & En & Ep & C' & Eh1 & Cn).
  { by rewrite Ecx. }
  destruct (sc_cache _ _ _ _ _ C _ _ Hk) as [W _]. pose proof Hl as [Ea Hmg].
  unfold slab_destroy. rewrite Ea. rsimpl. rewrite Hmg. cbn [negb Z.eqb].
  rewrite Z.eqb_refl. cbn [negb]. unfold on_nodes. rstep En. unfold upd_slab.
  cbn [slabs set_snodes]. rewrite Ea. rsimpl. cbn [caches set_slabs set_snodes pgs].
  rewrite Hk. rsimpl. rstep Ep. eexists _, A', L'. split; [done|].
  set (s' := set_pgs _ _).
  assert (∀ b y, live_slab s' b y ↔ b ≠ a ∧ live_slab s b y) as Hlive.
  { intros b y. unfold live_slab, s'. simpl. rewrite lookup_insert_Some. split.
    - intros [[[<- <-]|[? ?]] Hm0]; [done|by split].
    - intros (? & ? & ?). split; [by right|done]. }
  split; [|split; [done|]].
  - split.
    + exists Hm. split; [exact C'|]. intros b y [Hne Hb]%Hlive. by apply Hh.
    + intros c' k' Hk'. rewrite Cn, one_if_false by congruence. destruct (Hcnt _ _ Hk'). lia.
  - intros c' q. split.
    + apply live_ptr_impl; [by intros b y [_ ?]%Hlive|done|apply same_caches_refl].
    + intros (b & y & k' & f & i & Hb & Ey & Hk' & Hf & Hi & -> & Hni).
      exists b, y, k', f, i. split_and!; try done; try lia. apply Hlive. split; [|done].
      intros ->. apply Hni. assert (y = x) as -> by (destruct Hb; congruence).
      assert (k' = k) as -> by congruence. assert (f = fl) as -> by congruence.
      by eapply all_free_pos.
Qed.

Lemma requeue_free s A L F Hm c a x k fl :
  slab_core s A L F Hm → counts_ok s L → live_slab s a x → cache x = c →
  Hm !! a = Some (SPartial c) → (∀ b y, b ≠ a → live_slab s b y → Hm !! b = Some (home y)) →
  caches s !! c = Some k → slab_ok (objs s) k a x fl → in_use x = 0 →
  free_slab_count k < MAX_FREE_SLABS → ∃ n L',
    list_move (SSlab a) (SFree c) (snodes s) = Done n ∧
    slab_inv (set_caches (<[c:=more_free k]> (caches s)) (set_snodes n s)) A L' F.
Proof.
  intros C Hcnt Hl Ecx EHm Hh Hk Hs Hu Hlt.
  destruct (core_move _ _ _ _ _ _ _ (SFree c) C Hl) as (n & L' & h1 & Em & C' & Eh1 & Cn).
  { rewrite Ecx. unfold head_of. tauto. }
  assert (h1 = SPartial c) as -> by congruence. exists n, L'. split; [done|].
  destruct (sc_cache _ _ _ _ _ C _ _ Hk) as [W _]. destruct (Hcnt _ _ Hk) as [E1 E2]. split.
  - eexists. split; [by apply (core_cache _ _ _ _ _ c k (more_free k) C')|].
    intros b y Hb. destruct (decide (b = a)) as [->|Hne].
    + rewrite lookup_insert_eq. assert (y = x) as -> by (destruct Hb, Hl; simpl in *; congruence).
      f_equal. unfold home. destruct (cap_bounds k W). pose proof (so_use _ _ _ _ _ Hs).
      rewrite (proj2 (Z.eqb_neq _ _)) by (rewrite (so_free _ _ _ _ _ Hs); lia).
      by rewrite (proj2 (Z.eqb_eq _ _)), Ecx.
    + rewrite lookup_insert_ne by done. by apply Hh.
  - intros c' k' Hk'. rewrite Cn. cbn [caches set_caches set_snodes] in Hk'.
    apply lookup_insert_Some in Hk' as [[<- <-]|[Hne Hk']].
    + rewrite one_if_false, one_if_true by done. simpl. unfold MAX_FREE_SLABS in *.
      assert (0 <= llen L (SFree c)) by (unfold llen; case_match; lia).
      rewrite wrap_small by lia. lia.
    + rewrite !one_if_false by congruence. destruct (Hcnt _ _ Hk'). lia.
Qed.

Lemma requeue_ok s A L F Hm c a x k fl :
  slab_core s A L F Hm → counts_ok s L → live_slab s a x → cache x = c →
  Hm !! a = Some (if free x =? 1 then SFull c else SPartial c) →
  (∀ b y, b ≠ a → live_slab s b y → Hm !! b = Some (home y)) →
  caches s !! c = Some k → F !! a = Some fl → slab_ok (objs s) k a x fl → fl ≠ [] →
  ∃ s' A' L', requeue_slab c a s = Done s' ∧ slab_inv s' A' L' F ∧
    same_caches (caches s) (caches s') ∧ same_caches (caches s') (caches s) ∧
    (∀ c' q, live_ptr s' F c' q ↔ live_ptr s F c' q).
Proof.
  intros C Hcnt Hl Ecx EHm Hh Hk HF Hs Hfl.
  destruct (sc_cache _ _ _ _ _ C _ _ Hk) as [W _]. pose proof Hl as [Ea Hmg].
  destruct (requeue_partial _ _ _ _ _ _ _ _ C Hcnt Hl Ecx EHm) as (n & L2 & En & C2 & Hcnt2).
  assert (∀ b y, b ≠ a → live_slab (set_snodes n s) b y → <[a:=SPartial c]> Hm !! b = Some (home y)) as Hh2.
  { intros b y Hne Hb. rewrite lookup_insert_ne by done. by apply Hh. }
  unfold requeue_slab. rewrite Ea. rsimpl. rstep En. case_if.
  - cbn [caches set_snodes]. rewrite Hk. rsimpl. case_if.
    + destruct (requeue_destroy (set_snodes n s) A L2 F _ c a x k fl C2)
        as (s' & A' & L' & Ed & I & Ec & Hlp); try done; [apply lookup_insert_eq|].
      exists s', A', L'. rewrite Ed, Ec. split_and!; try done; apply same_caches_refl.
    + destruct (requeue_free (set_snodes n s) A L2 F _ c a x k fl C2)
        as (n2 & L' & Em & I); try done; [apply lookup_insert_eq|].
      unfold on_nodes. rstep Em. unfold upd_cache. cbn [caches set_snodes]. rewrite Hk. rsimpl.
      destruct (same_caches_insert (caches s) c k (more_free k) Hk) as [S1 S2]; [done|].
      eexists _, A, L'. split_and!; [done|exact I|done|done|].
      intros c' q. split; apply live_ptr_impl; done.
  - eexists _, A, L2. split; [done|]. split; [|split; [apply same_caches_refl|split;
      [apply same_caches_refl|done]]].
    split; [|done]. eexists. split; [exact C2|]. intros b y Hb.
    destruct (decide (b = a)) as [->|Hne]; [|by apply Hh2].
    assert (y = x) as -> by (destruct Hb; simpl in *; congruence).
    rewrite lookup_insert_eq, <- Ecx. f_equal. symmetry. eapply (partial_home _ _ _ _ _ W Hs).
    + rewrite (so_free _ _ _ _ _ Hs). destruct fl; simpl; [done|lia].
    + pose proof (so_use _ _ _ _ _ Hs). pose proof (slab_ok_length _ _ _ _ _ W Hs). lia.
Qed.

Lemma kmemcache_alloc_ok s A L F c k :
  slab_inv s A L F → caches s !! c = Some k → ∃ s' p A' L' F',
    kmemcache_alloc c s = Done (s', p) ∧ slab_inv s' A' L' F' ∧
    same_caches (caches s) (caches s') ∧ same_caches (caches s') (caches s) ∧
    ((p = 0 ∧ ∀ c' q, live_ptr s' F' c' q ↔ live_ptr s F c' q) ∨
     (p ≠ 0 ∧ ¬ live_ptr s F c p ∧
      ∀ c' q, live_ptr s' F' c' q ↔ live_ptr s F c' q ∨ (c' = c ∧ q = p))).
Proof.
  intros I Hk. unfold kmemcache_alloc.
  destruct (pick_slab_ok _ _ _ _ _ _ I Hk) as [(p & Ep & I')|(s1 & a & F1 & A1 & Ep & P)]; rstep Ep.
  - exists (set_pgs p s), 0, A, L, F. split_and!; try done; try apply same_caches_refl. by left.
  - rewrite (proj2 (Z.eqb_neq _ _)) by (by eapply picked_addr).
    assert (is_Some (caches s1 !! c)) as Hk1.
    { destruct (proj1 (pk_caches _ _ _ _ _ _ _ P) _ _ Hk) as (k1 & ? & _). eauto. }
    destruct (take_obj_ok _ _ _ _ _ _ _ P Hk1)
      as (s' & p & L' & F' & Et & I' & Hp & S1 & S2 & Hlp & Hnl).
    exists s', p, A1, L', F'. split_and!; try done. right. by split_and!.
Qed.

Lemma kmemcache_free_ok s A L F c p :
  slab_inv s A L F → live_ptr s F c p → ∃ s' A' L' F',
    kmemcache_free p s = Done (s', 0) ∧ slab_inv s' A' L' F' ∧
    same_caches (caches s) (caches s') ∧ same_caches (caches s') (caches s) ∧
    (∀ c' q, live_ptr s F c' q ↔ live_ptr s' F' c' q ∨ (c' = c ∧ q = p)) ∧
    ¬ live_ptr s' F' c p.
Proof.
  intros [(Hm & C & Hh) Hcnt] Hlp.
  destruct (put_obj_ok _ _ _ _ _ _ _ C Hh Hcnt Hlp) as (a & x & s1 & x1 & o & fl & k1 & Hl & Ecx &
    Eg & Hp & Eput & C1 & Hcnt1 & Hl1 & Ecx1 & Hk1 & W1 & Hs1 & EHm & Hll & S1 & S2 & Hq & Hnq).
  destruct (requeue_ok _ _ _ _ _ c a x1 k1 (o :: fl) C1 Hcnt1 Hl1 Ecx1 EHm)
    as (s' & A' & L' & Er & I' & S3 & S4 & Hlp'); try done.
  { intros b y Hne Hb. apply Hh. by apply Hll. } { apply lookup_insert_eq. }
  exists s', A', L', (<[a:=o :: fl]> F). unfold kmemcache_free. destruct Hl as [Ea Hmg].
  rewrite (proj2 (Z.eqb_neq _ _)) by done. rstep Eg. rewrite Ea. rsimpl.
  rewrite Hmg, Z.eqb_refl, Ecx. cbn [negb]. rstep Eput. rstep Er. split_and!; try done.
  - by eapply same_caches_trans.
  - by eapply same_caches_trans.
  - intros c' q. by rewrite Hq, Hlp'.
  - by rewrite Hlp'.
Qed.

(** ** New caches *)

Lemma order_for_ok needed fuel i :
  needed <= 2 ^ 28 → 0 <= i <= 16 → 16 < i + Z.of_nat fuel → ∃ o,
    order_for fuel needed i = Done o ∧ i <= o <= 16 ∧ needed <= 2 ^ o * PAGE_SIZE.
Proof.
  intros Hn. revert i. induction fuel as [|fuel IH]; intros i Hi Hf; [lia|].
  cbn -[Z.of_nat Z.shiftl]. rewrite Z.shiftl_mul_pow2 by lia. unfold PAGE_SIZE in *.
  assert (2 ^ i <= 2 ^ 16) by (apply Z.pow_le_mono_r; lia). pose proof (pow2_pos i).
  rewrite wrap_small by lia. case_if; [|exists i; split_and!; try done; lia].
  assert (i ≠ 16) by (intros ->; simpl in *; lia).
  destruct (IH (i + 1)) as (o & -> & ? & ?); [lia..|]. exists o. split_and!; try done; lia.
Qed.

Definition new_cache (nm : option (list Z)) (size order : Z) (ct dt : option Z) : kmem_cache :=
  KCache (match nm with
          | Some n => strncpy_bytes (KMEMCACHE_NAME_LEN - 1) n ++ [0]
          | None => replicate KMEMCACHE_NAME_LEN 0
          end) size (align_up (SIZEOF_SLAB_OBJ + size) SIZEOF_PTR) SIZEOF_PTR 0 0
    (u32 ((2 ^ order * PAGE_SIZE - SIZEOF_SLAB) / align_up (SIZEOF_SLAB_OBJ + size) SIZEOF_PTR))
    order ct dt.

Lemma new_cache_wf nm size order ct dt : 0 <= size <= 2 ^ 27 → 0 <= order <= 16 →
  SIZEOF_SLAB + align_up (SIZEOF_SLAB_OBJ + size) SIZEOF_PTR <= 2 ^ order * PAGE_SIZE →
  cache_wf (new_cache nm size order ct dt).
Proof.
  intros Hs Ho Hn. unfold SIZEOF_SLAB_OBJ, SIZEOF_SLAB in *.
  destruct (align_up_bounds (16 + size) 3) as [Hb Hm]; [lia..|].
  split; simpl; try done. unfold SIZEOF_SLAB_OBJ. change SIZEOF_PTR with (2 ^ 3). lia.
Qed.

(** Adding a cache whose page is fresh. *)
Lemma inv_new_cache s A L F p c k :
  slab_inv s A L F → pa_own p ((0, c) :: A) → cache_wf k → free_slab_count k = 0 →
  let self h := Links (Some h) (Some h) in
  let s' := Heap p (<[c:=k]> (caches s)) (slabs s) (objs s)
    (<[SFull c := self (SFull c)]> (<[SPartial c := self (SPartial c)]>
       (<[SFree c := self (SFree c)]> (snodes s)))) (calls s) in
  slab_inv s' ((0, c) :: A)
    (<[SFull c := []]> (<[SPartial c := []]> (<[SFree c := []]> L))) F ∧ caches s !! c = None.
Proof.
  intros [(Hm & C & Hh) Hcnt] Hown W Hk0 self s'.
  destruct (fresh_block _ _ _ _ _ _ _ _ C Hown) as (Hnc & Hnl & _).
  pose proof C as [C1 C2 C3 C4 C5 C6 C7].
  assert (∀ h, head_of c h → detached L h) as Hdet.
  { intros h Hh'. apply detached_spec. split.
    - apply eq_None_not_Some. rewrite C3. intros (c' & [k' Hk'] & Hc').
      rewrite (head_of_inj _ _ _ Hc' Hh') in Hk'. congruence.
    - intros h' Hin. destruct (C6 _ _ Hin) as (a & x & E & _). unfold head_of in Hh'. naive_solver. }
  assert (∀ h n, on_list (<[SFull c := []]> (<[SPartial c := []]> (<[SFree c := []]> L))) h n ↔
    on_list L h n) as Hon.
  { intros h n. rewrite !on_list_insert. split; [set_solver|]. intros Hin.
    assert (¬ head_of c h) as Hnh.
    { intros Hc. apply Hdet, detached_spec in Hc as [Hc _]. destruct Hin as (xs & E & _). congruence. }
    unfold head_of in Hnh. right. split; [tauto|]. right. split; [tauto|]. right. tauto. }
  assert (∀ c' k', c' ≠ c → <[c:=k]> (caches s) !! c' = Some k' ↔ caches s !! c' = Some k') as Hlk
    by (intros c' k' Hne; by rewrite lookup_insert_ne).
  split; [|done]. split.
  - exists Hm. split; [|done]. split; simpl; try done.
    + apply lists_ok_new; [apply lists_ok_new; [apply lists_ok_new; [done|]|]|];
        repeat apply detached_insert_nil; try done; apply Hdet; unfold head_of; tauto.
    + intros h. rewrite !lookup_insert_is_Some'. split.
      * intros [<-|[<-|[<-|(c' & [k' Hk'] & Hc')%C3]]];
          [exists c; rewrite lookup_insert_eq; unfold head_of; eauto..|].
        exists c'. split; [|done]. exists k'. rewrite lookup_insert_ne; [done|congruence].
      * intros (c' & [k' Hk'] & Hc'). destruct (decide (c' = c)) as [->|Hne].
        -- unfold head_of in Hc'. naive_solver.
        -- do 3 right. apply C3. exists c'. rewrite lookup_insert_ne in Hk' by done. eauto.
    + intros c' k' [[<- <-]|[Hne Hk']]%lookup_insert_Some; [split; [done|set_solver]|].
      destruct (C4 _ _ Hk'). split; [done|set_solver].
    + intros a x Hl. destruct (C5 _ _ Hl) as (k' & fl & Hk' & ? & ? & ? & ?). exists k', fl.
      rewrite !lookup_insert_ne; [split_and!; try done; set_solver|..|congruence].
      intros ->. by eapply Hnl.
    + intros h n Hin%Hon. destruct (C6 _ _ Hin) as (a & x & ? & ? & ? & ?). by exists a, x.
    + intros a x Hl. destruct (C7 _ _ Hl) as (h & ? & ? & ?). exists h.
      split_and!; try done. by apply Hon.
  - intros c' k' Hk'. rewrite !llen_insert. simpl in Hk'.
    apply lookup_insert_Some in Hk' as [[<- <-]|[Hne Hk']].
    + rewrite decide_False, decide_False, decide_True by done. simpl. unfold MAX_FREE_SLABS. lia.
    + rewrite !decide_False by congruence. by apply Hcnt.
Qed.

Lemma kmemcache_create_ok s A L F nm size ct dt :
  slab_inv s A L F → 0 <= size <= 2 ^ 27 → ∃ s' c A' L',
    kmemcache_create nm size ct dt s = Done (s', c) ∧ slab_inv s' A' L' F ∧
    (∀ c' q, live_ptr s' F c' q ↔ live_ptr s F c' q) ∧
    ((c = 0 ∧ caches s' = caches s) ∨
     (c ≠ 0 ∧ caches s !! c = None ∧ ∃ o, caches s' = <[c:=new_cache nm size o ct dt]> (caches s))).
Proof.
  intros I Hs. pose proof I as [(Hm & C & Hh) Hcnt]. unfold kmemcache_create.
  destruct (pa_alloc_ok 0 _ _ (Z.le_refl 0) (sc_own _ _ _ _ _ C))
    as (p & c & Ea & [[-> Hown]|[Hc0 Hown]]); rstep Ea.
  { exists (set_pgs p s), 0, A, L. split_and!; try done; [|by left]. split; [|done].
    exists Hm. split; [by apply core_pgs|done]. }
  rewrite (proj2 (Z.eqb_neq _ _)) by done. cbv zeta.
  rewrite (wrap_small 64 (SIZEOF_SLAB_OBJ + size)) by (unfold SIZEOF_SLAB_OBJ; lia).
  destruct (align_up_bounds (SIZEOF_SLAB_OBJ + size) 3) as [Hb Hmd]; [unfold SIZEOF_SLAB_OBJ; lia..|].
  change (2 ^ 3) with SIZEOF_PTR in *. set (r := align_up _ _) in *.
  rewrite (wrap_small 64 (SIZEOF_SLAB + r)) by (unfold SIZEOF_SLAB, SIZEOF_SLAB_OBJ, SIZEOF_PTR in *; lia).
  destruct (order_for_ok (SIZEOF_SLAB + r) 64 0) as (o & Eo & Ho & Hfit);
    [unfold SIZEOF_SLAB, SIZEOF_SLAB_OBJ, SIZEOF_PTR in *; lia|lia|lia|]. rstep Eo.
  assert (cache_wf (new_cache nm size o ct dt)) as W by (apply new_cache_wf; done).
  destruct (cap_bounds _ W) as (Hcap & _ & _). unfold cap in Hcap. simpl in Hcap. fold r in Hcap.
  rewrite Z.shiftl_mul_pow2, Z.mul_comm by lia. pose proof (pow2_pos o).
  assert (2 ^ o <= 2 ^ 16) by (apply Z.pow_le_mono_r; lia).
  rewrite (wrap_small 64 (2 ^ o * PAGE_SIZE)) by (unfold PAGE_SIZE; lia).
  rewrite (proj2 (Z.eqb_neq _ _)) by (rewrite wrap_small; lia).
  destruct (inv_new_cache s A L F p c (new_cache nm size o ct dt) I Hown W eq_refl) as [I' Hnc].
  eexists _, c, _, _. split; [reflexivity|]. split; [exact I'|]. split.
  - intros c' q. destruct (decide (c' = c)) as [->|Hne].
    + split; intros (a & x & k & fl & i & Hl & Ex & Hk & _); [|congruence].
      destruct (sc_slab _ _ _ _ _ C a x Hl) as (k1 & _ & Hk1 & _). congruence.
    + unfold live_ptr. cbn [caches]. by setoid_rewrite lookup_insert_ne; [|done].
  - right. split_and!; try done. by exists o.
Qed.
End invariant.

(** ** Properties *)


(** [kmemcache_free] of an object that is handed out succeeds from the
    object's address alone (its header leads to the slab and the slab to the
    cache), takes exactly this object out of the set, and keeps the invariant
    whether the slab moves from the full to the partial list, from there to
    the empty ones, or is given back to the page allocator. *)
Theorem slab_free_refines {P} `{PageAllocatorLaws P} (s : heap P) A L F c p :
  slab_inv s A L F → live_ptr s F c p → ∃ s' A' L' F',
    kmemcache_free p s = Done (s', 0) ∧ slab_inv s' A' L' F' ∧
    same_caches (caches s) (caches s') ∧
    (∀ c' q, live_ptr s F c' q ↔ live_ptr s' F' c' q ∨ (c' = c ∧ q = p)) ∧
    ¬ live_ptr s' F' c p.
Proof.
  intros I Hl. destruct (kmemcache_free_ok _ _ _ _ _ _ I Hl)
    as (s' & A' & L' & F' & ? & ? & ? & _ & ? & ?).
  exists s', A', L', F'. by split_and!.
Qed.

(** The bytes of an object handed out, its header included, are disjoint
    from those of every other object of any cache. *)
Theorem slab_objects_apart {P} `{PageAllocatorLaws P} (s : heap P) A L F c p k c' p' k' :
  slab_inv s A L F → live_ptr s F c p → caches s !! c = Some k →
  live_ptr s F c' p' → caches s !! c' = Some k' → p ≠ p' →
  p + object_size k <= p' - SIZEOF_SLAB_OBJ ∨ p' + object_size k' <= p - SIZEOF_SLAB_OBJ.
Proof. apply live_apart. Qed.

(** ** Witnesses: a cache of 100-byte objects over the buddy allocator *)

#[local] Opaque kmemcache_create kmemcache_alloc kmemcache_free.

Definition demo_hhdm : Z := 0xFFFF800000000000.

#[local] Instance demo_pages : page_allocator buddy_allocator := buddy_pages demo_hhdm 128.

#[local] Instance demo_pages_laws : PageAllocatorLaws buddy_allocator.
Proof. by apply buddy_pages_laws. Qed.

Definition demo_heap0 : heap buddy_allocator := Heap demo_buddy ∅ ∅ ∅ ∅ [].

Definition demo_cache : heap buddy_allocator * Z :=
  match kmemcache_create None 100 None None demo_heap0 with
  | Done r => r | Stop _ => (demo_heap0, 0)
  end.

Definition demo_alloc (s : heap buddy_allocator) : heap buddy_allocator * Z :=
  match kmemcache_alloc demo_cache.2 s with Done r => r | Stop _ => (s, 0) end.

Definition demo_one := demo_alloc demo_cache.1.
Definition demo_two := demo_alloc demo_one.1.

Lemma demo_cache_nz : demo_cache.2 ≠ 0.
Proof. apply Z.eqb_neq. vm_compute. reflexivity. Qed.
Lemma demo_one_nz : demo_one.2 ≠ 0.
Proof. apply Z.eqb_neq. vm_compute. reflexivity. Qed.
Lemma demo_two_nz : demo_two.2 ≠ 0.
Proof. apply Z.eqb_neq. vm_compute. reflexivity. Qed.
Lemma demo_one_two : demo_one.2 ≠ demo_two.2.
Proof. apply Z.eqb_neq. vm_compute. reflexivity. Qed.

Lemma demo_heap0_inv : slab_inv demo_heap0 [] ∅ ∅.
Proof.
  destruct demo_buddy_inv as (L & _ & I & C & _). split; [|by intros ???].
  exists ∅. split; [|by intros ?? [??]]. split.
  - split; [exact C| |done]. exists L. split; [done|]. intros x []%elem_of_nil.
  - by split.
  - intros h. split; [by intros []|]. by intros (c & [] & _).
  - by intros ??.
  - by intros ?? [??].
  - by intros ?? (? & ? & _).
  - by intros ?? [??].
Qed.

Lemma demo_cache_inv : ∃ A L F k, slab_inv demo_cache.1 A L F ∧
  caches demo_cache.1 !! demo_cache.2 = Some k.
Proof.
  pose proof demo_cache_nz as Hnz.
  destruct (kmemcache_create_ok demo_heap0 [] ∅ ∅ None 100 None None demo_heap0_inv)
    as (s & c & A & L & E & I & _ & Hc); [lia|].
  assert (demo_cache = (s, c)) as Ed by (unfold demo_cache; by rewrite E). rewrite Ed in *.
  destruct Hc as [[Ez _]|(_ & _ & o & Ec)]; [destruct (Hnz Ez)|]. exists A, L, ∅. eexists.
  split; [exact I|]. simpl. rewrite Ec. apply lookup_insert_eq.
Qed.

Lemma demo_alloc_inv s A L F k : slab_inv s A L F → caches s !! demo_cache.2 = Some k →
  (demo_alloc s).2 ≠ 0 → ∃ A' L' F' k', slab_inv (demo_alloc s).1 A' L' F' ∧
  caches (demo_alloc s).1 !! demo_cache.2 = Some k' ∧
  live_ptr (demo_alloc s).1 F' demo_cache.2 (demo_alloc s).2 ∧
  (∀ q, live_ptr s F demo_cache.2 q → live_ptr (demo_alloc s).1 F' demo_cache.2 q).
Proof.
  intros I Hk Hnz. destruct (kmemcache_alloc_ok _ _ _ _ _ _ I Hk)
    as (s' & p & A' & L' & F' & E & I' & S1 & _ & Hlp).
  unfold demo_alloc in *. rewrite E in *. destruct (S1 _ _ Hk) as (k' & Hk' & _).
  simpl in Hnz. destruct Hlp as [[Ez _]|(_ & _ & Hlp)]; [destruct (Hnz Ez)|].
  exists A', L', F', k'. split; [exact I'|]. split; [exact Hk'|].
  split; [apply Hlp; right; split; reflexivity|]. intros q Hq. apply Hlp. left. exact Hq.
Qed.

Lemma demo_two_inv : ∃ A L F k, slab_inv demo_two.1 A L F ∧
  caches demo_two.1 !! demo_cache.2 = Some k ∧
  live_ptr demo_two.1 F demo_cache.2 demo_one.2 ∧ live_ptr demo_two.1 F demo_cache.2 demo_two.2 ∧
  demo_one.2 ≠ demo_two.2.
Proof.
  destruct demo_cache_inv as (A & L & F & k & I & Hk).
  destruct (demo_alloc_inv _ _ _ _ _ I Hk demo_one_nz) as (A1 & L1 & F1 & k1 & I1 & Hk1 & Hl1 & _).
  destruct (demo_alloc_inv _ _ _ _ _ I1 Hk1 demo_two_nz) as (A2 & L2 & F2 & k2 & I2 & Hk2 & Hl2 & Hm).
  exists A2, L2, F2, k2.
  exact (conj I2 (conj Hk2 (conj (Hm _ Hl1) (conj Hl2 demo_one_two)))).
Qed.


Lemma slab_free_refines_witness : ∃ F s' A' L' F',
  kmemcache_free demo_one.2 demo_two.1 = Done (s', 0) ∧ slab_inv s' A' L' F' ∧
  same_caches (caches demo_two.1) (caches s') ∧
  (∀ c' q, live_ptr demo_two.1 F c' q ↔
     live_ptr s' F' c' q ∨ (c' = demo_cache.2 ∧ q = demo_one.2)) ∧
  ¬ live_ptr s' F' demo_cache.2 demo_one.2.
Proof.
  destruct demo_two_inv as (A & L & F & k & I & Hk & Hl & _). exists F.
  exact (slab_free_refines demo_two.1 A L F demo_cache.2 demo_one.2 I Hl).
Defined.

Lemma slab_objects_apart_witness : ∃ k,
  demo_one.2 + object_size k <= demo_two.2 - SIZEOF_SLAB_OBJ ∨
  demo_two.2 + object_size k <= demo_one.2 - SIZEOF_SLAB_OBJ.
Proof.
  destruct demo_two_inv as (A & L & F & k & I & Hk & Hl1 & Hl2 & Hne). exists k.
  exact (slab_objects_apart demo_two.1 A L F demo_cache.2 demo_one.2 k demo_cache.2 demo_two.2 k
    I Hl1 Hk Hl2 Hk Hne).
Defined.
