(* ===== verification/Kmalloc.v ===== *)
(** * The general-purpose allocator (lizard/kmalloc.c)

    Fifteen slab caches, one per size class, on a list of [struct cache_node]
    that are themselves slab objects. A request takes an object of the
    smallest class that is large enough. The bytes of the objects are not
    modelled, so [zalloc], which clears them after [kmalloc], has no definition. *)

From S2P Require Import Prelude ListHead Helpers PageAlloc EarlyAlloc Buddy Slab.

Local Open Scope Z_scope.

Definition SIZEOF_CACHE_NODE : Z := 32.

Definition KMALLOC_SIZES : list Z :=
  [8; 16; 32; 64; 128; 256; 512; 1024; 2048; 4096; 8192; 16384; 32768; 65536; 131072].

Inductive knode : Type := KHead | KNode (p : Z).

#[global] Instance knode_eq_dec : EqDecision knode.
Proof. solve_decision. Defined.

#[global] Instance knode_countable : Countable knode.
Proof.
  apply (inj_countable' (λ n, match n with KHead => None | KNode p => Some p end)
           (λ o, match o with None => KHead | Some p => KNode p end)).
  by intros [].
Defined.

Record cache_node := CNode { cn_cache : Z; cn_size : Z }.

Record kstate (S : Type) := KState {
  kheap : heap S;
  knodes : gmap Z cache_node;
  klinks : gmap knode (list_head knode);
  kmalloc_initialized : bool;
  kmalloc_node_cache : Z
}.
Arguments KState {_} _ _ _ _ _.
Arguments kheap {_} _.
Arguments knodes {_} _.
Arguments klinks {_} _.
Arguments kmalloc_initialized {_} _.
Arguments kmalloc_node_cache {_} _.

Section kmalloc.
Context {S : Type} `{!page_allocator S}.

Definition set_heap (h : heap S) (st : kstate S) : kstate S :=
  KState h (knodes st) (klinks st) (kmalloc_initialized st) (kmalloc_node_cache st).

(** [sprintf(name, "kmalloc_%u", sz)]. *)
Fixpoint dec_digits (fuel : nat) (n : Z) (acc : list Z) : list Z :=
  match fuel with
  | O => acc
  | Datatypes.S fuel =>
      let acc := 48 + n mod 10 :: acc in
      if n / 10 =? 0 then acc else dec_digits fuel (n / 10) acc
  end.

Definition class_name (sz : Z) : list Z :=
  [107; 109; 97; 108; 108; 111; 99; 95] ++ dec_digits 20 sz [].

(** The macro [CREATE_CACHE(sz)]; a null node is a fault. *)
Definition CREATE_CACHE (sz : Z) (st : kstate S) : run (kstate S) :=
  '(h, node) ← kmemcache_alloc (kmalloc_node_cache st) (kheap st);
  if node =? 0 then Stop Fault
  else
    '(h, c) ← kmemcache_create (Some (class_name sz)) sz None None h;
    l ← list_add (KNode node) KHead (<[KNode node := Links None None]> (klinks st));
    Done (KState h (<[node := CNode c sz]> (knodes st)) l
            (kmalloc_initialized st) (kmalloc_node_cache st)).

Fixpoint create_caches (szs : list Z) (st : kstate S) : run (kstate S) :=
  match szs with
  | [] => Done st
  | sz :: szs => st ← CREATE_CACHE sz st; create_caches szs st
  end.

Definition kmalloc_init (st : kstate S) : run (kstate S) :=
  l ← InitListHead KHead (klinks st);
  '(h, c) ← kmemcache_create (Some [107; 109; 97; 108; 108; 111; 99; 95; 110; 111; 100; 101])
              SIZEOF_CACHE_NODE None None (kheap st);
  st ← create_caches KMALLOC_SIZES (KState h (knodes st) l (kmalloc_initialized st) c);
  Done (KState (kheap st) (knodes st) (klinks st) true (kmalloc_node_cache st)).

(** [node->size >= size && (!best || node->size < best->size)]. *)
Definition better (size : Z) (node : cache_node) (best : option cache_node) : bool :=
  (size <=? cn_size node) &&
  match best with None => true | Some best => cn_size node <? cn_size best end.

(** The loop body of [kmalloc]; the second component is [best]. *)
Definition best_body (size : Z) (pos : knode) (s : kstate S * option cache_node)
    : run ((kstate S * option cache_node) * option unit) :=
  match pos with
  | KHead => Stop Fault
  | KNode p =>
      node ← access (knodes s.1 !! p);
      if better size node s.2 then Done ((s.1, Some node), None)
      else Done (s, None)
  end.

Definition kmalloc (size : Z) (st : kstate S) : run (kstate S * Z) :=
  st ← (if kmalloc_initialized st then Done st else kmalloc_init st);
  '((st, best), _) ← list_for_each (λ s, klinks s.1) (best_body size) KHead (st, None);
  match best with
  | None => Stop Panic
  | Some best =>
      '(h, addr) ← kmemcache_alloc (cn_cache best) (kheap st);
      Done (set_heap h st, addr)
  end.

Definition kfree (ptr : Z) (st : kstate S) : run (kstate S) :=
  if ptr =? 0 then Done st
  else if negb (kmalloc_initialized st) then Stop Panic
  else
    slab ← get_slab ptr (kheap st);
    valid ← is_valid_slab slab (kheap st);
    if (valid : bool) then '(h, _) ← kmemcache_free ptr (kheap st); Done (set_heap h st)
    else Stop Panic.

(** ** The invariant *)

(** The nodes [ns], in list order, have the sizes [szs]. *)
Record kinv_upto (st : kstate S) (F : gmap Z (list Z)) (ns szs : list Z) : Prop := {
  ki_heap : ∃ A L, slab_inv (kheap st) A L F;
  ki_list : ∃ KL, lists_ok (klinks st) KL ∧ KL !! KHead = Some (KNode <$> ns) ∧ dom KL = {[KHead]};
  ki_node p : p ∈ ns → ∃ nd, knodes st !! p = Some nd ∧
    live_ptr (kheap st) F (kmalloc_node_cache st) p ∧
    (cn_cache nd ≠ 0 → cn_cache nd ≠ kmalloc_node_cache st ∧ ∃ k,
       caches (kheap st) !! cn_cache nd = Some k ∧ object_size k = cn_size nd);
  ki_sizes : (λ p, cn_size <$> knodes st !! p) <$> ns = Some <$> szs
}.

Record kinv (st : kstate S) (F : gmap Z (list Z)) (ns : list Z) : Prop := {
  ki_init : kmalloc_initialized st = true;
  ki_cache p nd : p ∈ ns → knodes st !! p = Some nd → cn_cache nd ≠ 0;
  ki_upto : kinv_upto st F ns (reverse KMALLOC_SIZES)
}.

(** The smallest class that holds [size] bytes. *)
Definition size_class (size z : Z) : Prop :=
  z ∈ KMALLOC_SIZES ∧ size <= z ∧ ∀ z', z' ∈ KMALLOC_SIZES → size <= z' → z <= z'.

(** The loop leaves the smallest sufficient node. *)
Lemma best_loop size ns st best :
  (∀ p, p ∈ ns → is_Some (knodes st !! p)) → ∃ r,
  each (best_body size) (KNode <$> ns) (st, best) = Done ((st, r), None) ∧
  (∀ nd, r = Some nd → (best = Some nd ∨ (size <= cn_size nd ∧ ∃ p, p ∈ ns ∧ knodes st !! p = Some nd)) ∧
     (∀ b, best = Some b → cn_size nd <= cn_size b) ∧
     ∀ p x, p ∈ ns → knodes st !! p = Some x → size <= cn_size x → cn_size nd <= cn_size x) ∧
  (r = None → best = None ∧
     ∀ p x, p ∈ ns → knodes st !! p = Some x → cn_size x < size).
Proof.
  revert best. induction ns as [|q ns IH]; intros best Hin.
  { exists best. split; [done|]. split.
    - intros nd ->. split; [by left|]. split; [by intros b [= ->]|set_solver].
    - intros ->. split; [done|set_solver]. }
  destruct (Hin q) as [nq Eq]; [set_solver|]. cbn [fmap list_fmap each best_body].
  simpl fst. rewrite Eq. rsimpl. simpl snd.
  set (best' := if better size nq best then Some nq else best).
  destruct (IH best') as (r & Er & H1 & H2); [set_solver|].
  exists r. split.
  { unfold best' in Er. destruct (better size nq best); [exact Er|].
    rewrite <- Er. done. }
  assert ((best' = Some nq ∧ size <= cn_size nq ∧ ∀ b, best = Some b → cn_size nq < cn_size b) ∨
    (best' = best ∧ (size <= cn_size nq → ∃ b, best = Some b ∧ cn_size b <= cn_size nq))) as Hb.
  { unfold best', better. destruct (size <=? cn_size nq) eqn:E1; simpl; breflect.
    - destruct best as [b|]; [destruct (cn_size nq <? cn_size b) eqn:E2; breflect|].
      + left. split_and!; try done. by intros ? [= <-].
      + right. split; [done|]. intros _. by exists b.
      + by left.
    - right. split; [done|]. lia. }
  split.
  - intros nd ->. destruct (H1 nd eq_refl) as (Ha & Hc & Hd). split_and!.
    + destruct Ha as [Ha|(? & p & ? & ?)]; [|right; split; [done|exists p; split; [set_solver|done]]].
      destruct Hb as [(E & ? & _)|[E _]]; rewrite Ha in E; [|by left].
      injection E as ->. right. split; [done|]. exists q. split; [set_solver|done].
    + intros b ->. destruct Hb as [(E & _ & Hlt)|[E _]]; [|by apply Hc].
      specialize (Hc _ E). specialize (Hlt _ eq_refl). lia.
    + intros p x [->|Hp]%elem_of_cons Ex Hs; [|by eapply Hd].
      assert (x = nq) as -> by congruence. destruct Hb as [(E & _ & _)|[E Hle]]; [by apply Hc|].
      destruct (Hle Hs) as (b & -> & ?). specialize (Hc _ E). lia.
  - intros ->. destruct (H2 eq_refl) as [Ha Hd].
    destruct Hb as [(E & _ & _)|[E Hle]]; [congruence|]. split; [congruence|].
    intros p x [->|Hp]%elem_of_cons Ex; [|by eapply Hd]. assert (x = nq) as -> by congruence.
    destruct (decide (size <= cn_size nq)) as [Hs|]; [|lia]. destruct (Hle Hs) as (b & ? & _). congruence.
Qed.

Context `{!PageAllocatorLaws S}.

Lemma kinv_heap st F ns szs h F' :
  kinv_upto st F ns szs → (∃ A L, slab_inv h A L F') →
  same_caches (caches (kheap st)) (caches h) →
  (∀ p, live_ptr (kheap st) F (kmalloc_node_cache st) p → live_ptr h F' (kmalloc_node_cache st) p) →
  kinv_upto (set_heap h st) F' ns szs.
Proof.
  intros [_ KL KN KS] Hh Hc Hl. split; simpl; try done. intros p Hp.
  destruct (KN p Hp) as (nd & ? & ? & Hn). exists nd. split_and!; [done|auto|].
  intros Hnn. destruct (Hn Hnn) as (? & k & Hk & Eo). destruct (Hc _ _ Hk) as (k' & Hk' & Sk & _).
  split; [done|]. exists k'. split; [done|congruence].
Qed.

Lemma ki_nodes_some st F ns szs p : kinv_upto st F ns szs → p ∈ ns → is_Some (knodes st !! p).
Proof. intros [_ _ KN _] Hp. destruct (KN p Hp) as (nd & ? & _). eauto. Qed.

Lemma ki_size_in st F ns szs z :
  kinv_upto st F ns szs → z ∈ szs → ∃ p nd, p ∈ ns ∧ knodes st !! p = Some nd ∧ cn_size nd = z.
Proof.
  intros [_ _ _ KS] Hz. assert (Some z ∈ Some <$> szs) as Hin by by apply list_elem_of_fmap_2.
  rewrite <- KS in Hin. apply list_elem_of_fmap in Hin as (p & E & Hp). exists p.
  destruct (knodes st !! p) as [nd|]; [|done]. injection E as E. by exists nd.
Qed.

Lemma ki_in_sizes st F ns szs p nd :
  kinv_upto st F ns szs → p ∈ ns → knodes st !! p = Some nd → cn_size nd ∈ szs.
Proof.
  intros [_ _ _ KS] Hp Hn.
  assert (Some (cn_size nd) ∈ (λ p, cn_size <$> knodes st !! p) <$> ns) as Hin.
  { apply list_elem_of_fmap. exists p. by rewrite Hn. }
  rewrite KS in Hin. apply list_elem_of_fmap in Hin as (z & [= ->] & Hz). done.
Qed.

Lemma best_ok st F ns size : kinv st F ns → ∃ r,
  list_for_each (λ s, klinks s.1) (best_body size) KHead (st, None) = Done ((st, r), None) ∧
  match r with
  | Some nd => size_class size (cn_size nd) ∧ ∃ p, p ∈ ns ∧ knodes st !! p = Some nd
  | None => ∀ z, z ∈ KMALLOC_SIZES → z < size
  end.
Proof.
  intros [Hi _ K]. destruct (ki_list _ _ _ _ K) as (KL & OK & EL & _).
  assert (∀ z, z ∈ reverse KMALLOC_SIZES ↔ z ∈ KMALLOC_SIZES) as Hrev by (intros; apply elem_of_reverse).
  rewrite (list_for_each_read (λ s, klinks s.1) (best_body size) KHead (KNode <$> ns) (st, None)
    KL OK EL).
  2:{ intros [|p] s1 s2 r E; [done|]. unfold best_body in E. run_inv E. by case_if_in E; simplify_eq. }
  destruct (best_loop size ns st None) as (r & Er & H1 & H2).
  { intros p Hp. by eapply ki_nodes_some. }
  exists r. split; [done|]. destruct r as [nd|].
  - destruct (H1 nd eq_refl) as ([|(Hs & p & Hp & En)] & _ & Hmin); [done|]. split; [|eauto].
    split_and!; [apply Hrev; by eapply ki_in_sizes|done|]. intros z Hz%Hrev Hle.
    destruct (ki_size_in _ _ _ _ _ K Hz) as (q & nq & Hq & Eq & <-). by eapply Hmin.
  - destruct (H2 eq_refl) as [_ Hall]. intros z Hz%Hrev.
    destruct (ki_size_in _ _ _ _ _ K Hz) as (q & nq & Hq & Eq & <-). by eapply Hall.
Qed.

Lemma kmalloc_ok st F ns size :
  kinv st F ns →
  (kmalloc size st = Stop Panic ∧ ∀ z, z ∈ KMALLOC_SIZES → z < size) ∨
  (∃ z c k st' p F', size_class size z ∧ c ≠ kmalloc_node_cache st ∧
     caches (kheap st') !! c = Some k ∧ object_size k = z ∧
     kmalloc size st = Done (st', p) ∧ kinv st' F' ns ∧
     kmalloc_node_cache st' = kmalloc_node_cache st ∧
     ((p = 0 ∧ ∀ c' q, live_ptr (kheap st') F' c' q ↔ live_ptr (kheap st) F c' q) ∨
      (p ≠ 0 ∧ ¬ live_ptr (kheap st) F c p ∧
       ∀ c' q, live_ptr (kheap st') F' c' q ↔ live_ptr (kheap st) F c' q ∨ (c' = c ∧ q = p)))).
Proof.
  intros K. unfold kmalloc. rewrite (ki_init _ _ _ K). rsimpl.
  destruct (best_ok _ _ _ size K) as ([nd|] & Eb & Hb); rstep Eb; [right|by left].
  destruct Hb as (Hcl & q & Hq & En). destruct (ki_upto _ _ _ K) as [(A & L & I) KL KN KS].
  destruct (KN q Hq) as (nd' & En' & Hlq & Hn). assert (nd' = nd) as -> by congruence.
  destruct Hn as (Hne & k & Hk & Eo); [by eapply ki_cache|].
  destruct (kmemcache_alloc_ok _ _ _ _ _ _ I Hk) as (h & p & A' & L' & F' & Ea & I' & S1 & S2 & Hlp).
  rstep Ea. destruct (S1 _ _ Hk) as (k' & Hk' & Sk & _).
  exists (cn_size nd), (cn_cache nd), k', (set_heap h st), p, F'.
  split_and!; try done; [congruence|]. split; [apply K|apply K|].
  apply (kinv_heap _ F); [apply K|eauto|done|]. intros p' Hp'.
  destruct Hlp as [[-> Hlp]|(? & _ & Hlp)]; apply Hlp; tauto.
Qed.

Lemma kfree_ok st F ns c p :
  kinv st F ns → live_ptr (kheap st) F c p → c ≠ kmalloc_node_cache st → ∃ st' F',
    kfree p st = Done st' ∧ kinv st' F' ns ∧ kmalloc_node_cache st' = kmalloc_node_cache st ∧
    (∀ c' q, live_ptr (kheap st) F c' q ↔ live_ptr (kheap st') F' c' q ∨ (c' = c ∧ q = p)) ∧
    ¬ live_ptr (kheap st') F' c p.
Proof.
  intros K Hl Hc. destruct (ki_upto _ _ _ K) as [(A & L & I) KL KN KS].
  destruct (kmemcache_free_ok _ _ _ _ _ _ I Hl) as (h & A' & L' & F' & Ef & I' & S1 & S2 & Hlp & Hnl).
  unfold kfree. rewrite (ki_init _ _ _ K). pose proof Ef as Ef'. unfold kmemcache_free in Ef'.
  destruct (p =? 0) eqn:Ep; [injection Ef'; done|].
  run_inv Ef'. rewrite Hx. rsimpl. run_inv Ef'. unfold is_valid_slab. rewrite Hx0. rsimpl.
  case_if_in Ef'; [done|]. assert (magic x0 =? SLAB_MAGIC = true) as -> by (apply Z.eqb_eq; lia).
  cbn [negb]. rstep Ef.
  exists (set_heap h st), F'. split_and!; try done. split; [apply K|apply K|].
  apply (kinv_heap _ F); [apply K|eauto|done|]. intros q Hq.
  apply Hlp in Hq as [|[? _]]; [done|congruence].
Qed.

(** ** Initialisation *)

Lemma live_ptr_cache_some h F c p : live_ptr (S:=S) h F c p → is_Some (caches h !! c).
Proof. intros (a & x & k & fl & i & _ & _ & Hk & _). eauto. Qed.

Lemma link_node st KL ns node :
  lists_ok (klinks st) KL → KL !! KHead = Some (KNode <$> ns) → dom KL = {[KHead]} →
  node ∉ ns → ∃ l KL',
  list_add (KNode node) KHead (<[KNode node := Links None None]> (klinks (S:=S) st)) = Done l ∧
  lists_ok l KL' ∧ KL' !! KHead = Some (KNode <$> (node :: ns)) ∧ dom KL' = {[KHead]}.
Proof.
  intros OK EL D Hni. assert (detached KL (KNode node)) as Hd.
  { intros h xs E. assert (h ∈ dom KL) as Hh by by apply elem_of_dom_2 in E.
    rewrite D in Hh. apply elem_of_singleton in Hh as ->. assert (xs = KNode <$> ns) as -> by congruence.
    intros [|Hin]%elem_of_cons; [done|]. apply list_elem_of_fmap in Hin as (q & [= ->] & ?). done. }
  destruct (list_add_ok _ _ _ _ _ (lists_ok_detached _ _ _ (Links None None) OK Hd) EL Hd)
    as (l & El & OK' & _); [rewrite lookup_insert_eq; eauto|].
  eexists l, _. split; [done|]. split; [exact OK'|]. split; [by rewrite lookup_insert_eq|].
  rewrite dom_insert_lookup_L by (rewrite EL; eauto). done.
Qed.

Lemma CREATE_CACHE_ok st F ns szs sz st' :
  kinv_upto st F ns szs → is_Some (caches (kheap st) !! kmalloc_node_cache st) →
  0 <= sz <= 2 ^ 27 → CREATE_CACHE sz st = Done st' → ∃ F' node,
    kinv_upto st' F' (node :: ns) (sz :: szs) ∧
    is_Some (caches (kheap st') !! kmalloc_node_cache st').
Proof.
  intros K [k0 Hk0] Hsz. destruct K as [(A & L & I) (KL & OK & EL & D) KN KS]. unfold CREATE_CACHE.
  destruct (kmemcache_alloc_ok _ _ _ _ _ _ I Hk0) as (h & p & A1 & L1 & F1 & Ea & I1 & S1 & S2 & Hlp).
  rstep Ea. case_if; [done|]. destruct Hlp as [[? _]|(_ & Hnl & Hlp)]; [done|].
  destruct (kmemcache_create_ok h A1 L1 F1 (Some (class_name sz)) sz None None I1 Hsz)
    as (h2 & c & A2 & L2 & Ec & I2 & Hlp2 & Hc). rstep Ec.
  assert (p ∉ ns) as Hni. { intros Hp. destruct (KN p Hp) as (nd & _ & Hl & _). done. }
  destruct (link_node st KL ns p OK EL D Hni) as (l & KL' & El & OK' & EL' & D'). rstep El.
  intros [= <-]. destruct (S1 _ _ Hk0) as (k1 & Hk1 & Sk).
  assert (∀ c' k, caches h !! c' = Some k → caches h2 !! c' = Some k) as Hcc.
  { intros c' k Hk. destruct Hc as [[_ ->]|(_ & Hn & o & ->)]; [done|].
    rewrite lookup_insert_ne; [done|congruence]. }
  exists F1, p. split; [|simpl; eauto]. split; simpl; try done.
  - eauto.
  - eauto.
  - intros q [->|Hq]%elem_of_cons.
    + exists (CNode c sz). rewrite lookup_insert_eq. split_and!; [done|apply Hlp2, Hlp; tauto|].
      simpl. intros Hc0. destruct Hc as [[? _]|(_ & Hn & o & ->)]; [done|].
      split; [congruence|]. eexists. by rewrite lookup_insert_eq.
    + destruct (KN q Hq) as (nd & En & Hl & Hcn). exists nd.
      rewrite lookup_insert_ne by (intros ->; done). split_and!; [done|apply Hlp2, Hlp; tauto|].
      intros Hnn. destruct (Hcn Hnn) as (? & k & Hk & Eo). destruct (S1 _ _ Hk) as (k' & Hk' & Sk').
      split; [done|]. exists k'. split; [auto|]. destruct Sk' as (Eob & _). congruence.
  - rewrite lookup_insert_eq. f_equal. etransitivity; [|exact KS]. apply list_fmap_ext.
    intros i q Hq. rewrite lookup_insert_ne; [done|]. intros ->. by apply list_elem_of_lookup_2 in Hq.
Qed.

Lemma create_caches_ok szs st F ns szs0 st' :
  kinv_upto st F ns szs0 → is_Some (caches (kheap st) !! kmalloc_node_cache st) →
  (∀ z, z ∈ szs → 0 <= z <= 2 ^ 27) → create_caches szs st = Done st' → ∃ F' ns',
    kinv_upto st' F' ns' (reverse szs ++ szs0).
Proof.
  revert st F ns szs0. induction szs as [|z szs IH]; intros st F ns szs0 K Hc Hz E.
  { injection E as <-. eauto. }
  cbn [create_caches] in E. run_inv E.
  destruct (CREATE_CACHE_ok _ _ _ _ _ _ K Hc (Hz z ltac:(set_solver)) Hx) as (F1 & node & K1 & Hc1).
  destruct (IH _ _ _ _ K1 Hc1) as (F' & ns' & K'); [set_solver|done|].
  exists F', ns'. by rewrite reverse_cons, <- app_assoc.
Qed.

Lemma kmalloc_init_ok st st' A L F :
  slab_inv (kheap st) A L F → is_Some (klinks st !! KHead) → kmalloc_init st = Done st' →
  (∃ p nd, knodes st' !! p = Some nd ∧ cn_cache nd = 0) ∨ ∃ F' ns, kinv st' F' ns.
Proof.
  intros I Hh. unfold kmalloc_init.
  destruct (InitListHead_ok (klinks st) ∅ KHead) as (l & El & OK & _).
  { by split. } { by intros ???. } { done. }
  rstep El. destruct (kmemcache_create_ok _ _ _ _ (Some [107; 109; 97; 108; 108; 111; 99; 95; 110; 111; 100; 101])
    SIZEOF_CACHE_NODE None None I) as (h & c & A' & L' & Ec & I' & Hlp & Hc);
    [unfold SIZEOF_CACHE_NODE; lia|]. rstep Ec.
  intros E. run_inv E. injection E as <-.
  destruct (caches h !! c) as [k|] eqn:Hcs.
  2:{ change KMALLOC_SIZES with (8 :: tail KMALLOC_SIZES) in Hx. cbn [create_caches] in Hx.
      run_inv Hx. unfold CREATE_CACHE, kmemcache_alloc, pick_slab in Hx0. cbn [kheap kmalloc_node_cache] in Hx0.
      by rewrite Hcs in Hx0. }
  destruct (create_caches_ok KMALLOC_SIZES (KState h (knodes st) l (kmalloc_initialized st) c)
    F [] [] x) as (F' & ns & [K1 K2 K3 K4]); [|simpl; eauto| |done|].
  { split; simpl; try done; [eauto| |set_solver]. exists {[KHead := []]}.
    split_and!; [done|apply lookup_singleton_eq|apply dom_singleton_L]. }
  { intros z Hz. unfold KMALLOC_SIZES in Hz. repeat apply elem_of_cons in Hz as [->|Hz]; [lia..|].
    by apply elem_of_nil in Hz. }
  rewrite app_nil_r in K4.
  destruct (decide (Exists (λ p, (cn_cache <$> knodes x !! p) = Some 0) ns)) as [He|Hne].
  - left. apply Exists_exists in He as (p & Hp & E). destruct (knodes x !! p) as [nd|] eqn:En; [|done].
    injection E as E. by exists p, nd.
  - right. exists F', ns. split; [done| |by split].
    intros p nd Hp En E0. apply Hne, Exists_exists. exists p. simpl in En. by rewrite En, <- E0.
Qed.
End kmalloc.

(** ** Properties *)

(** On an initialised allocator [kmalloc size] takes an object of the
    smallest of the fifteen classes that is at least [size], whatever the
    order of the class list; it panics exactly when no class is large enough
    (more than 128 KiB), returns [NULL] with nothing changed when the pages
    run out, and otherwise returns an object that was not handed out, adding
    just that one, and keeps the invariant. *)
Theorem kmalloc_best_fit {P} `{PageAllocatorLaws P} (st : kstate P) F ns size :
  kinv st F ns →
  (kmalloc size st = Stop Panic ∧ ∀ z, z ∈ KMALLOC_SIZES → z < size) ∨
  (∃ z c k st' p F', size_class size z ∧ c ≠ kmalloc_node_cache st ∧
     caches (kheap st') !! c = Some k ∧ object_size k = z ∧
     kmalloc size st = Done (st', p) ∧ kinv st' F' ns ∧
     kmalloc_node_cache st' = kmalloc_node_cache st ∧
     ((p = 0 ∧ ∀ c' q, live_ptr (kheap st') F' c' q ↔ live_ptr (kheap st) F c' q) ∨
      (p ≠ 0 ∧ ¬ live_ptr (kheap st) F c p ∧
       ∀ c' q, live_ptr (kheap st') F' c' q ↔ live_ptr (kheap st) F c' q ∨ (c' = c ∧ q = p)))).
Proof. apply kmalloc_ok. Qed.

(** Releasing the result of [kmalloc] succeeds and leaves the set of
    objects handed out as it was before the allocation. *)
Theorem kmalloc_kfree {P} `{PageAllocatorLaws P} (st st' : kstate P) F ns size p :
  kinv st F ns → kmalloc size st = Done (st', p) → ∃ st'' F'',
    kfree p st' = Done st'' ∧ kinv st'' F'' ns ∧
    (∀ c q, live_ptr (kheap st'') F'' c q ↔ live_ptr (kheap st) F c q).
Proof.
  intros K E. destruct (kmalloc_ok st F ns size K)
    as [[E' _]|(z & c & k & st1 & p1 & F1 & _ & Hc & _ & _ & E' & K1 & Enc & Hlp)]; [congruence|].
  rewrite E in E'. injection E' as <- <-. destruct Hlp as [[-> Hlp]|(Hp & Hn & Hlp)].
  - exists st', F1. by split_and!.
  - destruct (kfree_ok st' F1 ns c p K1) as (st2 & F2 & Ef & K2 & _ & Hlp2 & Hn2).
    + apply Hlp. by right.
    + congruence.
    + exists st2, F2. split_and!; try done. intros c' q.
      specialize (Hlp c' q). specialize (Hlp2 c' q).
      destruct (decide (c' = c ∧ q = p)) as [[-> ->]|]; tauto.
Qed.

(** [kmalloc_init], started on the empty class list, either stops on a
    null pointer, or leaves a node whose cache is [NULL] (a page allocation
    failed and the code does not look), or establishes the invariant: one
    node and one cache per size class. *)
Theorem kmalloc_init_classes {P} `{PageAllocatorLaws P} (st st' : kstate P) A L F :
  slab_inv (kheap st) A L F → is_Some (klinks st !! KHead) → kmalloc_init st = Done st' →
  (∃ p nd, knodes st' !! p = Some nd ∧ cn_cache nd = 0) ∨ ∃ F' ns, kinv st' F' ns.
Proof. apply kmalloc_init_ok. Qed.

(** ** Witnesses: over the buddy allocator *)

#[local] Opaque kmalloc_init kmalloc kfree.

#[local] Instance demo_kpages : page_allocator buddy_allocator := buddy_pages demo_hhdm 128.

#[local] Instance demo_kpages_laws : PageAllocatorLaws buddy_allocator.
Proof. by apply buddy_pages_laws. Qed.

Definition demo_kstate0 : kstate buddy_allocator :=
  KState demo_heap0 ∅ {[KHead := Links (Some KHead) (Some KHead)]} false 0.

Definition demo_kstate : kstate buddy_allocator :=
  match kmalloc_init demo_kstate0 with Done st => st | Stop _ => demo_kstate0 end.

Lemma demo_kstate_runs :
  match kmalloc_init demo_kstate0 with
  | Done st => forallb (λ x, negb (cn_cache x.2 =? 0)) (map_to_list (knodes st)) &&
               match kmalloc 100 st with Done _ => true | Stop _ => false end
  | Stop _ => false
  end = true.
Proof. vm_compute. reflexivity. Qed.

Lemma demo_kstate_init : kmalloc_init demo_kstate0 = Done demo_kstate.
Proof.
  pose proof demo_kstate_runs as H. unfold demo_kstate.
  destruct (kmalloc_init demo_kstate0); [reflexivity|discriminate H].
Qed.

#[local] Opaque demo_kstate.

Lemma demo_kinv : ∃ F ns, kinv demo_kstate F ns.
Proof.
  destruct (kmalloc_init_ok demo_kstate0 demo_kstate [] ∅ ∅ demo_heap0_inv)
    as [(p & nd & Hp & Hz)|HK];
    [exists (Links (Some KHead) (Some KHead)); reflexivity|exact demo_kstate_init| |exact HK].
  exfalso. pose proof demo_kstate_runs as H. rewrite demo_kstate_init in H. apply andb_true_iff in H as [H _].
  rewrite forallb_forall in H.
  assert (negb (cn_cache nd =? 0) = true) as Hb.
  { apply (H (p, nd)). apply (proj1 (list_elem_of_In _ _)), elem_of_map_to_list. exact Hp. }
  rewrite Hz in Hb. discriminate Hb.
Qed.

Lemma kmalloc_best_fit_witness : ∃ F ns, kinv demo_kstate F ns ∧
  ((kmalloc 100 demo_kstate = Stop Panic ∧ ∀ z, z ∈ KMALLOC_SIZES → z < 100) ∨
   (∃ z c k st' p F', size_class 100 z ∧ c ≠ kmalloc_node_cache demo_kstate ∧
     caches (kheap st') !! c = Some k ∧ object_size k = z ∧
     kmalloc 100 demo_kstate = Done (st', p) ∧ kinv st' F' ns ∧
     kmalloc_node_cache st' = kmalloc_node_cache demo_kstate ∧
     ((p = 0 ∧ ∀ c' q, live_ptr (kheap st') F' c' q ↔ live_ptr (kheap demo_kstate) F c' q) ∨
      (p ≠ 0 ∧ ¬ live_ptr (kheap demo_kstate) F c p ∧
       ∀ c' q, live_ptr (kheap st') F' c' q ↔
         live_ptr (kheap demo_kstate) F c' q ∨ (c' = c ∧ q = p))))).
Proof.
  destruct demo_kinv as (F & ns & K). exists F, ns. split; [exact K|].
  exact (kmalloc_best_fit demo_kstate F ns 100 K).
Defined.

Lemma kmalloc_kfree_witness : ∃ F ns st' p st'' F'',
  kmalloc 100 demo_kstate = Done (st', p) ∧ kfree p st' = Done st'' ∧ kinv st'' F'' ns ∧
  (∀ c q, live_ptr (kheap st'') F'' c q ↔ live_ptr (kheap demo_kstate) F c q).
Proof.
  destruct demo_kinv as (F & ns & K). pose proof demo_kstate_runs as H.
  rewrite demo_kstate_init in H. apply andb_true_iff in H as [_ H0].
  destruct (kmalloc 100 demo_kstate) as [[st' p]|] eqn:E; [|discriminate H0].
  destruct (kmalloc_kfree demo_kstate st' F ns 100 p K E) as (st'' & F'' & R).
  exists F, ns, st', p, st'', F''. exact (conj eq_refl R).
Defined.

Lemma kmalloc_init_classes_witness :
  (∃ p nd, knodes demo_kstate !! p = Some nd ∧ cn_cache nd = 0) ∨ ∃ F ns, kinv demo_kstate F ns.
Proof.
  apply (kmalloc_init_classes demo_kstate0 demo_kstate [] ∅ ∅).
  - exact demo_heap0_inv.
  - exists (Links (Some KHead) (Some KHead)). reflexivity.
  - exact demo_kstate_init.
Defined.
