(* ===== verification/PgTable.v ===== *)
(** * Page tables (lizard/pgtable.c, lizard/vmm.c)

    The four-level tables live in memory, a map from the address of a 64-bit
    word to its value; reading or writing a word that is not there is a
    [Fault]. Frames come from the page allocator through its interface and are
    reached at their higher-half alias. The TLB and CR3 are hardware: [invlpg]
    has no effect here and [pgtable_switch] records the root. *)

From S2P Require Import Prelude ListHead Helpers EarlyAlloc PageAlloc Buddy.

Local Open Scope Z_scope.

Definition KERNEL_PML4_INDEX : Z := 256.
Definition PAGE_PRESENT : Z := 1.
Definition PAGE_WRITABLE : Z := 2.
Definition PAGE_USER : Z := 4.
Definition PAGE_HUGE : Z := 128.

Record vm (S : Type) := Vm {
  v_pgs : S;
  mem : gmap Z Z;
  current_pml4 : Z;
  kernel_pml4 : Z;
  cr3 : Z
}.
Arguments Vm {_} _ _ _ _ _.
Arguments v_pgs {_} _.
Arguments mem {_} _.
Arguments current_pml4 {_} _.
Arguments kernel_pml4 {_} _.
Arguments cr3 {_} _.

Definition present (e : Z) : bool := negb (Z.land e PAGE_PRESENT =? 0).

(** [e & ~0xFFFUL]. *)
Definition frame (e : Z) : Z := Z.land e 0xFFFFFFFFFFFFF000.

(** The four table indices of an address. *)
Definition pml4_i (va : Z) : Z := Z.land (Z.shiftr va 39) 0x1FF.
Definition pdpt_i (va : Z) : Z := Z.land (Z.shiftr va 30) 0x1FF.
Definition pd_i (va : Z) : Z := Z.land (Z.shiftr va 21) 0x1FF.
Definition pt_i (va : Z) : Z := Z.land (Z.shiftr va 12) 0x1FF.

Section pgtable.
Context {S : Type} `{!page_allocator S}.
Variable hhdm_offset : Z.

Definition set_vpgs (p : S) (s : vm S) : vm S := Vm p (mem s) (current_pml4 s) (kernel_pml4 s) (cr3 s).
Definition set_mem (m : gmap Z Z) (s : vm S) : vm S := Vm (v_pgs s) m (current_pml4 s) (kernel_pml4 s) (cr3 s).

(** [table[i]]. *)
Definition load (table i : Z) (s : vm S) : run Z := access (mem s !! (table + 8 * i)).

Definition store (table i v : Z) (s : vm S) : run (vm S) :=
  _ ← load table i s; Done (set_mem (<[table + 8 * i := v]> (mem s)) s).

(** [memset(page, 0, PAGE_SIZE)]: 512 words. *)
Fixpoint zero_words (n : nat) (p : Z) (m : gmap Z Z) : gmap Z Z :=
  match n with
  | O => m
  | Datatypes.S n => zero_words n p (<[p + 8 * Z.of_nat n := 0]> m)
  end.

Definition pgtable_alloc_table (s : vm S) : run (vm S * Z) :=
  '(p, page) ← pa_alloc 0 (v_pgs s);
  if page =? 0 then Stop Fault
  else Done (set_mem (zero_words 512 page (mem s)) (set_vpgs p s), page).

Definition buddy_release (vaddr : Z) (s : vm S) : run (vm S) :=
  p ← pa_free vaddr 0 (v_pgs s); Done (set_vpgs p s).

Definition pgtable_free (vaddr : Z) (s : vm S) : run (vm S) :=
  if vaddr =? 0 then Done s else buddy_release vaddr s.

(** The higher-half alias of the frame an entry points to. *)
Definition entry_va (e : Z) : Z := u64 (frame e + hhdm_offset).

(** The table below entry [i] of [table], created when it is not there. *)
Definition next_table (table i fl : Z) (s : vm S) : run (vm S * Z) :=
  e ← load table i s;
  if negb (present e) then
    '(s, t) ← pgtable_alloc_table s;
    s ← store table i (Z.lor (u64 (t - hhdm_offset)) fl) s;
    Done (s, t)
  else Done (s, entry_va e).

Definition pgtable_map (pml4 vaddr paddr fl : Z) (s : vm S) : run (vm S) :=
  let vaddr := align_ptr_down vaddr PAGE_SIZE in
  let paddr := align_ptr_down paddr PAGE_SIZE in
  '(s, pdpt) ← next_table pml4 (pml4_i vaddr) fl s;
  '(s, pd) ← next_table pdpt (pdpt_i vaddr) fl s;
  '(s, pt) ← next_table pd (pd_i vaddr) fl s;
  store pt (pt_i vaddr) (Z.lor paddr fl) s.

Fixpoint pgtable_maprange (pml4 vaddr paddr : Z) (pages : nat) (fl : Z) (s : vm S) : run (vm S) :=
  match pages with
  | O => Done s
  | Datatypes.S n =>
      s ← pgtable_map pml4 vaddr paddr fl s;
      pgtable_maprange pml4 (u64 (vaddr + PAGE_SIZE)) (u64 (paddr + PAGE_SIZE)) n fl s
  end.

Definition pgtable_kva (pml4 vaddr : Z) (s : vm S) : run Z :=
  let off := Z.land vaddr 0xFFF in
  e3 ← load pml4 (pml4_i vaddr) s;
  if negb (present e3) then Done 0 else
  e2 ← load (entry_va e3) (pdpt_i vaddr) s;
  if negb (present e2) then Done 0 else
  e1 ← load (entry_va e2) (pd_i vaddr) s;
  if negb (present e1) then Done 0 else
  e0 ← load (entry_va e1) (pt_i vaddr) s;
  if negb (present e0) then Done 0 else Done (u64 (entry_va e0 + off)).

Definition pgtable_is_mapped (pml4 vaddr : Z) (s : vm S) : run Z :=
  let vaddr := align_ptr_down vaddr PAGE_SIZE in
  e3 ← load pml4 (pml4_i vaddr) s;
  if negb (present e3) then Done 0 else
  e2 ← load (entry_va e3) (pdpt_i vaddr) s;
  if negb (present e2) then Done 0 else
  e1 ← load (entry_va e2) (pd_i vaddr) s;
  if negb (present e1) then Done 0 else
  e0 ← load (entry_va e1) (pt_i vaddr) s;
  if negb (present e0) then Done 0 else Done 1.

(** Is no entry present? The scan stops at the first one that is. *)
Fixpoint table_empty_from (n : nat) (i table : Z) (s : vm S) : run bool :=
  match n with
  | O => Done true
  | Datatypes.S n =>
      e ← load table i s;
      if present e then Done false else table_empty_from n (i + 1) table s
  end.

Definition pgtable_table_empty (table : Z) (s : vm S) : run bool := table_empty_from 512 0 table s.

(** [pgtable_unmap] follows the three upper entries before it tests any of
    the present bits; the tests then stop at the first clear one. *)
Definition pgtable_unmap (pml4 vaddr : Z) (s : vm S) : run (vm S) :=
  let vaddr := align_ptr_down vaddr PAGE_SIZE in
  e3 ← load pml4 (pml4_i vaddr) s;
  let pdpt := entry_va e3 in
  e2 ← load pdpt (pdpt_i vaddr) s;
  let pd := entry_va e2 in
  e1 ← load pd (pd_i vaddr) s;
  let pt := entry_va e1 in
  if negb (present e3) then Done s else
  if negb (present e2) then Done s else
  if negb (present e1) then Done s else
  e0 ← load pt (pt_i vaddr) s;
  if negb (present e0) then Done s else
  s ← store pt (pt_i vaddr) 0 s;
  s ← buddy_release (entry_va e0) s;
  pt_empty ← pgtable_table_empty pt s;
  if negb pt_empty then Done s else
  s ← store pd (pd_i vaddr) 0 s;
  s ← pgtable_free pt s;
  pd_empty ← pgtable_table_empty pd s;
  if negb pd_empty then Done s else
  s ← store pdpt (pdpt_i vaddr) 0 s;
  s ← pgtable_free pd s;
  pdpt_empty ← pgtable_table_empty pdpt s;
  if negb pdpt_empty then Done s else
  s ← store pml4 (pml4_i vaddr) 0 s;
  pgtable_free pdpt s.

(** The loop of [pgtable_free_level] over the entries from [i]; [free] is the
    recursive call on the table below. *)
Fixpoint free_entries (below : Z → vm S → run (vm S)) (leaf : bool) (n : nat) (i table : Z) (s : vm S)
    : run (vm S) :=
  match n with
  | O => Done s
  | Datatypes.S n =>
      e ← load table i s;
      if negb (present e) then free_entries below leaf n (i + 1) table s
      else
        let child := entry_va e in
        s ← (if leaf then buddy_release child s
             else if negb (Z.land e PAGE_HUGE =? 0) then Done s
             else s ← below child s; pgtable_free child s);
        s ← store table i 0 s;
        free_entries below leaf n (i + 1) table s
  end.

(** [level] counts down to the page tables. *)
Fixpoint pgtable_free_level (level : nat) (table : Z) (s : vm S) : run (vm S) :=
  match level with
  | O => free_entries (λ _ s, Done s) true 512 0 table s
  | Datatypes.S l =>
      free_entries (pgtable_free_level l) false
        (if (level =? 3)%nat then Z.to_nat KERNEL_PML4_INDEX else 512%nat) 0 table s
  end.

Definition pgtable_free_tree (pml4 : Z) (s : vm S) : run (vm S) :=
  if pml4 =? 0 then Done s
  else s ← pgtable_free_level 3 pml4 s; pgtable_free pml4 s.

(** [pml4[i] = k_pml4[i]] for the kernel half. *)
Fixpoint copy_entries (n : nat) (i dst src : Z) (s : vm S) : run (vm S) :=
  match n with
  | O => Done s
  | Datatypes.S n =>
      e ← load src i s; s ← store dst i e s; copy_entries n (i + 1) dst src s
  end.

Definition pgtable_create (s : vm S) : run (vm S * Z) :=
  '(s, pml4) ← pgtable_alloc_table s;
  s ← copy_entries (Z.to_nat (512 - KERNEL_PML4_INDEX)) KERNEL_PML4_INDEX pml4 (kernel_pml4 s) s;
  Done (s, pml4).

Definition pgtable_switch (pml4 : Z) (s : vm S) : vm S :=
  Vm (v_pgs s) (mem s) (current_pml4 s) (kernel_pml4 s) (u64 (pml4 - hhdm_offset)).

(** ** vmm.c *)

Definition vmm_map_page (vaddr paddr fl : Z) (s : vm S) : run (vm S) :=
  pgtable_map (current_pml4 s) vaddr paddr fl s.

Definition vmm_unmap_page (vaddr : Z) (s : vm S) : run (vm S) :=
  pgtable_unmap (current_pml4 s) vaddr s.

Definition vmm_alloc (pml4 vaddr fl : Z) (s : vm S) : run (vm S * Z) :=
  '(p, ptr) ← pa_alloc 0 (v_pgs s);
  s ← pgtable_map pml4 vaddr (u64 (ptr - hhdm_offset)) fl (set_vpgs p s);
  Done (s, ptr).

Definition vmm_alloc_page (s : vm S) : run (vm S * Z) :=
  '(p, ptr) ← pa_alloc 0 (v_pgs s);
  s ← pgtable_map (current_pml4 s) ptr (u64 (ptr - hhdm_offset))
        (Z.lor PAGE_PRESENT PAGE_WRITABLE) (set_vpgs p s);
  Done (s, ptr).

Definition vmm_free_page (vaddr : Z) (s : vm S) : run (vm S) :=
  pgtable_unmap (current_pml4 s) vaddr s.

Definition vmm_switch_pml4 (pml4 : Z) (s : vm S) : vm S :=
  pgtable_switch pml4 (Vm (v_pgs s) (mem s) pml4 (kernel_pml4 s) (cr3 s)).

(** The memory map, region by region. *)
Fixpoint map_regions (pml4 : Z) (es : list bi_mmap_entry) (s : vm S) : run (vm S) :=
  match es with
  | [] => Done s
  | entry :: es =>
      let start := align_down (base entry) PAGE_SIZE in
      let end_ := align_up (u64 (base entry + len entry)) PAGE_SIZE in
      s ← pgtable_maprange pml4 (u64 (start + hhdm_offset)) start
            (Z.to_nat (u64 (end_ - start) / PAGE_SIZE)) (Z.lor PAGE_PRESENT PAGE_WRITABLE) s;
      map_regions pml4 es s
  end.

(** [kstart] and [kend] are the linker's symbols, [fb] and [fb_len] the
    globals of the framebuffer; clearing the screen is not modelled. *)
Definition vmm_init (bi : option boot_info) (kstart kend fb fb_len : Z) (s : vm S) : run (vm S) :=
  match bi with
  | None => Stop Panic
  | Some bi =>
      '(s, pml4) ← pgtable_alloc_table s;
      let s := Vm (v_pgs s) (mem s) pml4 pml4 (cr3 s) in
      let vstart := align_down kstart PAGE_SIZE in
      let vend := align_up kend PAGE_SIZE in
      let pstart := u64 (kernel_phys_base bi - (kstart - vstart)) in
      let pw := Z.lor PAGE_PRESENT PAGE_WRITABLE in
      s ← pgtable_maprange pml4 vstart pstart (Z.to_nat (u64 (vend - vstart) / PAGE_SIZE)) pw s;
      s ← (if fb_len =? 0 then Done s
           else pgtable_maprange pml4 fb (u64 (fb - hhdm_offset)) (Z.to_nat (fb_len / PAGE_SIZE)) pw s);
      s ← map_regions pml4 (mmap bi) s;
      Done (pgtable_switch pml4 s)
  end.
End pgtable.

(** ** Address arithmetic *)

(** The 36-bit page number the hardware translates. *)
Definition vpn (va : Z) : Z := va / PAGE_SIZE mod 2 ^ 36.

(** The index of page [v] in its table of level [l], and the number of that
    table among those of its level. *)
Definition idx (l v : Z) : Z := v / 512 ^ l mod 512.
Definition pre (l v : Z) : Z := v / 512 ^ (l + 1).

Lemma idx_range l v : 0 <= idx l v < 512.
Proof. apply Z.mod_pos_bound. lia. Qed.

Lemma pre_step l v : 0 <= l → pre l v * 512 + idx l v = v / 512 ^ l.
Proof.
  intros Hl. unfold pre, idx. rewrite Z.pow_add_r by lia. rewrite <- Z.div_div by lia.
  change (512 ^ 1) with 512. pose proof (Z.div_mod (v / 512 ^ l) 512). lia.
Qed.

Lemma pre_next l v : 1 <= l → pre l v * 512 + idx l v = pre (l - 1) v.
Proof. intros. rewrite pre_step by lia. unfold pre. do 2 f_equal. lia. Qed.

Lemma pre_div l v : 1 <= l → pre (l - 1) v / 512 = pre l v.
Proof.
  intros Hl. unfold pre. rewrite Z.sub_add, Z.div_div by lia.
  f_equal. rewrite Z.pow_add_r by lia. done.
Qed.

Lemma pre_3 v : 0 <= v < 2 ^ 36 → pre 3 v = 0.
Proof. intros. apply Z.div_small. simpl. lia. Qed.

Lemma bits_idx va k l : 0 <= l <= 3 → k = 12 + 9 * l →
  Z.land (Z.shiftr va k) 0x1FF = idx l (vpn va).
Proof.
  intros Hl ->. unfold idx, vpn. change 0x1FF with (Z.ones 9). rewrite Z.land_ones by lia.
  replace (512 ^ l) with (2 ^ (9 * l)) by (rewrite Z.pow_mul_r by lia; done).
  change 512 with (2 ^ 9). change PAGE_SIZE with (2 ^ 12).
  apply Z.bits_inj'. intros n Hn. rewrite <- !Z.shiftr_div_pow2, <- !Z.land_ones by lia.
  rewrite !Z.land_spec, !Z.shiftr_spec by lia. rewrite Z.land_spec, Z.shiftr_spec by lia.
  destruct (decide (n < 9)).
  - rewrite (Z.ones_spec_low 36) by lia. rewrite andb_true_r. do 2 f_equal. lia.
  - rewrite (Z.ones_spec_high 9) by lia. by rewrite !andb_false_r.
Qed.

Lemma pml4_i_idx va : pml4_i va = idx 3 (vpn va).
Proof. by apply bits_idx. Qed.
Lemma pdpt_i_idx va : pdpt_i va = idx 2 (vpn va).
Proof. by apply bits_idx. Qed.
Lemma pd_i_idx va : pd_i va = idx 1 (vpn va).
Proof. by apply bits_idx. Qed.
Lemma pt_i_idx va : pt_i va = idx 0 (vpn va).
Proof. by apply bits_idx. Qed.

Lemma vpn_range va : 0 <= vpn va < 2 ^ 36.
Proof. apply Z.mod_pos_bound. lia. Qed.

Lemma vpn_align va : 0 <= va < 2 ^ 64 → vpn (align_ptr_down va PAGE_SIZE) = vpn va.
Proof.
  intros Hv. rewrite page_size_pow, align_ptr_down_spec by lia. unfold vpn, PAGE_SIZE.
  change (2 ^ 12) with 4096. f_equal. pose proof (Z.div_mod va 4096).
  replace (va - va mod 4096) with (va / 4096 * 4096) by lia. apply Z.div_mul. lia.
Qed.

Lemma frame_spec e : 0 <= e < 2 ^ 64 → frame e = e - e mod 4096.
Proof. intros. unfold frame. exact (mask_down e 12 ltac:(lia) H). Qed.

Lemma lor_flags x fl : x mod 4096 = 0 → 0 <= fl < 4096 → Z.lor x fl = x + fl.
Proof.
  intros Hx Hf. pose proof (Z.add_lor_land x fl). cut (Z.land x fl = 0); [lia|].
  apply Z.mod_divide in Hx as [q ->]; [|lia]. apply Z.bits_inj'. intros n Hn.
  rewrite Z.land_spec, Z.bits_0. change 4096 with (2 ^ 12). destruct (decide (n < 12)).
  - by rewrite Z.mul_pow2_bits_low by lia.
  - rewrite andb_comm. rewrite Z.bits_above_log2; [done|lia|].
    destruct (decide (fl = 0)) as [->|]; [simpl; lia|]. apply Z.log2_lt_pow2; [lia|].
    apply (Z.lt_le_trans _ (2 ^ 12)); [lia|]. apply Z.pow_le_mono_r; lia.
Qed.

Lemma present_spec e : present e = Z.testbit e 0.
Proof.
  unfold present, PAGE_PRESENT. change 1 with (Z.ones 1). rewrite Z.land_ones by lia.
  change (2 ^ 1) with 2. rewrite Zmod_odd, Z.bit0_odd. by destruct (Z.odd e).
Qed.

(** An entry built from a page-aligned frame and flags with the present bit. *)
Lemma entry_parts x fl : 0 <= x < 2 ^ 64 → x mod 4096 = 0 → 0 <= fl < 4096 →
  Z.testbit fl 0 = true → frame (Z.lor x fl) = x ∧ present (Z.lor x fl) = true.
Proof.
  intros Hx Hm Hf Hp. split.
  - rewrite lor_flags by done. apply Z.mod_divide in Hm as [q ->]; [|lia].
    assert ((q * 4096 + fl) mod 4096 = fl) as Hr by (rewrite Z.add_comm, Z.mod_add, Z.mod_small; lia).
    rewrite frame_spec by lia. rewrite Hr. lia.
  - rewrite present_spec, Z.lor_spec, Hp. apply orb_true_r.
Qed.

(** ** The invariant

    [G] gives the address of every table: the table of level [l] number [p]
    serves the pages [v] with [pre l v = p]. Level 3 is the root. *)

Section tree.
Context {S : Type} `{!page_allocator S}.
Variable hhdm_offset : Z.

Record tree (s : vm S) (A : list (Z * Z)) (pml4 : Z) (G : gmap (Z * Z) Z) : Prop := {
  tr_own : pa_own (v_pgs s) A;
  tr_root : G !! (3, 0) = Some pml4;
  tr_table l p a : G !! (l, p) = Some a → 0 <= l <= 3 ∧ (l = 3 → p = 0) ∧ (0, a) ∈ A ∧
    ∀ i, 0 <= i < 512 → is_Some (mem s !! (a + 8 * i));
  tr_inj k1 k2 a : G !! k1 = Some a → G !! k2 = Some a → k1 = k2;
  tr_entry l p a i e : G !! (l, p) = Some a → 1 <= l → 0 <= i < 512 →
    mem s !! (a + 8 * i) = Some e →
    G !! (l - 1, p * 512 + i) = if present e then Some (entry_va hhdm_offset e) else None;
  tr_up l p : is_Some (G !! (l, p)) → l < 3 → is_Some (G !! (l + 1, p / 512))
}.

(** The leaf entry of page [v], if it is present: the translation. *)
Definition leaf (s : vm S) (G : gmap (Z * Z) Z) (v : Z) : option Z :=
  a ← G !! (0, pre 0 v); e ← mem s !! (a + 8 * idx 0 v); if present e then Some e else None.

Context `{!PageAllocatorLaws S}.
Hypothesis hhdm_aligned : hhdm_offset mod PAGE_SIZE = 0.

Lemma load_ok s A pml4 G l p a i : tree s A pml4 G → G !! (l, p) = Some a → 0 <= i < 512 →
  ∃ e, load a i s = Done e ∧ mem s !! (a + 8 * i) = Some e.
Proof.
  intros T Ha Hi. destruct (tr_table _ _ _ _ T _ _ _ Ha) as (_ & _ & _ & Hw).
  destruct (Hw i Hi) as [e He]. exists e. unfold load. by rewrite He.
Qed.

Lemma load_walk s A pml4 G l v a : tree s A pml4 G → 1 <= l → G !! (l, pre l v) = Some a →
  ∃ e, load a (idx l v) s = Done e ∧
    G !! (l - 1, pre (l - 1) v) = if present e then Some (entry_va hhdm_offset e) else None.
Proof.
  intros T Hl Ha. destruct (load_ok _ _ _ _ _ _ _ _ T Ha (idx_range l v)) as (e & El & Em).
  exists e. split; [done|]. rewrite <- (tr_entry _ _ _ _ T _ _ _ _ _ Ha Hl (idx_range l v) Em).
  by rewrite pre_next by lia.
Qed.

Lemma no_child s A pml4 G l v : tree s A pml4 G → 0 <= l → G !! (l, pre l v) = None →
  l <= 3 → G !! (0, pre 0 v) = None.
Proof.
  intros T Hl. rewrite <- (Z2Nat.id l) by done. generalize (Z.to_nat l). clear l Hl.
  induction n as [|n IH]; intros Hn H3; [done|]. apply IH; [|lia].
  apply eq_None_not_Some. intros [a Ha].
  destruct (tr_up _ _ _ _ T (Z.of_nat n) (pre (Z.of_nat n) v)) as [b Hb]; [eauto|lia|].
  replace (Z.of_nat n + 1) with (Z.of_nat (Datatypes.S n)) in Hb by lia.
  replace (Z.of_nat n) with (Z.of_nat (Datatypes.S n) - 1) in Hb by lia.
  rewrite pre_div in Hb by lia. congruence.
Qed.

(** [pgtable_kva] computes the translation. *)
Lemma pgtable_kva_ok s A pml4 G va : tree s A pml4 G →
  pgtable_kva hhdm_offset pml4 va s =
  Done (match leaf s G (vpn va) with
        | Some e => u64 (entry_va hhdm_offset e + Z.land va 0xFFF)
        | None => 0
        end).
Proof.
  intros T. unfold pgtable_kva. rewrite pml4_i_idx, pdpt_i_idx, pd_i_idx, pt_i_idx.
  pose proof (vpn_range va) as Hv. set (v := vpn va) in *.
  assert (G !! (3, pre 3 v) = Some pml4) as H3 by (rewrite pre_3 by done; apply T).
  destruct (load_walk _ _ _ _ 3 v pml4 T) as (e3 & -> & E2); [lia|done|]. rsimpl.
  destruct (present e3) eqn:P3; simpl negb; cbn iota.
  2:{ unfold leaf. by rewrite (no_child _ _ _ _ 2 v T) by (done || lia). }
  destruct (load_walk _ _ _ _ 2 v (entry_va hhdm_offset e3) T) as (e2 & -> & E1); [lia|exact E2|]. rsimpl.
  destruct (present e2) eqn:P2; simpl negb; cbn iota.
  2:{ unfold leaf. by rewrite (no_child _ _ _ _ 1 v T) by (done || lia). }
  destruct (load_walk _ _ _ _ 1 v (entry_va hhdm_offset e2) T) as (e1 & -> & E0); [lia|exact E1|]. rsimpl. change (1 - 1) with 0 in E0.
  destruct (present e1) eqn:P1; simpl negb; cbn iota.
  2:{ unfold leaf. by rewrite E0. }
  destruct (load_ok _ _ _ _ 0 _ _ _ T E0 (idx_range 0 v)) as (e0 & -> & M0). rsimpl.
  unfold leaf. rewrite E0. simpl. rewrite M0. simpl. by destruct (present e0).
Qed.

(** ** Writing to the tables *)

Lemma table_apart s A pml4 G k1 k2 a1 a2 i j :
  tree s A pml4 G → G !! k1 = Some a1 → G !! k2 = Some a2 → 0 <= i < 512 → 0 <= j < 512 →
  a1 + 8 * i = a2 + 8 * j → k1 = k2 ∧ a1 = a2 ∧ i = j.
Proof.
  intros T H1 H2 Hi Hj E. destruct k1 as [l1 p1], k2 as [l2 p2].
  destruct (tr_table _ _ _ _ T _ _ _ H1) as (_ & _ & A1 & _).
  destruct (tr_table _ _ _ _ T _ _ _ H2) as (_ & _ & A2 & _).
  destruct (decide (a1 = a2)) as [->|Hne].
  - split; [by eapply tr_inj|]. split; [done|lia].
  - exfalso. apply list_elem_of_lookup in A1 as [x Hx]. apply list_elem_of_lookup in A2 as [y Hy].
    destruct (pa_apart _ _ _ _ _ _ (tr_own _ _ _ _ T) Hx Hy); [congruence|..];
      simpl in *; unfold PAGE_SIZE in *; lia.
Qed.

Lemma table_range s A pml4 G k a : tree s A pml4 G → G !! k = Some a →
  0 < a < 2 ^ 64 ∧ a mod 4096 = 0.
Proof.
  intros T Ha. destruct k as [l p]. destruct (tr_table _ _ _ _ T _ _ _ Ha) as (_ & _ & HA & _).
  destruct (pa_range _ _ _ _ (tr_own _ _ _ _ T) HA) as (_ & ? & ? & ?). unfold PAGE_SIZE in *. lia.
Qed.

Lemma zero_words_in n p m i : 0 <= i < Z.of_nat n → zero_words n p m !! (p + 8 * i) = Some 0.
Proof.
  revert m. induction n as [|n IH]; intros m Hi; [lia|]. cbn [zero_words].
  destruct (decide (i < Z.of_nat n)); [apply IH; lia|].
  assert (∀ k m', (k <= n)%nat → m' !! (p + 8 * i) = Some 0 → zero_words k p m' !! (p + 8 * i) = Some 0) as Hk.
  { induction k as [|k IHk]; intros m' Hle Hm; [done|]. apply IHk; [lia|].
    by rewrite lookup_insert_ne by lia. }
  apply Hk; [done|]. replace i with (Z.of_nat n) by lia. by rewrite lookup_insert_eq.
Qed.

Lemma zero_words_out n p m x : (∀ i, 0 <= i < Z.of_nat n → x ≠ p + 8 * i) →
  zero_words n p m !! x = m !! x.
Proof.
  revert m. induction n as [|n IH]; intros m Hx; [done|]. cbn [zero_words].
  rewrite IH by (intros i Hi; apply Hx; lia).
  rewrite lookup_insert_ne; [done|]. intros E. by apply (Hx (Z.of_nat n)); [lia|].
Qed.

Lemma fresh_table s A pml4 G p t : tree s A pml4 G → pa_own p ((0, t) :: A) →
  (∀ k, G !! k ≠ Some t) ∧
  (∀ k a i j, G !! k = Some a → 0 <= i < 512 → 0 <= j < 512 → a + 8 * i ≠ t + 8 * j).
Proof.
  intros T Hown. split.
  - intros [l q] Ha. destruct (tr_table _ _ _ _ T _ _ _ Ha) as (_ & _ & HA & _).
    destruct (pa_apart_head _ _ _ _ _ Hown HA); simpl in *; unfold PAGE_SIZE in *; lia.
  - intros [l q] a i j Ha Hi Hj E. destruct (tr_table _ _ _ _ T _ _ _ Ha) as (_ & _ & HA & _).
    destruct (pa_apart_head _ _ _ _ _ Hown HA); simpl in *; unfold PAGE_SIZE in *; lia.
Qed.

#[local] Arguments zero_words : simpl never.

(** The entry for a new table leads back to it. *)
Lemma table_entry t fl : 0 < t < 2 ^ 64 → t mod 4096 = 0 → 0 <= fl < 4096 →
  Z.testbit fl 0 = true →
  present (Z.lor (u64 (t - hhdm_offset)) fl) = true ∧
  entry_va hhdm_offset (Z.lor (u64 (t - hhdm_offset)) fl) = t.
Proof.
  intros Ht Hm Hf Hp. unfold PAGE_SIZE in hhdm_aligned.
  assert (u64 (t - hhdm_offset) mod 4096 = 0) as Hm'.
  { unfold wrap. rewrite <- (Znumtheory.Zmod_div_mod 4096 (2 ^ 64)); [|lia|lia|].
    - rewrite Zminus_mod, Hm, hhdm_aligned. done.
    - exists (2 ^ 52). done. }
  destruct (entry_parts (u64 (t - hhdm_offset)) fl) as [E1 E2]; try done.
  { apply wrap_range. lia. }
  split; [done|]. unfold entry_va. rewrite E1, wrap_add_l, Z.sub_add. apply wrap_small. lia.
Qed.

Definition flags_ok (fl : Z) : Prop := 0 <= fl < 4096 ∧ Z.testbit fl 0 = true.

(** A new table below entry [i] of the table [a]. *)
Lemma new_table_tree s A pml4 G l p a i fl q t :
  tree s A pml4 G → G !! (l, p) = Some a → 1 <= l → 0 <= i < 512 → flags_ok fl →
  G !! (l - 1, p * 512 + i) = None → pa_own q ((0, t) :: A) →
  let s' := set_mem (<[a + 8 * i := Z.lor (u64 (t - hhdm_offset)) fl]> (zero_words 512 t (mem s)))
              (set_vpgs q s) in
  tree s' ((0, t) :: A) pml4 (<[(l - 1, p * 512 + i) := t]> G) ∧
  (∀ v, leaf s' (<[(l - 1, p * 512 + i) := t]> G) v = leaf s G v).
Proof.
  intros T Ha Hl Hi [Hf Hfp] Hn Hown s'. set (k0 := (l - 1, p * 512 + i)) in *.
  destruct (fresh_table _ _ _ _ _ _ T Hown) as [Hnt Hnw].
  pose proof (pa_range _ _ 0 t Hown ltac:(set_solver)) as (_ & Ht & Htm & Hth).
  unfold PAGE_SIZE in *.
  destruct (table_entry t fl) as [Ep Ev]; [lia|done..|]. set (e0 := Z.lor _ fl) in *.
  destruct (tr_table _ _ _ _ T _ _ _ Ha) as (Hl3 & _ & HaA & _).
  assert (∀ k b j, G !! k = Some b → 0 <= j < 512 →
    mem s' !! (b + 8 * j) = if decide (b = a ∧ j = i) then Some e0 else mem s !! (b + 8 * j)) as Hold.
  { intros k b j Hb Hj. simpl. case_decide as Ed.
    - destruct Ed as [-> ->]. by rewrite lookup_insert_eq.
    - rewrite lookup_insert_ne.
      + apply zero_words_out. intros j' Hj'. by apply (Hnw k).
      + intros E. destruct (table_apart _ _ _ _ _ _ _ _ _ _ T Ha Hb Hi Hj E) as (_ & -> & ->). by apply Ed. }
  assert (∀ j, 0 <= j < 512 → mem s' !! (t + 8 * j) = Some 0) as Hnew.
  { intros j Hj. simpl. rewrite lookup_insert_ne by by apply (Hnw (l, p)).
    apply zero_words_in. lia. }
  split; [split|].
  - done.
  - rewrite lookup_insert_ne; [apply T|]. unfold k0. intros [= ? ?]. lia.
  - intros l' p' b [[E <-]|[Hne Hb]]%lookup_insert_Some.
    + injection E as <- <-. split_and!; [lia|lia|lia|set_solver|].
      intros j Hj. rewrite Hnew by done. eauto.
    + destruct (tr_table _ _ _ _ T _ _ _ Hb) as (? & ? & ? & Hw). split_and!; try done; try lia; [set_solver|].
      intros j Hj. rewrite (Hold _ _ _ Hb Hj). case_decide; eauto.
  - intros k1 k2 b [[<- <-]|[Hne1 H1]]%lookup_insert_Some [[<- E2]|[Hne2 H2]]%lookup_insert_Some.
    + done.
    + by apply Hnt in H2.
    + subst b. by apply Hnt in H1.
    + by eapply tr_inj.
  - intros l' p' b j e [[E <-]|[Hne Hb]]%lookup_insert_Some Hl' Hj Hm.
    + injection E as <- <-. rewrite Hnew in Hm by done. injection Hm as <-.
      rewrite lookup_insert_ne by (unfold k0; intros [= ?]; lia). simpl.
      apply eq_None_not_Some. intros Hs. destruct (tr_up _ _ _ _ T _ _ Hs) as [b Hb]; [lia|].
      replace (l - 1 - 1 + 1) with (l - 1) in Hb by lia.
      replace (((p * 512 + i) * 512 + j) / 512) with (p * 512 + i) in Hb
        by (rewrite (Z.add_comm _ j), Z.div_add, Z.div_small by lia; lia).
      unfold k0 in Hn. by rewrite Hn in Hb.
    + rewrite (Hold _ _ _ Hb Hj) in Hm. case_decide as Ed.
      * destruct Ed as [-> ->]. injection Hm as <-. pose proof (tr_inj _ _ _ _ T _ _ _ Ha Hb) as E.
        injection E as <- <-. fold k0. by rewrite lookup_insert_eq, Ep, Ev.
      * rewrite lookup_insert_ne; [by apply (tr_entry _ _ _ _ T _ _ _ _ _ Hb)|].
        unfold k0. intros [= E1 E2]. apply Ed. assert (p' = p ∧ j = i) as [-> ->] by lia.
        assert (l' = l) as -> by lia. split; [|done]. rewrite Ha in Hb. by injection Hb.
  - intros l' p' Hs Hl'. rewrite lookup_insert_is_Some' in Hs. destruct Hs as [E|Hs].
    + unfold k0 in E. injection E as <- <-. rewrite Z.sub_add.
      rewrite lookup_insert_ne by (unfold k0; intros [= ?]; lia).
      rewrite Z.add_comm, Z.div_add, Z.div_small by lia. simpl. eauto.
    + rewrite lookup_insert_is_Some'. right. by apply (tr_up _ _ _ _ T).
  - intros v. unfold leaf. destruct (decide (k0 = (0, pre 0 v))) as [E|Hne].
    + rewrite <- E, lookup_insert_eq, Hn. cbn [mbind option_bind].
      rewrite (Hnew _ (idx_range 0 v)). done.
    + rewrite lookup_insert_ne by done. destruct (G !! (0, pre 0 v)) as [b|] eqn:Eb; [|done].
      cbn [mbind option_bind]. rewrite (Hold _ _ _ Eb (idx_range 0 v)). rewrite decide_False; [done|].
      intros [-> _]. pose proof (tr_inj _ _ _ _ T _ _ _ Ha Eb) as E. injection E as -> _. lia.
Qed.

(** Blocks already handed out stay so and do not become tables. *)
Definition grows (A : list (Z * Z)) (G : gmap (Z * Z) Z) (A' : list (Z * Z)) (G' : gmap (Z * Z) Z)
    : Prop :=
  (∀ x, x ∈ A → x ∈ A') ∧
  (∀ f, (0, f) ∈ A → (∀ k, G !! k ≠ Some f) → ∀ k, G' !! k ≠ Some f).

Lemma grows_refl A G : grows A G A G.
Proof. by split. Qed.

Lemma grows_trans A1 G1 A2 G2 A3 G3 : grows A1 G1 A2 G2 → grows A2 G2 A3 G3 → grows A1 G1 A3 G3.
Proof. intros [H1 H2] [H3 H4]. split; [auto|]. intros f Hf Hn. apply H4; [auto|]. by apply H2. Qed.

Lemma grows_new A G q t k0 : pa_own q ((0, t) :: A) → grows A G ((0, t) :: A) (<[k0 := t]> G).
Proof.
  intros Hown. split; [set_solver|]. intros f Hf Hn k [[_ ->]|[_ Hk]]%lookup_insert_Some; [|by eapply Hn].
  destruct (pa_apart_head _ _ _ _ _ Hown Hf); simpl in *; unfold PAGE_SIZE in *; lia.
Qed.

(** The only failure is a page allocator with no page left. *)
Lemma next_table_ok s A pml4 G l v a fl :
  tree s A pml4 G → G !! (l, pre l v) = Some a → 1 <= l → flags_ok fl →
  next_table hhdm_offset a (idx l v) fl s = Stop Fault ∨
  ∃ s' A' G' t, next_table hhdm_offset a (idx l v) fl s = Done (s', t) ∧
    tree s' A' pml4 G' ∧ G' !! (l - 1, pre (l - 1) v) = Some t ∧
    (∀ w, leaf s' G' w = leaf s G w) ∧ kernel_pml4 s' = kernel_pml4 s ∧ grows A G A' G'.
Proof.
  intros T Ha Hl Hfl. destruct (load_walk _ _ _ _ _ _ _ T Hl Ha) as (e & El & Ec).
  unfold next_table. rstep El. destruct (present e) eqn:Ep; cbn [negb].
  { right. exists s, A, G, (entry_va hhdm_offset e). split_and!; try done; apply grows_refl. }
  unfold pgtable_alloc_table.
  destruct (pa_alloc_ok 0 _ _ (Z.le_refl 0) (tr_own _ _ _ _ T)) as (q & t & Eq & [[-> _]|[Ht Hown]]);
    rstep Eq; [by left|]. rewrite (proj2 (Z.eqb_neq _ _)) by done. rsimpl. right.
  pose proof (pre_next l v Hl) as Epre. rewrite <- Epre in Ec.
  destruct (new_table_tree s A pml4 G l (pre l v) a (idx l v) fl q t T Ha Hl (idx_range l v) Hfl Ec Hown)
    as [T' Hleaf].
  destruct (fresh_table _ _ _ _ _ _ T Hown) as [_ Hnw].
  assert (load a (idx l v) (set_mem (zero_words 512 t (mem s)) (set_vpgs q s)) = Done e) as El'.
  { unfold load in *. cbn [mem set_mem set_vpgs]. rewrite zero_words_out; [exact El|].
    intros j Hj. apply (Hnw _ _ _ _ Ha (idx_range l v)). lia. }
  unfold store. rstep El'. eexists _, _, _, t. split; [reflexivity|]. split; [exact T'|].
  split; [rewrite Epre; apply lookup_insert_eq|]. split; [done|]. split; [done|].
  by eapply grows_new.
Qed.

(** Writing an entry of a page table changes one translation. *)
Lemma store_leaf s A pml4 G v a e :
  tree s A pml4 G → 0 <= v → G !! (0, pre 0 v) = Some a → ∃ s',
    store a (idx 0 v) e s = Done s' ∧ tree s' A pml4 G ∧
    (∀ w, 0 <= w → leaf s' G w = if decide (w = v) then (if present e then Some e else None)
                        else leaf s G w) ∧
    v_pgs s' = v_pgs s ∧ kernel_pml4 s' = kernel_pml4 s ∧
    mem s' = <[a + 8 * idx 0 v := e]> (mem s).
Proof.
  intros T Hv Ha. destruct (load_ok _ _ _ _ _ _ _ _ T Ha (idx_range 0 v)) as (e0 & El & Em).
  unfold store. rstep El. eexists. split; [done|].
  assert (∀ k b j, G !! k = Some b → 0 <= j < 512 →
    <[a + 8 * idx 0 v:=e]> (mem s) !! (b + 8 * j) =
    if decide (k = (0, pre 0 v) ∧ j = idx 0 v) then Some e else mem s !! (b + 8 * j)) as Hm.
  { intros k b j Hb Hj. case_decide as Ed.
    - destruct Ed as [-> ->]. rewrite Ha in Hb. injection Hb as ->. by rewrite lookup_insert_eq.
    - rewrite lookup_insert_ne; [done|]. intros E.
      destruct (table_apart _ _ _ _ _ _ _ _ _ _ T Ha Hb (idx_range 0 v) Hj E) as (? & _ & ?).
      by apply Ed. }
  split; [|split; [|done]].
  - destruct T as [T1 T2 T3 T4 T5 T6]. split; try done.
    + intros l p b Hb. destruct (T3 _ _ _ Hb) as (? & ? & ? & Hw). split_and!; try done; try lia.
      intros j Hj. cbn [mem set_mem]. rewrite (Hm _ _ _ Hb Hj). case_decide; eauto.
    + intros l p b j x Hb Hl Hj. cbn [mem set_mem]. rewrite (Hm _ _ _ Hb Hj).
      rewrite decide_False by (intros [[= ? ?] _]; lia). by apply T5.
  - intros w Hw. unfold leaf. cbn [mem set_mem]. destruct (decide (w = v)) as [->|Hne].
    + rewrite Ha. cbn [mbind option_bind]. by rewrite lookup_insert_eq.
    + destruct (G !! (0, pre 0 w)) as [b|] eqn:Eb; [|done]. cbn [mbind option_bind].
      rewrite (Hm _ _ _ Eb (idx_range 0 w)), decide_False; [done|]. intros [[= E1] E2].
      pose proof (pre_step 0 v). pose proof (pre_step 0 w). change (512 ^ 0) with 1 in *.
      rewrite !Z.div_1_r in *. lia.
Qed.

(** Mapping a page. *)
Lemma pgtable_map_ok s A pml4 G va pa fl :
  tree s A pml4 G → 0 <= va < 2 ^ 64 → 0 <= pa < 2 ^ 64 → flags_ok fl →
  pgtable_map hhdm_offset pml4 va pa fl s = Stop Fault ∨
  ∃ s' A' G', pgtable_map hhdm_offset pml4 va pa fl s = Done s' ∧ tree s' A' pml4 G' ∧
    kernel_pml4 s' = kernel_pml4 s ∧ grows A G A' G' ∧
    (∀ w, 0 <= w → leaf s' G' w =
       if decide (w = vpn va) then Some (Z.lor (align_ptr_down pa PAGE_SIZE) fl) else leaf s G w).
Proof.
  intros T Hva Hpa Hfl. unfold pgtable_map. cbv zeta.
  rewrite pml4_i_idx, pdpt_i_idx, pd_i_idx, pt_i_idx, !vpn_align by done.
  pose proof (vpn_range va) as Hv. set (v := vpn va) in *.
  assert (G !! (3, pre 3 v) = Some pml4) as H3 by (rewrite pre_3 by done; apply T).
  destruct (next_table_ok s A pml4 G 3 v pml4 fl T H3) as [E|(s1 & A1 & G1 & t1 & E & T1 & H2 & L1 & K1 & W1)];
    [lia|done|left; by rstep E|rstep E].
  destruct (next_table_ok s1 A1 pml4 G1 2 v t1 fl T1 H2) as [E2|(s2 & A2 & G2 & t2 & E2 & T2 & H1 & L2 & K2 & W2)];
    [lia|done|left; by rstep E2|rstep E2].
  destruct (next_table_ok s2 A2 pml4 G2 1 v t2 fl T2 H1) as [E1|(s3 & A3 & G3 & t3 & E1 & T3 & H0 & L3 & K3 & W3)];
    [lia|done|left; by rstep E1|rstep E1].
  right. destruct (store_leaf s3 A3 pml4 G3 v t3 (Z.lor (align_ptr_down pa PAGE_SIZE) fl) T3)
    as (s4 & E0 & T4 & L4 & _ & K4 & _); [lia|exact H0|].
  exists s4, A3, G3. split; [done|]. split; [done|]. split; [congruence|].
  split; [eapply grows_trans; [exact W1|]; by eapply grows_trans|].
  intros w Hw. rewrite L4 by done. case_decide; [|by rewrite L3, L2, L1].
  rewrite page_size_pow, align_ptr_down_spec by lia. change (2 ^ 12) with 4096.
  pose proof (Z.div_mod pa 4096). pose proof (Z.mod_pos_bound pa 4096).
  destruct (entry_parts (pa - pa mod 4096) fl) as [_ ->]; try apply Hfl; [lia| |done].
  replace (pa - pa mod 4096) with (pa / 4096 * 4096) by lia. apply Z.mod_mul. lia.
Qed.

(** ** Unmapping *)

Lemma drop_own s A1 A2 f pml4 G q :
  tree s (A1 ++ (0, f) :: A2) pml4 G → (∀ k, G !! k ≠ Some f) → pa_own q (A1 ++ A2) →
  tree (set_vpgs q s) (A1 ++ A2) pml4 G.
Proof.
  intros [T1 T2 T3 T4 T5 T6] Hf Hown. split; try done. intros l p a Ha.
  destruct (T3 _ _ _ Ha) as (? & ? & HA & ?). split_and!; try done; try lia.
  assert ((0, a) ≠ (0, f)) by (intros [= ->]; by apply (Hf (l, p))). set_solver.
Qed.

Lemma release_frame s A pml4 G f : tree s A pml4 G → (0, f) ∈ A → (∀ k, G !! k ≠ Some f) →
  ∃ q A', buddy_release f s = Done (set_vpgs q s) ∧ tree (set_vpgs q s) A' pml4 G.
Proof.
  intros T (A1 & A2 & ->)%list_elem_of_split Hf.
  destruct (pa_free_ok _ _ _ _ _ (tr_own _ _ _ _ T)) as (q & Eq & Hown).
  exists q, (A1 ++ A2). unfold buddy_release. rstep Eq. split; [done|]. by eapply drop_own.
Qed.

Definition no_entry (s : vm S) (a : Z) : Prop :=
  ∀ j e, 0 <= j < 512 → mem s !! (a + 8 * j) = Some e → present e = false.

Lemma table_empty_ok s a :
  (∀ j, 0 <= j < 512 → is_Some (mem s !! (a + 8 * j))) → ∃ r,
  pgtable_table_empty a s = Done r ∧ (r = true → no_entry s a).
Proof.
  intros Hw. assert (∀ n i, 0 <= i → i + Z.of_nat n = 512 → ∃ r, table_empty_from n i a s = Done r ∧
    (r = true → ∀ j e, i <= j < 512 → mem s !! (a + 8 * j) = Some e → present e = false)) as H.
  { induction n as [|n IH]; intros i Hi Hn; cbn [table_empty_from].
    - exists true. split; [done|]. lia.
    - destruct (Hw i) as [e He]; [lia|]. unfold load. rewrite He. rsimpl.
      destruct (present e) eqn:Ep; [by exists false|].
      destruct (IH (i + 1)) as (r & -> & Hr); [lia..|]. exists r. split; [done|].
      intros Hrt j x Hj Hx. destruct (decide (j = i)) as [->|]; [congruence|].
      apply (Hr Hrt j); [lia|done]. }
  destruct (H 512%nat 0) as (r & E & Hr); [lia..|]. by exists r.
Qed.

(** The child an entry of table [(l, p)] can lead to. *)
Lemma child_parent p i l v : 0 <= i < 512 → 1 <= l → p * 512 + i = pre (l - 1) v →
  p = pre l v ∧ i = idx l v.
Proof.
  intros Hi Hl E. rewrite <- pre_next in E by done. pose proof (idx_range l v). lia.
Qed.

(** Removing an empty table from its parent and giving its page back. *)
Lemma drop_table s A pml4 G l v a b :
  tree s A pml4 G → 1 <= l <= 3 → G !! (l - 1, pre (l - 1) v) = Some a →
  G !! (l, pre l v) = Some b → no_entry s a → ∃ s1 s2 A',
    store b (idx l v) 0 s = Done s1 ∧ pgtable_free a s1 = Done s2 ∧
    tree s2 A' pml4 (delete (l - 1, pre (l - 1) v) G) ∧
    (∀ w, leaf s2 (delete (l - 1, pre (l - 1) v) G) w = leaf s G w) ∧
    kernel_pml4 s2 = kernel_pml4 s.
Proof.
  intros T Hl Ha Hb Hne. set (k0 := (l - 1, pre (l - 1) v)) in *.
  destruct (load_ok _ _ _ _ _ _ _ _ T Hb (idx_range l v)) as (e & El & Em).
  unfold store. rstep El. set (s1 := set_mem _ s). exists s1.
  assert (∀ k c j, G !! k = Some c → 0 <= j < 512 → mem s1 !! (c + 8 * j) =
    if decide (k = (l, pre l v) ∧ j = idx l v) then Some 0 else mem s !! (c + 8 * j)) as Hm.
  { intros k c j Hc Hj. cbn [mem set_mem s1]. case_decide as Ed.
    - destruct Ed as [-> ->]. rewrite Hb in Hc. injection Hc as ->. by rewrite lookup_insert_eq.
    - rewrite lookup_insert_ne; [done|]. intros E.
      destruct (table_apart _ _ _ _ _ _ _ _ _ _ T Hb Hc (idx_range l v) Hj E) as (? & _ & ?).
      by apply Ed. }
  assert (tree s1 A pml4 (delete k0 G)) as T1.
  { pose proof T as [T1 T2 T3 T4 T5 T6]. split.
    - done.
    - rewrite lookup_delete_ne; [done|]. unfold k0. intros [= ? ?]. lia.
    - intros c p x [Hnk Hx]%lookup_delete_Some. destruct (T3 _ _ _ Hx) as (? & ? & ? & ?).
      split_and!; try done; try lia. intros j Hj. rewrite (Hm _ _ _ Hx Hj). case_decide; eauto.
    - intros k1 k2 x [_ H1]%lookup_delete_Some [_ H2]%lookup_delete_Some. by eapply T4.
    - intros c p x j y [Hnk Hx]%lookup_delete_Some Hc Hj. rewrite (Hm _ _ _ Hx Hj).
      case_decide as Ed.
      + destruct Ed as [[= -> ->] ->]. intros [= <-]. rewrite pre_next by lia. apply lookup_delete_eq.
      + intros Hy. rewrite lookup_delete_ne; [by eapply T5|]. unfold k0. intros [= E1 E2].
        assert (c = l) as -> by lia. symmetry in E2. apply child_parent in E2 as [-> ->]; [|lia|lia].
        by apply Ed.
    - intros c p Hs Hc. apply lookup_delete_is_Some in Hs as [Hnk Hs].
      apply lookup_delete_is_Some. split; [|by apply T6]. unfold k0. intros [= E1 E2].
      assert (0 <= c) as Hc0 by (destruct Hs as [x Hx]; apply T3 in Hx; lia).
      pose proof (Z.div_mod p 512) as Hdm. pose proof (Z.mod_pos_bound p 512) as Hpm.
      destruct (T3 _ _ _ Ha) as (_ & _ & _ & Hw). destruct (Hw (p mod 512)) as [y Hy]; [lia|].
      assert (0 <= p mod 512 < 512) as Hpm' by lia.
      pose proof (T5 (l - 1) (pre (l - 1) v) a (p mod 512) y Ha ltac:(lia) Hpm' Hy) as E.
      rewrite (Hne _ _ Hpm' Hy) in E.
      replace (l - 1 - 1) with c in E by lia. replace (pre (l - 1) v * 512 + p mod 512) with p in E by lia.
      destruct Hs. congruence. }
  destruct (tr_table _ _ _ _ T _ _ _ Ha) as (_ & _ & HaA & _).
  destruct (table_range _ _ _ _ _ _ T Ha) as [Har _].
  destruct (release_frame s1 A pml4 (delete k0 G) a T1 HaA) as (q & A' & Er & T2).
  { intros k Hk. apply lookup_delete_Some in Hk as [Hnk Hk]. apply Hnk. by apply (tr_inj _ _ _ _ T _ _ _ Ha Hk). }
  exists (set_vpgs q s1), A'. split; [done|]. unfold pgtable_free.
  rewrite (proj2 (Z.eqb_neq _ _)) by lia. split; [done|]. split; [done|]. split; [|done].
  intros w. unfold leaf. destruct (decide (k0 = (0, pre 0 w))) as [E|Hnk].
  - rewrite <- E, lookup_delete_eq, Ha. cbn [mbind option_bind].
    destruct (mem s !! (a + 8 * idx 0 w)) as [x|] eqn:Ex; [|done]. cbn [mbind option_bind].
    by rewrite (Hne _ _ (idx_range 0 w) Ex).
  - rewrite lookup_delete_ne by done. destruct (G !! (0, pre 0 w)) as [c|] eqn:Ec; [|done].
    cbn [mbind option_bind]. change (mem (set_vpgs q s1)) with (mem s1).
    rewrite (Hm _ _ _ Ec (idx_range 0 w)), decide_False; [done|]. intros [[= E _] _]. lia.
Qed.

(** Writing and releasing keep the words of the other tables readable. *)
Lemma table_words s A pml4 G k a : tree s A pml4 G → G !! k = Some a →
  ∀ j, 0 <= j < 512 → is_Some (mem s !! (a + 8 * j)).
Proof. intros T Ha. destruct k. by apply (tr_table _ _ _ _ T) in Ha as (_ & _ & _ & Hw). Qed.

(** Unmapping a mapped page whose frame the allocator handed out. *)
Lemma pgtable_unmap_ok s A pml4 G va e :
  tree s A pml4 G → 0 <= va < 2 ^ 64 → leaf s G (vpn va) = Some e →
  (0, entry_va hhdm_offset e) ∈ A → (∀ k, G !! k ≠ Some (entry_va hhdm_offset e)) →
  ∃ s' A' G', pgtable_unmap hhdm_offset pml4 va s = Done s' ∧ tree s' A' pml4 G' ∧
    (∀ w, 0 <= w → leaf s' G' w = if decide (w = vpn va) then None else leaf s G w).
Proof.
  intros T Hva Hlf HA Hnt. unfold pgtable_unmap. cbv zeta.
  rewrite pml4_i_idx, pdpt_i_idx, pd_i_idx, pt_i_idx, !vpn_align by done.
  pose proof (vpn_range va) as Hv. set (v := vpn va) in *.
  assert (G !! (3, pre 3 v) = Some pml4) as H3 by (rewrite pre_3 by done; apply T).
  unfold leaf in Hlf. destruct (G !! (0, pre 0 v)) as [pt|] eqn:H0; [|done].
  cbn [mbind option_bind] in Hlf. destruct (mem s !! (pt + 8 * idx 0 v)) as [e0|] eqn:M0; [|done].
  cbn [mbind option_bind] in Hlf. destruct (present e0) eqn:P0; [|done]. injection Hlf as ->.
  destruct (load_walk _ _ _ _ 3 v pml4 T) as (e3 & -> & E2); [lia|done|]. rsimpl.
  destruct (present e3) eqn:P3; cbn [negb].
  2:{ by rewrite (no_child _ _ _ _ 2 v T) in H0 by (done || lia). }
  set (pdpt := entry_va hhdm_offset e3) in *.
  destruct (load_walk _ _ _ _ 2 v pdpt T) as (e2 & -> & E1); [lia|exact E2|]. rsimpl.
  destruct (present e2) eqn:P2; cbn [negb].
  2:{ by rewrite (no_child _ _ _ _ 1 v T) in H0 by (done || lia). }
  set (pd := entry_va hhdm_offset e2) in *.
  destruct (load_walk _ _ _ _ 1 v pd T) as (e1 & -> & E0); [lia|exact E1|]. rsimpl.
  change (1 - 1) with 0 in E0. rewrite H0 in E0. destruct (present e1) eqn:P1; cbn [negb]; [|done].
  injection E0 as <-. unfold load at 1. rewrite M0. rsimpl. rewrite P0. cbn [negb].
  destruct (store_leaf s A pml4 G v pt 0 T) as (s1 & -> & T1 & L1 & Q1 & K1 & Mm1); [lia|done|]. rsimpl.
  destruct (release_frame s1 A pml4 G _ T1 HA Hnt) as (q & A2 & -> & T2). rsimpl.
  set (s2 := set_vpgs q s1) in *.
  assert (∀ w, 0 <= w → leaf s2 G w = if decide (w = v) then None else leaf s G w) as L2.
  { intros w Hw. by apply L1. }
  destruct (table_empty_ok s2 pt (table_words _ _ _ _ _ _ T2 H0)) as (r & -> & Hr). rsimpl.
  destruct r; cbn [negb]; [|exists s2, A2, G; by split_and!]. specialize (Hr eq_refl).
  destruct (drop_table s2 A2 pml4 G 1 v pt pd T2) as (s3 & s4 & A4 & -> & Ef & T4 & L4 & _); [lia|done..|].
  rsimpl. rstep Ef. set (G4 := delete _ G) in *.
  assert (G4 !! (1, pre 1 v) = Some pd) as H1'
    by (unfold G4; rewrite lookup_delete_ne; [exact E1|intros [= ?]; lia]).
  assert (G4 !! (2, pre 2 v) = Some pdpt) as H2'
    by (unfold G4; rewrite lookup_delete_ne; [exact E2|intros [= ?]; lia]).
  assert (G4 !! (3, pre 3 v) = Some pml4) as H3'
    by (unfold G4; rewrite lookup_delete_ne; [exact H3|intros [= ?]; lia]).
  assert (∀ w, 0 <= w → leaf s4 G4 w = if decide (w = v) then None else leaf s G w) as L4'
    by (intros w Hw; rewrite L4; by apply L2).
  destruct (table_empty_ok s4 pd (table_words _ _ _ _ _ _ T4 H1')) as (r & -> & Hr'). rsimpl.
  destruct r; cbn [negb]; [|exists s4, A4, G4; by split_and!]. specialize (Hr' eq_refl).
  destruct (drop_table s4 A4 pml4 G4 2 v pd pdpt T4) as (s5 & s6 & A6 & -> & Ef6 & T6 & L6 & _); [lia|done..|].
  rsimpl. rstep Ef6. set (G6 := delete _ G4) in *.
  assert (G6 !! (2, pre 2 v) = Some pdpt) as H2''
    by (unfold G6; rewrite lookup_delete_ne; [exact H2'|intros [= ?]; lia]).
  assert (G6 !! (3, pre 3 v) = Some pml4) as H3''
    by (unfold G6; rewrite lookup_delete_ne; [exact H3'|intros [= ?]; lia]).
  assert (∀ w, 0 <= w → leaf s6 G6 w = if decide (w = v) then None else leaf s G w) as L6'
    by (intros w Hw; rewrite L6; by apply L4').
  destruct (table_empty_ok s6 pdpt (table_words _ _ _ _ _ _ T6 H2'')) as (r & -> & Hr''). rsimpl.
  destruct r; cbn [negb]; [|exists s6, A6, G6; by split_and!]. specialize (Hr'' eq_refl).
  destruct (drop_table s6 A6 pml4 G6 3 v pdpt pml4 T6) as (s7 & s8 & A8 & -> & Ef8 & T8 & L8 & _); [lia|done..|].
  rsimpl. rewrite Ef8. eexists s8, A8, _. split; [done|]. split; [exact T8|].
  intros w Hw. rewrite L8. by apply L6'.
Qed.

(** A fresh root maps nothing. *)
Lemma alloc_table_tree s s' A t : pa_own (v_pgs s) A → pgtable_alloc_table s = Done (s', t) →
  tree s' ((0, t) :: A) t {[(3, 0) := t]} ∧ (∀ v, leaf s' {[(3, 0) := t]} v = None) ∧
  (∀ i, 0 <= i < 512 → mem s' !! (t + 8 * i) = Some 0).
Proof.
  intros Hown E. unfold pgtable_alloc_table in E.
  destruct (pa_alloc_ok 0 _ _ (Z.le_refl 0) Hown) as (q & t' & Eq & Ht). rewrite Eq in E.
  simpl in E. case_if_in E; [done|]. injection E as <- <-. destruct Ht as [[? _]|[_ Hown']]; [done|].
  assert (∀ i, 0 <= i < 512 → zero_words 512 t' (mem s) !! (t' + 8 * i) = Some 0) as Hz
    by (intros; apply zero_words_in; lia).
  assert (∀ k x, ({[(3, 0) := t']} : gmap (Z * Z) Z) !! k = Some x → k = (3, 0) ∧ x = t') as Hk.
  { intros k x [<- <-]%lookup_singleton_Some. done. }
  split; [|split; [|exact Hz]].
  - split.
    + done.
    + apply lookup_singleton_eq.
    + intros l p a [[= -> ->] ->]%Hk. split_and!; [lia|lia|done|set_solver|].
      intros i Hi. cbn [mem set_mem]. rewrite Hz by done. eauto.
    + intros k1 k2 x [-> _]%Hk [-> _]%Hk. done.
    + intros l p a i e [[= -> ->] ->]%Hk _ Hi. cbn [mem set_mem]. rewrite Hz by done.
      intros [= <-]. simpl. by rewrite lookup_singleton_ne by (intros [=]).
    + intros l p [x Hx] Hl. apply Hk in Hx as [[= -> ->] _]. lia.
  - intros v. unfold leaf. by rewrite lookup_singleton_ne by (intros [=]).
Qed.

Lemma tree_own s A pml4 G q f : tree s A pml4 G → pa_own q ((0, f) :: A) →
  tree (set_vpgs q s) ((0, f) :: A) pml4 G ∧ (∀ k, G !! k ≠ Some f).
Proof.
  intros T Hown. split; [|by apply (fresh_table _ _ _ _ _ _ T Hown)].
  destruct T as [T1 T2 T3 T4 T5 T6]. split; try done. intros l p a Ha.
  destruct (T3 _ _ _ Ha) as (? & ? & ? & ?). split_and!; try done; try lia. set_solver.
Qed.

Lemma entry_frame pa fl : 0 <= pa < 2 ^ 64 → flags_ok fl →
  entry_va hhdm_offset (Z.lor (align_ptr_down pa PAGE_SIZE) fl) = u64 (pa / 4096 * 4096 + hhdm_offset).
Proof.
  intros Hpa [Hf Hp]. rewrite page_size_pow, align_ptr_down_spec by lia.
  change (2 ^ 12) with 4096. pose proof (Z.div_mod pa 4096). pose proof (Z.mod_pos_bound pa 4096).
  replace (pa - pa mod 4096) with (pa / 4096 * 4096) by lia.
  destruct (entry_parts (pa / 4096 * 4096) fl) as [E _]; [lia|apply Z.mod_mul; lia|done..|].
  unfold entry_va. by rewrite E.
Qed.

Lemma align_page x : 0 <= x < 2 ^ 64 → x mod 4096 = 0 → align_ptr_down x PAGE_SIZE = x.
Proof.
  intros Hx Hm. rewrite page_size_pow, align_ptr_down_spec by lia. change (2 ^ 12) with 4096. lia.
Qed.

Lemma page_minus t : t mod 4096 = 0 → u64 (t - hhdm_offset) mod 4096 = 0.
Proof.
  intros Hm. unfold wrap. rewrite <- (Znumtheory.Zmod_div_mod 4096 (2 ^ 64)); [|lia|lia|].
  - rewrite Zminus_mod, Hm. unfold PAGE_SIZE in hhdm_aligned. by rewrite hhdm_aligned.
  - exists (2 ^ 52). done.
Qed.

(** A page allocated and mapped by [vmm_alloc]. *)
Lemma vmm_alloc_ok s A pml4 G va fl :
  tree s A pml4 G → 0 <= va < 2 ^ 64 → flags_ok fl →
  vmm_alloc hhdm_offset pml4 va fl s = Stop Fault ∨
  ∃ s' A' G' ptr e, vmm_alloc hhdm_offset pml4 va fl s = Done (s', ptr) ∧ tree s' A' pml4 G' ∧
    (∀ w, 0 <= w → leaf s' G' w = if decide (w = vpn va) then Some e else leaf s G w) ∧
    (ptr ≠ 0 → entry_va hhdm_offset e = ptr ∧ 0 < ptr < 2 ^ 64 - 4096 ∧ ptr mod 4096 = 0 ∧
       (0, ptr) ∈ A' ∧ ∀ k, G' !! k ≠ Some ptr).
Proof.
  intros T Hva Hfl. unfold vmm_alloc.
  destruct (pa_alloc_ok 0 _ _ (Z.le_refl 0) (tr_own _ _ _ _ T)) as (q & f & Eq & Hf). rstep Eq.
  assert (0 <= u64 (f - hhdm_offset) < 2 ^ 64) as Hr by (apply wrap_range; lia).
  destruct Hf as [[-> Hown]|[Hf Hown]].
  - assert (tree (set_vpgs q s) A pml4 G) as T1 by (destruct T; by split).
    destruct (pgtable_map_ok _ A pml4 G va _ fl T1 Hva Hr Hfl)
      as [->|(s' & A' & G' & -> & T' & _ & _ & L)]; [by left|right]. rsimpl.
    exists s', A', G', 0. eexists. split; [done|]. split; [done|]. split; [exact L|done].
  - destruct (tree_own _ _ _ _ _ _ T Hown) as [T1 Hnt].
    pose proof (pa_range _ _ 0 f Hown ltac:(set_solver)) as (_ & Hpos & Hmod & Hhi).
    unfold PAGE_SIZE in Hmod, Hhi. simpl in Hhi.
    destruct (pgtable_map_ok _ _ pml4 G va _ fl T1 Hva Hr Hfl)
      as [->|(s' & A' & G' & -> & T' & _ & [W1 W2] & L)]; [by left|right]. rsimpl.
    exists s', A', G', f. eexists. split; [done|]. split; [done|]. split; [exact L|]. intros _.
    destruct Hfl as [Hf1 Hf2]. destruct (table_entry f fl) as [_ Ev]; [lia|done..|].
    rewrite align_page by (done || by apply page_minus). split; [done|].
    split; [lia|]. split; [done|]. split; [apply W1; set_solver|]. apply W2; [set_solver|done].
Qed.
End tree.

(** ** Properties *)


(** [pgtable_unmap] of a mapped page whose frame the allocator handed out
    succeeds, gives the frame and every table that becomes empty back, keeps
    the tree well formed, and removes exactly this translation: afterwards
    [pgtable_kva] is null on the page and unchanged everywhere else. *)
Theorem pgtable_unmap_translates {P} `{PageAllocatorLaws P} hhdm (s : vm P) A pml4 G va e :
  hhdm mod PAGE_SIZE = 0 → tree hhdm s A pml4 G → 0 <= va < 2 ^ 64 →
  leaf s G (vpn va) = Some e → (0, entry_va hhdm e) ∈ A → (∀ k, G !! k ≠ Some (entry_va hhdm e)) →
  ∃ s' A' G', pgtable_unmap hhdm pml4 va s = Done s' ∧ tree hhdm s' A' pml4 G' ∧
    ∀ va', pgtable_kva hhdm pml4 va' s' =
      if decide (vpn va' = vpn va) then Done 0 else pgtable_kva hhdm pml4 va' s.
Proof.
  intros Hh T Hva Hl HA Hnt.
  destruct (pgtable_unmap_ok hhdm Hh s A pml4 G va e T Hva Hl HA Hnt) as (s' & A' & G' & E & T' & L).
  exists s', A', G'. split_and!; try done. intros va'.
  rewrite (pgtable_kva_ok hhdm s' A' pml4 G' va' T'), (pgtable_kva_ok hhdm s A pml4 G va' T).
  rewrite L by apply vpn_range. by case_decide.
Qed.

(** Allocating a page at an unmapped address with [vmm_alloc] and
    unmapping it again is the identity on translations. In between, the
    address translates to the returned pointer, offset included. *)
Theorem vmm_alloc_unmap {P} `{PageAllocatorLaws P} hhdm (s s' : vm P) A pml4 G va fl ptr :
  hhdm mod PAGE_SIZE = 0 → tree hhdm s A pml4 G → 0 <= va < 2 ^ 64 → flags_ok fl →
  leaf s G (vpn va) = None → vmm_alloc hhdm pml4 va fl s = Done (s', ptr) → ptr ≠ 0 →
  pgtable_kva hhdm pml4 va s' = Done (ptr + va mod 4096) ∧
  ∃ s'' A'' G'', pgtable_unmap hhdm pml4 va s' = Done s'' ∧ tree hhdm s'' A'' pml4 G'' ∧
    ∀ va', pgtable_kva hhdm pml4 va' s'' = pgtable_kva hhdm pml4 va' s.
Proof.
  intros Hh T Hva Hfl Hn E Hp.
  destruct (vmm_alloc_ok hhdm Hh s A pml4 G va fl T Hva Hfl)
    as [E'|(s1 & A1 & G1 & f & e & E' & T1 & L1 & Hf)]; [congruence|].
  rewrite E in E'. injection E' as <- <-. destruct (Hf Hp) as (Ev & Hr & Hm & HA & Hnt).
  pose proof (L1 (vpn va) (proj1 (vpn_range va))) as Le. rewrite decide_True in Le by done.
  pose proof (Z.mod_pos_bound va 4096). split.
  - rewrite (pgtable_kva_ok hhdm s' A1 pml4 G1 va T1), Le, Ev.
    change 0xFFF with (Z.ones 12). rewrite Z.land_ones by lia. change (2 ^ 12) with 4096.
    f_equal. apply wrap_small. lia.
  - destruct (pgtable_unmap_ok hhdm Hh s' A1 pml4 G1 va e T1 Hva Le) as (s2 & A2 & G2 & Eu & T2 & L2);
      [by rewrite Ev|by rewrite Ev|].
    exists s2, A2, G2. split_and!; try done. intros va'.
    rewrite (pgtable_kva_ok hhdm s2 A2 pml4 G2 va' T2), (pgtable_kva_ok hhdm s A pml4 G va' T).
    rewrite L2, L1 by apply vpn_range. case_decide as Ed; [|done]. by rewrite Ed, Hn.
Qed.

(** [pgtable_unmap] reads through the three upper entries before it looks
    at their present bits. Where the root entry is zero, it dereferences the
    alias of frame 0, and stops on a bad address when that is not memory,
    although [pgtable_is_mapped] finds the page simply not mapped. *)
Theorem pgtable_unmap_unmapped_faults {P} `{PageAllocatorLaws P} hhdm (s : vm P) pml4 va :
  0 <= hhdm < 2 ^ 64 → 0 <= va < 2 ^ 64 →
  mem s !! (pml4 + 8 * pml4_i va) = Some 0 → mem s !! (hhdm + 8 * pdpt_i va) = None →
  pgtable_is_mapped hhdm pml4 va s = Done 0 ∧ pgtable_unmap hhdm pml4 va s = Stop Fault.
Proof.
  intros Hh Hva H3 H2. unfold pgtable_is_mapped, pgtable_unmap. cbv zeta.
  rewrite pml4_i_idx in H3. rewrite pdpt_i_idx in H2. rewrite pml4_i_idx, pdpt_i_idx, !vpn_align by done.
  unfold load. rewrite H3. rsimpl. split; [done|].
  assert (entry_va hhdm 0 = hhdm) as -> by (unfold entry_va; by apply wrap_small).
  by rewrite H2.
Qed.

(** ** Witnesses: a root table from the buddy allocator *)

Definition demo_vhhdm : Z := 0xFFFF800000000000.

#[local] Instance demo_vpages : page_allocator buddy_allocator := buddy_pages demo_vhhdm 128.

#[local] Instance demo_vpages_laws : PageAllocatorLaws buddy_allocator.
Proof. by apply buddy_pages_laws. Qed.

Definition demo_vm0 : vm buddy_allocator := Vm demo_buddy ∅ 0 0 0.

Definition demo_vm : vm buddy_allocator * Z :=
  match pgtable_alloc_table demo_vm0 with Done r => r | Stop _ => (demo_vm0, 0) end.

(** A page mapped at 4 MiB in that table. *)
Definition demo_mapped : vm buddy_allocator * Z :=
  match vmm_alloc demo_vhhdm demo_vm.2 0x400000 7 demo_vm.1 with
  | Done r => r | Stop _ => (demo_vm.1, 0)
  end.

Lemma demo_vm_eq : pgtable_alloc_table demo_vm0 = Done demo_vm.
Proof.
  assert (match pgtable_alloc_table demo_vm0 with Done _ => true | Stop _ => false end = true) as H
    by (vm_compute; reflexivity).
  unfold demo_vm. destruct (pgtable_alloc_table demo_vm0); [reflexivity|discriminate H].
Qed.

Lemma demo_mapped_eq : vmm_alloc demo_vhhdm demo_vm.2 0x400000 7 demo_vm.1 = Done demo_mapped.
Proof.
  assert (match vmm_alloc demo_vhhdm demo_vm.2 0x400000 7 demo_vm.1
          with Done _ => true | Stop _ => false end = true) as H by (vm_compute; reflexivity).
  unfold demo_mapped. destruct (vmm_alloc _ _ _ _ demo_vm.1); [reflexivity|discriminate H].
Qed.

Lemma demo_mapped_nz : demo_mapped.2 ≠ 0.
Proof. apply Z.eqb_neq. vm_compute. reflexivity. Qed.

#[local] Opaque demo_vm demo_mapped.

Lemma demo_vm_tree : ∃ A, tree demo_vhhdm demo_vm.1 A demo_vm.2 {[(3, 0) := demo_vm.2]} ∧
  (∀ v, leaf demo_vm.1 {[(3, 0) := demo_vm.2]} v = None) ∧
  (∀ i, 0 <= i < 512 → mem demo_vm.1 !! (demo_vm.2 + 8 * i) = Some 0).
Proof.
  destruct demo_buddy_inv as (L & _ & I & C & _).
  assert (pa_own (v_pgs demo_vm0) []) as Hown.
  { split; [exact C| |done]. exists L. split; [exact I|]. intros x []%elem_of_nil. }
  pose proof demo_vm_eq as E. destruct demo_vm as [s t].
  destruct (alloc_table_tree demo_vhhdm eq_refl demo_vm0 s [] t Hown E) as (T & Hl & Hz).
  exists [(0, t)]. exact (conj T (conj Hl Hz)).
Qed.

Lemma demo_flags : flags_ok 7.
Proof. split; [lia|reflexivity]. Qed.


Lemma pgtable_unmap_unmapped_faults_witness :
  pgtable_is_mapped demo_vhhdm demo_vm.2 0x400000 demo_vm.1 = Done 0 ∧
  pgtable_unmap demo_vhhdm demo_vm.2 0x400000 demo_vm.1 = Stop Fault.
Proof.
  destruct demo_vm_tree as (A & T & _ & Hz).
  apply pgtable_unmap_unmapped_faults; [unfold demo_vhhdm; lia|lia| |vm_compute; reflexivity].
  apply Hz. vm_compute. split; [discriminate|reflexivity].
Defined.

Lemma pgtable_unmap_translates_witness : ∃ s' A' G',
  pgtable_unmap demo_vhhdm demo_vm.2 0x400000 demo_mapped.1 = Done s' ∧
  tree demo_vhhdm s' A' demo_vm.2 G' ∧
  ∀ va', pgtable_kva demo_vhhdm demo_vm.2 va' s' =
    if decide (vpn va' = vpn 0x400000) then Done 0
    else pgtable_kva demo_vhhdm demo_vm.2 va' demo_mapped.1.
Proof.
  destruct demo_vm_tree as (A & T & _). pose proof demo_mapped_eq as E. pose proof demo_mapped_nz as Hp.
  destruct demo_mapped as [s1 ptr].
  destruct (vmm_alloc_ok demo_vhhdm eq_refl demo_vm.1 A demo_vm.2 _ 0x400000 7 T ltac:(lia) demo_flags)
    as [E'|(s & A1 & G1 & f & e & E' & T1 & L1 & Hf)]; [rewrite E in E'; discriminate E'|].
  rewrite E in E'. injection E' as <- <-. destruct (Hf Hp) as (Ev & _ & _ & HA & Hnt).
  apply (pgtable_unmap_translates demo_vhhdm s1 A1 demo_vm.2 G1 0x400000 e).
  - reflexivity.
  - exact T1.
  - lia.
  - rewrite L1; [reflexivity|apply vpn_range].
  - rewrite Ev. exact HA.
  - rewrite Ev. exact Hnt.
Defined.

Lemma vmm_alloc_unmap_witness :
  pgtable_kva demo_vhhdm demo_vm.2 0x400000 demo_mapped.1 = Done (demo_mapped.2 + 0x400000 mod 4096) ∧
  ∃ s'' A'' G'', pgtable_unmap demo_vhhdm demo_vm.2 0x400000 demo_mapped.1 = Done s'' ∧
    tree demo_vhhdm s'' A'' demo_vm.2 G'' ∧
    ∀ va', pgtable_kva demo_vhhdm demo_vm.2 va' s'' = pgtable_kva demo_vhhdm demo_vm.2 va' demo_vm.1.
Proof.
  destruct demo_vm_tree as (A & T & Hl & _). pose proof demo_mapped_eq as E.
  rewrite (surjective_pairing demo_mapped) in E.
  apply (vmm_alloc_unmap demo_vhhdm demo_vm.1 demo_mapped.1 A demo_vm.2 {[(3, 0) := demo_vm.2]}
    0x400000 7 demo_mapped.2).
  - reflexivity.
  - exact T.
  - lia.
  - exact demo_flags.
  - apply Hl.
  - exact E.
  - exact demo_mapped_nz.
Defined.
