(* ===== verification/CString.v ===== *)
(** * Byte memory and C strings (nolibc/string.c)

    Every function of the kernel's string library over a byte memory: a
    pointer is an address, an access outside the mapped bytes is [Fault]. A
    string scan reads consecutive addresses, so in a finite memory it stops
    after at most [size m] steps; that is the fuel of the scans. *)

From S2P Require Import Prelude.

Local Open Scope Z_scope.

(** ** Memory *)

Abbreviation mem := (gmap Z Z).

Definition ldb (m : mem) (a : Z) : run Z := access (m !! a).

Definition stb (a v : Z) (m : mem) : run mem :=
  match m !! a with
  | Some _ => Done (<[a := u8 v]> m)
  | None => Stop Fault
  end.

Definition scan_fuel (m : mem) : nat := S (size m).

(** ** Blocks of bytes *)

Fixpoint memcmp_loop (n : nat) (m : mem) (a b i : Z) : run Z :=
  match n with
  | O => Done 0
  | S n =>
      x ← ldb m (a + i);
      y ← ldb m (b + i);
      if x <? y then Done (-1) else if y <? x then Done 1 else memcmp_loop n m a b (i + 1)
  end.

Definition memcmp (m : mem) (aptr bptr size : Z) : run Z := memcmp_loop (Z.to_nat size) m aptr bptr 0.

(** [for (i = 0; i < size; i++) d[i] = s[i];] *)
Fixpoint copy_up (n : nat) (d s i : Z) (m : mem) : run mem :=
  match n with
  | O => Done m
  | S n => c ← ldb m (s + i); m ← stb (d + i) c m; copy_up n d s (i + 1) m
  end.

Definition memcpy (dstptr srcptr size : Z) (m : mem) : run mem :=
  copy_up (Z.to_nat size) dstptr srcptr 0 m.

(** [for (i = size; i != 0; i--) dst[i - 1] = src[i - 1];] *)
Fixpoint copy_down (i : nat) (d s : Z) (m : mem) : run mem :=
  match i with
  | O => Done m
  | S i => c ← ldb m (s + Z.of_nat i); m ← stb (d + Z.of_nat i) c m; copy_down i d s m
  end.

Definition memmove (dstptr srcptr size : Z) (m : mem) : run mem :=
  if dstptr <? srcptr then copy_up (Z.to_nat size) dstptr srcptr 0 m
  else copy_down (Z.to_nat size) dstptr srcptr m.

Fixpoint memset_loop (n : nat) (p v i : Z) (m : mem) : run mem :=
  match n with
  | O => Done m
  | S n => m ← stb (p + i) v m; memset_loop n p v (i + 1) m
  end.

Definition memset (pointer value size : Z) (m : mem) : run mem :=
  memset_loop (Z.to_nat size) pointer value 0 m.

(** ** Comparison and scanning *)

Definition tolower (c : Z) : Z := if (65 <=? c) && (c <=? 90) then c + (97 - 65) else c.
Definition toupper (c : Z) : Z := if (97 <=? c) && (c <=? 122) then c - (97 - 65) else c.

Fixpoint strcasecmp_loop (fuel : nat) (m : mem) (u1 u2 : Z) : run Z :=
  match fuel with
  | O => Stop Diverge
  | S fuel =>
      x ← ldb m u1;
      y ← ldb m u2;
      if negb (x =? 0) && (tolower x =? tolower y) then strcasecmp_loop fuel m (u1 + 1) (u2 + 1)
      else Done (tolower x - tolower y)
  end.

Definition strcasecmp (m : mem) (s1 s2 : Z) : run Z := strcasecmp_loop (scan_fuel m) m s1 s2.

Fixpoint strcmp_loop (fuel : nat) (m : mem) (s1 s2 : Z) : run Z :=
  match fuel with
  | O => Stop Diverge
  | S fuel =>
      x ← ldb m s1;
      y ← ldb m s2;
      if negb (x =? 0) && (x =? y) then strcmp_loop fuel m (s1 + 1) (s2 + 1)
      else Done (if x <? y then -1 else if y <? x then 1 else 0)
  end.

Definition strcmp (m : mem) (aptr bptr : Z) : run Z := strcmp_loop (scan_fuel m) m aptr bptr.

Fixpoint strncmp_loop (n : nat) (m : mem) (s1 s2 i : Z) : run Z :=
  match n with
  | O => Done 0
  | S n =>
      x ← ldb m (s1 + i);
      y ← ldb m (s2 + i);
      if x <? y then Done (-1) else if y <? x then Done 1
      else if x =? 0 then Done 0 else strncmp_loop n m s1 s2 (i + 1)
  end.

Definition strncmp (m : mem) (aptr bptr size : Z) : run Z := strncmp_loop (Z.to_nat size) m aptr bptr 0.

Fixpoint strlen_loop (fuel : nat) (m : mem) (str len : Z) : run Z :=
  match fuel with
  | O => Stop Diverge
  | S fuel => c ← ldb m (str + len); if c =? 0 then Done len else strlen_loop fuel m str (len + 1)
  end.

Definition strlen (m : mem) (str : Z) : run Z := strlen_loop (scan_fuel m) m str 0.

Fixpoint strchr_loop (fuel : nat) (m : mem) (str ch : Z) : run (option Z) :=
  match fuel with
  | O => Stop Diverge
  | S fuel =>
      c ← ldb m str;
      if c =? u8 ch then Done (Some str)
      else if c =? 0 then Done None else strchr_loop fuel m (str + 1) ch
  end.

Definition strchr (m : mem) (str ch : Z) : run (option Z) := strchr_loop (scan_fuel m) m str ch.

Fixpoint strsIsEqual_loop (n : nat) (m : mem) (str1 str2 i : Z) : run bool :=
  match n with
  | O => Done true
  | S n =>
      x ← ldb m (str1 + i);
      y ← ldb m (str2 + i);
      if negb (x =? y) then Done false else strsIsEqual_loop n m str1 str2 (i + 1)
  end.

Definition strsIsEqual (m : mem) (str1 str2 size : Z) : run bool :=
  strsIsEqual_loop (Z.to_nat size) m str1 str2 0.

Definition last_char (m : mem) (s : Z) : run (option Z) :=
  len ← strlen m s;
  Done (if len =? 0 then None else Some (s + (len - 1))).

(** ** Copying strings *)

(** The copy may run over its own source, so the fuel bounds the writes. *)
Fixpoint strcpy_loop (fuel : nat) (dest src : Z) (m : mem) : run mem :=
  match fuel with
  | O => Stop Diverge
  | S fuel =>
      c ← ldb m src;
      m ← stb dest c m;
      if c =? 0 then Done m else strcpy_loop fuel (dest + 1) (src + 1) m
  end.

Definition strcpy (dest src : Z) (m : mem) : run mem := strcpy_loop (scan_fuel m) dest src m.

Fixpoint strncpy_copy (n : nat) (dest src i : Z) (m : mem) : run (Z * mem) :=
  match n with
  | O => Done (i, m)
  | S n =>
      c ← ldb m (src + i);
      if c =? 0 then Done (i, m)
      else m ← stb (dest + i) c m; strncpy_copy n dest src (i + 1) m
  end.

Definition strncpy (dest src n : Z) (m : mem) : run mem :=
  '(i, m) ← strncpy_copy (Z.to_nat n) dest src 0 m;
  memset_loop (Z.to_nat (n - i)) dest 0 i m.

(** ** Numbers *)

(** The digits of a value in base [b], the last one first; 20 iterations are
    enough for 64 bits. *)
Fixpoint digits_rev (fuel : nat) (b value : Z) : list Z :=
  match fuel with
  | O => []
  | S fuel => if 0 <? value then value mod b :: digits_rev fuel b (value / b) else []
  end.

Definition dec_digit (d : Z) : Z := d + 48.
Definition hex_digit (d : Z) : Z := if d <? 10 then d + 48 else d - 10 + 97.

(** The characters a conversion stores before the terminator. *)
Definition dec_string (value : Z) : list Z :=
  if value =? 0 then [48] else rev (dec_digit <$> digits_rev 20 10 value).

Definition hex_string (value : Z) : list Z :=
  if value =? 0 then [48] else rev (hex_digit <$> digits_rev 16 16 value).

(** [str[j] = l[j]] for every [j], in order. *)
Fixpoint store_bytes (a : Z) (l : list Z) (m : mem) : run mem :=
  match l with
  | [] => Done m
  | c :: l => m ← stb a c m; store_bytes (a + 1) l m
  end.

Definition unsigned_to_string (value str : Z) (m : mem) : run mem :=
  store_bytes str (dec_string value ++ [0]) m.

Definition unsigned_to_hexstring (value str : Z) (m : mem) : run mem :=
  store_bytes str (hex_string value ++ [0]) m.

Fixpoint count_digits (fuel : nat) (b value i : Z) : Z :=
  match fuel with
  | O => i
  | S fuel => if 0 <? value then count_digits fuel b (value / b) (i + 1) else i
  end.

Definition get_unsigned2string_final_size (value : Z) : Z :=
  if value =? 0 then 1 else count_digits 20 10 value 0.
Definition get_u64tostring_final_size (value : Z) : Z :=
  if value =? 0 then 1 else count_digits 20 10 value 0.
Definition get_unsigned2hex_final_size (value : Z) : Z :=
  if value =? 0 then 1 else count_digits 16 16 value 0.

(** ** Tokens *)

(** [while ( *p && (strchr(delim, *p) != NULL) == skip) p++;] *)
Fixpoint span_loop (fuel : nat) (skip : bool) (m : mem) (delim p : Z) : run Z :=
  match fuel with
  | O => Stop Diverge
  | S fuel =>
      c ← ldb m p;
      if c =? 0 then Done p
      else
        r ← strchr m delim c;
        if eqb (bool_decide (is_Some r)) skip then span_loop fuel skip m delim (p + 1) else Done p
  end.

(** The returned pair is the token and the new value of the saved pointer,
    [None] the null pointer. *)
Definition strtok_r (str : option Z) (delim : Z) (saveptr : option Z) (m : mem) :
    run (option Z * option Z * mem) :=
  let saveptr := match str with Some _ => str | None => saveptr end in
  match saveptr with
  | None => Done (None, None, m)
  | Some p =>
      p ← span_loop (scan_fuel m) true m delim p;
      c ← ldb m p;
      if c =? 0 then Done (None, None, m)
      else
        q ← span_loop (scan_fuel m) false m delim p;
        c ← ldb m q;
        if negb (c =? 0) then m ← stb q 0 m; Done (Some p, Some (q + 1), m)
        else Done (Some p, None, m)
  end.

(** [strtok] keeps the saved pointer in a static variable, [next]. *)
Definition strtok (str : option Z) (delim : Z) (next : option Z) (m : mem) :
    run (option Z * option Z * mem) :=
  strtok_r str delim next m.

(** ** Formatting *)

(** An argument of a variadic call: a pointer or an integer. *)
Inductive va_arg : Type := ArgStr (p : Z) | ArgInt (z : Z).

Definition take_int (args : list va_arg) : run (Z * list va_arg) :=
  match args with ArgInt z :: args => Done (z, args) | _ => Stop Fault end.

Definition take_str (args : list va_arg) : run (Z * list va_arg) :=
  match args with ArgStr p :: args => Done (p, args) | _ => Stop Fault end.

(** [while ( *str) *buf_ptr++ = *str++;] *)
Fixpoint copy_str (fuel : nat) (str buf : Z) (m : mem) : run (Z * mem) :=
  match fuel with
  | O => Stop Diverge
  | S fuel =>
      c ← ldb m str;
      if c =? 0 then Done (buf, m) else m ← stb buf c m; copy_str fuel (str + 1) (buf + 1) m
  end.

(** A converted number is copied from a buffer of the frame. *)
Definition put_bytes (l : list Z) (buf : Z) (m : mem) : run (Z * mem) :=
  m ← store_bytes buf l m; Done (buf + Z.of_nat (length l), m).

Definition sprintf_conv (c : Z) (args : list va_arg) (buf : Z) (m : mem) :
    run (list va_arg * Z * mem) :=
  if c =? 115 then                                            (* 's' *)
    '(p, args) ← take_str args; '(buf, m) ← copy_str (scan_fuel m) p buf m; Done (args, buf, m)
  else if c =? 100 then                                       (* 'd' *)
    '(val, args) ← take_int args;
    let val := i32 val in
    let digits := dec_string (u64 (if val <? 0 then i32 (- val) else val)) in
    '(buf, m) ← put_bytes (if val <? 0 then 45 :: digits else digits) buf m; Done (args, buf, m)
  else if c =? 117 then                                       (* 'u' *)
    '(val, args) ← take_int args;
    '(buf, m) ← put_bytes (dec_string (u32 val)) buf m; Done (args, buf, m)
  else if c =? 120 then                                       (* 'x' *)
    '(val, args) ← take_int args;
    '(buf, m) ← put_bytes (hex_string (u32 val)) buf m; Done (args, buf, m)
  else if c =? 99 then                                        (* 'c' *)
    '(val, args) ← take_int args;
    '(buf, m) ← put_bytes [u8 val] buf m; Done (args, buf, m)
  else '(buf, m) ← put_bytes [37; c] buf m; Done (args, buf, m).

Fixpoint sprintf_loop (fuel : nat) (fmt : Z) (args : list va_arg) (buf : Z) (m : mem) : run (Z * mem) :=
  match fuel with
  | O => Stop Diverge
  | S fuel =>
      c ← ldb m fmt;
      if c =? 0 then Done (buf, m)
      else if c =? 37 then
        c ← ldb m (fmt + 1);
        '(args, buf, m) ← sprintf_conv c args buf m;
        sprintf_loop fuel (fmt + 1 + 1) args buf m
      else
        m ← stb buf c m;
        sprintf_loop fuel (fmt + 1) args (buf + 1) m
  end.

Definition sprintf (buffer format : Z) (args : list va_arg) (m : mem) : run (Z * mem) :=
  '(buf, m) ← sprintf_loop (scan_fuel m) format args buffer m;
  m ← stb buf 0 m;
  Done (buf - buffer, m).

(** ** Contents of the memory *)

Definition bytes_at (m : mem) (a : Z) (l : list Z) : Prop :=
  ∀ (i : nat) c, l !! i = Some c → m !! (a + Z.of_nat i) = Some c.

Definition byte (c : Z) : Prop := 0 <= c < 256.

(** A terminated string of non-zero bytes. *)
Definition cstr (m : mem) (a : Z) (s : list Z) : Prop :=
  bytes_at m a (s ++ [0]) ∧ Forall (λ c, 0 < c < 256) s.

(** The addresses from [a] on are mapped. *)
Definition mapped (m : mem) (a : Z) (n : nat) : Prop :=
  ∀ i : nat, (i < n)%nat → is_Some (m !! (a + Z.of_nat i)).

Fixpoint put_at (a : Z) (l : list Z) (m : mem) : mem :=
  match l with
  | [] => m
  | c :: l => put_at (a + 1) l (<[a := c]> m)
  end.

(** What a formatted call prints, as a function of the strings. *)
Inductive sarg : Type := SStr (s : list Z) | SInt (z : Z).

Definition render_conv (c : Z) (args : list sarg) : option (list Z * list sarg) :=
  if c =? 115 then match args with SStr s :: args => Some (s, args) | _ => None end
  else if (c =? 100) || (c =? 117) || (c =? 120) || (c =? 99) then
    match args with
    | SInt z :: args =>
        Some (if c =? 100 then
                if i32 z <? 0 then 45 :: dec_string (u64 (i32 (- i32 z))) else dec_string (u64 (i32 z))
              else if c =? 117 then dec_string (u32 z)
              else if c =? 120 then hex_string (u32 z)
              else [u8 z], args)
    | _ => None
    end
  else Some ([37; c], args).

Fixpoint render (fmt : list Z) (args : list sarg) : option (list Z) :=
  match fmt with
  | [] => Some []
  | c :: fmt =>
      if c =? 37 then
        match fmt with
        | [] => None
        | c :: fmt =>
            match render_conv c args with
            | Some (out, args) => app out <$> render fmt args
            | None => None
            end
        end
      else cons c <$> render fmt args
  end.

(** The value of a numeral, its most significant digit first. *)
Definition numeral (b : Z) (val : Z → Z) (l : list Z) : Z :=
  fold_left (λ acc c, acc * b + val c) l 0.

Definition dec_val (c : Z) : Z := c - 48.
Definition hex_val (c : Z) : Z := if c <? 58 then c - 48 else c - 97 + 10.

(** The words of a string: the maximal runs without a delimiter. *)
Definition is_delim (ds : list Z) (c : Z) : bool := bool_decide (c ∈ ds).

Fixpoint words_from (ds cur s : list Z) : list (list Z) :=
  match s with
  | [] => match cur with [] => [] | _ => [cur] end
  | c :: s =>
      if is_delim ds c then
        match cur with [] => words_from ds [] s | _ => cur :: words_from ds [] s end
      else words_from ds (cur ++ [c]) s
  end.

Definition words (ds s : list Z) : list (list Z) := words_from ds [] s.

(** A tokenizer whose remaining words are [ws]. *)
Definition tok_state (m : mem) (delim : Z) (ds : list Z) (save : option Z) (ws : list (list Z)) : Prop :=
  cstr m delim ds ∧
  match save with
  | None => ws = []
  | Some p => ∃ s, cstr m p s ∧ words ds s = ws ∧
      (delim + Z.of_nat (length ds) < p ∨ p + Z.of_nat (length s) < delim)
  end.

(** The longest prefix whose characters satisfy [f], and the rest. *)
Fixpoint split_while (f : Z → bool) (s : list Z) : list Z * list Z :=
  match s with
  | [] => ([], [])
  | c :: s' => if f c then let '(a, b) := split_while f s' in (c :: a, b) else ([], s)
  end.

(** A string outside the region [B, E). *)
Definition str_out (B E : Z) (m : mem) (p : Z) (s : list Z) : Prop :=
  cstr m p s ∧ (p + Z.of_nat (length s) < B ∨ E <= p).

Definition arg_ok (B E : Z) (m : mem) (a : va_arg) (s : sarg) : Prop :=
  match a, s with
  | ArgStr p, SStr s => str_out B E m p s
  | ArgInt z, SInt z' => z = z'
  | _, _ => False
  end.

(** ** Lemmas on the memory *)

Lemma lookup_put_at a l m k :
  put_at a l m !! k =
    if (a <=? k) && (k <? a + Z.of_nat (length l)) then l !! Z.to_nat (k - a) else m !! k.
Proof.
  revert a m. induction l as [|c l IH]; intros a m; cbn [put_at length].
  - case_if; [lia|done].
  - rewrite IH. destruct (decide (k = a)) as [->|Hk].
    + rewrite (proj2 (Z.leb_gt (a + 1) a)) by lia. cbn [andb].
      rewrite lookup_insert_eq, Z.leb_refl, (proj2 (Z.ltb_lt _ _)) by lia.
      by rewrite Z.sub_diag.
    + rewrite lookup_insert_ne by done.
      replace (a + 1 + Z.of_nat (length l)) with (a + Z.of_nat (S (length l))) by lia.
      destruct (decide (a <= k)).
      * rewrite !(proj2 (Z.leb_le _ _)) by lia. cbn [andb]. case_if; [|done].
        by replace (Z.to_nat (k - a)) with (S (Z.to_nat (k - (a + 1)))) by lia.
      * by rewrite !(proj2 (Z.leb_gt _ _)) by lia.
Qed.

Lemma put_at_out a l m k : k < a ∨ a + Z.of_nat (length l) <= k → put_at a l m !! k = m !! k.
Proof. intros H. rewrite lookup_put_at. case_if; [lia|done]. Qed.

Lemma put_at_in a l m : bytes_at (put_at a l m) a l.
Proof.
  intros i c Hi. pose proof (lookup_lt_Some _ _ _ Hi). rewrite lookup_put_at.
  rewrite (proj2 (Z.leb_le _ _)), (proj2 (Z.ltb_lt _ _)) by lia. cbn [andb].
  rewrite <- Hi. f_equal. lia.
Qed.

Lemma put_at_snoc a l c m :
  put_at a (l ++ [c]) m = put_at a l (<[a + Z.of_nat (length l) := c]> m).
Proof.
  revert a m. induction l as [|x l IH]; intros a m; cbn [put_at app length].
  - by rewrite Z.add_0_r.
  - rewrite IH. replace (a + 1 + Z.of_nat (length l)) with (a + Z.of_nat (S (length l))) by lia.
    f_equal. apply insert_insert_ne. lia.
Qed.

Lemma put_at_app a l k m :
  put_at a (l ++ k) m = put_at (a + Z.of_nat (length l)) k (put_at a l m).
Proof.
  revert a m. induction l as [|x l IH]; intros a m; cbn [put_at app length].
  - by rewrite Z.add_0_r.
  - rewrite IH. f_equal. lia.
Qed.

Lemma put_at_mapped a l m k n : mapped m k n → mapped (put_at a l m) k n.
Proof.
  intros H i Hi. rewrite lookup_put_at. case_if; [|by apply H].
  apply lookup_lt_is_Some. lia.
Qed.

(** Writing elsewhere leaves the bytes. *)
Lemma put_at_bytes a l m k s :
  bytes_at m k s → k + Z.of_nat (length s) <= a ∨ a + Z.of_nat (length l) <= k →
  bytes_at (put_at a l m) k s.
Proof.
  intros H Hd i c Hi. pose proof (lookup_lt_Some _ _ _ Hi). rewrite put_at_out by lia. by apply H.
Qed.

Lemma bytes_at_cons m a c l : bytes_at m a (c :: l) ↔ m !! a = Some c ∧ bytes_at m (a + 1) l.
Proof.
  split.
  - intros H. split; [rewrite <- (Z.add_0_r a); by apply (H 0%nat)|].
    intros i x Hi. replace (a + 1 + Z.of_nat i) with (a + Z.of_nat (S i)) by lia. by apply H.
  - intros [Hc Hl] [|i] x Hx; [injection Hx as <-; by rewrite Z.add_0_r|].
    replace (a + Z.of_nat (S i)) with (a + 1 + Z.of_nat i) by lia. by apply Hl.
Qed.

Lemma bytes_at_app m a l k :
  bytes_at m a (l ++ k) ↔ bytes_at m a l ∧ bytes_at m (a + Z.of_nat (length l)) k.
Proof.
  revert a. induction l as [|c l IH]; intros a; cbn [app length].
  - rewrite Z.add_0_r. split; [intros H; split; [by intros ? ?|done]|by intros [_ ?]].
  - rewrite !bytes_at_cons, IH.
    replace (a + Z.of_nat (S (length l))) with (a + 1 + Z.of_nat (length l)) by lia. tauto.
Qed.

Lemma mapped_S m a n : mapped m a (S n) ↔ is_Some (m !! a) ∧ mapped m (a + 1) n.
Proof.
  split.
  - intros H. split; [rewrite <- (Z.add_0_r a); apply (H 0%nat); lia|].
    intros i Hi. replace (a + 1 + Z.of_nat i) with (a + Z.of_nat (S i)) by lia. apply H. lia.
  - intros [Ha H] [|i] Hi; [by rewrite Z.add_0_r|].
    replace (a + Z.of_nat (S i)) with (a + 1 + Z.of_nat i) by lia. apply H. lia.
Qed.

Lemma put_at_keeps a l m x : is_Some (m !! x) → is_Some (put_at a l m !! x).
Proof. intros Hx. pose proof (put_at_mapped a l m x 1) as Hm. rewrite <- (Z.add_0_r x). apply (Hm ltac:(intros i Hi; by replace (x + Z.of_nat i) with x by lia) 0%nat). lia. Qed.

Lemma mapped_insert m a n k v : mapped m a n → mapped (<[k := v]> m) a n.
Proof. intros H. apply (put_at_mapped k [v] m a n H). Qed.

Lemma bytes_at_mapped m a l : bytes_at m a l → mapped m a (length l).
Proof. intros H i [c Hc]%lookup_lt_is_Some. exists c. by apply H. Qed.

(** A string in a finite memory is no longer than the memory. *)
Lemma mapped_size m a n : mapped m a n → (n <= size m)%nat.
Proof.
  intros H. set (ks := (λ i : nat, a + Z.of_nat i) <$> seq 0 n).
  assert (NoDup ks) as Hnd.
  { apply NoDup_fmap_2; [intros x y Hxy; lia|]. apply NoDup_ListNoDup, seq_NoDup. }
  pose proof (size_list_to_set (C := gset Z) ks Hnd) as Hs.
  unfold ks in Hs at 2. rewrite length_fmap, length_seq in Hs. rewrite <- Hs, <- (size_dom (D := gset Z)).
  apply subseteq_size. intros x Hx. apply elem_of_list_to_set, list_elem_of_fmap in Hx as (i & -> & Hi).
  apply elem_of_dom, H. apply elem_of_seq in Hi. lia.
Qed.

Lemma cstr_nil m a : cstr m a [] ↔ m !! a = Some 0.
Proof.
  unfold cstr. cbn. rewrite bytes_at_cons. split; [tauto|]. intros H. split; [|done].
  split; [done|]. by intros ? ?.
Qed.

Lemma cstr_cons m a c s :
  cstr m a (c :: s) ↔ m !! a = Some c ∧ 0 < c < 256 ∧ cstr m (a + 1) s.
Proof. unfold cstr. cbn [app]. rewrite bytes_at_cons, Forall_cons. tauto. Qed.

Lemma cstr_fuel m a s : cstr m a s → (length s < scan_fuel m)%nat.
Proof.
  intros [H _]. apply bytes_at_mapped, mapped_size in H. rewrite length_app in H. cbn in H.
  unfold scan_fuel. lia.
Qed.

Lemma ldb_Some m a c : m !! a = Some c → ldb m a = Done c.
Proof. unfold ldb. by intros ->. Qed.

Lemma stb_Done m a c : is_Some (m !! a) → byte c → stb a c m = Done (<[a := c]> m).
Proof. intros [x Hx] Hc. unfold stb. rewrite Hx, wrap_small; [done|exact Hc]. Qed.

(** ** Lemmas on the operations *)

Lemma store_bytes_Done a l m :
  mapped m a (length l) → Forall byte l → store_bytes a l m = Done (put_at a l m).
Proof.
  revert a m. induction l as [|c l IH]; intros a m Hm Hl; cbn [store_bytes put_at]; [done|].
  apply mapped_S in Hm as [Ha Hm]. apply Forall_cons in Hl as [Hc Hl].
  rstep (stb_Done m a c Ha Hc). apply IH; [|done]. by apply mapped_insert.
Qed.

(** The source of a forward copy must not start below the destination. *)
Lemma copy_up_Done l d s i m :
  bytes_at m (s + i) l → Forall byte l → mapped m (d + i) (length l) →
  d < s ∨ s + i + Z.of_nat (length l) <= d + i ∨ l = [] →
  copy_up (length l) d s i m = Done (put_at (d + i) l m).
Proof.
  revert i m. induction l as [|c l IH]; intros i m Hs Hb Hm Hd; cbn [copy_up put_at length]; [done|].
  apply bytes_at_cons in Hs as [Hc Hs]. apply Forall_cons in Hb as [Hbc Hb].
  apply mapped_S in Hm as [Ha Hm]. rstep (ldb_Some _ _ _ Hc). rstep (stb_Done m (d + i) c Ha Hbc).
  rewrite IH.
  - by rewrite Z.add_assoc.
  - rewrite Z.add_assoc. apply (put_at_bytes (d + i) [c]); [done|]. cbn [length] in *.
    destruct Hd as [?|[?|?]]; [lia| |done]. destruct l; [|cbn in *; lia].
    cbn. lia.
  - done.
  - rewrite Z.add_assoc. by apply mapped_insert.
  - destruct Hd as [?|[Hd|?]]; [by left|right; left; cbn [length] in Hd; lia|done].
Qed.

(** The source of a backward copy must not start above the destination. *)
Lemma copy_down_Done l d s m :
  bytes_at m s l → Forall byte l → mapped m d (length l) → s <= d →
  copy_down (length l) d s m = Done (put_at d l m).
Proof.
  revert m. induction l as [|c l IH] using rev_ind; intros m Hs Hb Hm Hd; [done|].
  rewrite length_app, Nat.add_1_r. cbn [copy_down].
  apply bytes_at_app in Hs as [Hs Hc]. apply bytes_at_cons in Hc as [Hc _].
  apply Forall_app in Hb as [Hb Hbc]. apply Forall_cons in Hbc as [Hbc _].
  rewrite length_app in Hm. cbn [length] in Hm.
  rstep (ldb_Some _ _ _ Hc). rstep (stb_Done m (d + Z.of_nat (length l)) c (Hm (length l) ltac:(lia)) Hbc).
  rewrite IH.
  - by rewrite put_at_snoc.
  - apply (put_at_bytes _ [c]); [done|]. lia.
  - done.
  - apply mapped_insert. intros i Hi. apply Hm. lia.
  - done.
Qed.

Lemma strlen_loop_Done fuel m a s k :
  cstr m (a + k) s → (length s < fuel)%nat →
  strlen_loop fuel m a k = Done (k + Z.of_nat (length s)).
Proof.
  revert k fuel. induction s as [|c s IH]; intros k [|fuel] Hs Hf; cbn [strlen_loop length] in *; try lia.
  - apply cstr_nil in Hs. rstep (ldb_Some _ _ _ Hs). cbn. f_equal. lia.
  - apply cstr_cons in Hs as (Hc & Hr & Hs). rstep (ldb_Some _ _ _ Hc).
    rewrite (proj2 (Z.eqb_neq c 0)) by lia. rewrite IH; [f_equal; lia| |lia].
    by rewrite Z.add_assoc.
Qed.

Lemma strlen_Done m a s : cstr m a s → strlen m a = Done (Z.of_nat (length s)).
Proof.
  intros H. unfold strlen. rewrite (strlen_loop_Done _ m a s 0); [done| |by eapply cstr_fuel].
  by rewrite Z.add_0_r.
Qed.

(** Where a character of a string is. *)
Lemma strchr_loop_Done fuel m a s ch :
  cstr m a s → (length s < fuel)%nat → 0 < ch < 256 →
  ∃ r, strchr_loop fuel m a ch = Done r ∧ (is_Some r ↔ ch ∈ s).
Proof.
  intros Hs Hf Hch. revert a fuel Hs Hf.
  induction s as [|c s IH]; intros a [|fuel] Hs Hf; cbn [strchr_loop length] in *; try lia.
  - apply cstr_nil in Hs. rstep (ldb_Some _ _ _ Hs). rewrite wrap_small by lia.
    rewrite (proj2 (Z.eqb_neq 0 ch)) by lia. cbn. eexists. split; [done|].
    split; [by intros [? ?]|by intros ?%not_elem_of_nil].
  - apply cstr_cons in Hs as (Hc & Hr & Hs). rstep (ldb_Some _ _ _ Hc). rewrite wrap_small by lia.
    destruct (Z.eqb_spec c ch) as [->|Hne].
    + eexists. split; [done|]. split; [by left|by eexists].
    + rewrite (proj2 (Z.eqb_neq c 0)) by lia.
      destruct (IH (a + 1) fuel Hs ltac:(lia)) as (r & -> & Hiff). exists r. split; [done|].
      rewrite Hiff, elem_of_cons. split; [by right|]. intros [->|]; done.
Qed.

Lemma strchr_Done m a s ch :
  cstr m a s → 0 < ch < 256 → ∃ r, strchr m a ch = Done r ∧ (is_Some r ↔ ch ∈ s).
Proof. intros. eapply strchr_loop_Done; [done|by eapply cstr_fuel|done]. Qed.

Lemma strcmp_loop_Done fuel m a b s t :
  cstr m a s → cstr m b t → (length s < fuel)%nat →
  ∃ r, strcmp_loop fuel m a b = Done r ∧ (r = 0 ↔ s = t).
Proof.
  intros Ha Hb Hf. revert a b t fuel Ha Hb Hf.
  induction s as [|c s IH]; intros a b t [|fuel] Ha Hb Hf; cbn [strcmp_loop length] in *; try lia.
  - apply cstr_nil in Ha. rstep (ldb_Some _ _ _ Ha). destruct t as [|x t].
    + apply cstr_nil in Hb. rstep (ldb_Some _ _ _ Hb). cbn. eexists. split; [done|]. done.
    + apply cstr_cons in Hb as (Hx & Hr & _). rstep (ldb_Some _ _ _ Hx). cbn [negb andb Z.eqb].
      rewrite (proj2 (Z.ltb_lt 0 x)) by lia. eexists. split; [done|]. done.
  - apply cstr_cons in Ha as (Hc & Hr & Ha). rstep (ldb_Some _ _ _ Hc).
    rewrite (proj2 (Z.eqb_neq c 0)) by lia. cbn [negb andb]. destruct t as [|x t].
    + apply cstr_nil in Hb. rstep (ldb_Some _ _ _ Hb). rewrite (proj2 (Z.eqb_neq c 0)) by lia.
      rewrite (proj2 (Z.ltb_ge c 0)), (proj2 (Z.ltb_lt 0 c)) by lia. eexists. split; [done|]. done.
    + apply cstr_cons in Hb as (Hx & Hrx & Hb). rstep (ldb_Some _ _ _ Hx).
      destruct (Z.eqb_spec c x) as [<-|Hne].
      * destruct (IH (a + 1) (b + 1) t fuel Ha Hb ltac:(lia)) as (r & -> & Hiff).
        exists r. split; [done|]. rewrite Hiff. split; congruence.
      * eexists. split; [done|]. split; [|congruence]. repeat case_if; lia.
Qed.

Lemma strcmp_Done m a b s t :
  cstr m a s → cstr m b t → ∃ r, strcmp m a b = Done r ∧ (r = 0 ↔ s = t).
Proof. intros. eapply strcmp_loop_Done; [done..|by eapply cstr_fuel]. Qed.

(** ** Lemmas on numerals *)

Lemma digits_rev_value fuel b v :
  1 < b → 0 <= v < b ^ Z.of_nat fuel →
  fold_right (λ d acc, acc * b + d) 0 (digits_rev fuel b v) = v.
Proof.
  intros Hb. revert v. induction fuel as [|fuel IH]; intros v Hv; cbn [digits_rev].
  - cbn in *. lia.
  - case_if; [|cbn; lia]. cbn [fold_right]. rewrite Nat2Z.inj_succ, Z.pow_succ_r in Hv by lia.
    rewrite IH.
    + pose proof (Z.div_mod v b ltac:(lia)). lia.
    + split; [apply Z.div_pos; lia|]. apply Z.div_lt_upper_bound; lia.
Qed.

Lemma digits_rev_range fuel b v : 1 < b → Forall (λ d, 0 <= d < b) (digits_rev fuel b v).
Proof.
  intros Hb. revert v. induction fuel as [|fuel IH]; intros v; cbn [digits_rev]; [constructor|].
  case_if; constructor; [|apply IH]. apply Z.mod_pos_bound. lia.
Qed.

Lemma digits_rev_length fuel b v : (length (digits_rev fuel b v) <= fuel)%nat.
Proof.
  revert v. induction fuel as [|fuel IH]; intros v; cbn [digits_rev]; [cbn; lia|].
  case_if; cbn [length]; [specialize (IH (v / b)); lia|lia].
Qed.

Lemma count_digits_length fuel b v i :
  count_digits fuel b v i = i + Z.of_nat (length (digits_rev fuel b v)).
Proof.
  revert v i. induction fuel as [|fuel IH]; intros v i; cbn [count_digits digits_rev]; [cbn; lia|].
  case_if; [|cbn; lia]. rewrite IH. cbn [length]. lia.
Qed.

Lemma numeral_rev b val l :
  numeral b val (rev l) = fold_right (λ c acc, acc * b + val c) 0 l.
Proof. unfold numeral. by rewrite <- fold_left_rev_right, rev_involutive. Qed.

Lemma numeral_digits b val digit fuel v :
  1 < b → (∀ d, 0 <= d < b → val (digit d) = d) → 0 <= v < b ^ Z.of_nat fuel →
  numeral b val (rev (digit <$> digits_rev fuel b v)) = v.
Proof.
  intros Hb Hval Hv. rewrite numeral_rev. rewrite <- (digits_rev_value fuel b v Hb Hv) at 2.
  pose proof (digits_rev_range fuel b v Hb) as Hr.
  induction Hr as [|d l Hd _ IH]; cbn; [done|]. by rewrite IH, Hval.
Qed.

Lemma conv_byte digit (l : list Z) :
  (∀ d, 0 <= d < 16 → 48 <= digit d < 103) → Forall (λ d, 0 <= d < 16) l →
  Forall (λ c, 48 <= c < 103) (rev (digit <$> l)).
Proof.
  intros Hd Hl. apply Forall_rev, Forall_fmap. eapply Forall_impl; [done|]. intros. by apply Hd.
Qed.

Lemma dec_string_chars v : Forall (λ c, 48 <= c < 103) (dec_string v).
Proof.
  unfold dec_string. case_if; [repeat constructor; lia|]. apply conv_byte.
  - unfold dec_digit. lia.
  - eapply Forall_impl; [apply (digits_rev_range 20 10); lia|]. cbn. lia.
Qed.

Lemma hex_string_chars v : Forall (λ c, 48 <= c < 103) (hex_string v).
Proof.
  unfold hex_string. case_if; [repeat constructor; lia|]. apply conv_byte.
  - unfold hex_digit. intros. case_if; lia.
  - apply (digits_rev_range 16 16). lia.
Qed.

Lemma chars_byte l : Forall (λ c, 48 <= c < 103) l → Forall byte l.
Proof. intros H. eapply Forall_impl; [done|]. unfold byte. cbn. lia. Qed.

Lemma dec_string_size v :
  Z.of_nat (length (dec_string v)) = get_unsigned2string_final_size v.
Proof.
  unfold dec_string, get_unsigned2string_final_size. case_if; [done|].
  rewrite count_digits_length, length_rev, length_fmap. lia.
Qed.

Lemma hex_string_size v :
  Z.of_nat (length (hex_string v)) = get_unsigned2hex_final_size v.
Proof.
  unfold hex_string, get_unsigned2hex_final_size. case_if; [done|].
  rewrite count_digits_length, length_rev, length_fmap. lia.
Qed.

(** ** Lemmas on formatting *)

Lemma cstr_put a l m p s :
  cstr m p s → p + Z.of_nat (length s) < a ∨ a + Z.of_nat (length l) <= p → cstr (put_at a l m) p s.
Proof.
  intros [H Hs] Hd. split; [|done]. apply put_at_bytes; [done|].
  rewrite length_app. cbn. lia.
Qed.

Lemma str_out_put B E a l m p s :
  str_out B E m p s → B <= a → a + Z.of_nat (length l) <= E → str_out B E (put_at a l m) p s.
Proof. intros [H Hd] ? ?. split; [|done]. apply cstr_put; [done|lia]. Qed.

Lemma args_put B E a l m args sargs :
  Forall2 (arg_ok B E m) args sargs → B <= a → a + Z.of_nat (length l) <= E →
  Forall2 (arg_ok B E (put_at a l m)) args sargs.
Proof.
  intros H ? ?. eapply Forall2_impl; [done|]. intros [p|z] [s|z']; cbn; try done.
  intros. by apply str_out_put.
Qed.

Lemma copy_str_Done fuel B E p s buf m :
  str_out B E m p s → (length s < fuel)%nat → B <= buf → buf + Z.of_nat (length s) <= E →
  mapped m buf (length s) →
  copy_str fuel p buf m = Done (buf + Z.of_nat (length s), put_at buf s m).
Proof.
  revert fuel p buf m. induction s as [|c s IH]; intros [|fuel] p buf m [Hs Hd] Hf HB HE Hm;
    cbn [copy_str length put_at] in *; try lia.
  - apply cstr_nil in Hs. rstep (ldb_Some _ _ _ Hs). cbn. by rewrite Z.add_0_r.
  - apply cstr_cons in Hs as (Hc & Hr & Hs). rstep (ldb_Some _ _ _ Hc).
    rewrite (proj2 (Z.eqb_neq c 0)) by lia. apply mapped_S in Hm as [Ha Hm].
    rewrite (stb_Done m buf c Ha) by (unfold byte; lia). rsimpl. rewrite IH.
    + by replace (buf + 1 + Z.of_nat (length s)) with (buf + Z.of_nat (S (length s))) by lia.
    + apply (str_out_put B E buf [c]); [|lia|cbn; lia]. split; [done|lia].
    + lia.
    + lia.
    + lia.
    + by apply mapped_insert.
Qed.

Lemma put_bytes_Done l buf m :
  mapped m buf (length l) → Forall byte l →
  put_bytes l buf m = Done (buf + Z.of_nat (length l), put_at buf l m).
Proof. intros. unfold put_bytes. by rstep (store_bytes_Done buf l m). Qed.

Lemma take_int_Done B E m args z sargs :
  Forall2 (arg_ok B E m) args (SInt z :: sargs) →
  ∃ args', take_int args = Done (z, args') ∧ Forall2 (arg_ok B E m) args' sargs.
Proof.
  intros H. inversion H as [|[p|z'] ? args' ? Ha Hr]; subst; cbn in Ha; [done|].
  subst. by exists args'.
Qed.

Lemma take_str_Done B E m args s sargs :
  Forall2 (arg_ok B E m) args (SStr s :: sargs) →
  ∃ p args', take_str args = Done (p, args') ∧ str_out B E m p s ∧ Forall2 (arg_ok B E m) args' sargs.
Proof.
  intros H. inversion H as [|[p|z'] ? args' ? Ha Hr]; subst; cbn in Ha; [|done].
  by exists p, args'.
Qed.

Lemma sprintf_conv_Done B E c args sargs out sargs' buf m :
  render_conv c sargs = Some (out, sargs') → Forall2 (arg_ok B E m) args sargs → byte c →
  B <= buf → buf + Z.of_nat (length out) <= E → mapped m buf (length out) →
  ∃ args', sprintf_conv c args buf m = Done (args', buf + Z.of_nat (length out), put_at buf out m) ∧
    Forall2 (arg_ok B E m) args' sargs'.
Proof.
  intros Hr Ha Hc HB HE Hm. unfold render_conv in Hr. unfold sprintf_conv.
  destruct (Z.eqb_spec c 115) as [->|Hs].
  { destruct sargs as [|[s|z] sargs]; try done. injection Hr as -> ->.
    apply take_str_Done in Ha as (p & args' & -> & Hp & Ha). rsimpl.
    rewrite (copy_str_Done _ B E p out) by (try done; eapply cstr_fuel, Hp). rsimpl. eauto. }
  destruct ((c =? 100) || (c =? 117) || (c =? 120) || (c =? 99))%bool eqn:Econv.
  - destruct sargs as [|[s|z] sargs]; try done.
    apply take_int_Done in Ha as (args' & Et & Ha).
    assert (Hd : Forall byte (dec_string (u64 (i32 (- i32 z))))) by apply chars_byte, dec_string_chars.
    assert (Hd' : Forall byte (dec_string (u64 (i32 z)))) by apply chars_byte, dec_string_chars.
    exists args'. destruct (c =? 100).
    { rewrite Et. rsimpl. injection Hr as <- <-. split; [|done]. destruct (i32 z <? 0).
      - rewrite put_bytes_Done; [done..|]. constructor; [by unfold byte|done].
      - by rewrite put_bytes_Done. }
    destruct (c =? 117); [|destruct (c =? 120); [|destruct (c =? 99); [|done]]];
      rewrite Et; rsimpl; injection Hr as <- <-; (split; [|done]);
      rewrite put_bytes_Done; try done.
    + apply chars_byte, dec_string_chars.
    + apply chars_byte, hex_string_chars.
    + constructor; [apply (wrap_range 8); lia|constructor].
  - apply orb_false_iff in Econv as [Econv E4]. apply orb_false_iff in Econv as [Econv E3].
    apply orb_false_iff in Econv as [E1 E2].
    rewrite E1, E2, E3, E4. injection Hr as <- <-. rewrite put_bytes_Done.
    + rsimpl. eauto.
    + done.
    + apply Forall_cons; split; [by unfold byte|]. apply Forall_cons; split; [exact Hc|constructor].
Qed.

Lemma sprintf_loop_Done B E fuel f args sargs out fmt buf m :
  render f sargs = Some out → str_out B E m fmt f → Forall2 (arg_ok B E m) args sargs →
  (length f < fuel)%nat → B <= buf → buf + Z.of_nat (length out) <= E → mapped m buf (length out) →
  sprintf_loop fuel fmt args buf m = Done (buf + Z.of_nat (length out), put_at buf out m).
Proof.
  revert f args sargs out fmt buf m. induction fuel as [|fuel IH];
    intros f args sargs out fmt buf m Hr [Hs Hd] Ha Hf HB HE Hm; [lia|].
  cbn [sprintf_loop]. destruct f as [|c f].
  { apply cstr_nil in Hs. rstep (ldb_Some _ _ _ Hs). injection Hr as <-. cbn. by rewrite Z.add_0_r. }
  apply cstr_cons in Hs as (Hc & Hrc & Hs). rstep (ldb_Some _ _ _ Hc).
  rewrite (proj2 (Z.eqb_neq c 0)) by lia. cbn [render length] in *.
  destruct (Z.eqb_spec c 37) as [->|Hne].
  - destruct f as [|c f]; [done|].
    apply cstr_cons in Hs as (Hc' & Hrc' & Hs). rstep (ldb_Some _ _ _ Hc').
    destruct (render_conv c sargs) as [[o sargs']|] eqn:Ec; [|done].
    destruct (render f sargs') as [out'|] eqn:Ef; [|done]. injection Hr as <-.
    rewrite length_app in *. cbn [length] in *.
    assert (mapped m buf (length o)) as Hm1 by (intros i Hi; apply Hm; lia).
    destruct (sprintf_conv_Done B E c args sargs o sargs' buf m) as (args' & -> & Ha');
      [done..|unfold byte; lia|lia|lia|done|]. rsimpl.
    rewrite (IH f args' sargs' out'); [|done|apply str_out_put; [|lia|lia]|by apply args_put; [|lia|lia]|lia|lia|lia|].
    + rewrite put_at_app. f_equal. f_equal. lia.
    + split; [done|lia].
    + intros i Hi. apply put_at_mapped with (n := length out'); [|done]. intros j Hj.
      replace (buf + Z.of_nat (length o) + Z.of_nat j) with (buf + Z.of_nat (length o + j)) by lia.
      apply Hm. lia.
  - destruct (render f sargs) as [out'|] eqn:Ef; [|done]. injection Hr as <-. cbn [length] in *.
    apply mapped_S in Hm as [Hb Hm].
    rewrite (stb_Done m buf c Hb) by (unfold byte; lia). rsimpl.
    rewrite (IH f args sargs out'); try done; try lia.
    + cbn [put_at]. f_equal. f_equal. lia.
    + apply (str_out_put B E buf [c]); [|lia|cbn; lia]. split; [done|lia].
    + apply (args_put B E buf [c]); [done|lia|cbn; lia].
    + by apply mapped_insert.
Qed.

(** ** Lemmas on tokens *)

Lemma split_while_app f s a b : split_while f s = (a, b) → s = a ++ b.
Proof.
  revert a b. induction s as [|c s IH]; intros a b; cbn [split_while].
  - by intros [= <- <-].
  - destruct (f c); [|by intros [= <- <-]].
    destruct (split_while f s) as [a' b']. intros [= <- <-]. cbn. f_equal. by apply IH.
Qed.

Lemma split_while_rest f s a b :
  split_while f s = (a, b) → Forall (λ c, f c = true) a ∧ match b with [] => True | c :: _ => f c = false end.
Proof.
  revert a b. induction s as [|c s IH]; intros a b; cbn [split_while].
  - intros [= <- <-]. by split.
  - destruct (f c) eqn:E; [|intros [= <- <-]; by split].
    destruct (split_while f s) as [a' b'] eqn:Es. intros [= <- <-].
    destruct (IH a' b' eq_refl) as [Ha Hb]. split; [by constructor|done].
Qed.

Lemma cstr_app m a s t : cstr m a (s ++ t) → cstr m (a + Z.of_nat (length s)) t.
Proof.
  intros [H Hs]. rewrite <- app_assoc in H. apply bytes_at_app in H as [_ H].
  apply Forall_app in Hs as [_ Hs]. by split.
Qed.

Lemma span_loop_Done fuel skip m delim ds p s a b :
  cstr m p s → cstr m delim ds → (length s < fuel)%nat →
  split_while (λ c, eqb (is_delim ds c) skip) s = (a, b) →
  span_loop fuel skip m delim p = Done (p + Z.of_nat (length a)).
Proof.
  intros Hs Hds Hf. revert p a b fuel Hs Hf.
  induction s as [|c s IH]; intros p a b [|fuel] Hs Hf; cbn [span_loop split_while length] in *; try lia.
  - apply cstr_nil in Hs. rstep (ldb_Some _ _ _ Hs). intros [= <- <-]. cbn. by rewrite Z.add_0_r.
  - apply cstr_cons in Hs as (Hc & Hr & Hs). rstep (ldb_Some _ _ _ Hc).
    rewrite (proj2 (Z.eqb_neq c 0)) by lia.
    destruct (strchr_Done m delim ds c Hds Hr) as (r & -> & Hiff). rsimpl.
    assert (bool_decide (is_Some r) = is_delim ds c) as ->.
    { unfold is_delim. by apply bool_decide_ext. }
    destruct (eqb (is_delim ds c) skip).
    + destruct (split_while _ s) as [a' b'] eqn:Es. intros [= <- <-].
      rewrite (IH (p + 1) a' b') by (done || lia). cbn [length]. f_equal. lia.
    + intros [= <- <-]. cbn. by rewrite Z.add_0_r.
Qed.

Lemma words_skip ds a b :
  Forall (λ c, eqb (is_delim ds c) true = true) a → words ds (a ++ b) = words ds b.
Proof.
  unfold words. induction 1 as [|c a Hc _ IH]; [done|]. cbn [app words_from].
  destruct (is_delim ds c); [done|discriminate].
Qed.

Lemma words_take ds cur a b :
  Forall (λ c, eqb (is_delim ds c) false = true) a →
  words_from ds cur (a ++ b) = words_from ds (cur ++ a) b.
Proof.
  intros H. revert cur. induction H as [|c a Hc _ IH]; intros cur; cbn [app words_from].
  - by rewrite app_nil_r.
  - destruct (is_delim ds c); [discriminate|]. by rewrite IH, <- app_assoc.
Qed.

(** One call of the tokenizer, at a string with words left or not. *)
Lemma strtok_r_at m delim ds p s :
  cstr m p s → cstr m delim ds →
  (delim + Z.of_nat (length ds) < p ∨ p + Z.of_nat (length s) < delim) →
  match words ds s with
  | [] => strtok_r None delim (Some p) m = Done (None, None, m)
  | w :: ws => ∃ t save' m', strtok_r None delim (Some p) m = Done (Some t, save', m') ∧
      cstr m' t w ∧ cstr m' delim ds ∧ p <= t ∧ t + Z.of_nat (length w) <= p + Z.of_nat (length s) ∧
      match save' with
      | None => ws = []
      | Some q => q = t + Z.of_nat (length w) + 1 ∧
          ∃ s', cstr m' q s' ∧ words ds s' = ws ∧ q + Z.of_nat (length s') = p + Z.of_nat (length s)
      end ∧
      (∀ a, a ≠ t + Z.of_nat (length w) → m' !! a = m !! a)
  end.
Proof.
  intros Hs Hds Hd. unfold strtok_r.
  destruct (split_while (λ c, eqb (is_delim ds c) true) s) as [a b] eqn:E1.
  rewrite (span_loop_Done _ true m delim ds p s a b Hs Hds (cstr_fuel _ _ _ Hs) E1). rsimpl.
  pose proof (split_while_app _ _ _ _ E1) as ->. pose proof (split_while_rest _ _ _ _ E1) as [Ha Hb].
  rewrite (words_skip ds a b Ha). apply cstr_app in Hs. rewrite length_app in Hd.
  set (t := p + Z.of_nat (length a)) in *. destruct b as [|c b].
  { apply cstr_nil in Hs. by rstep (ldb_Some _ _ _ Hs). }
  assert (Hc := Hs). apply cstr_cons in Hc as (Hc & Hrc & _). rstep (ldb_Some _ _ _ Hc).
  rewrite (proj2 (Z.eqb_neq c 0)) by lia.
  destruct (split_while (λ c, eqb (is_delim ds c) false) (c :: b)) as [w r] eqn:E2.
  rewrite (span_loop_Done _ false m delim ds t (c :: b) w r Hs Hds (cstr_fuel _ _ _ Hs) E2). rsimpl.
  pose proof (split_while_app _ _ _ _ E2) as E3. pose proof (split_while_rest _ _ _ _ E2) as [Hw Hr].
  assert (w ≠ []) as Hwne.
  { intros ->. cbn in E3. subst r. cbn in Hr. by destruct (is_delim ds c). }
  rewrite E3 in Hs |- *. unfold words. rewrite words_take by done. cbn [app].
  assert (length (c :: b) = length w + length r)%nat as Hlen by (by rewrite E3, length_app).
  pose proof (cstr_app _ _ _ _ Hs) as Hq. destruct r as [|x r].
  - rewrite app_nil_r in Hs. apply cstr_nil in Hq. rstep (ldb_Some _ _ _ Hq). cbn [negb Z.eqb words_from].
    destruct w as [|w0 w']; [done|]. eexists _, _, _. split; [done|]. split; [done|].
    split; [done|]. rewrite !length_app. cbn [length]. by split_and!; try lia.
  - assert (Hx := Hq). apply cstr_cons in Hx as (Hx & Hrx & Hrest).
    rstep (ldb_Some _ _ _ Hx). rewrite (proj2 (Z.eqb_neq x 0)) by lia. cbn [negb].
    rewrite (stb_Done m _ 0) by (by eexists || (unfold byte; lia)). rsimpl.
    assert (is_delim ds x = true) as Hdx by (by destruct (is_delim ds x)).
    cbn [words_from]. rewrite Hdx. destruct w as [|w0 w']; [done|]. set (w := w0 :: w') in *.
    eexists _, _, _. split; [done|]. cbn [length] in Hlen. split.
    + destruct Hs as [Hb1 Hb2]. rewrite <- app_assoc in Hb1. apply bytes_at_app in Hb1 as [Hb1 _].
      split; [|by apply Forall_app in Hb2 as [? _]]. apply bytes_at_app. split.
      * apply (put_at_bytes _ [0]); [done|]. lia.
      * apply (put_at_in _ [0]).
    + split; [apply (cstr_put _ [0]); [done|cbn [length] in *; lia]|].
      rewrite !length_app. cbn [length]. split; [lia|]. split; [lia|].
      split; [|intros a' Ha'; by rewrite lookup_insert_ne by done]. split; [done|].
      exists r. split; [apply (cstr_put _ [0]); [done|cbn [length]; lia]|]. split; [done|].
      cbn [length] in *. lia.
Qed.

(** ** Theorems *)

(** [memmove] copies for every overlap of its regions: with the source
    readable and the destination mapped, it terminates normally, afterwards
    the destination holds the bytes the source held before the call, and every
    address outside the destination is unchanged. *)
Theorem memmove_overlap m dst src l :
  bytes_at m src l → Forall byte l → mapped m dst (length l) →
  ∃ m', memmove dst src (Z.of_nat (length l)) m = Done m' ∧ bytes_at m' dst l ∧
    (∀ a, a < dst ∨ dst + Z.of_nat (length l) <= a → m' !! a = m !! a).
Proof.
  intros Hs Hb Hm. exists (put_at dst l m).
  split; [|split; [apply put_at_in|intros; by apply put_at_out]].
  unfold memmove. rewrite Nat2Z.id. case_if.
  - rewrite <- (Z.add_0_r dst) at 2. apply copy_up_Done; rewrite ?Z.add_0_r; auto.
  - by apply copy_down_Done.
Qed.

(** [unsigned_to_string] on any 64-bit value stores a terminated decimal
    numeral whose value is the argument, whose length is the size
    [get_unsigned2string_final_size] promises and at most the 20 characters
    of its buffer; likewise [unsigned_to_hexstring], with 16 characters. *)
Theorem unsigned_to_string_numeral value str m :
  0 <= value < 2 ^ 64 → mapped m str 21 →
  ∃ m' m'' d h, unsigned_to_string value str m = Done m' ∧ cstr m' str d ∧
    numeral 10 dec_val d = value ∧ Z.of_nat (length d) = get_unsigned2string_final_size value ∧
    (length d <= 20)%nat ∧
    unsigned_to_hexstring value str m = Done m'' ∧ cstr m'' str h ∧
    numeral 16 hex_val h = value ∧ Z.of_nat (length h) = get_unsigned2hex_final_size value ∧
    (length h <= 16)%nat.
Proof.
  intros Hv Hm.
  assert (Hput : ∀ l, Forall (λ c, 48 <= c < 103) l → (length l <= 20)%nat →
    ∃ m', store_bytes str (l ++ [0]) m = Done m' ∧ cstr m' str l).
  { intros l Hl Hlen. exists (put_at str (l ++ [0]) m). split.
    - apply store_bytes_Done; [intros i Hi; apply Hm; rewrite length_app in Hi; cbn in Hi; lia|].
      apply Forall_app. split; [by apply chars_byte|repeat constructor; lia].
    - split; [apply put_at_in|]. eapply Forall_impl; [done|]. cbn. lia. }
  assert (length (dec_string value) <= 20)%nat as Hd.
  { unfold dec_string. case_if; [cbn; lia|]. rewrite length_rev, length_fmap. apply digits_rev_length. }
  assert (length (hex_string value) <= 16)%nat as Hh.
  { unfold hex_string. case_if; [cbn; lia|]. rewrite length_rev, length_fmap. apply digits_rev_length. }
  destruct (Hput _ (dec_string_chars value) Hd) as (m' & E1 & H1).
  destruct (Hput _ (hex_string_chars value) ltac:(lia)) as (m'' & E2 & H2).
  exists m', m'', (dec_string value), (hex_string value).
  split; [exact E1|]. split; [exact H1|]. split.
  { unfold dec_string. case_if; [by subst|]. apply numeral_digits; [lia|unfold dec_val, dec_digit; lia|lia]. }
  split; [apply dec_string_size|]. split; [exact Hd|]. split; [exact E2|]. split; [exact H2|]. split.
  { unfold hex_string. case_if; [by subst|]. apply numeral_digits; [lia| |lia].
    unfold hex_val, hex_digit. intros d Hd'. repeat case_if; lia. }
  split; [apply hex_string_size|exact Hh].
Qed.

(** [strtok_r] enumerates the words of a string (the maximal runs of
    characters that are not delimiters), one per call: it returns a terminated
    copy in place of the next word and a saved pointer at which the remaining
    words are still to come, it changes only the byte after the word, and it
    answers null when no word is left. *)
Theorem strtok_r_words m delim ds str saveptr save ws :
  save = match str with Some _ => str | None => saveptr end →
  tok_state m delim ds save ws →
  match ws with
  | [] => strtok_r str delim saveptr m = Done (None, None, m)
  | w :: ws => ∃ t save' m', strtok_r str delim saveptr m = Done (Some t, save', m') ∧
      cstr m' t w ∧ tok_state m' delim ds save' ws ∧
      (∀ a, a ≠ t + Z.of_nat (length w) → m' !! a = m !! a)
  end.
Proof.
  intros Hsave [Hds Hst]. assert (strtok_r str delim saveptr m = strtok_r None delim save m) as ->.
  { subst save. by destruct str. }
  destruct save as [p|]; [|by subst].
  destruct Hst as (s & Hs & <- & Hd). pose proof (strtok_r_at m delim ds p s Hs Hds Hd) as H.
  destruct (words ds s) as [|w ws]; [done|].
  destruct H as (t & save' & m' & E & Hw & Hds' & Hp & Ht & Hst & Hframe). exists t, save', m'.
  split; [done|]. split; [done|]. split; [|done]. split; [done|]. destruct save' as [q|]; [|done].
  destruct Hst as (-> & s' & Hs' & Ew & Hend). exists s'. split; [done|]. split; [done|]. lia.
Qed.

(** [sprintf] writes what its format denotes: with a well-formed format
    (no lone percent sign at its end), arguments of the types it names, and a
    buffer that is large enough and apart from the format and the strings, it
    stores exactly the rendered characters and a terminator, returns their
    number, and changes nothing else. *)
Theorem sprintf_renders m buffer format f args sargs out :
  render f sargs = Some out →
  str_out buffer (buffer + Z.of_nat (length out) + 1) m format f →
  Forall2 (arg_ok buffer (buffer + Z.of_nat (length out) + 1) m) args sargs →
  mapped m buffer (S (length out)) →
  ∃ m', sprintf buffer format args m = Done (Z.of_nat (length out), m') ∧
    bytes_at m' buffer (out ++ [0]) ∧
    (∀ a, a < buffer ∨ buffer + Z.of_nat (length out) < a → m' !! a = m !! a).
Proof.
  intros Hr Hf Ha Hm. exists (put_at buffer (out ++ [0]) m).
  split; [|split; [apply put_at_in|]].
  - unfold sprintf.
    rewrite (sprintf_loop_Done buffer (buffer + Z.of_nat (length out) + 1) _ f args sargs out);
      [|done|done|done|eapply cstr_fuel, Hf|lia|lia|intros i Hi; apply Hm; lia].
    rsimpl. rewrite stb_Done; [|rewrite put_at_out by lia; apply Hm; lia|by unfold byte].
    rsimpl. rewrite put_at_app. cbn [put_at]. f_equal. f_equal. lia.
  - intros a Ho. apply put_at_out. rewrite length_app. cbn. lia.
Qed.

(** ** Witnesses *)

Definition demo_mem (a : Z) (l : list Z) : mem := put_at a l ∅.

Lemma demo_bytes a l : bytes_at (demo_mem a l) a l.
Proof. apply put_at_in. Qed.

Lemma memmove_overlap_witness :
  ∃ m', memmove 12 10 3 (demo_mem 10 [1; 2; 3; 4; 5]) = Done m' ∧ bytes_at m' 12 [1; 2; 3].
Proof.
  destruct (memmove_overlap (demo_mem 10 [1; 2; 3; 4; 5]) 12 10 [1; 2; 3]) as (m' & E & Hb & _).
  - apply (bytes_at_app _ _ [1; 2; 3] [4; 5]), demo_bytes.
  - repeat constructor; unfold byte; lia.
  - intros i Hi. do 3 (destruct i as [|i]; [by eexists|]). cbn in Hi. lia.
  - exists m'. split; [exact E|exact Hb].
Defined.

Lemma unsigned_to_string_numeral_witness :
  ∃ m' d, unsigned_to_string 18446744073709551615 100 (demo_mem 100 (replicate 21 0)) = Done m' ∧
    cstr m' 100 d ∧ numeral 10 dec_val d = 18446744073709551615.
Proof.
  destruct (unsigned_to_string_numeral 18446744073709551615 100 (demo_mem 100 (replicate 21 0)))
    as (m' & _ & d & _ & E & Hc & Hn & _); [lia| |].
  - apply (bytes_at_mapped _ _ (replicate 21 0)), demo_bytes.
  - exists m', d. split; [exact E|]. split; [exact Hc|exact Hn].
Defined.

(** The string " ls  -l" at 100, a blank as delimiter at 50. *)
Definition demo_line : mem := put_at 50 [32; 0] (demo_mem 100 [32; 108; 115; 32; 32; 45; 108; 0]).

Lemma strtok_r_words_witness :
  ∃ t save' m', strtok_r (Some 100) 50 None demo_line = Done (Some t, save', m') ∧
    cstr m' t [108; 115] ∧ tok_state m' 50 [32] save' [[45; 108]].
Proof.
  destruct (strtok_r_words demo_line 50 [32] (Some 100) None (Some 100) [[108; 115]; [45; 108]] eq_refl)
    as (t & save' & m' & E & Hc & Ht & _).
  - split.
    + split; [apply put_at_in|repeat constructor; lia].
    + exists [32; 108; 115; 32; 32; 45; 108]. split; [|split; [by vm_compute|cbn; lia]].
      split; [|repeat constructor; lia].
      apply put_at_bytes; [apply demo_bytes|cbn; lia].
  - exists t, save', m'. split; [exact E|]. split; [exact Hc|exact Ht].
Defined.

(** The format "%s%c%d" at 50, a name at 20, a buffer at 100. *)
Definition demo_fmt : mem :=
  put_at 50 [37; 115; 37; 99; 37; 100; 0] (put_at 20 [104; 100; 48; 0] (demo_mem 100 (replicate 32 0))).

Lemma sprintf_renders_witness :
  ∃ m', sprintf 100 50 [ArgStr 20; ArgInt 112; ArgInt 2] demo_fmt = Done (5, m') ∧
    bytes_at m' 100 [104; 100; 48; 112; 50; 0].
Proof.
  destruct (sprintf_renders demo_fmt 100 50 [37; 115; 37; 99; 37; 100] [ArgStr 20; ArgInt 112; ArgInt 2]
    [SStr [104; 100; 48]; SInt 112; SInt 2] [104; 100; 48; 112; 50]) as (m' & E & Hb & _).
  - by vm_compute.
  - split; [|cbn; lia]. split; [apply put_at_in|repeat constructor; lia].
  - repeat constructor; try (cbn; lia).
    apply put_at_bytes; [apply put_at_in|cbn; lia].
  - intros i Hi. apply put_at_mapped with (n := 32%nat); [apply put_at_mapped|cbn in Hi; lia].
    apply (bytes_at_mapped _ _ (replicate 32 0)), demo_bytes.
  - exists m'. split; [exact E|exact Hb].
Defined.
