(* ===== verification/Bytes.v ===== *)
(** * Bytes of packed structures

    Little-endian fields of a byte buffer, and copies into and out of a buffer
    of known size; a copy that leaves the buffer is [Fault]. *)

From S2P Require Import Prelude CString.

Local Open Scope Z_scope.

Definition byte_of (l : list Z) (off : Z) : Z := default 0 (l !! Z.to_nat off).
Definition le16 (l : list Z) (off : Z) : Z := byte_of l off + 256 * byte_of l (off + 1).
Definition le32 (l : list Z) (off : Z) : Z := le16 l off + 65536 * le16 l (off + 2).

Definition put16 (v : Z) : list Z := [v mod 256; v / 256 mod 256].
Definition put32 (v : Z) : list Z := put16 (v mod 65536) ++ put16 (v / 65536 mod 65536).

Definition slice (off n : Z) (l : list Z) : list Z := take (Z.to_nat n) (drop (Z.to_nat off) l).

Definition splice (off : Z) (new l : list Z) : list Z :=
  take (Z.to_nat off) l ++ new ++ drop (Z.to_nat off + length new) l.

(** [memcpy] from and to a buffer. *)
Definition copy_from (off n : Z) (l : list Z) : run (list Z) :=
  if (0 <=? off) && (0 <=? n) && (off + n <=? Z.of_nat (length l)) then Done (slice off n l) else Stop Fault.

Definition copy_to (off : Z) (new l : list Z) : run (list Z) :=
  if (0 <=? off) && (off + Z.of_nat (length new) <=? Z.of_nat (length l))
  then Done (splice off new l) else Stop Fault.

(** ** Lemmas *)

Lemma copy_from_Done off n l :
  0 <= off → 0 <= n → off + n <= Z.of_nat (length l) → copy_from off n l = Done (slice off n l).
Proof.
  intros. unfold copy_from. rewrite !(proj2 (Z.leb_le _ _)) by lia. done.
Qed.

Lemma copy_to_Done off new l :
  0 <= off → off + Z.of_nat (length new) <= Z.of_nat (length l) → copy_to off new l = Done (splice off new l).
Proof. intros. unfold copy_to. rewrite !(proj2 (Z.leb_le _ _)) by lia. done. Qed.

Lemma length_slice off n l :
  0 <= off → 0 <= n → off + n <= Z.of_nat (length l) → length (slice off n l) = Z.to_nat n.
Proof. intros. unfold slice. rewrite length_take, length_drop. lia. Qed.

Lemma length_splice off new l :
  0 <= off → off + Z.of_nat (length new) <= Z.of_nat (length l) → length (splice off new l) = length l.
Proof. intros. unfold splice. rewrite !length_app, length_take, length_drop. lia. Qed.

Lemma lookup_splice off new l i :
  0 <= off → off + Z.of_nat (length new) <= Z.of_nat (length l) →
  splice off new l !! i =
    if bool_decide (Z.to_nat off <= i < Z.to_nat off + length new)%nat
    then new !! (i - Z.to_nat off)%nat else l !! i.
Proof.
  intros H0 Hl. unfold splice.
  assert (length (take (Z.to_nat off) l) = Z.to_nat off) as Ht by (rewrite length_take; lia).
  case_bool_decide as Hi.
  - rewrite lookup_app_r by lia. rewrite Ht, lookup_app_l by lia. done.
  - destruct (decide (i < Z.to_nat off)%nat).
    + rewrite lookup_app_l by lia. by rewrite lookup_take_lt by lia.
    + rewrite lookup_app_r by lia. rewrite Ht, lookup_app_r by lia.
      rewrite lookup_drop. f_equal. lia.
Qed.

Lemma splice_byte off new l : Forall byte new → Forall byte l → Forall byte (splice off new l).
Proof.
  intros Hn Hl. unfold splice. apply Forall_app. split; [by apply Forall_take|].
  apply Forall_app. split; [done|by apply Forall_drop].
Qed.

Lemma slice_byte off n l : Forall byte l → Forall byte (slice off n l).
Proof. intros. by apply Forall_take, Forall_drop. Qed.

Lemma lookup_slice off n l i :
  0 <= off → 0 <= n → (i < Z.to_nat n)%nat → slice off n l !! i = l !! (Z.to_nat off + i)%nat.
Proof. intros. unfold slice. rewrite lookup_take_lt by lia. by rewrite lookup_drop. Qed.

Lemma slice_splice_same off new l :
  0 <= off → off + Z.of_nat (length new) <= Z.of_nat (length l) →
  slice off (Z.of_nat (length new)) (splice off new l) = new.
Proof.
  intros H0 Hl. apply list_eq. intros i. destruct (decide (i < length new)%nat).
  - rewrite lookup_slice by lia. rewrite lookup_splice by done.
    rewrite bool_decide_eq_true_2 by lia. f_equal. lia.
  - rewrite !lookup_ge_None_2; [done|lia|].
    rewrite length_slice; [lia|lia|lia|rewrite length_splice; lia].
Qed.

Lemma byte_of_range l off : Forall byte l → byte (byte_of l off).
Proof.
  intros H. unfold byte_of. destruct (l !! Z.to_nat off) eqn:E; cbn; [|unfold byte; lia].
  rewrite Forall_lookup in H. by apply H in E.
Qed.

Lemma le16_range l off : Forall byte l → 0 <= le16 l off < 65536.
Proof.
  intros H. unfold le16. pose proof (byte_of_range l off H). pose proof (byte_of_range l (off + 1) H).
  unfold byte in *. lia.
Qed.

Lemma le32_range l off : Forall byte l → 0 <= le32 l off < 2 ^ 32.
Proof.
  intros H. unfold le32. pose proof (le16_range l off H). pose proof (le16_range l (off + 2) H). lia.
Qed.

Lemma put16_byte v : Forall byte (put16 v).
Proof. unfold put16, byte. repeat constructor; apply Z.mod_pos_bound; lia. Qed.

Lemma put32_byte v : Forall byte (put32 v).
Proof. apply Forall_app. split; apply put16_byte. Qed.

Lemma byte_of_slice l off n i :
  0 <= off → 0 <= i < n → byte_of (slice off n l) i = byte_of l (off + i).
Proof.
  intros. unfold byte_of. rewrite lookup_slice by lia. do 2 f_equal. lia.
Qed.

Lemma le16_slice l off n i : 0 <= off → 0 <= i → i + 2 <= n → le16 (slice off n l) i = le16 l (off + i).
Proof. intros. unfold le16. rewrite !byte_of_slice by lia. by rewrite Z.add_assoc. Qed.

Lemma le32_slice l off n i : 0 <= off → 0 <= i → i + 4 <= n → le32 (slice off n l) i = le32 l (off + i).
Proof. intros. unfold le32. rewrite !le16_slice by lia. by rewrite Z.add_assoc. Qed.

Lemma le16_put16 v : 0 <= v < 65536 → le16 (put16 v) 0 = v.
Proof.
  intros. unfold le16. change (byte_of (put16 v) 0) with (v mod 256).
  change (byte_of (put16 v) (0 + 1)) with (v / 256 mod 256). rewrite (Z.mod_small (v / 256)).
  - pose proof (Z.div_mod v 256). lia.
  - split; [apply Z.div_pos; lia|apply Z.div_lt_upper_bound; lia].
Qed.

Lemma le32_put32 v : 0 <= v < 2 ^ 32 → le32 (put32 v) 0 = v.
Proof.
  intros Hv. change (le32 (put32 v) 0) with (le16 (put16 (v mod 65536)) 0 + 65536 * le16 (put16 (v / 65536 mod 65536)) 0).
  pose proof (Z.mod_pos_bound v 65536 ltac:(lia)). pose proof (Z.mod_pos_bound (v / 65536) 65536 ltac:(lia)).
  rewrite !le16_put16 by lia. Z.to_euclidean_division_equations. lia.
Qed.

Lemma byte_of_splice off new l i :
  0 <= off → 0 <= i → off + Z.of_nat (length new) <= Z.of_nat (length l) →
  byte_of (splice off new l) i =
    if (off <=? i) && (i <? off + Z.of_nat (length new)) then byte_of new (i - off) else byte_of l i.
Proof.
  intros. unfold byte_of. rewrite lookup_splice by done.
  case_bool_decide; destruct ((off <=? i) && _)%bool eqn:E; breflect; try lia.
  do 2 f_equal. lia.
Qed.

(** A 16-bit slot of a table is replaced, its neighbours are not. *)
Lemma le16_splice off v l i :
  0 <= off → 0 <= i → off mod 2 = 0 → i mod 2 = 0 → off + 2 <= Z.of_nat (length l) → 0 <= v < 65536 →
  le16 (splice off (put16 v) l) i = if i =? off then v else le16 l i.
Proof.
  intros H0 Hi Ho2 Hi2 Hl Hv. unfold le16. rewrite !byte_of_splice by (cbn [length put16]; lia).
  cbn [length put16]. destruct (Z.eqb_spec i off) as [->|Hne].
  - rewrite !(proj2 (Z.leb_le _ _)), !(proj2 (Z.ltb_lt _ _)) by lia. cbn [andb].
    rewrite <- (le16_put16 v Hv) at 3. unfold le16. f_equal; [f_equal; lia|do 2 f_equal; lia].
  - assert (i + 2 <= off ∨ off + 2 <= i) as Hc.
    { apply Z.mod_divide in Ho2 as [x ->], Hi2 as [y ->]; lia. }
    destruct Hc; repeat match goal with |- context [(off <=? ?a) && (?a <? ?b)] =>
      replace ((off <=? a) && (a <? b))%bool with false by
        (symmetry; apply andb_false_iff; rewrite Z.leb_gt, Z.ltb_ge; lia) end; done.
Qed.

Lemma le16_app_l l1 l2 i : 0 <= i → i + 2 <= Z.of_nat (length l1) → le16 (l1 ++ l2) i = le16 l1 i.
Proof. intros. unfold le16, byte_of. by rewrite !lookup_app_l by lia. Qed.
