(* ===== verification/Dirent.v ===== *)
(** * Directory listings (nolibc/dirent.h)

    The records that a file system hands to the caller of a listing. *)

From S2P Require Import Prelude.

Local Open Scope Z_scope.

Definition DT_DIR : Z := 4.
Definition DT_REG : Z := 8.

Record dirent := Dirent { de_inode : Z; de_offset : Z; de_type : Z; de_name : list Z }.
