(* ===== verification/BlkDev.v ===== *)
(** * Block devices and the sector cache (lizard/blk_dev.c, lizard/blk_dev.h)

    A [struct block_dev] is identified by its address. The read and write
    pointers of its operations are the driver's or the partition's; the driver
    is a parameter with the documented behaviour of a disk. The cache is
    write-through, one line per sector, and keyed by the device pointer. *)

From S2P Require Import Prelude.

Local Open Scope Z_scope.

Definition BCACHE_LINES : nat := 64.
Definition BCACHE_SECTOR_SIZE : Z := 512.

Inductive blkdev_type : Type := BLKDEV_TYPE_PHYSICAL | BLKDEV_TYPE_PARTITION.

(** The functions an operation pointer can hold. *)
Inductive op_fn : Type := OpDriver | OpPart.

Record block_dev_ops := Ops { op_read : option op_fn; op_write : option op_fn }.

Record partition_private := PartPrivate { start_lba : Z; sec_count : Z }.

Record block_dev := BDev {
  bd_name : list Z;
  bd_id : Z;
  bd_type : blkdev_type;
  total_sectors : Z;
  sector_size : Z;
  ops : option block_dev_ops;
  private_data : option partition_private;
  initialized : bool;
  read_only : bool;
  bd_present : bool;
  parent : option Z
}.

Record bcache_line := Line { l_dev : Z; l_sector : Z; lru : Z; valid : bool; data : list Z }.

(** ** The driver

    [sector d dev s] is the content of a sector. A failed transfer changes
    nothing. *)

Class block_driver (D : Type) := BlockDriver {
  drv_read : Z → Z → Z → D → option (list Z);          (* device, sector, count *)
  drv_write : Z → Z → Z → list Z → D → option D;
  sector : D → Z → Z → list Z
}.

(** The [n] sectors from [s], end to end. *)
Fixpoint sectors (f : Z → list Z) (s : Z) (n : nat) : list Z :=
  match n with
  | O => []
  | S n => f s ++ sectors f (s + 1) n
  end.

Class BlockDriverLaws (D : Type) `{!block_driver D} : Prop := {
  drv_read_ok dev s n d l : 0 <= n → drv_read dev s n d = Some l →
    l = sectors (sector d dev) s (Z.to_nat n);
  drv_write_in dev s n l d d' : 0 <= n → drv_write dev s n l d = Some d' →
    Z.of_nat (length l) = n * 512 → sectors (sector d' dev) s (Z.to_nat n) = l;
  drv_write_out dev s n l d d' dev' s' : 0 <= n → drv_write dev s n l d = Some d' →
    dev' ≠ dev ∨ s' < s ∨ s + n <= s' → sector d' dev' s' = sector d dev' s';
  sector_length d dev s : Z.of_nat (length (sector d dev s)) = 512
}.

Record blk (D : Type) := Blk {
  bdevs : gmap Z block_dev;
  bcache : list bcache_line;
  bcache_clock : Z;
  disk : D
}.
Arguments Blk {_} _ _ _ _.
Arguments bdevs {_} _.
Arguments bcache {_} _.
Arguments bcache_clock {_} _.
Arguments disk {_} _.

Section blkdev.
Context {D : Type} `{!block_driver D}.

Definition set_cache (c : list bcache_line) (b : blk D) : blk D := Blk (bdevs b) c (bcache_clock b) (disk b).
Definition set_disk (d : D) (b : blk D) : blk D := Blk (bdevs b) (bcache b) (bcache_clock b) d.

Definition bcache_eligible (dv : block_dev) (count : Z) : bool :=
  (count =? 1) && ((sector_size dv =? 0) || (sector_size dv =? BCACHE_SECTOR_SIZE)).

Definition line_hits (dev s : Z) (l : bcache_line) : bool :=
  valid l && (l_dev l =? dev) && (l_sector l =? s).

(** The index of the first line that holds the sector. *)
Fixpoint bcache_find_from (i : nat) (dev s : Z) (ls : list bcache_line) : option nat :=
  match ls with
  | [] => None
  | l :: ls => if line_hits dev s l then Some i else bcache_find_from (S i) dev s ls
  end.

Definition bcache_find (dev s : Z) (b : blk D) : option nat := bcache_find_from 0 dev s (bcache b).

(** The loop over the lines after the first; [v] is the best so far. *)
Fixpoint victim_from (i : nat) (v : nat) (vlru : Z) (ls : list bcache_line) : nat :=
  match ls with
  | [] => v
  | l :: ls =>
      if negb (valid l) then i
      else if lru l <? vlru then victim_from (S i) i (lru l) ls
      else victim_from (S i) v vlru ls
  end.

Definition bcache_victim (b : blk D) : nat :=
  match bcache b with
  | [] => 0
  | l :: ls => victim_from 1 0 (lru l) ls
  end.

Definition bcache_store (dev s : Z) (dat : list Z) (b : blk D) : blk D :=
  let i := match bcache_find dev s b with Some i => i | None => bcache_victim b end in
  let clock := u64 (bcache_clock b + 1) in
  Blk (bdevs b) (<[i := Line dev s clock true (take 512 dat)]> (bcache b)) clock (disk b).

Definition bcache_invalidate_range (dev s count : Z) (b : blk D) : blk D :=
  set_cache ((λ l, if valid l && (l_dev l =? dev) && (s <=? l_sector l) && (l_sector l <? u64 (s + count))
                   then Line (l_dev l) (l_sector l) (lru l) false (data l) else l) <$> bcache b) b.

(** [dev->ops->read(dev, ...)]: the call through the pointer; the partition's
    function goes on to its parent's pointer. [None] is a failure. *)
Fixpoint ops_read (fuel : nat) (dev s count : Z) (b : blk D) : run (option (list Z)) :=
  match fuel with
  | O => Stop Diverge
  | S fuel =>
      dv ← access (bdevs b !! dev);
      o ← access (ops dv);
      f ← access (op_read o);
      match f with
      | OpDriver => Done (drv_read dev s count (disk b))
      | OpPart =>
          part ← access (private_data dv);
          p ← access (parent dv);
          ops_read fuel p (u64 (s + start_lba part)) count b
      end
  end.

Fixpoint ops_write (fuel : nat) (dev s count : Z) (dat : list Z) (b : blk D) : run (option (blk D)) :=
  match fuel with
  | O => Stop Diverge
  | S fuel =>
      dv ← access (bdevs b !! dev);
      o ← access (ops dv);
      f ← access (op_write o);
      match f with
      | OpDriver => Done ((λ d, set_disk d b) <$> drv_write dev s count dat (disk b))
      | OpPart =>
          part ← access (private_data dv);
          p ← access (parent dv);
          ops_write fuel p (u64 (s + start_lba part)) count dat b
      end
  end.

(** A chain of partitions is no longer than the number of devices. *)
Definition depth (b : blk D) : nat := S (size (bdevs b)).

Definition has_op (sel : block_dev_ops → option op_fn) (dev : Z) (b : blk D) : bool :=
  match bdevs b !! dev with
  | Some dv =>
      match ops dv with
      | Some o => bool_decide (is_Some (sel o))
      | None => false
      end
  | None => false
  end.

Definition blk_dev_read (dev s count : Z) (b : blk D) : run (blk D * option (list Z)) :=
  if negb (has_op op_read dev b) then Done (b, None)
  else
    dv ← access (bdevs b !! dev);
    if negb (bcache_eligible dv count) then
      r ← ops_read (depth b) dev s count b; Done (b, r)
    else
      match bcache_find dev s b with
      | Some i =>
          l ← access (bcache b !! i);
          let clock := u64 (bcache_clock b + 1) in
          Done (Blk (bdevs b)
                  (<[i := Line (l_dev l) (l_sector l) clock (valid l) (data l)]> (bcache b))
                  clock (disk b), Some (data l))
      | None =>
          r ← ops_read (depth b) dev s count b;
          match r with
          | None => Done (b, None)
          | Some dat => Done (bcache_store dev s dat b, Some dat)
          end
      end.

(** The returned flag is the success of the write. *)
Definition blk_dev_write (dev s count : Z) (dat : list Z) (b : blk D) : run (blk D * bool) :=
  if negb (has_op op_write dev b) then Done (b, false)
  else
    dv ← access (bdevs b !! dev);
    r ← ops_write (depth b) dev s count dat b;
    match r with
    | None => Done (b, false)
    | Some b =>
        if bcache_eligible dv count then Done (bcache_store dev s dat b, true)
        else Done (bcache_invalidate_range dev s count b, true)
    end.

(** The partition functions as they are called from outside. *)
Definition blk_dev_part_read (dev s count : Z) (b : blk D) : run (option (list Z)) :=
  if negb (has_op op_read dev b) then Done None
  else
    dv ← access (bdevs b !! dev);
    part ← access (private_data dv);
    p ← access (parent dv);
    ops_read (depth b) p (u64 (s + start_lba part)) count b.

Definition blk_dev_part_write (dev s count : Z) (dat : list Z) (b : blk D) : run (option (blk D)) :=
  if negb (has_op op_write dev b) then Done None
  else
    dv ← access (bdevs b !! dev);
    part ← access (private_data dv);
    p ← access (parent dv);
    ops_write (depth b) p (u64 (s + start_lba part)) count dat b.

(** ** What a device holds

    The driver and the sector behind sector [s] of device [dev]. *)

Fixpoint resolve (fuel : nat) (dev s : Z) (ds : gmap Z block_dev) : option (Z * Z) :=
  match fuel with
  | O => None
  | S fuel =>
      match ds !! dev with
      | None => None
      | Some dv =>
          match ops dv with
          | Some (Ops (Some OpDriver) (Some OpDriver)) => Some (dev, s)
          | Some (Ops (Some OpPart) (Some OpPart)) =>
              match private_data dv, parent dv with
              | Some part, Some p => resolve fuel p (u64 (s + start_lba part)) ds
              | _, _ => None
              end
          | _ => None
          end
      end
  end.

Definition target (b : blk D) (dev s : Z) : option (Z * Z) := resolve (depth b) dev s (bdevs b).

(** Every valid line holds the current content of the sector behind it, and
    no sector has two lines. *)
Record coherent (b : blk D) : Prop := {
  coh_length : length (bcache b) = BCACHE_LINES;
  coh_range i l : bcache b !! i = Some l → valid l = true → 0 <= l_sector l < 2 ^ 64;
  coh_data i l : bcache b !! i = Some l → valid l = true →
    ∃ pd ps, target b (l_dev l) (l_sector l) = Some (pd, ps) ∧ data l = sector (disk b) pd ps;
  coh_unique i j l l' : bcache b !! i = Some l → bcache b !! j = Some l' →
    valid l = true → valid l' = true → l_dev l = l_dev l' → l_sector l = l_sector l' → i = j
}.

(** ** Lemmas *)

Lemma bcache_find_from_Some ls k dev s i :
  bcache_find_from k dev s ls = Some i →
  ∃ l, (k <= i)%nat ∧ ls !! (i - k)%nat = Some l ∧ line_hits dev s l = true.
Proof.
  revert k. induction ls as [|l ls IH]; intros k; [done|]. cbn.
  destruct (line_hits dev s l) eqn:E.
  - intros [= ->]. exists l. rewrite Nat.sub_diag. auto.
  - intros (l' & Hk & Hl & Hh)%IH. exists l'. split; [lia|]. split; [|done].
    by replace (i - k)%nat with (S (i - S k)) by lia.
Qed.

Lemma bcache_find_from_None ls k dev s :
  bcache_find_from k dev s ls = None → ∀ l, l ∈ ls → line_hits dev s l = false.
Proof.
  revert k. induction ls as [|l ls IH]; intros k Hf l' Hl; [by apply not_elem_of_nil in Hl|].
  cbn in Hf. destruct (line_hits dev s l) eqn:E; [done|].
  apply elem_of_cons in Hl as [->|Hl]; [done|]. eauto.
Qed.

Lemma line_hits_true dev s l :
  line_hits dev s l = true ↔ valid l = true ∧ l_dev l = dev ∧ l_sector l = s.
Proof. unfold line_hits. rewrite !andb_true_iff, !Z.eqb_eq. tauto. Qed.

Lemma bcache_find_Some b dev s i :
  bcache_find dev s b = Some i →
  ∃ l, bcache b !! i = Some l ∧ valid l = true ∧ l_dev l = dev ∧ l_sector l = s.
Proof.
  intros (l & _ & Hl & Hh)%bcache_find_from_Some. rewrite Nat.sub_0_r in Hl.
  apply line_hits_true in Hh. eauto.
Qed.

Lemma bcache_find_None b dev s i l :
  bcache_find dev s b = None → bcache b !! i = Some l → valid l = true →
  l_dev l = dev → l_sector l = s → False.
Proof.
  intros Hf Hl Hv Hd Hs. eapply bcache_find_from_None with (l := l) in Hf.
  - assert (line_hits dev s l = true) as E by (by apply line_hits_true). congruence.
  - by eapply list_elem_of_lookup_2.
Qed.

Lemma victim_from_bound ls k v vl :
  (v < k)%nat → (victim_from k v vl ls < k + length ls)%nat.
Proof.
  revert k v vl. induction ls as [|l ls IH]; intros k v vl Hv; cbn; [lia|].
  repeat case_if; try lia.
  - pose proof (IH (S k) k (lru l)). lia.
  - pose proof (IH (S k) v vl). lia.
Qed.

Lemma bcache_victim_bound b : bcache b ≠ [] → (bcache_victim b < length (bcache b))%nat.
Proof.
  unfold bcache_victim. destruct (bcache b) as [|l ls]; [done|]. intros _.
  pose proof (victim_from_bound ls 1 0 (lru l)). cbn. lia.
Qed.

Lemma resolve_shift fuel ds dev s pd ps :
  resolve fuel dev s ds = Some (pd, ps) →
  ∃ off, ∀ t, 0 <= t < 2 ^ 64 → resolve fuel dev t ds = Some (pd, u64 (t + off)).
Proof.
  revert dev s. induction fuel as [|fuel IH]; intros dev s; [done|]. cbn [resolve].
  destruct (ds !! dev) as [dv|]; [|done].
  destruct (ops dv) as [[[[]|] [[]|]]|]; try done.
  - intros [= -> ->]. exists 0. intros t Ht. by rewrite Z.add_0_r, wrap_small.
  - destruct (private_data dv) as [part|], (parent dv) as [p|]; try done.
    intros (off & Hoff)%IH. exists (start_lba part + off). intros t Ht.
    rewrite Hoff by (by apply wrap_range). by rewrite wrap_add_l, Z.add_assoc.
Qed.

Lemma resolve_pos fuel ds dev s pd ps :
  resolve fuel dev s ds = Some (pd, ps) → 0 <= s < 2 ^ 64 → 0 <= ps < 2 ^ 64.
Proof.
  intros Hr Hs. destruct (resolve_shift _ _ _ _ _ _ Hr) as [off Hoff].
  rewrite Hoff in Hr by done. injection Hr as <-. by apply wrap_range.
Qed.

Lemma ops_read_resolve fuel dev s n b pd ps :
  resolve fuel dev s (bdevs b) = Some (pd, ps) →
  ops_read fuel dev s n b = Done (drv_read pd ps n (disk b)).
Proof.
  revert dev s. induction fuel as [|fuel IH]; intros dev s; [done|]. cbn [resolve ops_read].
  destruct (bdevs b !! dev) as [dv|]; [|done]. rsimpl.
  destruct (ops dv) as [[[[]|] [[]|]]|]; try done; cbn [op_read]; rsimpl.
  - by intros [= -> ->].
  - destruct (private_data dv) as [part|], (parent dv) as [p|]; try done. rsimpl. apply IH.
Qed.

Lemma ops_write_resolve fuel dev s n dat b pd ps :
  resolve fuel dev s (bdevs b) = Some (pd, ps) →
  ops_write fuel dev s n dat b = Done ((λ d, set_disk d b) <$> drv_write pd ps n dat (disk b)).
Proof.
  revert dev s. induction fuel as [|fuel IH]; intros dev s; [done|]. cbn [resolve ops_write].
  destruct (bdevs b !! dev) as [dv|]; [|done]. rsimpl.
  destruct (ops dv) as [[[[]|] [[]|]]|]; try done; cbn [op_write]; rsimpl.
  - by intros [= -> ->].
  - destruct (private_data dv) as [part|], (parent dv) as [p|]; try done. rsimpl. apply IH.
Qed.

Lemma target_dev b dev s pd ps :
  target b dev s = Some (pd, ps) →
  ∃ dv, bdevs b !! dev = Some dv ∧ has_op op_read dev b = true ∧ has_op op_write dev b = true.
Proof.
  unfold target, depth, has_op. cbn [resolve].
  destruct (bdevs b !! dev) as [dv|]; [|done].
  destruct (ops dv) as [[[[]|] [[]|]]|]; try done; intros _; exists dv; auto.
Qed.

Lemma bcache_store_coherent b dev s pd ps :
  coherent b → 0 <= s < 2 ^ 64 → target b dev s = Some (pd, ps) →
  Z.of_nat (length (sector (disk b) pd ps)) = 512 →
  coherent (bcache_store dev s (sector (disk b) pd ps) b).
Proof.
  intros [Hlen Hr Hd Hu] Hs Ht H512. unfold bcache_store.
  set (i := match bcache_find dev s b with Some i => i | None => bcache_victim b end).
  assert (take 512 (sector (disk b) pd ps) = sector (disk b) pd ps) as -> by (apply take_ge; lia).
  assert (Hi : ∀ j l, j ≠ i → bcache b !! j = Some l → valid l = true →
                 l_dev l = dev → l_sector l = s → False).
  { intros j l Hj Hl Hv <- <-. subst i. destruct (bcache_find _ _ b) as [i'|] eqn:E.
    - apply bcache_find_Some in E as (l' & Hl' & Hv' & Hd' & Hs').
      by eapply Hj, Hu; eauto.
    - by eapply bcache_find_None; eauto. }
  split; cbn [bcache bdevs disk].
  - by rewrite length_insert.
  - intros j l Hl. destruct (decide (j = i)) as [->|Hj].
    + apply list_lookup_insert_Some in Hl as [(_ & <- & _)|(? & _)]; [|done]. done.
    + rewrite list_lookup_insert_ne in Hl by done. eauto.
  - intros j l Hl. destruct (decide (j = i)) as [->|Hj].
    + apply list_lookup_insert_Some in Hl as [(_ & <- & _)|(? & _)]; [|done]. intros _. eauto.
    + rewrite list_lookup_insert_ne in Hl by done. apply (Hd j l Hl).
  - intros j k l l' Hl Hl' Hv Hv' Hd' Hs'.
    apply list_lookup_insert_Some in Hl as [(-> & <- & _)|(Hj & Hl)],
      Hl' as [(? & <- & _)|(Hk & Hl')]; try done.
    + cbn in *. exfalso. by eapply (Hi k l'); eauto.
    + cbn in *. exfalso. by eapply (Hi j l); eauto.
    + eauto.
Qed.

Context `{!BlockDriverLaws D}.

Lemma sectors_one f s : sectors f s 1 = f s.
Proof. cbn. apply app_nil_r. Qed.

Lemma sectors_ext f g s n :
  (∀ k, s <= k < s + Z.of_nat n → f k = g k) → sectors f s n = sectors g s n.
Proof.
  revert s. induction n as [|n IH]; intros s H; cbn [sectors]; [done|].
  rewrite H by lia. f_equal. apply IH. intros. apply H. lia.
Qed.

Lemma drv_read_one dev s d l : drv_read dev s 1 d = Some l → l = sector d dev s.
Proof.
  intros E. apply drv_read_ok in E; [|done]. by rewrite sectors_one in E.
Qed.

Lemma drv_write_one dev s d l d' :
  Z.of_nat (length l) = 512 → drv_write dev s 1 l d = Some d' → sector d' dev s = l.
Proof.
  intros Hl Hw. pose proof (drv_write_in dev s 1 l d d' ltac:(lia) Hw ltac:(lia)) as H.
  change (Z.to_nat 1) with 1%nat in H. by rewrite sectors_one in H.
Qed.

Lemma eligible_one dv count : bcache_eligible dv count = true → count = 1.
Proof. unfold bcache_eligible. intros [?%Z.eqb_eq _]%andb_true_iff. done. Qed.

Lemma set_lru_coherent b i l c :
  coherent b → bcache b !! i = Some l →
  coherent (Blk (bdevs b) (<[i := Line (l_dev l) (l_sector l) c (valid l) (data l)]> (bcache b)) c (disk b)).
Proof.
  intros [Hlen Hr Hd Hu] Hl.
  assert (Hold : ∀ j k, <[i := Line (l_dev l) (l_sector l) c (valid l) (data l)]> (bcache b) !! j = Some k →
    ∃ k', bcache b !! j = Some k' ∧ l_dev k = l_dev k' ∧ l_sector k = l_sector k' ∧
          valid k = valid k' ∧ data k = data k').
  { intros j k [(-> & <- & _)|(Hj & Hk)]%list_lookup_insert_Some; [by exists l|by exists k]. }
  split; cbn [bcache bdevs disk].
  - by rewrite length_insert.
  - intros j k (k' & Hk & _ & -> & -> & _)%Hold. eauto.
  - intros j k (k' & Hk & -> & -> & -> & ->)%Hold. apply (Hd j k' Hk).
  - intros j j' k1 k2 (k1' & H1 & -> & -> & -> & _)%Hold (k2' & H2 & -> & -> & -> & _)%Hold.
    eauto.
Qed.

(** A hit returns the line, a miss what the operation reads; either way the
    caller gets the content of the sectors behind the request. *)
Lemma blk_dev_read_spec b dev s n pd ps :
  coherent b → 0 <= s < 2 ^ 64 → 0 <= n → target b dev s = Some (pd, ps) →
  ∃ b' r, blk_dev_read dev s n b = Done (b', r) ∧
    coherent b' ∧ disk b' = disk b ∧ bdevs b' = bdevs b ∧
    (is_Some (drv_read pd ps n (disk b)) → is_Some r) ∧
    (∀ l, r = Some l → l = sectors (sector (disk b) pd) ps (Z.to_nat n)).
Proof.
  intros Hc Hs Hn Ht. destruct (target_dev _ _ _ _ _ Ht) as (dv & Hdv & Hop & _).
  unfold blk_dev_read. rewrite Hop. cbn [negb]. rewrite Hdv. rsimpl.
  pose proof (ops_read_resolve _ dev s n b pd ps Ht) as Hread.
  destruct (bcache_eligible dv n) eqn:He; cbn [negb].
  2:{ rewrite Hread. rsimpl. eexists _, _. split; [done|].
      repeat (split; [done|]). intros l. by apply drv_read_ok. }
  apply eligible_one in He as ->. change (Z.to_nat 1) with 1%nat. rewrite sectors_one.
  destruct (bcache_find dev s b) as [i|] eqn:Hf.
  - apply bcache_find_Some in Hf as (l & Hl & Hv & Hd & Hsec). rewrite Hl. rsimpl.
    eexists _, _. split; [done|]. split; [by apply set_lru_coherent|].
    do 2 (split; [done|]). split; [done|].
    intros ? [= <-]. destruct (coh_data _ Hc i l Hl Hv) as (pd' & ps' & Ht' & ->).
    rewrite Hd, Hsec, Ht in Ht'. by injection Ht' as <- <-.
  - rewrite Hread. rsimpl. destruct (drv_read pd ps 1 (disk b)) as [l|] eqn:Er.
    2:{ eexists _, _. split; [done|]. repeat (split; [done|]). done. }
    apply drv_read_one in Er as ->. eexists _, _. split; [done|].
    split; [by apply bcache_store_coherent; eauto using sector_length|].
    do 2 (split; [done|]). split; [done|]. by intros ? [= <-].
Qed.

Lemma target_eq b b' : bdevs b' = bdevs b → target b' = target b.
Proof. intros E. unfold target, depth. by rewrite E. Qed.

(** Two sectors of one device share a physical sector only if they are equal. *)
Lemma target_inj b dev s t pd ps k :
  target b dev s = Some (pd, ps) → 0 <= s < 2 ^ 64 → 0 <= t < 2 ^ 64 →
  target b dev t = Some (pd, ps + k) → 0 <= k → ps + k < 2 ^ 64 → s + k < 2 ^ 64 → t = s + k.
Proof.
  intros Hs Hrs Hrt Ht Hk Hpk Hsk. destruct (resolve_shift _ _ _ _ _ _ Hs) as [off Hoff].
  unfold target in *. rewrite Hoff in Hs, Ht by done. injection Hs as Hs. injection Ht as Ht.
  assert (u64 (s + k + off) = u64 (t + off)) as E.
  { rewrite Ht, <- Hs. replace (s + k + off) with (s + off + k) by lia.
    rewrite <- wrap_add_l. symmetry. rewrite Hs. symmetry. apply wrap_small.
    pose proof (wrap_range 64 (s + off)). lia. }
  unfold wrap in E.
  assert ((s + k - t) mod 2 ^ 64 = 0) as E0.
  { replace (s + k - t) with ((s + k + off) - (t + off)) by lia.
    rewrite Zminus_mod, E, Z.sub_diag. done. }
  apply Z.mod_divide in E0; [|lia]. destruct E0 as [q Hq].
  destruct (decide (q = 0)); [lia|]. nia.
Qed.

(** No line of another device holds one of the [n] sectors at [(pd, ps)]. *)
Definition unaliased (b : blk D) (dev pd ps n : Z) : Prop :=
  ∀ i l k, bcache b !! i = Some l → valid l = true → l_dev l ≠ dev → 0 <= k < n →
    target b (l_dev l) (l_sector l) ≠ Some (pd, ps + k).

Lemma set_disk_coherent b dev s n pd ps dat d' :
  coherent b → 0 <= s → s + n <= 2 ^ 64 → 0 <= n → ps + n <= 2 ^ 64 →
  target b dev s = Some (pd, ps) → unaliased b dev pd ps n →
  drv_write pd ps n dat (disk b) = Some d' →
  ∀ i l, bcache b !! i = Some l → valid l = true →
    ¬ (l_dev l = dev ∧ s <= l_sector l < s + n) →
    ∃ pd' ps', target b (l_dev l) (l_sector l) = Some (pd', ps') ∧ data l = sector d' pd' ps'.
Proof.
  intros Hc Hs Hsn Hn Hpn Ht Hal Hw i l Hl Hv Hout.
  destruct (coh_data _ Hc i l Hl Hv) as (pd' & ps' & Ht' & ->).
  eexists _, _. split; [done|]. symmetry. eapply drv_write_out; [done..|].
  destruct (decide (pd' = pd)) as [->|]; [right|by left].
  destruct (decide (ps <= ps' < ps + n)) as [Hin|]; [|lia]. exfalso.
  destruct (decide (l_dev l = dev)) as [<-|Hd].
  - pose proof (coh_range _ Hc i l Hl Hv). apply Hout. split; [done|].
    assert (l_sector l = s + (ps' - ps)); [|lia].
    eapply (target_inj b (l_dev l) s); eauto; try lia.
    by replace (ps + (ps' - ps)) with ps' by lia.
  - eapply (Hal i l (ps' - ps)); [done..|lia|].
    by replace (ps + (ps' - ps)) with ps' by lia.
Qed.

Lemma bcache_invalidate_coherent b dev s n pd ps dat d' :
  coherent b → 0 <= s → s + n < 2 ^ 64 → 0 <= n → ps + n <= 2 ^ 64 →
  target b dev s = Some (pd, ps) → unaliased b dev pd ps n →
  drv_write pd ps n dat (disk b) = Some d' →
  coherent (bcache_invalidate_range dev s n (set_disk d' b)).
Proof.
  intros Hc Hs Hsn Hn Hpn Ht Hal Hw.
  assert (Hold : ∀ i l, bcache (bcache_invalidate_range dev s n (set_disk d' b)) !! i = Some l →
    valid l = true → bcache b !! i = Some l ∧ ¬ (l_dev l = dev ∧ s <= l_sector l < s + n)).
  { intros i l Hl Hv. unfold bcache_invalidate_range, set_cache in Hl. cbn in Hl.
    rewrite list_lookup_fmap in Hl. apply fmap_Some in Hl as (k & Hk & ->).
    rewrite wrap_small in * by lia.
    case_if; [done|]. split; [done|]. intros [<- Hr].
    rewrite Hv, Z.eqb_refl in E. cbn in E. apply andb_false_iff in E as [E|E]; breflect; lia. }
  split.
  - unfold bcache_invalidate_range. cbn. rewrite length_fmap. apply Hc.
  - intros i l Hl Hv. destruct (Hold i l Hl Hv) as [Hl' _]. by apply (coh_range _ Hc i l).
  - intros i l Hl Hv. destruct (Hold i l Hl Hv) as [Hl' Hout].
    eapply (set_disk_coherent b dev s n); eauto. lia.
  - intros i j l l' Hl Hl' Hv Hv'. destruct (Hold i l Hl Hv), (Hold j l' Hl' Hv').
    by apply (coh_unique _ Hc).
Qed.

(** A store after a one-sector write. *)
Lemma bcache_store_write_coherent b dev s pd ps dat d' :
  coherent b → 0 <= s < 2 ^ 64 → ps < 2 ^ 64 →
  target b dev s = Some (pd, ps) → unaliased b dev pd ps 1 →
  Z.of_nat (length dat) = 512 →
  drv_write pd ps 1 dat (disk b) = Some d' →
  coherent (bcache_store dev s dat (set_disk d' b)).
Proof.
  intros Hc Hs Hps Ht Hal Hdat Hw.
  pose proof (set_disk_coherent b dev s 1 pd ps dat d' Hc ltac:(lia) ltac:(lia) ltac:(lia)
    ltac:(lia) Ht Hal Hw) as Hout.
  unfold bcache_store. change (bcache_find dev s (set_disk d' b)) with (bcache_find dev s b).
  change (bcache_victim (set_disk d' b)) with (bcache_victim b). cbn [set_disk bcache bdevs disk bcache_clock].
  set (i := match bcache_find dev s b with Some i => i | None => bcache_victim b end).
  rewrite take_ge by lia.
  assert (Hi : ∀ j l, i ≠ j → bcache b !! j = Some l → valid l = true →
                 ¬ (l_dev l = dev ∧ l_sector l = s)).
  { intros j l Hj Hl Hv [<- <-]. subst i. destruct (bcache_find _ _ b) as [i'|] eqn:E.
    - apply bcache_find_Some in E as (l' & Hl' & Hv' & Hd' & Hs').
      by eapply Hj, (coh_unique _ Hc i' j l' l); eauto.
    - by eapply bcache_find_None; eauto. }
  split; cbn [bcache bdevs disk].
  - rewrite length_insert. apply Hc.
  - intros j l [(-> & <- & _)|(Hj & Hl)]%list_lookup_insert_Some; [done|]. by apply (coh_range _ Hc j).
  - intros j l [(-> & <- & _)|(Hj & Hl)]%list_lookup_insert_Some Hv; cbn [l_dev l_sector data].
    + exists pd, ps. split; [done|]. by erewrite drv_write_one.
    + apply (Hout j l Hl Hv). intros [Hd Hsec]. apply (Hi j l Hj Hl Hv). split; [done|lia].
  - intros j k l l' [(-> & <- & _)|(Hj & Hl)]%list_lookup_insert_Some
      [(Ek & <- & _)|(Hk & Hl')]%list_lookup_insert_Some Hv Hv' Hd' Hs'; try done.
    + cbn in *. exfalso. by apply (Hi k l' Hk Hl' Hv').
    + cbn in *. exfalso. by apply (Hi j l Hj Hl Hv).
    + by apply (coh_unique _ Hc j k l l').
Qed.

Lemma blk_dev_write_spec b dev s n pd ps dat :
  coherent b → 0 <= s → 0 <= n → s + n < 2 ^ 64 → ps + n <= 2 ^ 64 →
  target b dev s = Some (pd, ps) → unaliased b dev pd ps n →
  Z.of_nat (length dat) = n * 512 →
  match drv_write pd ps n dat (disk b) with
  | None => blk_dev_write dev s n dat b = Done (b, false)
  | Some d' => ∃ b', blk_dev_write dev s n dat b = Done (b', true) ∧ coherent b' ∧
      disk b' = d' ∧ bdevs b' = bdevs b ∧ sectors (sector d' pd) ps (Z.to_nat n) = dat
  end.
Proof.
  intros Hc Hs Hn Hsn Hpn Ht Hal Hdat. destruct (target_dev _ _ _ _ _ Ht) as (dv & Hdv & _ & Hop).
  unfold blk_dev_write. rewrite Hop. cbn [negb]. rewrite Hdv. rsimpl.
  rewrite (ops_write_resolve _ dev s n dat b pd ps Ht).
  destruct (drv_write pd ps n dat (disk b)) as [d'|] eqn:Hw; cbn [fmap option_fmap option_map]; [|done].
  rsimpl. destruct (bcache_eligible dv n) eqn:He.
  - apply eligible_one in He as ->. eexists. split; [done|].
    split; [apply (bcache_store_write_coherent b dev s pd ps); auto; lia|]. do 2 (split; [done|]).
    by eapply drv_write_in.
  - eexists. split; [done|]. split; [eapply bcache_invalidate_coherent; eauto|].
    do 2 (split; [done|]). by eapply drv_write_in.
Qed.

(** ** Theorems *)

(** Reading through the cache. In a coherent state, reading [n] sectors of
    a device (a disk or a partition at any depth) answers with the bytes the
    sectors behind it hold now, on a hit and on a miss; it succeeds whenever
    the driver would; the disk is untouched and the cache stays coherent. *)
Theorem blk_dev_read_current b dev s n pd ps :
  coherent b → 0 <= s < 2 ^ 64 → 0 <= n → target b dev s = Some (pd, ps) →
  ∃ b' r, blk_dev_read dev s n b = Done (b', r) ∧
    coherent b' ∧ disk b' = disk b ∧ bdevs b' = bdevs b ∧
    (is_Some (drv_read pd ps n (disk b)) → is_Some r) ∧
    (∀ l, r = Some l → l = sectors (sector (disk b) pd) ps (Z.to_nat n)).
Proof. apply blk_dev_read_spec. Qed.


(** In a coherent state the lookup finds the one line of the sector. *)
Lemma bcache_find_line b dev s i l :
  coherent b → bcache b !! i = Some l → valid l = true → l_dev l = dev → l_sector l = s →
  bcache_find dev s b = Some i.
Proof.
  intros Hc Hl Hv Hd Hs. destruct (bcache_find dev s b) as [k|] eqn:E.
  - apply bcache_find_Some in E as (m & Hm & Hvm & Hdm & Hsm). f_equal.
    apply (coh_unique _ Hc k i m l); congruence.
  - exfalso. by eapply bcache_find_None.
Qed.

(** A store to a sector that has a line leaves the lines of other devices. *)
Lemma bcache_store_other b dev s dat d i dev' s' j l' :
  coherent b → bcache_find dev s b = Some i → dev ≠ dev' →
  bcache b !! j = Some l' → valid l' = true → l_dev l' = dev' → l_sector l' = s' →
  let b1 := bcache_store dev s dat (set_disk d b) in
  bcache b1 !! j = Some l' ∧ bcache_find dev' s' b1 = Some j.
Proof.
  intros Hc Hf Hne Hl' Hv' Hd' Hs' b1.
  assert (Hb1 : bcache b1 = <[i := Line dev s (u64 (bcache_clock b + 1)) true (take 512 dat)]> (bcache b)).
  { subst b1. unfold bcache_store. change (bcache_find dev s (set_disk d b)) with (bcache_find dev s b).
    by rewrite Hf. }
  apply bcache_find_Some in Hf as (l & Hl & Hv & Hd & Hs).
  assert (Hj : bcache b1 !! j = Some l').
  { rewrite Hb1, list_lookup_insert_ne; [done|]. intros ->. congruence. }
  split; [done|]. destruct (bcache_find dev' s' b1) as [k|] eqn:E.
  2:{ exfalso. by eapply bcache_find_None. }
  apply bcache_find_Some in E as (m & Hm & Hvm & Hdm & Hsm). f_equal.
  rewrite Hb1 in Hm. apply list_lookup_insert_Some in Hm as [(-> & <- & _)|(? & Hm)];
    [cbn in *; congruence|].
  apply (coh_unique _ Hc k j m l'); congruence.
Qed.

(** The cache is keyed by the device and the sector, not by the physical
    sector: when one sector is cached under two devices (a disk and its
    partition), a one-sector write through one of them that the driver accepts
    leaves the other line as it was, and a read through the other device still
    returns the bytes from before the write. *)
Theorem blk_dev_alias_stale b dev dev' s s' pd ps dat d' dv dv' :
  coherent b → 0 <= s < 2 ^ 64 → dev ≠ dev' →
  target b dev s = Some (pd, ps) → target b dev' s' = Some (pd, ps) →
  bdevs b !! dev = Some dv → bcache_eligible dv 1 = true →
  bdevs b !! dev' = Some dv' → bcache_eligible dv' 1 = true →
  is_Some (bcache_find dev s b) → is_Some (bcache_find dev' s' b) →
  drv_write pd ps 1 dat (disk b) = Some d' →
  ∃ b' b'', blk_dev_write dev s 1 dat b = Done (b', true) ∧ disk b' = d' ∧
    blk_dev_read dev' s' 1 b' = Done (b'', Some (sector (disk b) pd ps)).
Proof.
  intros Hc Hs Hne Ht Ht' Hdv He Hdv' He' [i Hi] [j Hj] Hw.
  destruct (target_dev _ _ _ _ _ Ht) as (_ & _ & _ & Hop).
  destruct (target_dev _ _ _ _ _ Ht') as (_ & _ & Hop' & _).
  apply bcache_find_Some in Hj as (l' & Hl' & Hv' & Hd' & Hsl').
  destruct (bcache_store_other b dev s dat d' i dev' s' j l') as [Hline Hfind]; [done..|].
  destruct (coh_data _ Hc j l' Hl' Hv') as (pd' & ps' & Ht2 & Hdata).
  rewrite Hd', Hsl', Ht' in Ht2. injection Ht2 as <- <-.
  unfold blk_dev_write. rewrite Hop. cbn [negb]. rewrite Hdv. rsimpl.
  rewrite (ops_write_resolve _ dev s 1 dat b pd ps Ht), Hw.
  cbn [fmap option_fmap option_map]. rsimpl. rewrite He.
  set (b1 := bcache_store dev s dat (set_disk d' b)) in *.
  eexists b1, _. split; [reflexivity|]. split; [reflexivity|].
  unfold blk_dev_read. change (has_op op_read dev' b1) with (has_op op_read dev' b).
  rewrite Hop'. cbn [negb]. change (bdevs b1) with (bdevs b). rewrite Hdv'. rsimpl.
  rewrite He'. cbn [negb]. rewrite Hfind, Hline. rsimpl. rewrite Hdata. reflexivity.
Qed.
End blkdev.

(** ** Witnesses

    A disk in memory, a list of 512-byte sectors, with one partition. *)

Abbreviation ram_disk := (gmap Z (list Z)).

Definition blank_sector : list Z := replicate 512 0.

Definition ram_sector (d : ram_disk) (dev s : Z) : list Z :=
  match d !! s with
  | Some l => if bool_decide (length l = 512%nat) then l else blank_sector
  | None => blank_sector
  end.

Fixpoint ram_put (s : Z) (n : nat) (l : list Z) (d : ram_disk) : ram_disk :=
  match n with
  | O => d
  | S n => ram_put (s + 1) n (drop 512 l) (<[s := take 512 l]> d)
  end.

#[export] Instance ram_driver : block_driver ram_disk := {
  drv_read dev s n d := if dev =? 1 then Some (sectors (ram_sector d dev) s (Z.to_nat n)) else None;
  drv_write dev s n l d :=
    if (dev =? 1) && (Z.of_nat (length l) =? n * 512) then Some (ram_put s (Z.to_nat n) l d) else None;
  sector d dev s := if dev =? 1 then ram_sector d dev s else blank_sector
}.

Lemma ram_put_out s n l d dev t : t < s ∨ s + Z.of_nat n <= t →
  ram_sector (ram_put s n l d) dev t = ram_sector d dev t.
Proof.
  revert s l d. induction n as [|n IH]; intros s l d Ht; cbn [ram_put]; [done|].
  rewrite IH by lia. unfold ram_sector. by rewrite lookup_insert_ne by lia.
Qed.

Lemma ram_put_in s n l d dev : Z.of_nat (length l) = Z.of_nat n * 512 →
  sectors (ram_sector (ram_put s n l d) dev) s n = l.
Proof.
  revert s l d. induction n as [|n IH]; intros s l d Hl; cbn [ram_put sectors].
  - destruct l; [done|]. cbn in Hl. lia.
  - rewrite ram_put_out by lia. rewrite IH by (rewrite length_drop; lia).
    unfold ram_sector at 1. rewrite lookup_insert_eq.
    rewrite bool_decide_eq_true_2 by (rewrite length_take; lia). apply take_drop.
Qed.

Lemma ram_sector_length d dev s : length (ram_sector d dev s) = 512%nat.
Proof.
  unfold ram_sector. destruct (d !! s); [case_bool_decide; [done|]|]; apply length_replicate.
Qed.

#[export] Instance ram_driver_laws : BlockDriverLaws ram_disk.
Proof.
  split; unfold drv_read, drv_write, sector, ram_driver.
  - intros dev s n d l Hn. destruct (dev =? 1); [|done]. by intros [= <-].
  - intros dev s n l d d' Hn. destruct (dev =? 1) eqn:E; [|done]. cbn [andb].
    case_if; [|done]. intros [= <-] Hl. rewrite ram_put_in; [done|]. lia.
  - intros dev s n l d d' dev' s' Hn. destruct (dev =? 1) eqn:E; [|done]. cbn [andb].
    case_if; [|done]. breflect. intros [= <-] Hout.
    destruct (dev' =? 1) eqn:E'; [|done]. breflect. apply ram_put_out. lia.
  - intros d dev s. destruct (dev =? 1).
    + by rewrite ram_sector_length.
    + unfold blank_sector. by rewrite length_replicate.
Qed.

Definition demo_disk_dev : block_dev :=
  BDev [104; 100; 97] 0 BLKDEV_TYPE_PHYSICAL 100 512 (Some (Ops (Some OpDriver) (Some OpDriver)))
    None true false true None.

Definition demo_part_dev : block_dev :=
  BDev [104; 100; 97; 49] 1 BLKDEV_TYPE_PARTITION 50 512 (Some (Ops (Some OpPart) (Some OpPart)))
    (Some (PartPrivate 10 50)) true false true (Some 1).

Definition empty_cache : list bcache_line := replicate BCACHE_LINES (Line 0 0 0 false []).

Definition demo_blk : blk ram_disk :=
  Blk {[ 1 := demo_disk_dev; 2 := demo_part_dev ]} empty_cache 0 ∅.

Lemma empty_cache_coherent {D} `{!block_driver D} (b : blk D) :
  bcache b = empty_cache → coherent b.
Proof.
  intros E.
  assert (H : ∀ i l, bcache b !! i = Some l → valid l = true → False).
  { rewrite E. intros i l [-> _]%lookup_replicate. done. }
  split.
  - rewrite E. apply length_replicate.
  - intros i l Hl Hv. by destruct (H i l).
  - intros i l Hl Hv. by destruct (H i l).
  - intros i j l l' Hl _ Hv. by destruct (H i l).
Qed.

Lemma blk_dev_read_current_witness :
  ∃ b' r, blk_dev_read 2 3 1 demo_blk = Done (b', r) ∧ coherent b' ∧ disk b' = disk demo_blk ∧
    bdevs b' = bdevs demo_blk ∧ (is_Some (drv_read 1 13 1 (disk demo_blk)) → is_Some r) ∧
    (∀ l, r = Some l → l = sectors (sector (disk demo_blk) 1) 13 1).
Proof.
  apply (blk_dev_read_current demo_blk 2 3 1 1 13);
    [by apply empty_cache_coherent|lia|lia|by vm_compute].
Defined.


(** The sector 13 of the disk, read through both devices. *)
Definition demo_both : blk ram_disk :=
  match blk_dev_read 2 3 1 demo_blk with
  | Done (b, _) => match blk_dev_read 1 13 1 b with Done (b, _) => b | _ => b end
  | _ => demo_blk
  end.

Lemma demo_both_coherent : coherent demo_both.
Proof.
  unfold demo_both.
  destruct (blk_dev_read_spec demo_blk 2 3 1 1 13) as (b & r & -> & Hc & _ & Hds & _);
    [by apply empty_cache_coherent|lia|lia|by vm_compute|].
  destruct (blk_dev_read_spec b 1 13 1 1 13) as (b' & r' & -> & Hc' & _);
    [done|lia|lia| |done].
  rewrite (target_eq demo_blk b Hds). by vm_compute.
Qed.

Lemma blk_dev_alias_stale_witness :
  ∃ b' b'', blk_dev_write 2 3 1 (replicate 512 7) demo_both = Done (b', true) ∧
    blk_dev_read 1 13 1 b' = Done (b'', Some blank_sector).
Proof.
  destruct (blk_dev_alias_stale demo_both 2 1 3 13 1 13 (replicate 512 7)
    (ram_put 13 1 (replicate 512 7) (disk demo_both)) demo_part_dev demo_disk_dev)
    as (b' & b'' & Hw & _ & Hr);
    [exact demo_both_coherent|lia|lia|first [by vm_compute | vm_compute; by eexists]..|].
  exists b', b''. split; [exact Hw|]. rewrite Hr. by vm_compute.
Defined.
