(* ===== verification/BlkMgr.v ===== *)
(** * The block device manager and MBR partitions (lizard/blkdev_manager.c, lizard/mbr.c)

    The registered devices are a list of addresses, the newest first (the
    manager adds at the head of [blk_devs]; [struct block_dev] starts with its
    list node). The siblings of a partition are the list of children of its
    parent. [zalloc] hands out the addresses of an arena; the null pointer it
    returns when the arena is empty is dereferenced by its callers. *)

From S2P Require Import Prelude CString Bytes BlkDev.

Local Open Scope Z_scope.

Definition MAX_BLKDEVS : nat := 16.
Definition DEFAULT_NAME_SIZE : Z := 32.

Definition MBR_PARTITION_COUNT : nat := 4.
Definition MBR_PARTITION_ENTRY_SIZE : Z := 16.
Definition MBR_PARTITION_TABLE_OFFSET : Z := 446.
Definition MBR_SIGNATURE_OFFSET : Z := 510.
Definition MBR_SIGNATURE : Z := 0xAA55.
Definition MBRYPE_EMPTY : Z := 0x00.
Definition MBRYPE_GPT_PROTECTIVE : Z := 0xEE.

Record mbr_partition_entry := Entry { mbr_type : Z; lba_first : Z; sector_count : Z }.
Record mbr_header := Mbr { partitions : list mbr_partition_entry; signature : Z }.

(** The packed structures over the bytes of the sector. *)
Definition entry_of (l : list Z) (i : nat) : mbr_partition_entry :=
  let off := MBR_PARTITION_TABLE_OFFSET + MBR_PARTITION_ENTRY_SIZE * Z.of_nat i in
  Entry (byte_of l (off + 4)) (le32 l (off + 8)) (le32 l (off + 12)).

Definition mbr_of (l : list Z) : mbr_header :=
  Mbr (entry_of l <$> seq 0 MBR_PARTITION_COUNT) (le16 l MBR_SIGNATURE_OFFSET).

Definition mbr_is_valid (mbr : mbr_header) : bool := signature mbr =? MBR_SIGNATURE.

Definition mbr_partition_is_used (p : mbr_partition_entry) : bool :=
  negb (mbr_type p =? MBRYPE_EMPTY) && negb (sector_count p =? 0).

(** ** State *)

Record mgr (D : Type) := Mgr {
  mblk : blk D;
  blk_devs : list Z;
  blkdev_id_bitmap : list Z;        (* MAX_BLKDEVS / 8 bytes *)
  children : gmap Z (list Z);
  arena : list Z
}.
Arguments Mgr {_} _ _ _ _ _.
Arguments mblk {_} _.
Arguments blk_devs {_} _.
Arguments blkdev_id_bitmap {_} _.
Arguments children {_} _.
Arguments arena {_} _.

(** ** Device numbers *)

(** [for (i = ..; i < MAX_BLKDEVS; i++)]; the result is a [blk_dev_t]. *)
Fixpoint alloc_id_from (n : nat) (i : nat) (bitmap : list Z) : run (Z * list Z) :=
  match n with
  | O => Done (u32 (-1), bitmap)
  | S n =>
      let byte := (i / 8)%nat in
      let bit := Z.of_nat (i mod 8) in
      b ← access (bitmap !! byte);
      if Z.land b (Z.shiftl 1 bit) =? 0
      then Done (Z.of_nat i, <[byte := Z.lor b (Z.shiftl 1 bit)]> bitmap)
      else alloc_id_from n (S i) bitmap
  end.

Definition blkdev_alloc_id (bitmap : list Z) : run (Z * list Z) := alloc_id_from MAX_BLKDEVS 0 bitmap.

Definition blkdev_free_id (id : Z) (bitmap : list Z) : run (list Z) :=
  let byte := Z.to_nat (id / 8) in
  let bit := id mod 8 in
  b ← access (bitmap !! byte);
  Done (<[byte := Z.land b (u8 (Z.lnot (Z.shiftl 1 bit)))]> bitmap).

Section manager.
Context {D : Type} `{!block_driver D}.

Definition set_mblk (b : blk D) (m : mgr D) : mgr D :=
  Mgr b (blk_devs m) (blkdev_id_bitmap m) (children m) (arena m).

Definition set_dev (dev : Z) (dv : block_dev) (m : mgr D) : mgr D :=
  let b := mblk m in set_mblk (Blk (<[dev := dv]> (bdevs b)) (bcache b) (bcache_clock b) (disk b)) m.

Definition zalloc (m : mgr D) : option Z * mgr D :=
  match arena m with
  | [] => (None, m)
  | a :: ar => (Some a, Mgr (mblk m) (blk_devs m) (blkdev_id_bitmap m) (children m) ar)
  end.

Definition set_id (id : Z) (dv : block_dev) : block_dev :=
  BDev (bd_name dv) id (bd_type dv) (total_sectors dv) (sector_size dv) (ops dv) (private_data dv)
    (initialized dv) (read_only dv) (bd_present dv) (parent dv).

(** The search of [blkdev_manager_add] and of the two lookups. *)
Fixpoint find_dev (p : block_dev → bool) (ds : gmap Z block_dev) (l : list Z) : run (option Z) :=
  match l with
  | [] => Done None
  | curr :: l => dv ← access (ds !! curr); if p dv then Done (Some curr) else find_dev p ds l
  end.

(** The name of a partition: the frame's buffer and the field hold
    [DEFAULT_NAME_SIZE] bytes with the terminator. *)
Definition is_digit (c : Z) : bool := (48 <=? c) && (c <=? 57).

Definition part_name (name : list Z) (part_num : Z) : run (list Z) :=
  s ← access
    (match last name with
     | Some c =>
         if is_digit c
         then render [37; 115; 37; 99; 37; 100] [SStr name; SInt 112; SInt part_num]
         else render [37; 115; 37; 100] [SStr name; SInt part_num]
     | None => render [37; 115; 37; 100] [SStr name; SInt part_num]
     end);
  if Z.of_nat (length s) <? DEFAULT_NAME_SIZE then Done s else Stop Fault.

(** [blkdev_manager_add] and [mbr_scan] call each other through
    [blkdev_register_partition]; a partition is not scanned, so the recursion
    is two calls deep. [add] is the inner call. *)
Definition register_partition (add : Z → mgr D → run (mgr D * Z))
    (par part_num start secs : Z) (m : mgr D) : run (mgr D * Z) :=
  let '(part, m) := zalloc m in
  let '(o, m) := zalloc m in
  _ ← access o;
  pv ← access (bdevs (mblk m) !! par);
  name ← part_name (bd_name pv) part_num;
  part ← access part;
  let '(info, m) := zalloc m in
  _ ← access info;
  let dv := BDev name 0 BLKDEV_TYPE_PARTITION secs (sector_size pv)
              (Some (Ops (Some OpPart) (Some OpPart))) (Some (PartPrivate start secs))
              true false true (Some par) in
  let m := set_dev part dv m in
  let m := Mgr (mblk m) (blk_devs m) (blkdev_id_bitmap m)
             (<[par := default [] (children m !! par) ++ [part]]> (children m)) (arena m) in
  '(m, _) ← add part m;
  Done (m, 0).

(** The loop over the entries, [i] the index of the first one. *)
Fixpoint scan_entries (add : Z → mgr D → run (mgr D * Z)) (dev : Z) (i : nat)
    (es : list mbr_partition_entry) (registered : Z) (m : mgr D) : run (mgr D * Z) :=
  match es with
  | [] => Done (m, registered)
  | e :: es =>
      if negb (mbr_partition_is_used e) then scan_entries add dev (S i) es registered m
      else if mbr_type e =? MBRYPE_GPT_PROTECTIVE then Done (m, 0)
      else
        let start := lba_first e in
        let count := sector_count e in
        dv ← access (bdevs (mblk m) !! dev);
        if count =? 0 then scan_entries add dev (S i) es registered m
        else if total_sectors dv <? u64 (start + count) then scan_entries add dev (S i) es registered m
        else
          '(m, r) ← register_partition add dev (Z.of_nat i) start count m;
          scan_entries add dev (S i) es (if r =? 0 then registered + 1 else registered) m
  end.

Definition mbr_read (dev : Z) (m : mgr D) : run (mgr D * option mbr_header) :=
  '(b, r) ← blk_dev_read dev 0 1 (mblk m);
  Done (set_mblk b m, option_map mbr_of r).

Definition mbr_scan_with (add : Z → mgr D → run (mgr D * Z)) (dev : Z) (m : mgr D) : run (mgr D * Z) :=
  '(m, r) ← mbr_read dev m;
  match r with
  | None => Done (m, -1)
  | Some mbr =>
      if negb (mbr_is_valid mbr) then Done (m, 0)
      else scan_entries add dev 0 (partitions mbr) 0 m
  end.

Fixpoint manager_add (fuel : nat) (dev : Z) (m : mgr D) : run (mgr D * Z) :=
  match fuel with
  | O => Stop Diverge
  | S fuel =>
      if dev =? 0 then Done (m, -1)
      else
        dv ← access (bdevs (mblk m) !! dev);
        match ops dv with
        | Some (Ops (Some _) (Some _)) =>
            dup ← find_dev (λ c, bool_decide (bd_name c = bd_name dv)) (bdevs (mblk m)) (blk_devs m);
            match dup with
            | Some _ => Done (m, -1)
            | None =>
                '(id, bitmap) ← blkdev_alloc_id (blkdev_id_bitmap m);
                let m := set_dev dev (set_id id dv) m in
                let m := Mgr (mblk m) (dev :: blk_devs m) bitmap (children m) (arena m) in
                match bd_type dv with
                | BLKDEV_TYPE_PHYSICAL =>
                    '(m, _) ← mbr_scan_with (manager_add fuel) dev m; Done (m, 0)
                | BLKDEV_TYPE_PARTITION => Done (m, 0)
                end
            end
        | _ => Done (m, -1)
        end
  end.

Definition blkdev_manager_add (dev : Z) (m : mgr D) : run (mgr D * Z) := manager_add 2 dev m.

Definition blkdev_register_partition (par part_num start secs : Z) (m : mgr D) : run (mgr D * Z) :=
  register_partition blkdev_manager_add par part_num start secs m.

Definition mbr_scan (dev : Z) (m : mgr D) : run (mgr D * Z) := mbr_scan_with blkdev_manager_add dev m.

Definition blkdev_manager_get (id : Z) (m : mgr D) : run (option Z) :=
  find_dev (λ c, bd_id c =? id) (bdevs (mblk m)) (blk_devs m).

Definition blkdev_manager_get_by_name (name : list Z) (m : mgr D) : run (option Z) :=
  find_dev (λ c, bool_decide (bd_name c = name)) (bdevs (mblk m)) (blk_devs m).

(** The loop stops at the device and does nothing with it. *)
Definition blkdev_manager_remove (id : Z) (m : mgr D) : run (mgr D) :=
  bitmap ← blkdev_free_id id (blkdev_id_bitmap m);
  _ ← find_dev (λ c, bd_id c =? id) (bdevs (mblk m)) (blk_devs m);
  Done (Mgr (mblk m) (blk_devs m) bitmap (children m) (arena m)).
End manager.

(** ** What a scan should register *)

(** The entries that become partitions, with their indices: used, not behind
    a GPT protective entry, and inside the device. *)
Fixpoint plan (i : nat) (es : list mbr_partition_entry) (total : Z) : list (nat * mbr_partition_entry) :=
  match es with
  | [] => []
  | e :: es =>
      if negb (mbr_partition_is_used e) then plan (S i) es total
      else if mbr_type e =? MBRYPE_GPT_PROTECTIVE then []
      else if total <? u64 (lba_first e + sector_count e) then plan (S i) es total
      else (i, e) :: plan (S i) es total
  end.

Definition pname (name : list Z) (i : nat) : list Z :=
  name ++ (match last name with Some c => if is_digit c then [112] else [] | None => [] end)
    ++ [48 + Z.of_nat i].

(** [p] is the partition of [dev] that entry [i] describes. *)
Definition is_part (ds : gmap Z block_dev) (dev : Z) (dv : block_dev) (p : Z)
    (ie : nat * mbr_partition_entry) : Prop :=
  ∃ id, ds !! p = Some (BDev (pname (bd_name dv) ie.1) id BLKDEV_TYPE_PARTITION
    (sector_count ie.2) (sector_size dv) (Some (Ops (Some OpPart) (Some OpPart)))
    (Some (PartPrivate (lba_first ie.2) (sector_count ie.2))) true false true (Some dev)).

Definition id_used (bitmap : list Z) (i : nat) : bool :=
  Z.testbit (default 0 (bitmap !! (i / 8)%nat)) (Z.of_nat (i mod 8)).

(** What the scan of [dev] relies on: the registered devices exist, [dev] has
    a short name, the arena has fresh addresses for the [k] entries that
    follow entry [i], and no registered device has one of their names. *)
Record scannable {D} (dev : Z) (dv : block_dev) (i k : nat) (m : mgr D) : Prop := {
  sc_dev : bdevs (mblk m) !! dev = Some dv;
  sc_name : (length (bd_name dv) <= 29)%nat;
  sc_range : (i + k <= 4)%nat;
  sc_bitmap : length (blkdev_id_bitmap m) = 2%nat;
  sc_devs d : d ∈ blk_devs m → is_Some (bdevs (mblk m) !! d);
  sc_arena : (3 * k <= length (arena m))%nat;
  sc_nodup : NoDup (arena m);
  sc_fresh a : a ∈ arena m → bdevs (mblk m) !! a = None ∧ a ≠ 0;
  sc_names d dv' j : d ∈ blk_devs m → bdevs (mblk m) !! d = Some dv' → (i <= j < 4)%nat →
    bd_name dv' ≠ pname (bd_name dv) j
}.

(** ** Lemmas *)

Lemma pname_length name i : (length name <= 29)%nat → (length (pname name i) <= 31)%nat.
Proof.
  intros H. unfold pname. rewrite !length_app. cbn [length].
  destruct (last name); [|cbn; lia]. destruct (is_digit z); cbn; lia.
Qed.

Lemma pname_inj name i j : pname name i = pname name j → i = j.
Proof.
  unfold pname. intros H. apply app_inv_head, app_inv_head in H. injection H. lia.
Qed.

Lemma part_name_Done name i :
  (length name <= 29)%nat → (i < 4)%nat → part_name name (Z.of_nat i) = Done (pname name i).
Proof.
  intros Hl Hi. unfold part_name.
  assert (match last name with
     | Some c => if is_digit c
         then render [37; 115; 37; 99; 37; 100] [SStr name; SInt 112; SInt (Z.of_nat i)]
         else render [37; 115; 37; 100] [SStr name; SInt (Z.of_nat i)]
     | None => render [37; 115; 37; 100] [SStr name; SInt (Z.of_nat i)]
     end = Some (pname name i)) as ->.
  { unfold pname. do 4 (destruct i as [|i];
      [by destruct (last name) as [c|]; [destruct (is_digit c)|]|]). lia. }
  rsimpl. pose proof (pname_length name i Hl).
  rewrite (proj2 (Z.ltb_lt _ _)); [done|]. unfold DEFAULT_NAME_SIZE. lia.
Qed.

Lemma find_dev_None (p : block_dev → bool) ds l :
  (∀ d, d ∈ l → ∃ dv, ds !! d = Some dv ∧ p dv = false) → find_dev p ds l = Done None.
Proof.
  induction l as [|d l IH]; intros H; cbn [find_dev]; [done|].
  destruct (H d) as (dv & -> & Hp); [by left|]. rsimpl. rewrite Hp.
  apply IH. intros. apply H. by right.
Qed.

Lemma land_bit b n : 0 <= n → (Z.land b (Z.shiftl 1 n) =? 0) = negb (Z.testbit b n).
Proof.
  intros Hn. rewrite Z.shiftl_1_l. destruct (Z.testbit b n) eqn:E; cbn.
  - apply Z.eqb_neq. intros H. assert (Z.testbit (Z.land b (2 ^ n)) n = false) as Hb
      by (by rewrite H, Z.bits_0).
    rewrite Z.land_spec, E, Z.pow2_bits_true in Hb by done. done.
  - apply Z.eqb_eq. apply Z.bits_inj'. intros k Hk.
    rewrite Z.land_spec, Z.bits_0. destruct (decide (k = n)) as [->|Hne]; [by rewrite E|].
    rewrite Z.pow2_bits_false by done. apply andb_false_r.
Qed.

Lemma id_used_set bitmap i b j :
  bitmap !! (i / 8)%nat = Some b →
  id_used (<[(i / 8)%nat := Z.lor b (Z.shiftl 1 (Z.of_nat (i mod 8)))]> bitmap) j =
  (bool_decide (j = i) || id_used bitmap j)%bool.
Proof.
  intros Hb. unfold id_used. destruct (decide (j / 8 = i / 8)%nat) as [E|E].
  - rewrite E, list_lookup_insert_eq, Hb by (by eapply lookup_lt_Some). cbn [default].
    unfold default, id. rewrite Z.lor_spec, Z.shiftl_1_l, Z.pow2_bits_eqb by lia.
    rewrite orb_comm. f_equal.
    pose proof (Nat.div_mod_eq j 8). pose proof (Nat.div_mod_eq i 8).
    case_bool_decide; [subst; apply Z.eqb_refl|]. apply Z.eqb_neq. lia.
  - rewrite list_lookup_insert_ne by done. rewrite bool_decide_eq_false_2; [done|]. congruence.
Qed.

Lemma alloc_id_from_spec n i bitmap :
  length bitmap = 2%nat → (i + n <= 16)%nat →
  ∃ id bitmap', alloc_id_from n i bitmap = Done (id, bitmap') ∧ length bitmap' = 2%nat ∧
    ((∃ k : nat, id = Z.of_nat k ∧ (i <= k < i + n)%nat ∧ id_used bitmap k = false ∧
        (∀ j : nat, (i <= j < k)%nat → id_used bitmap j = true) ∧
        (∀ j : nat, id_used bitmap' j = (bool_decide (j = k) || id_used bitmap j)%bool)) ∨
     (id = u32 (-1) ∧ bitmap' = bitmap ∧ ∀ j : nat, (i <= j < i + n)%nat → id_used bitmap j = true)).
Proof.
  intros Hlen. revert i. induction n as [|n IH]; intros i Hi; cbn [alloc_id_from].
  - eexists _, _. split; [done|]. split; [done|]. right. repeat split. lia.
  - destruct (lookup_lt_is_Some_2 bitmap (i / 8)%nat) as [b Hb].
    { rewrite Hlen. apply Nat.Div0.div_lt_upper_bound. lia. }
    rewrite Hb. rsimpl. rewrite land_bit by lia.
    assert (Hu : id_used bitmap i = Z.testbit b (Z.of_nat (i mod 8))) by (unfold id_used; by rewrite Hb).
    rewrite <- Hu. destruct (id_used bitmap i) eqn:E; cbn [negb].
    + destruct (IH (S i) ltac:(lia)) as (id & bm & -> & Hl & H). exists id, bm.
      split; [done|]. split; [done|]. destruct H as [(k & -> & Hk & Hf & Hj & Hall)|(-> & -> & Hj)].
      * left. exists k. split; [done|]. split; [lia|]. split; [done|]. split; [|done].
        intros j ?. destruct (decide (j = i)) as [->|]; [done|]. apply Hj. lia.
      * right. repeat split. intros j ?. destruct (decide (j = i)) as [->|]; [done|]. apply Hj. lia.
    + eexists _, _. split; [done|]. split; [by rewrite length_insert|]. left. exists i.
      split; [done|]. split; [lia|]. split; [done|]. split; [lia|].
      intros j. by apply id_used_set.
Qed.

Lemma free_id_spec bitmap (k : nat) :
  length bitmap = 2%nat → (k < 16)%nat →
  ∃ bitmap', blkdev_free_id (Z.of_nat k) bitmap = Done bitmap' ∧ length bitmap' = 2%nat ∧
    (∀ j : nat, id_used bitmap' j = (negb (bool_decide (j = k)) && id_used bitmap j)%bool).
Proof.
  intros Hlen Hk. unfold blkdev_free_id.
  change 8 with (Z.of_nat 8). rewrite <- Nat2Z.inj_div, <- Nat2Z.inj_mod, Nat2Z.id.
  destruct (lookup_lt_is_Some_2 bitmap (k / 8)%nat) as [b Hb].
  { rewrite Hlen. apply Nat.Div0.div_lt_upper_bound. lia. }
  rewrite Hb. rsimpl. eexists. split; [done|]. split; [by rewrite length_insert|].
  intros j. unfold id_used. destruct (decide (j / 8 = k / 8)%nat) as [E|E].
  - rewrite E, list_lookup_insert_eq, Hb by (by eapply lookup_lt_Some). unfold default, id.
    rewrite Z.land_spec, andb_comm. f_equal. unfold wrap.
    pose proof (Nat.mod_upper_bound j 8 ltac:(lia)).
    rewrite Z.mod_pow2_bits_low by lia. rewrite Z.lnot_spec, Z.shiftl_1_l, Z.pow2_bits_eqb by lia.
    f_equal. pose proof (Nat.div_mod_eq j 8). pose proof (Nat.div_mod_eq k 8).
    case_bool_decide; [subst; apply Z.eqb_eq; lia|]. apply Z.eqb_neq. lia.
  - rewrite list_lookup_insert_ne by done. by rewrite bool_decide_eq_false_2 by congruence.
Qed.

Lemma find_dev_Some (p : block_dev → bool) ds l d dv :
  (∀ a, a ∈ l → is_Some (ds !! a)) → d ∈ l → ds !! d = Some dv → p dv = true →
  ∃ a dva, find_dev p ds l = Done (Some a) ∧ a ∈ l ∧ ds !! a = Some dva ∧ p dva = true.
Proof.
  intros Hall Hd Hdv Hp. induction l as [|a l IH]; [by apply not_elem_of_nil in Hd|]. cbn [find_dev].
  destruct (Hall a) as [dva Ha]; [by left|]. rewrite Ha. rsimpl. destruct (p dva) eqn:E.
  - exists a, dva. split; [done|]. split; [by left|done].
  - destruct IH as (a' & dva' & E' & Hin & ?).
    + intros. apply Hall. by right.
    + apply elem_of_cons in Hd as [->|]; [congruence|done].
    + exists a', dva'. split; [done|]. split; [by right|done].
Qed.

Section lemmas.
Context {D : Type} `{!block_driver D}.

(** Registering one partition. *)
Lemma register_partition_Done fuel dev dv i k e (m : mgr D) :
  scannable dev dv i (S k) m →
  ∃ p m', register_partition (manager_add (S fuel)) dev (Z.of_nat i) (lba_first e) (sector_count e) m
      = Done (m', 0) ∧ scannable dev dv (S i) k m' ∧
    is_part (bdevs (mblk m')) dev dv p (i, e) ∧ bdevs (mblk m) !! p = None ∧
    blk_devs m' = p :: blk_devs m ∧
    default [] (children m' !! dev) = default [] (children m !! dev) ++ [p] ∧
    (∀ a, a ≠ p → bdevs (mblk m') !! a = bdevs (mblk m) !! a) ∧
    disk (mblk m') = disk (mblk m) ∧ bcache (mblk m') = bcache (mblk m).
Proof.
  intros [Hdev Hname Hrange Hbm Hdevs Har Hnd Hfresh Hnames].
  destruct m as [b devs bm ch ar]. cbn [mblk blk_devs blkdev_id_bitmap children arena] in *.
  destruct ar as [|p [|o [|info ar]]]; try (cbn in Har; lia).
  destruct (Hfresh p) as [Hp Hp0]; [by left|].
  unfold register_partition, zalloc. cbn [arena mblk blk_devs blkdev_id_bitmap children]. rsimpl.
  rewrite Hdev. rsimpl. rewrite part_name_Done by (done || lia). rsimpl.
  unfold set_dev, set_mblk. cbn [arena mblk blk_devs blkdev_id_bitmap children].
  cbn [manager_add mblk bdevs bcache bcache_clock disk]. rewrite (proj2 (Z.eqb_neq p 0)) by done.
  rewrite lookup_insert_eq. rsimpl. cbn [ops bd_name blk_devs].
  rewrite find_dev_None.
  2:{ intros d Hd. destruct (Hdevs d Hd) as [dv' Hdv'].
      assert (d ≠ p) by (intros ->; congruence).
      exists dv'. rewrite lookup_insert_ne by done. split; [done|].
      apply bool_decide_eq_false. eapply Hnames; [done..|lia]. }
  rsimpl. destruct (alloc_id_from_spec 16 0 bm Hbm ltac:(lia)) as (id & bm' & Eid & Hbm' & _).
  unfold blkdev_alloc_id, MAX_BLKDEVS. cbn [blkdev_id_bitmap]. rewrite Eid. rsimpl. cbn [bd_type].
  unfold set_dev, set_mblk, set_id.
  cbn [mblk blk_devs blkdev_id_bitmap children arena bdevs bcache bcache_clock disk
    bd_name bd_type total_sectors sector_size ops private_data initialized read_only bd_present parent].
  rewrite insert_insert_eq. cbn [bool_decide].
  eexists p, _. split; [reflexivity|].
  cbn [mblk blk_devs blkdev_id_bitmap children arena bdevs bcache bcache_clock disk].
  apply NoDup_cons in Hnd as [Hpn Hnd]. apply NoDup_cons in Hnd as [Hon Hnd].
  apply NoDup_cons in Hnd as [Hin Hnd].
  assert (dev ≠ p) by (intros ->; congruence).
  split; [split; cbn [mblk blk_devs blkdev_id_bitmap children arena bdevs]|].
  - by rewrite lookup_insert_ne.
  - done.
  - lia.
  - done.
  - intros d [->|Hd]%elem_of_cons; [by rewrite lookup_insert_eq; eexists|].
    destruct (Hdevs d Hd) as [dv' Hdv']. assert (d ≠ p) by (intros ->; congruence).
    rewrite lookup_insert_ne by done. by eexists.
  - cbn in Har. lia.
  - done.
  - intros a Ha. assert (a ≠ p) by (intros ->; apply Hpn; by do 2 right).
    rewrite lookup_insert_ne by done. apply Hfresh. by do 3 right.
  - intros d dv' j [->|Hd]%elem_of_cons Hl Hj.
    + rewrite lookup_insert_eq in Hl. injection Hl as <-. cbn. intros E%pname_inj. lia.
    + destruct (Hdevs d Hd) as [dv'' Hdv'']. assert (d ≠ p) by (intros ->; congruence).
      rewrite lookup_insert_ne in Hl by done. eapply Hnames; [done..|lia].
  - split; [exists id; by rewrite lookup_insert_eq|]. split; [done|]. split; [done|].
    split; [by rewrite lookup_insert_eq|]. split; [|done].
    intros a Ha. by rewrite lookup_insert_ne.
Qed.

Lemma scannable_skip dev dv i k (m : mgr D) : scannable dev dv i (S k) m → scannable dev dv (S i) k m.
Proof.
  intros [Hdev Hname Hrange Hbm Hdevs Har Hnd Hfresh Hnames]. split; try done; try lia.
  intros. eapply Hnames; [done..|lia].
Qed.

(** A GPT protective entry is met. *)
Definition meets_gpt (es : list mbr_partition_entry) : bool :=
  existsb (λ e, mbr_partition_is_used e && (mbr_type e =? MBRYPE_GPT_PROTECTIVE))%bool es.

Lemma is_part_frame ds ds' dev dv p ie :
  ds' !! p = ds !! p → is_part ds dev dv p ie → is_part ds' dev dv p ie.
Proof. intros E [id H]. exists id. by rewrite E. Qed.

Lemma scan_entries_Done fuel dev dv es i r (m : mgr D) :
  scannable dev dv i (length es) m →
  ∃ ps m', scan_entries (manager_add (S fuel)) dev i es r m
      = Done (m', if meets_gpt es then 0 else r + Z.of_nat (length ps)) ∧
    Forall2 (is_part (bdevs (mblk m')) dev dv) ps (plan i es (total_sectors dv)) ∧
    Forall (λ p, bdevs (mblk m) !! p = None) ps ∧
    blk_devs m' = rev ps ++ blk_devs m ∧
    default [] (children m' !! dev) = default [] (children m !! dev) ++ ps ∧
    (∀ a, a ∉ ps → bdevs (mblk m') !! a = bdevs (mblk m) !! a) ∧
    disk (mblk m') = disk (mblk m).
Proof.
  revert i r m. induction es as [|e es IH]; intros i r m Hsc; cbn [scan_entries plan length] in *.
  { exists [], m. rewrite app_nil_r, Z.add_0_r. repeat split; try done; constructor. }
  assert (Hdev := sc_dev _ _ _ _ _ Hsc). unfold meets_gpt. cbn [existsb].
  destruct (mbr_partition_is_used e) eqn:Eu; cbn [negb andb orb];
    [|by apply IH, scannable_skip].
  destruct (mbr_type e =? MBRYPE_GPT_PROTECTIVE) eqn:Eg; cbn [orb].
  { exists [], m. rewrite app_nil_r. repeat split; try done; constructor. }
  rewrite Hdev. rsimpl.
  assert (sector_count e =? 0 = false) as ->.
  { unfold mbr_partition_is_used in Eu. by breflect; apply Z.eqb_neq. }
  destruct (total_sectors dv <? u64 (lba_first e + sector_count e)) eqn:Et;
    [by apply IH, scannable_skip|].
  destruct (register_partition_Done fuel dev dv i (length es) e m Hsc)
    as (p & m1 & -> & Hsc1 & Hpart & Hp & Hdevs1 & Hch1 & Hfr1 & Hdisk1 & _). rsimpl. cbn [Z.eqb].
  destruct (IH (S i) (r + 1) m1 Hsc1) as (ps & m2 & E2 & Hparts & Hnew & Hdevs2 & Hch2 & Hfr2 & Hdisk2).
  assert (p ∉ ps) as Hpps.
  { intros Hin. rewrite Forall_forall in Hnew. specialize (Hnew p Hin).
    destruct Hpart as [id Hid]. congruence. }
  exists (p :: ps), m2. split; [rewrite E2; f_equal; f_equal; unfold meets_gpt; case_if; cbn [length]; lia|].
  split; [constructor; [|done]; eapply is_part_frame; [by apply Hfr2|done]|].
  split; [constructor; [done|]|].
  { rewrite Forall_forall in Hnew |- *. intros a Ha. rewrite <- Hfr1; [by apply Hnew|]. intros ->. done. }
  split; [rewrite Hdevs2, Hdevs1; cbn [rev]; by rewrite <- app_assoc|].
  split; [by rewrite Hch2, Hch1, <- app_assoc|].
  split; [|congruence].
  intros a [Ha Haps]%not_elem_of_cons. rewrite Hfr2, Hfr1; done.
Qed.

Lemma blk_dev_read_frame dev s n (b b' : blk D) r :
  blk_dev_read dev s n b = Done (b', r) → bdevs b' = bdevs b ∧ disk b' = disk b.
Proof.
  unfold blk_dev_read. destruct (has_op op_read dev b); cbn [negb]; [|by intros [= <- _]].
  intros H. run_inv H. destruct (bcache_eligible _ n); cbn [negb] in H.
  2:{ run_inv H. by injection H as <- _. }
  destruct (bcache_find dev s b).
  - run_inv H. by injection H as <- _.
  - run_inv H. destruct x0; by injection H as <- _.
Qed.

(** [plan] keeps entries that lie inside the device. *)
Lemma plan_inside i es total :
  Forall (λ e, 0 <= lba_first e < 2 ^ 32 ∧ 0 <= sector_count e < 2 ^ 32) es →
  Forall (λ ie, 0 <= lba_first ie.2 ∧ lba_first ie.2 < 2 ^ 32 ∧ 0 < sector_count ie.2 < 2 ^ 32 ∧
                lba_first ie.2 + sector_count ie.2 <= total) (plan i es total).
Proof.
  intros H. revert i. induction H as [|e es [Hl Hc] _ IH]; intros i; cbn [plan]; [constructor|].
  destruct (mbr_partition_is_used e) eqn:Eu; cbn [negb]; [|apply IH].
  case_if; [constructor|]. case_if; [apply IH|]. constructor; [|apply IH]. cbn.
  unfold mbr_partition_is_used in Eu. rewrite wrap_small in * by lia. breflect. lia.
Qed.

Lemma entries_range l n :
  Forall byte l → Forall (λ e, 0 <= lba_first e < 2 ^ 32 ∧ 0 <= sector_count e < 2 ^ 32)
    (entry_of l <$> seq 0 n).
Proof.
  intros Hl. assert (Hb : ∀ off, 0 <= byte_of l off < 256).
  { intros off. unfold byte_of. destruct (l !! Z.to_nat off) eqn:E; cbn; [|lia].
    rewrite Forall_lookup in Hl. by apply Hl in E. }
  apply Forall_fmap, Forall_forall. intros i _. cbn. unfold le32, le16.
  split; match goal with |- 0 <= byte_of ?l ?a + 256 * byte_of ?l ?b + 65536 * (byte_of ?l ?c + 256 * byte_of ?l ?d) < _ =>
    pose proof (Hb a); pose proof (Hb b); pose proof (Hb c); pose proof (Hb d) end; lia.
Qed.

Lemma part_target (b : blk D) dev dv p ie s :
  bdevs b !! dev = Some dv → ops dv = Some (Ops (Some OpDriver) (Some OpDriver)) → p ≠ dev →
  is_part (bdevs b) dev dv p ie →
  target b p s = Some (dev, u64 (s + lba_first ie.2)).
Proof.
  intros Hdev Hops Hne [id Hp]. unfold target, depth. cbn [resolve]. rewrite Hp. cbn [ops private_data parent].
  destruct (size (bdevs b)) as [|n] eqn:Es.
  - apply map_size_empty_inv in Es. rewrite Es in Hdev. done.
  - cbn [resolve]. rewrite Hdev, Hops. done.
Qed.
End lemmas.

(** ** Theorems *)

Section theorems.
Context {D : Type} `{!block_driver D}.

(** [mbr_scan] registers exactly the partitions of the table: on a disk
    whose first sector carries the MBR signature, every used entry that fits
    on the device, up to a GPT protective one, becomes one registered device,
    in the order of the table, with the derived name, the size and the start
    of its entry, its parent and a place among the parent's children; nothing
    else changes. When the disk has driver operations, sector [s] of such a
    partition is sector [start + s] of the disk, inside the disk. *)
Theorem mbr_scan_registers dev dv (m : mgr D) b' l :
  scannable dev dv 0 MBR_PARTITION_COUNT m →
  ops dv = Some (Ops (Some OpDriver) (Some OpDriver)) →
  blk_dev_read dev 0 1 (mblk m) = Done (b', Some l) → Forall byte l →
  le16 l MBR_SIGNATURE_OFFSET = MBR_SIGNATURE →
  ∃ ps m', mbr_scan dev m =
      Done (m', if meets_gpt (partitions (mbr_of l)) then 0 else Z.of_nat (length ps)) ∧
    Forall2 (λ p ie, is_part (bdevs (mblk m')) dev dv p ie ∧
        ∀ s, 0 <= s < sector_count ie.2 →
          target (mblk m') p s = Some (dev, lba_first ie.2 + s) ∧ lba_first ie.2 + s < total_sectors dv)
      ps (plan 0 (partitions (mbr_of l)) (total_sectors dv)) ∧
    blk_devs m' = rev ps ++ blk_devs m ∧
    default [] (children m' !! dev) = default [] (children m !! dev) ++ ps ∧
    (∀ a, a ∉ ps → bdevs (mblk m') !! a = bdevs (mblk m) !! a) ∧
    disk (mblk m') = disk (mblk m).
Proof.
  intros Hsc Hops Hread Hl Hsig.
  destruct (blk_dev_read_frame _ _ _ _ _ _ Hread) as [Hds Hdisk].
  unfold mbr_scan, mbr_scan_with, mbr_read. rstep Hread. cbn [option_map].
  unfold mbr_is_valid, mbr_of. cbn [signature partitions]. rewrite Hsig, Z.eqb_refl. cbn [negb].
  assert (Hsc' : scannable dev dv 0 (length (entry_of l <$> seq 0 MBR_PARTITION_COUNT)) (set_mblk b' m)).
  { rewrite length_fmap, length_seq. destruct Hsc. by split; cbn; rewrite ?Hds. }
  destruct (scan_entries_Done 1 dev dv _ 0 0 _ Hsc') as (ps & m' & E & Hparts & Hnew & Hdevs & Hch & Hfr & Hd).
  change (@blkdev_manager_add D _) with (@manager_add D _ 2). rewrite E. cbn [set_mblk mblk blk_devs children] in *.
  assert (Hdev' : bdevs (mblk m') !! dev = Some dv).
  { rewrite Hfr, Hds; [apply Hsc|]. intros Hin. rewrite Forall_forall in Hnew.
    apply Hnew in Hin. rewrite Hds, (sc_dev _ _ _ _ _ Hsc) in Hin. done. }
  exists ps, m'. split; [done|]. split; [|repeat split; [done..| |congruence]].
  2:{ intros a Ha. by rewrite Hfr, Hds. }
  pose proof (plan_inside 0 _ (total_sectors dv) (entries_range l MBR_PARTITION_COUNT Hl)) as Hin.
  rewrite Forall_forall in Hin. rewrite Forall_forall in Hnew.
  eapply Forall2_impl; [apply Forall2_same_length_lookup_2; [by eapply Forall2_length|]|].
  - intros i p ie Hp Hie.
    assert (Hpart : is_part (bdevs (mblk m')) dev dv p ie) by (by eapply Forall2_lookup_lr).
    destruct (Hin ie) as (Hl0 & Hl1 & Hc & Htot); [by eapply list_elem_of_lookup_2|].
    assert (p ≠ dev) as Hne.
    { intros ->. assert (dev ∈ ps) as Hx by (by eapply list_elem_of_lookup_2).
      apply Hnew in Hx. rewrite Hds, (sc_dev _ _ _ _ _ Hsc) in Hx. done. }
    exact (conj Hpart (conj Hne (conj Hl0 (conj Hl1 (conj Hc Htot))))).
  - intros p ie (Hpart & Hne & Hl0 & Hl1 & Hc & Htot). split; [done|]. intros s Hs.
    rewrite (part_target _ dev dv p ie s Hdev' Hops Hne Hpart).
    split; [|lia]. f_equal. f_equal.
    rewrite wrap_small; lia.
Qed.

(** [blkdev_manager_remove] releases the number of a device and leaves the
    device registered: it is still in the list and a lookup by its number
    still succeeds. When the numbers below are in use, the next registration
    is given the same number, so two registered devices share it. *)
Theorem blkdev_manager_remove_keeps dev dv (k : nat) d2 dv2 (m : mgr D) :
  (∀ a, a ∈ blk_devs m → ∃ dva, bdevs (mblk m) !! a = Some dva ∧ bd_name dva ≠ bd_name dv2) →
  dev ∈ blk_devs m → bdevs (mblk m) !! dev = Some dv → bd_id dv = Z.of_nat k →
  length (blkdev_id_bitmap m) = 2%nat → (k < 16)%nat →
  (∀ j : nat, (j < k)%nat → id_used (blkdev_id_bitmap m) j = true) →
  d2 ∉ blk_devs m → d2 ≠ 0 → bdevs (mblk m) !! d2 = Some dv2 →
  ops dv2 = Some (Ops (Some OpPart) (Some OpPart)) → bd_type dv2 = BLKDEV_TYPE_PARTITION →
  ∃ m' m'' a, blkdev_manager_remove (Z.of_nat k) m = Done m' ∧ blk_devs m' = blk_devs m ∧
    blkdev_manager_get (Z.of_nat k) m' = Done (Some a) ∧
    blkdev_manager_add d2 m' = Done (m'', 0) ∧ blk_devs m'' = d2 :: blk_devs m ∧
    bd_id <$> (bdevs (mblk m'') !! d2) = Some (Z.of_nat k) ∧
    bd_id <$> (bdevs (mblk m'') !! dev) = Some (Z.of_nat k).
Proof.
  intros Hall Hin Hdev Hid Hlen Hk Hused Hd2 Hd20 Hdv2 Hops Htype.
  destruct (free_id_spec (blkdev_id_bitmap m) k Hlen Hk) as (bm & Efree & Hbm & Hbits).
  destruct (find_dev_Some (λ c, bd_id c =? Z.of_nat k) (bdevs (mblk m)) (blk_devs m) dev dv)
    as (a & dva & Efind & _); [|done|done|by apply Z.eqb_eq|].
  { intros x Hx. destruct (Hall x Hx) as (dvx & -> & _). by eexists. }
  destruct (alloc_id_from_spec 16 0 bm Hbm ltac:(lia)) as (id & bm' & Eid & _ & Hcase).
  assert (id = Z.of_nat k) as ->.
  { destruct Hcase as [(k' & -> & Hk' & Hf & Hj & _)|(_ & _ & Hj)].
    - f_equal. destruct (lt_eq_lt_dec k' k) as [[Hlt|]|Hgt]; [|done|].
      + rewrite Hbits, Hused, bool_decide_eq_false_2 in Hf by lia. done.
      + specialize (Hj k ltac:(lia)). rewrite Hbits, bool_decide_eq_true_2 in Hj by done. done.
    - specialize (Hj k ltac:(lia)). rewrite Hbits, bool_decide_eq_true_2 in Hj by done. done. }
  unfold blkdev_manager_remove. rstep Efree. rstep Efind.
  eexists _, _, a. split; [reflexivity|]. split; [done|].
  split; [exact Efind|]. unfold blkdev_manager_add. cbn [manager_add mblk blk_devs blkdev_id_bitmap].
  rewrite (proj2 (Z.eqb_neq d2 0)) by done. rewrite Hdv2. rsimpl. rewrite Hops.
  rewrite find_dev_None.
  2:{ intros x Hx. destruct (Hall x Hx) as (dvx & Hdvx & Hn). exists dvx. split; [done|].
      by apply bool_decide_eq_false. }
  rsimpl. unfold blkdev_alloc_id, MAX_BLKDEVS. rewrite Eid. rsimpl. rewrite Htype.
  split; [reflexivity|]. cbn [set_dev set_mblk mblk blk_devs bdevs].
  split; [done|]. rewrite lookup_insert_eq. split; [done|].
  rewrite lookup_insert_ne by (intros ->; done). rewrite Hdev. cbn. by rewrite Hid.
Qed.
End theorems.

(** ** Witnesses *)

(** The first sector of a disk of 100 sectors: entry 0 of type 6 at sector 10
    with 50 sectors, entry 2 that reaches beyond the end. *)
Definition demo_mbr_sector : list Z :=
  replicate 446 0 ++ [0; 0; 0; 0; 6; 0; 0; 0; 10; 0; 0; 0; 50; 0; 0; 0] ++ replicate 16 0 ++
  [0; 0; 0; 0; 6; 0; 0; 0; 90; 0; 0; 0; 50; 0; 0; 0] ++ replicate 16 0 ++ [85; 170].

Definition demo_mgr : mgr ram_disk :=
  Mgr (Blk {[ 1 := demo_disk_dev ]} empty_cache 0 {[ 0 := demo_mbr_sector ]}) [1] [1; 0] ∅
    [100; 101; 102; 103; 104; 105; 106; 107; 108; 109; 110; 111].

Lemma demo_mgr_scannable : scannable 1 demo_disk_dev 0 MBR_PARTITION_COUNT demo_mgr.
Proof.
  split; try by vm_compute.
  - apply Nat.leb_le. by vm_compute.
  - intros d [->|?%not_elem_of_nil]%elem_of_cons; [by eexists|done].
  - by apply (bool_decide_unpack _).
  - intros a Ha. cbn in Ha. rewrite !elem_of_cons in Ha.
    repeat destruct Ha as [->|Ha]; try (split; [by vm_compute|lia]). by apply not_elem_of_nil in Ha.
  - intros d dv' j [->|?%not_elem_of_nil]%elem_of_cons E Hj; [|done].
    assert (dv' = demo_disk_dev) as -> by (vm_compute in E; by injection E as <-).
    intros H. apply (f_equal length) in H. cbn in H. lia.
Qed.

Lemma mbr_scan_registers_witness :
  ∃ ps m', mbr_scan 1 demo_mgr = Done (m', Z.of_nat (length ps)) ∧ length ps = 1%nat ∧
    blk_devs m' = rev ps ++ [1].
Proof.
  assert (∃ b', blk_dev_read 1 0 1 (mblk demo_mgr) = Done (b', Some demo_mbr_sector)) as [b' Hb'].
  { eexists. vm_compute. reflexivity. }
  destruct (mbr_scan_registers 1 demo_disk_dev demo_mgr b' demo_mbr_sector) as (ps & m' & E & Hps & Hdevs & _).
  - exact demo_mgr_scannable.
  - reflexivity.
  - exact Hb'.
  - apply (bool_decide_unpack _). by vm_compute.
  - by vm_compute.
  - exists ps, m'. split; [exact E|]. split; [|exact Hdevs].
    apply Forall2_length in Hps. rewrite Hps. by vm_compute.
Defined.

Definition demo_two : mgr ram_disk :=
  Mgr demo_blk [1] [1; 0] ∅ [].

Lemma blkdev_manager_remove_keeps_witness :
  ∃ m' m'' a, blkdev_manager_remove 0 demo_two = Done m' ∧ blkdev_manager_get 0 m' = Done (Some a) ∧
    blkdev_manager_add 2 m' = Done (m'', 0) ∧ blk_devs m'' = [2; 1].
Proof.
  destruct (blkdev_manager_remove_keeps 1 demo_disk_dev 0 2 demo_part_dev demo_two)
    as (m' & m'' & a & E1 & _ & E2 & E3 & E4 & _).
  - intros a [->|Ha]%elem_of_cons; [|by apply not_elem_of_nil in Ha].
    exists demo_disk_dev. split; [by vm_compute|discriminate].
  - left.
  - by vm_compute.
  - reflexivity.
  - reflexivity.
  - apply Nat.ltb_lt. reflexivity.
  - intros j Hj. lia.
  - intros [?|Ha]%elem_of_cons; [lia|by apply not_elem_of_nil in Ha].
  - lia.
  - by vm_compute.
  - reflexivity.
  - reflexivity.
  - exists m', m'', a. split; [exact E1|]. split; [exact E2|]. split; [exact E3|exact E4].
Defined.
