(* ===== verification/Ktime.v ===== *)
(** * Clocks and the calendar (lizard/ktime.c, lizard/ktime.h, lizard/rtc.c)

    Signed division truncates, as in C. The ports of the clock chip are
    hardware: the register file read through them is a parameter of
    [rtc_read], and [rtc_write] is the sequence of bytes sent to the ports. *)

From S2P Require Import Prelude.

Local Open Scope Z_scope.

Definition NSEC_PER_SEC : Z := 1000000000.
Definition USEC_PER_SEC : Z := 1000000.
Definition MSEC_PER_SEC : Z := 1000.
Definition NSEC_PER_MSEC : Z := 1000000.
Definition NSEC_PER_USEC : Z := 1000.

Record time_spec := TimeSpec { sec : Z; nsec : Z }.

Definition timespec_is_normalized (ts : time_spec) : bool := (0 <=? nsec ts) && (nsec ts <? NSEC_PER_SEC).
Definition timespec_is_zero (ts : time_spec) : bool := (sec ts =? 0) && (nsec ts =? 0).

Definition timespec_normalize (ts : time_spec) : time_spec :=
  let ts :=
    if (NSEC_PER_SEC <=? nsec ts) || (nsec ts <=? - NSEC_PER_SEC)
    then TimeSpec (i64 (sec ts + Z.quot (nsec ts) NSEC_PER_SEC)) (Z.rem (nsec ts) NSEC_PER_SEC)
    else ts in
  if nsec ts <? 0 then TimeSpec (i64 (sec ts - 1)) (nsec ts + NSEC_PER_SEC) else ts.

Definition timespec_to_ns (ts : time_spec) : Z := i64 (i64 (sec ts * NSEC_PER_SEC) + nsec ts).
Definition timespec_to_us (ts : time_spec) : Z :=
  i64 (i64 (sec ts * USEC_PER_SEC) + Z.quot (nsec ts) NSEC_PER_USEC).
Definition timespec_to_ms (ts : time_spec) : Z :=
  i64 (i64 (sec ts * MSEC_PER_SEC) + Z.quot (nsec ts) NSEC_PER_MSEC).

Definition timespec_from_ns (ns : Z) : time_spec :=
  let ts := TimeSpec (Z.quot ns NSEC_PER_SEC) (Z.rem ns NSEC_PER_SEC) in
  if nsec ts <? 0 then TimeSpec (sec ts - 1) (nsec ts + NSEC_PER_SEC) else ts.

Definition timespec_from_us (us : Z) : time_spec :=
  TimeSpec (Z.quot us USEC_PER_SEC) (Z.rem us USEC_PER_SEC * NSEC_PER_USEC).
Definition timespec_from_ms (ms : Z) : time_spec :=
  TimeSpec (Z.quot ms MSEC_PER_SEC) (Z.rem ms MSEC_PER_SEC * NSEC_PER_MSEC).

Definition timespec_add (a b : time_spec) : time_spec :=
  timespec_normalize (TimeSpec (i64 (sec a + sec b)) (i64 (nsec a + nsec b))).
Definition timespec_sub (a b : time_spec) : time_spec :=
  timespec_normalize (TimeSpec (i64 (sec a - sec b)) (i64 (nsec a - nsec b))).

Definition timespec_eq (a b : time_spec) : bool := (sec a =? sec b) && (nsec a =? nsec b).
Definition timespec_lt (a b : time_spec) : bool :=
  (sec a <? sec b) || ((sec a =? sec b) && (nsec a <? nsec b)).
Definition timespec_gt (a b : time_spec) : bool := timespec_lt b a.
Definition timespec_le (a b : time_spec) : bool := negb (timespec_gt a b).
Definition timespec_ge (a b : time_spec) : bool := negb (timespec_lt a b).

(** ** The calendar *)

Definition is_leap_year (y : Z) : bool :=
  ((Z.rem y 4 =? 0) && negb (Z.rem y 100 =? 0)) || (Z.rem y 400 =? 0).

Definition days_before_month (leap : bool) (m : Z) : run Z :=
  if m <? 0 then Stop Fault
  else access ((if leap then [0; 31; 60; 91; 121; 152; 182; 213; 244; 274; 305; 335]
                else [0; 31; 59; 90; 120; 151; 181; 212; 243; 273; 304; 334]) !! Z.to_nat m).

Definition days_before_year (y : Z) : Z :=
  let years := u64 (y - 1970) in
  u64 (years * 365 + u64 (years + 1) / 4 - u64 (years + 69) / 100 + u64 (years + 369) / 400).

(** The registers 0 to 9 of the clock chip, in their order. *)
Record rtc_timer := Rtc {
  seconds : Z; seconds_alarm : Z; minutes : Z; minutes_alarm : Z; hours : Z; hours_alarm : Z;
  day_in_week : Z; day_of_month : Z; month : Z; year : Z
}.

Definition rtc_to_timespec (t : rtc_timer) : run time_spec :=
  let y := 2000 + year t in
  before ← days_before_month (is_leap_year y) (month t - 1);
  let days := u64 (days_before_year y + before + (day_of_month t - 1)) in
  Done (TimeSpec (i64 (u64 (days * 86400 + hours t * 3600 + minutes t * 60 + seconds t))) 0).

(** The year loop; [days] shrinks by at least 365 in an iteration. *)
Fixpoint year_loop (fuel : nat) (y days : Z) : run (Z * Z) :=
  match fuel with
  | O => Stop Diverge
  | S fuel =>
      let diy := if is_leap_year y then 366 else 365 in
      if days <? diy then Done (y, days) else year_loop fuel (y + 1) (days - diy)
  end.

Definition mdays : list Z := [31; 28; 31; 30; 31; 30; 31; 31; 30; 31; 30; 31].

(** The month loop over the rest of the table [md], [m] the index. *)
Fixpoint month_loop (md : list Z) (y m days : Z) : run (Z * Z) :=
  match md with
  | [] => Stop Fault
  | d :: md =>
      let dim := if (m =? 1) && is_leap_year y then d + 1 else d in
      if days <? dim then Done (m, days) else month_loop md y (m + 1) (days - dim)
  end.

Record civil := Civil { c_year : Z; c_month : Z; c_day : Z; c_hour : Z; c_min : Z; c_sec : Z }.

Definition timespec_split (ts : time_spec) : run civil :=
  let s := sec ts in
  let days := Z.quot s 86400 in
  let rem := Z.rem s 86400 in
  let '(days, rem) := if rem <? 0 then (days - 1, rem + 86400) else (days, rem) in
  let h := Z.quot rem 3600 in
  let rem := Z.rem rem 3600 in
  let mi := Z.quot rem 60 in
  let se := Z.rem rem 60 in
  '(y, days) ← year_loop (S (Z.to_nat (days / 365))) 1970 days;
  '(m, days) ← month_loop mdays y 0 days;
  Done (Civil y (m + 1) (days + 1) h mi se).

Definition timespec_get_year (ts : time_spec) : run Z := c ← timespec_split ts; Done (c_year c).
Definition timespec_get_month (ts : time_spec) : run Z := c ← timespec_split ts; Done (c_month c).
Definition timespec_get_day (ts : time_spec) : run Z := c ← timespec_split ts; Done (c_day c).
Definition timespec_get_hour (ts : time_spec) : run Z := c ← timespec_split ts; Done (c_hour c).
Definition timespec_get_min (ts : time_spec) : run Z := c ← timespec_split ts; Done (c_min c).
Definition timespec_get_sec (ts : time_spec) : run Z := c ← timespec_split ts; Done (c_sec c).

(** ** The clock chip *)

Definition bcd_to_binary (bcd : Z) : Z := u8 (Z.shiftr (Z.land bcd 0xF0) 4 * 10 + Z.land bcd 0x0F).
Definition binary_to_bcd (binary : Z) : Z := u8 (Z.lor (Z.shiftl (binary / 10) 4) (binary mod 10)).

(** [cmos] is the content of the registers while they are read. *)
Definition rtc_read (cmos : Z → Z) : rtc_timer :=
  let b reg := bcd_to_binary (cmos reg) in
  Rtc (b 0) (b 1) (b 2) (b 3) (b 4) (b 5) (b 6) (b 7) (b 8) (b 9).

Definition RTC_COMMAND_PORT : Z := 0x70.
Definition RTC_DATA_PORT : Z := 0x71.

Definition rtc_write_b (reg value : Z) : list (Z * Z) :=
  [(RTC_COMMAND_PORT, reg); (RTC_DATA_PORT, binary_to_bcd value)].

(** The bytes sent, [prev] being register B as it was read. *)
Definition rtc_write (prev : Z) (t : rtc_timer) : list (Z * Z) :=
  [(RTC_COMMAND_PORT, 0x8B); (RTC_COMMAND_PORT, 0x8B); (RTC_DATA_PORT, u8 (Z.lor prev 0x80))] ++
  rtc_write_b 0x00 (seconds t) ++ rtc_write_b 0x02 (minutes t) ++ rtc_write_b 0x04 (hours t) ++
  rtc_write_b 0x07 (day_of_month t) ++ rtc_write_b 0x08 (month t) ++ rtc_write_b 0x09 (year t mod 100) ++
  [(RTC_COMMAND_PORT, 0x8B); (RTC_DATA_PORT, u8 (Z.land prev (Z.lnot 0x80)))].

(** ** The clocks of the kernel *)

Record clocks := Clocks {
  wall_clock : time_spec; mono_clock : time_spec; boot_wall : time_spec; boot_mono : time_spec
}.

Definition time_init (cmos : Z → Z) : run clocks :=
  wall ← rtc_to_timespec (rtc_read cmos);
  let mono := TimeSpec 0 0 in
  Done (Clocks wall mono wall mono).

Definition time_tick_ns (delta_ns : Z) (c : clocks) : clocks :=
  let tick ts := timespec_normalize (TimeSpec (sec ts) (i64 (nsec ts + delta_ns))) in
  Clocks (tick (wall_clock c)) (tick (mono_clock c)) (boot_wall c) (boot_mono c).

Definition timespec_uptime (c : clocks) : time_spec :=
  timespec_normalize (TimeSpec (i64 (sec (mono_clock c) - sec (boot_mono c)))
                               (i64 (nsec (mono_clock c) - nsec (boot_mono c)))).

Definition time_uptime_ns (c : clocks) : Z := timespec_to_ns (timespec_uptime c).
Definition time_uptime_us (c : clocks) : Z := timespec_to_us (timespec_uptime c).
Definition time_uptime_ms (c : clocks) : Z := timespec_to_ms (timespec_uptime c).
Definition time_now (c : clocks) : time_spec := wall_clock c.

(** ** Specifications *)

(** A calendar date and a time of day. *)
Definition month_days (y m : Z) : Z :=
  default 0 (mdays !! Z.to_nat (m - 1)) + (if (m =? 2) && is_leap_year y then 1 else 0).

Definition valid_civil (c : civil) : Prop :=
  1 <= c_month c <= 12 ∧ 1 <= c_day c <= month_days (c_year c) (c_month c) ∧
  0 <= c_hour c < 24 ∧ 0 <= c_min c < 60 ∧ 0 <= c_sec c < 60.

(** The registers that hold a date of the years 2000 to 2255. *)
Definition rtc_of (c : civil) : rtc_timer :=
  Rtc (c_sec c) 0 (c_min c) 0 (c_hour c) 0 0 (c_day c) (c_month c) (c_year c - 2000).

(** The instant a time denotes, in nanoseconds. *)
Definition instant (ts : time_spec) : Z := sec ts * NSEC_PER_SEC + nsec ts.

(** The first day of a year, counted from 1970 over the integers. *)
Definition dby (y : Z) : Z := 365 * (y - 1970) + (y - 1969) / 4 - (y - 1901) / 100 + (y - 1601) / 400.

Definition diy (y : Z) : Z := if is_leap_year y then 366 else 365.

(** ** Lemmas *)

Lemma is_leap_year_mod y : 0 <= y →
  is_leap_year y = (((y mod 4 =? 0) && negb (y mod 100 =? 0)) || (y mod 400 =? 0))%bool.
Proof. intros. unfold is_leap_year. by rewrite !Z.rem_mod_nonneg by lia. Qed.

Lemma div_succ a k n : 0 < n →
  (a + 1 - (k * n + 1)) / n = (a - (k * n + 1)) / n + (if a mod n =? 0 then 1 else 0).
Proof.
  intros Hn. replace (a + 1 - (k * n + 1)) with (a + - k * n) by lia.
  replace (a - (k * n + 1)) with (a - 1 + - k * n) by lia. rewrite !Z.div_add by lia.
  pose proof (Z.div_mod a n). pose proof (Z.mod_pos_bound a n Hn).
  destruct (Z.eqb_spec (a mod n) 0).
  - rewrite <- (Z.div_unique (a - 1) n (a / n - 1) (n - 1)); lia.
  - rewrite <- (Z.div_unique (a - 1) n (a / n) (a mod n - 1)); lia.
Qed.

Lemma dby_succ y : 0 <= y → dby (y + 1) = dby y + diy y.
Proof.
  intros Hy. unfold dby, diy. rewrite is_leap_year_mod by done.
  assert ((y + 1 - 1969) / 4 = (y - 1969) / 4 + (if y mod 4 =? 0 then 1 else 0)) as ->
    by exact (div_succ y 492 4 ltac:(lia)).
  assert ((y + 1 - 1901) / 100 = (y - 1901) / 100 + (if y mod 100 =? 0 then 1 else 0)) as ->
    by exact (div_succ y 19 100 ltac:(lia)).
  assert ((y + 1 - 1601) / 400 = (y - 1601) / 400 + (if y mod 400 =? 0 then 1 else 0)) as ->
    by exact (div_succ y 4 400 ltac:(lia)).
  destruct (Z.eqb_spec (y mod 4) 0), (Z.eqb_spec (y mod 100) 0), (Z.eqb_spec (y mod 400) 0);
    cbn [andb orb negb]; try lia; exfalso; Z.div_mod_to_equations; lia.
Qed.

Lemma days_before_year_dby y : 1970 <= y < 2 ^ 32 → days_before_year y = dby y.
Proof.
  intros Hy. unfold days_before_year, dby. rewrite (wrap_small 64 (y - 1970)) by lia.
  replace (y - 1970 + 1) with (y - 1969) by lia. replace (y - 1970 + 69) with (y - 1901) by lia.
  replace (y - 1970 + 369) with (y - 1601) by lia.
  rewrite (wrap_small 64 (y - 1969)), (wrap_small 64 (y - 1901)), (wrap_small 64 (y - 1601)) by lia.
  rewrite wrap_small; [lia|]. Z.div_mod_to_equations. lia.
Qed.

Lemma dby_mono y z : 0 <= y <= z → dby y + 365 * (z - y) <= dby z.
Proof.
  intros [Hy Hz]. replace z with (y + Z.of_nat (Z.to_nat (z - y))) by lia.
  induction (Z.to_nat (z - y)) as [|n IH]; [rewrite Z.add_0_r; lia|].
  replace (y + Z.of_nat (S n)) with (y + Z.of_nat n + 1) by lia. rewrite dby_succ by lia.
  unfold diy. destruct (is_leap_year _); lia.
Qed.

(** The year loop finds the year whose days contain the count. *)
Lemma year_loop_Done fuel y z d :
  0 <= y <= z → 0 <= d < diy z → (Z.to_nat (z - y) < fuel)%nat →
  year_loop fuel y (dby z - dby y + d) = Done (z, d).
Proof.
  revert y. induction fuel as [|fuel IH]; intros y Hy Hd Hf; [lia|]. cbn [year_loop]. fold (diy y).
  destruct (decide (y = z)) as [->|Hne].
  - rewrite (proj2 (Z.ltb_lt _ _)) by lia. f_equal. f_equal. lia.
  - pose proof (dby_mono (y + 1) z ltac:(lia)). pose proof (dby_succ y ltac:(lia)).
    rewrite (proj2 (Z.ltb_ge _ _)) by lia.
    replace (dby z - dby y + d - diy y) with (dby z - dby (y + 1) + d) by lia.
    apply IH; lia.
Qed.

(** The length of the month with index [m] and table entry [d]. *)
Definition mdim (y m d : Z) : Z := if (m =? 1) && is_leap_year y then d + 1 else d.

Fixpoint msum (y m : Z) (l : list Z) : Z :=
  match l with [] => 0 | d :: l => mdim y m d + msum y (m + 1) l end.

Lemma msum_nonneg y m l : Forall (λ d, 0 <= d) l → 0 <= msum y m l.
Proof.
  intros H. revert m. induction H as [|d l Hd _ IH]; intros m; cbn [msum]; [lia|].
  specialize (IH (m + 1)). unfold mdim. destruct (_ && _)%bool; lia.
Qed.

Lemma month_loop_app l1 d l2 y m r :
  Forall (λ d, 0 <= d) l1 → 0 <= r < mdim y (m + Z.of_nat (length l1)) d →
  month_loop (l1 ++ d :: l2) y m (msum y m l1 + r) = Done (m + Z.of_nat (length l1), r).
Proof.
  intros H. revert m. induction H as [|x l1 Hx Hl IH]; intros m Hr; cbn [app msum length month_loop] in *.
  - rewrite Z.add_0_r in *. fold (mdim y m d). by rewrite (proj2 (Z.ltb_lt _ _)) by lia.
  - fold (mdim y m x). pose proof (msum_nonneg y (m + 1) l1 Hl).
    rewrite (proj2 (Z.ltb_ge _ _)) by lia.
    replace (mdim y m x + msum y (m + 1) l1 + r - mdim y m x) with (msum y (m + 1) l1 + r) by lia.
    replace (m + Z.of_nat (S (length l1))) with (m + 1 + Z.of_nat (length l1)) in * by lia.
    by apply IH.
Qed.

(** The days before a month and the month loop agree, in both kinds of years. *)
Lemma month_loop_Done y m d :
  1 <= m <= 12 → 1 <= d <= month_days y m →
  ∃ before, days_before_month (is_leap_year y) (m - 1) = Done before ∧
    0 <= before ∧ before + d <= diy y ∧
    month_loop mdays y 0 (before + (d - 1)) = Done (m - 1, d - 1).
Proof.
  intros Hm Hd.
  assert (Hk : ∃ k : nat, (k < 12)%nat ∧ m = Z.of_nat k + 1) by (exists (Z.to_nat (m - 1)); lia).
  destruct Hk as (k & Hk & ->).
  assert (Htab : days_before_month (is_leap_year y) (Z.of_nat k) = Done (msum y 0 (take k mdays)) ∧
    0 <= msum y 0 (take k mdays) ∧
    msum y 0 (take k mdays) + month_days y (Z.of_nat k + 1) <= diy y ∧
    ∃ x, mdays = take k mdays ++ x :: drop (S k) mdays ∧ month_days y (Z.of_nat k + 1) = mdim y (Z.of_nat k) x).
  { clear Hd Hm. unfold month_days, mdim, diy.
    do 12 (destruct k as [|k]; [cbn [take mdays msum]; unfold mdim;
      destruct (is_leap_year y); (split; [reflexivity|]; split; [by vm_compute|]; split;
        [by vm_compute|]; eexists; split; reflexivity)|]). lia. }
  destruct Htab as (Ht & H0 & Hle & x & Hsplit & Hx). exists (msum y 0 (take k mdays)).
  replace (Z.of_nat k + 1 - 1) with (Z.of_nat k) by lia.
  split; [done|]. split; [done|]. split; [lia|].
  assert (length (take k mdays) = k) as Hlen by (rewrite length_take; cbn; lia).
  rewrite Hsplit at 1. rewrite month_loop_app; [by rewrite Hlen| |rewrite Hlen; rewrite Z.add_0_l; lia].
  apply Forall_take. repeat constructor; lia.
Qed.

Lemma normalize_spec ts :
  - 2 ^ 62 <= sec ts < 2 ^ 62 → - 2 ^ 63 <= nsec ts < 2 ^ 63 →
  instant (timespec_normalize ts) = instant ts ∧ 0 <= nsec (timespec_normalize ts) < NSEC_PER_SEC ∧
  sec (timespec_normalize ts) = instant ts / NSEC_PER_SEC.
Proof.
  intros Hs Hn. unfold NSEC_PER_SEC.
  assert (Hmain : instant (timespec_normalize ts) = instant ts ∧
    0 <= nsec (timespec_normalize ts) < 1000000000).
  { unfold timespec_normalize, instant, NSEC_PER_SEC.
    pose proof (Z.quot_rem' (nsec ts) 1000000000) as Hq.
    pose proof (Z.rem_bound_abs (nsec ts) 1000000000 ltac:(lia)) as Hr.
    set (q := Z.quot (nsec ts) 1000000000) in *. set (r := Z.rem (nsec ts) 1000000000) in *.
    destruct ((1000000000 <=? nsec ts) || (nsec ts <=? Z.opp 1000000000))%bool eqn:E; cbn [sec nsec].
    - rewrite (swrap_small 64 (sec ts + q)) by lia.
      destruct (r <? 0) eqn:Er; breflect; cbn [sec nsec]; [rewrite swrap_small by lia|]; lia.
    - breflect. destruct (nsec ts <? 0) eqn:En; breflect; cbn [sec nsec]; [rewrite swrap_small by lia|]; lia. }
  destruct Hmain as [Hi Hr]. split; [done|]. split; [done|].
  rewrite <- Hi. unfold instant, NSEC_PER_SEC.
  rewrite Z.add_comm, Z.div_add, Z.div_small by lia. lia.
Qed.

(** ** Theorems *)

(** The calendar round trip: for every valid date and time of the years
    2000 to 2255, converting the clock registers to seconds and projecting the
    seconds back onto the calendar returns the same year, month, day, hour,
    minute and second; both loops of the projection end. *)
Theorem rtc_timespec_roundtrip c :
  valid_civil c → 2000 <= c_year c <= 2255 →
  ∃ ts, rtc_to_timespec (rtc_of c) = Done ts ∧ timespec_is_normalized ts = true ∧
    timespec_split ts = Done c.
Proof.
  intros (Hm & Hd & Hh & Hmi & Hs) Hy. destruct c as [y m d h mi s].
  cbn [c_year c_month c_day c_hour c_min c_sec] in *.
  destruct (month_loop_Done y m d Hm Hd) as (before & Hb & Hb0 & Hbd & Hloop).
  unfold rtc_to_timespec, rtc_of. cbn [month year day_of_month hours minutes seconds c_year c_month c_day c_hour c_min c_sec].
  replace (2000 + (y - 2000)) with y by lia. rewrite Hb. rsimpl.
  rewrite days_before_year_dby by lia.
  assert (H0 : 0 <= dby y <= 365 * 300 + 100).
  { unfold dby. Z.div_mod_to_equations. lia. }
  assert (Hdiy : diy y <= 366) by (unfold diy; destruct (is_leap_year y); lia).
  set (D := dby y + (before + (d - 1))).
  rewrite (wrap_small 64 (dby y + before + (d - 1))) by lia.
  replace (dby y + before + (d - 1)) with D by lia.
  rewrite (wrap_small 64) by lia. rewrite swrap_small by lia.
  eexists. split; [reflexivity|]. split; [reflexivity|].
  unfold timespec_split. cbn [sec].
  assert (Hdiv : ∀ q r b, 0 <= r < b → 0 <= q → Z.quot (q * b + r) b = q ∧ Z.rem (q * b + r) b = r).
  { intros q r b Hr Hq. rewrite Z.quot_div_nonneg, Z.rem_mod_nonneg by nia.
    rewrite (Z.add_comm (q * b)), Z.div_add, Z.mod_add by lia. rewrite Z.div_small, Z.mod_small by lia. lia. }
  replace (D * 86400 + h * 3600 + mi * 60 + s) with (D * 86400 + (h * 3600 + mi * 60 + s)) by lia.
  destruct (Hdiv D (h * 3600 + mi * 60 + s) 86400) as [-> ->]; [lia|lia|].
  rewrite (proj2 (Z.ltb_ge _ 0)) by lia.
  replace (h * 3600 + mi * 60 + s) with (h * 3600 + (mi * 60 + s)) by lia.
  destruct (Hdiv h (mi * 60 + s) 3600) as [-> ->]; [lia|lia|].
  destruct (Hdiv mi s 60) as [-> ->]; [lia|lia|].
  pose proof (year_loop_Done (S (Z.to_nat (D / 365))) 1970 y (before + (d - 1))) as Hyear.
  change (dby 1970) with 0 in Hyear. rewrite Z.sub_0_r in Hyear. fold D in Hyear.
  rewrite Hyear; [|lia|lia|].
  - rsimpl. rewrite Hloop. rsimpl. do 2 f_equal; lia.
  - pose proof (dby_mono 1970 y ltac:(lia)) as Hmono. change (dby 1970) with 0 in Hmono.
    assert (y - 1970 <= D / 365); [|lia]. apply Z.div_le_lower_bound; lia.
Qed.

(** The clocks advance by exactly the tick: as long as the seconds stay
    below 2^62, a tick of [delta] nanoseconds adds [delta] to the instants of
    the wall clock and of the monotonic clock, keeps both normalised, and adds
    [delta] to the uptime, which is normalised as well. *)
Theorem time_tick_advances delta c :
  0 <= delta < 2 ^ 62 →
  timespec_is_normalized (wall_clock c) = true → timespec_is_normalized (mono_clock c) = true →
  timespec_is_normalized (boot_mono c) = true →
  0 <= sec (wall_clock c) < 2 ^ 60 → 0 <= sec (boot_mono c) <= sec (mono_clock c) →
  sec (mono_clock c) < 2 ^ 60 →
  let c' := time_tick_ns delta c in
  instant (wall_clock c') = instant (wall_clock c) + delta ∧
  instant (mono_clock c') = instant (mono_clock c) + delta ∧
  instant (timespec_uptime c') = instant (timespec_uptime c) + delta ∧
  timespec_is_normalized (wall_clock c') = true ∧ timespec_is_normalized (mono_clock c') = true ∧
  timespec_is_normalized (timespec_uptime c') = true.
Proof.
  intros Hdelta Hnw Hnm Hnb Hw Hb Hm c'. unfold timespec_is_normalized in *. breflect.
  unfold NSEC_PER_SEC in *.
  assert (Htick : ∀ ts, 0 <= sec ts < 2 ^ 60 → 0 <= nsec ts < 1000000000 →
    let ts' := timespec_normalize (TimeSpec (sec ts) (i64 (nsec ts + delta))) in
    instant ts' = instant ts + delta ∧ 0 <= nsec ts' < 1000000000 ∧ 0 <= sec ts' < 2 ^ 61).
  { intros ts Hs Hn ts'.
    destruct (normalize_spec (TimeSpec (sec ts) (i64 (nsec ts + delta)))) as (Hi & Hr & Hsec);
      rewrite ?swrap_small by lia; cbn [sec nsec]; try lia.
    unfold instant, NSEC_PER_SEC in *. cbn [sec nsec] in *. rewrite swrap_small in * by lia.
    subst ts'. rewrite swrap_small in * by lia. lia. }
  destruct (Htick (wall_clock c)) as (Hiw & Hnw' & Hsw); [lia..|].
  destruct (Htick (mono_clock c)) as (Him & Hnm' & Hsm); [lia..|].
  assert (Hup : ∀ m, 0 <= sec m < 2 ^ 61 → 0 <= nsec m < 1000000000 →
    let up := timespec_normalize (TimeSpec (i64 (sec m - sec (boot_mono c))) (i64 (nsec m - nsec (boot_mono c)))) in
    instant up = instant m - instant (boot_mono c) ∧ 0 <= nsec up < 1000000000).
  { intros m Hs Hn up.
    destruct (normalize_spec (TimeSpec (i64 (sec m - sec (boot_mono c))) (i64 (nsec m - nsec (boot_mono c)))))
      as (Hi & Hr & _); cbn [sec nsec]; rewrite ?swrap_small by lia; try lia.
    split; [|done]. subst up. rewrite Hi. unfold instant, NSEC_PER_SEC. cbn [sec nsec].
    rewrite !swrap_small by lia. lia. }
  destruct (Hup (mono_clock c)) as [Hu Hun]; [lia..|].
  destruct (Hup (mono_clock c')) as [Hu' Hun']; [exact Hsm|exact Hnm'|].
  split; [exact Hiw|]. split; [exact Him|]. split.
  { unfold timespec_uptime. change (boot_mono c') with (boot_mono c). rewrite Hu, Hu'.
    change (mono_clock c') with (timespec_normalize (TimeSpec (sec (mono_clock c)) (i64 (nsec (mono_clock c) + delta)))).
    lia. }
  assert (Hb3 : ∀ ts, 0 <= nsec ts < 1000000000 → ((0 <=? nsec ts) && (nsec ts <? 1000000000))%bool = true).
  { intros ts ?. apply andb_true_iff. split; [apply Z.leb_le; lia|apply Z.ltb_lt; lia]. }
  split; [apply Hb3; exact Hnw'|]. split; [apply Hb3; exact Hnm'|].
  apply Hb3. exact Hun'.
Qed.

(** ** Witnesses *)

Lemma rtc_timespec_roundtrip_witness :
  ∃ ts, rtc_to_timespec (rtc_of (Civil 2024 2 29 23 59 58)) = Done ts ∧
    timespec_split ts = Done (Civil 2024 2 29 23 59 58).
Proof.
  destruct (rtc_timespec_roundtrip (Civil 2024 2 29 23 59 58)) as (ts & E & _ & E').
  - unfold valid_civil. cbn [c_year c_month c_day c_hour c_min c_sec].
    split; [lia|]. split; [vm_compute; split; discriminate|lia].
  - cbn [c_year]. lia.
  - exists ts. split; [exact E|exact E'].
Defined.

Definition demo_clocks : clocks :=
  Clocks (TimeSpec 1000000000 5) (TimeSpec 70 999999999) (TimeSpec 999999930 6) (TimeSpec 0 0).

Lemma time_tick_advances_witness :
  instant (timespec_uptime (time_tick_ns 10000000 demo_clocks)) =
  instant (timespec_uptime demo_clocks) + 10000000.
Proof.
  apply (time_tick_advances 10000000 demo_clocks); try reflexivity; cbn; lia.
Defined.
