(* ===== verification/SectorDev.v ===== *)
(** * Sector devices: what the block layer promises to a file system

    A file system transfers single 512-byte sectors of one device. The
    interface is the pair of transfer operations; its laws speak of the content
    [sd_get] of the sectors. [sd_good] says that transfers do not fail. The
    block layer implements the interface for a device with its cache
    ([blk_dev_read] and [blk_dev_write]); a disk in memory is a second one. *)

From S2P Require Import Prelude CString BlkDev.

Local Open Scope Z_scope.

Definition FAT16_SECTOR_SIZE : Z := 512.

Class sector_dev (S : Type) := SectorDevice {
  sd_read : Z → st S (option (list Z));
  sd_write : Z → list Z → st S bool;
  sd_get : S → Z → list Z;
  sd_ok : S → Prop;
  sd_good : S → Prop
}.

Definition lba_ok (k : Z) : Prop := 0 <= k < 2 ^ 32.

Class SectorDevLaws (S : Type) `{!sector_dev S} : Prop := {
  sd_read_ok s lba : sd_ok s → lba_ok lba →
    wp (sd_read lba) (λ r s', sd_ok s' ∧ (∀ k, lba_ok k → sd_get s' k = sd_get s k) ∧
      (∀ l, r = Some l → l = sd_get s lba) ∧ (sd_good s → sd_good s' ∧ is_Some r)) s;
  sd_write_ok s lba l : sd_ok s → lba_ok lba → length l = 512%nat → Forall byte l →
    wp (sd_write lba l) (λ b s', sd_ok s' ∧
      (∀ k, lba_ok k → sd_get s' k = if b && (k =? lba) then l else sd_get s k) ∧
      (sd_good s → sd_good s' ∧ b = true)) s;
  sd_sector s k : sd_ok s → lba_ok k → length (sd_get s k) = 512%nat ∧ Forall byte (sd_get s k)
}.

(** ** A disk in memory *)

Abbreviation ram := (gmap Z (list Z)).

Definition ram_get (d : ram) (k : Z) : list Z := default (replicate 512 0) (d !! k).

#[export] Instance ram_dev : sector_dev ram := {
  sd_read lba := λ d, Done (Some (ram_get d lba), d);
  sd_write lba l := λ d, Done (true, <[lba := l]> d);
  sd_get := ram_get;
  sd_ok d := ∀ k l, d !! k = Some l → length l = 512%nat ∧ Forall byte l;
  sd_good _ := True
}.

#[export] Instance ram_dev_laws : SectorDevLaws ram.
Proof.
  split.
  - intros d lba Hok _. unfold wp. cbn. split; [done|]. split; [done|]. split; [by intros ? [= <-]|by eauto].
  - intros d lba l Hok _ Hl Hb. unfold wp. cbn. split; [|split; [|done]].
    + intros k l' [[<- <-]|[_ ?]]%lookup_insert_Some; eauto.
    + intros k _. unfold ram_get. destruct (Z.eqb_spec k lba) as [->|];
        [by rewrite lookup_insert_eq|by rewrite lookup_insert_ne].
  - intros d k Hok _. change (sd_get d k) with (ram_get d k). unfold ram_get.
    destruct (d !! k) eqn:E; [by eapply Hok|]. unfold default.
    split; [apply length_replicate|]. apply Forall_replicate. unfold byte. lia.
Qed.

(** ** The block layer *)

Section blk.
Context {D : Type} `{!block_driver D} `{!BlockDriverLaws D}.
Variable dev : Z.

Definition blk_get (b : blk D) (k : Z) : list Z :=
  match target b dev k with Some (pd, ps) => sector (disk b) pd ps | None => [] end.

(** The lines of the other devices. *)
Definition other_line (b : blk D) (d s : Z) : Prop :=
  ∃ i l, bcache b !! i = Some l ∧ valid l = true ∧ l_dev l = d ∧ l_sector l = s ∧ d ≠ dev.

Record blk_ok (b : blk D) : Prop := {
  bo_coherent : coherent b;
  bo_target k : lba_ok k → is_Some (target b dev k);
  bo_byte pd ps : Forall byte (sector (disk b) pd ps);
  bo_alias d s k : other_line b d s → lba_ok k → target b d s ≠ target b dev k
}.

Definition blk_good (b : blk D) : Prop :=
  ∀ k pd ps d l, lba_ok k → target b dev k = Some (pd, ps) → length l = 512%nat →
    is_Some (drv_read pd ps 1 d) ∧ is_Some (drv_write pd ps 1 l d).

Definition blk_sector_dev : sector_dev (blk D) := {|
  sd_read lba := λ b, '(b', r) ← blk_dev_read dev lba 1 b; Done (r, b');
  sd_write lba l := λ b, '(b', ok) ← blk_dev_write dev lba 1 l b; Done (ok, b');
  sd_get := blk_get;
  sd_ok := blk_ok;
  sd_good := blk_good
|}.

Lemma other_line_insert (b : blk D) i l c dk :
  (∀ d s, l_dev l = d → l_sector l = s → valid l = true → d ≠ dev → other_line b d s) →
  ∀ d s, other_line (Blk (bdevs b) (<[i := l]> (bcache b)) c dk) d s → other_line b d s.
Proof.
  intros Hl d s (j & m & Hm & Hv & Hd & Hs & Hne). cbn [bcache] in Hm.
  apply list_lookup_insert_Some in Hm as [(-> & <- & _)|(_ & Hm)]; [by apply Hl|].
  exists j, m. auto.
Qed.

Lemma bcache_store_other_line b s l dk :
  ∀ d s', other_line (bcache_store dev s l (set_disk dk b)) d s' → other_line b d s'.
Proof. apply other_line_insert. cbn. intros. congruence. Qed.

Lemma blk_dev_read_other b s n b' r :
  blk_dev_read dev s n b = Done (b', r) → ∀ d s', other_line b' d s' → other_line b d s'.
Proof.
  unfold blk_dev_read. destruct (has_op op_read dev b); cbn [negb]; [|by intros [= <- _]].
  intros H. run_inv H. destruct (bcache_eligible _ n); cbn [negb] in H.
  2:{ run_inv H. by injection H as <- _. }
  destruct (bcache_find dev s b) as [i|] eqn:E.
  - apply bcache_find_Some in E as (m & Hm & Hv & Hd & _). rewrite Hm in H. rsimpl.
    injection H as <- _. apply other_line_insert. cbn. intros. congruence.
  - run_inv H. destruct x0 as [l|]; injection H as <- _; [|done].
    destruct b as [ds ls ck dk]. apply (bcache_store_other_line (Blk ds ls ck dk) s l dk).
Qed.

Lemma ops_write_disk fuel d0 s n l (b b1 : blk D) :
  ops_write fuel d0 s n l b = Done (Some b1) → ∃ dk, b1 = set_disk dk b.
Proof.
  revert d0 s. induction fuel as [|fuel IH]; intros d0 s; cbn [ops_write]; [done|].
  intros H. apply bind_Done in H as (dv & _ & H). apply bind_Done in H as (o & _ & H).
  apply bind_Done in H as ([] & _ & H).
  - injection H as H. destruct (drv_write _ _ _ _ _) as [dk|]; [|done]. injection H as <-. by exists dk.
  - apply bind_Done in H as (part & _ & H). apply bind_Done in H as (p & _ & H). by eapply IH.
Qed.

Lemma blk_dev_write_other b s n l b' ok :
  blk_dev_write dev s n l b = Done (b', ok) → ∀ d s', other_line b' d s' → other_line b d s'.
Proof.
  unfold blk_dev_write. destruct (has_op op_write dev b); cbn [negb]; [|by intros [= <- _]].
  intros H. run_inv H. run_inv H. destruct x0 as [b1|]; [|by injection H as <- _].
  assert (∃ dk, b1 = set_disk dk b) as [dk ->].
  { exact (ops_write_disk (depth b) dev s n l b b1 Hx0). }
  destruct (bcache_eligible _ n); injection H as <- _.
  - apply bcache_store_other_line.
  - intros d s' (i & m & Hm & Hv & Hd & Hs & Hne). unfold bcache_invalidate_range, set_cache in Hm.
    cbn in Hm. rewrite list_lookup_fmap in Hm. apply fmap_Some in Hm as (k & Hk & ->).
    exists i, k. destruct (_ && _)%bool; [done|]. auto.
Qed.

Lemma blk_get_frame b b' : bdevs b' = bdevs b → disk b' = disk b → blk_get b' = blk_get b.
Proof. intros E1 E2. unfold blk_get. by rewrite (target_eq b b' E1), E2. Qed.

(** The block layer keeps the promise of the interface. *)
Lemma blk_sector_laws : @SectorDevLaws (blk D) blk_sector_dev.
Proof.
  split; unfold sd_read, sd_write, sd_get, sd_ok, sd_good, blk_sector_dev.
  - intros b lba [Hc Ht Hb Ha] Hlba. destruct (Ht lba Hlba) as [[pd ps] Hlt]. unfold lba_ok in Hlba.
    destruct (blk_dev_read_spec b dev lba 1 pd ps Hc ltac:(lia) ltac:(lia) Hlt)
      as (b' & r & E & Hc' & Hd & Hds & Hsome & Hcont).
    pose proof (blk_dev_read_other _ _ _ _ _ E) as Ho. unfold wp. rewrite E. rsimpl.
    pose proof (target_eq b b' Hds) as Htgt. split; [|split; [|split]].
    + split; [done| |by rewrite Hd|].
      * intros. rewrite Htgt. by apply Ht.
      * intros. rewrite Htgt. apply Ha; [by apply Ho|done].
    + intros. by rewrite (blk_get_frame b b' Hds Hd).
    + intros l Hl. unfold blk_get. rewrite Hlt. rewrite (Hcont l Hl). cbn. apply app_nil_r.
    + intros Hg. split; [intros k ? ? ? ? ? Hk; rewrite Htgt in Hk; by eapply Hg|].
      apply Hsome. by apply (Hg lba pd ps (disk b) (replicate 512 0) Hlba Hlt).
  - intros b lba l [Hc Ht Hb Ha] Hlba Hl Hbl. destruct (Ht lba Hlba) as [[pd ps] Hlt]. unfold lba_ok in Hlba.
    assert (Hps : 0 <= ps < 2 ^ 64) by (eapply resolve_pos; [exact Hlt|lia]).
    assert (Hal : unaliased b dev pd ps 1).
    { intros i m k Hm Hv Hd Hk. replace k with 0 by lia. rewrite Z.add_0_r, <- Hlt.
      apply Ha; [|done]. by exists i, m. }
    pose proof (blk_dev_write_spec b dev lba 1 pd ps l Hc ltac:(lia) ltac:(lia) ltac:(lia) ltac:(lia)
      Hlt Hal ltac:(lia)) as Hw.
    destruct (drv_write pd ps 1 l (disk b)) as [dk|] eqn:Ew.
    + destruct Hw as (b' & E & Hc' & Hd & Hds & Hsec).
      pose proof (blk_dev_write_other _ _ _ _ _ _ E) as Ho. unfold wp. rewrite E. rsimpl.
      pose proof (target_eq b b' Hds) as Htgt. change (Z.to_nat 1) with 1%nat in Hsec.
      rewrite sectors_one in Hsec.
      assert (Hother : ∀ pd' ps', (pd', ps') ≠ (pd, ps) → sector dk pd' ps' = sector (disk b) pd' ps').
      { intros pd' ps' Hne. eapply drv_write_out; [|exact Ew|]; [lia|].
        destruct (decide (pd' = pd)) as [->|]; [right|by left].
        assert (ps' ≠ ps) by (intros ->; done). lia. }
      split; [|split].
      * split; [done| | |].
        -- intros. rewrite Htgt. by apply Ht.
        -- intros pd' ps'. rewrite Hd. destruct (decide ((pd', ps') = (pd, ps))) as [[= -> ->]|Hne];
             [by rewrite Hsec|by rewrite Hother].
        -- intros. rewrite Htgt. apply Ha; [by apply Ho|done].
      * intros k Hk. unfold blk_get. rewrite Htgt, Hd. destruct (Z.eqb_spec k lba) as [->|Hne]; cbn [andb].
        -- by rewrite Hlt.
        -- destruct (target b dev k) as [[pd' ps']|] eqn:Hkt; [|done]. apply Hother. intros [= -> ->].
           unfold lba_ok in Hk. apply Hne. rewrite <- (Z.add_0_r lba).
           eapply (target_inj b dev lba k pd ps 0); [done|lia|lia|by rewrite Z.add_0_r|lia|lia|lia].
      * intros Hg. split; [|done]. intros k ? ? ? ? ? Hk. rewrite Htgt in Hk. by eapply Hg.
    + unfold wp. rewrite Hw. rsimpl. split; [by split|]. split; [done|].
      intros Hg. destruct (Hg lba pd ps (disk b) l Hlba Hlt Hl) as [_ [? Hx]]. congruence.
  - intros b k [Hc Ht Hb Ha] Hk. unfold blk_get. destruct (Ht k Hk) as [[pd ps] ->].
    split; [|apply Hb]. pose proof (sector_length (disk b) pd ps). lia.
Qed.

End blk.

(** The interface of the partition of the demonstration disk. *)
Lemma demo_part_ok : @sd_ok _ (blk_sector_dev 2) demo_blk.
Proof.
  split.
  - by apply empty_cache_coherent.
  - intros k Hk. exists (1, u64 (k + 10)). reflexivity.
  - intros pd ps. unfold sector, ram_driver, ram_sector, demo_blk, blank_sector. cbn [disk].
    rewrite lookup_empty. destruct (pd =? 1); apply Forall_replicate; unfold byte; lia.
  - intros d s k (i & l & Hl & Hv & _). exfalso. by apply lookup_replicate in Hl as [-> _].
Qed.

