(* ===== verification/Fat16Table.v ===== *)
(** * FAT16: the volume and the allocation table (lizard/fat16_types.h, lizard/fat16_helpers.c)

    The mounted volume is a record over a sector device ([SectorDev]). A
    function that returns 0 or -1 is an [option]; [None] is the -1. Reads and
    writes of a sector go through the device's interface, the table lookups
    through the table held in memory when there is one. *)

From S2P Require Import Prelude CString Bytes Ktime SectorDev.

Local Open Scope Z_scope.

Definition FAT16_FAT_ENTRY_SIZE : Z := 2.
Definition FAT16_DIR_ENTRY_SIZE : Z := 32.
Definition FAT16_NAME_MAX : Z := 13.
Definition FAT16_BOOT_SIGNATURE : Z := 0x29.
Definition FAT16_FREE_CLUSTER : Z := 0x0000.
Definition FAT16_CLUSTER_MIN : Z := 0x0002.
Definition FAT16_CLUSTER_MAX : Z := 0xFFEF.
Definition FAT16_EOC : Z := 0xFFF8.

(** The fields of the boot sector that the code reads. *)
Record fat_header := FatHeader {
  bytes_per_sector : Z;
  sectors_per_cluster : Z;
  reserved_sector_count : Z;
  num_fats : Z;
  root_entry_count : Z;
  total_sectors_16 : Z;
  fat_size_16 : Z;
  total_sectors_32 : Z;
  boot_signature : Z
}.

Definition header_of (l : list Z) : fat_header :=
  FatHeader (le16 l 11) (byte_of l 13) (le16 l 14) (byte_of l 16) (le16 l 17) (le16 l 19)
    (le16 l 22) (le32 l 32) (byte_of l 38).

Record fat16 := Fat16 {
  header : fat_header;
  fat_start_lba : Z;
  root_dir_lba : Z;
  data_region_lba : Z;
  root_dir_sectors : Z;
  total_clusters : Z;
  fat_cache : option (list Z);
  fat_bytes : Z
}.

Definition fat16_cluster_valid (cluster : Z) : bool :=
  (FAT16_CLUSTER_MIN <=? cluster) && (cluster <=? FAT16_CLUSTER_MAX).

(** The mounted volume: its structure, its device, whether the device is read
    only, and the wall clock. *)
Record vol (S : Type) := Vol { v_fs : fat16; v_dev : S; v_read_only : bool; v_clock : clocks }.
Arguments Vol {_} _ _ _ _.
Arguments v_fs {_} _.
Arguments v_dev {_} _.
Arguments v_read_only {_} _.
Arguments v_clock {_} _.

(** A division by zero is an exception of the processor. *)
Definition udiv (a b : Z) : run Z := if b =? 0 then Stop Fault else Done (a / b).
Definition umod (a b : Z) : run Z := if b =? 0 then Stop Fault else Done (a mod b).

Section table.
Context {S : Type} `{!sector_dev S}.

Definition set_cache (l : list Z) (fs : fat16) : fat16 :=
  Fat16 (header fs) (fat_start_lba fs) (root_dir_lba fs) (data_region_lba fs) (root_dir_sectors fs)
    (total_clusters fs) (Some l) (fat_bytes fs).

Definition with_fs (fs : fat16) (v : vol S) : vol S := Vol fs (v_dev v) (v_read_only v) (v_clock v).
Definition with_dev (d : S) (v : vol S) : vol S := Vol (v_fs v) d (v_read_only v) (v_clock v).

(** [blk_dev_read(fs->dev, lba, buf, 1)] and [blk_dev_write(..)]. *)
Definition dev_read (lba : Z) : st (vol S) (option (list Z)) := λ v,
  match sd_read lba (v_dev v) with Done (r, d) => Done (r, with_dev d v) | Stop e => Stop e end.

Definition dev_write (lba : Z) (l : list Z) : st (vol S) (option unit) := λ v,
  match sd_write lba l (v_dev v) with
  | Done (b, d) => Done (if b then Some tt else None, with_dev d v)
  | Stop e => Stop e
  end.

Definition fs_get : st (vol S) fat16 := v ← st_get; mret (v_fs v).

(** The table in memory, when it covers the slot. *)
Definition cached (fs : fat16) (byte : Z) : option (list Z) :=
  match fat_cache fs with
  | Some l => if byte + 2 <=? fat_bytes fs then Some l else None
  | None => None
  end.

Definition fat16_fat_get (cluster : Z) : st (vol S) (option Z) :=
  fs ← fs_get;
  let byte := u32 (cluster * FAT16_FAT_ENTRY_SIZE) in
  match cached fs byte with
  | Some l => w ← st_run (copy_from byte 2 l); mret (Some (le16 w 0))
  | None =>
      q ← st_run (udiv byte (bytes_per_sector (header fs)));
      off ← st_run (umod byte (bytes_per_sector (header fs)));
      buf ?← dev_read (u32 (fat_start_lba fs + q));
      w ← st_run (copy_from off 2 buf);
      mret (Some (le16 w 0))
  end.

(** The loop over the copies of the table from copy [f] on, [n] of them. *)
Fixpoint fat_set_copies (n : nat) (f byte off value : Z) : st (vol S) (option unit) :=
  match n with
  | O => mret (Some tt)
  | Datatypes.S n =>
      fs ← fs_get;
      q ← st_run (udiv byte (bytes_per_sector (header fs)));
      let sector := u32 (fat_start_lba fs + f * fat_size_16 (header fs) + q) in
      buf ?← dev_read sector;
      buf ← st_run (copy_to off (put16 value) buf);
      _ ?← dev_write sector buf;
      fat_set_copies n (f + 1) byte off value
  end.

Definition fat16_fat_set (cluster value : Z) : st (vol S) (option unit) :=
  fs ← fs_get;
  let byte := u32 (cluster * FAT16_FAT_ENTRY_SIZE) in
  off ← st_run (umod byte (bytes_per_sector (header fs)));
  _ ?← fat_set_copies (Z.to_nat (num_fats (header fs))) 0 byte off value;
  fs ← fs_get;
  match cached fs byte with
  | Some l =>
      l ← st_run (copy_to byte (put16 value) l);
      _ ← st_modify (with_fs (set_cache l fs));
      mret (Some tt)
  | None => mret (Some tt)
  end.

Definition fat16_next_cluster (cluster : Z) : st (vol S) Z :=
  r ← fat16_fat_get cluster;
  mret (match r with Some next => next | None => FAT16_EOC end).

Definition fat16_cluster_to_lba (fs : fat16) (cluster : Z) : Z :=
  if cluster <? FAT16_CLUSTER_MIN then 0
  else u32 (u32 ((cluster - FAT16_CLUSTER_MIN) * sectors_per_cluster (header fs)) + data_region_lba fs).

(** [for (c = ..; c <= last; c++)] with [n] clusters to go. *)
Fixpoint cluster_alloc_loop (n : nat) (c : Z) : st (vol S) (option Z) :=
  match n with
  | O => mret None
  | Datatypes.S n =>
      v ?← fat16_fat_get c;
      if v =? FAT16_FREE_CLUSTER then
        _ ?← fat16_fat_set c FAT16_EOC;
        mret (Some c)
      else cluster_alloc_loop n (c + 1)
  end.

Definition fat16_cluster_alloc : st (vol S) (option Z) :=
  fs ← fs_get;
  let last := u32 (total_clusters fs + 1) in
  let last := if FAT16_CLUSTER_MAX <? last then FAT16_CLUSTER_MAX else last in
  cluster_alloc_loop (Z.to_nat (last - 1)) FAT16_CLUSTER_MIN.

(** Every iteration frees a cluster; there are fewer than 65536. *)
Fixpoint chain_free_loop (fuel : nat) (c : Z) : st (vol S) (option unit) :=
  match fuel with
  | O => st_stop Diverge
  | Datatypes.S fuel =>
      if fat16_cluster_valid c then
        next ?← fat16_fat_get c;
        _ ?← fat16_fat_set c FAT16_FREE_CLUSTER;
        chain_free_loop fuel next
      else mret (Some tt)
  end.

Definition cluster_fuel : nat := Z.to_nat 65537.

Definition fat16_chain_free (first : Z) : st (vol S) (option unit) := chain_free_loop cluster_fuel first.
End table.
#[global] Opaque cluster_fuel.

Lemma cluster_fuel_spec : Z.of_nat cluster_fuel = 65537.
Proof. with_strategy transparent [cluster_fuel] unfold cluster_fuel. lia. Qed.

(** ** Specification

    The value of the slot of cluster [c] in copy [f] of the table, on the disk. *)

Section spec.
Context {S : Type} `{!sector_dev S}.

Definition fat_sector (fs : fat16) (f c : Z) : Z := fat_start_lba fs + f * fat_size_16 (header fs) + c * 2 / 512.
Definition fat_off (c : Z) : Z := c * 2 mod 512.

Definition disk_of (v : vol S) (k : Z) : list Z := sd_get (v_dev v) k.
Definition fat_at (v : vol S) (f c : Z) : Z := le16 (disk_of v (fat_sector (v_fs v) f c)) (fat_off c).

(** The slots the table has. *)
Definition in_fat (fs : fat16) (c : Z) : Prop := 0 <= c < 65536 ∧ c * 2 + 2 <= fat_bytes fs.

(** A volume with 512-byte sectors whose table has a slot for every data
    cluster and whose regions do not overlap. *)
Record geom (fs : fat16) : Prop := {
  g_bps : bytes_per_sector (header fs) = 512;
  g_fats : 0 < num_fats (header fs) < 256;
  g_size : 0 < fat_size_16 (header fs) < 65536;
  g_start : 0 <= fat_start_lba fs;
  g_root : fat_start_lba fs + num_fats (header fs) * fat_size_16 (header fs) <= root_dir_lba fs;
  g_data : 0 <= root_dir_sectors fs ∧ root_dir_lba fs + root_dir_sectors fs <= data_region_lba fs;
  g_spc : 0 < sectors_per_cluster (header fs) < 256;
  g_clusters : 0 <= total_clusters fs ∧ 2 * (total_clusters fs + 2) <= fat_size_16 (header fs) * 512;
  g_end : data_region_lba fs + total_clusters fs * sectors_per_cluster (header fs) <= 2 ^ 32;
  g_bytes : fat_bytes fs = fat_size_16 (header fs) * 512
}.

Record fat_ok (v : vol S) : Prop := {
  fo_dev : sd_ok (v_dev v);
  fo_geom : geom (v_fs v);
  fo_cache l : fat_cache (v_fs v) = Some l → Z.of_nat (length l) = fat_bytes (v_fs v) ∧ Forall byte l ∧
    ∀ c, in_fat (v_fs v) c → le16 l (c * 2) = fat_at v 0 c;
  fo_mirror f c : 0 <= f < num_fats (header (v_fs v)) → in_fat (v_fs v) c → fat_at v f c = fat_at v 0 c
}.

Definition good (v : vol S) : Prop := sd_good (v_dev v).

(** Only the device's private state differs. *)
Definition same_vol (v v' : vol S) : Prop :=
  v' = with_dev (v_dev v') v ∧ ∀ k, lba_ok k → disk_of v' k = disk_of v k.

(** Nothing outside the tables differs, and the volume's geometry does not. *)
Definition fat_frame (v v' : vol S) : Prop :=
  set_cache [] (v_fs v') = set_cache [] (v_fs v) ∧ v_read_only v' = v_read_only v ∧ v_clock v' = v_clock v ∧
  ∀ k, lba_ok k →
    (k < fat_start_lba (v_fs v) ∨ root_dir_lba (v_fs v) <= k) → disk_of v' k = disk_of v k.

(** The clusters that a walk from [c] visits. *)
Inductive chain_reach (fat : Z → Z) : Z → Z → Prop :=
  | reach_here c : fat16_cluster_valid c = true → chain_reach fat c c
  | reach_next c d : fat16_cluster_valid c = true → chain_reach fat (fat c) d → chain_reach fat c d.
End spec.

(** ** Lemmas *)

Section lemmas.
Context {S : Type} `{!sector_dev S} `{!SectorDevLaws S}.
Implicit Types v : vol S.

Lemma same_vol_refl v : same_vol v v.
Proof. split; [by destruct v|done]. Qed.

Lemma same_vol_trans v1 v2 v3 : same_vol v1 v2 → same_vol v2 v3 → same_vol v1 v3.
Proof.
  intros [E1 H1] [E2 H2]. split; [|intros k Hk; rewrite H2, H1; done].
  rewrite E2, E1. by destruct v1, v2, v3.
Qed.

Lemma same_vol_fs v v' : same_vol v v' → v_fs v' = v_fs v.
Proof. by intros [-> _]. Qed.

Lemma fat_frame_refl v : fat_frame v v.
Proof. by repeat split. Qed.

Lemma same_vol_frame v v' : same_vol v v' → fat_frame v v'.
Proof. intros [-> H]. by repeat split; eauto. Qed.

Lemma base_fields fs fs' : set_cache [] fs' = set_cache [] fs →
  header fs' = header fs ∧ fat_start_lba fs' = fat_start_lba fs ∧ root_dir_lba fs' = root_dir_lba fs ∧
  data_region_lba fs' = data_region_lba fs ∧ root_dir_sectors fs' = root_dir_sectors fs ∧
  total_clusters fs' = total_clusters fs ∧ fat_bytes fs' = fat_bytes fs.
Proof. unfold set_cache. intros [= -> -> -> -> -> -> ->]. done. Qed.

Lemma fat_frame_trans v1 v2 v3 : fat_frame v1 v2 → fat_frame v2 v3 → fat_frame v1 v3.
Proof.
  intros (E1 & R1 & C1 & H1) (E2 & R2 & C2 & H2).
  destruct (base_fields _ _ E1) as (_ & Hs & Hr & _).
  split; [by rewrite E2|]. split; [by rewrite R2|]. split; [by rewrite C2|].
  intros k Hk Ho. rewrite H2, H1; [done..|by rewrite Hs, Hr].
Qed.

Lemma base_geom fs fs' : set_cache [] fs' = set_cache [] fs → geom fs → geom fs'.
Proof.
  intros (Eh & Es & Er & Ed & Ers & Et & Eb)%base_fields [].
  split; rewrite ?Eh, ?Es, ?Er, ?Ed, ?Ers, ?Et, ?Eb; done.
Qed.

Lemma base_in_fat fs fs' c : set_cache [] fs' = set_cache [] fs → in_fat fs c → in_fat fs' c.
Proof. intros (_ & _ & _ & _ & _ & _ & Eb)%base_fields. unfold in_fat. by rewrite Eb. Qed.

Lemma base_fat_sector fs fs' f c : set_cache [] fs' = set_cache [] fs → fat_sector fs' f c = fat_sector fs f c.
Proof. intros (Eh & Es & _)%base_fields. unfold fat_sector. by rewrite Eh, Es. Qed.

(** The sectors of the copies: in the volume, apart from each other and from
    the rest of it. *)
Lemma fat_sector_range fs f c :
  geom fs → 0 <= f < num_fats (header fs) → in_fat fs c →
  fat_start_lba fs + f * fat_size_16 (header fs) <= fat_sector fs f c ∧
  fat_sector fs f c < fat_start_lba fs + (f + 1) * fat_size_16 (header fs) ∧
  fat_sector fs f c < root_dir_lba fs ∧ lba_ok (fat_sector fs f c).
Proof.
  intros [] Hf [Hc Hcb]. unfold fat_sector, lba_ok.
  assert (0 <= c * 2 / 512 < fat_size_16 (header fs)).
  { split; [apply Z.div_pos; lia|apply Z.div_lt_upper_bound; lia]. }
  assert (f * fat_size_16 (header fs) + fat_size_16 (header fs) <= num_fats (header fs) * fat_size_16 (header fs)) by nia.
  nia.
Qed.

Lemma fat_sector_apart fs f g c d :
  geom fs → 0 <= f < num_fats (header fs) → 0 <= g < num_fats (header fs) → in_fat fs c → in_fat fs d →
  fat_sector fs f c = fat_sector fs g d → f = g.
Proof.
  intros Hg Hf Hgr Hc Hd E.
  pose proof (fat_sector_range fs f c Hg Hf Hc). pose proof (fat_sector_range fs g d Hg Hgr Hd).
  pose proof (g_size fs Hg). nia.
Qed.

Lemma fat_off_range c : 0 <= c → 0 <= fat_off c ∧ fat_off c + 2 <= 512 ∧ fat_off c mod 2 = 0.
Proof. intros Hc. unfold fat_off. Z.div_mod_to_equations. lia. Qed.

Lemma fat_slot_eq fs f c d :
  fat_sector fs f c = fat_sector fs f d → fat_off c = fat_off d → c = d.
Proof. unfold fat_sector, fat_off. intros. Z.div_mod_to_equations. lia. Qed.

Lemma cached_in_fat fs c : in_fat fs c → cached fs (c * 2) = fat_cache fs.
Proof.
  intros [_ Hc]. unfold cached. destruct (fat_cache fs); [|done].
  by rewrite (proj2 (Z.leb_le _ _)).
Qed.

Lemma dev_read_wp v lba :
  sd_ok (v_dev v) → lba_ok lba →
  wp (dev_read lba) (λ r v', sd_ok (v_dev v') ∧ same_vol v v' ∧
    (∀ l, r = Some l → l = disk_of v lba) ∧ (good v → good v' ∧ is_Some r)) v.
Proof.
  intros Hok Hlba. pose proof (sd_read_ok (v_dev v) lba Hok Hlba) as H.
  unfold wp, dev_read in *. destruct (sd_read lba (v_dev v)) as [[r d]|]; [|done].
  destruct H as (Hok' & Hget & Hr & Hg). cbn. split; [done|]. split; [by split|]. done.
Qed.

Lemma dev_write_wp v lba l :
  sd_ok (v_dev v) → lba_ok lba → length l = 512%nat → Forall byte l →
  wp (dev_write lba l) (λ r v', sd_ok (v_dev v') ∧ v' = with_dev (v_dev v') v ∧
    (∀ k, lba_ok k → disk_of v' k = if bool_decide (r = Some tt ∧ k = lba) then l else disk_of v k) ∧
    (good v → good v' ∧ r = Some tt)) v.
Proof.
  intros Hok Hlba Hl Hb. pose proof (sd_write_ok (v_dev v) lba l Hok Hlba Hl Hb) as H.
  unfold wp, dev_write in *. destruct (sd_write lba l (v_dev v)) as [[b d]|]; [|done].
  destruct H as (Hok' & Hget & Hg). cbn. split; [done|]. split; [done|]. split.
  - intros k Hk. unfold disk_of. cbn. rewrite Hget by done.
    destruct b, (Z.eqb_spec k lba); cbn [andb]; case_bool_decide; naive_solver.
  - unfold good. cbn. intros Hgd. destruct (Hg Hgd) as [? ->]. done.
Qed.

Lemma disk_byte v k : sd_ok (v_dev v) → lba_ok k → length (disk_of v k) = 512%nat ∧ Forall byte (disk_of v k).
Proof. apply sd_sector. Qed.

Lemma fat_at_range v f c : fat_ok v → 0 <= f < num_fats (header (v_fs v)) → in_fat (v_fs v) c →
  0 <= fat_at v f c < 65536.
Proof.
  intros Hok Hf Hc. apply le16_range, disk_byte; [apply Hok|].
  by apply (fat_sector_range _ _ _ (fo_geom v Hok) Hf Hc).
Qed.

Lemma same_vol_fat_at v v' f c : fat_ok v → same_vol v v' → 0 <= f < num_fats (header (v_fs v)) →
  in_fat (v_fs v) c → fat_at v' f c = fat_at v f c.
Proof.
  intros Hok [E H] Hf Hc. unfold fat_at. assert (v_fs v' = v_fs v) as -> by (by rewrite E).
  rewrite H; [done|]. by apply (fat_sector_range _ _ _ (fo_geom v Hok) Hf Hc).
Qed.

Lemma same_vol_fat_ok v v' : fat_ok v → same_vol v v' → sd_ok (v_dev v') → fat_ok v'.
Proof.
  intros Hok Hs Hd. pose proof (same_vol_fs _ _ Hs) as Efs. pose proof (g_fats _ (fo_geom v Hok)) as Hf0.
  split; [done|by rewrite Efs; apply Hok|..]; rewrite Efs.
  - intros l Hl. destruct (fo_cache v Hok l Hl) as (? & ? & Hc). split; [done|]. split; [done|].
    intros c Hin. rewrite (same_vol_fat_at v v') by (done || lia). by apply Hc.
  - intros f c Hf Hc. rewrite !(same_vol_fat_at v v') by (done || lia). by apply Hok.
Qed.

Lemma fat_get_wp v c :
  fat_ok v → in_fat (v_fs v) c →
  wp (fat16_fat_get c) (λ r v', fat_ok v' ∧ same_vol v v' ∧
    (∀ x, r = Some x → x = fat_at v 0 c) ∧ (good v → good v' ∧ is_Some r)) v.
Proof.
  intros Hok Hin. pose proof (fo_geom v Hok) as Hg. pose proof (g_fats _ Hg) as Hf0.
  unfold fat16_fat_get, FAT16_FAT_ENTRY_SIZE. apply wp_bind. unfold fs_get. apply wp_bind, wp_get, wp_ret.
  rewrite wrap_small by (unfold in_fat in Hin; lia). rewrite (cached_in_fat _ _ Hin).
  destruct (fat_cache (v_fs v)) as [l|] eqn:El.
  - destruct (fo_cache v Hok l El) as (Hlen & Hb & Hc). destruct (Hin) as [Hc0 Hcb].
    apply wp_bind. eapply wp_run; [apply copy_from_Done; lia|]. apply wp_ret.
    split; [done|]. split; [apply same_vol_refl|]. split; [|done].
    intros x [= <-]. rewrite le16_slice by lia. rewrite Z.add_0_r. by apply Hc.
  - apply wp_bind. unfold udiv, umod. rewrite (g_bps _ Hg). cbn [Z.eqb].
    eapply wp_run; [done|]. apply wp_bind. eapply wp_run; [done|]. apply wp_try.
    destruct (fat_sector_range _ 0 c Hg ltac:(lia) Hin) as (_ & _ & _ & Hlba).
    assert (u32 (fat_start_lba (v_fs v) + c * 2 / 512) = fat_sector (v_fs v) 0 c) as ->.
    { unfold fat_sector in *. rewrite Z.mul_0_l, Z.add_0_r in *. by apply wrap_small. }
    eapply wp_mono; [by apply dev_read_wp; [apply Hok|]|].
    intros r v' (Hd & Hs & Hr & Hgd). destruct r as [buf|].
    + rewrite (Hr buf eq_refl) in *. destruct (disk_byte v _ (fo_dev v Hok) Hlba) as [Hlen _].
      destruct (fat_off_range c) as (Ho & Ho2 & _); [unfold in_fat in Hin; lia|].
      apply wp_bind. eapply wp_run; [apply copy_from_Done; unfold fat_off in *; lia|]. apply wp_ret.
      split; [by eapply same_vol_fat_ok|]. split; [done|]. split.
      * intros x [= <-]. rewrite le16_slice by (unfold fat_off in *; lia). by rewrite Z.add_0_r.
      * intros Hgv. destruct (Hgd Hgv). split; [done|]. by eexists.
    + split; [by eapply same_vol_fat_ok|]. split; [done|]. split; [done|].
      intros Hgv. by destruct (Hgd Hgv) as [_ [? ?]].
Qed.

(** The copies [f], .., [f + n - 1] of a slot are written. *)
Lemma fat_set_copies_wp n f c x v :
  sd_ok (v_dev v) → geom (v_fs v) → in_fat (v_fs v) c → 0 <= x < 65536 →
  0 <= f → f + Z.of_nat n <= num_fats (header (v_fs v)) →
  wp (fat_set_copies n f (c * 2) (fat_off c) x) (λ r v', sd_ok (v_dev v') ∧ v' = with_dev (v_dev v') v ∧
    (∀ k, lba_ok k → (∀ g, f <= g < f + Z.of_nat n → k ≠ fat_sector (v_fs v) g c) → disk_of v' k = disk_of v k) ∧
    (good v → good v' ∧ r = Some tt) ∧
    (r = Some tt → ∀ g, f <= g < f + Z.of_nat n → disk_of v' (fat_sector (v_fs v) g c) =
       splice (fat_off c) (put16 x) (disk_of v (fat_sector (v_fs v) g c)))) v.
Proof.
  intros Hok Hg Hin Hx. revert f v Hok Hg Hin. induction n as [|n IH]; intros f v Hok Hg Hin Hf Hfn;
    cbn [fat_set_copies].
  { apply wp_ret. split; [done|]. split; [by destruct v|]. split; [done|]. split; [done|]. lia. }
  apply wp_bind. unfold fs_get. apply wp_bind, wp_get, wp_ret. apply wp_bind.
  unfold udiv. rewrite (g_bps _ Hg). cbn [Z.eqb]. eapply wp_run; [done|].
  destruct (fat_sector_range _ f c Hg ltac:(lia) Hin) as (_ & _ & _ & Hlba).
  assert (u32 (fat_start_lba (v_fs v) + f * fat_size_16 (header (v_fs v)) + c * 2 / 512) = fat_sector (v_fs v) f c)
    as -> by (by apply wrap_small).
  destruct (disk_byte v _ Hok Hlba) as [Hlen Hbyte].
  destruct (fat_off_range c) as (Ho & Ho2 & _); [unfold in_fat in Hin; lia|].
  apply wp_try. eapply wp_mono; [by apply dev_read_wp|]. intros r v1 (Hd1 & [E1 Hs1] & Hr & Hgd1).
  assert (Hfs1 : v_fs v1 = v_fs v) by (by rewrite E1). destruct r as [buf|].
  2:{ split; [done|]. split; [done|]. split; [intros; by apply Hs1|]. split; [|done].
      intros Hgv. by destruct (Hgd1 Hgv) as [_ [? ?]]. }
  rewrite (Hr buf eq_refl). apply wp_bind. eapply wp_run; [apply copy_to_Done; cbn [length put16]; lia|].
  apply wp_try. eapply wp_mono.
  { apply dev_write_wp; [done|done| |].
    - rewrite length_splice by (cbn [length put16]; lia). done.
    - apply splice_byte; [apply put16_byte|done]. }
  intros w v2 (Hd2 & E2 & Hget2 & Hgd2). assert (Hfs2 : v_fs v2 = v_fs v) by (by rewrite E2, E1).
  assert (E02 : v2 = with_dev (v_dev v2) v) by (rewrite E2, E1; by destruct v).
  destruct w as [[]|].
  2:{ split; [done|]. split; [done|]. split.
      - intros k Hk _. rewrite Hget2 by done. rewrite bool_decide_eq_false_2 by (by intros [? _]). by apply Hs1.
      - split; [|done]. intros Hgv. destruct (Hgd1 Hgv) as [H1 _]. by destruct (Hgd2 H1). }
  eapply wp_mono.
  { apply (IH (f + 1) v2); rewrite ?Hfs2; (done || lia). }
  intros r v3 (Hd3 & E3 & Hfr3 & Hgd3 & Hset3). rewrite Hfs2 in *.
  assert (Hmid : ∀ k, lba_ok k → disk_of v2 k = if bool_decide (k = fat_sector (v_fs v) f c)
            then splice (fat_off c) (put16 x) (disk_of v (fat_sector (v_fs v) f c)) else disk_of v k).
  { intros k Hk. rewrite Hget2 by done. case_bool_decide as Hc; case_bool_decide as Hk'; try tauto.
    by apply Hs1. }
  split; [done|]. split; [rewrite E3, E02; by destruct v|]. split; [|split].
  - intros k Hk Hne. rewrite Hfr3 by (done || intros g Hgr; apply Hne; lia). rewrite Hmid by done.
    rewrite bool_decide_eq_false_2; [done|]. apply Hne. lia.
  - intros Hgv. destruct (Hgd1 Hgv) as [H1 _]. destruct (Hgd2 H1) as [H2 _]. by apply Hgd3.
  - intros Hr3 g Hgr. destruct (decide (g = f)) as [->|Hgf].
    + rewrite Hfr3, Hmid by (done || intros g' Hg' Eg; apply fat_sector_apart in Eg; (done || lia)).
      by rewrite bool_decide_eq_true_2.
    + destruct (fat_sector_range _ g c Hg ltac:(lia) Hin) as (_ & _ & _ & Hlg).
      rewrite (Hset3 Hr3) by lia. rewrite Hmid by done. rewrite bool_decide_eq_false_2; [done|].
      intros Eg. apply fat_sector_apart in Eg; (done || lia).
Qed.

(** Replacing a slot in a buffer that holds the table. *)
Lemma le16_cache_splice l c d x fs :
  Z.of_nat (length l) = fat_bytes fs → in_fat fs c → in_fat fs d → 0 <= x < 65536 →
  le16 (splice (c * 2) (put16 x) l) (d * 2) = if d =? c then x else le16 l (d * 2).
Proof.
  intros Hl [Hc Hcb] [Hd Hdb] Hx. rewrite le16_splice; try lia.
  - destruct (Z.eqb_spec d c) as [->|]; [by rewrite Z.eqb_refl|]. by rewrite (proj2 (Z.eqb_neq _ _)) by lia.
  - apply Z.mod_mul. lia.
  - apply Z.mod_mul. lia.
Qed.

Lemma fat_set_wp v c x :
  fat_ok v → in_fat (v_fs v) c → 0 <= x < 65536 →
  wp (fat16_fat_set c x) (λ r v', sd_ok (v_dev v') ∧ fat_frame v v' ∧ (good v → good v' ∧ r = Some tt) ∧
    (r = Some tt → fat_ok v' ∧ ∀ d, in_fat (v_fs v) d → fat_at v' 0 d = if d =? c then x else fat_at v 0 d)) v.
Proof.
  intros Hok Hin Hx. pose proof (fo_geom v Hok) as Hg. pose proof (g_fats _ Hg) as Hf0.
  assert (Hc0 : 0 <= c) by (unfold in_fat in Hin; lia).
  unfold fat16_fat_set, FAT16_FAT_ENTRY_SIZE. apply wp_bind. unfold fs_get. apply wp_bind, wp_get, wp_ret.
  rewrite wrap_small by (unfold in_fat in Hin; lia). apply wp_bind. unfold umod. rewrite (g_bps _ Hg).
  cbn [Z.eqb]. eapply wp_run; [done|]. apply wp_try. eapply wp_mono.
  { apply fat_set_copies_wp; try done; [apply Hok|lia]. }
  intros r v1 (Hd1 & E1 & Hfr1 & Hgd1 & Hset1). rewrite Z.add_0_l, Z2Nat.id in * by lia.
  assert (Hfs1 : v_fs v1 = v_fs v) by (by rewrite E1).
  assert (Hout1 : ∀ k, lba_ok k → k < fat_start_lba (v_fs v) ∨ root_dir_lba (v_fs v) <= k →
                 disk_of v1 k = disk_of v k).
  { intros k Hk Ho. apply Hfr1; [done|]. intros g Hgr ->.
    pose proof (fat_sector_range _ g c Hg Hgr Hin). pose proof (g_size _ Hg). nia. }
  assert (Hframe1 : fat_frame v v1) by (split; [by rewrite Hfs1|]; rewrite E1; done).
  destruct r as [[]|].
  2:{ split; [done|]. split; [done|]. split; [|done]. intros Hgv. by destruct (Hgd1 Hgv). }
  assert (Hat : ∀ f d, 0 <= f < num_fats (header (v_fs v)) → in_fat (v_fs v) d →
    le16 (disk_of v1 (fat_sector (v_fs v) f d)) (fat_off d) = if d =? c then x else fat_at v f d).
  { intros f d Hf Hd. destruct (fat_sector_range _ f d Hg Hf Hd) as (_ & _ & _ & Hl).
    destruct (fat_sector_range _ f c Hg Hf Hin) as (_ & _ & _ & Hlc).
    destruct (fat_off_range c Hc0) as (Ho1 & Ho2 & Ho3).
    destruct (fat_off_range d) as (Hd1' & Hd2 & Hd3); [unfold in_fat in Hd; lia|].
    destruct (decide (fat_sector (v_fs v) f d = fat_sector (v_fs v) f c)) as [Es|Es].
    - rewrite Es, (Hset1 eq_refl f Hf). destruct (disk_byte v _ (fo_dev v Hok) Hlc) as [Hlen _].
      rewrite le16_splice by (done || lia). unfold fat_at. rewrite Es.
      destruct (Z.eqb_spec d c) as [->|Hdc]; [by rewrite Z.eqb_refl|].
      rewrite (proj2 (Z.eqb_neq _ _)); [done|]. intros Eo. by apply Hdc, (fat_slot_eq (v_fs v) f).
    - rewrite Hfr1; [|done|].
      + unfold fat_at. destruct (Z.eqb_spec d c) as [->|]; done.
      + intros g Hgr Eg. pose proof (fat_sector_apart _ _ _ _ _ Hg Hf Hgr Hd Hin Eg) as <-. done. }
  assert (Hok1 : ∀ v2, v_dev v2 = v_dev v1 → set_cache [] (v_fs v2) = set_cache [] (v_fs v) →
    (∀ l, fat_cache (v_fs v2) = Some l → Z.of_nat (length l) = fat_bytes (v_fs v) ∧ Forall byte l ∧
       ∀ d, in_fat (v_fs v) d → le16 l (d * 2) = if d =? c then x else fat_at v 0 d) →
    fat_ok v2 ∧ ∀ d, in_fat (v_fs v) d → fat_at v2 0 d = if d =? c then x else fat_at v 0 d).
  { intros v2 Ed Eb Hcache.
    assert (Hat2 : ∀ f d, 0 <= f < num_fats (header (v_fs v)) → in_fat (v_fs v) d →
      fat_at v2 f d = if d =? c then x else fat_at v f d).
    { intros f d Hf Hd. unfold fat_at at 1. rewrite (base_fat_sector _ _ _ _ Eb).
      unfold disk_of. rewrite Ed. by apply Hat. }
    destruct (base_fields _ _ Eb) as (Eh & _ & _ & _ & _ & _ & Ebt).
    split; [|intros; apply Hat2; (done || lia)].
    assert (Hin2 : ∀ d, in_fat (v_fs v2) d → in_fat (v_fs v) d) by (intros d; unfold in_fat; by rewrite Ebt).
    split.
    - by rewrite Ed.
    - by eapply base_geom.
    - intros l Hl. destruct (Hcache l Hl) as (H1 & H2 & H3). rewrite Ebt. split; [done|]. split; [done|].
      intros d Hd%Hin2. rewrite H3, Hat2 by (done || lia). done.
    - intros f d Hf Hd%Hin2. rewrite Eh in Hf. rewrite !Hat2 by (done || lia).
      destruct (d =? c); [done|]. by apply Hok. }
  apply wp_bind. unfold fs_get. apply wp_bind, wp_get, wp_ret. rewrite Hfs1, (cached_in_fat _ _ Hin).
  destruct (fat_cache (v_fs v)) as [l|] eqn:El.
  - destruct (fo_cache v Hok l El) as (Hlen & Hb & Hc). destruct (Hin) as [Hc0' Hcb].
    apply wp_bind. eapply wp_run; [apply copy_to_Done; cbn [length put16]; lia|].
    apply wp_bind, wp_modify, wp_ret. cbn [v_dev with_fs]. split; [done|]. split.
    { destruct Hframe1 as (_ & HR & HC & HF). split; [done|]. split; [done|]. split; [done|exact HF]. }
    split; [intros Hgv; by destruct (Hgd1 Hgv)|]. intros _. apply Hok1; [done|done|].
    intros l' [= <-]. rewrite length_splice by (cbn [length put16]; lia). split; [done|].
    split; [apply splice_byte; [apply put16_byte|done]|]. intros d Hd.
    rewrite (le16_cache_splice l c d x (v_fs v)) by done. destruct (d =? c); [done|by apply Hc].
  - apply wp_ret. split; [done|]. split; [done|]. split; [done|]. intros _.
    apply Hok1; [done|by rewrite Hfs1|]. by rewrite Hfs1, El.
Qed.

(** The last cluster the allocator tries. *)
Definition last_cluster (fs : fat16) : Z := Z.min (total_clusters fs + 1) FAT16_CLUSTER_MAX.

Lemma cluster_in_fat fs c : geom fs → 0 <= c <= last_cluster fs → in_fat fs c.
Proof.
  intros [] Hc. unfold last_cluster, FAT16_CLUSTER_MAX, in_fat in *. lia.
Qed.

Lemma total_small fs : geom fs → total_clusters fs + 1 < 2 ^ 32.
Proof. intros []. lia. Qed.

Lemma cluster_alloc_loop_wp n c v :
  fat_ok v → 2 <= c → c + Z.of_nat n = last_cluster (v_fs v) + 1 ∨ n = O →
  wp (cluster_alloc_loop n c) (λ r v', sd_ok (v_dev v') ∧ fat_frame v v' ∧ (good v → good v') ∧
    match r with
    | Some d => c <= d < c + Z.of_nat n ∧ fat_at v 0 d = 0 ∧ (∀ e, c <= e < d → fat_at v 0 e ≠ 0) ∧ fat_ok v' ∧
        ∀ e, in_fat (v_fs v) e → fat_at v' 0 e = if e =? d then FAT16_EOC else fat_at v 0 e
    | None => good v → fat_ok v' ∧ (∀ e, c <= e < c + Z.of_nat n → fat_at v 0 e ≠ 0) ∧
        ∀ e, in_fat (v_fs v) e → fat_at v' 0 e = fat_at v 0 e
    end) v.
Proof.
  revert c v. induction n as [|n IH]; intros c v Hok Hc Hn; cbn [cluster_alloc_loop].
  { apply wp_ret. split; [apply Hok|]. split; [apply fat_frame_refl|]. split; [done|]. intros _.
    split; [done|]. split; [lia|done]. }
  destruct Hn as [Hn|]; [|done]. pose proof (fo_geom v Hok) as Hg.
  assert (Hin : in_fat (v_fs v) c) by (apply cluster_in_fat; [done|lia]).
  apply wp_try. eapply wp_mono; [by apply fat_get_wp|]. intros r v1 (Hok1 & Hs1 & Hr & Hgd1).
  pose proof (same_vol_fs _ _ Hs1) as Hfs1. pose proof (g_fats _ Hg) as Hf0.
  assert (Hat1 : ∀ e, in_fat (v_fs v) e → fat_at v1 0 e = fat_at v 0 e).
  { intros. apply same_vol_fat_at; (done || lia). }
  destruct r as [x|].
  2:{ split; [apply Hok1|]. split; [by apply same_vol_frame|]. split; [intros Hgv; by apply Hgd1|].
      intros Hgv. by destruct (Hgd1 Hgv) as [_ [? ?]]. }
  rewrite (Hr x eq_refl) in *. unfold FAT16_FREE_CLUSTER.
  destruct (Z.eqb_spec (fat_at v 0 c) 0) as [Hfree|Hused].
  - apply wp_try. eapply wp_mono; [by apply fat_set_wp; [|rewrite Hfs1|unfold FAT16_EOC; lia]|].
    intros w v2 (Hd2 & Hfr2 & Hgd2 & Hset2).
    assert (Hfr : fat_frame v v2) by (eapply fat_frame_trans; [by apply same_vol_frame|done]).
    destruct w as [[]|].
    + apply wp_ret. destruct (Hset2 eq_refl) as [Hok2 Hat2]. split; [done|]. split; [done|].
      split; [intros Hgv; by apply Hgd2, Hgd1|]. split; [lia|]. split; [done|]. split; [lia|]. split; [done|].
      intros e He. rewrite Hat2, Hat1 by (by rewrite ?Hfs1). done.
    + split; [done|]. split; [done|]. split; [intros Hgv; by apply Hgd2, Hgd1|].
      intros Hgv. destruct (Hgd1 Hgv) as [H1 _]. by destruct (Hgd2 H1).
  - eapply wp_mono; [apply (IH (c + 1) v1); [done|lia|left; rewrite Hfs1; lia]|].
    intros r v2 (Hd2 & Hfr2 & Hgd2 & Hres). split; [done|].
    split; [eapply fat_frame_trans; [by apply same_vol_frame|done]|].
    split; [intros Hgv; by apply Hgd2, Hgd1|]. rewrite Hfs1 in Hres.
    assert (Hin1 : ∀ e, c <= e < c + Z.of_nat (Datatypes.S n) → in_fat (v_fs v) e)
      by (intros; apply cluster_in_fat; [done|lia]).
    destruct r as [d|].
    + destruct Hres as (Hd & Hz & Hlt & Hok2 & Hat2). rewrite Hat1 in Hz by (apply Hin1; lia).
      split; [lia|]. split; [done|]. split.
      { intros e He. destruct (decide (e = c)) as [->|]; [done|]. rewrite <- Hat1 by (apply Hin1; lia).
        apply Hlt. lia. }
      split; [done|]. intros e He. rewrite Hat2, Hat1 by done. done.
    + intros Hgv. destruct (Hgd1 Hgv) as [H1 _]. destruct (Hres H1) as (Hok2 & Hall & Hat2).
      split; [done|]. split.
      * intros e He. destruct (decide (e = c)) as [->|]; [done|]. rewrite <- Hat1 by (apply Hin1; lia).
        apply Hall. lia.
      * intros e He. rewrite Hat2, Hat1 by done. done.
Qed.

Lemma cluster_alloc_wp v :
  fat_ok v →
  wp fat16_cluster_alloc (λ r v', sd_ok (v_dev v') ∧ fat_frame v v' ∧ (good v → good v') ∧
    match r with
    | Some c => 2 <= c <= last_cluster (v_fs v) ∧ fat_at v 0 c = 0 ∧
        (∀ d, 2 <= d < c → fat_at v 0 d ≠ 0) ∧ fat_ok v' ∧
        ∀ d, in_fat (v_fs v) d → fat_at v' 0 d = if d =? c then FAT16_EOC else fat_at v 0 d
    | None => good v → fat_ok v' ∧ (∀ d, 2 <= d <= last_cluster (v_fs v) → fat_at v 0 d ≠ 0) ∧
        ∀ d, in_fat (v_fs v) d → fat_at v' 0 d = fat_at v 0 d
    end) v.
Proof.
  intros Hok. pose proof (fo_geom v Hok) as Hg. pose proof (g_clusters _ Hg) as Hc.
  pose proof (total_small _ Hg). unfold fat16_cluster_alloc. apply wp_bind. unfold fs_get.
  apply wp_bind, wp_get, wp_ret. rewrite wrap_small by lia.
  assert ((if FAT16_CLUSTER_MAX <? total_clusters (v_fs v) + 1 then FAT16_CLUSTER_MAX
           else total_clusters (v_fs v) + 1) = last_cluster (v_fs v)) as ->.
  { unfold last_cluster. case_if; lia. }
  assert (1 <= last_cluster (v_fs v)) by (unfold last_cluster, FAT16_CLUSTER_MAX; lia).
  unfold FAT16_CLUSTER_MIN. eapply wp_mono; [apply cluster_alloc_loop_wp; [done|lia|left; lia]|].
  intros r v' (Hd & Hfr & Hgd & Hres). split; [done|]. split; [done|]. split; [done|].
  destruct r as [c|].
  - destruct Hres as (Hr & Hz & Hlt & Hok' & Hat). split; [lia|]. split; [done|]. split; [|done].
    intros d Hd'. apply Hlt. lia.
  - intros Hgv. destruct (Hres Hgv) as (Hok' & Hall & Hat). split; [done|]. split; [|done].
    intros d Hd'. apply Hall. lia.
Qed.

(** Walks, when a slot is cleared. *)
Definition clear (c : Z) (fat : Z → Z) : Z → Z := λ d, if d =? c then 0 else fat d.

Lemma reach_valid fat c d : chain_reach fat c d → fat16_cluster_valid c = true.
Proof. by destruct 1. Qed.

Lemma reach_clear fat c e d :
  chain_reach fat e d → d ≠ c → chain_reach (clear c fat) e d ∨ chain_reach (clear c fat) (fat c) d.
Proof.
  induction 1 as [e He|e d He Hr IH]; intros Hd; [left; by constructor|].
  destruct (IH Hd) as [H1|H1]; [|by right]. destruct (decide (e = c)) as [->|Hne]; [by right|].
  left. apply reach_next; [done|]. unfold clear at 2. by rewrite (proj2 (Z.eqb_neq _ _)).
Qed.

Lemma clear_reach fat c e d : chain_reach (clear c fat) e d → chain_reach fat e d.
Proof.
  induction 1 as [e He|e d He Hr IH]; [by constructor|]. apply reach_next; [done|].
  unfold clear in IH, Hr. destruct (Z.eqb_spec e c) as [->|]; [|done].
  by apply reach_valid in Hr.
Qed.

(** The used clusters. *)
Definition all_clusters : list Z := seqZ FAT16_CLUSTER_MIN (FAT16_CLUSTER_MAX - 1).

Definition used (fat : Z → Z) (l : list Z) : nat := length (filter (λ d, fat d ≠ 0) l).

Lemma used_clear_le fat c l : (used (clear c fat) l <= used fat l)%nat.
Proof.
  unfold used, clear. induction l as [|d l IH]; [done|]. rewrite !filter_cons.
  destruct (Z.eqb_spec d c) as [->|]; repeat case_decide; cbn [length]; try lia; congruence.
Qed.

Lemma used_clear fat c l : c ∈ l → fat c ≠ 0 → (used (clear c fat) l < used fat l)%nat.
Proof.
  intros Hc Hf. induction l as [|d l IH]; [by apply not_elem_of_nil in Hc|].
  pose proof (used_clear_le fat c l). unfold used, clear in *. rewrite !filter_cons.
  destruct (decide (d = c)) as [->|Hne].
  - rewrite Z.eqb_refl. rewrite decide_False by (intros []; done). rewrite decide_True by done.
    cbn [length]. lia.
  - apply elem_of_cons in Hc as [->|Hc]; [done|]. specialize (IH Hc).
    rewrite (proj2 (Z.eqb_neq d c)) by done. case_decide; cbn [length]; lia.
Qed.

Lemma valid_elem c : fat16_cluster_valid c = true ↔ c ∈ all_clusters.
Proof.
  unfold fat16_cluster_valid, all_clusters. rewrite elem_of_seqZ, andb_true_iff, !Z.leb_le.
  unfold FAT16_CLUSTER_MIN, FAT16_CLUSTER_MAX. lia.
Qed.

(** Enough fuel for the walk from [c]: one more than the used clusters, or
    two iterations when [c] is already free. *)
Lemma chain_free_loop_wp fuel c v fat :
  fat_ok v → (∀ d, in_fat (v_fs v) d → fat_at v 0 d = fat d) →
  (∀ d, chain_reach fat c d → in_fat (v_fs v) d) →
  (used fat all_clusters + 2 <= fuel)%nat ∨ (fat16_cluster_valid c = false ∧ fuel ≠ O) →
  wp (chain_free_loop fuel c) (λ r v', sd_ok (v_dev v') ∧ fat_frame v v' ∧ (good v → good v' ∧ r = Some tt) ∧
    (r = Some tt → fat_ok v' ∧ ∀ d, in_fat (v_fs v) d →
       (fat_at v' 0 d = 0 ∨ fat_at v' 0 d = fat d) ∧
       (chain_reach fat c d → fat_at v' 0 d = 0) ∧ (¬ chain_reach fat c d → fat_at v' 0 d = fat d))) v.
Proof.
  revert c v fat. induction fuel as [|fuel IH]; intros c v fat Hok Hfat Hclosed Hfuel; [lia|].
  cbn [chain_free_loop]. destruct (fat16_cluster_valid c) eqn:Hv.
  2:{ apply wp_ret. split; [apply Hok|]. split; [apply fat_frame_refl|]. split; [done|]. intros _.
      split; [done|]. intros d Hd. rewrite Hfat by done. split; [by right|]. split; [|done].
      intros Hr%reach_valid. congruence. }
  destruct Hfuel as [Hfuel|[? _]]; [|done].
  assert (Hin : in_fat (v_fs v) c) by (apply Hclosed; by constructor).
  pose proof (fo_geom v Hok) as Hg. pose proof (g_fats _ Hg) as Hf0.
  apply wp_try. eapply wp_mono; [by apply fat_get_wp|]. intros r v1 (Hok1 & Hs1 & Hr & Hgd1).
  pose proof (same_vol_fs _ _ Hs1) as Hfs1. destruct r as [next|].
  2:{ split; [apply Hok1|]. split; [by apply same_vol_frame|]. split; [|done].
      intros Hgv. by destruct (Hgd1 Hgv) as [_ [? ?]]. }
  rewrite (Hr next eq_refl), (Hfat c Hin). apply wp_try.
  eapply wp_mono; [apply fat_set_wp; [done|by rewrite Hfs1|unfold FAT16_FREE_CLUSTER; lia]|].
  intros w v2 (Hd2 & Hfr2 & Hgd2 & Hset2).
  assert (Hfr : fat_frame v v2) by (eapply fat_frame_trans; [by apply same_vol_frame|done]).
  destruct w as [[]|].
  2:{ split; [done|]. split; [done|]. split; [|done]. intros Hgv. destruct (Hgd1 Hgv) as [H1 _].
      by destruct (Hgd2 H1). }
  destruct (Hset2 eq_refl) as [Hok2 Hat2]. rewrite Hfs1 in Hat2. destruct Hfr as (Eb & Hfr').
  assert (Hin2 : ∀ d, in_fat (v_fs v2) d ↔ in_fat (v_fs v) d).
  { intros d. split; apply base_in_fat; congruence. }
  eapply wp_mono; [apply (IH (fat c) v2 (clear c fat)); [done|..]|].
  - intros d Hd%Hin2. rewrite Hat2 by done. unfold clear, FAT16_FREE_CLUSTER.
    destruct (d =? c); [done|]. rewrite (same_vol_fat_at v v1) by (done || lia). by apply Hfat.
  - intros d Hr'%clear_reach. apply Hin2, Hclosed. by apply reach_next.
  - destruct (decide (fat c = 0)) as [E0|Hne].
    + right. rewrite E0. split; [done|lia].
    + left. apply valid_elem in Hv. pose proof (used_clear fat c all_clusters Hv Hne). lia.
  - intros r v3 (Hd3 & Hfr3 & Hgd3 & Hres). split; [done|].
    split; [eapply fat_frame_trans; [by split|done]|].
    split; [intros Hgv; apply Hgd3, Hgd2, Hgd1, Hgv|]. intros Hr3.
    destruct (Hres Hr3) as [Hok3 Hall]. split; [done|]. intros d Hd.
    destruct (Hall d ltac:(by apply Hin2)) as (Hor & Hzero & Hkeep).
    split; [destruct Hor as [|Hor]; [by left|]; rewrite Hor; unfold clear; destruct (d =? c); auto|].
    split.
    + intros Hc. destruct (decide (d = c)) as [->|Hne].
      * unfold clear in Hor. rewrite Z.eqb_refl in Hor. by destruct Hor.
      * apply Hzero. destruct (reach_clear _ c _ _ Hc Hne) as [H1|H1]; [|done].
        inversion H1 as [|? ? Hv1 H2]; subst; [done|]. unfold clear in H2 at 2. rewrite Z.eqb_refl in H2.
        by apply reach_valid in H2.
    + intros Hn. assert (d ≠ c) by (intros ->; apply Hn; by constructor).
      rewrite Hkeep.
      * unfold clear. by rewrite (proj2 (Z.eqb_neq _ _)).
      * intros H1%clear_reach. apply Hn. by apply reach_next.
Qed.
End lemmas.

(** ** Theorems *)

Section theorems.
Context {S : Type} `{!sector_dev S} `{!SectorDevLaws S}.
Implicit Types v : vol S.

(** C7: [fat16_fat_set] then [fat16_fat_get]: on a well-formed volume whose
    device does not fail, storing a value in a slot succeeds and the lookup
    then returns it; every copy of the table on the disk has the new value in
    that slot and its old value in every other slot, the table in memory agrees
    with the disk again, and no sector outside the tables changes. *)
Theorem fat16_fat_get_set v c x :
  fat_ok v → good v → in_fat (v_fs v) c → 0 <= x < 65536 →
  ∃ v1 v2, fat16_fat_set c x v = Done (Some tt, v1) ∧ fat16_fat_get c v1 = Done (Some x, v2) ∧
    fat_ok v1 ∧ fat_frame v v1 ∧
    ∀ f d, 0 <= f < num_fats (header (v_fs v)) → in_fat (v_fs v) d →
      fat_at v1 f d = if d =? c then x else fat_at v f d.
Proof.
  intros Hok Hgv Hin Hx.
  destruct (wp_elim _ _ _ (fat_set_wp v c x Hok Hin Hx)) as (r & v1 & E1 & _ & Hfr & Hg1 & Hset).
  destruct (Hg1 Hgv) as [Hgv1 ->]. destruct (Hset eq_refl) as [Hok1 Hat1]. pose proof Hfr as (Eb & _).
  assert (Hin1 : ∀ d, in_fat (v_fs v) d → in_fat (v_fs v1) d) by (intros d; by apply base_in_fat).
  destruct (wp_elim _ _ _ (fat_get_wp v1 c Hok1 (Hin1 c Hin))) as (r & v2 & E2 & _ & _ & Hr & Hg2).
  destruct (Hg2 Hgv1) as [_ [y ->]]. rewrite (Hr y eq_refl), Hat1, Z.eqb_refl in * by done.
  exists v1, v2. split; [done|]. split; [done|]. split; [done|]. split; [done|].
  intros f d Hf Hd. destruct (base_fields _ _ Eb) as (Eh & _).
  rewrite (fo_mirror v1 Hok1) by (by rewrite ?Eh; auto). rewrite (fo_mirror v Hok f d) by done. by apply Hat1.
Qed.

(** [fat16_cluster_alloc] allocates the first free cluster: the result, if
    any, is the least free data cluster, which is marked as the end of a chain
    while every other slot keeps its value; with a device that does not fail
    the allocation fails only when no data cluster is free, and then the table
    is unchanged. It ends normally in every case. *)
Theorem fat16_cluster_alloc_first_free v :
  fat_ok v →
  ∃ r v', fat16_cluster_alloc v = Done (r, v') ∧ fat_frame v v' ∧ (good v → good v') ∧
    match r with
    | Some c => 2 <= c <= last_cluster (v_fs v) ∧ fat_at v 0 c = 0 ∧
        (∀ d, 2 <= d < c → fat_at v 0 d ≠ 0) ∧ fat_ok v' ∧
        ∀ d, in_fat (v_fs v) d → fat_at v' 0 d = if d =? c then FAT16_EOC else fat_at v 0 d
    | None => good v → (∀ d, 2 <= d <= last_cluster (v_fs v) → fat_at v 0 d ≠ 0) ∧
        ∀ d, in_fat (v_fs v) d → fat_at v' 0 d = fat_at v 0 d
    end.
Proof.
  intros Hok. destruct (wp_elim _ _ _ (cluster_alloc_wp v Hok)) as (r & v' & E & _ & Hfr & Hg & Hres).
  exists r, v'. split; [done|]. split; [done|]. split; [done|]. destruct r; [done|].
  intros Hgv. by destruct (Hres Hgv) as (_ & ? & ?).
Qed.

(** C8: [fat16_chain_free] ends for every table, cyclic chains included: as
    long as the clusters the walk meets have slots in the table, the loop ends
    normally; when it succeeds, which it does on a device that does not fail,
    every cluster the chain reached is free and every other slot keeps its
    value. *)
Theorem fat16_chain_free_terminates v first :
  fat_ok v → (∀ d, chain_reach (fat_at v 0) first d → in_fat (v_fs v) d) →
  ∃ r v', fat16_chain_free first v = Done (r, v') ∧ fat_frame v v' ∧ (good v → r = Some tt) ∧
    (r = Some tt → fat_ok v' ∧ ∀ d, in_fat (v_fs v) d →
       (chain_reach (fat_at v 0) first d → fat_at v' 0 d = 0) ∧
       (¬ chain_reach (fat_at v 0) first d → fat_at v' 0 d = fat_at v 0 d)).
Proof.
  intros Hok Hclosed. unfold fat16_chain_free.
  assert (Hfuel : (used (fat_at v 0) all_clusters + 2 <= cluster_fuel)%nat).
  { unfold used. pose proof (length_filter (λ d, fat_at v 0 d ≠ 0) all_clusters) as Hle.
    unfold all_clusters in *. rewrite length_seqZ in Hle.
    unfold FAT16_CLUSTER_MAX in *. pose proof cluster_fuel_spec. lia. }
  destruct (wp_elim _ _ _ (chain_free_loop_wp cluster_fuel first v (fat_at v 0) Hok
    (λ d _, eq_refl) Hclosed (or_introl Hfuel))) as (r & v' & E & _ & Hfr & Hg & Hres).
  exists r, v'. split; [done|]. split; [done|]. split; [intros Hgv; by destruct (Hg Hgv)|].
  intros Hr. destruct (Hres Hr) as [Hok' Hall]. split; [done|]. intros d Hd.
  by destruct (Hall d Hd) as (_ & ? & ?).
Qed.
End theorems.

(** ** Witnesses

    A volume of ten data clusters on a disk in memory, with two copies of a
    table in which the clusters 2 and 3 form a cycle and 4 and 5 a chain. *)

Definition demo_table : list Z := [248; 255; 255; 255; 3; 0; 2; 0; 5; 0; 255; 255] ++ replicate 500 0.

Definition demo_fs : fat16 :=
  Fat16 (FatHeader 512 1 1 2 16 14 1 0 0x29) 1 3 4 1 10 (Some demo_table) 512.

Definition demo_zero : time_spec := TimeSpec 0 0.
Definition demo_vol : vol ram :=
  Vol demo_fs {[ 1 := demo_table; 2 := demo_table ]} false (Clocks demo_zero demo_zero demo_zero demo_zero).

Lemma demo_table_byte : Forall byte demo_table.
Proof. apply (bool_decide_unpack _). by vm_compute. Qed.

Lemma demo_fat_at f c : 0 <= f < 2 → in_fat demo_fs c → fat_at demo_vol f c = le16 demo_table (c * 2).
Proof.
  intros Hf [Hc Hcb]. cbn [fat_bytes demo_fs] in Hcb. unfold fat_at, fat_sector, fat_off.
  rewrite Z.div_small, Z.mod_small by lia. f_equal. cbn [v_fs demo_vol demo_fs fat_start_lba header fat_size_16].
  assert (f = 0 ∨ f = 1) as [-> | ->] by lia; reflexivity.
Qed.

Lemma demo_vol_ok : fat_ok demo_vol.
Proof.
  split.
  - intros k l Hl. cbn [v_dev demo_vol] in Hl.
    apply lookup_insert_Some in Hl as [[_ <-]|[_ Hl]]; [split; [reflexivity|exact demo_table_byte]|].
    apply lookup_singleton_Some in Hl as [_ <-]. split; [reflexivity|exact demo_table_byte].
  - split; cbn; lia.
  - intros l Hl. assert (l = demo_table) as -> by (cbn [demo_vol v_fs demo_fs fat_cache] in Hl; congruence).
    split; [reflexivity|]. split; [exact demo_table_byte|]. intros c Hc. symmetry. apply demo_fat_at; [lia|exact Hc].
  - intros f c Hf Hc. rewrite !demo_fat_at; [reflexivity|lia|exact Hc|exact Hf|exact Hc].
Qed.

Lemma demo_closed d : chain_reach (fat_at demo_vol 0) 2 d → in_fat (v_fs demo_vol) d.
Proof.
  assert (∀ e d, chain_reach (fat_at demo_vol 0) e d → e = 2 ∨ e = 3 → d = 2 ∨ d = 3) as H.
  { induction 1 as [e He|e x He Hr IH]; [auto|]. intros Hc. apply IH.
    assert (Hin : in_fat demo_fs e) by (unfold in_fat; cbn [fat_bytes demo_fs]; lia).
    rewrite demo_fat_at by (lia || exact Hin).
    destruct Hc as [-> | ->]; [right; reflexivity|left; reflexivity]. }
  intros Hr. apply H in Hr; [|by left]. unfold in_fat. cbn [v_fs demo_vol fat_bytes demo_fs]. lia.
Qed.

Lemma fat16_fat_get_set_witness :
  ∃ v1 v2, fat16_fat_set 5 7 demo_vol = Done (Some tt, v1) ∧ fat16_fat_get 5 v1 = Done (Some 7, v2).
Proof.
  destruct (fat16_fat_get_set demo_vol 5 7) as (v1 & v2 & E1 & E2 & _).
  - exact demo_vol_ok.
  - exact I.
  - unfold in_fat. cbn [v_fs demo_vol fat_bytes demo_fs]. lia.
  - lia.
  - exists v1, v2. split; [exact E1|exact E2].
Defined.

Lemma fat16_cluster_alloc_first_free_witness :
  ∃ r v', fat16_cluster_alloc demo_vol = Done (r, v') ∧ fat_frame demo_vol v'.
Proof.
  destruct (fat16_cluster_alloc_first_free demo_vol demo_vol_ok) as (r & v' & E & Hfr & _).
  exists r, v'. split; [exact E|exact Hfr].
Defined.

Lemma fat16_chain_free_terminates_witness :
  ∃ v', fat16_chain_free 2 demo_vol = Done (Some tt, v') ∧ fat_ok v'.
Proof.
  destruct (fat16_chain_free_terminates demo_vol 2 demo_vol_ok demo_closed) as (r & v' & E & _ & Hg & Hres).
  assert (r = Some tt) as -> by exact (Hg I).
  exists v'. split; [exact E|]. apply Hres. reflexivity.
Defined.
