(* ===== verification/Fat16Dir.v ===== *)
(** * FAT16: directory entries and directory walks (lizard/fat16_helpers.c)

    A directory entry is the record of its fields and 32 bytes on the disk.
    Strings are lists of non-zero characters. The callbacks of the walkers are
    functions that thread a context. *)

From S2P Require Import Prelude CString Bytes Ktime SectorDev Fat16Table.

Local Open Scope Z_scope.

Definition FAT16_DIR_ENTRY_DELETED : Z := 0xE5.
Definition FAT16_DIR_ENTRY_END : Z := 0x00.
Definition FAT16_ATTR_VOLUME_ID : Z := 0x08.
Definition FAT16_ATTR_DIRECTORY : Z := 0x10.
Definition FAT16_ATTR_ARCHIVE : Z := 0x20.
Definition FAT16_ATTR_LFN : Z := 0x0F.

Record fat16_directory := Dir {
  d_name : list Z;
  extension : list Z;
  attributes : Z;
  reserved1 : Z;
  creation_time_tenths : Z;
  creation_time : Z;
  creation_date : Z;
  last_access_date : Z;
  reserved2 : Z;
  write_time : Z;
  write_date : Z;
  first_cluster_low : Z;
  file_size_bytes : Z
}.

Definition dir_of (l : list Z) : fat16_directory :=
  Dir (slice 0 8 l) (slice 8 3 l) (byte_of l 11) (byte_of l 12) (byte_of l 13) (le16 l 14) (le16 l 16)
    (le16 l 18) (le16 l 20) (le16 l 22) (le16 l 24) (le16 l 26) (le32 l 28).

Definition dir_bytes (e : fat16_directory) : list Z :=
  d_name e ++ extension e ++ [attributes e; reserved1 e; creation_time_tenths e] ++ put16 (creation_time e) ++
  put16 (creation_date e) ++ put16 (last_access_date e) ++ put16 (reserved2 e) ++ put16 (write_time e) ++
  put16 (write_date e) ++ put16 (first_cluster_low e) ++ put32 (file_size_bytes e).

Record fat16_dir_loc := Loc { lba : Z; off : Z }.

#[export] Instance loc_eq_dec : EqDecision fat16_dir_loc.
Proof. solve_decision. Defined.

(** ** Names *)

Definition printable (c : Z) : bool := (0x20 <=? c) && (c <=? 0x7E).

Definition fat16_entry_valid (e : fat16_directory) : bool :=
  negb ((byte_of (d_name e) 0 =? FAT16_DIR_ENTRY_DELETED) || (byte_of (d_name e) 0 =? FAT16_DIR_ENTRY_END)) &&
  negb (attributes e =? FAT16_ATTR_LFN) &&
  (Z.land (attributes e) FAT16_ATTR_VOLUME_ID =? 0) &&
  forallb printable (d_name e) && forallb printable (extension e).

Definition non_space (c : Z) : bool := negb (c =? 32).

Definition fat16_name_to_str (name ext : list Z) : list Z :=
  List.filter non_space name ++
  (if non_space (byte_of ext 0) then 46 :: List.filter non_space ext else []).

Definition to_upper (c : Z) : Z := if (97 <=? c) && (c <=? 122) then c - 32 else c.

Fixpoint skip_slashes (s : list Z) : list Z :=
  match s with c :: s' => if c =? 47 then skip_slashes s' else s | [] => [] end.

(** The first loop: up to 8 characters before a dot or the end. *)
Fixpoint base_loop (n : nat) (s : list Z) : option (list Z * list Z) :=
  match s with
  | [] => Some ([], [])
  | c :: s' =>
      if c =? 46 then Some ([], s)
      else match n with
           | O => None
           | S n => match base_loop n s' with Some (b, r) => Some (to_upper c :: b, r) | None => None end
           end
  end.

(** The second loop: up to 3 characters to the end. *)
Fixpoint ext_loop (n : nat) (s : list Z) : option (list Z) :=
  match s with
  | [] => Some []
  | c :: s' =>
      match n with
      | O => None
      | S n => match ext_loop n s' with Some e => Some (to_upper c :: e) | None => None end
      end
  end.

Definition pad (n : nat) (l : list Z) : list Z := l ++ replicate (n - length l) 32.

Definition fat16_str_to_name (s : list Z) : option (list Z * list Z) :=
  match base_loop 8 (skip_slashes s) with
  | None => None
  | Some ([], _) => None
  | Some (b, []) => Some (pad 8 b, pad 3 [])
  | Some (b, _ :: s) =>
      match ext_loop 3 s with Some e => Some (pad 8 b, pad 3 e) | None => None end
  end.

(** [strcasecmp(..) == 0] *)
Definition same_name (s t : list Z) : bool := bool_decide (tolower <$> s = tolower <$> t).

Definition fat16_name_cmp (path : list Z) (e : fat16_directory) : bool :=
  same_name (skip_slashes path) (fat16_name_to_str (d_name e) (extension e)).

Definition fat16_is_dot (e : fat16_directory) : bool :=
  bool_decide (d_name e = [46; 32; 32; 32; 32; 32; 32; 32]) ||
  bool_decide (d_name e = [46; 46; 32; 32; 32; 32; 32; 32]).

(** ** Time stamps *)

Definition fat16_dos_now (c : clocks) : run (Z * Z) :=
  let now := time_now c in
  y ← timespec_get_year now;
  mo ← timespec_get_month now;
  d ← timespec_get_day now;
  h ← timespec_get_hour now;
  mi ← timespec_get_min now;
  s ← timespec_get_sec now;
  let y := if y <? 1980 then 1980 else y in
  Done (u16 (Z.lor (Z.lor (Z.shiftl (y - 1980) 9) (Z.shiftl mo 5)) d),
        u16 (Z.lor (Z.lor (Z.shiftl h 11) (Z.shiftl mi 5)) (Z.shiftr s 1))).

Definition fat16_entry_stamp (c : clocks) (e : fat16_directory) : run fat16_directory :=
  '(date, time) ← fat16_dos_now c;
  Done (Dir (d_name e) (extension e) (attributes e) (reserved1 e) 0 time date date (reserved2 e) time date
         (first_cluster_low e) (file_size_bytes e)).

Definition fat16_entry_touch (c : clocks) (e : fat16_directory) : run fat16_directory :=
  '(date, time) ← fat16_dos_now c;
  Done (Dir (d_name e) (extension e) (attributes e) (reserved1 e) (creation_time_tenths e) (creation_time e)
         (creation_date e) date (reserved2 e) time date (first_cluster_low e) (file_size_bytes e)).

Section dir.
Context {S : Type} `{!sector_dev S}.

(** ** Slots *)

Definition fat16_dir_read (loc : fat16_dir_loc) : st (vol S) (option fat16_directory) :=
  buf ?← dev_read (lba loc);
  w ← st_run (copy_from (off loc) 32 buf);
  mret (Some (dir_of w)).

Definition fat16_dir_write (loc : fat16_dir_loc) (e : fat16_directory) : st (vol S) (option unit) :=
  buf ?← dev_read (lba loc);
  buf ← st_run (copy_to (off loc) (dir_bytes e) buf);
  dev_write (lba loc) buf.

(** A callback: the result and the new context. *)
Definition slot_cb (X : Type) : Type := Z → fat16_dir_loc → X → st (vol S) (Z * X).

Definition per_sector (fs : fat16) : Z := bytes_per_sector (header fs) / FAT16_DIR_ENTRY_SIZE.

(** The slots of a sector from slot [i] on, [n] of them. *)
Fixpoint scan_slots {X} (n : nat) (i : Z) (sector : Z) (buf : list Z) (slot : slot_cb X) (x : X) :
    st (vol S) (Z * X) :=
  match n with
  | O => mret (0, x)
  | Datatypes.S n =>
      let loc := Loc sector (i * FAT16_DIR_ENTRY_SIZE) in
      c0 ← st_run (access (buf !! Z.to_nat (off loc)));
      '(r, x) ← slot c0 loc x;
      if negb (r =? 0) then mret (r, x) else scan_slots n (i + 1) sector buf slot x
  end.

(** [n] consecutive sectors from [sector] on. *)
Fixpoint scan_sectors {X} (n : nat) (sector : Z) (slot : slot_cb X) (x : X) : st (vol S) (Z * X) :=
  match n with
  | O => mret (0, x)
  | Datatypes.S n =>
      r ← dev_read sector;
      match r with
      | None => mret (-1, x)
      | Some buf =>
          fs ← fs_get;
          '(r, x) ← scan_slots (Z.to_nat (per_sector fs)) 0 sector buf slot x;
          if negb (r =? 0) then mret (r, x) else scan_sectors n (u32 (sector + 1)) slot x
      end
  end.

(** The loop over a chain; it does not end on a cyclic chain. *)
Fixpoint scan_chain {X} (fuel : nat) (cluster : Z) (slot : slot_cb X) (x : X) : st (vol S) (Z * X) :=
  match fuel with
  | O => st_stop Diverge
  | Datatypes.S fuel =>
      if fat16_cluster_valid cluster then
        fs ← fs_get;
        '(r, x) ← scan_sectors (Z.to_nat (sectors_per_cluster (header fs)))
                    (fat16_cluster_to_lba fs cluster) slot x;
        if negb (r =? 0) then mret (r, x)
        else
          next ← fat16_next_cluster cluster;
          scan_chain fuel next slot x
      else mret (0, x)
  end.

Definition fat16_dir_scan {X} (dir_first : Z) (slot : slot_cb X) (x : X) : st (vol S) (Z * X) :=
  if dir_first =? 0 then
    fs ← fs_get;
    scan_sectors (Z.to_nat (root_dir_sectors fs)) (root_dir_lba fs) slot x
  else scan_chain cluster_fuel dir_first slot x.

Definition find_ctx : Type := option (fat16_dir_loc * fat16_directory).

Definition find_slot (name : list Z) : slot_cb find_ctx := λ c0 loc x,
  if c0 =? FAT16_DIR_ENTRY_END then mret (-1, x)
  else if c0 =? FAT16_DIR_ENTRY_DELETED then mret (0, x)
  else
    r ← fat16_dir_read loc;
    match r with
    | None => mret (-1, x)
    | Some ent =>
        if negb (fat16_entry_valid ent) then mret (0, x)
        else if negb (fat16_name_cmp name ent) then mret (0, x)
        else mret (1, Some (loc, ent))
    end.

Definition fat16_dir_find (dir_first : Z) (name : list Z) : st (vol S) (option (fat16_dir_loc * fat16_directory)) :=
  '(r, x) ← fat16_dir_scan dir_first (find_slot name) None;
  mret (if r =? 1 then x else None).

Definition nonempty_slot : slot_cb unit := λ c0 loc x,
  if c0 =? FAT16_DIR_ENTRY_END then mret (0, x)
  else if c0 =? FAT16_DIR_ENTRY_DELETED then mret (0, x)
  else
    r ← fat16_dir_read loc;
    match r with
    | None => mret (-1, x)
    | Some ent => mret (if fat16_entry_valid ent && negb (fat16_is_dot ent) then 1 else 0, x)
    end.

Definition fat16_dir_empty (first_cluster : Z) : st (vol S) bool :=
  '(r, _) ← fat16_dir_scan first_cluster nonempty_slot tt;
  mret (r =? 0).

Definition free_slot : slot_cb (option fat16_dir_loc) := λ c0 loc x,
  if negb (c0 =? FAT16_DIR_ENTRY_END) && negb (c0 =? FAT16_DIR_ENTRY_DELETED) then mret (0, x)
  else mret (1, Some loc).

(** The last cluster of a chain. *)
Fixpoint last_loop (fuel : nat) (last c : Z) : st (vol S) Z :=
  match fuel with
  | O => st_stop Diverge
  | Datatypes.S fuel =>
      if fat16_cluster_valid c then next ← fat16_next_cluster c; last_loop fuel c next else mret last
  end.

(** Zeroes [n] sectors from [sector] on. *)
Fixpoint zero_sectors (n : nat) (sector : Z) : st (vol S) (option unit) :=
  match n with
  | O => mret (Some tt)
  | Datatypes.S n => _ ?← dev_write sector (replicate 512 0); zero_sectors n (u32 (sector + 1))
  end.

Definition fat16_dir_alloc_slot (dir_first : Z) : st (vol S) (option fat16_dir_loc) :=
  '(r, x) ← fat16_dir_scan dir_first free_slot None;
  if r =? 1 then mret x
  else if dir_first =? 0 then mret None
  else
    next ← fat16_next_cluster dir_first;
    last ← last_loop cluster_fuel dir_first next;
    nc ?← fat16_cluster_alloc;
    _ ?← fat16_fat_set last nc;
    fs ← fs_get;
    let base := fat16_cluster_to_lba fs nc in
    _ ?← zero_sectors (Z.to_nat (sectors_per_cluster (header fs))) base;
    mret (Some (Loc base 0)).

(** ** Iteration over entries *)

Definition dir_cb (X : Type) : Type := fat16_directory → Z → fat16_dir_loc → X → st (vol S) (Z * X).

(** The state of a walk: the running byte offset, the end flag, the context. *)
Record walk (X : Type) := Walk { w_offset : Z; w_ended : bool; w_ctx : X }.
Arguments Walk {_} _ _ _.
Arguments w_offset {_} _.
Arguments w_ended {_} _.
Arguments w_ctx {_} _.

Fixpoint walk_slots {X} (n : nat) (i : Z) (sector : Z) (buf : list Z) (cb : dir_cb X) (w : walk X) :
    st (vol S) (Z * walk X) :=
  match n with
  | O => mret (0, w)
  | Datatypes.S n =>
      l ← st_run (copy_from (i * FAT16_DIR_ENTRY_SIZE) 32 buf);
      let e := dir_of l in
      if byte_of (d_name e) 0 =? FAT16_DIR_ENTRY_END then mret (0, Walk (w_offset w) true (w_ctx w))
      else
        '(r, x) ← cb e (w_offset w) (Loc sector (i * FAT16_DIR_ENTRY_SIZE)) (w_ctx w);
        if negb (r =? 0) then mret (r, Walk (w_offset w) (w_ended w) x)
        else walk_slots n (i + 1) sector buf cb (Walk (u32 (w_offset w + FAT16_DIR_ENTRY_SIZE)) (w_ended w) x)
  end.

Definition walk_sector {X} (sector : Z) (cb : dir_cb X) (w : walk X) : st (vol S) (Z * walk X) :=
  r ← dev_read sector;
  match r with
  | None => mret (-1, w)
  | Some buf => fs ← fs_get; walk_slots (Z.to_nat (per_sector fs)) 0 sector buf cb w
  end.

Fixpoint walk_sectors {X} (n : nat) (sector : Z) (cb : dir_cb X) (w : walk X) : st (vol S) (Z * walk X) :=
  match n with
  | O => mret (0, w)
  | Datatypes.S n =>
      if w_ended w then mret (0, w)
      else
        '(r, w) ← walk_sector sector cb w;
        if negb (r =? 0) then mret (r, w) else walk_sectors n (u32 (sector + 1)) cb w
  end.

Fixpoint walk_chain {X} (fuel : nat) (cluster : Z) (cb : dir_cb X) (w : walk X) : st (vol S) (Z * walk X) :=
  match fuel with
  | O => st_stop Diverge
  | Datatypes.S fuel =>
      if fat16_cluster_valid cluster && negb (w_ended w) then
        fs ← fs_get;
        '(r, w) ← walk_sectors (Z.to_nat (sectors_per_cluster (header fs)))
                    (fat16_cluster_to_lba fs cluster) cb w;
        if negb (r =? 0) then mret (r, w)
        else
          next ← fat16_next_cluster cluster;
          walk_chain fuel next cb w
      else mret (0, w)
  end.

Definition fat16_walk_dir {X} (first_cluster : Z) (cb : dir_cb X) (x : X) : st (vol S) (Z * X) :=
  let w := Walk 0 false x in
  '(r, w) ← (if first_cluster =? 0 then
               fs ← fs_get;
               walk_sectors (Z.to_nat (root_dir_sectors fs)) (root_dir_lba fs) cb w
             else walk_chain cluster_fuel first_cluster cb w);
  mret (r, w_ctx w).
End dir.

(** ** Specifications *)

(** The characters a short name keeps: printable, no blank, dot or slash, no
    lower case. *)
Definition name_char (c : Z) : Prop := 33 <= c <= 126 ∧ c ≠ 46 ∧ c ≠ 47 ∧ ¬ (97 <= c <= 122).

Definition wf_entry (e : fat16_directory) : Prop :=
  length (d_name e) = 8%nat ∧ length (extension e) = 3%nat ∧ Forall byte (d_name e) ∧ Forall byte (extension e) ∧
  byte (attributes e) ∧ byte (reserved1 e) ∧ byte (creation_time_tenths e) ∧
  0 <= creation_time e < 65536 ∧ 0 <= creation_date e < 65536 ∧ 0 <= last_access_date e < 65536 ∧
  0 <= reserved2 e < 65536 ∧ 0 <= write_time e < 65536 ∧ 0 <= write_date e < 65536 ∧
  0 <= first_cluster_low e < 65536 ∧ 0 <= file_size_bytes e < 2 ^ 32.

(** The slots of a sector, and of a sequence of sectors, in the order of the disk. *)
Definition sector_slots (disk : Z → list Z) (k : Z) : list (fat16_dir_loc * list Z) :=
  (λ i, (Loc k (i * 32), slice (i * 32) 32 (disk k))) <$> seqZ 0 16.

Definition slots_of (disk : Z → list Z) (ks : list Z) : list (fat16_dir_loc * list Z) :=
  concat (sector_slots disk <$> ks).

(** The first slot of a directory that holds an entry of the given name,
    before the end-of-directory marker. [None] at the marker, [Some None] when
    the slots run out. *)
Fixpoint find_in (name : list Z) (slots : list (fat16_dir_loc * list Z)) :
    option (option (fat16_dir_loc * fat16_directory)) :=
  match slots with
  | [] => Some None
  | (loc, l) :: slots =>
      let e := dir_of l in
      if byte_of l 0 =? FAT16_DIR_ENTRY_END then None
      else if fat16_entry_valid e && fat16_name_cmp name e then Some (Some (loc, e))
      else find_in name slots
  end.

(** The clusters of a chain that ends. *)
Inductive chain_list (fat : Z → Z) : Z → list Z → Prop :=
  | chain_nil c : fat16_cluster_valid c = false → chain_list fat c []
  | chain_cons c cs : fat16_cluster_valid c = true → chain_list fat (fat c) cs → chain_list fat c (c :: cs).

Definition cluster_sectors (fs : fat16) (c : Z) : list Z :=
  seqZ (data_region_lba fs + (c - 2) * sectors_per_cluster (header fs)) (sectors_per_cluster (header fs)).

(** The sectors of a directory: the fixed root or the chain [cs]. *)
Definition dir_sectors (fs : fat16) (dir_first : Z) (cs : list Z) : list Z :=
  if dir_first =? 0 then seqZ (root_dir_lba fs) (root_dir_sectors fs)
  else concat (cluster_sectors fs <$> cs).

Definition is_dir_of {S} `{!sector_dev S} (v : vol S) (dir_first : Z) (cs : list Z) : Prop :=
  dir_first = 0 ∨ (chain_list (fat_at v 0) dir_first cs ∧ Forall (λ c, c <= last_cluster (v_fs v)) cs ∧
                   Z.of_nat (length cs) <= 65536).

(** ** Lemmas on names *)

Lemma filter_name_chars b : Forall name_char b → List.filter non_space b = b.
Proof.
  induction 1 as [|c b Hc _ IH]; [done|]. cbn [List.filter]. unfold non_space at 1. unfold name_char in Hc.
  rewrite (proj2 (Z.eqb_neq _ _)) by lia. cbn [negb]. by rewrite IH.
Qed.

Lemma filter_pad n b : Forall name_char b → List.filter non_space (pad n b) = b.
Proof.
  intros Hb. unfold pad. rewrite List.filter_app, filter_name_chars by done.
  assert (List.filter non_space (replicate (n - length b) 32) = []) as ->; [|apply app_nil_r].
  induction (n - length b)%nat; [done|]. by cbn.
Qed.

Lemma upper_name c : name_char c → to_upper c = c.
Proof. intros (H1 & _ & _ & H4). unfold to_upper. case_if; [lia|done]. Qed.

Lemma base_loop_name n b r :
  Forall name_char b → (length b <= n)%nat → match r with [] => True | c :: _ => c = 46 end →
  base_loop n (b ++ r) = Some (b, r).
Proof.
  intros Hb. revert n. induction Hb as [|c b Hc Hb IH]; intros n Hn Hr.
  - destruct r as [|x r]; cbn [app base_loop]; [by destruct n|]. subst x. by destruct n.
  - cbn [app length] in *. destruct n as [|n]; [lia|]. cbn [base_loop].
    rewrite (proj2 (Z.eqb_neq c 46)) by (unfold name_char in Hc; lia).
    rewrite IH by (done || lia). by rewrite upper_name.
Qed.

Lemma ext_loop_name n b : Forall name_char b → (length b <= n)%nat → ext_loop n b = Some b.
Proof.
  intros Hb. revert n. induction Hb as [|c b Hc Hb IH]; intros n Hn; [by destruct n|].
  cbn [length] in *. destruct n as [|n]; [lia|]. cbn [ext_loop]. rewrite IH by lia. by rewrite upper_name.
Qed.

Lemma skip_slashes_name c s : c ≠ 47 → skip_slashes (c :: s) = c :: s.
Proof. intros H. cbn. by rewrite (proj2 (Z.eqb_neq _ _)). Qed.

Lemma strcasecmp_loop_Done fuel m a b s t :
  cstr m a s → cstr m b t → (length s < fuel)%nat →
  ∃ r, strcasecmp_loop fuel m a b = Done r ∧ (r = 0 ↔ same_name s t = true).
Proof.
  intros Ha Hb Hf. unfold same_name. revert a b t fuel Ha Hb Hf.
  assert (Hlow : ∀ c, 0 < c < 256 → 0 < tolower c).
  { intros c Hc. unfold tolower. case_if; lia. }
  induction s as [|c s IH]; intros a b t [|fuel] Ha Hb Hf; cbn [strcasecmp_loop length] in *; try lia.
  - apply cstr_nil in Ha. rstep (ldb_Some _ _ _ Ha). cbn [negb andb Z.eqb]. destruct t as [|x t].
    + apply cstr_nil in Hb. rstep (ldb_Some _ _ _ Hb). eexists. split; [done|]. done.
    + apply cstr_cons in Hb as (Hx & Hr & _). rstep (ldb_Some _ _ _ Hx). eexists. split; [done|].
      rewrite bool_decide_eq_true. pose proof (Hlow x Hr). change (tolower 0) with 0. split; [lia|done].
  - apply cstr_cons in Ha as (Hc & Hr & Ha). rstep (ldb_Some _ _ _ Hc).
    rewrite (proj2 (Z.eqb_neq c 0)) by lia. cbn [negb andb]. destruct t as [|x t].
    + apply cstr_nil in Hb. rstep (ldb_Some _ _ _ Hb). pose proof (Hlow c Hr). change (tolower 0) with 0.
      rewrite (proj2 (Z.eqb_neq _ _)) by lia. eexists. split; [done|].
      rewrite bool_decide_eq_true. split; [lia|done].
    + apply cstr_cons in Hb as (Hx & Hrx & Hb). rstep (ldb_Some _ _ _ Hx).
      destruct (Z.eqb_spec (tolower c) (tolower x)) as [E|Hne].
      * destruct (IH (a + 1) (b + 1) t fuel Ha Hb ltac:(lia)) as (r & -> & Hiff).
        exists r. split; [done|]. rewrite Hiff, !bool_decide_eq_true, !fmap_cons, E.
        split; [congruence|by intros [= ?]].
      * eexists. split; [done|]. rewrite bool_decide_eq_true, !fmap_cons. split; [lia|by intros [= ? _]].
Qed.

(** ** Lemmas on entries *)

Lemma le16_pair t : 0 <= t < 65536 → t mod 256 + 256 * (t / 256 mod 256) = t.
Proof. intros H. apply (le16_put16 t H). Qed.

Lemma dir_of_bytes e : wf_entry e → dir_of (dir_bytes e) = e.
Proof.
  destruct e as [n x a r1 ct t d la r2 wt wd fc sz]. unfold wf_entry. cbn.
  intros (Hn & Hx & _ & _ & _ & _ & _ & Ht & Hd & Hla & Hr2 & Hwt & Hwd & Hfc & Hsz).
  do 8 (destruct n as [|? n]; [done|]). destruct n; [|done].
  do 3 (destruct x as [|? x]; [done|]). destruct x; [|done].
  unfold dir_of, dir_bytes. cbn [d_name extension attributes reserved1 creation_time_tenths creation_time
    creation_date last_access_date reserved2 write_time write_date first_cluster_low file_size_bytes].
  f_equal.
  all: try reflexivity.
  all: try (match goal with |- le16 ?l ?k = ?t =>
    change (le16 l k) with (t mod 256 + 256 * (t / 256 mod 256)); by apply le16_pair end).
  assert (0 <= sz mod 65536 < 65536) by (apply Z.mod_pos_bound; lia).
  assert (0 <= sz / 65536 < 65536) by (split; [apply Z.div_pos; lia|apply Z.div_lt_upper_bound; lia]).
  match goal with |- le32 ?l ?k = _ =>
    change (le32 l k) with (sz mod 65536 mod 256 + 256 * (sz mod 65536 / 256 mod 256) + 65536 *
      (sz / 65536 mod 65536 mod 256 + 256 * (sz / 65536 mod 65536 / 256 mod 256))) end.
  rewrite (Z.mod_small (sz / 65536)) by done. rewrite !le16_pair by done.
  pose proof (Z.div_mod sz 65536). lia.
Qed.

Lemma dir_bytes_length e : wf_entry e → length (dir_bytes e) = 32%nat.
Proof.
  intros (Hn & Hx & _). unfold dir_bytes. rewrite !length_app, Hn, Hx. reflexivity.
Qed.

Lemma dir_bytes_byte e : wf_entry e → Forall byte (dir_bytes e).
Proof.
  intros (_ & _ & Hn & Hx & Ha & Hr & Hc & _). unfold dir_bytes.
  rewrite !Forall_app. split_and!; try done; try apply put16_byte; try apply put32_byte.
  rewrite !Forall_cons. split_and!; done || constructor.
Qed.

Section lemmas.
Context {S : Type} `{!sector_dev S} `{!SectorDevLaws S}.
Implicit Types v : vol S.

Lemma dir_read_wp v loc :
  sd_ok (v_dev v) → lba_ok (lba loc) → 0 <= off loc → off loc + 32 <= 512 →
  wp (fat16_dir_read loc) (λ r v', sd_ok (v_dev v') ∧ same_vol v v' ∧
    (∀ e, r = Some e → e = dir_of (slice (off loc) 32 (disk_of v (lba loc)))) ∧
    (good v → good v' ∧ is_Some r)) v.
Proof.
  intros Hok Hlba Ho Ho2. destruct (disk_byte v _ Hok Hlba) as [Hlen _]. unfold fat16_dir_read.
  apply wp_try. eapply wp_mono; [by apply dev_read_wp|]. intros r v1 (Hd & Hs & Hr & Hg).
  destruct r as [buf|].
  - rewrite (Hr buf eq_refl). apply wp_bind. eapply wp_run; [apply copy_from_Done; lia|]. apply wp_ret.
    split; [done|]. split; [done|]. split; [by intros ? [= <-]|]. intros Hgv. split; [by apply Hg|by eexists].
  - split; [done|]. split; [done|]. split; [done|]. intros Hgv. by destruct (Hg Hgv) as [_ [? ?]].
Qed.

Lemma dir_write_wp v loc e :
  sd_ok (v_dev v) → lba_ok (lba loc) → 0 <= off loc → off loc + 32 <= 512 → wf_entry e →
  wp (fat16_dir_write loc e) (λ r v', sd_ok (v_dev v') ∧ v' = with_dev (v_dev v') v ∧
    (∀ k, lba_ok k → disk_of v' k = if bool_decide (r = Some tt ∧ k = lba loc)
       then splice (off loc) (dir_bytes e) (disk_of v (lba loc)) else disk_of v k) ∧
    (good v → good v' ∧ r = Some tt)) v.
Proof.
  intros Hok Hlba Ho Ho2 He. destruct (disk_byte v _ Hok Hlba) as [Hlen Hb].
  pose proof (dir_bytes_length e He) as Hl. unfold fat16_dir_write.
  apply wp_try. eapply wp_mono; [by apply dev_read_wp|]. intros r v1 (Hd & [E1 Hs] & Hr & Hg).
  destruct r as [buf|].
  2:{ split; [done|]. split; [done|]. split; [|intros Hgv; by destruct (Hg Hgv) as [_ [? ?]]].
      intros k Hk. rewrite bool_decide_eq_false_2 by (by intros [? _]). by apply Hs. }
  rewrite (Hr buf eq_refl). apply wp_bind. eapply wp_run; [apply copy_to_Done; lia|].
  eapply wp_mono.
  { apply dev_write_wp; [done|done|rewrite length_splice by lia; done|].
    apply splice_byte; [by apply dir_bytes_byte|done]. }
  intros w v2 (Hd2 & E2 & Hget & Hg2). split; [done|]. split; [rewrite E2, E1; by destruct v|].
  split; [|intros Hgv; by apply Hg2, Hg].
  intros k Hk. rewrite Hget by done. case_bool_decide; [done|]. by apply Hs.
Qed.

(** ** The search *)

Definition verdict (x : option (option (fat16_dir_loc * fat16_directory))) : Z * find_ctx :=
  match x with
  | None => (-1, None)
  | Some None => (0, None)
  | Some (Some p) => (1, Some p)
  end.

Lemma find_in_app name l1 l2 :
  find_in name (l1 ++ l2) = match find_in name l1 with Some None => find_in name l2 | r => r end.
Proof.
  induction l1 as [|[loc l] l1 IH]; [done|]. cbn [app find_in]. repeat case_if; done.
Qed.

(** A volume in which only private state of the device may have moved. *)
Definition reads (v v' : vol S) : Prop := sd_ok (v_dev v') ∧ good v' ∧ same_vol v v'.

Lemma deleted_invalid l : length l = 32%nat → byte_of l 0 = FAT16_DIR_ENTRY_DELETED →
  fat16_entry_valid (dir_of l) = false.
Proof.
  intros Hl Hd. unfold fat16_entry_valid, dir_of. cbn [d_name]. rewrite byte_of_slice by lia.
  rewrite Z.add_0_r, Hd. done.
Qed.

Lemma find_slot_wp v name k i :
  sd_ok (v_dev v) → good v → lba_ok k → 0 <= i < 16 →
  wp (find_slot name (byte_of (disk_of v k) (i * 32)) (Loc k (i * 32)) None) (λ rx v', reads v v' ∧
    rx = verdict (find_in name [(Loc k (i * 32), slice (i * 32) 32 (disk_of v k))])) v.
Proof.
  intros Hok Hgv Hk Hi. destruct (disk_byte v k Hok Hk) as [Hlen _].
  set (l := slice (i * 32) 32 (disk_of v k)).
  assert (Hl : length l = 32%nat) by (unfold l; rewrite length_slice; lia).
  assert (Hb : byte_of (disk_of v k) (i * 32) = byte_of l 0).
  { unfold l. rewrite byte_of_slice by lia. f_equal. lia. }
  rewrite Hb. unfold find_slot. cbn [find_in].
  assert (Hself : reads v v) by (split; [done|split; [done|apply same_vol_refl]]).
  destruct (byte_of l 0 =? FAT16_DIR_ENTRY_END); [by apply wp_ret|].
  destruct (Z.eqb_spec (byte_of l 0) FAT16_DIR_ENTRY_DELETED) as [Hdel|_].
  { apply wp_ret. split; [done|]. by rewrite (deleted_invalid l Hl Hdel). }
  apply wp_bind. eapply wp_mono; [apply (dir_read_wp v (Loc k (i * 32))); cbn [lba off]; (done || lia)|].
  intros r v' (Hd & Hs & Hr & Hg). destruct (Hg Hgv) as [Hg' [e ->]].
  rewrite (Hr e eq_refl). cbn [lba off]. fold l.
  assert (reads v v') by (split; done).
  destruct (fat16_entry_valid (dir_of l)); cbn [negb andb]; [|by apply wp_ret].
  destruct (fat16_name_cmp name (dir_of l)); cbn [negb]; by apply wp_ret.
Qed.

Lemma reads_trans v1 v2 v3 : reads v1 v2 → reads v2 v3 → reads v1 v3.
Proof. intros (_ & _ & H1) (H2 & H3 & H4). split; [done|]. split; [done|]. by eapply same_vol_trans. Qed.

Lemma scan_slots_wp v0 v name k buf n i :
  reads v0 v → lba_ok k → disk_of v0 k = buf → 0 <= i → i + Z.of_nat n = 16 →
  wp (scan_slots n i k buf (find_slot name) None) (λ rx v', reads v0 v' ∧
    rx = verdict (find_in name ((λ i, (Loc k (i * 32), slice (i * 32) 32 buf)) <$> seqZ i (Z.of_nat n)))) v.
Proof.
  revert i v. induction n as [|n IH]; intros i v Hv0 Hk Hbuf Hi Hn; cbn [scan_slots].
  { by apply wp_ret. }
  destruct (Hv0) as (Hok & Hgv & [_ Hs0]). assert (Hb : disk_of v k = buf) by (by rewrite Hs0).
  unfold FAT16_DIR_ENTRY_SIZE. cbn [off].
  destruct (disk_byte v k Hok Hk) as [Hlen _]. rewrite Hb in Hlen. apply wp_bind.
  destruct (lookup_lt_is_Some_2 buf (Z.to_nat (i * 32))) as [c0 Hc0]; [lia|].
  eapply wp_run; [rewrite Hc0; done|].
  assert (c0 = byte_of (disk_of v k) (i * 32)) as -> by (unfold byte_of; by rewrite Hb, Hc0).
  apply wp_bind. eapply wp_mono; [apply find_slot_wp; (done || lia)|].
  intros [r x] v1 (Hr1 & Erx). rewrite Hb in Erx. rewrite seqZ_cons by lia. rewrite fmap_cons.
  change (?a :: ?b) with ([a] ++ b). rewrite find_in_app.
  pose proof (reads_trans _ _ _ Hv0 Hr1) as Hr0.
  destruct (find_in name [_]) as [[p|]|]; injection Erx as -> ->; cbn [negb Z.eqb];
    try (by apply wp_ret).
  replace (Z.pred (Z.of_nat (Datatypes.S n))) with (Z.of_nat n) by lia.
  replace (Z.succ i) with (i + 1) by lia. apply IH; (done || lia).
Qed.

Lemma reads_fs v v' : reads v v' → v_fs v' = v_fs v.
Proof. intros (_ & _ & H). by apply same_vol_fs. Qed.

Lemma reads_fat_ok v v' : fat_ok v → reads v v' → fat_ok v'.
Proof. intros Hok (Hd & _ & Hs). by eapply same_vol_fat_ok. Qed.

Lemma reads_fat_at v v' c : fat_ok v → reads v v' → in_fat (v_fs v) c → fat_at v' 0 c = fat_at v 0 c.
Proof.
  intros Hok (_ & _ & Hs) Hc. pose proof (g_fats _ (fo_geom v Hok)). apply same_vol_fat_at; (done || lia).
Qed.

Lemma slots_of_app disk l1 l2 : slots_of disk (l1 ++ l2) = slots_of disk l1 ++ slots_of disk l2.
Proof. unfold slots_of. by rewrite fmap_app, concat_app. Qed.

Lemma scan_sectors_wp v0 v name n k :
  reads v0 v → geom (v_fs v0) → 0 <= k → k + Z.of_nat n <= 2 ^ 32 →
  wp (scan_sectors n k (find_slot name) None) (λ rx v', reads v0 v' ∧
    rx = verdict (find_in name (slots_of (disk_of v0) (seqZ k (Z.of_nat n))))) v.
Proof.
  revert k v. induction n as [|n IH]; intros k v Hv0 Hg Hk Hn; cbn [scan_sectors].
  { by apply wp_ret. }
  assert (Hlba : lba_ok k) by (unfold lba_ok; lia). destruct (Hv0) as (Hok & Hgv & [_ Hs0]).
  apply wp_bind. eapply wp_mono; [by apply dev_read_wp|]. intros r v1 (Hd1 & Hs1 & Hr & Hg1).
  destruct (Hg1 Hgv) as [Hgv1 [buf ->]]. rewrite (Hr buf eq_refl), (Hs0 k Hlba) in *.
  assert (Hv1 : reads v0 v1) by (eapply reads_trans; [done|by split]).
  apply wp_bind. unfold fs_get. apply wp_bind, wp_get, wp_ret. rewrite (reads_fs _ _ Hv1).
  unfold per_sector. rewrite (g_bps _ Hg). change (Z.to_nat (512 / FAT16_DIR_ENTRY_SIZE)) with 16%nat.
  apply wp_bind. eapply wp_mono; [by apply (scan_slots_wp v0)|]. intros [r x] v2 (Hv2 & Erx).
  change (Z.of_nat 16) with 16 in Erx. rewrite seqZ_cons by lia.
  change (k :: ?l) with ([k] ++ l). rewrite slots_of_app, find_in_app.
  unfold slots_of at 1. cbn [fmap list_fmap concat]. rewrite app_nil_r. unfold sector_slots.
  destruct (find_in name _) as [[p|]|]; injection Erx as -> ->; cbn [negb Z.eqb]; try (by apply wp_ret).
  replace (Z.pred (Z.of_nat (Datatypes.S n))) with (Z.of_nat n) by lia.
  destruct n as [|n]; [by apply wp_ret|].
  rewrite wrap_small by lia. replace (Z.succ k) with (k + 1) by lia. apply IH; (done || lia).
Qed.

Lemma next_cluster_wp v0 v c :
  fat_ok v0 → reads v0 v → in_fat (v_fs v0) c →
  wp (fat16_next_cluster c) (λ r v', reads v0 v' ∧ r = fat_at v0 0 c) v.
Proof.
  intros Hok Hv0 Hin. unfold fat16_next_cluster. apply wp_bind.
  pose proof (reads_fat_ok _ _ Hok Hv0) as Hokv. pose proof (reads_fs _ _ Hv0) as Hfs.
  eapply wp_mono; [apply fat_get_wp; [done|by rewrite Hfs]|].
  intros r v1 (Hok1 & Hs1 & Hr & Hg1). destruct Hv0 as (Hd & Hgv & Hs0).
  destruct (Hg1 Hgv) as [Hgv1 [x ->]]. apply wp_ret. split.
  - split; [apply Hok1|]. split; [done|]. by eapply same_vol_trans.
  - rewrite (Hr x eq_refl). by apply reads_fat_at; [|split|].
Qed.

Lemma cluster_to_lba_eq fs c :
  geom fs → 2 <= c <= last_cluster fs →
  fat16_cluster_to_lba fs c = data_region_lba fs + (c - 2) * sectors_per_cluster (header fs) ∧
  0 <= fat16_cluster_to_lba fs c ∧ root_dir_lba fs + root_dir_sectors fs <= fat16_cluster_to_lba fs c ∧
  fat16_cluster_to_lba fs c + sectors_per_cluster (header fs) <= 2 ^ 32.
Proof.
  intros [Hb Hf Hs Hst Hr Hd Hspc Hc He Hby] Hcl. unfold last_cluster, FAT16_CLUSTER_MAX in Hcl.
  unfold fat16_cluster_to_lba, FAT16_CLUSTER_MIN. rewrite (proj2 (Z.ltb_ge _ _)) by lia.
  assert (0 <= (c - 2) * sectors_per_cluster (header fs)) by nia.
  assert ((c - 2) * sectors_per_cluster (header fs) + sectors_per_cluster (header fs)
          <= total_clusters fs * sectors_per_cluster (header fs)) by nia.
  assert (0 <= num_fats (header fs) * fat_size_16 (header fs)) by nia.
  rewrite !wrap_small; rewrite ?wrap_small; lia.
Qed.

Lemma valid_range c : fat16_cluster_valid c = true ↔ 2 <= c <= FAT16_CLUSTER_MAX.
Proof. unfold fat16_cluster_valid. by rewrite andb_true_iff, !Z.leb_le. Qed.

Lemma scan_chain_wp v0 v name fuel c cs :
  fat_ok v0 → reads v0 v → chain_list (fat_at v0 0) c cs →
  Forall (λ c, c <= last_cluster (v_fs v0)) cs → (length cs < fuel)%nat →
  wp (scan_chain fuel c (find_slot name) None) (λ rx v', reads v0 v' ∧
    rx = verdict (find_in name (slots_of (disk_of v0) (concat (cluster_sectors (v_fs v0) <$> cs))))) v.
Proof.
  intros Hok Hv0 Hch. revert fuel v Hv0. induction Hch as [c Hv|c cs Hv Hch IH];
    intros [|fuel] v Hv0 Hall Hfuel; cbn [length] in *; try lia; cbn [scan_chain]; rewrite Hv.
  { by apply wp_ret. }
  apply Forall_cons in Hall as [Hlast Hall]. apply valid_range in Hv.
  pose proof (fo_geom _ Hok) as Hg. destruct (cluster_to_lba_eq _ c Hg ltac:(lia)) as (El & Hl0 & _ & Hl1).
  apply wp_bind. unfold fs_get. apply wp_bind, wp_get, wp_ret. rewrite (reads_fs _ _ Hv0).
  pose proof (g_spc _ Hg) as Hspc. apply wp_bind. eapply wp_mono.
  { apply (scan_sectors_wp v0); [done|done|lia|lia]. }
  intros [r x] v1 (Hv1 & Erx). rewrite fmap_cons. cbn [concat]. rewrite slots_of_app, find_in_app.
  unfold cluster_sectors at 1. rewrite <- El. rewrite Z2Nat.id in Erx by lia.
  destruct (find_in name (slots_of _ (seqZ _ _))) as [[p|]|]; injection Erx as -> ->; cbn [negb Z.eqb];
    try (by apply wp_ret).
  apply wp_bind. eapply wp_mono; [apply (next_cluster_wp v0 v1 c); [done|done|apply cluster_in_fat; [done|lia]]|].
  intros r v2 (Hv2 & ->). apply IH; (done || lia).
Qed.

Lemma root_range fs : geom fs →
  0 <= root_dir_lba fs ∧ 0 <= root_dir_sectors fs ∧ root_dir_lba fs + root_dir_sectors fs <= 2 ^ 32.
Proof.
  intros []. assert (0 <= num_fats (header fs) * fat_size_16 (header fs)) by nia.
  assert (0 <= total_clusters fs * sectors_per_cluster (header fs)) by nia. lia.
Qed.

Lemma dir_find_wp v name dir_first cs :
  fat_ok v → good v → is_dir_of v dir_first cs →
  wp (fat16_dir_find dir_first name) (λ r v', reads v v' ∧
    r = match find_in name (slots_of (disk_of v) (dir_sectors (v_fs v) dir_first cs)) with
        | Some (Some p) => Some p
        | _ => None
        end) v.
Proof.
  intros Hok Hgv Hdir. pose proof (fo_geom _ Hok) as Hg.
  assert (Hself : reads v v) by (split; [apply Hok|split; [done|apply same_vol_refl]]).
  unfold fat16_dir_find, fat16_dir_scan, dir_sectors. apply wp_bind.
  assert (Hscan : wp (if dir_first =? 0
      then fs ← fs_get; scan_sectors (Z.to_nat (root_dir_sectors fs)) (root_dir_lba fs) (find_slot name) None
      else scan_chain cluster_fuel dir_first (find_slot name) None) (λ rx v', reads v v' ∧
    rx = verdict (find_in name (slots_of (disk_of v) (if dir_first =? 0
      then seqZ (root_dir_lba (v_fs v)) (root_dir_sectors (v_fs v))
      else concat (cluster_sectors (v_fs v) <$> cs))))) v).
  { destruct (Z.eqb_spec dir_first 0) as [->|Hne].
    - apply wp_bind. unfold fs_get. apply wp_bind, wp_get, wp_ret.
      pose proof (root_range _ Hg) as (Hr0 & Hn0 & Hr1).
      eapply wp_mono; [apply (scan_sectors_wp v); [done|done|lia|lia]|].
      intros rx v' [Hv' ->]. split; [done|]. by rewrite Z2Nat.id by lia.
    - destruct Hdir as [|(Hch & Hall & Hlen)]; [done|].
      apply (scan_chain_wp v); try done. with_strategy transparent [cluster_fuel] unfold cluster_fuel. lia. }
  eapply wp_mono; [exact Hscan|]. intros [r x] v1 (Hv1 & Erx). apply wp_ret. split; [done|].
  destruct (find_in name _) as [[p|]|]; by injection Erx as -> ->.
Qed.
End lemmas.

(** ** Theorems *)

(** Short names round-trip: a name of at most 8 characters and an
    extension of at most 3 (printable, upper case, no blank, dot or slash)
    that are rendered as a string and parsed again give back the same padded
    fields; the rendered string matches the entry and fits, with its
    terminator, the 13 bytes reserved for it. *)
Theorem fat16_name_roundtrip b x e :
  Forall name_char b → Forall name_char x → (1 <= length b <= 8)%nat → (length x <= 3)%nat →
  d_name e = pad 8 b → extension e = pad 3 x →
  let s := fat16_name_to_str (d_name e) (extension e) in
  fat16_str_to_name s = Some (d_name e, extension e) ∧ fat16_name_cmp s e = true ∧
  Z.of_nat (length s) < FAT16_NAME_MAX.
Proof.
  intros Hb Hx Hlb Hlx Hd He s.
  assert (Hs : s = b ++ match x with [] => [] | _ => 46 :: x end).
  { subst s. rewrite Hd, He. unfold fat16_name_to_str. rewrite !filter_pad by done. f_equal.
    destruct x as [|c x]; [done|]. apply Forall_cons in Hx as [Hc _].
    change (byte_of (pad 3 (c :: x)) 0) with c.
    unfold non_space. by rewrite (proj2 (Z.eqb_neq c 32)) by (unfold name_char in Hc; lia). }
  destruct b as [|c b]; [cbn in Hlb; lia|].
  assert (Hskip : skip_slashes s = s).
  { rewrite Hs. cbn [app]. apply skip_slashes_name. apply Forall_cons in Hb as [Hc _]. unfold name_char in Hc. lia. }
  split; [|split].
  - unfold fat16_str_to_name. rewrite Hskip, Hs. rewrite base_loop_name; [|done|lia|by destruct x].
    rewrite Hd, He. destruct x as [|y x]; [done|]. rewrite (ext_loop_name 3 (y :: x) Hx Hlx). done.
  - unfold fat16_name_cmp, same_name. rewrite Hskip. by apply bool_decide_eq_true.
  - rewrite Hs, length_app. unfold FAT16_NAME_MAX. destruct x; cbn [length] in *; lia.
Qed.

Section theorems.
Context {S : Type} `{!sector_dev S} `{!SectorDevLaws S}.
Implicit Types v : vol S.

(** [fat16_dir_write] then [fat16_dir_read]: storing an entry in a slot and
    reading the slot back gives the same entry, field for field; the other
    slots of the sector and all other sectors keep their bytes. *)
Theorem fat16_dir_write_read v loc e :
  sd_ok (v_dev v) → good v → lba_ok (lba loc) → 0 <= off loc → off loc mod 32 = 0 → off loc + 32 <= 512 →
  wf_entry e →
  ∃ v1 v2, fat16_dir_write loc e v = Done (Some tt, v1) ∧ fat16_dir_read loc v1 = Done (Some e, v2) ∧
    v_fs v1 = v_fs v ∧
    (∀ k, lba_ok k → k ≠ lba loc → disk_of v1 k = disk_of v k) ∧
    (∀ i, 0 <= i < 16 → i * 32 ≠ off loc →
       slice (i * 32) 32 (disk_of v1 (lba loc)) = slice (i * 32) 32 (disk_of v (lba loc))).
Proof.
  intros Hok Hgv Hlba Ho Hmod Ho2 He. destruct (disk_byte v _ Hok Hlba) as [Hlen _].
  pose proof (dir_bytes_length e He) as Hl.
  destruct (wp_elim _ _ _ (dir_write_wp v loc e Hok Hlba Ho Ho2 He)) as (r & v1 & E1 & Hok1 & Ev1 & Hget & Hg1).
  destruct (Hg1 Hgv) as [Hgv1 ->].
  assert (Hsec : disk_of v1 (lba loc) = splice (off loc) (dir_bytes e) (disk_of v (lba loc))).
  { rewrite Hget by done. by rewrite bool_decide_eq_true_2. }
  destruct (wp_elim _ _ _ (dir_read_wp v1 loc Hok1 Hlba Ho Ho2)) as (r & v2 & E2 & _ & _ & Hr & Hg2).
  destruct (Hg2 Hgv1) as [_ [e' ->]].
  assert (e' = e) as ->.
  { rewrite (Hr e' eq_refl), Hsec. replace 32 with (Z.of_nat (length (dir_bytes e))) by lia.
    rewrite slice_splice_same by lia. by apply dir_of_bytes. }
  exists v1, v2. split; [done|]. split; [done|]. split; [by rewrite Ev1|]. split.
  - intros k Hk Hne. rewrite Hget by done. by rewrite bool_decide_eq_false_2 by (intros [_ ?]; done).
  - intros i Hi Hne. rewrite Hsec. apply list_eq. intros j. destruct (decide (j < 32)%nat).
    + rewrite !lookup_slice by lia. rewrite lookup_splice by lia. rewrite bool_decide_eq_false_2; [done|].
      apply Z.mod_divide in Hmod as [q Hq]; [|lia]. lia.
    + rewrite !lookup_ge_None_2; [done| |]; rewrite length_slice; rewrite ?length_splice; lia.
Qed.

(** [fat16_dir_find] answers with the first slot, in the order of the
    disk and before the end-of-directory marker, that holds a valid entry
    whose name matches without regard to case, and with a failure when there
    is none; it reads only, and it ends normally for the fixed root directory
    and for every directory whose chain of clusters ends. *)
Theorem fat16_dir_find_first v name dir_first cs :
  fat_ok v → good v → is_dir_of v dir_first cs →
  ∃ v', fat16_dir_find dir_first name v =
      Done (match find_in name (slots_of (disk_of v) (dir_sectors (v_fs v) dir_first cs)) with
            | Some (Some p) => Some p
            | _ => None
            end, v') ∧ same_vol v v' ∧ fat_ok v'.
Proof.
  intros Hok Hgv Hdir.
  destruct (wp_elim _ _ _ (dir_find_wp v name dir_first cs Hok Hgv Hdir)) as (r & v' & E & Hr & ->).
  exists v'. split; [done|]. split; [apply Hr|by eapply reads_fat_ok].
Qed.
End theorems.

(** ** Witnesses *)

Definition demo_entry : fat16_directory :=
  Dir (pad 8 [75; 69; 82; 78; 69; 76]) (pad 3 [69; 76; 70]) 32 0 0 4660 22033 22033 0 4660 22033 5 70000.

Lemma demo_chars l : forallb (λ c, (33 <=? c) && (c <=? 96) && negb (c =? 46) && negb (c =? 47)) l = true →
  Forall name_char l.
Proof.
  intros H. apply Forall_forall. intros c Hc. rewrite forallb_forall in H.
  apply list_elem_of_In, H in Hc. breflect. unfold name_char. lia.
Qed.

Lemma fat16_name_roundtrip_witness :
  fat16_str_to_name [75; 69; 82; 78; 69; 76; 46; 69; 76; 70] =
    Some (d_name demo_entry, extension demo_entry).
Proof.
  refine (proj1 (fat16_name_roundtrip [75; 69; 82; 78; 69; 76] [69; 76; 70] demo_entry _ _ _ _ _ _)).
  - apply demo_chars. reflexivity.
  - apply demo_chars. reflexivity.
  - cbn. lia.
  - cbn. lia.
  - reflexivity.
  - reflexivity.
Defined.

Lemma demo_entry_wf : wf_entry demo_entry.
Proof.
  unfold wf_entry. cbn [d_name extension attributes reserved1 creation_time_tenths creation_time creation_date
    last_access_date reserved2 write_time write_date first_cluster_low file_size_bytes demo_entry].
  split_and!; try reflexivity; try (apply (bool_decide_unpack _); reflexivity); unfold byte; lia.
Qed.

Lemma fat16_dir_write_read_witness :
  ∃ v1 v2, fat16_dir_write (Loc 3 64) demo_entry demo_vol = Done (Some tt, v1) ∧
    fat16_dir_read (Loc 3 64) v1 = Done (Some demo_entry, v2).
Proof.
  destruct (fat16_dir_write_read demo_vol (Loc 3 64) demo_entry) as (v1 & v2 & E1 & E2 & _).
  - apply demo_vol_ok.
  - exact I.
  - unfold lba_ok. cbn [lba]. lia.
  - cbn [off]. lia.
  - reflexivity.
  - cbn [off]. lia.
  - exact demo_entry_wf.
  - exists v1, v2. split; [exact E1|exact E2].
Defined.

Lemma fat16_dir_find_first_witness :
  ∃ v', fat16_dir_find 0 [107; 101; 114; 110; 101; 108; 46; 101; 108; 102] demo_vol = Done (None, v').
Proof.
  destruct (fat16_dir_find_first demo_vol [107; 101; 114; 110; 101; 108; 46; 101; 108; 102] 0 [])
    as (v' & E & _).
  - exact demo_vol_ok.
  - exact I.
  - left. reflexivity.
  - exists v'. rewrite E. f_equal.
Defined.
