(* ===== verification/Fat16.v ===== *)
(** * FAT16: mounting, files and the name space (lizard/fat16.c)

    An inode of the file system is its size, its mode and the private
    information: a copy of the directory entry and the slot it lives in. Inodes
    are addresses of a table; [inode_alloc] and [zalloc] take addresses of an
    arena and fail when it is empty. Bytes that go to the caller's buffer one
    after the other are a list. *)

From S2P Require Import Prelude CString Bytes Dirent Ktime SectorDev Fat16Table Fat16Dir.

Local Open Scope Z_scope.

Definition FAT16_MODE_DIR : Z := 0x41FF.
Definition FAT16_MODE_FILE : Z := 0x81B6.

Record fat_inode := Inode { i_size : Z; i_mode : Z; i_ent : fat16_directory; i_loc : fat16_dir_loc }.

(** The inodes in memory and the addresses the allocator still has. *)
Record itab := Itab { inodes : gmap Z fat_inode; arena : list Z }.

Record fat_state (S : Type) := FatState { f_vol : vol S; f_itab : itab }.
Arguments FatState {_} _ _.
Arguments f_vol {_} _.
Arguments f_itab {_} _.

Definition is_dir (e : fat16_directory) : bool := negb (Z.land (attributes e) FAT16_ATTR_DIRECTORY =? 0).

(** One address for the inode, one for its information; the first goes back
    when there is no second. *)
Definition fat16_make_inode (e : fat16_directory) (loc : fat16_dir_loc) (t : itab) : option Z * itab :=
  match arena t with
  | inode :: info :: ar =>
      (Some inode,
       Itab (<[inode := Inode (file_size_bytes e) (if is_dir e then FAT16_MODE_DIR else FAT16_MODE_FILE) e loc]>
               (inodes t)) ar)
  | _ => (None, t)
  end.

Definition zero_entry : fat16_directory := Dir (replicate 8 0) (replicate 3 0) 0 0 0 0 0 0 0 0 0 0 0.

Definition fat16_fill_entry (c : clocks) (name_str : list Z) (attr : Z) : run (option fat16_directory) :=
  match fat16_str_to_name name_str with
  | None => Done None
  | Some (n, x) =>
      e ← fat16_entry_stamp c (Dir n x attr 0 0 0 0 0 0 0 0 0 0);
      Done (Some e)
  end.

Definition set_first (c : Z) (e : fat16_directory) : fat16_directory :=
  Dir (d_name e) (extension e) (attributes e) (reserved1 e) (creation_time_tenths e) (creation_time e)
    (creation_date e) (last_access_date e) (reserved2 e) (write_time e) (write_date e) c (file_size_bytes e).

Definition set_size (n : Z) (e : fat16_directory) : fat16_directory :=
  Dir (d_name e) (extension e) (attributes e) (reserved1 e) (creation_time_tenths e) (creation_time e)
    (creation_date e) (last_access_date e) (reserved2 e) (write_time e) (write_date e) (first_cluster_low e) n.

Definition set_name0 (c : Z) (e : fat16_directory) : fat16_directory :=
  Dir (c :: tail (d_name e)) (extension e) (attributes e) (reserved1 e) (creation_time_tenths e)
    (creation_time e) (creation_date e) (last_access_date e) (reserved2 e) (write_time e) (write_date e)
    (first_cluster_low e) (file_size_bytes e).

Section fat16.
Context {S : Type} `{!sector_dev S}.

(** ** Mounting *)

(** [present] is [dev->present]; the answer is 1 or -1. *)
Definition fat16_detect (present : bool) : st S Z :=
  if negb present then mret (-1)
  else
    r ← sd_read 0;
    mret (match r with
          | None => -1
          | Some l => if boot_signature (header_of l) =? FAT16_BOOT_SIGNATURE then 1 else -1
          end).

(** Loads the sectors [i], .., [i + n - 1] of the first table; the answer is
    the buffer, or nothing when a transfer fails. *)
Fixpoint load_fat (n : nat) (i start bps : Z) (buf : list Z) : st S (option (list Z)) :=
  match n with
  | O => mret (Some buf)
  | Datatypes.S n =>
      l ?← sd_read (u32 (start + i));
      buf ← st_run (copy_to (i * bps) l buf);
      load_fat n (i + 1) start bps buf
  end.

(** [kmalloc_ok]: the allocation of the table in memory succeeds. *)
Definition fat16_mount (kmalloc_ok : bool) : st S (option fat16) :=
  boot ?← sd_read 0;
  let h := header_of boot in
  let fat_start := reserved_sector_count h in
  let root := u32 (fat_start + num_fats h * fat_size_16 h) in
  root_sectors ← st_run (udiv (root_entry_count h * FAT16_DIR_ENTRY_SIZE + bytes_per_sector h - 1)
                           (bytes_per_sector h));
  let data := u32 (root + root_sectors) in
  let total := if total_sectors_16 h =? 0 then total_sectors_32 h else total_sectors_16 h in
  clusters ← st_run (udiv (u32 (total - data)) (sectors_per_cluster h));
  let bytes := u32 (fat_size_16 h * bytes_per_sector h) in
  cache ← (if kmalloc_ok then
             load_fat (Z.to_nat (fat_size_16 h)) 0 fat_start (bytes_per_sector h) (replicate (Z.to_nat bytes) 0)
           else mret None);
  mret (Some (Fat16 h fat_start root data root_sectors clusters cache bytes)).

Definition root_entry : fat16_directory := Dir (replicate 8 0) (replicate 3 0) FAT16_ATTR_DIRECTORY 0 0 0 0 0 0 0 0 0 0.

(** The mounted file system and the inode of its root; [dentry_ok]: the
    allocation of the root dentry succeeds. *)
Definition fat16_mount_fs (kmalloc_ok read_only dentry_ok : bool) (clock : clocks) (t : itab) :
    st S (option Z * option (vol S) * itab) :=
  r ← fat16_mount kmalloc_ok;
  match r with
  | None => mret (None, None, t)
  | Some fs =>
      let '(inode, t) := fat16_make_inode root_entry (Loc 0 0) t in
      d ← st_get;
      match inode with
      | Some i => if dentry_ok then mret (Some i, Some (Vol fs d read_only clock), t) else mret (None, None, t)
      | None => mret (None, None, t)
      end
  end.

(** ** Access to the state *)

Definition on_vol {A} (m : st (vol S) A) : st (fat_state S) A := λ s,
  match m (f_vol s) with
  | Done (a, v) => Done (a, FatState v (f_itab s))
  | Stop e => Stop e
  end.

Definition get_inode (i : Z) : st (fat_state S) fat_inode :=
  s ← st_get; st_run (access (inodes (f_itab s) !! i)).

Definition put_inode (i : Z) (ino : fat_inode) : st (fat_state S) unit :=
  st_modify (λ s, FatState (f_vol s) (Itab (<[i := ino]> (inodes (f_itab s))) (arena (f_itab s)))).

Definition make_inode (e : fat16_directory) (loc : fat16_dir_loc) : st (fat_state S) (option Z) := λ s,
  let '(r, t) := fat16_make_inode e loc (f_itab s) in Done (r, FatState (f_vol s) t).

Definition get_clock : st (fat_state S) clocks := s ← st_get; mret (v_clock (f_vol s)).
Definition get_ro : st (fat_state S) bool := s ← st_get; mret (v_read_only (f_vol s)).

(** ** Lookup and directory listing *)

Definition lookup_cb (name : list Z) : @dir_cb S (itab * option Z) := λ e _ loc x,
  if negb (fat16_entry_valid e) then mret (0, x)
  else if negb (fat16_name_cmp name e) then mret (0, x)
  else
    match fat16_make_inode e loc x.1 with
    | (None, t) => mret (-1, (t, x.2))
    | (Some i, t) => mret (1, (t, Some i))
    end.

(** The new inode, [dentry->inode]. *)
Definition fat16_lookup (dir : Z) (name : list Z) : st (fat_state S) (option Z) :=
  ino ← get_inode dir;
  s ← st_get;
  '(r, x) ← on_vol (fat16_walk_dir (first_cluster_low (i_ent ino)) (lookup_cb name) (f_itab s, None));
  _ ← st_modify (λ s, FatState (f_vol s) x.1);
  mret (if r =? 1 then x.2 else None).

(** The caller's [filldir] over its own state [B]; a negative answer stops. *)
Record readdir_ctx (B : Type) := RdCtx { rd_buf : B; rd_next : Z; rd_count : Z }.
Arguments RdCtx {_} _ _ _.
Arguments rd_buf {_} _.
Arguments rd_next {_} _.
Arguments rd_count {_} _.

Definition readdir_cb {B} (filldir : B → dirent → Z * B) (start : Z) : @dir_cb S (readdir_ctx B) := λ e o _ x,
  if o <? start then mret (0, x)
  else
    let x := RdCtx (rd_buf x) (u32 (o + FAT16_DIR_ENTRY_SIZE)) (rd_count x) in
    if negb (fat16_entry_valid e) then mret (0, x)
    else
      let d := Dirent 0 o (if is_dir e then DT_DIR else DT_REG) (fat16_name_to_str (d_name e) (extension e)) in
      let '(r, b) := filldir (rd_buf x) d in
      if r <? 0 then mret (1, RdCtx b (rd_next x) (rd_count x))
      else mret (0, RdCtx b (rd_next x) (rd_count x + 1)).

(** The count, the new [file->offset] and the caller's state. *)
Definition fat16_readdir {B} (inode offset : Z) (filldir : B → dirent → Z * B) (b : B) :
    st (fat_state S) (Z * Z * B) :=
  ino ← get_inode inode;
  '(_, x) ← on_vol (fat16_walk_dir (first_cluster_low (i_ent ino)) (readdir_cb filldir (u32 offset))
                      (RdCtx b (u32 offset) 0));
  mret (rd_count x, rd_next x, rd_buf x).

Definition fat16_open (inode : Z) : st (fat_state S) Z := mret 0.
Definition fat16_release (inode : Z) : st (fat_state S) Z := mret 0.

(** ** Reading *)

(** Skips whole clusters; [None] when the chain ends first. *)
Fixpoint skip_clusters (fuel : nat) (cluster skip csize : Z) : st (vol S) (option (Z * Z)) :=
  match fuel with
  | O => st_stop Diverge
  | Datatypes.S fuel =>
      if csize <=? skip then
        next ← fat16_next_cluster cluster;
        if fat16_cluster_valid next then skip_clusters fuel next (skip - csize) csize else mret None
      else mret (Some (cluster, skip))
  end.

(** The sectors of a cluster from sector [i] on, [n] of them; the answer says
    whether a transfer failed. *)
Fixpoint read_sectors (n : nat) (i first ssize count skip : Z) (out : list Z) :
    st (vol S) (bool * Z * list Z) :=
  match n with
  | O => mret (false, skip, out)
  | Datatypes.S n =>
      let done := Z.of_nat (length out) in
      if count <=? done then mret (false, skip, out)
      else if ssize <=? skip then read_sectors n (i + 1) first ssize count (skip - ssize) out
      else
        r ← dev_read (u32 (first + i));
        match r with
        | None => mret (true, skip, out)
        | Some sector =>
            let avail := u32 (ssize - skip) in
            let to_copy := if avail <? count - done then avail else count - done in
            l ← st_run (copy_from skip to_copy sector);
            read_sectors n (i + 1) first ssize count 0 (out ++ l)
        end
  end.

Fixpoint read_clusters (fuel : nat) (cluster ssize count skip : Z) (out : list Z) :
    st (vol S) (bool * list Z) :=
  match fuel with
  | O => st_stop Diverge
  | Datatypes.S fuel =>
      if fat16_cluster_valid cluster && (Z.of_nat (length out) <? count) then
        fs ← fs_get;
        '(failed, skip, out) ← read_sectors (Z.to_nat (sectors_per_cluster (header fs))) 0
                                 (fat16_cluster_to_lba fs cluster) ssize count skip out;
        if failed : bool then mret (true, out)
        else
          next ← fat16_next_cluster cluster;
          read_clusters fuel next ssize count skip out
      else mret (false, out)
  end.

(** An iteration copies a byte, or moves along the chain. *)
Definition copy_fuel (count : Z) : nat := (Z.to_nat count + cluster_fuel)%nat.
Definition skip_fuel (skip csize : Z) : nat :=
  if csize =? 0 then cluster_fuel else Datatypes.S (Z.to_nat (skip / csize)).

(** The returned value and the bytes stored in the caller's buffer. *)
Definition file_read (ino : fat_inode) (count offset : Z) : st (vol S) (Z * list Z) :=
  if i64 (i_size ino) <=? offset then mret (0, [])
  else
    let count := if i64 (i_size ino) <? i64 (offset + i64 count) then u64 (i_size ino - offset) else count in
    fs ← fs_get;
    let ssize := bytes_per_sector (header fs) in
    let csize := u32 (ssize * sectors_per_cluster (header fs)) in
    let skip := u32 offset in
    r ← skip_clusters (skip_fuel skip csize) (first_cluster_low (i_ent ino)) skip csize;
    match r with
    | None => mret (0, [])
    | Some (cluster, skip) =>
        '(failed, out) ← read_clusters (copy_fuel count) cluster ssize count skip [];
        let done := Z.of_nat (length out) in
        mret (if (failed : bool) && (done =? 0) then -1 else done, out)
    end.

Definition fat16_read (inode count offset : Z) : st (fat_state S) (Z * list Z) :=
  ino ← get_inode inode;
  on_vol (file_read ino count offset).

(** ** Writing *)

(** The next cluster of the chain, allocated and linked when there is none. *)
Definition chain_step (cluster : Z) : st (vol S) (option Z) :=
  next ← fat16_next_cluster cluster;
  if fat16_cluster_valid next then mret (Some next)
  else
    next ?← fat16_cluster_alloc;
    _ ?← fat16_fat_set cluster next;
    mret (Some next).

(** [for (pos = cluster_size; pos <= offset; pos += cluster_size)] *)
Fixpoint seek_clusters (fuel : nat) (cluster pos offset csize : Z) : st (vol S) (option Z) :=
  match fuel with
  | O => st_stop Diverge
  | Datatypes.S fuel =>
      if pos <=? offset then
        next ?← chain_step cluster;
        seek_clusters fuel next (u32 (pos + csize)) offset csize
      else mret (Some cluster)
  end.

(** One sector of a write: [chunk] bytes of [buf] from [done] on go to offset
    [skip]. The local buffer [sector] keeps its bytes between sectors; the
    answer is its new contents, nothing when a transfer fails. *)
Definition write_sector (lba skip : Z) (buf : list Z) (done ssize chunk : Z) (sector : list Z) :
    st (vol S) (option (list Z)) :=
  sector ?← (if negb (skip =? 0) || negb (chunk =? ssize) then dev_read lba else mret (Some sector));
  l ← st_run (copy_from done chunk buf);
  sector ← st_run (copy_to skip l sector);
  _ ?← dev_write lba sector;
  mret (Some sector).

(** The answer: whether to leave the loops, the skip, the bytes written, the
    buffer. *)
Fixpoint write_sectors (n : nat) (i first ssize skip : Z) (buf : list Z) (done : Z) (sector : list Z) :
    st (vol S) (bool * Z * Z * list Z) :=
  match n with
  | O => mret (false, skip, done, sector)
  | Datatypes.S n =>
      let count := Z.of_nat (length buf) in
      if count <=? done then mret (false, skip, done, sector)
      else if ssize <=? skip then write_sectors n (i + 1) first ssize (skip - ssize) buf done sector
      else
        let avail := ssize - skip in
        let chunk := if avail <? count - done then avail else count - done in
        r ← write_sector (u32 (first + i)) skip buf done ssize chunk sector;
        match r with
        | None => mret (true, skip, done, sector)
        | Some sector => write_sectors n (i + 1) first ssize 0 buf (u32 (done + chunk)) sector
        end
  end.

Fixpoint write_clusters (fuel : nat) (cluster ssize skip : Z) (buf : list Z) (done : Z) (sector : list Z) :
    st (vol S) Z :=
  match fuel with
  | O => st_stop Diverge
  | Datatypes.S fuel =>
      let count := Z.of_nat (length buf) in
      if done <? count then
        fs ← fs_get;
        '(out, skip, done, sector) ← write_sectors (Z.to_nat (sectors_per_cluster (header fs))) 0
                                       (fat16_cluster_to_lba fs cluster) ssize skip buf done sector;
        if out : bool then mret done
        else if done <? count then
          r ← chain_step cluster;
          match r with
          | None => mret done
          | Some next => write_clusters fuel next ssize skip buf done sector
          end
        else mret done
      else mret done
  end.

(** [out:] the size, the time stamps and the entry on the disk. *)
Definition write_out (ino : fat_inode) (offset done : Z) : st (vol S) (Z * fat_inode) :=
  let ino :=
    if i_size ino <? u64 (u64 offset + done)
    then Inode (u64 (u64 offset + done)) (i_mode ino) (set_size (u32 (u64 (u64 offset + done))) (i_ent ino)) (i_loc ino)
    else ino in
  v ← st_get;
  e ← (if 0 <? done then st_run (fat16_entry_touch (v_clock v) (i_ent ino)) else mret (i_ent ino));
  _ ← fat16_dir_write (i_loc ino) e;
  mret (if 0 <? done then done else -1, Inode (i_size ino) (i_mode ino) e (i_loc ino)).

(** The body of [fat16_write] after its guards: the returned value and the new
    inode. *)
Definition file_write (ino : fat_inode) (buf : list Z) (offset : Z) : st (vol S) (Z * fat_inode) :=
  fs ← fs_get;
  let ssize := bytes_per_sector (header fs) in
  let csize := u32 (ssize * sectors_per_cluster (header fs)) in
  first ← (if first_cluster_low (i_ent ino) =? 0 then fat16_cluster_alloc
           else mret (Some (first_cluster_low (i_ent ino))));
  match first with
  | None => mret (-1, ino)
  | Some first =>
      let ino := Inode (i_size ino) (i_mode ino) (set_first first (i_ent ino)) (i_loc ino) in
      r ← seek_clusters (skip_fuel (u32 offset) csize) first csize (u32 offset) csize;
      match r with
      | None => mret (-1, ino)
      | Some cluster =>
          skip ← st_run (umod (u32 offset) csize);
          done ← write_clusters (copy_fuel (Z.of_nat (length buf))) cluster ssize skip buf 0 (replicate 512 0);
          write_out ino offset done
      end
  end.

Definition fat16_write (inode : Z) (buf : list Z) (offset : Z) : st (fat_state S) Z :=
  ino ← get_inode inode;
  ro ← get_ro;
  if is_dir (i_ent ino) || ro then mret (-1)
  else if Z.of_nat (length buf) =? 0 then mret 0
  else
    '(r, ino) ← on_vol (file_write ino buf offset);
    _ ← put_inode inode ino;
    mret r.

(** 0 or -1. *)
Definition fat16_truncate (inode length : Z) : st (fat_state S) Z :=
  ino ← get_inode inode;
  ro ← get_ro;
  if is_dir (i_ent ino) || ro then mret (-1)
  else if negb (length =? 0) then mret (-1)
  else if (i_size ino =? 0) && (first_cluster_low (i_ent ino) =? 0) then mret 0
  else
    _ ← (if fat16_cluster_valid (first_cluster_low (i_ent ino))
         then on_vol (fat16_chain_free (first_cluster_low (i_ent ino))) else mret None);
    c ← get_clock;
    e ← st_run (fat16_entry_touch c (set_size 0 (set_first 0 (i_ent ino))));
    _ ← put_inode inode (Inode 0 (i_mode ino) e (i_loc ino));
    r ← on_vol (fat16_dir_write (i_loc ino) e);
    mret (match r with Some _ => 0 | None => -1 end).

(** ** The name space

    The answer of [fat16_create] and [fat16_mkdir] is the inode stored in the
    dentry. *)

Definition fat16_create (dir : Z) (name : list Z) : st (fat_state S) (option Z) :=
  ino ← get_inode dir;
  ro ← get_ro;
  if (ro : bool) then mret None
  else
    c ← get_clock;
    ent ?← st_run (fat16_fill_entry c name FAT16_ATTR_ARCHIVE);
    let dir_first := first_cluster_low (i_ent ino) in
    found ← on_vol (fat16_dir_find dir_first name);
    match found with
    | Some _ => mret None
    | None =>
        loc ?← on_vol (fat16_dir_alloc_slot dir_first);
        _ ?← on_vol (fat16_dir_write loc ent);
        make_inode ent loc
    end.

Definition dot_entry (c : clocks) (cluster : Z) : run fat16_directory :=
  fat16_entry_stamp c (Dir (46 :: replicate 7 32) (replicate 3 32) FAT16_ATTR_DIRECTORY 0 0 0 0 0 0 0 0 cluster 0).

(** [goto undo]: the new cluster is released. *)
Definition undo {A} (cluster : Z) : st (fat_state S) (option A) :=
  _ ← on_vol (fat16_chain_free cluster); mret None.

Definition fat16_mkdir (dir : Z) (name : list Z) : st (fat_state S) (option Z) :=
  ino ← get_inode dir;
  ro ← get_ro;
  if (ro : bool) then mret None
  else
    c ← get_clock;
    ent ?← st_run (fat16_fill_entry c name FAT16_ATTR_DIRECTORY);
    let dir_first := first_cluster_low (i_ent ino) in
    found ← on_vol (fat16_dir_find dir_first name);
    match found with
    | Some _ => mret None
    | None =>
        cluster ?← on_vol fat16_cluster_alloc;
        let ent := set_first cluster ent in
        fs ← on_vol fs_get;
        let base := fat16_cluster_to_lba fs cluster in
        _ ?← on_vol (zero_sectors (Z.to_nat (sectors_per_cluster (header fs) - 1)) (u32 (base + 1)));
        dot ← st_run (dot_entry c cluster);
        let dotdot := set_first dir_first (Dir (46 :: 46 :: replicate 6 32) (extension dot) (attributes dot)
          (reserved1 dot) (creation_time_tenths dot) (creation_time dot) (creation_date dot)
          (last_access_date dot) (reserved2 dot) (write_time dot) (write_date dot) cluster (file_size_bytes dot)) in
        _ ?← on_vol (dev_write base (splice 32 (dir_bytes dotdot) (splice 0 (dir_bytes dot) (replicate 512 0))));
        loc ← on_vol (fat16_dir_alloc_slot dir_first);
        match loc with
        | None => undo cluster
        | Some loc =>
            w ← on_vol (fat16_dir_write loc ent);
            match w with
            | None => undo cluster
            | Some _ =>
                i ← make_inode ent loc;
                match i with None => undo cluster | Some i => mret (Some i) end
            end
        end
    end.

(** The end of [fat16_unlink] and [fat16_rmdir]: the chain is released, then
    the slot is marked deleted. *)
Definition drop_entry (loc : fat16_dir_loc) (ent : fat16_directory) : st (vol S) Z :=
  _ ← (if fat16_cluster_valid (first_cluster_low ent) then fat16_chain_free (first_cluster_low ent)
       else mret None);
  r ← fat16_dir_write loc (set_name0 FAT16_DIR_ENTRY_DELETED ent);
  mret (match r with Some _ => 0 | None => -1 end).

Definition fat16_unlink (dir : Z) (name : list Z) : st (fat_state S) Z :=
  ino ← get_inode dir;
  ro ← get_ro;
  if (ro : bool) then mret (-1)
  else
    found ← on_vol (fat16_dir_find (first_cluster_low (i_ent ino)) name);
    match found with
    | None => mret (-1)
    | Some (loc, ent) => if is_dir ent then mret (-1) else on_vol (drop_entry loc ent)
    end.

Definition fat16_rmdir (dir : Z) (name : list Z) : st (fat_state S) Z :=
  ino ← get_inode dir;
  ro ← get_ro;
  if (ro : bool) then mret (-1)
  else
    found ← on_vol (fat16_dir_find (first_cluster_low (i_ent ino)) name);
    match found with
    | None => mret (-1)
    | Some (loc, ent) =>
        if negb (is_dir ent) then mret (-1)
        else
          empty ← on_vol (fat16_dir_empty (first_cluster_low ent));
          if negb empty then mret (-1) else on_vol (drop_entry loc ent)
    end.
End fat16.

(** ** Specification

    The bytes of a chain of clusters, sector after sector. *)

Definition sectors_data (disk : Z → list Z) (ks : list Z) : list Z := concat (disk <$> ks).

Definition file_data {S} `{!sector_dev S} (v : vol S) (cs : list Z) : list Z :=
  sectors_data (disk_of v) (concat (cluster_sectors (v_fs v) <$> cs)).

Definition cluster_size (fs : fat16) : Z := 512 * sectors_per_cluster (header fs).

(** A chain of clusters that starts at [c], ends, and lies in the data region. *)
Record file_chain {S} `{!sector_dev S} (v : vol S) (c : Z) (cs : list Z) : Prop := {
  fc_chain : chain_list (fat_at v 0) c cs;
  fc_last : Forall (λ c, c <= last_cluster (v_fs v)) cs;
  fc_length : Z.of_nat (length cs) <= 65536
}.

(** ** Lemmas *)

Section lemmas.
Context {S : Type} `{!sector_dev S} `{!SectorDevLaws S}.
Implicit Types v : vol S.

Lemma sectors_data_cons disk k ks : sectors_data disk (k :: ks) = disk k ++ sectors_data disk ks.
Proof. done. Qed.

Lemma sectors_data_app disk l1 l2 : sectors_data disk (l1 ++ l2) = sectors_data disk l1 ++ sectors_data disk l2.
Proof. unfold sectors_data. by rewrite fmap_app, concat_app. Qed.

Lemma sectors_data_length v ks :
  sd_ok (v_dev v) → Forall lba_ok ks → length (sectors_data (disk_of v) ks) = (512 * length ks)%nat.
Proof.
  intros Hok. induction 1 as [|k ks Hk _ IH]; [done|].
  rewrite sectors_data_cons, length_app, IH. destruct (disk_byte v k Hok Hk) as [-> _]. cbn [length]. lia.
Qed.

Lemma cluster_sectors_ok v c :
  geom (v_fs v) → 2 <= c <= last_cluster (v_fs v) →
  Forall lba_ok (cluster_sectors (v_fs v) c) ∧
  length (cluster_sectors (v_fs v) c) = Z.to_nat (sectors_per_cluster (header (v_fs v))).
Proof.
  intros Hg Hc. destruct (cluster_to_lba_eq _ c Hg Hc) as (E & H1 & _ & H2). rewrite E in *.
  unfold cluster_sectors. split; [|by rewrite length_seqZ].
  apply Forall_forall. intros k Hk%elem_of_seqZ. unfold lba_ok. lia.
Qed.

Lemma file_data_cons v c cs :
  file_data v (c :: cs) = sectors_data (disk_of v) (cluster_sectors (v_fs v) c) ++ file_data v cs.
Proof. unfold file_data. rewrite fmap_cons. cbn [concat]. apply sectors_data_app. Qed.

Lemma file_data_app v l1 l2 : file_data v (l1 ++ l2) = file_data v l1 ++ file_data v l2.
Proof. unfold file_data. by rewrite fmap_app, concat_app, sectors_data_app. Qed.

Lemma cluster_data_length v c :
  sd_ok (v_dev v) → geom (v_fs v) → 2 <= c <= last_cluster (v_fs v) →
  Z.of_nat (length (sectors_data (disk_of v) (cluster_sectors (v_fs v) c))) = cluster_size (v_fs v).
Proof.
  intros Hok Hg Hc. destruct (cluster_sectors_ok v c Hg Hc) as [Hall Hlen]. pose proof (g_spc _ Hg).
  rewrite sectors_data_length by done. rewrite Hlen. unfold cluster_size. lia.
Qed.

Lemma chain_clusters v c cs : chain_list (fat_at v 0) c cs → Forall (λ c, c <= last_cluster (v_fs v)) cs →
  Forall (λ c, 2 <= c <= last_cluster (v_fs v)) cs.
Proof.
  intros Hch. induction Hch as [|c cs Hv Hch IH]; [done|]. intros [Hl Hall]%Forall_cons.
  apply valid_range in Hv. constructor; [lia|auto].
Qed.

Lemma file_data_length v cs :
  sd_ok (v_dev v) → geom (v_fs v) → Forall (λ c, 2 <= c <= last_cluster (v_fs v)) cs →
  Z.of_nat (length (file_data v cs)) = Z.of_nat (length cs) * cluster_size (v_fs v).
Proof.
  intros Hok Hg. induction 1 as [|c cs Hc _ IH]; [done|].
  rewrite file_data_cons, length_app, Nat2Z.inj_add, cluster_data_length, IH by done. cbn [length]. lia.
Qed.

(** The part of [D] that a copy of at most [n] bytes after [skip] takes, in
    two pieces. *)
Lemma take_drop_app (D1 D2 : list Z) n skip :
  take n (drop skip (D1 ++ D2)) =
  take n (drop skip D1) ++ take (n - length (take n (drop skip D1))) (drop (skip - length D1) D2).
Proof.
  rewrite drop_app, take_app. f_equal. rewrite length_take.
  destruct (decide (n <= length (drop skip D1))%nat).
  - rewrite (Nat.min_l n) by lia. replace (n - length (drop skip D1))%nat with 0%nat by lia.
    by rewrite Nat.sub_diag, !take_0.
  - by rewrite (Nat.min_r n) by lia.
Qed.

Lemma read_sectors_wp v0 v n i first count skip out :
  reads v0 v → 0 <= first → 0 <= i → first + i + Z.of_nat n <= 2 ^ 32 → 0 <= skip < 2 ^ 32 →
  0 <= count < 2 ^ 32 → Z.of_nat (length out) < 2 ^ 32 →
  wp (read_sectors n i first 512 count skip out) (λ r v', reads v0 v' ∧
    let D := sectors_data (disk_of v0) (seqZ (first + i) (Z.of_nat n)) in
    let '(failed, skip', out') := r in
    failed = false ∧ out' = out ++ take (Z.to_nat (count - Z.of_nat (length out))) (drop (Z.to_nat skip) D) ∧
    0 <= skip' ∧ (Z.of_nat (length out') < count → skip' = Z.max 0 (skip - 512 * Z.of_nat n))) v.
Proof.
  revert i skip out v. induction n as [|n IH]; intros i skip out v Hv Hf Hi Hn Hs Hc Ho; cbn [read_sectors].
  { apply wp_ret. split; [done|]. split; [done|]. split; [|split; [lia|lia]].
    change (seqZ (first + i) (Z.of_nat 0)) with (@nil Z). change (sectors_data (disk_of v0) []) with (@nil Z).
    by rewrite drop_nil, take_nil, app_nil_r. }
  assert (Hlba : lba_ok (first + i)) by (unfold lba_ok; lia).
  rewrite seqZ_cons by lia. rewrite sectors_data_cons.
  replace (Z.pred (Z.of_nat (Datatypes.S n))) with (Z.of_nat n) by lia.
  replace (Z.succ (first + i)) with (first + (i + 1)) by lia.
  destruct (Hv) as (Hd & Hgv & [_ Hs0]). destruct (disk_byte v (first + i) Hd Hlba) as [Hlen _].
  rewrite Hs0 in Hlen by done.
  destruct (Z.leb_spec count (Z.of_nat (length out))) as [Hfull|Hmore].
  { apply wp_ret. split; [done|]. split; [done|]. split; [|split; lia].
    replace (Z.to_nat (count - Z.of_nat (length out))) with 0%nat by lia. by rewrite take_0, app_nil_r. }
  destruct (Z.leb_spec 512 skip) as [Hskip|Hread].
  - eapply wp_mono; [apply (IH (i + 1) (skip - 512) out v); (done || lia)|].
    intros [[failed skip'] out'] v' (Hv' & -> & -> & Hsk & Hlt). split; [done|]. split; [done|]. split.
    + rewrite (drop_app_ge (disk_of v0 (first + i))) by lia. do 3 f_equal. lia.
    + split; [done|]. intros Hl. rewrite Hlt by done. lia.
  - rewrite (wrap_small 32 (first + i)) by (unfold lba_ok in Hlba; lia). apply wp_bind. eapply wp_mono; [by apply dev_read_wp|].
    intros r v1 (Hd1 & Hs1 & Hr & Hg1). destruct (Hg1 Hgv) as [Hgv1 [sector ->]].
    rewrite (Hr sector eq_refl), Hs0 by done. rewrite wrap_small by lia.
    set (tc := if 512 - skip <? count - Z.of_nat (length out) then 512 - skip else count - Z.of_nat (length out)).
    assert (Htc : tc = Z.min (512 - skip) (count - Z.of_nat (length out))) by (unfold tc; case_if; lia).
    apply wp_bind. eapply wp_run; [apply copy_from_Done; lia|].
    set (l := slice skip tc (disk_of v0 (first + i))).
    assert (Hll : Z.of_nat (length l) = tc) by (unfold l; rewrite length_slice; lia).
    assert (Hl : l = take (Z.to_nat (count - Z.of_nat (length out))) (drop (Z.to_nat skip) (disk_of v0 (first + i)))).
    { unfold l, slice. rewrite Htc. destruct (decide (512 - skip <= count - Z.of_nat (length out))).
      - rewrite !take_ge; [done|rewrite length_drop; lia|rewrite length_drop; lia].
      - f_equal. lia. }
    eapply wp_mono.
    { apply (IH (i + 1) 0 (out ++ l) v1); try lia.
      - eapply reads_trans; [done|by split].
      - rewrite length_app. lia. }
    intros [[failed skip'] out'] v' (Hv' & -> & -> & Hsk & Hlt). split; [done|]. split; [done|]. split.
    + rewrite <- app_assoc. f_equal. rewrite take_drop_app. rewrite <- Hl. f_equal.
      rewrite length_app. rewrite drop_0.
      replace (Z.to_nat skip - length (disk_of v0 (first + i)))%nat with 0%nat by lia. rewrite drop_0. f_equal. lia.
    + split; [done|]. intros Hlt'. rewrite Hlt by done. lia.
Qed.

Lemma read_clusters_wp v0 v fuel c cs count skip out :
  fat_ok v0 → reads v0 v → chain_list (fat_at v0 0) c cs → Forall (λ c, c <= last_cluster (v_fs v0)) cs →
  (length cs < fuel)%nat → 0 <= skip < 2 ^ 32 → 0 <= count < 2 ^ 32 → Z.of_nat (length out) <= count →
  wp (read_clusters fuel c 512 count skip out) (λ r v', reads v0 v' ∧
    r = (false, out ++ take (Z.to_nat (count - Z.of_nat (length out))) (drop (Z.to_nat skip) (file_data v0 cs)))) v.
Proof.
  intros Hok Hv0 Hch. revert fuel v skip out Hv0.
  induction Hch as [c Hv|c cs Hv Hch IH]; intros [|fuel] v skip out Hv0 Hall Hfuel Hs Hc Ho;
    cbn [length] in *; try lia; cbn [read_clusters]; rewrite Hv; cbn [andb].
  { apply wp_ret. split; [done|]. change (file_data v0 []) with (@nil Z). by rewrite drop_nil, take_nil, app_nil_r. }
  destruct (Z.ltb_spec (Z.of_nat (length out)) count) as [Hmore|Hfull].
  2:{ apply wp_ret. split; [done|]. replace (Z.to_nat (count - Z.of_nat (length out))) with 0%nat by lia.
      by rewrite take_0, app_nil_r. }
  apply Forall_cons in Hall as [Hlast Hall]. apply valid_range in Hv.
  pose proof (fo_geom _ Hok) as Hg. destruct (cluster_to_lba_eq _ c Hg ltac:(lia)) as (El & Hl0 & _ & Hl1).
  pose proof (g_spc _ Hg) as Hspc.
  apply wp_bind. unfold fs_get. apply wp_bind, wp_get, wp_ret. rewrite (reads_fs _ _ Hv0).
  apply wp_bind. eapply wp_mono; [apply (read_sectors_wp v0); (done || lia)|].
  intros [[failed skip'] out'] v1 (Hv1 & -> & Hout & Hsk & Hskip). rewrite Z.add_0_r in Hout.
  rewrite Z2Nat.id in * by lia. rewrite El in Hout. fold (cluster_sectors (v_fs v0) c) in Hout.
  apply wp_bind. eapply wp_mono; [apply (next_cluster_wp v0 v1 c); [done|done|apply cluster_in_fat; [done|lia]]|].
  intros r v2 (Hv2 & ->). set (D := sectors_data (disk_of v0) (cluster_sectors (v_fs v0) c)) in *.
  assert (HD : Z.of_nat (length D) = cluster_size (v_fs v0)) by (apply cluster_data_length; [apply Hok|done|lia]).
  unfold cluster_size in HD.
  set (p := take (Z.to_nat (count - Z.of_nat (length out))) (drop (Z.to_nat skip) D)) in *.
  assert (Hp : (length p <= Z.to_nat (count - Z.of_nat (length out)))%nat) by (unfold p; rewrite length_take; lia).
  assert (Hlo : length out' = (length out + length p)%nat) by (by rewrite Hout, length_app).
  destruct (decide (Z.of_nat (length out') < count)) as [Hlt|Hge].
  - eapply wp_mono; [apply IH; [done|done|lia|rewrite Hskip by done; lia|done|lia]|].
    intros r v3 [Hv3 ->]. split; [done|]. f_equal. rewrite Hout at 1. rewrite <- app_assoc. f_equal.
    rewrite file_data_cons. fold D. rewrite take_drop_app. fold p. f_equal. rewrite Hskip by done. f_equal; [lia|].
    f_equal. lia.
  - destruct fuel as [|fuel]; [lia|]. cbn [read_clusters].
    rewrite (proj2 (Z.ltb_ge _ _)) by lia. rewrite andb_false_r. apply wp_ret. split; [done|].
    f_equal. rewrite Hout. f_equal. rewrite file_data_cons. fold D. rewrite take_drop_app. fold p.
    replace (Z.to_nat (count - Z.of_nat (length out)) - length p)%nat with 0%nat by lia. by rewrite take_0, app_nil_r.
Qed.

Lemma skip_clusters_wp v0 v fuel c cs skip :
  fat_ok v0 → reads v0 v → chain_list (fat_at v0 0) c cs → Forall (λ c, c <= last_cluster (v_fs v0)) cs →
  0 <= skip < Z.of_nat (length cs) * cluster_size (v_fs v0) →
  skip < Z.of_nat fuel * cluster_size (v_fs v0) →
  wp (skip_clusters fuel c skip (cluster_size (v_fs v0))) (λ r v', reads v0 v' ∧
    ∃ c' skip' pre post, r = Some (c', skip') ∧ cs = pre ++ post ∧ chain_list (fat_at v0 0) c' post ∧
      0 <= skip' < cluster_size (v_fs v0) ∧ skip = Z.of_nat (length pre) * cluster_size (v_fs v0) + skip') v.
Proof.
  intros Hok Hv0. revert fuel c cs skip v Hv0. pose proof (fo_geom _ Hok) as Hg. pose proof (g_spc _ Hg) as Hspc.
  assert (Hcs : 0 < cluster_size (v_fs v0)) by (unfold cluster_size; lia).
  induction fuel as [|fuel IH]; intros c cs skip v Hv0 Hch Hall Hskip Hfuel; [lia|]. cbn [skip_clusters].
  destruct (Z.leb_spec (cluster_size (v_fs v0)) skip) as [Hle|Hlt].
  - inversion Hch as [|? cs' Hv Hch']; subst; [cbn in Hskip; lia|].
    apply Forall_cons in Hall as [Hlast Hall]. apply valid_range in Hv. cbn [length] in Hskip.
    apply wp_bind. eapply wp_mono; [apply (next_cluster_wp v0 v c); [done|done|apply cluster_in_fat; [done|lia]]|].
    intros r v1 (Hv1 & ->).
    inversion Hch' as [? Hinv|? cs'' Hv' Hch'']; subst; [cbn in Hskip; lia|]. rewrite Hv'.
    eapply wp_mono; [apply (IH (fat_at v0 0 c) (fat_at v0 0 c :: cs'') _ v1); try done; lia|].
    intros r v2 (Hv2 & c' & skip' & pre & post & -> & Ecs & Hpost & Hr & Es). split; [done|].
    exists c', skip', (c :: pre), post. split; [done|]. split; [by rewrite Ecs|]. split; [done|].
    split; [done|]. cbn [length]. lia.
  - apply wp_ret. split; [done|]. exists c, skip, [], cs. split; [done|]. split; [done|]. split; [done|]. cbn. lia.
Qed.

Lemma on_vol_wp {A} (m : st (vol S) A) (Q : A → fat_state S → Prop) s :
  wp m (λ a v, Q a (FatState v (f_itab s))) (f_vol s) → wp (on_vol m) Q s.
Proof. unfold wp, on_vol. by destruct (m (f_vol s)) as [[a v]|e]. Qed.

Lemma get_inode_wp i ino (Q : fat_inode → fat_state S → Prop) s :
  inodes (f_itab s) !! i = Some ino → Q ino s → wp (get_inode i) Q s.
Proof. intros Hi HQ. unfold get_inode. apply wp_bind, wp_get. by eapply wp_run; [rewrite Hi|]. Qed.

Lemma i64_small x : 0 <= x < 2 ^ 63 → i64 x = x.
Proof. intros. apply swrap_small; lia. Qed.

Lemma file_read_wp v ino count offset cs :
  fat_ok v → good v → file_chain v (first_cluster_low (i_ent ino)) cs →
  0 <= i_size ino <= Z.of_nat (length cs) * cluster_size (v_fs v) → i_size ino < 2 ^ 32 →
  0 <= offset < 2 ^ 32 → 0 <= count < 2 ^ 32 →
  wp (file_read ino count offset) (λ r v', reads v v' ∧
    r = (let bytes := slice offset (Z.min count (i_size ino - offset)) (file_data v cs) in
         (Z.of_nat (length bytes), bytes))) v.
Proof.
  intros Hok Hgv [Hch Hlast Hlen] Hsz Hsz32 Hoff Hcount. pose proof (fo_geom _ Hok) as Hg.
  pose proof (g_spc _ Hg) as Hspc. assert (Hself : reads v v) by (split; [apply Hok|split; [done|apply same_vol_refl]]).
  unfold file_read. rewrite (i64_small (i_size ino)), (i64_small count), (i64_small (offset + count)) by lia.
  destruct (Z.leb_spec (i_size ino) offset) as [Hend|Hin].
  { apply wp_ret. split; [done|]. unfold slice. replace (Z.to_nat (Z.min count (i_size ino - offset))) with 0%nat by lia.
    by rewrite take_0. }
  set (n := if i_size ino <? offset + count then u64 (i_size ino - offset) else count).
  assert (Hn : n = Z.min count (i_size ino - offset)) by (unfold n; case_if; [rewrite wrap_small|]; lia).
  rewrite <- Hn. apply wp_bind. unfold fs_get. apply wp_bind, wp_get, wp_ret. rewrite (g_bps _ Hg).
  rewrite (wrap_small 32 (512 * _)) by lia. rewrite (wrap_small 32 offset) by lia.
  fold (cluster_size (v_fs v)). assert (Hcs : 0 < cluster_size (v_fs v)) by (unfold cluster_size; lia).
  apply wp_bind. eapply wp_mono.
  { apply (skip_clusters_wp v v); [done|done|done|done|lia|]. unfold skip_fuel. case_if; [lia|].
    pose proof (Z.div_mod offset (cluster_size (v_fs v)) ltac:(lia)).
    pose proof (Z.mod_pos_bound offset (cluster_size (v_fs v)) ltac:(lia)).
    pose proof (Z.div_pos offset (cluster_size (v_fs v)) ltac:(lia) ltac:(lia)). lia. }
  intros r v1 (Hv1 & c' & skip' & pre & post & -> & -> & Hpost & Hskip & Eoff).
  apply Forall_app in Hlast as [Hpre Hlast]. rewrite length_app in *.
  apply wp_bind. eapply wp_mono.
  { apply (read_clusters_wp v v1 _ c' post); [done|done|done|done| | |lia|cbn [length]; lia].
    - pose proof cluster_fuel_spec. unfold copy_fuel. lia.
    - unfold cluster_size in Hskip. lia. }
  intros r v2 [Hv2 ->]. apply wp_ret. split; [done|]. cbn [andb app length]. rewrite Z.sub_0_r.
  assert (Epre : Z.of_nat (length (file_data v pre)) = Z.of_nat (length pre) * cluster_size (v_fs v)).
  { apply file_data_length; [apply Hok|done|]. apply (Forall_app (λ c, 2 <= c <= last_cluster (v_fs v)) pre post).
    apply (chain_clusters v (first_cluster_low (i_ent ino))); [done|by apply Forall_app]. }
  unfold slice. rewrite file_data_app, drop_app_ge by lia.
  by replace (Z.to_nat offset - length (file_data v pre))%nat with (Z.to_nat skip') by lia.
Qed.

Lemma fat16_read_wp (s : fat_state S) inode ino cs count offset :
  inodes (f_itab s) !! inode = Some ino → fat_ok (f_vol s) → good (f_vol s) →
  file_chain (f_vol s) (first_cluster_low (i_ent ino)) cs →
  0 <= i_size ino <= Z.of_nat (length cs) * cluster_size (v_fs (f_vol s)) →
  i_size ino < 2 ^ 32 → 0 <= offset < 2 ^ 32 → 0 <= count < 2 ^ 32 →
  wp (fat16_read inode count offset) (λ r s', reads (f_vol s) (f_vol s') ∧ f_itab s' = f_itab s ∧
    r = (let bytes := slice offset (Z.min count (i_size ino - offset)) (file_data (f_vol s) cs) in
         (Z.of_nat (length bytes), bytes))) s.
Proof.
  intros Hino Hok Hg Hch Hfits Hsz Hoff Hcount. unfold fat16_read. eapply wp_bind, get_inode_wp; [done|].
  apply on_vol_wp. eapply wp_mono; [by apply (file_read_wp _ ino count offset cs)|].
  intros r v' [Hv' ->]. by split.
Qed.
End lemmas.

(** ** Theorems *)

Section theorems.
Context {S : Type} `{!sector_dev S} `{!SectorDevLaws S}.

(** Reading [count] bytes at [offset] of a file on a sound volume whose
    device answers always succeeds and stores exactly the bytes
    [offset, min(offset + count, size)) of the file, the concatenation of the
    sectors of its cluster chain; it returns their number, so 0 at or past the
    end, and changes neither the volume nor an inode. *)
Theorem fat16_read_slice (s : fat_state S) inode ino cs count offset
  (Hino : inodes (f_itab s) !! inode = Some ino)
  (Hok : fat_ok (f_vol s)) (Hgood : good (f_vol s))
  (Hchain : file_chain (f_vol s) (first_cluster_low (i_ent ino)) cs)
  (Hfits : 0 <= i_size ino <= Z.of_nat (length cs) * cluster_size (v_fs (f_vol s)))
  (Hsize : i_size ino < 2 ^ 32) (Hoffset : 0 <= offset < 2 ^ 32) (Hcount : 0 <= count < 2 ^ 32) :
  ∃ s', fat16_read inode count offset s =
      Done (let bytes := slice offset (Z.min count (i_size ino - offset)) (file_data (f_vol s) cs) in
            (Z.of_nat (length bytes), bytes), s') ∧
    reads (f_vol s) (f_vol s') ∧ f_itab s' = f_itab s.
Proof.
  destruct (wp_elim _ _ _ (fat16_read_wp s inode ino cs count offset Hino Hok Hgood Hchain Hfits Hsize Hoffset Hcount))
    as (r & s' & E & Hr & Ht & ->).
  by exists s'.
Qed.
End theorems.

(** ** Witnesses

    The file of 700 bytes on the clusters 4 and 5 of the volume in memory. *)

Definition demo_inode : fat_inode :=
  Inode 700 FAT16_MODE_FILE (set_size 700 (set_first 4 zero_entry)) (Loc 3 0).
Definition demo_state : fat_state ram := FatState demo_vol (Itab {[ 0x1000 := demo_inode ]} []).

Lemma demo_chain : file_chain demo_vol 4 [4; 5].
Proof.
  split.
  - apply chain_cons; [reflexivity|]. rewrite demo_fat_at; [|lia|unfold in_fat; cbn; lia].
    apply chain_cons; [reflexivity|]. rewrite demo_fat_at; [|lia|unfold in_fat; cbn; lia].
    apply chain_nil. reflexivity.
  - apply (bool_decide_unpack _). by vm_compute.
  - cbn. lia.
Qed.

Lemma fat16_read_slice_witness :
  ∃ s', fat16_read 0x1000 300 600 demo_state =
    Done (let bytes := slice 600 100 (file_data demo_vol [4; 5]) in (Z.of_nat (length bytes), bytes), s').
Proof.
  destruct (fat16_read_slice demo_state 0x1000 demo_inode [4; 5] 300 600) as (s' & E & _).
  - reflexivity.
  - exact demo_vol_ok.
  - exact I.
  - exact demo_chain.
  - cbn [i_size demo_inode length]. change (cluster_size _) with 512. lia.
  - cbn [i_size demo_inode]. lia.
  - lia.
  - lia.
  - exists s'. exact E.
Defined.
