(* ===== verification/Fat16Write.v ===== *)
(** * FAT16: what a write leaves on the disk (fat16_write of lizard/fat16.c)

    A write inside the clusters a file already has: the sectors of the chain
    hold the old bytes with the buffer laid over them, the tables and every
    other sector but the one of the directory entry keep theirs, and the entry
    on the disk has the new size. *)

From S2P Require Import Prelude CString Bytes Ktime SectorDev Fat16Table Fat16Dir Fat16.

Local Open Scope Z_scope.

(** ** Specification *)

(** [D] with [new] laid over it from [skip] on; what does not fit is dropped. *)
Definition overwrite (skip : nat) (new D : list Z) : list Z :=
  take skip D ++ take (length D - skip) new ++ drop (skip + length new) D.

(** The device still answers and only the sectors [ks] may have other bytes. *)
Definition writes {S} `{!sector_dev S} (ks : list Z) (v v' : vol S) : Prop :=
  sd_ok (v_dev v') ∧ good v' ∧ v' = with_dev (v_dev v') v ∧
  ∀ k, lba_ok k → k ∉ ks → disk_of v' k = disk_of v k.

(** The sectors of a chain of clusters. *)
Definition file_sectors (fs : fat16) (cs : list Z) : list Z := concat (cluster_sectors fs <$> cs).

(** What a write of the sectors [K] of a cluster has done to them, to the rest
    of the buffer and to the local buffer. *)
Definition sectors_written {S} `{!sector_dev S} (v v' : vol S) (K : list Z) (skip : Z) (buf : list Z) (done : Z)
    (r : bool * Z * Z * list Z) : Prop :=
  let '(out, skip', done', sector) := r in
  writes K v v' ∧ out = false ∧
  sectors_data (disk_of v') K =
    overwrite (Z.to_nat skip) (drop (Z.to_nat done) buf) (sectors_data (disk_of v) K) ∧
  done' = done + Z.min (Z.of_nat (length buf) - done) (Z.max 0 (512 * Z.of_nat (length K) - skip)) ∧
  0 <= skip' ∧ (done' < Z.of_nat (length buf) → skip' = Z.max 0 (skip - 512 * Z.of_nat (length K))) ∧
  length sector = 512%nat ∧ Forall byte sector.

(** A directory slot in the root directory or in the data region, outside the
    sectors [ks]. *)
Definition slot_apart {S} `{!sector_dev S} (v : vol S) (ks : list Z) (loc : fat16_dir_loc) : Prop :=
  lba_ok (lba loc) ∧ 0 <= off loc ∧ off loc + 32 <= 512 ∧ root_dir_lba (v_fs v) <= lba loc ∧ lba loc ∉ ks.

(** A file in memory with the clusters [cs]. *)
Record file_inode {S} `{!sector_dev S} (v : vol S) (ino : fat_inode) (cs : list Z) : Prop := {
  fi_wf : wf_entry (i_ent ino);
  fi_file : is_dir (i_ent ino) = false;
  fi_size : file_size_bytes (i_ent ino) = i_size ino;
  fi_chain : file_chain v (first_cluster_low (i_ent ino)) cs;
  fi_fits : i_size ino <= Z.of_nat (length cs) * cluster_size (v_fs v) < 2 ^ 32;
  fi_slot : slot_apart v (file_sectors (v_fs v) cs) (i_loc ino)
}.

(** The entry of the file on the disk is the one in memory. *)
Definition entry_saved {S} `{!sector_dev S} (v : vol S) (ino : fat_inode) : Prop :=
  dir_of (slice (off (i_loc ino)) 32 (disk_of v (lba (i_loc ino)))) = i_ent ino.

(** ** Lemmas on bytes *)

Lemma overwrite_nil skip D : overwrite skip [] D = D.
Proof. unfold overwrite. rewrite take_nil. cbn [app length]. by rewrite Nat.add_0_r, take_drop. Qed.

Lemma overwrite_length skip new D : length (overwrite skip new D) = length D.
Proof. unfold overwrite. rewrite !length_app, !length_take, length_drop. lia. Qed.

Lemma overwrite_lookup skip new D i :
  overwrite skip new D !! i =
    if bool_decide (skip <= i < skip + length new ∧ i < length D)%nat then new !! (i - skip)%nat else D !! i.
Proof.
  unfold overwrite. rewrite lookup_app, length_take.
  destruct (decide (i < skip)%nat) as [Hi|Hi].
  { rewrite bool_decide_eq_false_2 by lia. rewrite lookup_take_lt by done.
    destruct (D !! i) as [x|] eqn:E; [done|]. apply lookup_ge_None in E.
    rewrite lookup_app_r by (rewrite length_take; lia). rewrite lookup_drop. apply lookup_ge_None. rewrite length_take. lia. }
  rewrite lookup_take_ge by lia. rewrite lookup_app, length_take.
  destruct (decide (i < length D)%nat) as [Hd|Hd].
  - rewrite (Nat.min_l skip) by lia. destruct (decide (i < skip + length new)%nat) as [Hn|Hn].
    + rewrite bool_decide_eq_true_2 by lia. rewrite lookup_take_lt by lia.
      destruct (new !! (i - skip)%nat) eqn:E; [done|]. apply lookup_ge_None in E. lia.
    + rewrite bool_decide_eq_false_2 by lia.
      rewrite lookup_ge_None_2 by (rewrite length_take; lia). rewrite lookup_drop. f_equal. lia.
  - rewrite bool_decide_eq_false_2 by lia. rewrite (proj2 (lookup_ge_None D i)) by lia.
    rewrite lookup_ge_None_2 by (rewrite length_take; lia). rewrite lookup_drop. apply lookup_ge_None. lia.
Qed.

Lemma overwrite_app skip new D1 D2 :
  overwrite skip new (D1 ++ D2) =
  overwrite skip new D1 ++ overwrite (skip - length D1) (drop (length D1 - skip) new) D2.
Proof.
  apply list_eq. intros i. rewrite overwrite_lookup, length_app.
  destruct (decide (i < length D1)%nat).
  - rewrite !lookup_app_l by (rewrite ?overwrite_length; lia). rewrite overwrite_lookup.
    repeat case_bool_decide; done || lia.
  - rewrite !lookup_app_r by (rewrite ?overwrite_length; lia). rewrite overwrite_length, overwrite_lookup, length_drop.
    rewrite lookup_drop. repeat case_bool_decide; try lia; [|done]. f_equal. lia.
Qed.

Lemma overwrite_splice off new l :
  0 <= off → off + Z.of_nat (length new) <= Z.of_nat (length l) → overwrite (Z.to_nat off) new l = splice off new l.
Proof. intros. unfold overwrite, splice. by rewrite (take_ge new) by lia. Qed.

Lemma overwrite_ge skip new D : (length D <= skip)%nat → overwrite skip new D = D.
Proof.
  intros H. unfold overwrite. rewrite take_ge by done. replace (length D - skip)%nat with 0%nat by lia.
  rewrite drop_ge by lia. by rewrite take_0, !app_nil_r.
Qed.

(** The chunk of one sector. *)
Lemma overwrite_chunk skip rest D :
  overwrite skip rest D = overwrite skip (take (length D - skip) rest) D.
Proof.
  apply list_eq. intros i. rewrite !overwrite_lookup, length_take.
  repeat case_bool_decide; try lia; [|done]. by rewrite lookup_take_lt by lia.
Qed.

Lemma overwrite_byte skip new D : Forall byte new → Forall byte D → Forall byte (overwrite skip new D).
Proof.
  intros Hn Hd. unfold overwrite. apply Forall_app. split; [by apply Forall_take|].
  apply Forall_app. split; [by apply Forall_take|by apply Forall_drop].
Qed.

(** ** Lemmas on volumes *)

Section lemmas.
Context {S : Type} `{!sector_dev S} `{!SectorDevLaws S}.
Implicit Types v : vol S.

Lemma reads_writes ks v v' : reads v v' → writes ks v v'.
Proof. intros (Hd & Hg & E & H). split; [done|]. split; [done|]. split; [done|]. intros k Hk _. by apply H. Qed.

Lemma writes_mono ks1 ks2 v v' : ks1 ⊆ ks2 → writes ks1 v v' → writes ks2 v v'.
Proof. intros Hs (Hd & Hg & E & H). split; [done|]. split; [done|]. split; [done|]. intros k Hk Hn. apply H; [done|set_solver]. Qed.

Lemma writes_trans ks v1 v2 v3 : writes ks v1 v2 → writes ks v2 v3 → writes ks v1 v3.
Proof.
  intros (_ & _ & E1 & H1) (Hd & Hg & E2 & H2). split; [done|]. split; [done|].
  split; [rewrite E2, E1; by destruct v1|]. intros k Hk Hn. by rewrite H2, H1.
Qed.

Lemma writes_fs ks v v' : writes ks v v' → v_fs v' = v_fs v.
Proof. by intros (_ & _ & -> & _). Qed.

(** Writes outside the tables keep the volume sound and the tables as they are. *)
Lemma writes_fat_at ks v v' f c : fat_ok v → writes ks v v' → Forall (λ k, root_dir_lba (v_fs v) <= k) ks →
  0 <= f < num_fats (header (v_fs v)) → in_fat (v_fs v) c → fat_at v' f c = fat_at v f c.
Proof.
  intros Hok Hw Hks Hf Hc. unfold fat_at. rewrite (writes_fs _ _ _ Hw).
  destruct (fat_sector_range _ _ _ (fo_geom v Hok) Hf Hc) as (_ & _ & Hroot & Hlba).
  destruct Hw as (_ & _ & _ & ->); [done|done|]. intros Hin. rewrite Forall_forall in Hks.
  pose proof (Hks _ Hin). lia.
Qed.

Lemma writes_fat_ok ks v v' : fat_ok v → writes ks v v' → Forall (λ k, root_dir_lba (v_fs v) <= k) ks → fat_ok v'.
Proof.
  intros Hok Hw Hks. pose proof (writes_fs _ _ _ Hw) as Efs. pose proof (g_fats _ (fo_geom v Hok)) as Hf0.
  split; [apply Hw|by rewrite Efs; apply Hok|..]; rewrite Efs.
  - intros l Hl. destruct (fo_cache v Hok l Hl) as (? & ? & Hc). split; [done|]. split; [done|].
    intros c Hin. rewrite (writes_fat_at ks v v') by (done || lia). by apply Hc.
  - intros f c Hf Hc. rewrite !(writes_fat_at ks v v') by (done || lia). by apply Hok.
Qed.

Lemma sectors_data_ext disk disk' ks : (∀ k, k ∈ ks → disk' k = disk k) → sectors_data disk' ks = sectors_data disk ks.
Proof. intros H. unfold sectors_data. f_equal. apply list_fmap_ext. intros i k Hk. apply H. by eapply list_elem_of_lookup_2. Qed.

Lemma dev_write_good_wp v lba l :
  sd_ok (v_dev v) → good v → lba_ok lba → length l = 512%nat → Forall byte l →
  wp (dev_write lba l) (λ r v', r = Some tt ∧ writes [lba] v v' ∧ disk_of v' lba = l) v.
Proof.
  intros Hok Hg Hlba Hl Hb. eapply wp_mono; [by apply dev_write_wp|].
  intros r v' (Hd & E & Hget & Hgd). destruct (Hgd Hg) as [Hg' ->]. split; [done|]. split; [|].
  - split; [done|]. split; [done|]. split; [done|]. intros k Hk Hn. rewrite Hget by done.
    rewrite bool_decide_eq_false_2; [done|]. intros [_ ->]. apply Hn. by left.
  - rewrite Hget by done. by rewrite bool_decide_eq_true_2.
Qed.

Lemma write_sector_wp v k skip buf done sector :
  sd_ok (v_dev v) → good v → lba_ok k → 0 <= skip < 512 → 0 <= done < Z.of_nat (length buf) →
  length sector = 512%nat → Forall byte sector → Forall byte buf →
  let chunk := if 512 - skip <? Z.of_nat (length buf) - done then 512 - skip else Z.of_nat (length buf) - done in
  wp (write_sector k skip buf done 512 chunk sector) (λ r v', writes [k] v v' ∧ ∃ sector', r = Some sector' ∧ disk_of v' k = sector' ∧
        length sector' = 512%nat ∧ Forall byte sector' ∧
        sector' = overwrite (Z.to_nat skip) (drop (Z.to_nat done) buf) (disk_of v k)) v.
Proof.
  intros Hok Hg Hk Hskip Hdone Hlen Hb Hbuf chunk.
  assert (Hchunk : chunk = Z.min (512 - skip) (Z.of_nat (length buf) - done)) by (unfold chunk; case_if; lia).
  destruct (disk_byte v k Hok Hk) as [Hdlen Hdb].
  set (base := if negb (skip =? 0) || negb (chunk =? 512) then disk_of v k else sector).
  assert (Hbase : length base = 512%nat ∧ Forall byte base) by (unfold base; case_if; done).
  destruct Hbase as [Hbl Hbb].
  unfold write_sector. apply wp_try. eapply (wp_mono _ (λ r v1, reads v v1 ∧ r = Some base)).
  { unfold base. case_if.
    - eapply wp_mono; [by apply dev_read_wp|]. intros r v1 (Hd1 & Hs1 & Hr & Hgd). destruct (Hgd Hg) as [Hg1 [l ->]].
      split; [by split|]. by rewrite (Hr l eq_refl).
    - apply wp_ret. split; [|done]. split; [done|]. split; [done|apply same_vol_refl]. }
  intros r v1 [Hv1 ->]. apply wp_bind. eapply wp_run; [apply copy_from_Done; lia|].
  assert (Hsl : length (slice done chunk buf) = Z.to_nat chunk) by (apply length_slice; lia).
  apply wp_bind. eapply wp_run; [apply copy_to_Done; lia|]. apply wp_try. eapply wp_mono.
  { apply dev_write_good_wp; [apply Hv1|apply Hv1|done|rewrite length_splice by lia; done|].
    apply splice_byte; [by apply slice_byte|done]. }
  intros w v2 (-> & Hw & Hget). apply wp_ret. split.
  - eapply writes_trans; [by apply reads_writes|done].
  - eexists. split; [done|]. split; [done|]. split; [rewrite length_splice by lia; done|].
    split; [apply splice_byte; [by apply slice_byte|done]|].
    rewrite overwrite_chunk. rewrite Hdlen. replace (take _ (drop _ buf)) with (slice done chunk buf).
    + rewrite overwrite_splice by lia. unfold base. case_if; [done|]. breflect.
      unfold splice. replace (Z.to_nat skip) with 0%nat by lia. by rewrite !take_0, !drop_ge by lia.
    + unfold slice. destruct (decide (512 - skip <= Z.of_nat (length buf) - done)); [f_equal; lia|].
      rewrite !take_ge; [done|rewrite length_drop; lia|rewrite length_drop; lia].
Qed.

Lemma write_sectors_wp n : ∀ i first skip buf done sector v,
  sd_ok (v_dev v) → good v → 0 <= first → 0 <= i → first + i + Z.of_nat n <= 2 ^ 32 → 0 <= skip →
  0 <= done <= Z.of_nat (length buf) → Z.of_nat (length buf) < 2 ^ 32 →
  length sector = 512%nat → Forall byte sector → Forall byte buf →
  wp (write_sectors n i first 512 skip buf done sector)
    (λ r v', sectors_written v v' (seqZ (first + i) (Z.of_nat n)) skip buf done r) v.
Proof.
  induction n as [|n IH]; intros i first skip buf done sector v Hok Hg Hf Hi Hn Hs Hd Hl Hlen Hb Hbuf;
    cbn [write_sectors].
  { apply wp_ret. change (seqZ (first + i) (Z.of_nat 0)) with (@nil Z). unfold sectors_written.
    change (sectors_data _ []) with (@nil Z). rewrite overwrite_ge by (cbn; lia). cbn [length].
    split; [|split; [done|split; [done|split; [lia|split; [lia|split; [lia|done]]]]]].
    apply reads_writes. split; [done|]. split; [done|apply same_vol_refl]. }
  assert (Hlba : lba_ok (first + i)) by (unfold lba_ok; lia).
  rewrite seqZ_cons by lia. replace (Z.pred (Z.of_nat (Datatypes.S n))) with (Z.of_nat n) by lia.
  replace (Z.succ (first + i)) with (first + (i + 1)) by lia.
  set (K := seqZ (first + (i + 1)) (Z.of_nat n)).
  assert (HK : length K = n) by (unfold K; rewrite length_seqZ; lia).
  destruct (disk_byte v (first + i) Hok Hlba) as [Hdlen _].
  destruct (Z.leb_spec (Z.of_nat (length buf)) done) as [Hfull|Hmore].
  { apply wp_ret. unfold sectors_written. rewrite drop_ge, overwrite_nil by lia. cbn [length].
    split; [|split; [done|split; [done|split; [lia|split; [lia|split; [lia|done]]]]]].
    apply reads_writes. split; [done|]. split; [done|apply same_vol_refl]. }
  destruct (Z.leb_spec 512 skip) as [Hskip|Hread].
  - eapply wp_mono; [apply (IH (i + 1) first (skip - 512)); (done || lia)|].
    intros [[[out skip'] done'] sector'] v' (Hw & -> & Hdata & -> & Hs0 & Hs' & Hsec). fold K in Hw, Hdata, Hs' |- *.
    rewrite HK in *. split; [eapply writes_mono; [|done]; set_solver|]. split; [done|]. cbn [length]. rewrite HK.
    split; [|split; [lia|split; [lia|split; [|done]]]].
    + rewrite !sectors_data_cons, overwrite_app. rewrite overwrite_ge by lia. rewrite Hdata. f_equal.
      * destruct Hw as (_ & _ & _ & ->); [done|done|]. unfold K. rewrite elem_of_seqZ. lia.
      * rewrite Hdlen. f_equal; [lia|]. by replace (512 - Z.to_nat skip)%nat with 0%nat by lia.
    + intros Hlt. rewrite Hs' by done. lia.
  - set (chunk := if 512 - skip <? Z.of_nat (length buf) - done then 512 - skip else Z.of_nat (length buf) - done).
    assert (Hchunk : chunk = Z.min (512 - skip) (Z.of_nat (length buf) - done)) by (unfold chunk; case_if; lia).
    rewrite (wrap_small 32 (first + i)) by (unfold lba_ok in Hlba; lia).
    apply wp_bind. eapply wp_mono; [apply (write_sector_wp v (first + i) skip buf done sector); (done || lia)|].
    intros r v1 (Hw1 & sector1 & -> & Hget1 & Hlen1 & Hb1 & Hsec1). rewrite (wrap_small 32 (done + chunk)) by lia.
    eapply wp_mono; [apply (IH (i + 1) first 0 buf (done + chunk) sector1 v1); try done; try lia; apply Hw1|].
    intros [[[out skip'] done'] sector'] v' (Hw & -> & Hdata & -> & Hs0 & Hs' & Hsec). fold K in Hw, Hdata, Hs' |- *.
    rewrite HK in *. split; [|split; [done|]].
    { eapply writes_trans; eapply writes_mono; [|exact Hw1| |exact Hw]; set_solver. }
    cbn [length]. rewrite HK. split; [|split; [lia|split; [lia|split; [|done]]]].
    + rewrite !sectors_data_cons, overwrite_app, Hdata. f_equal.
      * destruct Hw as (_ & _ & _ & ->); [by rewrite Hget1|done|]. unfold K. rewrite elem_of_seqZ. lia.
      * rewrite Hdlen. replace (Z.to_nat skip - 512)%nat with 0%nat by lia. rewrite drop_drop. f_equal.
        -- destruct (decide (512 - skip <= Z.of_nat (length buf) - done)); [f_equal; lia|].
           rewrite !drop_ge by lia. done.
        -- apply sectors_data_ext. intros k Hk. destruct Hw1 as (_ & _ & _ & ->); [done|..].
           ++ unfold K in Hk. apply elem_of_seqZ in Hk. unfold lba_ok. lia.
           ++ unfold K in Hk. apply elem_of_seqZ in Hk. rewrite list_elem_of_singleton. lia.
    + intros Hlt. rewrite Hs' by done. lia.
Qed.

(** ** The chain *)

Lemma chain_list_ext (f g : Z → Z) c cs : chain_list f c cs → (∀ d, d ∈ cs → g d = f d) → chain_list g c cs.
Proof.
  induction 1 as [c Hv|c cs Hv Hch IH]; intros Hfg; [by constructor|].
  constructor; [done|]. rewrite Hfg by left. apply IH. intros d Hd. apply Hfg. by right.
Qed.

Lemma chain_list_unique f c l1 l2 : chain_list f c l1 → chain_list f c l2 → l1 = l2.
Proof.
  intros H. revert l2. induction H as [c Hv|c cs Hv Hch IH]; intros l2 H2; inversion H2; subst; try congruence.
  f_equal. by apply IH.
Qed.

Lemma chain_list_suffix f c l1 d l2 : chain_list f c (l1 ++ d :: l2) → chain_list f d (d :: l2).
Proof.
  revert c. induction l1 as [|x l1 IH]; intros c H; cbn [app] in H.
  - inversion H; subst. done.
  - inversion H; subst. by eapply IH.
Qed.

(** A chain that ends has no cluster twice. *)
Lemma chain_list_NoDup f c cs : chain_list f c cs → NoDup cs.
Proof.
  induction 1 as [c Hv|c cs Hv Hch IH]; [constructor|]. constructor; [|done]. intros Hin.
  apply list_elem_of_split in Hin as (l1 & l2 & E).
  assert (H1 : chain_list f c (c :: cs)) by (by constructor). rewrite E in H1 at 1.
  rewrite app_comm_cons in H1. apply chain_list_suffix in H1.
  assert (c :: l2 = c :: cs) as E2 by (eapply chain_list_unique; [done|by constructor]).
  injection E2 as E2. rewrite E in E2. apply (f_equal length) in E2. rewrite length_app in E2. cbn in E2. lia.
Qed.

Lemma cluster_sectors_disjoint fs c d k :
  0 < sectors_per_cluster (header fs) → k ∈ cluster_sectors fs c → k ∈ cluster_sectors fs d → c = d.
Proof. unfold cluster_sectors. rewrite !elem_of_seqZ. intros. nia. Qed.

Lemma list_elem_of_concat {A} (x : A) ls : x ∈ concat ls → ∃ l, x ∈ l ∧ l ∈ ls.
Proof.
  induction ls as [|l ls IH]; cbn [concat]; [set_solver|]. intros [H|H]%elem_of_app.
  - exists l. split; [done|by left].
  - apply IH in H as (l' & ? & ?). exists l'. split; [done|by right].
Qed.

Lemma file_sectors_split fs c cs k : k ∈ concat (cluster_sectors fs <$> cs) →
  c ∉ cs → 0 < sectors_per_cluster (header fs) → k ∉ cluster_sectors fs c.
Proof.
  intros Hk Hc Hspc Hkc. apply list_elem_of_concat in Hk as (l & Hk & Hl).
  apply list_elem_of_fmap in Hl as (d & -> & Hd).
  by rewrite (cluster_sectors_disjoint fs c d k Hspc Hkc Hk) in Hc.
Qed.

Lemma file_sectors_root v cs :
  geom (v_fs v) → Forall (λ c, 2 <= c <= last_cluster (v_fs v)) cs →
  Forall (λ k, lba_ok k ∧ root_dir_lba (v_fs v) <= k) (file_sectors (v_fs v) cs).
Proof.
  intros Hg Hcs. apply Forall_forall. intros k Hk. apply list_elem_of_concat in Hk as (l & Hk & Hl).
  apply list_elem_of_fmap in Hl as (d & -> & Hd). rewrite Forall_forall in Hcs. apply Hcs in Hd.
  destruct (cluster_to_lba_eq _ d Hg Hd) as (E & H0 & Hr & H1). pose proof (g_data _ Hg).
  unfold cluster_sectors in Hk. apply elem_of_seqZ in Hk. unfold lba_ok. lia.
Qed.

Lemma file_data_ext v v' cs : v_fs v' = v_fs v →
  (∀ k, k ∈ file_sectors (v_fs v) cs → disk_of v' k = disk_of v k) → file_data v' cs = file_data v cs.
Proof. intros Efs H. unfold file_data. rewrite Efs. by apply sectors_data_ext. Qed.

Lemma reads_refl v : fat_ok v → good v → reads v v.
Proof. intros Hok Hg. split; [apply Hok|]. split; [done|apply same_vol_refl]. Qed.

Lemma chain_step_wp v0 v c d cs :
  fat_ok v0 → reads v0 v → in_fat (v_fs v0) c → chain_list (fat_at v0 0) (fat_at v0 0 c) (d :: cs) →
  wp (chain_step c) (λ r v', reads v0 v' ∧ r = Some d) v.
Proof.
  intros Hok Hv Hin Hch. unfold chain_step. apply wp_bind. eapply wp_mono; [by apply (next_cluster_wp v0 v c)|].
  intros r v1 [Hv1 ->]. inversion Hch as [|? ? Hvalid Hch']; subst. rewrite Hvalid. by apply wp_ret.
Qed.

(** What writes elsewhere leave of a file. *)
Lemma writes_keep ks v v' x cs :
  fat_ok v → writes ks v v' → Forall (λ k, root_dir_lba (v_fs v) <= k) ks →
  (∀ k, k ∈ file_sectors (v_fs v) cs → k ∉ ks) → Forall (λ c, 2 <= c <= last_cluster (v_fs v)) cs →
  chain_list (fat_at v 0) x cs →
  fat_ok v' ∧ v_fs v' = v_fs v ∧ (∀ c, 2 <= c <= last_cluster (v_fs v) → fat_at v' 0 c = fat_at v 0 c) ∧
  chain_list (fat_at v' 0) x cs ∧ file_data v' cs = file_data v cs.
Proof.
  intros Hok Hw Hks Hapart Hcs Hch. pose proof (fo_geom _ Hok) as Hg. pose proof (g_fats _ Hg) as Hf0.
  assert (Hat : ∀ c, 2 <= c <= last_cluster (v_fs v) → fat_at v' 0 c = fat_at v 0 c).
  { intros c Hc. apply (writes_fat_at ks v v'); try done; [lia|]. apply cluster_in_fat; [done|lia]. }
  split; [by eapply writes_fat_ok|]. split; [by eapply writes_fs|]. split; [done|]. split.
  - eapply chain_list_ext; [done|]. intros d Hd. apply Hat. rewrite Forall_forall in Hcs. by apply Hcs.
  - apply file_data_ext; [by eapply writes_fs|]. intros k Hk. apply Hw; [|by apply Hapart].
    pose proof (file_sectors_root v cs Hg Hcs) as Hr. rewrite Forall_forall in Hr. by apply Hr.
Qed.

Lemma cluster_root v c : geom (v_fs v) → 2 <= c <= last_cluster (v_fs v) →
  Forall (λ k, lba_ok k ∧ root_dir_lba (v_fs v) <= k) (cluster_sectors (v_fs v) c).
Proof.
  intros Hg Hc. pose proof (file_sectors_root v [c] Hg (Forall_cons_2 _ _ _ Hc (Forall_nil_2 _))) as H.
  unfold file_sectors in H. cbn in H. by rewrite app_nil_r in H.
Qed.

Lemma file_sectors_cons fs c cs : file_sectors fs (c :: cs) = cluster_sectors fs c ++ file_sectors fs cs.
Proof. done. Qed.

Lemma write_clusters_wp c cs : ∀ fuel skip buf done sector v,
  fat_ok v → good v → chain_list (fat_at v 0) c cs → Forall (λ c, 2 <= c <= last_cluster (v_fs v)) cs →
  (length cs < fuel)%nat → 0 <= skip < cluster_size (v_fs v) → 0 <= done <= Z.of_nat (length buf) →
  Z.of_nat (length buf) < 2 ^ 32 → Forall byte buf →
  Z.of_nat (length buf) - done + skip <= Z.of_nat (length cs) * cluster_size (v_fs v) →
  length sector = 512%nat → Forall byte sector →
  wp (write_clusters fuel c 512 skip buf done sector) (λ r v', r = Z.of_nat (length buf) ∧
    writes (file_sectors (v_fs v) cs) v v' ∧
    file_data v' cs = overwrite (Z.to_nat skip) (drop (Z.to_nat done) buf) (file_data v cs)) v.
Proof.
  revert c. induction cs as [|c0 cs IH]; intros c [|fuel] skip buf done sector v Hok Hg Hch Hall Hfuel Hskip Hd Hlb Hbuf
    Hroom Hlen Hb; cbn [length] in *; try lia; cbn [write_clusters].
  { rewrite (proj2 (Z.ltb_ge _ _)) by lia. apply wp_ret. split; [lia|].
    rewrite drop_ge, overwrite_nil by lia. split; [|done].
    by apply reads_writes, reads_refl. }
  assert (c0 = c) as -> by (inversion Hch; done).
  pose proof (chain_list_NoDup _ _ _ Hch) as [Hnotin _]%NoDup_cons.
  destruct (Z.ltb_spec done (Z.of_nat (length buf))) as [Hmore|Hfull].
  2:{ apply wp_ret. split; [lia|]. rewrite drop_ge, overwrite_nil by lia. split; [|done].
      by apply reads_writes, reads_refl. }
  inversion Hch as [|? ? Hvalid Hch']; subst. apply Forall_cons in Hall as [Hlast Hall].
  pose proof (fo_geom _ Hok) as Hgeom. pose proof (g_spc _ Hgeom) as Hspc.
  destruct (cluster_to_lba_eq _ c Hgeom Hlast) as (El & Hl0 & _ & Hl1).
  pose proof (cluster_data_length v c (fo_dev _ Hok) Hgeom Hlast) as HD.
  pose proof (cluster_root v c Hgeom Hlast) as [Hlbac Hroot]%Forall_and.
  pose proof (cluster_sectors_ok v c Hgeom Hlast) as [_ HK].
  apply wp_bind. unfold fs_get. apply wp_bind, wp_get, wp_ret. apply wp_bind. eapply wp_mono.
  { apply (write_sectors_wp _ 0 _ skip buf done sector); try done; try lia. apply Hok. }
  rewrite Z.add_0_r, Z2Nat.id, El by lia. fold (cluster_sectors (v_fs v) c).
  intros [[[out skip'] done'] sector'] v1 (Hw & -> & Hdata & Edone & Hs0 & Hs' & Hlen' & Hb').
  assert (Hspl : ∀ k, k ∈ file_sectors (v_fs v) cs → k ∉ cluster_sectors (v_fs v) c)
    by (intros k Hk; apply (file_sectors_split _ c cs); done || lia).
  destruct (writes_keep _ v v1 _ cs Hok Hw Hroot Hspl Hall Hch') as (Hok1 & Efs1 & Hat1 & Hch1 & Hrest1).
  rewrite HK in *. rewrite file_data_cons, overwrite_app. unfold cluster_size in *.
  destruct (Z.ltb_spec done' (Z.of_nat (length buf))) as [Hlt|Hge].
  2:{ apply wp_ret. split; [lia|]. split; [eapply writes_mono; [|done]; rewrite file_sectors_cons; set_solver|].
      rewrite file_data_cons, Efs1, Hdata, Hrest1, drop_drop. f_equal. by rewrite drop_ge, overwrite_nil by lia. }
  rewrite (Hs' Hlt) in *. clear Hs'. destruct cs as [|d cs]; [cbn [length] in Hroom; lia|].
  apply wp_bind. eapply wp_mono.
  { apply (chain_step_wp v1 v1 c d cs); [done|apply reads_refl; [done|apply Hw]| |by rewrite Hat1]. rewrite Efs1. apply cluster_in_fat; [done|lia]. }
  intros r v2 [Hv2 ->]. assert (Hw12 : writes [] v1 v2) by (by apply reads_writes).
  destruct (writes_keep [] v1 v2 (fat_at v 0 c) (d :: cs) Hok1 Hw12) as (Hok2 & Efs2 & _ & Hch2 & Hrest2);
    [constructor|intros; apply not_elem_of_nil|by rewrite Efs1|done|].
  assert (d = fat_at v 0 c) as -> by (inversion Hch1; done). rewrite Efs1 in *.
  eapply wp_mono.
  { apply (IH (fat_at v 0 c) fuel _ buf done' sector' v2); rewrite ?Efs2; try done; try lia. apply Hv2. }
  rewrite Efs2. intros r v' (-> & Hw2 & Hdata2). split; [done|]. rewrite file_sectors_cons. split.
  { eapply writes_trans; [|eapply writes_trans]; (eapply writes_mono; [|done]); set_solver. }
  rewrite file_data_cons. rewrite (writes_fs _ _ _ Hw2), Efs2, Hdata2, Hrest2, Hrest1. f_equal.
  - rewrite <- Hdata. apply sectors_data_ext. intros k Hk. rewrite Forall_forall in Hlbac.
    destruct Hw2 as (_ & _ & _ & ->); [by apply Hw12; [apply Hlbac|apply not_elem_of_nil]|by apply Hlbac|].
    intros Hin. by apply (Hspl k).
  - rewrite drop_drop. f_equal; [lia|]. f_equal. lia.
Qed.

Lemma seek_clusters_wp v0 fuel : ∀ c pre post offset v,
  fat_ok v0 → reads v0 v → chain_list (fat_at v0 0) c (c :: post) →
  Forall (λ c, 2 <= c <= last_cluster (v_fs v0)) (c :: post) →
  let csize := cluster_size (v_fs v0) in
  Z.of_nat (length pre) * csize <= offset < Z.of_nat (length (pre ++ c :: post)) * csize →
  Z.of_nat (length (pre ++ c :: post)) * csize < 2 ^ 32 → offset < (Z.of_nat (length pre) + Z.of_nat fuel) * csize →
  wp (seek_clusters fuel c ((Z.of_nat (length pre) + 1) * csize) offset csize) (λ r v', reads v0 v' ∧
    ∃ c' pre' post', r = Some c' ∧ pre ++ c :: post = pre' ++ c' :: post' ∧
      chain_list (fat_at v0 0) c' (c' :: post') ∧
      Z.of_nat (length pre') * csize <= offset < (Z.of_nat (length pre') + 1) * csize) v.
Proof.
  induction fuel as [|fuel IH]; intros c pre post offset v Hok Hv Hch Hall csize Hoff Hsz Hfuel; [lia|].
  pose proof (fo_geom _ Hok) as Hg. pose proof (g_spc _ Hg) as Hspc.
  assert (Hcs : 0 < csize) by (unfold csize, cluster_size; lia).
  cbn [seek_clusters]. destruct (Z.leb_spec ((Z.of_nat (length pre) + 1) * csize) offset) as [Hle|Hgt].
  2:{ apply wp_ret. split; [done|]. exists c, pre, post. split; [done|]. split; [done|]. split; [done|]. lia. }
  rewrite length_app in *. cbn [length] in *. inversion Hch as [|? ? Hvalid Hch']; subst.
  apply Forall_cons in Hall as [Hc Hall]. destruct post as [|d post]; [cbn [length] in *; lia|].
  apply wp_try. eapply wp_mono; [apply (chain_step_wp v0 v c d post); [done|done| |done]|].
  { apply cluster_in_fat; [done|lia]. }
  intros r v1 [Hv1 ->]. assert (d = fat_at v0 0 c) as -> by (inversion Hch'; done).
  rewrite (cons_middle c pre), app_assoc. cbn [length] in *.
  assert (Hpre : Z.of_nat (length (pre ++ [c])) = Z.of_nat (length pre) + 1) by (rewrite length_app; cbn; lia).
  rewrite wrap_small by nia.
  replace ((Z.of_nat (length pre) + 1) * csize + csize) with ((Z.of_nat (length (pre ++ [c])) + 1) * csize) by nia.
  apply IH; try done; rewrite ?length_app in *; cbn [length] in *; nia.
Qed.

Lemma touch_wf now e : wf_entry e → 0 <= now.1 < 65536 → 0 <= now.2 < 65536 →
  wf_entry (Dir (d_name e) (extension e) (attributes e) (reserved1 e) (creation_time_tenths e) (creation_time e)
    (creation_date e) now.1 (reserved2 e) now.2 now.1 (first_cluster_low e) (file_size_bytes e)).
Proof.
  unfold wf_entry. cbn. intros. destruct_and!. by split_and!.
Qed.

Lemma dos_now_range c now : fat16_dos_now c = Done now → 0 <= now.1 < 65536 ∧ 0 <= now.2 < 65536.
Proof.
  unfold fat16_dos_now. intros H. repeat (apply bind_Done in H as (? & _ & H)). injection H as <-.
  split; apply (wrap_range 16); lia.
Qed.

Lemma set_first_same e : set_first (first_cluster_low e) e = e.
Proof. by destruct e. Qed.


Lemma write_out_wp v0 v ino cs offset n now :
  fat_ok v0 → writes (file_sectors (v_fs v0) cs) v0 v → file_inode v0 ino cs → 0 < n → 0 <= offset →
  offset + n <= Z.of_nat (length cs) * cluster_size (v_fs v0) →
  fat16_dos_now (v_clock v0) = Done now →
  wp (write_out ino offset n) (λ r v', ∃ ino', r = (n, ino') ∧
    writes (lba (i_loc ino) :: file_sectors (v_fs v0) cs) v0 v' ∧
    file_data v' cs = file_data v cs ∧
    i_size ino' = Z.max (i_size ino) (offset + n) ∧
    file_inode v' ino' cs ∧ entry_saved v' ino') v.
Proof.
  intros Hok Hw [Hwf Hfile Hsize [Hch Hlast Hlen] Hfits (Hslba & Hso & Hso2 & Hsr & Hsn)] Hn Hoff Hroom Hnow.
  destruct now as [date time]. pose proof (dos_now_range _ _ Hnow) as [Hnow1 Hnow2].
  assert (Hsz0 : 0 <= i_size ino) by (rewrite <- Hsize; apply Hwf).
  unfold write_out. rewrite (wrap_small 64 offset), (wrap_small 64 (offset + n)) by lia.
  rewrite (wrap_small 32 (offset + n)) by lia.
  set (ino1 := if i_size ino <? offset + n then _ else ino).
  assert (H1 : i_size ino1 = Z.max (i_size ino) (offset + n) ∧ wf_entry (i_ent ino1) ∧
    is_dir (i_ent ino1) = false ∧ file_size_bytes (i_ent ino1) = i_size ino1 ∧
    first_cluster_low (i_ent ino1) = first_cluster_low (i_ent ino) ∧ i_loc ino1 = i_loc ino).
  { unfold ino1. case_if; breflect; [|split_and!; done || lia]. cbn [i_size i_ent i_loc]. split_and!; try done; [lia|].
    revert Hwf. unfold wf_entry. cbn. intros. destruct_and!. split_and!; done || lia. }
  clearbody ino1. destruct H1 as (Hs1 & Hwf1 & Hfile1 & Hsize1 & Hfirst1 & Hloc1).
  pose proof (writes_fs _ _ _ Hw) as Efs. assert (v_clock v = v_clock v0) as Eclk by (by destruct Hw as (_ & _ & -> & _)).
  apply wp_bind, wp_get. rewrite (proj2 (Z.ltb_lt 0 n)) by lia. apply wp_bind.
  eapply wp_run; [unfold fat16_entry_touch; rewrite Eclk, Hnow; reflexivity|].
  set (e := Dir _ _ _ _ _ _ _ _ _ _ _ _ _). assert (Hwfe : wf_entry e) by (by apply (touch_wf (date, time))).
  apply wp_bind. eapply wp_mono; [apply dir_write_wp; rewrite ?Hloc1; done || apply Hw|].
  rewrite Hloc1. intros r v' (Hd & E & Hget & Hgd). destruct (Hgd ltac:(apply Hw)) as [Hg' ->]. apply wp_ret.
  eexists. split; [done|]. cbn [i_size i_ent i_loc].
  assert (Hkeep : ∀ k, lba_ok k → k ≠ lba (i_loc ino) → disk_of v' k = disk_of v k).
  { intros k Hk Hne. rewrite Hget by done. by rewrite bool_decide_eq_false_2 by (by intros [_ ?]). }
  assert (Hw' : writes (lba (i_loc ino) :: file_sectors (v_fs v0) cs) v0 v').
  { eapply writes_trans; [eapply writes_mono; [|done]; set_solver|]. split; [done|]. split; [done|]. split; [done|].
    intros k Hk Hni. apply Hkeep; [done|]. intros ->. apply Hni. by left. }
  pose proof (chain_clusters _ _ _ Hch Hlast) as Hall. pose proof (fo_geom _ Hok) as Hgeom.
  pose proof (file_sectors_root v0 cs Hgeom Hall) as Hroot.
  split; [done|]. split; [|split; [done|split]].
  - apply file_data_ext; [by rewrite E|]. rewrite Efs. intros k Hk. rewrite Forall_forall in Hroot.
    apply Hkeep; [by apply Hroot|]. intros ->. done.
  - pose proof (writes_fs _ _ _ Hw') as Efs'. split; cbn [i_size i_ent i_loc]; rewrite ?Efs'.
    + done.
    + done.
    + done.
    + change (first_cluster_low e) with (first_cluster_low (i_ent ino1)). rewrite Hfirst1. split; [|by rewrite Efs'|done].
      eapply chain_list_ext; [done|]. intros d Hdc. pose proof (g_fats _ Hgeom).
      apply (writes_fat_at _ _ _ _ _ Hok Hw'); [|lia|].
      * constructor; [done|]. by apply Forall_and in Hroot as [_ ?].
      * rewrite Forall_forall in Hall. apply Hall in Hdc. apply cluster_in_fat; [done|lia].
    + lia.
    + unfold slot_apart. by rewrite Efs'.
  - unfold entry_saved. cbn [i_loc i_ent]. rewrite Hget by done. rewrite bool_decide_eq_true_2 by done.
    destruct (disk_byte v (lba (i_loc ino))) as [Hlen2 _]; [apply Hw|done|].
    replace 32 with (Z.of_nat (length (dir_bytes e))) by (by rewrite dir_bytes_length).
    rewrite slice_splice_same; [by apply dir_of_bytes|done|]. rewrite dir_bytes_length by done. lia.
Qed.

Lemma file_sectors_disjoint fs l1 l2 k : NoDup (l1 ++ l2) → 0 < sectors_per_cluster (header fs) →
  k ∈ file_sectors fs l1 → k ∉ file_sectors fs l2.
Proof.
  intros Hnd Hspc H1 H2. apply list_elem_of_concat in H1 as (l & H1 & Hl1), H2 as (l' & H2 & Hl2).
  apply list_elem_of_fmap in Hl1 as (c & -> & Hc), Hl2 as (d & -> & Hd).
  apply NoDup_app in Hnd as (_ & Hnd & _). apply (Hnd c Hc). by rewrite (cluster_sectors_disjoint fs c d k).
Qed.

(** The bytes of a file after those of the clusters from [post] on changed. *)
Lemma file_data_tail v v' pre post skip buf :
  sd_ok (v_dev v) → geom (v_fs v) → v_fs v' = v_fs v → NoDup (pre ++ post) →
  Forall (λ c, 2 <= c <= last_cluster (v_fs v)) pre → writes (file_sectors (v_fs v) post) v v' →
  file_data v' post = overwrite skip buf (file_data v post) →
  file_data v' (pre ++ post) =
    overwrite (Z.to_nat (Z.of_nat (length pre) * cluster_size (v_fs v)) + skip) buf (file_data v (pre ++ post)).
Proof.
  intros Hd Hg Efs Hnd Hpre Hw Hpost. pose proof (file_data_length v pre Hd Hg Hpre) as Hlen.
  rewrite !file_data_app, overwrite_app, overwrite_ge by lia. rewrite Hpost. f_equal.
  - apply file_data_ext; [done|]. intros k Hk. pose proof (file_sectors_root v pre Hg Hpre) as Hr.
    rewrite Forall_forall in Hr. apply Hw; [by apply Hr|]. pose proof (g_spc _ Hg).
    apply (file_sectors_disjoint _ pre); done || lia.
  - f_equal; [lia|]. by replace (length (file_data v pre) - _)%nat with 0%nat by lia.
Qed.

Lemma file_write_wp v ino cs buf offset now :
  fat_ok v → good v → file_inode v ino cs → buf ≠ [] → Forall byte buf →
  0 <= offset → offset + Z.of_nat (length buf) <= Z.of_nat (length cs) * cluster_size (v_fs v) →
  fat16_dos_now (v_clock v) = Done now →
  wp (file_write ino buf offset) (λ r v', ∃ ino', r = (Z.of_nat (length buf), ino') ∧
    writes (lba (i_loc ino) :: file_sectors (v_fs v) cs) v v' ∧
    file_data v' cs = splice offset buf (file_data v cs) ∧
    i_size ino' = Z.max (i_size ino) (offset + Z.of_nat (length buf)) ∧
    file_inode v' ino' cs ∧ entry_saved v' ino') v.
Proof.
  intros Hok Hg Hino Hne Hb Hoff Hroom Hnow. destruct (Hino) as [_ _ _ [Hch Hlast Hlen] Hfits _].
  pose proof (fo_geom _ Hok) as Hgeom. pose proof (g_spc _ Hgeom) as Hspc.
  pose proof (chain_clusters v _ _ Hch Hlast) as Hall. pose proof (reads_refl v Hok Hg) as Hself.
  assert (Hbl : 0 < Z.of_nat (length buf)) by (destruct buf; [done|cbn [length]; lia]).
  assert (Hcs : 0 < cluster_size (v_fs v)) by (unfold cluster_size; lia).
  destruct cs as [|c cs]; [cbn [length] in Hroom; lia|].
  assert (first_cluster_low (i_ent ino) = c) as Ec by (by inversion Hch). rewrite Ec in Hch.
  pose proof (Hall) as [Hc _]%Forall_cons.
  unfold file_write. apply wp_bind. unfold fs_get. apply wp_bind, wp_get, wp_ret. rewrite (g_bps _ Hgeom).
  rewrite (wrap_small 32 (512 * _)), (wrap_small 32 offset) by lia. fold (cluster_size (v_fs v)).
  apply wp_bind. rewrite Ec, (proj2 (Z.eqb_neq c 0)) by lia. apply wp_ret. 
  replace (set_first c (i_ent ino)) with (i_ent ino) by (rewrite <- Ec; symmetry; apply set_first_same).
  replace (Inode (i_size ino) (i_mode ino) (i_ent ino) (i_loc ino)) with ino by (by destruct ino).
  apply wp_bind. eapply wp_mono.
  { pose proof (seek_clusters_wp v (skip_fuel offset (cluster_size (v_fs v))) c [] cs offset v) as H.
    cbn [app length] in H. rewrite Z.mul_1_l in H. cbn [length] in *. apply H; try done; try lia.
    unfold skip_fuel. case_if; [lia|]. pose proof (Z.div_mod offset (cluster_size (v_fs v)) ltac:(lia)).
    pose proof (Z.mod_pos_bound offset (cluster_size (v_fs v)) ltac:(lia)).
    pose proof (Z.div_pos offset (cluster_size (v_fs v)) ltac:(lia) ltac:(lia)). lia. }
  intros r v1 (Hv1 & c' & pre & post & -> & Ecs & Hpost & Hpre). cbn [app] in Ecs.
  pose proof (chain_list_NoDup _ _ _ Hch) as Hnd. rewrite Ecs in Hall, Hnd, Hroom |- *.
  apply Forall_app in Hall as [Hallpre Hallpost].
  destruct (writes_keep [] v v1 c' (c' :: post) Hok (reads_writes _ _ _ Hv1)) as (Hok1 & Efs1 & _ & Hch1 & Hdata1);
    [constructor|intros; apply not_elem_of_nil|done|done|].
  assert (Eskip : offset mod cluster_size (v_fs v) = offset - Z.of_nat (length pre) * cluster_size (v_fs v)).
  { symmetry. apply (Z.mod_unique _ _ (Z.of_nat (length pre))); lia. }
  apply wp_bind. unfold umod. rewrite (proj2 (Z.eqb_neq (cluster_size _) 0)) by lia. eapply wp_run; [done|].
  rewrite Eskip. apply wp_bind. eapply wp_mono.
  { pose proof (f_equal length Ecs) as Elen. rewrite length_app in Elen, Hroom. cbn [length] in *.
    apply (write_clusters_wp c' (c' :: post)); rewrite ?Efs1; cbn [length]; try done; try lia.
    - apply Hv1.
    - pose proof cluster_fuel_spec. unfold copy_fuel. lia.
    - apply Forall_replicate. unfold byte. lia. }
  rewrite Efs1. intros r v2 (-> & Hw2 & Hdata2). change (Z.to_nat 0) with 0%nat in Hdata2. rewrite drop_0, Hdata1 in Hdata2.
  assert (Hw02 : writes (file_sectors (v_fs v) (c' :: post)) v v2).
  { eapply writes_trans; [by apply reads_writes|done]. }
  pose proof (file_data_tail v v2 pre (c' :: post) _ _ (fo_dev _ Hok) Hgeom (writes_fs _ _ _ Hw02) Hnd Hallpre Hw02 Hdata2)
    as Hdata.
  eapply wp_mono.
  { apply (write_out_wp v v2 ino (c :: cs) offset _ now); try done; [|by rewrite Ecs].
    eapply writes_mono; [|done]. rewrite Ecs. unfold file_sectors. rewrite fmap_app, concat_app. set_solver. }
  rewrite Ecs. intros r v' (ino' & -> & Hw' & Ef & Hsz' & Hino' & Hsaved). exists ino'. split; [done|]. split; [done|].
  split; [|done]. rewrite Ef, Hdata, <- overwrite_splice; [f_equal; lia|done|].
  rewrite file_data_length; [done|apply Hok|done|by apply Forall_app].
Qed.

Lemma fat16_write_wp (s : fat_state S) inode ino cs buf offset now :
  inodes (f_itab s) !! inode = Some ino → fat_ok (f_vol s) → good (f_vol s) → v_read_only (f_vol s) = false →
  file_inode (f_vol s) ino cs → buf ≠ [] → Forall byte buf → 0 <= offset →
  offset + Z.of_nat (length buf) <= Z.of_nat (length cs) * cluster_size (v_fs (f_vol s)) →
  fat16_dos_now (v_clock (f_vol s)) = Done now →
  wp (fat16_write inode buf offset) (λ r s', r = Z.of_nat (length buf) ∧ ∃ ino',
    f_itab s' = Itab (<[inode := ino']> (inodes (f_itab s))) (arena (f_itab s)) ∧
    writes (lba (i_loc ino) :: file_sectors (v_fs (f_vol s)) cs) (f_vol s) (f_vol s') ∧
    file_data (f_vol s') cs = splice offset buf (file_data (f_vol s) cs) ∧
    i_size ino' = Z.max (i_size ino) (offset + Z.of_nat (length buf)) ∧
    file_inode (f_vol s') ino' cs ∧ entry_saved (f_vol s') ino') s.
Proof.
  intros Hlook Hok Hg Hrw Hino Hne Hb Hoff Hroom Hnow. unfold fat16_write.
  eapply wp_bind, get_inode_wp; [done|]. apply wp_bind. unfold get_ro. apply wp_bind, wp_get, wp_ret.
  rewrite (fi_file _ _ _ Hino), Hrw. cbn [orb]. rewrite (proj2 (Z.eqb_neq _ 0)) by (destruct buf; [done|cbn [length]; lia]).
  apply wp_bind, on_vol_wp. eapply wp_mono; [by apply (file_write_wp _ ino cs buf offset now)|].
  intros r v' (ino' & -> & H). apply wp_bind. unfold put_inode. apply wp_modify, wp_ret. split; [done|].
  by exists ino'.
Qed.
End lemmas.

(** ** Theorems *)

Section theorems.
Context {S : Type} `{!sector_dev S} `{!SectorDevLaws S}.

End theorems.

(** ** Witnesses *)

Lemma demo_file_inode : file_inode demo_vol demo_inode [4; 5].
Proof.
  split.
  - unfold wf_entry, byte. cbn. split_and!; try reflexivity; try lia; apply (bool_decide_unpack _); by vm_compute.
  - reflexivity.
  - reflexivity.
  - exact demo_chain.
  - cbn [i_size demo_inode length]. change (cluster_size _) with 512. lia.
  - unfold slot_apart, lba_ok. cbn [i_loc demo_inode lba off]. split_and!; try lia.
    + cbn. lia.
    + apply (bool_decide_unpack _). by vm_compute.
Qed.

