(* ===== verification/VfsPath.v ===== *)
(** * Path resolution (vfs_resolve_path of lizard/vfs.c)

    The routine that folds a path against a working directory, on the byte
    memory of [CString]: [work] is the address of its local buffer, [slash] of
    the delimiter string. The reference definition works on lists of names. *)

From S2P Require Import Prelude CString.

Local Open Scope Z_scope.

Definition TASK_CWD_MAX : Z := 128.

Definition WORK_SIZE : Z := TASK_CWD_MAX * 2.
Definition COMPS_SIZE : Z := TASK_CWD_MAX / 2.

(** [for (p = ..; *p; p++)]: the string at [p] is appended to [work]; nothing
    when it does not fit. The index is below the size of the buffer, so this
    fuel is enough. *)
Fixpoint append_str (fuel : nat) (p work w : Z) (m : mem) : run (option Z * mem) :=
  match fuel with
  | O => Stop Diverge
  | S fuel =>
      c ← ldb m p;
      if c =? 0 then Done (Some w, m)
      else if WORK_SIZE - 1 <=? w then Done (None, m)
      else
        m ← stb (work + w) c m;
        append_str fuel (p + 1) work (w + 1) m
  end.

Definition work_fuel : nat := Z.to_nat (WORK_SIZE + 1).

(** The working directory, with a slash at its end. *)
Definition append_base (base work : Z) (m : mem) : run (option Z * mem) :=
  '(r, m) ← append_str work_fuel base work 0 m;
  match r with
  | None => Done (None, m)
  | Some w =>
      slashed ← (if w =? 0 then Done false else c ← ldb m (work + (w - 1)); Done (c =? 47));
      if slashed : bool then Done (Some w, m)
      else if WORK_SIZE - 1 <=? w then Done (None, m)
      else m ← stb (work + w) 47 m; Done (Some (w + 1), m)
  end.

(** [tok[0] == '.' && tok[1] == '\0'] *)
Definition tok_dot (m : mem) (tok : Z) : run bool :=
  c0 ← ldb m tok;
  if c0 =? 46 then c1 ← ldb m (tok + 1); Done (c1 =? 0) else Done false.

Definition tok_dotdot (m : mem) (tok : Z) : run bool :=
  c0 ← ldb m tok;
  if c0 =? 46 then
    c1 ← ldb m (tok + 1);
    if c1 =? 46 then c2 ← ldb m (tok + 2); Done (c2 =? 0) else Done false
  else Done false.

(** The stack of the components that survive, the last one on top; nothing when
    it is full. *)
Fixpoint collect (fuel : nat) (tok save : option Z) (slash : Z) (comps : list Z) (m : mem) :
    run (option (list Z) * mem) :=
  match fuel with
  | O => Stop Diverge
  | S fuel =>
      match tok with
      | None => Done (Some comps, m)
      | Some t =>
          let next comps := '(tok, save, m) ← strtok_r None slash save m; collect fuel tok save slash comps m in
          dot ← tok_dot m t;
          if dot : bool then next comps
          else
            dotdot ← tok_dotdot m t;
            if dotdot : bool then next (removelast comps)
            else if COMPS_SIZE <=? Z.of_nat (length comps) then Done (None, m)
            else next (comps ++ [t])
      end
  end.

(** The components from index [i] on are written to [out] at [o]. *)
Fixpoint emit (comps : list Z) (out o outsz : Z) (m : mem) : run (option Z * mem) :=
  match comps with
  | [] => Done (Some o, m)
  | c :: comps =>
      l ← strlen m c;
      if outsz <? o + 1 + l + 1 then Done (None, m)
      else
        m ← stb (out + o) 47 m;
        m ← memcpy (out + (o + 1)) c l m;
        emit comps out (o + 1 + l) outsz m
  end.

(** The text to split in the local buffer; its length. *)
Definition fill_work (base input work : Z) (m : mem) : run (option Z * mem) :=
  c ← ldb m input;
  '(r, m) ← (if negb (c =? 47) then append_base base work m else Done (Some 0, m));
  match r with
  | None => Done (None, m)
  | Some w => append_str work_fuel input work w m
  end.

(** 0 or -1. *)
Definition vfs_resolve_path (base input out outsz work slash : Z) (m : mem) : run (Z * mem) :=
  '(r, m) ← fill_work base input work m;
  match r with
  | None => Done (-1, m)
  | Some w =>
      m ← stb (work + w) 0 m;
      '(tok, save, m) ← strtok_r (Some work) slash None m;
      '(r, m) ← collect work_fuel tok save slash [] m;
      match r with
      | None => Done (-1, m)
      | Some [] =>
          if outsz <? 2 then Done (-1, m)
          else m ← stb out 47 m; m ← stb (out + 1) 0 m; Done (0, m)
      | Some comps =>
          '(r, m) ← emit comps out 0 outsz m;
          match r with
          | None => Done (-1, m)
          | Some o => m ← stb (out + o) 0 m; Done (0, m)
          end
      end
  end.

(** ** Specification

    Names are lists of bytes; a path is resolved to the list of its names. *)

Definition dot : list Z := [46].
Definition dotdot : list Z := [46; 46].

Definition resolve_step (acc : list (list Z)) (w : list Z) : list (list Z) :=
  if bool_decide (w = dot) then acc
  else if bool_decide (w = dotdot) then removelast acc
  else acc ++ [w].

Definition resolve_names (ws : list (list Z)) : list (list Z) := fold_left resolve_step ws [].

(** The text that is split into names. *)
Definition full_path (cwd path : list Z) : list Z :=
  if bool_decide (head path = Some 47) then path
  else cwd ++ (if bool_decide (last cwd = Some 47) then [] else [47]) ++ path.

Definition path_names (cwd path : list Z) : list (list Z) := resolve_names (words [47] (full_path cwd path)).

Definition path_text (names : list (list Z)) : list Z :=
  match names with [] => [47] | _ => concat (cons 47 <$> names) end.

(** The depths that the stack reaches. *)
Fixpoint depth_ok (acc : list (list Z)) (ws : list (list Z)) : bool :=
  match ws with
  | [] => true
  | w :: ws =>
      (bool_decide (w = dot) || bool_decide (w = dotdot) || (Z.of_nat (length acc) <? COMPS_SIZE)) &&
      depth_ok (resolve_step acc w) ws
  end.

(** When the resolution succeeds, for an output buffer of [outsz] bytes. *)
Definition resolve_fits (cwd path : list Z) (outsz : Z) : bool :=
  (Z.of_nat (length (full_path cwd path)) <? WORK_SIZE) &&
  depth_ok [] (words [47] (full_path cwd path)) &&
  (Z.of_nat (length (path_text (path_names cwd path))) <? outsz).

(** A name in a resolved path. *)
Definition plain_name (w : list Z) : Prop := w ≠ [] ∧ 47 ∉ w ∧ w ≠ dot ∧ w ≠ dotdot.

(** The memories differ at most in [n] bytes from [a] on. *)
Definition only (a n : Z) (m m' : mem) : Prop := ∀ k, k < a ∨ a + n <= k → m' !! k = m !! k.

(** A string outside [n] bytes from [a] on. *)
Definition apart (a n p : Z) (s : list Z) : Prop := p + Z.of_nat (length s) < a ∨ a + n <= p.

(** The strings of a stack of names, before the address [lim]. *)
Definition names_at (m : mem) (lo lim : Z) (comps : list Z) (names : list (list Z)) : Prop :=
  Forall2 (λ c w, cstr m c w ∧ lo <= c ∧ c + Z.of_nat (length w) < lim) comps names.

(** What a tokenizer has still to say: a current token and the rest. *)
Definition tokens (m : mem) (lo lim : Z) (tok save : option Z) (ws : list (list Z)) : Prop :=
  match tok with
  | None => ws = []
  | Some t => ∃ w ws', ws = w :: ws' ∧ cstr m t w ∧ lo <= t ∧ t + Z.of_nat (length w) < lim ∧
      match save with
      | None => ws' = []
      | Some q => q = t + Z.of_nat (length w) + 1 ∧
          ∃ s, cstr m q s ∧ words [47] s = ws' ∧ q + Z.of_nat (length s) < lim
      end
  end.

(** ** Lemmas on the memory *)

Lemma only_refl a n m : only a n m m.
Proof. by intros k. Qed.

Lemma only_trans a n m1 m2 m3 : only a n m1 m2 → only a n m2 m3 → only a n m1 m3.
Proof. intros H1 H2 k Hk. by rewrite H2, H1. Qed.

Lemma only_put a n p l m : a <= p → p + Z.of_nat (length l) <= a + n → only a n m (put_at p l m).
Proof. intros H1 H2 k Hk. apply put_at_out. lia. Qed.

Lemma cstr_ext m m' p s :
  cstr m p s → (∀ k, p <= k <= p + Z.of_nat (length s) → m' !! k = m !! k) → cstr m' p s.
Proof.
  intros [Hb Hs] H. split; [|done]. intros i c Hi. rewrite H; [by apply Hb|].
  apply lookup_lt_Some in Hi. rewrite length_app in Hi. cbn in Hi. lia.
Qed.

Lemma cstr_only a n m m' p s : only a n m m' → apart a n p s → cstr m p s → cstr m' p s.
Proof. intros Ho Ha Hs. eapply cstr_ext; [done|]. intros k Hk. apply Ho. unfold apart in Ha. lia. Qed.

Lemma mapped_sub m a n p k : mapped m a n → a <= p → p + Z.of_nat k <= a + Z.of_nat n → mapped m p k.
Proof.
  intros H H1 H2 i Hi. replace (p + Z.of_nat i) with (a + Z.of_nat (Z.to_nat (p - a) + i)) by lia. apply H. lia.
Qed.

Lemma mapped_at m a n k : mapped m a n → a <= k < a + Z.of_nat n → is_Some (m !! k).
Proof. intros H Hk. replace k with (a + Z.of_nat (Z.to_nat (k - a))) by lia. apply H. lia. Qed.

Lemma memcpy_Done l d s m :
  bytes_at m s l → Forall byte l → mapped m d (length l) →
  s + Z.of_nat (length l) <= d ∨ d + Z.of_nat (length l) <= s →
  memcpy d s (Z.of_nat (length l)) m = Done (put_at d l m).
Proof.
  intros Hs Hb Hm Hd. unfold memcpy. rewrite Nat2Z.id. rewrite <- (Z.add_0_r d) at 2. apply copy_up_Done.
  - by rewrite Z.add_0_r.
  - done.
  - by rewrite Z.add_0_r.
  - destruct l; [by right; right|]. cbn [length] in *. lia.
Qed.

Lemma cstr_bytes m a s : cstr m a s → bytes_at m a s.
Proof. intros [H _]. by apply bytes_at_app in H as [? _]. Qed.

Lemma cstr_byte m a s : cstr m a s → Forall byte s.
Proof. intros [_ H]. eapply Forall_impl; [done|]. unfold byte. cbn. lia. Qed.

(** ** Lemmas on the steps *)

Lemma append_str_Done s : ∀ fuel p work w m,
  cstr m p s → mapped m work (Z.to_nat WORK_SIZE) → apart work WORK_SIZE p s → 0 <= w < WORK_SIZE →
  WORK_SIZE - w < Z.of_nat fuel →
  if w + Z.of_nat (length s) <? WORK_SIZE
  then append_str fuel p work w m = Done (Some (w + Z.of_nat (length s)), put_at (work + w) s m)
  else ∃ m', append_str fuel p work w m = Done (None, m') ∧ only work WORK_SIZE m m'.
Proof.
  induction s as [|c s IH]; intros [|fuel] p work w m Hs Hm Ha Hw Hf; try lia; cbn [append_str].
  { rewrite (proj2 (Z.ltb_lt _ _)) by (cbn; lia). apply cstr_nil in Hs. rstep (ldb_Some _ _ _ Hs).
    cbn. by rewrite Z.add_0_r. }
  apply cstr_cons in Hs as (Hc & Hr & Hs). rstep (ldb_Some _ _ _ Hc). rewrite (proj2 (Z.eqb_neq c 0)) by lia.
  cbn [length] in *. unfold apart in Ha. cbn [length] in Ha. destruct (Z.leb_spec (WORK_SIZE - 1) w) as [Hfull|Hroom].
  { rewrite (proj2 (Z.ltb_ge _ _)) by lia. exists m. split; [done|apply only_refl]. }
  rewrite (stb_Done m (work + w) c); [|apply (mapped_at _ _ _ _ Hm); lia|unfold byte; lia]. rsimpl.
  set (m1 := <[work + w := c]> m).
  assert (H1 : only work WORK_SIZE m m1) by (apply (only_put work WORK_SIZE (work + w) [c]); cbn [length]; lia).
  specialize (IH fuel (p + 1) work (w + 1) m1).
  replace (w + Z.of_nat (S (length s))) with (w + 1 + Z.of_nat (length s)) by lia. cbn [put_at].
  replace (work + w + 1) with (work + (w + 1)) by lia. fold m1.
  assert (Ha1 : apart work WORK_SIZE (p + 1) s) by (unfold apart; lia).
  assert (IH' := IH (cstr_only _ _ _ _ _ _ H1 Ha1 Hs) (mapped_insert _ _ _ _ _ Hm) Ha1 ltac:(lia) ltac:(lia)).
  destruct (w + 1 + Z.of_nat (length s) <? WORK_SIZE); [done|].
  destruct IH' as (m' & E & Ho). exists m'. split; [done|by eapply only_trans].
Qed.

Lemma insert_put_at a l c m : <[a + Z.of_nat (length l) := c]> (put_at a l m) = put_at a (l ++ [c]) m.
Proof. by rewrite put_at_app. Qed.

Lemma append_base_Done base cwd work m :
  cstr m base cwd → mapped m work (Z.to_nat WORK_SIZE) → apart work WORK_SIZE base cwd →
  let pre := cwd ++ (if bool_decide (last cwd = Some 47) then [] else [47]) in
  if Z.of_nat (length pre) <? WORK_SIZE
  then append_base base work m = Done (Some (Z.of_nat (length pre)), put_at work pre m)
  else ∃ m', append_base base work m = Done (None, m') ∧ only work WORK_SIZE m m'.
Proof.
  intros Hs Hm Ha pre. unfold append_base.
  pose proof (append_str_Done cwd work_fuel base work 0 m Hs Hm Ha ltac:(by vm_compute) ltac:(by vm_compute)) as H.
  rewrite Z.add_0_l, Z.add_0_r in H.
  assert (Hpre : Z.of_nat (length cwd) <= Z.of_nat (length pre) <= Z.of_nat (length cwd) + 1).
  { unfold pre. rewrite length_app. case_if; cbn [length]; lia. }
  destruct (Z.ltb_spec (Z.of_nat (length cwd)) WORK_SIZE) as [Hlt|Hge].
  2:{ rewrite (proj2 (Z.ltb_ge _ _)) by lia. destruct H as (m' & -> & Ho). rsimpl. by exists m'. }
  rewrite H. rsimpl.
  assert (Hlast : (if Z.of_nat (length cwd) =? 0 then Done false
    else c ← ldb (put_at work cwd m) (work + (Z.of_nat (length cwd) - 1)); Done (c =? 47)) =
    Done (bool_decide (last cwd = Some 47))).
  { clear. induction cwd as [|c cwd _] using rev_ind; [done|]. rewrite length_app. cbn [length].
    rewrite (proj2 (Z.eqb_neq _ 0)) by lia. unfold ldb. rewrite lookup_put_at, length_app. cbn [length].
    rewrite (proj2 (Z.leb_le _ _)), (proj2 (Z.ltb_lt _ _)) by lia. cbn [andb].
    replace (Z.to_nat _) with (length cwd) by lia. rewrite list_lookup_middle by done. rsimpl.
    rewrite last_snoc. f_equal. destruct (Z.eqb_spec c 47); symmetry; [apply bool_decide_eq_true|apply bool_decide_eq_false]; congruence. }
  rstep Hlast. unfold pre in *. destruct (bool_decide (last cwd = Some 47)).
  { rewrite app_nil_r in *. by rewrite (proj2 (Z.ltb_lt _ _)). }
  rewrite length_app in *. cbn [length] in *. destruct (Z.leb_spec (WORK_SIZE - 1) (Z.of_nat (length cwd))) as [Hf|Hr].
  { rewrite (proj2 (Z.ltb_ge _ _)) by lia. exists (put_at work cwd m). split; [done|]. apply only_put; lia. }
  rewrite (proj2 (Z.ltb_lt _ _)) by lia.
  rewrite stb_Done; [|apply (mapped_at _ _ _ _ (put_at_mapped _ _ _ _ _ Hm)); lia|unfold byte; lia]. rsimpl.
  rewrite insert_put_at. do 3 f_equal. lia.
Qed.

(** The buffer after both copies. *)
Lemma fill_work_Done base cwd input path work m :
  cstr m base cwd → cstr m input path → mapped m work (Z.to_nat WORK_SIZE) →
  apart work WORK_SIZE base cwd → apart work WORK_SIZE input path →
  let full := full_path cwd path in
  if Z.of_nat (length full) <? WORK_SIZE
  then fill_work base input work m = Done (Some (Z.of_nat (length full)), put_at work full m)
  else ∃ m', fill_work base input work m = Done (None, m') ∧ only work WORK_SIZE m m'.
Proof.
  intros Hb Hi Hm Hab Hai full. unfold fill_work.
  assert (Hhead : ∃ c, m !! input = Some c ∧ negb (c =? 47) = negb (bool_decide (head path = Some 47))).
  { destruct path as [|c path]; [apply cstr_nil in Hi; by exists 0|]. apply cstr_cons in Hi as (Hc & _ & _).
    exists c. split; [done|]. f_equal. cbn [head hd_error].
    destruct (Z.eqb_spec c 47); symmetry; [apply bool_decide_eq_true|apply bool_decide_eq_false]; cbn; congruence. }
  destruct Hhead as (c & Hc & Hn). rstep (ldb_Some _ _ _ Hc). rewrite Hn. unfold full, full_path.
  assert (Hsz : 0 < WORK_SIZE) by (by vm_compute).
  assert (Hfuel : ∀ w, 0 <= w → WORK_SIZE - w < Z.of_nat work_fuel).
  { intros w Hw. change (Z.of_nat work_fuel) with (WORK_SIZE + 1). lia. }
  destruct (bool_decide (head path = Some 47)); cbn [negb]; rsimpl.
  { pose proof (append_str_Done path work_fuel input work 0 m Hi Hm Hai ltac:(lia) ltac:(by apply Hfuel)) as H.
    by rewrite Z.add_0_l, Z.add_0_r in H. }
  set (pre := cwd ++ (if bool_decide (last cwd = Some 47) then [] else [47])). rewrite app_assoc. fold pre.
  pose proof (append_base_Done base cwd work m Hb Hm Hab) as H. cbn zeta in H. fold pre in H. rewrite length_app.
  destruct (Z.ltb_spec (Z.of_nat (length pre)) WORK_SIZE) as [Hlt|Hge].
  2:{ rewrite (proj2 (Z.ltb_ge _ _)) by lia. destruct H as (m' & -> & Ho). rsimpl. by exists m'. }
  rewrite H. rsimpl. assert (Ho : only work WORK_SIZE m (put_at work pre m)) by (apply only_put; lia).
  pose proof (append_str_Done path work_fuel input work (Z.of_nat (length pre)) (put_at work pre m)
    (cstr_only _ _ _ _ _ _ Ho Hai Hi) (put_at_mapped _ _ _ _ _ Hm) Hai ltac:(lia) ltac:(apply Hfuel; lia)) as H2.
  rewrite put_at_app, Nat2Z.inj_add. destruct (_ <? WORK_SIZE); [done|].
  destruct H2 as (m' & E & Ho'). exists m'. split; [done|by eapply only_trans].
Qed.

(** ** Lemmas on the names *)

Lemma tok_dot_Done m t w : cstr m t w → tok_dot m t = Done (bool_decide (w = dot)).
Proof.
  intros Hw. unfold tok_dot. destruct w as [|c w].
  { apply cstr_nil in Hw. by rstep (ldb_Some _ _ _ Hw). }
  apply cstr_cons in Hw as (Hc & Hr & Hw). rstep (ldb_Some _ _ _ Hc).
  destruct (Z.eqb_spec c 46) as [->|Hne]; [|f_equal; symmetry; apply bool_decide_eq_false; unfold dot; congruence].
  destruct w as [|d w].
  { apply cstr_nil in Hw. by rstep (ldb_Some _ _ _ Hw). }
  apply cstr_cons in Hw as (Hd & Hrd & _). rstep (ldb_Some _ _ _ Hd). f_equal.
  rewrite (proj2 (Z.eqb_neq d 0)) by lia. symmetry. by apply bool_decide_eq_false.
Qed.

Lemma tok_dotdot_Done m t w : cstr m t w → tok_dotdot m t = Done (bool_decide (w = dotdot)).
Proof.
  intros Hw. unfold tok_dotdot. destruct w as [|c w].
  { apply cstr_nil in Hw. by rstep (ldb_Some _ _ _ Hw). }
  apply cstr_cons in Hw as (Hc & Hr & Hw). rstep (ldb_Some _ _ _ Hc).
  destruct (Z.eqb_spec c 46) as [->|Hne]; [|f_equal; symmetry; apply bool_decide_eq_false; unfold dotdot; congruence].
  pose proof (tok_dot_Done m (t + 1) w Hw) as H. unfold tok_dot in H. replace (t + 1 + 1) with (t + 2) in H by lia.
  rewrite H. f_equal. apply bool_decide_ext. unfold dot, dotdot. split; congruence.
Qed.

Lemma Forall2_removelast {A B} (P : A → B → Prop) l k : Forall2 P l k → Forall2 P (removelast l) (removelast k).
Proof.
  induction 1 as [|x y l k Hxy Hlk IH]; [constructor|]. cbn [removelast].
  destruct Hlk; [constructor|]. by constructor.
Qed.

Lemma names_at_ext m m' lo lim comps names :
  names_at m lo lim comps names → (∀ k, lo <= k < lim → m' !! k = m !! k) → names_at m' lo lim comps names.
Proof.
  intros H Hm. eapply Forall2_impl; [done|]. intros c w (Hc & Hlo & Hlim). split; [|done].
  eapply cstr_ext; [done|]. intros k Hk. apply Hm. lia.
Qed.

Lemma names_at_mono m lo lim lim' comps names : lim <= lim' → names_at m lo lim comps names → names_at m lo lim' comps names.
Proof. intros Hl H. eapply Forall2_impl; [done|]. intros c w (? & ? & ?). split; [done|lia]. Qed.

Lemma strtok_next m slash lo lim q s :
  cstr m q s → lo <= q → q + Z.of_nat (length s) < lim → cstr m slash [47] → apart lo (lim - lo) slash [47] →
  ∃ tok save m', strtok_r None slash (Some q) m = Done (tok, save, m') ∧ tokens m' q lim tok save (words [47] s) ∧
    (∀ k, k < q ∨ lim <= k → m' !! k = m !! k).
Proof.
  intros Hs Hlo Hlim Hsl Ha. unfold apart in Ha. cbn [length] in Ha.
  pose proof (strtok_r_at m slash [47] q s Hs Hsl ltac:(cbn [length]; lia)) as H.
  destruct (words [47] s) as [|w ws].
  { exists None, None, m. by split. }
  destruct H as (t & save & m' & E & Hw & _ & Hqt & Hend & Hsave & Hframe).
  exists (Some t), save, m'. split; [done|]. split; [|intros k Hk; apply Hframe; lia].
  exists w, ws. split; [done|]. split; [done|]. split; [done|]. split; [lia|].
  destruct save as [q'|]; [|done]. destruct Hsave as (-> & s' & Hs' & Ew & Hl). split; [done|].
  exists s'. split; [done|]. split; [done|lia].
Qed.

Definition collected (slash lo lim : Z) (acc ws : list (list Z)) (m : mem) (r : run (option (list Z) * mem)) : Prop :=
  ∃ o m', r = Done (o, m') ∧ only lo (lim - lo) m m' ∧
    if depth_ok acc ws
    then ∃ comps, o = Some comps ∧ names_at m' lo lim comps (fold_left resolve_step ws acc)
    else o = None.

Lemma collected_only slash lo lim acc ws m m1 r :
  only lo (lim - lo) m m1 → collected slash lo lim acc ws m1 r → collected slash lo lim acc ws m r.
Proof. intros H (o & m' & -> & Ho & Hr). exists o, m'. split; [done|]. split; [by eapply only_trans|done]. Qed.

Lemma collect_Done slash lo lim ws : ∀ fuel tok save comps acc m,
  tokens m lo lim tok save ws → names_at m lo (match tok with Some t => t | None => lim end) comps acc →
  cstr m slash [47] → apart lo (lim - lo) slash [47] → (length ws < fuel)%nat →
  collected slash lo lim acc ws m (collect fuel tok save slash comps m).
Proof.
  induction ws as [|w ws IH]; intros [|fuel] tok save comps acc m Htok Hnames Hsl Ha Hf; cbn [length] in Hf; try lia;
    cbn [collect].
  { destruct tok as [t|]; [destruct Htok as (? & ? & ? & _); done|].
    exists (Some comps), m. split; [done|]. split; [apply only_refl|]. cbn [depth_ok fold_left]. by exists comps. }
  destruct tok as [t|]; [|done]. destruct Htok as (w' & ws' & [= <- <-] & Hw & Hlo & Hlim & Hsave).
  remember (t + Z.of_nat (length w) + 1) as q eqn:Eq.
  set (next := λ comps, '(tok, save, m) ← strtok_r None slash save m; collect fuel tok save slash comps m).
  assert (Hnext : ∀ comps2 acc2, names_at m lo q comps2 acc2 → collected slash lo lim acc2 ws m (next comps2)).
  { intros comps2 acc2 Hn2. unfold next. destruct save as [q'|].
    - destruct Hsave as (-> & s & Hs & <- & Hend).
      destruct (strtok_next m slash lo lim q s Hs ltac:(lia) Hend Hsl Ha) as (tok & save & m' & -> & Ht & Hframe). rsimpl.
      apply (collected_only _ _ _ _ _ m m'); [intros k Hk; apply Hframe; lia|].
      apply IH; [| | |done|lia].
      + destruct tok as [t'|]; [|done]. destruct Ht as (? & ? & ? & ? & ? & ? & ?). eexists _, _. split_and!; (done || lia).
      + eapply (names_at_mono _ _ q); [|eapply names_at_ext; [done|intros k Hk; apply Hframe; lia]].
        destruct tok as [t'|]; [|lia]. by destruct Ht as (? & ? & ? & ? & ? & ?).
      + eapply cstr_ext; [done|]. intros k Hk. apply Hframe. unfold apart in Ha. cbn [length] in *. lia.
    - subst ws. cbn. apply (IH fuel None None); [done| |done|done|cbn; lia].
      eapply names_at_mono; [|done]. lia. }
  rewrite (tok_dot_Done _ _ _ Hw). rsimpl. rewrite (tok_dotdot_Done _ _ _ Hw). rsimpl.
  assert (Hnq : names_at m lo q comps acc) by (eapply names_at_mono; [|done]; lia).
  unfold collected. cbn [depth_ok fold_left]. 
  assert (Estep : resolve_step acc w = if bool_decide (w = dot) then acc
    else if bool_decide (w = dotdot) then removelast acc else acc ++ [w]) by done. rewrite !Estep.
  case_bool_decide as Hdot; cbn [orb andb]; [by apply Hnext|].
  case_bool_decide as Hdotdot; cbn [orb andb]; [by apply Hnext, Forall2_removelast|].
  assert (length comps = length acc) as -> by (by eapply Forall2_length).
  destruct (Z.ltb_spec (Z.of_nat (length acc)) COMPS_SIZE) as [Hlt|Hge].
  - rewrite (proj2 (Z.leb_gt _ _)) by lia. apply Hnext. apply Forall2_app; [done|]. constructor; [|constructor].
    split; [done|lia].
  - rewrite (proj2 (Z.leb_le _ _)) by lia. exists None, m. split; [done|]. split; [apply only_refl|done].
Qed.

Lemma put_at_only_cstr m lo lim out n l p comps names :
  names_at m lo lim comps names → out <= p → p + Z.of_nat (length l) <= out + n → lim <= out ∨ out + n <= lo →
  names_at (put_at p l m) lo lim comps names.
Proof. intros H H1 H2 Hd. eapply names_at_ext; [done|]. intros k Hk. apply put_at_out. lia. Qed.

Lemma emit_Done lo lim out outsz comps : ∀ names o m,
  names_at m lo lim comps names → mapped m out (Z.to_nat outsz) → lim <= out ∨ out + outsz <= lo →
  0 <= o → names ≠ [] ∨ o < outsz →
  let text := concat (cons 47 <$> names) in
  if o + Z.of_nat (length text) <? outsz
  then emit comps out o outsz m = Done (Some (o + Z.of_nat (length text)), put_at (out + o) text m)
  else ∃ m', emit comps out o outsz m = Done (None, m') ∧ only out outsz m m'.
Proof.
  induction comps as [|c comps IH]; intros names o m H Hm Hd Ho Hne text; cbn [emit].
  { apply Forall2_nil_inv_l in H as ->. destruct Hne as [|Hne]; [done|]. unfold text. cbn [fmap list_fmap concat length].
    rewrite (proj2 (Z.ltb_lt _ _)) by lia. cbn. by rewrite Z.add_0_r. }
  apply Forall2_cons_inv_l in H as (w & names' & (Hw & Hlo & Hlim) & Hnames & ->).
  rstep (strlen_Done _ _ _ Hw). set (text' := concat (cons 47 <$> names')).
  assert (Et : text = (47 :: w) ++ text') by done. rewrite Et, length_app. cbn [length].
  destruct (Z.ltb_spec outsz (o + 1 + Z.of_nat (length w) + 1)) as [Hfull|Hroom].
  { rewrite (proj2 (Z.ltb_ge _ _)) by lia. exists m. split; [done|apply only_refl]. }
  rewrite stb_Done; [|apply (mapped_at _ _ _ _ Hm); lia|unfold byte; lia]. rsimpl.
  set (m1 := <[out + o := 47]> m).
  assert (Hw1 : cstr m1 c w).
  { eapply cstr_ext; [done|]. intros k Hk. apply lookup_insert_ne. lia. }
  rewrite (memcpy_Done w (out + (o + 1)) c m1); [|by apply cstr_bytes|by eapply cstr_byte| |lia].
  2:{ apply (mapped_sub m1 out (Z.to_nat outsz)); [by apply mapped_insert|lia|lia]. }
  rsimpl. replace (put_at (out + (o + 1)) w m1) with (put_at (out + o) (47 :: w) m) by (cbn; by rewrite Z.add_assoc).
  set (m2 := put_at (out + o) (47 :: w) m).
  assert (Hm2 : only out outsz m m2) by (apply only_put; cbn [length]; lia).
  assert (IH' := IH names' (o + 1 + Z.of_nat (length w)) m2
    (put_at_only_cstr m lo lim out outsz (47 :: w) (out + o) comps names' Hnames ltac:(lia) ltac:(cbn [length]; lia) Hd)
    (put_at_mapped _ _ _ _ _ Hm) Hd ltac:(lia) ltac:(right; lia)). cbn zeta in IH'. fold text' in IH'.
  rewrite put_at_app. fold m2.
  replace (out + o + Z.of_nat (length (47 :: w))) with (out + (o + 1 + Z.of_nat (length w))) by (cbn [length]; lia).
  replace (o + Z.of_nat (S (length w) + length text')) with (o + 1 + Z.of_nat (length w) + Z.of_nat (length text')) by lia.
  destruct (_ <? outsz); [done|]. destruct IH' as (m' & -> & Ho'). exists m'. split; [done|by eapply only_trans].
Qed.

Lemma words_length ds s : (length (words ds s) <= length s)%nat.
Proof.
  enough (∀ cur, length (words_from ds cur s) <= length s + match cur with [] => 0 | _ => 1 end)%nat as H
    by (specialize (H []); cbn in H; unfold words; lia).
  induction s as [|c s IH]; intros cur; cbn [words_from length]; [by destruct cur; cbn; lia|].
  destruct (is_delim ds c).
  - specialize (IH []). cbn in IH. destruct cur; cbn [length]; lia.
  - specialize (IH (cur ++ [c])). destruct (cur ++ [c]) eqn:E; destruct cur; cbn in *; lia.
Qed.

(** Every name of a resolved path is a plain one. *)
Lemma words_from_plain s cur :
  47 ∉ cur → Forall (λ w, w ≠ [] ∧ 47 ∉ w) (words_from [47] cur s).
Proof.
  revert cur. induction s as [|c s IH]; intros cur Hcur; cbn [words_from].
  { destruct cur as [|x cur]; [constructor|]. by repeat constructor. }
  unfold is_delim. case_bool_decide as Hc.
  - assert (Hnil : Forall (λ w, w ≠ [] ∧ 47 ∉ w) (words_from [47] [] s)) by (apply IH, not_elem_of_nil).
    destruct cur; [done|]. by constructor.
  - apply IH. rewrite not_elem_of_app, list_elem_of_singleton. split; [done|]. intros <-. apply Hc. by left.
Qed.

Lemma resolve_names_plain ws : Forall (λ w, w ≠ [] ∧ 47 ∉ w) ws → Forall plain_name (resolve_names ws).
Proof.
  intros Hws. unfold resolve_names.
  enough (∀ acc, Forall plain_name acc → Forall plain_name (fold_left resolve_step ws acc)) as H by (by apply H).
  induction Hws as [|w ws Hw _ IH]; intros acc Hacc; cbn [fold_left]; [done|]. apply IH. unfold resolve_step.
  repeat case_bool_decide; [done| |].
  - clear -Hacc. induction Hacc as [|x l Hx Hl IH]; [constructor|]. cbn [removelast].
    destruct l; [constructor|]. by constructor.
  - apply Forall_app. split; [done|]. constructor; [|constructor]. by destruct Hw.
Qed.

Lemma path_names_plain cwd path : Forall plain_name (path_names cwd path).
Proof. apply resolve_names_plain, words_from_plain, not_elem_of_nil. Qed.

Lemma words_text names : Forall plain_name names → words [47] (path_text names) = names.
Proof.
  intros H. assert (Hgen : words [47] (concat (cons 47 <$> names)) = names).
  { unfold words. induction H as [|w names (Hne & Hs & _) _ IH]; [done|].
    rewrite fmap_cons. cbn [concat app words_from]. change (is_delim [47] 47) with true. cbn iota.
    rewrite words_take.
    2:{ apply Forall_forall. intros c Hc. unfold is_delim. rewrite bool_decide_eq_false_2; [done|].
        rewrite list_elem_of_singleton. by intros ->. }
    cbn [app]. destruct names as [|w2 names].
    - by destruct w.
    - rewrite fmap_cons in *. cbn [concat app words_from] in *. change (is_delim [47] 47) with true in *. cbn iota in *.
      destruct w; [done|]. by f_equal. }
  unfold path_text. destruct names; done.
Qed.

(** A resolved path resolves to itself. *)
Lemma resolve_text names cwd : Forall plain_name names → path_names cwd (path_text names) = names.
Proof.
  intros H. unfold path_names, full_path.
  assert (Hhead : head (path_text names) = Some 47) by (by destruct names). rewrite Hhead.
  rewrite bool_decide_eq_true_2 by done. rewrite words_text by done. clear Hhead. unfold resolve_names.
  enough (∀ acc, fold_left resolve_step names acc = acc ++ names) as E by (by rewrite E).
  induction H as [|w names (_ & _ & Hd & Hdd) _ IH]; intros acc; cbn [fold_left]; [by rewrite app_nil_r|].
  rewrite IH. unfold resolve_step. rewrite !bool_decide_eq_false_2 by done. by rewrite <- app_assoc.
Qed.

(** ** The whole routine *)

Lemma full_path_char cwd path :
  Forall (λ c, 0 < c < 256) cwd → Forall (λ c, 0 < c < 256) path → Forall (λ c, 0 < c < 256) (full_path cwd path).
Proof.
  intros Hc Hp. unfold full_path. case_bool_decide; [done|]. rewrite !Forall_app. split; [done|]. split; [|done].
  case_bool_decide; [constructor|]. repeat constructor; lia.
Qed.

Lemma path_text_char m lo lim comps names :
  names_at m lo lim comps names → Forall (λ c, 0 < c < 256) (path_text names).
Proof.
  intros H. assert (Hc : Forall (λ c, 0 < c < 256) (concat (cons 47 <$> names))).
  { induction H as [|c w comps names ([_ Hw] & _) _ IH]; [constructor|]. rewrite fmap_cons. cbn [concat app].
    constructor; [lia|]. by apply Forall_app. }
  destruct names; [repeat constructor; lia|done].
Qed.

Lemma cstr_put_text a s m : Forall (λ c, 0 < c < 256) s → cstr (put_at a (s ++ [0]) m) a s.
Proof. intros Hs. split; [apply put_at_in|done]. Qed.

(** The output phase, from the stack of names on. *)
Lemma output_Done m comps names lo lim out outsz :
  names_at m lo lim comps names → mapped m out (Z.to_nat outsz) → 0 <= outsz → lim <= out ∨ out + outsz <= lo →
  let fits := Z.of_nat (length (path_text names)) <? outsz in
  ∃ m', match comps with
    | [] => if outsz <? 2 then Done (-1, m)
            else m ← stb out 47 m; m ← stb (out + 1) 0 m; Done (0, m)
    | _ => '(r, m) ← emit comps out 0 outsz m;
           match r with None => Done (-1, m) | Some o => m ← stb (out + o) 0 m; Done (0, m) end
    end = Done (if fits then 0 else -1, m') ∧
    (fits = true → cstr m' out (path_text names)) ∧ only out outsz m m'.
Proof.
  intros Hn Hm Hsz Hd fits. pose proof (path_text_char _ _ _ _ _ Hn) as Hchar. destruct comps as [|c comps].
  - assert (names = []) as -> by (by apply Forall2_nil_inv_l in Hn). unfold fits. cbn [path_text length].
    destruct (Z.ltb_spec outsz 2) as [Hlt|Hge].
    { rewrite (proj2 (Z.ltb_ge _ _)) by lia. exists m. split; [done|]. split; [done|apply only_refl]. }
    rewrite (proj2 (Z.ltb_lt _ _)) by lia.
    rewrite stb_Done; [|apply (mapped_at _ _ _ _ Hm); lia|unfold byte; lia]. rsimpl.
    rewrite stb_Done; [|apply (mapped_at _ _ _ _ (mapped_insert _ _ _ out 47 Hm)); lia|unfold byte; lia].
    rsimpl. exists (put_at out [47; 0] m). split; [done|]. split; [intros _; by apply cstr_put_text|].
    apply only_put; cbn [length]; lia.
  - assert (Hne : names ≠ []) by (intros ->; by apply Forall2_nil_inv_r in Hn).
    pose proof (emit_Done lo lim out outsz (c :: comps) names 0 m Hn Hm Hd ltac:(lia) (or_introl Hne)) as H.
    cbn zeta in H. rewrite Z.add_0_l, Z.add_0_r in H.
    assert (Et : concat (cons 47 <$> names) = path_text names) by (by destruct names). rewrite Et in H.
    fold fits in H. destruct fits eqn:Ef; [|destruct H as (m' & -> & Ho); rsimpl; by exists m'].
    rewrite H. rsimpl. unfold fits in Ef. breflect.
    rewrite stb_Done; [|apply (mapped_at _ _ _ _ (put_at_mapped _ _ _ _ _ Hm)); lia|unfold byte; lia]. rsimpl.
    rewrite insert_put_at. eexists. split; [done|]. split; [intros _; by apply cstr_put_text|].
    apply only_put; rewrite ?length_app; cbn [length]; lia.
Qed.

Lemma resolve_run m base cwd input path out outsz work slash :
  cstr m base cwd → cstr m input path → cstr m slash [47] →
  mapped m work (Z.to_nat WORK_SIZE) → mapped m out (Z.to_nat outsz) → 0 <= outsz →
  apart work WORK_SIZE base cwd → apart work WORK_SIZE input path → apart work WORK_SIZE slash [47] →
  work + WORK_SIZE <= out ∨ out + outsz <= work →
  ∃ m', vfs_resolve_path base input out outsz work slash m =
      Done (if resolve_fits cwd path outsz then 0 else -1, m') ∧
    (resolve_fits cwd path outsz = true → cstr m' out (path_text (path_names cwd path))) ∧
    (∀ k, k < work ∨ work + WORK_SIZE <= k → k < out ∨ out + outsz <= k → m' !! k = m !! k).
Proof.
  intros Hbase Hinput Hslash Hwork Hout Hsz Hb Hi Hs Hwo. unfold vfs_resolve_path, resolve_fits.
  pose proof (fill_work_Done base cwd input path work m Hbase Hinput Hwork Hb Hi) as Hfill. cbn zeta in Hfill.
  set (full := full_path cwd path) in *. destruct (Z.ltb_spec (Z.of_nat (length full)) WORK_SIZE) as [Hlt|Hge].
  2:{ destruct Hfill as (m1 & -> & Ho). rsimpl. cbn [andb]. exists m1. split; [done|]. split; [done|].
      intros k Hk _. by apply Ho. }
  rewrite Hfill. rsimpl. clear Hfill. cbn [andb].
  rewrite stb_Done; [|apply (mapped_at _ _ _ _ (put_at_mapped _ _ _ _ _ Hwork)); lia|unfold byte; lia]. rsimpl.
  rewrite insert_put_at. set (m1 := put_at work (full ++ [0]) m).
  assert (H1 : only work WORK_SIZE m m1) by (apply only_put; rewrite ?length_app; cbn [length]; lia).
  assert (Hfull : cstr m1 work full) by (apply cstr_put_text, full_path_char; [apply Hbase|apply Hinput]).
  assert (Hlim : work + WORK_SIZE - work = WORK_SIZE) by lia.
  destruct (strtok_next m1 slash work (work + WORK_SIZE) work full Hfull ltac:(lia) ltac:(lia)
    (cstr_only _ _ _ _ _ _ H1 Hs Hslash) ltac:(by rewrite Hlim)) as (tok & save & m2 & Et & Htok & H2).
  change (strtok_r (Some work) slash None m1) with (strtok_r None slash (Some work) m1). rewrite Et. rsimpl. clear Et.
  assert (H12 : only work WORK_SIZE m m2).
  { intros k Hk. rewrite H2; [by apply H1|lia]. }
  pose proof (collect_Done slash work (work + WORK_SIZE) (words [47] full) work_fuel tok save [] [] m2 Htok
    ltac:(constructor) (cstr_only _ _ _ _ _ _ H12 Hs Hslash) ltac:(by rewrite Hlim)) as Hcol.
  destruct Hcol as (o & m3 & -> & H3 & Hcol).
  { pose proof (words_length [47] full). assert (Z.of_nat work_fuel = WORK_SIZE + 1) by done. lia. }
  rewrite Hlim in H3. rsimpl. assert (H13 : only work WORK_SIZE m m3) by (by eapply only_trans).
  destruct (depth_ok [] (words [47] full)); cbn [andb].
  2:{ rewrite Hcol. exists m3. split; [done|]. split; [done|]. intros k Hk _. by apply H13. }
  destruct Hcol as (comps & -> & Hnames).
  change (fold_left resolve_step (words [47] full) []) with (path_names cwd path) in Hnames.
  destruct (output_Done m3 comps (path_names cwd path) work (work + WORK_SIZE) out outsz Hnames) as (m' & E & Hc & Ho).
  - intros i Hi0. rewrite H13 by lia. apply Hout. lia.
  - done.
  - done.
  - exists m'. split; [by destruct comps|]. split; [done|]. intros k Hk1 Hk2. rewrite Ho by done. by apply H13.
Qed.

(** ** Theorems *)

(** C10: [vfs_resolve_path] computes the reference resolution. With the working
    directory and the path as strings apart from the local and the output
    buffer, it always returns: 0 exactly when the joined text, the stack of
    names and the result fit their buffers, -1 otherwise. On 0 the output holds
    the resolved path, whose names are non-empty and neither dot nor dot-dot,
    and which resolves to itself from any directory. No byte outside the two
    buffers changes, whatever the answer. *)
Theorem vfs_resolve_path_reference m base cwd input path out outsz work slash
  (Hbase : cstr m base cwd) (Hinput : cstr m input path) (Hslash : cstr m slash [47])
  (Hwork : mapped m work (Z.to_nat WORK_SIZE)) (Hout : mapped m out (Z.to_nat outsz)) (Hsz : 0 <= outsz)
  (Hb : apart work WORK_SIZE base cwd) (Hi : apart work WORK_SIZE input path)
  (Hs : apart work WORK_SIZE slash [47]) (Hwo : work + WORK_SIZE <= out ∨ out + outsz <= work) :
  let names := path_names cwd path in
  ∃ m', vfs_resolve_path base input out outsz work slash m =
      Done (if resolve_fits cwd path outsz then 0 else -1, m') ∧
    (resolve_fits cwd path outsz = true → cstr m' out (path_text names)) ∧
    Forall plain_name names ∧ (∀ cwd', path_names cwd' (path_text names) = names) ∧
    (∀ k, k < work ∨ work + WORK_SIZE <= k → k < out ∨ out + outsz <= k → m' !! k = m !! k).
Proof.
  intros names. pose proof (path_names_plain cwd path) as Hplain. fold names in Hplain.
  destruct (resolve_run m base cwd input path out outsz work slash Hbase Hinput Hslash Hwork Hout Hsz Hb Hi Hs Hwo)
    as (m' & E & Hc & Hframe).
  exists m'. split; [done|]. split; [done|]. split; [done|]. split; [|done]. intros cwd'. by apply resolve_text.
Qed.

(** On failure the output buffer is not always left alone: with a buffer of
    three bytes the first name of a path of two is already stored. *)
Definition demo_path (cwd path : list Z) (outsz : nat) : mem :=
  put_at 10 (cwd ++ [0]) (put_at 100 (path ++ [0]) (put_at 200 [47; 0]
    (put_at 1000 (replicate 256 0) (put_at 2000 (replicate outsz 0) ∅)))).

Lemma vfs_resolve_path_partial :
  ∃ m', vfs_resolve_path 10 100 2000 3 1000 200 (demo_path [47] [47; 97; 47; 98] 3) = Done (-1, m') ∧
    demo_path [47] [47; 97; 47; 98] 3 !! 2000 = Some 0 ∧ m' !! 2000 = Some 47.
Proof. eexists. split; [vm_compute; reflexivity|]. by vm_compute. Qed.

(** ** Witness

    "../lib//./x" in the directory "/usr/bin". *)

Definition demo_cwd : list Z := [47; 117; 115; 114; 47; 98; 105; 110].
Definition demo_rel : list Z := [46; 46; 47; 108; 105; 98; 47; 47; 46; 47; 120].

Lemma vfs_resolve_path_reference_witness :
  ∃ m', vfs_resolve_path 10 100 2000 32 1000 200 (demo_path demo_cwd demo_rel 32) = Done (0, m') ∧
    cstr m' 2000 [47; 117; 115; 114; 47; 108; 105; 98; 47; 120].
Proof.
  destruct (vfs_resolve_path_reference (demo_path demo_cwd demo_rel 32) 10 demo_cwd 100 demo_rel 2000 32 1000 200)
    as (m' & E & Hc & _).
  - apply cstr_put_text. repeat constructor; lia.
  - eapply cstr_ext; [apply (cstr_put_text 100 demo_rel); repeat constructor; lia|].
    intros k Hk. apply put_at_out. cbn [length app demo_rel demo_cwd] in *. lia.
  - split; [|repeat constructor; lia]. do 2 (apply put_at_bytes; [|cbn; lia]). apply put_at_in.
  - do 3 apply put_at_mapped. apply (bytes_at_mapped _ _ (replicate 256 0)), put_at_in.
  - do 4 apply put_at_mapped. apply (bytes_at_mapped _ _ (replicate 32 0)), put_at_in.
  - lia.
  - unfold apart. cbn. lia.
  - unfold apart. cbn. lia.
  - unfold apart. cbn. lia.
  - change WORK_SIZE with 256. lia.
  - exists m'. split; [exact E|exact (Hc eq_refl)].
Defined.
