(* ===== verification/Vfs.v ===== *)
(** * The virtual file system (lizard/vfs.c, dentry.c, inode.c, vfs_helper.c, fs.c)

    Directory entries and open files are addresses of two tables; [zalloc]
    takes an address of [heap] and fails when it is empty, [kfree] removes the
    object and gives its address back, so a use after [kfree] is [Fault]. The
    null pointer is [None]. A file system is an instance of the class [fs_ops],
    the operation tables of its inodes; an absent operation is [None]. Names
    and paths are lists of non-zero bytes. The locks are those of one
    processor: taking a lock that is held never ends. *)

From S2P Require Import Prelude Dirent.

Local Open Scope Z_scope.

Definition NAME_MAX : Z := 255.

Definition O_WRONLY : Z := 0x0001.
Definition O_RDWR : Z := 0x0002.
Definition O_CREAT : Z := 0x0040.
Definition O_TRUNC : Z := 0x0200.
Definition O_APPEND : Z := 0x0400.

Definition has_flag (flags o : Z) : bool := negb (Z.land flags o =? 0).

(** ** Atomic counters *)

Definition atomic_set (i : Z) : Z := i64 i.
Definition atomic_add (i c : Z) : Z := i64 (c + i).
Definition atomic_sub (i c : Z) : Z := i64 (c - i).
Definition atomic_inc (c : Z) : Z := atomic_add 1 c.
Definition atomic_dec (c : Z) : Z := atomic_sub 1 c.

(** The new value and whether it is 0. *)
Definition atomic_dec_and_test (c : Z) : Z * bool := (atomic_dec c, atomic_dec c =? 0).

(** ** Objects *)

Record dentry := Dentry {
  d_name : list Z;
  d_parent : option Z;
  d_inode : option Z;
  d_locked : bool;
  d_refcount : Z;
  d_children : list Z
}.

Record file := File { fl_inode : option Z; fl_offset : Z; fl_flags : Z; fl_dentry : option Z }.

Record vfs (F : Type) := Vfs {
  dentries : gmap Z dentry;
  files : gmap Z file;
  heap : list Z;
  vfs_root : option Z;
  fsys : F
}.
Arguments Vfs {_} _ _ _ _ _.
Arguments dentries {_} _.
Arguments files {_} _.
Arguments heap {_} _.
Arguments vfs_root {_} _.
Arguments fsys {_} _.

(** The operations of the inodes of a file system. [op_lookup], [op_create]
    and [op_mkdir] answer the inode they store in the dentry, nothing when
    they fail; [op_read] the result and the bytes in the caller's buffer;
    [op_readdir] the count, the new offset and the state of the callback. *)
Class fs_ops (F : Type) := FsOps {
  inode_size : Z → st F Z;
  inode_mode : Z → st F Z;
  op_lookup : Z → option (list Z → st F (option Z));
  op_create : Z → option (list Z → Z → st F (option Z));
  op_mkdir : Z → option (list Z → Z → st F (option Z));
  op_unlink : Z → option (list Z → st F Z);
  op_rmdir : Z → option (list Z → st F Z);
  op_truncate : Z → option (Z → st F Z);
  op_open : Z → option (st F Z);
  op_release : Z → option (st F Z);
  op_read : Z → option (Z → Z → st F (Z * list Z));
  op_write : Z → option (list Z → Z → st F Z);
  op_readdir : Z → option (∀ B : Type, Z → (B → dirent → Z * B) → B → st F (Z * Z * B))
}.

Section vfs.
Context {F : Type} `{!fs_ops F}.

Definition on_fs {A} (m : st F A) : st (vfs F) A := λ s,
  match m (fsys s) with
  | Done (a, f) => Done (a, Vfs (dentries s) (files s) (heap s) (vfs_root s) f)
  | Stop e => Stop e
  end.

Definition set_dentries (ds : gmap Z dentry) (s : vfs F) : vfs F := Vfs ds (files s) (heap s) (vfs_root s) (fsys s).
Definition set_files (fs : gmap Z file) (s : vfs F) : vfs F := Vfs (dentries s) fs (heap s) (vfs_root s) (fsys s).
Definition set_heap (h : list Z) (s : vfs F) : vfs F := Vfs (dentries s) (files s) h (vfs_root s) (fsys s).

Definition zalloc : st (vfs F) (option Z) := λ s,
  match heap s with
  | [] => Done (None, s)
  | a :: h => Done (Some a, set_heap h s)
  end.

(** [*d] *)
Definition get_dentry (d : option Z) : st (vfs F) dentry :=
  s ← st_get;
  d ← st_run (access d);
  st_run (access (dentries s !! d)).

Definition upd_dentry (d : Z) (f : dentry → dentry) : st (vfs F) unit :=
  dn ← get_dentry (Some d);
  st_modify (λ s, set_dentries (<[d := f dn]> (dentries s)) s).

Definition set_refcount (c : Z) (d : dentry) : dentry :=
  Dentry (d_name d) (d_parent d) (d_inode d) (d_locked d) c (d_children d).
Definition set_locked (b : bool) (d : dentry) : dentry :=
  Dentry (d_name d) (d_parent d) (d_inode d) b (d_refcount d) (d_children d).
Definition set_children (l : list Z) (d : dentry) : dentry :=
  Dentry (d_name d) (d_parent d) (d_inode d) (d_locked d) (d_refcount d) l.
Definition set_parent (p : option Z) (d : dentry) : dentry :=
  Dentry (d_name d) p (d_inode d) (d_locked d) (d_refcount d) (d_children d).
Definition set_inode (i : option Z) (d : dentry) : dentry :=
  Dentry (d_name d) (d_parent d) i (d_locked d) (d_refcount d) (d_children d).

Definition spinlock_lock (d : Z) : st (vfs F) unit :=
  dn ← get_dentry (Some d);
  if d_locked dn then st_stop Diverge else upd_dentry d (set_locked true).
Definition spinlock_unlock (d : Z) : st (vfs F) unit := upd_dentry d (set_locked false).

(** ** Directory entries *)

Definition dentry_alloc (name : list Z) : st (vfs F) (option Z) :=
  d ?← zalloc;
  _ ← st_modify (λ s, set_dentries
        (<[d := Dentry (take (Z.to_nat (NAME_MAX - 1)) name) None None false (atomic_set 1) []]> (dentries s)) s);
  mret (Some d).

Definition dentry_get (d : option Z) : st (vfs F) unit :=
  match d with
  | None => mret tt
  | Some d => upd_dentry d (λ dn, set_refcount (atomic_inc (d_refcount dn)) dn)
  end.

Definition dentry_put (d : option Z) : st (vfs F) unit :=
  match d with
  | None => mret tt
  | Some d =>
      dn ← get_dentry (Some d);
      let '(c, zero) := atomic_dec_and_test (d_refcount dn) in
      _ ← upd_dentry d (set_refcount c);
      if zero : bool then st_modify (λ s, set_heap (d :: heap s) (set_dentries (delete d (dentries s)) s)) else mret tt
  end.

Definition dentry_add (parent child : option Z) : st (vfs F) unit :=
  match parent, child with
  | Some p, Some c =>
      _ ← spinlock_lock p;
      _ ← upd_dentry p (λ dn, set_children (d_children dn ++ [c]) dn);
      _ ← upd_dentry c (set_parent (Some p));
      spinlock_unlock p
  | _, _ => mret tt
  end.

(** The walk over the children. *)
Fixpoint find_child (cs : list Z) (name : list Z) : st (vfs F) (option Z) :=
  match cs with
  | [] => mret None
  | c :: cs =>
      dn ← get_dentry (Some c);
      if bool_decide (d_name dn = name) then mret (Some c) else find_child cs name
  end.

Definition dentry_lookup (parent : option Z) (name : list Z) : st (vfs F) (option Z) :=
  match parent with
  | None => mret None
  | Some p =>
      _ ← spinlock_lock p;
      dn ← get_dentry (Some p);
      r ← find_child (d_children dn) name;
      match r with
      | Some d => _ ← dentry_get (Some d); _ ← spinlock_unlock p; mret (Some d)
      | None => _ ← spinlock_unlock p; mret None
      end
  end.

(** ** Path walks *)

Definition vfs_get_root : st (vfs F) (option Z) :=
  s ← st_get;
  _ ← dentry_get (vfs_root s);
  mret (vfs_root s).

Definition vfs_lookup (parent : option Z) (name : list Z) : st (vfs F) (option Z) :=
  d ← dentry_lookup parent name;
  match d with
  | Some d => mret (Some d)
  | None =>
      d ?← dentry_alloc name;
      dn ← get_dentry (Some d);
      pn ← get_dentry parent;
      r ← (match d_inode pn ≫= op_lookup with
           | Some lookup => on_fs (lookup (d_name dn))
           | None => mret None
           end);
      match r with
      | Some i =>
          _ ← upd_dentry d (set_inode (Some i));
          _ ← dentry_add parent (Some d);
          _ ← dentry_get (Some d);
          mret (Some d)
      | None => _ ← dentry_put (Some d); mret None
      end
  end.

Fixpoint skip_slashes (path : list Z) : list Z :=
  match path with
  | c :: path' => if c =? 47 then skip_slashes path' else path
  | [] => []
  end.

(** [while ( *path && *path != '/' && i < n) name[i++] = *path++;] *)
Fixpoint take_name (n : nat) (path : list Z) : list Z * list Z :=
  match n, path with
  | S n, c :: path' => if c =? 47 then ([], path) else let '(name, rest) := take_name n path' in (c :: name, rest)
  | _, _ => ([], path)
  end.

(** Each turn takes a character at least: the length of the path is enough
    fuel. *)
Fixpoint walk_path (fuel : nat) (path : list Z) (cur : option Z) : st (vfs F) (option Z) :=
  match path with
  | [] => mret cur
  | _ =>
      match fuel with
      | O => st_stop Diverge
      | S fuel =>
          let '(name, path) := take_name (Z.to_nat (NAME_MAX - 1)) path in
          let path := skip_slashes path in
          next ← vfs_lookup cur name;
          _ ← dentry_put cur;
          match next with
          | None => mret None
          | Some next => walk_path fuel path (Some next)
          end
      end
  end.

Definition vfs_path_lookup (path : list Z) : st (vfs F) (option Z) :=
  match path with
  | [] => mret None
  | c :: _ =>
      root ← vfs_get_root;
      let path := if c =? 47 then skip_slashes path else path in
      walk_path (length path) path root
  end.

(** The parent and the last name. *)
Fixpoint walk_parent (fuel : nat) (seg : list Z) (leaf_sz : Z) (cur : option Z) :
    st (vfs F) (option (option Z * list Z)) :=
  match fuel with
  | O => st_stop Diverge
  | S fuel =>
      let '(name, seg_end) := take_name (length seg) seg in
      let next := skip_slashes seg_end in
      let n := Z.of_nat (length name) in
      match next with
      | [] =>
          if (n =? 0) || (leaf_sz <=? n) then _ ← dentry_put cur; mret None
          else mret (Some (cur, name))
      | _ =>
          if (n =? 0) || (NAME_MAX <=? n) then _ ← dentry_put cur; mret None
          else
            child ← vfs_lookup cur name;
            _ ← dentry_put cur;
            match child with
            | None => mret None
            | Some child => walk_parent fuel next leaf_sz (Some child)
            end
      end
  end.

Definition vfs_lookup_parent (path : list Z) (leaf_sz : Z) : st (vfs F) (option (option Z * list Z)) :=
  match path with
  | c :: _ =>
      if negb (c =? 47) then mret None
      else
        match skip_slashes path with
        | [] => mret None
        | path => root ← vfs_get_root; walk_parent (S (length path)) path leaf_sz root
        end
  | [] => mret None
  end.

(** ** Operations on the name space *)

(** 0 or -1. *)
Definition vfs_mknod (path : list Z) (mode : Z) (dir : bool) : st (vfs F) Z :=
  r ← vfs_lookup_parent path NAME_MAX;
  match r with
  | None => mret (-1)
  | Some (parent, leaf) =>
      pn ← get_dentry parent;
      let op := d_inode pn ≫= if dir then op_mkdir else op_create in
      rc ← (match op with
            | None => mret (-1)
            | Some op =>
                hit ← dentry_lookup parent leaf;
                match hit with
                | Some _ => mret (-1)
                | None =>
                    d ← dentry_alloc leaf;
                    match d with
                    | None => mret (-1)
                    | Some d =>
                        dn ← get_dentry (Some d);
                        r ← on_fs (op (d_name dn) mode);
                        match r with
                        | Some i =>
                            _ ← upd_dentry d (set_inode (Some i));
                            _ ← dentry_add parent (Some d);
                            mret 0
                        | None => _ ← dentry_put (Some d); mret (-1)
                        end
                    end
                end
            end);
      _ ← dentry_put parent;
      mret rc
  end.

Definition vfs_create (path : list Z) (mode : Z) : st (vfs F) Z := vfs_mknod path mode false.
Definition vfs_mkdir (path : list Z) (mode : Z) : st (vfs F) Z := vfs_mknod path mode true.

(** [list_del(&cached->sibling)]: the entry leaves the list of its parent. *)
Definition unlink_child (p d : Z) : st (vfs F) unit :=
  upd_dentry p (λ dn, set_children (list_difference (d_children dn) [d]) dn).

Definition vfs_remove (path : list Z) (dir : bool) : st (vfs F) Z :=
  r ← vfs_lookup_parent path NAME_MAX;
  match r with
  | None => mret (-1)
  | Some (parent, leaf) =>
      pn ← get_dentry parent;
      let op := d_inode pn ≫= if dir then op_rmdir else op_unlink in
      rc ← (match op with
            | None => mret (-1)
            | Some op =>
                d ← dentry_alloc leaf;
                match d with
                | None => mret (-1)
                | Some d =>
                    dn ← get_dentry (Some d);
                    rc ← on_fs (op (d_name dn));
                    _ ← (if rc =? 0 then
                           cached ← dentry_lookup parent leaf;
                           match parent, cached with
                           | Some p, Some c =>
                               _ ← unlink_child p c;
                               _ ← dentry_put (Some c);
                               dentry_put (Some c)
                           | _, _ => mret tt
                           end
                         else mret tt);
                    _ ← dentry_put (Some d);
                    mret rc
                end
            end);
      _ ← dentry_put parent;
      mret rc
  end.

Definition vfs_unlink (path : list Z) : st (vfs F) Z := vfs_remove path false.
Definition vfs_rmdir (path : list Z) : st (vfs F) Z := vfs_remove path true.

(** ** Open files *)

Definition free_file (f : Z) : st (vfs F) unit :=
  st_modify (λ s, set_heap (f :: heap s) (set_files (delete f (files s)) s)).

Definition get_file (f : Z) : st (vfs F) file :=
  s ← st_get; st_run (access (files s !! f)).

Definition put_file (f : Z) (fl : file) : st (vfs F) unit := st_modify (λ s, set_files (<[f := fl]> (files s)) s).

(** The dentry of [vfs_open], created when it is missing and [O_CREAT] is set. *)
Definition open_dentry (path : list Z) (flags : Z) : st (vfs F) (option Z) :=
  d ← vfs_path_lookup path;
  match d with
  | Some d => mret (Some d)
  | None =>
      if has_flag flags O_CREAT then
        rc ← vfs_create path 0;
        if negb (rc =? 0) then mret None else vfs_path_lookup path
      else mret None
  end.

Definition vfs_open (path : list Z) (flags : Z) : st (vfs F) (option Z) :=
  d ?← open_dentry path flags;
  dn ← get_dentry (Some d);
  match d_inode dn with
  | None => _ ← dentry_put (Some d); mret None
  | Some i =>
      rc ← (if has_flag flags O_TRUNC && has_flag flags (Z.lor O_WRONLY O_RDWR) then
              match op_truncate i with Some truncate => on_fs (truncate 0) | None => mret 0 end
            else mret 0);
      if negb (rc =? 0) then _ ← dentry_put (Some d); mret None
      else
        f ← zalloc;
        match f with
        | None => _ ← dentry_put (Some d); mret None
        | Some f =>
            _ ← put_file f (File (Some i) 0 (u32 flags) (Some d));
            rc ← (match op_open i with Some open => on_fs open | None => mret 0 end);
            if negb (rc =? 0) then _ ← dentry_put (Some d); _ ← free_file f; mret None
            else mret (Some f)
        end
  end.

Definition vfs_close (f : option Z) : st (vfs F) unit :=
  match f with
  | None => mret tt
  | Some f =>
      fl ← get_file f;
      _ ← (match fl_inode fl ≫= op_release with Some release => on_fs release | None => mret 0 end);
      _ ← dentry_put (fl_dentry fl);
      free_file f
  end.

Definition advance (fl : file) (n : Z) : file :=
  File (fl_inode fl) (if 0 <? n then u64 (fl_offset fl + n) else fl_offset fl) (fl_flags fl) (fl_dentry fl).

(** The result and the bytes in the buffer; the offset is passed as [off_t]. *)
Definition vfs_read (f : option Z) (count : Z) : st (vfs F) (Z * list Z) :=
  match f with
  | None => mret (-1, [])
  | Some f =>
      fl ← get_file f;
      match fl_inode fl ≫= op_read with
      | None => mret (-1, [])
      | Some read =>
          '(n, buf) ← on_fs (read count (i64 (fl_offset fl)));
          _ ← put_file f (advance fl n);
          mret (n, buf)
      end
  end.

Definition vfs_write (f : option Z) (buf : list Z) : st (vfs F) Z :=
  match f with
  | None => mret (-1)
  | Some f =>
      fl ← get_file f;
      match fl_inode fl with
      | None => mret (-1)
      | Some i =>
          match op_write i with
          | None => mret (-1)
          | Some write =>
              offset ← (if has_flag (fl_flags fl) O_APPEND then on_fs (inode_size i) else mret (fl_offset fl));
              let fl := File (fl_inode fl) offset (fl_flags fl) (fl_dentry fl) in
              n ← on_fs (write buf (i64 offset));
              _ ← put_file f (advance fl n);
              mret n
          end
      end
  end.

Definition free_buffer (b : option Z) : st (vfs F) unit :=
  match b with Some b => st_modify (λ s, set_heap (b :: heap s) s) | None => mret tt end.

(** The contents of the returned buffer, nothing for the null pointer. When
    [open] fails the code returns a pointer it has not initialised. *)
Definition vfs_read_all (path : list Z) : st (vfs F) (option (list Z)) :=
  d ?← vfs_path_lookup path;
  dn ← get_dentry (Some d);
  match d_inode dn with
  | None => _ ← dentry_put (Some d); mret None
  | Some i =>
      rc ← (match op_open i with Some open => on_fs open | None => mret 0 end);
      if negb (rc =? 0) then _ ← dentry_put (Some d); st_stop Fault
      else
        size ← on_fs (inode_size i);
        buffer ← zalloc;
        r ← (match op_read i with
             | Some read =>
                 '(n, buf) ← on_fs (read size 0);
                 match buffer, buf with
                 | None, _ :: _ => st_stop Fault
                 | _, _ =>
                     if negb (n =? i64 size) then _ ← free_buffer buffer; mret None
                     else mret (match buffer with Some _ => Some buf | None => None end)
                 end
             | None => mret (match buffer with Some _ => Some (replicate (Z.to_nat size) 0) | None => None end)
             end);
        _ ← dentry_put (Some d);
        mret r
  end.
End vfs.
