(* ===== verification/VfsRefs.v ===== *)
(** * References of the directory cache (lizard/dentry.c, vfs.c)

    The reference count of an entry is one for the cache, when the entry is in
    the tree, and one for each reference that is held. The theorems hold for
    every file system: a call of the virtual file system either ends as stated
    or stops inside an operation of the file system. *)

From S2P Require Import Prelude Dirent Vfs.

Local Open Scope Z_scope.

(** ** Specification *)

(** The calls into a file system. *)
Inductive fs_call {F} `{!fs_ops F} : ∀ A, st F A → Prop :=
  | call_size i : fs_call _ (inode_size i)
  | call_lookup i op name : op_lookup i = Some op → fs_call _ (op name)
  | call_create i op name mode : op_create i = Some op → fs_call _ (op name mode)
  | call_mkdir i op name mode : op_mkdir i = Some op → fs_call _ (op name mode)
  | call_unlink i op name : op_unlink i = Some op → fs_call _ (op name)
  | call_rmdir i op name : op_rmdir i = Some op → fs_call _ (op name)
  | call_truncate i op n : op_truncate i = Some op → fs_call _ (op n)
  | call_open i op : op_open i = Some op → fs_call _ op
  | call_release i op : op_release i = Some op → fs_call _ op
  | call_read i op count offset : op_read i = Some op → fs_call _ (op count offset)
  | call_write i op buf offset : op_write i = Some op → fs_call _ (op buf offset).

(** The file system itself stops, in some state. *)
Definition fs_stops {F} `{!fs_ops F} (e : stop) : Prop := ∃ A (m : st F A) f, fs_call A m ∧ m f = Stop e.

(** [m] ends with a result and a state in [Q], or the file system stops. *)
Definition wpf {F} `{!fs_ops F} {A} (m : st (vfs F) A) (Q : A → vfs F → Prop) (s : vfs F) : Prop :=
  match m s with Done (a, s') => Q a s' | Stop e => fs_stops e end.

(** The state of the cache: [lk] is the entry whose lock is held, [linked] the
    entries for which the tree holds a reference, [refs] the other references,
    one occurrence for each. *)
Record refs_ok {F} (s : vfs F) (lk : option Z) (linked : gset Z) (refs : list Z) : Prop := {
  ro_heap : NoDup (heap s);
  ro_free a : a ∈ heap s → dentries s !! a = None ∧ files s !! a = None;
  ro_files a : is_Some (files s !! a) → dentries s !! a = None;
  ro_root : ∃ r, vfs_root s = Some r ∧ r ∈ linked;
  ro_dom d : d ∈ linked ∨ d ∈ refs → is_Some (dentries s !! d);
  ro_count d dn : dentries s !! d = Some dn →
    d_locked dn = bool_decide (lk = Some d) ∧
    d_refcount dn = (if bool_decide (d ∈ linked) then 1 else 0) + Z.of_nat (count_occ Z.eq_dec refs d) ∧
    0 < d_refcount dn;
  ro_children p pn d : dentries s !! p = Some pn → d ∈ d_children pn → d ∈ linked;
  ro_parent p q pn qn d : dentries s !! p = Some pn → dentries s !! q = Some qn →
    d ∈ d_children pn → d ∈ d_children qn → p = q;
  ro_root_child p pn d : dentries s !! p = Some pn → vfs_root s = Some d → d ∉ d_children pn;
  ro_bound : Z.of_nat (length refs) < 2 ^ 62
}.

(** Everything but the counts and the locks is the same. *)
Definition strip (dn : dentry) : dentry := set_locked false (set_refcount 0 dn).
Definition same_shape {F} (s s' : vfs F) : Prop :=
  heap s' = heap s ∧ files s' = files s ∧ vfs_root s' = vfs_root s ∧ fsys s' = fsys s ∧
  ∀ a, strip <$> dentries s' !! a = strip <$> dentries s !! a.

(** [d] is an entry of the directory [p] with the given name. *)
Definition child_named {F} (s : vfs F) (p : Z) (name : list Z) (d : Z) : Prop :=
  ∃ pn dn, dentries s !! p = Some pn ∧ dentries s !! d = Some dn ∧ d ∈ d_children pn ∧ d_name dn = name.

(** ** Lemmas *)

Section lemmas.
Context {F : Type} `{!fs_ops F}.
Implicit Types s : vfs F.

Lemma wpf_ret {A} (a : A) (Q : A → vfs F → Prop) s : Q a s → wpf (mret a) Q s.
Proof. done. Qed.

Lemma wpf_bind {A B} (m : st (vfs F) A) (k : A → st (vfs F) B) Q s :
  wpf m (λ a s', wpf (k a) Q s') s → wpf (m ≫= k) Q s.
Proof. unfold wpf, mbind, st_bind. by destruct (m s) as [[a s']|e]. Qed.

Lemma wpf_mono {A} (m : st (vfs F) A) (Q Q' : A → vfs F → Prop) s :
  wpf m Q s → (∀ a s', Q a s' → Q' a s') → wpf m Q' s.
Proof. unfold wpf. destruct (m s) as [[a s']|e]; auto. Qed.

Lemma wpf_try {A B} (m : st (vfs F) (option A)) (k : A → st (vfs F) (option B)) Q s :
  wpf m (λ r s', match r with Some a => wpf (k a) Q s' | None => Q None s' end) s → wpf (st_try m k) Q s.
Proof. unfold wpf, st_try, mbind, st_bind. by destruct (m s) as [[[a|] s']|e]. Qed.

Lemma wpf_modify f (Q : unit → vfs F → Prop) s : Q tt (f s) → wpf (st_modify f) Q s.
Proof. done. Qed.

Lemma wpf_get (Q : vfs F → vfs F → Prop) s : Q s s → wpf st_get Q s.
Proof. done. Qed.

Lemma wpf_on_fs {A} (m : st F A) (Q : A → vfs F → Prop) s :
  fs_call A m → (∀ a f, Q a (Vfs (dentries s) (files s) (heap s) (vfs_root s) f)) → wpf (on_fs m) Q s.
Proof.
  intros Hm HQ. unfold wpf, on_fs. destruct (m (fsys s)) as [[a f]|e] eqn:E; [apply HQ|].
  exists A, m, (fsys s). by split.
Qed.

Lemma wpf_get_dentry d dn (Q : dentry → vfs F → Prop) s :
  dentries s !! d = Some dn → Q dn s → wpf (get_dentry (Some d)) Q s.
Proof. intros Hd HQ. unfold wpf, get_dentry, mbind, st_bind, st_get, st_run. cbn [access]. by rewrite Hd. Qed.

Lemma wpf_upd_dentry d dn f (Q : unit → vfs F → Prop) s :
  dentries s !! d = Some dn → Q tt (set_dentries (<[d := f dn]> (dentries s)) s) → wpf (upd_dentry d f) Q s.
Proof. intros Hd HQ. unfold upd_dentry. eapply wpf_bind, wpf_get_dentry; [done|]. by apply wpf_modify. Qed.

Lemma same_shape_refl s : same_shape s s.
Proof. by repeat split. Qed.

Lemma same_shape_trans s1 s2 s3 : same_shape s1 s2 → same_shape s2 s3 → same_shape s1 s3.
Proof. intros (? & ? & ? & ? & Ha) (? & ? & ? & ? & Hb). split_and!; congruence. Qed.

Lemma same_shape_upd s d dn dn' : dentries s !! d = Some dn → strip dn' = strip dn →
  same_shape s (set_dentries (<[d := dn']> (dentries s)) s).
Proof.
  intros Hd Hs. split_and!; try done. intros a. cbn. destruct (decide (a = d)) as [->|].
  - rewrite lookup_insert_eq, Hd. cbn. by f_equal.
  - by rewrite lookup_insert_ne.
Qed.

(** What an entry keeps when only counts and locks change. *)
Lemma same_shape_lookup s s' d dn : same_shape s s' → dentries s !! d = Some dn →
  ∃ dn', dentries s' !! d = Some dn' ∧ d_name dn' = d_name dn ∧ d_children dn' = d_children dn ∧
    d_inode dn' = d_inode dn.
Proof.
  intros (_ & _ & _ & _ & H) Hd. specialize (H d). rewrite Hd in H. cbn in H.
  destruct (dentries s' !! d) as [dn'|]; [|done]. injection H as Hn Hp Hi Hc. by exists dn'.
Qed.

(** The state after an entry changed in its count or its lock. *)
Lemma refs_upd s lk lk' linked linked' refs refs' d dn c b :
  refs_ok s lk linked refs → dentries s !! d = Some dn →
  (∀ x, x ≠ d → (x ∈ linked' ↔ x ∈ linked) ∧ count_occ Z.eq_dec refs' x = count_occ Z.eq_dec refs x ∧
     (lk' = Some x ↔ lk = Some x)) →
  b = bool_decide (lk' = Some d) →
  c = (if bool_decide (d ∈ linked') then 1 else 0) + Z.of_nat (count_occ Z.eq_dec refs' d) → 0 < c →
  (∀ p pn, dentries s !! p = Some pn → d ∈ d_children pn → d ∈ linked') →
  (vfs_root s = Some d → d ∈ linked') → Z.of_nat (length refs') < 2 ^ 62 →
  refs_ok (set_dentries (<[d := set_locked b (set_refcount c dn)]> (dentries s)) s) lk' linked' refs'.
Proof.
  intros Hok Hd Hx Hb Hc Hpos Hch Hroot Hlen. destruct Hok as [H1 H2 H3 H4 H5 H6 H7 H8 H9 H10].
  assert (Hlook : ∀ a dn0, <[d := set_locked b (set_refcount c dn)]> (dentries s) !! a = Some dn0 →
    ∃ dn1, dentries s !! a = Some dn1 ∧ d_children dn0 = d_children dn1).
  { intros a dn0 Ha. apply lookup_insert_Some in Ha as [[<- <-]|[Hne Ha]]; [by exists dn|by exists dn0]. }
  split; cbn [dentries files heap vfs_root set_dentries].
  - done.
  - intros a Ha. destruct (H2 a Ha) as [E1 E2]. split; [|done]. rewrite lookup_insert_ne; [done|]. intros ->. congruence.
  - intros a Ha. pose proof (H3 a Ha). rewrite lookup_insert_ne; [done|]. intros ->. congruence.
  - destruct H4 as (r & Hr & Hin). exists r. split; [done|]. destruct (decide (r = d)) as [->|Hne]; [by apply Hroot|].
    by apply (Hx r Hne).
  - intros a Ha. destruct (decide (a = d)) as [->|Hne]; [rewrite lookup_insert_eq; by eexists|].
    rewrite lookup_insert_ne by done. apply H5. destruct (Hx a Hne) as (Hl & Ho & _).
    destruct Ha as [Ha|Ha]; [left; by apply Hl|right].
    apply list_elem_of_In, (count_occ_In Z.eq_dec). rewrite <- Ho. by apply (count_occ_In Z.eq_dec), list_elem_of_In.
  - intros a dn0 Ha. apply lookup_insert_Some in Ha as [[<- <-]|[Hne Ha]]; [done|].
    destruct (H6 a dn0 Ha) as (Hl & Hr & Hp). destruct (Hx a ltac:(done)) as (Hl' & Ho & Hk).
    split; [rewrite Hl; by apply bool_decide_ext|]. split; [|done]. rewrite Hr, Ho. f_equal.
    by rewrite (bool_decide_ext _ _ Hl').
  - intros p pn a Hp Ha. apply Hlook in Hp as (pn' & Hp & E). rewrite E in Ha.
    destruct (decide (a = d)) as [->|Hne]; [by eapply Hch|]. apply (Hx a Hne). by eapply H7.
  - intros p q pn qn a Hp Hq Ha Hb'. apply Hlook in Hp as (pn' & Hp & E1), Hq as (qn' & Hq & E2).
    rewrite E1 in Ha. rewrite E2 in Hb'. by eapply H8.
  - intros p pn a Hp Ha. apply Hlook in Hp as (pn' & Hp & E1). rewrite E1. by eapply H9.
  - done.
Qed.

Lemma count_cons (d x : Z) refs :
  Z.of_nat (count_occ Z.eq_dec (d :: refs) x) = (if bool_decide (x = d) then 1 else 0) + Z.of_nat (count_occ Z.eq_dec refs x).
Proof. cbn. destruct (Z.eq_dec d x), (bool_decide_reflect (x = d)); lia || congruence. Qed.

Lemma count_cons_eq (d : Z) refs : Z.of_nat (count_occ Z.eq_dec (d :: refs) d) = 1 + Z.of_nat (count_occ Z.eq_dec refs d).
Proof. rewrite count_cons. by rewrite bool_decide_eq_true_2. Qed.

Lemma count_cons_ne (d x : Z) refs : x ≠ d → count_occ Z.eq_dec (d :: refs) x = count_occ Z.eq_dec refs x.
Proof. intros. by rewrite count_occ_cons_neq. Qed.

Lemma refs_count_bound s lk linked refs d dn : refs_ok s lk linked refs → dentries s !! d = Some dn →
  0 < d_refcount dn < 2 ^ 63 - 1.
Proof.
  intros Hok Hd. destruct (ro_count _ _ _ _ Hok d dn Hd) as (_ & E & Hp). split; [done|].
  pose proof (count_occ_bound Z.eq_dec d refs). pose proof (ro_bound _ _ _ _ Hok). case_bool_decide; lia.
Qed.

Lemma lock_wpf s linked refs p : refs_ok s None linked refs → is_Some (dentries s !! p) →
  wpf (spinlock_lock p) (λ _ s', refs_ok s' (Some p) linked refs ∧ same_shape s s') s.
Proof.
  intros Hok [pn Hp]. destruct (ro_count _ _ _ _ Hok p pn Hp) as (Hl & Hc & Hpos).
  unfold spinlock_lock. eapply wpf_bind, wpf_get_dentry; [done|]. rewrite Hl. rewrite bool_decide_eq_false_2 by done.
  eapply wpf_upd_dentry; [done|]. split; [|by eapply same_shape_upd].
  replace (set_locked true pn) with (set_locked true (set_refcount (d_refcount pn) pn)) by (by destruct pn).
  apply (refs_upd s None (Some p) linked linked refs refs p pn); try done.
  - intros x Hx. split; [done|]. split; [done|]. split; congruence.
  - by rewrite bool_decide_eq_true_2.
  - intros q qn Hq Hin. by eapply (ro_children _ _ _ _ Hok).
  - intros Hr. destruct (ro_root _ _ _ _ Hok) as (r & Hr' & Hin). congruence.
  - apply Hok.
Qed.

Lemma unlock_wpf s linked refs p : refs_ok s (Some p) linked refs → is_Some (dentries s !! p) →
  wpf (spinlock_unlock p) (λ _ s', refs_ok s' None linked refs ∧ same_shape s s') s.
Proof.
  intros Hok [pn Hp]. destruct (ro_count _ _ _ _ Hok p pn Hp) as (Hl & Hc & Hpos).
  eapply wpf_upd_dentry; [done|]. split; [|by eapply same_shape_upd].
  replace (set_locked false pn) with (set_locked false (set_refcount (d_refcount pn) pn)) by (by destruct pn).
  apply (refs_upd s (Some p) None linked linked refs refs p pn); try done.
  - intros x Hx. split; [done|]. split; [done|]. split; congruence.
  - intros q qn Hq Hin. by eapply (ro_children _ _ _ _ Hok).
  - intros Hr. destruct (ro_root _ _ _ _ Hok) as (r & Hr' & Hin). congruence.
  - apply Hok.
Qed.

Lemma dentry_get_wpf s lk linked refs d : refs_ok s lk linked refs → is_Some (dentries s !! d) →
  Z.of_nat (length refs) + 1 < 2 ^ 62 →
  wpf (dentry_get (Some d)) (λ _ s', refs_ok s' lk linked (d :: refs) ∧ same_shape s s') s.
Proof.
  intros Hok [dn Hd] Hlen. destruct (ro_count _ _ _ _ Hok d dn Hd) as (Hl & Hc & Hpos).
  pose proof (refs_count_bound _ _ _ _ _ _ Hok Hd). cbn [dentry_get].
  eapply wpf_upd_dentry; [done|]. split; [|by eapply same_shape_upd].
  replace (set_refcount (atomic_inc (d_refcount dn)) dn) with (set_locked (d_locked dn) (set_refcount (d_refcount dn + 1) dn)).
  2:{ unfold atomic_inc, atomic_add. rewrite swrap_small by lia. by destruct dn. }
  apply (refs_upd s lk lk linked linked refs (d :: refs) d dn); try done.
  - intros x Hx. by rewrite count_cons_ne.
  - rewrite count_cons_eq. lia.
  - lia.
  - intros q qn Hq Hin. by eapply (ro_children _ _ _ _ Hok).
  - intros Hr. destruct (ro_root _ _ _ _ Hok) as (r & Hr' & Hin). congruence.
  - cbn [length]. lia.
Qed.

(** Giving back a reference to an entry that has another one. *)
Lemma dentry_put_keep_wpf s lk linked refs d :
  refs_ok s lk linked (d :: refs) → d ∈ linked ∨ d ∈ refs →
  wpf (dentry_put (Some d)) (λ _ s', refs_ok s' lk linked refs ∧ same_shape s s') s.
Proof.
  intros Hok Hin. destruct (ro_dom _ _ _ _ Hok d ltac:(right; by left)) as [dn Hd].
  destruct (ro_count _ _ _ _ Hok d dn Hd) as (Hl & Hc & Hpos). pose proof (refs_count_bound _ _ _ _ _ _ Hok Hd).
  rewrite count_cons_eq in Hc.
  assert (Hpos' : 0 < (if bool_decide (d ∈ linked) then 1 else 0) + Z.of_nat (count_occ Z.eq_dec refs d)).
  { destruct Hin as [Hin|Hin]; [rewrite bool_decide_eq_true_2 by done; lia|].
    apply list_elem_of_In, (count_occ_In Z.eq_dec) in Hin. case_bool_decide; lia. }
  cbn [dentry_put]. eapply wpf_bind, wpf_get_dentry; [done|]. unfold atomic_dec_and_test, atomic_dec, atomic_sub.
  rewrite swrap_small by lia. eapply wpf_bind, wpf_upd_dentry; [done|].
  rewrite (proj2 (Z.eqb_neq _ 0)) by lia. apply wpf_ret. split; [|by eapply same_shape_upd].
  replace (set_refcount (d_refcount dn - 1) dn) with (set_locked (d_locked dn) (set_refcount (d_refcount dn - 1) dn))
    by (by destruct dn).
  apply (refs_upd s lk lk linked linked (d :: refs) refs d dn); try done.
  - intros x Hx. by rewrite count_cons_ne.
  - lia.
  - lia.
  - intros q qn Hq Hc'. by eapply (ro_children _ _ _ _ Hok).
  - intros Hr. destruct (ro_root _ _ _ _ Hok) as (r & Hr' & Hin'). congruence.
  - pose proof (ro_bound _ _ _ _ Hok) as Hb. cbn [length] in Hb. lia.
Qed.

(** ** Search, allocation and insertion *)

Lemma find_child_wpf s cs name : (∀ c, c ∈ cs → is_Some (dentries s !! c)) →
  wpf (find_child cs name) (λ r s', s' = s ∧
    match r with
    | Some d => d ∈ cs ∧ ∃ dn, dentries s !! d = Some dn ∧ d_name dn = name
    | None => ∀ c dn, c ∈ cs → dentries s !! c = Some dn → d_name dn ≠ name
    end) s.
Proof.
  induction cs as [|c cs IH]; intros Hdom; cbn [find_child].
  { apply wpf_ret. split; [done|]. intros c dn Hc. by apply not_elem_of_nil in Hc. }
  destruct (Hdom c ltac:(by left)) as [dn Hc]. eapply wpf_bind, wpf_get_dentry; [done|].
  case_bool_decide as Hn.
  - apply wpf_ret. split; [done|]. split; [by left|]. by exists dn.
  - eapply wpf_mono; [apply IH; intros x Hx; apply Hdom; by right|]. intros [d|] s' [-> H]; (split; [done|]).
    + destruct H as [Hin Hd]. split; [by right|done].
    + intros x xn [->|Hx]%elem_of_cons Hxn; [congruence|by eapply H].
Qed.

Lemma dentry_lookup_wpf s linked refs p name :
  refs_ok s None linked refs → is_Some (dentries s !! p) → Z.of_nat (length refs) + 1 < 2 ^ 62 →
  wpf (dentry_lookup (Some p) name) (λ r s', same_shape s s' ∧
    match r with
    | Some d => child_named s p name d ∧ d ∈ linked ∧ refs_ok s' None linked (d :: refs)
    | None => (∀ d, ¬ child_named s p name d) ∧ refs_ok s' None linked refs
    end) s.
Proof.
  intros Hok [pn Hp] Hlen. cbn [dentry_lookup]. apply wpf_bind.
  eapply wpf_mono; [by apply (lock_wpf s linked refs p)|]. intros [] s1 [Hok1 Hs1].
  destruct (same_shape_lookup _ _ _ _ Hs1 Hp) as (pn1 & Hp1 & _ & Ech & _).
  assert (Hdom : ∀ c, c ∈ d_children pn1 → is_Some (dentries s1 !! c)).
  { intros c Hc. apply (ro_dom _ _ _ _ Hok1). left. by eapply (ro_children _ _ _ _ Hok1). }
  eapply wpf_bind, wpf_get_dentry; [done|]. apply wpf_bind. eapply wpf_mono; [by apply find_child_wpf|].
  intros [d|] s1' [-> H].
  - destruct H as (Hd & dn1 & Hd1 & Hn). pose proof (ro_children _ _ _ _ Hok1 p pn1 d Hp1 Hd) as Hl.
    apply wpf_bind. eapply wpf_mono; [by apply (dentry_get_wpf s1 (Some p) linked refs d); [|by eexists|]|].
    intros [] s2 [Hok2 Hs2]. apply wpf_bind.
    eapply wpf_mono; [apply (unlock_wpf s2 linked (d :: refs) p); [done|]|].
    { destruct (same_shape_lookup _ _ _ _ Hs2 Hp1) as (? & ? & _). by eexists. }
    intros [] s3 [Hok3 Hs3]. apply wpf_ret. split; [by do 2 (eapply same_shape_trans; [done|])|].
    split; [|by split]. destruct (ro_dom _ _ _ _ Hok d ltac:(by left)) as [dn Hdn].
    destruct (same_shape_lookup _ _ _ _ Hs1 Hdn) as (dn' & Hdn' & Ename & _). exists pn, dn.
    split; [done|]. split; [done|]. split; [by rewrite <- Ech|]. congruence.
  - apply wpf_bind. eapply wpf_mono; [apply (unlock_wpf s1 linked refs p); [done|by eexists]|].
    intros [] s3 [Hok3 Hs3]. apply wpf_ret. split; [by eapply same_shape_trans|]. split; [|done].
    intros d (pn' & dn & Hp' & Hd & Hin & Hn). rewrite Hp in Hp'. injection Hp' as <-.
    destruct (same_shape_lookup _ _ _ _ Hs1 Hd) as (dn' & Hd' & Ename & _). rewrite <- Ech in Hin.
    apply (H d dn' Hin Hd'). congruence.
Qed.

Definition new_dentry (name : list Z) : dentry :=
  Dentry (take (Z.to_nat (NAME_MAX - 1)) name) None None false 1 [].

Lemma dentry_alloc_wpf s lk linked refs name :
  refs_ok s lk linked refs → (∀ d, lk = Some d → is_Some (dentries s !! d)) → Z.of_nat (length refs) + 1 < 2 ^ 62 →
  wpf (dentry_alloc name) (λ r s',
    match r with
    | None => s' = s
    | Some d => dentries s !! d = None ∧ d ∉ linked ∧ d ∉ refs ∧ refs_ok s' lk linked (d :: refs) ∧
        s' = Vfs (<[d := new_dentry name]> (dentries s)) (files s) (heap s') (vfs_root s) (fsys s)
    end) s.
Proof.
  intros Hok Hlk Hlen. unfold dentry_alloc. apply wpf_try. unfold zalloc, wpf.
  destruct (heap s) as [|d h] eqn:Eh; [done|]. cbn. pose proof (ro_heap _ _ _ _ Hok) as Hnd. rewrite Eh in Hnd.
  apply NoDup_cons in Hnd as [Hdh Hnd]. destruct (ro_free _ _ _ _ Hok d) as [Hd Hf]; [rewrite Eh; by left|].
  assert (Hdl : d ∉ linked).
  { intros H. destruct (ro_dom _ _ _ _ Hok d (or_introl H)). congruence. }
  assert (Hdr : d ∉ refs).
  { intros H. destruct (ro_dom _ _ _ _ Hok d (or_intror H)). congruence. }
  assert (Hcnt : count_occ Z.eq_dec refs d = 0%nat).
  { apply count_occ_not_In. intros H. by apply Hdr, list_elem_of_In. }
  split; [done|]. split; [done|]. split; [done|]. split; [|done].
  assert (Hlook : ∀ p pn, <[d := new_dentry name]> (dentries s) !! p = Some pn →
    (p = d ∧ pn = new_dentry name) ∨ (p ≠ d ∧ dentries s !! p = Some pn)).
  { intros p pn H. apply lookup_insert_Some in H as [[<- <-]|[? ?]]; [by left|right; by split]. }
  change (Dentry (take (Z.to_nat (NAME_MAX - 1)) name) None None false (atomic_set 1) []) with (new_dentry name).
  split; cbn [dentries files heap vfs_root set_dentries set_heap].
  - done.
  - intros a Ha. destruct (ro_free _ _ _ _ Hok a) as [Ha1 Ha2]; [rewrite Eh; by right|]. split; [|done].
    rewrite lookup_insert_ne; [done|]. by intros ->.
  - intros a Ha. rewrite lookup_insert_ne; [by apply (ro_files _ _ _ _ Hok)|]. intros ->. rewrite Hf in Ha. by destruct Ha.
  - apply (ro_root _ _ _ _ Hok).
  - intros a Ha. destruct (decide (a = d)) as [->|Hne]; [rewrite lookup_insert_eq; by eexists|].
    rewrite lookup_insert_ne by done. apply (ro_dom _ _ _ _ Hok). destruct Ha as [Ha|Ha]; [by left|right].
    by apply elem_of_cons in Ha as [?|?].
  - intros p pn Hp. apply Hlook in Hp as [[-> ->]|[Hne Hp]].
    + split; [symmetry; apply bool_decide_eq_false; intros E; destruct (Hlk d E); congruence|].
      rewrite count_cons_eq, Hcnt, (bool_decide_eq_false_2 (d ∈ linked)) by done. done.
    + destruct (ro_count _ _ _ _ Hok p pn Hp) as (? & ? & ?). by rewrite count_cons_ne.
  - intros p pn a Hp Ha. apply Hlook in Hp as [[-> ->]|[Hne Hp]]; [by apply not_elem_of_nil in Ha|].
    by eapply (ro_children _ _ _ _ Hok).
  - intros p q pn qn a Hp Hq Ha Hb. apply Hlook in Hp as [[-> ->]|[? Hp]]; [by apply not_elem_of_nil in Ha|].
    apply Hlook in Hq as [[-> ->]|[? Hq]]; [by apply not_elem_of_nil in Hb|]. by eapply (ro_parent _ _ _ _ Hok).
  - intros p pn a Hp Ha. apply Hlook in Hp as [[-> ->]|[? Hp]]; [apply not_elem_of_nil|]. by eapply (ro_root_child _ _ _ _ Hok).
  - cbn [length]. lia.
Qed.

(** An entry that changes in neither its count, its lock nor its children. *)
Lemma refs_field s lk linked refs d dn dn' :
  refs_ok s lk linked refs → dentries s !! d = Some dn →
  d_locked dn' = d_locked dn → d_refcount dn' = d_refcount dn → d_children dn' = d_children dn →
  refs_ok (set_dentries (<[d := dn']> (dentries s)) s) lk linked refs.
Proof.
  intros Hok Hd El Ec Ech. destruct Hok as [H1 H2 H3 H4 H5 H6 H7 H8 H9 H10].
  assert (Hlook : ∀ a an, <[d := dn']> (dentries s) !! a = Some an → ∃ an0, dentries s !! a = Some an0 ∧
    d_locked an = d_locked an0 ∧ d_refcount an = d_refcount an0 ∧ d_children an = d_children an0).
  { intros a an Ha. apply lookup_insert_Some in Ha as [[<- <-]|[_ Ha]]; [by exists dn|by exists an]. }
  split; cbn [dentries files heap vfs_root set_dentries]; try done.
  - intros a Ha. destruct (H2 a Ha). split; [|done]. rewrite lookup_insert_ne; [done|]. intros ->. congruence.
  - intros a Ha. pose proof (H3 a Ha). rewrite lookup_insert_ne; [done|]. intros ->. congruence.
  - intros a Ha. destruct (decide (a = d)) as [->|]; [rewrite lookup_insert_eq; by eexists|].
    rewrite lookup_insert_ne by done. by apply H5.
  - intros a an Ha. apply Hlook in Ha as (an0 & Ha & -> & -> & _). by apply H6.
  - intros p pn a Hp Ha. apply Hlook in Hp as (pn0 & Hp & _ & _ & E). rewrite E in Ha. by eapply H7.
  - intros p q pn qn a Hp Hq Ha Hb. apply Hlook in Hp as (pn0 & Hp & _ & _ & E1), Hq as (qn0 & Hq & _ & _ & E2).
    rewrite E1 in Ha. rewrite E2 in Hb. by eapply H8.
  - intros p pn a Hp Ha. apply Hlook in Hp as (pn0 & Hp & _ & _ & E). rewrite E. by eapply H9.
Qed.

(** A new entry becomes a child: the reference of its creator is the cache's. *)
Lemma refs_link s lk linked refs p pn d :
  refs_ok s lk linked (d :: refs) → dentries s !! p = Some pn → p ≠ d → d ∉ linked →
  refs_ok (set_dentries (<[p := set_children (d_children pn ++ [d]) pn]> (dentries s)) s) lk ({[d]} ∪ linked) refs.
Proof.
  intros Hok Hp Hne Hdl. destruct Hok as [H1 H2 H3 H4 H5 H6 H7 H8 H9 H10].
  assert (Hlook : ∀ a an, <[p := set_children (d_children pn ++ [d]) pn]> (dentries s) !! a = Some an →
    ∃ an0, dentries s !! a = Some an0 ∧ d_locked an = d_locked an0 ∧ d_refcount an = d_refcount an0 ∧
      ∀ x, x ∈ d_children an → x ∈ d_children an0 ∨ (a = p ∧ x = d)).
  { intros a an Ha. apply lookup_insert_Some in Ha as [[<- <-]|[_ Ha]].
    - exists pn. split_and!; try done. intros x. cbn. rewrite elem_of_app, list_elem_of_singleton. naive_solver.
    - exists an. split_and!; auto. }
  split; cbn [dentries files heap vfs_root set_dentries]; try done.
  - intros a Ha. destruct (H2 a Ha). split; [|done]. rewrite lookup_insert_ne; [done|]. intros ->. congruence.
  - intros a Ha. pose proof (H3 a Ha). rewrite lookup_insert_ne; [done|]. intros ->. congruence.
  - destruct H4 as (r & ? & ?). exists r. set_solver.
  - intros a Ha. destruct (decide (a = p)) as [->|]; [rewrite lookup_insert_eq; by eexists|].
    rewrite lookup_insert_ne by done. apply H5. rewrite elem_of_cons. set_solver.
  - intros a an Ha. apply Hlook in Ha as (an0 & Ha & -> & -> & _). destruct (H6 a an0 Ha) as (? & Hc & ?).
    split; [done|]. split; [|done]. rewrite Hc, count_cons. destruct (decide (a = d)) as [->|Had].
    + rewrite (bool_decide_eq_false_2 (d ∈ linked)), (bool_decide_eq_true_2 (d = d)), bool_decide_eq_true_2
        by (done || set_solver). lia.
    + rewrite (bool_decide_eq_false_2 (a = d)) by done. rewrite (bool_decide_ext (a ∈ {[d]} ∪ linked) (a ∈ linked)) by set_solver. lia.
  - intros q qn a Hq Ha. apply Hlook in Hq as (qn0 & Hq & _ & _ & E). destruct (E a Ha) as [Ha'|[-> ->]]; [|set_solver].
    pose proof (H7 _ _ _ Hq Ha'). set_solver.
  - intros a b an bn x Ha Hb Hxa Hxb. apply Hlook in Ha as (an0 & Ha & _ & _ & Ea), Hb as (bn0 & Hb & _ & _ & Eb).
    destruct (Ea x Hxa) as [Hx1|[Ea1 Ea2]], (Eb x Hxb) as [Hx2|[Eb1 Eb2]].
    + by eapply H8.
    + pose proof (H7 _ _ _ Ha Hx1). congruence.
    + pose proof (H7 _ _ _ Hb Hx2). congruence.
    + congruence.
  - intros q qn a Hq Ha Hin. apply Hlook in Hq as (qn0 & Hq & _ & _ & E). destruct (E a Hin) as [Hin'|[-> ->]].
    + by eapply H9.
    + destruct H4 as (r & Hr & Hrl). congruence.
  - cbn [length] in H10. lia.
Qed.

Lemma dentry_add_wpf s linked refs p d :
  refs_ok s None linked (d :: refs) → is_Some (dentries s !! p) → p ≠ d → d ∉ linked →
  wpf (dentry_add (Some p) (Some d)) (λ _ s', refs_ok s' None ({[d]} ∪ linked) refs) s.
Proof.
  intros Hok Hp Hne Hdl. cbn [dentry_add]. apply wpf_bind. eapply wpf_mono; [by apply (lock_wpf s linked (d :: refs) p)|].
  intros [] s1 [Hok1 Hs1]. destruct Hp as [pn Hp]. destruct (same_shape_lookup _ _ _ _ Hs1 Hp) as (pn1 & Hp1 & _).
  eapply wpf_bind, wpf_upd_dentry; [done|]. pose proof (refs_link _ _ _ _ _ _ _ Hok1 Hp1 Hne Hdl) as Hok2.
  set (s2 := set_dentries _ s1) in *. destruct (ro_dom _ _ _ _ Hok2 d ltac:(left; set_solver)) as [dn Hd].
  eapply wpf_bind, wpf_upd_dentry; [done|].
  assert (Hok3 := refs_field _ _ _ _ _ _ (set_parent (Some p) dn) Hok2 Hd eq_refl eq_refl eq_refl).
  eapply wpf_mono; [apply (unlock_wpf _ _ _ _ Hok3)|by intros [] s' [? _]].
  cbn [set_dentries dentries]. rewrite lookup_insert_ne by done. unfold s2. cbn. rewrite lookup_insert_eq. by eexists.
Qed.

Lemma refs_fsys s lk linked refs (f : F) :
  refs_ok s lk linked refs → refs_ok (Vfs (dentries s) (files s) (heap s) (vfs_root s) f) lk linked refs.
Proof. by intros []. Qed.

Lemma dentry_put_free_wpf s linked refs d :
  refs_ok s None linked (d :: refs) →
  wpf (dentry_put (Some d)) (λ _ s', refs_ok s' None linked refs ∧ files s' = files s) s.
Proof.
  intros Hok. destruct (decide (d ∈ linked ∨ d ∈ refs)) as [Hin|Hout].
  { eapply wpf_mono; [by apply dentry_put_keep_wpf|]. by intros [] s' [? (_ & ? & _)]. }
  destruct (ro_dom _ _ _ _ Hok d ltac:(right; by left)) as [dn Hd].
  destruct (ro_count _ _ _ _ Hok d dn Hd) as (Hl & Hc & Hpos).
  rewrite count_cons_eq, bool_decide_eq_false_2 in Hc by tauto.
  assert (Hcnt : count_occ Z.eq_dec refs d = 0%nat).
  { apply count_occ_not_In. intros H. apply list_elem_of_In in H. tauto. }
  rewrite Hcnt in Hc. cbn [dentry_put]. eapply wpf_bind, wpf_get_dentry; [done|].
  unfold atomic_dec_and_test, atomic_dec, atomic_sub. rewrite Hc. cbn [Z.eqb].
  eapply wpf_bind, wpf_upd_dentry; [done|]. apply wpf_modify. split; [|done].
  destruct Hok as [H1 H2 H3 H4 H5 H6 H7 H8 H9 H10].
  split; cbn [dentries files heap vfs_root set_dentries set_heap fsys]; rewrite ?delete_insert_eq.
  - constructor; [|done]. intros Hdh. destruct (H2 d Hdh). congruence.
  - intros a [->|Ha]%elem_of_cons.
    + rewrite lookup_delete_eq. split; [done|]. destruct (files s !! d) eqn:E; [|done].
      pose proof (H3 d (ex_intro _ _ E)). congruence.
    + destruct (H2 a Ha). split; [|done]. rewrite lookup_delete_None. by right.
  - intros a Ha. rewrite lookup_delete_None. right. by apply H3.
  - done.
  - intros a Ha. rewrite lookup_delete_ne.
    + apply H5. destruct Ha; [by left|right; by right].
    + intros <-. tauto.
  - intros a an [Hne Ha]%lookup_delete_Some. destruct (H6 a an Ha) as (? & Hca & ?). rewrite count_cons_ne in Hca by done.
    done.
  - intros q qn a [_ Hq]%lookup_delete_Some Ha. by eapply H7.
  - intros a b an bn x [_ Ha]%lookup_delete_Some [_ Hb]%lookup_delete_Some ? ?. by eapply H8.
  - intros q qn a [_ Hq]%lookup_delete_Some Ha. by eapply H9.
  - cbn [length] in H10. lia.
Qed.

(** A name in a directory: the entry of the cache, or a new one. *)
Lemma vfs_lookup_wpf s linked refs p name :
  refs_ok s None linked refs → is_Some (dentries s !! p) → Z.of_nat (length refs) + 1 < 2 ^ 62 →
  wpf (vfs_lookup (Some p) name) (λ r s', ∃ linked', linked ⊆ linked' ∧
    match r with
    | Some d => d ∈ linked' ∧ refs_ok s' None linked' (d :: refs)
    | None => refs_ok s' None linked' refs
    end) s.
Proof.
  intros Hok Hp Hlen. unfold vfs_lookup. apply wpf_bind.
  eapply wpf_mono; [by apply (dentry_lookup_wpf s linked refs p name)|].
  intros [d|] s1 [Hs1 H]; [apply wpf_ret; exists linked; naive_solver|]. destruct H as [_ Hok1].
  destruct Hp as [pn Hp]. destruct (same_shape_lookup _ _ _ _ Hs1 Hp) as (pn1 & Hp1 & _).
  apply wpf_try. eapply wpf_mono; [by apply (dentry_alloc_wpf s1 None linked refs name)|].
  intros [d|] s2 H; [|subst s2; by exists linked]. destruct H as (Hd1 & Hdl & Hdr & Hok2 & E2).
  assert (Hne : p ≠ d) by congruence. assert (Hp2 : dentries s2 !! p = Some pn1).
  { rewrite E2. cbn. by rewrite lookup_insert_ne. }
  assert (Hd2 : dentries s2 !! d = Some (new_dentry name)).
  { rewrite E2. cbn. by rewrite lookup_insert_eq. }
  eapply wpf_bind, wpf_get_dentry; [done|]. eapply wpf_bind, wpf_get_dentry; [done|]. apply wpf_bind.
  apply (wpf_mono _ (λ _ s3, refs_ok s3 None linked (d :: refs) ∧ dentries s3 = dentries s2)).
  { destruct (d_inode pn1 ≫= op_lookup) as [op|] eqn:Eop; [|by apply wpf_ret].
    apply bind_Some in Eop as (i & _ & Hop). apply wpf_on_fs; [by eapply call_lookup|].
    intros a f. split; [by apply refs_fsys|done]. }
  intros [i|] s3 [Hok3 E3]; rewrite <- E3 in Hp2, Hd2.
  - eapply wpf_bind, wpf_upd_dentry; [done|].
    assert (Hok4 := refs_field _ _ _ _ _ _ (set_inode (Some i) (new_dentry name)) Hok3 Hd2 eq_refl eq_refl eq_refl).
    set (s4 := set_dentries _ s3) in *. apply wpf_bind.
    eapply wpf_mono; [apply (dentry_add_wpf s4 linked refs p d Hok4)|].
    { unfold s4. cbn. rewrite lookup_insert_ne by done. by eexists. }
    { done. }
    { done. }
    intros [] s5 Hok5. apply wpf_bind.
    eapply wpf_mono; [apply (dentry_get_wpf s5 None _ refs d Hok5)|].
    { apply (ro_dom _ _ _ _ Hok5). left. set_solver. }
    { done. }
    intros [] s6 [Hok6 _]. apply wpf_ret. exists ({[d]} ∪ linked). set_solver.
  - apply wpf_bind. eapply wpf_mono; [by apply (dentry_put_free_wpf s3 linked refs d)|].
    intros [] s4 [Hok4 _]. apply wpf_ret. by exists linked.
Qed.

Lemma refs_perm s lk linked refs refs' : refs ≡ₚ refs' → refs_ok s lk linked refs → refs_ok s lk linked refs'.
Proof.
  intros Hp []. split; try done.
  - intros d Hd. apply ro_dom0. by rewrite Hp.
  - intros d dn Hd. rewrite <- (proj1 (Permutation_count_occ Z.eq_dec refs refs') Hp). by apply ro_count0.
  - by rewrite <- Hp.
Qed.

(** ** Paths *)

(** What a walk leaves when it ends at [r]. *)
Definition walked (linked : gset Z) (refs : list Z) (r : option Z) (s : vfs F) : Prop :=
  ∃ linked', linked ⊆ linked' ∧
    match r with
    | Some d => d ∈ linked' ∧ refs_ok s None linked' (d :: refs)
    | None => refs_ok s None linked' refs
    end.

Lemma walked_mono linked linked' refs r s : linked ⊆ linked' → walked linked' refs r s → walked linked refs r s.
Proof. intros Hs (l & Hl & H). exists l. split; [set_solver|done]. Qed.

Lemma take_name_split n path : let '(name, rest) := take_name n path in path = name ++ rest.
Proof.
  revert path. induction n as [|n IH]; intros path; cbn [take_name]; [done|].
  destruct path as [|c path]; [done|]. case_if; [done|]. specialize (IH path).
  destruct (take_name n path) as [name rest]. by rewrite IH.
Qed.

Lemma skip_slashes_length path : (length (skip_slashes path) <= length path)%nat.
Proof. induction path as [|c path IH]; cbn [skip_slashes length]; [lia|]. case_if; cbn [length]; lia. Qed.

Lemma skip_slashes_head path c rest : skip_slashes path = c :: rest → c ≠ 47.
Proof.
  induction path as [|x path IH]; cbn [skip_slashes]; [done|]. case_if; [done|]. by intros [= <- <-].
Qed.

(** A turn of the walk takes characters. *)
Lemma take_name_progress n path : path ≠ [] → head path ≠ Some 47 → (0 < n)%nat →
  (length (skip_slashes (take_name n path).2) < length path)%nat.
Proof.
  intros Hne Hhead Hn. destruct path as [|c path]; [done|]. destruct n as [|n]; [lia|]. cbn [take_name].
  case_if; [by cbn in Hhead; subst|]. pose proof (take_name_split n path) as H.
  destruct (take_name n path) as [name rest]. cbn [snd]. pose proof (skip_slashes_length rest). rewrite H, length_cons, length_app. lia.
Qed.

(** One step of a walk, from a linked entry to a child. *)
Lemma step_wpf {A} s linked refs c name (k : option Z → st (vfs F) A) Q :
  refs_ok s None linked (c :: refs) → c ∈ linked → Z.of_nat (length refs) + 2 < 2 ^ 62 →
  (∀ r s', walked linked refs r s' → wpf (k r) Q s') →
  wpf (next ← vfs_lookup (Some c) name; _ ← dentry_put (Some c); k next) Q s.
Proof.
  intros Hok Hc Hlen Hk. apply wpf_bind. eapply wpf_mono.
  { apply (vfs_lookup_wpf s linked (c :: refs) c name Hok); [|cbn [length]; lia].
    apply (ro_dom _ _ _ _ Hok). by left. }
  intros r s1 (linked' & Hsub & H). apply wpf_bind.
  assert (Hput : refs_ok s1 None linked' (c :: match r with Some d => d :: refs | None => refs end)).
  { destruct r as [d|]; [|done]. destruct H as [_ H]. eapply refs_perm; [|exact H]. constructor. }
  eapply wpf_mono; [apply (dentry_put_keep_wpf _ _ _ _ _ Hput); left; set_solver|].
  intros [] s2 [Hok2 _]. apply Hk. exists linked'. split; [done|]. destruct r as [d|]; [|done]. by destruct H.
Qed.

Lemma walk_path_wpf : ∀ fuel path s linked refs c,
  refs_ok s None linked (c :: refs) → c ∈ linked → Z.of_nat (length refs) + 2 < 2 ^ 62 →
  (length path <= fuel)%nat → head path ≠ Some 47 →
  wpf (walk_path fuel path (Some c)) (walked linked refs) s.
Proof.
  induction fuel as [|fuel IH]; intros [|x path] s linked refs c Hok Hc Hlen Hf Hhead; cbn [length] in Hf; try lia;
    cbn [walk_path]; try (apply wpf_ret; by exists linked).
  destruct (take_name (Z.to_nat (NAME_MAX - 1)) (x :: path)) as [name rest] eqn:Et.
  pose proof (take_name_progress (Z.to_nat (NAME_MAX - 1)) (x :: path) ltac:(done) Hhead) as Hprog.
  rewrite Et in Hprog. cbn [snd length] in Hprog. specialize (Hprog ltac:(unfold NAME_MAX; lia)).
  apply (step_wpf s linked refs c name); [done|done|done|]. intros [d|] s1 (linked' & Hsub & H).
  - destruct H as [Hd Hok1]. eapply wpf_mono; [apply (IH _ s1 linked' refs d); [done|done|done|lia|]|].
    + destruct (skip_slashes rest) as [|y l] eqn:E; [done|]. apply skip_slashes_head in E. cbn. congruence.
    + intros r s2. by apply walked_mono.
  - apply wpf_ret. by exists linked'.
Qed.

Lemma get_root_wpf s linked refs : refs_ok s None linked refs → Z.of_nat (length refs) + 1 < 2 ^ 62 →
  wpf vfs_get_root (λ r s', ∃ d, r = Some d ∧ d ∈ linked ∧ refs_ok s' None linked (d :: refs)) s.
Proof.
  intros Hok Hlen. destruct (ro_root _ _ _ _ Hok) as (r & Hr & Hin). unfold vfs_get_root.
  apply wpf_bind, wpf_get. rewrite Hr. apply wpf_bind.
  eapply wpf_mono; [apply (dentry_get_wpf s None linked refs r Hok); [|done]|].
  { apply (ro_dom _ _ _ _ Hok). by left. }
  intros [] s' [Hok' _]. apply wpf_ret. by exists r.
Qed.

Lemma path_lookup_wpf s linked refs path :
  refs_ok s None linked refs → Z.of_nat (length refs) + 2 < 2 ^ 62 →
  wpf (vfs_path_lookup path) (walked linked refs) s.
Proof.
  intros Hok Hlen. unfold vfs_path_lookup. destruct path as [|c path]; [apply wpf_ret; by exists linked|].
  apply wpf_bind. eapply wpf_mono; [apply (get_root_wpf s linked refs Hok); lia|].
  intros r s1 (d & -> & Hd & Hok1). apply walk_path_wpf; [done|done|lia|lia|].
  case_if; [|cbn; congruence].
  destruct (skip_slashes (c :: path)) as [|y l] eqn:Es; [done|]. apply skip_slashes_head in Es. cbn. congruence.
Qed.

(** What the search for a parent leaves. *)
Definition parent_found (linked : gset Z) (refs : list Z) (r : option (option Z * list Z)) (s : vfs F) : Prop :=
  ∃ linked', linked ⊆ linked' ∧
    match r with
    | Some (p, _) => ∃ d, p = Some d ∧ d ∈ linked' ∧ refs_ok s None linked' (d :: refs)
    | None => refs_ok s None linked' refs
    end.

Lemma put_none_wpf s linked refs c :
  refs_ok s None linked (c :: refs) → c ∈ linked →
  wpf (_ ← dentry_put (Some c); mret None) (parent_found linked refs) s.
Proof.
  intros Hok Hc. apply wpf_bind. eapply wpf_mono; [apply (dentry_put_keep_wpf _ _ _ _ _ Hok); by left|].
  intros [] s' [Hok' _]. apply wpf_ret. by exists linked.
Qed.

Lemma walk_parent_wpf : ∀ fuel seg leaf_sz s linked refs c,
  refs_ok s None linked (c :: refs) → c ∈ linked → Z.of_nat (length refs) + 2 < 2 ^ 62 →
  (length seg < fuel)%nat → seg ≠ [] → head seg ≠ Some 47 →
  wpf (walk_parent fuel seg leaf_sz (Some c)) (parent_found linked refs) s.
Proof.
  induction fuel as [|fuel IH]; intros seg leaf_sz s linked refs c Hok Hc Hlen Hf Hne Hhead; [lia|].
  cbn [walk_parent]. pose proof (take_name_progress (length seg) seg Hne Hhead) as Hprog.
  destruct (take_name (length seg) seg) as [name seg_end]. cbn [snd] in Hprog.
  specialize (Hprog ltac:(destruct seg; [done|cbn; lia])).
  destruct (skip_slashes seg_end) as [|y next] eqn:En.
  { case_if; [by apply put_none_wpf|]. apply wpf_ret. exists linked. split; [done|]. by exists c. }
  case_if; [by apply put_none_wpf|].
  apply (step_wpf s linked refs c name); [done|done|done|]. intros [d|] s1 (linked' & Hsub & Hres).
  - destruct Hres as [Hd Hok1]. eapply wpf_mono.
    { apply (IH (y :: next) leaf_sz s1 linked' refs d); [done|done|done|lia|done|].
      apply skip_slashes_head in En. cbn. congruence. }
    intros r s2 (l & Hl & Hr). exists l. split; [set_solver|done].
  - apply wpf_ret. by exists linked'.
Qed.

Lemma lookup_parent_wpf s linked refs path leaf_sz :
  refs_ok s None linked refs → Z.of_nat (length refs) + 2 < 2 ^ 62 →
  wpf (vfs_lookup_parent path leaf_sz) (parent_found linked refs) s.
Proof.
  intros Hok Hlen. unfold vfs_lookup_parent.
  destruct path as [|c path]; [apply wpf_ret; by exists linked|]. case_if; [apply wpf_ret; by exists linked|].
  destruct (skip_slashes (c :: path)) as [|y l] eqn:Es; [apply wpf_ret; by exists linked|].
  apply wpf_bind. eapply wpf_mono; [apply (get_root_wpf s linked refs Hok); lia|].
  intros r s1 (d & -> & Hd & Hok1). apply walk_parent_wpf; [done|done|lia|lia|done|].
  apply skip_slashes_head in Es. cbn. congruence.
Qed.

(** Dropping the reference of a parent at the end of an operation. *)
Lemma drop_parent_wpf s linked refs p (rc : Z) :
  refs_ok s None linked (p :: refs) → p ∈ linked →
  wpf (_ ← dentry_put (Some p); mret rc) (λ r s', r = rc ∧ refs_ok s' None linked refs) s.
Proof.
  intros Hok Hp. apply wpf_bind. eapply wpf_mono; [apply (dentry_put_keep_wpf _ _ _ _ _ Hok); by left|].
  intros [] s' [Hok' _]. by apply wpf_ret.
Qed.

(** Creation keeps the counts, except that a name that is already in the cache
    leaves one reference too many to its entry. *)
Lemma vfs_mknod_wpf s linked refs path mode dir :
  refs_ok s None linked refs → Z.of_nat (length refs) + 3 < 2 ^ 62 →
  wpf (vfs_mknod path mode dir) (λ rc s', ∃ linked' leaked, linked ⊆ linked' ∧
    refs_ok s' None linked' (leaked ++ refs) ∧ (leaked = [] ∨ ∃ d, leaked = [d] ∧ rc = -1)) s.
Proof.
  intros Hok Hlen. unfold vfs_mknod. apply wpf_bind.
  eapply wpf_mono; [apply (lookup_parent_wpf s linked refs); [done|lia]|].
  intros [[parent leaf]|] s1 (linked1 & Hsub & H).
  2:{ apply wpf_ret. exists linked1, []. split; [done|]. split; [done|by left]. }
  destruct H as (p & -> & Hp & Hok1). destruct (ro_dom _ _ _ _ Hok1 p (or_introl Hp)) as [pn Hpn].
  eapply wpf_bind, wpf_get_dentry; [done|]. apply wpf_bind.
  apply (wpf_mono _ (λ rc s', ∃ linked' leaked, linked1 ⊆ linked' ∧ refs_ok s' None linked' (p :: leaked ++ refs) ∧
    (leaked = [] ∨ ∃ d, leaked = [d] ∧ rc = -1))).
  2:{ intros rc s2 (linked2 & leaked & Hsub2 & Hok2 & Hleak).
      eapply wpf_mono; [apply (drop_parent_wpf s2 linked2 _ p rc Hok2); set_solver|].
      intros r s3 [-> Hok3]. exists linked2, leaked. split; [set_solver|done]. }
  assert (Hbase : ∃ linked' leaked, linked1 ⊆ linked' ∧ refs_ok s1 None linked' (p :: leaked ++ refs) ∧
    (leaked = [] ∨ ∃ d : Z, leaked = [d] ∧ -1 = -1)) by (exists linked1, []; naive_solver).
  destruct (d_inode pn ≫= _) as [op|] eqn:Eop; [|by apply wpf_ret].
  apply wpf_bind. eapply wpf_mono; [apply (dentry_lookup_wpf s1 linked1 (p :: refs) p leaf Hok1); [by eexists|cbn [length]; lia]|].
  intros [d|] s2 [Hs2 H].
  { apply wpf_ret. destruct H as (_ & _ & Hok2). exists linked1, [d]. split; [done|]. split; [|right; by exists d].
    eapply refs_perm; [|exact Hok2]. constructor. }
  destruct H as [_ Hok2]. destruct (same_shape_lookup _ _ _ _ Hs2 Hpn) as (pn2 & Hpn2 & _).
  apply wpf_bind. eapply wpf_mono; [apply (dentry_alloc_wpf s2 None linked1 (p :: refs) leaf Hok2); [done|cbn [length]; lia]|].
  intros [d|] s3 H.
  2:{ subst s3. apply wpf_ret. exists linked1, []. split; [done|]. split; [done|by left]. }
  destruct H as (Hd2 & Hdl & Hdr & Hok3 & E3).
  assert (Hd3 : dentries s3 !! d = Some (new_dentry leaf)) by (rewrite E3; cbn; by rewrite lookup_insert_eq).
  assert (Hp3 : dentries s3 !! p = Some pn2) by (rewrite E3; cbn; rewrite lookup_insert_ne; [done|congruence]).
  eapply wpf_bind, wpf_get_dentry; [done|]. apply wpf_bind.
  apply (wpf_mono _ (λ _ s4, refs_ok s4 None linked1 (d :: p :: refs) ∧ dentries s4 = dentries s3)).
  { apply bind_Some in Eop as (i & _ & Hop). apply wpf_on_fs; [destruct dir; by econstructor|].
    intros a f. split; [by apply refs_fsys|done]. }
  intros [i|] s4 [Hok4 E4]; rewrite <- E4 in Hp3, Hd3.
  - eapply wpf_bind, wpf_upd_dentry; [done|].
    assert (Hok5 := refs_field _ _ _ _ _ _ (set_inode (Some i) (new_dentry leaf)) Hok4 Hd3 eq_refl eq_refl eq_refl).
    set (s5 := set_dentries _ s4) in *. apply wpf_bind.
    eapply wpf_mono; [apply (dentry_add_wpf s5 linked1 (p :: refs) p d Hok5)|].
    { unfold s5. cbn. rewrite lookup_insert_ne; [by eexists|congruence]. }
    { congruence. }
    { done. }
    intros [] s6 Hok6. apply wpf_ret. exists ({[d]} ∪ linked1), []. split; [set_solver|]. split; [done|by left].
  - apply wpf_bind. eapply wpf_mono; [by apply (dentry_put_free_wpf s4 linked1 (p :: refs) d)|].
    intros [] s5 [Hok5 _]. apply wpf_ret. exists linked1, []. split; [done|]. split; [done|by left].
Qed.

(** ** Open files *)

Lemma refs_new_file s lk linked refs f h fl :
  refs_ok s lk linked refs → heap s = f :: h →
  refs_ok (set_files (<[f := fl]> (files s)) (set_heap h s)) lk linked refs.
Proof.
  intros [H1 H2 H3 H4 H5 H6 H7 H8 H9 H10] Eh. rewrite Eh in H1, H2. apply NoDup_cons in H1 as [Hfh Hnd].
  split; cbn [dentries files heap vfs_root set_files set_heap]; try done.
  - intros a Ha. destruct (H2 a ltac:(by right)). split; [done|]. rewrite lookup_insert_ne; [done|]. by intros ->.
  - intros a Ha. destruct (decide (a = f)) as [->|]; [apply H2; by left|]. rewrite lookup_insert_ne in Ha by done. by apply H3.
Qed.

Lemma refs_free_file s lk linked refs f :
  refs_ok s lk linked refs → is_Some (files s !! f) →
  refs_ok (set_heap (f :: heap s) (set_files (delete f (files s)) s)) lk linked refs.
Proof.
  intros [H1 H2 H3 H4 H5 H6 H7 H8 H9 H10] Hf.
  split; cbn [dentries files heap vfs_root set_files set_heap]; try done.
  - constructor; [|done]. intros Hin. destruct (H2 f Hin) as [_ E]. rewrite E in Hf. by destruct Hf.
  - intros a [->|Ha]%elem_of_cons.
    + split; [by apply H3|apply lookup_delete_eq].
    + destruct (H2 a Ha). split; [done|]. rewrite lookup_delete_None. by right.
  - intros a [fl [_ Ha]%lookup_delete_Some]. apply H3. by eexists.
Qed.

Lemma refs_put_file s lk linked refs f fl :
  refs_ok s lk linked refs → is_Some (files s !! f) → refs_ok (set_files (<[f := fl]> (files s)) s) lk linked refs.
Proof.
  intros [H1 H2 H3 H4 H5 H6 H7 H8 H9 H10] Hf. split; cbn [dentries files heap vfs_root set_files]; try done.
  - intros a Ha. destruct (H2 a Ha) as [? E]. split; [done|]. rewrite lookup_insert_ne; [done|].
    intros ->. rewrite E in Hf. by destruct Hf.
  - intros a Ha. destruct (decide (a = f)) as [->|]; [by apply H3|]. rewrite lookup_insert_ne in Ha by done. by apply H3.
Qed.

(** The state after a call of the file system. *)
Lemma on_fs_refs_wpf {A} s lk linked refs (m : st F A) :
  refs_ok s lk linked refs → fs_call A m →
  wpf (on_fs m) (λ _ s', refs_ok s' lk linked refs ∧ dentries s' = dentries s ∧ files s' = files s) s.
Proof. intros Hok Hm. apply wpf_on_fs; [done|]. intros a f. split; [by apply refs_fsys|done]. Qed.

Lemma put_None_wpf {A} s linked refs d :
  refs_ok s None linked (d :: refs) →
  wpf (_ ← dentry_put (Some d); mret None) (λ (r : option A) s', r = None ∧ refs_ok s' None linked refs) s.
Proof.
  intros Hok. apply wpf_bind. eapply wpf_mono; [by apply dentry_put_free_wpf|]. intros [] s' [Hok' _]. by apply wpf_ret.
Qed.

(** What [vfs_open] leaves: the file holds one reference to its entry. *)
Definition opened (flags : Z) (linked : gset Z) (refs : list Z) (r : option Z) (s : vfs F) : Prop :=
  ∃ linked', linked ⊆ linked' ∧
    match r with
    | Some f => ∃ d i, files s !! f = Some (File (Some i) 0 (u32 flags) (Some d)) ∧ refs_ok s None linked' (d :: refs)
    | None => refs_ok s None linked' refs
    end.

Lemma open_dentry_wpf s linked refs path flags :
  refs_ok s None linked refs → Z.of_nat (length refs) + 3 < 2 ^ 62 → has_flag flags O_CREAT = false →
  wpf (open_dentry path flags) (walked linked refs) s.
Proof.
  intros Hok Hlen Hfl. unfold open_dentry. apply wpf_bind. eapply wpf_mono; [apply (path_lookup_wpf s linked refs path Hok); lia|].
  intros [d|] s1 H; [by apply wpf_ret|]. rewrite Hfl. by apply wpf_ret.
Qed.

Lemma open_file_wpf s linked refs d i flags :
  refs_ok s None linked (d :: refs) →
  wpf (f ← zalloc;
       match f with
       | None => _ ← dentry_put (Some d); mret None
       | Some f =>
           _ ← put_file f (File (Some i) 0 (u32 flags) (Some d));
           rc ← (match op_open i with Some open => on_fs open | None => mret 0 end);
           if negb (rc =? 0) then _ ← dentry_put (Some d); _ ← free_file f; mret None
           else mret (Some f)
       end) (opened flags linked refs) s.
Proof.
  intros Hok. apply wpf_bind. unfold zalloc, wpf at 1. destruct (heap s) as [|f h] eqn:Eh.
  { eapply wpf_mono; [by apply put_None_wpf|]. intros r s' [-> Hok']. by exists linked. }
  pose proof (refs_new_file _ _ _ _ _ _ (File (Some i) 0 (u32 flags) (Some d)) Hok Eh) as Hok1.
  apply wpf_bind, wpf_modify. apply wpf_bind. set (s1 := set_files _ _) in *.
  assert (Hf1 : files s1 !! f = Some (File (Some i) 0 (u32 flags) (Some d))) by (unfold s1; cbn; apply lookup_insert_eq).
  apply (wpf_mono _ (λ _ s', refs_ok s' None linked (d :: refs) ∧ dentries s' = dentries s1 ∧ files s' = files s1)).
  { destruct (op_open i) as [op|] eqn:Eop; [|by apply wpf_ret].
    eapply on_fs_refs_wpf; [done|]. by eapply call_open. }
  intros rc s2 (Hok2 & _ & Ef). case_if.
  - apply wpf_bind. eapply wpf_mono; [by apply dentry_put_free_wpf|].
    intros [] s3 [Hok3 Ef3]. apply wpf_bind. apply wpf_modify. apply wpf_ret. exists linked. split; [done|].
    apply refs_free_file; [done|]. rewrite Ef3, Ef, Hf1. by eexists.
  - apply wpf_ret. exists linked. split; [done|]. exists d, i. by rewrite Ef.
Qed.

Lemma open_wpf s linked refs path flags :
  refs_ok s None linked refs → Z.of_nat (length refs) + 3 < 2 ^ 62 → has_flag flags O_CREAT = false →
  wpf (vfs_open path flags) (opened flags linked refs) s.
Proof.
  intros Hok Hlen Hfl. unfold vfs_open. apply wpf_try.
  eapply wpf_mono; [by apply (open_dentry_wpf s linked refs)|]. intros [d|] s1 (linked1 & Hsub & H); [|by exists linked1].
  destruct H as [Hd Hok1]. destruct (ro_dom _ _ _ _ Hok1 d (or_introl Hd)) as [dn Hdn].
  assert (Hmono : ∀ r s', opened flags linked1 refs r s' → opened flags linked refs r s').
  { intros r s' (l & Hl & Hr). exists l. split; [set_solver|done]. }
  assert (Hput : ∀ s', refs_ok s' None linked1 (d :: refs) →
    wpf (_ ← dentry_put (Some d); mret None) (opened flags linked refs) s').
  { intros s' Hok'. eapply wpf_mono; [by apply put_None_wpf|]. intros r s2 [-> Hok2]. by exists linked1. }
  eapply wpf_bind, wpf_get_dentry; [done|]. destruct (d_inode dn) as [i|]; [|by apply Hput].
  apply wpf_bind. apply (wpf_mono _ (λ _ s', refs_ok s' None linked1 (d :: refs))).
  { case_if; [|by apply wpf_ret]. destruct (op_truncate i) as [op|] eqn:Eop; [|by apply wpf_ret].
    eapply wpf_mono; [apply (on_fs_refs_wpf s1 _ _ _ _ Hok1); by eapply call_truncate|]. by intros a s' [? _]. }
  intros rc s2 Hok2. case_if; [by apply Hput|]. eapply wpf_mono; [by apply open_file_wpf|]. apply Hmono.
Qed.

Lemma close_wpf s linked refs f fl d :
  refs_ok s None linked (d :: refs) → files s !! f = Some fl → fl_dentry fl = Some d →
  wpf (vfs_close (Some f)) (λ _ s', refs_ok s' None linked refs ∧ files s' = delete f (files s)) s.
Proof.
  intros Hok Hf Hd. unfold vfs_close. apply wpf_bind. unfold get_file. apply wpf_bind, wpf_get.
  unfold wpf at 1, st_run. rewrite Hf. cbn [access]. apply wpf_bind.
  apply (wpf_mono _ (λ _ s', refs_ok s' None linked (d :: refs) ∧ dentries s' = dentries s ∧ files s' = files s)).
  { destruct (fl_inode fl ≫= op_release) as [op|] eqn:Eop; [|by apply wpf_ret].
    apply bind_Some in Eop as (i & _ & Hop). apply on_fs_refs_wpf; [done|]. by eapply call_release. }
  intros rc s1 (Hok1 & _ & Ef). rewrite Hd. apply wpf_bind.
  eapply wpf_mono; [by apply (dentry_put_free_wpf s1 linked refs d)|]. intros [] s2 [Hok2 Ef2].
  apply wpf_modify. assert (E : files s2 = files s) by congruence. split; [|cbn; by rewrite E].
  apply refs_free_file; [done|]. rewrite E, Hf. by eexists.
Qed.

(** ** Removal *)

(** A child leaves the tree: the cache's reference is the remover's. *)
Lemma refs_unlink s lk linked refs p pn c :
  refs_ok s lk linked refs → dentries s !! p = Some pn → c ∈ d_children pn → Z.of_nat (length refs) + 1 < 2 ^ 62 →
  refs_ok (set_dentries (<[p := set_children (list_difference (d_children pn) [c]) pn]> (dentries s)) s) lk
    (linked ∖ {[c]}) (c :: refs).
Proof.
  intros [H1 H2 H3 H4 H5 H6 H7 H8 H9 H10] Hp Hc Hlen.
  assert (Hlook : ∀ a an, <[p := set_children (list_difference (d_children pn) [c]) pn]> (dentries s) !! a = Some an →
    ∃ an0, dentries s !! a = Some an0 ∧ d_locked an = d_locked an0 ∧ d_refcount an = d_refcount an0 ∧
      ∀ x, x ∈ d_children an → x ∈ d_children an0 ∧ (a = p → x ≠ c)).
  { intros a an Ha. apply lookup_insert_Some in Ha as [[<- <-]|[Hne Ha]].
    - exists pn. split; [done|]. split; [done|]. split; [done|]. intros x. cbn. rewrite list_elem_of_difference, list_elem_of_singleton. naive_solver.
    - exists an. split; [done|]. split; [done|]. split; [done|]. intros x Hx. split; [done|congruence]. }
  split; cbn [dentries files heap vfs_root set_dentries]; try done.
  - intros a Ha. destruct (H2 a Ha). split; [|done]. rewrite lookup_insert_ne; [done|]. intros ->. congruence.
  - intros a Ha. pose proof (H3 a Ha). rewrite lookup_insert_ne; [done|]. intros ->. congruence.
  - destruct H4 as (r & Hr & Hrl). exists r. split; [done|]. apply elem_of_difference. split; [done|].
    rewrite elem_of_singleton. intros ->. by apply (H9 p pn c Hp Hr).
  - intros a Ha. assert (Hdom : is_Some (dentries s !! a)).
    { destruct Ha as [[Ha _]%elem_of_difference|[->|Ha]%elem_of_cons]; [apply H5; by left| |apply H5; by right].
      apply H5. left. by eapply H7. }
    destruct (decide (a = p)) as [->|]; [rewrite lookup_insert_eq; by eexists|by rewrite lookup_insert_ne].
  - intros a an Ha. apply Hlook in Ha as (an0 & Ha & -> & -> & _). destruct (H6 a an0 Ha) as (? & Hca & ?).
    split; [done|]. split; [|done]. rewrite Hca, count_cons. pose proof (H7 _ _ _ Hp Hc) as Hcl.
    destruct (decide (a = c)) as [->|Hne].
    + rewrite (bool_decide_eq_true_2 (c ∈ linked)), (bool_decide_eq_true_2 (c = c)), bool_decide_eq_false_2
        by (done || set_solver). lia.
    + rewrite (bool_decide_eq_false_2 (a = c)) by done.
      rewrite (bool_decide_ext (a ∈ linked ∖ {[c]}) (a ∈ linked)) by set_solver. lia.
  - intros q qn a Hq Ha. apply Hlook in Hq as (qn0 & Hq & _ & _ & E). destruct (E a Ha) as [Ha' Hne].
    apply elem_of_difference. split; [by eapply H7|]. rewrite elem_of_singleton. intros ->.
    assert (q = p) as Eq by (by eapply H8). by apply (Hne Eq).
  - intros a b an bn x Ha Hb Hxa Hxb. apply Hlook in Ha as (an0 & Ha & _ & _ & Ea), Hb as (bn0 & Hb & _ & _ & Eb).
    eapply H8; [exact Ha|exact Hb|by apply Ea|by apply Eb].
  - intros q qn a Hq Ha Hin. apply Hlook in Hq as (qn0 & Hq & _ & _ & E). by eapply H9; [|exact Ha|apply E].
  - cbn [length]. lia.
Qed.

(** The entry of the cache that has the removed name, if any. *)
Lemma drop_cached_wpf s linked refs p leaf :
  refs_ok s None linked refs → p ∈ linked → Z.of_nat (length refs) + 3 < 2 ^ 62 →
  wpf (cached ← dentry_lookup (Some p) leaf;
       match Some p, cached with
       | Some p, Some c => _ ← unlink_child p c; _ ← dentry_put (Some c); dentry_put (Some c)
       | _, _ => mret tt
       end) (λ _ s', ∃ linked', refs_ok s' None linked' refs) s.
Proof.
  intros Hok Hp Hlen. pose proof (ro_dom _ _ _ _ Hok p (or_introl Hp)) as [pn Hpn]. apply wpf_bind.
  eapply wpf_mono; [apply (dentry_lookup_wpf s linked refs p leaf Hok); [by eexists|lia]|].
  intros [c|] s1 [Hs1 H]; [|apply wpf_ret; exists linked; naive_solver].
  destruct H as ((pn0 & cn & Hp0 & _ & Hc & _) & Hcl & Hok1). destruct (same_shape_lookup _ _ _ _ Hs1 Hp0) as (pn1 & Hp1 & _ & Ech & _).
  rewrite <- Ech in Hc. apply wpf_bind. unfold unlink_child. eapply wpf_upd_dentry; [done|].
  assert (Hok2 := refs_unlink _ _ _ _ _ _ _ Hok1 Hp1 Hc ltac:(cbn [length]; lia)).
  apply wpf_bind. eapply wpf_mono; [apply (dentry_put_free_wpf _ _ _ _ Hok2)|]. intros [] s3 [Hok3 _].
  eapply wpf_mono; [apply (dentry_put_free_wpf _ _ _ _ Hok3)|]. intros [] s4 [Hok4 _]. by exists (linked ∖ {[c]}).
Qed.

Lemma vfs_remove_wpf s linked refs path dir :
  refs_ok s None linked refs → Z.of_nat (length refs) + 8 < 2 ^ 62 →
  wpf (vfs_remove path dir) (λ rc s', ∃ linked', refs_ok s' None linked' refs) s.
Proof.
  intros Hok Hlen. unfold vfs_remove. apply wpf_bind.
  eapply wpf_mono; [apply (lookup_parent_wpf s linked refs); [done|lia]|].
  intros [[parent leaf]|] s1 (linked1 & Hsub & H); [|apply wpf_ret; by exists linked1].
  destruct H as (p & -> & Hp & Hok1). destruct (ro_dom _ _ _ _ Hok1 p (or_introl Hp)) as [pn Hpn].
  eapply wpf_bind, wpf_get_dentry; [done|]. apply wpf_bind.
  apply (wpf_mono _ (λ rc s', ∃ linked', refs_ok s' None linked' (p :: refs))).
  2:{ intros rc s2 (linked2 & Hok2). apply wpf_bind. eapply wpf_mono; [by apply dentry_put_free_wpf|].
      intros [] s3 [Hok3 _]. apply wpf_ret. by exists linked2. }
  destruct (d_inode pn ≫= _) as [op|] eqn:Eop; [|apply wpf_ret; by exists linked1].
  apply wpf_bind. eapply wpf_mono; [apply (dentry_alloc_wpf s1 None linked1 (p :: refs) leaf Hok1); [done|cbn [length]; lia]|].
  intros [d|] s2 H; [|subst s2; apply wpf_ret; by exists linked1].
  destruct H as (Hd1 & Hdl & Hdr & Hok2 & E2).
  assert (Hd2 : dentries s2 !! d = Some (new_dentry leaf)) by (rewrite E2; cbn; by rewrite lookup_insert_eq).
  eapply wpf_bind, wpf_get_dentry; [done|]. apply wpf_bind.
  apply (wpf_mono _ (λ _ s4, refs_ok s4 None linked1 (d :: p :: refs) ∧ dentries s4 = dentries s2 ∧ files s4 = files s2)).
  { apply bind_Some in Eop as (i & _ & Hop). apply on_fs_refs_wpf; [done|]. destruct dir; by econstructor. }
  intros rc s3 (Hok3 & _). apply wpf_bind.
  apply (wpf_mono _ (λ _ s', ∃ linked', refs_ok s' None linked' (d :: p :: refs))).
  { case_if; [|apply wpf_ret; by exists linked1].
    apply (drop_cached_wpf s3 linked1 (d :: p :: refs) p leaf); [done|done|cbn [length]; lia]. }
  intros [] s4 (linked4 & Hok4). apply wpf_bind. eapply wpf_mono; [by apply dentry_put_free_wpf|].
  intros [] s5 [Hok5 _]. apply wpf_ret. by exists linked4.
Qed.
End lemmas.

(** ** Theorems *)

Section theorems.
Context {F : Type} `{!fs_ops F}.
Implicit Types s : vfs F.


(** Opening a file and closing it again gives back every reference: the
    open file holds exactly one, to the entry of its path, and when it is
    closed (or when the open failed, on any of its error paths) the cache is
    sound with the references that were held before, and the file object is
    gone. *)
Theorem vfs_open_close s linked refs path flags
  (Hok : refs_ok s None linked refs) (Hlen : Z.of_nat (length refs) + 3 < 2 ^ 62)
  (Hflags : has_flag flags O_CREAT = false) :
  wpf (f ← vfs_open path flags; _ ← vfs_close f; mret f) (λ f s', ∃ linked', linked ⊆ linked' ∧
    refs_ok s' None linked' refs ∧ match f with Some f => files s' !! f = None | None => True end) s.
Proof.
  apply wpf_bind. eapply wpf_mono; [by apply (open_wpf s linked refs)|].
  intros [f|] s1 (linked1 & Hsub & H).
  - destruct H as (d & i & Hf & Hok1). apply wpf_bind. eapply wpf_mono; [by eapply close_wpf|].
    intros [] s2 [Hok2 Ef]. apply wpf_ret. exists linked1. split; [done|]. split; [done|].
    rewrite Ef. apply lookup_delete_eq.
  - apply wpf_bind, wpf_ret, wpf_ret. by exists linked1.
Qed.

End theorems.

(** ** Witnesses

    A file system with one directory, the inode 0, whose state is the list of
    its names; every file is the inode 1. *)

#[local] Instance demo_ops : fs_ops (list (list Z)) := {
  inode_size _ := mret 0;
  inode_mode i := mret (if i =? 0 then 0x41FF else 0x81B6);
  op_lookup i := Some (λ name, names ← st_get; mret (if bool_decide (name ∈ names) then Some 1 else None));
  op_create i := Some (λ name mode, _ ← st_modify (cons name); mret (Some 1));
  op_mkdir i := Some (λ name mode, _ ← st_modify (cons name); mret (Some 1));
  op_unlink i := Some (λ name, names ← st_get;
    if bool_decide (name ∈ names) then _ ← st_put (list_difference names [name]); mret 0 else mret (-1));
  op_rmdir i := None;
  op_truncate i := None;
  op_open i := None;
  op_release i := None;
  op_read i := None;
  op_write i := None;
  op_readdir i := None
}.

Definition demo_vfs : vfs (list (list Z)) :=
  Vfs {[ 100 := Dentry [47] (Some 100) (Some 0) false 1 [] ]} ∅ [200; 300; 400] (Some 100) [[97]].

Lemma demo_vfs_ok : refs_ok demo_vfs None {[ 100 ]} [].
Proof.
  split; cbn [demo_vfs dentries files heap vfs_root].
  - apply (bool_decide_unpack _). by vm_compute.
  - intros a Ha. split; [|apply lookup_empty]. apply lookup_singleton_None. intros <-.
    apply (bool_decide_unpack (100 ∉ [200; 300; 400])); [by vm_compute|done].
  - intros a [x Hx]. by rewrite lookup_empty in Hx.
  - exists 100. split; [done|]. by apply elem_of_singleton.
  - intros d [->%elem_of_singleton|Hd]; [by eexists|by apply not_elem_of_nil in Hd].
  - intros d dn [<- <-]%lookup_singleton_Some. split; [done|]. rewrite bool_decide_eq_true_2 by (by apply elem_of_singleton).
    by split.
  - intros p pn d [<- <-]%lookup_singleton_Some Hd. by apply not_elem_of_nil in Hd.
  - intros p q pn qn d [<- <-]%lookup_singleton_Some _ Hd. by apply not_elem_of_nil in Hd.
  - intros p pn d [<- <-]%lookup_singleton_Some _. apply not_elem_of_nil.
  - cbn. lia.
Qed.


Lemma vfs_open_close_witness :
  wpf (f ← vfs_open [47; 97] 0; _ ← vfs_close f; mret f) (λ f s', ∃ linked', {[ 100 ]} ⊆ linked' ∧
    refs_ok s' None linked' [] ∧ match f with Some f => files s' !! f = None | None => True end) demo_vfs.
Proof.
  assert (Hlen : Z.of_nat (length (@nil Z)) + 3 < 2 ^ 62) by (cbn; lia).
  exact (vfs_open_close demo_vfs {[ 100 ]} [] [47; 97] 0 demo_vfs_ok Hlen eq_refl).
Defined.


(** A second creation of a cached name leaks a reference: its entry then counts
    two, the cache's and one that nobody holds. *)
Lemma vfs_mknod_leaks :
  ∃ s, (_ ← vfs_mkdir [47; 98] 0; vfs_mkdir [47; 98] 0) demo_vfs = Done (-1, s) ∧
    (d_refcount <$> dentries s !! 200) = Some 2.
Proof. eexists. split; [vm_compute; reflexivity|]. by vm_compute. Qed.
