(* ===== verification/VfsRoot.v ===== *)
(** * File system types and the root (lizard/fs.c, setup_root, set_root and vfs_init of lizard/vfs.c)

    The registered types are a list of addresses, the head of [fs_types]
    first. [mount] is the function pointer of a type. *)

From S2P Require Import Prelude BlkDev BlkMgr Vfs.

Local Open Scope Z_scope.

(** ** The registry *)

Record fs_registry := FsReg {
  fs_names : gmap Z (list Z);       (* the [name] of each [struct fs_type] *)
  fs_types : list Z;
  fstype_count : Z
}.

(** The walk of [fs_find_locked]. *)
Fixpoint find_type (names : gmap Z (list Z)) (types : list Z) (name : list Z) : run (option Z) :=
  match types with
  | [] => Done None
  | t :: types =>
      n ← access (names !! t);
      if bool_decide (n = name) then Done (Some t) else find_type names types name
  end.

Definition fs_find_locked (name : list Z) (r : fs_registry) : run (option Z) :=
  find_type (fs_names r) (fs_types r) name.

Definition fs_find (name : list Z) (r : fs_registry) : run (option Z) := fs_find_locked name r.

Definition fs_register (fstype : option Z) (r : fs_registry) : run (Z * fs_registry) :=
  match fstype with
  | None => Done (0, r)
  | Some t =>
      name ← access (fs_names r !! t);
      match name with
      | [] => Done (0, r)
      | _ =>
          found ← fs_find_locked name r;
          match found with
          | Some _ => Done (-1, r)
          | None => Done (0, FsReg (fs_names r) (t :: fs_types r) (atomic_inc (fstype_count r)))
          end
      end
  end.

(** [list_del] of a type that is not in the list follows its null links. *)
Definition fs_unregister (fstype : option Z) (r : fs_registry) : run (Z * fs_registry) :=
  match fstype with
  | None => Done (0, r)
  | Some t =>
      if bool_decide (t ∈ fs_types r) then
        Done (0, FsReg (fs_names r) (list_difference (fs_types r) [t]) (atomic_dec (fstype_count r)))
      else Stop Fault
  end.

Definition fs_type_count (r : fs_registry) : Z := i32 (fstype_count r).

(** The device is not looked at: the answer is the first type of the list. *)
Definition fs_detect (dev : Z) (r : fs_registry) : option Z := head (fs_types r).

(** [fat16_init]: the type it registers has the name "fat16". *)
Definition fat16_init (type : option Z) (r : fs_registry) : run (Z * fs_registry) :=
  match type with
  | None => Done (-1, r)
  | Some t =>
      fs_register (Some t) (FsReg (<[t := [102; 97; 116; 49; 54]]> (fs_names r)) (fs_types r) (fstype_count r))
  end.

(** ** The root *)

Definition UUID_ : list Z := [85; 85; 73; 68; 61].
Definition PARTUUID_ : list Z := [80; 65; 82; 84; 85; 85; 73; 68; 61].
Definition LABEL_ : list Z := [76; 65; 66; 69; 76; 61].

Definition starts_with (prefix s : list Z) : bool := bool_decide (take (length prefix) s = prefix).

(** The new [rootdev_str], an array of 64 characters. *)
Definition setup_root (dev_str : list Z) : run (list Z) :=
  _ ← panic_if (starts_with UUID_ dev_str);
  _ ← panic_if (starts_with PARTUUID_ dev_str);
  _ ← panic_if (starts_with LABEL_ dev_str);
  Done (take 63 dev_str).

Section root.
Context {F D : Type} `{!fs_ops F}.
Context (mount : Z → Z → st (vfs F) (option Z)).

Definition set_root (reg : fs_registry) (dev : option Z) : st (vfs F) Z :=
  match dev with
  | None => st_stop Panic
  | Some dev =>
      match fs_detect dev reg with
      | None => st_stop Panic
      | Some type =>
          sb ← zalloc;
          match sb with
          | None => st_stop Panic
          | Some _ =>
              root ← mount type dev;
              _ ← st_modify (λ s, Vfs (dentries s) (files s) (heap s) root (fsys s));
              match root with None => st_stop Panic | Some _ => mret 0 end
          end
      end
  end.

Definition vfs_init (rootdev_str : list Z) (m : mgr D) (reg : fs_registry) : st (vfs F) Z :=
  dev ← st_run (blkdev_manager_get_by_name rootdev_str m);
  match dev with
  | None => st_stop Panic
  | Some dev => _ ← set_root reg (Some dev); mret 0
  end.
End root.

(** ** Lemmas

    The registry has every name once; a type is found by the name it was
    registered with, and registering the name again is refused. *)

Definition registry_ok (r : fs_registry) : Prop :=
  NoDup (fs_types r) ∧ (∀ t, t ∈ fs_types r → is_Some (fs_names r !! t)) ∧
  (∀ t u, t ∈ fs_types r → u ∈ fs_types r → fs_names r !! t = fs_names r !! u → t = u) ∧
  fstype_count r = Z.of_nat (length (fs_types r)).

Lemma find_type_Done names types name :
  (∀ t, t ∈ types → is_Some (names !! t)) →
  ∃ o, find_type names types name = Done o ∧
    match o with
    | Some t => t ∈ types ∧ names !! t = Some name
    | None => ∀ t, t ∈ types → names !! t ≠ Some name
    end.
Proof.
  induction types as [|t types IH]; intros Hdom; cbn [find_type].
  { exists None. split; [done|]. intros t Ht. by apply not_elem_of_nil in Ht. }
  destruct (Hdom t ltac:(by left)) as [n Hn]. rewrite Hn. rsimpl. case_bool_decide as E.
  { subst n. exists (Some t). split; [done|]. split; [by left|done]. }
  destruct IH as (o & -> & Ho); [intros u Hu; apply Hdom; by right|]. exists o. split; [done|].
  destruct o as [u|]; [destruct Ho; split; [by right|done]|].
  intros u [->|Hu]%elem_of_cons; [congruence|by apply Ho].
Qed.

Lemma fs_register_ok t name r :
  registry_ok r → fs_names r !! t = Some name → name ≠ [] → Z.of_nat (length (fs_types r)) + 1 < 2 ^ 63 →
  ∃ rc r', fs_register (Some t) r = Done (rc, r') ∧ registry_ok r' ∧
    ((rc = 0 ∧ fs_find name r' = Done (Some t) ∧ fs_register (Some t) r' = Done (-1, r')) ∨
     (rc = -1 ∧ r' = r ∧ ∃ u, u ∈ fs_types r ∧ fs_names r !! u = Some name)).
Proof.
  intros (Hnd & Hdom & Hinj & Hcnt) Hn Hne Hlen. unfold fs_register, fs_find, fs_find_locked. rewrite Hn. rsimpl.
  destruct name as [|c name]; [done|]. set (nm := c :: name) in *.
  destruct (find_type_Done (fs_names r) (fs_types r) nm Hdom) as ([u|] & E & H); rewrite E; rsimpl.
  { exists (-1), r. split; [done|]. split; [by split_and!|]. right. split; [done|]. split; [done|]. by exists u. }
  exists 0, (FsReg (fs_names r) (t :: fs_types r) (atomic_inc (fstype_count r))). split; [done|].
  assert (Hfind : find_type (fs_names r) (t :: fs_types r) nm = Done (Some t)).
  { cbn [find_type]. rewrite Hn. rsimpl. by rewrite bool_decide_eq_true_2. }
  split.
  - split; [constructor; [|done]; intros Hin; by apply (H t Hin)|]. split; [intros u [->|Hu]%elem_of_cons; [by eexists|by apply Hdom]|].
    split; cbn [fs_types fs_names fstype_count].
    + intros a b [->|Ha]%elem_of_cons [->|Hb]%elem_of_cons Eab; try done.
      * rewrite Hn in Eab. by pose proof (H b Hb (eq_sym Eab)).
      * rewrite Hn in Eab. by pose proof (H a Ha Eab).
      * by apply Hinj.
    + unfold atomic_inc, atomic_add. rewrite Hcnt, swrap_small by lia. cbn [length]. lia.
  - left. split; [done|]. cbn [fs_names fs_types]. rewrite Hfind. split; [done|]. rewrite Hn. rsimpl. by rewrite Hfind.
Qed.
