(* ===== verification/VfsFat16.v ===== *)
(** * The FAT16 file system behind the virtual file system

    The operation tables of lizard/fat16.c as an instance of [fs_ops], and what
    a reader of an open file gets through both layers. *)

From S2P Require Import Prelude CString Bytes Dirent Ktime SectorDev Fat16Table Fat16Dir Fat16 Fat16Write Vfs VfsRefs.

Local Open Scope Z_scope.

(** [fat16_inode_ops] and [fat16_file_ops], the same for every inode. *)
#[export] Instance fat16_fs_ops {S} `{!sector_dev S} : fs_ops (fat_state S) := {
  inode_size i := ino ← get_inode i; mret (i_size ino);
  inode_mode i := ino ← get_inode i; mret (i_mode ino);
  op_lookup i := Some (fat16_lookup i);
  op_create i := Some (λ name mode, fat16_create i name);
  op_mkdir i := Some (λ name mode, fat16_mkdir i name);
  op_unlink i := Some (fat16_unlink i);
  op_rmdir i := Some (fat16_rmdir i);
  op_truncate i := Some (fat16_truncate i);
  op_open i := Some (fat16_open i);
  op_release i := Some (fat16_release i);
  op_read i := Some (fat16_read i);
  op_write i := Some (fat16_write i);
  op_readdir i := Some (λ B offset filldir b, fat16_readdir i offset filldir b)
}.

(** ** Specification

    A client that reads with the buffer sizes [counts], one call each. *)

Fixpoint read_all_pieces {F} `{!fs_ops F} (f : Z) (counts : list Z) : st (vfs F) (list Z) :=
  match counts with
  | [] => mret []
  | n :: counts =>
      '(_, buf) ← vfs_read (Some f) n;
      rest ← read_all_pieces f counts;
      mret (buf ++ rest)
  end.

Definition total (counts : list Z) : Z := foldr Z.add 0 counts.

(** An open FAT16 file: its descriptor, its inode and its clusters. *)
Record fat_file {S} `{!sector_dev S} (s : vfs (fat_state S)) (f : Z) (fl : file) (i : Z) (ino : fat_inode) (cs : list Z) :
    Prop := {
  ff_file : files s !! f = Some fl;
  ff_inode : fl_inode fl = Some i;
  ff_ino : inodes (f_itab (fsys s)) !! i = Some ino;
  ff_ok : fat_ok (f_vol (fsys s));
  ff_good : good (f_vol (fsys s));
  ff_chain : file_chain (f_vol (fsys s)) (first_cluster_low (i_ent ino)) cs;
  ff_fits : 0 <= i_size ino <= Z.of_nat (length cs) * cluster_size (v_fs (f_vol (fsys s)));
  ff_size : i_size ino < 2 ^ 32
}.

Section lemmas.
Context {S : Type} `{!sector_dev S} `{!SectorDevLaws S}.
Implicit Types s : vfs (fat_state S).

Lemma reads_file_chain (v v' : vol S) c cs : fat_ok v → reads v v' → file_chain v c cs → file_chain v' c cs.
Proof.
  intros Hok Hr [Hch Hlast Hlen]. pose proof (reads_fs _ _ Hr) as Efs. split; [|by rewrite Efs|done].
  eapply chain_list_ext; [done|]. intros d Hd. apply reads_fat_at; [done|done|].
  pose proof (chain_clusters _ _ _ Hch Hlast) as Hall. rewrite Forall_forall in Hall. pose proof (Hall d Hd).
  apply cluster_in_fat; [apply Hok|lia].
Qed.

Lemma reads_file_data (v v' : vol S) c cs : fat_ok v → reads v v' → file_chain v c cs → file_data v' cs = file_data v cs.
Proof.
  intros Hok Hr [Hch Hlast Hlen]. apply file_data_ext; [by apply reads_fs|]. intros k Hk.
  pose proof (file_sectors_root v cs (fo_geom _ Hok) (chain_clusters _ _ _ Hch Hlast)) as Hroot.
  rewrite Forall_forall in Hroot. apply Hr. by apply Hroot.
Qed.

(** One call of [vfs_read] on an open file. *)
Lemma vfs_read_wp s f fl i ino cs n :
  fat_file s f fl i ino cs → 0 <= fl_offset fl < 2 ^ 32 → 0 <= n < 2 ^ 32 → fl_offset fl + n < 2 ^ 32 →
  let bytes := slice (fl_offset fl) (Z.min n (i_size ino - fl_offset fl)) (file_data (f_vol (fsys s)) cs) in
  wp (vfs_read (Some f) n) (λ r s', r = (Z.of_nat (length bytes), bytes) ∧
    fat_file s' f (File (fl_inode fl) (fl_offset fl + Z.of_nat (length bytes)) (fl_flags fl) (fl_dentry fl)) i ino cs ∧
    file_data (f_vol (fsys s')) cs = file_data (f_vol (fsys s)) cs) s.
Proof.
  intros [Hf Hi Hino Hok Hg Hch Hfits Hsz] Hoff Hn Hsum bytes. unfold vfs_read, get_file.
  apply wp_bind, wp_bind, wp_get. eapply wp_run; [by rewrite Hf|]. rewrite Hi. cbn [mbind option_bind op_read fat16_fs_ops].
  rewrite i64_small by lia. apply wp_bind.
  pose proof (fat16_read_wp (fsys s) i ino cs n (fl_offset fl) Hino Hok Hg Hch Hfits Hsz ltac:(lia) ltac:(lia)) as Hwp.
  unfold wp at 1, on_fs. unfold wp in Hwp. destruct (fat16_read i n (fl_offset fl) (fsys s)) as [[r fs']|e]; [|done].
  destruct Hwp as (Hr & Ht & ->). cbn zeta. fold bytes. apply wp_bind. unfold put_file. apply wp_modify, wp_ret.
  split; [done|].
  assert (Hlen : Z.of_nat (length bytes) <= n).
  { unfold bytes, slice. rewrite length_take. lia. }
  assert (Eadv : advance fl (Z.of_nat (length bytes)) =
    File (fl_inode fl) (fl_offset fl + Z.of_nat (length bytes)) (fl_flags fl) (fl_dentry fl)).
  { unfold advance. case_if; [by rewrite wrap_small by lia|]. f_equal. lia. }
  rewrite Eadv. split; [|by eapply reads_file_data].
  pose proof (reads_fs _ _ Hr) as Efs. split; cbn [files set_files fsys].
  - by rewrite lookup_insert_eq, Hi.
  - done.
  - by rewrite Ht.
  - by eapply reads_fat_ok.
  - apply Hr.
  - by eapply reads_file_chain.
  - by rewrite Efs.
  - done.
Qed.

Lemma slice_app off n1 n2 (l : list Z) : 0 <= off → 0 <= n1 → 0 <= n2 → 
  slice off n1 l ++ slice (off + n1) n2 l = slice off (n1 + n2) l.
Proof.
  intros. unfold slice. replace (Z.to_nat (off + n1)) with (Z.to_nat off + Z.to_nat n1)%nat by lia.
  rewrite <- drop_drop. replace (Z.to_nat (n1 + n2)) with (Z.to_nat n1 + Z.to_nat n2)%nat by lia.
  by rewrite take_take_drop.
Qed.

Lemma total_nonneg counts : Forall (λ n, 0 <= n < 2 ^ 32) counts → 0 <= total counts.
Proof. induction 1 as [|n counts Hn _ IH]; unfold total in *; cbn [foldr]; lia. Qed.

Lemma read_pieces_wp counts : ∀ s f fl i ino cs,
  fat_file s f fl i ino cs → Forall (λ n, 0 <= n < 2 ^ 32) counts → 0 <= fl_offset fl →
  fl_offset fl + total counts < 2 ^ 32 → 
  wp (read_all_pieces f counts) (λ r s',
    r = slice (fl_offset fl) (Z.min (total counts) (i_size ino - fl_offset fl)) (file_data (f_vol (fsys s)) cs)) s.
Proof.
  induction counts as [|n counts IH]; intros s f fl i ino cs Hf Hall Hoff Hsum; cbn [read_all_pieces total foldr] in *.
  { apply wp_ret. unfold slice. replace (Z.to_nat (Z.min 0 _)) with 0%nat by lia. by rewrite take_0. }
  apply Forall_cons in Hall as [Hn Hall]. fold (total counts) in *.
  pose proof (total_nonneg _ Hall) as Htot.
  apply wp_bind. eapply wp_mono; [apply (vfs_read_wp s f fl i ino cs n Hf); lia|].
  set (D := file_data (f_vol (fsys s)) cs). set (off := fl_offset fl) in *.
  set (bytes := slice off (Z.min n (i_size ino - off)) D). intros [r buf] s1 (E & Hf1 & Edata). injection E as -> ->.
  assert (HD : Z.of_nat (length D) = Z.of_nat (length cs) * cluster_size (v_fs (f_vol (fsys s)))).
  { destruct Hf as [_ _ _ Hok _ [Hch Hlast _] _ _]. apply file_data_length; [apply Hok|apply Hok|by eapply chain_clusters]. }
  pose proof (ff_fits _ _ _ _ _ _ Hf) as Hfits.
  assert (Hb : Z.of_nat (length bytes) = Z.max 0 (Z.min n (i_size ino - off))).
  { unfold bytes, slice. rewrite length_take, length_drop. lia. }
  apply wp_bind. eapply wp_mono.
  { apply (IH s1 f _ i ino cs Hf1 Hall); cbn [fl_offset]; fold off; lia. }
  cbn [fl_offset]. fold off. intros rest s2 ->. apply wp_ret. rewrite Edata. fold D.
  destruct (decide (n <= i_size ino - off)).
  - assert (Hb' : Z.of_nat (length bytes) = n) by lia. rewrite Hb'. unfold bytes. rewrite (Z.min_l n) by lia.
    rewrite slice_app by lia. f_equal. lia.
  - assert (Hrest : Z.min (total counts) (i_size ino - (off + Z.of_nat (length bytes))) <= 0) by lia.
    assert (E : slice (off + Z.of_nat (length bytes)) (Z.min (total counts) (i_size ino - (off + Z.of_nat (length bytes)))) D = []).
    { unfold slice at 1. replace (Z.to_nat _) with 0%nat by lia. by rewrite take_0. }
    rewrite E, app_nil_r. unfold bytes. f_equal. lia.
Qed.
End lemmas.

(** ** Theorems *)

Section theorems.
Context {S : Type} `{!sector_dev S} `{!SectorDevLaws S}.

(** Reading an open file piece by piece through the virtual file system
    gives its bytes in order: with any buffer sizes, the pieces that
    [vfs_read] returns on a sound FAT16 volume whose device answers, put
    together, are the bytes of the file from the descriptor's offset on, as
    many as the buffers take or the file has; every call succeeds. *)
Theorem vfs_read_pieces (s : vfs (fat_state S)) f fl i ino cs counts
  (Hfile : fat_file s f fl i ino cs) (Hcounts : Forall (λ n, 0 <= n < 2 ^ 32) counts)
  (Hoffset : 0 <= fl_offset fl) (Hsum : fl_offset fl + total counts < 2 ^ 32) :
  ∃ s', read_all_pieces f counts s =
    Done (slice (fl_offset fl) (Z.min (total counts) (i_size ino - fl_offset fl)) (file_data (f_vol (fsys s)) cs), s').
Proof.
  destruct (wp_elim _ _ _ (read_pieces_wp counts s f fl i ino cs Hfile Hcounts Hoffset Hsum)) as (r & s' & E & ->).
  by exists s'.
Qed.
End theorems.

(** ** Witness *)

Definition demo_file : file := File (Some 0x1000) 0 0 None.
Definition demo_open : vfs (fat_state ram) := Vfs ∅ {[ 7 := demo_file ]} [] None demo_state.

Lemma demo_open_file : fat_file demo_open 7 demo_file 0x1000 demo_inode [4; 5].
Proof.
  split.
  - reflexivity.
  - reflexivity.
  - reflexivity.
  - exact demo_vol_ok.
  - exact I.
  - exact demo_chain.
  - cbn [i_size demo_inode length]. change (cluster_size _) with 512. lia.
  - cbn [i_size demo_inode]. lia.
Qed.

Lemma vfs_read_pieces_witness :
  ∃ s', read_all_pieces 7 [512; 100; 512] demo_open = Done (slice 0 700 (file_data demo_vol [4; 5]), s').
Proof.
  destruct (vfs_read_pieces demo_open 7 demo_file 0x1000 demo_inode [4; 5] [512; 100; 512] demo_open_file) as (s' & E).
  - repeat constructor; lia.
  - cbn. lia.
  - cbn. lia.
  - exists s'. exact E.
Defined.
