(* ===== verification/Task.v ===== *)
(** * Tasks and the scheduler (lizard/task.h, task.c, sched.c, pit.c, exception.c)

    A task is the address of its [struct task] in the table [tasks]; the run
    list and the lists of children are lists of those addresses, from the head
    on ([ListHead] shows that the pointer lists behave so). [ptrace] is the trap
    frame, the registers of the interrupted code. An operation that reschedules
    ends where the scheduler returns, with the registers of the task that runs
    next in the frame. Memory for stacks and page tables comes from the
    interface [task_mem]; [idle] is the address of the static idle task. *)

From S2P Require Import Prelude Helpers Ktime.

Local Open Scope Z_scope.

Definition TASK_NAME_MAX_LEN : Z := 32.
Definition USER_STACK_BASE : Z := 0x700000000000.
Definition USER_STACK_PAGES : nat := 64.
Definition TASK_FD_BASE : Z := 3.
Definition TASK_MAX_FDS : nat := 16.
Definition KSTACK_ORDER : Z := 2.
Definition KSTACK_PAGES : Z := Z.shiftl 1 KSTACK_ORDER.
Definition RFLAGS_DEFAULT : Z := 0x202.
Definition TASK_TIMESLICE : Z := 5.

Definition KERNEL_CS : Z := 0x08.
Definition KERNEL_SS : Z := 0x10.
Definition USER_CS : Z := 0x1B.
Definition USER_SS : Z := 0x23.

Definition ECHILD : Z := 10.
Definition EINVAL : Z := 22.

Record cpu_state := CpuState {
  rax : Z; rbx : Z; rcx : Z; rdx : Z; rdi : Z; rsi : Z; rbp : Z;
  r8 : Z; r9 : Z; r10 : Z; r11 : Z; r12 : Z; r13 : Z; r14 : Z; r15 : Z;
  vec : Z; errcode : Z;
  rip : Z; cs : Z; rflags : Z; rsp : Z; ss : Z
}.

Inductive task_state :=
  | TASK_STATE_RUNNING | TASK_STATE_READY | TASK_STATE_WAITING
  | TASK_STATE_TERMINATED | TASK_STATE_NEW | TASK_STATE_ZOMBIE.

Inductive wait_kind := WAIT_NONE | WAIT_SLEEP | WAIT_CHILD | WAIT_INPUT.

#[global] Instance task_state_eq_dec : EqDecision task_state.
Proof. solve_decision. Defined.
#[global] Instance wait_kind_eq_dec : EqDecision wait_kind.
Proof. solve_decision. Defined.

(** The node [sibling]: null pointers, linked to itself, or in the list of the
    children of a task. *)
Inductive slink := SNull | SSelf | SIn (p : Z).

Record task := Task {
  t_name : list Z;
  t_pid : Z;
  t_exit_code : Z;
  t_state : task_state;
  t_wait : wait_kind;
  t_user : bool;
  t_heap : bool;
  t_regs : cpu_state;
  t_pml4 : Z;
  t_kstack : Z;
  t_parent : option Z;
  t_children : list Z;
  t_sibling : slink;
  t_priority : Z;
  t_ticks : Z;
  t_sleep_until : Z;
  t_fds : list (option Z);
  t_cwd : list Z
}.

Definition zero_regs : cpu_state := CpuState 0 0 0 0 0 0 0 0 0 0 0 0 0 0 0 0 0 0 0 0 0 0.

(** [memset(task, 0, sizeof(struct task))] *)
Definition zero_task : task :=
  Task [] 0 0 TASK_STATE_RUNNING WAIT_NONE false false zero_regs 0 0 None [] SNull 0 0 0
    (replicate TASK_MAX_FDS None) [].

(** ** Assignments to one field *)

Definition set_state (x : task_state) (t : task) : task :=
  Task (t_name t) (t_pid t) (t_exit_code t) x (t_wait t) (t_user t) (t_heap t) (t_regs t) (t_pml4 t) (t_kstack t)
    (t_parent t) (t_children t) (t_sibling t) (t_priority t) (t_ticks t) (t_sleep_until t) (t_fds t) (t_cwd t).
Definition set_wait (x : wait_kind) (t : task) : task :=
  Task (t_name t) (t_pid t) (t_exit_code t) (t_state t) x (t_user t) (t_heap t) (t_regs t) (t_pml4 t) (t_kstack t)
    (t_parent t) (t_children t) (t_sibling t) (t_priority t) (t_ticks t) (t_sleep_until t) (t_fds t) (t_cwd t).
Definition set_exit_code (x : Z) (t : task) : task :=
  Task (t_name t) (t_pid t) x (t_state t) (t_wait t) (t_user t) (t_heap t) (t_regs t) (t_pml4 t) (t_kstack t)
    (t_parent t) (t_children t) (t_sibling t) (t_priority t) (t_ticks t) (t_sleep_until t) (t_fds t) (t_cwd t).
Definition set_heap (x : bool) (t : task) : task :=
  Task (t_name t) (t_pid t) (t_exit_code t) (t_state t) (t_wait t) (t_user t) x (t_regs t) (t_pml4 t) (t_kstack t)
    (t_parent t) (t_children t) (t_sibling t) (t_priority t) (t_ticks t) (t_sleep_until t) (t_fds t) (t_cwd t).
Definition set_regs (x : cpu_state) (t : task) : task :=
  Task (t_name t) (t_pid t) (t_exit_code t) (t_state t) (t_wait t) (t_user t) (t_heap t) x (t_pml4 t) (t_kstack t)
    (t_parent t) (t_children t) (t_sibling t) (t_priority t) (t_ticks t) (t_sleep_until t) (t_fds t) (t_cwd t).
Definition set_parent (x : option Z) (t : task) : task :=
  Task (t_name t) (t_pid t) (t_exit_code t) (t_state t) (t_wait t) (t_user t) (t_heap t) (t_regs t) (t_pml4 t)
    (t_kstack t) x (t_children t) (t_sibling t) (t_priority t) (t_ticks t) (t_sleep_until t) (t_fds t) (t_cwd t).
Definition set_children (x : list Z) (t : task) : task :=
  Task (t_name t) (t_pid t) (t_exit_code t) (t_state t) (t_wait t) (t_user t) (t_heap t) (t_regs t) (t_pml4 t)
    (t_kstack t) (t_parent t) x (t_sibling t) (t_priority t) (t_ticks t) (t_sleep_until t) (t_fds t) (t_cwd t).
Definition set_sibling (x : slink) (t : task) : task :=
  Task (t_name t) (t_pid t) (t_exit_code t) (t_state t) (t_wait t) (t_user t) (t_heap t) (t_regs t) (t_pml4 t)
    (t_kstack t) (t_parent t) (t_children t) x (t_priority t) (t_ticks t) (t_sleep_until t) (t_fds t) (t_cwd t).
Definition set_ticks (x : Z) (t : task) : task :=
  Task (t_name t) (t_pid t) (t_exit_code t) (t_state t) (t_wait t) (t_user t) (t_heap t) (t_regs t) (t_pml4 t)
    (t_kstack t) (t_parent t) (t_children t) (t_sibling t) (t_priority t) x (t_sleep_until t) (t_fds t) (t_cwd t).
Definition set_sleep (x : Z) (t : task) : task :=
  Task (t_name t) (t_pid t) (t_exit_code t) (t_state t) (t_wait t) (t_user t) (t_heap t) (t_regs t) (t_pml4 t)
    (t_kstack t) (t_parent t) (t_children t) (t_sibling t) (t_priority t) (t_ticks t) x (t_fds t) (t_cwd t).
Definition set_fds (x : list (option Z)) (t : task) : task :=
  Task (t_name t) (t_pid t) (t_exit_code t) (t_state t) (t_wait t) (t_user t) (t_heap t) (t_regs t) (t_pml4 t)
    (t_kstack t) (t_parent t) (t_children t) (t_sibling t) (t_priority t) (t_ticks t) (t_sleep_until t) x (t_cwd t).
Definition set_cwd (x : list Z) (t : task) : task :=
  Task (t_name t) (t_pid t) (t_exit_code t) (t_state t) (t_wait t) (t_user t) (t_heap t) (t_regs t) (t_pml4 t)
    (t_kstack t) (t_parent t) (t_children t) (t_sibling t) (t_priority t) (t_ticks t) (t_sleep_until t) (t_fds t) x.

(** ** Memory *)

(** The memory a task owns: its structure, its kernel stack, its page tables. *)
Inductive res := RStruct (t : Z) | RStack (v : Z) | RTree (v : Z).

(** What the calls of the memory subsystem are to the tasks. [tm_own m R] says
    that the resources [R] are handed out in the memory [m]. *)
Class task_mem (M : Type) := TaskMem {
  tm_zalloc : st M (option Z);               (* zalloc(sizeof(struct task)) *)
  tm_pgtable_create : st M Z;
  tm_buddy_alloc : Z → st M Z;
  tm_memset : Z → Z → st M unit;             (* memset(p, 0, n) *)
  tm_vmm_alloc : Z → Z → Z → st M Z;
  tm_switch_pml4 : Z → st M unit;
  tm_buddy_free : Z → Z → st M unit;
  tm_free_tree : Z → st M unit;
  tm_kfree : Z → st M unit;
  tm_own : M → list res → Prop
}.

Class TaskMemLaws (M : Type) `{!task_mem M} : Prop := {
  tm_own_perm m R R' : R ≡ₚ R' → tm_own m R → tm_own m R';
  tm_own_nodup m R : tm_own m R → NoDup R;
  tm_zalloc_ok m R t m' : tm_own m R → tm_zalloc m = Done (Some t, m') → tm_own m' (RStruct t :: R);
  tm_create_ok m R v m' : tm_own m R → tm_pgtable_create m = Done (v, m') → v ≠ 0 ∧ tm_own m' (RTree v :: R);
  tm_alloc_ok m R v m' : tm_own m R → tm_buddy_alloc KSTACK_ORDER m = Done (v, m') →
    (v = 0 ∧ tm_own m' R) ∨ (0 < v < 2 ^ 64 - KSTACK_PAGES * PAGE_SIZE ∧ tm_own m' (RStack v :: R));
  tm_memset_null n m : tm_memset 0 n m = Stop Fault;
  tm_memset_ok m R p n m' : tm_own m R → tm_memset p n m = Done (tt, m') → tm_own m' R;
  tm_vmm_alloc_ok m R pml4 va fl v m' : tm_own m R → tm_vmm_alloc pml4 va fl m = Done (v, m') → tm_own m' R;
  tm_switch_ok m R v : tm_own m R → RTree v ∈ R → ∃ m', tm_switch_pml4 v m = Done (tt, m') ∧ tm_own m' R;
  tm_free_stack_ok m R v : tm_own m (RStack v :: R) →
    ∃ m', tm_buddy_free v KSTACK_ORDER m = Done (tt, m') ∧ tm_own m' R;
  tm_free_tree_ok m R v : tm_own m (RTree v :: R) → ∃ m', tm_free_tree v m = Done (tt, m') ∧ tm_own m' R;
  tm_kfree_ok m R t : tm_own m (RStruct t :: R) → ∃ m', tm_kfree t m = Done (tt, m') ∧ tm_own m' R
}.

Record sys (M : Type) := Sys {
  tasks : gmap Z task;
  task_list : list Z;
  current_task : option Z;
  ptrace : cpu_state;
  pid_counter : Z;
  pit_ticks : Z;
  clock : clocks;
  scheduler_enabled : bool;
  tss_rsp0 : Z;
  tmem : M
}.
Arguments Sys {_} _ _ _ _ _ _ _ _ _ _.
Arguments tasks {_} _.
Arguments task_list {_} _.
Arguments current_task {_} _.
Arguments ptrace {_} _.
Arguments pid_counter {_} _.
Arguments pit_ticks {_} _.
Arguments clock {_} _.
Arguments scheduler_enabled {_} _.
Arguments tss_rsp0 {_} _.
Arguments tmem {_} _.

(** The registers that are saved and loaded: all but the vector and the error code. *)
Definition copy_regs (from to : cpu_state) : cpu_state :=
  CpuState (rax from) (rbx from) (rcx from) (rdx from) (rdi from) (rsi from) (rbp from)
    (r8 from) (r9 from) (r10 from) (r11 from) (r12 from) (r13 from) (r14 from) (r15 from)
    (vec to) (errcode to) (rip from) (cs from) (rflags from) (rsp from) (ss from).

Section task.
Context {M : Type} `{!task_mem M}.
Variable idle : Z.
Implicit Types s : sys M.

Definition put_tasks (ts : gmap Z task) (s : sys M) : sys M :=
  Sys ts (task_list s) (current_task s) (ptrace s) (pid_counter s) (pit_ticks s) (clock s) (scheduler_enabled s)
    (tss_rsp0 s) (tmem s).
Definition put_list (l : list Z) (s : sys M) : sys M :=
  Sys (tasks s) l (current_task s) (ptrace s) (pid_counter s) (pit_ticks s) (clock s) (scheduler_enabled s)
    (tss_rsp0 s) (tmem s).
Definition put_current (c : option Z) (s : sys M) : sys M :=
  Sys (tasks s) (task_list s) c (ptrace s) (pid_counter s) (pit_ticks s) (clock s) (scheduler_enabled s)
    (tss_rsp0 s) (tmem s).
Definition put_ptrace (r : cpu_state) (s : sys M) : sys M :=
  Sys (tasks s) (task_list s) (current_task s) r (pid_counter s) (pit_ticks s) (clock s) (scheduler_enabled s)
    (tss_rsp0 s) (tmem s).
Definition put_pid_counter (n : Z) (s : sys M) : sys M :=
  Sys (tasks s) (task_list s) (current_task s) (ptrace s) n (pit_ticks s) (clock s) (scheduler_enabled s)
    (tss_rsp0 s) (tmem s).
Definition put_time (n : Z) (c : clocks) (s : sys M) : sys M :=
  Sys (tasks s) (task_list s) (current_task s) (ptrace s) (pid_counter s) n c (scheduler_enabled s)
    (tss_rsp0 s) (tmem s).
Definition put_enabled (b : bool) (s : sys M) : sys M :=
  Sys (tasks s) (task_list s) (current_task s) (ptrace s) (pid_counter s) (pit_ticks s) (clock s) b
    (tss_rsp0 s) (tmem s).
Definition put_rsp0 (n : Z) (s : sys M) : sys M :=
  Sys (tasks s) (task_list s) (current_task s) (ptrace s) (pid_counter s) (pit_ticks s) (clock s)
    (scheduler_enabled s) n (tmem s).
Definition put_mem (m : M) (s : sys M) : sys M :=
  Sys (tasks s) (task_list s) (current_task s) (ptrace s) (pid_counter s) (pit_ticks s) (clock s)
    (scheduler_enabled s) (tss_rsp0 s) m.

Definition on_mem {A} (m : st M A) : st (sys M) A := λ s,
  match m (tmem s) with
  | Done (a, k) => Done (a, put_mem k s)
  | Stop e => Stop e
  end.

(** [*t] *)
Definition get_task (t : Z) : st (sys M) task := s ← st_get; st_run (access (tasks s !! t)).
Definition upd_task (t : Z) (f : task → task) : st (sys M) unit :=
  tk ← get_task t; st_modify (λ s, put_tasks (<[t := f tk]> (tasks s)) s).

Definition in_state (x : task_state) (t : task) : bool := bool_decide (t_state t = x).
Definition waits_for (k : wait_kind) (t : task) : bool := bool_decide (t_wait t = k).

(** ** Creation *)

(** One page of the user stack for each of the [n] pages from page [i] on. *)
Fixpoint map_user_stack (n : nat) (i pml4 uflags : Z) : st (sys M) unit :=
  match n with
  | O => mret tt
  | S n =>
      ptr ← on_mem (tm_vmm_alloc pml4 (USER_STACK_BASE + i * PAGE_SIZE) uflags);
      _ ← on_mem (tm_memset ptr PAGE_SIZE);
      map_user_stack n (i + 1) pml4 uflags
  end.

Definition PAGE_USER_FLAGS : Z := Z.lor (Z.lor 1 2) 4.

(** The name is copied without its terminator into a field of 32 bytes. *)
Definition task_create (t entry_point : Z) (name : list Z) (priority : Z) (is_user : bool) : st (sys M) unit :=
  _ ← get_task t;
  _ ← (if TASK_NAME_MAX_LEN <? Z.of_nat (length name) then st_stop Fault else mret tt);
  s ← st_get;
  let pid := u32 (pid_counter s + 1) in
  _ ← st_modify (put_pid_counter pid);
  pml4 ← on_mem tm_pgtable_create;
  kstack ← on_mem (tm_buddy_alloc KSTACK_ORDER);
  _ ← on_mem (tm_memset kstack (KSTACK_PAGES * PAGE_SIZE));
  let kernel_stack := u64 (kstack + KSTACK_PAGES * PAGE_SIZE) in
  _ ← (if is_user then map_user_stack USER_STACK_PAGES 0 pml4 PAGE_USER_FLAGS else mret tt);
  let regs := CpuState 0 0 0 0 0 0 0 0 0 0 0 0 0 0 0 0 0 entry_point
                (if is_user then USER_CS else KERNEL_CS) RFLAGS_DEFAULT
                (if is_user then USER_STACK_BASE + Z.of_nat USER_STACK_PAGES * PAGE_SIZE else kernel_stack)
                (if is_user then USER_SS else KERNEL_SS) in
  _ ← upd_task t (λ _,
        Task name pid 0 TASK_STATE_NEW WAIT_NONE is_user false regs pml4 kernel_stack
          None [] SSelf priority TASK_TIMESLICE 0 (replicate TASK_MAX_FDS None) [47]);
  st_modify (λ s, put_list (t :: task_list s) s).

Definition task_set_ready (t : Z) : st (sys M) unit :=
  tk ← get_task t;
  if in_state TASK_STATE_NEW tk then upd_task t (set_state TASK_STATE_READY) else mret tt.

(** ** Switching *)

Definition task_load_context (t : Z) : st (sys M) unit :=
  tk ← get_task t; st_modify (λ s, put_ptrace (copy_regs (t_regs tk) (ptrace s)) s).

Definition get_current : st (sys M) Z := s ← st_get; st_run (access (current_task s)).

Definition task_save_context : st (sys M) unit :=
  c ← get_current;
  s ← st_get;
  upd_task c (λ tk, set_regs (copy_regs (ptrace s) (t_regs tk)) tk).

Definition task_switch_to (next_task : Z) : st (sys M) unit :=
  _ ← task_save_context;
  _ ← task_load_context next_task;
  tk ← get_task next_task;
  _ ← (if t_pml4 tk =? 0 then mret tt else on_mem (tm_switch_pml4 (t_pml4 tk)));
  _ ← st_modify (put_rsp0 (t_kstack tk));
  st_modify (put_current (Some next_task)).

(** ** Choosing the next task *)

Fixpoint first_ready (l : list Z) : st (sys M) (option Z) :=
  match l with
  | [] => mret None
  | t :: l =>
      tk ← get_task t;
      if in_state TASK_STATE_READY tk && negb (t =? idle) then mret (Some t) else first_ready l
  end.

(** The nodes on the left and on the right of [c] in a list. *)
Fixpoint split_at (c : Z) (l : list Z) : option (list Z * list Z) :=
  match l with
  | [] => None
  | t :: l => if t =? c then Some ([], l) else '(a, b) ← split_at c l; Some (t :: a, b)
  end.

Definition next_ready_task : st (sys M) (option Z) :=
  c ← get_current;
  s ← st_get;
  '(left_, right_) ← st_run (access (split_at c (task_list s)));
  r ← first_ready right_;
  match r with
  | Some t => mret (Some t)
  | None => first_ready left_
  end.

(** ** The scheduler *)

Definition unlink (t : Z) (l : list Z) : list Z := filter (λ x, x ≠ t) l.

(** [list_del(&t->sibling)] *)
Definition sibling_del (t : Z) : st (sys M) unit :=
  tk ← get_task t;
  match t_sibling tk with
  | SNull => st_stop Fault
  | SSelf => upd_task t (set_sibling SNull)
  | SIn p =>
      _ ← upd_task p (λ pk, set_children (unlink t (t_children pk)) pk);
      upd_task t (set_sibling SNull)
  end.

(** [list_add_tail(&t->sibling, &p->children)] *)
Definition sibling_add (t p : Z) : st (sys M) unit :=
  _ ← upd_task p (λ pk, set_children (t_children pk ++ [t]) pk);
  upd_task t (set_sibling (SIn p)).

Definition is_null (x : slink) : bool := match x with SNull => true | _ => false end.

(** The stack, the page tables and the structure of a dead task. *)
Definition release_task (t : Z) (tk : task) : st (sys M) unit :=
  _ ← (if t_kstack tk =? 0 then mret tt
       else on_mem (tm_buddy_free (u64 (t_kstack tk - KSTACK_PAGES * PAGE_SIZE)) KSTACK_ORDER));
  _ ← (if t_pml4 tk =? 0 then mret tt else on_mem (tm_free_tree (t_pml4 tk)));
  if t_heap tk then
    _ ← on_mem (tm_kfree t);
    st_modify (λ s, put_tasks (delete t (tasks s)) s)
  else mret tt.

Definition reap (t : Z) : st (sys M) unit :=
  s ← st_get;
  tk ← get_task t;
  if (t =? idle) || bool_decide (current_task s = Some t) || negb (in_state TASK_STATE_TERMINATED tk) then mret tt
  else
    _ ← st_modify (λ s, put_list (unlink t (task_list s)) s);
    _ ← (if is_null (t_sibling tk) then mret tt else sibling_del t);
    release_task t tk.

Fixpoint reap_list (l : list Z) : st (sys M) unit :=
  match l with
  | [] => mret tt
  | t :: l => _ ← reap t; reap_list l
  end.

(** The list as it is when the walk starts: the walk holds the next node, and
    only the node it is at leaves the list. *)
Definition reap_terminated : st (sys M) unit := s ← st_get; reap_list (task_list s).

Definition next_or_idle (cur_runnable : bool) (c : option Z) : st (sys M) (option Z) :=
  next ← next_ready_task;
  match next with
  | Some t => mret (Some t)
  | None =>
      if cur_runnable then
        c ← st_run (access c);
        _ ← upd_task c (set_ticks TASK_TIMESLICE);
        mret None
      else mret (Some idle)
  end.

(** One tick of the quantum of [c] is spent; whether some is left. *)
Definition spend_tick (c : Z) : st (sys M) bool :=
  _ ← upd_task c (λ tk, if t_ticks tk =? 0 then tk else set_ticks (t_ticks tk - 1) tk);
  tk ← get_task c;
  mret (negb (t_ticks tk =? 0)).

(** [next] takes the processor, [back] is put back in the rotation. *)
Definition run_next (cur back : option Z) (next : Z) : st (sys M) unit :=
  _ ← match back with Some c => upd_task c (set_state TASK_STATE_READY) | None => mret tt end;
  _ ← upd_task next (set_state TASK_STATE_RUNNING);
  _ ← upd_task next (set_ticks TASK_TIMESLICE);
  if bool_decide (cur = Some next) then mret tt else task_switch_to next.

(** [scheduler] after the reaper. *)
Definition dispatch : st (sys M) unit :=
  s ← st_get;
  let cur := current_task s in
  cur_runnable ← match cur with
                 | None => mret false
                 | Some c => tk ← get_task c; mret (in_state TASK_STATE_RUNNING tk)
                 end;
  let user := if cur_runnable && negb (bool_decide (cur = Some idle)) then cur else None in
  keep ← match user with Some c => spend_tick c | None => mret false end;
  if keep : bool then mret tt
  else
    next ← next_or_idle cur_runnable cur;
    match next with
    | None => mret tt
    | Some next => run_next cur user next
    end.

Definition scheduler : st (sys M) unit :=
  s ← st_get;
  if negb (scheduler_enabled s) then mret tt
  else _ ← reap_terminated; dispatch.

Definition enable_scheduler : st (sys M) unit := st_modify (put_enabled true).
Definition disable_scheduler : st (sys M) unit := st_modify (put_enabled false).
Definition scheduler_is_enabled : st (sys M) bool := s ← st_get; mret (scheduler_enabled s).

(** [int $48]: the trap frame is the state of the code that issues it. *)
Definition isr_scheduler : st (sys M) unit := scheduler.
Definition scheduler_trigger : st (sys M) unit := isr_scheduler.

Definition task_yield : st (sys M) unit := scheduler_trigger.

(** ** Sleeping, blocking and waking *)

(** [sleep_until] has 32 bits, the tick counter 64. *)
Definition task_sleep (ms : Z) : st (sys M) unit :=
  s ← st_get;
  match current_task s with
  | None => mret tt
  | Some c =>
      _ ← upd_task c (λ tk, set_state TASK_STATE_WAITING (set_wait WAIT_SLEEP
                              (set_sleep (u32 (pit_ticks s + ms)) tk)));
      scheduler_trigger
  end.

Definition task_block (k : wait_kind) : st (sys M) unit :=
  s ← st_get;
  match current_task s with
  | None => mret tt
  | Some c =>
      if c =? idle then mret tt
      else
        _ ← upd_task c (λ tk, set_state TASK_STATE_WAITING (set_wait k tk));
        scheduler_trigger
  end.

Definition task_wake (t : option Z) : st (sys M) unit :=
  match t with
  | None => mret tt
  | Some t =>
      tk ← get_task t;
      if negb (in_state TASK_STATE_WAITING tk) then mret tt
      else upd_task t (λ tk, set_state TASK_STATE_READY (set_wait WAIT_NONE tk))
  end.

Fixpoint wake_loop (k : wait_kind) (l : list Z) (n : Z) : st (sys M) Z :=
  match l with
  | [] => mret n
  | t :: l =>
      tk ← get_task t;
      if in_state TASK_STATE_WAITING tk && waits_for k tk then
        _ ← task_wake (Some t);
        wake_loop k l (n + 1)
      else wake_loop k l n
  end.

Definition task_wake_all (k : wait_kind) : st (sys M) Z := s ← st_get; wake_loop k (task_list s) 0.

Fixpoint tick_loop (l : list Z) : st (sys M) unit :=
  match l with
  | [] => mret tt
  | t :: l =>
      tk ← get_task t;
      s ← st_get;
      _ ← (if in_state TASK_STATE_WAITING tk && waits_for WAIT_SLEEP tk && (t_sleep_until tk <=? pit_ticks s)
           then upd_task t (λ tk, set_state TASK_STATE_READY (set_wait WAIT_NONE tk))
           else mret tt);
      tick_loop l
  end.

Definition task_tick : st (sys M) unit := s ← st_get; tick_loop (task_list s).

(** The timer interrupt. *)
Definition isr_pit : st (sys M) unit :=
  _ ← st_modify (λ s, put_time (u64 (pit_ticks s + 1)) (time_tick_ns 1000000 (clock s)) s);
  _ ← task_tick;
  scheduler.

(** ** The end of a task *)

(** The children of the task that ends go to [idle]. *)
Definition reparent_one (c : Z) : st (sys M) unit :=
  ck ← get_task c;
  _ ← (if in_state TASK_STATE_ZOMBIE ck then upd_task c (set_state TASK_STATE_TERMINATED) else mret tt);
  _ ← sibling_del c;
  _ ← sibling_add c idle;
  upd_task c (set_parent (Some idle)).

Fixpoint reparent (l : list Z) : st (sys M) unit :=
  match l with
  | [] => mret tt
  | c :: l => _ ← reparent_one c; reparent l
  end.

Definition die (me : Z) : st (sys M) unit :=
  mk ← get_task me;
  _ ← reparent (t_children mk);
  mk ← get_task me;
  match t_parent mk with
  | Some p =>
      if p =? idle then upd_task me (set_state TASK_STATE_TERMINATED)
      else
        _ ← upd_task me (set_state TASK_STATE_ZOMBIE);
        pk ← get_task p;
        if in_state TASK_STATE_WAITING pk && waits_for WAIT_CHILD pk then task_wake (Some p) else mret tt
  | None => upd_task me (set_state TASK_STATE_TERMINATED)
  end.

(** Up to the first reschedule of the final loop: a dead task is not resumed. *)
Definition task_exit : st (sys M) unit :=
  s ← st_get;
  _ ← match current_task s with
      | None => mret tt
      | Some me => if me =? idle then mret tt else die me
      end;
  scheduler_trigger.

(** The first zombie among the children that match, and whether one matches. *)
Fixpoint find_zombie (pid : Z) (l : list Z) (found : bool) : st (sys M) (bool * option Z) :=
  match l with
  | [] => mret (found, None)
  | c :: l =>
      ck ← get_task c;
      if (0 <? pid) && negb (i32 (t_pid ck) =? pid) then find_zombie pid l found
      else if in_state TASK_STATE_ZOMBIE ck then mret (true, Some c)
      else find_zombie pid l true
  end.

(** A pass of the loop of [task_waitpid]: the result and the exit code that is
    stored, or the task is blocked and starts over when it runs again. *)
Inductive wait_result := Waited (r : Z) (status : option Z) | Again.

Definition task_waitpid (pid : Z) : st (sys M) wait_result :=
  s ← st_get;
  match current_task s with
  | None => mret (Waited (- EINVAL) None)
  | Some me =>
      mk ← get_task me;
      '(matches, zombie) ← find_zombie pid (t_children mk) false;
      if negb matches then mret (Waited (- ECHILD) None)
      else
        match zombie with
        | Some z =>
            zk ← get_task z;
            _ ← sibling_del z;
            _ ← upd_task z (λ zk, set_state TASK_STATE_TERMINATED (set_parent None zk));
            mret (Waited (i32 (t_pid zk)) (Some (t_exit_code zk)))
        | None => _ ← task_block WAIT_CHILD; mret Again
        end
  end.

(** ** Faults and initialisation *)

(** A fault in user mode sends the task to [task_exit], at address [exit_fn];
    any other one stops the kernel. The reports on the console are in Exception. *)
Definition exception_handle (exit_fn : Z) : st (sys M) unit :=
  s ← st_get;
  let regs := ptrace s in
  let from_user := Z.land (cs regs) 3 =? 3 in
  match current_task s with
  | Some c =>
      if from_user && scheduler_enabled s && negb (c =? idle) then
        _ ← upd_task c (set_exit_code (- i32 (vec regs)));
        ck ← get_task c;
        st_modify (put_ptrace
          (CpuState (rax regs) (rbx regs) (rcx regs) (rdx regs) (rdi regs) (rsi regs) (rbp regs)
             (r8 regs) (r9 regs) (r10 regs) (r11 regs) (r12 regs) (r13 regs) (r14 regs) (r15 regs)
             (vec regs) (errcode regs) exit_fn KERNEL_CS 0x2 (t_kstack ck) KERNEL_SS))
      else st_stop Panic
  | None => st_stop Panic
  end.

(** [idle_func] is at address [entry]. *)
Definition sched_init (entry : Z) : st (sys M) unit :=
  _ ← task_create idle entry [105; 100; 108; 101] 0 false;
  _ ← upd_task idle (set_state TASK_STATE_RUNNING);
  st_modify (put_current (Some idle)).
End task.
