(* ===== verification/SchedOk.v ===== *)
(** * The invariant of the tasks

    [sched_ok]: the run list and the process tree are well formed, a task in
    the list owns its memory, and no task but the current one and [idle] is
    running. Every operation keeps it and none of them stops. *)

From S2P Require Import Prelude Helpers Ktime Task.

Local Open Scope Z_scope.

(** ** Specification *)

Section spec.
Context {M : Type} `{!task_mem M}.
Variable idle : Z.

(** [tk] is the task at [t], in the run list. *)
Definition live (s : sys M) (t : Z) (tk : task) : Prop := t ∈ task_list s ∧ tasks s !! t = Some tk.

Definition dead (tk : task) : Prop := t_state tk = TASK_STATE_TERMINATED ∨ t_state tk = TASK_STATE_ZOMBIE.

(** The process tree: lists of children and parents agree. *)
Record tree_ok (s : sys M) : Prop := {
  to_nodup p pk : live s p pk → NoDup (t_children pk);
  to_children p pk c : live s p pk → c ∈ t_children pk ↔ ∃ ck, live s c ck ∧ t_parent ck = Some p;
  to_parent c ck p : live s c ck → t_parent ck = Some p → p ≠ c ∧ p ∈ task_list s;
  to_sibling c ck : live s c ck →
    match t_sibling ck with SIn p => t_parent ck = Some p | _ => t_parent ck = None end;
  to_idle ik : live s idle ik → t_parent ik = None
}.

(** What the state of one task may be. *)
Record task_ok (s : sys M) (t : Z) (tk : task) : Prop := {
  tk_running : t_state tk = TASK_STATE_RUNNING → t = idle ∨ current_task s = Some t;
  tk_ticks : 0 <= t_ticks tk <= TASK_TIMESLICE;
  tk_dead : dead tk → t ≠ idle ∧ t_children tk = [];
  tk_terminated : t_state tk = TASK_STATE_TERMINATED → t_parent tk = None ∨ t_parent tk = Some idle;
  tk_zombie : t_state tk = TASK_STATE_ZOMBIE → ∃ p, t_parent tk = Some p ∧ p ≠ idle
}.

Definition res_of (t : Z) (tk : task) : list res :=
  (if t_kstack tk =? 0 then [] else [RStack (u64 (t_kstack tk - KSTACK_PAGES * PAGE_SIZE))]) ++
  (if t_pml4 tk =? 0 then [] else [RTree (t_pml4 tk)]) ++
  (if t_heap tk then [RStruct t] else []).

Definition owned (ts : gmap Z task) (l : list Z) : list res :=
  l ≫= λ t, match ts !! t with Some tk => res_of t tk | None => [] end.

(** [R] is the memory of others. *)
Record sched_ok (s : sys M) (R : list res) : Prop := {
  so_nodup : NoDup (task_list s);
  so_idle : idle ∈ task_list s;
  so_current : ∃ c, current_task s = Some c ∧ c ∈ task_list s;
  so_dom t : t ∈ task_list s → is_Some (tasks s !! t);
  so_task t tk : live s t tk → task_ok s t tk;
  so_tree : tree_ok s;
  so_own : tm_own (tmem s) (R ++ owned (tasks s) (task_list s))
}.

(** What an operation leaves alone that does not choose another task: the
    contexts and the quanta of the tasks, and the tasks that are ready. Tasks
    leave the run list only. *)
Definition same_core (tk tk' : task) : Prop :=
  t_pid tk' = t_pid tk ∧ t_regs tk' = t_regs tk ∧ t_ticks tk' = t_ticks tk ∧ t_kstack tk' = t_kstack tk ∧
  t_pml4 tk' = t_pml4 tk.

(** A zombie that waits for its parent. *)
Definition corpse (tk tk' : task) : Prop :=
  t_state tk' = TASK_STATE_ZOMBIE ∧ t_parent tk' = t_parent tk ∧ t_pid tk' = t_pid tk ∧
  t_exit_code tk' = t_exit_code tk.

Record keeps (s s' : sys M) : Prop := {
  ks_list : ∃ f : Z → bool, task_list s' = filter (λ t, f t = true) (task_list s);
  ks_current : current_task s' = current_task s;
  ks_ptrace : ptrace s' = ptrace s;
  ks_enabled : scheduler_enabled s' = scheduler_enabled s;
  ks_core t tk' : live s' t tk' → ∃ tk, live s t tk ∧ same_core tk tk';
  ks_ready t tk : live s t tk → t_state tk = TASK_STATE_READY →
    ∃ tk', live s' t tk' ∧ t_state tk' = TASK_STATE_READY;
  ks_zombie t tk : live s t tk → t_state tk = TASK_STATE_ZOMBIE → t_parent tk ≠ current_task s →
    ∃ tk', live s' t tk' ∧ corpse tk tk'
}.

(** Dead tasks leave the list; the other ones are the same, but for children. *)
Definition trimmed (tk tk' : task) : Prop :=
  set_children [] tk' = set_children [] tk ∧ (t_children tk = [] → t_children tk' = []).

Record prunes (s s' : sys M) : Prop := {
  pr_keeps : keeps s s';
  pr_live t tk' : live s' t tk' → ∃ tk, live s t tk ∧ trimmed tk tk'
}.

(** The current task is running. *)
Definition cur_running (s : sys M) : Prop :=
  ∃ c ck, current_task s = Some c ∧ live s c ck ∧ t_state ck = TASK_STATE_RUNNING.
End spec.

#[global] Arguments owned : simpl never.
#[global] Arguments res_of : simpl never.

(** ** Lemmas *)

Section lemmas.
Context {M : Type} `{TaskMemLaws M}.
Variable idle : Z.
Implicit Types s : sys M.

Abbreviation sched_ok := (sched_ok idle).
Abbreviation task_ok := (task_ok idle).
Abbreviation tree_ok := (tree_ok idle).

Lemma wp_get_task t tk (Q : task → sys M → Prop) s :
  tasks s !! t = Some tk → Q tk s → wp (get_task t) Q s.
Proof. intros Ht HQ. unfold wp, get_task, mbind, st_bind, st_get, st_run. by rewrite Ht. Qed.

Lemma wp_upd_task t tk f (Q : unit → sys M → Prop) s :
  tasks s !! t = Some tk → Q tt (put_tasks (<[t := f tk]> (tasks s)) s) → wp (upd_task t f) Q s.
Proof. intros Ht HQ. eapply wp_bind, wp_get_task; [done|]. by apply wp_modify. Qed.

Lemma wp_on_mem {A} (m : st M A) a k (Q : A → sys M → Prop) s :
  m (tmem s) = Done (a, k) → Q a (put_mem k s) → wp (on_mem m) Q s.
Proof. intros Hm HQ. unfold wp, on_mem. by rewrite Hm. Qed.

Lemma live_fun s t tk tk' : live s t tk → live s t tk' → tk = tk'.
Proof. intros [_ ?] [_ ?]. congruence. Qed.

Lemma so_live s R t : sched_ok s R → t ∈ task_list s → ∃ tk, live s t tk.
Proof. intros Hs Ht. destruct (so_dom _ _ _ Hs t Ht) as [tk ?]. by exists tk. Qed.

(** Lookup of live tasks after an update. *)
Lemma live_put s t tk' x xk : t ∈ task_list s →
  live (put_tasks (<[t := tk']> (tasks s)) s) x xk ↔ (x = t ∧ xk = tk') ∨ (x ≠ t ∧ live s x xk).
Proof.
  intros Ht. unfold live. cbn. destruct (decide (x = t)) as [->|].
  - rewrite lookup_insert_eq. naive_solver.
  - rewrite lookup_insert_ne by done. naive_solver.
Qed.

(** Two tasks with the same place in the tree and the same memory. *)
Definition same_place (tk tk' : task) : Prop :=
  t_parent tk' = t_parent tk ∧ t_children tk' = t_children tk ∧ t_sibling tk' = t_sibling tk ∧
  t_kstack tk' = t_kstack tk ∧ t_pml4 tk' = t_pml4 tk ∧ t_heap tk' = t_heap tk.

Lemma owned_put ts t tk tk' l : ts !! t = Some tk → res_of t tk' = res_of t tk →
  owned (<[t := tk']> ts) l = owned ts l.
Proof.
  intros Ht Hr. unfold owned. induction l as [|x l IH]; [done|]. cbn. rewrite IH. f_equal.
  destruct (decide (x = t)) as [->|]; [by rewrite lookup_insert_eq, Ht|by rewrite lookup_insert_ne].
Qed.

Lemma same_place_res t tk tk' : same_place tk tk' → res_of t tk' = res_of t tk.
Proof. intros (_ & _ & _ & Hk & Hp & Hh). unfold res_of. by rewrite Hk, Hp, Hh. Qed.

Lemma tree_put s t tk tk' : tree_ok s → live s t tk → same_place tk tk' →
  tree_ok (put_tasks (<[t := tk']> (tasks s)) s).
Proof.
  intros [Hn Hc Hp Hs Hi] Ht (Ep & Ec & Es & _). pose proof (proj1 Ht) as Hin.
  assert (∀ c p, (∃ ck, live (put_tasks (<[t := tk']> (tasks s)) s) c ck ∧ t_parent ck = Some p) ↔
                 (∃ ck, live s c ck ∧ t_parent ck = Some p)) as Hpar.
  { intros c p. setoid_rewrite live_put; [|done]. split.
    - intros (ck & [[-> ->]|[_ ?]] & ?); [exists tk; split; [done|congruence]|eauto].
    - intros (ck & Hck & Hcp). destruct (decide (c = t)) as [->|]; [|eauto].
      exists tk'. pose proof (live_fun _ _ _ _ Hck Ht). subst. split; [by left|congruence]. }
  split.
  - intros p pk [[-> ->]|[_ Hl]]%live_put; [rewrite Ec; eauto|eauto|done].
  - intros p pk c Hl. rewrite Hpar. apply live_put in Hl as [[-> ->]|[_ Hl]]; [rewrite Ec; by apply Hc|by apply Hc|done].
  - intros c ck p [[-> ->]|[_ Hl]]%live_put; [rewrite Ep; eauto|eauto|done].
  - intros c ck [[-> ->]|[_ Hl]]%live_put; [rewrite Es, Ep; by apply (Hs t)|by apply (Hs c)|done].
  - intros ik [[-> ->]|[_ Hl]]%live_put; [rewrite Ep; eauto|eauto|done].
Qed.

(** An update that leaves the place of the task in the tree and its memory. *)
Lemma sched_put s R t tk tk' : sched_ok s R → live s t tk → same_place tk tk' → task_ok s t tk' →
  sched_ok (put_tasks (<[t := tk']> (tasks s)) s) R.
Proof.
  intros Hs Ht Hp Hk. pose proof Hs as [Hn Hi Hc Hd Hts Htr Ho]. pose proof (proj1 Ht) as Hin. split; try done.
  - intros x Hx. cbn. destruct (decide (x = t)) as [->|]; [by rewrite lookup_insert_eq|].
    rewrite lookup_insert_ne by done. by apply Hd.
  - intros x xk [[-> ->]|[_ Hl]]%live_put; [|destruct (Hts x xk Hl)|done]; [destruct Hk|]; by split.
  - by eapply tree_put.
  - cbn. erewrite owned_put; [done|apply Ht|by apply same_place_res].
Qed.
(** ** What is kept *)

Lemma same_core_refl tk : same_core tk tk.
Proof. by repeat split. Qed.

Lemma filter_all (l : list Z) (f : Z → bool) : (∀ x, x ∈ l → f x = true) → filter (λ x, f x = true) l = l.
Proof.
  induction l as [|x l IH]; intros Hf; [done|]. rewrite filter_cons_True by (apply Hf; left).
  f_equal. apply IH. intros y ?. apply Hf. by right.
Qed.

Lemma keeps_refl s : keeps s s.
Proof.
  split; try done; [|eauto using same_core_refl|eauto|intros t tk ???; by exists tk].
  exists (λ _, true). by rewrite filter_all.
Qed.

Lemma keeps_trans s1 s2 s3 : keeps s1 s2 → keeps s2 s3 → keeps s1 s3.
Proof.
  intros [[f Hf] ? ? ? Hc Hr Hz] [[g Hg] ? ? ? Hc' Hr' Hz']. split; try congruence.
  - exists (λ t, g t && f t). rewrite Hg, Hf, list_filter_filter. apply list_filter_iff. intros t. rewrite andb_true_iff. tauto.
  - intros t tk (tk2 & Hl & E)%Hc'. destruct (Hc _ _ Hl) as (tk1 & Hl1 & E1). exists tk1. split; [done|].
    unfold same_core in *. intuition congruence.
  - intros t tk Hl Hst. destruct (Hr t tk Hl Hst) as (tk2 & ? & ?). eauto.
  - intros t tk Hl Hst Hp. destruct (Hz t tk Hl Hst Hp) as (tk2 & Hl2 & ? & ? & ? & ?).
    destruct (Hz' t tk2 Hl2) as (tk3 & ? & ? & ? & ? & ?); [done|congruence|]. exists tk3. split; [done|].
    split_and!; congruence.
Qed.

Lemma keeps_put s t tk tk' : live s t tk → same_core tk tk' →
  (t_state tk = TASK_STATE_READY → t_state tk' = TASK_STATE_READY) → t_state tk ≠ TASK_STATE_ZOMBIE →
  keeps s (put_tasks (<[t := tk']> (tasks s)) s).
Proof.
  intros Ht Hc Hr Hz. pose proof (proj1 Ht) as Hin. split; try done.
  - exists (λ _, true). by rewrite filter_all.
  - intros x xk [[-> ->]|[_ Hl]]%live_put; eauto using same_core_refl.
  - intros x xk Hl Hx. destruct (decide (x = t)) as [->|].
    + pose proof (live_fun _ _ _ _ Hl Ht). subst. exists tk'. split; [apply live_put; auto|auto].
    + exists xk. split; [apply live_put; auto|done].
  - intros x xk Hl Hx _. destruct (decide (x = t)) as [->|].
    + by rewrite (live_fun _ _ _ _ Hl Ht) in Hx.
    + exists xk. split; [apply live_put; auto|done].
Qed.

Lemma keeps_in s s' t : keeps s s' → t ∈ task_list s' → t ∈ task_list s.
Proof. intros [[f Hf] _ _ _ _ _ _]. rewrite Hf, list_elem_of_filter. tauto. Qed.

(** An operation after one that keeps the state. *)
Lemma wp_keeps {A} (m : st (sys M) A) R s s1 : keeps s s1 →
  wp m (λ _ s', sched_ok s' R ∧ keeps s1 s') s1 → wp m (λ _ s', sched_ok s' R ∧ keeps s s') s1.
Proof. intros Hk Hm. eapply wp_mono; [done|]. cbn. intros _ s' [? ?]. split; [done|]. by eapply keeps_trans. Qed.

(** ** Waking *)

Lemma task_ok_state s t tk x k : task_ok s t tk → x ≠ TASK_STATE_RUNNING → ¬ dead (set_state x (set_wait k tk)) →
  task_ok s t (set_state x (set_wait k tk)).
Proof.
  intros [Hr Ht Hd _ _] Hx Hn. split; cbn; try done.
  - intros ->. destruct Hn. by left.
  - intros ->. destruct Hn. by right.
Qed.

Lemma wake_ok s R t tk : sched_ok s R → live s t tk → t_state tk = TASK_STATE_WAITING →
  let s' := put_tasks (<[t := set_state TASK_STATE_READY (set_wait WAIT_NONE tk)]> (tasks s)) s in
  sched_ok s' R ∧ keeps s s' ∧ task_list s' = task_list s ∧ (cur_running s → cur_running s').
Proof.
  intros Hs Ht Hw. split_and!; [| |done|].
  3:{ intros (c & ck & Hc & Hck & Hst). exists c, ck. split_and!; [done| |done]. apply live_put; [apply Ht|]. right.
      split; [|done]. intros ->. by rewrite (live_fun _ _ _ _ Hck Ht), Hw in Hst. }
  - eapply sched_put; [done..|by repeat split|]. apply task_ok_state; [by eapply so_task|done|].
    by intros [|].
  - eapply keeps_put; [done|by repeat split|done|congruence].
Qed.

Lemma task_wake_ok s R t : sched_ok s R → t ∈ task_list s →
  wp (task_wake (Some t)) (λ _ s', sched_ok s' R ∧ keeps s s' ∧ task_list s' = task_list s ∧
    (cur_running s → cur_running s')) s.
Proof.
  intros Hs Hin. destruct (so_live _ _ _ Hs Hin) as [tk Ht].
  eapply wp_bind, wp_get_task; [apply Ht|]. unfold in_state. case_bool_decide as Hw; cbn.
  - eapply wp_upd_task; [apply Ht|]. by apply wake_ok.
  - split; [done|]. split; [apply keeps_refl|done].
Qed.

Lemma wake_loop_ok k R l : ∀ n s, sched_ok s R → l ⊆ task_list s →
  wp (wake_loop k l n) (λ _ s', sched_ok s' R ∧ keeps s s' ∧ (cur_running s → cur_running s')) s.
Proof.
  induction l as [|t l IH]; intros n s Hs Hl; [split; [done|]; split; [apply keeps_refl|done]|]. cbn [wake_loop].
  destruct (so_live s R t Hs) as [tk Ht]; [set_solver|].
  eapply wp_bind, wp_get_task; [apply Ht|]. case_if; [|apply IH; [done|set_solver]].
  eapply wp_bind, wp_mono; [apply task_wake_ok; [done|set_solver]|]. cbn. intros _ s1 (Hs1 & Hk & El & Hr).
  eapply wp_mono; [apply (IH _ s1 Hs1); rewrite El; set_solver|]. cbn. intros _ s2 (? & ? & ?).
  split; [done|]. split; [by eapply keeps_trans|auto].
Qed.

Lemma tick_loop_ok R l : ∀ s, sched_ok s R → l ⊆ task_list s →
  wp (tick_loop l) (λ _ s', sched_ok s' R ∧ keeps s s') s.
Proof.
  induction l as [|t l IH]; intros s Hs Hl; [split; [done|apply keeps_refl]|]. cbn [tick_loop].
  destruct (so_live s R t Hs) as [tk Ht]; [set_solver|].
  eapply wp_bind, wp_get_task; [apply Ht|]. eapply wp_bind, wp_get. apply wp_bind. case_if.
  - eapply wp_upd_task; [apply Ht|]. unfold in_state in *. breflect.
    destruct (wake_ok s R t tk) as (Hs1 & Hk & El & _); [done..|].
    eapply wp_keeps; [done|]. apply IH; [done|]. rewrite El. set_solver.
  - apply wp_ret, IH; [done|set_solver].
Qed.
(** ** Moving in the tree *)

Definition has_parent s (c p : Z) : Prop := ∃ ck, live s c ck ∧ t_parent ck = Some p.

Lemma has_parent_live s c ck p : live s c ck → has_parent s c p ↔ t_parent ck = Some p.
Proof.
  intros Hc. split; [|by exists ck]. intros (ck2 & Hc2 & E). by rewrite (live_fun _ _ _ _ Hc Hc2).
Qed.

Lemma has_parent_put s t tk tk' c p : live s t tk →
  has_parent (put_tasks (<[t := tk']> (tasks s)) s) c p ↔
  (c = t ∧ t_parent tk' = Some p) ∨ (c ≠ t ∧ has_parent s c p).
Proof.
  intros Ht. unfold has_parent. setoid_rewrite live_put; [|apply Ht]. naive_solver.
Qed.

Lemma elem_unlink x c (l : list Z) : x ∈ unlink c l ↔ x ≠ c ∧ x ∈ l.
Proof. unfold unlink. by rewrite list_elem_of_filter. Qed.

Lemma unlink_not_in c (l : list Z) : c ∉ l → unlink c l = l.
Proof.
  unfold unlink. induction l as [|x l IH]; intros Hc; [done|]. apply not_elem_of_cons in Hc as [? ?].
  rewrite filter_cons_True by done. f_equal. by apply IH.
Qed.

Lemma unlink_head c (l : list Z) : NoDup (c :: l) → unlink c (c :: l) = l.
Proof.
  intros [Hc _]%NoDup_cons. unfold unlink. rewrite filter_cons_False by naive_solver. by apply unlink_not_in.
Qed.

Section surgery.
Variables (s : sys M) (c : Z) (ck : task) (p : Z) (pk : task).
Hypotheses (Htree : tree_ok s) (Hc : live s c ck) (Hp : live s p pk) (Hne : p ≠ c).

(** The states in which the children of [p] are [l], and [c] is [ck']. *)
Let s1 (l : list Z) : sys M := put_tasks (<[p := set_children l pk]> (tasks s)) s.
Let s2 (l : list Z) (ck' : task) : sys M := put_tasks (<[c := ck']> (tasks (s1 l))) (s1 l).

Lemma live_s2 l ck' x xk : live (s2 l ck') x xk ↔
  (x = c ∧ xk = ck') ∨ (x = p ∧ xk = set_children l pk) ∨ (x ≠ c ∧ x ≠ p ∧ live s x xk).
Proof.
  unfold s2. rewrite live_put by apply Hc. unfold s1. rewrite live_put by apply Hp. naive_solver.
Qed.

Lemma has_parent_s2 l ck' x q : has_parent (s2 l ck') x q ↔
  (x = c ∧ t_parent ck' = Some q) ∨ (x ≠ c ∧ has_parent s x q).
Proof.
  assert (live (s1 l) c ck) as Hc1 by (apply live_put; [apply Hp|auto]).
  unfold s2. rewrite (has_parent_put (s1 l) c ck ck' x q Hc1). unfold s1. rewrite (has_parent_put s p pk) by done.
  cbn [set_children t_parent].
  destruct (decide (x = p)) as [->|]; [rewrite (has_parent_live s p pk q Hp)|]; tauto.
Qed.

(** [c] leaves its parent [p]. *)
Lemma tree_detach ck' : t_parent ck = Some p → t_parent ck' = None → t_children ck' = t_children ck →
  (∀ q, t_sibling ck' ≠ SIn q) → tree_ok (s2 (unlink c (t_children pk)) ck').
Proof.
  intros Ep Ep' Ec Es. destruct Htree as [Hn Hch Hpar Hsib Hi]. split.
  - intros x xk [[-> ->]|[[-> ->]|(? & ? & ?)]]%live_s2; cbn; [rewrite Ec; eauto|apply NoDup_filter; eauto|eauto].
  - intros x xk y Hl. fold (has_parent (s2 (unlink c (t_children pk)) ck') y x). rewrite has_parent_s2, Ep'.
    assert (∀ xk0, live s x xk0 → x ≠ p → y ∈ t_children xk0 ↔ (y = c ∧ None = Some x) ∨ (y ≠ c ∧ has_parent s y x)) as Hx.
    { intros xk0 Hx0 Hxp. rewrite (Hch x xk0 y Hx0). fold (has_parent s y x).
      destruct (decide (y = c)) as [->|]; [|naive_solver]. rewrite (has_parent_live s c ck x Hc), Ep. naive_solver. }
    apply live_s2 in Hl as [[-> ->]|[[-> ->]|(? & ? & ?)]]; cbn.
    + rewrite Ec. by apply Hx.
    + rewrite elem_unlink, (Hch p pk y Hp). unfold has_parent. naive_solver.
    + by apply Hx.
  - intros x xk q [[-> ->]|[[-> ->]|(? & ? & ?)]]%live_s2; cbn; [congruence|by apply Hpar|by apply Hpar].
  - intros x xk [[-> ->]|[[-> ->]|(? & ? & ?)]]%live_s2; cbn; [|by apply (Hsib p)|by apply (Hsib x)].
    destruct (t_sibling ck') as [| |q] eqn:E; [done..|by destruct (Es q)].
  - intros ik [[E ->]|[[-> ->]|(? & ? & ?)]]%live_s2; cbn; [done|by apply Hi|by apply Hi].
Qed.

(** [c] becomes a child of [p]. *)
Lemma tree_attach ck' : t_parent ck = None → c ≠ idle → t_parent ck' = Some p → t_children ck' = t_children ck →
  t_sibling ck' = SIn p → tree_ok (s2 (t_children pk ++ [c]) ck').
Proof.
  intros Ep Hci Ep' Ec Es. destruct Htree as [Hn Hch Hpar Hsib Hi].
  assert (∀ q, ¬ has_parent s c q) as Hno by (intros q; rewrite (has_parent_live s c ck q Hc), Ep; done).
  split.
  - intros x xk [[-> ->]|[[-> ->]|(? & ? & ?)]]%live_s2; cbn; [rewrite Ec; eauto| |eauto].
    apply NoDup_app. split_and!; [eauto| |apply NoDup_singleton].
    intros y Hy ->%list_elem_of_singleton. apply (Hch p pk c Hp) in Hy. by destruct (Hno p).
  - intros x xk y Hl. fold (has_parent (s2 (t_children pk ++ [c]) ck') y x). rewrite has_parent_s2, Ep'.
    assert (∀ xk0, live s x xk0 → x ≠ p → y ∈ t_children xk0 ↔ (y = c ∧ Some p = Some x) ∨ (y ≠ c ∧ has_parent s y x)) as Hx.
    { intros xk0 Hx0 Hxp. rewrite (Hch x xk0 y Hx0). fold (has_parent s y x).
      destruct (decide (y = c)) as [->|]; naive_solver. }
    apply live_s2 in Hl as [[-> ->]|[[-> ->]|(? & ? & ?)]]; cbn.
    + rewrite Ec. by apply Hx.
    + rewrite elem_of_app, list_elem_of_singleton, (Hch p pk y Hp). fold (has_parent s y p).
      destruct (decide (y = c)) as [->|]; naive_solver.
    + by apply Hx.
  - intros x xk q [[-> ->]|[[-> ->]|(? & ? & ?)]]%live_s2; cbn; [|by apply Hpar|by apply Hpar].
    rewrite Ep'. intros [= <-]. split; [done|]. apply Hp.
  - intros x xk [[-> ->]|[[-> ->]|(? & ? & ?)]]%live_s2; cbn; [by rewrite Es|by apply (Hsib p)|by apply (Hsib x)].
  - intros ik [[E ->]|[[-> ->]|(? & ? & ?)]]%live_s2; cbn; [done|by apply Hi|by apply Hi].
Qed.
End surgery.

(** ** The end of a task *)

Lemma owned_ext ts ts' l : (∀ t, t ∈ l → ∃ tk tk', ts !! t = Some tk ∧ ts' !! t = Some tk' ∧ res_of t tk' = res_of t tk) →
  owned ts' l = owned ts l.
Proof.
  unfold owned. induction l as [|t l IH]; intros Hl; [done|]. cbn.
  destruct (Hl t) as (tk & tk' & -> & -> & ->); [left|]. f_equal. apply IH. intros x ?. apply Hl. by right.
Qed.

Lemma sched_rebuild s s' R : sched_ok s R → task_list s' = task_list s → current_task s' = current_task s →
  tmem s' = tmem s → (∀ t tk, live s t tk → ∃ tk', live s' t tk' ∧ res_of t tk' = res_of t tk) →
  tree_ok s' → (∀ t tk', live s' t tk' → task_ok s t tk') → sched_ok s' R.
Proof.
  intros Hs El Ec Em Hl Htree Hok. pose proof Hs as [Hn Hi Hc Hd _ _ Ho]. split; rewrite ?El, ?Ec, ?Em; try done.
  - intros t Ht. destruct (so_live _ _ _ Hs Ht) as [tk (tk' & [_ ?] & _)%Hl]. by exists tk'.
  - intros t tk' Ht. destruct (Hok t tk' Ht). by split; rewrite ?Ec.
  - erewrite owned_ext; [done|]. intros t Ht. destruct (so_live _ _ _ Hs Ht) as [tk Htk].
    destruct (Hl t tk Htk) as (tk' & [_ ?] & ?). exists tk, tk'. by split; [apply Htk|].
Qed.

(** The state in which the child [c] of [me] has gone to [idle]. *)
Definition moved s (c me : Z) (ck mk ik : task) : sys M :=
  put_tasks
    (<[c := set_parent (Some idle) (set_sibling (SIn idle)
              (if in_state TASK_STATE_ZOMBIE ck then set_state TASK_STATE_TERMINATED ck else ck))]>
    (<[idle := set_children (t_children ik ++ [c]) ik]>
    (<[c := set_parent None (set_sibling SNull ck)]>
    (<[me := set_children (unlink c (t_children mk)) mk]> (tasks s))))) s.

Lemma live_moved s c me ck mk ik x xk : live s c ck → live s me mk → live s idle ik → c ≠ me → c ≠ idle → me ≠ idle →
  live (moved s c me ck mk ik) x xk ↔
    (x = c ∧ xk = set_parent (Some idle) (set_sibling (SIn idle)
              (if in_state TASK_STATE_ZOMBIE ck then set_state TASK_STATE_TERMINATED ck else ck))) ∨
    (x = idle ∧ xk = set_children (t_children ik ++ [c]) ik) ∨
    (x = me ∧ xk = set_children (unlink c (t_children mk)) mk) ∨
    (x ≠ c ∧ x ≠ idle ∧ x ≠ me ∧ live s x xk).
Proof.
  intros [Hc _] [Hm _] [Hi _] ???. unfold moved, live. cbn.
  destruct (decide (x = c)) as [->|]; [rewrite lookup_insert_eq; naive_solver|].
  rewrite lookup_insert_ne by done.
  destruct (decide (x = idle)) as [->|]; [rewrite lookup_insert_eq; naive_solver|].
  rewrite !lookup_insert_ne by done.
  destruct (decide (x = me)) as [->|]; [rewrite lookup_insert_eq; naive_solver|].
  rewrite lookup_insert_ne by done. naive_solver.
Qed.

Lemma moved_ok s R c me ck mk ik : sched_ok s R → live s c ck → live s me mk → live s idle ik →
  me ≠ idle → current_task s = Some me → c ∈ t_children mk →
  sched_ok (moved s c me ck mk ik) R ∧ keeps s (moved s c me ck mk ik).
Proof.
  intros Hs Hc Hm Hi Hmi Hcur Hin. pose proof (so_tree _ _ _ Hs) as Htree.
  assert (t_parent ck = Some me) as Ep.
  { apply (to_children _ _ Htree me mk c Hm) in Hin. by apply (has_parent_live s c ck me Hc) in Hin. }
  destruct (to_parent _ _ Htree c ck me Hc Ep) as [Hcm _].
  assert (c ≠ idle) as Hci. { intros ->. rewrite (to_idle _ _ Htree ck Hc) in Ep. done. }
  assert (∀ x xk, live (moved s c me ck mk ik) x xk → ∃ xk0, live s x xk0 ∧ same_core xk0 xk ∧
    res_of x xk = res_of x xk0 ∧ (t_state xk0 = TASK_STATE_READY ↔ t_state xk = TASK_STATE_READY) ∧ task_ok s x xk) as Hall.
  { intros x xk Hx. apply live_moved in Hx; [|done..].
    destruct Hx as [[-> ->]|[[-> ->]|[[-> ->]|(_ & _ & _ & Hx)]]].
    - exists ck. pose proof (so_task _ _ _ Hs c ck Hc) as [Hr Ht Hd _ _]. unfold in_state. case_bool_decide as Ez.
      + split_and!; [done|by repeat split|done|cbn; rewrite Ez; done|]. split; cbn; try done; [|by right].
        intros _. split; [done|]. apply Hd. by right.
      + split_and!; [done|by repeat split|done|done|]. split; cbn; try done. by right.
    - exists ik. pose proof (so_task _ _ _ Hs idle ik Hi) as [Hr Ht Hd Hte Hz]. split_and!; try done. split; cbn; try done.
      intros Hdead. by destruct (Hd Hdead).
    - exists mk. pose proof (so_task _ _ _ Hs me mk Hm) as [Hr Ht Hd Hte Hz]. split_and!; try done. split; cbn; try done.
      intros Hdead. destruct (Hd Hdead) as [_ E]. by rewrite E in Hin; inversion Hin.
    - exists xk. split_and!; try done. by eapply so_task. }
  assert (∀ x xk, live s x xk → ∃ xk', live (moved s c me ck mk ik) x xk') as Hback.
  { intros x xk Hx. setoid_rewrite live_moved; [|done..].
    destruct (decide (x = c)); [eauto 10|]. destruct (decide (x = idle)); [eauto 10|].
    destruct (decide (x = me)); [eauto 10|]. exists xk. auto 10. }
  split.
  - eapply sched_rebuild; try done.
    + intros x xk Hx. destruct (Hback x xk Hx) as [xk' Hx']. exists xk'. split; [done|].
      destruct (Hall x xk' Hx') as (xk0 & Hx0 & _ & E & _). by rewrite (live_fun _ _ _ _ Hx Hx0).
    + set (s0 := put_tasks (<[me := set_children (unlink c (t_children mk)) mk]> (tasks s)) s).
      set (s1 := put_tasks (<[c := set_parent None (set_sibling SNull ck)]> (tasks s0)) s0).
      assert (tree_ok s1) as Ht1 by (eapply tree_detach; eauto; done).
      apply (tree_attach s1 c (set_parent None (set_sibling SNull ck)) idle ik Ht1); try done.
      * unfold s1, s0. eapply live_s2; [done..|by left].
      * unfold s1, s0. eapply live_s2; [done..|auto 10].
      * by case_match.
    + intros x xk Hx. by destruct (Hall x xk Hx) as (? & _ & _ & _ & _ & ?).
  - split; try done.
    + exists (λ _, true). by rewrite filter_all.
    + intros x xk Hx. destruct (Hall x xk Hx) as (xk0 & ? & ? & _). eauto.
    + intros x xk Hx Hst. destruct (Hback x xk Hx) as [xk' Hx']. exists xk'. split; [done|].
      destruct (Hall x xk' Hx') as (xk0 & Hx0 & _ & _ & E & _). apply E. by rewrite (live_fun _ _ _ _ Hx0 Hx).
    + intros x xk Hx Hst Hp. setoid_rewrite live_moved; [|done..].
      destruct (decide (x = c)) as [->|]; [rewrite (live_fun _ _ _ _ Hx Hc) in Hp; congruence|].
      destruct (decide (x = idle)) as [->|].
      { pose proof (live_fun _ _ _ _ Hx Hi) as ->. exists (set_children (t_children ik ++ [c]) ik). split; [by right; left|done]. }
      destruct (decide (x = me)) as [->|]; [|exists xk; split; [auto 10|done]].
      pose proof (live_fun _ _ _ _ Hx Hm) as ->. exists (set_children (unlink c (t_children mk)) mk).
      split; [by right; right; left|done].
Qed.

Lemma sibling_del_wp s c ck p pk (Q : unit → sys M → Prop) :
  tasks s !! c = Some ck → t_sibling ck = SIn p → tasks s !! p = Some pk → p ≠ c →
  Q tt (put_tasks (<[c := set_sibling SNull ck]> (<[p := set_children (unlink c (t_children pk)) pk]> (tasks s))) s) →
  wp (sibling_del c) Q s.
Proof.
  intros Hc Es Hp Hne HQ. eapply wp_bind, wp_get_task; [done|]. rewrite Es.
  eapply wp_bind, wp_upd_task; [done|]. eapply wp_upd_task; [cbn; by rewrite lookup_insert_ne|done].
Qed.

Lemma reparent_one_wp s c me ck mk ik (Q : unit → sys M → Prop) :
  live s c ck → live s me mk → live s idle ik → c ≠ me → c ≠ idle → me ≠ idle → t_sibling ck = SIn me →
  Q tt (moved s c me ck mk ik) → wp (reparent_one idle c) Q s.
Proof.
  intros [_ Hc] [_ Hm] [_ Hi] Hcm Hci Hmi Es HQ. unfold reparent_one. eapply wp_bind, wp_get_task; [done|].
  set (ck1 := if in_state TASK_STATE_ZOMBIE ck then set_state TASK_STATE_TERMINATED ck else ck).
  assert (t_sibling ck1 = SIn me) as Es1 by (subst ck1; by case_match).
  assert (∀ K, K tt (put_tasks (<[c := ck1]> (tasks s)) s) →
    wp (if in_state TASK_STATE_ZOMBIE ck then upd_task c (set_state TASK_STATE_TERMINATED) else mret tt) K s) as Hwp.
  { intros K HK. subst ck1. case_match; [by eapply wp_upd_task|]. apply wp_ret. rewrite insert_id in HK by done.
    by destruct s. }
  eapply wp_bind, Hwp. eapply wp_bind, sibling_del_wp.
  { cbn. by rewrite lookup_insert_eq. } { done. } { cbn. by rewrite lookup_insert_ne. } { done. }
  unfold sibling_add. apply wp_bind. eapply wp_bind, wp_upd_task.
  { cbn. by rewrite !lookup_insert_ne. }
  eapply wp_upd_task. { cbn. by rewrite lookup_insert_ne, lookup_insert_eq. }
  eapply wp_upd_task. { cbn. by rewrite lookup_insert_eq. }
  match goal with |- Q tt ?s' => replace s' with (moved s c me ck mk ik); [done|] end.
  unfold moved, put_tasks. cbn. f_equal. fold ck1. apply map_eq. intros x.
  destruct (decide (x = c)) as [->|]; [by rewrite !lookup_insert_eq|].
  destruct (decide (x = idle)) as [->|].
  - rewrite (lookup_insert_ne _ c idle), lookup_insert_eq by done.
    by rewrite (lookup_insert_ne _ c idle), (lookup_insert_ne _ c idle), lookup_insert_eq by done.
  - rewrite !(lookup_insert_ne _ c x), !(lookup_insert_ne _ idle x) by done.
    rewrite !(lookup_insert_ne _ c x) by done. destruct (decide (x = me)) as [->|].
    + by rewrite !lookup_insert_eq.
    + by rewrite !(lookup_insert_ne _ me x), (lookup_insert_ne _ c x) by done.
Qed.

Lemma reparent_ok R me l : ∀ s mk, sched_ok s R → live s me mk → me ≠ idle → current_task s = Some me →
  t_children mk = l →
  wp (reparent idle l) (λ _ s', sched_ok s' R ∧ keeps s s' ∧ live s' me (set_children [] mk)) s.
Proof.
  induction l as [|c l IH]; intros s mk Hs Hm Hmi Hcur El.
  { split; [done|]. split; [apply keeps_refl|]. rewrite <- El. by destruct mk. }
  assert (c ∈ t_children mk) as Hin by (rewrite El; left).
  pose proof (so_tree _ _ _ Hs) as Htree. pose proof Hin as (ck & Hc & Ep)%(to_children _ _ Htree me mk c Hm).
  destruct (so_live s R idle Hs (so_idle _ _ _ Hs)) as [ik Hi].
  destruct (to_parent _ _ Htree c ck me Hc Ep) as [Hcm _].
  assert (c ≠ idle) as Hci. { intros ->. rewrite (to_idle _ _ Htree ck Hc) in Ep. done. }
  assert (t_sibling ck = SIn me) as Es.
  { pose proof (to_sibling _ _ Htree c ck Hc) as E. rewrite Ep in E. destruct (t_sibling ck); congruence. }
  destruct (moved_ok s R c me ck mk ik) as [Hs1 Hk]; [done..|].
  cbn [reparent]. eapply wp_bind, reparent_one_wp; [exact Hc|exact Hm|exact Hi|done|done|done|done|]. eapply wp_mono.
  - apply (IH _ (set_children l mk) Hs1); [|done|done|done]. apply live_moved; [done..|]. right; right; left.
    split; [done|]. f_equal. rewrite El, unlink_head; [done|]. rewrite <- El. by apply (to_nodup _ _ Htree me mk).
  - intros _ s' (? & ? & ?). split; [done|]. split; [by eapply keeps_trans|done].
Qed.

Lemma task_ok_dead s t tk x : task_ok s t tk → t ≠ idle → t_children tk = [] →
  (x = TASK_STATE_TERMINATED ∧ (t_parent tk = None ∨ t_parent tk = Some idle) ∨
   x = TASK_STATE_ZOMBIE ∧ ∃ p, t_parent tk = Some p ∧ p ≠ idle) →
  task_ok s t (set_state x tk).
Proof.
  intros [_ Ht _ _ _] Hi Hc Hx. split; cbn; try done; destruct Hx as [[-> ?]|[-> ?]]; done.
Qed.

(** The state of a task that runs is set to a dead one. *)
Lemma dead_ok s R t tk x : sched_ok s R → live s t tk → t ≠ idle → t_children tk = [] →
  t_state tk = TASK_STATE_RUNNING →
  (x = TASK_STATE_TERMINATED ∧ (t_parent tk = None ∨ t_parent tk = Some idle) ∨
   x = TASK_STATE_ZOMBIE ∧ ∃ p, t_parent tk = Some p ∧ p ≠ idle) →
  let s' := put_tasks (<[t := set_state x tk]> (tasks s)) s in
  sched_ok s' R ∧ keeps s s' ∧ live s' t (set_state x tk).
Proof.
  intros Hs Ht Hi Hc Hr Hx. split_and!.
  - eapply sched_put; [done..|]. apply task_ok_dead; try done. by eapply so_task.
  - eapply keeps_put; [done|by repeat split|by rewrite Hr..].
  - apply live_put; [apply Ht|by left].
Qed.

Lemma die_ok R me s mk : sched_ok s R → live s me mk → me ≠ idle → current_task s = Some me → t_state mk = TASK_STATE_RUNNING →
  wp (die idle me) (λ _ s', sched_ok s' R ∧ keeps s s' ∧
    live s' me (set_state (if decide (t_parent mk = None ∨ t_parent mk = Some idle) then TASK_STATE_TERMINATED
                           else TASK_STATE_ZOMBIE) (set_children [] mk))) s.
Proof.
  intros Hs Hm Hmi Hcur Hst. unfold die. eapply wp_bind, wp_get_task; [apply Hm|].
  eapply wp_bind, wp_mono; [by apply reparent_ok|]. cbn. intros _ s1 (Hs1 & Hk1 & Hm1).
  eapply wp_bind, wp_get_task; [apply Hm1|]. cbn [set_children t_parent].
  assert (∀ x, (x = TASK_STATE_TERMINATED ∧ (t_parent mk = None ∨ t_parent mk = Some idle) ∨
    x = TASK_STATE_ZOMBIE ∧ ∃ p, t_parent mk = Some p ∧ p ≠ idle) →
    let s' := put_tasks (<[me := set_state x (set_children [] mk)]> (tasks s1)) s1 in
    sched_ok s' R ∧ keeps s s' ∧ live s' me (set_state x (set_children [] mk))) as Hdead.
  { intros x Hx. destruct (dead_ok s1 R me (set_children [] mk) x) as (? & ? & ?); try done.
    split_and!; [done|by eapply keeps_trans|done]. }
  assert (t_parent mk = None ∨ t_parent mk = Some idle → wp (upd_task me (set_state TASK_STATE_TERMINATED))
    (λ _ s', sched_ok s' R ∧ keeps s s' ∧
      live s' me (set_state (if decide (t_parent mk = None ∨ t_parent mk = Some idle) then TASK_STATE_TERMINATED
                             else TASK_STATE_ZOMBIE) (set_children [] mk))) s1) as Hterm.
  { intros Hp. eapply wp_upd_task; [apply Hm1|]. destruct (Hdead TASK_STATE_TERMINATED) as (? & ? & ?); [auto|].
    by rewrite decide_True. }
  destruct (decide (t_parent mk = None ∨ t_parent mk = Some idle)) as [|Hreal]; [destruct (t_parent mk) as [p|]; [|by auto]|].
  { case_if; [by auto|]. by destruct o as [|[= ->]]. }
  destruct (t_parent mk) as [p|] eqn:Ep; [|tauto]. case_if; [subst; tauto|].
  eapply wp_bind, wp_upd_task; [apply Hm1|].
  destruct (Hdead TASK_STATE_ZOMBIE) as (Hs2 & Hk2 & Hm2); [eauto|]. revert Hs2 Hk2 Hm2.
  set (s2 := put_tasks _ s1). intros Hs2 Hk2 Hm2.
  destruct (to_parent _ _ (so_tree _ _ _ Hs2) me _ p Hm2 Ep) as [Hpm Hpin].
  destruct (so_live _ _ _ Hs2 Hpin) as [pk Hp].
  eapply wp_bind, wp_get_task; [apply Hp|]. case_if.
  - unfold in_state in *. breflect. eapply wp_bind, wp_get_task; [apply Hp|]. unfold in_state.
    rewrite bool_decide_eq_true_2 by done. cbn. eapply wp_upd_task; [apply Hp|].
    destruct (wake_ok s2 R p pk) as (? & ? & _ & _); [done..|]. split_and!; [done|by eapply keeps_trans|].
    apply live_put; [done|]. right. split; [done|exact Hm2].
  - by split_and!.
Qed.

(** ** The reaper *)

Lemma put_mem_id s : put_mem (tmem s) s = s.
Proof. by destruct s. Qed.

(** The memory of a task is given back. *)
Lemma release_task_ok s R t tk : tm_own (tmem s) (res_of t tk ++ R) →
  wp (release_task t tk) (λ _ s', ∃ m ts, s' = put_mem m (put_tasks ts s) ∧ tm_own m R ∧
    ∀ x, x ≠ t → ts !! x = tasks s !! x) s.
Proof.
  intros Ho. unfold release_task, res_of in *. rewrite <- !app_assoc in Ho. apply wp_bind.
  assert (∃ m1, tm_own m1 ((if t_pml4 tk =? 0 then [] else [RTree (t_pml4 tk)]) ++
      (if t_heap tk then [RStruct t] else []) ++ R) ∧ ∀ (Q : unit → sys M → Prop), Q tt (put_mem m1 s) →
      wp (if t_kstack tk =? 0 then mret () else
        on_mem (tm_buddy_free (u64 (t_kstack tk - KSTACK_PAGES * PAGE_SIZE)) KSTACK_ORDER)) Q s) as (m1 & Ho1 & Hw1).
  { destruct (t_kstack tk =? 0); [exists (tmem s); rewrite put_mem_id; by split; [|intros]|].
    apply tm_free_stack_ok in Ho as (m1 & Hm1 & ?). exists m1. split; [done|]. intros Q ?. by eapply wp_on_mem. }
  apply Hw1, wp_bind. clear Ho Hw1.
  assert (∃ m2, tm_own m2 ((if t_heap tk then [RStruct t] else []) ++ R) ∧
    ∀ (Q : unit → sys M → Prop), Q tt (put_mem m2 s) →
      wp (if t_pml4 tk =? 0 then mret () else on_mem (tm_free_tree (t_pml4 tk))) Q (put_mem m1 s)) as (m2 & Ho2 & Hw2).
  { destruct (t_pml4 tk =? 0); [exists m1; by split; [|intros]|].
    apply tm_free_tree_ok in Ho1 as (m2 & Hm2 & ?). exists m2. split; [done|]. intros Q ?.
    eapply (wp_on_mem _ tt m2); [exact Hm2|done]. }
  apply Hw2. clear Ho1 Hw2. destruct (t_heap tk).
  - apply tm_kfree_ok in Ho2 as (m3 & Hm3 & ?). eapply wp_bind, (wp_on_mem _ tt m3); [exact Hm3|]. apply wp_modify.
    exists m3, (delete t (tasks s)). split_and!; [done..|]. intros x ?. by rewrite lookup_delete_ne.
  - exists m2, (tasks s). split_and!; [|done..]. by destruct s.
Qed.

Lemma owned_unlink ts t tk l : NoDup l → t ∈ l → ts !! t = Some tk →
  owned ts l ≡ₚ res_of t tk ++ owned ts (unlink t l).
Proof.
  intros Hn (l1 & l2 & ->)%list_elem_of_split Ht.
  apply NoDup_app_cons_not_in in Hn as (H1 & H2 & _). unfold unlink. rewrite filter_app.
  rewrite filter_cons_False by naive_solver. fold (unlink t l1) (unlink t l2).
  rewrite !unlink_not_in by done. unfold owned. rewrite !bind_app, bind_cons, Ht. solve_Permutation.
Qed.

(** A task without parent and children leaves the list. *)
Lemma tree_leave s t tk : tree_ok s → live s t tk → t_parent tk = None → t_children tk = [] →
  tree_ok (put_list (unlink t (task_list s)) s).
Proof.
  intros [Hn Hch Hpar Hsib Hi] Ht Ep Ec.
  assert (∀ x xk, live (put_list (unlink t (task_list s)) s) x xk ↔ x ≠ t ∧ live s x xk) as Hl.
  { intros x xk. unfold live. cbn. rewrite elem_unlink. tauto. }
  split.
  - intros p pk [_ ?]%Hl. eauto.
  - intros p pk c [Hp Hl']%Hl. rewrite (Hch p pk c Hl'). split.
    + intros (ck & Hc & E). exists ck. rewrite Hl. split; [|done]. split; [|done]. intros ->.
      rewrite (live_fun _ _ _ _ Hc Ht) in E. congruence.
    + intros (ck & [_ Hc]%Hl & E). eauto.
  - intros c ck p [Hct Hc]%Hl E. destruct (Hpar c ck p Hc E) as [? Hin]. split; [done|]. cbn. apply elem_unlink.
    split; [|done]. intros ->. assert (c ∈ t_children tk) as Hc' by (apply (Hch t tk c Ht); eauto).
    rewrite Ec in Hc'. inversion Hc'.
  - intros c ck [_ ?]%Hl. by apply (Hsib c).
  - intros ik [_ ?]%Hl. eauto.
Qed.

(** The tree is that of the tasks in the list. *)
Lemma tree_ext s s' : task_list s' = task_list s → (∀ x, x ∈ task_list s → tasks s' !! x = tasks s !! x) →
  tree_ok s → tree_ok s'.
Proof.
  intros El Et [Hn Hch Hpar Hsib Hi].
  assert (∀ x xk, live s' x xk ↔ live s x xk) as Hl.
  { intros x xk. unfold live. rewrite El. split; intros [? E]; (split; [done|]); [rewrite <- Et|rewrite Et]; done. }
  split; setoid_rewrite Hl; rewrite ?El; eauto.
Qed.

(** [t] is taken out of the tree, before its memory is released. *)
Lemma reap_tree s R t tk : sched_ok s R → live s t tk → t ≠ idle → t_state tk = TASK_STATE_TERMINATED →
  wp (if is_null (t_sibling tk) then mret tt else sibling_del t)
    (λ _ s', ∃ ts, s' = put_tasks ts (put_list (unlink t (task_list s)) s) ∧ tree_ok s' ∧ is_Some (ts !! t) ∧
       ∀ x, x ≠ t → ts !! x = tasks s !! x ∨
         x = idle ∧ ∃ ik, tasks s !! x = Some ik ∧ ts !! x = Some (set_children (unlink t (t_children ik)) ik))
    (put_list (unlink t (task_list s)) s).
Proof.
  intros Hs Ht Hti Hst. pose proof (so_tree _ _ _ Hs) as Htree.
  destruct (so_task _ _ _ Hs t tk Ht) as [_ _ Hd Hte _]. destruct (Hd (or_introl Hst)) as [_ Ec].
  pose proof (to_sibling _ _ Htree t tk Ht) as Hsib. destruct (t_sibling tk) as [| |p] eqn:Es; cbn.
  - exists (tasks s). split_and!; [done|by eapply tree_leave|by rewrite (proj2 Ht)|by left].
  - eapply wp_bind, wp_get_task; [apply Ht|]. rewrite Es. eapply wp_upd_task; [apply Ht|].
    eexists. split; [reflexivity|]. split_and!.
    + eapply tree_ext, (tree_leave s t tk); [done| |done..]. cbn. intros x [? _]%elem_unlink.
      by rewrite lookup_insert_ne.
    + cbn. by rewrite lookup_insert_eq.
    + left. cbn. by rewrite lookup_insert_ne.
  - destruct (Hte Hst) as [?|Ep]; [congruence|]. assert (p = idle) as -> by congruence.
    destruct (so_live s R idle Hs (so_idle _ _ _ Hs)) as [ik Hi].
    eapply sibling_del_wp; [apply Ht|done|apply Hi|done|]. eexists. split; [reflexivity|].
    set (s1 := put_tasks (<[idle := set_children (unlink t (t_children ik)) ik]> (tasks s)) s).
    set (s2 := put_tasks (<[t := set_parent None (set_sibling SNull tk)]> (tasks s1)) s1).
    assert (tree_ok s2) as Ht2 by (eapply (tree_detach s t tk idle ik); eauto; done).
    split_and!.
    + eapply tree_ext, (tree_leave s2 t (set_parent None (set_sibling SNull tk)) Ht2); [done| | |done..];
        [|unfold s2, s1; eapply live_s2; [done..|by left]].
      cbn. intros x [? _]%elem_unlink. by rewrite !(lookup_insert_ne _ t x).
    + cbn. by rewrite lookup_insert_eq.
    + cbn. intros x ?. rewrite lookup_insert_ne by done. destruct (decide (x = idle)) as [->|].
      * rewrite lookup_insert_eq. right. split; [done|]. exists ik. split; [apply Hi|done].
      * rewrite lookup_insert_ne by done. by left.
Qed.

Lemma prunes_refl s : prunes s s.
Proof. split; [apply keeps_refl|]. intros t tk' ?. exists tk'. by split_and!. Qed.

Lemma prunes_trans s1 s2 s3 : prunes s1 s2 → prunes s2 s3 → prunes s1 s3.
Proof.
  intros [? H1] [? H2]. split; [by eapply keeps_trans|].
  intros t tk3 (tk2 & Hl2 & E2 & ?)%H2. destruct (H1 t tk2 Hl2) as (tk1 & ? & E1 & ?).
  exists tk1. split; [done|]. split; [congruence|auto].
Qed.

Lemma trimmed_core tk tk' : trimmed tk tk' → same_core tk tk' ∧ t_state tk' = t_state tk ∧
  t_parent tk' = t_parent tk ∧ ∀ t, res_of t tk' = res_of t tk.
Proof. intros [E _]. destruct tk, tk'. injection E as -> -> -> -> -> -> -> -> -> -> -> -> -> -> -> -> ->. done. Qed.

Lemma task_ok_trimmed s s' t tk tk' : current_task s' = current_task s → task_ok s t tk → trimmed tk tk' →
  task_ok s' t tk'.
Proof.
  intros Ec [Hr Ht Hd Hte Hz] Htr. pose proof (trimmed_core _ _ Htr) as ((_ & _ & Eti & _) & Est & Ep & _).
  destruct Htr as [_ Hch]. unfold dead in *. split; unfold dead; rewrite ?Ec, ?Est, ?Ep, ?Eti; try done.
  intros Hdead. destruct (Hd Hdead). auto.
Qed.

Lemma prunes_intro s s' t : task_list s' = unlink t (task_list s) → current_task s' = current_task s →
  ptrace s' = ptrace s → scheduler_enabled s' = scheduler_enabled s →
  (∀ tk, live s t tk → t_state tk = TASK_STATE_TERMINATED) →
  (∀ x xk, x ≠ t → tasks s !! x = Some xk → ∃ xk', tasks s' !! x = Some xk' ∧ trimmed xk xk') → (∀ x, x ∈ task_list s → is_Some (tasks s !! x)) →
  prunes s s'.
Proof.
  intros El Ec Ep Ee Hrd Hts Hdom.
  assert (∀ x xk, live s x xk → x ≠ t → ∃ xk', live s' x xk' ∧ trimmed xk xk') as Hfwd.
  { intros x xk [Hx Hxk] Hne. destruct (Hts x xk Hne Hxk) as (xk' & ? & ?). exists xk'. split; [|done].
    split; [|done]. rewrite El. by apply elem_unlink. }
  assert (∀ x xk', live s' x xk' → ∃ xk, live s x xk ∧ trimmed xk xk') as Hback.
  { intros x xk' [Hx Hxk']. rewrite El in Hx. apply elem_unlink in Hx as [Hne Hx]. destruct (Hdom x Hx) as [xk Hxk].
    destruct (Hfwd x xk (conj Hx Hxk) Hne) as (xk2 & [_ ?] & Htr). assert (xk2 = xk') as -> by congruence.
    by exists xk. }
  split; [|done]. split; try done.
  - exists (λ x, bool_decide (x ≠ t)). rewrite El. unfold unlink. apply list_filter_iff. intros x. by rewrite bool_decide_eq_true.
  - intros x xk' Hx. destruct (Hback x xk' Hx) as (xk & ? & Htr). exists xk. split; [done|]. by apply trimmed_core.
  - intros x xk Hx Hst. destruct (decide (x = t)) as [->|Hne]; [by rewrite (Hrd xk Hx) in Hst|].
    destruct (Hfwd x xk Hx Hne) as (xk' & ? & Htr). exists xk'. split; [done|].
    destruct (trimmed_core _ _ Htr) as (_ & -> & _). done.
  - intros x xk Hx Hst _. destruct (decide (x = t)) as [->|Hne]; [by rewrite (Hrd xk Hx) in Hst|].
    destruct (Hfwd x xk Hx Hne) as (xk' & ? & Htr). exists xk'. split; [done|].
    destruct (trimmed_core _ _ Htr) as ((? & _) & ? & ? & _). split_and!; try done; [congruence|].
    destruct Htr as [Et _]. by injection Et.
Qed.

Lemma reap_ok s R t : sched_ok s R → t ∈ task_list s →
  wp (reap idle t) (λ _ s', sched_ok s' R ∧ prunes s s' ∧ (∀ x, x ∈ task_list s → x ≠ t → x ∈ task_list s') ∧
    (∀ tk, live s' t tk → t_state tk = TASK_STATE_TERMINATED → current_task s' = Some t)) s.
Proof.
  intros Hs Hin. destruct (so_live _ _ _ Hs Hin) as [tk Ht]. unfold reap.
  eapply wp_bind, wp_get, wp_bind, wp_get_task; [apply Ht|]. case_if.
  { split_and!; [done|apply prunes_refl|done|]. intros tk' Ht' Hst. rewrite (live_fun _ _ _ _ Ht' Ht) in Hst.
    unfold in_state in E. apply orb_true_iff in E as [E|E]; [apply orb_true_iff in E as [E|E]|]; breflect; [|done..].
    subst. destruct (so_task _ _ _ Hs idle tk Ht) as [_ _ Hd _ _]. by destruct (Hd (or_introl Hst)). }
  unfold in_state in *. breflect. assert (t ≠ idle) as Hti by done. assert (current_task s ≠ Some t) as Hnc by done.
  assert (t_state tk = TASK_STATE_TERMINATED) as Hst by done.
  eapply wp_bind, wp_modify, wp_bind, wp_mono; [by eapply reap_tree|]. cbn. intros _ s1 (ts & -> & Htr1 & _ & Hts).
  eapply wp_mono.
  { apply (release_task_ok _ (R ++ owned (tasks s) (unlink t (task_list s)))). cbn. eapply tm_own_perm; [|by apply (so_own _ _ _ Hs)].
    rewrite (owned_unlink _ t tk); [solve_Permutation|apply (so_nodup _ _ _ Hs)|done|apply Ht]. }
  cbn. intros _ s' (m & ts' & -> & Ho & Hts').
  assert (∀ x xk, x ≠ t → tasks s !! x = Some xk → ∃ xk', ts' !! x = Some xk' ∧ trimmed xk xk') as Hx.
  { intros x xk Hne Hxk. rewrite Hts' by done. destruct (Hts x Hne) as [->|(-> & ik & Hik & ->)]; [by exists xk|].
    assert (ik = xk) as -> by congruence. eexists. split; [done|]. split; [done|]. cbn. by intros ->. }
  assert (prunes s (put_mem m (put_tasks ts' (put_tasks ts (put_list (unlink t (task_list s)) s))))) as Hpr.
  { eapply (prunes_intro _ _ t); try done; [|by apply (so_dom _ _ _ Hs)].
    intros tk' Ht'. by rewrite (live_fun _ _ _ _ Ht' Ht). }
  split_and!; [|done| |].
  - split; cbn.
    + apply NoDup_filter, (so_nodup _ _ _ Hs).
    + apply elem_unlink. split; [done|]. apply (so_idle _ _ _ Hs).
    + destruct (so_current _ _ _ Hs) as (c & Ec & ?). exists c. split; [done|]. apply elem_unlink. split; [congruence|done].
    + intros x [Hne Hx']%elem_unlink. destruct (so_dom _ _ _ Hs x Hx') as [xk Hxk].
      destruct (Hx x xk Hne Hxk) as (xk' & ? & _). by exists xk'.
    + intros x xk' Hl. destruct (pr_live _ _ Hpr x xk' Hl) as (xk & Hxk & ?).
      eapply task_ok_trimmed; [|by eapply so_task|done]. done.
    + eapply tree_ext, Htr1; [done|]. cbn. intros x [? _]%elem_unlink. by apply Hts'.
    + erewrite owned_ext; [done|]. intros x [Hne Hx']%elem_unlink. destruct (so_dom _ _ _ Hs x Hx') as [xk Hxk].
      destruct (Hx x xk Hne Hxk) as (xk' & Hxk' & Htr). exists xk, xk'. split_and!; [done..|]. by apply trimmed_core.
  - intros x ? ?. by apply elem_unlink.
  - intros tk' [Hl _]. cbn in Hl. apply elem_unlink in Hl as [? _]. done.
Qed.
End lemmas.
