(* ===== verification/SchedRun.v ===== *)
(** * The scheduler

    What [scheduler] does: [dispatched] is the step that follows the reaper.
    Every event keeps the invariant and the contexts of the tasks that do not
    run; a task that is ready runs after a bounded number of entries. *)

From S2P Require Import Prelude Helpers Ktime Task SchedOk.

Local Open Scope Z_scope.

(** ** Specification *)

Section spec.
Context {M : Type} `{!task_mem M}.
Variable idle : Z.

Definition runnable (s : sys M) (t : Z) : Prop := ∃ tk, live s t tk ∧ t_state tk = TASK_STATE_READY ∧ t ≠ idle.

(** The order in which the scheduler looks at the tasks. *)
Definition order (s : sys M) (c : Z) : list Z :=
  match split_at c (task_list s) with Some (a, b) => b ++ a | None => [] end.

(** The task that is chosen: the first one in that order that is ready, or [idle]. *)
Definition chosen (s : sys M) (c t : Z) : Prop :=
  (∃ o1 o2, order s c = o1 ++ t :: o2 ∧ runnable s t ∧ ∀ x, x ∈ o1 → ¬ runnable s x) ∨
  (t = idle ∧ ∀ x, x ∈ order s c → ¬ runnable s x).

(** The current task [c] keeps the processor or [t] gets it. *)
Inductive dispatched (s s' : sys M) (c : Z) (ck : task) : Prop :=
  | disp_keep ck' :
      current_task s' = Some c → ptrace s' = ptrace s →
      (∀ x, x ≠ c → tasks s' !! x = tasks s !! x) →
      live s' c ck' → t_regs ck' = t_regs ck → t_state ck = TASK_STATE_RUNNING ∨ c = idle →
      (c ≠ idle ∧ 1 < t_ticks ck ∧ t_ticks ck' = t_ticks ck - 1) ∨ (∀ x, x ∈ order s c → ¬ runnable s x) →
      dispatched s s' c ck
  | disp_switch t tk ck' :
      current_task s' = Some t → t ≠ c → live s t tk → chosen s c t →
      ptrace s' = copy_regs (t_regs tk) (ptrace s) →
      (∀ x, x ≠ c → x ≠ t → tasks s' !! x = tasks s !! x) →
      live s' t (set_ticks TASK_TIMESLICE (set_state TASK_STATE_RUNNING tk)) →
      live s' c ck' → t_regs ck' = copy_regs (ptrace s) (t_regs ck) →
      (t_state ck = TASK_STATE_RUNNING → c ≠ idle → t_state ck' = TASK_STATE_READY) →
      (t_state ck = TASK_STATE_ZOMBIE → corpse ck ck') →
      dispatched s s' c ck.

(** No dead task but the current one is left in the list. *)
Definition reaped (s : sys M) : Prop :=
  ∀ t tk, live s t tk → t_state tk = TASK_STATE_TERMINATED → current_task s = Some t.

(** A run of the scheduler. *)
Definition scheduled (s s' : sys M) : Prop :=
  ∃ s1 c ck R, sched_ok idle s1 R ∧ prunes s s1 ∧ reaped s1 ∧ current_task s1 = Some c ∧ live s1 c ck ∧ dispatched s1 s' c ck ∧
    task_list s' = task_list s1 ∧ scheduler_enabled s' = scheduler_enabled s1.
End spec.

Section lemmas.
Context {M : Type} `{TaskMemLaws M}.
Variable idle : Z.
Implicit Types s : sys M.

Abbreviation sched_ok := (sched_ok idle).
Abbreviation task_ok := (task_ok idle).
Abbreviation runnable := (runnable idle).
Abbreviation dispatched := (dispatched idle).

#[local] Arguments run_next : simpl never.

(** ** The reaper *)

Lemma reap_list_ok R l : ∀ s, sched_ok s R → NoDup l → l ⊆ task_list s →
  wp (reap_list idle l) (λ _ s', sched_ok s' R ∧ prunes s s' ∧
    ∀ t tk, t ∈ l → live s' t tk → t_state tk = TASK_STATE_TERMINATED → current_task s' = Some t) s.
Proof.
  induction l as [|t l IH]; intros s Hs Hn Hl.
  { split; [done|]. split; [apply prunes_refl|]. intros ?? Ht. inversion Ht. }
  apply NoDup_cons in Hn as [Hnt Hn]. cbn [reap_list].
  eapply wp_bind, wp_mono; [apply reap_ok; [done|set_solver]|]. cbn. intros _ s1 (Hs1 & Hp1 & Hin & Ht1).
  eapply wp_mono; [apply (IH s1 Hs1 Hn)|].
  { intros x Hx. apply Hin; [set_solver|]. by intros ->. }
  cbn. intros _ s2 (Hs2 & Hp2 & Hl2). split; [done|]. split; [by eapply prunes_trans|].
  intros x xk [->|Hx]%elem_of_cons Hlx Hst; [|by eapply Hl2].
  destruct (pr_live _ _ Hp2 _ _ Hlx) as (xk1 & Hlx1 & Htr). apply trimmed_core in Htr as (_ & Est & _).
  rewrite (ks_current _ _ (pr_keeps _ _ Hp2)). eapply Ht1; [done|congruence].
Qed.

Lemma reap_terminated_ok s R : sched_ok s R →
  wp (reap_terminated idle) (λ _ s', sched_ok s' R ∧ prunes s s' ∧ reaped s') s.
Proof.
  intros Hs. eapply wp_bind, wp_get, wp_mono; [apply reap_list_ok; [done|apply (so_nodup _ _ _ Hs)|done]|].
  cbn. intros _ s' (? & Hp & Hr). split; [done|]. split; [done|]. intros t tk Ht. apply Hr; [|done].
  eapply keeps_in; [by apply pr_keeps|]. apply Ht.
Qed.

(** ** The choice *)

Lemma split_at_Some c l : c ∈ l → ∃ a b, split_at c l = Some (a, b) ∧ l = a ++ c :: b.
Proof.
  induction l as [|x l IH]; intros Hc; [by inversion Hc|]. cbn. case_if; [subst; by exists [], l|].
  destruct IH as (a & b & -> & ->); [set_solver|]. by exists (x :: a), b.
Qed.

Lemma split_at_app c a b : c ∉ a → split_at c (a ++ c :: b) = Some (a, b).
Proof.
  induction a as [|x a IH]; intros Hc; cbn; [by rewrite Z.eqb_refl|].
  apply not_elem_of_cons in Hc as [? ?]. case_if; [done|]. by rewrite IH.
Qed.

Lemma order_split s c a b : NoDup (task_list s) → task_list s = a ++ c :: b → order s c = b ++ a.
Proof.
  intros Hn E. unfold order. rewrite E in *. apply NoDup_app_cons_not_in in Hn as (Hc & _ & _). by rewrite split_at_app.
Qed.

Lemma order_elem s R c x : sched_ok s R → c ∈ task_list s → x ∈ order s c ↔ x ≠ c ∧ x ∈ task_list s.
Proof.
  intros Hs (a & b & E)%list_elem_of_split. pose proof (so_nodup _ _ _ Hs) as Hn. rewrite (order_split s c a b) by done.
  rewrite E in *. apply NoDup_app_cons_not_in in Hn as (? & ? & _). set_solver.
Qed.

Lemma first_ready_ok s R l : sched_ok s R → l ⊆ task_list s →
  wp (first_ready idle l) (λ r s', s' = s ∧
    match r with
    | Some t => ∃ l1 l2, l = l1 ++ t :: l2 ∧ runnable s t ∧ ∀ x, x ∈ l1 → ¬ runnable s x
    | None => ∀ x, x ∈ l → ¬ runnable s x
    end) s.
Proof.
  intros Hs. induction l as [|t l IH]; intros Hl; cbn [first_ready].
  { split; [done|]. intros x Hx. inversion Hx. }
  destruct (so_live _ s R t Hs) as [tk Ht]; [set_solver|].
  eapply wp_bind, wp_get_task; [apply Ht|]. case_if.
  - unfold in_state in *. breflect. split; [done|]. exists [], l. split; [done|]. split; [by exists tk|].
    intros x Hx. inversion Hx.
  - assert (¬ runnable s t) as Hnr.
    { intros (tk' & Ht' & Hst & Hi). rewrite (live_fun _ _ _ _ Ht' Ht) in Hst. revert E. unfold in_state.
      rewrite bool_decide_eq_true_2 by done. cbn. intros E%negb_false_iff. breflect. done. }
    eapply wp_mono; [apply IH; set_solver|]. cbn. intros r s' [-> Hr]. split; [done|]. destruct r as [u|].
    + destruct Hr as (l1 & l2 & -> & ? & Hl1). exists (t :: l1), l2. split; [done|]. split; [done|].
      intros x [->|?]%elem_of_cons; auto.
    + intros x [->|?]%elem_of_cons; auto.
Qed.

Lemma next_ready_ok s R c : sched_ok s R → current_task s = Some c → c ∈ task_list s →
  wp (next_ready_task idle) (λ r s', s' = s ∧
    match r with
    | Some t => t ≠ c ∧ ∃ o1 o2, order s c = o1 ++ t :: o2 ∧ runnable s t ∧ ∀ x, x ∈ o1 → ¬ runnable s x
    | None => ∀ x, x ∈ order s c → ¬ runnable s x
    end) s.
Proof.
  intros Hs Hc Hin. destruct (split_at_Some c (task_list s) Hin) as (a & b & E & El).
  pose proof (so_nodup _ _ _ Hs) as Hn. pose proof (order_split s c a b Hn El) as Eo.
  unfold next_ready_task, get_current. eapply wp_bind, wp_bind, wp_get, wp_run; [by rewrite Hc|].
  eapply wp_bind, wp_get, wp_bind, wp_run; [by rewrite E|].
  assert (∀ t o1 o2, order s c = o1 ++ t :: o2 → t ≠ c) as Hne.
  { intros t o1 o2 Ho. apply (order_elem s R c t Hs Hin). rewrite Ho. set_solver. }
  eapply wp_bind, wp_mono; [apply (first_ready_ok s R b Hs); rewrite El; set_solver|]. cbn. intros [t|] s' [-> Hr].
  - destruct Hr as (l1 & l2 & -> & ? & ?). split; [done|]. rewrite <- app_assoc in Eo. cbn in Eo. split; [by eapply Hne|].
    by exists l1, (l2 ++ a).
  - eapply wp_mono; [apply (first_ready_ok s R a Hs); rewrite El; set_solver|]. cbn. intros [t|] s' [-> Hr']; (split; [done|]).
    + destruct Hr' as (l1 & l2 & -> & ? & Hl1). rewrite app_assoc in Eo. split; [by eapply Hne|].
      exists (b ++ l1), l2. split; [done|]. split; [done|]. intros x [?|?]%elem_of_app; auto.
    + rewrite Eo. intros x [?|?]%elem_of_app; auto.
Qed.

(** ** Switching *)

Lemma sched_ext s s' R : sched_ok s R → task_list s' = task_list s → current_task s' = current_task s →
  tm_own (tmem s') (R ++ owned (tasks s) (task_list s)) → tasks s' = tasks s → sched_ok s' R.
Proof.
  intros Hs El Ec Em Et. pose proof Hs as [? ? ? ? Hk Htr Ho].
  assert (∀ x xk, live s' x xk ↔ live s x xk) as Hl by (intros; unfold live; by rewrite El, Et).
  split; rewrite ?El, ?Ec; try done.
  - intros t. rewrite Et. auto.
  - intros t tk Ht%Hl. destruct (Hk t tk Ht). by split; rewrite ?Ec.
  - eapply tree_ext; [done| |done]. intros. by rewrite Et.
  - by rewrite Et.
Qed.

Lemma tree_mem_in s R t tk : sched_ok s R → live s t tk → t_pml4 tk ≠ 0 →
  RTree (t_pml4 tk) ∈ R ++ owned (tasks s) (task_list s).
Proof.
  intros Hs [Hin Ht] Hp. apply elem_of_app. right. apply list_elem_of_bind. exists t. split; [|done]. rewrite Ht.
  unfold res_of. rewrite (proj2 (Z.eqb_neq _ _) Hp). set_solver.
Qed.

(** Saving and loading the contexts. *)
Lemma task_switch_wp s c ck t tk L (Q : unit → sys M → Prop) :
  current_task s = Some c → tasks s !! c = Some ck → tasks s !! t = Some tk → t ≠ c →
  tm_own (tmem s) L → (t_pml4 tk ≠ 0 → RTree (t_pml4 tk) ∈ L) →
  (∀ s', tm_own (tmem s') L → task_list s' = task_list s → scheduler_enabled s' = scheduler_enabled s →
     current_task s' = Some t → ptrace s' = copy_regs (t_regs tk) (ptrace s) →
     tasks s' = <[c := set_regs (copy_regs (ptrace s) (t_regs ck)) ck]> (tasks s) → Q tt s') →
  wp (task_switch_to t) Q s.
Proof.
  intros Hc Hck Ht Hne Ho Hin HQ. unfold task_switch_to, task_save_context, get_current, task_load_context.
  eapply wp_bind, wp_bind, wp_bind, wp_get, wp_run; [by rewrite Hc|].
  eapply wp_bind, wp_get, wp_upd_task; [done|]. set (s1 := put_tasks _ s).
  assert (tasks s1 !! t = Some tk) as Ht1 by (unfold s1; cbn; by rewrite lookup_insert_ne).
  eapply wp_bind, wp_bind, wp_get_task; [done|]. apply wp_modify.
  eapply wp_bind, wp_get_task; [done|]. apply wp_bind. case_if.
  - apply wp_ret, wp_bind, wp_modify, wp_modify. by apply HQ.
  - destruct (tm_switch_ok (tmem s) L (t_pml4 tk) Ho) as (m & Em & Hm); [auto|].
    eapply wp_on_mem; [exact Em|]. apply wp_bind, wp_modify, wp_modify. by apply HQ.
Qed.

(** The current task changes when the old one does not run any more. *)
Lemma sched_current s R c t : sched_ok s R → current_task s = Some c → t ∈ task_list s →
  (∀ ck, live s c ck → t_state ck ≠ TASK_STATE_RUNNING ∨ c = idle) → sched_ok (put_current (Some t) s) R.
Proof.
  intros Hs Hc Hin Hnr. pose proof Hs as [? ? ? ? Hk Htr Ho].
  split; try done; [by exists t| |by eapply tree_ext, Htr].
  intros x xk Hx. destruct (Hk x xk Hx) as [Hr ? ? ? ?]. split; try done. cbn. intros Hst.
  destruct (Hr Hst) as [?|Ecx]; [by left|]. assert (x = c) as -> by congruence.
  destruct (Hnr xk Hx); [done|by left].
Qed.

Lemma task_ok_resume s t tk : task_ok s t tk → t = idle ∨ current_task s = Some t →
  t_state tk = TASK_STATE_READY ∨ t = idle →
  task_ok s t (set_ticks TASK_TIMESLICE (set_state TASK_STATE_RUNNING tk)).
Proof.
  intros [_ Ht Hd _ _] Hc Hst. split; cbn; try done; intros [|]; done.
Qed.

(** The states in which only the running task [c] changed. *)
Lemma runnable_put s c ck ck' x : live s c ck → t_state ck ≠ TASK_STATE_READY → t_state ck' ≠ TASK_STATE_READY →
  runnable (put_tasks (<[c := ck']> (tasks s)) s) x ↔ runnable s x.
Proof.
  intros Hc Hn Hn'. unfold SchedRun.runnable. setoid_rewrite live_put; [|apply Hc]. split.
  - intros (xk & [[-> ->]|[? ?]] & ? & ?); [done|]. eauto.
  - intros (xk & Hx & ? & ?). exists xk. split; [|done]. right. split; [|done]. intros ->.
    apply Hn. by rewrite <- (live_fun _ _ _ _ Hx Hc).
Qed.

Lemma task_ok_ticks s t tk n : task_ok s t tk → 0 <= n <= TASK_TIMESLICE → task_ok s t (set_ticks n tk).
Proof. intros [? _ ? ? ?] ?. by split. Qed.

Lemma sched_ticks s R c ck n : sched_ok s R → live s c ck → 0 <= n <= TASK_TIMESLICE →
  sched_ok (put_tasks (<[c := set_ticks n ck]> (tasks s)) s) R.
Proof.
  intros Hs Hc Hn. eapply sched_put; [done..|]. apply task_ok_ticks; [by eapply so_task|done].
Qed.

Lemma switched_ok s R c ck t tk ck' s' : sched_ok s R → current_task s = Some c → live s c ck → live s t tk → t ≠ c →
  same_place ck ck' → task_ok s c ck' → (t_state ck' ≠ TASK_STATE_RUNNING ∨ c = idle) →
  (t_state tk = TASK_STATE_READY ∨ t = idle) → task_list s' = task_list s → current_task s' = Some t →
  tm_own (tmem s') (R ++ owned (tasks s) (task_list s)) →
  tasks s' = <[c := ck']> (<[t := set_ticks TASK_TIMESLICE (set_state TASK_STATE_RUNNING tk)]> (tasks s)) →
  sched_ok s' R.
Proof.
  intros Hs Hc Hck Ht Hne Hpl Hok Hnr Hst El Ec Hm Ets. set (tk' := set_ticks _ _) in *.
  set (s1 := put_tasks (<[c := ck']> (tasks s)) s).
  assert (sched_ok s1 R) as Hs1 by (by eapply sched_put).
  assert (sched_ok (put_current (Some t) s1) R) as Hs2.
  { eapply sched_current; [done|done|apply Ht|].
    intros ck2 [[_ ->]|[? _]]%live_put; [done|done|apply Hck]. }
  assert (live (put_current (Some t) s1) t tk) as Ht2.
  { split; [apply Ht|]. cbn. rewrite lookup_insert_ne by done. apply Ht. }
  eapply (sched_ext (put_tasks (<[t := tk']> (tasks s1)) (put_current (Some t) s1))); [|done|done| |].
  - apply (sched_put idle (put_current (Some t) s1) R t tk); [done..|].
    apply task_ok_resume; [by eapply so_task|by right|done].
  - cbn. rewrite (owned_put _ t tk); [|rewrite lookup_insert_ne by done; apply Ht|done].
    rewrite (owned_put _ c ck); [done|apply Hck|by apply same_place_res].
  - rewrite Ets. cbn. by rewrite insert_insert_ne.
Qed.

(** Another task gets the processor. *)
Lemma run_next_ok s R c ck t tk : sched_ok s R → current_task s = Some c → live s c ck → live s t tk → t ≠ c →
  (t_state tk = TASK_STATE_READY ∨ t = idle) → ∀ back : option Z,
  back = (if decide (t_state ck = TASK_STATE_RUNNING ∧ c ≠ idle) then Some c else None) →
  wp (run_next (Some c) back t) (λ _ s', sched_ok s' R ∧ task_list s' = task_list s ∧
    scheduler_enabled s' = scheduler_enabled s ∧ current_task s' = Some t ∧
    ptrace s' = copy_regs (t_regs tk) (ptrace s) ∧
    (∀ x, x ≠ c → x ≠ t → tasks s' !! x = tasks s !! x) ∧
    live s' t (set_ticks TASK_TIMESLICE (set_state TASK_STATE_RUNNING tk)) ∧
    ∃ ck', live s' c ck' ∧ t_regs ck' = copy_regs (ptrace s) (t_regs ck) ∧
      (t_state ck = TASK_STATE_RUNNING → c ≠ idle → t_state ck' = TASK_STATE_READY) ∧
      (t_state ck = TASK_STATE_ZOMBIE → corpse ck ck')) s.
Proof.
  intros Hs Hc Hck Ht Hne Hst back Eb. unfold run_next.
  set (ck1 := if decide (t_state ck = TASK_STATE_RUNNING ∧ c ≠ idle) then set_state TASK_STATE_READY ck else ck).
  assert (same_place ck ck1 ∧ t_regs ck1 = t_regs ck ∧ (t_state ck1 ≠ TASK_STATE_RUNNING ∨ c = idle) ∧ task_ok s c ck1 ∧
    (t_state ck = TASK_STATE_RUNNING → c ≠ idle → t_state ck1 = TASK_STATE_READY) ∧
    (t_state ck = TASK_STATE_ZOMBIE → corpse ck ck1)) as (Hpl & Er & Hnr & Hok & Hrd & Hz).
  { pose proof (so_task _ _ _ Hs c ck Hck) as Hok. subst ck1. case_decide as Hd.
    - split_and!; try done; [by left| |by destruct Hd as [-> _]]. destruct Hok as [? ? ? ? ?].
      split; cbn; try done; by intros [|].
    - split_and!; try done; [|tauto]. destruct (decide (c = idle)); [by right|left; tauto]. }
  set (s1 := put_tasks (<[c := ck1]> (tasks s)) s).
  assert (sched_ok s1 R) as Hs1 by (by eapply sched_put).
  assert (live s1 c ck1) as Hc1 by (apply live_put; [apply Hck|by left]).
  assert (live s1 t tk) as Ht1 by (apply live_put; [apply Hck|by right]).
  apply wp_bind. assert (∀ Q : unit → sys M → Prop, Q tt s1 →
    wp match back with Some c => upd_task c (set_state TASK_STATE_READY) | None => mret tt end Q s) as Hwp.
  { intros Q HQ. rewrite Eb. unfold s1, ck1 in HQ. case_decide; [eapply wp_upd_task; [apply Hck|done]|].
    rewrite insert_id in HQ by apply Hck. apply wp_ret. by destruct s. }
  apply Hwp. clear Hwp Eb. eapply wp_bind, wp_upd_task; [apply Ht1|].
  eapply wp_bind, wp_upd_task; [cbn; by rewrite lookup_insert_eq|]. cbn [tasks put_tasks].
  rewrite bool_decide_eq_false_2 by congruence.
  set (tk1 := set_ticks TASK_TIMESLICE (set_state TASK_STATE_RUNNING tk)).
  match goal with |- wp _ _ ?s' => replace s' with (put_tasks (<[t := tk1]> (tasks s1)) s1)
    by (unfold put_tasks; cbn; by rewrite insert_insert_eq) end.
  apply (task_switch_wp _ c ck1 t tk1 (R ++ owned (tasks s1) (task_list s1))); try done.
  { cbn. rewrite lookup_insert_ne by done. apply Hc1. } { cbn. by rewrite lookup_insert_eq. }
  { apply (so_own _ _ _ Hs1). } { intros ?. by apply (tree_mem_in s1 R t tk). }
  cbn [tasks put_tasks task_list scheduler_enabled ptrace].
  intros s' Hm El Een Ec Ep Ets.
  assert (∀ x, x ≠ c → x ≠ t → tasks s' !! x = tasks s !! x) as Hoth.
  { intros x ? ?. rewrite Ets, !lookup_insert_ne by done. unfold s1. cbn. by rewrite lookup_insert_ne. }
  split_and!; [|done..| |].
  - apply (switched_ok s1 R c ck1 t tk (set_regs (copy_regs (ptrace s1) (t_regs ck1)) ck1)); try done.
    by destruct Hok; split.
  - split; [rewrite El; apply Ht|]. by rewrite Ets, lookup_insert_ne, lookup_insert_eq.
  - exists (set_regs (copy_regs (ptrace s) (t_regs ck1)) ck1). split_and!; [|cbn; by rewrite Er|done|done].
    split; [rewrite El; apply Hck|]. by rewrite Ets, lookup_insert_eq.
Qed.

Lemma spend_tick_ok s c ck (Q : bool → sys M → Prop) : live s c ck →
  (let n := if t_ticks ck =? 0 then t_ticks ck else t_ticks ck - 1 in
   Q (negb (n =? 0)) (put_tasks (<[c := set_ticks n ck]> (tasks s)) s)) → wp (spend_tick c) Q s.
Proof.
  intros Hc HQ. eapply wp_bind, wp_upd_task; [apply Hc|].
  eapply wp_bind, wp_get_task; [cbn; by rewrite lookup_insert_eq|]. apply wp_ret.
  case_match; [|done]. by destruct ck.
Qed.

Definition after_dispatch (R : list res) (s : sys M) (c : Z) (ck : task) (s' : sys M) : Prop :=
  sched_ok s' R ∧ cur_running s' ∧ task_list s' = task_list s ∧ scheduler_enabled s' = scheduler_enabled s ∧
  dispatched s s' c ck.

(** [c] stays. *)
Lemma stay_ok s R c ck n : sched_ok s R → current_task s = Some c → live s c ck → t_state ck = TASK_STATE_RUNNING →
  0 <= n <= TASK_TIMESLICE →
  (c ≠ idle ∧ 1 < t_ticks ck ∧ n = t_ticks ck - 1) ∨ (∀ x, x ∈ order s c → ¬ runnable s x) →
  after_dispatch R s c ck (put_tasks (<[c := set_ticks n ck]> (tasks s)) s).
Proof.
  intros Hs Hc Hck Hst Hn Hd. assert (live (put_tasks (<[c := set_ticks n ck]> (tasks s)) s) c (set_ticks n ck)) as Hl.
  { apply live_put; [apply Hck|by left]. }
  split_and!; [by apply sched_ticks|by exists c, (set_ticks n ck)|done|done|].
  eapply disp_keep; [done|done| |done|done|by left|done]. intros x ?. cbn. by rewrite lookup_insert_ne.
Qed.

(** Nobody is ready and [idle] goes on. *)
Lemma idle_stays s R ck : sched_ok s R → current_task s = Some idle → live s idle ck →
  (∀ x, x ∈ order s idle → ¬ runnable s x) →
  wp (run_next (Some idle) None idle) (λ _ s', after_dispatch R s idle ck s') s.
Proof.
  intros Hs Hc Hck Hn. unfold run_next. eapply wp_bind, wp_ret, wp_bind, wp_upd_task; [apply Hck|].
  eapply wp_bind, wp_upd_task; [cbn; by rewrite lookup_insert_eq|]. rewrite bool_decide_eq_true_2 by done.
  apply wp_ret. set (ck' := set_ticks TASK_TIMESLICE (set_state TASK_STATE_RUNNING ck)).
  match goal with |- after_dispatch _ _ _ _ ?s' => replace s' with (put_tasks (<[idle := ck']> (tasks s)) s)
    by (unfold put_tasks; cbn; by rewrite insert_insert_eq) end.
  assert (live (put_tasks (<[idle := ck']> (tasks s)) s) idle ck') as Hl by (apply live_put; [apply Hck|by left]).
  split_and!; [|by exists idle, ck'|done|done|].
  - eapply sched_put; [done..|]. apply task_ok_resume; [by eapply so_task|by left|by right].
  - eapply disp_keep; [done|done| |done|done|by right|by right]. intros x ?. cbn. by rewrite lookup_insert_ne.
Qed.

(** [t] was chosen; [ck1] is [c] when its quantum has been charged. *)
Lemma switch_ok s R c ck n t : sched_ok s R → current_task s = Some c → live s c ck → t ≠ c → chosen idle s c t →
  0 <= n <= TASK_TIMESLICE → ∀ back : option Z,
  back = (if decide (t_state ck = TASK_STATE_RUNNING ∧ c ≠ idle) then Some c else None) →
  wp (run_next (Some c) back t) (λ _ s', after_dispatch R s c ck s') (put_tasks (<[c := set_ticks n ck]> (tasks s)) s).
Proof.
  intros Hs Hc Hck Hne Hch Hn back Eb. set (s1 := put_tasks _ s).
  assert (sched_ok s1 R) as Hs1 by (by apply sched_ticks).
  assert (∃ tk, live s t tk ∧ (t_state tk = TASK_STATE_READY ∨ t = idle)) as (tk & Ht & Hst).
  { destruct Hch as [(_ & _ & _ & (tk & ? & ? & _) & _)|[-> _]]; [by eauto|].
    destruct (so_live _ s R idle Hs) as [ik ?]; [apply (so_idle _ _ _ Hs)|]. by exists ik; auto. }
  assert (live s1 c (set_ticks n ck)) as Hc1 by (apply live_put; [apply Hck|by left]).
  assert (live s1 t tk) as Ht1 by (apply live_put; [apply Hck|by right]).
  eapply wp_mono; [by apply (run_next_ok s1 R c (set_ticks n ck) t tk)|]. cbn [set_ticks t_regs t_state].
  intros _ s' (Hs' & El & Ee & Ec & Ep & Hoth & Hlt & ck' & Hlc & Er & Hrd & Hz).
  split_and!; [done|by eexists _, _|done|done|].
  eapply disp_switch; try done. intros x ? ?. rewrite Hoth by done. unfold s1. cbn. by rewrite lookup_insert_ne.
Qed.

Lemma dispatch_ok s R c ck : sched_ok s R → current_task s = Some c → live s c ck →
  wp (dispatch idle) (λ _ s', after_dispatch R s c ck s') s.
Proof.
  intros Hs Hc Hck. unfold dispatch. pose proof (tk_ticks _ _ _ _ (so_task _ _ _ Hs c ck Hck)) as Htk.
  eapply wp_bind, wp_get. rewrite Hc. eapply wp_bind, wp_bind, wp_get_task; [apply Hck|]. apply wp_ret.
  unfold in_state. destruct (decide (t_state ck = TASK_STATE_RUNNING ∧ c ≠ idle)) as [[Hst Hci]|Hno].
  - rewrite bool_decide_eq_true_2 by done. rewrite (bool_decide_eq_false_2 (Some c = Some idle)) by congruence.
    cbn [andb negb]. apply wp_bind, (spend_tick_ok s c ck); [done|]. cbn zeta.
    set (n := if t_ticks ck =? 0 then t_ticks ck else t_ticks ck - 1).
    assert (0 <= n <= TASK_TIMESLICE ∧ (n ≠ 0 → 1 < t_ticks ck ∧ n = t_ticks ck - 1)) as [Hn Hnz].
    { subst n. case_if; split; lia. }
    destruct (n =? 0) eqn:E0; cbn [negb]; breflect; [|apply wp_ret, stay_ok; auto; by left].
    set (s1 := put_tasks _ s). assert (sched_ok s1 R) as Hs1 by (by apply sched_ticks).
    assert (∀ x, runnable s1 x ↔ runnable s x) as Hrun by (intros; apply (runnable_put s c ck); [done|cbn; by rewrite Hst..]).
    unfold next_or_idle. eapply wp_bind, wp_bind, wp_mono; [apply (next_ready_ok s1 R c Hs1 Hc), Hck|].
    cbn. intros [t|] s' [-> Hr].
    + destruct Hr as (Hne & o1 & o2 & Eo & Ht & Ho1). apply wp_ret, (switch_ok s R c ck n t); try done; [|by rewrite decide_True].
      left. exists o1, o2. split; [done|]. split; [by apply Hrun|]. intros x ?. rewrite <- Hrun. auto.
    + apply wp_bind, (wp_run _ c); [done|]. eapply wp_bind, wp_upd_task; [cbn; by rewrite lookup_insert_eq|].
      apply wp_ret. match goal with |- wp _ _ ?s' =>
        replace s' with (put_tasks (<[c := set_ticks TASK_TIMESLICE ck]> (tasks s)) s)
        by (unfold put_tasks; cbn; by rewrite insert_insert_eq) end.
      apply wp_ret, stay_ok; try done. right. intros x ?. rewrite <- Hrun. auto.
  - replace (if bool_decide (t_state ck = TASK_STATE_RUNNING) && negb (bool_decide (Some c = Some idle)) then Some c
             else None) with (@None Z).
    2:{ destruct (bool_decide_reflect (t_state ck = TASK_STATE_RUNNING)), (bool_decide_reflect (Some c = Some idle));
        naive_solver. }
    apply wp_bind, wp_ret. unfold next_or_idle.
    eapply wp_bind, wp_bind, wp_mono; [apply (next_ready_ok s R c Hs Hc), Hck|].
    assert (∀ t, t ≠ c → chosen idle s c t → wp (run_next (Some c) None t) (λ _ s', after_dispatch R s c ck s') s) as Hsw.
    { intros t Hne Hch. pose proof (switch_ok s R c ck (t_ticks ck) t Hs Hc Hck Hne Hch Htk None) as Hw.
      rewrite decide_False in Hw by done. specialize (Hw eq_refl).
      replace (put_tasks _ s) with s in Hw; [done|].
      replace (set_ticks (t_ticks ck) ck) with ck by (by destruct ck). rewrite insert_id by apply Hck. by destruct s. }
    cbn. intros [t|] s' [-> Hr].
    + destruct Hr as (Hne & o1 & o2 & Eo & Ht & Ho1). apply wp_ret, Hsw; [done|]. left. eauto.
    + case_bool_decide as Hst.
      * apply wp_bind, (wp_run _ c); [done|]. eapply wp_bind, wp_upd_task; [apply Hck|].
        apply wp_ret, wp_ret, stay_ok; try done. by right.
      * apply wp_ret. destruct (decide (c = idle)) as [->|Hci]; [by apply idle_stays|].
        apply Hsw; [done|]. by right.
Qed.

(** The scheduler, when it is enabled. *)
Lemma scheduler_ok s R : sched_ok s R → scheduler_enabled s = true →
  wp (scheduler idle) (λ _ s', sched_ok s' R ∧ cur_running s' ∧ scheduled idle s s') s.
Proof.
  intros Hs He. unfold scheduler. eapply wp_bind, wp_get. rewrite He. cbn [negb].
  eapply wp_bind, wp_mono; [by apply reap_terminated_ok|]. cbn. intros _ s1 (Hs1 & Hp & Hr).
  destruct (so_current _ _ _ Hs1) as (c & Hc & Hin). destruct (so_live _ _ _ _ Hs1 Hin) as [ck Hck].
  eapply wp_mono; [by eapply dispatch_ok|]. cbn. intros _ s' (? & ? & ? & ? & ?).
  split; [done|]. split; [done|]. by exists s1, c, ck, R.
Qed.
End lemmas.
