(* ===== verification/SchedLive.v ===== *)
(** * Runs of the scheduler

    An event is what the current task does or what interrupts it. Every event
    keeps the invariant; the registers of a task are the same when it is
    resumed; a task that is ready gets the processor after a bounded number of
    entries into the scheduler; the exit code of a task reaches its parent. *)

From S2P Require Import Prelude Helpers Ktime Task SchedOk SchedRun.

Local Open Scope Z_scope.

(** ** Specification *)

Inductive event :=
  | ETick | EYield | ESleep (ms : Z) | EBlock (k : wait_kind) | EExit | EWaitpid (pid : Z) | EWakeAll (k : wait_kind)
  | ERun (r : cpu_state).

Section spec.
Context {M : Type} `{!task_mem M}.
Variable idle : Z.

(** [ERun]: instructions of the current task leave it with other registers. *)
Definition exec (e : event) : st (sys M) unit :=
  match e with
  | ETick => isr_pit idle
  | EYield => task_yield idle
  | ESleep ms => task_sleep idle ms
  | EBlock k => task_block idle k
  | EExit => task_exit idle
  | EWaitpid pid => _ ← task_waitpid idle pid; mret tt
  | EWakeAll k => _ ← task_wake_all k; mret tt
  | ERun r => st_modify (put_ptrace r)
  end.

Fixpoint runs (es : list event) : st (sys M) unit :=
  match es with
  | [] => mret tt
  | e :: es => _ ← exec e; runs es
  end.

(** The events that always enter the scheduler. *)
Definition enters (e : event) : bool :=
  match e with ETick | EYield | ESleep _ | EExit => true | _ => false end.

Definition entries (es : list event) : Z := Z.of_nat (length (filter (λ e, enters e = true) es)).

(** A run from [s] to [s'], the first state in which [c] is the current task. *)
Inductive until (c : Z) : list event → sys M → sys M → Prop :=
  | until_now s : current_task s = Some c → until c [] s s
  | until_later e es s s1 s2 : current_task s ≠ Some c → exec e s = Done (tt, s1) → until c es s1 s2 →
      until c (e :: es) s s2.

(** No zombie among the children [l] is one that [pid] asks for. *)
Definition no_zombie (s : sys M) (pid : Z) (l : list Z) : Prop :=
  ∀ c ck, c ∈ l → live s c ck → t_state ck = TASK_STATE_ZOMBIE → 0 < pid ∧ i32 (t_pid ck) ≠ pid.

(** The state between two events. *)
Definition at_work (s : sys M) (R : list res) : Prop :=
  sched_ok idle s R ∧ cur_running s ∧ scheduler_enabled s = true.

(** What an event is: a change that keeps the tasks, and perhaps a run of the scheduler. *)
Inductive step (e : event) (s s' : sys M) : Prop :=
  | step_keep : enters e = false → keeps s s' → step e s s'
  | step_run r : e = ERun r → s' = put_ptrace r s → step e s s'
  | step_sched s1 R1 : keeps s s1 → sched_ok idle s1 R1 → scheduled idle s1 s' → step e s s'.

(** The exit code of the zombie [z] is collected by its parent [me]. *)
Definition collected (s : sys M) (z me : Z) (zk mk : task) : sys M :=
  put_tasks (<[z := set_state TASK_STATE_TERMINATED (set_parent None (set_sibling SNull zk))]>
    (<[me := set_children (unlink z (t_children mk)) mk]> (tasks s))) s.

(** The result of a pass of [task_waitpid]. *)
Definition wait_post (s : sys M) (pid me : Z) (mk : task) (r : wait_result) (s' : sys M) : Prop :=
  match r with
  | Waited n None => s' = s ∧ n = - ECHILD ∧ no_zombie s pid (t_children mk)
  | Waited n (Some code) => ∃ z zk, z ∈ t_children mk ∧ live s z zk ∧ t_state zk = TASK_STATE_ZOMBIE ∧
      (0 < pid → i32 (t_pid zk) = pid) ∧ n = i32 (t_pid zk) ∧ code = t_exit_code zk ∧ s' = collected s z me zk mk
  | Again => no_zombie s pid (t_children mk) ∧ (me ≠ idle → step (EWaitpid pid) s s')
  end.

(** The ready task [t] waits for at most [d] entries. *)
Definition waits (s : sys M) (t : Z) (d : Z) : Prop := ∃ c ck o1 o2, current_task s = Some c ∧ live s c ck ∧
  order s c = o1 ++ t :: o2 ∧ runnable idle s t ∧ Z.of_nat (length o1) * TASK_TIMESLICE + Z.max 1 (t_ticks ck) <= d.
End spec.

Section lemmas.
Context {M : Type} `{TaskMemLaws M}.
Variable idle : Z.
Implicit Types s : sys M.

Abbreviation sched_ok := (sched_ok idle).
Abbreviation task_ok := (task_ok idle).
Abbreviation runnable := (runnable idle).
Abbreviation at_work := (at_work idle).

(** ** Every event keeps the invariant *)

Lemma scheduled_enabled s s' : scheduled idle s s' → scheduler_enabled s' = scheduler_enabled s.
Proof. intros (s1 & c & ck & R2 & _ & Hp & _ & _ & _ & _ & _ & ->). apply (ks_enabled _ _ (pr_keeps _ _ Hp)). Qed.

(** The scheduler at the end of an operation. *)
Lemma sched_step e s s1 R : scheduler_enabled s = true → sched_ok s1 R → keeps s s1 →
  wp (scheduler idle) (λ _ s', at_work s' R ∧ step idle e s s') s1.
Proof.
  intros He Hs Hk. pose proof (ks_enabled _ _ Hk) as Ee.
  eapply wp_mono; [apply scheduler_ok; [done|congruence]|]. cbn. intros _ s' (? & ? & Hsc).
  pose proof (scheduled_enabled _ _ Hsc). split; [|by eapply step_sched].
  split_and!; [done|done|congruence].
Qed.

(** The current task stops running for a reason. *)
Lemma wait_ok s R c ck k n : sched_ok s R → live s c ck → t_state ck = TASK_STATE_RUNNING →
  let s' := put_tasks (<[c := set_state TASK_STATE_WAITING (set_wait k (set_sleep n ck))]> (tasks s)) s in
  sched_ok s' R ∧ keeps s s'.
Proof.
  intros Hs Hc Hst. split.
  - eapply sched_put; [done..|by repeat split|]. pose proof (so_task _ _ _ Hs c ck Hc) as [? ? ? ? ?].
    split; cbn; try done. by intros [|].
  - eapply keeps_put; [done|by repeat split|by rewrite Hst..].
Qed.

Lemma find_zombie_ok s R pid l : sched_ok s R → (∀ c, c ∈ l → c ∈ task_list s) → ∀ found,
  wp (find_zombie pid l found) (λ r s', s' = s ∧
    match r.2 with
    | Some z => r.1 = true ∧ z ∈ l ∧ ∃ zk, live s z zk ∧ t_state zk = TASK_STATE_ZOMBIE ∧
        (0 < pid → i32 (t_pid zk) = pid)
    | None => no_zombie s pid l
    end) s.
Proof.
  intros Hs. induction l as [|c l IH]; intros Hl found.
  { split; [done|]. cbn. intros c ck Hc. inversion Hc. }
  destruct (so_live _ s R c Hs) as [ck Hc]; [apply Hl; left|]. cbn [find_zombie].
  assert (∀ b, (t_state ck = TASK_STATE_ZOMBIE → 0 < pid ∧ i32 (t_pid ck) ≠ pid) → wp (find_zombie pid l b) (λ r s', s' = s ∧
    match r.2 with
    | Some z => r.1 = true ∧ z ∈ c :: l ∧ ∃ zk, live s z zk ∧ t_state zk = TASK_STATE_ZOMBIE ∧
        (0 < pid → i32 (t_pid zk) = pid)
    | None => no_zombie s pid (c :: l)
    end) s) as Hrest.
  { intros b Hck. eapply wp_mono; [apply IH; intros; apply Hl; by right|]. cbn. intros [b' z] s' [-> Hr]. split; [done|].
    cbn in *. destruct z as [z|].
    - destruct Hr as (? & ? & ?). split_and!; [done|by right|done].
    - intros x xk [->|?]%elem_of_cons Hx; [by rewrite (live_fun _ _ _ _ Hx Hc)|eauto]. }
  eapply wp_bind, wp_get_task; [apply Hc|]. case_if; [apply Hrest; by split|].
  unfold in_state. case_bool_decide as Hz; [|by apply Hrest].
  split; [done|]. cbn. split_and!; [done|by left|]. exists ck. split_and!; [done|done|]. intros ?.
  apply andb_false_iff in E as [E|E]; breflect; [lia|done].
Qed.

Lemma collected_ok s R z zk me mk : sched_ok s R → live s me mk → live s z zk → z ∈ t_children mk →
  current_task s = Some me → t_state mk = TASK_STATE_RUNNING → t_state zk = TASK_STATE_ZOMBIE →
  let s' := collected s z me zk mk in sched_ok s' R ∧ keeps s s' ∧ cur_running s'.
Proof.
  intros Hs Hm Hz Hin Hcur Hst Hzst. cbn zeta. pose proof (so_tree _ _ _ Hs) as Htree.
  assert (t_parent zk = Some me) as Ep.
  { apply (to_children _ _ Htree me mk z Hm) in Hin. by apply (has_parent_live s z zk me Hz) in Hin. }
  destruct (to_parent _ _ Htree z zk me Hz Ep) as [Hne _].
  assert (∀ x xk, live (collected s z me zk mk) x xk ↔
    (x = z ∧ xk = set_state TASK_STATE_TERMINATED (set_parent None (set_sibling SNull zk))) ∨
    (x = me ∧ xk = set_children (unlink z (t_children mk)) mk) ∨ (x ≠ z ∧ x ≠ me ∧ live s x xk)) as Hl.
  { intros x xk. apply (live_s2 s z zk me mk); done. }
  pose proof (so_task _ _ _ Hs z zk Hz) as Hok. pose proof (so_task _ _ _ Hs me mk Hm) as Hokm.
  split_and!.
  - eapply sched_rebuild; [exact Hs|done..| | |].
    + intros x xk Hx. setoid_rewrite Hl. destruct (decide (x = z)) as [->|].
      { rewrite (live_fun _ _ _ _ Hx Hz). eexists. split; [by left|done]. }
      destruct (decide (x = me)) as [->|]; [|exists xk; auto 10].
      rewrite (live_fun _ _ _ _ Hx Hm). eexists. split; [by right; left|done].
    + by apply (tree_detach idle s z zk me mk).
    + intros x xk [[-> ->]|[[-> ->]|(_ & _ & Hx)]]%Hl; [| |by eapply so_task].
      * destruct Hok as [_ Ht Hd _ _]. split; cbn; try done; [|by left]. intros _. apply Hd. by right.
      * destruct Hokm as [Hr Ht Hd Hte Hzz]. split; cbn; try done. unfold dead. cbn. rewrite Hst. by intros [|].
  - split; try done.
    + exists (λ _, true). by rewrite filter_all.
    + intros x xk [[-> ->]|[[-> ->]|(_ & _ & Hx)]]%Hl; [by exists zk|by exists mk|by exists xk].
    + intros x xk Hx Hrd. destruct (decide (x = z)) as [->|]; [rewrite (live_fun _ _ _ _ Hx Hz) in Hrd; congruence|].
      destruct (decide (x = me)) as [->|]; [rewrite (live_fun _ _ _ _ Hx Hm) in Hrd; congruence|].
      exists xk. split; [apply Hl; auto|done].
    + intros x xk Hx Hxst Hp. destruct (decide (x = z)) as [->|]; [rewrite (live_fun _ _ _ _ Hx Hz) in Hp; congruence|].
      destruct (decide (x = me)) as [->|]; [rewrite (live_fun _ _ _ _ Hx Hm) in Hxst; congruence|].
      exists xk. split; [apply Hl; auto|done].
  - exists me, (set_children (unlink z (t_children mk)) mk). split_and!; [done|apply Hl; auto|done].
Qed.

Lemma task_block_ok e s R k : at_work s R → (current_task s = Some idle → enters e = false) →
  wp (task_block idle k) (λ _ s', at_work s' R ∧ step idle e s s') s.
Proof.
  intros (Hs & (c & ck & Hc & Hck & Hst) & He) Hent. unfold task_block. eapply wp_bind, wp_get. rewrite Hc. case_if.
  - subst. apply wp_ret. split; [by split; [|split; [by exists idle, ck|]]|]. apply step_keep; [auto|apply keeps_refl].
  - eapply wp_bind, wp_upd_task; [apply Hck|]. destruct (wait_ok s R c ck k (t_sleep_until ck)) as [Hs1 Hk1]; [done..|].
    replace (set_sleep (t_sleep_until ck) ck) with ck in Hs1, Hk1 by (by destruct ck). by apply sched_step.
Qed.

Lemma task_waitpid_ok s R pid me mk : at_work s R → current_task s = Some me → live s me mk →
  wp (task_waitpid idle pid) (λ r s', at_work s' R ∧ step idle (EWaitpid pid) s s' ∧ wait_post idle s pid me mk r s') s.
Proof.
  intros Hw Hc Hmk. pose proof Hw as (Hs & (c & ck & Hc' & Hck & Hst) & He).
  assert (c = me) as -> by congruence. assert (ck = mk) as -> by (by eapply live_fun). clear Hck Hc'.
  pose proof (so_tree _ _ _ Hs) as Htree. unfold task_waitpid. eapply wp_bind, wp_get. rewrite Hc.
  eapply wp_bind, wp_get_task; [apply Hmk|]. eapply wp_bind, wp_mono.
  { apply (find_zombie_ok s R); [done|]. intros c (ck & Hck & _)%(to_children _ _ Htree me mk c Hmk). apply Hck. }
  cbn. intros [b z] s' [-> Hr]. cbn in Hr. case_if.
  { apply wp_ret. split; [done|]. split; [by apply step_keep; [|apply keeps_refl]|].
    destruct z as [z|]; [destruct Hr as [? _]; congruence|done]. }
  destruct z as [z|].
  - destruct Hr as (_ & Hin & zk & Hz & Hzst & Hpid). destruct (collected_ok s R z zk me mk) as (Hs1 & Hk1 & Hr1); [done..|].
    assert (t_parent zk = Some me) as Ep.
    { pose proof Hin as Hin'. apply (to_children _ _ Htree me mk z Hmk) in Hin'.
      by apply (has_parent_live s z zk me Hz) in Hin'. }
    eapply wp_bind, wp_get_task; [apply Hz|]. eapply wp_bind, sibling_del_wp; [apply Hz| |apply Hmk| |].
    { pose proof (to_sibling _ _ Htree z zk Hz) as E'. rewrite Ep in E'. destruct (t_sibling zk); congruence. }
    { apply (to_parent _ _ Htree z zk me Hz Ep). }
    eapply wp_bind, wp_upd_task; [cbn; by rewrite lookup_insert_eq|]. apply wp_ret.
    match goal with |- at_work ?s' _ ∧ _ => replace s' with (collected s z me zk mk)
      by (unfold collected, put_tasks; cbn; by rewrite insert_insert_eq) end.
    split; [done|]. split; [by apply step_keep|]. cbn. by exists z, zk.
  - eapply wp_bind, wp_mono; [apply (task_block_ok (EWaitpid pid) s R WAIT_CHILD Hw); done|].
    cbn. intros _ s' [? ?]. apply wp_ret. split; [done|]. split; [done|]. by split.
Qed.

Lemma sched_other s R s' : sched_ok s R → tasks s' = tasks s → task_list s' = task_list s →
  current_task s' = current_task s → tmem s' = tmem s → sched_ok s' R.
Proof. intros Hs ? ? ? Em. eapply sched_ext; try done. rewrite Em. apply (so_own _ _ _ Hs). Qed.

Lemma keeps_same s s' : tasks s' = tasks s → task_list s' = task_list s → current_task s' = current_task s →
  ptrace s' = ptrace s → scheduler_enabled s' = scheduler_enabled s → keeps s s'.
Proof.
  intros Et El Ec Ep Ee. assert (∀ x xk, live s' x xk ↔ live s x xk) as Hl by (intros; unfold live; by rewrite Et, El).
  split; try done.
  - exists (λ _, true). by rewrite filter_all.
  - intros t tk ?%Hl. by exists tk.
  - intros t tk ? ?. exists tk. by rewrite Hl.
  - intros t tk ???. exists tk. by rewrite Hl.
Qed.

Lemma isr_pit_ok s R : at_work s R → wp (isr_pit idle) (λ _ s', at_work s' R ∧ step idle ETick s s') s.
Proof.
  intros (Hs & Hr & He). unfold isr_pit. apply wp_bind, wp_modify. set (s0 := put_time _ _ s).
  assert (sched_ok s0 R) as Hs0 by (by eapply sched_other).
  assert (keeps s s0) as Hk0 by (by apply keeps_same).
  eapply wp_bind, wp_bind, wp_get, wp_mono; [by apply (tick_loop_ok idle R (task_list s0) s0)|].
  cbn. intros _ s1 [Hs1 Hk1]. eapply sched_step; [done|done|by eapply keeps_trans].
Qed.

Lemma task_sleep_ok s R ms : at_work s R → wp (task_sleep idle ms) (λ _ s', at_work s' R ∧ step idle (ESleep ms) s s') s.
Proof.
  intros (Hs & (c & ck & Hc & Hck & Hst) & He). unfold task_sleep. eapply wp_bind, wp_get. rewrite Hc.
  eapply wp_bind, wp_upd_task; [apply Hck|].
  destruct (wait_ok s R c ck WAIT_SLEEP (u32 (pit_ticks s + ms))); [done..|]. by apply sched_step.
Qed.

Lemma task_exit_ok s R : at_work s R → wp (task_exit idle) (λ _ s', at_work s' R ∧ step idle EExit s s') s.
Proof.
  intros (Hs & (c & ck & Hc & Hck & Hst) & He). unfold task_exit. eapply wp_bind, wp_get. rewrite Hc. apply wp_bind. case_if.
  - apply wp_ret, sched_step; [done|done|apply keeps_refl].
  - eapply wp_mono; [by eapply die_ok|]. cbn. intros _ s1 (Hs1 & Hk1 & _). by apply sched_step.
Qed.

Lemma exec_ok s R e : at_work s R → wp (exec idle e) (λ _ s', at_work s' R ∧ step idle e s s') s.
Proof.
  intros Hw. pose proof Hw as (Hs & Hr & He). destruct e as [| |ms|k| |pid|k|r]; cbn [exec].
  - by apply isr_pit_ok.
  - apply sched_step; [done|done|apply keeps_refl].
  - by apply task_sleep_ok.
  - by apply task_block_ok.
  - by apply task_exit_ok.
  - destruct (so_current _ _ _ Hs) as (c & Hc & Hin). destruct (so_live _ _ _ _ Hs Hin) as [ck Hck].
    eapply wp_bind, wp_mono; [by apply task_waitpid_ok|]. cbn. intros r s' (? & ? & _). by apply wp_ret.
  - eapply wp_bind, wp_bind, wp_get, wp_mono; [by apply (wake_loop_ok idle k R)|]. cbn. intros _ s' (? & Hk & Hr').
    apply wp_ret. split; [|by apply step_keep]. split_and!; [done|auto|]. by rewrite (ks_enabled _ _ Hk).
  - apply wp_modify. split; [|by eapply step_run]. split_and!; [by eapply sched_other| |done].
    destruct Hr as (c & ck & ? & ? & ?). by exists c, ck.
Qed.

Lemma exec_Done s R e s' : at_work s R → exec idle e s = Done (tt, s') → at_work s' R ∧ step idle e s s'.
Proof. intros Hw E. pose proof (exec_ok s R e Hw) as Hwp. unfold wp in Hwp. by rewrite E in Hwp. Qed.

(** ** Contexts *)

Lemma core_regs s s' t tk tk' : keeps s s' → live s t tk → live s' t tk' → t_regs tk' = t_regs tk.
Proof.
  intros Hk Ht Ht'. destruct (ks_core _ _ Hk t tk' Ht') as (tk2 & Ht2 & (_ & E & _)).
  by rewrite E, (live_fun _ _ _ _ Ht2 Ht).
Qed.

Lemma step_list e s s' t : step idle e s s' → t ∈ task_list s' → t ∈ task_list s.
Proof.
  intros [_ Hk|r _ ->|s1 R1 Hk _ (s2 & c & ck & R2 & Hs2 & Hp & _ & _ & _ & _ & El & _)] Hin; [by eapply keeps_in|done|].
  rewrite El in Hin. eapply keeps_in, keeps_in, Hin; [done|apply Hp].
Qed.

(** The context of a task that is not current before and after an event. *)
Lemma step_context e s s' t tk tk' : step idle e s s' → current_task s ≠ Some t → live s t tk → live s' t tk' →
  t_regs tk' = t_regs tk ∧ (current_task s' = Some t → copy_regs (ptrace s') zero_regs = copy_regs (t_regs tk) zero_regs).
Proof.
  intros [_ Hk|r _ ->|s1 R1 Hk _ (s2 & c & ck & R2 & Hs2 & Hp & _ & Hc & Hck & Hd & El & _)] Hnc Ht Ht'.
  - split; [by eapply core_regs|]. by rewrite (ks_current _ _ Hk).
  - by rewrite (live_fun _ _ _ _ Ht Ht').
  - assert (keeps s s2) as Hk2 by (eapply keeps_trans, pr_keeps; done).
    assert (c ≠ t) as Hct by (rewrite (ks_current _ _ Hk2) in Hc; congruence).
    assert (∀ tk2, live s2 t tk2 → t_regs tk2 = t_regs tk) as Hregs by (intros; by eapply core_regs).
    assert (tasks s' !! t = tasks s2 !! t → t_regs tk' = t_regs tk) as Hsame.
    { destruct Ht' as [Hin E]. intros E2. apply Hregs. split; [by rewrite <- El|congruence]. }
    destruct Hd as [ck' Ec _ Hoth|u uk ck' Ec Huc Hu _ Ep Hoth Hu' _ _ _ _].
    + split; [by apply Hsame, Hoth|congruence].
    + destruct (decide (t = u)) as [->|Htu]; [|split; [by apply Hsame, Hoth|congruence]].
      rewrite (live_fun _ _ _ _ Ht' Hu'). cbn. split; [by apply Hregs|]. intros _. by rewrite Ep, Hregs.
Qed.

(** The context of the current task when another one gets the processor. *)
Lemma step_saved e s s' c ck' : step idle e s s' → current_task s = Some c → current_task s' ≠ Some c → live s' c ck' →
  copy_regs (t_regs ck') zero_regs = copy_regs (ptrace s) zero_regs.
Proof.
  intros [_ Hk|r _ ->|s1 R1 Hk _ (s2 & c2 & ck & R2 & Hs2 & Hp & _ & Hc & Hck & Hd & El & _)] Hcur Hnc Hck'.
  - by rewrite (ks_current _ _ Hk) in Hnc.
  - done.
  - assert (keeps s s2) as Hk2 by (eapply keeps_trans, pr_keeps; done).
    assert (c2 = c) as -> by (rewrite (ks_current _ _ Hk2) in Hc; congruence).
    destruct Hd as [ck2 Ec|u uk ck2 Ec Huc Hu _ Ep Hoth Hu' Hck2 Er _ _]; [congruence|].
    rewrite (live_fun _ _ _ _ Hck' Hck2), Er. by rewrite <- (ks_ptrace _ _ Hk2).
Qed.

(** ** Zombies *)

Lemma scheduled_zombie s s' R t tk p : sched_ok s R → scheduled idle s s' → live s t tk → t_state tk = TASK_STATE_ZOMBIE →
  t_parent tk = Some p → current_task s ≠ Some p → ∃ tk', live s' t tk' ∧ corpse tk tk'.
Proof.
  intros Hs (s2 & c & ck & R2 & Hs2 & Hp & _ & Hc & Hck & Hd & El & _) Ht Hst Ep Hcur.
  assert (t ≠ idle) as Hti.
  { intros ->. destruct (so_task _ _ _ Hs idle tk Ht) as [_ _ Hdd _ _]. by destruct (Hdd (or_intror Hst)). }
  destruct (ks_zombie _ _ (pr_keeps _ _ Hp) t tk Ht Hst) as (tk2 & Ht2 & Hz2); [congruence|].
  assert (∀ tk', live s' t tk' → corpse tk2 tk' → ∃ tk', live s' t tk' ∧ corpse tk tk') as Hend.
  { intros tk' Hl (? & ? & ? & ?). exists tk'. split; [done|]. destruct Hz2 as (? & ? & ? & ?). split_and!; congruence. }
  assert (tasks s' !! t = tasks s2 !! t → ∃ tk', live s' t tk' ∧ corpse tk tk') as Hsame.
  { intros E. apply (Hend tk2); [|by destruct Hz2]. split; [rewrite El; apply Ht2|rewrite E; apply Ht2]. }
  destruct Hz2 as (Hst2 & _). destruct Hd as [ck2 _ _ Hoth _ _ Hrun _|u uk ck2 _ Huc Hu Hch _ Hoth Hu' Hck2 _ _ Hcz].
  - apply Hsame, Hoth. intros ->. rewrite (live_fun _ _ _ _ Ht2 Hck) in Hst2. destruct Hrun; congruence.
  - destruct (decide (t = c)) as [->|]; [apply (Hend ck2 Hck2); rewrite (live_fun _ _ _ _ Ht2 Hck) in *; auto|].
    apply Hsame, Hoth; [done|]. intros ->.
    destruct Hch as [(_ & _ & _ & (tk3 & Ht3 & Hr3 & _) & _)|[? _]]; [|done].
    rewrite (live_fun _ _ _ _ Ht3 Ht2) in Hr3. congruence.
Qed.

Lemma step_zombie e s s' R t tk p : at_work s R → step idle e s s' → live s t tk → t_state tk = TASK_STATE_ZOMBIE →
  t_parent tk = Some p → current_task s ≠ Some p → ∃ tk', live s' t tk' ∧ corpse tk tk'.
Proof.
  intros (Hs & _ & _) [_ Hk|r _ ->|s1 R1 Hk Hs1 Hsc] Ht Hst Ep Hcur.
  - apply (ks_zombie _ _ Hk t tk Ht Hst). congruence.
  - by exists tk.
  - destruct (ks_zombie _ _ Hk t tk Ht Hst) as (tk1 & Ht1 & Hst1 & Ep1 & Epid & Ecode); [congruence|].
    destruct (scheduled_zombie s1 s' R1 t tk1 p) as (tk2 & ? & ? & ? & ? & ?); try done; [congruence| |].
    { by rewrite (ks_current _ _ Hk). }
    exists tk2. split; [done|]. split_and!; congruence.
Qed.

(** A task that exits is a zombie when it has a parent. *)
Lemma task_exit_zombie s R s' c ck p : at_work s R → current_task s = Some c → c ≠ idle → live s c ck →
  t_parent ck = Some p → p ≠ idle → p ≠ c → exec idle EExit s = Done (tt, s') →
  at_work s' R ∧ ∃ ck', live s' c ck' ∧ corpse (set_state TASK_STATE_ZOMBIE ck) ck'.
Proof.
  intros Hw Hc Hci Hck Ep Hpi Hpc E. split; [by eapply exec_Done|].
  destruct Hw as (Hs & (c2 & ck2 & Hc2 & Hck2 & Hst) & He).
  assert (c2 = c) as -> by congruence. assert (ck2 = ck) as -> by (by eapply live_fun).
  assert (wp (exec idle EExit) (λ _ s', ∃ ck', live s' c ck' ∧ corpse (set_state TASK_STATE_ZOMBIE ck) ck') s) as Hwp.
  { cbn [exec]. unfold task_exit. eapply wp_bind, wp_get. rewrite Hc. apply wp_bind.
    rewrite (proj2 (Z.eqb_neq _ _) Hci). eapply wp_mono; [by eapply die_ok|]. cbn. intros _ s1 (Hs1 & Hk1 & Hz).
    rewrite decide_False in Hz by (rewrite Ep; naive_solver).
    eapply wp_mono; [apply (scheduler_ok idle s1 R Hs1); by rewrite (ks_enabled _ _ Hk1)|].
    cbn. intros _ s2 (_ & _ & Hsc). destruct (scheduled_zombie s1 s2 R c _ p Hs1 Hsc Hz) as (ck' & ? & ?); try done.
    { rewrite (ks_current _ _ Hk1). congruence. }
    by exists ck'. }
  unfold wp in Hwp. by rewrite E in Hwp.
Qed.

Lemma until_zombie R c p es s s' ck : until idle p es s s' → at_work s R → live s c ck →
  t_state ck = TASK_STATE_ZOMBIE → t_parent ck = Some p →
  at_work s' R ∧ current_task s' = Some p ∧ ∃ ck', live s' c ck' ∧ corpse ck ck'.
Proof.
  intros Hu. revert ck. induction Hu as [s Hc|e es s s1 s2 Hc E Hu IH]; intros ck Hw Hck Hst Ep.
  { split; [done|]. split; [done|]. by exists ck. }
  destruct (exec_Done s R e s1 Hw E) as [Hw1 Hstep].
  destruct (step_zombie e s s1 R c ck p) as (ck1 & Hck1 & Hst1 & Ep1 & Epid1 & Ec1); [done..|].
  destruct (IH ck1) as (? & ? & ck2 & ? & ? & ? & ? & ?); [done|done|done|congruence|].
  split; [done|]. split; [done|]. exists ck2. split; [done|]. split_and!; congruence.
Qed.

(** ** Waiting for the processor *)

Lemma order_filter s s' (f : Z → bool) c : NoDup (task_list s) →
  task_list s' = filter (λ t, f t = true) (task_list s) → c ∈ task_list s' →
  order s' c = filter (λ t, f t = true) (order s c).
Proof.
  intros Hn El Hc. assert (c ∈ task_list s) as (a & b & E)%list_elem_of_split.
  { rewrite El in Hc. by apply list_elem_of_filter in Hc as [_ ?]. }
  assert (f c = true) as Hfc by (rewrite El in Hc; by apply list_elem_of_filter in Hc as [? _]).
  rewrite (order_split s c a b) by done. rewrite E, filter_app, filter_cons_True in El by done.
  rewrite (order_split s' c _ _ ltac:(rewrite El, <- filter_cons_True, <- filter_app, <- E by done; by apply NoDup_filter) El).
  by rewrite filter_app.
Qed.

Lemma order_rotate s s' c u p1 p2 : NoDup (task_list s) → task_list s' = task_list s → c ∈ task_list s →
  order s c = p1 ++ u :: p2 → order s' u = p2 ++ c :: p1.
Proof.
  intros Hn El (a & b & E)%list_elem_of_split. rewrite (order_split s c a b) by done. intros Eo.
  assert (∀ x y, task_list s = x ++ u :: y → order s' u = y ++ x) as Hs'.
  { intros x y Ex. apply (order_split s'); congruence. }
  apply app_eq_inv in Eo as [(k & -> & Ek)|(k & -> & ->)].
  - destruct k as [|v k]; cbn in Ek.
    + subst a. rewrite app_nil_r in E. rewrite (Hs' [] (p2 ++ c :: p1)) by done. by rewrite app_nil_r.
    + injection Ek as <- ->. rewrite (Hs' (a ++ c :: p1) k) by (by rewrite E, <- app_assoc). by rewrite <- app_assoc.
  - rewrite (Hs' k (p2 ++ c :: b)) by (by rewrite E, <- app_assoc). by rewrite <- app_assoc.
Qed.

Lemma waits_keeps s s' R R' t d : sched_ok s R → sched_ok s' R' → keeps s s' → waits idle s t d → waits idle s' t d.
Proof.
  intros Hs Hs' Hk (c & ck & o1 & o2 & Hc & Hck & Eo & (tk & Ht & Hst & Hti) & Hd).
  destruct (ks_list _ _ Hk) as [f Hf]. pose proof (ks_current _ _ Hk) as Ec.
  destruct (so_current _ _ _ Hs') as (c' & Hc' & Hin). assert (c' = c) as -> by congruence.
  destruct (so_live _ _ _ _ Hs' Hin) as [ck' Hck']. destruct (ks_core _ _ Hk c ck' Hck') as (ck2 & Hck2 & (_ & _ & Eti & _)).
  rewrite (live_fun _ _ _ _ Hck2 Hck) in Eti.
  destruct (ks_ready _ _ Hk t tk Ht Hst) as (tk' & Ht' & Hst').
  assert (f t = true) as Hft by (destruct Ht' as [Hin' _]; rewrite Hf in Hin'; by apply list_elem_of_filter in Hin' as [? _]).
  pose proof (order_filter s s' f c (so_nodup _ _ _ Hs) Hf Hin) as Eo'. rewrite Eo, filter_app, filter_cons_True in Eo' by done.
  exists c, ck', (filter (λ t, f t = true) o1), (filter (λ t, f t = true) o2). split_and!; [done|done|done|by exists tk'|].
  rewrite Eti. pose proof (length_filter (λ t, f t = true) o1). unfold TASK_TIMESLICE in *. lia.
Qed.

Lemma waits_scheduled s s' R t d : sched_ok s R → scheduled idle s s' → waits idle s t d →
  current_task s' = Some t ∨ waits idle s' t (d - 1).
Proof.
  intros Hs (s2 & c & ck & R2 & Hs2 & Hp & _ & Hc & Hck & Hd & El & _) Hw.
  assert (waits idle s2 t d) as (c2 & ck2 & o1 & o2 & Hc2 & Hck2 & Eo & Hrun & Hle) by (exact (waits_keeps s s2 R R2 t d Hs Hs2 (pr_keeps _ _ Hp) Hw)).
  assert (c2 = c) as -> by congruence. assert (ck2 = ck) as -> by (by eapply live_fun). clear Hck2 Hc2.
  assert (t ∈ order s2 c) as Hto by (rewrite Eo; set_solver).
  assert (t ≠ c) as Htc by (by apply (order_elem idle s2 R2 c t Hs2 (proj1 Hck)) in Hto as [? _]).
  pose proof (tk_ticks _ _ _ _ (so_task _ _ _ Hs2 c ck Hck)) as Htk.
  assert (∀ x, x ≠ t → (∀ y, y ≠ c → y ≠ x → tasks s' !! y = tasks s2 !! y) → runnable s' t) as Hrun'.
  { intros x Hx Hoth. destruct Hrun as (tk & [Hin Ht] & ? & ?). exists tk. split_and!; [|done|done].
    split; [by rewrite El|]. by rewrite Hoth. }
  destruct Hd as [ck' Ec' _ Hoth Hck' _ _ Hch|u uk ck' Ec' Huc Hu Hch _ Hoth Hu' _ _ _ _].
  - destruct Hch as [(_ & ? & Eti)|Hno]; [|by destruct (Hno t Hto)].
    right. exists c, ck', o1, o2. split_and!; [done|done| |apply (Hrun' c); auto|lia].
    unfold order in *. by rewrite El.
  - destruct (decide (u = t)) as [->|Hut]; [by left|right].
    destruct Hch as [(p1 & p2 & Eo2 & _ & Hp1)|[-> Hno]]; [|by destruct (Hno t Hto)].
    rewrite Eo in Eo2. assert (∃ q, o1 = p1 ++ u :: q ∧ p2 = q ++ t :: o2) as (q & -> & ->).
    { apply app_eq_inv in Eo2 as [(k & -> & Ek)|(k & -> & Ek)].
      - destruct k as [|v k]; cbn in Ek; injection Ek as <-; [congruence|]. exists k. split; [done|congruence].
      - destruct k as [|v k]; cbn in Ek; injection Ek as <-; [congruence|]. destruct (Hp1 t); [set_solver|done]. }
    assert (order s' u = (q ++ t :: o2) ++ c :: p1) as Eo'.
    { eapply (order_rotate s2); [apply (so_nodup _ _ _ Hs2)|done|apply Hck|congruence]. }
    rewrite <- app_assoc in Eo'. eexists u, _, q, _. split_and!; [done|exact Hu'|exact Eo'|by apply (Hrun' u)|].
    cbn [set_ticks t_ticks]. rewrite length_app in Hle. cbn in Hle. unfold TASK_TIMESLICE in *. lia.
Qed.

Lemma step_waits e s s' R t d : at_work s R → at_work s' R → step idle e s s' → waits idle s t d →
  current_task s' = Some t ∨ waits idle s' t (if enters e then d - 1 else d).
Proof.
  intros (Hs & _) (Hs' & _) [Hent Hk|r -> ->|s1 R1 Hk Hs1 Hsc] Hw.
  - right. rewrite Hent. by apply (waits_keeps s s' R R).
  - right. destruct Hw as (c & ck & o1 & o2 & ? & ? & ? & (tk & ? & ?) & ?).
    exists c, ck, o1, o2. split_and!; try done. by exists tk.
  - pose proof (waits_keeps s s1 R R1 t d Hs Hs1 Hk Hw) as Hw1.
    destruct (waits_scheduled s1 s' R1 t d Hs1 Hsc Hw1) as [?|Hw2]; [by left|right].
    destruct (enters e); [done|]. destruct Hw2 as (c & ck & o1 & o2 & ? & ? & ? & ? & ?).
    exists c, ck, o1, o2. split_and!; try done. lia.
Qed.

Lemma until_context R c es s s' : until idle c es s s' → at_work s R → current_task s ≠ Some c →
  at_work s' R ∧ ∃ ck' ck, live s' c ck' ∧ live s c ck ∧
    copy_regs (ptrace s') zero_regs = copy_regs (t_regs ck) zero_regs.
Proof.
  induction 1 as [s Hc|e es s s1 s2 Hc E Hu IH]; intros Hw Hnc; [done|].
  destruct (exec_Done s R e s1 Hw E) as [Hw1 Hst]. pose proof Hw as [Hs _]. pose proof Hw1 as [Hs1 _].
  assert (∀ ck1, live s1 c ck1 → ∃ ck0, live s c ck0) as Hback.
  { intros ck1 [Hin _]. eapply so_live; [done|]. by eapply step_list. }
  destruct (decide (current_task s1 = Some c)) as [Hc1|Hc1].
  - destruct Hu as [s1 _|]; [|done]. split; [done|].
    destruct (so_current _ _ _ Hs1) as (c' & Hc' & Hin). assert (c' = c) as -> by congruence.
    destruct (so_live _ _ _ _ Hs1 Hin) as [ck Hck]. destruct (Hback ck Hck) as [ck0 Hck0]. exists ck, ck0.
    split; [done|]. split; [done|]. by apply (step_context e s s1 c ck0 ck).
  - destruct (IH Hw1 Hc1) as (Hw2 & ck' & ck1 & Hck' & Hck1 & ->). destruct (Hback ck1 Hck1) as [ck0 Hck0].
    split; [done|]. exists ck', ck0. split; [done|]. split; [done|].
    by destruct (step_context e s s1 c ck0 ck1) as [-> _].
Qed.

Lemma waits_start s R t tk : at_work s R → live s t tk → t_state tk = TASK_STATE_READY → t ≠ idle →
  current_task s = Some t ∨ waits idle s t (TASK_TIMESLICE * (Z.of_nat (length (task_list s)) - 1)).
Proof.
  intros (Hs & (c & ck & Hc & Hck & Hcst) & _) Ht Hst Hti. right.
  assert (t ≠ c) as Htc by (intros ->; rewrite (live_fun _ _ _ _ Ht Hck) in Hst; congruence).
  pose proof (tk_ticks _ _ _ _ (so_task _ _ _ Hs c ck Hck)) as Htk.
  assert (t ∈ order s c) as Ho by (apply (order_elem idle s R c t Hs (proj1 Hck)); split; [done|apply Ht]).
  apply list_elem_of_split in Ho as (o1 & o2 & Eo). exists c, ck, o1, o2. split_and!; [done..|by exists tk|].
  assert (S (length (order s c)) = length (task_list s)) as El.
  { pose proof (proj1 Hck) as Hin. apply list_elem_of_split in Hin as (a & b & E).
    rewrite (order_split s c a b (so_nodup _ _ _ Hs) E), E, !length_app. cbn. lia. }
  rewrite <- El, Eo, length_app. cbn [length]. unfold TASK_TIMESLICE in *. lia.
Qed.

Lemma waits_runs R t es : ∀ s d, at_work s R → waits idle s t d → d <= entries es →
  ∃ es1 es2 s', es = es1 ++ es2 ∧ runs idle es1 s = Done (tt, s') ∧ current_task s' = Some t.
Proof.
  induction es as [|e es IH]; intros s d Hw Hd Hn.
  { destruct Hd as (c & ck & o1 & o2 & _ & _ & _ & _ & Hle). unfold entries, TASK_TIMESLICE in *. cbn in Hn. lia. }
  destruct (wp_elim _ _ _ (exec_ok s R e Hw)) as ([] & s1 & E & Hw1 & Hst).
  destruct (step_waits e s s1 R t d Hw Hw1 Hst Hd) as [Hc|Hd1].
  - exists [e], es, s1. split; [done|]. split; [|done]. cbn [runs]. unfold mbind, st_bind. by rewrite E.
  - destruct (IH s1 _ Hw1 Hd1) as (es1 & es2 & s' & -> & E' & ?).
    { unfold entries in *. destruct (enters e) eqn:Ee.
      - rewrite filter_cons_True in Hn by done. cbn [length] in Hn. lia.
      - rewrite filter_cons_False in Hn by congruence. lia. }
    exists (e :: es1), es2, s'. split; [done|]. split; [|done]. cbn [runs]. unfold mbind, st_bind. by rewrite E.
Qed.
End lemmas.

(** ** Theorems *)

Section theorems.
Context {M : Type} `{TaskMemLaws M}.
Variable idle : Z.

(** C13: no sequence of events stops or faults; after every one of them the run list, the
    process tree and the memory of the tasks are well formed (each task in the list owns its kernel stack,
    page tables and structure exactly once, parents and lists of children agree), and the only running
    task beside idle is the current one. *)
Theorem sched_invariant (s : sys M) R es :
  at_work idle s R → ∃ s', runs idle es s = Done (tt, s') ∧ at_work idle s' R.
Proof.
  revert s. induction es as [|e es IH]; intros s Hw; [by exists s|].
  destruct (wp_elim _ _ _ (exec_ok idle s R e Hw)) as ([] & s1 & E & Hw1 & _).
  destruct (IH s1 Hw1) as (s' & E' & ?). exists s'. split; [|done]. cbn [runs]. unfold mbind, st_bind. by rewrite E.
Qed.


(** C14: a task that is ready becomes the current one before the scheduler has been entered
    five times for every task of the run list (a quantum is five ticks), whatever the other tasks do:
    run, sleep, block, exit, wait or wake others. *)
Theorem ready_task_runs (s : sys M) R t tk es :
  at_work idle s R → live s t tk → t_state tk = TASK_STATE_READY → t ≠ idle →
  TASK_TIMESLICE * Z.of_nat (length (task_list s)) <= entries es →
  ∃ es1 es2 s', es = es1 ++ es2 ∧ runs idle es1 s = Done (tt, s') ∧ current_task s' = Some t.
Proof.
  intros Hw Ht Hst Hti Hn. destruct (waits_start idle s R t tk Hw Ht Hst Hti) as [Hc|Hd].
  { by exists [], es, s. }
  eapply waits_runs; [done|exact Hd|]. unfold TASK_TIMESLICE in *. lia.
Qed.

(** C16: the exit code of a task reaches its parent: when a task with a parent other than idle
    exits, then whatever happens until the parent runs again, the parent's task_waitpid for that pid returns
    the pid and the exit code, and the task is left to the reaper. *)
Theorem exit_code_collected (s s1 s2 : sys M) R c ck p es :
  at_work idle s R → current_task s = Some c → c ≠ idle → live s c ck → t_parent ck = Some p → p ≠ idle →
  exec idle EExit s = Done (tt, s1) → until idle p es s1 s2 →
  0 < i32 (t_pid ck) → (∀ z zk, live s2 z zk → t_parent zk = Some p → i32 (t_pid zk) = i32 (t_pid ck) → z = c) →
  ∃ s3, task_waitpid idle (i32 (t_pid ck)) s2 = Done (Waited (i32 (t_pid ck)) (Some (t_exit_code ck)), s3) ∧
    at_work idle s3 R ∧ ∃ ck', live s3 c ck' ∧ t_state ck' = TASK_STATE_TERMINATED ∧ t_parent ck' = None.
Proof.
  intros Hw Hc Hci Hck Ep Hpi E Hu Hpid Huniq. pose proof Hw as [Hs _].
  destruct (to_parent _ _ (so_tree _ _ _ Hs) c ck p Hck Ep) as [Hpc _].
  destruct (task_exit_zombie idle s R s1 c ck p) as (Hw1 & ck1 & Hck1 & Hst1 & Ep1 & Epid1 & Ec1); [done..|].
  destruct (until_zombie idle R c p es s1 s2 ck1) as (Hw2 & Hc2 & ck2 & Hck2 & Hst2 & Ep2 & Epid2 & Ec2); [done..|cbn in *; congruence|].
  cbn in Ep1, Epid1, Ec1. pose proof Hw2 as [Hs2 _]. destruct (so_current _ _ _ Hs2) as (p' & Hp' & Hin).
  assert (p' = p) as -> by congruence. destruct (so_live _ _ _ _ Hs2 Hin) as [pk Hpk].
  assert (c ∈ t_children pk) as Hch by (apply (to_children _ _ (so_tree _ _ _ Hs2) p pk c Hpk); exists ck2; split; [done|congruence]).
  assert (¬ no_zombie s2 (i32 (t_pid ck)) (t_children pk)) as Hnz.
  { intros Hno. destruct (Hno c ck2 Hch Hck2 Hst2) as [_ []]. congruence. }
  destruct (wp_elim _ _ _ (task_waitpid_ok idle s2 R (i32 (t_pid ck)) p pk Hw2 Hc2 Hpk)) as (r & s3 & E3 & Hw3 & _ & Hpost).
  destruct r as [n [code|]|]; cbn in Hpost; [|by destruct Hpost as (_ & _ & ?)|by destruct Hpost].
  destruct Hpost as (z & zk & Hz & Hzk & Hzst & Hzpid & -> & -> & ->).
  assert (z = c) as ->.
  { apply (Huniq z zk Hzk); [|by apply Hzpid]. apply (to_children _ _ (so_tree _ _ _ Hs2) p pk z Hpk) in Hz as (zk2 & Hzk2 & ?).
    by rewrite (live_fun _ _ _ _ Hzk Hzk2). }
  assert (zk = ck2) as -> by (by eapply live_fun).
  exists (collected s2 c p ck2 pk). split; [rewrite E3; do 3 f_equal; [congruence|f_equal; congruence]|]. split; [done|].
  exists (set_state TASK_STATE_TERMINATED (set_parent None (set_sibling SNull ck2))). split; [|done].
  split; [apply Hck2|]. unfold collected. cbn. by rewrite lookup_insert_eq.
Qed.
End theorems.
