(* ===== verification/SchedDemo.v ===== *)
(** * A concrete system of tasks

    An implementation of [task_mem] by a ledger, and a system with the task
    [taskA], its parent [taskB] and idle: the theorems on the scheduler are
    applied to it. *)

From S2P Require Import Prelude Helpers Ktime Task SchedOk SchedRun SchedLive.

Local Open Scope Z_scope.

#[global] Instance res_eq_dec : EqDecision res.
Proof. solve_decision. Defined.

Definition res_addr (r : res) : Z := match r with RStruct t => t | RStack v => v | RTree v => v end.

(** An address above all those that are in use. *)
Definition ledger_next (m : list res) : Z := foldr Z.max 0 (res_addr <$> m) + 1.

Definition ledger_free (r : res) : st (list res) unit := λ m,
  if decide (r ∈ m) then Done (tt, filter (λ x, x ≠ r) m) else Stop Fault.

#[global] Instance ledger : task_mem (list res) := {
  tm_zalloc := λ m, Done (Some (ledger_next m), RStruct (ledger_next m) :: m);
  tm_pgtable_create := λ m, Done (ledger_next m, RTree (ledger_next m) :: m);
  tm_buddy_alloc := λ o m, if ledger_next m <? 2 ^ 64 - KSTACK_PAGES * PAGE_SIZE
    then Done (ledger_next m, RStack (ledger_next m) :: m) else Done (0, m);
  tm_memset := λ p n m, if p =? 0 then Stop Fault else Done (tt, m);
  tm_vmm_alloc := λ pml4 va fl m, Done (PAGE_SIZE, m);
  tm_switch_pml4 := λ v m, if decide (RTree v ∈ m) then Done (tt, m) else Stop Fault;
  tm_buddy_free := λ v o, ledger_free (RStack v);
  tm_free_tree := λ v, ledger_free (RTree v);
  tm_kfree := λ t, ledger_free (RStruct t);
  tm_own := λ m R, NoDup m ∧ m ≡ₚ R
}.

Lemma ledger_next_fresh m r : r ∈ m → res_addr r < ledger_next m.
Proof.
  unfold ledger_next. induction m as [|x m IH]; intros Hr; [inversion Hr|]. cbn.
  apply elem_of_cons in Hr as [->|Hr]; [lia|]. specialize (IH Hr). lia.
Qed.

Lemma ledger_next_pos m : 0 < ledger_next m.
Proof. unfold ledger_next. induction m as [|x m IH]; cbn in *; lia. Qed.

Lemma ledger_add m R r : NoDup m ∧ m ≡ₚ R → res_addr r = ledger_next m → NoDup (r :: m) ∧ r :: m ≡ₚ r :: R.
Proof.
  intros [Hn Hp] Hr. split; [|by constructor]. apply NoDup_cons. split; [|done]. intros Hin%ledger_next_fresh. lia.
Qed.

Lemma ledger_free_ok m R r : NoDup m ∧ m ≡ₚ r :: R → ∃ m', ledger_free r m = Done (tt, m') ∧ NoDup m' ∧ m' ≡ₚ R.
Proof.
  intros [Hn Hp]. unfold ledger_free. rewrite decide_True by (rewrite Hp; left). eexists. split; [done|].
  split; [by apply NoDup_filter|]. rewrite Hp in Hn. apply NoDup_cons in Hn as [Hr Hn]. rewrite Hp.
  rewrite filter_cons_False by naive_solver. clear Hp Hn. induction R as [|x R IH]; [done|].
  apply not_elem_of_cons in Hr as [? ?]. rewrite filter_cons_True by done. constructor. by apply IH.
Qed.

#[global] Instance ledger_laws : TaskMemLaws (list res).
Proof.
  split; cbn.
  - intros m R R' Hp [? ?]. split; [done|]. by etrans.
  - intros m R [? Hp]. by rewrite <- Hp.
  - intros m R t m' Ho [= <- <-]. by apply ledger_add.
  - intros m R v m' Ho [= <- <-]. pose proof (ledger_next_pos m). split; [lia|]. by apply ledger_add.
  - intros m R v m' Ho. case_if; intros [= <- <-]; [right|by left]. pose proof (ledger_next_pos m).
    split; [done|]. by apply ledger_add.
  - done.
  - intros m R p n m' Ho. case_if; [done|]. by intros [= <-].
  - intros m R pml4 va fl v m' Ho. by intros [= <- <-].
  - intros m R v [? Hp] Hin. rewrite <- Hp in Hin. rewrite decide_True by done. by exists m.
  - intros m R v. apply ledger_free_ok.
  - intros m R v. apply ledger_free_ok.
  - intros m R v. apply ledger_free_ok.
Qed.

(** ** The system *)

Definition demo_idle : Z := 1000.
Definition taskA : Z := 2000.
Definition taskB : Z := 3000.

Definition demo_task (pid : Z) (st : task_state) (kstack pml4 : Z) (parent : option Z) (children : list Z)
    (sibling : slink) : task :=
  Task [] pid 7 st WAIT_NONE true true (CpuState pid 0 0 0 0 0 0 0 0 0 0 0 0 0 0 0 0 pid 0x1B 0x202 0 0x23) pml4 kstack
    parent children sibling 1 TASK_TIMESLICE 0 (replicate TASK_MAX_FDS None) [47].

Definition demo_tasks : gmap Z task :=
  <[taskA := demo_task 3 TASK_STATE_RUNNING 0x24000 0x30000 (Some taskB) [] (SIn taskB)]>
  (<[taskB := demo_task 2 TASK_STATE_READY 0x34000 0x40000 None [taskA] SSelf]>
  {[demo_idle := set_heap false (demo_task 1 TASK_STATE_RUNNING 0x44000 0x50000 None [] SSelf)]}).

Definition demo_others : list res := [RStruct demo_idle].

Definition demo_ts : time_spec := TimeSpec 0 0.

Definition demo_sys : sys (list res) :=
  Sys demo_tasks [taskA; taskB; demo_idle] (Some taskA) (CpuState 42 0 0 0 0 0 0 0 0 0 0 0 0 0 0 32 0 77 0x1B 0x202 0 0x23)
    3 100 (Clocks demo_ts demo_ts demo_ts demo_ts) true 0x24000
    (demo_others ++ owned demo_tasks [taskA; taskB; demo_idle]).

Lemma demo_live t tk : live demo_sys t tk →
  (t = taskA ∧ tk = demo_task 3 TASK_STATE_RUNNING 0x24000 0x30000 (Some taskB) [] (SIn taskB)) ∨
  (t = taskB ∧ tk = demo_task 2 TASK_STATE_READY 0x34000 0x40000 None [taskA] SSelf) ∨
  (t = demo_idle ∧ tk = set_heap false (demo_task 1 TASK_STATE_RUNNING 0x44000 0x50000 None [] SSelf)).
Proof.
  intros [Hin Ht]. cbn in Hin, Ht. rewrite !elem_of_cons in Hin. destruct Hin as [->|[->|[->|Hin]]].
  - left. split; [done|]. vm_compute in Ht. by injection Ht as <-.
  - right; left. split; [done|]. vm_compute in Ht. by injection Ht as <-.
  - right; right. split; [done|]. vm_compute in Ht. by injection Ht as <-.
  - inversion Hin.
Qed.

Lemma demo_at_work : at_work demo_idle demo_sys demo_others.
Proof.
  assert (live demo_sys taskA (demo_task 3 TASK_STATE_RUNNING 0x24000 0x30000 (Some taskB) [] (SIn taskB))) as HA.
  { split; [left|by vm_compute]. }
  split; [|split; [by exists taskA, (demo_task 3 TASK_STATE_RUNNING 0x24000 0x30000 (Some taskB) [] (SIn taskB))|done]].
  split.
  - apply (bool_decide_unpack _). by vm_compute.
  - apply (bool_decide_unpack _). by vm_compute.
  - exists taskA. split; [done|left].
  - intros t Ht. cbn in Ht. rewrite !elem_of_cons in Ht. destruct Ht as [->|[->|[->|Ht]]]; [..|inversion Ht].
    all: apply (bool_decide_unpack _); by vm_compute.
  - intros t tk [[-> ->]|[[-> ->]|[-> ->]]]%demo_live; split; cbn; try done; try lia; unfold dead; cbn; auto; by intros [|].
  - split.
    + intros p pk [[-> ->]|[[-> ->]|[-> ->]]]%demo_live; cbn; [constructor|apply NoDup_singleton|constructor].
    + intros p pk c Hp. split.
      * intros Hc. apply demo_live in Hp as [[-> ->]|[[-> ->]|[-> ->]]]; cbn in Hc; [inversion Hc| |inversion Hc].
        apply list_elem_of_singleton in Hc as ->. eexists. by split.
      * intros (ck & Hc & Ep). apply demo_live in Hc as [[-> ->]|[[-> ->]|[-> ->]]]; cbn in Ep; [|done..].
        injection Ep as <-. apply demo_live in Hp as [[E _]|[[_ ->]|[E _]]]; [done|cbn; by left|done].
    + intros c ck p [[-> ->]|[[-> ->]|[-> ->]]]%demo_live; cbn; [|done..]. intros [= <-]. split; [done|right; left].
    + intros c ck [[-> ->]|[[-> ->]|[-> ->]]]%demo_live; done.
    + intros ik [[E ->]|[[E ->]|[_ ->]]]%demo_live; done.
  - split; [|done]. apply (bool_decide_unpack _). by vm_compute.
Qed.

Definition run_demo (es : list event) (s : sys (list res)) : sys (list res) :=
  match runs demo_idle es s with Done (_, s') => s' | Stop _ => s end.

(** ** The theorems on this system *)

Lemma sched_invariant_witness : ∃ s', runs demo_idle [ETick; EYield; ESleep 3; ETick; EExit] demo_sys = Done (tt, s') ∧
  at_work demo_idle s' demo_others.
Proof. exact (sched_invariant demo_idle demo_sys demo_others _ demo_at_work). Defined.

(** [taskA] sleeps, [taskB] runs for a quantum with other registers. *)
Definition demo_after (n : nat) : sys (list res) := run_demo (take n [ESleep 1; ERun zero_regs; ETick; ETick; ETick; ETick; ETick]) demo_sys.


Lemma ready_task_runs_witness : ∃ es1 es2 s', replicate 15 ETick = es1 ++ es2 ∧
  runs demo_idle es1 demo_sys = Done (tt, s') ∧ current_task s' = Some taskB.
Proof.
  apply (ready_task_runs demo_idle demo_sys demo_others taskB
    (demo_task 2 TASK_STATE_READY 0x34000 0x40000 None [taskA] SSelf) (replicate 15 ETick)).
  - exact demo_at_work.
  - split; [right; left|by vm_compute].
  - done.
  - done.
  - by vm_compute.
Defined.

Lemma exit_code_collected_witness : ∃ s3,
  task_waitpid demo_idle 3 (run_demo [EExit] demo_sys) = Done (Waited 3 (Some 7), s3) ∧
  at_work demo_idle s3 demo_others ∧
  ∃ ck', live s3 taskA ck' ∧ t_state ck' = TASK_STATE_TERMINATED ∧ t_parent ck' = None.
Proof.
  apply (exit_code_collected demo_idle demo_sys (run_demo [EExit] demo_sys) _ demo_others taskA
    (demo_task 3 TASK_STATE_RUNNING 0x24000 0x30000 (Some taskB) [] (SIn taskB)) taskB []).
  - exact demo_at_work.
  - done.
  - done.
  - split; [left|by vm_compute].
  - done.
  - done.
  - by vm_compute.
  - apply until_now. by vm_compute.
  - by vm_compute.
  - intros z zk [Hin Hz] _ Hpid.
    assert (z ∈ [taskA; taskB; demo_idle]) as Hin' by exact Hin.
    rewrite !elem_of_cons in Hin'. destruct Hin' as [->|[->|[->|Hin']]]; [done|..|inversion Hin'].
    + revert Hpid. assert (t_pid zk = 2) as ->; [|by vm_compute]. vm_compute in Hz. by injection Hz as <-.
    + revert Hpid. assert (t_pid zk = 1) as ->; [|by vm_compute]. vm_compute in Hz. by injection Hz as <-.
Defined.

(** A yield of a running task spends one tick of its quantum and keeps the
    processor, although [taskB] is ready. *)
Lemma task_yield_stays : ∃ s', task_yield demo_idle demo_sys = Done (tt, s') ∧ current_task s' = Some taskA ∧
  (t_state <$> tasks s' !! taskB) = Some TASK_STATE_READY.
Proof. exists (run_demo [EYield] demo_sys). by vm_compute. Qed.
