(* ===== verification/Font.v ===== *)
(** * The font (lizard/framebuffer.c)

    Sixteen bytes for each character, one for each row of eight pixels, written
    here as hexadecimal digits, a character at a time. *)

From S2P Require Import Prelude.

Local Open Scope Z_scope.

Definition hex_value (c : Z) : Z := if c <? 58 then c - 48 else c - 87.

(** The bytes that pairs of digits denote. *)
Fixpoint pairs (l : list Z) : list Z :=
  match l with
  | a :: b :: l => (hex_value a * 16 + hex_value b) :: pairs l
  | _ => []
  end.
Definition hex (s : string) : list Z := pairs (chars s).

Definition font : list Z := Eval vm_compute in (
  hex "0000003e635d7d7b77777f773e000000" ++ hex "00000000007e24242424242422000000" ++ hex "0000000001027f0408107f2040000000" ++ hex "0000000008102040201008007c000000" ++
  hex "0000000010080402040810003e000000" ++ hex "00000000007e7e7e7e7e7e7e00000000" ++ hex "000000000010387cfe7c381000000000" ++ hex "00001030101112040812264a0f020200" ++
  hex "00001030101112040810264902040f00" ++ hex "00007008300972040812264a0f020200" ++ hex "00000808080808000008080808080000" ++ hex "00242400000000000000000000000000" ++
  hex "00000000000000000000000000080830" ++ hex "0000070808083e080808080808700000" ++ hex "00000008083e08080808080808000000" ++ hex "00000008083e080808083e0808000000" ++
  hex "00000042a4a44810102a55558a000000" ++ hex "000000f15b5551000000000000000000" ++ hex "00000000000000000000004949000000" ++ hex "00000000000008102010080000000000" ++
  hex "00000000000010080408100000000000" ++ hex "00242424120000000000000000000000" ++ hex "00242424480000000000000000000000" ++ hex "00000000000000000000002424244800" ++
  hex "00000000000000000000002424241200" ++ hex "00000000000000000000001010100800" ++ hex "423c003c424240404e4242423c000000" ++ hex "00423c00003a46424242463a0202423c" ++
  hex "0808003e08080808080808083e000000" ++ hex "0000000000180808080808083e000000" ++ hex "0000003c424240300c0242423c080830" ++ hex "00000000003c4240300c02423c080830" ++
  hex "00000000000000000000000000000000" ++ hex "00000008080808080808000808000000" ++ hex "00242424240000000000000000000000" ++ hex "0000002424247e24247e242424000000" ++
  hex "000008083e4948483e0909493e080800" ++ hex "000000314a4a34080816292946000000" ++ hex "00000018242424182845424639000000" ++ hex "00080808100000000000000000000000" ++
  hex "00000408081010101010100808040000" ++ hex "00002010100808080808081010200000" ++ hex "000000000008492a1c2a490800000000" ++ hex "00000000000808087f08080800000000" ++
  hex "00000000000000000000000808081000" ++ hex "00000000000000007e00000000000000" ++ hex "00000000000000000000000808000000" ++ hex "00000002020404080810102020000000" ++
  hex "0000003c4242424a524242423c000000" ++ hex "0000000818280808080808083e000000" ++ hex "0000003c42420204081020407e000000" ++ hex "0000003c4242021c020242423c000000" ++
  hex "000000040c142444447e040404000000" ++ hex "0000007e4040407c020202423c000000" ++ hex "0000001c2040407c424242423c000000" ++ hex "0000007e020204040808101010000000" ++
  hex "0000003c4242423c424242423c000000" ++ hex "0000003c424242423e02020438000000" ++ hex "00000000000008080000000808000000" ++ hex "00000000000008080000000808081000" ++
  hex "00000000040810204020100804000000" ++ hex "0000000000007e0000007e0000000000" ++ hex "00000000201008040204081020000000" ++ hex "0000003c424202040808000808000000" ++
  hex "0000001c224a565252524e201e000000" ++ hex "00000018242442427e42424242000000" ++ hex "0000007c4242427c424242427c000000" ++ hex "0000003c42424040404042423c000000" ++
  hex "00000078444242424242424478000000" ++ hex "0000007e4040407c404040407e000000" ++ hex "0000007e4040407c4040404040000000" ++ hex "0000003c424240404e4242423c000000" ++
  hex "000000424242427e4242424242000000" ++ hex "0000003e08080808080808083e000000" ++ hex "0000001f040404040404444438000000" ++ hex "00000042444850606050484442000000" ++
  hex "0000004040404040404040407e000000" ++ hex "00000041636355554949414141000000" ++ hex "00000042626252524a4a464642000000" ++ hex "0000003c42424242424242423c000000" ++
  hex "0000007c424242427c40404040000000" ++ hex "0000003c4242424242425a663c030000" ++ hex "0000007c4242427c4844444242000000" ++ hex "0000003c424240300c0242423c000000" ++
  hex "0000007f080808080808080808000000" ++ hex "0000004242424242424242423c000000" ++ hex "00000041414122222214140808000000" ++ hex "00000041414149495555636341000000" ++
  hex "00000042422424181824244242000000" ++ hex "00000041412222140808080808000000" ++ hex "0000007e02020408102040407e000000" ++ hex "00001c101010101010101010101c0000" ++
  hex "00000020201010080804040202000000" ++ hex "00003808080808080808080808380000" ++ hex "00081422410000000000000000000000" ++ hex "000000000000000000000000007f0000" ++
  hex "00101010080000000000000000000000" ++ hex "00000000003c42023e4242463a000000" ++ hex "00004040405c6242424242625c000000" ++ hex "00000000003c4240404040423c000000" ++
  hex "00000202023a4642424242463a000000" ++ hex "00000000003c42427e4040423c000000" ++ hex "00000e1010107c101010101010000000" ++ hex "00000000003a46424242463a0202423c" ++
  hex "00004040405c62424242424242000000" ++ hex "0000080800180808080808083e000000" ++ hex "00000404000c04040404040404044438" ++ hex "00004040404448506050484442000000" ++
  hex "0000180808080808080808083e000000" ++ hex "00000000007649494949494949000000" ++ hex "00000000005c62424242424242000000" ++ hex "00000000003c4242424242423c000000" ++
  hex "00000000005c6242424242625c404040" ++ hex "00000000003a4642424242463a020202" ++ hex "00000000005c62404040404040000000" ++ hex "00000000003c4240300c02423c000000" ++
  hex "0000101010107c10101010100e000000" ++ hex "0000000000424242424242463a000000" ++ hex "00000000004141412222141408000000" ++ hex "00000000004141494949494936000000" ++
  hex "00000000004242241818244242000000" ++ hex "00000000004242424242463a0202423c" ++ hex "00000000007e0204081020407e000000" ++ hex "00000608080808300808080808060000" ++
  hex "00000808080808080808080808080000" ++ hex "00003008080808060808080808300000" ++ hex "00314946000000000000000000000000" ++ hex "000000000000183c3c18000000000000" ++
  hex "300c0018242442427e42424242000000" ++ hex "0c300018242442427e42424242000000" ++ hex "18240018242442427e42424242000000" ++ hex "324c0018242442427e42424242000000" ++
  hex "24240018242442427e42424242000000" ++ hex "18242418242442427e42424242000000" ++ hex "0000001f2848487e484848484f000000" ++ hex "0000003c42424040404042423c080830" ++
  hex "300c007e4040407c404040407e000000" ++ hex "0c30007e4040407c404040407e000000" ++ hex "1824007e4040407c404040407e000000" ++ hex "2424007e4040407c404040407e000000" ++
  hex "300c003e08080808080808083e000000" ++ hex "0618003e08080808080808083e000000" ++ hex "1824003e08080808080808083e000000" ++ hex "2222003e08080808080808083e000000" ++
  hex "00000078444242f24242424478000000" ++ hex "324c0042626252524a4a464642000000" ++ hex "300c003c42424242424242423c000000" ++ hex "0c30003c42424242424242423c000000" ++
  hex "1824003c42424242424242423c000000" ++ hex "324c003c42424242424242423c000000" ++ hex "2424003c42424242424242423c000000" ++ hex "00000000000022140814220000000000" ++
  hex "0000023a44464a4a525262225c400000" ++ hex "300c004242424242424242423c000000" ++ hex "0c30004242424242424242423c000000" ++ hex "1824004242424242424242423c000000" ++
  hex "2424004242424242424242423c000000" ++ hex "06180041412222140808080808000000" ++ hex "00000040407c424242427c4040000000" ++ hex "00000038444c50504c4242524c000000" ++
  hex "aa55aa55aa55aa55aa55aa55aa55aa55" ++ hex "00000008080008080808080808000000" ++ hex "00000008083e4948484848493e080800" ++ hex "0000001c20202078202020227e000000" ++
  hex "000000000e11207e207c20110e000000" ++ hex "00000041412214083e083e0808000000" ++ hex "2418003c424240300c0242423c000000" ++ hex "00001c222018242222120c02221c0000" ++
  hex "00241800003c4240300c02423c000000" ++ hex "0000003c4299a5a1a1a599423c000000" ++ hex "000038043c443c007c00000000000000" ++ hex "00000000000012244824120000000000" ++
  hex "00000000000000007e02020200000000" ++ hex "0000000000221c2222221c2200000000" ++ hex "0000003c42b9a5a5b9a9a5423c000000" ++ hex "003c0000000000000000000000000000" ++
  hex "00001824241800000000000000000000" ++ hex "0000000808087f080808007f00000000" ++ hex "00003844041820407c00000000000000" ++ hex "00003844043804443800000000000000" ++
  hex "2418007e02020408102040407e000000" ++ hex "0000000000424242424242665a404040" ++ hex "0000003e7a7a7a7a3a0a0a0a0a000000" ++ hex "00000000000000080800000000000000" ++
  hex "00241800007e0204081020407e000000" ++ hex "00001030501010107c00000000000000" ++ hex "00003844444438007c00000000000000" ++ hex "00000000000048241224480000000000" ++
  hex "000000374848484e4848484837000000" ++ hex "00000000003649494f48484936000000" ++ hex "22220041412222140808080808000000" ++ hex "0000001010001010204042423c000000" ++
  hex "0000000000000000ff00000000000000" ++ hex "08080808080808080808080808080808" ++ hex "00000000000000000f08080808080808" ++ hex "0000000000000000f808080808080808" ++
  hex "08080808080808080f00000000000000" ++ hex "0808080808080808f800000000000000" ++ hex "08080808080808080f08080808080808" ++ hex "0808080808080808f808080808080808" ++
  hex "0000000000000000ff08080808080808" ++ hex "0808080808080808ff00000000000000" ++ hex "0808080808080808ff08080808080808" ++ hex "88228822882288228822882288228822" ++
  hex "ff000000000000000000000000000000" ++ hex "000000ff000000000000000000000000" ++ hex "000000000000000000000000ff000000" ++ hex "000000000000000000000000000000ff" ++
  hex "00000000000000ff00ff000000000000" ++ hex "14141414141414141414141414141414" ++ hex "000000000000001f1017141414141414" ++ hex "00000000000000fc04f4141414141414" ++
  hex "1414141414141417101f000000000000" ++ hex "14141414141414f404fc000000000000" ++ hex "14141414141414171017141414141414" ++ hex "14141414141414f404f4141414141414" ++
  hex "00000000000000ff00f7141414141414" ++ hex "14141414141414f700ff000000000000" ++ hex "14141414141414f700f7141414141414" ++ hex "ffffffffffffffffffffffffffffffff" ++
  hex "0000000000081c2a0808080800000000" ++ hex "0000000000080808082a1c0800000000" ++ hex "00000000000010207f20100000000000" ++ hex "0000000000000804fe04080000000000" ++
  hex "00300c00003c42023e4242463a000000" ++ hex "000c3000003c42023e4242463a000000" ++ hex "00182400003c42023e4242463a000000" ++ hex "00324c00003c42023e4242463a000000" ++
  hex "00242400003c42023e4242463a000000" ++ hex "18242418003c42023e4242463a000000" ++ hex "00000000003649093f48484936000000" ++ hex "00000000003c4240404040423c080830" ++
  hex "00300c00003c42427e4040423c000000" ++ hex "000c3000003c42427e4040423c000000" ++ hex "00182400003c42427e4040423c000000" ++ hex "00242400003c42427e4040423c000000" ++
  hex "00300c0000180808080808083e000000" ++ hex "000c300000180808080808083e000000" ++ hex "0018240000180808080808083e000000" ++ hex "0024240000180808080808083e000000" ++
  hex "0000661864023a46424242423c000000" ++ hex "00324c00005c62424242424242000000" ++ hex "00300c00003c4242424242423c000000" ++ hex "000c3000003c4242424242423c000000" ++
  hex "00182400003c4242424242423c000000" ++ hex "00324c00003c4242424242423c000000" ++ hex "00242400003c4242424242423c000000" ++ hex "00000000101000007c00001010000000" ++
  hex "00000000023c464a4a5252623c400000" ++ hex "00300c0000424242424242463a000000" ++ hex "000c300000424242424242463a000000" ++ hex "0018240000424242424242463a000000" ++
  hex "0024240000424242424242463a000000" ++ hex "000c3000004242424242463a0202423c" ++ hex "00004040405c6242424242625c404040" ++ hex "00242400004242424242463a0202423c").
