(* ===== verification/Framebuffer.v ===== *)
(** * The framebuffer (lizard/framebuffer.c)

    The pixels are a map from the index of a 32-bit word to its colour; an
    access outside of it is a [Fault]. The background colour belongs to the
    console and is kept here, where it is read. *)

From S2P Require Import Prelude Helpers EarlyAlloc Font.

Local Open Scope Z_scope.

Definition FONT_WIDTH : Z := 8.
Definition FONT_HEIGHT : Z := 16.
Definition BI_FB_NONE : Z := 0.

Record fb := Fb {
  fb_on : bool;                (* framebuffer != NULL *)
  pixels : gmap Z Z;
  width : Z;
  height : Z;
  pitch : Z;
  framebuffer_length : Z;
  tty_bg_color : Z
}.

Definition set_pixels (m : gmap Z Z) (f : fb) : fb :=
  Fb (fb_on f) m (width f) (height f) (pitch f) (framebuffer_length f) (tty_bg_color f).

(** [for (i = ..; i < ..; i++)], [n] turns from [i] on. *)
Fixpoint for_loop {S} (n : nat) (i : Z) (body : Z → S → run S) (s : S) : run S :=
  match n with
  | O => Done s
  | Datatypes.S n => s ← body i s; for_loop n (i + 1) body s
  end.

(** [framebuffer[i]] *)
Definition get_px (i : Z) (f : fb) : run Z := access (pixels f !! i).
Definition set_px (i v : Z) (f : fb) : run fb := _ ← get_px i f; Done (set_pixels (<[i := v]> (pixels f)) f).

Definition stride (f : fb) : Z := pitch f / 4.

Definition clear_framebuffer (f : fb) : run fb :=
  if negb (fb_on f) then Done f
  else
    for_loop (Z.to_nat (height f)) 0 (λ y, for_loop (Z.to_nat (width f)) 0 (λ x f,
      set_px (u64 (u64 (y * stride f) + x)) (tty_bg_color f) f)) f.

Definition setup_framebuffer (w h : Z) (mem : option (gmap Z Z)) (pth : Z) (f : fb) : fb :=
  match mem with
  | Some m => Fb true m w h pth (u32 (h * pth)) (tty_bg_color f)
  | None => Fb false (pixels f) w h pth 0 (tty_bg_color f)
  end.

(** [mem] is the memory at [fb_base + hhdm_offset]. *)
Definition init_framebuffer (bi : option boot_info) (mem : gmap Z Z) (f : fb) : fb :=
  match bi with
  | None => setup_framebuffer 0 0 None 0 f
  | Some bi =>
      let b := framebuffer bi in
      if (fb_base b =? 0) || (fb_format b =? BI_FB_NONE) then setup_framebuffer 0 0 None 0 f
      else
        let f := setup_framebuffer (fb_width b) (fb_height b) (Some mem) (fb_pitch b) f in
        Fb (fb_on f) (pixels f) (width f) (height f) (pitch f) (u32 (align_up (u32 (fb_size b)) PAGE_SIZE))
          (tty_bg_color f)
  end.

Definition draw_pixel (x y color : Z) (f : fb) : run fb :=
  if negb (fb_on f) then Done f else set_px (u64 (u64 (y * stride f) + x)) color f.

(** [font[i]] *)
Definition font_row (i : Z) : run Z :=
  if (0 <=? i) && (i <? Z.of_nat (length font)) then access (font !! Z.to_nat i) else Stop Fault.

(** [character] is a signed [char]. *)
Definition draw_char (x_index y_index color character : Z) (f : fb) : run fb :=
  if negb (fb_on f) then Done f
  else
    let first_byte_idx := u64 (character * FONT_HEIGHT) in
    let bg_color := tty_bg_color f in
    for_loop (Z.to_nat FONT_HEIGHT) 0 (λ y f,
      row_data ← font_row (u64 (first_byte_idx + y));
      for_loop (Z.to_nat FONT_WIDTH) 0 (λ x,
        draw_pixel (u64 (x_index + x)) (u64 (y_index + y)) (if Z.testbit row_data (7 - x) then color else bg_color)) f) f.

(** [memmove(fb, fb + from, n * 4)]: the words are read before any is written. *)
Fixpoint read_words (n : nat) (from : Z) (f : fb) : run (list Z) :=
  match n with
  | O => Done []
  | S n => v ← get_px from f; vs ← read_words n (from + 1) f; Done (v :: vs)
  end.
Fixpoint write_words (vs : list Z) (to : Z) (f : fb) : run fb :=
  match vs with
  | [] => Done f
  | v :: vs => f ← set_px to v f; write_words vs (to + 1) f
  end.

Definition scroll_framebuffer (px : Z) (f : fb) : run fb :=
  if negb (fb_on f) then Done f
  else if (px =? 0) || (height f <=? px) then Done f
  else
    let scroll_offset := u32 (px * width f) in
    let move_pixels := u32 ((height f - px) * width f) in
    vs ← read_words (Z.to_nat move_pixels) scroll_offset f;
    f ← write_words vs 0 f;
    for_loop (Z.to_nat scroll_offset) 0 (λ i f, set_px (move_pixels + i) (tty_bg_color f) f) f.

(** The largest factor; its search ends at the width of the screen. *)
Fixpoint find_scale (fuel : nat) (sw sh scale : Z) (f : fb) : run Z :=
  match fuel with
  | O => Stop Diverge
  | S fuel =>
      if (u32 (sw * (scale + 1)) <=? width f) && (u32 (sh * (scale + 1)) <=? height f)
      then find_scale fuel sw sh (u32 (scale + 1)) f else Done scale
  end.

(** The first output row of a source row, at index [drow]: [*d++ = px]. *)
Definition present_row (src : Z → run Z) (sw scale srow drow : Z) (f : fb) : run fb :=
  if scale =? 1 then
    for_loop (Z.to_nat sw) 0 (λ x f, px ← src (srow + x); set_px (drow + x) px f) f
  else
    '(f, _) ← for_loop (Z.to_nat sw) 0 (λ sx '(f, d),
        px ← src (srow + sx);
        for_loop (Z.to_nat scale) 0 (λ _ '(f, d), f ← set_px d px f; Done (f, d + 1)) (f, d)) (f, drow);
    Done f.

(** The copy of the row at [drow] to the [k]-th row below it; rows are [st] words apart. *)
Definition copy_row (drow st k dw : Z) (f : fb) : run fb :=
  for_loop (Z.to_nat dw) 0 (λ x f, v ← get_px (drow + x) f; set_px (drow + k * st + x) v f) f.

(** [src i] reads the [i]-th word of the image. *)
Definition fb_present_xrgb (src : Z → run Z) (sw sh : Z) (f : fb) : run fb :=
  if negb (fb_on f) || (sw =? 0) || (sh =? 0) then Done f
  else
    let st := u32 (stride f) in
    scale ← find_scale (S (Z.to_nat (width f))) sw sh 1 f;
    let dw := u32 (sw * scale) in
    let dh := u32 (sh * scale) in
    let ox := u32 (u64 (width f - dw) / 2) in
    let oy := u32 (u64 (height f - dh) / 2) in
    for_loop (Z.to_nat sh) 0 (λ sy f,
      let drow := u32 (oy + u32 (sy * scale)) * st + ox in
      f ← present_row src sw scale (sy * sw) drow f;
      for_loop (Z.to_nat (scale - 1)) 1 (λ k, copy_row drow st k dw) f) f.

(** ** Specification *)

(** The screen: every pixel of every line is there, and the sizes are those of
    a mode a display has. *)
Record screen_ok (f : fb) : Prop := {
  sc_on : fb_on f = true;
  sc_width : 0 < width f <= stride f;
  sc_height : 0 <= height f;
  sc_bound : (height f + 1) * stride f < 2 ^ 31;
  sc_pixels i : 0 <= i < height f * stride f → is_Some (pixels f !! i)
}.

(** The pixel in column [x] of line [y]. *)
Definition pixel (f : fb) (x y : Z) : option Z := pixels f !! (y * stride f + x).

(** The factor by which an image is enlarged. *)
Definition fits (f : fb) (sw sh k : Z) : Prop := sw * k <= width f ∧ sh * k <= height f.
Definition scale_of (f : fb) (sw sh k : Z) : Prop := 1 <= k ∧ fits f sw sh k ∧ ¬ fits f sw sh (k + 1).

(** ** Lemmas *)

Lemma for_loop_ind {S} (I : Z → S → Prop) (body : Z → S → run S) n : ∀ i s,
  (∀ j s, i <= j < i + Z.of_nat n → I j s → ∃ s', body j s = Done s' ∧ I (j + 1) s') → I i s →
  ∃ s', for_loop n i body s = Done s' ∧ I (i + Z.of_nat n) s'.
Proof.
  induction n as [|n IH]; intros i s Hb Hi; [exists s; by rewrite Z.add_0_r|].
  destruct (Hb i s) as (s1 & E & H1); [lia|done|]. cbn [for_loop]. rstep E.
  destruct (IH (i + 1) s1) as (s' & -> & H'); [intros; apply Hb; [lia|done]|done|].
  exists s'. split; [done|]. by replace (i + Z.of_nat (Datatypes.S n)) with (i + 1 + Z.of_nat n) by lia.
Qed.

Lemma for_loop_ext {S} (body body' : Z → S → run S) n : ∀ i s,
  (∀ j s, i <= j < i + Z.of_nat n → body j s = body' j s) → for_loop n i body s = for_loop n i body' s.
Proof.
  induction n as [|n IH]; intros i s Hb; [done|]. cbn [for_loop]. rewrite (Hb i s) by lia.
  destruct (body' i s) as [s1|e]; [|done]. rsimpl. apply IH. intros. apply Hb. lia.
Qed.

Section paint.
(** [f0] is the screen before, [T] the picture that is painted. *)
Variables (f0 : fb) (T : Z → Z → Z).
Hypothesis Hok : screen_ok f0.

(** The pixels in [P] show the picture, the other ones are as before. *)
Definition painted (P : Z → Z → Prop) (f : fb) : Prop :=
  (∃ m, f = set_pixels m f0) ∧ (∀ i, 0 <= i < height f0 * stride f0 → is_Some (pixels f !! i)) ∧ ∀ x y, 0 <= x < stride f0 → 0 <= y < height f0 →
    (P x y → pixel f x y = Some (T x y)) ∧ (¬ P x y → pixel f x y = pixel f0 x y).

Lemma painted_stride P f : painted P f → stride f = stride f0.
Proof. by intros [[m ->] _]. Qed.

Lemma painted_iff P Q f : painted P f → (∀ x y, 0 <= x < stride f0 → 0 <= y < height f0 → P x y ↔ Q x y) → painted Q f.
Proof.
  intros (Hf & Hi & Hp) HPQ. split; [done|]. split; [done|]. intros x y Hx Hy. rewrite <- (HPQ x y Hx Hy). by apply Hp.
Qed.

Lemma index_inj x y x' y' w : 0 <= x < w → 0 <= x' < w → y * w + x = y' * w + x' → x = x' ∧ y = y'.
Proof.
  intros Hx Hx' E. assert (y = y') as ->; [|split; lia].
  assert ((y * w + x) / w = (y' * w + x') / w) as E' by (by rewrite E).
  rewrite !Z.div_add_l, !Z.div_small in E' by lia. lia.
Qed.

Lemma index_range x y : 0 <= x < stride f0 → 0 <= y < height f0 → 0 <= y * stride f0 + x < height f0 * stride f0.
Proof. nia. Qed.

(** One more pixel. *)
Lemma paint_step P f x y : painted P f → 0 <= x < stride f0 → 0 <= y < height f0 →
  ∃ f', set_px (y * stride f0 + x) (T x y) f = Done f' ∧ painted (λ x' y', P x' y' ∨ (x' = x ∧ y' = y)) f'.
Proof.
  intros ([m ->] & Hi & Hp) Hx Hy. destruct (Hi (y * stride f0 + x)) as [v Hv]; [by apply index_range|].
  unfold set_px, get_px. rewrite Hv. rsimpl. eexists. split; [done|]. split; [by eexists|]. split.
  { intros i ?. cbn. destruct (decide (i = y * stride f0 + x)) as [->|]; [by rewrite lookup_insert_eq|].
    rewrite lookup_insert_ne by done. by apply Hi. }
  intros x' y' Hx' Hy'. unfold pixel in *. cbn. destruct (Hp x' y' Hx' Hy') as [H1 H2]. cbn in H1, H2.
  destruct (decide (x' = x ∧ y' = y)) as [[-> ->]|Hne].
  - rewrite lookup_insert_eq. split; [done|]. tauto.
  - assert (y * stride f0 + x ≠ y' * stride f0 + x') as Hd.
    { intros E. apply index_inj in E as [-> ->]; [|done..]. by apply Hne. }
    rewrite lookup_insert_ne by done. split; intros HH; [apply H1|apply H2]; tauto.
Qed.

Lemma find_scale_ok sw sh fuel : ∀ k, 0 < sw <= width f0 → 0 < sh <= height f0 → 1 <= k → fits f0 sw sh k →
  width f0 < k + Z.of_nat fuel → ∃ k', find_scale fuel sw sh k f0 = Done k' ∧ scale_of f0 sw sh k'.
Proof.
  destruct Hok as [_ Hw Hh Hb _].
  induction fuel as [|fuel IH]; intros k Hsw Hsh Hk Hf Hfuel; destruct Hf as [Hf1 Hf2]; [nia|]. cbn [find_scale].
  assert (k <= width f0) by nia.
  assert (width f0 < 2 ^ 31 ∧ height f0 < 2 ^ 31) as [? ?] by nia.
  rewrite !wrap_small by nia. case_if.
  - apply IH; [done|done|lia|by split|lia].
  - exists k. split; [done|]. split; [done|]. split; [by split|]. intros [? ?].
    apply andb_false_iff in E as [E|E]; breflect; lia.
Qed.

Lemma painted_ok P f : painted P f → screen_ok f.
Proof. intros ([m ->] & Hi & _). destruct Hok. split; done. Qed.

Lemma painted_none : painted (λ _ _, False) f0.
Proof.
  split; [exists (pixels f0); by destruct f0|]. split; [apply (sc_pixels _ Hok)|]. intros x y _ _. by split.
Qed.

(** [draw_pixel] with the colour of the picture. *)
Lemma draw_step P f x y : painted P f → 0 <= x < stride f0 → 0 <= y < height f0 →
  ∃ f', draw_pixel x y (T x y) f = Done f' ∧ painted (λ x' y', P x' y' ∨ (x' = x ∧ y' = y)) f'.
Proof.
  intros Hp Hx Hy. pose proof (painted_ok _ _ Hp) as [Hon _ _ _ _]. pose proof Hok as [_ _ _ Hb _].
  pose proof (index_range x y Hx Hy). unfold draw_pixel. rewrite Hon. cbn [negb].
  assert (0 <= y * stride f0) by nia.
  rewrite (painted_stride _ _ Hp), (wrap_small 64 (y * _)), (wrap_small 64) by lia. by apply paint_step.
Qed.

(** A rectangle that is painted row by row, pixel by pixel. *)
Lemma paint_rect (px : Z → Z → fb → run fb) x0 y0 w h f : 0 <= x0 → x0 + w <= stride f0 → 0 <= y0 → y0 + h <= height f0 → 0 <= w → 0 <= h →
  painted (λ _ _, False) f →
  (∀ i j P f, 0 <= i < w → 0 <= j < h → painted P f → px i j f = draw_pixel (x0 + i) (y0 + j) (T (x0 + i) (y0 + j)) f) →
  ∃ f', for_loop (Z.to_nat h) 0 (λ j, for_loop (Z.to_nat w) 0 (λ i, px i j)) f = Done f' ∧
    painted (λ x y, x0 <= x < x0 + w ∧ y0 <= y < y0 + h) f'.
Proof.
  intros Hx0 Hx1 Hy0 Hy1 Hw Hh Hf Hpx.
  destruct (for_loop_ind (λ j f, painted (λ x y, x0 <= x < x0 + w ∧ y0 <= y < y0 + j) f)
    (λ j, for_loop (Z.to_nat w) 0 (λ i, px i j)) (Z.to_nat h) 0 f) as (f' & Ef & Hf').
  - intros j f1 Hj Hf1.
    destruct (for_loop_ind (λ i f, painted (λ x y, (x0 <= x < x0 + w ∧ y0 <= y < y0 + j) ∨ (x0 <= x < x0 + i ∧ y = y0 + j)) f)
      (λ i, px i j) (Z.to_nat w) 0 f1) as (f2 & E2 & Hf2).
    + intros i f2 Hi Hf2. rewrite (Hpx i j _ f2 ltac:(lia) ltac:(lia) Hf2). destruct (draw_step _ f2 (x0 + i) (y0 + j) Hf2) as (f3 & -> & Hf3); [lia|lia|].
      exists f3. split; [done|]. eapply painted_iff; [exact Hf3|]. intros x y _ _. cbn beta. lia.
    + eapply painted_iff; [exact Hf1|]. intros x y _ _. cbn beta. lia.
    + exists f2. split; [exact E2|]. eapply painted_iff; [exact Hf2|]. intros x y _ _. cbn beta. lia.
  - eapply painted_iff; [exact Hf|]. intros x y _ _. cbn beta. lia.
  - exists f'. split; [exact Ef|]. eapply painted_iff; [exact Hf'|]. intros x y _ _. cbn beta. lia.
Qed.

Section image.
Variables (src : Z → run Z) (px : Z → Z) (sw sh k : Z).
Hypotheses (Hsw : 0 < sw <= width f0) (Hsh : 0 < sh <= height f0) (Hk : scale_of f0 sw sh k).
Hypothesis Hsrc : ∀ i, 0 <= i < sw * sh → src i = Done (px i).

Let ox := (width f0 - sw * k) / 2.
Let oy := (height f0 - sh * k) / 2.

(** The picture: every pixel of the image is a square of side [k]. *)
Hypothesis HT : ∀ x y, T x y = px ((y - oy) / k * sw + (x - ox) / k).

Definition in_rect (sy j : Z) (x y : Z) : Prop := ox <= x < ox + sw * k ∧ oy <= y < oy + sy * k + j.

Lemma origin : 0 <= ox ∧ ox + sw * k <= width f0 ∧ 0 <= oy ∧ oy + sh * k <= height f0.
Proof.
  destruct Hk as (? & [? ?] & _). unfold ox, oy.
  pose proof (Z.div_mod (width f0 - sw * k) 2). pose proof (Z.mod_pos_bound (width f0 - sw * k) 2).
  pose proof (Z.div_mod (height f0 - sh * k) 2). pose proof (Z.mod_pos_bound (height f0 - sh * k) 2). lia.
Qed.

Lemma picture sx sy i j : 0 <= i < k → 0 <= j < k → T (ox + sx * k + i) (oy + sy * k + j) = px (sy * sw + sx).
Proof.
  intros Hi Hj. rewrite HT. f_equal.
  replace (oy + sy * k + j - oy) with (sy * k + j) by lia. replace (ox + sx * k + i - ox) with (sx * k + i) by lia.
  rewrite !Z.div_add_l, !Z.div_small by lia. lia.
Qed.

(** The first row of the source row [sy]. *)
Lemma present_row_ok sy f : 0 <= sy < sh → painted (in_rect sy 0) f →
  ∃ f', present_row src sw k (sy * sw) ((oy + sy * k) * stride f0 + ox) f = Done f' ∧ painted (in_rect sy 1) f'.
Proof.
  intros Hsy Hp. pose proof origin as (? & ? & ? & ?). pose proof (sc_width _ Hok). destruct Hk as (Hk1 & _ & _).
  assert (0 <= oy + sy * k < height f0) as Hyr by nia. assert (0 <= sy * k) as Hsk by nia.
  unfold present_row. case_if.
  - destruct (for_loop_ind (λ n f, painted (λ x y, in_rect sy 0 x y ∨ (ox <= x < ox + n ∧ y = oy + sy * k)) f)
      (λ x f, px ← src (sy * sw + x); set_px ((oy + sy * k) * stride f0 + ox + x) px f) (Z.to_nat sw) 0 f) as (f' & Ef & Hf').
    + intros n f1 Hn Hf1. rewrite Hsrc by nia. rsimpl.
      rewrite <- (picture n sy 0 0) by lia. replace (ox + n * k + 0) with (ox + n) by nia.
      rewrite Z.add_0_r, <- Z.add_assoc.
      destruct (paint_step _ f1 (ox + n) (oy + sy * k) Hf1) as (f2 & E2 & Hf2); [nia|lia|].
      exists f2. split; [done|]. eapply painted_iff; [exact Hf2|]. intros x y _ _. cbn beta. unfold in_rect. lia.
    + eapply painted_iff; [exact Hp|]. intros x y _ _. cbn beta. unfold in_rect. lia.
    + exists f'. split; [exact Ef|]. eapply painted_iff; [exact Hf'|]. assert (sw * k = sw) by (rewrite E; lia).
      intros x y _ _. cbn beta. unfold in_rect. lia.
  - pose (I := λ (n : Z) '(f, d), d = (oy + sy * k) * stride f0 + ox + n ∧
      painted (λ x y, in_rect sy 0 x y ∨ (ox <= x < ox + n ∧ y = oy + sy * k)) f).
    assert (∀ sx f d, 0 <= sx < sw → I (sx * k) (f, d) → ∃ s',
      for_loop (Z.to_nat k) 0 (λ _ '(f, d), f ← set_px d (px (sy * sw + sx)) f; Done (f, d + 1)) (f, d) = Done s' ∧
      I (sx * k + k) s') as Hinner.
    { intros sx f1 d Hsx HI. destruct (for_loop_ind (λ j s, I (sx * k + j) s)
        (λ _ '(f, d), f ← set_px d (px (sy * sw + sx)) f; Done (f, d + 1)) (Z.to_nat k) 0 (f1, d)) as (s' & Es & Hs').
      - intros j [f2 d2] Hj [-> Hf2]. rewrite <- (picture sx sy j 0) by lia. rewrite Z.add_0_r.
        replace ((oy + sy * k) * stride f0 + ox + (sx * k + j)) with ((oy + sy * k) * stride f0 + (ox + sx * k + j)) by lia.
        destruct (paint_step _ f2 (ox + sx * k + j) (oy + sy * k) Hf2) as (f3 & E3 & Hf3); [nia|lia|].
        rstep E3. eexists. split; [done|]. split; [lia|]. eapply painted_iff; [exact Hf3|]. intros x y _ _. cbn beta. unfold in_rect. lia.
      - by rewrite Z.add_0_r.
      - exists s'. split; [exact Es|]. by replace (sx * k + k) with (sx * k + (0 + Z.of_nat (Z.to_nat k))) by lia. }
    destruct (for_loop_ind (λ sx s, I (sx * k) s) (λ sx '(f, d), px ← src (sy * sw + sx);
      for_loop (Z.to_nat k) 0 (λ _ '(f, d), f ← set_px d px f; Done (f, d + 1)) (f, d)) (Z.to_nat sw) 0
      (f, (oy + sy * k) * stride f0 + ox)) as ([f' d'] & Es & _ & Hf').
    + intros sx [f1 d1] Hsx HI. rewrite Hsrc by nia. rsimpl. destruct (Hinner sx f1 d1) as (s' & -> & Hs'); [lia|done|].
      exists s'. split; [done|]. by replace ((sx + 1) * k) with (sx * k + k) by lia.
    + split; [lia|]. eapply painted_iff; [exact Hp|]. intros x y _ _. cbn beta. unfold in_rect. lia.
    + rstep Es. exists f'. split; [done|]. eapply painted_iff; [exact Hf'|].
      intros x y _ _. cbn beta. unfold in_rect. replace (0 + Z.of_nat (Z.to_nat sw)) with sw by lia. lia.
Qed.

(** The copies of the first row. *)
Lemma copy_row_ok sy j f : 0 <= sy < sh → 1 <= j < k → painted (in_rect sy j) f →
  ∃ f', copy_row ((oy + sy * k) * stride f0 + ox) (stride f0) j (sw * k) f = Done f' ∧ painted (in_rect sy (j + 1)) f'.
Proof.
  intros Hsy Hj Hp. pose proof origin as (? & ? & ? & ?). pose proof (sc_width _ Hok). destruct Hk as (Hk1 & _ & _).
  assert (0 <= sy * k ∧ oy + sy * k + j < height f0) as [? ?] by nia. assert (0 <= sw * k) by nia. unfold copy_row.
  destruct (for_loop_ind (λ n f, painted (λ x y, in_rect sy j x y ∨ (ox <= x < ox + n ∧ y = oy + sy * k + j)) f)
    (λ x f, v ← get_px ((oy + sy * k) * stride f0 + ox + x) f;
       set_px ((oy + sy * k) * stride f0 + ox + j * stride f0 + x) v f) (Z.to_nat (sw * k)) 0 f) as (f' & Ef & Hf').
  - intros n f1 Hn Hf1. unfold get_px.
    assert (pixel f1 (ox + n) (oy + sy * k) = Some (T (ox + n) (oy + sy * k))) as Hv.
    { destruct Hf1 as (_ & _ & Hpx). apply Hpx; [lia|lia|]. left. unfold in_rect. lia. }
    unfold pixel in Hv. rewrite (painted_stride _ f1 Hf1) in *. rewrite Z.add_assoc in Hv. rewrite Hv. rsimpl.
    assert (T (ox + n) (oy + sy * k) = T (ox + n) (oy + sy * k + j)) as ->.
    { rewrite !HT. do 3 f_equal. replace (oy + sy * k - oy) with (sy * k + 0) by lia.
      replace (oy + sy * k + j - oy) with (sy * k + j) by lia. by rewrite !Z.div_add_l, !Z.div_small by lia. }
    replace ((oy + sy * k) * stride f0 + ox + j * stride f0 + n) with ((oy + sy * k + j) * stride f0 + (ox + n)) by lia.
    destruct (paint_step _ f1 (ox + n) (oy + sy * k + j) Hf1) as (f2 & E2 & Hf2); [lia|lia|].
    exists f2. split; [done|]. eapply painted_iff; [exact Hf2|]. intros x y _ _. cbn beta. unfold in_rect. lia.
  - eapply painted_iff; [exact Hp|]. intros x y _ _. cbn beta. unfold in_rect. lia.
  - exists f'. split; [exact Ef|]. eapply painted_iff; [exact Hf'|]. intros x y _ _. cbn beta. unfold in_rect. lia.
Qed.

Lemma fb_rows_ok : ∃ f', for_loop (Z.to_nat sh) 0 (λ sy f,
      f ← present_row src sw k (sy * sw) ((oy + sy * k) * stride f0 + ox) f;
      for_loop (Z.to_nat (k - 1)) 1 (λ j, copy_row ((oy + sy * k) * stride f0 + ox) (stride f0) j (sw * k)) f) f0 = Done f' ∧
  painted (in_rect sh 0) f'.
Proof.
  destruct Hk as (Hk1 & _ & _).
  destruct (for_loop_ind (λ sy f, painted (in_rect sy 0) f) (λ sy f,
      f ← present_row src sw k (sy * sw) ((oy + sy * k) * stride f0 + ox) f;
      for_loop (Z.to_nat (k - 1)) 1 (λ j, copy_row ((oy + sy * k) * stride f0 + ox) (stride f0) j (sw * k)) f) (Z.to_nat sh) 0 f0)
    as (f' & Ef & Hf').
  - intros sy f Hsy Hf. destruct (present_row_ok sy f) as (f1 & E1 & Hf1); [lia|done|]. rstep E1.
    destruct (for_loop_ind (λ j f, painted (in_rect sy j) f) (λ j, copy_row ((oy + sy * k) * stride f0 + ox) (stride f0) j (sw * k))
      (Z.to_nat (k - 1)) 1 f1) as (f2 & E2 & Hf2); [|done|].
    + intros j f2 Hj Hf2. apply copy_row_ok; [lia|lia|done].
    + exists f2. split; [exact E2|]. eapply painted_iff; [exact Hf2|]. intros x y _ _. unfold in_rect. lia.
  - split; [exists (pixels f0); by destruct f0|]. split; [apply (sc_pixels _ Hok)|]. intros x y _ _.
    split; [unfold in_rect; lia|done].
  - exists f'. split; [exact Ef|]. replace (0 + Z.of_nat (Z.to_nat sh)) with sh in Hf' by lia. done.
Qed.
End image.
End paint.

(** ** Text *)

(** The colour of the pixel in column [i] and row [j] of a character. *)
Definition glyph (c color bg i j : Z) : Z :=
  if Z.testbit (default 0 (font !! Z.to_nat (c * FONT_HEIGHT + j))) (7 - i) then color else bg.

Lemma font_row_in i : 0 <= i < 4096 → font_row i = Done (default 0 (font !! Z.to_nat i)).
Proof.
  intros Hi. unfold font_row. change (Z.of_nat (length font)) with 4096.
  rewrite (proj2 (Z.leb_le 0 i)), (proj2 (Z.ltb_lt i 4096)) by lia. cbn [andb].
  destruct (lookup_lt_is_Some_2 font (Z.to_nat i)) as [v Hv]; [change (length font) with (Z.to_nat 4096); lia|]. by rewrite Hv.
Qed.

(** A character is painted as its glyph; nothing else changes. *)
Lemma draw_char_ok f x y color c : screen_ok f → 0 <= c < 128 →
  0 <= x → x + FONT_WIDTH <= stride f → 0 <= y → y + FONT_HEIGHT <= height f →
  ∃ f', draw_char x y color c f = Done f' ∧
    painted f (λ x' y', glyph c color (tty_bg_color f) (x' - x) (y' - y))
      (λ x' y', x <= x' < x + FONT_WIDTH ∧ y <= y' < y + FONT_HEIGHT) f'.
Proof.
  intros Hok Hc Hx Hxw Hy Hyh. pose proof Hok as [Hon Hw Hh Hb _]. unfold FONT_WIDTH, FONT_HEIGHT in *.
  set (T := λ x' y', glyph c color (tty_bg_color f) (x' - x) (y' - y)).
  destruct (paint_rect f T Hok (λ i j, draw_pixel (u64 (x + i)) (u64 (y + j)) (T (x + i) (y + j))) x y 8 16 f) as (f' & Ef & Hf').
  1-6: lia.
  { by apply painted_none. }
  { intros i j P f1 Hi Hj _. by rewrite !(wrap_small 64) by nia. }
  exists f'. split; [|done]. unfold draw_char. rewrite Hon. cbn [negb]. rewrite <- Ef. apply for_loop_ext. intros j f1 Hj.
  unfold FONT_HEIGHT in *. rewrite (wrap_small 64 (c * 16)), (wrap_small 64 (c * 16 + j)), font_row_in by lia. rsimpl.
  apply for_loop_ext. intros i f2 Hi. unfold T, glyph, FONT_WIDTH, FONT_HEIGHT in *.
  by replace (x + i - x) with i by lia; replace (y + j - y) with j by lia.
Qed.

(** Clearing paints all of the visible screen. *)
Lemma clear_framebuffer_ok f : screen_ok f →
  ∃ f', clear_framebuffer f = Done f' ∧ painted f (λ _ _, tty_bg_color f) (λ x y, 0 <= x < width f ∧ 0 <= y < height f) f'.
Proof.
  intros Hok. pose proof Hok as [Hon Hw Hh Hb _].
  unfold clear_framebuffer. rewrite Hon. cbn [negb].
  destruct (paint_rect f (λ _ _, tty_bg_color f) Hok (λ x y f, set_px (u64 (u64 (y * stride f) + x)) (tty_bg_color f) f)
    0 0 (width f) (height f) f) as (f' & Ef & Hf'); [lia..| | |by exists f'].
  { by apply painted_none. }
  intros i j P f1 Hi Hj Hf1. unfold draw_pixel. pose proof (painted_ok _ _ Hok _ _ Hf1) as [Hon1 _ _ _ _]. rewrite Hon1.
  by destruct Hf1 as [[m ->] _].
Qed.

(** ** Scrolling *)

Lemma read_words_ok n f : ∀ from, (∀ i, from <= i < from + Z.of_nat n → is_Some (pixels f !! i)) →
  ∃ vs, read_words n from f = Done vs ∧ length vs = n ∧
    ∀ i, 0 <= i < Z.of_nat n → vs !! Z.to_nat i = pixels f !! (from + i).
Proof.
  induction n as [|n IH]; intros from Hs; [exists []; split_and!; [done|done|lia]|]. cbn [read_words].
  destruct (Hs from) as [v Hv]; [lia|]. unfold get_px. rewrite Hv. rsimpl.
  destruct (IH (from + 1)) as (vs & Es & Hl & Hvs); [intros; apply Hs; lia|]. rewrite Es. rsimpl.
  exists (v :: vs). split; [done|]. split; [cbn; lia|]. intros i Hi. destruct (decide (i = 0)) as [->|]; [by rewrite Z.add_0_r|].
  replace (Z.to_nat i) with (Datatypes.S (Z.to_nat (i - 1))) by lia. cbn [lookup list_lookup]. rewrite Hvs by lia. f_equal. lia.
Qed.

Lemma write_words_ok vs : ∀ f to, (∀ i, to <= i < to + Z.of_nat (length vs) → is_Some (pixels f !! i)) →
  ∃ m, write_words vs to f = Done (set_pixels m f) ∧
    ∀ i, m !! i = if bool_decide (to <= i < to + Z.of_nat (length vs)) then vs !! Z.to_nat (i - to) else pixels f !! i.
Proof.
  induction vs as [|v vs IH]; intros f to Hs.
  { exists (pixels f). split; [by destruct f|]. intros i. rewrite bool_decide_false; [done|cbn; lia]. }
  cbn [write_words length] in *. destruct (Hs to) as [w Hw]; [lia|]. unfold set_px, get_px. rewrite Hw. rsimpl.
  destruct (IH (set_pixels (<[to:=v]> (pixels f)) f) (to + 1)) as (m & -> & Hm).
  { intros i Hi. cbn. rewrite lookup_insert_ne by lia. apply Hs. lia. }
  exists m. split; [done|]. intros i. rewrite Hm. cbn [pixels set_pixels]. destruct (decide (i = to)) as [->|Hne].
  - rewrite bool_decide_false, bool_decide_true, lookup_insert_eq, Z.sub_diag by lia. done.
  - rewrite lookup_insert_ne by done. case_bool_decide.
    + rewrite bool_decide_true by lia. replace (Z.to_nat (i - to)) with (Datatypes.S (Z.to_nat (i - (to + 1)))) by lia. done.
    + rewrite bool_decide_false by lia. done.
Qed.

(** The words [[from, from + n)] get the background colour. *)
Lemma fill_ok n from f : (∀ i, from <= i < from + Z.of_nat n → is_Some (pixels f !! i)) →
  ∃ m, for_loop n 0 (λ i f, set_px (from + i) (tty_bg_color f) f) f = Done (set_pixels m f) ∧
    ∀ i, m !! i = if bool_decide (from <= i < from + Z.of_nat n) then Some (tty_bg_color f) else pixels f !! i.
Proof.
  intros Hs. destruct (for_loop_ind (λ j s, ∃ m, s = set_pixels m f ∧ ∀ i, m !! i =
      if bool_decide (from <= i < from + j) then Some (tty_bg_color f) else pixels f !! i)
      (λ i f, set_px (from + i) (tty_bg_color f) f) n 0 f) as (f' & Ef & m & -> & Hm).
  - intros j s Hj (m & -> & Hm). destruct (Hs (from + j)) as [w Hw]; [lia|].
    unfold set_px, get_px. cbn [pixels set_pixels]. rewrite Hm, bool_decide_false, Hw by lia. rsimpl.
    eexists. split; [done|]. exists (<[from + j:=tty_bg_color f]> m). split; [done|]. intros i.
    destruct (decide (i = from + j)) as [->|].
    + by rewrite lookup_insert_eq, bool_decide_true by lia.
    + rewrite lookup_insert_ne, Hm by done. by rewrite (bool_decide_ext _ (from <= i < from + (j + 1))) by lia.
  - exists (pixels f). split; [by destruct f|]. intros i. by rewrite bool_decide_false by lia.
  - by exists m.
Qed.

(** With no padding between the lines the picture moves up and the lines below are cleared. *)
Lemma scroll_ok f px : screen_ok f → stride f = width f → 0 < px < height f →
  ∃ m, scroll_framebuffer px f = Done (set_pixels m f) ∧ screen_ok (set_pixels m f) ∧
    ∀ x y, 0 <= x < width f → 0 <= y < height f →
      pixel (set_pixels m f) x y = if bool_decide (y + px < height f) then pixel f x (y + px) else Some (tty_bg_color f).
Proof.
  intros Hok Es Hpx. pose proof Hok as [Hon Hw Hh Hb Hpix]. rewrite Es in *.
  set (w := width f) in *. set (h := height f) in *. assert (0 <= px * w ∧ 0 <= (h - px) * w) as [? ?] by nia.
  unfold scroll_framebuffer. rewrite Hon. cbn [negb]. fold w h. rewrite (proj2 (Z.eqb_neq px 0)), (proj2 (Z.leb_gt h px)) by lia.
  cbn [orb]. assert (px * w + (h - px) * w = h * w) by lia.
  rewrite !(wrap_small 32) by lia.
  destruct (read_words_ok (Z.to_nat ((h - px) * w)) f (px * w)) as (vs & Evs & Hl & Hvs); [intros; apply Hpix; lia|]. rstep Evs.
  destruct (write_words_ok vs f 0) as (m1 & -> & Hm1); [intros; apply Hpix; nia|]. rsimpl.
  destruct (fill_ok (Z.to_nat (px * w)) ((h - px) * w) (set_pixels m1 f)) as (m & -> & Hm).
  { intros i Hi. cbn. rewrite Hm1. rewrite bool_decide_false by lia. apply Hpix. nia. }
  exists m. split; [done|]. cbn [tty_bg_color set_pixels pixels] in Hm.
  assert (∀ i, 0 <= i < h * w → m !! i = if bool_decide (i < (h - px) * w) then pixels f !! (px * w + i) else Some (tty_bg_color f)) as Hmi.
  { intros i Hi. rewrite Hm. case_bool_decide as Ha; case_bool_decide as Hb2; [lia|done| |lia].
    rewrite Hm1, bool_decide_true, Hvs by lia. f_equal. lia. }
  split.
  - split; [done|apply (sc_width _ Hok)|apply (sc_height _ Hok)|apply (sc_bound _ Hok)|]. intros i Hi.
    change (height (set_pixels m f) * stride (set_pixels m f)) with (h * stride f) in Hi. rewrite Es in Hi. cbn [pixels set_pixels].
    rewrite Hmi by done. case_bool_decide; [apply Hpix; nia|done].
  - intros x y Hx Hy. unfold pixel. change (stride (set_pixels m f)) with (stride f). rewrite Es. fold w. cbn [pixels set_pixels].
    assert (0 <= y * w ∧ y * w + x < h * w) as [? ?] by nia.
    rewrite Hmi by lia. rewrite (bool_decide_ext (y * w + x < (h - px) * w) (y + px < h)) by nia.
    case_bool_decide; [|done]. f_equal. lia.
Qed.

(** ** Theorems *)

(** C17: an image that fits on the screen is shown enlarged by the largest integer factor for
    which it still fits, every pixel of it as a square of that size, in the middle of the screen; every other
    pixel of the screen keeps its colour. *)
Theorem fb_present_pixels f src px sw sh :
  screen_ok f → 0 < sw <= width f → 0 < sh <= height f → (∀ i, 0 <= i < sw * sh → src i = Done (px i)) →
  ∃ f' k, fb_present_xrgb src sw sh f = Done f' ∧ scale_of f sw sh k ∧
    let ox := (width f - sw * k) / 2 in let oy := (height f - sh * k) / 2 in
    ∀ x y, 0 <= x < stride f → 0 <= y < height f →
      pixel f' x y = if bool_decide (ox <= x < ox + sw * k ∧ oy <= y < oy + sh * k)
                     then Some (px ((y - oy) / k * sw + (x - ox) / k)) else pixel f x y.
Proof.
  intros Hok Hsw Hsh Hsrc. pose proof Hok as [Hon Hw Hh Hb _].
  destruct (find_scale_ok f Hok sw sh (S (Z.to_nat (width f))) 1) as (k & Ek & Hk); [done|done|lia|split; lia|lia|].
  pose proof Hk as (Hk1 & [Hfw Hfh] & _).
  destruct (fb_rows_ok f _ Hok src px sw sh k Hsw Hsh Hk Hsrc (λ _ _, eq_refl)) as (f' & Ef & _ & _ & Hf').
  exists f', k. split; [|split; [done|]].
  - unfold fb_present_xrgb. rewrite Hon. cbn [negb orb]. rewrite !(proj2 (Z.eqb_neq _ 0)) by lia. cbn [orb]. rstep Ek.
    assert (0 <= sw * k /\ 0 <= sh * k) as [? ?] by nia. assert (height f + 1 < 2 ^ 31 /\ stride f < 2 ^ 31) as [? ?] by nia.
    assert (0 <= (width f - sw * k) / 2 <= width f) by (split; [apply Z.div_pos|apply Z.div_le_upper_bound]; lia).
    assert (0 <= (height f - sh * k) / 2 <= height f) by (split; [apply Z.div_pos|apply Z.div_le_upper_bound]; lia).
    rewrite (wrap_small 32 (sw * k)), (wrap_small 32 (sh * k)), !(wrap_small 64) by lia.
    rewrite (wrap_small 32 (stride f)), !(wrap_small 32 (_ / 2)) by lia.
    rewrite <- Ef. apply for_loop_ext. intros sy s Hsy.
    assert (0 <= sy * k <= sh * k) by nia. assert ((height f - sh * k) / 2 + sy * k <= height f).
    { pose proof (Z.div_mod (height f - sh * k) 2). pose proof (Z.mod_pos_bound (height f - sh * k) 2). lia. }
    by rewrite (wrap_small 32 (sy * k)), (wrap_small 32 (_ + _)) by lia.
  - cbn zeta. intros x y Hx Hy. destruct (Hf' x y Hx Hy) as [H1 H2]. unfold in_rect in *. case_bool_decide.
    + apply H1. lia.
    + apply H2. lia.
Qed.

(** An image wider than the screen is not clipped: the offset of its first pixel
    is the negative half of the excess taken as an unsigned number, and the write misses the framebuffer. *)
Theorem fb_present_too_wide f src px sw sh :
  screen_ok f → (∀ i, height f * stride f <= i → pixels f !! i = None) →
  width f < sw <= 8192 → 0 < sh <= height f → (∀ i, 0 <= i < sw * sh → src i = Done (px i)) →
  fb_present_xrgb src sw sh f = Stop Fault.
Proof.
  intros Hok Hnone Hsw Hsh Hsrc. pose proof Hok as [Hon Hw Hh Hb _].
  assert (width f < 2 ^ 31 ∧ height f < 2 ^ 31) as [? ?] by nia.
  unfold fb_present_xrgb. rewrite Hon. cbn [negb orb]. rewrite !(proj2 (Z.eqb_neq _ 0)) by lia. cbn [orb find_scale].
  rewrite (wrap_small 32 (sw * (1 + 1))) by lia. rewrite (proj2 (Z.leb_gt _ _)) by lia. cbn [andb]. rsimpl.
  rewrite !Z.mul_1_r. set (oy := u32 (u64 (height f - _) / 2)). set (st := u32 (stride f)).
  assert (2 ^ 32 - 4096 <= u32 (u64 (width f - u32 sw) / 2)) as Hox.
  { rewrite (wrap_small 32 sw) by lia. unfold wrap.
    replace ((width f - sw) mod 2 ^ 64) with (2 ^ 64 + (width f - sw))
      by (apply (Z.mod_unique _ _ (-1)); lia).
    replace (2 ^ 64 + (width f - sw)) with (2 ^ 63 * 2 + (width f - sw)) by lia. rewrite Z.div_add_l by lia.
    assert (-4096 <= (width f - sw) / 2 < 0) by (split; [apply Z.div_le_lower_bound|apply Z.div_lt_upper_bound]; lia).
    rewrite <- (Z.mod_unique (2 ^ 63 + (width f - sw) / 2) (2 ^ 32) (2 ^ 31 - 1) (2 ^ 32 + (width f - sw) / 2)); lia. }
  set (ox := u32 (u64 (width f - _) / 2)) in *.
  replace (Z.to_nat sh) with (S (Z.to_nat (sh - 1))) by lia. cbn [for_loop]. unfold present_row. rewrite Z.eqb_refl.
  replace (Z.to_nat sw) with (S (Z.to_nat (sw - 1))) by lia. cbn [for_loop]. rewrite Hsrc by nia. rsimpl.
  unfold set_px, get_px. rewrite Hnone; [done|].
  pose proof (wrap_range 32 (oy + u32 (0 * 1)) ltac:(lia)). pose proof (wrap_range 32 (stride f) ltac:(lia)). subst st. nia.
Qed.

Lemma for_loop_stop {S} (body : Z → S → run S) n i s e : body i s = Stop e → for_loop (Datatypes.S n) i body s = Stop e.
Proof. intros E. cbn [for_loop]. by rewrite E. Qed.

Lemma font_row_out i : 4096 <= i → font_row i = Stop Fault.
Proof.
  intros Hi. unfold font_row. change (Z.of_nat (length font)) with 4096.
  by rewrite (proj2 (Z.ltb_ge i 4096) Hi), andb_false_r.
Qed.

(** A byte from 128 on is a negative character: the row is looked up before the font. *)
Lemma draw_char_negative f x y color c : fb_on f = true → -128 <= c < 0 → draw_char x y color c f = Stop Fault.
Proof.
  intros Hon Hc. unfold draw_char. rewrite Hon. cbn [negb]. apply (for_loop_stop _ 15).
  assert (2 ^ 64 - 2048 <= u64 (c * FONT_HEIGHT) < 2 ^ 64).
  { unfold wrap, FONT_HEIGHT. rewrite <- (Z.mod_unique (c * 16) (2 ^ 64) (-1) (2 ^ 64 + c * 16)); lia. }
  rewrite font_row_out; [done|]. rewrite Z.add_0_r, wrap_small; lia.
Qed.

(** A screen of four lines of six words, four of them visible. *)
Definition demo_screen : fb := Fb true (list_to_map (zip (seqZ 0 24) (replicate 24 7))) 4 4 24 96 0.

Lemma demo_screen_ok : screen_ok demo_screen.
Proof.
  split; [done|by vm_compute|by vm_compute|by vm_compute|]. intros i Hi.
  assert (height demo_screen * stride demo_screen = 24) as E by done. rewrite E in Hi.
  apply (list_to_map_is_Some _ i 7). apply list_elem_of_lookup. exists (Z.to_nat i).
  apply lookup_zip_with_Some. exists i, 7. split_and!; [done| |].
  - apply lookup_seqZ. lia.
  - apply lookup_replicate. split; [done|lia].
Qed.

Lemma fb_present_pixels_witness : ∃ f' k, fb_present_xrgb (λ i, Done (i + 100)) 2 1 demo_screen = Done f' ∧
  scale_of demo_screen 2 1 k ∧
  let ox := (width demo_screen - 2 * k) / 2 in let oy := (height demo_screen - 1 * k) / 2 in
  ∀ x y, 0 <= x < stride demo_screen → 0 <= y < height demo_screen →
    pixel f' x y = if bool_decide (ox <= x < ox + 2 * k ∧ oy <= y < oy + 1 * k)
                   then Some ((y - oy) / k * 2 + (x - ox) / k + 100) else pixel demo_screen x y.
Proof.
  apply (fb_present_pixels demo_screen (λ i, Done (i + 100)) (λ i, i + 100) 2 1 demo_screen_ok).
  - by vm_compute.
  - by vm_compute.
  - done.
Defined.

Lemma fb_present_too_wide_witness : fb_present_xrgb (λ i, Done 1) 5 1 demo_screen = Stop Fault.
Proof.
  apply (fb_present_too_wide demo_screen (λ i, Done 1) (λ _, 1) 5 1 demo_screen_ok).
  - intros i Hi. apply not_elem_of_list_to_map. rewrite fst_zip by (by vm_compute). intros Hin%elem_of_seqZ.
    assert (height demo_screen * stride demo_screen = 24) as E by done. rewrite E in Hi. lia.
  - by vm_compute.
  - by vm_compute.
  - done.
Defined.
