(* ===== verification/Tty.v ===== *)
(** * The console (lizard/tty.c, the printing half)

    The text cursor over the framebuffer: [tty_putchar] and what is built on
    it. A character is a signed [char]. The serial line is the list of the bytes
    sent; the bounded wait for the transmitter has no other effect.
    The specification is a terminal, a grid of characters with a cursor, and the
    theorem says that the pixels show it. *)

From S2P Require Import Prelude Font Framebuffer.

Local Open Scope Z_scope.

Definition TTY_DEFAULT_BG_COLOR : Z := 0x000000.
Definition TTY_DEFAULT_COLOR : Z := 0xFFFFFF.
Definition TAB_SIZE : Z := 4.
Definition TEXT_BUFFER_SIZE : Z := 1000 * 1000.

Record term := Term {
  screen : fb;
  terminal_width : Z;
  terminal_height : Z;
  terminal_text_width : Z;
  terminal_text_height : Z;
  terminal_row : Z;
  terminal_column : Z;
  tty_color : Z;
  cmd_start_column : Z;
  cmd_start_row : Z;
  text_buffer : gmap Z Z;
  tty_lock : bool;
  com1 : list Z                (* bytes sent to the serial port *)
}.

Definition set_screen (f : fb) (t : term) : term :=
  Term f (terminal_width t) (terminal_height t) (terminal_text_width t) (terminal_text_height t)
    (terminal_row t) (terminal_column t) (tty_color t) (cmd_start_column t) (cmd_start_row t) (text_buffer t) (tty_lock t) (com1 t).
Definition set_row (r : Z) (t : term) : term :=
  Term (screen t) (terminal_width t) (terminal_height t) (terminal_text_width t) (terminal_text_height t)
    r (terminal_column t) (tty_color t) (cmd_start_column t) (cmd_start_row t) (text_buffer t) (tty_lock t) (com1 t).
Definition set_column (c : Z) (t : term) : term :=
  Term (screen t) (terminal_width t) (terminal_height t) (terminal_text_width t) (terminal_text_height t)
    (terminal_row t) c (tty_color t) (cmd_start_column t) (cmd_start_row t) (text_buffer t) (tty_lock t) (com1 t).
Definition set_text (m : gmap Z Z) (t : term) : term :=
  Term (screen t) (terminal_width t) (terminal_height t) (terminal_text_width t) (terminal_text_height t)
    (terminal_row t) (terminal_column t) (tty_color t) (cmd_start_column t) (cmd_start_row t) m (tty_lock t) (com1 t).
Definition set_lock (b : bool) (t : term) : term :=
  Term (screen t) (terminal_width t) (terminal_height t) (terminal_text_width t) (terminal_text_height t)
    (terminal_row t) (terminal_column t) (tty_color t) (cmd_start_column t) (cmd_start_row t) (text_buffer t) b (com1 t).
Definition send (c : Z) (t : term) : term :=
  Term (screen t) (terminal_width t) (terminal_height t) (terminal_text_width t) (terminal_text_height t)
    (terminal_row t) (terminal_column t) (tty_color t) (cmd_start_column t) (cmd_start_row t) (text_buffer t) (tty_lock t)
    (com1 t ++ [c]).

Definition tty_init (t : term) : term :=
  let f := screen t in
  let f' := Fb (fb_on f) (pixels f) (width f) (height f) (pitch f) (framebuffer_length f) TTY_DEFAULT_BG_COLOR in
  if fb_on f then
    Term f' (width f) (height f) (width f / FONT_WIDTH) (height f / FONT_HEIGHT) 0 0 TTY_DEFAULT_COLOR
      (cmd_start_column t) (cmd_start_row t) (text_buffer t) false (com1 t)
  else
    Term f' (80 * FONT_WIDTH) (25 * FONT_HEIGHT) 80 25 0 0 TTY_DEFAULT_COLOR
      (cmd_start_column t) (cmd_start_row t) (text_buffer t) false (com1 t).

Definition on_fb (op : fb → run fb) : st term unit := λ t,
  match op (screen t) with Done f => Done (tt, set_screen f t) | Stop e => Stop e end.

Definition spinlock_lock : st term unit := λ t,
  if tty_lock t then Stop Diverge else Done (tt, set_lock true t).
Definition spinlock_unlock : st term unit := st_modify (set_lock false).

Definition tty_scroll : st term unit :=
  _ ← on_fb (scroll_framebuffer FONT_HEIGHT);
  st_modify (λ t, set_row (u64 (terminal_row t - 1)) t).

(** The parameters are [unsigned]. *)
Definition is_pos_after_input (row col : Z) (t : term) : bool :=
  (cmd_start_row t <? u32 row) || (u32 row =? cmd_start_row t) && (cmd_start_column t <? u32 col).
Definition is_cursor_after_input (t : term) : bool := is_pos_after_input (terminal_row t) (terminal_column t) t.

Definition tty_clean : st term unit :=
  _ ← st_modify (λ t, set_column 0 (set_row 0 t));
  on_fb clear_framebuffer.

Definition tty_putentryat (c color x y : Z) : st term unit :=
  _ ← on_fb (draw_char (u64 (x * FONT_WIDTH)) (u64 (y * FONT_HEIGHT)) color c);
  t ← st_get;
  let i := u64 (u64 (y * terminal_text_width t) + x) in
  if i <? TEXT_BUFFER_SIZE then st_modify (λ t, set_text (<[i := c]> (text_buffer t)) t) else st_stop Fault.

Definition serial_putc (c : Z) : st term unit := st_modify (send (u8 c)).

Definition tty_breakline : st term unit :=
  _ ← st_modify (λ t, set_column 0 (set_row (u64 (terminal_row t + 1)) t));
  t ← st_get;
  if terminal_row t =? terminal_text_height t then tty_scroll else mret tt.

(** [tty_putchar] with the treatment of a tab: [tty_tab] calls [tty_putchar], but only for a space. *)
Definition putchar_with (tab : st term unit) (c : Z) : st term Z :=
  _ ← (if c =? 10 then serial_putc 13 else mret tt);
  _ ← serial_putc c;
  _ ← spinlock_lock;
  if c =? 10 then
    _ ← tty_breakline; _ ← spinlock_unlock; mret c
  else if c =? 9 then
    _ ← spinlock_unlock; _ ← tab; mret c
  else if c =? 12 then
    _ ← tty_clean; _ ← spinlock_unlock; mret c
  else
    t ← st_get;
    _ ← tty_putentryat c (tty_color t) (terminal_column t) (terminal_row t);
    _ ← st_modify (λ t, set_column (u64 (terminal_column t + 1)) t);
    t ← st_get;
    _ ← (if terminal_column t =? terminal_text_width t then tty_breakline else mret tt);
    _ ← spinlock_unlock;
    mret c.

Fixpoint put_spaces (n : nat) : st term unit :=
  match n with
  | O => mret tt
  | Datatypes.S n => _ ← putchar_with (st_stop Diverge) 32; put_spaces n
  end.

Definition tty_tab : st term unit :=
  t ← st_get;
  let spaces := u8 (TAB_SIZE - terminal_column t mod TAB_SIZE) in
  put_spaces (Z.to_nat spaces).

Definition tty_putchar (c : Z) : st term Z := putchar_with tty_tab c.

Definition is_ascii_character (c : Z) : bool := (32 <=? c) && (c <=? 126).

Fixpoint tty_write (data : list Z) : st term unit :=
  match data with
  | [] => mret tt
  | c :: data => _ ← tty_putchar c; tty_write data
  end.

Definition tty_backspace : st term unit :=
  t ← st_get;
  if is_cursor_after_input t then
    _ ← tty_putentryat 32 (tty_color t) (u64 (terminal_column t - 1)) (terminal_row t);
    _ ← st_modify (λ t, set_column (u64 (terminal_column t - 1)) t);
    t ← st_get;
    if terminal_column t =? 0 then
      st_modify (λ t, set_row (u64 (terminal_row t - 1)) (set_column (terminal_text_width t) t))
    else mret tt
  else mret tt.

(** [kprint]: stops at a character that looks like [EOF]. *)
Fixpoint kprint (data : list Z) : st term bool :=
  match data with
  | [] => mret true
  | c :: data => r ← tty_putchar c; if r =? -1 then mret false else kprint data
  end.

(** ** The terminal that is shown *)

(** A grid of characters with a cursor, and what the serial line receives. *)
Record display := Display { cell : Z → Z → Z; d_row : Z; d_col : Z; d_log : list Z }.

Section display.
(** The numbers of columns and rows. *)
Variables (W H : Z).

Definition put_cell (c : Z) (d : display) : display :=
  Display (λ r k, if bool_decide (r = d_row d ∧ k = d_col d) then c else cell d r k) (d_row d) (d_col d) (d_log d).

Definition newline (d : display) : display :=
  if d_row d + 1 =? H
  then Display (λ r k, if r + 1 <? H then cell d (r + 1) k else 32) (d_row d) 0 (d_log d)
  else Display (cell d) (d_row d + 1) 0 (d_log d).

Definition log (l : list Z) (d : display) : display := Display (cell d) (d_row d) (d_col d) (d_log d ++ l).

Definition show_plain (d : display) (c : Z) : display :=
  let d := put_cell c (log [c] d) in
  let d := Display (cell d) (d_row d) (d_col d + 1) (d_log d) in
  if d_col d =? W then newline d else d.

(** One character. *)
Definition show (d : display) (c : Z) : display :=
  if c =? 10 then newline (log [13; 10] d)
  else if c =? 9 then fold_left show_plain (replicate (Z.to_nat (4 - d_col d mod 4)) 32) (log [9] d)
  else if c =? 12 then Display (λ _ _, 32) 0 0 (d_log d ++ [12])
  else show_plain d c.
End display.

(** The screen shows the grid: every visible pixel is that of the glyph of its
    cell, and what is left over at the right and at the bottom has the background colour. *)
Record shows (W H : Z) (locked : bool) (t : term) (d : display) : Prop := {
  sh_screen : screen_ok (screen t);
  sh_packed : stride (screen t) = width (screen t);
  sh_width : terminal_text_width t = width (screen t) / FONT_WIDTH;
  sh_height : terminal_text_height t = height (screen t) / FONT_HEIGHT;
  sh_rows : 2 <= terminal_text_height t;
  sh_size : terminal_text_width t * terminal_text_height t <= TEXT_BUFFER_SIZE;
  sh_lock : tty_lock t = locked;
  sh_row : terminal_row t = d_row d;
  sh_col : terminal_column t = d_col d;
  sh_row_in : 0 <= d_row d < terminal_text_height t;
  sh_col_in : 0 <= d_col d < terminal_text_width t;
  sh_log : com1 t = d_log d;
  sh_pixels x y : 0 <= x < width (screen t) → 0 <= y < height (screen t) →
    pixel (screen t) x y = Some
      (if (x / FONT_WIDTH <? terminal_text_width t) && (y / FONT_HEIGHT <? terminal_text_height t)
       then glyph (cell d (y / FONT_HEIGHT) (x / FONT_WIDTH)) (tty_color t) (tty_bg_color (screen t)) (x mod FONT_WIDTH) (y mod FONT_HEIGHT)
       else tty_bg_color (screen t));
  sh_dims : terminal_text_width t = W ∧ terminal_text_height t = H;
  (* never assigned *)
  sh_start : cmd_start_row t = 0 ∧ cmd_start_column t = 0
}.

(** ** Lemmas *)

Local Ltac dlia := Z.to_euclidean_division_equations; lia.

Section lemmas.
Context {cols rows : Z}.

Lemma wp_on_fb op f (Q : unit → term → Prop) t : op (screen t) = Done f → Q tt (set_screen f t) → wp (on_fb op) Q t.
Proof. intros E HQ. unfold wp, on_fb. by rewrite E. Qed.

Lemma glyph_space color bg i j : 0 <= j < 16 → glyph 32 color bg i j = bg.
Proof.
  intros Hj. unfold glyph, FONT_HEIGHT. enough (default 0 (font !! Z.to_nat (32 * 16 + j)) = 0) as -> by (by rewrite Z.bits_0).
  assert (∀ n, (n < 16)%nat → default 0 (font !! (512 + n)%nat) = 0) as Hb.
  { intros n Hn. do 16 (destruct n as [|n]; [by vm_compute|]). lia. }
  replace (Z.to_nat (32 * 16 + j)) with (512 + Z.to_nat j)%nat by lia. apply Hb. lia.
Qed.

Lemma shows_lock b b' t d : shows cols rows b t d → shows cols rows b' (set_lock b' t) d.
Proof. intros []. by split. Qed.

Lemma shows_send b t d c : shows cols rows b t d → shows cols rows b (send c t) (log [c] d).
Proof. intros []. split; try done. cbn. congruence. Qed.

Lemma shows_bounds b t d : shows cols rows b t d →
  terminal_text_width t * 8 <= width (screen t) < 2 ^ 31 ∧ terminal_text_height t * 16 <= height (screen t) < 2 ^ 31.
Proof.
  intros [[? Hw Hh Hb _] ? Htw Hth ? ? ? ? ? ? ? ? _ _ _]. unfold FONT_WIDTH, FONT_HEIGHT in *. rewrite Htw, Hth.
  assert (width (screen t) < 2 ^ 31 ∧ height (screen t) < 2 ^ 31) by nia. dlia.
Qed.

Lemma lock_wp t d : shows cols rows false t d → wp spinlock_lock (λ _ t', shows cols rows true t' d) t.
Proof. intros Hs. unfold wp, spinlock_lock. rewrite (sh_lock _ _ _ _ _ Hs). by eapply shows_lock. Qed.

Lemma unlock_wp t d : shows cols rows true t d → wp spinlock_unlock (λ _ t', shows cols rows false t' d) t.
Proof. intros Hs. apply wp_modify. by eapply shows_lock. Qed.

(** A character in the cell under the cursor. *)
Lemma putentryat_wp b t d c : shows cols rows b t d → 0 <= c < 128 →
  wp (tty_putentryat c (tty_color t) (terminal_column t) (terminal_row t)) (λ _ t', shows cols rows b t' (put_cell c d)) t.
Proof.
  intros Hs Hc. pose proof (shows_bounds _ _ _ Hs) as [Hbw Hbh]. destruct Hs as [Hok Hp Htw Hth Hr Hsz Hl Er Ec Hri Hci Hg Hpx Hd Hst].
  rewrite Ec, Er. unfold tty_putentryat. apply wp_bind.
  destruct (draw_char_ok (screen t) (d_col d * 8) (d_row d * 16) (tty_color t) c Hok Hc) as (f' & Ef & Hf');
    [lia|unfold FONT_WIDTH; lia|lia|unfold FONT_HEIGHT; lia|].
  unfold FONT_WIDTH, FONT_HEIGHT in *. eapply wp_on_fb; [rewrite !(wrap_small 64) by lia; exact Ef|].
  apply wp_bind, wp_get. cbn [terminal_text_width set_screen].
  assert (0 <= d_row d * terminal_text_width t ∧ d_row d * terminal_text_width t + d_col d < terminal_text_width t * terminal_text_height t)
    as [? ?] by nia. unfold TEXT_BUFFER_SIZE in *.
  rewrite (wrap_small 64 (d_row d * _)), (wrap_small 64), (proj2 (Z.ltb_lt _ _)) by lia. apply wp_modify.
  pose proof (painted_ok _ _ Hok _ _ Hf') as Hok'. destruct Hf' as ([m ->] & _ & Hpx').
  split; try done. intros x y Hx Hy. cbn [screen set_text set_screen width height set_pixels] in *.
  unfold FONT_WIDTH, FONT_HEIGHT. destruct (Hpx' x y) as [H1 H2]; [pose proof (sc_width _ Hok); lia|done|].
  cbn [terminal_text_width terminal_text_height tty_color tty_bg_color set_text set_screen screen set_pixels cell put_cell].
  destruct (decide (d_col d * 8 <= x < d_col d * 8 + 8 ∧ d_row d * 16 <= y < d_row d * 16 + 16)) as [Hin|Hout].
  - rewrite H1 by done. assert (x / 8 = d_col d ∧ y / 16 = d_row d) as [-> ->] by dlia.
    rewrite (proj2 (Z.ltb_lt (d_col d) _)), (proj2 (Z.ltb_lt (d_row d) _)), bool_decide_true by lia. cbn [andb].
    do 2 f_equal; dlia.
  - rewrite H2, Hpx by done. case_if; [|done]. rewrite bool_decide_false by dlia. done.
Qed.

(** The column does not matter. *)
Lemma breakline_at_wp b t d k : shows cols rows b t d →
  wp tty_breakline (λ _ t', shows cols rows b t' (newline rows d)) (set_column k t).
Proof.
  intros Hs. pose proof (shows_bounds _ _ _ Hs) as [Hbw Hbh]. destruct Hs as [Hok Hp Htw Hth Hr Hsz Hl Er Ec Hri Hci Hg Hpx Hd Hst].
  unfold tty_breakline. apply wp_bind, wp_modify, wp_bind, wp_get. cbn [terminal_row terminal_text_height set_row set_column].
  rewrite Er, (wrap_small 64) by lia. unfold newline. rewrite <- (proj2 Hd). case_if; [breflect|breflect; apply wp_ret; split; try done; cbn; lia].
  unfold tty_scroll. unfold FONT_WIDTH, FONT_HEIGHT in *. apply wp_bind.
  destruct (scroll_ok (screen t) 16 Hok Hp) as (m & Em & Hok' & Hm); [lia|].
  eapply wp_on_fb; [exact Em|]. apply wp_modify. split; try done; cbn [terminal_row terminal_column set_row set_column set_screen screen d_row d_col cell
      tty_color terminal_text_width terminal_text_height].
  - rewrite wrap_small by lia. lia.
  - lia.
  - intros x y Hx Hy. cbn [width height set_pixels] in Hx, Hy. rewrite Hm by done.
    change (tty_bg_color (set_pixels m (screen t))) with (tty_bg_color (screen t)). unfold FONT_WIDTH, FONT_HEIGHT.
    assert ((y + 16) / 16 = y / 16 + 1 ∧ (y + 16) mod 16 = y mod 16) as [Ed Em'] by dlia. case_bool_decide.
    + rewrite Hpx, Ed, Em' by lia. destruct (x / 8 <? terminal_text_width t); [|done]. cbn [andb].
      destruct (y / 16 + 1 <? terminal_text_height t) eqn:E1; breflect.
      * by rewrite (proj2 (Z.ltb_lt (y / 16) _)) by lia.
      * case_if; [|done]. by rewrite glyph_space by dlia.
    + case_if; [|done]. rewrite (proj2 (Z.ltb_ge (y / 16 + 1) _)) by dlia. by rewrite glyph_space by dlia.
  - by split; [apply Hd|].
Qed.

Lemma breakline_wp b t d : shows cols rows b t d → wp tty_breakline (λ _ t', shows cols rows b t' (newline rows d)) t.
Proof. intros Hs. pose proof (breakline_at_wp b t d (terminal_column t) Hs) as Hw. by destruct t. Qed.

Lemma clean_wp b t d : shows cols rows b t d → wp tty_clean (λ _ t', shows cols rows b t' (Display (λ _ _, 32) 0 0 (d_log d))) t.
Proof.
  intros [Hok Hp Htw Hth Hr Hsz Hl Er Ec Hri Hci Hg Hpx Hd Hst]. apply wp_bind, wp_modify.
  destruct (clear_framebuffer_ok (screen t) Hok) as (f' & Ef & Hf'). pose proof (painted_ok _ _ Hok _ _ Hf') as Hok'.
  eapply wp_on_fb; [exact Ef|]. destruct Hf' as ([m ->] & _ & Hpx'). split; try done; [cbn; lia..|].
  intros x y Hx Hy. unfold FONT_WIDTH, FONT_HEIGHT. pose proof (sc_width _ Hok). cbn in Hx, Hy.
  destruct (Hpx' x y) as [H1 _]; [lia|done|]. cbn [screen set_screen]. rewrite H1 by done. case_if; [|done].
  cbn [cell]. by rewrite glyph_space by dlia.
Qed.

Lemma wp_if {A} (b : bool) (m1 m2 : st term A) Q t : (b = true → wp m1 Q t) → (b = false → wp m2 Q t) → wp (if b then m1 else m2) Q t.
Proof. destruct b; auto. Qed.

Hint Resolve putentryat_wp breakline_wp clean_wp : lizard.

Lemma plain_wp t d c : shows cols rows false t d → 0 <= c < 128 → c ≠ 10 → c ≠ 9 → c ≠ 12 →
  ∀ tab, wp (putchar_with tab c) (λ r t', r = c ∧ shows cols rows false t' (show_plain cols rows d c)) t.
Proof.
  intros Hs Hc H1 H2 H3 tab. unfold putchar_with. rewrite !(proj2 (Z.eqb_neq c _)) by done.
  apply wp_bind, wp_ret, wp_bind, wp_modify. rewrite wrap_small by lia. apply wp_bind.
  eapply wp_mono; [eapply lock_wp, shows_send, Hs|]. cbn beta. intros _ t1 Hs1.
  apply wp_bind, wp_get, wp_bind. eapply wp_mono; [by apply putentryat_wp|]. cbn beta. intros _ t2 Hs2.
  apply wp_bind, wp_modify, wp_bind, wp_get. cbn [terminal_column terminal_text_width set_column].
  pose proof (shows_bounds _ _ _ Hs2) as [Hb _]. destruct Hs2 as [Hok Hp Htw Hth Hr Hsz Hl Er Ec Hri Hci Hg Hpx [Ew Eh] Hst].
  rewrite Ec, (wrap_small 64), Ew by lia. apply wp_bind. unfold show_plain. cbn [d_col put_cell log] in *.
  set (d2 := Display _ _ _ _). change (d_col d2) with (d_col d + 1). case_if; breflect.
  - assert (newline rows d2 = newline rows (put_cell c (log [c] d))) as -> by done. eapply wp_mono.
    { apply breakline_at_wp. by split. }
    cbn beta. intros _ t3 Hs3. apply wp_bind. eapply wp_mono; [by apply unlock_wp|]. cbn beta. intros _ t4 Hs4. by apply wp_ret.
  - apply wp_ret, wp_bind. eapply wp_mono; [apply (unlock_wp _ d2); subst d2; split; try done; cbn; lia|].
    cbn beta. intros _ t4 Hs4. by apply wp_ret.
Qed.

Lemma put_spaces_wp n : ∀ t d, shows cols rows false t d →
  wp (put_spaces n) (λ _ t', shows cols rows false t' (fold_left (show_plain cols rows) (replicate n 32) d)) t.
Proof.
  induction n as [|n IH]; intros t d Hs; [done|]. apply wp_bind.
  eapply wp_mono; [by apply plain_wp|]. cbn beta. intros _ t' [_ Hs']. by apply IH.
Qed.

Lemma putchar_wp t d c : shows cols rows false t d → 0 <= c < 128 →
  wp (tty_putchar c) (λ r t', r = c ∧ shows cols rows false t' (show cols rows d c)) t.
Proof.
  intros Hs Hc. unfold show. destruct (c =? 10) eqn:E10; [|destruct (c =? 9) eqn:E9; [|destruct (c =? 12) eqn:E12]]; breflect.
  - subst c. apply wp_bind, wp_modify, wp_bind, wp_modify, wp_bind.
    eapply wp_mono; [eapply lock_wp, shows_send, shows_send, Hs|]. cbn beta. intros _ t1 Hs1.
    apply wp_bind. eapply wp_mono; [by apply breakline_wp|]. cbn beta. intros _ t2 Hs2.
    apply wp_bind. eapply wp_mono; [by apply unlock_wp|]. cbn beta. intros _ t3 Hs3. apply wp_ret. split; [done|].
    unfold log in *. cbn [cell d_row d_col d_log] in Hs3. by rewrite <- app_assoc in Hs3.
  - subst c. apply wp_bind, wp_ret, wp_bind, wp_modify, wp_bind.
    eapply wp_mono; [eapply lock_wp, shows_send, Hs|]. cbn beta. intros _ t1 Hs1.
    apply wp_bind. eapply wp_mono; [by apply unlock_wp|]. cbn beta. intros _ t2 Hs2.
    apply wp_bind, wp_bind, wp_get. rewrite (sh_col _ _ _ _ _ Hs2). pose proof (sh_col_in _ _ _ _ _ Hs2). cbn [d_col log] in *.
    unfold TAB_SIZE. pose proof (Z.mod_pos_bound (d_col d) 4). rewrite wrap_small by lia.
    eapply wp_mono; [by apply put_spaces_wp|]. cbn beta. intros _ t3 Hs3. by apply wp_ret.
  - subst c. apply wp_bind, wp_ret, wp_bind, wp_modify, wp_bind.
    eapply wp_mono; [eapply lock_wp, shows_send, Hs|]. cbn beta. intros _ t1 Hs1.
    apply wp_bind. eapply wp_mono; [by apply clean_wp|]. cbn beta. intros _ t2 Hs2.
    apply wp_bind. eapply wp_mono; [by apply unlock_wp|]. cbn beta. intros _ t3 Hs3. by apply wp_ret.
  - by apply plain_wp.
Qed.
Lemma tty_write_wp data : ∀ t d, shows cols rows false t d → Forall (λ c, 0 <= c < 128) data →
  wp (tty_write data) (λ _ t', shows cols rows false t' (fold_left (show cols rows) data d)) t.
Proof.
  induction data as [|c data IH]; intros t d Hs Hd; [done|]. inversion_clear Hd. apply wp_bind.
  eapply wp_mono; [by apply putchar_wp|]. cbn beta. intros _ t' [_ Hs']. by apply IH.
Qed.

(** Erasing: the cursor goes back by one and the cell there becomes blank. *)
Definition erase (d : display) : display :=
  put_cell 32 (Display (cell d) (d_row d) (d_col d - 1) (d_log d)).

Lemma is_cursor_after b t d : shows cols rows b t d →
  is_cursor_after_input t = bool_decide (0 < d_row d ∨ 0 < d_col d).
Proof.
  intros Hs. pose proof (shows_bounds _ _ _ Hs). pose proof (sh_start _ _ _ _ _ Hs) as [E1 E2]. destruct Hs. unfold is_cursor_after_input, is_pos_after_input.
  rewrite E1, E2, sh_row0, sh_col0, !wrap_small by lia. case_bool_decide; lia.
Qed.

(** The cell before the cursor is blanked; the cursor is where it was. *)
Lemma blank_before_wp b t d : shows cols rows b t d → 0 < d_col d →
  wp (tty_putentryat 32 (tty_color t) (u64 (terminal_column t - 1)) (terminal_row t))
    (λ _ t', shows cols rows b (set_column (d_col d - 1) t') (erase d) ∧ terminal_column t' = d_col d) t.
Proof.
  intros Hs Hc. pose proof (shows_bounds _ _ _ Hs) as [Hb _]. pose proof (sh_col_in _ _ _ _ _ Hs) as Hci.
  assert (shows cols rows b (set_column (d_col d - 1) t) (Display (cell d) (d_row d) (d_col d - 1) (d_log d))) as Hs'.
  { destruct Hs. split; try done; cbn; lia. }
  pose proof (putentryat_wp b _ _ 32 Hs' ltac:(lia)) as Hw. rewrite (sh_col _ _ _ _ _ Hs), (wrap_small 64) by lia.
  cbn [tty_color terminal_column terminal_row set_column] in Hw. revert Hw. unfold wp, tty_putentryat, on_fb, mbind, st_bind.
  cbn [screen set_column]. destruct (draw_char _ _ _ _ (screen t)) as [f|]; [|done]. unfold st_get. cbn [terminal_text_width set_screen set_column].
  case_if; [|done]. unfold st_modify. intros Hw. split; [exact Hw|]. apply (sh_col _ _ _ _ _ Hs).
Qed.
Lemma backspace_wp t d : shows cols rows false t d → 0 < d_col d →
  wp tty_backspace (λ _ t', if bool_decide (d_col d = 1)
      then terminal_column t' = terminal_text_width t' ∧ terminal_row t' = u64 (d_row d - 1) ∧ ∀ d', ¬ shows cols rows false t' d'
      else shows cols rows false t' (erase d)) t.
Proof.
  intros Hs Hc. pose proof (shows_bounds _ _ _ Hs) as [Hb _]. pose proof (sh_col_in _ _ _ _ _ Hs) as Hci.
  unfold tty_backspace. apply wp_bind, wp_get. rewrite (is_cursor_after _ _ _ Hs), bool_decide_true by lia.
  apply wp_bind. eapply wp_mono; [exact (blank_before_wp _ _ _ Hs Hc)|]. cbn beta. intros _ t1 [Hs1 Ec1].
  apply wp_bind, wp_modify, wp_bind, wp_get. rewrite Ec1, (wrap_small 64) by lia. cbn [terminal_column set_column].
  case_bool_decide; rewrite ?(proj2 (Z.eqb_eq (d_col d - 1) 0)), ?(proj2 (Z.eqb_neq (d_col d - 1) 0)) by lia; [|by apply wp_ret].
  apply wp_modify. split; [done|]. split.
  - change (terminal_row _) with (u64 (terminal_row (set_column (d_col d - 1) t1) - 1)). by rewrite (sh_row _ _ _ _ _ Hs1).
  - intros d' Hs'. pose proof (sh_col _ _ _ _ _ Hs'). pose proof (sh_col_in _ _ _ _ _ Hs'). cbn in *. lia.
Qed.
End lemmas.

(** ** Theorems *)

(** C18: printing shows the text: after any string of ASCII characters, control characters included, every
    pixel of the screen is that of the grid of the terminal after the same characters, cursor and serial output
    included; the lock is free and no access leaves the framebuffer or the text buffer. *)
Theorem tty_write_shows cols rows t d data : shows cols rows false t d → Forall (λ c, 0 <= c < 128) data →
  ∃ t', tty_write data t = Done (tt, t') ∧ shows cols rows false t' (fold_left (show cols rows) data d).
Proof. intros Hs Hd. destruct (wp_elim _ _ _ (tty_write_wp data t d Hs Hd)) as ([] & t' & E & H'). by exists t'. Qed.

(** A backspace erases the character before the cursor, unless that character is the first of
    its line: then the cursor is put behind the last column of the line above, where the screen shows no terminal. *)
Theorem tty_backspace_edge cols rows t d : shows cols rows false t d → 0 < d_col d →
  ∃ t', tty_backspace t = Done (tt, t') ∧
    if bool_decide (d_col d = 1)
    then terminal_column t' = terminal_text_width t' ∧ terminal_row t' = u64 (d_row d - 1) ∧ ∀ d', ¬ shows cols rows false t' d'
    else shows cols rows false t' (erase d).
Proof.
  intros Hs Hc. destruct (wp_elim _ _ _ (backspace_wp t d Hs Hc)) as ([] & t' & E & H'). by exists t'.
Qed.

(** A screen of 4 columns and 2 rows. *)
Definition demo_term : term :=
  Term (Fb true (list_to_map (zip (seqZ 0 1024) (replicate 1024 0))) 32 32 128 4096 0) 32 32 4 2 0 0 TTY_DEFAULT_COLOR 0 0 ∅ false [].
Definition demo_display : display := Display (λ _ _, 32) 0 0 [].

Lemma demo_term_shows : shows 4 2 false demo_term demo_display.
Proof.
  assert (∀ i, 0 <= i < 1024 → pixels (screen demo_term) !! i = Some 0) as Hp.
  { intros i Hi. apply elem_of_list_to_map_1.
    - rewrite fst_zip by (by vm_compute). apply NoDup_seqZ.
    - apply list_elem_of_lookup. exists (Z.to_nat i). apply lookup_zip_with_Some. exists i, 0. split_and!; [done| |].
      + apply lookup_seqZ. lia.
      + apply lookup_replicate. split; [done|lia]. }
  split; try done; try (cbn; lia).
  - split; [done|by vm_compute|by vm_compute|by vm_compute|]. intros i Hi. rewrite Hp by (change (0 <= i < 1024) in Hi; lia). done.
  - intros x y Hx Hy. change (0 <= x < 32) in Hx. change (0 <= y < 32) in Hy. unfold pixel.
    change (stride (screen demo_term)) with 32. rewrite Hp by lia. case_if; [|done].
    cbn [cell demo_display]. rewrite glyph_space; [done|]. apply Z.mod_pos_bound. by vm_compute.
Qed.

Lemma demo_one_shows : shows 4 2 false (set_column 1 demo_term) (Display (λ _ _, 32) 0 1 []).
Proof. destruct demo_term_shows. split; done. Qed.

Lemma tty_backspace_edge_witness : ∃ t', tty_backspace (set_column 1 demo_term) = Done (tt, t') ∧
  if bool_decide (1 = 1)
  then terminal_column t' = terminal_text_width t' ∧ terminal_row t' = u64 (0 - 1) ∧ ∀ d', ¬ shows 4 2 false t' d'
  else shows 4 2 false t' (erase (Display (λ _ _, 32) 0 1 [])).
Proof. apply (tty_backspace_edge 4 2 (set_column 1 demo_term) _ demo_one_shows). by vm_compute. Defined.

Lemma tty_write_shows_witness : ∃ t', tty_write [72; 105; 9; 10; 33] demo_term = Done (tt, t') ∧
  shows 4 2 false t' (fold_left (show 4 2) [72; 105; 9; 10; 33] demo_display).
Proof. apply (tty_write_shows 4 2 demo_term demo_display _ demo_term_shows). repeat constructor; by vm_compute. Defined.
