(* ===== verification/Input.v ===== *)
(** * Console input (lizard/tty.c, the line editor, and lizard/keyboard.c)

    The interrupt handler of the keyboard empties the controller: a scancode
    goes to the raw ring, when a program owns the keyboard, or to the line
    editor, which echoes to the console and hands complete lines to the ring
    that [read] drains, waking the tasks that wait for it. Head and tail of a ring
    are 32-bit counters that wrap.
    The specification is a line being edited, a bounded queue of bytes and the
    terminal of Tty. *)

From S2P Require Import Prelude Framebuffer Tty Task.

Local Open Scope Z_scope.

Definition STDIN_RING_SIZE : Z := 1024.
Definition TTY_LINE_MAX : Z := 256.
Definition KBD_RING_SIZE : Z := 256.
Definition KEY_BACKSAPCE : Z := 0x0E.
Definition KEY_ENTER : Z := 0x1C.

(** Entries that are not listed are 0. *)
Definition convertScancode : list Z :=
  [0; 27] ++ chars "1234567890-=" ++ [8; 9] ++ chars "qwertyuiop[]" ++ [10; 0] ++
  chars "asdfghjkl;'`" ++ [0] ++ chars "\zxcvbnm,./" ++ [0] ++ chars "*" ++ [0] ++ chars " " ++
  replicate 16 0 ++ chars "-" ++ replicate 3 0 ++ chars "+" ++ replicate 49 0.

(** A ring buffer: the array and its two counters. *)
Record ring := Ring { r_buf : list Z; r_head : Z; r_tail : Z }.

Record con (M : Type) := Con {
  tty : term;
  stdin : ring;                (* stdin_ring, stdin_head, stdin_tail *)
  tty_line : list Z;
  tty_line_len : Z;
  kbd : ring;                  (* kbd_ring, kbd_head, kbd_tail *)
  kbd_raw : bool;
  csys : sys M
}.
Arguments Con {_} _ _ _ _ _ _ _.
Arguments tty {_} _.
Arguments stdin {_} _.
Arguments tty_line {_} _.
Arguments tty_line_len {_} _.
Arguments kbd {_} _.
Arguments kbd_raw {_} _.
Arguments csys {_} _.

(** ** The rings *)

(** [ring[i % size] = c] *)
Definition ring_store (size i c : Z) (r : list Z) : list Z := <[Z.to_nat (i mod size) := c]> r.

Definition stdin_push (c : Z) (r : ring) : ring :=
  let tail := if STDIN_RING_SIZE <=? u32 (r_head r - r_tail r) then u32 (r_tail r + 1) else r_tail r in
  Ring (ring_store STDIN_RING_SIZE (r_head r) c (r_buf r)) (u32 (r_head r + 1)) tail.

Definition tty_stdin_available (r : ring) : bool := negb (r_head r =? r_tail r).

(** At most as many turns as there are bytes in the ring. *)
Fixpoint stdin_read_loop (fuel : nat) (n max : Z) (r : ring) (dst : list Z) : run (list Z * ring) :=
  match fuel with
  | O => Stop Diverge
  | S fuel =>
      if (n <? max) && negb (r_tail r =? r_head r) then
        c ← access (r_buf r !! Z.to_nat (r_tail r mod STDIN_RING_SIZE));
        stdin_read_loop fuel (n + 1) max (Ring (r_buf r) (r_head r) (u32 (r_tail r + 1))) (dst ++ [c])
      else Done (dst, r)
  end.

(** [dst[0 .. n - 1]] *)
Definition tty_stdin_read (max : Z) (r : ring) : run (list Z * ring) :=
  stdin_read_loop (S (Z.to_nat (u32 (r_head r - r_tail r)))) 0 max r [].

Definition kbd_ring_push (sc : Z) (r : ring) : ring :=
  let next := u32 (r_head r + 1) in
  let tail := if KBD_RING_SIZE <? u32 (next - r_tail r) then u32 (r_tail r + 1) else r_tail r in
  Ring (ring_store KBD_RING_SIZE (r_head r) sc (r_buf r)) next tail.

Definition keyboard_pop_scancode (r : ring) : run (Z * ring) :=
  if r_tail r =? r_head r then Done (-1, r)
  else
    sc ← access (r_buf r !! Z.to_nat (r_tail r mod KBD_RING_SIZE));
    Done (sc, Ring (r_buf r) (r_head r) (u32 (r_tail r + 1))).

Section input.
Context {M : Type}.

Definition set_tty (t : term) (c : con M) : con M := Con t (stdin c) (tty_line c) (tty_line_len c) (kbd c) (kbd_raw c) (csys c).
Definition set_stdin (r : ring) (c : con M) : con M := Con (tty c) r (tty_line c) (tty_line_len c) (kbd c) (kbd_raw c) (csys c).
Definition set_line (l : list Z) (n : Z) (c : con M) : con M := Con (tty c) (stdin c) l n (kbd c) (kbd_raw c) (csys c).
Definition set_kbd (r : ring) (raw : bool) (c : con M) : con M := Con (tty c) (stdin c) (tty_line c) (tty_line_len c) r raw (csys c).
Definition set_csys (s : sys M) (c : con M) : con M := Con (tty c) (stdin c) (tty_line c) (tty_line_len c) (kbd c) (kbd_raw c) s.

Definition on_tty {A} (m : st term A) : st (con M) A := λ c,
  match m (tty c) with Done (a, t) => Done (a, set_tty t c) | Stop e => Stop e end.
Definition on_sys {A} (m : st (sys M) A) : st (con M) A := λ c,
  match m (csys c) with Done (a, s) => Done (a, set_csys s c) | Stop e => Stop e end.

Definition keyboard_set_raw (on : bool) : st (con M) unit := st_modify (λ c,
  let r := kbd c in
  set_kbd (if on then r else Ring (r_buf r) (r_head r) (r_head r)) on c).

(** ** The line editor *)

(** [for (i = 0; i < tty_line_len; i++) stdin_push(tty_line[i])] *)
Fixpoint commit_line (n : nat) (i : Z) : st (con M) unit :=
  match n with
  | O => mret tt
  | S n =>
      c ← st_get;
      b ← st_run (access (tty_line c !! Z.to_nat i));
      _ ← st_modify (λ c, set_stdin (stdin_push b (stdin c)) c);
      commit_line n (i + 1)
  end.

(** [scancode] is a signed [char]. *)
Definition tty_handler_input (scancode : Z) : st (con M) unit :=
  c ← st_get;
  if scancode =? KEY_BACKSAPCE then
    if 0 <? tty_line_len c then
      _ ← st_modify (set_line (tty_line c) (tty_line_len c - 1));
      on_tty tty_backspace
    else mret tt
  else if scancode =? KEY_ENTER then
    _ ← on_tty tty_breakline;
    _ ← commit_line (Z.to_nat (tty_line_len c)) 0;
    _ ← st_modify (λ c, set_stdin (stdin_push 10 (stdin c)) c);
    _ ← on_sys (task_wake_all WAIT_INPUT);
    st_modify (λ c, set_line (tty_line c) 0 c)
  else if u8 scancode <? 0x80 then
    ch ← st_run (access (convertScancode !! Z.to_nat (u8 scancode)));
    if is_ascii_character ch && (tty_line_len c <? TTY_LINE_MAX - 1) then
      _ ← st_modify (set_line (<[Z.to_nat (tty_line_len c) := ch]> (tty_line c)) (tty_line_len c + 1));
      _ ← on_tty (tty_putchar ch);
      on_tty (t ← st_get; if terminal_column t =? terminal_text_width t then tty_breakline else mret tt)
    else mret tt
  else mret tt.

(** [pending] are the bytes that the controller has ready. *)
Fixpoint isr_keyboard (pending : list Z) : st (con M) unit :=
  match pending with
  | [] => mret tt
  | scancode :: pending =>
      c ← st_get;
      _ ← (if kbd_raw c then st_modify (set_kbd (kbd_ring_push scancode (kbd c)) true)
           else tty_handler_input (swrap 8 scancode));
      isr_keyboard pending
  end.
End input.

(** ** Bounded queues *)

(** The last [n] elements. *)
Definition newest (n : nat) (q : list Z) : list Z := drop (length q - n) q.

(** The ring of size [n] holds the queue [q]. *)
Record holds (n : Z) (r : ring) (q : list Z) : Prop := {
  h_len : Z.of_nat (length (r_buf r)) = n;
  h_head : 0 <= r_head r < 2 ^ 32;
  h_tail : 0 <= r_tail r < 2 ^ 32;
  h_size : Z.of_nat (length q) <= n;
  h_count : u32 (r_head r - r_tail r) = Z.of_nat (length q);
  h_get i c : q !! i = Some c → r_buf r !! Z.to_nat ((r_tail r + Z.of_nat i) mod n) = Some c
}.

(** ** The editor *)

(** A line being edited, the bytes that wait to be read, the display. *)
Record editor := Editor { ed_line : list Z; ed_queue : list Z; ed_screen : display }.

Section editor.
Variables (cols rows : Z).

(** One scancode. [None] is a backspace at the first column, which leaves the screen (see Tty). *)
Definition edit (e : editor) (sc : Z) : option editor :=
  if sc =? KEY_BACKSAPCE then
    match ed_line e with
    | [] => Some e
    | _ => if d_col (ed_screen e) <=? 1 then None
           else Some (Editor (removelast (ed_line e)) (ed_queue e) (erase (ed_screen e)))
    end
  else if sc =? KEY_ENTER then
    Some (Editor [] (newest 1024 (ed_queue e ++ ed_line e ++ [10])) (newline rows (ed_screen e)))
  else
    let ch := default 0 (convertScancode !! Z.to_nat sc) in
    if (sc <? 128) && is_ascii_character ch && (Z.of_nat (length (ed_line e)) <? 255)
    then Some (Editor (ed_line e ++ [ch]) (ed_queue e) (show cols rows (ed_screen e) ch))
    else Some e.

Fixpoint edits (e : editor) (scs : list Z) : option editor :=
  match scs with
  | [] => Some e
  | sc :: scs => edit e sc ≫= λ e, edits e scs
  end.
End editor.

(** ** Lemmas on rings *)

Lemma newest_id n q : (length q <= n)%nat → newest n q = q.
Proof. intros Hl. unfold newest. by replace (length q - n)%nat with 0%nat by lia. Qed.

Lemma newest_length n q : length (newest n q) = Nat.min n (length q).
Proof. unfold newest. rewrite length_drop. lia. Qed.

Lemma newest_newest n p q : newest n (newest n p ++ q) = newest n (p ++ q).
Proof.
  unfold newest. rewrite !length_app, length_drop. rewrite !drop_app, drop_drop, length_drop. f_equal; f_equal; lia.
Qed.

Section ring.
Variable n : Z.
Hypotheses (Hn : 0 < n < 2 ^ 32) (Hd : (n | 2 ^ 32)).

Lemma u32_mod x i : (u32 x + i) mod n = (x + i) mod n.
Proof. unfold wrap. by rewrite <- (Z.add_mod_idemp_l (x mod 2 ^ 32)), Z.mod_mod_divide, Z.add_mod_idemp_l by (done || lia). Qed.

Lemma mod_apart x i j : 0 <= i < j → j - i < n → (x + i) mod n ≠ (x + j) mod n.
Proof.
  intros Hi Hj E. assert ((j - i) mod n = 0) as Hz.
  { replace (j - i) with (x + j - (x + i)) by lia. rewrite Zminus_mod, <- E, Z.sub_diag. apply Z.mod_0_l. lia. }
  rewrite Z.mod_small in Hz; lia.
Qed.

Lemma holds_head r q : holds n r q → r_head r mod n = (r_tail r + Z.of_nat (length q)) mod n.
Proof.
  intros [_ Hh Ht _ Hc _]. replace (r_head r) with (u32 (r_tail r + Z.of_nat (length q))).
  - rewrite <- (Z.add_0_r (u32 _)), u32_mod. by rewrite Z.add_0_r.
  - rewrite <- Hc, wrap_add_r. replace (r_tail r + (r_head r - r_tail r)) with (r_head r) by lia. by apply wrap_small.
Qed.

(** A byte is added; when the ring is full the oldest one is lost. *)
Lemma push_holds r q c : holds n r q →
  holds n (Ring (ring_store n (r_head r) c (r_buf r)) (u32 (r_head r + 1))
    (if n <=? u32 (r_head r - r_tail r) then u32 (r_tail r + 1) else r_tail r)) (newest (Z.to_nat n) (q ++ [c])).
Proof.
  intros Hr. pose proof (holds_head _ _ Hr) as Hh'. destruct Hr as [Hl Hh Ht Hs Hc Hg].
  assert (0 <= r_head r mod n < n) as Hm by (apply Z.mod_pos_bound; lia).
  assert (ring_store n (r_head r) c (r_buf r) !! Z.to_nat (r_head r mod n) = Some c) as Hnew by (apply list_lookup_insert_eq; lia).
  assert (∀ i x, q !! i = Some x → Z.of_nat (length q) - Z.of_nat i < n →
    ring_store n (r_head r) c (r_buf r) !! Z.to_nat ((r_tail r + Z.of_nat i) mod n) = Some x) as Hold.
  { intros i x Hx Hi. pose proof (lookup_lt_Some _ _ _ Hx). unfold ring_store. rewrite list_lookup_insert_ne; [by apply Hg|].
    rewrite Hh'. pose proof (mod_apart (r_tail r) (Z.of_nat i) (Z.of_nat (length q)) ltac:(lia) ltac:(lia)).
    pose proof (Z.mod_pos_bound (r_tail r + Z.of_nat i) n). pose proof (Z.mod_pos_bound (r_tail r + Z.of_nat (length q)) n). lia. }
  rewrite Hc. split; cbn [r_buf r_head r_tail].
  - unfold ring_store. by rewrite length_insert.
  - by apply wrap_range.
  - case_if; [by apply wrap_range|done].
  - rewrite newest_length. lia.
  - rewrite newest_length, length_app. cbn [length]. case_if; breflect.
    + unfold wrap in *. rewrite Zminus_mod_idemp_l, Zminus_mod_idemp_r.
      replace (r_head r + 1 - (r_tail r + 1)) with (r_head r - r_tail r) by lia. lia.
    + rewrite wrap_sub_l. replace (r_head r + 1 - r_tail r) with (r_head r - r_tail r + 1) by lia.
      rewrite <- wrap_add_l, Hc, wrap_small by lia. lia.
  - intros i x. case_if; breflect.
    + unfold newest. rewrite length_app, lookup_drop. cbn [length]. intros Hx. rewrite u32_mod.
      replace (r_tail r + 1 + Z.of_nat i) with (r_tail r + Z.of_nat (length q + 1 - Z.to_nat n + i)) by lia.
      apply lookup_app_Some in Hx as [Hx|[Hge Hx]].
      * apply Hold; [done|lia].
      * assert (length q + 1 - Z.to_nat n + i = length q)%nat as El by (apply lookup_lt_Some in Hx; cbn in Hx; lia).
        rewrite El, Nat.sub_diag in Hx. rewrite El, <- Hh'. cbn in Hx. by simplify_eq.
    + rewrite newest_id by (rewrite length_app; cbn; lia). intros [Hx|[Hge Hx]]%lookup_app_Some.
      * apply Hold; [done|lia].
      * assert (i = length q) as -> by (apply lookup_lt_Some in Hx; cbn in Hx; lia).
        rewrite Nat.sub_diag in Hx. rewrite <- Hh'. cbn in Hx. by simplify_eq.
Qed.
End ring.

(** Taking a byte out. *)
Lemma ring_empty n r q : holds n r q → n < 2 ^ 32 → (r_tail r =? r_head r) = bool_decide (q = []).
Proof.
  intros [_ Hh Ht Hs Hc _] Hn. case_bool_decide as E.
  - subst q. unfold wrap in Hc. apply Z.eqb_eq. cbn in Hc. destruct (decide (r_tail r <= r_head r)).
    + rewrite Z.mod_small in Hc; lia.
    + rewrite <- (Z.mod_unique _ (2 ^ 32) (-1) (r_head r - r_tail r + 2 ^ 32)) in Hc; lia.
  - apply Z.eqb_neq. intros El. rewrite El, Z.sub_diag in Hc. destruct q; [done|]. change (u32 0) with 0 in Hc. cbn [length] in Hc. lia.
Qed.

Lemma pop_holds n r c q : 0 < n < 2 ^ 32 → (n | 2 ^ 32) → holds n r (c :: q) →
  r_buf r !! Z.to_nat (r_tail r mod n) = Some c ∧ holds n (Ring (r_buf r) (r_head r) (u32 (r_tail r + 1))) q.
Proof.
  intros Hn Hd [Hl Hh Ht Hs Hc Hg]. cbn [length] in *. split.
  { pose proof (Hg 0%nat c eq_refl) as H0. change (Z.of_nat 0) with 0 in H0. by rewrite Z.add_0_r in H0. }
  split; cbn [r_buf r_head r_tail]; [done|done|by apply wrap_range|lia| |].
  - assert (Z.of_nat (length q) < 2 ^ 32). { pose proof (wrap_range 32 (r_head r - r_tail r)). lia. }
    unfold wrap in *. rewrite Zminus_mod_idemp_r. replace (r_head r - (r_tail r + 1)) with (r_head r - r_tail r - 1) by lia.
    rewrite <- Zminus_mod_idemp_l, Hc, Z.mod_small; lia.
  - intros i x Hx. rewrite u32_mod by done. rewrite <- (Hg (S i) x Hx). do 3 f_equal. lia.
Qed.

Lemma stdin_read_loop_ok fuel : ∀ r q n max dst, holds STDIN_RING_SIZE r q → 0 <= n <= max → (length q < fuel)%nat →
  ∃ r', stdin_read_loop fuel n max r dst = Done (dst ++ take (Z.to_nat (max - n)) q, r') ∧
    holds STDIN_RING_SIZE r' (drop (Z.to_nat (max - n)) q).
Proof.
  induction fuel as [|fuel IH]; intros r q n max dst Hr Hn Hf; [lia|]. cbn [stdin_read_loop].
  rewrite (ring_empty _ _ _ Hr) by done. destruct (n <? max) eqn:E; breflect; cbn [andb].
  - destruct q as [|c q]; cbn [negb].
    + rewrite bool_decide_true by done. cbn [negb]. exists r. by rewrite take_nil, drop_nil, app_nil_r.
    + rewrite bool_decide_false by done. cbn [negb]. destruct (pop_holds STDIN_RING_SIZE _ _ _ ltac:(done) ltac:(by exists (2 ^ 22)) Hr) as [-> Hr']. rsimpl.
      destruct (IH _ q (n + 1) max (dst ++ [c]) Hr') as (r' & Er & Hr2); [lia|cbn in Hf; lia|]. exists r'.
      replace (Z.to_nat (max - n)) with (S (Z.to_nat (max - (n + 1)))) by lia. cbn [take drop]. by rewrite Er, <- app_assoc.
  - exists r. assert (max = n) as -> by lia. rewrite Z.sub_diag, app_nil_r. done.
Qed.

Lemma stdin_read_ok r q max : holds STDIN_RING_SIZE r q → 0 <= max →
  ∃ r', tty_stdin_read max r = Done (take (Z.to_nat max) q, r') ∧ holds STDIN_RING_SIZE r' (drop (Z.to_nat max) q).
Proof.
  intros Hr Hm. unfold tty_stdin_read. rewrite (h_count _ _ _ Hr), Nat2Z.id.
  destruct (stdin_read_loop_ok (S (length q)) r q 0 max [] Hr) as (r' & E & H'); [lia|lia|].
  rewrite Z.sub_0_r in *. by exists r'.
Qed.

Lemma stdin_push_ok r q c : holds STDIN_RING_SIZE r q → holds STDIN_RING_SIZE (stdin_push c r) (newest 1024 (q ++ [c])).
Proof. intros Hr. apply (push_holds STDIN_RING_SIZE ltac:(done) ltac:(by exists (2 ^ 22)) _ _ c Hr). Qed.

Lemma kbd_push_ok r q c : holds KBD_RING_SIZE r q → holds KBD_RING_SIZE (kbd_ring_push c r) (newest 256 (q ++ [c])).
Proof.
  intros Hr. pose proof (push_holds KBD_RING_SIZE ltac:(done) ltac:(by exists (2 ^ 24)) _ _ c Hr) as Hp.
  unfold kbd_ring_push. enough ((KBD_RING_SIZE <? u32 (u32 (r_head r + 1) - r_tail r)) = (KBD_RING_SIZE <=? u32 (r_head r - r_tail r))) as -> by done.
  destruct Hr as [_ _ _ Hs Hc _]. unfold KBD_RING_SIZE in *. rewrite wrap_sub_l.
  replace (r_head r + 1 - r_tail r) with (r_head r - r_tail r + 1) by lia. rewrite <- wrap_add_l, Hc, wrap_small by lia. lia.
Qed.

(** ** Lemmas on the editor *)

Section editing.
Context {M : Type} {cols rows : Z}.

(** A task that waits for input becomes ready. *)
Definition woken (k : wait_kind) (tk : task) : task :=
  if in_state TASK_STATE_WAITING tk && waits_for k tk then set_state TASK_STATE_READY (set_wait WAIT_NONE tk) else tk.

Lemma wake_loop_wp k l : ∀ n (s : sys M), (∀ t, t ∈ l → is_Some (tasks s !! t)) →
  wp (wake_loop k l n) (λ _ s', ∃ ts, s' = put_tasks ts s ∧
    ∀ t, ts !! t = if bool_decide (t ∈ l) then woken k <$> tasks s !! t else tasks s !! t) s.
Proof.
  induction l as [|t l IH]; intros n s Hl.
  { apply wp_ret. exists (tasks s). split; [by destruct s|]. intros t. rewrite bool_decide_false; [done|]. by intros ?%elem_of_nil. }
  cbn [wake_loop]. destruct (Hl t) as [tk Ht]; [left|]. apply wp_bind, wp_bind, wp_get. eapply wp_run; [by rewrite Ht|].
  set (tk' := woken k tk).
  enough (wp (wake_loop k l (if in_state TASK_STATE_WAITING tk && waits_for k tk then n + 1 else n)) (λ _ s', ∃ ts, s' = put_tasks ts s ∧
    ∀ t', ts !! t' = if bool_decide (t' ∈ t :: l) then woken k <$> tasks s !! t' else tasks s !! t') (put_tasks (<[t := tk']> (tasks s)) s)) as Hw.
  { subst tk'. unfold woken in Hw. destruct (in_state TASK_STATE_WAITING tk) eqn:E; cbn [andb] in *.
    - destruct (waits_for k tk).
      + apply wp_bind. cbn [task_wake]. apply wp_bind, wp_bind, wp_get. eapply wp_run; [by rewrite Ht|]. rewrite E. cbn [negb].
        apply wp_bind, wp_bind, wp_get. eapply wp_run; [by rewrite Ht|]. by apply wp_modify.
      + rewrite insert_id in Hw by done. by destruct s.
    - rewrite insert_id in Hw by done. by destruct s. }
  eapply wp_mono; [apply IH|].
  - intros t' Ht'. cbn. destruct (decide (t' = t)) as [->|]; [by rewrite lookup_insert_eq|]. rewrite lookup_insert_ne by done. apply Hl. by right.
  - cbn beta. intros _ s' (ts & -> & Hts). exists ts. split; [done|]. intros t'. rewrite Hts. cbn [tasks put_tasks].
    assert (∀ tk, woken k (woken k tk) = woken k tk) as Hww.
    { intros x. unfold woken at 2 3. destruct (in_state TASK_STATE_WAITING x && waits_for k x) eqn:E; [done|]. unfold woken. by rewrite E. }
    destruct (decide (t' = t)) as [->|Hne].
    + rewrite lookup_insert_eq, (bool_decide_true (t ∈ t :: l)), Ht by left. cbn. subst tk'. case_bool_decide; by rewrite ?Hww.
    + rewrite lookup_insert_ne by done. rewrite (bool_decide_ext (t' ∈ t :: l) (t' ∈ l)); [done|]. rewrite elem_of_cons. tauto.
Qed.
(** What waking the readers does to the tasks. *)
Definition readers_woken (enter : bool) (s s' : sys M) : Prop := ∃ ts, s' = put_tasks ts s ∧
  ∀ t, ts !! t = if enter && bool_decide (t ∈ task_list s) then woken WAIT_INPUT <$> tasks s !! t else tasks s !! t.

Lemma readers_refl (s : sys M) : readers_woken false s s.
Proof. exists (tasks s). split; [by destruct s|]. by intros t. Qed.

Lemma woken_woken k tk : woken k (woken k tk) = woken k tk.
Proof.
  unfold woken at 2 3. destruct (in_state TASK_STATE_WAITING tk && waits_for k tk) eqn:E; [done|]. unfold woken. by rewrite E.
Qed.

Lemma readers_trans b b' (s s' s'' : sys M) : readers_woken b s s' → readers_woken b' s' s'' → readers_woken (b || b') s s''.
Proof.
  intros (ts & -> & Hts) (ts' & -> & Hts'). exists ts'. split; [done|]. intros t. rewrite Hts'. cbn [tasks task_list put_tasks]. rewrite Hts.
  destruct b, b'; cbn [orb andb]; [|done..]. case_bool_decide; [|done].
  destruct (tasks s !! t); [|done]. cbn. by rewrite woken_woken.
Qed.

(** The console holds the state of the editor. *)
Record edited (c : con M) (e : editor) : Prop := {
  e_tty : shows cols rows false (tty c) (ed_screen e);
  e_stdin : holds STDIN_RING_SIZE (stdin c) (ed_queue e);
  e_buf : length (tty_line c) = 256%nat;
  e_len : tty_line_len c = Z.of_nat (length (ed_line e));
  e_max : (length (ed_line e) <= 255)%nat;
  e_line i x : ed_line e !! i = Some x → tty_line c !! i = Some x;
  e_raw : kbd_raw c = false;
  e_tasks t : t ∈ task_list (csys c) → is_Some (tasks (csys c) !! t)
}.

Lemma wp_on_tty {A} (m : st term A) (Q : A → con M → Prop) c :
  wp m (λ a t, Q a (set_tty t c)) (tty c) → wp (on_tty m) Q c.
Proof. unfold wp, on_tty. by destruct (m (tty c)) as [[a t]|]. Qed.

Lemma wp_on_sys {A} (m : st (sys M) A) (Q : A → con M → Prop) c :
  wp m (λ a s, Q a (set_csys s c)) (csys c) → wp (on_sys m) Q c.
Proof. unfold wp, on_sys. by destruct (m (csys c)) as [[a t]|]. Qed.

(** The bytes of the line go to the ring. *)
Lemma commit_line_wp n : ∀ i (c : con M) (q l : list Z), holds STDIN_RING_SIZE (stdin c) q → length l = n →
  (∀ j x, l !! j = Some x → tty_line c !! (Z.to_nat i + j)%nat = Some x) → 0 <= i →
  wp (commit_line n i) (λ _ c', ∃ r, c' = set_stdin r c ∧ holds STDIN_RING_SIZE r (newest 1024 (q ++ l))) c.
Proof.
  induction n as [|n IH]; intros i c q l Hq Hl Hline Hi; destruct l as [|b l]; try done.
  { apply wp_ret. exists (stdin c). split; [by destruct c|]. rewrite app_nil_r, newest_id; [done|]. pose proof (h_size _ _ _ Hq). unfold STDIN_RING_SIZE in *. lia. }
  apply wp_bind, wp_get, wp_bind. eapply wp_run; [rewrite <- (Nat.add_0_r (Z.to_nat i)), (Hline 0%nat b) by done; done|].
  apply wp_bind, wp_modify. eapply wp_mono.
  - apply (IH (i + 1) _ (newest 1024 (q ++ [b])) l); [by apply stdin_push_ok|by injection Hl| |lia].
    intros j x Hx. cbn [tty_line set_stdin]. rewrite <- (Hline (S j) x Hx). f_equal. lia.
  - cbn beta. intros _ c' (r & -> & Hr). exists r. split; [done|]. by rewrite newest_newest, <- app_assoc in Hr.
Qed.

Lemma char_of sc : 0 <= sc < 256 → u8 (swrap 8 sc) = sc ∧ ∀ k, 0 <= k < 128 → (swrap 8 sc =? k) = (sc =? k).
Proof.
  intros Hsc. unfold wrap, swrap. change (2 ^ 8) with 256. change (2 ^ (8 - 1)) with 128.
  split; [|intros k Hk]; Z.to_euclidean_division_equations; lia.
Qed.

Lemma convert_range sc : 0 <= default 0 (convertScancode !! sc) < 128.
Proof.
  assert (Forall (λ x, 0 <= x < 128) convertScancode) as Hf by (apply (bool_decide_unpack _); by vm_compute).
  destruct (convertScancode !! sc) as [x|] eqn:E; [|done]. by apply (Forall_lookup_1 _ _ _ _ Hf E).
Qed.

Lemma show_printable d ch : is_ascii_character ch = true → show cols rows d ch = show_plain cols rows d ch.
Proof.
  unfold is_ascii_character, show. intros ?. breflect. by rewrite !(proj2 (Z.eqb_neq ch _)) by lia.
Qed.
Lemma edit_erase_wp c e e' : edited c e → edit cols rows e KEY_BACKSAPCE = Some e' →
  wp (tty_handler_input KEY_BACKSAPCE) (λ _ c', edited c' e' ∧ csys c' = csys c) c.
Proof.
  intros [Ht Hs Hb Hl Hm Hi Hr Hk] He. unfold edit in He. cbn [Z.eqb] in He. unfold tty_handler_input.
  apply wp_bind, wp_get. rewrite Z.eqb_refl in *. rewrite Hl. remember (removelast (ed_line e)) as lr eqn:Elr.
  destruct (ed_line e) as [|x l] eqn:El.
  { injection He as <-. apply wp_ret. split; [|done]. split; rewrite ?El; done. }
  rewrite (proj2 (Z.ltb_lt 0 _)) by (cbn; lia). destruct (d_col (ed_screen e) <=? 1) eqn:Ec; [done|]. injection He as <-. breflect.
  apply wp_bind, wp_modify, wp_on_tty. eapply wp_mono; [apply (backspace_wp _ _ Ht); lia|]. cbn beta. intros _ t' Ht'.
  rewrite bool_decide_false in Ht' by lia. split; [|done].
  destruct (exists_last (l := x :: l)) as (l' & y & E); [done|]. rewrite E in *. rewrite removelast_last in Elr. subst lr.
  split; cbn [tty stdin tty_line tty_line_len kbd_raw csys set_tty set_line ed_line ed_queue ed_screen]; try done.
  - rewrite length_app. cbn. lia.
  - rewrite length_app in Hm. cbn in Hm. lia.
  - intros j y' Hj. apply Hi. by apply lookup_app_l_Some.
Qed.

Lemma edit_enter_wp c e e' : edited c e → edit cols rows e KEY_ENTER = Some e' →
  wp (tty_handler_input KEY_ENTER) (λ _ c', edited c' e' ∧ readers_woken true (csys c) (csys c')) c.
Proof.
  intros [Ht Hs Hb Hl Hm Hi Hr Hk] He. injection He as <-. unfold tty_handler_input.
  apply wp_bind, wp_get. change (KEY_ENTER =? KEY_BACKSAPCE) with false. rewrite Z.eqb_refl.
  apply wp_bind, wp_on_tty. eapply wp_mono; [exact (breakline_wp _ _ _ Ht)|]. cbn beta. intros _ t' Ht'.
  apply wp_bind. eapply wp_mono; [eapply (commit_line_wp _ 0 (set_tty t' c) _ (ed_line e) Hs); [lia|exact Hi|lia]|]. cbn beta. intros _ c1 (r & -> & Hq).
  apply wp_bind, wp_modify, wp_bind, wp_on_sys. apply stdin_push_ok with (c := 10) in Hq. rewrite newest_newest, <- app_assoc in Hq.
  unfold task_wake_all. apply wp_bind, wp_get. eapply wp_mono; [by apply wake_loop_wp|]. cbn beta. intros n s' (ts & -> & Hts).
  cbn [csys set_csys set_stdin set_tty] in *. apply wp_modify. split.
  - split; try done; cbn [csys set_csys set_stdin set_tty set_line put_tasks tasks task_list length ed_line]; [lia|].
    intros t Hin. rewrite Hts, bool_decide_true by done. destruct (Hk t Hin) as [tk ->]. done.
  - exists ts. by split.
Qed.

Lemma edit_key_wp c e e' sc : edited c e → 0 <= sc < 256 → sc ≠ KEY_BACKSAPCE → sc ≠ KEY_ENTER → edit cols rows e sc = Some e' →
  wp (tty_handler_input (swrap 8 sc)) (λ _ c', edited c' e' ∧ csys c' = csys c) c.
Proof.
  intros Hed Hsc H1 H2 He. pose proof Hed as [Ht Hs Hb Hl Hm Hi Hr Hk]. destruct (char_of sc Hsc) as [Eu Ek].
  unfold edit in He. rewrite !(proj2 (Z.eqb_neq sc _)) in He by done. unfold tty_handler_input.
  apply wp_bind, wp_get. rewrite !Ek, !(proj2 (Z.eqb_neq sc _)), Eu by done.
  destruct (sc <? 128) eqn:E1; breflect; cbn [andb] in He; [|by injection He as <-].
  destruct (lookup_lt_is_Some_2 convertScancode (Z.to_nat sc)) as [ch Ech]; [change (length convertScancode) with 128%nat; lia|].
  pose proof (convert_range (Z.to_nat sc)) as Hch. rewrite Ech in He, Hch. cbn [default from_option id] in He, Hch. unfold id in He, Hch.
  apply wp_bind. eapply wp_run; [by rewrite Ech|]. unfold TTY_LINE_MAX. rewrite Hl.
  destruct (is_ascii_character ch) eqn:Ea; cbn [andb] in *; [|by injection He as <-].
  change (256 - 1) with 255. destruct (Z.of_nat (length (ed_line e)) <? 255) eqn:El; breflect; injection He as <-; [|by apply wp_ret].
  apply wp_bind, wp_modify, wp_bind, wp_on_tty. eapply wp_mono; [exact (putchar_wp _ _ _ Ht Hch)|]. cbn beta. intros _ t' [_ Ht'].
  apply wp_on_tty. apply wp_bind, wp_get. cbn [tty set_tty]. pose proof (sh_col_in _ _ _ _ _ Ht').
  rewrite (sh_col _ _ _ _ _ Ht'), (proj2 (Z.eqb_neq _ _)) by lia. apply wp_ret. split; [|done].
  split; cbn [tty stdin tty_line tty_line_len kbd_raw csys set_tty set_line ed_line ed_queue ed_screen]; try done.
  - by rewrite length_insert.
  - rewrite length_app. cbn. lia.
  - rewrite length_app. cbn. lia.
  - intros i x [Hx|[Hge Hx]]%lookup_app_Some.
    + pose proof (lookup_lt_Some _ _ _ Hx). rewrite list_lookup_insert_ne by lia. by apply Hi.
    + assert (i = length (ed_line e)) as -> by (apply lookup_lt_Some in Hx; cbn in Hx; lia).
      rewrite Nat.sub_diag in Hx. injection Hx as ->. rewrite Nat2Z.id. apply list_lookup_insert_eq. lia.
Qed.

Lemma isr_keyboard_wp scs : ∀ c e e', edited c e → Forall (λ sc, 0 <= sc < 256) scs → edits cols rows e scs = Some e' →
  wp (isr_keyboard scs) (λ _ c', edited c' e' ∧ readers_woken (bool_decide (KEY_ENTER ∈ scs)) (csys c) (csys c')) c.
Proof.
  induction scs as [|sc scs IH]; intros c e e' Hed Hscs He.
  { injection He as <-. apply wp_ret. split; [done|]. apply readers_refl. }
  cbn [edits] in He. apply bind_Some in He as (e1 & He1 & He). inversion_clear Hscs.
  apply wp_bind, wp_get. rewrite (e_raw _ _ Hed). apply wp_bind.
  enough (wp (tty_handler_input (swrap 8 sc)) (λ _ c', edited c' e1 ∧ readers_woken (sc =? KEY_ENTER) (csys c) (csys c')) c) as Hw.
  { eapply wp_mono; [exact Hw|]. cbn beta. intros _ c1 [Hed1 Hr1]. eapply wp_mono; [by eapply IH|]. cbn beta. intros _ c2 [Hed2 Hr2].
    split; [done|]. rewrite (bool_decide_ext _ (sc = KEY_ENTER ∨ KEY_ENTER ∈ scs)) by (rewrite elem_of_cons; naive_solver).
    rewrite bool_decide_or. assert (bool_decide (sc = KEY_ENTER) = (sc =? KEY_ENTER)) as ->; [|by eapply readers_trans].
    destruct (Z.eqb_spec sc KEY_ENTER); [by apply bool_decide_true|by apply bool_decide_false]. }
  destruct (decide (sc = KEY_BACKSAPCE)) as [->|H1]; [|destruct (decide (sc = KEY_ENTER)) as [->|H2]].
  - eapply wp_mono; [by apply (edit_erase_wp c e e1)|]. cbn beta. intros _ c' [? ->]. split; [done|]. apply readers_refl.
  - by apply (edit_enter_wp c e e1).
  - rewrite (proj2 (Z.eqb_neq sc _)) by done. eapply wp_mono; [by apply (edit_key_wp c e e1)|].
    cbn beta. intros _ c' [? ->]. split; [done|]. apply readers_refl.
Qed.
End editing.

(** ** Theorems *)

(** Accesses to the input ring. *)
Inductive ring_op := RPush (c : Z) | RRead (max : nat).

(** The bytes that the reads return. *)
Fixpoint ring_run (ops : list ring_op) (r : ring) : run (list (list Z)) :=
  match ops with
  | [] => Done []
  | RPush c :: ops => ring_run ops (stdin_push c r)
  | RRead max :: ops => '(l, r) ← tty_stdin_read (Z.of_nat max) r; ls ← ring_run ops r; Done (l :: ls)
  end.

(** The same on a queue that keeps the newest 1024 bytes. *)
Fixpoint queue_run (ops : list ring_op) (q : list Z) : list (list Z) :=
  match ops with
  | [] => []
  | RPush c :: ops => queue_run ops (newest 1024 (q ++ [c]))
  | RRead max :: ops => take max q :: queue_run ops (drop max q)
  end.

(** The input ring is a bounded queue: whatever the counters are, also when they wrap at 32
    bits, the reads return the bytes pushed in their order, and a push into a full ring loses the oldest byte. *)
Theorem stdin_ring_refines ops r q : holds STDIN_RING_SIZE r q → ring_run ops r = Done (queue_run ops q).
Proof.
  revert r q. induction ops as [|[c|max] ops IH]; intros r q Hr; [done| |].
  - by apply IH, stdin_push_ok.
  - cbn [ring_run queue_run]. destruct (stdin_read_ok r q (Z.of_nat max) Hr) as (r' & -> & Hr'); [lia|]. rsimpl.
    rewrite Nat2Z.id in *. by rewrite (IH _ _ Hr').
Qed.


(** A ring whose counters are about to wrap. *)
Definition demo_ring : ring := Ring (replicate 1024 0) (2 ^ 32 - 1) (2 ^ 32 - 1).

Lemma demo_ring_holds : holds STDIN_RING_SIZE demo_ring [].
Proof. split; [by vm_compute|by vm_compute|by vm_compute|by vm_compute|by vm_compute|]. intros i c Hc. by rewrite lookup_nil in Hc. Qed.

Lemma stdin_ring_refines_witness :
  ring_run [RPush 104; RPush 105; RPush 10; RRead 2; RRead 5] demo_ring = Done [[104; 105]; [10]].
Proof. exact (stdin_ring_refines [RPush 104; RPush 105; RPush 10; RRead 2; RRead 5] demo_ring [] demo_ring_holds). Defined.

(** A reader and the console of Tty. *)
Definition demo_reader : sys unit :=
  Sys {[ 5 := set_state TASK_STATE_WAITING (set_wait WAIT_INPUT zero_task) ]} [5] (Some 5) zero_regs 2 0
    (Ktime.Clocks (Ktime.TimeSpec 0 0) (Ktime.TimeSpec 0 0) (Ktime.TimeSpec 0 0) (Ktime.TimeSpec 0 0)) true 0 tt.
Definition demo_con : con unit := Con demo_term demo_ring (replicate 256 0) 0 (Ring (replicate 256 0) 0 0) false demo_reader.
Definition demo_editor : editor := Editor [] [] demo_display.

Lemma demo_con_edited : edited (cols := 4) (rows := 2) demo_con demo_editor.
Proof.
  split; try done.
  - exact demo_term_shows.
  - cbn. lia.
  - intros t Ht. cbn in Ht. apply list_elem_of_singleton in Ht as ->. by eexists.
Qed.

(** [h], [i], backspace, [o] and Enter, with the break codes of two keys. *)
Definition demo_keys : list Z := [0x23; 0xA3; 0x17; 0x97; 0x0E; 0x18; 0x1C].

