(* ===== verification/Kprintf.v ===== *)
(** * The kernel log (nolibc/stdio.c)

    [kvprintf] over the console of Tty. The format and the string arguments are
    lists of characters without their terminator, and an argument of the wrong kind
    is a [Fault]. The reference renders the format one character at a time. *)

From S2P Require Import Prelude Framebuffer CString Tty.

Local Open Scope Z_scope.

Definition INT_MAX : Z := 0x7FFFFFFF.

Inductive karg := KInt (z : Z) | KStr (s : option (list Z)).

Definition pct : Z := 37.

(** The characters before the next percent sign, and the rest. *)
Fixpoint break_pct (l : list Z) : list Z * list Z :=
  match l with
  | [] => ([], [])
  | c :: l => if c =? pct then ([], c :: l) else let '(a, b) := break_pct l in (c :: a, b)
  end.

(** [strsIsEqual(format, s, n)] for an [s] of [n] characters *)
Fixpoint prefixed (s l : list Z) : option (list Z) :=
  match s, l with
  | [], _ => Some l
  | c :: s, x :: l => if x =? c then prefixed s l else None
  | _, _ => None
  end.

Definition karg_int (args : list karg) : run (Z * list karg) :=
  match args with KInt z :: args => Done (z, args) | _ => Stop Fault end.
Definition karg_str (args : list karg) : run (option (list Z) * list karg) :=
  match args with KStr s :: args => Done (s, args) | _ => Stop Fault end.


Definition null_str : list Z := chars "(null)".

(** The buffer of [size] characters that a number is written to. *)
Definition number (size : Z) (digits : list Z) : list Z := take (Z.to_nat size) digits.

(** [if (fails) return -1; if (!kprint(s)) return -1; written += len] *)
Definition put_out (fails : bool) (s : list Z) (len written : Z) (k : Z → st term Z) : st term Z :=
  if fails then mret (-1)
  else
    ok ← kprint s;
    if negb ok then mret (-1) else k (i32 (written + len)).

(** The conversion after a percent sign. *)
Fixpoint kvprintf (fuel : nat) (format : list Z) (args : list karg) (written : Z) : st term Z :=
  match fuel with
  | O => st_stop Diverge
  | Datatypes.S fuel =>
      let maxrem := u64 (INT_MAX - written) in
      match format with
      | [] => mret written
      | c0 :: format1 =>
          if negb (c0 =? pct) || bool_decide (head format1 = Some pct) then
            match (if c0 =? pct then format1 else format) with
            | [] => st_stop Fault
            | c :: rest =>
                let '(lit, rest) := break_pct rest in
                let amount := Z.of_nat (length (c :: lit)) in
                put_out (maxrem <? amount) (c :: lit) amount written (kvprintf fuel rest args)
            end
          else
            let conv := default 0 (head format1) in
            if conv =? 99 then
              '(v, args) ← st_run (karg_int args);
              put_out (maxrem =? 0) [swrap 8 v] 1 written (kvprintf fuel (tail format1) args)
            else if conv =? 115 then
              '(s, args) ← st_run (karg_str args);
              let str := default null_str s in
              let len := Z.of_nat (length str) in
              put_out (maxrem <? len) str len written (kvprintf fuel (tail format1) args)
            else
              match prefixed [108; 108; 117] format1 with
              | Some rest =>
                  '(v, args) ← st_run (karg_int args);
                  let size := get_unsigned2string_final_size (u64 v) in
                  put_out (maxrem =? 0) (number size (dec_string (u64 v))) size written (kvprintf fuel rest args)
              | None =>
                  if conv =? 117 then
                    '(v, args) ← st_run (karg_int args);
                    let size := get_unsigned2string_final_size (u32 v) in
                    put_out (maxrem =? 0) (number size (dec_string (u32 v))) size written (kvprintf fuel (tail format1) args)
                  else if conv =? 100 then
                    '(v, args) ← st_run (karg_int args);
                    let val := i32 v in
                    let uval := if val <? 0 then u64 (i32 (- val)) else u64 val in
                    let size := get_unsigned2string_final_size uval in
                    let size := if val <? 0 then size + 1 else size in
                    let str := if val <? 0 then 45 :: dec_string uval else dec_string uval in
                    put_out (maxrem =? 0) (number size str) size written (kvprintf fuel (tail format1) args)
                  else if conv =? 120 then
                    '(v, args) ← st_run (karg_int args);
                    let size := get_unsigned2hex_final_size (u64 v) in
                    put_out (maxrem =? 0) (number size (hex_string (u64 v))) size written (kvprintf fuel (tail format1) args)
                  else if conv =? 112 then
                    '(v, args) ← st_run (karg_int args);
                    let size := get_unsigned2hex_final_size (u64 v) in
                    if maxrem =? 0 then mret (-1)
                    else
                      _ ← kprint [48; 120];
                      put_out false (number size (hex_string (u64 v))) (size + 2) written (kvprintf fuel (tail format1) args)
                  else
                    let len := Z.of_nat (length format) in
                    put_out (maxrem <? len) format len written (kvprintf fuel [] args)
              end
      end
  end.

Definition kprintf (format : list Z) (args : list karg) : st term Z := kvprintf (S (length format)) format args 0.

(** ** The text that is printed *)

(** The value of a [%d]: the code prints the wrong digits for the smallest [int]. *)
Definition signed_text (v : Z) : list Z := if v <? 0 then 45 :: dec_string (- v) else dec_string v.

(** What a conversion prints, and the rest of the format and the arguments. *)
Definition with_int (args : list karg) (text : Z → list Z) (rest : list Z) : option (list Z * list Z * list karg) :=
  match args with KInt z :: args => Some (text z, rest, args) | _ => None end.

Definition convert (format : list Z) (args : list karg) : option (list Z * list Z * list karg) :=
  let conv := default 0 (head format) in
  let rest := tail format in
  if conv =? pct then Some ([pct], rest, args)
  else if conv =? 99 then with_int args (λ z, [swrap 8 z]) rest
  else if conv =? 115 then match args with KStr s :: args => Some (default null_str s, rest, args) | _ => None end
  else
    match prefixed [108; 108; 117] format with
    | Some rest => with_int args (λ z, dec_string (u64 z)) rest
    | None =>
        if conv =? 117 then with_int args (λ z, dec_string (u32 z)) rest
        else if conv =? 100 then
          match args with
          | KInt z :: args => if i32 z =? - 2 ^ 31 then None else Some (signed_text (i32 z), rest, args)
          | _ => None
          end
        else if conv =? 120 then with_int args (λ z, hex_string (u64 z)) rest
        else if conv =? 112 then with_int args (λ z, 48 :: 120 :: hex_string (u64 z)) rest
        else None
    end.

Fixpoint kformat (fuel : nat) (format : list Z) (args : list karg) : option (list Z) :=
  match fuel with
  | O => None
  | S fuel =>
      match format with
      | [] => Some []
      | c :: format =>
          if c =? pct then
            '(out, format, args) ← convert format args;
            app out <$> kformat fuel format args
          else cons c <$> kformat fuel format args
      end
  end.

(** ** Lemmas *)

Lemma break_pct_spec l : let '(lit, rest) := break_pct l in l = lit ++ rest ∧ Forall (λ c, c ≠ pct) lit.
Proof.
  induction l as [|c l IH]; [done|]. cbn [break_pct]. case_if; [done|]. destruct (break_pct l) as [lit rest]. destruct IH as [-> Hl].
  breflect. by repeat constructor.
Qed.

Lemma kformat_lit lit : ∀ fuel rest args out, Forall (λ c, c ≠ pct) lit → kformat fuel (lit ++ rest) args = Some out →
  ∃ fuel' out', out = lit ++ out' ∧ kformat fuel' rest args = Some out'.
Proof.
  induction lit as [|c lit IH]; intros fuel rest args out Hl E; [by exists fuel, out|]. inversion_clear Hl.
  destruct fuel as [|fuel]; [done|]. cbn [kformat app] in E. rewrite (proj2 (Z.eqb_neq c pct)) in E by done.
  destruct (kformat fuel (lit ++ rest) args) as [o|] eqn:Eo; [|done]. injection E as <-.
  destruct (IH fuel rest args o) as (fuel' & out' & -> & E'); [done|done|]. by exists fuel', out'.
Qed.

Lemma number_all size l : Z.of_nat (length l) = size → number size l = l.
Proof. intros E. unfold number. apply take_ge. lia. Qed.

Lemma number_dec v : number (get_unsigned2string_final_size v) (dec_string v) = dec_string v.
Proof. apply number_all, dec_string_size. Qed.
Lemma number_hex v : number (get_unsigned2hex_final_size v) (hex_string v) = hex_string v.
Proof. apply number_all, hex_string_size. Qed.

Lemma dec_string_nonempty w v : 0 <= w → dec_string (wrap w v) ≠ [].
Proof.
  intros Hw. pose proof (wrap_range w v Hw). unfold dec_string. case_if; [done|]. breflect. cbn [digits_rev].
  rewrite (proj2 (Z.ltb_lt 0 _)), fmap_cons by lia. cbn [rev]. intros []%app_eq_nil. done.
Qed.
Lemma hex_string_nonempty w v : 0 <= w → hex_string (wrap w v) ≠ [].
Proof.
  intros Hw. pose proof (wrap_range w v Hw). unfold hex_string. case_if; [done|]. breflect. cbn [digits_rev].
  rewrite (proj2 (Z.ltb_lt 0 _)), fmap_cons by lia. cbn [rev]. intros []%app_eq_nil. done.
Qed.

Lemma prefixed_length s l rest : prefixed s l = Some rest → (length rest <= length l)%nat.
Proof.
  revert l. induction s as [|c s IH]; intros l E; [by injection E as <-|]. destruct l as [|x l]; [done|]. cbn in E.
  destruct (x =? c); [|done]. apply IH in E. cbn. lia.
Qed.

Section kprintf.
Context {cols rows : Z}.

Definition ascii (c : Z) : Prop := 0 <= c < 128.

Lemma kprint_wp data : ∀ t d, shows cols rows false t d → Forall ascii data →
  wp (kprint data) (λ ok t', ok = true ∧ shows cols rows false t' (fold_left (show cols rows) data d)) t.
Proof.
  induction data as [|c data IH]; intros t d Hs Hd; [done|]. inversion_clear Hd as [|? ? Hc Hd']. cbn [kprint]. apply wp_bind.
  eapply wp_mono; [exact (putchar_wp _ _ _ Hs Hc)|]. cbn beta. intros r t' [-> Hs'].
  unfold ascii in Hc. rewrite (proj2 (Z.eqb_neq c (-1))) by lia. by apply IH.
Qed.

(** What the continuation of a piece of output has to establish. *)
Definition prints (m : st term Z) (written : Z) (out : list Z) : Prop := ∀ t d, shows cols rows false t d →
  wp m (λ r t', r = written + Z.of_nat (length out) ∧ shows cols rows false t' (fold_left (show cols rows) out d)) t.

Lemma put_out_prints s len written k out : Z.of_nat (length s) = len → Forall ascii s → 0 <= written → written + len <= INT_MAX →
  prints (k (written + len)) (written + len) out → prints (put_out false s len written k) written (s ++ out).
Proof.
  intros Hl Hs Hw Hmax Hk t d Hsh. unfold put_out. apply wp_bind. eapply wp_mono; [by apply kprint_wp|]. cbn beta. intros r t' [-> Hs'].
  cbn [negb]. rewrite swrap_small by (unfold INT_MAX in *; lia). eapply wp_mono; [by apply Hk|]. cbn beta. intros r t'' [-> Hs''].
  rewrite length_app, fold_left_app. split; [lia|done].
Qed.

Lemma dec_ascii v : Forall ascii (dec_string v).
Proof. eapply Forall_impl; [apply dec_string_chars|]. unfold ascii. cbn. lia. Qed.
Lemma hex_ascii v : Forall ascii (hex_string v).
Proof. eapply Forall_impl; [apply hex_string_chars|]. unfold ascii. cbn. lia. Qed.

Lemma prints_int k z args written out : prints (k (z, args)) written out → prints (st_run (karg_int (KInt z :: args)) ≫= k) written out.
Proof. done. Qed.
Lemma prints_str k x args written out : prints (k (x, args)) written out → prints (st_run (karg_str (KStr x :: args)) ≫= k) written out.
Proof. done. Qed.

Lemma kvprintf_prints fuel : ∀ kfuel format args written out, (length format < fuel)%nat → kformat kfuel format args = Some out →
  Forall ascii out → 0 <= written → written + Z.of_nat (length out) <= INT_MAX → prints (kvprintf fuel format args written) written out.
Proof.
  induction fuel as [|fuel IH]; intros kfuel format args written out Hf E Ha Hw Hmax; [lia|].
  destruct kfuel as [|kfuel]; [done|]. cbn [kvprintf]. rewrite (wrap_small 64) by (unfold INT_MAX in *; lia).
  destruct format as [|c0 format1]; [injection E as <-; intros t d Hs; apply wp_ret; split; [cbn; lia|done]|].
  (* the rest of the format after a piece *)
  assert (∀ kf rest args s o, (length rest <= length format1)%nat → kformat kf rest args = Some o → out = s ++ o →
    ∀ len, Z.of_nat (length s) = len → prints (put_out false s len written (kvprintf fuel rest args)) written out) as Hpiece.
  { intros kf rest args' s o Hr Eo -> len Hl. apply Forall_app in Ha as [Hs Ho]. rewrite length_app in Hmax.
    apply put_out_prints; [done|done|done|lia|]. eapply IH; [cbn in Hf; lia|exact Eo|done|lia|lia]. }
  assert (∀ kf c rest o, (length rest <= length format1)%nat → kformat kf rest args = Some o → out = c :: o →
    prints (let '(lit, rest) := break_pct rest in let amount := Z.of_nat (length (c :: lit)) in
            put_out (INT_MAX - written <? amount) (c :: lit) amount written (kvprintf fuel rest args)) written out) as Hlit.
  { intros kf c rest o Hr Eo ->. pose proof (break_pct_spec rest) as Hb. destruct (break_pct rest) as [lit rest']. destruct Hb as [-> Hl].
    destruct (kformat_lit _ _ _ _ _ Hl Eo) as (kf' & o' & -> & Eo'). cbn zeta. cbn [length] in *. rewrite !length_app in *.
    rewrite (proj2 (Z.ltb_ge _ _)) by lia. apply (Hpiece kf' _ _ (c :: lit) o'); [lia|done|done|done]. }
  cbn [kformat] in E. destruct (c0 =? pct) eqn:Ec0; breflect; cbn [negb orb].
  2:{ destruct (kformat kfuel format1 args) as [o|] eqn:Eo; [|done]. injection E as <-. by apply (Hlit kfuel _ _ o). }
  unfold convert in E. destruct format1 as [|conv f]; cbn [head default tail from_option id] in *.
  { destruct args; done. }
  destruct (conv =? pct) eqn:Ep; breflect.
  { subst conv. rewrite bool_decide_true by done. cbn in E. destruct (kformat kfuel f args) as [o|] eqn:Eo; [|done]. injection E as <-.
    apply (Hlit kfuel _ _ o); [cbn; lia|done|done]. }
  rewrite bool_decide_false by congruence.
  (* a number *)
  assert (∀ k text rest, with_int args text rest ≫= (λ '(o, f, a), app o <$> kformat kfuel f a) = Some out → (length rest <= S (length f))%nat →
    (∀ z args' o, args = KInt z :: args' → kformat kfuel rest args' = Some o → out = text z ++ o → prints (k (z, args')) written out) →
    prints (st_run (karg_int args) ≫= k) written out) as Hint.
  { intros k text rest Et Hr Hk. destruct args as [|[z|] args']; [done| |done]. cbn in Et.
    destruct (kformat kfuel rest args') as [o|] eqn:Eo; [|done]. injection Et as <-. apply prints_int. by eapply Hk. }
  assert (∀ l, l ≠ [] → (∃ o, out = l ++ o) → (INT_MAX - written =? 0) = false) as Hsome.
  { intros l Hl [o ->]. apply Z.eqb_neq. rewrite length_app in Hmax. destruct l; [done|]. cbn in Hmax. lia. }
  destruct (conv =? 99); [|destruct (conv =? 115); [|destruct (prefixed [108; 108; 117] (conv :: f)) as [rest|] eqn:Epre]].
  - eapply Hint; [exact E|lia|]. intros z args' o -> Eo Eout. cbn beta iota. rewrite (Hsome [swrap 8 z]) by (done || by exists o).
    by apply (Hpiece kfuel f args' [swrap 8 z] o); [cbn; lia|..].
  - destruct args as [|[|x] args']; [done|done|]. cbn [mbind option_bind] in E. destruct (kformat kfuel f args') as [o|] eqn:Eo; [|done]. injection E as <-.
    apply prints_str. rewrite length_app in Hmax. rewrite (proj2 (Z.ltb_ge _ _)) by lia.
    by apply (Hpiece kfuel f args' (default null_str x) o); [cbn; lia|..].
  - apply prefixed_length in Epre. cbn [length] in *. eapply Hint; [exact E|lia|]. intros z args' o -> Eo Eout. cbn beta iota zeta.
    rewrite number_dec, (Hsome (dec_string (u64 z))) by (by apply dec_string_nonempty || by exists o).
    apply (Hpiece kfuel rest args' (dec_string (u64 z)) o); [lia|done|done|apply dec_string_size].
  - destruct (conv =? 117); [|destruct (conv =? 100); [|destruct (conv =? 120); [|destruct (conv =? 112); [|done]]]].
    + eapply Hint; [exact E|lia|]. intros z args' o -> Eo Eout. cbn beta iota zeta.
      rewrite number_dec, (Hsome (dec_string (u32 z))) by (by apply dec_string_nonempty || by exists o).
      apply (Hpiece kfuel f args' (dec_string (u32 z)) o); [cbn; lia|done|done|apply dec_string_size].
    + destruct args as [|[z|] args']; [done| |done]. cbn [with_int] in E. destruct (i32 z =? - 2 ^ 31) eqn:Emin; [done|]. breflect. cbn in E.
      destruct (kformat kfuel f args') as [o|] eqn:Eo; [|done]. injection E as <-. apply prints_int. cbn beta iota zeta.
      pose proof (swrap_range 32 z ltac:(lia)) as Hz. unfold signed_text in *. destruct (i32 z <? 0) eqn:Eneg; breflect.
      * rewrite (swrap_small 32 (- i32 z)), (wrap_small 64) by lia.
        rewrite number_all by (cbn [length]; rewrite Nat2Z.inj_succ, dec_string_size; lia).
        rewrite (Hsome (45 :: dec_string (- i32 z))) by (done || by exists o).
        apply (Hpiece kfuel f args' (45 :: dec_string (- i32 z)) o); [cbn; lia|done|done|cbn [length]; rewrite Nat2Z.inj_succ, dec_string_size; lia].
      * rewrite (wrap_small 64) by lia. rewrite number_dec, (Hsome (dec_string (i32 z))).
        -- apply (Hpiece kfuel f args' (dec_string (i32 z)) o); [cbn; lia|done|done|apply dec_string_size].
        -- rewrite <- (wrap_small 64 (i32 z)) by lia. by apply dec_string_nonempty.
        -- by exists o.
    + eapply Hint; [exact E|lia|]. intros z args' o -> Eo Eout. cbn beta iota zeta.
      rewrite number_hex, (Hsome (hex_string (u64 z))) by (by apply hex_string_nonempty || by exists o).
      apply (Hpiece kfuel f args' (hex_string (u64 z)) o); [cbn; lia|done|done|apply hex_string_size].
    + eapply Hint; [exact E|lia|]. intros z args' o -> Eo Eout. cbn beta iota zeta.
      rewrite number_hex, (Hsome (48 :: 120 :: hex_string (u64 z))) by (done || by exists o). subst out.
      intros t d Hs. apply wp_bind. eapply wp_mono; [apply (kprint_wp [48; 120] _ _ Hs); repeat constructor; by vm_compute|].
      cbn beta. intros r t1 [_ Hs1]. apply wp_bind. eapply wp_mono; [apply (kprint_wp _ _ _ Hs1), hex_ascii|].
      cbn beta. intros ok t2 [-> Hs2]. cbn [negb]. pose proof (hex_string_size (u64 z)) as Hsz. cbn [app length] in Hmax. rewrite length_app in Hmax.
      inversion_clear Ha as [|? ? _ Ha1]. inversion_clear Ha1 as [|? ? _ Ha2]. apply Forall_app in Ha2 as [_ Ho].
      rewrite swrap_small by (unfold INT_MAX in *; lia).
      eapply wp_mono; [apply (IH kfuel f args' _ o); [cbn in Hf; lia|done|done|lia|lia|exact Hs2]|]. cbn beta. intros r' t3 [-> Hs3].
      cbn [app length]. rewrite length_app. split; [lia|]. cbn [fold_left]. by rewrite fold_left_app.
Qed.
End kprintf.

(** ** Theorem *)

(** [kprintf] prints the rendered format: when the text is ASCII and not longer than an [int] can count, the
    result is its length and the screen and the serial line show exactly that text. *)
Theorem kprintf_renders cols rows t d format args out :
  shows cols rows false t d → kformat (S (length format)) format args = Some out → Forall ascii out → Z.of_nat (length out) <= INT_MAX →
  ∃ t', kprintf format args t = Done (Z.of_nat (length out), t') ∧ shows cols rows false t' (fold_left (show cols rows) out d).
Proof.
  intros Hs E Ha Hl. pose proof (kvprintf_prints (S (length format)) _ format args 0 out ltac:(lia) E Ha ltac:(lia) Hl t d Hs) as Hw.
  destruct (wp_elim _ _ _ Hw) as (r & t' & Er & -> & Hs'). by exists t'.
Qed.

(** The smallest [int] is printed as a 64-bit number. *)
Lemma kprintf_int_min t fuel : kvprintf (S fuel) (chars "%d") [KInt (- 2 ^ 31)] 0 t =
  put_out false (chars "-18446744071562067968") 21 0 (kvprintf fuel [] []) t.
Proof. done. Qed.

Lemma kprintf_renders_witness : ∃ t', kprintf (chars "%s=%d%%") [KStr (Some (chars "x")); KInt 7] demo_term = Done (4, t') ∧
  shows 4 2 false t' (fold_left (show 4 2) (chars "x=7%") demo_display).
Proof.
  apply (kprintf_renders 4 2 demo_term demo_display (chars "%s=%d%%") [KStr (Some (chars "x")); KInt 7] (chars "x=7%") demo_term_shows).
  - done.
  - repeat constructor; by vm_compute.
  - by vm_compute.
Defined.
