(* ===== verification/Exception.v ===== *)
(** * Exceptions (lizard/exception.c)

    The report of a fault on the console, with the registers and the chain of the stack frames, before the fault is dealt
    with: what becomes of the task is [exception_handle] of Task. The kernel reads the frames from its own address
    space. *)

From S2P Require Import Prelude CString Framebuffer Tty Input Kprintf Task.

Local Open Scope Z_scope.

Definition HIGH_HALF_MIN : Z := 0xFFFF800000000000.
Definition VGA_COLOR_RED : Z := 0xFF0000.

Definition exc_name (v : Z) : list Z :=
  match v with
  | 0 => chars "#DE Divide Error"
  | 1 => chars "#DB Debug"
  | 2 => chars "NMI"
  | 3 => chars "#BP Breakpoint"
  | 4 => chars "#OF Overflow"
  | 5 => chars "#BR Bound Range"
  | 6 => chars "#UD Invalid Opcode"
  | 7 => chars "#NM Device Not Available"
  | 8 => chars "#DF Double Fault"
  | 10 => chars "#TS Invalid TSS"
  | 11 => chars "#NP Segment Not Present"
  | 12 => chars "#SS Stack Fault"
  | 13 => chars "#GP General Protection"
  | 14 => chars "#PF Page Fault"
  | 16 => chars "#MF x87 FP"
  | 17 => chars "#AC Alignment Check"
  | 18 => chars "#MC Machine Check"
  | 19 => chars "#XM SIMD FP"
  | _ => chars "Exception"
  end.

Definition set_color (color : Z) (t : term) : term :=
  Term (screen t) (terminal_width t) (terminal_height t) (terminal_text_width t) (terminal_text_height t)
    (terminal_row t) (terminal_column t) color (cmd_start_column t) (cmd_start_row t) (text_buffer t) (tty_lock t) (com1 t).

(** A message whose length is not looked at, with its line end. *)
Definition say (format : string) (args : list karg) : st term unit := _ ← kprintf (chars format ++ [10]) args; mret tt.

Definition flag_text (b : bool) (yes no : string) : karg := KStr (Some (chars (if b then yes else no))).
Definition has_bit (e m : Z) : bool := negb (Z.land e m =? 0).

(** [cr2] is the register that holds the address of a page fault. *)
Definition dump_regs (cr2 : Z) (r : cpu_state) : st term unit :=
  _ ← say "  RIP=%p  CS=%x  RFLAGS=%p" [KInt (rip r); KInt (u32 (cs r)); KInt (rflags r)];
  _ ← say "  RSP=%p  SS=%x  errcode=%x" [KInt (rsp r); KInt (u32 (ss r)); KInt (u32 (errcode r))];
  _ ← say "  RAX=%p RBX=%p RCX=%p RDX=%p" [KInt (rax r); KInt (rbx r); KInt (rcx r); KInt (rdx r)];
  _ ← say "  RSI=%p RDI=%p RBP=%p" [KInt (rsi r); KInt (rdi r); KInt (rbp r)];
  _ ← say "  R8 =%p R9 =%p R10=%p R11=%p" [KInt (r8 r); KInt (r9 r); KInt (r10 r); KInt (r11 r)];
  _ ← say "  R12=%p R13=%p R14=%p R15=%p" [KInt (r12 r); KInt (r13 r); KInt (r14 r); KInt (r15 r)];
  if vec r =? 14 then
    let e := errcode r in
    say "  CR2=%p  [%s | %s | %s%s%s]" [KInt cr2; flag_text (has_bit e 1) "protection" "not-present"; flag_text (has_bit e 2) "write" "read";
      flag_text (has_bit e 4) "user" "kernel"; flag_text (has_bit e 8) " | reserved-bit" EmptyString; flag_text (has_bit e 16) " | instr-fetch" EmptyString]
  else mret tt.

Section report.
(** The 64-bit word at an address of the kernel; an address that is not mapped has none. *)
Variable kword : Z → option Z.

(** [for (int i = 0; i < 20; i++)], with [n] turns to go. *)
Fixpoint backtrace_loop (n : nat) (rbp : Z) : st term unit :=
  match n with
  | O => mret tt
  | S n =>
      if (rbp <? HIGH_HALF_MIN) || negb (Z.land rbp 0x7 =? 0) then mret tt
      else
        ret ← st_run (access (kword (u64 (rbp + 8))));
        next ← st_run (access (kword rbp));
        if ret <? HIGH_HALF_MIN then mret tt
        else
          _ ← say "    %p" [KInt ret];
          if next <=? rbp then mret tt else backtrace_loop n next
  end.

Definition backtrace (rbp : Z) : st term unit := _ ← say "  backtrace:" []; backtrace_loop 20 rbp.

Section handler.
Context {M : Type} `{!task_mem M}.
Variable idle : Z.
Implicit Types c : con M.

(** The fault is in user mode, and the running task is one that can be killed. *)
Definition kills c : option Z :=
  let s := csys c in
  match current_task s with
  | Some t => if (Z.land (cs (ptrace s)) 3 =? 3) && scheduler_enabled s && negb (t =? idle) then Some t else None
  | None => None
  end.

Definition exception_handle (cr2 exit_fn : Z) : st (con M) unit :=
  c ← st_get;
  let regs := ptrace (csys c) in
  let saved_color := tty_color (tty c) in
  _ ← on_tty (st_modify (set_color VGA_COLOR_RED));
  _ ← on_tty (kprintf (10 :: chars "*** EXCEPTION %u  %s ***" ++ [10]) [KInt (u32 (vec regs)); KStr (Some (exc_name (vec regs)))]);
  _ ← on_tty (st_modify (set_color saved_color));
  _ ← on_tty (dump_regs cr2 regs);
  _ ← on_tty (backtrace (rbp regs));
  _ ← match kills c with
      | Some t => tk ← on_sys (get_task t); on_tty (say "  killing task '%s' (pid %u)" [KStr (Some (t_name tk)); KInt (u32 (t_pid tk))])
      | None => mret tt
      end;
  on_sys (Task.exception_handle idle exit_fn).

(** ** The report and the tasks *)

Lemma on_tty_keeps {A} (m : st term A) a c c' : on_tty m c = Done (a, c') → csys c' = csys c.
Proof. unfold on_tty. destruct (m (tty c)) as [[? ?]|]; [|done]. by intros [= _ <-]. Qed.

(** The report touches the console only. *)
Theorem exception_handle_tasks cr2 exit_fn c c' : exception_handle cr2 exit_fn c = Done (tt, c') → Task.exception_handle idle exit_fn (csys c) = Done (tt, csys c').
Proof.
  intros E. unfold exception_handle in E. apply st_bind_Done in E as (c0 & c00 & [= <- <-] & E).
  repeat (apply st_bind_Done in E as (? & ? & E1%on_tty_keeps & E); rewrite <- E1; clear E1).
  apply st_bind_Done in E as ([] & c6 & Ek & E).
  assert (csys c6 = csys x8) as <-.
  { destruct (kills c) as [t|]; [|by injection Ek as <-]. apply st_bind_Done in Ek as (tk & c7 & Eg & Ek). rewrite (on_tty_keeps _ _ _ _ Ek).
    unfold on_sys in Eg. destruct (get_task t (csys x8)) as [[? s]|] eqn:E0; [|done]. injection Eg as _ <-. unfold get_task, mbind, st_bind, st_get, st_run in E0.
    destruct (access _) as [|]; [|done]. by injection E0 as _ <-. }
  unfold on_sys in E. destruct (Task.exception_handle idle exit_fn (csys c6)) as [[[] s]|]; [|done]. by injection E as <-.
Qed.

(** The frame pointer of the faulting program is followed: one that is aligned, in the half of the kernel and not mapped
    stops the kernel, where the task was to be killed. *)
Theorem exception_user_rbp cr2 exit_fn c : HIGH_HALF_MIN <= rbp (ptrace (csys c)) → Z.land (rbp (ptrace (csys c))) 7 = 0 → kword (u64 (rbp (ptrace (csys c)) + 8)) = None →
  ∃ e, exception_handle cr2 exit_fn c = Stop e.
Proof.
  intros Hr Ha Hk. destruct (exception_handle cr2 exit_fn c) as [[[] c']|e] eqn:E; [|by exists e]. exfalso.
  unfold exception_handle in E. apply st_bind_Done in E as (c0 & c00 & [= <- <-] & E).
  do 4 (apply st_bind_Done in E as (? & ? & _ & E)). apply st_bind_Done in E as (? & ? & E & _). unfold on_tty in E.
  match type of E with match ?m with _ => _ end = _ => destruct m as [[? ?]|] eqn:Eb; [|done] end. clear E. unfold backtrace in Eb.
  apply st_bind_Done in Eb as (? & ? & _ & Eb). cbn [backtrace_loop] in Eb. rewrite (proj2 (Z.ltb_ge _ _)), Ha in Eb by done. cbn [negb orb Z.eqb] in Eb. by rewrite Hk in Eb.
Qed.
End handler.
End report.
