(* ===== verification/Kernel.v ===== *)
(** * The state of the kernel

    The components that a system call reaches: the console with the tasks
    (Input), the virtual file system (Vfs) and the memory of the running program, a map from
    the addresses it has mapped to bytes. An access of the kernel to an address that is
    not mapped is a fault in kernel mode, which stops the kernel. *)

From S2P Require Import Prelude CString Tty Input Kprintf Task Vfs.

Local Open Scope Z_scope.

Record kern (M F : Type) := Kern { kcon : con M; kvfs : vfs F; umem : mem }.
Arguments Kern {_ _} _ _ _.
Arguments kcon {_ _} _.
Arguments kvfs {_ _} _.
Arguments umem {_ _} _.

Section kernel.
Context {M F : Type}.

Definition put_con (c : con M) (k : kern M F) : kern M F := Kern c (kvfs k) (umem k).
Definition put_vfs (v : vfs F) (k : kern M F) : kern M F := Kern (kcon k) v (umem k).
Definition put_umem (m : mem) (k : kern M F) : kern M F := Kern (kcon k) (kvfs k) m.

Definition on_con {A} (m : st (con M) A) : st (kern M F) A := λ k,
  match m (kcon k) with Done (a, c) => Done (a, put_con c k) | Stop e => Stop e end.
Definition on_vfs {A} (m : st (vfs F) A) : st (kern M F) A := λ k,
  match m (kvfs k) with Done (a, v) => Done (a, put_vfs v k) | Stop e => Stop e end.
Definition on_tasks {A} (m : st (sys M) A) : st (kern M F) A := on_con (on_sys m).
Definition on_term {A} (m : st term A) : st (kern M F) A := on_con (on_tty m).
Definition on_umem (f : mem → run mem) : st (kern M F) unit := λ k,
  match f (umem k) with Done m => Done (tt, put_umem m k) | Stop e => Stop e end.

(** A message of the kernel, a line. *)
Definition klog (format : string) (args : list karg) : st (kern M F) unit :=
  _ ← on_term (kprintf (chars format ++ [10]) args); mret tt.

Lemma wp_on_con {A} (m : st (con M) A) (Q : A → kern M F → Prop) k :
  wp m (λ a c, Q a (put_con c k)) (kcon k) → wp (on_con m) Q k.
Proof. unfold wp, on_con. by destruct (m (kcon k)) as [[a c]|]. Qed.

Lemma wp_on_vfs {A} (m : st (vfs F) A) (Q : A → kern M F → Prop) k :
  wp m (λ a v, Q a (put_vfs v k)) (kvfs k) → wp (on_vfs m) Q k.
Proof. unfold wp, on_vfs. by destruct (m (kvfs k)) as [[a c]|]. Qed.

Definition ksys (k : kern M F) : sys M := csys (kcon k).
Definition put_sys (s : sys M) (k : kern M F) : kern M F := put_con (set_csys s (kcon k)) k.

Lemma wp_on_tasks {A} (m : st (sys M) A) (Q : A → kern M F → Prop) k :
  wp m (λ a s, Q a (put_sys s k)) (ksys k) → wp (on_tasks m) Q k.
Proof. intros Hw. apply wp_on_con, wp_on_sys. exact Hw. Qed.

Lemma wp_on_umem f m' (Q : unit → kern M F → Prop) k : f (umem k) = Done m' → Q tt (put_umem m' k) → wp (on_umem f) Q k.
Proof. intros E HQ. unfold wp, on_umem. by rewrite E. Qed.
End kernel.
