(* ===== verification/Loader.v ===== *)
(** * The program loader (lizard/loader.c, lizard/elf.h)

    [load_elf] streams the segments of an ELF file into the address space of a
    new task through the kernel's aliases of its frames, and builds the argument
    block on its stack; [spawn] makes a task of a path. The interface [user_mem] adds to
    [task_mem] what the loader needs of the page tables: the alias of a user
    address, the copy through it, and, for the specification, the byte that an
    address space has at an address. *)

From S2P Require Import Prelude CString Bytes Vfs Tty Input Kprintf Task Kernel.

Local Open Scope Z_scope.

Definition MAX_PHDRS : Z := 16.
Definition MAX_ARGS : nat := 32.
Definition ET_EXEC : Z := 2.
Definition PT_LOAD : Z := 1.
Definition EHDR_SIZE : Z := 64.
Definition PHDR_SIZE : Z := 56.
Definition PAGE : Z := 4096.

Class user_mem (M : Type) `{!task_mem M} := UserMem {
  um_kva : Z → Z → st M Z;                   (* pgtable_kva(pml4, vaddr) *)
  um_memcpy : Z → list Z → st M unit;        (* memcpy to a kernel address *)
  um_byte : M → Z → Z → option Z;            (* what an address space has at an address *)
  um_room : M → Z → nat → Prop               (* an address space with room for some more pages *)
}.

(** ** Reading the headers *)

Definition le64 (l : list Z) (off : Z) : Z := le32 l off + 2 ^ 32 * le32 l (off + 4).
Definition put64 (v : Z) : list Z := put32 (v mod 2 ^ 32) ++ put32 (v / 2 ^ 32 mod 2 ^ 32).

Record elf64_ehdr := Ehdr { e_ident : list Z; e_type : Z; e_entry : Z; e_phoff : Z; e_phnum : Z }.
Record elf64_phdr := Phdr { p_type : Z; p_offset : Z; p_vaddr : Z; p_filesz : Z; p_memsz : Z }.

(** The fields that are used, at their offsets in the structure. *)
Definition ehdr_of (l : list Z) : elf64_ehdr := Ehdr (take 16 l) (le16 l 16) (le64 l 24) (le64 l 32) (le16 l 56).
Definition phdr_at (l : list Z) (i : Z) : elf64_phdr :=
  let l := slice (i * PHDR_SIZE) PHDR_SIZE l in
  Phdr (le32 l 0) (le64 l 8) (le64 l 16) (le64 l 32) (le64 l 40).

Definition elf_magic : list Z := 127 :: chars "ELF".

Section loader.
Context {M F : Type} `{!task_mem M, !user_mem M, !fs_ops F}.

Definition on_mem {A} (m : st M A) : st (kern M F) A := on_tasks (Task.on_mem m).

(** [put] stores bytes at an offset in the destination; the bytes read are returned. *)
Fixpoint read_loop (fuel : nat) (f : Z) (put : Z → list Z → st (kern M F) unit) (len pos : Z) :
    st (kern M F) (option (list Z)) :=
  match fuel with
  | O => st_stop Diverge
  | S fuel =>
      if len =? 0 then mret (Some [])
      else
        '(n, buf) ← on_vfs (vfs_read (Some f) len);
        if n <=? 0 then mret None
        else
          _ ← put pos buf;
          rest ← read_loop fuel f put (u64 (len - n)) (pos + n);
          mret (app buf <$> rest)
  end.

Definition seek (f off : Z) : st (vfs F) unit :=
  fl ← get_file f; put_file f (File (fl_inode fl) off (fl_flags fl) (fl_dentry fl)).

(** Nothing is a short read or an error. *)
Definition read_at (f off : Z) (put : Z → list Z → st (kern M F) unit) (len : Z) : st (kern M F) (option (list Z)) :=
  _ ← on_vfs (seek f off);
  read_loop (S (Z.to_nat len)) f put len 0.

(** The destination is a variable of the caller. *)
Definition to_local (pos : Z) (buf : list Z) : st (kern M F) unit := mret tt.
(** The destination is at a kernel address. *)
Definition to_kernel (p : Z) (pos : Z) (buf : list Z) : st (kern M F) unit := on_mem (um_memcpy (p + pos) buf).

(** ** The argument block *)

Fixpoint ucopy (fuel : nat) (pml4 uva : Z) (src : list Z) : st M unit :=
  match fuel with
  | O => st_stop Diverge
  | S fuel =>
      match src with
      | [] => mret tt
      | _ =>
          k ← um_kva pml4 uva;
          let chunk := PAGE - Z.land uva 0xFFF in
          let chunk := if Z.of_nat (length src) <? chunk then Z.of_nat (length src) else chunk in
          _ ← um_memcpy k (take (Z.to_nat chunk) src);
          ucopy fuel pml4 (u64 (uva + chunk)) (drop (Z.to_nat chunk) src)
      end
  end.

Definition ucopy_all (pml4 uva : Z) (src : list Z) : st M unit := ucopy (S (length src)) pml4 uva src.
Definition uput64 (pml4 uva val : Z) : st M unit := ucopy_all pml4 uva (put64 val).

(** The strings, the last one first; their addresses from the first one on. *)
Fixpoint push_strings (pml4 : Z) (rev_args : list (list Z)) (sp : Z) (argp : list Z) : st M (Z * list Z) :=
  match rev_args with
  | [] => mret (sp, argp)
  | s :: rev_args =>
      let sp := u64 (sp - (Z.of_nat (length s) + 1)) in
      _ ← ucopy_all pml4 sp (s ++ [0]);
      push_strings pml4 rev_args sp (sp :: argp)
  end.

(** Words from a stack pointer downwards. *)
Fixpoint push_words (pml4 : Z) (ws : list Z) (sp : Z) : st M Z :=
  match ws with
  | [] => mret sp
  | w :: ws =>
      let sp := u64 (sp - 8) in
      _ ← uput64 pml4 sp w;
      push_words pml4 ws sp
  end.

(** [argv] are the arguments up to the null pointer. *)
Definition setup_user_stack (tk : task) (argv : list (list Z)) : st M Z :=
  let args := take MAX_ARGS argv in
  let argc := Z.of_nat (length args) in
  '(sp, argp) ← push_strings (t_pml4 tk) (rev args) (rsp (t_regs tk)) [];
  let sp := Z.land sp (2 ^ 64 - 16) in
  let sp := if argc mod 2 =? 1 then u64 (sp - 8) else sp in
  push_words (t_pml4 tk) ([0; 0; 0] ++ rev argp ++ [argc]) sp.

(** ** Segments *)

(** The pages of a segment from offset [j] on; whether a read failed. *)
Fixpoint load_pages (fuel : nat) (f pml4 i : Z) (ph : elf64_phdr) (j : Z) : st (kern M F) bool :=
  match fuel with
  | O => st_stop Diverge
  | S fuel =>
      if p_memsz ph <=? j then mret true
      else
        frame ← on_mem (tm_vmm_alloc pml4 (u64 (p_vaddr ph + j)) PAGE_USER_FLAGS);
        _ ← on_mem (tm_memset frame PAGE);
        let fill := if j <? p_filesz ph then p_filesz ph - j else 0 in
        let fill := if PAGE <? fill then PAGE else fill in
        ok ← (if fill =? 0 then mret true
              else
                r ← read_at f (u64 (p_offset ph + j)) (to_kernel frame) fill;
                mret (match r with Some _ => true | None => false end));
        if negb ok then
          _ ← klog "load_elf: short read on segment %d" [KInt i];
          mret false
        else load_pages fuel f pml4 i ph (u64 (j + PAGE))
  end.

Fixpoint load_segments (n : nat) (f pml4 : Z) (phdrs : list Z) (i : Z) : st (kern M F) bool :=
  match n with
  | O => mret true
  | S n =>
      let ph := phdr_at phdrs i in
      if negb (p_type ph =? PT_LOAD) || (p_memsz ph =? 0) then load_segments n f pml4 phdrs (i + 1)
      else if negb (Z.land (p_vaddr ph) 0xFFF =? 0) then
        _ ← klog "load_elf: segment %d vaddr not page aligned" [KInt i];
        mret false
      else
        ok ← load_pages (S (Z.to_nat (p_memsz ph / PAGE + 1))) f pml4 i ph 0;
        if negb ok then mret false else load_segments n f pml4 phdrs (i + 1)
  end.

Definition set_rip (v : Z) (r : cpu_state) : cpu_state :=
  CpuState (rax r) (rbx r) (rcx r) (rdx r) (rdi r) (rsi r) (rbp r) (r8 r) (r9 r) (r10 r) (r11 r) (r12 r) (r13 r)
    (r14 r) (r15 r) (vec r) (errcode r) v (cs r) (rflags r) (rsp r) (ss r).
Definition set_rsp (v : Z) (r : cpu_state) : cpu_state :=
  CpuState (rax r) (rbx r) (rcx r) (rdx r) (rdi r) (rsi r) (rbp r) (r8 r) (r9 r) (r10 r) (r11 r) (r12 r) (r13 r)
    (r14 r) (r15 r) (vec r) (errcode r) (rip r) (cs r) (rflags r) v (ss r).

Definition load_elf (f t : Z) (argv : list (list Z)) : st (kern M F) Z :=
  eh ← read_at f 0 to_local EHDR_SIZE;
  match ehdr_of <$> eh with
  | None => _ ← klog "load_elf: short read on ELF header" []; mret (-1)
  | Some ehdr =>
      if negb (bool_decide (take 4 (e_ident ehdr) = elf_magic)) then _ ← klog "Not a valid ELF file" []; mret (-1)
      else if negb (e_type ehdr =? ET_EXEC) then _ ← klog "Not an executable ELF file" []; mret (-1)
      else if MAX_PHDRS <? e_phnum ehdr then
        _ ← klog "load_elf: too many program headers (%u)" [KInt (e_phnum ehdr)]; mret (-1)
      else
        phdr ← read_at f (e_phoff ehdr) to_local (e_phnum ehdr * PHDR_SIZE);
        match phdr with
        | None => _ ← klog "load_elf: short read on program headers" []; mret (-1)
        | Some phdrs =>
            tk ← on_tasks (get_task t);
            ok ← load_segments (Z.to_nat (e_phnum ehdr)) f (t_pml4 tk) phdrs 0;
            _ ← on_tasks (upd_task t (λ tk, set_regs (set_rip (e_entry ehdr) (t_regs tk)) tk));
            if negb ok then mret (-1)
            else
              tk ← on_tasks (get_task t);
              sp ← on_mem (setup_user_stack tk argv);
              _ ← on_tasks (upd_task t (λ tk, set_regs (set_rsp sp (t_regs tk)) tk));
              mret 0
        end
  end.

(** The characters after the last slash. *)
Definition base_name (path : list Z) : list Z :=
  fold_left (λ name c, if c =? 47 then [] else name ++ [c]) path [].

(** The current task is not null when a child is linked. *)
Definition spawn (path : list Z) (argv : list (list Z)) : st (kern M F) Z :=
  file ← on_vfs (vfs_open path 0);
  match file with
  | None => mret (-1)
  | Some f =>
      t ← on_mem tm_zalloc;
      match t with
      | None => _ ← on_vfs (vfs_close (Some f)); mret (-1)
      | Some t =>
          _ ← on_tasks (st_modify (λ s, put_tasks (<[t := zero_task]> (tasks s)) s));
          let name := base_name path in
          _ ← on_tasks (task_create t 0 name 1 true);
          _ ← on_tasks (upd_task t (set_heap true));
          s ← on_tasks st_get;
          _ ← match current_task s with
              | Some c => ck ← on_tasks (get_task c); on_tasks (upd_task t (set_cwd (t_cwd ck)))
              | None => mret tt
              end;
          let argv := match argv with [] => [name] | _ => argv end in
          rc ← load_elf f t argv;
          if negb (rc =? 0) then
            _ ← on_vfs (vfs_close (Some f));
            _ ← on_tasks (upd_task t (set_state TASK_STATE_TERMINATED));
            mret (-1)
          else
            _ ← on_vfs (vfs_close (Some f));
            _ ← on_tasks (upd_task t (Task.set_parent (current_task s)));
            c ← on_tasks get_current;
            _ ← on_tasks (sibling_add t c);
            _ ← on_tasks (task_set_ready t);
            tk ← on_tasks (get_task t);
            mret (i32 (t_pid tk))
      end
  end.
End loader.

(** ** What the loader relies on *)

(** [g] after the bytes [l] are written at [a]. *)
Definition blit (a : Z) (l : list Z) (g : Z → option Z) (x : Z) : option Z :=
  if bool_decide (a <= x < a + Z.of_nat (length l)) then l !! Z.to_nat (x - a) else g x.

(** [p] is the alias of the user address [va]. *)
Definition um_at {M} `{!task_mem M, !user_mem M} (m : M) (pml4 va p : Z) : Prop := um_kva pml4 va m = Done (p, m).

(** The [n] bytes at [va] are mapped. *)
Definition um_mapped {M} `{!task_mem M, !user_mem M} (m : M) (pml4 va n : Z) : Prop :=
  ∀ x, va <= x < va + n → is_Some (um_byte m pml4 x).

(** The write of [l] at [va] through the aliases. *)
Definition um_wrote {M} `{!task_mem M, !user_mem M} (pml4 : Z) (n : nat) (va : Z) (l : list Z) (m m' : M) : Prop :=
  um_room m' pml4 n ∧ (∀ x, um_byte m' pml4 x = blit va l (um_byte m pml4) x) ∧ ∀ y q, um_at m pml4 y q → um_at m' pml4 y q.

Class UserMemLaws (M : Type) `{!task_mem M, !user_mem M} : Prop := {
  ul_alloc m pml4 n va fl : um_room m pml4 (S n) → 0 <= va < 2 ^ 47 → va mod PAGE = 0 →
    ∃ v m', tm_vmm_alloc pml4 va fl m = Done (v, m') ∧ um_room m' pml4 n ∧ um_at m' pml4 va v ∧ um_mapped m' pml4 va PAGE ∧
      ∀ x, ¬ va <= x < va + PAGE → um_byte m' pml4 x = um_byte m pml4 x;
  ul_kva m pml4 n x : um_room m pml4 n → is_Some (um_byte m pml4 x) → ∃ p, um_at m pml4 x p;
  ul_memcpy m pml4 n x p i l : um_room m pml4 n → um_at m pml4 x p → 0 <= i → x mod PAGE + i + Z.of_nat (length l) <= PAGE →
    um_mapped m pml4 (x + i) (Z.of_nat (length l)) → ∃ m', um_memcpy (p + i) l m = Done (tt, m') ∧ um_wrote pml4 n (x + i) l m m';
  ul_memset m pml4 n x p : um_room m pml4 n → um_at m pml4 x p → x mod PAGE = 0 → um_mapped m pml4 x PAGE →
    ∃ m', tm_memset p PAGE m = Done (tt, m') ∧ um_wrote pml4 n x (replicate (Z.to_nat PAGE) 0) m m'
}.

(** The open file [f] reads as [data] in the states [P], wherever its offset is. *)
Record reads_as {F} `{!fs_ops F} (P : vfs F → Prop) (f : Z) (data : list Z) : Prop := {
  ra_size : Z.of_nat (length data) < 2 ^ 32;
  ra_seek v off : P v → 0 <= off < 2 ^ 32 → wp (seek f off) (λ _ v', P v' ∧ ∃ fl, files v' !! f = Some fl ∧ fl_offset fl = off) v;
  ra_read v fl n : P v → files v !! f = Some fl → 0 <= fl_offset fl → 0 <= n → fl_offset fl + n < 2 ^ 32 →
    let bytes := slice (fl_offset fl) (Z.min n (Z.of_nat (length data) - fl_offset fl)) data in
    wp (vfs_read (Some f) n) (λ r v', r = (Z.of_nat (length bytes), bytes) ∧ P v') v
}.

(** ** Lemmas on memory *)

Definition has (g : Z → option Z) (a : Z) (l : list Z) : Prop := ∀ i b, l !! i = Some b → g (a + Z.of_nat i) = Some b.

Lemma has_app g a l1 l2 : has g a (l1 ++ l2) ↔ has g a l1 ∧ has g (a + Z.of_nat (length l1)) l2.
Proof.
  split.
  - intros Hh. split; intros i b Hb; [by apply Hh, lookup_app_l_Some|].
    rewrite <- Z.add_assoc, <- Nat2Z.inj_add. apply Hh. rewrite lookup_app_r by lia. by replace (length l1 + i - length l1)%nat with i by lia.
  - intros [H1 H2] i b [Hb|[Hge Hb]]%lookup_app_Some; [by apply H1|].
    replace (a + Z.of_nat i) with (a + Z.of_nat (length l1) + Z.of_nat (i - length l1)) by lia. by apply H2.
Qed.

Lemma has_blit g a l : has (blit a l g) a l.
Proof.
  intros i b Hb. unfold blit. pose proof (lookup_lt_Some _ _ _ Hb). rewrite bool_decide_true by lia.
  by replace (Z.to_nat (a + Z.of_nat i - a)) with i by lia.
Qed.

Lemma has_ext g g' a l : has g a l → (∀ x, a <= x < a + Z.of_nat (length l) → g' x = g x) → has g' a l.
Proof. intros Hh He i b Hb. pose proof (lookup_lt_Some _ _ _ Hb). rewrite He by lia. by apply Hh. Qed.

Lemma put32_length v : length (put32 v) = 4%nat.
Proof. done. Qed.
Lemma le64_put64 v : 0 <= v < 2 ^ 64 → le64 (put64 v) 0 = v.
Proof.
  intros Hv. change (le64 (put64 v) 0) with (le32 (put32 (v mod 2 ^ 32)) 0 + 2 ^ 32 * le32 (put32 (v / 2 ^ 32 mod 2 ^ 32)) 0).
  rewrite !le32_put32 by (apply Z.mod_pos_bound; lia). Z.to_euclidean_division_equations. lia.
Qed.

Lemma put64_length v : length (put64 v) = 8%nat.
Proof. done. Qed.

Section memory.
Context {M : Type} `{UserMemLaws M}.
Variables (pml4 : Z) (n : nat).

(** What one or several writes between [lo] and [hi] leave. *)
Record within (lo hi : Z) (m m' : M) : Prop := {
  wi_room : um_room m' pml4 n;
  wi_same x : ¬ lo <= x < hi → um_byte m' pml4 x = um_byte m pml4 x;
  wi_mapped x : is_Some (um_byte m pml4 x) → is_Some (um_byte m' pml4 x)
}.

Lemma within_trans lo hi lo' hi' m m' m'' : within lo hi m m' → within lo' hi' m' m'' → lo' <= lo → hi <= hi' → within lo' hi' m m''.
Proof.
  intros [_ H1 H2] [H3 H4 H5] Hl Hh. split; [done| |by auto]. intros x Hx. rewrite H4 by done. apply H1. lia.
Qed.

Lemma wrote_within va l m m' : um_wrote pml4 n va l m m' → within va (va + Z.of_nat (length l)) m m'.
Proof.
  intros (Hr & Hb & _). split; [done| |].
  - intros x Hx. rewrite Hb. unfold blit. by rewrite bool_decide_false.
  - intros x Hx. rewrite Hb. unfold blit. case_bool_decide; [|done]. apply lookup_lt_is_Some_2. lia.
Qed.

Lemma within_um_mapped lo hi m m' va k : within lo hi m m' → um_mapped m pml4 va k → um_mapped m' pml4 va k.
Proof. intros Hw Hm x Hx. by apply (wi_mapped _ _ _ _ Hw), Hm. Qed.

Lemma um_mapped_sub m va k va' k' : um_mapped m pml4 va k → va <= va' → va' + k' <= va + k → um_mapped m pml4 va' k'.
Proof. intros Hm H1 H2 x Hx. apply Hm. lia. Qed.

Lemma land_page x : Z.land x 0xFFF = x mod PAGE.
Proof. apply (Z.land_ones x 12). lia. Qed.

(** A copy that may cross pages. *)
Lemma ucopy_wp fuel : ∀ uva src m, um_room m pml4 n → (length src < fuel)%nat → 0 <= uva → uva + Z.of_nat (length src) < 2 ^ 64 →
  um_mapped m pml4 uva (Z.of_nat (length src)) →
  wp (ucopy fuel pml4 uva src) (λ _ m', within uva (uva + Z.of_nat (length src)) m m' ∧ has (um_byte m' pml4) uva src) m.
Proof.
  induction fuel as [|fuel IH]; intros uva src m Hr Hf H0 Hmax Hm; [lia|]. cbn [ucopy].
  destruct src as [|b src']; [apply wp_ret; split; [by split|by intros i b]|]. set (src := b :: src') in *.
  destruct (ul_kva m pml4 n uva Hr) as [p Hp]; [apply Hm; cbn; lia|]. apply wp_bind. unfold wp at 1. unfold um_at in Hp. rewrite Hp.
  cbn zeta. rewrite land_page. pose proof (Z.mod_pos_bound uva PAGE ltac:(done)) as Hpg. unfold PAGE in *.
  set (chunk := if _ <? _ then _ else _). assert (0 < chunk <= Z.of_nat (length src) ∧ uva mod 4096 + chunk <= 4096) as [Hc Hc'].
  { subst chunk. case_if; breflect; cbn [length src] in *; lia. } clearbody chunk.
  destruct (ul_memcpy m pml4 n uva p 0 (take (Z.to_nat chunk) src)) as (m1 & E1 & Hw1);
    [done|done|lia|rewrite length_take; unfold PAGE; lia|rewrite length_take, Z.add_0_r; eapply um_mapped_sub; [exact Hm|lia|lia]|].
  rewrite Z.add_0_r in *. apply wp_bind. unfold wp at 1. rewrite E1. pose proof (wrote_within _ _ _ _ Hw1) as Hin1.
  destruct Hw1 as (Hr1 & Hb1 & _). rewrite wrap_small by lia.
  assert (Z.of_nat (length (take (Z.to_nat chunk) src)) = chunk) as Hl1 by (rewrite length_take; lia). rewrite Hl1 in Hin1.
  eapply wp_mono; [apply (IH (uva + chunk) (drop (Z.to_nat chunk) src) m1 Hr1)|].
  - rewrite length_drop. lia.
  - lia.
  - rewrite length_drop. lia.
  - rewrite length_drop. eapply within_um_mapped; [exact Hin1|]. eapply um_mapped_sub; [exact Hm|lia|lia].
  - cbn beta. rewrite length_drop. intros _ m2 [Hin2 Hh2].
    assert (within uva (uva + Z.of_nat (length src)) m1 m2) as Hin2'.
    { destruct Hin2 as [? Hs ?]. split; [done| |done]. intros x Hx. apply Hs. lia. }
    split; [eapply within_trans; [exact Hin1|exact Hin2'|lia|lia]|].
    rewrite <- (take_drop (Z.to_nat chunk) src). apply has_app. rewrite Hl1. split; [|done].
    eapply has_ext; [apply (has_blit (um_byte m pml4))|]. intros x Hx. rewrite <- Hb1. apply (wi_same _ _ _ _ Hin2). lia.
Qed.
(** *** The argument block *)

Fixpoint strings_size (args : list (list Z)) : Z :=
  match args with
  | [] => 0
  | s :: args => Z.of_nat (length s) + 1 + strings_size args
  end.

Lemma strings_size_pos args : 0 <= strings_size args.
Proof. induction args; cbn; lia. Qed.

Lemma strings_size_app a b : strings_size (a ++ b) = strings_size a + strings_size b.
Proof. induction a; cbn; lia. Qed.

(** Strings at addresses from [lo] on. *)
Definition strings_at (g : Z → option Z) (lo : Z) : list Z → list (list Z) → Prop :=
  Forall2 (λ a s, lo <= a ∧ has g a (s ++ [0])).

Lemma strings_at_ext g g' lo lo' argp args : strings_at g lo argp args → lo' <= lo → (∀ x, lo <= x → g' x = g x) →
  strings_at g' lo' argp args.
Proof.
  intros Hs Hl Hg. eapply Forall2_impl; [exact Hs|]. intros a l [Ha Hh]. split; [lia|]. eapply has_ext; [exact Hh|]. intros x Hx. apply Hg. lia.
Qed.

Lemma push_strings_wp rargs : ∀ sp argp args m, um_room m pml4 n → 0 <= sp - strings_size rargs → sp < 2 ^ 64 →
  um_mapped m pml4 (sp - strings_size rargs) (strings_size rargs) → strings_at (um_byte m pml4) sp argp args →
  wp (push_strings pml4 rargs sp argp) (λ r m', ∃ argp', r = (sp - strings_size rargs, argp') ∧
    within (sp - strings_size rargs) sp m m' ∧ strings_at (um_byte m' pml4) (sp - strings_size rargs) argp' (rev rargs ++ args)) m.
Proof.
  induction rargs as [|s rargs IH]; intros sp argp args m Hr H0 Hmax Hm Hs; cbn [strings_size foldr] in *.
  { apply wp_ret. rewrite Z.sub_0_r. exists argp. split; [done|]. by split. }
  pose proof (strings_size_pos rargs). cbn [push_strings]. rewrite wrap_small by lia.
  set (sp1 := sp - (Z.of_nat (length s) + 1)). assert (Z.of_nat (length (s ++ [0])) = Z.of_nat (length s) + 1) as Hl by (rewrite length_app; cbn; lia).
  apply wp_bind. eapply wp_mono; [apply (ucopy_wp _ sp1 (s ++ [0]) m Hr); [lia|lia|lia|eapply um_mapped_sub; [exact Hm|lia|lia]]|].
  cbn beta. rewrite Hl. intros _ m1 [Hin1 Hh1]. replace (sp1 + (Z.of_nat (length s) + 1)) with sp in Hin1 by lia.
  eapply wp_mono; [apply (IH sp1 (sp1 :: argp) (s :: args) m1 (wi_room _ _ _ _ Hin1)); [lia|lia| |]|].
  - eapply within_um_mapped; [exact Hin1|]. eapply um_mapped_sub; [exact Hm|lia|lia].
  - constructor; [by split|]. eapply strings_at_ext; [exact Hs|lia|]. intros x Hx. apply (wi_same _ _ _ _ Hin1). lia.
  - cbn beta. intros r m2 (argp' & -> & Hin2 & Hs2). exists argp'. cbn [rev]. rewrite <- app_assoc. cbn [app].
    replace (sp - (Z.of_nat (length s) + 1 + strings_size rargs)) with (sp1 - strings_size rargs) by lia. split; [done|]. split; [|done].
    eapply within_trans; [exact Hin1| |lia|exact (Z.le_refl sp)]. destruct Hin2 as [? Hsame ?]. split; [done| |done]. intros x Hx. apply Hsame. lia.
Qed.

Lemma push_words_wp ws : ∀ sp m, um_room m pml4 n → let lo := sp - 8 * Z.of_nat (length ws) in 0 <= lo → sp < 2 ^ 64 →
  um_mapped m pml4 lo (8 * Z.of_nat (length ws)) →
  wp (push_words pml4 ws sp) (λ r m', r = lo ∧ within lo sp m m' ∧ has (um_byte m' pml4) lo (concat (put64 <$> rev ws))) m.
Proof.
  induction ws as [|w ws IH]; intros sp m Hr lo H0 Hmax Hm; subst lo; cbn [length] in *.
  { apply wp_ret. rewrite Z.sub_0_r. split; [done|]. split; [by split|]. by intros i b. }
  cbn [push_words]. rewrite wrap_small by lia. apply wp_bind.
  eapply wp_mono; [apply (ucopy_wp _ (sp - 8) (put64 w) m Hr); rewrite ?put64_length; [lia|lia|lia|eapply um_mapped_sub; [exact Hm|lia|lia]]|].
  cbn beta. rewrite put64_length. intros _ m1 [Hin1 Hh1]. replace (sp - 8 + Z.of_nat 8) with sp in Hin1 by lia.
  eapply wp_mono; [apply (IH (sp - 8) m1 (wi_room _ _ _ _ Hin1)); [lia|lia|]|].
  - eapply within_um_mapped; [exact Hin1|]. eapply um_mapped_sub; [exact Hm|lia|lia].
  - cbn beta zeta. intros r m2 (-> & Hin2 & Hh2). replace (sp - 8 * Z.of_nat (S (length ws))) with (sp - 8 - 8 * Z.of_nat (length ws)) by lia.
    split; [done|]. split.
    + eapply within_trans; [exact Hin1| |lia|exact (Z.le_refl sp)]. destruct Hin2 as [? Hsame ?]. split; [done| |done]. intros x Hx. apply Hsame. lia.
    + cbn [rev]. rewrite fmap_app, concat_app. apply has_app. split; [done|].
      assert (length (concat (put64 <$> rev ws)) = (8 * length ws)%nat) as El.
      { rewrite <- (length_rev ws). generalize (rev ws). intros l. induction l as [|x l IHl]; [done|]. rewrite fmap_cons. cbn [concat]. rewrite length_app, IHl, put64_length. cbn [length]. lia. }
      rewrite El. cbn [fmap list_fmap concat]. rewrite app_nil_r. replace (sp - 8 - 8 * Z.of_nat (length ws) + Z.of_nat (8 * length ws)) with (sp - 8) by lia.
      eapply has_ext; [exact Hh1|]. rewrite put64_length. intros x Hx. apply (wi_same _ _ _ _ Hin2). lia.
Qed.

(** The start-up block: at an aligned address the number of arguments, their
    addresses and three null words, of which the first ends the arguments and the second the environment. *)
Definition args_block (g : Z → option Z) (sp : Z) (args : list (list Z)) : Prop :=
  sp mod 16 = 0 ∧ ∃ lo argp, has g sp (concat (put64 <$> ([Z.of_nat (length args)] ++ argp ++ [0; 0; 0]))) ∧ strings_at g lo argp args.

(** What the block takes at most. *)
Definition stack_need (args : list (list Z)) : Z := strings_size args + 8 * Z.of_nat (length args) + 64.

Lemma land_align x : 0 <= x < 2 ^ 64 → Z.land x (2 ^ 64 - 16) = x - x mod 16.
Proof.
  intros Hx. replace (2 ^ 64 - 16) with (Z.shiftl (Z.ones 60) 4) by done.
  assert (Z.ldiff x (Z.ones 4) = x - x mod 16) as E; [|].
  { rewrite Z.ldiff_ones_r, Z.shiftl_mul_pow2, Z.shiftr_div_pow2 by lia. change (2 ^ 4) with 16. pose proof (Z.div_mod x 16 ltac:(lia)). lia. }
  rewrite <- E. apply Z.bits_inj'. intros i Hi. rewrite Z.land_spec, Z.ldiff_spec. destruct (decide (i < 4)).
  - rewrite Z.shiftl_spec_low, Z.ones_spec_low, andb_false_r by lia. by rewrite andb_false_r.
  - rewrite Z.shiftl_spec, (Z.ones_spec_high 4), andb_true_r by lia. destruct (decide (i - 4 < 60)).
    + by rewrite Z.ones_spec_low, andb_true_r by lia.
    + rewrite Z.ones_spec_high, andb_false_r by lia. symmetry. destruct (decide (x = 0)) as [->|]; [apply Z.bits_0|].
      apply Z.bits_above_log2; [lia|]. enough (Z.log2 x < 64) by lia. apply Z.log2_lt_pow2; lia.
Qed.
Lemma setup_user_stack_wp tk argv m : um_room m pml4 n → t_pml4 tk = pml4 → let sp0 := rsp (t_regs tk) in
  (length argv <= MAX_ARGS)%nat → 0 <= sp0 - stack_need argv → sp0 < 2 ^ 64 →
  um_mapped m pml4 (sp0 - stack_need argv) (stack_need argv) →
  wp (setup_user_stack tk argv) (λ sp m', sp0 - stack_need argv <= sp <= sp0 ∧ within (sp0 - stack_need argv) sp0 m m' ∧
    args_block (um_byte m' pml4) sp argv) m.
Proof.
  intros Hr Hp sp0 Hl H0 Hmax Hm. unfold setup_user_stack. rewrite take_ge, Hp by done. fold sp0. unfold stack_need in *.
  assert (strings_size (rev argv) = strings_size argv) as Es.
  { clear. induction argv; [done|]. cbn. rewrite strings_size_app. cbn. lia. }
  pose proof (strings_size_pos argv). apply wp_bind. eapply wp_mono.
  { apply (push_strings_wp (rev argv) sp0 [] [] m Hr); rewrite ?Es; [lia|lia| |constructor]. eapply um_mapped_sub; [exact Hm|lia|lia]. }
  cbn beta. rewrite Es, rev_involutive, app_nil_r. intros r m1 (argp & -> & Hin1 & Hs1). rewrite land_align by lia.
  set (sp1 := sp0 - strings_size argv) in *. set (c := Z.of_nat (length argv)) in *.
  pose proof (Z.mod_pos_bound sp1 16 ltac:(lia)) as H16.
  set (sp2 := if c mod 2 =? 1 then _ else _).
  assert (sp1 - 24 < sp2 <= sp1 ∧ (sp2 - 8 * (c + 4)) mod 16 = 0) as [Hsp2 Hal].
  { subst sp2. case_if; breflect; [rewrite wrap_small by lia|]; split; try lia; Z.to_euclidean_division_equations; lia. }
  pose proof (Forall2_length _ _ _ Hs1) as Hla.
  assert (length ([0; 0; 0] ++ rev argp ++ [c]) = (length argv + 4)%nat) as Elen by (rewrite !length_app, length_rev; cbn; lia).
  eapply wp_mono.
  { apply (push_words_wp ([0; 0; 0] ++ rev argp ++ [c]) sp2 m1 (wi_room _ _ _ _ Hin1)); rewrite ?Elen; [lia|lia|].
    eapply within_um_mapped; [exact Hin1|]. eapply um_mapped_sub; [exact Hm|lia|lia]. }
  cbn beta zeta. rewrite Elen. intros sp m2 (-> & Hin2 & Hh2). rewrite !rev_app_distr, rev_involutive in Hh2. split; [lia|]. split.
  - destruct Hin1 as [? Hs1' Hm1], Hin2 as [? Hs2' Hm2]. split; [done| |by auto]. intros x Hx. rewrite Hs2', Hs1' by lia. done.
  - split; [rewrite <- Hal; f_equal; lia|]. exists sp1, argp. split; [exact Hh2|].
    eapply strings_at_ext; [exact Hs1|lia|]. intros x Hx. apply (wi_same _ _ _ _ Hin2). lia.
Qed.
End memory.

(** ** Lemmas on loading *)

Section loading.
Context {M F : Type} `{UserMemLaws M} `{!fs_ops F}.
Variables (P : vfs F → Prop) (f : Z) (data : list Z).
Hypothesis Hra : reads_as P f data.
(** The rest of the kernel does not change. *)
Variable k0 : kern M F.

Definition kmem (k : kern M F) : M := tmem (ksys k).
Definition at_state (v : vfs F) (m : M) : kern M F := put_sys (put_mem m (ksys k0)) (put_vfs v k0).

Lemma wp_kmem {A} (op : st M A) (Q : A → kern M F → Prop) v m :
  wp op (λ a m', Q a (at_state v m')) m → wp (on_mem op) Q (at_state v m).
Proof.
  intros Hw. apply wp_on_tasks. change (ksys (at_state v m)) with (put_mem m (ksys k0)). unfold wp, Task.on_mem in *.
  change (tmem (put_mem m (ksys k0))) with m. by destruct (op m) as [[a m']|].
Qed.

Lemma read_at_wp off put len v m (Q : option (list Z) → kern M F → Prop) : P v → 0 <= off → 0 <= len → off + len <= Z.of_nat (length data) →
  (∀ v', P v' → wp (put 0 (slice off len data)) (λ _ k', Q (Some (slice off len data)) k') (at_state v' m)) →
  (∀ v', P v' → len = 0 → Q (Some []) (at_state v' m)) →
  wp (read_at f off put len) Q (at_state v m).
Proof.
  intros HP H0 Hl Hsz Hput Hnil. pose proof (ra_size _ _ _ Hra). unfold read_at. apply wp_bind, wp_on_vfs.
  eapply wp_mono; [apply (ra_seek _ _ _ Hra v off HP); lia|]. cbn beta. intros _ v1 (HP1 & fl & Hfl & Hoff).
  change (put_vfs v1 (at_state v m)) with (at_state v1 m). cbn [read_loop]. case_if; breflect; [by apply wp_ret, Hnil|].
  apply wp_bind, wp_on_vfs. eapply wp_mono; [apply (ra_read _ _ _ Hra v1 fl len HP1 Hfl); lia|].
  cbn beta zeta. rewrite Hoff, Z.min_l by lia. intros r v2 [-> HP2]. change (put_vfs v2 (at_state v1 m)) with (at_state v2 m).
  assert (Z.of_nat (length (slice off len data)) = len) as El by (rewrite length_slice by lia; lia). rewrite El.
  rewrite (proj2 (Z.leb_gt len 0)), Z.sub_diag by lia. apply wp_bind. eapply wp_mono; [by apply Hput|]. cbn beta. intros _ k' HQ.
  destruct (Z.to_nat len) as [|fuel] eqn:Ef; [lia|]. cbn [read_loop]. apply wp_bind, wp_ret, wp_ret. cbn. by rewrite app_nil_r.
Qed.

Lemma read_local_wp off len v m : P v → 0 <= off → 0 <= len → off + len <= Z.of_nat (length data) →
  wp (read_at f off to_local len) (λ r k', r = Some (slice off len data) ∧ ∃ v', P v' ∧ k' = at_state v' m) (at_state v m).
Proof.
  intros HP H0 Hl Hsz. apply read_at_wp; try done.
  - intros v' HP'. apply wp_ret. split; [done|by exists v'].
  - intros v' HP' ->. split; [|by exists v']. unfold slice. by rewrite take_0.
Qed.

Lemma slice_0 off l : slice off 0 l = [].
Proof. unfold slice. by rewrite take_0. Qed.

(** Into a page. *)
Lemma read_page_wp pml4 n off len v m x p : P v → 0 <= off → 0 < len <= PAGE → off + len <= Z.of_nat (length data) →
  um_room m pml4 n → um_at m pml4 x p → x mod PAGE = 0 → um_mapped m pml4 x PAGE →
  wp (read_at f off (to_kernel p) len)
    (λ r k', r = Some (slice off len data) ∧ ∃ v' m', P v' ∧ k' = at_state v' m' ∧ um_wrote pml4 n x (slice off len data) m m') (at_state v m).
Proof.
  intros HP H0 Hl Hsz Hr Ha Hx Hm. assert (Z.of_nat (length (slice off len data)) = len) as El by (rewrite length_slice by lia; lia).
  apply read_at_wp; [done|done|lia|done| |lia].
  intros v' HP'. apply wp_kmem. destruct (ul_memcpy m pml4 n x p 0 (slice off len data)) as (m' & E & Hw);
    [done|done|lia|lia|rewrite El, Z.add_0_r; eapply um_mapped_sub; [exact Hm|lia|lia]|].
  rewrite Z.add_0_r in Hw. unfold wp. rewrite E. split; [done|]. by exists v', m'.
Qed.

(** *** Segments *)

(** The byte of a segment at offset [i]. *)
Definition segment_byte (ph : elf64_phdr) (i : Z) : Z :=
  if i <? p_filesz ph then default 0 (data !! Z.to_nat (p_offset ph + i)) else 0.

(** Page [va + j] of the segment is in place. *)
Definition page_done (g : Z → option Z) (ph : elf64_phdr) (j : Z) : Prop :=
  ∀ i, j <= i < j + PAGE → g (p_vaddr ph + i) = Some (segment_byte ph i).

(** A segment that can be loaded. *)
Record segment_ok (ph : elf64_phdr) : Prop := {
  so_align : p_vaddr ph mod PAGE = 0;
  so_low : 0 <= p_vaddr ph;
  so_high : p_vaddr ph + p_memsz ph + PAGE <= 2 ^ 47;
  so_file : 0 <= p_filesz ph <= p_memsz ph;
  so_offset : 0 <= p_offset ph;
  so_data : p_offset ph + p_filesz ph <= Z.of_nat (length data)
}.

Lemma blit_in a l g x i : x = a + Z.of_nat i → (i < length l)%nat → blit a l g x = l !! i.
Proof. intros -> Hi. unfold blit. rewrite bool_decide_true by lia. f_equal. lia. Qed.
Lemma blit_out a l g x : ¬ a <= x < a + Z.of_nat (length l) → blit a l g x = g x.
Proof. intros Hx. unfold blit. by rewrite bool_decide_false. Qed.

Definition pages (ph : elf64_phdr) : Z := (p_memsz ph + 4095) / 4096.

(** One page: mapped, cleared and filled from the file. *)
Lemma load_page_wp pml4 n ph q v m (Q : bool → kern M F → Prop) : P v → segment_ok ph → 0 <= q < pages ph → um_room m pml4 (S n) →
  let j := 4096 * q in let va := p_vaddr ph + j in
  let fill := if j <? p_filesz ph then p_filesz ph - j else 0 in let fill := if PAGE <? fill then PAGE else fill in
  (∀ v' m', P v' → um_room m' pml4 n → page_done (um_byte m' pml4) ph j →
    (∀ x, ¬ va <= x < va + PAGE → um_byte m' pml4 x = um_byte m pml4 x) → Q true (at_state v' m')) →
  wp (frame ← on_mem (tm_vmm_alloc pml4 (u64 va) PAGE_USER_FLAGS);
      _ ← on_mem (tm_memset frame PAGE);
      if fill =? 0 then mret true
      else r ← read_at f (u64 (p_offset ph + j)) (to_kernel frame) fill; mret (match r with Some _ => true | None => false end))
    Q (at_state v m).
Proof.
  intros HP [Hal Hlo Hhi Hfs Hof Hda] Hq Hr j va fill0 fill HQ. pose proof (ra_size _ _ _ Hra). unfold pages, PAGE in *.
  assert (4096 * q < p_memsz ph) as Hjm by (Z.to_euclidean_division_equations; lia).
  assert (0 <= j ∧ 0 <= fill0 ∧ 0 <= fill <= 4096 ∧ fill <= fill0) as (Hj & Hf0 & Hf & Hff).
  { subst j fill fill0. repeat case_if; breflect; lia. }
  rewrite (wrap_small 64 va) by lia.
  destruct (ul_alloc m pml4 n va PAGE_USER_FLAGS Hr) as (p & m1 & E1 & Hr1 & Ha1 & Hm1 & Hs1);
    [lia|subst va j; unfold PAGE; Z.to_euclidean_division_equations; lia|].
  apply wp_bind, wp_kmem. unfold wp at 1. rewrite E1. apply wp_bind, wp_kmem.
  assert (va mod 4096 = 0) as Hva by (subst va j; Z.to_euclidean_division_equations; lia).
  destruct (ul_memset m1 pml4 n va p Hr1 Ha1 Hva Hm1) as (m2 & E2 & Hr2 & Hb2 & Ha2). unfold PAGE in E2. unfold wp at 1. rewrite E2.
  assert (um_mapped m2 pml4 va PAGE) as Hm2.
  { intros x Hx. rewrite Hb2. unfold blit. case_bool_decide; [|by apply Hm1]. apply lookup_lt_is_Some_2. lia. }
  assert (∀ x, va <= x < va + 4096 → um_byte m2 pml4 x = Some 0) as Hz2.
  { intros x Hx. rewrite Hb2. rewrite (blit_in _ _ _ _ (Z.to_nat (x - va))); [|lia|rewrite length_replicate; unfold PAGE; lia].
    apply lookup_replicate_2. unfold PAGE. lia. }
  assert (∀ x, ¬ va <= x < va + 4096 → um_byte m2 pml4 x = um_byte m pml4 x) as Hs2.
  { intros x Hx. rewrite Hb2, blit_out; [by apply Hs1|]. rewrite length_replicate. unfold PAGE. lia. }
  destruct (fill =? 0) eqn:Efill; breflect.
  - apply wp_ret, HQ; [done|done| |done]. intros i Hi. unfold PAGE in Hi. replace (p_vaddr ph + i) with (va + (i - j)) by lia. rewrite Hz2 by lia.
    unfold segment_byte. subst fill fill0. unfold PAGE in *. destruct (j <? p_filesz ph) eqn:Ej; breflect.
    + exfalso. revert Efill. repeat case_if; breflect; lia.
    + rewrite (proj2 (Z.ltb_ge i _)) by lia. done.
  - assert (j < p_filesz ph ∧ fill = Z.min 4096 (p_filesz ph - j)) as [Hjf Efl].
    { subst fill fill0. unfold PAGE in *. revert Efill. repeat case_if; breflect; lia. }
    rewrite (wrap_small 64 (p_offset ph + j)) by lia. apply wp_bind.
    eapply wp_mono; [apply (read_page_wp pml4 n (p_offset ph + j) fill v m2 va p HP); try done; [lia|unfold PAGE; lia|lia|by apply Ha2]|].
    cbn beta. intros r k' (-> & v' & m' & HP' & -> & Hr' & Hb' & _). apply wp_ret, HQ; [done|done| |].
    + assert (Z.of_nat (length (slice (p_offset ph + j) fill data)) = fill) as El by (rewrite length_slice by lia; lia).
      intros i Hi. unfold PAGE in Hi. rewrite Hb'. unfold segment_byte. destruct (i <? p_filesz ph) eqn:Ei; breflect.
      * rewrite (blit_in _ _ _ _ (Z.to_nat (i - j))) by lia. rewrite lookup_slice by lia.
        replace (Z.to_nat (p_offset ph + j) + Z.to_nat (i - j))%nat with (Z.to_nat (p_offset ph + i)) by lia.
        destruct (lookup_lt_is_Some_2 data (Z.to_nat (p_offset ph + i))) as [b ->]; [lia|done].
      * rewrite blit_out by (rewrite El; lia). apply Hz2. lia.
    + intros x Hx. rewrite Hb', blit_out; [by apply Hs2|]. rewrite length_slice by lia. lia.
Qed.

Lemma wp_bind3 {S A B C D} (a : st S A) (b : A → st S B) (c : A → B → st S C) (k : C → st S D) Q s :
  wp (x ← a; y ← b x; c x y) (λ z s', wp (k z) Q s') s → wp (x ← a; y ← b x; z ← c x y; k z) Q s.
Proof.
  unfold wp, mbind, st_bind. destruct (a s) as [[x s1]|]; [|done]. destruct (b x s1) as [[y s2]|]; [|done].
  by destruct (c x y s2) as [[z s3]|].
Qed.

(** The pages of the segment from [q] on. *)
Definition loaded (g : Z → option Z) (ph : elf64_phdr) (to : Z) : Prop := ∀ i, 0 <= i < 4096 * to → g (p_vaddr ph + i) = Some (segment_byte ph i).

Lemma load_pages_wp pml4 n i ph r : ∀ fuel q v m, P v → segment_ok ph → 0 <= q → pages ph = q + Z.of_nat r → (r < fuel)%nat →
  um_room m pml4 (r + n) → loaded (um_byte m pml4) ph q →
  wp (load_pages fuel f pml4 i ph (4096 * q)) (λ ok k', ok = true ∧ ∃ v' m', k' = at_state v' m' ∧ P v' ∧ um_room m' pml4 n ∧
    loaded (um_byte m' pml4) ph (pages ph) ∧
    ∀ x, ¬ p_vaddr ph <= x < p_vaddr ph + 4096 * pages ph → um_byte m' pml4 x = um_byte m pml4 x) (at_state v m).
Proof.
  induction r as [|r IH]; intros fuel q v m HP Hseg Hq Hpg Hf Hr Hdone; (destruct fuel as [|fuel]; [lia|]); cbn [load_pages].
  - rewrite (proj2 (Z.leb_le _ _)) by (unfold pages in Hpg; Z.to_euclidean_division_equations; lia).
    apply wp_ret. split; [done|]. exists v, m. split_and!; [done|done|done| |done]. by rewrite Hpg, Z.add_0_r.
  - rewrite (proj2 (Z.leb_gt _ _)) by (unfold pages in Hpg; Z.to_euclidean_division_equations; lia).
    apply wp_bind3. pose proof Hseg as [Hal Hlo Hhi _ _ _]. unfold PAGE in Hhi.
    apply (load_page_wp pml4 (r + n) ph q v m); [done|done|lia|exact Hr|]. cbn zeta. intros v1 m1 HP1 Hr1 Hpage Hsame. cbn [negb].
    assert (4096 * q < p_memsz ph) by (unfold pages in Hpg; Z.to_euclidean_division_equations; lia).
    replace (u64 (4096 * q + PAGE)) with (4096 * (q + 1)) by (unfold PAGE; rewrite wrap_small; lia).
    eapply wp_mono; [apply (IH fuel (q + 1) v1 m1); try done; [lia|lia|lia|]|].
    + intros j Hj. destruct (decide (j < 4096 * q)) as [Hlt|Hge]; [|apply Hpage; unfold PAGE; lia].
      rewrite Hsame by (unfold PAGE; lia). apply Hdone. lia.
    + cbn beta. intros ok k' (-> & v' & m' & -> & HP' & Hr' & Hd' & Hs'). split; [done|]. exists v', m'. split_and!; try done.
      intros x Hx. rewrite Hs' by done. apply Hsame. unfold PAGE. lia.
Qed.

(** *** All of the segments *)

Definition loadable (ph : elf64_phdr) : bool := (p_type ph =? PT_LOAD) && negb (p_memsz ph =? 0).

Definition segment_end (ph : elf64_phdr) : Z := p_vaddr ph + 4096 * pages ph.
Definition segments_apart (a b : elf64_phdr) : Prop := segment_end a <= p_vaddr b ∨ segment_end b <= p_vaddr a.

(** The segments of the headers from index [i] on that are loaded. *)
Definition segments (n : nat) (phdrs : list Z) (i : Z) : list elf64_phdr :=
  filter (λ ph, loadable ph = true) (phdr_at phdrs <$> seqZ i (Z.of_nat n)).

Lemma segments_S n phdrs i : segments (S n) phdrs i =
  if loadable (phdr_at phdrs i) then phdr_at phdrs i :: segments n phdrs (i + 1) else segments n phdrs (i + 1).
Proof.
  unfold segments. rewrite seqZ_cons by lia. rewrite fmap_cons, filter_cons, Nat2Z.inj_succ, Z.pred_succ.
  replace (Z.succ i) with (i + 1) by lia. destruct (loadable (phdr_at phdrs i)) eqn:E; [by rewrite decide_True|by rewrite decide_False by congruence].
Qed.

Definition total_pages (phs : list elf64_phdr) : nat := foldr (λ ph n, (Z.to_nat (pages ph) + n)%nat) 0%nat phs.

Definition outside (phs : list elf64_phdr) (x : Z) : Prop := ∀ ph, ph ∈ phs → ¬ p_vaddr ph <= x < segment_end ph.

Lemma load_segments_wp pml4 r phdrs n : ∀ i v m, P v → Forall segment_ok (segments n phdrs i) → ForallOrdPairs segments_apart (segments n phdrs i) →
  um_room m pml4 (total_pages (segments n phdrs i) + r) →
  wp (load_segments n f pml4 phdrs i) (λ ok k', ok = true ∧ ∃ v' m', k' = at_state v' m' ∧ P v' ∧ um_room m' pml4 r ∧
    Forall (λ ph, loaded (um_byte m' pml4) ph (pages ph)) (segments n phdrs i) ∧
    ∀ x, outside (segments n phdrs i) x → um_byte m' pml4 x = um_byte m pml4 x) (at_state v m).
Proof.
  induction n as [|n IH]; intros i v m HP Hok Hap Hr.
  { apply wp_ret. split; [done|]. exists v, m. split_and!; [done|done|done|constructor|done]. }
  rewrite segments_S in *. cbn [load_segments]. set (ph := phdr_at phdrs i) in *.
  destruct (loadable ph) eqn:El.
  2:{ unfold loadable in El. apply andb_false_iff in El as [E|E%negb_false_iff]; rewrite E, ?orb_true_r; by apply IH. }
  unfold loadable in El. breflect. rewrite (proj2 (Z.eqb_eq (p_type ph) _)), (proj2 (Z.eqb_neq (p_memsz ph) 0)) by done. cbn [negb orb].
  inversion_clear Hok as [|? ? Hph Hok']. inversion_clear Hap as [|? ? Hfst Hap']. pose proof Hph as [Hal Hlo Hhi Hfs _ _].
  rewrite land_page, Hal. change (0 =? 0) with true. cbn [negb total_pages foldr] in *. fold (total_pages (segments n phdrs (i + 1))) in Hr.
  assert (0 <= pages ph) by (unfold pages; Z.to_euclidean_division_equations; lia).
  apply wp_bind. change 0 with (4096 * 0) at 1.
  eapply wp_mono; [apply (load_pages_wp pml4 (total_pages (segments n phdrs (i + 1)) + r) i ph (Z.to_nat (pages ph))); try done|].
  - lia.
  - unfold pages, PAGE. Z.to_euclidean_division_equations. lia.
  - by rewrite Nat.add_assoc.
  - intros j Hj. lia.
  - cbn beta. intros ok k' (-> & v1 & m1 & -> & HP1 & Hr1 & Hl1 & Hs1). cbn [negb]. eapply wp_mono; [by apply (IH (i + 1) v1 m1)|].
    cbn beta. intros ok k' (-> & v2 & m2 & -> & HP2 & Hr2 & Hl2 & Hs2). split; [done|]. exists v2, m2. split_and!; try done.
    + constructor; [|done]. intros j Hj. rewrite Hs2; [by apply Hl1|]. intros ph' Hin. rewrite Forall_forall in Hfst.
      specialize (Hfst ph' Hin). unfold segments_apart, segment_end in *. lia.
    + intros x Hx. rewrite Hs2 by (intros ph' Hin; apply Hx; by right). apply Hs1. apply (Hx ph). left.
Qed.
End loading.

Section image.
Context {M F : Type} `{UserMemLaws M} `{!fs_ops F}.

(** An executable whose segments can be loaded side by side. *)
Definition header (data : list Z) : elf64_ehdr := ehdr_of (slice 0 EHDR_SIZE data).
Definition elf_segments (data : list Z) : list elf64_phdr :=
  let eh := header data in
  segments (Z.to_nat (e_phnum eh)) (slice (e_phoff eh) (e_phnum eh * PHDR_SIZE) data) 0.

Record elf_file (data : list Z) : Prop := {
  ef_size : EHDR_SIZE <= Z.of_nat (length data);
  ef_magic : take 4 (e_ident (header data)) = elf_magic;
  ef_type : e_type (header data) = ET_EXEC;
  ef_phnum : 0 <= e_phnum (header data) <= MAX_PHDRS;
  ef_phoff : 0 <= e_phoff (header data);
  ef_table : e_phoff (header data) + e_phnum (header data) * PHDR_SIZE <= Z.of_nat (length data);
  ef_segments : Forall (segment_ok data) (elf_segments data);
  ef_apart : ForallOrdPairs segments_apart (elf_segments data)
}.

(** The stack of the task, below its initial stack pointer. *)
Record stack_ok (m : M) (tk : task) (argv : list (list Z)) (phs : list elf64_phdr) : Prop := {
  sk_args : (length argv <= MAX_ARGS)%nat;
  sk_low : 0 <= rsp (t_regs tk) - stack_need argv;
  sk_high : rsp (t_regs tk) < 2 ^ 64;
  sk_mapped : um_mapped m (t_pml4 tk) (rsp (t_regs tk) - stack_need argv) (stack_need argv);
  sk_apart x : rsp (t_regs tk) - stack_need argv <= x < rsp (t_regs tk) → outside phs x
}.

Lemma kern_get_task k t tk (Q : task → kern M F → Prop) : tasks (ksys k) !! t = Some tk → Q tk k → wp (on_tasks (get_task t)) Q k.
Proof.
  intros Ht HQ. apply wp_on_tasks. apply wp_bind, wp_get. eapply wp_run; [by rewrite Ht|]. by destruct k as [[] ? ?].
Qed.

Lemma kern_upd_task k t tk g (Q : unit → kern M F → Prop) : tasks (ksys k) !! t = Some tk →
  Q tt (put_sys (put_tasks (<[t := g tk]> (tasks (ksys k))) (ksys k)) k) → wp (on_tasks (upd_task t g)) Q k.
Proof.
  intros Ht HQ. apply wp_on_tasks. unfold upd_task, get_task. apply wp_bind, wp_bind, wp_get. eapply wp_run; [by rewrite Ht|].
  by apply wp_modify.
Qed.

Lemma load_elf_wp (P : vfs F → Prop) f data k t tk argv r : reads_as P f data → P (kvfs k) → tasks (ksys k) !! t = Some tk → elf_file data →
  let phs := elf_segments data in let pml4 := t_pml4 tk in
  stack_ok (kmem k) tk argv phs → um_room (kmem k) pml4 (total_pages phs + r) →
  wp (load_elf f t argv) (λ rc k', rc = 0 ∧ P (kvfs k') ∧ um_room (kmem k') pml4 r ∧ ∃ sp,
    tasks (ksys k') !! t = Some (set_regs (set_rsp sp (set_rip (e_entry (header data)) (t_regs tk))) tk) ∧
    args_block (um_byte (kmem k') pml4) sp argv ∧
    Forall (λ ph, ∀ i, 0 <= i < p_memsz ph → um_byte (kmem k') pml4 (p_vaddr ph + i) = Some (segment_byte data ph i)) phs) k.
Proof.
  intros Hra HP Ht [Hsz Hmag Hty Hn Hoff Htab Hseg Hap] phs pml4 [Ha Hlo Hhi Hmap Hout] Hroom. unfold load_elf.
  assert (k = at_state k (kvfs k) (kmem k)) as Ek by (by destruct k as [[? ? ? ? ? ? []] ? ?]). rewrite Ek at 1.
  apply wp_bind. eapply wp_mono; [apply (read_local_wp P f data Hra k 0 EHDR_SIZE); [done|lia|done|lia]|].
  cbn beta. intros eh k1 (-> & v1 & HP1 & ->). cbn [fmap option_fmap option_map]. fold (header data).
  rewrite bool_decide_true by done. cbn [negb]. rewrite Hty, Z.eqb_refl. cbn [negb]. rewrite (proj2 (Z.ltb_ge MAX_PHDRS _)) by lia.
  apply wp_bind. unfold PHDR_SIZE in *. eapply wp_mono; [apply (read_local_wp P f data Hra k (e_phoff (header data)) (e_phnum (header data) * 56)); [done|lia|lia|lia]|].
  cbn beta. intros ph k2 (-> & v2 & HP2 & ->). apply wp_bind. eapply kern_get_task; [exact Ht|]. fold pml4.
  apply wp_bind. eapply wp_mono; [apply (load_segments_wp P f data Hra k pml4 r); [done|exact Hseg|exact Hap|exact Hroom]|].
  cbn beta. intros ok k3 (-> & v3 & m3 & -> & HP3 & Hr3 & Hl3 & Hs3). fold phs in Hl3, Hs3.
  apply wp_bind. eapply kern_upd_task; [exact Ht|]. cbn [negb]. set (tk1 := set_regs _ tk).
  set (k4 := put_sys (put_tasks (<[t := tk1]> (tasks (ksys k))) (ksys k)) k).
  change (put_sys _ _) with (at_state k4 v3 m3).
  assert (tasks (ksys k4) !! t = Some tk1) as Ht4 by apply lookup_insert_eq.
  apply wp_bind. eapply kern_get_task; [exact Ht4|]. apply wp_bind, wp_kmem.
  assert (um_mapped m3 pml4 (rsp (t_regs tk) - stack_need argv) (stack_need argv)) as Hmap3.
  { intros x Hx. rewrite Hs3 by (apply Hout; lia). by apply Hmap. }
  eapply wp_mono; [apply (setup_user_stack_wp pml4 r tk1 argv m3 Hr3 eq_refl Ha Hlo Hhi Hmap3)|].
  cbn beta zeta. intros sp m5 (Hsp & Hin5 & Hblk). apply wp_bind. eapply kern_upd_task; [exact Ht4|].
  apply wp_ret. split; [done|]. split; [exact HP3|]. split; [exact (wi_room _ _ _ _ _ _ Hin5)|].
  exists sp. split; [apply lookup_insert_eq|]. split; [exact Hblk|].
  change (kmem _) with m5. apply Forall_forall. intros ph Hin i Hi. rewrite Forall_forall in Hl3. unfold elf_segments in Hseg.
  pose proof (Hl3 ph Hin) as Hld. assert (0 <= i < 4096 * pages ph) as Hi' by (unfold pages; Z.to_euclidean_division_equations; lia).
  rewrite (wi_same _ _ _ _ _ _ Hin5); [by apply Hld|]. intros Hx. apply (Hout (p_vaddr ph + i) Hx ph Hin). unfold segment_end. lia.
Qed.
End image.

(** ** Theorem *)

