(* ===== verification/LoaderDemo.v ===== *)
(** * A concrete executable

    An implementation of [user_mem] by a set of pages and a store, a file system
    of one file, and a small executable: the theorem on the loader is applied to
    it. The files of the FAT16 driver read as the loader needs it. *)

From S2P Require Import Prelude CString Bytes SectorDev Vfs VfsFat16 Fat16Table Fat16Dir Fat16 Tty Input Kprintf Task SchedDemo Kernel Loader.

Local Open Scope Z_scope.

(** ** Address spaces *)

(** The frame of a page has its own place for each table. *)
Record space := Space { sp_free : nat; sp_pages : gset Z; sp_bytes : gmap Z Z }.

Definition sp_key (pml4 va : Z) : Z := pml4 * 2 ^ 64 + va.

Fixpoint poke (a : Z) (l : list Z) (b : gmap Z Z) : gmap Z Z :=
  match l with
  | [] => b
  | x :: l => poke (a + 1) l (<[a := x]> b)
  end.

Definition sp_write (p : Z) (l : list Z) (m : space) : run (unit * space) :=
  if bool_decide (l = []) || (bool_decide (p / PAGE ∈ sp_pages m) && bool_decide ((p + Z.of_nat (length l) - 1) / PAGE = p / PAGE))
  then Done (tt, Space (sp_free m) (sp_pages m) (poke p l (sp_bytes m))) else Stop Fault.

#[global] Instance space_task_mem : task_mem space := {
  tm_zalloc := λ m, Done (None, m);
  tm_pgtable_create := λ m, Done (1, m);
  tm_buddy_alloc := λ o m, Done (0, m);
  tm_memset := λ p n, sp_write p (replicate (Z.to_nat n) 0);
  tm_vmm_alloc := λ pml4 va fl m,
    match sp_free m with
    | O => Stop Fault
    | S n => Done (sp_key pml4 va, Space n ({[ sp_key pml4 va / PAGE ]} ∪ sp_pages m) (sp_bytes m))
    end;
  tm_switch_pml4 := λ v m, Done (tt, m);
  tm_buddy_free := λ v o m, Done (tt, m);
  tm_free_tree := λ v m, Done (tt, m);
  tm_kfree := λ v m, Done (tt, m);
  tm_own := λ m R, True
}.

#[global] Instance space_user_mem : user_mem space := {
  um_kva := λ pml4 va m, if bool_decide (sp_key pml4 va / PAGE ∈ sp_pages m) then Done (sp_key pml4 va, m) else Stop Fault;
  um_memcpy := sp_write;
  um_byte := λ m pml4 x, if bool_decide (sp_key pml4 x / PAGE ∈ sp_pages m) then Some (default 0 (sp_bytes m !! sp_key pml4 x)) else None;
  um_room := λ m pml4 n, (n <= sp_free m)%nat
}.

Lemma lookup_poke a l b x : poke a l b !! x = if bool_decide (a <= x < a + Z.of_nat (length l)) then l !! Z.to_nat (x - a) else b !! x.
Proof.
  revert a b. induction l as [|y l IH]; intros a b; cbn [poke length].
  - by rewrite bool_decide_false by lia.
  - rewrite IH. destruct (decide (x = a)) as [->|Hne].  
    + rewrite bool_decide_false, bool_decide_true by lia. by rewrite lookup_insert_eq, Z.sub_diag.
    + rewrite lookup_insert_ne by done. repeat case_bool_decide; try lia; [|done].
      by replace (Z.to_nat (x - a)) with (S (Z.to_nat (x - (a + 1)))) by lia.
Qed.

Lemma sp_key_page pml4 va : sp_key pml4 va / PAGE = pml4 * 2 ^ 52 + va / PAGE.
Proof. unfold sp_key, PAGE. replace (pml4 * 2 ^ 64 + va) with (va + pml4 * 2 ^ 52 * 4096) by lia. rewrite Z.div_add by lia. lia. Qed.

Lemma um_byte_mapped (m : space) pml4 x : is_Some (um_byte m pml4 x) ↔ sp_key pml4 x / PAGE ∈ sp_pages m.
Proof. cbn. case_bool_decide; split; intros Hm; try done; by destruct Hm. Qed.

Lemma um_at_eq (m : space) pml4 x p : um_at m pml4 x p ↔ p = sp_key pml4 x ∧ sp_key pml4 x / PAGE ∈ sp_pages m.
Proof. unfold um_at. cbn. case_bool_decide; naive_solver. Qed.

Lemma sp_write_ok (m : space) pml4 n x i l p : (n <= sp_free m)%nat → um_at m pml4 x p → 0 <= i → x mod PAGE + i + Z.of_nat (length l) <= PAGE →
  ∃ m', sp_write (p + i) l m = Done (tt, m') ∧ um_wrote pml4 n (x + i) l m m'.
Proof.
  intros Hn [-> Hx]%um_at_eq Hi Hl. set (m' := Space (sp_free m) (sp_pages m) (poke (sp_key pml4 x + i) l (sp_bytes m))).
  assert (sp_write (sp_key pml4 x + i) l m = Done (tt, m')) as E.
  { unfold sp_write. destruct (decide (l = [])) as [->|Hne]; [done|]. assert (length l ≠ 0%nat) by (by destruct l).
    assert (∀ k, 0 <= k < i + Z.of_nat (length l) → (sp_key pml4 x + k) / PAGE = sp_key pml4 x / PAGE) as Hk.
    { intros k Hk. replace (sp_key pml4 x + k) with (sp_key pml4 (x + k)) by (unfold sp_key; lia). rewrite !sp_key_page.
      unfold PAGE in *. f_equal. Z.to_euclidean_division_equations. lia. }
    replace (sp_key pml4 x + i + Z.of_nat (length l) - 1) with (sp_key pml4 x + (i + Z.of_nat (length l) - 1)) by lia.
    rewrite !Hk by lia. rewrite (bool_decide_false (l = [])), !bool_decide_true by done. done. }
  exists m'. split; [exact E|]. split; [done|]. split; [|by intros z q; rewrite !um_at_eq]. intros y. cbn. unfold blit.
  assert (length l ≠ 0%nat → ∀ y, x + i <= y < x + i + Z.of_nat (length l) → sp_key pml4 y / PAGE = sp_key pml4 x / PAGE) as Hp.
  { intros _ z Hz. rewrite !sp_key_page. unfold PAGE in *. f_equal. Z.to_euclidean_division_equations. lia. }
  rewrite lookup_poke. destruct (decide (x + i <= y < x + i + Z.of_nat (length l))) as [Hy|Hy].
  - rewrite Hp by lia. rewrite !bool_decide_true by (try done; unfold sp_key; lia).
    replace (sp_key pml4 y - (sp_key pml4 x + i)) with (y - (x + i)) by (unfold sp_key; lia).
    destruct (lookup_lt_is_Some_2 l (Z.to_nat (y - (x + i)))) as [b ->]; [lia|done].
  - rewrite (bool_decide_false (x + i <= y < _)) by done. rewrite (bool_decide_false (_ <= sp_key pml4 y < _)) by (unfold sp_key; lia). done.
Qed.

#[global] Instance space_laws : UserMemLaws space.
Proof.
  split.
  - intros m pml4 n va fl Hr Hva Hal. cbn in Hr. cbn [tm_vmm_alloc space_task_mem]. destruct (sp_free m) as [|k] eqn:Ef; [lia|].
    eexists _, _. split; [done|]. split; [cbn; lia|]. split; [apply um_at_eq; split; [done|cbn; set_solver]|]. split.
    + intros x Hx. apply um_byte_mapped. cbn. rewrite !sp_key_page. replace (x / PAGE) with (va / PAGE); [set_solver|].
      unfold PAGE in *. Z.to_euclidean_division_equations. lia.
    + intros x Hx. cbn. rewrite !sp_key_page. assert (x / PAGE ≠ va / PAGE) as Hne.
      { unfold PAGE in *. Z.to_euclidean_division_equations. lia. }
      case_bool_decide as E; case_bool_decide as E'; [done|set_solver by lia|set_solver by lia|done].
  - intros m pml4 n x _ Hx%um_byte_mapped. exists (sp_key pml4 x). by apply um_at_eq.
  - intros m pml4 n x p i l Hr Ha Hi Hl _. by apply sp_write_ok.
  - intros m pml4 n x p Hr Ha Hal _. cbn [tm_memset space_task_mem].
    pose proof (sp_write_ok m pml4 n x 0 (replicate (Z.to_nat PAGE) 0) p Hr Ha ltac:(lia)) as Hw. rewrite !Z.add_0_r in Hw. apply Hw.
    rewrite length_replicate. unfold PAGE in *. lia.
Qed.

(** ** A file system of one file *)

#[global] Instance blob : fs_ops (list Z) := {
  inode_size := λ i f, Done (Z.of_nat (length f), f);
  inode_mode := λ i f, Done (if i =? 2 then 0x4000 else 0, f);
  op_lookup := λ i, None;
  op_create := λ i, None;
  op_mkdir := λ i, None;
  op_unlink := λ i, None;
  op_rmdir := λ i, None;
  op_truncate := λ i, None;
  op_open := λ i, None;
  op_release := λ i, None;
  op_read := λ i, Some (λ n off f, let b := slice off (Z.min n (Z.of_nat (length f) - off)) f in Done ((Z.of_nat (length b), b), f));
  op_write := λ i, None;
  op_readdir := λ i, None
}.

Definition blob_file (f : Z) (data : list Z) (v : vfs (list Z)) : Prop :=
  ∃ fl, files v !! f = Some fl ∧ fl_inode fl = Some 1 ∧ fsys v = data.

Lemma blob_reads_as f data : Z.of_nat (length data) < 2 ^ 32 → reads_as (blob_file f data) f data.
Proof.
  intros Hl. split; [done| |].
  - intros v off (fl & Hf & Hi & Hd) Hoff. unfold seek, get_file, put_file. apply wp_bind, wp_bind, wp_get. eapply wp_run; [by rewrite Hf|].
    apply wp_modify. split; [|eexists; split; [apply lookup_insert_eq|done]]. eexists. split; [apply lookup_insert_eq|done].
  - intros v fl n (fl' & Hf' & Hi & Hd) Hf H0 Hn Hs. assert (fl' = fl) as -> by congruence. cbn zeta. unfold vfs_read, get_file.
    apply wp_bind, wp_bind, wp_get. eapply wp_run; [by rewrite Hf|]. rewrite Hi. cbn [mbind option_bind op_read blob].
    rewrite i64_small by lia. apply wp_bind. unfold wp at 1, on_fs. rewrite Hd. apply wp_bind. unfold put_file. apply wp_modify, wp_ret.
    split; [done|]. eexists. split; [apply lookup_insert_eq|]. split; [|done]. unfold advance. by rewrite <- Hi.
Qed.

(** ** An executable *)

(** Four bytes of code at 0x400000 and two bytes of zeros behind them. *)
Definition tiny_elf : list Z :=
  elf_magic ++ replicate 12 0 ++ put16 2 ++ put16 62 ++ put32 1 ++ put64 0x400001 ++ put64 64 ++ put64 0 ++ put32 0 ++
  put16 64 ++ put16 56 ++ put16 1 ++ put16 0 ++ put16 0 ++ put16 0 ++
  put32 1 ++ put32 7 ++ put64 120 ++ put64 0x400000 ++ put64 0 ++ put64 4 ++ put64 6 ++ put64 PAGE ++ chars "CODE".

Definition tiny_task : Z := 900.
Definition tiny_argv : list (list Z) := [chars "tiny"; chars "-x"].

(** The task's stack is the page below 0x800000. *)
Definition tiny_space : space :=
  match tm_vmm_alloc 7 0x7FF000 PAGE_USER_FLAGS (Space 3 ∅ ∅) with Done (_, m) => m | Stop _ => Space 0 ∅ ∅ end.
Definition tiny_tk : task :=
  Task (chars "tiny") 2 0 TASK_STATE_TERMINATED WAIT_NONE true true (set_rsp 0x800000 zero_regs) 7 0 None [] SSelf 1 0 0 [] [47].
Definition tiny_sys : sys space :=
  Sys {[ tiny_task := tiny_tk ]} [tiny_task] (Some tiny_task) zero_regs 2 0 (clock demo_sys) true 0 tiny_space.
Definition tiny_con : con space :=
  Con demo_term demo_ring (replicate 256 0) 0 (Ring (replicate 256 0) 0 0) false tiny_sys.
Definition tiny_kern : kern space (list Z) := Kern tiny_con (Vfs ∅ {[ 5 := File (Some 1) 0 0 None ]} [] None tiny_elf) ∅.

Lemma tiny_elf_file : elf_file tiny_elf.
Proof.
  split; [by vm_compute|by vm_compute|by vm_compute|by vm_compute|by vm_compute|by vm_compute| |].
  - replace (elf_segments tiny_elf) with [Phdr 1 120 0x400000 4 6] by (by vm_compute).
    constructor; [|constructor]. split; by vm_compute.
  - replace (elf_segments tiny_elf) with [Phdr 1 120 0x400000 4 6] by (by vm_compute). constructor; constructor.
Qed.

Lemma tiny_stack_ok : stack_ok tiny_space tiny_tk tiny_argv (elf_segments tiny_elf).
Proof.
  assert (stack_need tiny_argv = 88) as En by done. split; rewrite ?En; [vm_compute; lia|by vm_compute|by vm_compute| |].
  - intros x Hx. cbn in Hx. apply um_byte_mapped. rewrite sp_key_page. cbn. unfold sp_key, PAGE. apply elem_of_union_l, elem_of_singleton.
    Z.to_euclidean_division_equations. lia.
  - intros x Hx ph Hin. replace (elf_segments tiny_elf) with [Phdr 1 120 0x400000 4 6] in Hin by (by vm_compute).
    apply list_elem_of_singleton in Hin as ->. change (0x800000 - 88 <= x < 0x800000) in Hx.
    change (¬ 0x400000 <= x < 0x401000). lia.
Qed.

(** ** The files of the FAT16 driver *)

(** An open file of the driver reads as its data, wherever its offset is. *)
Section fat16.
Context {S : Type} `{!sector_dev S, !SectorDevLaws S}.
Variables (f i : Z) (ino : fat_inode) (cs : list Z) (data : list Z).

Definition opened (v : vfs (fat_state S)) : Prop := ∃ fl, fat_file v f fl i ino cs ∧ file_data (f_vol (fsys v)) cs = data.

Lemma fat16_reads_as : 0 <= i_size ino < 2 ^ 32 → i_size ino <= Z.of_nat (length data) → reads_as opened f (take (Z.to_nat (i_size ino)) data).
Proof.
  intros Hs Hl. assert (Z.of_nat (length (take (Z.to_nat (i_size ino)) data)) = i_size ino) as El by (rewrite length_take; lia). split.
  - lia.
  - intros v off (fl & Hf & Hd) Hoff. unfold seek, get_file, put_file. apply wp_bind, wp_bind, wp_get. eapply wp_run; [by rewrite (ff_file _ _ _ _ _ _ Hf)|].
    apply wp_modify. split; [|eexists; split; [apply lookup_insert_eq|done]].
    eexists. split; [|exact Hd]. destruct Hf. split; [apply lookup_insert_eq|done..].
  - intros v fl n (fl' & Hf & Hd) Hfl H0 Hn Hsum. pose proof (ff_file _ _ _ _ _ _ Hf). assert (fl' = fl) as -> by congruence. rewrite El.
    cbn zeta. assert (∀ a b, 0 <= a → b <= i_size ino - a → slice a b (take (Z.to_nat (i_size ino)) data) = slice a b data) as Hsl.
    { intros a b Ha Hb. unfold slice. rewrite skipn_firstn_comm, take_take. f_equal. lia. }
    rewrite Hsl by lia. eapply wp_mono; [apply (vfs_read_wp v f fl i ino cs n Hf); lia|].
    cbn beta. rewrite Hd. intros r v' (-> & Hf' & Hd'). split; [done|]. eexists. split; [exact Hf'|congruence].
Qed.
End fat16.

(** ** Witness *)

