(* ===== verification/Syscall.v ===== *)
(** * System calls (lizard/syscall.c, abi/syscall.h)

    Every handler over the state of [Kernel], and the dispatcher. The memory of the
    program that calls is [umem]: the kernel reads and writes it at the
    addresses the program gives, and an address that is not mapped is a fault in
    kernel mode. An argument is a [long]; the bytes that a handler passes on are
    read as a whole before the call. *)

From S2P Require Import Prelude CString Bytes Dirent VfsPath Vfs Framebuffer Ktime Tty Input Kprintf Task Kernel Loader.

Local Open Scope Z_scope.

(** ** Numbers *)

Definition EPERM : Z := 1.
Definition ENOENT : Z := 2.
Definition EIO : Z := 5.
Definition EBADF : Z := 9.
Definition ENOMEM : Z := 12.
Definition EFAULT : Z := 14.
Definition EEXIST : Z := 17.
Definition ENOTDIR : Z := 20.
Definition EISDIR : Z := 21.
Definition ERANGE : Z := 34.
Definition ENAMETOOLONG : Z := 36.
Definition ENOSYS : Z := 38.
Definition ENOTEMPTY : Z := 39.

Definition LZ_SEEK_SET : Z := 0.
Definition LZ_SEEK_CUR : Z := 1.
Definition LZ_SEEK_END : Z := 2.

Definition SYS_NR_MAX : Z := 21.
Definition BOOT_HHDM_BASE : Z := 0xFFFF800000000000.
Definition DIRENT_SIZE : Z := 280.
Definition FB_INFO_SIZE : Z := 16.
Definition SPAWN_MAX_ARGS : Z := 32.
Definition S_IFDIR_MASK : Z := 0x4000.

(** The end of a call: it returns to the program, or the program is suspended and the
    call starts over when it runs again, or the program has ended. *)
Inductive outcome (A : Type) := Returns (a : A) | Blocked | Exited.
Arguments Returns {_} _.
Arguments Blocked {_}.
Arguments Exited {_}.

(** ** User memory *)

Definition user_ptr_ok (p len : Z) : bool :=
  if (p =? 0) || (len <? 0) then false
  else if BOOT_HHDM_BASE <=? u64 p then false
  else if u64 (u64 p + u64 len) <? u64 p then false
  else true.

(** The characters up to the null character, nothing when it is not among the first [n]. *)
Fixpoint copy_loop (n : nat) (s : Z) (m : mem) : run (option (list Z)) :=
  match n with
  | O => Done None
  | S n =>
      c ← ldb m s;
      if c =? 0 then Done (Some []) else
        r ← copy_loop n (s + 1) m;
        Done (match r with Some l => Some (c :: l) | None => None end)
  end.

Definition copy_user_str (uptr max : Z) (m : mem) : run (Z + list Z) :=
  if negb (user_ptr_ok uptr max) then Done (inl (- EFAULT))
  else
    r ← copy_loop (Z.to_nat max) (u64 uptr) m;
    Done (match r with Some s => inr s | None => inl (- EINVAL) end).

Fixpoint load_bytes (n : nat) (a : Z) (m : mem) : run (list Z) :=
  match n with
  | O => Done []
  | S n => c ← ldb m a; l ← load_bytes n (a + 1) m; Done (c :: l)
  end.

(** A word of some bytes, the low one first. *)
Definition load_word (n : nat) (a : Z) (m : mem) : run Z :=
  l ← load_bytes n a m; Done (foldr (λ b v, b + 256 * v) 0 l).

(** [vfs_resolve_path], in a frame that holds the strings and its buffers. *)
Definition read_str (m : mem) (a : Z) : run (list Z) :=
  r ← copy_loop (S (size m)) a m; match r with Some s => Done s | None => Stop Diverge end.

Definition path_frame (cwd path : list Z) (outsz : Z) : mem :=
  put_at 0x1000 (cwd ++ [0]) (put_at 0x2000 (path ++ [0]) (put_at 0x3000 [47; 0]
    (put_at 0x4000 (replicate (Z.to_nat WORK_SIZE) 0) (put_at 0x5000 (replicate (Z.to_nat outsz) 0) ∅)))).

Definition resolve_path (cwd path : list Z) (outsz : Z) : run (option (list Z)) :=
  '(rc, m) ← vfs_resolve_path 0x1000 0x2000 0x5000 outsz 0x4000 0x3000 (path_frame cwd path outsz);
  if negb (rc =? 0) then Done None else s ← read_str m 0x5000; Done (Some s).

Section syscall.
Context {M F : Type} `{!task_mem M, !user_mem M, !fs_ops F}.

(** The address of the idle task. *)
Variable idle : Z.

Definition read_user {A} (f : mem → run A) : st (kern M F) A := k ← st_get; st_run (f (umem k)).
Definition write_user (a : Z) (l : list Z) : st (kern M F) unit := on_umem (store_bytes (u64 a) l).

Definition on_screen (f : fb → run fb) : st (kern M F) unit :=
  on_term (t ← st_get; s ← st_run (f (screen t)); st_modify (set_screen s)).

(** ** The descriptor table *)

Definition cur_task : st (kern M F) task := on_tasks (c ← get_current; get_task c).
Definition upd_cur (f : task → task) : st (kern M F) unit := on_tasks (c ← get_current; upd_task c f).

(** The first free slot from [i] on. *)
Fixpoint free_slot (fds : list (option Z)) (i : nat) : option nat :=
  match fds with
  | [] => None
  | None :: _ => Some i
  | Some _ :: fds => free_slot fds (S i)
  end.

Definition fd_alloc (f : Z) : st (kern M F) Z :=
  tk ← cur_task;
  match free_slot (t_fds tk) 0 with
  | Some i => _ ← upd_cur (λ tk, set_fds (<[i := Some f]> (t_fds tk)) tk); mret (TASK_FD_BASE + Z.of_nat i)
  | None => mret (-1)
  end.

Definition fd_get (fd : Z) : st (kern M F) (option Z) :=
  s ← on_tasks st_get;
  match current_task s with
  | None => mret None
  | Some c =>
      if (fd <? TASK_FD_BASE) || (TASK_FD_BASE + Z.of_nat TASK_MAX_FDS <=? fd) then mret None
      else
        tk ← on_tasks (get_task c);
        st_run (access (t_fds tk !! Z.to_nat (fd - TASK_FD_BASE)))
  end.

Fixpoint close_fds (n : nat) (t : Z) (i : nat) : st (kern M F) unit :=
  match n with
  | O => mret tt
  | S n =>
      tk ← on_tasks (get_task t);
      f ← st_run (access (t_fds tk !! i));
      _ ← match f with
          | Some f => _ ← on_vfs (vfs_close (Some f)); on_tasks (upd_task t (λ tk, set_fds (<[i := None]> (t_fds tk)) tk))
          | None => mret tt
          end;
      close_fds n t (S i)
  end.

Definition task_close_all_fds (t : Z) : st (kern M F) unit := close_fds TASK_MAX_FDS t 0.

(** ** Files *)

Definition ret (v : Z) : st (kern M F) (outcome Z) := mret (Returns v).

Definition sys_write (fd ubuf len : Z) : st (kern M F) (outcome Z) :=
  if negb (user_ptr_ok ubuf len) then ret (- EFAULT)
  else if (fd =? 1) || (fd =? 2) then
    data ← read_user (load_bytes (Z.to_nat len) (u64 ubuf));
    _ ← on_term (tty_write data);
    ret len
  else
    f ← fd_get fd;
    match f with
    | None => ret (- EBADF)
    | Some f =>
        data ← read_user (load_bytes (Z.to_nat len) (u64 ubuf));
        n ← on_vfs (vfs_write (Some f) data);
        ret n
    end.

Definition sys_read (fd ubuf len : Z) : st (kern M F) (outcome Z) :=
  if negb (user_ptr_ok ubuf len) then ret (- EFAULT)
  else if len =? 0 then ret 0
  else if fd =? 0 then
    k ← st_get;
    if negb (tty_stdin_available (stdin (kcon k))) then
      _ ← on_tasks (task_block idle WAIT_INPUT);
      mret Blocked
    else
      '(l, r) ← st_run (tty_stdin_read len (stdin (kcon k)));
      _ ← on_con (st_modify (set_stdin r));
      _ ← write_user ubuf l;
      ret (Z.of_nat (length l))
  else if (fd =? 1) || (fd =? 2) then ret (- EBADF)
  else
    f ← fd_get fd;
    match f with
    | None => ret (- EBADF)
    | Some f =>
        '(n, buf) ← on_vfs (vfs_read (Some f) len);
        _ ← write_user ubuf buf;
        ret n
    end.

(** The path argument of a call, resolved against the working directory. *)
Definition with_path (upath pathsz abssz : Z) (k : list Z → st (kern M F) (outcome Z)) : st (kern M F) (outcome Z) :=
  r ← read_user (copy_user_str upath pathsz);
  match r with
  | inl err => ret err
  | inr path =>
      tk ← cur_task;
      abspath ← st_run (resolve_path (t_cwd tk) path abssz);
      match abspath with
      | None => ret (- ENAMETOOLONG)
      | Some abspath => k abspath
      end
  end.

Definition sys_open (upath flags : Z) : st (kern M F) (outcome Z) :=
  with_path upath 128 256 (λ abspath,
    f ← on_vfs (vfs_open abspath (i32 flags));
    match f with
    | None => ret (- ENOENT)
    | Some f =>
        fd ← fd_alloc f;
        if fd <? 0 then _ ← on_vfs (vfs_close (Some f)); ret (- ENOMEM) else ret fd
    end).

Definition sys_close (fd : Z) : st (kern M F) (outcome Z) :=
  f ← fd_get fd;
  match f with
  | None => ret (- EBADF)
  | Some f =>
      _ ← on_vfs (vfs_close (Some f));
      _ ← upd_cur (λ tk, set_fds (<[Z.to_nat (fd - TASK_FD_BASE) := None]> (t_fds tk)) tk);
      ret 0
  end.

Definition sys_lseek (fd off whence : Z) : st (kern M F) (outcome Z) :=
  f ← fd_get fd;
  match f with
  | None => ret (- EBADF)
  | Some f =>
      fl ← on_vfs (get_file f);
      base ← (if whence =? LZ_SEEK_SET then mret (Some 0)
              else if whence =? LZ_SEEK_CUR then mret (Some (i64 (fl_offset fl)))
              else if whence =? LZ_SEEK_END then
                match fl_inode fl with
                | Some i => size ← on_vfs (on_fs (inode_size i)); mret (Some (i64 size))
                | None => mret (Some 0)
                end
              else mret None);
      match base with
      | None => ret (- EINVAL)
      | Some base =>
          let pos := i64 (base + off) in
          if pos <? 0 then ret (- EINVAL)
          else _ ← on_vfs (put_file f (File (fl_inode fl) (u64 pos) (fl_flags fl) (fl_dentry fl))); ret pos
      end
  end.

(** ** The screen, the keyboard and the clock *)

Definition sys_fb_info (uout : Z) : st (kern M F) (outcome Z) :=
  if negb (user_ptr_ok uout FB_INFO_SIZE) then ret (- EFAULT)
  else
    k ← st_get;
    let s := screen (tty (kcon k)) in
    _ ← write_user uout (put32 (u32 (width s)) ++ put32 (u32 (height s)) ++ put32 (u32 (pitch s)) ++ put32 32);
    ret 0.

Definition sys_fb_blit (usrc w h : Z) : st (kern M F) (outcome Z) :=
  if (w <=? 0) || (h <=? 0) || (8192 <? w) || (8192 <? h) then ret (- EINVAL)
  else if negb (user_ptr_ok usrc (w * h * 4)) then ret (- EFAULT)
  else
    k ← st_get;
    _ ← on_screen (fb_present_xrgb (λ i, load_word 4 (u64 usrc + 4 * i) (umem k)) w h);
    ret 0.

Definition sys_key_get : st (kern M F) (outcome Z) :=
  _ ← on_con (keyboard_set_raw true);
  sc ← on_con (c ← st_get; '(sc, r) ← st_run (keyboard_pop_scancode (kbd c)); _ ← st_modify (set_kbd r (kbd_raw c)); mret sc);
  ret (if sc <? 0 then 0 else sc).

Definition sys_uptime_ms : st (kern M F) (outcome Z) :=
  s ← on_tasks st_get;
  ret (time_uptime_ms (clock s)).

(** ** Tasks *)

Definition sys_sleep (ms : Z) : st (kern M F) (outcome Z) :=
  if ms <? 0 then ret (- EINVAL) else _ ← on_tasks (task_sleep idle (u32 ms)); ret 0.

Definition sys_getpid : st (kern M F) (outcome Z) :=
  s ← on_tasks st_get;
  match current_task s with
  | Some c => tk ← on_tasks (get_task c); ret (t_pid tk)
  | None => ret 0
  end.

Definition sys_exit (code : Z) : st (kern M F) (outcome Z) :=
  s ← on_tasks st_get;
  _ ← match current_task s with
      | Some c => _ ← on_tasks (upd_task c (set_exit_code (i32 code))); task_close_all_fds c
      | None => mret tt
      end;
  _ ← on_con (keyboard_set_raw false);
  _ ← on_tasks (task_exit idle);
  mret Exited.

(** The arguments from slot [argc] on, copied behind [off] bytes of the buffer; or an error. *)
Fixpoint copy_args (fuel : nat) (uargv argc off : Z) (args : list (list Z)) (m : mem) : run (Z + list (list Z)) :=
  match fuel with
  | O => Stop Diverge
  | S fuel =>
      let slot := i64 (uargv + argc * 8) in
      if negb (user_ptr_ok slot 8) then Done (inl (- EFAULT))
      else
        uptr ← load_word 8 (u64 slot) m;
        if uptr =? 0 then Done (inr args)
        else if SPAWN_MAX_ARGS <=? argc then Done (inl (- EINVAL))
        else
          r ← copy_user_str (i64 uptr) (1024 - off) m;
          match r with
          | inl err => Done (inl err)
          | inr s => copy_args fuel uargv (argc + 1) (off + Z.of_nat (length s) + 1) (args ++ [s]) m
          end
  end.

Definition sys_spawn (upath uargv : Z) : st (kern M F) (outcome Z) :=
  with_path upath 128 256 (λ abspath,
    args ← (if uargv =? 0 then mret (inr []) else read_user (copy_args (S (S (Z.to_nat SPAWN_MAX_ARGS))) uargv 0 0 []));
    match args with
    | inl err => ret err
    | inr argv =>
        pid ← spawn abspath argv;
        ret (if pid <? 0 then - ENOENT else pid)
    end).

Definition sys_waitpid (pid ustatus : Z) : st (kern M F) (outcome Z) :=
  if negb (ustatus =? 0) && negb (user_ptr_ok ustatus 4) then ret (- EFAULT)
  else
    r ← on_tasks (task_waitpid idle (i32 pid));
    match r with
    | Again => mret Blocked
    | Waited rpid status =>
        if rpid <? 0 then ret rpid
        else
          _ ← (if ustatus =? 0 then mret tt else write_user ustatus (put32 (u32 (default 0 status))));
          ret rpid
    end.

Definition sys_yield : st (kern M F) (outcome Z) := _ ← on_tasks (task_yield idle); ret 0.

(** ** Directories *)

(** The fields of a record that the file systems fill, at their offsets; the whole record is copied. *)
Definition put_dirent (d : dirent) : list Z :=
  put64 (u64 (de_inode d)) ++ put64 (u64 (de_offset d)) ++ put16 (u16 DIRENT_SIZE) ++ [u8 (de_type d)] ++
  take 256 (de_name d ++ replicate 256 0) ++ replicate 5 0.

Definition readdir_filldir (ubuf max : Z) (s : run (Z * mem)) (d : dirent) : Z * run (Z * mem) :=
  match s with
  | Stop e => (-1, s)
  | Done (n, m) =>
      if max <=? n then (-1, s)
      else
        match store_bytes (ubuf + n * DIRENT_SIZE) (put_dirent d) m with
        | Done m => (0, Done (n + 1, m))
        | Stop e => (-1, Stop e)
        end
  end.

Definition sys_readdir (fd ubuf max : Z) : st (kern M F) (outcome Z) :=
  if max <=? 0 then ret (- EINVAL)
  else if negb (user_ptr_ok ubuf (i64 (max * DIRENT_SIZE))) then ret (- EFAULT)
  else
    f ← fd_get fd;
    match f with
    | None => ret (- EBADF)
    | Some f =>
        fl ← on_vfs (get_file f);
        match fl_inode fl with
        | None => ret (- ENOTDIR)
        | Some i =>
            match op_readdir i with
            | None => ret (- ENOTDIR)
            | Some readdir =>
                k ← st_get;
                '(_, off, s) ← on_vfs (on_fs (readdir (run (Z * mem)) (fl_offset fl) (readdir_filldir (u64 ubuf) (i32 max)) (Done (0, umem k))));
                _ ← on_vfs (put_file f (File (fl_inode fl) off (fl_flags fl) (fl_dentry fl)));
                '(n, m) ← st_run s;
                _ ← st_modify (put_umem m);
                ret n
            end
        end
    end.

(** [d->inode && (d->inode->mode & S_IFDIR_MASK)], and the reference is dropped. *)
Definition put_is_dir (d : Z) : st (kern M F) bool :=
  on_vfs (
    dn ← get_dentry (Some d);
    is_dir ← match d_inode dn with
             | Some i => mode ← on_fs (inode_mode i); mret (negb (Z.land mode S_IFDIR_MASK =? 0))
             | None => mret false
             end;
    _ ← dentry_put (Some d);
    mret is_dir).

Definition sys_chdir (upath : Z) : st (kern M F) (outcome Z) :=
  with_path upath TASK_CWD_MAX TASK_CWD_MAX (λ abspath,
    d ← on_vfs (vfs_path_lookup abspath);
    match d with
    | None => ret (- ENOENT)
    | Some d =>
        is_dir ← put_is_dir d;
        if negb is_dir then ret (- ENOTDIR)
        else _ ← upd_cur (set_cwd abspath); ret 0
    end).

Definition sys_getcwd (ubuf size : Z) : st (kern M F) (outcome Z) :=
  if size <=? 0 then ret (- EINVAL)
  else if negb (user_ptr_ok ubuf size) then ret (- EFAULT)
  else
    tk ← cur_task;
    let len := Z.of_nat (length (t_cwd tk)) in
    if u64 size <? len + 1 then ret (- ERANGE)
    else _ ← write_user ubuf (t_cwd tk ++ [0]); ret len.

(** [abspath[1] == 0] *)
Definition is_root (abspath : list Z) : bool := bool_decide (default 0 (abspath !! 1%nat) = 0).

(** The index of the last slash. *)
Fixpoint last_slash (l : list Z) (i cut : nat) : nat :=
  match l with
  | [] => cut
  | c :: l => last_slash l (S i) (if c =? 47 then i else cut)
  end.

Definition parent_path (abspath : list Z) : list Z :=
  let cut := last_slash abspath 0 0 in
  take (if bool_decide (cut = 0%nat) then 1 else cut) abspath.

Definition sys_mkdir (upath mode : Z) : st (kern M F) (outcome Z) :=
  with_path upath 128 256 (λ abspath,
    if is_root abspath then ret (- EEXIST)
    else
      d ← on_vfs (vfs_path_lookup abspath);
      match d with
      | Some d => _ ← on_vfs (dentry_put (Some d)); ret (- EEXIST)
      | None =>
          pd ← on_vfs (vfs_path_lookup (parent_path abspath));
          match pd with
          | None => ret (- ENOENT)
          | Some pd =>
              is_dir ← put_is_dir pd;
              if negb is_dir then ret (- ENOTDIR)
              else rc ← on_vfs (vfs_mkdir abspath (i32 mode)); ret (if rc =? 0 then 0 else - EIO)
          end
      end).

Definition do_remove (upath : Z) (want_dir : bool) : st (kern M F) (outcome Z) :=
  with_path upath 128 256 (λ abspath,
    if is_root abspath then ret (- EPERM)
    else
      d ← on_vfs (vfs_path_lookup abspath);
      match d with
      | None => ret (- ENOENT)
      | Some d =>
          is_dir ← put_is_dir d;
          if want_dir && negb is_dir then ret (- ENOTDIR)
          else if negb want_dir && is_dir then ret (- EISDIR)
          else if want_dir then rc ← on_vfs (vfs_rmdir abspath); ret (if rc =? 0 then 0 else - ENOTEMPTY)
          else rc ← on_vfs (vfs_unlink abspath); ret (if rc =? 0 then 0 else - EIO)
      end).

Definition sys_unlink (upath : Z) : st (kern M F) (outcome Z) := do_remove upath false.
Definition sys_rmdir (upath : Z) : st (kern M F) (outcome Z) := do_remove upath true.

(** ** Dispatch *)

Definition syscall_table (nr a0 a1 a2 : Z) : option (st (kern M F) (outcome Z)) :=
  match nr with
  | 0 => Some (sys_exit a0)
  | 1 => Some (sys_write a0 a1 a2)
  | 2 => Some (sys_read a0 a1 a2)
  | 3 => Some (sys_sleep a0)
  | 4 => Some sys_getpid
  | 5 => Some (sys_open a0 a1)
  | 6 => Some (sys_close a0)
  | 7 => Some (sys_lseek a0 a1 a2)
  | 8 => Some (sys_fb_info a0)
  | 9 => Some (sys_fb_blit a0 a1 a2)
  | 10 => Some sys_key_get
  | 11 => Some sys_uptime_ms
  | 12 => Some (sys_spawn a0 a1)
  | 13 => Some (sys_waitpid a0 a1)
  | 14 => Some sys_yield
  | 15 => Some (sys_readdir a0 a1 a2)
  | 16 => Some (sys_chdir a0)
  | 17 => Some (sys_getcwd a0 a1)
  | 18 => Some (sys_mkdir a0 a1)
  | 19 => Some (sys_unlink a0)
  | 20 => Some (sys_rmdir a0)
  | _ => None
  end.

Definition set_rax (v : Z) (r : cpu_state) : cpu_state :=
  CpuState v (rbx r) (rcx r) (rdx r) (rdi r) (rsi r) (rbp r) (r8 r) (r9 r) (r10 r) (r11 r) (r12 r) (r13 r)
    (r14 r) (r15 r) (vec r) (errcode r) (rip r) (cs r) (rflags r) (rsp r) (ss r).

(** The registers that the program gets back. *)
Definition syscall_handler_c (regs : cpu_state) : st (kern M F) (outcome cpu_state) :=
  let nr := rax regs in
  r ← match (if nr <? SYS_NR_MAX then syscall_table nr (i64 (rdi regs)) (i64 (rsi regs)) (i64 (rdx regs)) else None) with
      | Some handler => handler
      | None => ret (- ENOSYS)
      end;
  mret (match r with
        | Returns v => Returns (set_rax (u64 v) regs)
        | Blocked => Blocked
        | Exited => Exited
        end).
End syscall.
