(* ===== verification/Frame.v ===== *)
(** * What stateful code keeps

    [keeps R m]: whenever [m] ends, the state before and after are related by
    the preorder [R]. The tactic [keeps] follows the structure of the code; the
    database of the same name holds the calls that are known to keep a
    relation. *)

From S2P Require Import Prelude.

Definition keeps {S A} (R : relation S) (m : st S A) : Prop := ∀ s a s', m s = Done (a, s') → R s s'.

Create HintDb keeps.

Section keeps.
Context {S : Type} (R : relation S) `{!PreOrder R}.

Lemma keeps_ret {A} (a : A) : keeps R (mret a).
Proof. intros s x s' [= <- <-]. reflexivity. Qed.

Lemma keeps_bind {A B} (m : st S A) (f : A → st S B) : keeps R m → (∀ a, keeps R (f a)) → keeps R (m ≫= f).
Proof.
  intros Hm Hf s b s'. unfold mbind, st_bind. destruct (m s) as [[a s1]|] eqn:E; [|done]. intros E'.
  etrans; [by eapply Hm|by eapply Hf].
Qed.

Lemma keeps_try {A B} (m : st S (option A)) (f : A → st S (option B)) : keeps R m → (∀ a, keeps R (f a)) → keeps R (st_try m f).
Proof. intros Hm Hf. apply keeps_bind; [done|]. intros [a|]; [done|apply keeps_ret]. Qed.

Lemma keeps_get : keeps R st_get.
Proof. intros s a s' [= _ <-]. reflexivity. Qed.

Lemma keeps_run {A} (m : run A) : keeps R (st_run m).
Proof. intros s a s'. unfold st_run. destruct m; intros [= _ <-]. reflexivity. Qed.

Lemma keeps_stop {A} e : keeps R (st_stop e : st S A).
Proof. by intros s a s'. Qed.

Lemma keeps_modify f : (∀ s, R s (f s)) → keeps R (st_modify f).
Proof. intros Hf s a s' [= _ <-]. apply Hf. Qed.
End keeps.

(** Embedding the code of a component in a larger state. *)
Lemma keeps_on {S T A} (R : relation S) (Q : relation T) (get : T → S) (put : S → T → T) (m : st S A) (m' : st T A) :
  (∀ t a t', m' t = Done (a, t') → ∃ s', m (get t) = Done (a, s') ∧ t' = put s' t) →
  (∀ t s', R (get t) s' → Q t (put s' t)) → keeps R m → keeps Q m'.
Proof. intros Hon HQ Hm t a t' E. destruct (Hon t a t' E) as (s' & E' & ->). apply HQ. by eapply Hm. Qed.

Ltac keeps_step :=
  match goal with
  | |- keeps ?R (mret _) => apply (keeps_ret R)
  | |- keeps ?R (_ ≫= _) => apply (keeps_bind R); [|intros ?]
  | |- keeps ?R (st_try _ _) => apply (keeps_try R); [|intros ?]
  | |- keeps ?R st_get => apply (keeps_get R)
  | |- keeps ?R (st_run _) => apply (keeps_run R)
  | |- keeps ?R (st_stop _) => apply (keeps_stop R)
  | |- keeps _ (match ?x with _ => _ end) => destruct x
  | |- keeps _ (let '(_, _) := ?x in _) => destruct x
  | |- _ => solve [auto with keeps]
  end.

Ltac keeps := repeat keeps_step.
