(* ===== verification/SysMem.v ===== *)
(** * User memory in the system calls

    The copies between the kernel and the memory of the program, and the
    resolution of a path argument as a function of texts. *)

From S2P Require Import Prelude CString Bytes VfsPath Task Kernel Loader Syscall.

Local Open Scope Z_scope.

(** Bytes that can be in a string. *)
Definition text (s : list Z) : Prop := Forall (λ c, 0 < c < 256) s.

(** Every byte of the memory is one. *)
Definition bytes_ok (m : mem) : Prop := ∀ a c, m !! a = Some c → byte c.

Lemma copy_loop_Done m s : ∀ a n, cstr m a s → (length s < n)%nat → copy_loop n a m = Done (Some s).
Proof.
  induction s as [|c s IH]; intros a n Hs Hn; (destruct n as [|n]; [cbn in Hn; lia|]); cbn [copy_loop].
  - apply cstr_nil in Hs. unfold ldb. by rewrite Hs.
  - apply cstr_cons in Hs as (Hc & Hr & Hs). unfold ldb. rewrite Hc. cbn [access mbind run_bind].
    rewrite (proj2 (Z.eqb_neq c 0)) by lia. rewrite (IH (a + 1) n); [done|done|cbn in Hn; lia].
Qed.

Lemma copy_loop_inv m s : bytes_ok m → ∀ n a, copy_loop n a m = Done (Some s) → cstr m a s ∧ (length s < n)%nat.
Proof.
  intros Hb. induction s as [|c s IH]; intros n a; (destruct n as [|n]; [done|]); cbn [copy_loop]; unfold ldb;
    (destruct (m !! a) as [x|] eqn:E; [|done]); cbn [access mbind run_bind]; destruct (x =? 0) eqn:E0.
  - intros _. breflect. subst x. split; [by apply cstr_nil|cbn; lia].
  - destruct (copy_loop n (a + 1) m) as [[]|]; by intros [=].
  - by intros [=].
  - destruct (copy_loop n (a + 1) m) as [[l|]|] eqn:El; cbn; try by intros [=]. intros [= -> ->]. apply IH in El as [Hs Hl]. breflect.
    split; [|cbn; lia]. apply cstr_cons. split; [done|]. pose proof (Hb a c E). unfold byte in *. split; [lia|done].
Qed.

Lemma read_str_Done m a s : cstr m a s → read_str m a = Done s.
Proof. intros Hs. unfold read_str. rewrite (copy_loop_Done m s a); [done|done|]. pose proof (cstr_fuel m a s Hs). unfold scan_fuel in *. lia. Qed.

Lemma load_bytes_Done m l : ∀ a, bytes_at m a l → load_bytes (length l) a m = Done l.
Proof.
  induction l as [|c l IH]; intros a Hl; [done|]. apply bytes_at_cons in Hl as [Hc Hl]. cbn [length load_bytes]. unfold ldb. rewrite Hc.
  cbn [access mbind run_bind]. by rewrite IH.
Qed.

Lemma user_ptr_ok_iff p len : - 2 ^ 63 <= p < 2 ^ 63 → - 2 ^ 63 <= len < 2 ^ 63 →
  user_ptr_ok p len = bool_decide (p ≠ 0 ∧ 0 <= len ∧ u64 p < BOOT_HHDM_BASE ∧ u64 p + len < 2 ^ 64).
Proof.
  intros Hp Hl. unfold user_ptr_ok, BOOT_HHDM_BASE. pose proof (wrap_range 64 p ltac:(lia)).
  destruct (p =? 0) eqn:E0; breflect; [by rewrite bool_decide_false by naive_solver|].
  destruct (len <? 0) eqn:E1; breflect; cbn [orb]; [by rewrite bool_decide_false by lia|].
  destruct (_ <=? u64 p) eqn:E2; breflect; [by rewrite bool_decide_false by lia|].
  rewrite (wrap_small 64 len) by lia. set (q := u64 p) in *. destruct (decide (u64 p + len < 2 ^ 64)) as [Hs|Hs].
  - rewrite (wrap_small 64 (q + len)) by lia. rewrite (proj2 (Z.ltb_ge _ _)) by lia. by rewrite bool_decide_true by lia.
  - rewrite (bool_decide_false (_ ∧ _)) by lia. unfold wrap.
    rewrite <- (Z_mod_plus_full _ (-1)), Z.mod_small by lia. by rewrite (proj2 (Z.ltb_lt _ _)) by lia.
Qed.

(** ** Paths *)

Lemma path_frame_strings cwd path outsz : text cwd → text path → Z.of_nat (length cwd) < 4095 → Z.of_nat (length path) < 4095 →
  let m := path_frame cwd path outsz in
  cstr m 0x1000 cwd ∧ cstr m 0x2000 path ∧ cstr m 0x3000 [47] ∧ mapped m 0x4000 (Z.to_nat WORK_SIZE) ∧ mapped m 0x5000 (Z.to_nat outsz).
Proof.
  intros Hc Hp Hlc Hlp m. unfold m, path_frame. split_and!.
  - by apply cstr_put_text.
  - split; [|done]. apply put_at_bytes; [apply put_at_in|]. rewrite !length_app. cbn. lia.
  - split; [|repeat constructor; lia]. do 2 (apply put_at_bytes; [|rewrite !length_app; cbn; lia]). apply put_at_in.
  - do 3 apply put_at_mapped. rewrite <- (length_replicate (Z.to_nat WORK_SIZE) 0) at 2. apply bytes_at_mapped, put_at_in.
  - do 4 apply put_at_mapped. rewrite <- (length_replicate (Z.to_nat outsz) 0) at 2. apply bytes_at_mapped, put_at_in.
Qed.

(** The resolution of a path is the reference one, and its result is a text that fits. *)
Lemma resolve_path_Done cwd path outsz : text cwd → text path → Z.of_nat (length cwd) < 4095 → Z.of_nat (length path) < 4095 → 0 <= outsz →
  resolve_path cwd path outsz = Done (if resolve_fits cwd path outsz then Some (path_text (path_names cwd path)) else None) ∧
  (resolve_fits cwd path outsz = true → text (path_text (path_names cwd path)) ∧ Z.of_nat (length (path_text (path_names cwd path))) < outsz).
Proof.
  intros Hc Hp Hlc Hlp Ho. destruct (path_frame_strings cwd path outsz Hc Hp Hlc Hlp) as (H1 & H2 & H3 & H4 & H5).
  destruct (resolve_run (path_frame cwd path outsz) 0x1000 cwd 0x2000 path 0x5000 outsz 0x4000 0x3000 H1 H2 H3 H4 H5 Ho) as (m' & E & Hs & _);
    try (unfold apart; cbn [length]; change WORK_SIZE with 256; lia).
  unfold resolve_path. rewrite E. cbn [mbind run_bind]. destruct (resolve_fits cwd path outsz) eqn:Ef; [|done]. specialize (Hs eq_refl).
  change (negb (0 =? 0)) with false. cbn iota. rewrite (read_str_Done m' _ _ Hs). split; [done|]. intros _. split; [apply Hs|].
  unfold resolve_fits in Ef. breflect. lia.
Qed.
