(* ===== verification/SysFiles.v ===== *)
(** * Descriptors and working directories through the system calls

    The scheduler and the life of tasks leave the descriptor tables and working
    directories alone, the file system leaves the open files alone
    except in [vfs_open] and [vfs_close], and every system call keeps the
    tables in order. *)

From S2P Require Import Prelude Frame CString Bytes Dirent VfsPath Vfs Framebuffer Ktime Tty Input Kprintf Task Kernel Loader Syscall SysMem.

Local Open Scope Z_scope.

(** ** Tasks *)

Section tasks.
Context {M : Type} `{!task_mem M}.
Variable idle : Z.

(** Every task that is left has the descriptors and the directory it had. *)
Definition same_io (s s' : sys M) : Prop := ∀ t tk', tasks s' !! t = Some tk' →
  ∃ tk, tasks s !! t = Some tk ∧ t_fds tk' = t_fds tk ∧ t_cwd tk' = t_cwd tk.

#[export] Instance same_io_preorder : PreOrder same_io.
Proof.
  split; [by intros s t tk Ht; exists tk|]. intros s1 s2 s3 H12 H23 t tk3 H3.
  destruct (H23 t tk3 H3) as (tk2 & H2 & E1 & E2). destruct (H12 t tk2 H2) as (tk1 & H1 & E3 & E4). exists tk1. split_and!; congruence.
Qed.

Lemma same_io_tasks s s' : tasks s' = tasks s → same_io s s'.
Proof. intros E t tk Ht. exists tk. by rewrite <- E. Qed.

Lemma keeps_get_task t : keeps same_io (get_task t).
Proof. unfold get_task. keeps. Qed.

Lemma keeps_on_mem {A} (m : st M A) : keeps same_io (Task.on_mem m).
Proof. intros s a s'. unfold Task.on_mem. destruct (m (tmem s)) as [[]|]; intros [= _ <-]. by apply same_io_tasks. Qed.

Lemma keeps_upd_task t f : (∀ tk, t_fds (f tk) = t_fds tk ∧ t_cwd (f tk) = t_cwd tk) → keeps same_io (upd_task t f).
Proof.
  intros Hf s a s'. unfold upd_task, get_task, mbind, st_bind, st_get, st_run, st_modify. cbn.
  destruct (tasks s !! t) as [tk|] eqn:E; [|done]. intros [= _ <-] t' tk' Ht. cbn in Ht.
  apply lookup_insert_Some in Ht as [[<- <-]|[Hne Ht]]; [exists tk|exists tk']; by destruct (Hf tk).
Qed.

Lemma keeps_assign f : (∀ s, tasks (f s) = tasks s) → keeps same_io (st_modify f).
Proof. intros Hf. apply keeps_modify. intros s. by apply same_io_tasks. Qed.

Lemma keeps_delete t : keeps same_io (st_modify (λ s : sys M, put_tasks (delete t (tasks s)) s)).
Proof. apply keeps_modify. intros s t' tk' Ht. cbn in Ht. apply lookup_delete_Some in Ht as [_ Ht]. by exists tk'. Qed.
End tasks.

#[export] Hint Resolve keeps_get_task keeps_on_mem keeps_delete : keeps.
#[export] Hint Extern 2 (keeps same_io (upd_task _ _)) => apply keeps_upd_task; intros ?; repeat case_match; done : keeps.
#[export] Hint Extern 2 (keeps same_io (st_modify _)) => apply keeps_assign; done : keeps.

Section scheduling.
Context {M : Type} `{!task_mem M}.
Variable idle : Z.
Notation keeps_io m := (keeps (same_io (M := M)) m).

Lemma keeps_sibling_del t : keeps_io (sibling_del t).
Proof. unfold sibling_del. keeps. Qed.
Lemma keeps_sibling_add t p : keeps_io (sibling_add t p).
Proof. unfold sibling_add. keeps. Qed.
#[local] Hint Resolve keeps_sibling_del keeps_sibling_add : keeps.

Lemma keeps_reap t : keeps_io (reap idle t).
Proof. unfold reap, release_task. keeps. Qed.
#[local] Hint Resolve keeps_reap : keeps.

Lemma keeps_reap_list l : keeps_io (reap_list idle l).
Proof. induction l; cbn [reap_list]; keeps. Qed.
#[local] Hint Resolve keeps_reap_list : keeps.

Lemma keeps_first_ready l : keeps_io (first_ready idle l).
Proof. induction l; cbn [first_ready]; keeps. Qed.
#[local] Hint Resolve keeps_first_ready : keeps.

Lemma keeps_dispatch : keeps_io (dispatch idle).
Proof.
  unfold dispatch, spend_tick, next_or_idle, next_ready_task, run_next, task_switch_to, task_save_context, task_load_context, get_current. keeps.
Qed.
#[local] Hint Resolve keeps_dispatch : keeps.

Lemma keeps_scheduler : keeps_io (scheduler idle).
Proof. unfold scheduler, reap_terminated. keeps. Qed.
#[local] Hint Resolve keeps_scheduler : keeps.

Lemma keeps_task_yield : keeps_io (task_yield idle).
Proof. apply keeps_scheduler. Qed.
Lemma keeps_task_sleep ms : keeps_io (task_sleep idle ms).
Proof. unfold task_sleep, scheduler_trigger, isr_scheduler. keeps. Qed.
Lemma keeps_task_block w : keeps_io (task_block idle w).
Proof. unfold task_block, scheduler_trigger, isr_scheduler. keeps. Qed.
#[local] Hint Resolve keeps_task_block : keeps.

Lemma keeps_reparent l : keeps_io (reparent idle l).
Proof. induction l; cbn [reparent]; unfold reparent_one; keeps. Qed.
#[local] Hint Resolve keeps_reparent : keeps.

Lemma keeps_task_exit : keeps_io (task_exit idle).
Proof. unfold task_exit, die, task_wake, scheduler_trigger, isr_scheduler. keeps. Qed.

Lemma keeps_find_zombie pid l : ∀ b, keeps_io (find_zombie pid l b).
Proof. induction l; intros b; cbn [find_zombie]; keeps. Qed.
#[local] Hint Resolve keeps_find_zombie : keeps.

Lemma keeps_task_waitpid pid : keeps_io (task_waitpid idle pid).
Proof. unfold task_waitpid. keeps. Qed.

Lemma keeps_task_set_ready t : keeps_io (task_set_ready t).
Proof. unfold task_set_ready. keeps. Qed.

Lemma keeps_map_user_stack n : ∀ i p fl, keeps_io (map_user_stack n i p fl).
Proof. induction n; intros i p fl; cbn [map_user_stack]; keeps. Qed.
End scheduling.

#[export] Hint Resolve keeps_sibling_del keeps_sibling_add keeps_scheduler keeps_task_yield keeps_task_sleep keeps_task_block keeps_task_exit
  keeps_task_waitpid keeps_task_set_ready keeps_map_user_stack : keeps.

(** ** Open files *)

Section open_files.
Context {F : Type} `{!fs_ops F}.

(** The addresses of the open files, of the directory entries and of the free memory are apart. *)
Record store_ok (v : vfs F) : Prop := {
  st_nodup : NoDup (heap v);
  st_free a : a ∈ heap v → files v !! a = None ∧ dentries v !! a = None;
  st_apart a : is_Some (files v !! a) → dentries v !! a = None
}.

(** The same files are open. *)
Definition same_files (v v' : vfs F) : Prop := store_ok v → store_ok v' ∧ dom (files v') = dom (files v).

#[export] Instance same_files_preorder : PreOrder same_files.
Proof.
  split; [done|]. intros v1 v2 v3 H12 H23 H1. destruct (H12 H1) as [H2 E2], (H23 H2) as [H3 E3]. split; [done|]. by etrans.
Qed.

Notation keeps_files m := (keeps same_files m).

Lemma keeps_on_fs {A} (m : st F A) : keeps_files (on_fs m).
Proof. intros v a v'. unfold on_fs. destruct (m (fsys v)) as [[]|]; intros [= _ <-] []. by split. Qed.

Lemma keeps_get_dentry d : keeps_files (get_dentry d).
Proof. unfold get_dentry. keeps. Qed.

Lemma keeps_get_file f : keeps_files (get_file f).
Proof. unfold get_file. keeps. Qed.

Lemma get_dentry_Done d (v : vfs F) dn v' : get_dentry (Some d) v = Done (dn, v') → v' = v ∧ dentries v !! d = Some dn.
Proof. unfold get_dentry, mbind, st_bind, st_get, st_run. cbn. destruct (dentries v !! d); cbn; intros E; by simplify_eq. Qed.

Lemma same_files_insert d dn dn' (v : vfs F) : dentries v !! d = Some dn → same_files v (set_dentries (<[d := dn']> (dentries v)) v).
Proof.
  intros Hd [Hn Hf Ha]. split; [|done]. split; [done| |].
  - intros a Hin. cbn. destruct (Hf a Hin) as [Hfa Hda]. rewrite lookup_insert_ne; [done|]. intros ->. congruence.
  - intros a Hin. cbn. rewrite lookup_insert_ne; [by apply Ha|]. intros ->. rewrite (Ha _ Hin) in Hd. done.
Qed.

Lemma keeps_upd_dentry d f : keeps_files (upd_dentry d f).
Proof.
  intros v a v'. unfold upd_dentry, mbind at 1, st_bind at 1. destruct (get_dentry (Some d) v) as [[dn v1]|] eqn:E; [|done].
  apply get_dentry_Done in E as [-> E]. intros [= _ <-]. by eapply same_files_insert.
Qed.

#[local] Hint Resolve keeps_on_fs keeps_get_dentry keeps_get_file keeps_upd_dentry : keeps.

Lemma keeps_dentry_get d : keeps_files (dentry_get d).
Proof. destruct d; cbn [dentry_get]; keeps. Qed.

Lemma keeps_dentry_put d : keeps_files (dentry_put d).
Proof.
  destruct d as [d|]; cbn [dentry_put]; [|keeps]. intros v a v'. unfold mbind at 1, st_bind at 1.
  destruct (get_dentry (Some d) v) as [[dn v1]|] eqn:E; [|done]. apply get_dentry_Done in E as [-> E]. cbn [atomic_dec_and_test].
  unfold mbind at 1, st_bind at 1. destruct (upd_dentry d _ v) as [[u v2]|] eqn:E2; [|done].
  unfold upd_dentry, get_dentry, mbind, st_bind, st_get, st_run, st_modify in E2. cbn in E2. rewrite E in E2. cbn in E2. injection E2 as _ <-.
  pose proof (same_files_insert d dn (set_refcount (atomic_dec (d_refcount dn)) dn) v E) as Hs. case_match; intros [= _ <-]; [|done].
  intros Hok. destruct (Hs Hok) as [[Hn Hf Ha] _]. cbn in *. split; [|done]. split; cbn.
  - constructor; [|done]. intros Hin. destruct (st_free v Hok d Hin). congruence.
  - intros a' [->|Hin]%elem_of_cons.
    + rewrite lookup_delete_eq. split; [|done]. destruct (files v !! d) eqn:Ef; [|done].
      rewrite (st_apart v Hok d) in E; [done|by eexists].
    + destruct (st_free v Hok a' Hin) as [? Hd]. rewrite lookup_delete_ne by congruence. by rewrite lookup_insert_ne by congruence.
  - intros a' Hin. destruct (decide (a' = d)) as [->|Hne]; [by rewrite lookup_delete_eq|]. rewrite lookup_delete_ne by done. by apply Ha.
Qed.

Lemma keeps_zalloc_insert {A} (k : option Z → st (vfs F) A) (dn : dentry) :
  (∀ r, keeps_files (k r)) →
  keeps_files (d ← zalloc; match d with Some d => _ ← st_modify (λ s, set_dentries (<[d := dn]> (dentries s)) s); k (Some d) | None => k None end).
Proof.
  intros Hk v a v'. unfold mbind at 1, st_bind at 1. unfold zalloc. destruct (heap v) as [|d h] eqn:Eh; [apply Hk|].
  unfold mbind, st_bind, st_modify. intros E. apply Hk in E. intros Hok. destruct E as [Hok' Ed]; [|by split].
  destruct Hok as [Hn Hf Ha]. rewrite Eh in *. apply NoDup_cons in Hn as [Hd Hn]. destruct (Hf d ltac:(left)) as [Hfd Hdd].
  split; cbn; [done| |].
  - intros a' Hin. destruct (Hf a' ltac:(by right)). rewrite lookup_insert_ne by (by intros ->). done.
  - intros a' Hin. rewrite lookup_insert_ne; [by apply Ha|]. intros ->. destruct Hin. congruence.
Qed.

Lemma keeps_dentry_alloc name : keeps_files (dentry_alloc name).
Proof. apply (keeps_zalloc_insert (λ r, mret r)). intros r. keeps. Qed.

#[local] Hint Resolve keeps_dentry_get keeps_dentry_put keeps_dentry_alloc : keeps.

Lemma keeps_dentry_add p c : keeps_files (dentry_add p c).
Proof. unfold dentry_add, Vfs.spinlock_lock, Vfs.spinlock_unlock. keeps. Qed.
#[local] Hint Resolve keeps_dentry_add : keeps.

Lemma keeps_find_child cs name : keeps_files (find_child cs name).
Proof. induction cs; cbn [find_child]; keeps. Qed.
#[local] Hint Resolve keeps_find_child : keeps.

Lemma keeps_dentry_lookup p name : keeps_files (dentry_lookup p name).
Proof. unfold dentry_lookup, Vfs.spinlock_lock, Vfs.spinlock_unlock. keeps. Qed.
#[local] Hint Resolve keeps_dentry_lookup : keeps.

Lemma keeps_vfs_lookup p name : keeps_files (vfs_lookup p name).
Proof. unfold vfs_lookup. keeps. Qed.
#[local] Hint Resolve keeps_vfs_lookup : keeps.

Lemma keeps_walk_path fuel : ∀ path cur, keeps_files (walk_path fuel path cur).
Proof. induction fuel; intros path cur; destruct path; cbn [walk_path]; keeps. Qed.
#[local] Hint Resolve keeps_walk_path : keeps.

Lemma keeps_vfs_path_lookup path : keeps_files (vfs_path_lookup path).
Proof. unfold vfs_path_lookup, vfs_get_root. keeps. Qed.
#[local] Hint Resolve keeps_vfs_path_lookup : keeps.

Lemma keeps_walk_parent fuel : ∀ seg sz cur, keeps_files (walk_parent fuel seg sz cur).
Proof. induction fuel; intros seg sz cur; cbn [walk_parent]; keeps. Qed.
#[local] Hint Resolve keeps_walk_parent : keeps.

Lemma keeps_vfs_lookup_parent path sz : keeps_files (vfs_lookup_parent path sz).
Proof. unfold vfs_lookup_parent, vfs_get_root. keeps. Qed.
#[local] Hint Resolve keeps_vfs_lookup_parent : keeps.

Lemma keeps_vfs_mknod path mode dir : keeps_files (vfs_mknod path mode dir).
Proof. unfold vfs_mknod. keeps. Qed.

Lemma keeps_vfs_remove path dir : keeps_files (vfs_remove path dir).
Proof. unfold vfs_remove, unlink_child. keeps. Qed.
#[local] Hint Resolve keeps_vfs_mknod : keeps.

Lemma keeps_open_dentry path flags : keeps_files (open_dentry path flags).
Proof. unfold open_dentry, vfs_create. keeps. Qed.
#[local] Hint Resolve keeps_open_dentry : keeps.

Lemma bind_inv {S A B} (m : st S A) (k : A → st S B) s b s2 :
  (m ≫= k) s = Done (b, s2) → ∃ a s1, m s = Done (a, s1) ∧ k a s1 = Done (b, s2).
Proof. unfold mbind, st_bind. destruct (m s) as [[a s1]|]; [|done]. eauto. Qed.

Lemma get_file_Done f (v : vfs F) fl v' : get_file f v = Done (fl, v') → v' = v ∧ files v !! f = Some fl.
Proof. unfold get_file, mbind, st_bind, st_get, st_run. destruct (files v !! f); cbn; intros E; by simplify_eq. Qed.

Lemma put_file_same f fl fl' (v : vfs F) : files v !! f = Some fl → same_files v (set_files (<[f := fl']> (files v)) v).
Proof.
  intros Hf [Hn Hfr Ha]. split.
  - split; [done| |].
    + intros a Hin. cbn. destruct (Hfr a Hin). rewrite lookup_insert_ne; [done|]. congruence.
    + intros a Hin. apply (Ha a). destruct (decide (a = f)) as [->|Hne]; [by eexists|]. cbn in Hin. by rewrite lookup_insert_ne in Hin.
  - cbn. apply dom_insert_lookup_L. by eexists.
Qed.

Lemma same_files_lookup f fl (v v' : vfs F) : store_ok v → same_files v v' → files v !! f = Some fl → is_Some (files v' !! f).
Proof. intros Hok Hs Hf. destruct (Hs Hok) as [_ E]. apply elem_of_dom. rewrite E. by apply elem_of_dom. Qed.

Lemma put_back f fl fl' (v v2 : vfs F) : files v !! f = Some fl → same_files v v2 →
  same_files v (set_files (<[f := fl']> (files v2)) v2).
Proof.
  intros Ef Hs Hok. destruct (same_files_lookup f fl v v2 Hok Hs Ef) as [fl2 Ef2].
  assert (same_files v (set_files (<[f := fl']> (files v2)) v2)) as H; [|by apply H]. etrans; [exact Hs|by eapply put_file_same].
Qed.

Lemma free_file_ok f (v : vfs F) : store_ok v → is_Some (files v !! f) →
  let v' := Vfs.set_heap (f :: heap v) (set_files (delete f (files v)) v) in store_ok v' ∧ dom (files v') = dom (files v) ∖ {[f]}.
Proof.
  intros [Hn Hf Ha] Hin. split; [|cbn; set_solver]. split; cbn.
  - constructor; [|done]. intros Hh. destruct (Hf f Hh) as [E _]. rewrite E in Hin. by destruct Hin.
  - intros a [->|Hh]%elem_of_cons; [rewrite lookup_delete_eq; by split; [|apply Ha]|]. destruct (Hf a Hh). split; [|done].
    by rewrite lookup_delete_ne by (intros ->; destruct Hin; congruence).
  - intros a [fl Hfl]. apply lookup_delete_Some in Hfl as [_ Hfl]. apply Ha. by eexists.
Qed.

Lemma vfs_close_files f (v v' : vfs F) u : store_ok v → vfs_close (Some f) v = Done (u, v') →
  store_ok v' ∧ dom (files v') = dom (files v) ∖ {[f]}.
Proof.
  intros Hok. cbn [vfs_close]. intros (fl & v1 & [-> Ef]%get_file_Done & E)%bind_inv.
  apply bind_inv in E as (a & v2 & E1 & E). apply bind_inv in E as (u2 & v3 & E2 & E3). injection E3 as _ <-.
  assert (same_files v v3) as Hs.
  { etrans; [|by eapply keeps_dentry_put]. revert E1. repeat case_match; [apply keeps_on_fs|by intros [= _ <-]]. }
  destruct (Hs Hok) as [Hok3 Ed]. destruct (free_file_ok f v3 Hok3) as [? Ed']; [exact (same_files_lookup f fl v v3 Hok Hs Ef)|]. split; [done|].
  by rewrite Ed', Ed.
Qed.

(** A new file object is at an address that no other one has. *)
Definition opened_file (r : option Z) (v v' : vfs F) : Prop :=
  store_ok v' ∧ match r with
                | Some f => f ∉ dom (files v) ∧ dom (files v') = {[f]} ∪ dom (files v)
                | None => dom (files v') = dom (files v)
                end.

Lemma opened_file_trans r (v v1 v2 v3 : vfs F) : store_ok v → same_files v v1 → opened_file r v1 v2 → same_files v2 v3 → opened_file r v v3.
Proof.
  intros Hok H1 [Hok2 H2] H3. destruct (H1 Hok) as [_ E1], (H3 Hok2) as [Hok3 E3]. split; [done|].
  destruct r; rewrite <- E1, E3; [|done]. by destruct H2.
Qed.

Lemma vfs_open_files path flags (v v' : vfs F) r : store_ok v → vfs_open path flags v = Done (r, v') → opened_file r v v'.
Proof.
  intros Hok (d & v1 & E1 & E)%bind_inv. apply keeps_open_dentry in E1. revert E.
  assert (∀ v', same_files v1 v' → opened_file None v v') as Hnone.
  { intros v2 H2. eapply (opened_file_trans None v v1 v1); [done..| |done]. by destruct (E1 Hok). }
  destruct d as [d|]; [|intros [= <- <-]; by apply Hnone].
  intros (dn & v2 & E2 & E)%bind_inv. apply keeps_get_dentry in E2. destruct (d_inode dn) as [i|].
  2:{ apply bind_inv in E as (u & v3 & E3 & [= <- <-]). apply Hnone. etrans; [exact E2|by eapply keeps_dentry_put]. }
  apply bind_inv in E as (rc & v3 & E3 & E). assert (same_files v1 v3) as H3.
  { etrans; [exact E2|]. revert E3. repeat case_match; first [apply keeps_on_fs|by intros [= _ <-]]. }
  destruct (negb (rc =? 0)).
  { apply bind_inv in E as (u & v4 & E4 & [= <- <-]). apply Hnone. etrans; [exact H3|by eapply keeps_dentry_put]. }
  apply bind_inv in E as (f & v4 & E4 & E). unfold zalloc in E4. destruct (heap v3) as [|f' h] eqn:Eh.
  { injection E4 as <- <-. apply bind_inv in E as (u & v5 & E5 & [= <- <-]). apply Hnone. etrans; [exact H3|by eapply keeps_dentry_put]. }
  injection E4 as <- <-. apply bind_inv in E as (u & v5 & [= _ <-] & E).
  apply bind_inv in E as (rc2 & v6 & E6 & E). set (fl := File _ _ _ _) in *.
  assert (same_files v v3) as Hv3 by (by etrans). destruct (Hv3 Hok) as [[Hn Hf Ha] Ed]. rewrite Eh in *.
  apply NoDup_cons in Hn as [Hh Hn]. destruct (Hf f' ltac:(left)) as [Hff Hfd].
  set (v4 := set_files (<[f' := fl]> (files (Vfs.set_heap h v3))) (Vfs.set_heap h v3)) in *.
  assert (opened_file (Some f') v v4) as H4.
  { split; [|rewrite <- Ed; split; [by apply not_elem_of_dom|apply dom_insert_L]]. split; cbn; [done| |].
    - intros a Hin. destruct (Hf a ltac:(by right)). rewrite lookup_insert_ne by (by intros ->). done.
    - intros a Hin. destruct (decide (a = f')) as [->|Hne]; [done|]. rewrite lookup_insert_ne in Hin by done. by apply Ha. }
  assert (same_files v4 v6) as H6.
  { revert E6. destruct (op_open i); [apply keeps_on_fs|by intros [= _ <-]]. }
  pose proof (opened_file_trans (Some f') v v v4 v6 Hok ltac:(done) H4 H6) as H6'.
  destruct (negb (rc2 =? 0)); [|by injection E as <- <-].
  apply bind_inv in E as (u7 & v7 & E7 & E). apply bind_inv in E as (u8 & v8 & [= _ <-] & [= <- <-]).
  apply keeps_dentry_put in E7. destruct (opened_file_trans (Some f') v v v6 v7 Hok ltac:(done) H6' E7) as [Hok7 [Hf7 Ed7]].
  destruct (free_file_ok f' v7 Hok7) as [Hok8 Ed8]; [apply elem_of_dom; rewrite Ed7; set_solver|]. split; [done|].
  rewrite Ed8, Ed7. set_solver.
Qed.

Lemma keeps_vfs_read f n : keeps_files (vfs_read f n).
Proof.
  destruct f as [f|]; [|apply keeps_ret; apply _]. intros v r v' (fl & v1 & [-> Ef]%get_file_Done & E)%bind_inv. revert E.
  destruct (fl_inode fl ≫= op_read) as [rd|]; [|by intros [= _ <-]].
  intros ([n' buf] & v2 & E1 & E)%bind_inv. apply bind_inv in E as (u & v3 & [= _ <-] & [= _ <-]).
  apply keeps_on_fs in E1. by eapply put_back.
Qed.

Lemma keeps_vfs_write f buf : keeps_files (vfs_write f buf).
Proof.
  destruct f as [f|]; [|apply keeps_ret; apply _]. intros v r v' (fl & v1 & [-> Ef]%get_file_Done & E)%bind_inv. revert E.
  destruct (fl_inode fl) as [i|]; [|by intros [= _ <-]]. destruct (op_write i) as [wr|]; [|by intros [= _ <-]].
  intros (off & v2 & E1 & E)%bind_inv. apply bind_inv in E as (n & v3 & E2 & E). apply bind_inv in E as (u & v4 & [= _ <-] & [= _ <-]).
  eapply put_back; [exact Ef|]. etrans; [|by eapply keeps_on_fs]. revert E1. case_match; [apply keeps_on_fs|by intros [= _ <-]].
Qed.

(** A file whose offset is set. *)
Lemma keeps_seek_to f (g : file → file) : keeps_files (fl ← get_file f; put_file f (g fl)).
Proof. intros v r v' (fl & v1 & [-> Ef]%get_file_Done & [= _ <-])%bind_inv. by eapply put_file_same. Qed.
End open_files.

(** ** The kernel *)

(** The listing of a directory is nothing but calls of the callback. *)
Class ReaddirLaw (F : Type) `{!fs_ops F} : Prop := readdir_calls : ∀ i rd B off (fill : B → dirent → Z * B) b s r off' b' s',
  op_readdir i = Some rd → rd B off fill b s = Done ((r, off', b'), s') → ∃ ds, b' = fold_left (λ b d, snd (fill b d)) ds b.

Section kernel.
Context {M F : Type} `{!task_mem M, !user_mem M, !fs_ops F}.
Variable idle : Z.

(** A working directory is a resolved path that fits its field. *)
Definition cwd_ok (cwd : list Z) : Prop :=
  text cwd ∧ Z.of_nat (length cwd) < TASK_CWD_MAX ∧ ∃ names, Forall plain_name names ∧ cwd = path_text names.

(** Every descriptor of every task refers to an open file, and no other descriptor refers to it. *)
Record io_ok (k : kern M F) : Prop := {
  io_store : store_ok (kvfs k);
  io_mem : bytes_ok (umem k);
  io_table t tk : tasks (ksys k) !! t = Some tk → length (t_fds tk) = TASK_MAX_FDS ∧ cwd_ok (t_cwd tk);
  io_live t tk i f : tasks (ksys k) !! t = Some tk → t_fds tk !! i = Some (Some f) → f ∈ dom (files (kvfs k));
  io_once t tk i t' tk' i' f : tasks (ksys k) !! t = Some tk → t_fds tk !! i = Some (Some f) →
    tasks (ksys k) !! t' = Some tk' → t_fds tk' !! i' = Some (Some f) → t = t' ∧ i = i'
}.

Definition io_same (k k' : kern M F) : Prop :=
  (bytes_ok (umem k) → bytes_ok (umem k')) ∧ same_io (ksys k) (ksys k') ∧ same_files (kvfs k) (kvfs k').

#[export] Instance io_same_preorder : PreOrder io_same.
Proof.
  split; [intros k; split_and!; [done|reflexivity|reflexivity]|]. intros k1 k2 k3 (A1 & B1 & C1) (A2 & B2 & C2).
  split_and!; [auto|by etrans|by etrans].
Qed.

Lemma io_same_ok k k' : io_ok k → io_same k k' → io_ok k'.
Proof.
  intros [Hs Hm Ht Hl Ho] (HA & HB & HC). destruct (HC Hs) as [Hs' Ed]. split; [done|by apply HA| | |].
  - intros t tk' Htk. destruct (HB t tk' Htk) as (tk & Htk0 & -> & ->). by eapply Ht.
  - intros t tk' i f Htk. destruct (HB t tk' Htk) as (tk & Htk0 & -> & _). rewrite Ed. by eapply Hl.
  - intros t tk' i t2 tk2' i2 f Htk Hi Htk2 Hi2. destruct (HB t tk' Htk) as (tk & Htk0 & E & _). destruct (HB t2 tk2' Htk2) as (tk2 & Htk20 & E2 & _).
    rewrite E in Hi. rewrite E2 in Hi2. by eapply Ho.
Qed.

Lemma keeps_on_tasks {A} (m : st (sys M) A) : keeps same_io m → keeps io_same (on_tasks m).
Proof.
  intros Hm k a k'. unfold on_tasks, on_con, on_sys. destruct (m (csys (kcon k))) as [[x s]|] eqn:E; intros [= _ <-].
  split_and!; [done| |reflexivity]. by eapply Hm.
Qed.

Lemma keeps_on_vfs {A} (m : st (vfs F) A) : keeps same_files m → keeps io_same (on_vfs m).
Proof.
  intros Hm k a k'. unfold on_vfs. destruct (m (kvfs k)) as [[x s]|] eqn:E; intros [= _ <-].
  split_and!; [done|reflexivity|by eapply Hm].
Qed.

Definition same_sys (c c' : con M) : Prop := csys c' = csys c.
#[export] Instance same_sys_preorder : PreOrder same_sys.
Proof. split; [done|]. intros a b c H1 H2. by unfold same_sys in *; etrans. Qed.

Lemma keeps_on_con {A} (m : st (con M) A) : keeps same_sys m → keeps io_same (on_con m).
Proof.
  intros Hm k a k'. unfold on_con. destruct (m (kcon k)) as [[x c]|] eqn:E; intros [= _ <-].
  split_and!; [done| |reflexivity]. apply same_io_tasks. unfold ksys. cbn. by rewrite (Hm _ _ _ E).
Qed.

Lemma keeps_on_tty {A} (m : st term A) : keeps same_sys (on_tty m).
Proof. intros c a c'. unfold on_tty. destruct (m (tty c)) as [[x t]|]; by intros [= _ <-]. Qed.

Lemma keeps_on_term {A} (m : st term A) : keeps io_same (on_term m).
Proof. apply keeps_on_con, keeps_on_tty. Qed.

Lemma keeps_klog s l : keeps io_same (klog s l).
Proof. unfold klog. keeps. apply keeps_on_term. Qed.

Lemma keeps_kmem {A} (m : st M A) : keeps io_same (Loader.on_mem m).
Proof. apply keeps_on_tasks, keeps_on_mem. Qed.

Lemma store_bytes_ok l : ∀ a m m', bytes_ok m → store_bytes a l m = Done m' → bytes_ok m'.
Proof.
  induction l as [|c l IH]; intros a m m' Hm; cbn [store_bytes]; [by intros [= <-]|]. unfold stb. destruct (m !! a); [|done].
  apply IH. intros b x Hx. apply lookup_insert_Some in Hx as [[<- <-]|[_ Hx]]; [apply (wrap_range 8); lia|by eapply Hm].
Qed.

Lemma keeps_write_user a l : keeps io_same (write_user (F := F) a l).
Proof.
  intros k u k'. unfold write_user, on_umem. destruct (store_bytes (u64 a) l (umem k)) as [m|] eqn:E; intros [= _ <-].
  split_and!; [|reflexivity|reflexivity]. intros Hm. by eapply store_bytes_ok.
Qed.

Lemma keeps_read_user {A} (f : mem → run A) : keeps io_same (read_user f).
Proof. unfold read_user. keeps. Qed.
End kernel.

#[export] Hint Resolve keeps_dentry_put keeps_get_dentry keeps_on_fs keeps_vfs_path_lookup keeps_vfs_mknod keeps_vfs_remove keeps_vfs_read
  keeps_vfs_write keeps_seek_to keeps_get_file keeps_on_tty keeps_on_term keeps_klog keeps_kmem keeps_write_user keeps_read_user : keeps.
#[export] Hint Extern 2 (keeps same_sys (st_modify _)) => apply keeps_modify; done : keeps.
#[export] Hint Extern 3 (keeps io_same (on_tasks _)) => apply keeps_on_tasks; solve [keeps] : keeps.
#[export] Hint Extern 3 (keeps io_same (on_vfs _)) => apply keeps_on_vfs; solve [keeps] : keeps.
#[export] Hint Extern 3 (keeps io_same (on_con _)) => apply keeps_on_con; solve [keeps] : keeps.
