(* ===== verification/SysTable.v ===== *)
(** * The descriptor tables under every system call

    Each handler keeps every descriptor of every task on an open file of its
    own, and every working directory a resolved path. *)

From S2P Require Import Prelude Frame CString Bytes Dirent VfsPath Vfs Framebuffer Ktime Tty Input Kprintf Task Kernel Loader Syscall SysMem SysFiles.

Local Open Scope Z_scope.

Section handlers.
Context {M F : Type} `{!task_mem M, !user_mem M, !fs_ops F, !ReaddirLaw F}.
Variable idle : Z.
Notation keeps_io m := (keeps (io_same (M := M) (F := F)) m).

(** Calls that touch neither descriptors nor directories. *)
Lemma keeps_cur_task : keeps_io cur_task.
Proof. unfold cur_task, get_current. apply keeps_on_tasks. keeps. Qed.

Lemma keeps_fd_get fd : keeps_io (fd_get fd).
Proof. unfold fd_get. keeps. Qed.

#[local] Hint Resolve keeps_cur_task keeps_fd_get : keeps.

Lemma keeps_with_path u ps az k : (∀ p, keeps_io (k p)) → keeps_io (with_path u ps az k).
Proof. intros Hk. unfold with_path, ret. keeps. Qed.

Lemma keeps_sys_write fd u n : keeps_io (sys_write fd u n).
Proof. unfold sys_write, ret. keeps. Qed.
Lemma keeps_sys_read fd u n : keeps_io (sys_read idle fd u n).
Proof. unfold sys_read, ret. keeps. Qed.

Lemma keeps_sys_fb_info u : keeps_io (sys_fb_info u).
Proof. unfold sys_fb_info, ret. keeps. Qed.
Lemma keeps_sys_fb_blit u w h : keeps_io (sys_fb_blit u w h).
Proof. unfold sys_fb_blit, on_screen, ret. keeps. Qed.
Lemma keeps_sys_key_get : keeps_io sys_key_get.
Proof. unfold sys_key_get, keyboard_set_raw, ret. keeps. Qed.
Lemma keeps_sys_uptime_ms : keeps_io sys_uptime_ms.
Proof. unfold sys_uptime_ms, ret. keeps. Qed.
Lemma keeps_sys_sleep n : keeps_io (sys_sleep idle n).
Proof. unfold sys_sleep, ret. keeps. Qed.
Lemma keeps_sys_getpid : keeps_io sys_getpid.
Proof. unfold sys_getpid, ret. keeps. Qed.
Lemma keeps_sys_waitpid p u : keeps_io (sys_waitpid idle p u).
Proof. unfold sys_waitpid, ret. keeps. Qed.
Lemma keeps_sys_yield : keeps_io (sys_yield idle).
Proof. unfold sys_yield, ret. keeps. Qed.

Lemma keeps_put_is_dir d : keeps_io (put_is_dir d).
Proof. unfold put_is_dir. apply keeps_on_vfs. keeps. Qed.
#[local] Hint Resolve keeps_put_is_dir : keeps.

Lemma keeps_sys_mkdir u m : keeps_io (sys_mkdir u m).
Proof. apply keeps_with_path. intros p. unfold ret, vfs_mkdir. keeps. Qed.
Lemma keeps_do_remove u b : keeps_io (do_remove u b).
Proof. apply keeps_with_path. intros p. unfold ret, vfs_rmdir, vfs_unlink. keeps. Qed.

Lemma on_vfs_Done {A} (m : st (vfs F) A) (k : kern M F) a k' : on_vfs m k = Done (a, k') → ∃ v', m (kvfs k) = Done (a, v') ∧ k' = put_vfs v' k.
Proof. unfold on_vfs. destruct (m (kvfs k)) as [[x v]|]; intros [= -> <-]. by exists v. Qed.

Lemma on_tasks_Done {A} (m : st (sys M) A) (k : kern M F) a k' : on_tasks m k = Done (a, k') → ∃ s', m (ksys k) = Done (a, s') ∧ k' = put_sys s' k.
Proof. unfold on_tasks, on_con, on_sys, ksys. destruct (m (csys (kcon k))) as [[x s]|]; intros [= -> <-]. by exists s. Qed.

(** An open file that is put back with another offset. *)
Lemma put_file_back f fl fl' (k1 k2 k3 : kern M F) u : files (kvfs k1) !! f = Some fl → io_same k1 k2 → on_vfs (put_file f fl') k2 = Done (u, k3) →
  io_same k1 k3.
Proof.
  intros Hf (HA & HB & HC) (v & E & ->)%on_vfs_Done. injection E as _ <-. split_and!; [done|done|]. by eapply put_back.
Qed.

Lemma keeps_sys_lseek fd off w : keeps_io (sys_lseek fd off w).
Proof.
  intros k r k' (o & k1 & E1 & E)%bind_inv. apply keeps_fd_get in E1. etrans; [exact E1|]. clear E1 k. revert E.
  destruct o as [f|]; [|by intros [= _ <-]]. intros (fl & k2 & E2 & E)%bind_inv.
  apply on_vfs_Done in E2 as (v & [-> Ef]%get_file_Done & ->). destruct k1 as [c v m]; cbn [put_vfs kcon kvfs umem] in *.
  apply bind_inv in E as (b & k3 & E3 & E). assert (io_same (Kern c v m) k3) as H3.
  { match type of E3 with ?m _ = _ => assert (keeps_io m) as Hk by keeps end. exact (Hk _ _ _ E3). }
  revert E. destruct b as [b|]; [|by intros [= _ <-]]. cbn zeta. destruct (i64 (b + off) <? 0); [by intros [= _ <-]|].
  intros (u & k4 & E4 & [= _ <-])%bind_inv. by eapply put_file_back.
Qed.

(** Storing directory records leaves bytes in the memory. *)
Lemma filldir_bytes ubuf max ds : ∀ s m, (∀ n m', s = Done (n, m') → bytes_ok m') →
  fold_left (λ b d, snd (readdir_filldir ubuf max b d)) ds s = m → ∀ n m', m = Done (n, m') → bytes_ok m'.
Proof.
  induction ds as [|d ds IH]; intros s m Hs; cbn [fold_left]; [by intros <-|]. apply IH. intros n m'. unfold readdir_filldir.
  destruct s as [[n0 m0]|]; [|done]. case_match; [intros [= <- <-]; by eapply Hs|].
  destruct (store_bytes _ _ m0) eqn:E; [|done]. intros [= _ <-]. eapply store_bytes_ok; [by eapply Hs|exact E].
Qed.

Lemma keeps_sys_readdir fd u n : keeps_io (sys_readdir fd u n).
Proof.
  intros k r k'. unfold sys_readdir. case_match; [by intros [= _ <-]|]. case_match; [by intros [= _ <-]|].
  intros (o & k1 & E1 & E)%bind_inv. apply keeps_fd_get in E1. etrans; [exact E1|]. clear E1 k. revert E.
  destruct o as [f|]; [|by intros [= _ <-]]. intros (fl & k2 & E2 & E)%bind_inv.
  apply on_vfs_Done in E2 as (v & [-> Ef]%get_file_Done & ->). destruct k1 as [c v m]; cbn [put_vfs kcon kvfs umem] in *.
  revert E. destruct (fl_inode fl) as [i|]; [|by intros [= _ <-]]. destruct (op_readdir i) as [rd|] eqn:Erd; [|by intros [= _ <-]].
  change (put_vfs v (Kern c v m)) with (Kern c v m). intros (k0 & kx & [= <- <-] & E)%bind_inv. cbn [umem] in E.
  apply bind_inv in E as ([[cnt off] s] & k2 & E2 & E).
  apply on_vfs_Done in E2 as (v2 & E2 & ->). pose proof (keeps_on_fs _ _ _ _ E2) as H2. cbn [kvfs] in H2, E2. unfold on_fs in E2.
  destruct (rd (run (Z * mem)) (fl_offset fl) (readdir_filldir (u64 u) (i32 n)) (Done (0, m)) (fsys v)) as [[x fs]|] eqn:E3; [|done]. injection E2 as -> <-.
  destruct (readdir_calls i rd _ _ _ _ _ _ _ _ _ Erd E3) as (ds & Es).
  apply bind_inv in E as (u3 & k3 & E4 & E). apply (put_file_back f fl _ (Kern c v m)) in E4; [|done|by split_and!].
  apply bind_inv in E as ([n2 m2] & k4 & E5 & E). apply bind_inv in E as (u5 & k5 & [= _ <-] & [= _ <-]).
  unfold st_run in E5. destruct s as [[n3 m3]|]; [|done]. injection E5 as <- <- <-. destruct E4 as (HA & HB & HC).
  split_and!; [|exact HB|exact HC]. cbn [umem put_umem]. intros Hm.
  apply (filldir_bytes (u64 u) (i32 n) ds (Done (0, m)) (Done (n3, m3)) ltac:(by intros ? ? [= _ <-]) (eq_sym Es) n3 m3 eq_refl).
Qed.

(** ** The calls that change descriptors and directories *)

(** A file that is open but that no descriptor refers to yet. *)
Record io_open (f : Z) (k : kern M F) : Prop := {
  op_ok : io_ok k;
  op_live : f ∈ dom (files (kvfs k));
  op_unused t tk i : tasks (ksys k) !! t = Some tk → t_fds tk !! i ≠ Some (Some f)
}.

Lemma io_open_same f (k k' : kern M F) : io_open f k → io_same k k' → io_open f k'.
Proof.
  intros [Ho Hl Hu] Hs. pose proof (io_same_ok _ _ Ho Hs) as Ho'. destruct Hs as (_ & HB & HC). destruct (HC (io_store _ Ho)) as [_ Ed].
  split; [done|by rewrite Ed|]. intros t tk' i Ht. destruct (HB t tk' Ht) as (tk & Ht0 & -> & _). by apply Hu with t.
Qed.

Lemma open_ok path flags (k : kern M F) r v : io_ok k → vfs_open path flags (kvfs k) = Done (r, v) →
  match r with Some f => io_open f (put_vfs v k) | None => io_ok (put_vfs v k) end.
Proof.
  intros [Hs Hm Ht Hl Ho] E. apply (vfs_open_files path flags _ _ _ Hs) in E as [Hs' Hd]. destruct r as [f|].
  - destruct Hd as [Hf Ed]. split.
    + split; [done|done|done| |done]. intros t tk i g Htk Hi. cbn [put_vfs kvfs]. rewrite Ed. apply elem_of_union_r. by eapply Hl.
    + cbn [put_vfs kvfs]. rewrite Ed. set_solver.
    + intros t tk i Htk Hi. apply Hf. by eapply Hl.
  - split; [done|done|done| |done]. intros t tk i g Htk Hi. cbn [put_vfs kvfs]. rewrite Hd. by eapply Hl.
Qed.

Lemma close_unused f (k k' : kern M F) u : io_open f k → on_vfs (vfs_close (Some f)) k = Done (u, k') → io_ok k'.
Proof.
  intros [[Hs Hm Ht Hl Ho] Hlv Hu] (v & E & ->)%on_vfs_Done. apply (vfs_close_files f _ _ _ Hs) in E as [Hs' Ed].
  split; [done|done|done| |done]. intros t tk i g Htk Hi. cbn [put_vfs kvfs]. rewrite Ed.
  assert (g ≠ f) by (intros ->; by eapply Hu). apply elem_of_difference. split; [by eapply Hl|set_solver].
Qed.

Lemma upd_task_Done t g (s s' : sys M) u : upd_task t g s = Done (u, s') → ∃ tk, tasks s !! t = Some tk ∧ s' = put_tasks (<[t := g tk]> (tasks s)) s.
Proof.
  unfold upd_task, get_task, mbind, st_bind, st_get, st_run, st_modify. cbn. destruct (tasks s !! t) as [tk|]; intros [= _ <-]. by exists tk.
Qed.

Lemma get_task_Done t (s s' : sys M) tk : get_task t s = Done (tk, s') → s' = s ∧ tasks s !! t = Some tk.
Proof. unfold get_task, mbind, st_bind, st_get, st_run. cbn. destruct (tasks s !! t) as [x|]; intros [= -> <-]. done. Qed.

Lemma put_sys_tasks ts s (k : kern M F) : tasks (ksys (put_sys (put_tasks ts s) k)) = ts.
Proof. done. Qed.

(** A slot of a task: closing its file and clearing it. *)
Lemma close_slot t i tk f (k : kern M F) v u : io_ok k → tasks (ksys k) !! t = Some tk → t_fds tk !! i = Some (Some f) →
  vfs_close (Some f) (kvfs k) = Done (u, v) →
  io_ok (put_sys (put_tasks (<[t := set_fds (<[i := None]> (t_fds tk)) tk]> (tasks (ksys k))) (ksys k)) (put_vfs v k)).
Proof.
  intros [Hs Hm Ht Hl Ho] Htk Hi E. apply (vfs_close_files f _ _ _ Hs) in E as [Hs' Ed].
  assert (∀ t' tk' i' g, <[t := set_fds (<[i := None]> (t_fds tk)) tk]> (tasks (ksys k)) !! t' = Some tk' → t_fds tk' !! i' = Some (Some g) →
    ∃ tk0, tasks (ksys k) !! t' = Some tk0 ∧ t_fds tk0 !! i' = Some (Some g) ∧ (t', i') ≠ (t, i)) as Hold.
  { intros t' tk' i' g [[<- <-]|[Hne Htk']]%lookup_insert_Some Hg; [|by exists tk'; split_and!; [..|congruence]].
    cbn [set_fds t_fds] in Hg. apply list_lookup_insert_Some in Hg as [(_ & [=] & _)|[Hne Hg]]. exists tk. split_and!; [done|done|congruence]. }
  split; [exact Hs'|exact Hm| | |].
  - intros t' tk'. rewrite put_sys_tasks. intros [[<- <-]|[Hne Htk']]%lookup_insert_Some; [|by eapply Ht].
    cbn [set_fds t_fds t_cwd]. rewrite length_insert. by eapply Ht.
  - intros t' tk' i' g Htk' Hg. destruct (Hold t' tk' i' g Htk' Hg) as (tk0 & H0 & Hg0 & Hne). cbn [put_sys put_con put_vfs kvfs]. rewrite Ed.
    apply elem_of_difference. split; [by eapply Hl|]. intros ->%elem_of_singleton. destruct (Ho t' tk0 i' t tk i f H0 Hg0 Htk Hi) as [-> ->]. done.
  - intros t1 tk1 i1 t2 tk2 i2 g H1 Hg1 H2 Hg2. destruct (Hold _ _ _ _ H1 Hg1) as (? & ? & ? & _), (Hold _ _ _ _ H2 Hg2) as (? & ? & ? & _). by eapply Ho.
Qed.

(** A file that no descriptor refers to goes to a free slot. *)
Lemma take_slot t i tk f (k : kern M F) : io_open f k → tasks (ksys k) !! t = Some tk → t_fds tk !! i = Some None →
  io_ok (put_sys (put_tasks (<[t := set_fds (<[i := Some f]> (t_fds tk)) tk]> (tasks (ksys k))) (ksys k)) k).
Proof.
  intros [[Hs Hm Ht Hl Ho] Hlv Hu] Htk Hi.
  assert (∀ t' tk' i' g, <[t := set_fds (<[i := Some f]> (t_fds tk)) tk]> (tasks (ksys k)) !! t' = Some tk' → t_fds tk' !! i' = Some (Some g) →
    (t' = t ∧ i' = i ∧ g = f) ∨ (g ≠ f ∧ ∃ tk0, tasks (ksys k) !! t' = Some tk0 ∧ t_fds tk0 !! i' = Some (Some g))) as Hold.
  { intros t' tk' i' g [[<- <-]|[Hne Htk']]%lookup_insert_Some Hg.
    - cbn [set_fds t_fds] in Hg. apply list_lookup_insert_Some in Hg as [(-> & [= ->] & _)|[Hne Hg]]; [by left|]. right. split; [|by eauto].
      intros ->. by eapply Hu.
    - right. split; [|by eauto]. intros ->. by eapply Hu. }
  split; [exact Hs|exact Hm| | |].
  - intros t' tk'. rewrite put_sys_tasks. intros [[<- <-]|[Hne Htk']]%lookup_insert_Some; [|by eapply Ht].
    cbn [set_fds t_fds t_cwd]. rewrite length_insert. by eapply Ht.
  - intros t' tk' i' g Htk' Hg. destruct (Hold _ _ _ _ Htk' Hg) as [(_ & _ & ->)|(_ & tk0 & ? & ?)]; [exact Hlv|]. by eapply Hl.
  - intros t1 tk1 i1 t2 tk2 i2 g H1 Hg1 H2 Hg2.
    destruct (Hold _ _ _ _ H1 Hg1) as [(-> & -> & ->)|(? & ? & ? & ?)], (Hold _ _ _ _ H2 Hg2) as [(-> & -> & ?)|(? & ? & ? & ?)]; try done. by eapply Ho.
Qed.

Lemma free_slot_Some fds : ∀ j i, free_slot fds j = Some i → ∃ n, i = (j + n)%nat ∧ fds !! n = Some None ∧ ∀ p, (p < n)%nat → ∃ f, fds !! p = Some (Some f).
Proof.
  induction fds as [|[f|] fds IH]; intros j i; cbn [free_slot]; [done| |].
  - intros (n & -> & Hn & Hp)%IH. exists (S n). split; [lia|]. split; [done|]. intros [|p] Hlt; [by exists f|]. apply Hp. lia.
  - intros [= <-]. exists 0%nat. split; [lia|]. split; [done|]. lia.
Qed.

(** What a call that ends leaves in order. *)
Definition safe {A} (m : st (kern M F) A) : Prop := ∀ k a k', io_ok k → m k = Done (a, k') → io_ok k'.

Lemma keeps_safe {A} (m : st (kern M F) A) : keeps_io m → safe m.
Proof. intros Hm k a k' Hk E. eapply io_same_ok; [exact Hk|by eapply Hm]. Qed.

Lemma safe_bind {A B} (m : st (kern M F) A) (g : A → st (kern M F) B) : safe m → (∀ a, safe (g a)) → safe (m ≫= g).
Proof. intros Hm Hg k b k' Hk (a & k1 & E & E')%bind_inv. eapply Hg; [|exact E']. by eapply Hm. Qed.

Lemma cur_task_Done (k k' : kern M F) tk : cur_task k = Done (tk, k') → ∃ c, k' = k ∧ current_task (ksys k) = Some c ∧ tasks (ksys k) !! c = Some tk.
Proof.
  intros (s & E & ->)%on_tasks_Done. apply bind_inv in E as (c & s1 & E & [-> Ht]%get_task_Done).
  unfold get_current, mbind, st_bind, st_get, st_run in E. destruct (current_task (ksys k)) as [x|] eqn:Ec; [|done]. cbn in E. injection E as -> <-.
  exists c. split; [|done]. by destruct k as [[] ? ?].
Qed.

Lemma upd_cur_Done g (k k' : kern M F) u : upd_cur g k = Done (u, k') → ∃ c tk, current_task (ksys k) = Some c ∧ tasks (ksys k) !! c = Some tk ∧
  k' = put_sys (put_tasks (<[c := g tk]> (tasks (ksys k))) (ksys k)) k.
Proof.
  intros (s & E & ->)%on_tasks_Done. apply bind_inv in E as (c & s1 & E & (tk & Ht & ->)%upd_task_Done).
  unfold get_current, mbind, st_bind, st_get, st_run in E. destruct (current_task (ksys k)) as [x|] eqn:Ec; [|done]. cbn in E. injection E as -> <-. by exists c, tk.
Qed.

(** The path of a call: the state is as before, and the text resolves. *)
Lemma with_path_Done u ps az h (k k' : kern M F) r : io_ok k → ps <= 256 → 0 <= az → with_path u ps az h k = Done (r, k') →
  k' = k ∨ ∃ names, Forall plain_name names ∧ text (path_text names) ∧ Z.of_nat (length (path_text names)) < az ∧ h (path_text names) k = Done (r, k').
Proof.
  intros Hok Hps Haz (c & k1 & E & E')%bind_inv. unfold read_user, mbind, st_bind, st_get, st_run in E.
  destruct (copy_user_str u ps (umem k)) as [c'|] eqn:Ecp; [|done]. injection E as -> <-. destruct c as [err|path]; [left; by injection E'|].
  assert (text path ∧ Z.of_nat (length path) < 256) as [Htx Hlen].
  { unfold copy_user_str in Ecp. case_match; [done|]. destruct (copy_loop (Z.to_nat ps) (u64 u) (umem k)) as [[l|]|] eqn:El; [|done..].
    injection Ecp as ->. destruct (copy_loop_inv _ _ (io_mem _ Hok) _ _ El) as [[_ Ht] Hl]. split; [exact Ht|lia]. }
  apply bind_inv in E' as (tk & k1 & (c & -> & _ & Ht)%cur_task_Done & E'). destruct (io_table _ Hok _ _ Ht) as [_ (Hct & Hcl & _)]. unfold TASK_CWD_MAX in Hcl.
  destruct (resolve_path_Done (t_cwd tk) path az Hct Htx ltac:(lia) ltac:(lia) Haz) as [Er Hr].
  apply bind_inv in E' as (o & k1 & E & E'). unfold st_run in E. rewrite Er in E. injection E as <- <-.
  destruct (resolve_fits (t_cwd tk) path az); [|left; by injection E']. right. destruct (Hr eq_refl). exists (path_names (t_cwd tk) path).
  split_and!; [apply path_names_plain|done..].
Qed.

Lemma safe_with_path u ps az h : ps <= 256 → 0 <= az →
  (∀ names k r k', io_ok k → Forall plain_name names → text (path_text names) → Z.of_nat (length (path_text names)) < az →
    h (path_text names) k = Done (r, k') → io_ok k') → safe (with_path u ps az h).
Proof. intros Hp Ha Hh k r k' Hok E. apply (with_path_Done u ps az h) in E as [->|(n & ? & ? & ? & E)]; [done| |done..]. by eapply Hh. Qed.

Lemma safe_sys_open u fl : safe (sys_open u fl).
Proof.
  apply safe_with_path; [lia|lia|]. intros names k r k' Hok _ _ _ (o & k1 & (v & E1 & ->)%on_vfs_Done & E)%bind_inv.
  apply (open_ok _ _ k _ _ Hok) in E1. destruct o as [f|]; [|by injection E as _ <-].
  apply bind_inv in E as (fd & k2 & E2 & E). apply bind_inv in E2 as (tk & k3 & (c & -> & Hc & Ht)%cur_task_Done & E2).
  destruct (free_slot (t_fds tk) 0) as [i|] eqn:Efs.
  - apply free_slot_Some in Efs as (n & -> & Hn & _). apply bind_inv in E2 as (u2 & k3 & (c' & tk' & Hc' & Ht' & ->)%upd_cur_Done & E2).
    injection E2 as <- <-. assert (c' = c) as -> by congruence. assert (tk' = tk) as -> by congruence. unfold TASK_FD_BASE in E.
    rewrite (proj2 (Z.ltb_ge _ _)) in E by lia. injection E as _ <-. by apply take_slot.
  - injection E2 as <- <-. change (-1 <? 0) with true in E. apply bind_inv in E as (u2 & k3 & E3 & [= _ <-]). by eapply close_unused.
Qed.

Lemma safe_sys_close fd : safe (sys_close fd).
Proof.
  intros k r k' Hok (o & k1 & E1 & E)%bind_inv. destruct o as [f|].
  2:{ injection E as _ <-. eapply io_same_ok; [exact Hok|by eapply keeps_fd_get]. }
  apply bind_inv in E1 as (s & k2 & (s' & [= <- <-] & ->)%on_tasks_Done & E1).
  assert (put_sys (ksys k) k = k) as Ek by (by destruct k as [[] ? ?]). rewrite Ek in E1.
  destruct (current_task (ksys k)) as [c|] eqn:Ec; [|done]. destruct (_ || _); [done|].
  apply bind_inv in E1 as (tk & k2 & (s' & [-> Ht]%get_task_Done & ->)%on_tasks_Done & E1). rewrite Ek in E1.
  unfold st_run in E1. destruct (t_fds tk !! Z.to_nat (fd - TASK_FD_BASE)) as [o|] eqn:Ei; [|done]. injection E1 as -> <-.
  apply bind_inv in E as (u & k2 & (v & E2 & ->)%on_vfs_Done & E).
  apply bind_inv in E as (u2 & k3 & (c' & tk' & Hc' & Ht' & ->)%upd_cur_Done & [= _ <-]).
  change (ksys (put_vfs v k)) with (ksys k) in *. assert (c' = c) as -> by congruence. assert (tk' = tk) as -> by congruence. by eapply close_slot.
Qed.

Lemma safe_close_fds n t : ∀ i, safe (close_fds n t i).
Proof.
  induction n as [|n IH]; intros i k r k' Hok; cbn [close_fds]; [by intros [= _ <-]|].
  assert (put_sys (ksys k) k = k) as Ek by (by destruct k as [[] ? ?]).
  intros (tk & k1 & (s' & [-> Ht]%get_task_Done & ->)%on_tasks_Done & E)%bind_inv. rewrite Ek in E.
  apply bind_inv in E as (o & k1 & E1 & E). unfold st_run in E1. destruct (t_fds tk !! i) as [o'|] eqn:Ei; [|done]. injection E1 as -> <-.
  apply bind_inv in E as (u & k1 & E1 & E). apply (IH (S i) k1 r k'); [|exact E]. destruct o as [f|]; [|by injection E1 as _ <-].
  apply bind_inv in E1 as (u2 & k2 & (v & E2 & ->)%on_vfs_Done & (s' & (tk' & Ht' & ->)%upd_task_Done & ->)%on_tasks_Done).
  change (ksys (put_vfs v k)) with (ksys k) in *. assert (tk' = tk) as -> by congruence. by eapply close_slot.
Qed.

Lemma safe_sys_exit code : safe (sys_exit idle code).
Proof.
  unfold sys_exit. apply safe_bind; [apply keeps_safe; keeps|]. intros s.
  apply safe_bind; [destruct (current_task s) as [c|]; [apply safe_bind; [apply keeps_safe; keeps|intros _; apply safe_close_fds]|apply keeps_safe; keeps]|].
  intros _. unfold keyboard_set_raw. apply keeps_safe. keeps.
Qed.

Lemma safe_upd_cwd c cwd (k : kern M F) tk : io_ok k → cwd_ok cwd → tasks (ksys k) !! c = Some tk →
  io_ok (put_sys (put_tasks (<[c := set_cwd cwd tk]> (tasks (ksys k))) (ksys k)) k).
Proof.
  intros [Hs Hm Ht Hl Ho] Hc Htk.
  assert (∀ t' tk', <[c := set_cwd cwd tk]> (tasks (ksys k)) !! t' = Some tk' → ∃ tk0, tasks (ksys k) !! t' = Some tk0 ∧ t_fds tk' = t_fds tk0) as Hold.
  { intros t' tk' [[<- <-]|[Hne Htk']]%lookup_insert_Some; eauto. }
  split; [exact Hs|exact Hm| | |].
  - intros t' tk'. rewrite put_sys_tasks. intros [[<- <-]|[Hne Htk']]%lookup_insert_Some; [|by eapply Ht]. destruct (Ht _ _ Htk). by split.
  - intros t' tk' i g Htk' Hg. destruct (Hold _ _ Htk') as (tk0 & H0 & E). rewrite E in Hg. by eapply Hl.
  - intros t1 tk1 i1 t2 tk2 i2 g H1 Hg1 H2 Hg2. destruct (Hold _ _ H1) as (? & ? & E1), (Hold _ _ H2) as (? & ? & E2). rewrite E1 in Hg1. rewrite E2 in Hg2. by eapply Ho.
Qed.

Lemma safe_sys_chdir u : safe (sys_chdir u).
Proof.
  apply safe_with_path; [unfold TASK_CWD_MAX; lia|unfold TASK_CWD_MAX; lia|]. intros names k r k' Hok Hp Htx Hlen.
  intros (d & k1 & E1 & E)%bind_inv. assert (io_ok k1) as Hok1.
  { eapply io_same_ok; [exact Hok|]. eapply keeps_on_vfs; [|exact E1]. apply keeps_vfs_path_lookup. }
  destruct d as [d|]; [|by injection E as _ <-]. apply bind_inv in E as (b & k2 & E2 & E). apply keeps_put_is_dir in E2.
  pose proof (io_same_ok _ _ Hok1 E2) as Hok2. destruct (negb b); [by injection E as _ <-|].
  apply bind_inv in E as (u2 & k3 & (c & tk & Hc & Ht & ->)%upd_cur_Done & [= _ <-]). apply safe_upd_cwd; [done| |done].
  split_and!; [done|done|by exists names].
Qed.

(** *** Loading a program *)

Lemma keeps_read_loop fuel f put : (∀ p b, keeps_io (put p b)) → ∀ n p, keeps_io (read_loop fuel f put n p).
Proof. intros Hp. induction fuel; intros n p; cbn [read_loop]; keeps. Qed.

Lemma keeps_read_at f off put n : (∀ p b, keeps_io (put p b)) → keeps_io (read_at f off put n).
Proof.
  intros Hp. unfold read_at. apply keeps_bind; [apply _| |intros _; by apply keeps_read_loop].
  apply keeps_on_vfs. apply (keeps_seek_to f (λ fl, File (fl_inode fl) off (fl_flags fl) (fl_dentry fl))).
Qed.

Lemma keeps_to_kernel p o b : keeps_io (to_kernel p o b).
Proof. apply keeps_kmem. Qed.
Lemma keeps_to_local o b : keeps_io (to_local o b).
Proof. unfold to_local. keeps. Qed.
#[local] Hint Resolve keeps_read_at keeps_to_kernel keeps_to_local : keeps.

Lemma keeps_load_pages fuel f p i ph : ∀ j, keeps_io (load_pages fuel f p i ph j).
Proof. induction fuel; intros j; cbn [load_pages]; keeps. Qed.
#[local] Hint Resolve keeps_load_pages : keeps.

Lemma keeps_load_segments n f p l : ∀ i, keeps_io (load_segments n f p l i).
Proof. induction n; intros i; cbn [load_segments]; keeps. Qed.
#[local] Hint Resolve keeps_load_segments : keeps.

Lemma keeps_load_elf f t argv : keeps_io (load_elf f t argv).
Proof. unfold load_elf. keeps. Qed.

(** From the end of a call to the relation that it keeps. *)
Ltac kept E :=
  match type of E with ?m _ = _ =>
    let H := fresh in assert (keeps same_io m) as H by keeps; apply H in E; clear H
  end.

(** A new task has no descriptors and starts in the root. *)
Lemma task_create_io t e name pr us (s s' : sys M) u : task_create t e name pr us s = Done (u, s') →
  ∃ s1 tk, same_io s s1 ∧ tasks s' = <[t := tk]> (tasks s1) ∧ t_fds tk = replicate TASK_MAX_FDS None ∧ t_cwd tk = [47].
Proof.
  unfold task_create. intros E.
  apply bind_inv in E as (x1 & s1 & E1 & E). kept E1.
  apply bind_inv in E as (x2 & s2 & E2 & E). kept E2.
  apply bind_inv in E as (x3 & s3 & E3 & E). kept E3.
  apply bind_inv in E as (x4 & s4 & E4 & E). kept E4.
  apply bind_inv in E as (x5 & s5 & E5 & E). kept E5.
  apply bind_inv in E as (x6 & s6 & E6 & E). kept E6.
  apply bind_inv in E as (x7 & s7 & E7 & E). kept E7.
  apply bind_inv in E as (x8 & s8 & E8 & E). kept E8.
  apply bind_inv in E as (x9 & s9 & (tk & Ht & ->)%upd_task_Done & [= _ <-]).
  exists s8. eexists. split; [|done]. repeat (etrans; [eassumption|]). done.
Qed.

(** The state once the task structure of [spawn] is filled. *)
Lemma new_task_ok t tk f (k k' : kern M F) (s s1 : sys M) : io_open f k → kvfs k' = kvfs k → umem k' = umem k →
  tasks s = <[t := zero_task]> (tasks (ksys k)) → same_io s s1 → tasks (ksys k') = <[t := tk]> (tasks s1) →
  t_fds tk = replicate TASK_MAX_FDS None → t_cwd tk = [47] → io_open f k'.
Proof.
  intros [[Hs Hm Ht Hl Ho] Hlv Hu] Ev Em Es Hio Ets Ef Ec.
  assert (∀ t' tk', tasks (ksys k') !! t' = Some tk' → tk' = tk ∨ ∃ tk0, tasks (ksys k) !! t' = Some tk0 ∧ t_fds tk' = t_fds tk0 ∧ t_cwd tk' = t_cwd tk0) as Hold.
  { intros t' tk'. rewrite Ets. intros [[_ <-]|[Hne Ht']]%lookup_insert_Some; [by left|right].
    destruct (Hio _ _ Ht') as (tk0 & H0 & ? & ?). rewrite Es in H0. rewrite lookup_insert_ne in H0 by done. by exists tk0. }
  assert (∀ i g, t_fds tk !! i ≠ Some (Some g)) as Hnone.
  { intros i g. rewrite Ef. intros [[=] _]%lookup_replicate. }
  split; [|by rewrite Ev|].
  - split; [by rewrite Ev|by rewrite Em| | |].
    + intros t' tk' [->|(tk0 & H0 & -> & ->)]%Hold; [|by eapply Ht]. rewrite Ef, Ec. split; [done|]. split; [by repeat constructor|].
      split; [done|]. by exists [].
    + intros t' tk' i g [->|(tk0 & H0 & -> & _)]%Hold; [by intros ?%Hnone|]. rewrite Ev. by eapply Hl.
    + intros t1 tk1 i1 t2 tk2 i2 g [->|(tk1' & H1 & -> & _)]%Hold Hg1; [by apply Hnone in Hg1|].
      intros [->|(tk2' & H2 & -> & _)]%Hold Hg2; [by apply Hnone in Hg2|]. by eapply Ho.
  - intros t' tk' i [->|(tk0 & H0 & -> & _)]%Hold; [by apply Hnone|by eapply Hu].
Qed.

Lemma io_open_cwd f c cwd (k : kern M F) tk : io_open f k → cwd_ok cwd → tasks (ksys k) !! c = Some tk →
  io_open f (put_sys (put_tasks (<[c := set_cwd cwd tk]> (tasks (ksys k))) (ksys k)) k).
Proof.
  intros [Hok Hl Hu] Hc Ht. split; [by apply safe_upd_cwd|done|]. intros t' tk' i. rewrite put_sys_tasks.
  intros [[<- <-]|[Hne Htk']]%lookup_insert_Some; [by apply (Hu c tk i)|by apply (Hu _ _ i Htk')].
Qed.

Lemma put_sys_ksys (k : kern M F) : put_sys (ksys k) k = k.
Proof. by destruct k as [[] ? ?]. Qed.

(** A copy of the directory of the parent. *)
Lemma inherit_cwd f t (s : sys M) (k k' : kern M F) u : io_open f k →
  match current_task s with
  | Some c => ck ← on_tasks (get_task c); on_tasks (upd_task t (set_cwd (t_cwd ck)))
  | None => mret tt
  end k = Done (u, k') → io_open f k'.
Proof.
  intros Ho. destruct (current_task s) as [c|]; [|by intros [= _ <-]].
  intros (ck & k1 & (s' & [-> Hck]%get_task_Done & ->)%on_tasks_Done & (s2 & (tk & Htk & ->)%upd_task_Done & ->)%on_tasks_Done)%bind_inv.
  rewrite put_sys_ksys in *. apply io_open_cwd; [done| |done]. by eapply (io_table _ (op_ok _ _ Ho)).
Qed.

Lemma safe_spawn path argv : safe (spawn path argv).
Proof.
  intros k r k' Hok (o & k1 & (v & E1 & ->)%on_vfs_Done & E)%bind_inv. apply (open_ok _ _ k _ _ Hok) in E1.
  destruct o as [f|]; [|by injection E as _ <-]. set (k1 := put_vfs v k) in *.
  apply bind_inv in E as (z & k2 & E2 & E). apply keeps_kmem in E2. pose proof (io_open_same _ _ _ E1 E2) as H2.
  destruct z as [t|].
  2:{ apply bind_inv in E as (u & k3 & E3 & [= _ <-]). by eapply close_unused. }
  apply bind_inv in E as (u3 & k3 & (s3 & [= _ <-] & ->)%on_tasks_Done & E).
  apply bind_inv in E as (u4 & k4 & (s4 & E4 & ->)%on_tasks_Done & E).
  apply task_create_io in E4 as (s1 & tk & Hio & Ets & Ef & Ec).
  match type of E with _ ?x = _ => assert (io_open f x) as H4 end.
  { eapply (new_task_ok t tk f k2); [exact H2|done|done| |exact Hio|exact Ets|done|done]. done. }
  apply bind_inv in E as (u5 & k5 & E5 & E). assert (io_open f k5) as H5.
  { eapply io_open_same; [exact H4|]. eapply keeps_on_tasks; [|exact E5]. apply keeps_upd_task. done. }
  apply bind_inv in E as (s & k6 & (s6 & [= <- <-] & ->)%on_tasks_Done & E). rewrite put_sys_ksys in E.
  apply bind_inv in E as (u7 & k7 & E7 & E). apply (inherit_cwd f) in E7; [|done].
  apply bind_inv in E as (rc & k8 & E8 & E). apply keeps_load_elf in E8. pose proof (io_open_same _ _ _ E7 E8) as H8.
  destruct (negb (rc =? 0)).
  - apply bind_inv in E as (u9 & k9 & E9 & E). apply (close_unused f) in E9; [|done]. eapply keeps_safe; [|exact E9|exact E]. keeps.
  - apply bind_inv in E as (u9 & k9 & E9 & E). apply (close_unused f) in E9; [|done]. eapply keeps_safe; [|exact E9|exact E].
    unfold get_current. keeps.
Qed.

Lemma safe_sys_spawn u a : safe (sys_spawn u a).
Proof.
  apply safe_with_path; [lia|lia|]. intros names k r k' Hok _ _ _. revert k r k' Hok. apply safe_bind; [apply keeps_safe; keeps|].
  intros [err|argv]; [apply keeps_safe; unfold ret; keeps|]. apply safe_bind; [apply safe_spawn|]. intros pid. apply keeps_safe. unfold ret. keeps.
Qed.

Lemma safe_syscall regs : safe (syscall_handler_c idle regs).
Proof.
  unfold syscall_handler_c. apply safe_bind; [|intros r; apply keeps_safe; keeps]. case_match; [|apply keeps_safe; unfold ret; keeps].
  match goal with H : (if ?b then ?x else None) = Some _ |- _ => destruct b; [|done]; unfold syscall_table in H end.
  repeat (case_match; simplify_eq); first [apply safe_sys_exit|apply safe_sys_open|apply safe_sys_close|apply safe_sys_chdir|apply safe_sys_spawn|apply keeps_safe].
  all: first [apply keeps_sys_write|apply keeps_sys_read|apply keeps_sys_sleep|apply keeps_sys_getpid|apply keeps_sys_lseek|apply keeps_sys_fb_info
    |apply keeps_sys_fb_blit|apply keeps_sys_key_get|apply keeps_sys_uptime_ms|apply keeps_sys_waitpid|apply keeps_sys_yield|apply keeps_sys_readdir
    |apply keeps_sys_mkdir|apply keeps_do_remove|unfold sys_getcwd, ret; keeps].
Qed.
End handlers.

(** ** Theorem *)

(** C21: system calls keep descriptors and directories in order. Whatever the program puts into its registers and its memory: when a call
    ends, every descriptor of every task refers to an open file that no other descriptor refers to, every table has its
    sixteen slots, every working directory is an absolute path without dots that fits its field, and open files, directory entries and free
    memory are apart. *)
Theorem syscall_keeps_tables {M F} `{!task_mem M, !user_mem M, !fs_ops F, !ReaddirLaw F} idle regs (k : kern M F) r k' :
  io_ok k → syscall_handler_c idle regs k = Done (r, k') → io_ok k'.
Proof. apply safe_syscall. Qed.
