(* ===== verification/SysCalls.v ===== *)
(** * What the system calls do

    Positioned reads of a file, reads of typed lines, the working directory and the
    arguments that are refused. *)

From S2P Require Import Prelude CString Bytes VfsPath Vfs Tty Input Task Kernel Loader Syscall SysMem SysFiles SysTable.

Local Open Scope Z_scope.

(** The memory after [l] is stored at [a]. *)
Definition stored (a : Z) (l : list Z) (m m' : mem) : Prop := bytes_at m' a l ∧ only a (Z.of_nat (length l)) m m'.

Lemma store_stored a l m : mapped m a (length l) → Forall byte l → ∃ m', store_bytes a l m = Done m' ∧ stored a l m m'.
Proof.
  intros Hm Hl. exists (put_at a l m). split; [by apply store_bytes_Done|]. split; [apply put_at_in|]. intros k Hk. by apply put_at_out.
Qed.

Section calls.
Context {M F : Type} `{!task_mem M, !user_mem M, !fs_ops F}.
Implicit Types k : kern M F.

(** The running task has a descriptor for the open file. *)
Definition has_fd k (fd f : Z) : Prop := ∃ c tk n, current_task (ksys k) = Some c ∧ tasks (ksys k) !! c = Some tk ∧
  (n < TASK_MAX_FDS)%nat ∧ fd = TASK_FD_BASE + Z.of_nat n ∧ t_fds tk !! n = Some (Some f).

Lemma fd_get_wp k fd f (Q : option Z → kern M F → Prop) : has_fd k fd f → Q (Some f) k → wp (fd_get fd) Q k.
Proof.
  intros (c & tk & n & Hc & Ht & Hn & -> & Hf) HQ. unfold fd_get, TASK_FD_BASE, TASK_MAX_FDS in *.
  apply wp_bind. apply wp_on_tasks, wp_get. rewrite put_sys_ksys, Hc.
  rewrite (proj2 (Z.ltb_ge _ _)), (proj2 (Z.leb_gt _ _)) by lia. cbn [orb].
  apply wp_bind. eapply kern_get_task; [exact Ht|]. eapply wp_run; [|exact HQ]. replace (Z.to_nat (3 + Z.of_nat n - 3)) with n by lia. by rewrite Hf.
Qed.

Lemma write_user_wp a l k (Q : unit → kern M F → Prop) : mapped (umem k) (u64 a) (length l) → Forall byte l →
  (∀ m', stored (u64 a) l (umem k) m' → Q tt (put_umem m' k)) → wp (write_user a l) Q k.
Proof.
  intros Hm Hl HQ. destruct (store_stored (u64 a) l (umem k) Hm Hl) as (m' & E & Hs). unfold write_user.
  eapply wp_on_umem; [exact E|by apply HQ].
Qed.

Lemma mapped_le m a n n' : mapped m a n → (n' <= n)%nat → mapped m a n'.
Proof. intros Hm Hl i Hi. apply Hm. lia. Qed.

(** The file at another offset. *)
Definition at_offset (f : Z) (fl : file) (off : Z) (v : vfs F) : vfs F :=
  set_files (<[f := File (fl_inode fl) off (fl_flags fl) (fl_dentry fl)]> (files v)) v.

Lemma reads_as_at (P : vfs F → Prop) f data v off : reads_as P f data → P v → 0 <= off < 2 ^ 32 →
  ∃ fl, files v !! f = Some fl ∧ P (at_offset f fl off v).
Proof.
  intros Hra HP Hoff. pose proof (ra_seek _ _ _ Hra v off HP Hoff) as Hw. unfold seek, wp, mbind, st_bind in Hw.
  destruct (get_file f v) as [[fl v1]|] eqn:Eg; [|done]. apply get_file_Done in Eg as [-> Ef]. exists fl. split; [done|apply Hw].
Qed.

Lemma get_file_wp f fl v (Q : file → vfs F → Prop) : files v !! f = Some fl → Q fl v → wp (get_file f) Q v.
Proof. intros Hf HQ. unfold get_file. apply wp_bind, wp_get. eapply wp_run; [by rewrite Hf|done]. Qed.

Lemma put_vfs_kvfs k : put_vfs (kvfs k) k = k.
Proof. by destruct k. Qed.

(** A seek from the start of the file. *)
Lemma seek_set_wp k fd f fl off (Q : outcome Z → kern M F → Prop) : has_fd k fd f → files (kvfs k) !! f = Some fl → 0 <= off < 2 ^ 63 →
  Q (Returns off) (put_vfs (at_offset f fl off (kvfs k)) k) → wp (sys_lseek fd off LZ_SEEK_SET) Q k.
Proof.
  intros Hfd Hf Hoff HQ. unfold sys_lseek. apply wp_bind, (fd_get_wp k fd f); [done|].
  apply wp_bind, wp_on_vfs. eapply get_file_wp; [exact Hf|]. rewrite put_vfs_kvfs.
  change (LZ_SEEK_SET =? LZ_SEEK_SET) with true. cbn iota. apply wp_bind, wp_ret. cbn zeta. rewrite Z.add_0_l, (swrap_small 64 off) by lia.
  rewrite (proj2 (Z.ltb_ge off 0)), (wrap_small 64 off) by lia. apply wp_bind, wp_on_vfs. unfold put_file. by apply wp_modify, wp_ret.
Qed.

(** A read of an open file. *)
Lemma read_file_wp (P : vfs F → Prop) f fl data idle k fd ubuf len (Q : outcome Z → kern M F → Prop) :
  reads_as P f data → P (kvfs k) → has_fd k fd f → Forall byte data → files (kvfs k) !! f = Some fl → 0 <= fl_offset fl → fl_offset fl + len < 2 ^ 32 →
  0 < len → user_ptr_ok ubuf len = true → mapped (umem k) (u64 ubuf) (Z.to_nat len) →
  let bytes := slice (fl_offset fl) (Z.min len (Z.of_nat (length data) - fl_offset fl)) data in
  (∀ v' m', P v' → stored (u64 ubuf) bytes (umem k) m' → Q (Returns (Z.of_nat (length bytes))) (put_umem m' (put_vfs v' k))) →
  wp (sys_read idle fd ubuf len) Q k.
Proof.
  intros Hra HP Hfd Hby Hf H0 Hsum Hlen Hptr Hmap bytes HQ. unfold sys_read. rewrite Hptr. cbn [negb].
  assert (3 <= fd) as Hfd3 by (destruct Hfd as (? & ? & ? & _ & _ & _ & -> & _); unfold TASK_FD_BASE; lia).
  rewrite (proj2 (Z.eqb_neq len 0)), (proj2 (Z.eqb_neq fd 0)), (proj2 (Z.eqb_neq fd 1)), (proj2 (Z.eqb_neq fd 2)) by lia. cbn [orb].
  apply wp_bind, (fd_get_wp k fd f); [done|]. apply wp_bind, wp_on_vfs.
  eapply wp_mono; [apply (ra_read _ _ _ Hra (kvfs k) fl len HP Hf H0); lia|]. cbn beta. fold bytes. intros r v' [-> HP'].
  apply wp_bind, write_user_wp; [|by apply slice_byte|].
  - eapply mapped_le; [exact Hmap|]. subst bytes. unfold slice. rewrite length_take. lia.
  - intros m' Hm'. apply wp_ret. by apply HQ.
Qed.

(** A read of the terminal. *)
Lemma read_stdin_wp idle k q ubuf len (Q : outcome Z → kern M F → Prop) :
  holds STDIN_RING_SIZE (stdin (kcon k)) q → q ≠ [] → Forall byte q → 0 < len → user_ptr_ok ubuf len = true → mapped (umem k) (u64 ubuf) (Z.to_nat len) →
  let l := take (Z.to_nat len) q in
  (∀ r m', holds STDIN_RING_SIZE r (drop (Z.to_nat len) q) → stored (u64 ubuf) l (umem k) m' →
    Q (Returns (Z.of_nat (length l))) (put_umem m' (put_con (set_stdin r (kcon k)) k))) →
  wp (sys_read idle 0 ubuf len) Q k.
Proof.
  intros Hq Hne Hby Hlen Hptr Hmap l HQ. unfold sys_read. rewrite Hptr, (proj2 (Z.eqb_neq len 0)) by lia. cbn [negb].
  change (0 =? 0) with true. cbn iota. apply wp_bind, wp_get.
  assert (tty_stdin_available (stdin (kcon k)) = true) as ->.
  { unfold tty_stdin_available. rewrite Z.eqb_sym, (ring_empty _ _ _ Hq) by done. by rewrite bool_decide_false. }
  cbn [negb]. destruct (stdin_read_ok _ q len Hq ltac:(lia)) as (r & E & Hr). apply wp_bind. eapply wp_run; [exact E|].
  apply wp_bind, wp_on_con, wp_modify. apply wp_bind, write_user_wp; [|by apply Forall_take|].
  - cbn [put_con umem]. eapply mapped_le; [exact Hmap|]. rewrite length_take. lia.
  - intros m' Hm'. apply wp_ret. by apply HQ.
Qed.

(** Nothing to read: the program waits. *)
Lemma read_stdin_empty idle k ubuf len : holds STDIN_RING_SIZE (stdin (kcon k)) [] → 0 < len → user_ptr_ok ubuf len = true →
  sys_read idle 0 ubuf len k = (_ ← on_tasks (task_block idle WAIT_INPUT); mret Blocked) k.
Proof.
  intros Hq Hlen Hptr. unfold sys_read. rewrite Hptr, (proj2 (Z.eqb_neq len 0)) by lia. cbn [negb].
  change (0 =? 0) with true. cbn iota. unfold mbind at 1, st_bind at 1. cbn [st_get].
  assert (tty_stdin_available (stdin (kcon k)) = false) as ->; [|done].
  unfold tty_stdin_available. rewrite Z.eqb_sym, (ring_empty _ _ _ Hq) by done. by rewrite bool_decide_true.
Qed.

(** *** The working directory *)

Lemma copy_loop_cstr m s : ∀ a n, cstr m a s → copy_loop n a m = Done (if decide (length s < n)%nat then Some s else None).
Proof.
  intros a n Hs. destruct (decide (length s < n)%nat) as [Hl|Hl]; [by apply copy_loop_Done|]. revert a n Hs Hl.
  induction s as [|c s IH]; intros a n Hs Hl; (destruct n as [|n]; [done|]); cbn [length] in Hl; [lia|]. cbn [copy_loop].
  apply cstr_cons in Hs as (Hc & Hr & Hs). unfold ldb. rewrite Hc. cbn [access mbind run_bind]. rewrite (proj2 (Z.eqb_neq c 0)) by lia.
  rewrite (IH (a + 1) n); [done|done|lia].
Qed.

Lemma cur_task_wp k c tk (Q : task → kern M F → Prop) : current_task (ksys k) = Some c → tasks (ksys k) !! c = Some tk → Q tk k → wp cur_task Q k.
Proof.
  intros Hc Ht HQ. unfold cur_task. apply wp_on_tasks. unfold get_current. apply wp_bind, wp_bind, wp_get. eapply wp_run; [by rewrite Hc|].
  unfold get_task. apply wp_bind, wp_get. eapply wp_run; [by rewrite Ht|]. by rewrite put_sys_ksys.
Qed.

(** A change of directory that succeeds. *)
Lemma chdir_Done k k1 c tk upath path : current_task (ksys k) = Some c → tasks (ksys k) !! c = Some tk → text (t_cwd tk) →
  Z.of_nat (length (t_cwd tk)) < TASK_CWD_MAX → cstr (umem k) (u64 upath) path → sys_chdir upath k = Done (Returns 0, k1) →
  let cwd := path_text (path_names (t_cwd tk) path) in
  current_task (ksys k1) = Some c ∧ ∃ tk1, tasks (ksys k1) !! c = Some tk1 ∧ t_cwd tk1 = cwd ∧ text cwd.
Proof.
  intros Hc Ht Htx Hlen Hp E cwd. unfold sys_chdir, with_path in E. apply bind_inv in E as (r & k2 & E1 & E).
  unfold read_user, mbind, st_bind, st_get, st_run, copy_user_str in E1. destruct (negb _); [injection E1 as <- <-; discriminate|].
  rewrite (copy_loop_cstr _ path) in E1 by done. cbn [mbind run_bind] in E1. destruct (decide _) as [Hpl|]; injection E1 as <- <-; [|discriminate].
  unfold TASK_CWD_MAX in *. apply bind_inv in E as (tk' & k3 & (c' & -> & Hc' & Ht')%cur_task_Done & E). simplify_eq.
  destruct (resolve_path_Done (t_cwd tk) path 128 Htx (proj2 Hp) ltac:(lia) ltac:(lia) ltac:(lia)) as [Er Hr].
  apply bind_inv in E as (o & k3 & E2 & E). unfold st_run in E2. rewrite Er in E2. injection E2 as <- <-.
  destruct (resolve_fits (t_cwd tk) path 128); [|discriminate]. destruct (Hr eq_refl) as [Htc _]. fold cwd in E, Htc.
  apply bind_inv in E as (d & k3 & (v & _ & ->)%on_vfs_Done & E). destruct d as [d|]; [|discriminate].
  apply bind_inv in E as (b & k4 & (v2 & _ & ->)%on_vfs_Done & E). destruct b; [|discriminate]. cbn [negb] in E.
  apply bind_inv in E as (u & k5 & (c2 & tk2 & Hc2 & Ht2 & ->)%upd_cur_Done & [= <-]).
  change (ksys (put_vfs v2 (put_vfs v k))) with (ksys k) in *. simplify_eq. split; [done|]. eexists. split; [apply lookup_insert_eq|]. by split.
Qed.

Lemma getcwd_wp k c tk ubuf size : current_task (ksys k) = Some c → tasks (ksys k) !! c = Some tk → text (t_cwd tk) →
  user_ptr_ok ubuf size = true → 0 < size < 2 ^ 63 → mapped (umem k) (u64 ubuf) (Z.to_nat size) →
  wp (sys_getcwd ubuf size) (λ r k', if bool_decide (Z.of_nat (length (t_cwd tk)) < size)
    then r = Returns (Z.of_nat (length (t_cwd tk))) ∧ cstr (umem k') (u64 ubuf) (t_cwd tk) else r = Returns (- ERANGE) ∧ k' = k) k.
Proof.
  intros Hc Ht Htx Hptr Hsz Hmap. unfold sys_getcwd. rewrite (proj2 (Z.leb_gt _ _)), Hptr by lia. cbn [negb].
  apply wp_bind. eapply cur_task_wp; [done..|]. cbn zeta. rewrite (wrap_small 64 size) by lia.
  destruct (decide (Z.of_nat (length (t_cwd tk)) < size)) as [Hl|Hl].
  - rewrite (proj2 (Z.ltb_ge _ _)) by lia. apply wp_bind, write_user_wp.
    + eapply mapped_le; [exact Hmap|]. rewrite length_app. cbn. lia.
    + apply Forall_app. split; [|repeat constructor; lia]. eapply Forall_impl; [exact Htx|]. unfold byte. cbn beta. lia.
    + intros m' [Hb _]. apply wp_ret. rewrite bool_decide_true by done. by split.
  - rewrite (proj2 (Z.ltb_lt _ _)) by lia. apply wp_ret. by rewrite bool_decide_false.
Qed.

(** *** Refused arguments *)

(** The buffer that a call is given, once its other arguments are in order. *)
Definition buffer_arg (nr a0 a1 a2 : Z) : option (Z * Z) :=
  match nr with
  | 1 | 2 => Some (a1, a2)
  | 5 | 12 | 16 | 18 | 19 | 20 => Some (a0, 128)
  | 8 => Some (a0, FB_INFO_SIZE)
  | 9 => if bool_decide (0 < a1 <= 8192 ∧ 0 < a2 <= 8192) then Some (a0, a1 * a2 * 4) else None
  | 13 => if bool_decide (a1 = 0) then None else Some (a1, 4)
  | 15 => if bool_decide (0 < a2) then Some (a1, i64 (a2 * DIRENT_SIZE)) else None
  | 17 => if bool_decide (0 < a1) then Some (a0, a1) else None
  | _ => None
  end.

(** It is null, negative, in the half of the kernel, or wraps around. *)
Definition bad_buffer (p len : Z) : Prop := p = 0 ∨ len < 0 ∨ BOOT_HHDM_BASE <= u64 p ∨ 2 ^ 64 <= u64 p + len.

Lemma bad_buffer_false p len : - 2 ^ 63 <= p < 2 ^ 63 → - 2 ^ 63 <= len < 2 ^ 63 → bad_buffer p len → user_ptr_ok p len = false.
Proof. intros Hp Hl Hb. rewrite user_ptr_ok_iff by done. apply bool_decide_false. unfold bad_buffer in Hb. lia. Qed.

Lemma buffer_arg_range nr a0 a1 a2 p len : buffer_arg nr a0 a1 a2 = Some (p, len) → - 2 ^ 63 <= a0 < 2 ^ 63 → - 2 ^ 63 <= a1 < 2 ^ 63 → - 2 ^ 63 <= a2 < 2 ^ 63 →
  - 2 ^ 63 <= p < 2 ^ 63 ∧ - 2 ^ 63 <= len < 2 ^ 63.
Proof.
  intros Hb H0 H1 H2. unfold buffer_arg, FB_INFO_SIZE in Hb. pose proof (swrap_range 64 (a2 * DIRENT_SIZE) ltac:(lia)).
  repeat (case_match; simplify_eq); breflect; try lia.
  all: match goal with H : 0 < ?x <= 8192 ∧ 0 < ?y <= 8192 |- _ => assert (0 < x * y <= 8192 * 8192) by nia; lia end.
Qed.

Lemma with_path_refused u ps az h k : user_ptr_ok u ps = false → with_path u ps az h k = Done (Returns (- EFAULT), k).
Proof.
  intros Hb. unfold with_path, read_user, mbind at 1, st_bind at 1, mbind at 1, st_bind at 1. cbn [st_get st_run]. unfold st_run, copy_user_str. by rewrite Hb.
Qed.

Lemma refused_call idle nr a0 a1 a2 p len h k : buffer_arg nr a0 a1 a2 = Some (p, len) → user_ptr_ok p len = false →
  syscall_table idle nr a0 a1 a2 = Some h → h k = Done (Returns (- EFAULT), k).
Proof.
  intros Hb Hp Hh. unfold buffer_arg, FB_INFO_SIZE, syscall_table in *.
  repeat (case_match; simplify_eq).
  all: try (by apply with_path_refused).
  all: first [unfold sys_write; by rewrite Hp|unfold sys_read; by rewrite Hp|unfold sys_fb_info, FB_INFO_SIZE; by rewrite Hp|idtac].
  all: match goal with H : bool_decide _ = _ |- _ => revert H; case_bool_decide; intros Hx; try done end.
  all: first
    [ progress unfold sys_readdir; rewrite (proj2 (Z.leb_gt _ _)) by lia; by rewrite Hp
    | progress unfold sys_fb_blit; rewrite !(proj2 (Z.leb_gt _ 0)), !(proj2 (Z.ltb_ge 8192 _)) by lia; cbn [orb]; by rewrite Hp
    | progress unfold sys_getcwd; rewrite (proj2 (Z.leb_gt _ _)) by lia; by rewrite Hp
    | progress unfold sys_waitpid; rewrite (proj2 (Z.eqb_neq _ 0)) by done; by rewrite Hp ].
Qed.
End calls.

(** ** Theorems *)

(** A positioned read through system calls delivers the bytes of the file: after a seek to an offset, a read returns the number
    of bytes that the file has from there, at most as many as asked for, the bytes are in the buffer of the program, and
    nothing else of its memory, of the console or of the tasks has changed. *)
Theorem sys_pread {M F} `{!task_mem M, !user_mem M, !fs_ops F} (P : vfs F → Prop) idle f data (k : kern M F) fd off ubuf len :
  reads_as P f data → Forall byte data → P (kvfs k) → has_fd k fd f → 0 <= off → 0 < len → off + len < 2 ^ 32 →
  user_ptr_ok ubuf len = true → mapped (umem k) (u64 ubuf) (Z.to_nat len) →
  let bytes := slice off (Z.min len (Z.of_nat (length data) - off)) data in
  ∃ k1 k2, sys_lseek fd off LZ_SEEK_SET k = Done (Returns off, k1) ∧
    sys_read idle fd ubuf len k1 = Done (Returns (Z.of_nat (length bytes)), k2) ∧
    stored (u64 ubuf) bytes (umem k) (umem k2) ∧ kcon k2 = kcon k ∧ P (kvfs k2).
Proof.
  intros Hra Hby HP Hfd Hoff Hlen Hsum Hptr Hmap bytes. destruct (reads_as_at P f data (kvfs k) off Hra HP ltac:(lia)) as (fl & Hf & HP1).
  set (k1 := put_vfs (at_offset f fl off (kvfs k)) k).
  assert (sys_lseek fd off LZ_SEEK_SET k = Done (Returns off, k1)) as E1.
  { destruct (wp_elim _ _ _ (seek_set_wp k fd f fl off (λ r k', r = Returns off ∧ k' = k1) Hfd Hf ltac:(lia) (conj eq_refl eq_refl))) as (? & ? & E & -> & ->). exact E. }
  exists k1. assert (wp (sys_read idle fd ubuf len) (λ r k2, r = Returns (Z.of_nat (length bytes)) ∧
    stored (u64 ubuf) bytes (umem k) (umem k2) ∧ kcon k2 = kcon k ∧ P (kvfs k2)) k1) as Hw.
  { eapply (read_file_wp P f (File (fl_inode fl) off (fl_flags fl) (fl_dentry fl)) data); [done|exact HP1|exact Hfd|done|apply lookup_insert_eq|done|done|done|done|exact Hmap|].
    cbn [fl_offset]. intros v' m' HP' Hm'. by split_and!. }
  destruct (wp_elim _ _ _ Hw) as (? & k2 & E & -> & ? & ? & ?). by exists k2.
Qed.

Lemma edits_bytes cols rows scs : ∀ e e', Forall byte (ed_line e ++ ed_queue e) → edits cols rows e scs = Some e' → Forall byte (ed_line e' ++ ed_queue e').
Proof.
  induction scs as [|sc scs IH]; intros e e' He; [by intros [= <-]|]. cbn [edits]. intros (e1 & H1 & H2)%bind_Some. eapply IH; [|exact H2].
  clear IH H2. revert H1. apply Forall_app in He as [Hl Hq]. unfold edit. destruct (sc =? KEY_BACKSAPCE).
  - assert (Forall byte (removelast (ed_line e))) as Hrl by (rewrite removelast_firstn_len; by apply Forall_take).
    destruct (ed_line e) as [|c l] eqn:El; [intros [= <-]; rewrite El; by apply Forall_app|]. destruct (_ <=? 1); [done|]. intros [= <-].
    apply Forall_app. by split.
  - destruct (sc =? KEY_ENTER).
    + intros [= <-]. cbn [ed_line ed_queue app]. unfold newest. apply Forall_drop. rewrite !Forall_app. split_and!; [done|done|]. repeat constructor; lia.
    + destruct (_ && _) eqn:Ec; intros [= <-]; [|by apply Forall_app]. cbn [ed_line ed_queue]. rewrite !Forall_app. split_and!; [done| |done].
      breflect. unfold is_ascii_character in *. breflect. repeat constructor; lia.
Qed.


(** The working directory: when a change of directory to a path succeeds, the directory that the program gets afterwards is
    the resolution of that path against the one before: it is returned with its length, as a string in the buffer of the program,
    and a buffer without room for it is refused. *)
Theorem sys_chdir_getcwd {M F} `{!task_mem M, !user_mem M, !fs_ops F} (k k1 : kern M F) c tk upath path ubuf size :
  current_task (ksys k) = Some c → tasks (ksys k) !! c = Some tk → text (t_cwd tk) → Z.of_nat (length (t_cwd tk)) < TASK_CWD_MAX →
  cstr (umem k) (u64 upath) path → sys_chdir upath k = Done (Returns 0, k1) →
  user_ptr_ok ubuf size = true → 0 < size < 2 ^ 63 → mapped (umem k1) (u64 ubuf) (Z.to_nat size) →
  let cwd := path_text (path_names (t_cwd tk) path) in
  if bool_decide (Z.of_nat (length cwd) < size)
  then ∃ k2, sys_getcwd ubuf size k1 = Done (Returns (Z.of_nat (length cwd)), k2) ∧ cstr (umem k2) (u64 ubuf) cwd
  else sys_getcwd ubuf size k1 = Done (Returns (- ERANGE), k1).
Proof.
  intros Hc Ht Htx Hlen Hp E Hptr Hsz Hmap cwd. destruct (chdir_Done k k1 c tk upath path Hc Ht Htx Hlen Hp E) as (Hc1 & tk1 & Ht1 & Ecwd & Htc). fold cwd in Ecwd, Htc.
  pose proof (getcwd_wp k1 c tk1 ubuf size Hc1 Ht1 ltac:(by rewrite Ecwd) Hptr Hsz Hmap) as Hw. rewrite Ecwd in Hw.
  destruct (wp_elim _ _ _ Hw) as (r & k2 & Er & Hr). case_bool_decide; destruct Hr as [-> Hr]; [by exists k2|by subst k2].
Qed.

(** C23: what a call cannot accept leaves everything as it is: an unknown number is answered with [ENOSYS], and a buffer or a path that is null, has a
    negative length, lies in the half of the kernel or wraps around with [EFAULT]; memory, files, tasks and console are
    unchanged. *)
Theorem syscall_refuses {M F} `{!task_mem M, !user_mem M, !fs_ops F} idle regs (k : kern M F) : 0 <= rax regs < 2 ^ 64 →
  let a0 := i64 (rdi regs) in let a1 := i64 (rsi regs) in let a2 := i64 (rdx regs) in
  (SYS_NR_MAX <= rax regs → syscall_handler_c idle regs k = Done (Returns (set_rax (u64 (- ENOSYS)) regs), k)) ∧
  ∀ p len, rax regs < SYS_NR_MAX → buffer_arg (rax regs) a0 a1 a2 = Some (p, len) → bad_buffer p len →
    syscall_handler_c idle regs k = Done (Returns (set_rax (u64 (- EFAULT)) regs), k).
Proof.
  intros Hr a0 a1 a2. split.
  - intros Hn. unfold syscall_handler_c. by rewrite (proj2 (Z.ltb_ge _ _)) by lia.
  - intros p len Hn Hb Hbad. unfold syscall_handler_c. rewrite (proj2 (Z.ltb_lt _ _)) by lia. fold a0 a1 a2.
    destruct (buffer_arg_range _ _ _ _ _ _ Hb (swrap_range 64 _ ltac:(lia)) (swrap_range 64 _ ltac:(lia)) (swrap_range 64 _ ltac:(lia))) as [Hp Hl].
    pose proof (bad_buffer_false p len Hp Hl Hbad) as Hok.
    destruct (syscall_table idle (rax regs) a0 a1 a2) as [h|] eqn:Eh.
    + unfold mbind at 1, st_bind at 1. by rewrite (refused_call idle _ _ _ _ p len h k Hb Hok Eh).
    + exfalso. unfold buffer_arg, syscall_table in *. repeat (case_match; simplify_eq).
Qed.
