(* ===== verification/Fat16List.v ===== *)
(** * Directory listings of the FAT16 driver

    The walk over the slots of a directory as a function of the slots, and what a
    listing hands to its caller. *)

From S2P Require Import Prelude CString Bytes Dirent Ktime SectorDev Fat16Table Fat16Dir Fat16.

Local Open Scope Z_scope.

#[local] Arguments Walk {_} _ _ _.
#[local] Arguments w_offset {_} _.
#[local] Arguments w_ended {_} _.
#[local] Arguments w_ctx {_} _.
#[local] Arguments RdCtx {_} _ _ _.
#[local] Arguments rd_buf {_} _.
#[local] Arguments rd_next {_} _.
#[local] Arguments rd_count {_} _.

(** ** What every walk keeps *)

Section walks.
Context {S : Type} `{!sector_dev S} {X : Type}.
Variables (cb : dir_cb (S := S) X) (P : X → Prop).
Hypothesis cb_keeps : ∀ e o loc x v r x' v', P x → cb e o loc x v = Done ((r, x'), v') → P x'.

Lemma walk_slots_keeps n sector buf : ∀ i w v r w' v', P (w_ctx w) → walk_slots n i sector buf cb w v = Done ((r, w'), v') → P (w_ctx w').
Proof.
  induction n as [|n IH]; intros i w v r w' v' Hw; cbn [walk_slots]; [by intros [= _ <- _]|].
  unfold mbind, st_bind, st_run. destruct (copy_from _ _ buf) as [l|]; [|done]. case_if; [by intros [= _ <- _]|].
  destruct (cb _ _ _ (w_ctx w) v) as [[[r1 x1] v1]|] eqn:Ec; [|done]. apply cb_keeps in Ec; [|done].
  case_if; [by intros [= _ <- _]|]. by apply IH.
Qed.

Lemma walk_sector_keeps sector w v r w' v' : P (w_ctx w) → walk_sector sector cb w v = Done ((r, w'), v') → P (w_ctx w').
Proof.
  intros Hw. unfold walk_sector, mbind, st_bind. destruct (dev_read sector v) as [[[buf|] v1]|]; [|by intros [= _ <- _]|done].
  destruct (fs_get v1) as [[fs v2]|]; [|done]. by apply walk_slots_keeps.
Qed.

Lemma walk_sectors_keeps n : ∀ sector w v r w' v', P (w_ctx w) → walk_sectors n sector cb w v = Done ((r, w'), v') → P (w_ctx w').
Proof.
  induction n as [|n IH]; intros sector w v r w' v' Hw; cbn [walk_sectors]; [by intros [= _ <- _]|]. case_if; [by intros [= _ <- _]|].
  unfold mbind, st_bind. destruct (walk_sector sector cb w v) as [[[r1 w1] v1]|] eqn:Ec; [|done]. apply walk_sector_keeps in Ec; [|done].
  case_if; [by intros [= _ <- _]|]. by apply IH.
Qed.

Lemma walk_chain_keeps fuel : ∀ c w v r w' v', P (w_ctx w) → walk_chain fuel c cb w v = Done ((r, w'), v') → P (w_ctx w').
Proof.
  induction fuel as [|fuel IH]; intros c w v r w' v' Hw; cbn [walk_chain]; [done|]. case_if; [|by intros [= _ <- _]].
  unfold mbind, st_bind. destruct (fs_get v) as [[fs v1]|]; [|done].
  destruct (walk_sectors _ _ cb w v1) as [[[r1 w1] v2]|] eqn:Ec; [|done]. apply walk_sectors_keeps in Ec; [|done].
  case_if; [by intros [= _ <- _]|]. destruct (fat16_next_cluster c v2) as [[nx v3]|]; [|done]. by apply IH.
Qed.

Lemma walk_dir_keeps first x v r x' v' : P x → fat16_walk_dir first cb x v = Done ((r, x'), v') → P x'.
Proof.
  intros Hx. unfold fat16_walk_dir, mbind, st_bind. case_if.
  - destruct (fs_get v) as [[fs v1]|]; [|done]. destruct (walk_sectors _ _ cb _ v1) as [[[r1 w1] v2]|] eqn:Ec; [|done].
    intros [= _ <- _]. by eapply walk_sectors_keeps in Ec.
  - destruct (walk_chain _ _ cb _ v) as [[[r1 w1] v2]|] eqn:Ec; [|done]. intros [= _ <- _]. by eapply walk_chain_keeps in Ec.
Qed.
End walks.

(** A listing does nothing to the state of its caller but call [filldir]. *)
Lemma fat16_readdir_calls {S} `{!sector_dev S} {B} i off (fill : B → dirent → Z * B) b (s : fat_state S) r off' b' s' :
  fat16_readdir i off fill b s = Done ((r, off', b'), s') → ∃ ds, b' = fold_left (λ b d, snd (fill b d)) ds b.
Proof.
  unfold fat16_readdir, mbind, st_bind. destruct (get_inode i s) as [[ino s1]|]; [|done].
  unfold on_vol. destruct (fat16_walk_dir _ _ _ (f_vol s1)) as [[[r1 x1] v1]|] eqn:Ec; [|done]. intros [= _ _ <- _].
  revert Ec. apply (walk_dir_keeps _ (λ x, ∃ ds, rd_buf x = fold_left (λ b d, snd (fill b d)) ds b)); [|by exists []].
  intros e o loc x v r2 x2 v2 (ds & Hx). unfold readdir_cb. case_if; [intros [= _ <- _]; by exists ds|].
  case_if; [intros [= _ <- _]; by exists ds|]. cbn [rd_buf rd_next rd_count].
  set (d := Dirent _ _ _ _). destruct (fill (rd_buf x) d) as [rr b2] eqn:Ef.
  assert (b2 = fold_left (λ b d, snd (fill b d)) (ds ++ [d]) b) as ->.
  { rewrite fold_left_app, <- Hx. cbn [fold_left]. by rewrite Ef. }
  case_if; intros [= _ <- _]; by eexists.
Qed.

(** ** The walk as a function of the slots *)

Fixpoint walk_in {X} (f : fat16_directory → Z → X → Z * X) (slots : list (fat16_dir_loc * list Z)) (w : walk X) : Z * walk X :=
  match slots with
  | [] => (0, w)
  | (_, l) :: slots =>
      if byte_of l 0 =? FAT16_DIR_ENTRY_END then (0, Walk (w_offset w) true (w_ctx w))
      else
        let '(r, x) := f (dir_of l) (w_offset w) (w_ctx w) in
        if negb (r =? 0) then (r, Walk (w_offset w) (w_ended w) x)
        else walk_in f slots (Walk (u32 (w_offset w + FAT16_DIR_ENTRY_SIZE)) (w_ended w) x)
  end.

Lemma walk_in_app {X} (f : fat16_directory → Z → X → Z * X) l1 : ∀ l2 w, w_ended w = false →
  walk_in f (l1 ++ l2) w = let '(r, w1) := walk_in f l1 w in if negb (r =? 0) || w_ended w1 then (r, w1) else walk_in f l2 w1.
Proof.
  induction l1 as [|[loc l] l1 IH]; intros l2 w Hw; cbn [app walk_in]; [by rewrite Hw|]. case_if; [done|].
  destruct (f _ _ _) as [r x]. destruct (negb (r =? 0)) eqn:Er; [by rewrite Er|]. by apply IH.
Qed.

Section pure.
Context {S : Type} `{SectorDevLaws S} {X : Type}.
Variables (cb : dir_cb (S := S) X) (f : fat16_directory → Z → X → Z * X).
Hypothesis cb_pure : ∀ e o loc x, cb e o loc x = mret (f e o x).

Lemma walk_slots_wp v k buf n : ∀ i w, length buf = 512%nat → Forall byte buf → 0 <= i → i + Z.of_nat n = 16 →
  walk_slots n i k buf cb w v = Done (walk_in f ((λ i, (Loc k (i * 32), slice (i * 32) 32 buf)) <$> seqZ i (Z.of_nat n)) w, v).
Proof.
  induction n as [|n IH]; intros i w Hl Hb Hi Hn; [done|]. cbn [walk_slots]. unfold FAT16_DIR_ENTRY_SIZE.
  unfold mbind, st_bind, st_run. rewrite copy_from_Done by lia. rewrite seqZ_cons, fmap_cons by lia. cbn [walk_in].
  assert (byte_of (d_name (dir_of (slice (i * 32) 32 buf))) 0 = byte_of (slice (i * 32) 32 buf) 0) as ->.
  { unfold dir_of. cbn [d_name]. rewrite byte_of_slice by (rewrite ?length_slice; lia). by rewrite Z.add_0_r. }
  destruct (_ =? FAT16_DIR_ENTRY_END); [done|]. rewrite cb_pure. unfold mret, st_ret.
  destruct (f _ _ _) as [r x]. destruct (negb (r =? 0)); [done|].
  replace (Z.pred (Z.of_nat (Datatypes.S n))) with (Z.of_nat n) by lia. replace (Z.succ i) with (i + 1) by lia. apply IH; (done || lia).
Qed.

Lemma walk_sector_wp v0 v k w : reads v0 v → geom (v_fs v0) → lba_ok k →
  wp (walk_sector k cb w) (λ rw v', reads v0 v' ∧ rw = walk_in f (slots_of (disk_of v0) [k]) w) v.
Proof.
  intros Hv0 Hg Hlba. destruct (Hv0) as (Hok & Hgv & [_ Hs0]). unfold walk_sector.
  apply wp_bind. eapply wp_mono; [by apply dev_read_wp|]. intros r v1 (Hd1 & Hs1 & Hr & Hg1).
  destruct (Hg1 Hgv) as [Hgv1 [buf ->]]. rewrite (Hr buf eq_refl), (Hs0 k Hlba) in *.
  assert (Hv1 : reads v0 v1) by (eapply reads_trans; [done|by split]).
  apply wp_bind. unfold fs_get. apply wp_bind, wp_get, wp_ret. rewrite (reads_fs _ _ Hv1).
  unfold per_sector. rewrite (g_bps _ Hg). change (Z.to_nat (512 / FAT16_DIR_ENTRY_SIZE)) with 16%nat.
  destruct (disk_byte v k Hok Hlba) as [Hlen Hby]. rewrite (Hs0 k Hlba) in Hlen, Hby. unfold wp.
  rewrite (walk_slots_wp v1 k (disk_of v0 k) 16 0 w) by (done || lia). split; [done|].
  unfold slots_of. cbn [fmap list_fmap concat]. by rewrite app_nil_r.
Qed.

Lemma walk_sectors_wp v0 n : ∀ k v w, reads v0 v → geom (v_fs v0) → 0 <= k → k + Z.of_nat n <= 2 ^ 32 → w_ended w = false →
  wp (walk_sectors n k cb w) (λ rw v', reads v0 v' ∧ rw = walk_in f (slots_of (disk_of v0) (seqZ k (Z.of_nat n))) w) v.
Proof.
  induction n as [|n IH]; intros k v w Hv0 Hg Hk Hn Hw; cbn [walk_sectors]; [by apply wp_ret|]. rewrite Hw.
  apply wp_bind. eapply wp_mono; [apply (walk_sector_wp v0); [done|done|unfold lba_ok; lia]|]. cbn beta. intros [r w1] v1 [Hv1 E].
  rewrite seqZ_cons by lia. change (k :: ?l) with ([k] ++ l). rewrite slots_of_app, walk_in_app, <- E by done.
  destruct (negb (r =? 0)) eqn:Er; cbn [orb]; [by apply wp_ret|].
  replace (Z.pred (Z.of_nat (Datatypes.S n))) with (Z.of_nat n) by lia. replace (Z.succ k) with (k + 1) by lia.
  destruct (w_ended w1) eqn:Ew.
  - destruct n; cbn [walk_sectors]; rewrite ?Ew; apply wp_ret; (split; [done|]); f_equal; breflect; done.
  - destruct n as [|n]; [apply wp_ret; split; [done|]; cbn; f_equal; by breflect|]. rewrite wrap_small by lia. apply IH; (done || lia).
Qed.

Lemma walk_chain_wp v0 fuel : ∀ c cs v w, fat_ok v0 → reads v0 v → chain_list (fat_at v0 0) c cs →
  Forall (λ c, c <= last_cluster (v_fs v0)) cs → (length cs < fuel)%nat → w_ended w = false →
  wp (walk_chain fuel c cb w) (λ rw v', reads v0 v' ∧
    rw = walk_in f (slots_of (disk_of v0) (concat (cluster_sectors (v_fs v0) <$> cs))) w) v.
Proof.
  induction fuel as [|fuel IH]; intros c cs v w Hok Hv0 Hch Hall Hfuel Hw; [lia|]. cbn [walk_chain]. rewrite Hw, andb_true_r.
  inversion Hch as [c' Hv Ec Ecs|c' cs' Hv Hch' Ec Ecs]; subst c'; rewrite Hv; [by apply wp_ret|]. subst cs.
  apply Forall_cons in Hall as [Hlast Hall]. apply valid_range in Hv. cbn [length] in Hfuel.
  pose proof (fo_geom _ Hok) as Hg. destruct (cluster_to_lba_eq _ c Hg ltac:(lia)) as (El & Hl0 & _ & Hl1).
  apply wp_bind. unfold fs_get. apply wp_bind, wp_get, wp_ret. rewrite (reads_fs _ _ Hv0). pose proof (g_spc _ Hg) as Hspc.
  apply wp_bind. eapply wp_mono; [apply (walk_sectors_wp v0); (done || lia)|]. cbn beta. intros [r w1] v1 (Hv1 & E).
  rewrite fmap_cons. cbn [concat]. rewrite slots_of_app, walk_in_app by done. unfold cluster_sectors at 1. rewrite <- El.
  rewrite Z2Nat.id in E by lia. rewrite <- E. destruct (negb (r =? 0)) eqn:Er; cbn [orb]; [by apply wp_ret|].
  apply wp_bind. eapply wp_mono; [apply (next_cluster_wp v0 v1 c); [done|done|apply cluster_in_fat; [done|lia]]|].
  intros nx v2 (Hv2 & ->). destruct (w_ended w1) eqn:Ew.
  - destruct fuel; [lia|]. cbn [walk_chain]. rewrite Ew, andb_false_r. apply wp_ret. split; [done|]. f_equal. by breflect.
  - apply IH; (done || lia).
Qed.

Lemma walk_dir_wp v dir_first cs x : fat_ok v → good v → is_dir_of v dir_first cs →
  wp (fat16_walk_dir dir_first cb x) (λ rx v', reads v v' ∧
    rx = let '(r, w) := walk_in f (slots_of (disk_of v) (dir_sectors (v_fs v) dir_first cs)) (Walk 0 false x) in (r, w_ctx w)) v.
Proof.
  intros Hok Hgv Hdir. pose proof (fo_geom _ Hok) as Hg. assert (Hself : reads v v) by (split; [apply Hok|split; [done|apply same_vol_refl]]).
  unfold fat16_walk_dir, dir_sectors. apply wp_bind.
  assert (Hwalk : wp (if dir_first =? 0
      then fs ← fs_get; walk_sectors (Z.to_nat (root_dir_sectors fs)) (root_dir_lba fs) cb (Walk 0 false x)
      else walk_chain cluster_fuel dir_first cb (Walk 0 false x)) (λ rw v', reads v v' ∧
    rw = walk_in f (slots_of (disk_of v) (if dir_first =? 0
      then seqZ (root_dir_lba (v_fs v)) (root_dir_sectors (v_fs v)) else concat (cluster_sectors (v_fs v) <$> cs))) (Walk 0 false x)) v).
  { destruct (Z.eqb_spec dir_first 0) as [->|Hne].
    - apply wp_bind. unfold fs_get. apply wp_bind, wp_get, wp_ret. pose proof (root_range _ Hg) as (Hr0 & Hn0 & Hr1).
      eapply wp_mono; [apply (walk_sectors_wp v); (done || lia)|]. cbn beta. rewrite Z2Nat.id by lia. done.
    - destruct Hdir as [|(Hch & Hall & Hlen)]; [done|]. apply walk_chain_wp; try done.
      with_strategy transparent [cluster_fuel] unfold cluster_fuel. lia. }
  eapply wp_mono; [exact Hwalk|]. cbn beta. intros [r w] v1 (Hv1 & E). apply wp_ret. split; [done|]. by rewrite <- E.
Qed.
End pure.

(** ** Listings *)

Definition dirent_of (o : Z) (e : fat16_directory) : dirent :=
  Dirent 0 o (if is_dir e then DT_DIR else DT_REG) (fat16_name_to_str (d_name e) (extension e)).

(** The entries of a directory, from byte offset [o] on, up to the end marker. *)
Fixpoint listing (slots : list (fat16_dir_loc * list Z)) (o : Z) : list dirent :=
  match slots with
  | [] => []
  | (_, l) :: slots =>
      if byte_of l 0 =? FAT16_DIR_ENTRY_END then []
      else (if fat16_entry_valid (dir_of l) then [dirent_of o (dir_of l)] else []) ++ listing slots (o + FAT16_DIR_ENTRY_SIZE)
  end.

(** Those that a listing from a file offset has still to give. *)
Definition todo (start : Z) (ds : list dirent) : list dirent := filter (λ d, start <= de_offset d) ds.

(** A caller with room for [max] records. *)
Definition collect (max : nat) (b : list dirent) (d : dirent) : Z * list dirent :=
  if bool_decide (max <= length b)%nat then (-1, b) else (0, b ++ [d]).

(** [readdir_cb] as a function of the entry. *)
Definition readdir_pure {B} (fill : B → dirent → Z * B) (start : Z) (e : fat16_directory) (o : Z) (x : readdir_ctx B) : Z * readdir_ctx B :=
  if o <? start then (0, x)
  else
    let x := RdCtx (rd_buf x) (u32 (o + FAT16_DIR_ENTRY_SIZE)) (rd_count x) in
    if negb (fat16_entry_valid e) then (0, x)
    else
      let '(r, b) := fill (rd_buf x) (dirent_of o e) in
      if r <? 0 then (1, RdCtx b (rd_next x) (rd_count x)) else (0, RdCtx b (rd_next x) (rd_count x + 1)).

Lemma readdir_cb_pure {S} `{!sector_dev S} {B} (fill : B → dirent → Z * B) start e o loc x :
  readdir_cb (S := S) fill start e o loc x = mret (readdir_pure fill start e o x).
Proof.
  unfold readdir_cb, readdir_pure, dirent_of. case_if; [done|]. case_if; [done|]. cbn [rd_buf]. destruct (fill _ _) as [r b]. by case_if.
Qed.

Lemma listing_offsets slots : ∀ o d, d ∈ listing slots o → o <= de_offset d.
Proof.
  induction slots as [|[loc l] slots IH]; intros o d; cbn [listing]; [by intros ?%not_elem_of_nil|]. case_if; [by intros ?%not_elem_of_nil|].
  intros [Hd|Hd%IH]%elem_of_app; [|unfold FAT16_DIR_ENTRY_SIZE in Hd; lia]. destruct (fat16_entry_valid _); [|by apply not_elem_of_nil in Hd].
  by apply list_elem_of_singleton in Hd as ->.
Qed.

Lemma todo_all slots o start : start <= o → todo start (listing slots o) = listing slots o.
Proof.
  intros Hs. pose proof (listing_offsets slots o) as Ho. unfold todo. induction (listing slots o) as [|d ds IH]; [done|].
  rewrite filter_cons_True by (specialize (Ho d ltac:(left)); lia). f_equal. apply IH. intros d' Hd'. apply Ho. by right.
Qed.

Lemma listing_run max start slots : ∀ o b nx cnt, 0 <= o → 0 <= start → o + 32 * Z.of_nat (length slots) < 2 ^ 32 → (length b <= max)%nat →
  start <= nx <= Z.max start o →
  let T := todo start (listing slots o) in let k := (max - length b)%nat in
  ∃ r w nx', walk_in (readdir_pure (collect max) start) slots (Walk o false (RdCtx b nx cnt)) = (r, w) ∧
    w_ctx w = RdCtx (b ++ take k T) nx' (cnt + Z.of_nat (length (take k T))) ∧ nx <= nx' <= Z.max nx (o + 32 * Z.of_nat (length slots)) ∧
    todo nx' (listing slots o) = drop (Datatypes.S k) T.
Proof.
  induction slots as [|[loc l] slots IH]; intros o b nx cnt Ho Hst Hsz Hb Hnx T k.
  { exists 0, (Walk o false (RdCtx b nx cnt)), nx. subst T. cbn. rewrite take_nil, app_nil_r, Z.add_0_r. split_and!; [done|done|lia|lia|done]. }
  subst T. cbn [walk_in listing]. destruct (byte_of l 0 =? FAT16_DIR_ENTRY_END).
  { exists 0, (Walk o true (RdCtx b nx cnt)), nx. cbn. rewrite take_nil, app_nil_r, Z.add_0_r. split_and!; [done|done|lia|lia|done]. }
  cbn [w_offset w_ctx w_ended length] in *. unfold FAT16_DIR_ENTRY_SIZE in *. set (e := dir_of l).
  assert (∀ N, o < N → todo N ((if fat16_entry_valid e then [dirent_of o e] else []) ++ listing slots (o + 32)) = todo N (listing slots (o + 32))) as Hskip.
  { intros N HN. unfold todo. rewrite filter_app. destruct (fat16_entry_valid e); [|done]. rewrite filter_cons_False by (cbn; lia). done. }
  unfold readdir_pure at 1, FAT16_DIR_ENTRY_SIZE. rewrite !(wrap_small 32 (o + 32)) by lia. cbn [rd_buf rd_next rd_count]. destruct (o <? start) eqn:Elt; breflect.
  { change (negb (0 =? 0)) with false. cbn iota.
    destruct (IH (o + 32) b nx cnt ltac:(lia) Hst ltac:(lia) Hb ltac:(lia)) as (r & w & nx' & E & Ew & Hle & Hn).
    exists r, w, nx'. rewrite !Hskip by lia. split_and!; [exact E|exact Ew|lia|lia|exact Hn]. }
  destruct (fat16_entry_valid e) eqn:Ev; cbn [negb].
  2:{ change (negb (0 =? 0)) with false. cbn iota.
    destruct (IH (o + 32) b (o + 32) cnt ltac:(lia) Hst ltac:(lia) Hb ltac:(lia)) as (r & w & nx' & E & Ew & Hle & Hn).
    exists r, w, nx'. cbn [app]. split_and!; [exact E|exact Ew|lia|lia|exact Hn]. }
  assert (todo start ([dirent_of o e] ++ listing slots (o + 32)) = dirent_of o e :: todo start (listing slots (o + 32))) as ->.
  { unfold todo. rewrite filter_app, filter_cons_True by (cbn; lia). done. }
  unfold collect at 1. case_bool_decide as Hmax.
  - change (-1 <? 0) with true. cbn iota. change (negb (1 =? 0)) with true. cbn iota. replace k with 0%nat by (subst k; lia).
    exists 1, (Walk o false (RdCtx b (o + 32) cnt)), (o + 32). cbn [w_ctx take length drop]. rewrite app_nil_r, Z.add_0_r.
    split_and!; [done|done|lia|lia|]. rewrite Hskip by lia. rewrite !todo_all by lia. done.
  - change (0 <? 0) with false. cbn iota. change (negb (0 =? 0)) with false. cbn iota.
    destruct (IH (o + 32) (b ++ [dirent_of o e]) (o + 32) (cnt + 1) ltac:(lia) Hst ltac:(lia)) as (r & w & nx' & E & Ew & Hle & Hn);
      [rewrite length_app; cbn; lia|lia|].
    rewrite length_app in Ew, Hn. cbn [length] in Ew, Hn. destruct k as [|k0] eqn:Ek; [subst k; lia|].
    replace (max - (length b + 1))%nat with k0 in Ew, Hn by (subst k; lia).
    exists r, w, nx'. rewrite Hskip by lia. cbn [take drop length]. rewrite <- app_assoc in Ew. split_and!; [exact E| |lia|lia|exact Hn].
    rewrite Ew. f_equal. lia.
Qed.

Section readdir.
Context {S : Type} `{SectorDevLaws S}.

(** An inode whose slots are the given ones. *)
Record lists (s : fat_state S) (i : Z) (slots : list (fat16_dir_loc * list Z)) : Prop := {
  ls_ok : fat_ok (f_vol s);
  ls_good : good (f_vol s);
  ls_dir : ∃ ino cs, inodes (f_itab s) !! i = Some ino ∧ is_dir_of (f_vol s) (first_cluster_low (i_ent ino)) cs ∧
    slots = slots_of (disk_of (f_vol s)) (dir_sectors (v_fs (f_vol s)) (first_cluster_low (i_ent ino)) cs);
  ls_size : 32 * Z.of_nat (length slots) < 2 ^ 32
}.

(** One call with room for [max] records. *)
Lemma fat16_readdir_wp s i slots off max : lists s i slots → 0 <= off < 2 ^ 32 →
  let D := todo off (listing slots 0) in
  wp (fat16_readdir i off (collect max) []) (λ r s', ∃ off', r = (Z.of_nat (length (take max D)), off', take max D) ∧ off <= off' < 2 ^ 32 ∧
    todo off' (listing slots 0) = drop (Datatypes.S max) D ∧ reads (f_vol s) (f_vol s') ∧ f_itab s' = f_itab s) s.
Proof.
  intros [Hok Hg (ino & cs & Hi & Hdir & Hs) Hsz] Hoff D. unfold fat16_readdir. eapply wp_bind, get_inode_wp; [done|].
  apply wp_bind, on_vol_wp. rewrite (wrap_small 32 off) by lia.
  eapply wp_mono; [apply (walk_dir_wp _ (readdir_pure (collect max) off) (readdir_cb_pure (collect max) off)); [done|done|exact Hdir]|].
  cbn beta. intros [r x] v' [Hv E]. apply wp_ret. rewrite <- Hs in E.
  destruct (listing_run max off slots 0 [] off 0 ltac:(lia) ltac:(lia) ltac:(lia) ltac:(cbn; lia) ltac:(lia)) as (r0 & w & nx & Ew & Ec & Hle & Hn).
  rewrite Ew in E. injection E as -> ->. rewrite Ec in *. cbn [rd_buf rd_next rd_count app length] in *. rewrite Nat.sub_0_r in *.
  exists nx. split_and!; [done|lia|lia|done|done|done].
Qed.

(** A client that calls until there are no more records. *)
Fixpoint list_loop (fuel : nat) (i off : Z) (max : nat) : st (fat_state S) (list dirent) :=
  match fuel with
  | O => st_stop Diverge
  | Datatypes.S fuel =>
      '(n, off, ds) ← fat16_readdir i off (collect max) [];
      if n <=? 0 then mret [] else rest ← list_loop fuel i off max; mret (ds ++ rest)
  end.
End readdir.

(** [max] records, one is left out, and so on. *)
Fixpoint batches (fuel max : nat) (ds : list dirent) : list dirent :=
  match fuel with
  | O => []
  | Datatypes.S fuel => take max ds ++ batches fuel max (drop (Datatypes.S max) ds)
  end.

Lemma batches_nil fuel max : batches fuel max [] = [].
Proof. induction fuel; [done|]. cbn. by rewrite take_nil. Qed.

Lemma lists_reads {S} `{SectorDevLaws S} (s s' : fat_state S) i slots : lists s i slots → reads (f_vol s) (f_vol s') → f_itab s' = f_itab s → lists s' i slots.
Proof.
  intros [Hok Hg (ino & cs & Hi & Hdir & Hs) Hsz] Hr Ht. pose proof (reads_fat_ok _ _ Hok Hr) as Hok'. pose proof (reads_fs _ _ Hr) as Efs.
  split; [done|apply Hr| |done]. exists ino, cs. rewrite Ht. split; [done|].
  assert (∀ k, lba_ok k → disk_of (f_vol s') k = disk_of (f_vol s) k) as Hdisk by (intros k Hk; destruct Hr as (_ & _ & [_ Hr]); by apply Hr).
  split.
  - destruct Hdir as [->|(Hch & Hall & Hlen)]; [by left|right]. rewrite Efs. split_and!; [|done|done].
    clear Hs Hlen Hi. induction Hch as [c Hv|c cs Hv Hch IH]; [by constructor|]. apply Forall_cons in Hall as [Hc Hall]. constructor; [done|].
    rewrite (reads_fat_at (f_vol s)); [by apply IH|done|done|]. apply cluster_in_fat; [apply Hok|]. apply valid_range in Hv. lia.
  - rewrite Hs, Efs. unfold slots_of. f_equal. apply list_fmap_ext. intros j k Hk. unfold sector_slots.
    assert (lba_ok k) as Hlba; [|by rewrite Hdisk]. pose proof (fo_geom _ Hok) as Hgeo. revert Hk. unfold dir_sectors.
    destruct (_ =? 0) eqn:E0; intros Hk%list_elem_of_lookup_2.
    + apply elem_of_seqZ in Hk. destruct (root_range _ Hgeo) as (? & ? & ?). unfold lba_ok. lia.
    + destruct Hdir as [Hz|(Hch & Hall & Hlen)]; [by apply Z.eqb_neq in E0|]. apply list_elem_of_In, in_concat in Hk as (ks & Hks%list_elem_of_In & Hk%list_elem_of_In).
      apply list_elem_of_fmap in Hks as (c & -> & Hc). apply elem_of_seqZ in Hk. pose proof (proj1 (Forall_forall _ _) Hall c Hc) as Hlast.
      assert (2 <= c) by (clear - Hch Hc; induction Hch as [|x xs Hv _ IH]; [by apply not_elem_of_nil in Hc|];
        apply elem_of_cons in Hc as [->|Hc]; [apply valid_range in Hv; lia|by apply IH]).
      cbn beta in Hlast. destruct (cluster_to_lba_eq _ c Hgeo ltac:(lia)) as (El & ? & _ & ?). unfold lba_ok. lia.
Qed.

Section theorem.
Context {S : Type} `{SectorDevLaws S}.

Lemma list_loop_wp i slots max fuel : ∀ s off, lists s i slots → 0 <= off < 2 ^ 32 → (0 < max)%nat → (length (todo off (listing slots 0)) < fuel)%nat →
  wp (list_loop fuel i off max) (λ r _, r = batches fuel max (todo off (listing slots 0))) s.
Proof.
  induction fuel as [|fuel IH]; intros s off Hl Hoff Hmax Hf; [lia|]. cbn [list_loop]. apply wp_bind.
  eapply wp_mono; [by apply fat16_readdir_wp|]. cbn beta zeta. intros r s' (off' & -> & Hle & Hn & Hr & Ht).
  set (D := todo off (listing slots 0)) in *. destruct (_ <=? 0) eqn:E; breflect.
  - apply wp_ret. assert (D = []) as ->; [|by rewrite batches_nil]. rewrite length_take in E. destruct D; [done|]. cbn in E. lia.
  - apply wp_bind. assert (D ≠ []) by (intros E'; rewrite E', take_nil in E; done). assert (length D ≠ 0%nat) by (by destruct D).
    eapply wp_mono; [apply (IH s' off'); [by eapply lists_reads|lia|done|rewrite Hn, length_drop; lia]|].
    cbn beta. intros r s2 ->. apply wp_ret. cbn [batches]. by rewrite Hn.
Qed.
End theorem.

Lemma batches_all fuel max ds : (length ds <= max)%nat → (0 < fuel)%nat → batches fuel max ds = ds.
Proof.
  intros Hl Hf. destruct fuel; [lia|]. cbn [batches]. rewrite take_ge by done. rewrite drop_ge by lia. by rewrite batches_nil, app_nil_r.
Qed.

(** ** Theorem *)

(** C24: a client that lists a FAT16 directory with room for [max] records in a call gets the valid entries in the order of the disk, up to
    the end marker, and the listing ends; but whenever a call fills the room, the entry after the last one it gave is
    lost: of the entries, [max] are given, one is left out, and so on. With room for all of them the listing is complete. *)
Theorem fat16_readdir_batches {S} `{SectorDevLaws S} s i slots max fuel : lists s i slots → (0 < max)%nat → (length (listing slots 0) < fuel)%nat →
  ∃ s', list_loop fuel i 0 max s = Done (batches fuel max (listing slots 0), s') ∧
    ((length (listing slots 0) <= max)%nat → batches fuel max (listing slots 0) = listing slots 0).
Proof.
  intros Hl Hm Hf. pose proof (todo_all slots 0 0 ltac:(lia)) as E.
  destruct (wp_elim _ _ _ (list_loop_wp i slots max fuel s 0 Hl ltac:(lia) Hm ltac:(by rewrite E))) as (r & s' & Er & ->).
  exists s'. rewrite E in Er. split; [done|]. intros Hle. apply batches_all; [done|lia].
Qed.

(** ** Witness: three files, two records in a call. *)

Definition demo_name (c : Z) : fat16_directory := Dir (pad 8 [c]) (pad 3 []) 32 0 0 0 0 0 0 0 0 5 0.
Definition demo_root : list Z :=
  dir_bytes (demo_name 65) ++ dir_bytes (demo_name 66) ++ dir_bytes (demo_name 67) ++ replicate 416 0.
Definition demo_dir_vol : vol ram :=
  Vol demo_fs (<[3 := demo_root]> {[ 1 := demo_table; 2 := demo_table ]}) false (Clocks demo_zero demo_zero demo_zero demo_zero).
Definition demo_dir : fat_inode := Inode 0 FAT16_MODE_DIR zero_entry (Loc 0 0).
Definition demo_listing : fat_state ram := FatState demo_dir_vol (Itab {[ 0x2000 := demo_dir ]} []).

Lemma demo_dir_fat f c : 0 <= f < 2 → in_fat demo_fs c → fat_at demo_dir_vol f c = fat_at demo_vol f c.
Proof.
  intros Hf [Hc Hcb]. cbn [fat_bytes demo_fs] in Hcb. unfold fat_at, fat_sector, fat_off.
  rewrite Z.div_small, Z.mod_small by lia. f_equal. assert (f = 0 ∨ f = 1) as [-> | ->] by lia; reflexivity.
Qed.

Lemma demo_dir_vol_ok : fat_ok demo_dir_vol.
Proof.
  split.
  - intros k l Hl. cbn [v_dev demo_dir_vol] in Hl. apply lookup_insert_Some in Hl as [[_ <-]|[_ Hl]].
    { split; [reflexivity|]. apply (bool_decide_unpack _). by vm_compute. }
    apply lookup_insert_Some in Hl as [[_ <-]|[_ Hl]]; [split; [reflexivity|exact demo_table_byte]|].
    apply lookup_singleton_Some in Hl as [_ <-]. split; [reflexivity|exact demo_table_byte].
  - exact (fo_geom _ demo_vol_ok).
  - intros l Hl. assert (l = demo_table) as -> by (cbn [demo_dir_vol v_fs demo_fs fat_cache] in Hl; congruence).
    split; [reflexivity|]. split; [exact demo_table_byte|]. intros c Hc. symmetry. rewrite <- (demo_fat_at 0) by (lia || exact Hc). apply demo_dir_fat; [lia|exact Hc].
  - intros f c Hf Hc. change (0 <= f < 2) in Hf. change (in_fat demo_fs c) in Hc. rewrite !demo_dir_fat, !demo_fat_at by (lia || exact Hc). reflexivity.
Qed.

Lemma fat16_readdir_batches_witness : ∃ ds s', list_loop 9 0x2000 0 2 demo_listing = Done (ds, s') ∧
  (de_name <$> ds) = [chars "A"; chars "B"].
Proof.
  destruct (fat16_readdir_batches demo_listing 0x2000 (slots_of (disk_of demo_dir_vol) [3]) 2 9) as (s' & E & _).
  - split; [exact demo_dir_vol_ok|exact I| |by vm_compute]. exists demo_dir, []. split; [reflexivity|]. split; [by left|]. reflexivity.
  - lia.
  - vm_compute. lia.
  - eexists _, s'. split; [exact E|]. vm_compute. reflexivity.
Defined.
