(* ===== verification/SysDemo.v ===== *)
(** * A program that makes system calls

    A kernel with one task, a file, a root directory and sixteen bytes of user memory: the theorems on
    the system calls are applied to it. The listings of the FAT16 driver are calls of the callback. *)

From S2P Require Import Prelude CString Bytes Dirent SectorDev VfsPath Vfs VfsFat16 Fat16 Fat16List Tty Input Task SchedDemo Kernel Loader LoaderDemo.
From S2P Require Import Syscall SysMem SysFiles SysTable SysCalls.

Local Open Scope Z_scope.

#[export] Instance fat16_readdir_law {S} `{!sector_dev S} : ReaddirLaw (fat_state S).
Proof. intros i rd B off fill b s r off' b' s' [= <-] E. by eapply fat16_readdir_calls. Qed.

#[export] Instance blob_readdir_law : ReaddirLaw (list Z).
Proof. by intros i rd B off fill b s r off' b' s'. Qed.

Definition prog : Z := 900.

Definition prog_task : task :=
  Task (chars "prog") 2 0 TASK_STATE_RUNNING WAIT_NONE true true zero_regs 7 0 None [] SSelf 1 5 0 (Some 5 :: replicate 15 None) [47].
Definition prog_sys : sys space :=
  Sys {[ prog := prog_task ]} [prog] (Some prog) zero_regs 2 0 (clock demo_sys) true 0 tiny_space.
Definition prog_con : con space := Con demo_term demo_ring (replicate 256 0) 0 (Ring (replicate 256 0) 0 0) false prog_sys.
Definition prog_root : dentry := Dentry [47] None (Some 2) false 1 [].
(** At 0x1000 the program has the path "./.." and eleven more bytes. *)
Definition prog_mem : mem := put_at 0x1000 (chars "./.." ++ replicate 12 0) ∅.
Definition prog_kern : kern space (list Z) :=
  Kern prog_con (Vfs {[ 8 := prog_root ]} {[ 5 := File (Some 1) 0 0 None ]} [9] (Some 8) tiny_elf) prog_mem.

Definition prog_regs (nr a0 a1 a2 : Z) : cpu_state := CpuState nr 0 0 a2 a0 a1 0 0 0 0 0 0 0 0 0 0 0 0 0 0 0 0.

Lemma prog_one t tk : tasks (ksys prog_kern) !! t = Some tk → t = prog ∧ tk = prog_task.
Proof. change (tasks (ksys prog_kern)) with ({[ prog := prog_task ]} : gmap Z task). by intros [<- <-]%lookup_singleton_Some. Qed.

Lemma prog_fd i f : t_fds prog_task !! i = Some (Some f) → i = 0%nat ∧ f = 5.
Proof. destruct i as [|i]; [by intros [= <-]|]. change (replicate 15 None !! i = Some (Some f) → S i = 0%nat ∧ f = 5). by intros [[=] _]%lookup_replicate. Qed.

Lemma prog_io_ok : io_ok prog_kern.
Proof.
  split.
  - split; cbn.
    + apply NoDup_singleton.
    + intros a ->%list_elem_of_singleton. done.
    + intros a [fl [<- _]%lookup_singleton_Some]. done.
  - intros a c. change (umem prog_kern) with prog_mem. unfold prog_mem. rewrite lookup_put_at. case_if; [|by rewrite lookup_empty].
    intros Hc%list_elem_of_lookup_2. revert c Hc. apply Forall_forall, (bool_decide_unpack _). by vm_compute.
  - intros t tk [-> ->]%prog_one. split; [done|]. split_and!; [by repeat constructor|done|by exists []].
  - intros t tk i f [-> ->]%prog_one [-> ->]%prog_fd. set_solver.
  - intros t tk i t' tk' i' f [-> ->]%prog_one [-> ->]%prog_fd [-> ->]%prog_one [-> _]%prog_fd. done.
Qed.

Lemma syscall_keeps_tables_witness : ∃ k', syscall_handler_c 0 (prog_regs 6 3 0 0) prog_kern = Done (Returns (prog_regs 0 3 0 0), k') ∧ io_ok k'.
Proof.
  assert (∃ k', syscall_handler_c 0 (prog_regs 6 3 0 0) prog_kern = Done (Returns (prog_regs 0 3 0 0), k')) as [k' E] by (eexists; reflexivity).
  exists k'. split; [exact E|]. exact (syscall_keeps_tables 0 _ prog_kern _ k' prog_io_ok E).
Defined.

Lemma prog_has_fd : has_fd prog_kern 3 5.
Proof. exists prog, prog_task, 0%nat. split_and!; try done. unfold TASK_MAX_FDS. lia. Qed.

Lemma prog_mapped n : (n <= 16)%nat → mapped prog_mem 0x1000 n.
Proof.
  intros Hn. eapply mapped_le; [|exact Hn]. change 16%nat with (length (chars "./.." ++ replicate 12 0)). apply bytes_at_mapped, put_at_in.
Qed.

Lemma sys_pread_witness : ∃ k1 k2, sys_lseek 3 1 LZ_SEEK_SET prog_kern = Done (Returns 1, k1) ∧
  sys_read 0 3 0x1000 3 k1 = Done (Returns 3, k2) ∧ bytes_at (umem k2) 0x1000 (chars "ELF").
Proof.
  destruct (sys_pread (blob_file 5 tiny_elf) 0 5 tiny_elf prog_kern 3 1 0x1000 3) as (k1 & k2 & E1 & E2 & [Hb _] & _).
  - apply blob_reads_as. by vm_compute.
  - apply (bool_decide_unpack _). by vm_compute.
  - by exists (File (Some 1) 0 0 None).
  - exact prog_has_fd.
  - lia.
  - lia.
  - lia.
  - reflexivity.
  - apply prog_mapped. lia.
  - exists k1, k2. split; [exact E1|]. split; [exact E2|exact Hb].
Defined.

Lemma prog_edited : edited (cols := 4) (rows := 2) prog_con demo_editor.
Proof.
  destruct demo_con_edited as [H1 H2 H3 H4 H5 H6 H7 _]. split; [exact H1|exact H2|exact H3|exact H4|exact H5|exact H6|exact H7|].
  intros t ->%list_elem_of_singleton. by exists prog_task.
Qed.


Lemma sys_chdir_getcwd_witness : ∃ k1 k2, sys_chdir 0x1000 prog_kern = Done (Returns 0, k1) ∧
  sys_getcwd 0x1000 8 k1 = Done (Returns 1, k2) ∧ cstr (umem k2) 0x1000 [47].
Proof.
  assert (∃ k1, sys_chdir 0x1000 prog_kern = Done (Returns 0, k1) ∧ umem k1 = prog_mem) as (k1 & E & Em).
  { eexists. split; [vm_compute; reflexivity|reflexivity]. }
  pose proof (sys_chdir_getcwd prog_kern k1 prog prog_task 0x1000 (chars "./..") 0x1000 8) as Hw. cbv zeta in Hw.
  destruct Hw as (k2 & E2 & Hc).
  - reflexivity.
  - reflexivity.
  - repeat constructor.
  - reflexivity.
  - split; [|repeat constructor; lia]. intros i c Hc. change (umem prog_kern) with prog_mem. apply (put_at_in 0x1000 (chars "./.." ++ replicate 12 0)).
    destruct i as [|[|[|[|[|i]]]]]; try exact Hc. by destruct i.
  - exact E.
  - reflexivity.
  - lia.
  - rewrite Em. apply prog_mapped. lia.
  - exists k1, k2. split; [exact E|]. split; [exact E2|exact Hc].
Defined.

Lemma syscall_refuses_witness :
  syscall_handler_c 0 (prog_regs 21 0 0 0) prog_kern = Done (Returns (prog_regs (u64 (-38)) 0 0 0), prog_kern) ∧
  syscall_handler_c 0 (prog_regs 1 1 BOOT_HHDM_BASE 4) prog_kern = Done (Returns (prog_regs (u64 (-14)) 1 BOOT_HHDM_BASE 4), prog_kern).
Proof.
  split.
  - apply (syscall_refuses 0 (prog_regs 21 0 0 0) prog_kern); by vm_compute.
  - apply (proj2 (syscall_refuses 0 (prog_regs 1 1 BOOT_HHDM_BASE 4) prog_kern ltac:(by vm_compute)) (i64 BOOT_HHDM_BASE) 4); [by vm_compute|reflexivity|].
    right; right; left. by vm_compute.
Defined.
