(* ===== verification/UString.v ===== *)
(** * Strings of user space (userspace/lib/string.c, userspace/include/ctype.h)

    The string library of programs, on the byte memory of [CString]. It is not
    the library of the kernel: a comparison returns the difference of the bytes,
    and the loops are other loops. The functions have the names of the source,
    so a file that imports both libraries refers to one of them by its
    file. *)

From S2P Require Import Prelude CString.

Local Open Scope Z_scope.

(** ** Characters *)

Definition isdigit (c : Z) : bool := (48 <=? c) && (c <=? 57).
Definition isupper (c : Z) : bool := (65 <=? c) && (c <=? 90).
Definition islower (c : Z) : bool := (97 <=? c) && (c <=? 122).
Definition isalpha (c : Z) : bool := isupper c || islower c.
Definition isalnum (c : Z) : bool := isalpha c || isdigit c.
Definition isxdigit (c : Z) : bool :=
  isdigit c || ((97 <=? c) && (c <=? 102)) || ((65 <=? c) && (c <=? 70)).
Definition isspace (c : Z) : bool := (c =? 32) || ((9 <=? c) && (c <=? 13)).
Definition iscntrl (c : Z) : bool := ((0 <=? c) && (c <? 32)) || (c =? 127).
Definition isprint (c : Z) : bool := (32 <=? c) && (c <? 127).
Definition isgraph (c : Z) : bool := (32 <? c) && (c <? 127).
Definition ispunct (c : Z) : bool := isgraph c && negb (isalnum c).
Definition toupper (c : Z) : Z := if islower c then c - 32 else c.
Definition tolower (c : Z) : Z := if isupper c then c + 32 else c.

(** ** Blocks of bytes *)

(** [while (n--) *d++ = *s++;] *)
Fixpoint memcpy_loop (n : nat) (d s : Z) (m : mem) : run mem :=
  match n with
  | O => Done m
  | S n => c ← ldb m s; m ← stb d c m; memcpy_loop n (d + 1) (s + 1) m
  end.

Definition memcpy (dst src n : Z) (m : mem) : run mem := memcpy_loop (Z.to_nat n) dst src m.

(** [while (n--) *--d = *--s;] *)
Fixpoint memmove_down (n : nat) (d s : Z) (m : mem) : run mem :=
  match n with
  | O => Done m
  | S n => c ← ldb m (s - 1); m ← stb (d - 1) c m; memmove_down n (d - 1) (s - 1) m
  end.

Definition memmove (dst src n : Z) (m : mem) : run mem :=
  if dst <? src then memcpy_loop (Z.to_nat n) dst src m
  else memmove_down (Z.to_nat n) (dst + n) (src + n) m.

Fixpoint memset_fill (n : nat) (d c : Z) (m : mem) : run mem :=
  match n with
  | O => Done m
  | S n => m ← stb d (u8 c) m; memset_fill n (d + 1) c m
  end.

Definition memset (dst c n : Z) (m : mem) : run mem := memset_fill (Z.to_nat n) dst c m.

Fixpoint memcmp_from (n : nat) (m : mem) (a b i : Z) : run Z :=
  match n with
  | O => Done 0
  | S n =>
      x ← ldb m (a + i);
      y ← ldb m (b + i);
      if negb (x =? y) then Done (x - y) else memcmp_from n m a b (i + 1)
  end.

Definition memcmp (m : mem) (a b n : Z) : run Z := memcmp_from (Z.to_nat n) m a b 0.

Fixpoint memchr_from (n : nat) (m : mem) (s c i : Z) : run (option Z) :=
  match n with
  | O => Done None
  | S n => x ← ldb m (s + i); if x =? u8 c then Done (Some (s + i)) else memchr_from n m s c (i + 1)
  end.

Definition memchr (m : mem) (s c n : Z) : run (option Z) := memchr_from (Z.to_nat n) m s c 0.

(** ** Scans *)

Fixpoint strlen_from (fuel : nat) (m : mem) (s p : Z) : run Z :=
  match fuel with
  | O => Stop Diverge
  | S fuel => c ← ldb m p; if c =? 0 then Done (p - s) else strlen_from fuel m s (p + 1)
  end.

Definition strlen (m : mem) (s : Z) : run Z := strlen_from (scan_fuel m) m s s.

Fixpoint strnlen_from (fuel : nat) (m : mem) (s n i : Z) : run Z :=
  match fuel with
  | O => Stop Diverge
  | S fuel =>
      if i <? n then c ← ldb m (s + i); if c =? 0 then Done i else strnlen_from fuel m s n (i + 1)
      else Done i
  end.

Definition strnlen (m : mem) (s n : Z) : run Z := strnlen_from (S (scan_fuel m)) m s n 0.

(** The two loops of a comparison, [f] is applied to the characters before. *)
Fixpoint cmp_loop (f : Z → Z) (fuel : nat) (m : mem) (a b : Z) : run Z :=
  match fuel with
  | O => Stop Diverge
  | S fuel =>
      x ← ldb m a;
      y ← ldb m b;
      if negb (x =? 0) && (f x =? f y) then cmp_loop f fuel m (a + 1) (b + 1)
      else Done (f x - f y)
  end.

Fixpoint ncmp_loop (f : Z → Z) (n : nat) (m : mem) (a b : Z) : run Z :=
  match n with
  | O => Done 0
  | S n =>
      x ← ldb m a;
      if x =? 0 then y ← ldb m b; Done (f x - f y)
      else
        y ← ldb m b;
        if f x =? f y then ncmp_loop f n m (a + 1) (b + 1) else Done (f x - f y)
  end.

Definition strcmp (m : mem) (a b : Z) : run Z := cmp_loop (λ c, c) (scan_fuel m) m a b.
Definition strncmp (m : mem) (a b n : Z) : run Z := ncmp_loop (λ c, c) (Z.to_nat n) m a b.

Definition lower (c : Z) : Z := if (65 <=? c) && (c <=? 90) then c + 32 else c.

Definition strcasecmp (m : mem) (a b : Z) : run Z := cmp_loop lower (scan_fuel m) m a b.
Definition strncasecmp (m : mem) (a b n : Z) : run Z := ncmp_loop lower (Z.to_nat n) m a b.

Fixpoint strchr_scan (fuel : nat) (m : mem) (s c : Z) : run (option Z) :=
  match fuel with
  | O => Stop Diverge
  | S fuel =>
      x ← ldb m s;
      if x =? u8 c then Done (Some s) else if x =? 0 then Done None else strchr_scan fuel m (s + 1) c
  end.

Definition strchr (m : mem) (s c : Z) : run (option Z) := strchr_scan (scan_fuel m) m s c.

Fixpoint strrchr_scan (fuel : nat) (m : mem) (s c : Z) (last : option Z) : run (option Z) :=
  match fuel with
  | O => Stop Diverge
  | S fuel =>
      x ← ldb m s;
      let last := if x =? u8 c then Some s else last in
      if x =? 0 then Done last else strrchr_scan fuel m (s + 1) c last
  end.

Definition strrchr (m : mem) (s c : Z) : run (option Z) := strrchr_scan (scan_fuel m) m s c None.

Fixpoint strstr_scan (fuel : nat) (m : mem) (hay needle nl : Z) : run (option Z) :=
  match fuel with
  | O => Stop Diverge
  | S fuel =>
      x ← ldb m hay;
      if x =? 0 then Done None
      else
        y ← ldb m needle;
        r ← (if x =? y then r ← strncmp m hay needle nl; Done (r =? 0) else Done false);
        if r : bool then Done (Some hay) else strstr_scan fuel m (hay + 1) needle nl
  end.

Definition strstr (m : mem) (hay needle : Z) : run (option Z) :=
  y ← ldb m needle;
  if y =? 0 then Done (Some hay)
  else nl ← strlen m needle; strstr_scan (scan_fuel m) m hay needle nl.

(** ** Copies *)

Fixpoint strcpy_from (fuel : nat) (d src : Z) (m : mem) : run mem :=
  match fuel with
  | O => Stop Diverge
  | S fuel =>
      c ← ldb m src;
      m ← stb d c m;
      if c =? 0 then Done m else strcpy_from fuel (d + 1) (src + 1) m
  end.

Definition strcpy (dst src : Z) (m : mem) : run mem := strcpy_from (scan_fuel m) dst src m.

Fixpoint strncpy_from (n : nat) (dst src i : Z) (m : mem) : run (Z * mem) :=
  match n with
  | O => Done (i, m)
  | S n =>
      c ← ldb m (src + i);
      if c =? 0 then Done (i, m) else m ← stb (dst + i) c m; strncpy_from n dst src (i + 1) m
  end.

Definition strncpy (dst src n : Z) (m : mem) : run mem :=
  '(i, m) ← strncpy_from (Z.to_nat n) dst src 0 m;
  memset_fill (Z.to_nat (n - i)) (dst + i) 0 m.

Definition strcat (dst src : Z) (m : mem) : run mem :=
  len ← strlen m dst; strcpy (dst + len) src m.

(** [while (n-- && *src) *d++ = *src++; *d = 0;] *)
Fixpoint strncat_from (n : nat) (d src : Z) (m : mem) : run mem :=
  match n with
  | O => stb d 0 m
  | S n =>
      c ← ldb m src;
      if c =? 0 then stb d 0 m else m ← stb d c m; strncat_from n (d + 1) (src + 1) m
  end.

Definition strncat (dst src n : Z) (m : mem) : run mem :=
  len ← strlen m dst; strncat_from (Z.to_nat n) (dst + len) src m.

(** ** References on lists *)

(** The difference of the first two characters that differ, [f] applied to them. *)
Fixpoint str_order (s t : list Z) : Z :=
  match s, t with
  | c :: s, d :: t => if c =? d then str_order s t else c - d
  | c :: _, [] => c
  | [], d :: _ => - d
  | [], [] => 0
  end.

Definition occurs_at (needle hay : list Z) (i : nat) : Prop := needle `prefix_of` drop i hay.

(** ** Lemmas on blocks of bytes *)

Lemma mapped_range m a n b k :
  mapped m a n → a <= b → b + Z.of_nat k <= a + Z.of_nat n → mapped m b k.
Proof.
  intros Hm Hlo Hhi i Hi. replace (b + Z.of_nat i) with (a + Z.of_nat (Z.to_nat (b - a + Z.of_nat i))) by lia.
  apply Hm. lia.
Qed.

Lemma put_at_filled a n c m : mapped (put_at a (replicate n c) m) a n.
Proof. rewrite <- (length_replicate n c) at 2. apply bytes_at_mapped, put_at_in. Qed.

Lemma memcpy_loop_up n d s i m : memcpy_loop n (d + i) (s + i) m = copy_up n d s i m.
Proof.
  revert i m. induction n as [|n IH]; intros i m; cbn [memcpy_loop copy_up]; [done|].
  destruct (ldb m (s + i)) as [c|]; [|done]. rsimpl. destruct (stb (d + i) c m) as [m'|]; [|done]. rsimpl.
  rewrite <- !Z.add_assoc. apply IH.
Qed.

Lemma memcpy_up dst src n m : memcpy dst src n m = CString.memcpy dst src n m.
Proof.
  unfold memcpy, CString.memcpy. rewrite <- (memcpy_loop_up _ dst src 0). by rewrite !Z.add_0_r.
Qed.

Lemma user_memcpy_Done l d s m :
  bytes_at m s l → Forall byte l → mapped m d (length l) →
  d < s ∨ s + Z.of_nat (length l) <= d ∨ l = [] →
  memcpy d s (Z.of_nat (length l)) m = Done (put_at d l m).
Proof.
  intros Hs Hb Hm Hd. rewrite memcpy_up. unfold CString.memcpy. rewrite Nat2Z.id.
  rewrite (copy_up_Done l d s 0 m); rewrite ?Z.add_0_r; done.
Qed.

Lemma memmove_down_copy n d s m :
  memmove_down n (d + Z.of_nat n) (s + Z.of_nat n) m = copy_down n d s m.
Proof.
  revert m. induction n as [|n IH]; intros m; cbn [memmove_down copy_down]; [done|].
  replace (s + Z.of_nat (S n) - 1) with (s + Z.of_nat n) by lia.
  replace (d + Z.of_nat (S n) - 1) with (d + Z.of_nat n) by lia.
  destruct (ldb m (s + Z.of_nat n)) as [c|]; [|done]. rsimpl.
  destruct (stb (d + Z.of_nat n) c m) as [m'|]; [|done]. rsimpl. apply IH.
Qed.

(** The destination is the source as it was, however the two overlap. *)
Lemma memmove_Done l d s m :
  bytes_at m s l → Forall byte l → mapped m d (length l) →
  memmove d s (Z.of_nat (length l)) m = Done (put_at d l m).
Proof.
  intros Hs Hb Hm. unfold memmove. rewrite Nat2Z.id. case_if.
  - rewrite <- (Z.add_0_r d) at 1. rewrite <- (Z.add_0_r s), (memcpy_loop_up (length l) d s 0).
    rewrite (copy_up_Done l d s 0 m); rewrite ?Z.add_0_r; try done. lia.
  - rewrite memmove_down_copy. by apply copy_down_Done.
Qed.

Lemma memset_fill_Done n d c m :
  mapped m d n → 0 <= c < 256 → memset_fill n d c m = Done (put_at d (replicate n c) m).
Proof.
  revert d m. induction n as [|n IH]; intros d m Hm Hc; cbn [memset_fill put_at replicate]; [done|].
  apply mapped_S in Hm as [Ha Hm]. rewrite (wrap_small 8 c) by lia.
  rstep (stb_Done m d c Ha Hc). apply IH; [|done]. by apply mapped_insert.
Qed.

Lemma memset_Done d c n m :
  mapped m d (Z.to_nat n) → 0 <= c < 256 → memset d c n m = Done (put_at d (replicate (Z.to_nat n) c) m).
Proof. apply memset_fill_Done. Qed.

(** ** Lemmas on scans *)

Lemma strlen_from_Done fuel m a p s :
  cstr m p s → (length s < fuel)%nat → strlen_from fuel m a p = Done (p - a + Z.of_nat (length s)).
Proof.
  revert p fuel. induction s as [|c s IH]; intros p [|fuel] Hs Hf; cbn [strlen_from length] in *; try lia.
  - apply cstr_nil in Hs. rstep (ldb_Some _ _ _ Hs). cbn [Z.eqb]. f_equal. lia.
  - apply cstr_cons in Hs as (Hc & Hr & Hs). rstep (ldb_Some _ _ _ Hc).
    rewrite (proj2 (Z.eqb_neq c 0)) by lia. rewrite IH; [f_equal; lia|done|lia].
Qed.

Lemma user_strlen_Done m a s : cstr m a s → strlen m a = Done (Z.of_nat (length s)).
Proof.
  intros H. unfold strlen. rewrite (strlen_from_Done _ m a a s H (cstr_fuel _ _ _ H)). f_equal. lia.
Qed.

Lemma strnlen_from_Done fuel m a i s n :
  cstr m (a + i) s → (length s < fuel)%nat → i <= n →
  strnlen_from fuel m a n i = Done (i + Z.min (n - i) (Z.of_nat (length s))).
Proof.
  revert i fuel. induction s as [|c s IH]; intros i [|fuel] Hs Hf Hi; cbn [strnlen_from length] in *; try lia.
  - apply cstr_nil in Hs. case_if; [|f_equal; lia]. rstep (ldb_Some _ _ _ Hs). cbn [Z.eqb]. f_equal. lia.
  - apply cstr_cons in Hs as (Hc & Hr & Hs). case_if; [|f_equal; lia]. rstep (ldb_Some _ _ _ Hc).
    rewrite (proj2 (Z.eqb_neq c 0)) by lia. rewrite IH; [f_equal; lia| |lia|lia]. by rewrite Z.add_assoc.
Qed.

Lemma strnlen_Done m a s n :
  cstr m a s → 0 <= n → strnlen m a n = Done (Z.min n (Z.of_nat (length s))).
Proof.
  intros H Hn. unfold strnlen. rewrite (strnlen_from_Done _ m a 0 s n).
  - f_equal. lia.
  - by rewrite Z.add_0_r.
  - apply cstr_fuel in H. lia.
  - done.
Qed.

(** ** Lemmas on comparisons *)

(** What is compared: characters that are only null when they were. *)
Definition keeps_end (f : Z → Z) : Prop := f 0 = 0 ∧ ∀ c, 0 < c < 256 → f c ≠ 0.

Lemma keeps_end_id : keeps_end (λ c, c).
Proof. split; [done|lia]. Qed.

Lemma keeps_end_lower : keeps_end lower.
Proof. split; [done|]. intros c Hc. unfold lower. case_if; lia. Qed.

Lemma str_order_refl s : str_order s s = 0.
Proof. induction s as [|c s IH]; cbn [str_order]; [done|]. by rewrite Z.eqb_refl. Qed.

Lemma cmp_loop_Done f fuel m a b s t :
  keeps_end f → cstr m a s → cstr m b t → (length s < fuel)%nat →
  cmp_loop f fuel m a b = Done (str_order (f <$> s) (f <$> t)).
Proof.
  intros [Hf0 Hf] Ha Hb Hl. revert a b t fuel Ha Hb Hl.
  induction s as [|c s IH]; intros a b t [|fuel] Ha Hb Hl; cbn [cmp_loop length] in *; try lia.
  - apply cstr_nil in Ha. rstep (ldb_Some _ _ _ Ha). destruct t as [|d t].
    + apply cstr_nil in Hb. rstep (ldb_Some _ _ _ Hb). cbn. by rewrite Hf0.
    + apply cstr_cons in Hb as (Hd & Hr & _). rstep (ldb_Some _ _ _ Hd). cbn. by rewrite Hf0.
  - apply cstr_cons in Ha as (Hc & Hr & Ha). rstep (ldb_Some _ _ _ Hc).
    rewrite (proj2 (Z.eqb_neq c 0)) by lia. cbn [negb andb]. destruct t as [|d t].
    + apply cstr_nil in Hb. rstep (ldb_Some _ _ _ Hb). cbn [fmap list_fmap str_order].
      rewrite Hf0, (proj2 (Z.eqb_neq _ _) (Hf c Hr)). f_equal. lia.
    + apply cstr_cons in Hb as (Hd & Hrd & Hb). rstep (ldb_Some _ _ _ Hd). cbn [fmap list_fmap str_order].
      destruct (f c =? f d); [|done]. apply IH; [done..|lia].
Qed.

Lemma ncmp_loop_Done f n m a b s t :
  keeps_end f → cstr m a s → cstr m b t →
  ncmp_loop f n m a b = Done (str_order (f <$> take n s) (f <$> take n t)).
Proof.
  intros [Hf0 Hf] Ha Hb. revert a b s t Ha Hb.
  induction n as [|n IH]; intros a b s t Ha Hb; cbn [ncmp_loop]; [done|].
  destruct s as [|c s].
  - apply cstr_nil in Ha. rstep (ldb_Some _ _ _ Ha). cbn [Z.eqb]. destruct t as [|d t].
    + apply cstr_nil in Hb. rstep (ldb_Some _ _ _ Hb). cbn. by rewrite Hf0.
    + apply cstr_cons in Hb as (Hd & Hr & _). rstep (ldb_Some _ _ _ Hd). cbn. by rewrite Hf0.
  - apply cstr_cons in Ha as (Hc & Hr & Ha). rstep (ldb_Some _ _ _ Hc).
    rewrite (proj2 (Z.eqb_neq c 0)) by lia. destruct t as [|d t].
    + apply cstr_nil in Hb. rstep (ldb_Some _ _ _ Hb). cbn [take fmap list_fmap str_order].
      rewrite Hf0, (proj2 (Z.eqb_neq _ _) (Hf c Hr)). f_equal. lia.
    + apply cstr_cons in Hb as (Hd & Hrd & Hb). rstep (ldb_Some _ _ _ Hd).
      cbn [take fmap list_fmap str_order]. destruct (f c =? f d); [|done]. by apply IH.
Qed.

Lemma user_strcmp_Done m a b s t : cstr m a s → cstr m b t → strcmp m a b = Done (str_order s t).
Proof.
  intros Ha Hb. unfold strcmp. rewrite (cmp_loop_Done _ _ m a b s t); try done.
  - by rewrite !list_fmap_id.
  - apply keeps_end_id.
  - by eapply cstr_fuel.
Qed.

Lemma strncmp_Done m a b s t n :
  cstr m a s → cstr m b t →
  strncmp m a b n = Done (str_order (take (Z.to_nat n) s) (take (Z.to_nat n) t)).
Proof.
  intros Ha Hb. unfold strncmp. rewrite (ncmp_loop_Done _ _ m a b s t keeps_end_id Ha Hb).
  by rewrite !list_fmap_id.
Qed.

(** The order is that of the characters: it is null for equal strings only. *)
Lemma str_order_0 s t :
  Forall (λ c, 0 < c < 256) s → Forall (λ c, 0 < c < 256) t → str_order s t = 0 ↔ s = t.
Proof.
  intros Hs. revert t. induction Hs as [|c s Hc Hs IH]; intros t Ht.
  - destruct Ht as [|d t Hd Ht]; cbn [str_order]; [done|]. split; [lia|done].
  - destruct Ht as [|d t Hd Ht]; cbn [str_order]; [split; [lia|done]|].
    destruct (Z.eqb_spec c d) as [<-|Hne].
    + rewrite (IH t Ht). split; congruence.
    + split; [lia|congruence].
Qed.

Lemma Forall_chars_take m a s n : cstr m a s → Forall (λ c, 0 < c < 256) (take n s).
Proof. intros [_ H]. by apply Forall_take. Qed.

Lemma cstr_drop m a s i : cstr m a s → (i <= length s)%nat → cstr m (a + Z.of_nat i) (drop i s).
Proof.
  revert a s. induction i as [|i IH]; intros a s Hs Hi; [by rewrite Z.add_0_r|].
  destruct s as [|c s]; cbn [length] in Hi; [lia|]. apply cstr_cons in Hs as (_ & _ & Hs). cbn [drop].
  replace (a + Z.of_nat (S i)) with (a + 1 + Z.of_nat i) by lia. apply IH; [done|lia].
Qed.

(** ** Lemmas on searches *)

Lemma strchr_scan_Done fuel m a s ch :
  cstr m a s → (length s < fuel)%nat →
  strchr_scan fuel m a ch =
    Done ((λ ic, a + Z.of_nat (fst ic)) <$> list_find (λ c, c = u8 ch) (s ++ [0])).
Proof.
  intros Hs Hf. revert a fuel Hs Hf.
  induction s as [|c s IH]; intros a [|fuel] Hs Hf; cbn [strchr_scan length] in *; try lia.
  - apply cstr_nil in Hs. rstep (ldb_Some _ _ _ Hs). cbn [list_find app].
    destruct (Z.eqb_spec 0 (u8 ch)) as [E|E].
    + rewrite decide_True by done. cbn. do 2 f_equal. lia.
    + by rewrite decide_False by done.
  - apply cstr_cons in Hs as (Hc & Hr & Hs). rstep (ldb_Some _ _ _ Hc). cbn [list_find app].
    destruct (Z.eqb_spec c (u8 ch)) as [E|E].
    + rewrite decide_True by done. cbn. do 2 f_equal. lia.
    + rewrite decide_False by done. rewrite (proj2 (Z.eqb_neq c 0)) by lia.
      rewrite (IH (a + 1) fuel Hs ltac:(lia)). f_equal.
      destruct (list_find _ (s ++ [0])) as [[i x]|]; [|done]. cbn. f_equal. lia.
Qed.

Lemma user_strchr_Done m a s ch :
  cstr m a s →
  strchr m a ch = Done ((λ ic, a + Z.of_nat (fst ic)) <$> list_find (λ c, c = u8 ch) (s ++ [0])).
Proof. intros H. apply strchr_scan_Done; [done|by eapply cstr_fuel]. Qed.

(** What a search for [needle] from offset [k] on returns. *)
Definition first_from (a : Z) (needle s : list Z) (k : nat) (r : option Z) : Prop :=
  match r with
  | Some p => ∃ i, (k <= i)%nat ∧ p = a + Z.of_nat i ∧ occurs_at needle s i ∧
                   ∀ j, (k <= j < i)%nat → ¬ occurs_at needle s j
  | None => ∀ i, (k <= i)%nat → ¬ occurs_at needle s i
  end.

Lemma first_from_here a needle s k :
  occurs_at needle s k → first_from a needle s k (Some (a + Z.of_nat k)).
Proof. intros H. exists k. split; [done|]. split; [done|]. split; [done|]. lia. Qed.

Lemma first_from_skip a needle s k r :
  ¬ occurs_at needle s k → first_from a needle s (S k) r → first_from a needle s k r.
Proof.
  intros Hk. destruct r as [p|]; cbn [first_from].
  - intros (i & Hi & -> & Ho & Hn). exists i. split; [lia|]. split; [done|]. split; [done|].
    intros j Hj. destruct (decide (j = k)) as [->|]; [done|]. apply Hn. lia.
  - intros Hn i Hi. destruct (decide (i = k)) as [->|]; [done|]. apply Hn. lia.
Qed.

Lemma occurs_at_end needle s i : needle ≠ [] → (length s <= i)%nat → ¬ occurs_at needle s i.
Proof.
  intros Hne Hi Ho. unfold occurs_at in Ho. rewrite drop_ge in Ho by done. by apply prefix_nil_inv in Ho.
Qed.

Lemma take_prefix (n s : list Z) : take (length n) s = n ↔ n `prefix_of` s.
Proof.
  split.
  - intros <-. exists (drop (length n) s). symmetry. apply take_drop.
  - intros [k ->]. apply take_app_length.
Qed.

Lemma strncmp_prefix m a b s n :
  cstr m a s → cstr m b n →
  ∃ r, strncmp m a b (Z.of_nat (length n)) = Done r ∧ (r = 0 ↔ n `prefix_of` s).
Proof.
  intros Ha Hb. rewrite (strncmp_Done m a b s n _ Ha Hb), Nat2Z.id. eexists. split; [done|].
  rewrite str_order_0 by (by eapply Forall_chars_take). rewrite (take_ge n) by done. apply take_prefix.
Qed.

Lemma strstr_scan_Done fuel m a s nd needle k :
  cstr m (a + Z.of_nat k) (drop k s) → cstr m nd needle → needle ≠ [] → (k <= length s)%nat →
  (length (drop k s) < fuel)%nat →
  ∃ r, strstr_scan fuel m (a + Z.of_nat k) nd (Z.of_nat (length needle)) = Done r ∧ first_from a needle s k r.
Proof.
  intros Hs Hn Hne. revert k Hs. induction fuel as [|fuel IH]; intros k Hs Hk Hf; [lia|].
  cbn [strstr_scan]. destruct (drop k s) as [|c h] eqn:Hd.
  - apply cstr_nil in Hs. rstep (ldb_Some _ _ _ Hs). cbn [Z.eqb]. exists None. split; [done|].
    intros i Hi. apply occurs_at_end; [done|]. pose proof (length_drop s k) as Hl. rewrite Hd in Hl. cbn in Hl. lia.
  - pose proof Hs as Hs'. apply cstr_cons in Hs as (Hc & Hr & Hs). rstep (ldb_Some _ _ _ Hc).
    rewrite (proj2 (Z.eqb_neq c 0)) by lia.
    assert (drop (S k) s = h) as Hd' by (by rewrite <- Nat.add_1_r, <- drop_drop, Hd).
    assert (k < length s)%nat as Hlt.
    { pose proof (length_drop s k) as Hl. rewrite Hd in Hl. cbn in Hl. lia. }
    assert (∃ r : bool,
      (if c =? hd 0 needle then r ← strncmp m (a + Z.of_nat k) nd (Z.of_nat (length needle)); Done (r =? 0) else Done false)
        = Done r ∧ (r = true ↔ occurs_at needle s k)) as (r & Er & Hr').
    { unfold occurs_at. rewrite Hd. destruct (Z.eqb_spec c (hd 0 needle)) as [E|E].
      - destruct (strncmp_prefix m _ nd (c :: h) needle Hs' Hn) as (x & -> & Hx). rsimpl.
        eexists. split; [done|]. by rewrite Z.eqb_eq.
      - exists false. split; [done|]. split; [done|]. intros Hp. destruct needle as [|d n]; [done|].
        apply prefix_cons_inv_1 in Hp. by subst. }
    destruct needle as [|d n]; [done|]. pose proof Hn as Hn'. apply cstr_cons in Hn' as (Hd0 & _ & _).
    rstep (ldb_Some _ _ _ Hd0). cbn [hd] in Er. rstep Er. destruct r.
    + eexists. split; [done|]. apply first_from_here. by apply Hr'.
    + replace (a + Z.of_nat k + 1) with (a + Z.of_nat (S k)) in * by lia.
      destruct (IH (S k)) as (r & -> & Hfr).
      * by rewrite Hd'.
      * lia.
      * rewrite Hd'. cbn [length] in Hf. lia.
      * exists r. split; [done|]. apply first_from_skip; [|done]. intros Ho. by apply Hr' in Ho.
Qed.

(** [strstr] finds the first place where the string it looks for occurs, and returns null only
    when there is none; the empty string is found at the start. *)
Theorem strstr_first m a s nd needle :
  cstr m a s → cstr m nd needle → ∃ r, strstr m a nd = Done r ∧ first_from a needle s 0 r.
Proof.
  intros Hs Hn. unfold strstr. destruct needle as [|d n].
  - apply cstr_nil in Hn. rstep (ldb_Some _ _ _ Hn). cbn [Z.eqb]. eexists. split; [done|].
    exists 0%nat. split; [done|]. split; [lia|]. split; [by exists s|]. lia.
  - pose proof Hn as Hn'. apply cstr_cons in Hn' as (Hd & Hr & _). rstep (ldb_Some _ _ _ Hd).
    rewrite (proj2 (Z.eqb_neq d 0)) by lia. rstep (user_strlen_Done _ _ _ Hn).
    pose proof (strstr_scan_Done (scan_fuel m) m a s nd (d :: n) 0) as Hscan.
    cbn [Z.of_nat] in Hscan. rewrite Z.add_0_r in Hscan. apply Hscan.
    + done.
    + done.
    + done.
    + lia.
    + by eapply cstr_fuel.
Qed.

Definition demo_mem : mem := put_at 100 (chars "one two, two" ++ [0]) (put_at 200 (chars "two" ++ [0]) ∅).

Lemma demo_hay : cstr demo_mem 100 (chars "one two, two").
Proof.
  split; [|by apply (bool_decide_unpack _); vm_compute].
  unfold demo_mem. apply put_at_in.
Qed.

Lemma demo_needle : cstr demo_mem 200 (chars "two").
Proof.
  split; [|by apply (bool_decide_unpack _); vm_compute].
  unfold demo_mem. apply put_at_bytes; [apply put_at_in|]. right. by vm_compute.
Qed.

Lemma strstr_first_witness :
  strstr demo_mem 100 200 = Done (Some 104) ∧
  ∃ r, strstr demo_mem 100 200 = Done r ∧ first_from 100 (chars "two") (chars "one two, two") 0 r.
Proof. split; [by vm_compute|]. apply (strstr_first demo_mem 100 _ 200 _ demo_hay demo_needle). Defined.

(** The four comparisons order strings as their characters are ordered: [strcmp] returns the
    difference of the first characters that differ, [strncmp] that of the prefixes, and the other two
    the same for the texts in lower case. *)
Theorem ustring_compares m a b s t n :
  cstr m a s → cstr m b t →
  strcmp m a b = Done (str_order s t) ∧
  strncmp m a b n = Done (str_order (take (Z.to_nat n) s) (take (Z.to_nat n) t)) ∧
  strcasecmp m a b = Done (str_order (lower <$> s) (lower <$> t)) ∧
  strncasecmp m a b n = Done (str_order (lower <$> take (Z.to_nat n) s) (lower <$> take (Z.to_nat n) t)).
Proof.
  intros Ha Hb. split; [by apply user_strcmp_Done|]. split; [by apply strncmp_Done|]. split.
  - apply cmp_loop_Done; [apply keeps_end_lower|done..|by eapply cstr_fuel].
  - apply ncmp_loop_Done; [apply keeps_end_lower|done..].
Qed.

Lemma ustring_compares_witness :
  strcmp demo_mem 100 200 = Done (111 - 116) ∧
  strcmp demo_mem 100 200 = Done (str_order (chars "one two, two") (chars "two")).
Proof. split; [by vm_compute|]. apply (ustring_compares demo_mem 100 200 _ _ 2 demo_hay demo_needle). Defined.

(** ** Lemmas on copies *)

(** A copy may start inside its source, before it. *)
Lemma strcpy_from_Done fuel d a s m :
  cstr m a s → mapped m d (S (length s)) → (length s < fuel)%nat →
  d < a ∨ a + Z.of_nat (length s) < d →
  strcpy_from fuel d a m = Done (put_at d (s ++ [0]) m).
Proof.
  revert d a fuel m. induction s as [|c s IH]; intros d a [|fuel] m Hs Hm Hf Hd;
    cbn [strcpy_from length app put_at] in *; try lia.
  - apply cstr_nil in Hs. apply mapped_S in Hm as [Hm _]. rstep (ldb_Some _ _ _ Hs).
    rstep (stb_Done m d 0 Hm ltac:(unfold byte; lia)). done.
  - apply cstr_cons in Hs as (Hc & Hr & Hs). apply mapped_S in Hm as [Hd0 Hm]. rstep (ldb_Some _ _ _ Hc).
    rstep (stb_Done m d c Hd0 ltac:(unfold byte; lia)). rewrite (proj2 (Z.eqb_neq c 0)) by lia.
    apply IH; [|by apply mapped_insert|lia|lia].
    destruct Hs as [Hs Hz]. split; [|done]. apply (put_at_bytes d [c]); [done|].
    rewrite length_app. cbn [length]. lia.
Qed.

Lemma strcpy_Done d a s m :
  cstr m a s → mapped m d (S (length s)) → d < a ∨ a + Z.of_nat (length s) < d →
  strcpy d a m = Done (put_at d (s ++ [0]) m).
Proof. intros Hs Hm Hd. apply strcpy_from_Done; try done. by eapply cstr_fuel. Qed.

Lemma put_at_same a l m : bytes_at m a l → put_at a l m = m.
Proof.
  revert a. induction l as [|c l IH]; intros a H; cbn [put_at]; [done|].
  apply bytes_at_cons in H as [Hc Hl]. by rewrite insert_id, IH.
Qed.

(** The string behind another, when it is not in the way. *)
Theorem strcat_appends d a s t m :
  cstr m d s → cstr m a t → mapped m d (S (length s + length t)) →
  d + Z.of_nat (length s + length t) < a ∨ a + Z.of_nat (length t) < d →
  strcat d a m = Done (put_at d (s ++ t ++ [0]) m) ∧ cstr (put_at d (s ++ t ++ [0]) m) d (s ++ t).
Proof.
  intros Hs Ht Hm Hd. unfold strcat. rstep (user_strlen_Done _ _ _ Hs). split.
  - rewrite (strcpy_Done _ a t m Ht).
    + rewrite (put_at_app d s). do 2 f_equal. symmetry. apply put_at_same. destruct Hs as [[Hs _]%bytes_at_app _]. done.
    + intros i Hi. rewrite <- Z.add_assoc, <- Nat2Z.inj_add. apply Hm. lia.
    + lia.
  - split; [|apply Forall_app; split; [apply Hs|apply Ht]]. rewrite <- app_assoc. apply put_at_in.
Qed.

Lemma strncpy_from_Done n d a i s m :
  cstr m (a + i) s → mapped m (d + i) n → d + i + Z.of_nat n <= a + i ∨ a + i + Z.of_nat (length s) < d + i →
  strncpy_from n d a i m =
    Done (i + Z.of_nat (length (take n s)), put_at (d + i) (take n s) m).
Proof.
  revert i s m. induction n as [|n IH]; intros i s m Hs Hm Hd; cbn [strncpy_from take].
  - cbn [length put_at Z.of_nat]. by rewrite Z.add_0_r.
  - apply mapped_S in Hm as [Hd0 Hm]. destruct s as [|c s].
    + apply cstr_nil in Hs. rstep (ldb_Some _ _ _ Hs). cbn [Z.eqb length put_at Z.of_nat]. by rewrite Z.add_0_r.
    + apply cstr_cons in Hs as (Hc & Hr & Hs). rstep (ldb_Some _ _ _ Hc).
      rewrite (proj2 (Z.eqb_neq c 0)) by lia. rstep (stb_Done m (d + i) c Hd0 ltac:(unfold byte; lia)).
      cbn [length] in Hd. cbn [take length put_at]. rewrite (IH (i + 1) s).
      * rewrite Z.add_assoc. f_equal. f_equal. lia.
      * rewrite Z.add_assoc. destruct Hs as [Hs Hz]. split; [|done].
        apply (put_at_bytes (d + i) [c]); [done|]. rewrite length_app. cbn [length]. lia.
      * rewrite Z.add_assoc. by apply mapped_insert.
      * lia.
Qed.

(** Exactly [n] bytes are written: the string, cut or padded, without a terminator when it is cut. *)
Theorem strncpy_fills d a s n m :
  cstr m a s → mapped m d n → d + Z.of_nat n <= a ∨ a + Z.of_nat (length s) < d →
  strncpy d a (Z.of_nat n) m = Done (put_at d (take n (s ++ replicate n 0)) m).
Proof.
  intros Hs Hm Hd. unfold strncpy. rewrite Nat2Z.id. pose proof (strncpy_from_Done n d a 0 s m) as E.
  rewrite !Z.add_0_r, Z.add_0_l in E. rewrite (E Hs Hm Hd). rsimpl.
  pose proof (firstn_le_length n s) as Hle. rewrite memset_fill_Done.
  - rewrite take_app, take_replicate. rewrite (put_at_app d (take n s)). rewrite length_take.
    replace (Z.to_nat (Z.of_nat n - Z.of_nat (n `min` length s))) with ((n - length s) `min` n)%nat by lia. done.
  - apply put_at_mapped. intros i Hi. rewrite <- Z.add_assoc, <- Nat2Z.inj_add. apply Hm.
    rewrite length_take in *. lia.
  - lia.
Qed.
