(* ===== verification/UStdlib.v ===== *)
(** * Numbers, sorting and exit of user space (userspace/lib/stdlib.c)

    The parsing of numbers, [qsort], [rand], [atexit] and [exit]. The heap of the same file is
    UHeap. A [long] is 64 bits and wraps around. The comparison that [qsort] calls and the functions that
    [exit] calls are parameters, as they are in C; the temporary element is a place of the stack frame,
    at an address that is a parameter. *)

From stdpp Require Import sorting.
From S2P Require Import Prelude CString UString.

Local Open Scope Z_scope.

(** ** Numbers *)

Definition digitval (c base : Z) : Z :=
  let ret v := if v <? base then v else -1 in
  if (48 <=? c) && (c <=? 57) then ret (c - 48)
  else if (97 <=? c) && (c <=? 122) then ret (c - 97 + 10)
  else if (65 <=? c) && (c <=? 90) then ret (c - 65 + 10)
  else -1.

(** [while ( *p == ' ' || ( *p >= '\t' && *p <= '\r')) p++;] *)
Fixpoint skip_blank (fuel : nat) (m : mem) (p : Z) : run Z :=
  match fuel with
  | O => Stop Diverge
  | S fuel => c ← ldb m p; if isspace c then skip_blank fuel m (p + 1) else Done p
  end.

Fixpoint digits_loop (fuel : nat) (m : mem) (p base acc : Z) (any : bool) : run (Z * bool * Z) :=
  match fuel with
  | O => Stop Diverge
  | S fuel =>
      c ← ldb m p;
      let v := digitval c base in
      if v <? 0 then Done (acc, any, p)
      else digits_loop fuel m (p + 1) base (i64 (i64 (acc * base) + v)) true
  end.

(** The base and where the digits start. *)
Definition radix (m : mem) (p base : Z) : run (Z * Z) :=
  if (base =? 0) || (base =? 16) then
    c ← ldb m p;
    hex ← (if c =? 48 then x ← ldb m (p + 1); Done ((x =? 120) || (x =? 88)) else Done false);
    Done (if hex : bool then (16, p + 2)
          else if (base =? 0) && (c =? 48) then (8, p)
          else if base =? 0 then (10, p) else (base, p))
  else Done (base, p).

(** The value and the pointer that is stored through [end]. *)
Definition strtol (m : mem) (s base : Z) : run (Z * Z) :=
  p ← skip_blank (scan_fuel m) m s;
  c ← ldb m p;
  let neg := c =? 45 in
  let p := if (c =? 43) || (c =? 45) then p + 1 else p in
  '(base, p) ← radix m p base;
  '(acc, any, p) ← digits_loop (scan_fuel m) m p base 0 false;
  Done (if neg then i64 (- acc) else acc, if any : bool then p else s).

Definition strtoul (m : mem) (s base : Z) : run (Z * Z) := '(v, e) ← strtol m s base; Done (u64 v, e).
Definition atoi (m : mem) (s : Z) : run Z := '(v, _) ← strtol m s 10; Done (i32 v).
Definition atol (m : mem) (s : Z) : run Z := '(v, _) ← strtol m s 10; Done v.

Definition abs (x : Z) : Z := if x <? 0 then i32 (- x) else x.
Definition labs (x : Z) : Z := if x <? 0 then i64 (- x) else x.

(** ** Random numbers *)

Definition RAND_MAX : Z := 0x7fffffff.

(** The state is the word [g_rand]. *)
Definition rand : st Z Z :=
  _ ← st_modify (λ g, u64 (u64 (g * 1103515245) + 12345));
  g ← st_get;
  mret (i32 (Z.land (Z.shiftr g 16) RAND_MAX)).

Definition srand (seed : Z) : st Z unit := st_put seed.

(** ** Sorting *)

Section qsort.
Variable cmp : mem → Z → Z → run Z.
Variable tmp : Z.

(** [while (j > 0 && cmp(a + (j - 1) * size, tmp) > 0)] *)
Fixpoint shift_up (j : nat) (a size : Z) (m : mem) : run (Z * mem) :=
  match j with
  | O => Done (0, m)
  | S k =>
      r ← cmp m (a + Z.of_nat k * size) tmp;
      if 0 <? r then
        m ← memcpy (a + Z.of_nat j * size) (a + Z.of_nat k * size) size m;
        shift_up k a size m
      else Done (Z.of_nat j, m)
  end.

Fixpoint sort_loop (n : nat) (i : nat) (a size : Z) (m : mem) : run mem :=
  match n with
  | O => Done m
  | S n =>
      m ← memcpy tmp (a + Z.of_nat i * size) size m;
      '(j, m) ← shift_up i a size m;
      m ← memcpy (a + j * size) tmp size m;
      sort_loop n (S i) a size m
  end.

Definition qsort (base n size : Z) (m : mem) : run mem :=
  if 256 <? size then Done m else sort_loop (Z.to_nat (n - 1)) 1 base size m.
End qsort.

(** ** Exit *)

Section exit.
Context {W : Type}.

(** What a registered function does, and the end of the process. *)
Variable call : Z → st (list Z * W) unit.
Variable _exit : Z → st W unit.

Definition ATEXIT_MAX : Z := 32.

Definition on_world {A} (m : st W A) : st (list Z * W) A := λ s,
  match m (snd s) with Done (a, w) => Done (a, (fst s, w)) | Stop e => Stop e end.

(** The registered functions, [g_atexit[0]] first. *)
Definition atexit (fn : Z) : st (list Z * W) Z := λ s,
  if ATEXIT_MAX <=? Z.of_nat (length (fst s)) then Done (-1, s) else Done (0, (fst s ++ [fn], snd s)).

(** [for (i = g_atexit_n - 1; i >= 0; i--) g_atexit[i]();] *)
Fixpoint run_atexit (i : nat) : st (list Z * W) unit :=
  match i with
  | O => mret tt
  | S i =>
      s ← st_get;
      fn ← st_run (access (fst s !! i));
      _ ← call fn;
      run_atexit i
  end.

Definition exit (code : Z) : st (list Z * W) unit :=
  s ← st_get;
  _ ← run_atexit (length (fst s));
  on_world (_exit code).

Definition abort : st (list Z * W) unit := on_world (_exit 134).
End exit.

(** ** Lemmas on numbers *)

(** The value of digits, the most significant first. *)
Definition digits_value (base : Z) (ds : list Z) : Z := numeral base (λ c, digitval c base) ds.

Definition is_digits (base : Z) (ds : list Z) : Prop := Forall (λ c, 0 <= digitval c base) ds.

Lemma digitval_0 base : digitval 0 base = -1.
Proof. done. Qed.

Lemma digitval_range c base : 0 < base → -1 <= digitval c base < base.
Proof. intros Hb. unfold digitval. repeat case_if; lia. Qed.

Lemma fold_digits_ge base acc ds :
  1 <= base → 0 <= acc → is_digits base ds → acc <= fold_left (λ a c, a * base + digitval c base) ds acc.
Proof.
  intros Hb Ha Hd. revert acc Ha. induction Hd as [|c ds Hc Hd IH]; intros acc Ha; cbn [fold_left]; [lia|].
  pose proof (IH (acc * base + digitval c base) ltac:(nia)). nia.
Qed.

(** Digits up to a character that is none. *)
Lemma digits_loop_Done fuel m p base acc any ds x :
  bytes_at m p (ds ++ [x]) → is_digits base ds → digitval x base < 0 → (length ds < fuel)%nat →
  1 <= base → 0 <= acc → fold_left (λ a c, a * base + digitval c base) ds acc < 2 ^ 63 →
  digits_loop fuel m p base acc any =
    Done (fold_left (λ a c, a * base + digitval c base) ds acc,
          any || negb (bool_decide (ds = [])), p + Z.of_nat (length ds)).
Proof.
  intros Hm Hd Hx Hf Hb Ha Hv. revert fuel p acc any Hm Hf Ha Hv.
  induction Hd as [|c ds Hc Hd IH]; intros [|fuel] p acc any Hm Hf Ha Hv;
    cbn [app length] in *; try lia; apply bytes_at_cons in Hm as [Hc0 Hm]; cbn [digits_loop]; rstep (ldb_Some _ _ _ Hc0).
  - rewrite (proj2 (Z.ltb_lt _ 0) Hx). cbn [fold_left]. rewrite Z.add_0_r, bool_decide_eq_true_2 by done.
    cbn [negb]. by rewrite orb_false_r.
  - rewrite (proj2 (Z.ltb_ge _ 0) Hc). cbn [fold_left] in *.
    pose proof (fold_digits_ge base (acc * base + digitval c base) ds Hb ltac:(nia) Hd) as Hge.
    rewrite (swrap_small 64 (acc * base)) by nia. rewrite (swrap_small 64 (acc * base + digitval c base)) by nia.
    rewrite (IH fuel (p + 1)); [|done|lia|nia|done].
    rewrite (bool_decide_eq_false_2 (c :: ds = [])) by done. cbn [negb orb].
    rewrite orb_true_r. f_equal. f_equal. lia.
Qed.

Lemma skip_blank_Done fuel m p ws x :
  bytes_at m p (ws ++ [x]) → Forall (λ c, isspace c = true) ws → isspace x = false → (length ws < fuel)%nat →
  skip_blank fuel m p = Done (p + Z.of_nat (length ws)).
Proof.
  intros Hm Hw Hx. revert fuel p Hm. induction Hw as [|c ws Hc Hw IH]; intros [|fuel] p Hm Hf;
    cbn [app length] in *; try lia; apply bytes_at_cons in Hm as [Hc0 Hm]; cbn [skip_blank]; rstep (ldb_Some _ _ _ Hc0).
  - rewrite Hx. by rewrite Z.add_0_r.
  - rewrite Hc, (IH fuel (p + 1) Hm) by lia. f_equal. lia.
Qed.

(** The texts of a number: blanks, a sign, a prefix, digits, and what ends them. *)
Definition sign_text (sg : list Z) (neg : bool) : Prop :=
  sg = [] ∧ neg = false ∨ sg = [43] ∧ neg = false ∨ sg = [45] ∧ neg = true.

(** [base] is the argument of the call and [r] the base of the digits behind the prefix [px]. *)
Inductive prefix_text (base r : Z) : list Z → list Z → Prop :=
  | prefix_given ds : base = r → 2 <= r <= 36 → base ≠ 16 → prefix_text base r [] ds
  | prefix_hex x ds : base = 0 ∨ base = 16 → r = 16 → x = 120 ∨ x = 88 → prefix_text base r [48; x] ds
  | prefix_oct ds d : base = 0 → r = 8 → d ≠ 120 → d ≠ 88 → hd_error ds = Some d → prefix_text base r [] (48 :: ds)
  | prefix_dec ds d : base = 0 ∧ r = 10 ∨ base = 16 ∧ r = 16 → d ≠ 48 → hd_error ds = Some d → prefix_text base r [] ds.

Lemma radix_Done m p base r px t :
  bytes_at m p (px ++ t) → prefix_text base r px t → radix m p base = Done (r, p + Z.of_nat (length px)).
Proof.
  intros Hm Hp. unfold radix.
  destruct Hp as [t Hbr Hr H16 | x t Hb Hr Hx | t d Hbr Hr Hx HX Hd | t d Hb Hn Hd];
    try (destruct t as [|y t]; [done|injection Hd as ->]); try subst r; try subst base.
  - rewrite (proj2 (Z.eqb_neq base 0)), (proj2 (Z.eqb_neq base 16)) by lia. cbn. by rewrite Z.add_0_r.
  - assert ((base =? 0) || (base =? 16) = true) as -> by (destruct Hb as [->| ->]; done).
    cbn [app] in Hm. apply bytes_at_cons in Hm as [H0 Hm]. apply bytes_at_cons in Hm as [H1 _].
    rstep (ldb_Some _ _ _ H0). rewrite (Z.eqb_refl 48). rstep (ldb_Some _ _ _ H1).
    by destruct Hx as [->| ->].
  - cbn [Z.eqb orb app length] in *.
    apply bytes_at_cons in Hm as [H0 Hm]. apply bytes_at_cons in Hm as [H1 _].
    rstep (ldb_Some _ _ _ H0). rewrite (Z.eqb_refl 48). rstep (ldb_Some _ _ _ H1).
    rewrite (proj2 (Z.eqb_neq d 120)), (proj2 (Z.eqb_neq d 88)) by done. cbn. by rewrite Z.add_0_r.
  - assert ((base =? 0) || (base =? 16) = true) as -> by (destruct Hb as [[-> _]|[-> _]]; done).
    cbn [app length] in *. apply bytes_at_cons in Hm as [H0 _]. rstep (ldb_Some _ _ _ H0).
    rewrite (proj2 (Z.eqb_neq d 48)) by done. rewrite andb_false_r.
    destruct Hb as [[-> ->]|[-> ->]]; cbn; by rewrite Z.add_0_r.
Qed.

Lemma bytes_at_fuel m p l : bytes_at m p l → (length l < scan_fuel m)%nat.
Proof. intros H%bytes_at_mapped%mapped_size. unfold scan_fuel. lia. Qed.

Lemma strtol_Done m s base r ws sg neg px ds x :
  bytes_at m s (ws ++ sg ++ px ++ ds ++ [x]) → Forall (λ c, isspace c = true) ws → sign_text sg neg →
  prefix_text base r px (ds ++ [x]) → is_digits r ds → ds ≠ [] → digitval x r < 0 → 1 <= r →
  (sg = [] → ∀ c, hd_error (px ++ ds) = Some c → isspace c = false ∧ c ≠ 43 ∧ c ≠ 45) →
  digits_value r ds < 2 ^ 63 →
  strtol m s base = Done (if neg then - digits_value r ds else digits_value r ds,
                          s + Z.of_nat (length (ws ++ sg ++ px ++ ds))).
Proof.
  intros Hm Hws Hsg Hpx Hds Hne Hx Hr Hhd Hv. unfold strtol.
  pose proof Hm as (Hm0 & Hm1)%bytes_at_app.
  assert (∃ h t, sg ++ px ++ ds ++ [x] = h :: t ∧ isspace h = false ∧
            (h =? 45) = neg ∧ ((h =? 43) || (h =? 45)) = negb (bool_decide (sg = []))) as (h & t & Eh & Hsp & Hneg & Hsgn).
  { destruct Hsg as [[-> ->]|[[-> ->]|[-> ->]]]; [|by eexists _, _..].
    destruct (px ++ ds) as [|c k] eqn:E; [destruct px; [by subst|done]|].
    destruct (Hhd eq_refl c eq_refl) as (Hsp & H43 & H45). exists c, (k ++ [x]).
    cbn [app]. rewrite (app_assoc px ds [x]), E. cbn [app]. split; [done|]. split; [done|].
    by rewrite (proj2 (Z.eqb_neq c 43)), (proj2 (Z.eqb_neq c 45)). }
  rewrite Eh in Hm. assert (bytes_at m s (ws ++ [h])) as Hwh.
  { apply (bytes_at_app m s (ws ++ [h]) t). by rewrite <- app_assoc. }
  pose proof (bytes_at_fuel _ _ _ Hwh) as Hf. rewrite length_app in Hf. cbn [length] in Hf.
  rstep (skip_blank_Done (scan_fuel m) m s ws h Hwh Hws Hsp ltac:(lia)).
  apply bytes_at_app in Hwh as [_ [Hh _]%bytes_at_cons]. rstep (ldb_Some _ _ _ Hh). rewrite Hsgn, Hneg.
  set (p := s + Z.of_nat (length ws)) in *.
  assert ((if negb (bool_decide (sg = [])) then p + 1 else p) = p + Z.of_nat (length sg)) as ->.
  { destruct Hsg as [[-> _]|[[-> _]|[-> _]]]; cbn; lia. }
  apply bytes_at_app in Hm1 as [_ Hm1]. rstep (radix_Done m _ base r px (ds ++ [x]) Hm1 Hpx).
  apply bytes_at_app in Hm1 as [_ Hm1]. pose proof (bytes_at_fuel _ _ _ Hm1) as Hf1. rewrite length_app in Hf1. cbn in Hf1.
  rstep (digits_loop_Done (scan_fuel m) m _ r 0 false ds x Hm1 Hds Hx ltac:(lia) Hr ltac:(lia) Hv).
  rewrite bool_decide_eq_false_2 by done. cbn [orb negb].
  pose proof (fold_digits_ge r 0 ds Hr ltac:(lia) Hds) as Hge.
  unfold digits_value, numeral in *. rewrite swrap_small by lia. f_equal. f_equal; rewrite !length_app; unfold p; lia.
Qed.

(** [strtol] skips blanks, reads a sign and digits of the base, or of the base that the prefix 0x or
    a leading zero selects, and returns their value and the place of the first character behind them. *)
Theorem strtol_value m s base r ws sg neg px ds x :
  bytes_at m s (ws ++ sg ++ px ++ ds ++ [x]) → Forall (λ c, isspace c = true) ws → sign_text sg neg →
  prefix_text base r px (ds ++ [x]) → is_digits r ds → ds ≠ [] → digitval x r < 0 → 1 <= r →
  (sg = [] → ∀ c, hd_error (px ++ ds) = Some c → isspace c = false ∧ c ≠ 43 ∧ c ≠ 45) →
  digits_value r ds < 2 ^ 63 →
  strtol m s base = Done (if neg then - digits_value r ds else digits_value r ds,
                          s + Z.of_nat (length (ws ++ sg ++ px ++ ds))).
Proof. exact (strtol_Done m s base r ws sg neg px ds x). Qed.

Lemma strtol_value_witness :
  strtol (put_at 100 (chars "  -0x1fz" ++ [0]) ∅) 100 0 =
    Done (- digits_value 16 (chars "1f"), 100 + Z.of_nat (length (chars "  " ++ chars "-" ++ chars "0x" ++ chars "1f"))).
Proof.
  apply (strtol_value (put_at 100 (chars "  -0x1fz" ++ [0]) ∅) 100 0 16 (chars "  ") (chars "-") true (chars "0x") (chars "1f") 122).
  - apply (proj1 (bytes_at_app _ 100 (chars "  -0x1fz") [0])). apply put_at_in.
  - by repeat constructor.
  - right. by right.
  - apply prefix_hex; [by left|done|by left].
  - repeat constructor; vm_compute; discriminate.
  - done.
  - done.
  - lia.
  - done.
  - by vm_compute.
Defined.

(** ** Sorting *)

(** Two writes behind each other are one. *)
Lemma put_at_app_r a l k m : put_at a l (put_at (a + Z.of_nat (length l)) k m) = put_at a (l ++ k) m.
Proof.
  rewrite put_at_app. apply map_eq. intros j. rewrite !lookup_put_at.
  destruct (Z.leb_spec a j), (Z.ltb_spec j (a + Z.of_nat (length l))),
    (Z.leb_spec (a + Z.of_nat (length l)) j), (Z.ltb_spec j (a + Z.of_nat (length l) + Z.of_nat (length k)));
    cbn [andb]; try done; lia.
Qed.

Section sorting.
Variable cmp : mem → Z → Z → run Z.
Variable tmp : Z.
Variable size : nat.
Variable ord : list Z → list Z → Z.

(** The comparison reads two elements and orders them; its order is total. *)
Definition compares : Prop := ∀ m p q x y,
  bytes_at m p x → bytes_at m q y → length x = size → length y = size → cmp m p q = Done (ord x y).

Definition le (x y : list Z) : Prop := ord x y <= 0.
Definition total_order : Prop := (∀ x y, 0 < ord x y → le y x) ∧ (∀ x y z, le x y → le y z → le x z).

Definition element (x : list Z) : Prop := length x = size ∧ Forall byte x.

(** The elements that the order does not tell from [z]. *)
Definition same (z x : list Z) : bool := (ord x z <=? 0) && (ord z x <=? 0).

Definition slot (a : Z) (i : nat) : Z := a + Z.of_nat i * Z.of_nat size.

Lemma length_elements L : Forall element L → length (concat L) = (length L * size)%nat.
Proof. induction 1 as [|x L [Hx _] _ IH]; cbn [concat length]; [done|]. rewrite length_app. lia. Qed.

Lemma elements_bytes L : Forall element L → Forall byte (concat L).
Proof. induction 1 as [|x L [_ Hx] _ IH]; cbn [concat]; [constructor|]. by apply Forall_app. Qed.

Lemma shift_up_Done m a P x :
  compares → Forall element P → element x → bytes_at m a (concat P) → bytes_at m tmp x →
  mapped m (slot a (length P)) size →
  tmp + Z.of_nat size <= a ∨ slot a (S (length P)) <= tmp →
  ∃ P1 P2, P = P1 ++ P2 ∧ Forall (λ y, 0 < ord y x) P2 ∧ (∀ y, last P1 = Some y → le y x) ∧
    shift_up cmp tmp (length P) a (Z.of_nat size) m =
      Done (Z.of_nat (length P1), put_at (slot a (S (length P1))) (concat P2) m).
Proof.
  intros Hc HP Hx. revert m. induction P as [|y P IH] using rev_ind; intros m Hm Ht Hs Hd.
  { exists [], []. split; [done|]. split; [constructor|]. by split. }
  rewrite length_app, Nat.add_1_r in *. cbn [shift_up].
  apply Forall_app in HP as [HP [Hy _]%Forall_cons]. rewrite concat_app in Hm. cbn [concat] in Hm.
  rewrite app_nil_r in Hm. apply bytes_at_app in Hm as [Hm Hmy]. rewrite (length_elements P HP) in Hmy.
  replace (a + Z.of_nat (length P * size)) with (slot a (length P)) in Hmy by (unfold slot; lia).
  fold (slot a (length P)). fold (slot a (S (length P))).
  rstep (Hc m (slot a (length P)) tmp y x Hmy Ht (proj1 Hy) (proj1 Hx)).
  destruct (Z.ltb_spec 0 (ord y x)) as [Hgt|Hle].
  2: { exists (P ++ [y]), []. rewrite app_nil_r, length_app, Nat.add_1_r. split; [done|]. split; [constructor|].
       split; [|done]. intros z. rewrite last_snoc. by intros [= ->]. }
  assert (memcpy (slot a (S (length P))) (slot a (length P)) (Z.of_nat size) m = Done (put_at (slot a (S (length P))) y m)) as E.
  { rewrite <- (proj1 Hy). apply user_memcpy_Done; [done|apply Hy| |].
    - by rewrite (proj1 Hy).
    - right. left. rewrite (proj1 Hy). unfold slot. lia. }
  rstep E. destruct (IH HP (put_at (slot a (S (length P))) y m)) as (P1 & P2 & -> & HP2 & Hl & E').
  - apply put_at_bytes; [done|]. left. rewrite (length_elements P HP). unfold slot. lia.
  - apply put_at_bytes; [done|]. rewrite (proj1 Hx), (proj1 Hy). unfold slot in *. lia.
  - apply put_at_mapped. apply bytes_at_mapped in Hmy. by rewrite (proj1 Hy) in Hmy.
  - unfold slot in *. lia.
  - exists P1, (P2 ++ [y]). rewrite app_assoc. split; [done|]. split; [apply Forall_app; split; [done|by constructor]|].
    split; [done|]. rewrite E'. do 2 f_equal. apply Forall_app in HP as [_ HP2'].
    rewrite concat_app. cbn [concat]. rewrite app_nil_r, <- put_at_app_r, (length_elements P2 HP2').
    f_equal. rewrite length_app. f_equal. unfold slot. lia.
Qed.

(** Everything before the last element of an ordered list is below it. *)
Lemma sorted_below P1 x :
  total_order → StronglySorted le P1 → (∀ y, last P1 = Some y → le y x) → Forall (λ y, le y x) P1.
Proof.
  intros [_ Htr] Hs Hl. destruct P1 as [|z P1 _] using rev_ind; [constructor|].
  specialize (Hl z (last_snoc _ _)). apply Forall_app. split; [|by constructor].
  apply Forall_forall. intros y Hy. apply (Htr y z x); [|done].
  eapply (StronglySorted_app_1_elem_of le P1 [z]); [done|done|by left].
Qed.

Lemma insert_sorted P1 P2 x :
  total_order → StronglySorted le (P1 ++ P2) → (∀ y, last P1 = Some y → le y x) →
  Forall (λ y, 0 < ord y x) P2 → StronglySorted le (P1 ++ x :: P2).
Proof.
  intros Ho Hs Hl H2. pose proof (StronglySorted_app_1_l _ _ _ Hs) as Hs1.
  pose proof (StronglySorted_app_1_r _ _ _ Hs) as Hs2.
  pose proof (sorted_below P1 x Ho Hs1 Hl) as Hb. destruct Ho as [Htot Htr].
  apply StronglySorted_app_2; [|done|].
  - intros y z Hy [->|Hz]%elem_of_cons; [by apply (proj1 (Forall_forall _ _) Hb)|].
    by eapply (StronglySorted_app_1_elem_of le P1 P2).
  - constructor; [done|]. eapply Forall_impl; [exact H2|]. intros y Hy. by apply Htot.
Qed.

(** Equal elements keep their order. *)
Lemma insert_stable P1 P2 x z :
  total_order → Forall (λ y, 0 < ord y x) P2 →
  filter (λ y, same z y = true) (P1 ++ x :: P2) = filter (λ y, same z y = true) ((P1 ++ P2) ++ [x]).
Proof.
  intros [_ Htr] H2. rewrite <- app_assoc, !filter_app. f_equal. rewrite filter_cons.
  destruct (decide (same z x = true)) as [Hx|Hx].
  - rewrite filter_cons_True by done. cbn. assert (filter (λ y, same z y = true) P2 = []) as ->; [|done].
    induction H2 as [|y P2 Hy H2 IH]; [done|]. rewrite filter_cons_False; [done|].
    unfold same in *. intros E. breflect. assert (le y x); [|unfold le in *; lia]. by apply (Htr y z x).
  - rewrite filter_cons_False by done. by rewrite app_nil_r.
Qed.

(** One round: the element behind the ordered prefix is put in its place. *)
Lemma sort_step m a P x R :
  compares → total_order → Forall element (P ++ x :: R) → StronglySorted le P →
  bytes_at m a (concat (P ++ x :: R)) → mapped m tmp size →
  tmp + Z.of_nat size <= a ∨ slot a (length (P ++ x :: R)) <= tmp →
  ∃ P1 P2 m', P = P1 ++ P2 ∧ StronglySorted le (P1 ++ x :: P2) ∧ Forall (λ y, 0 < ord y x) P2 ∧
    (m ← memcpy tmp (slot a (length P)) (Z.of_nat size) m;
     '(j, m) ← shift_up cmp tmp (length P) a (Z.of_nat size) m;
     memcpy (a + j * Z.of_nat size) tmp (Z.of_nat size) m) = Done m' ∧
    bytes_at m' a (concat ((P1 ++ x :: P2) ++ R)) ∧ mapped m' tmp size ∧
    ∀ k, (k < a ∨ slot a (length (P ++ x :: R)) <= k) → (k < tmp ∨ tmp + Z.of_nat size <= k) → m' !! k = m !! k.
Proof.
  intros Hc Ho He Hs Hm Ht Hd. apply Forall_app in He as [HP [Hx HR]%Forall_cons].
  rewrite concat_app in Hm. apply bytes_at_app in Hm as [HmP Hm]. rewrite (length_elements P HP) in Hm.
  replace (a + Z.of_nat (length P * size)) with (slot a (length P)) in Hm by (unfold slot; lia).
  cbn [concat] in Hm. apply bytes_at_app in Hm as [Hmx HmR]. rewrite (proj1 Hx) in HmR.
  replace (slot a (length P) + Z.of_nat size) with (slot a (S (length P))) in HmR by (unfold slot; lia).
  rewrite length_app in Hd. cbn [length] in Hd. set (m1 := put_at tmp x m).
  assert (memcpy tmp (slot a (length P)) (Z.of_nat size) m = Done m1) as E1.
  { rewrite <- (proj1 Hx). apply user_memcpy_Done; [done|apply Hx|by rewrite (proj1 Hx)|].
    rewrite (proj1 Hx). unfold slot in *. destruct (Nat.eq_0_gt_0_cases size) as [E|]; [|lia].
    right. right. apply length_zero_iff_nil. by rewrite (proj1 Hx). }
  destruct (shift_up_Done m1 a P x Hc HP Hx) as (P1 & P2 & -> & H2 & Hl & E2).
  { apply put_at_bytes; [done|]. rewrite (length_elements P HP), (proj1 Hx). unfold slot in *. lia. }
  { apply put_at_in. }
  { apply put_at_mapped. apply bytes_at_mapped in Hmx. by rewrite (proj1 Hx) in Hmx. }
  { unfold slot in *. lia. }
  pose proof (insert_sorted P1 P2 x Ho Hs Hl H2) as Hs'. apply Forall_app in HP as [HP1 HP2].
  rewrite length_app in *.
  exists P1, P2, (put_at (slot a (length P1)) (x ++ concat P2) m1). split; [done|]. split; [done|]. split; [done|].
  assert (length (x ++ concat P2) = (size + length P2 * size)%nat) as Hlen.
  { rewrite length_app, (length_elements P2 HP2). by rewrite (proj1 Hx). }
  split; [|split; [|split]].
  - rstep E1. rstep E2. fold (slot a (length P1)).
    replace (slot a (S (length P1))) with (slot a (length P1) + Z.of_nat (length x)) by (rewrite (proj1 Hx); unfold slot; lia).
    rewrite <- put_at_app_r. rewrite <- (proj1 Hx). apply user_memcpy_Done; [|apply Hx| |].
    + apply put_at_bytes; [apply put_at_in|]. rewrite (length_elements P2 HP2), (proj1 Hx). unfold slot in *. lia.
    + apply put_at_mapped. unfold m1. apply put_at_mapped. apply bytes_at_mapped in HmP, Hmx.
      rewrite length_app in *. intros i Hi. rewrite (proj1 Hx) in *. destruct P2 as [|y P2].
      * replace (slot a (length P1) + Z.of_nat i) with (slot a (length P1 + 0) + Z.of_nat i) by (unfold slot; lia).
        by apply Hmx.
      * replace (slot a (length P1) + Z.of_nat i) with (a + Z.of_nat (length P1 * size + i)) by (unfold slot; lia).
        apply HmP. rewrite concat_app, length_app, !length_elements by done. cbn [length]. nia.
    + rewrite (proj1 Hx). unfold slot in *. destruct (Nat.eq_0_gt_0_cases size) as [E|]; [|nia].
      right. right. apply length_zero_iff_nil. by rewrite (proj1 Hx).
  - rewrite <- app_assoc, concat_app. cbn [app concat]. rewrite concat_app, (app_assoc x). apply bytes_at_app. split.
    + rewrite concat_app in HmP. apply bytes_at_app in HmP as [HmP _].
      apply put_at_bytes; [|left; rewrite (length_elements P1 HP1); unfold slot; lia].
      apply put_at_bytes; [done|]. rewrite (length_elements P1 HP1), (proj1 Hx). unfold slot in *. nia.
    + rewrite (length_elements P1 HP1). replace (a + Z.of_nat (length P1 * size)) with (slot a (length P1)) by (unfold slot; lia).
      apply bytes_at_app. split; [apply put_at_in|]. rewrite Hlen.
      replace (slot a (length P1) + Z.of_nat (size + length P2 * size)) with (slot a (S (length P1 + length P2))) by (unfold slot; lia).
      apply put_at_bytes; [|right; rewrite Hlen; unfold slot; lia].
      apply put_at_bytes; [done|]. rewrite (length_elements R HR), (proj1 Hx). unfold slot in *. nia.
  - apply put_at_mapped. by apply put_at_mapped.
  - intros k Hk1 Hk2. rewrite ?length_app in Hk1. cbn [length] in Hk1. rewrite put_at_out by (rewrite Hlen; unfold slot in *; nia).
    apply put_at_out. rewrite (proj1 Hx). lia.
Qed.

Lemma sort_loop_Done m a P R :
  compares → total_order → Forall element (P ++ R) → StronglySorted le P →
  bytes_at m a (concat (P ++ R)) → mapped m tmp size →
  tmp + Z.of_nat size <= a ∨ slot a (length (P ++ R)) <= tmp →
  ∃ m' L', sort_loop cmp tmp (length R) (length P) a (Z.of_nat size) m = Done m' ∧
    bytes_at m' a (concat L') ∧ L' ≡ₚ P ++ R ∧ StronglySorted le L' ∧
    (∀ z, filter (λ y, same z y = true) L' = filter (λ y, same z y = true) (P ++ R)) ∧
    ∀ k, (k < a ∨ slot a (length (P ++ R)) <= k) → (k < tmp ∨ tmp + Z.of_nat size <= k) → m' !! k = m !! k.
Proof.
  intros Hc Ho. revert m P. induction R as [|x R IH]; intros m P He Hs Hm Ht Hd.
  { exists m, P. rewrite app_nil_r in *. by repeat split. }
  destruct (sort_step m a P x R Hc Ho He Hs Hm Ht Hd) as (P1 & P2 & m1 & -> & Hs1 & H2 & E & Hm1 & Ht1 & Hk1).
  assert ((P1 ++ x :: P2) ++ R ≡ₚ (P1 ++ P2) ++ x :: R) as Hperm.
  { rewrite <- !app_assoc. apply Permutation_app_head. cbn [app]. apply Permutation_middle. }
  assert (length ((P1 ++ x :: P2) ++ R) = length ((P1 ++ P2) ++ x :: R)) as Hlen by (by apply Permutation_length).
  destruct (IH m1 (P1 ++ x :: P2)) as (m' & L' & E' & Hm' & Hp' & Hs' & Hf' & Hk').
  - by rewrite Hperm.
  - done.
  - done.
  - done.
  - by rewrite Hlen.
  - exists m', L'. cbn [sort_loop length]. fold (slot a (length (P1 ++ P2))). split.
    + apply bind_Done in E as (ma & E1 & E). apply bind_Done in E as ([j mb] & E2 & E).
      rstep E1. rstep E2. rstep E. rewrite <- E'. f_equal. rewrite !length_app. cbn [length]. lia.
    + split; [done|]. split; [by rewrite Hp'|]. split; [done|]. split.
      * intros z. rewrite Hf', !filter_app, <- filter_app, (insert_stable P1 P2 x z Ho H2), !filter_app, filter_cons.
        rewrite <- !app_assoc. do 2 f_equal. rewrite filter_cons. by destruct (decide _).
      * intros k Ha Hb. rewrite Hk' by (by rewrite ?Hlen). by apply Hk1.
Qed.

(** C27: [qsort] orders the array by the comparison it is given: the result is a permutation of the elements,
    ascending, in which elements that compare equal keep their order; memory outside of the array and of the
    temporary element is unchanged. *)
Theorem qsort_sorts m a L :
  compares → total_order → Forall element L → bytes_at m a (concat L) → mapped m tmp size →
  (size <= 256)%nat → tmp + Z.of_nat size <= a ∨ slot a (length L) <= tmp →
  ∃ m' L', qsort cmp tmp a (Z.of_nat (length L)) (Z.of_nat size) m = Done m' ∧
    bytes_at m' a (concat L') ∧ L' ≡ₚ L ∧ StronglySorted le L' ∧
    (∀ z, filter (λ y, same z y = true) L' = filter (λ y, same z y = true) L) ∧
    ∀ k, (k < a ∨ slot a (length L) <= k) → (k < tmp ∨ tmp + Z.of_nat size <= k) → m' !! k = m !! k.
Proof.
  intros Hc Ho He Hm Ht Hsz Hd. unfold qsort. rewrite (proj2 (Z.ltb_ge 256 _)) by lia.
  destruct L as [|x L].
  { exists m, []. repeat split; try done. constructor. }
  replace (Z.to_nat (Z.of_nat (length (x :: L)) - 1)) with (length L) by (cbn [length]; lia).
  apply (sort_loop_Done m a [x] L Hc Ho He); [by repeat constructor|done..].
Qed.
End sorting.

(** An array of single bytes, in the order of their upper halves. *)
Definition demo_cmp (m : mem) (p q : Z) : run Z := x ← ldb m p; y ← ldb m q; Done (x / 16 - y / 16).
Definition demo_ord (x y : list Z) : Z := hd 0 x / 16 - hd 0 y / 16.
Definition demo_array : mem := put_at 100 [0x52; 0x31; 0x50; 0x12; 0x33] (put_at 200 [0] ∅).

Lemma demo_compares : compares demo_cmp 1 demo_ord.
Proof.
  intros m p q [|x []] [|y []] Hx Hy Ex Ey; try done. unfold demo_cmp.
  apply bytes_at_cons in Hx as [Hx _]. apply bytes_at_cons in Hy as [Hy _].
  by rstep (ldb_Some _ _ _ Hx); rstep (ldb_Some _ _ _ Hy).
Qed.

Lemma qsort_sorts_witness :
  ∃ m' L', qsort demo_cmp 200 100 5 1 demo_array = Done m' ∧
    bytes_at m' 100 (concat L') ∧ L' ≡ₚ [[0x52]; [0x31]; [0x50]; [0x12]; [0x33]] ∧ StronglySorted (le demo_ord) L' ∧
    (∀ z, filter (λ y, same demo_ord z y = true) L' =
          filter (λ y, same demo_ord z y = true) [[0x52]; [0x31]; [0x50]; [0x12]; [0x33]]) ∧
    ∀ k, (k < 100 ∨ slot 1 100 5 <= k) → (k < 200 ∨ 200 + Z.of_nat 1 <= k) → m' !! k = demo_array !! k.
Proof.
  apply (qsort_sorts demo_cmp 200 1 demo_ord demo_array 100 [[0x52]; [0x31]; [0x50]; [0x12]; [0x33]]).
  - apply demo_compares.
  - unfold total_order, le, demo_ord. split; lia.
  - repeat constructor; unfold byte; lia.
  - apply put_at_in.
  - apply put_at_mapped. intros i Hi. exists 0. by assert (i = 0%nat) as -> by lia.
  - lia.
  - right. unfold slot. cbn. lia.
Defined.

(** ** Random numbers and exit *)

(** C-level bounds of [rand]. *)
Theorem rand_range g : 0 <= g < 2 ^ 64 → ∃ r g', rand g = Done (r, g') ∧ 0 <= r <= RAND_MAX ∧ 0 <= g' < 2 ^ 64.
Proof.
  intros Hg. eexists _, _. split; [reflexivity|]. split; [|apply wrap_range; lia].
  change RAND_MAX with (Z.ones 31). rewrite Z.land_ones by lia.
  pose proof (Z.mod_pos_bound (Z.shiftr (u64 (u64 (g * 1103515245) + 12345)) 16) (2 ^ 31) ltac:(lia)).
  rewrite swrap_small by lia. change (Z.ones 31) with (2 ^ 31 - 1). lia.
Qed.

(** The functions that were registered run in the reverse order, when they register none themselves. *)
Theorem exit_reverses {W} (call : Z → st (list Z * W) unit) (_exit : Z → st W unit) (f : Z → W → W) fns w code :
  (∀ fn l w, call fn (l, w) = Done (tt, (l, f fn w))) →
  exit call _exit code (fns, w) = on_world (_exit code) (fns, foldr f w fns).
Proof.
  intros Hcall. assert (∀ l1 l2, run_atexit call (length l1) (l1 ++ l2, w) = Done (tt, (l1 ++ l2, foldr f w l1))) as Hrun.
  { intros l1. revert w. induction l1 as [|x l1 IH] using rev_ind; intros w' l2; [done|].
    rewrite length_app, Nat.add_1_r. cbn [run_atexit]. unfold mbind, st_bind, st_get, st_run. cbn [fst snd].
    rewrite <- app_assoc. cbn [app]. rewrite list_lookup_middle by done. cbn [access]. rewrite Hcall.
    rewrite (IH (f x w') (x :: l2)). by rewrite foldr_app. }
  unfold exit, mbind, st_bind, st_get. cbn [fst]. pose proof (Hrun fns []) as E. rewrite app_nil_r in E. by rewrite E.
Qed.
