(* ===== verification/UHeap.v ===== *)
(** * The heap of user space (userspace/lib/stdlib.c and strdup of userspace/lib/string.c)

    A static arena cut into blocks, each behind a header, on a list in the order of
    their addresses. The headers are a table indexed by their addresses and the
    bytes of the program a memory: a header is never inside of a payload, which is
    part of the invariant. The address of the arena is a parameter. *)

From S2P Require Import Prelude Helpers CString UString.

Local Open Scope Z_scope.

Definition HEAP_SIZE : Z := 16 * 1024 * 1024.

Record block := Block { b_size : Z; b_next : option Z; b_free : Z }.

Definition ALIGN_UP (n a : Z) : Z := Z.land (u64 (n + a - 1)) (u64 (Z.lnot (a - 1))).

(** [ALIGN_UP(sizeof(block_t), 16)]: a size, a pointer and an [int]. *)
Definition HDR : Z := 32.

Record arena := Arena { g_first : option Z; blocks : gmap Z block }.

Definition set_first (p : option Z) (h : arena) : arena := Arena p (blocks h).
Definition set_blocks (b : gmap Z block) (h : arena) : arena := Arena (g_first h) b.
Definition b_set_size (x : Z) (b : block) : block := Block x (b_next b) (b_free b).
Definition b_set_next (x : option Z) (b : block) : block := Block (b_size b) x (b_free b).
Definition b_set_free (x : Z) (b : block) : block := Block (b_size b) (b_next b) x.

Definition get_block (a : Z) : st arena block := λ h,
  match blocks h !! a with Some b => Done (b, h) | None => Stop Fault end.

Definition upd_block (a : Z) (f : block → block) : st arena unit :=
  b ← get_block a; st_modify (λ h, set_blocks (<[a := f b]> (blocks h)) h).

(** A header written where there was none. *)
Definition new_block (a : Z) (b : block) : st arena unit :=
  st_modify (λ h, set_blocks (<[a := b]> (blocks h)) h).

(** A walk along the list meets every header at most once. *)
Definition list_fuel (h : arena) : nat := S (size (blocks h)).

Definition block_of (ptr : Z) : Z := ptr - HDR.

Section heap.
Variable g_heap : Z.

Definition heap_init : st arena unit :=
  _ ← st_modify (set_first (Some g_heap));
  new_block g_heap (Block (HEAP_SIZE - HDR) None 1).

Fixpoint malloc_loop (fuel : nat) (b : option Z) (want : Z) : st arena (option Z) :=
  match fuel, b with
  | _, None => mret None
  | O, _ => st_stop Diverge
  | S fuel, Some b =>
      x ← get_block b;
      if (b_free x =? 0) || (b_size x <? want) then malloc_loop fuel (b_next x) want
      else
        _ ← (if u64 (u64 (want + HDR) + 16) <=? b_size x then
               let nb := b + HDR + want in
               _ ← new_block nb (Block (u64 (u64 (b_size x - want) - HDR)) (b_next x) 1);
               upd_block b (λ x, b_set_next (Some nb) (b_set_size want x))
             else mret tt);
        _ ← upd_block b (b_set_free 0);
        mret (Some (b + HDR))
  end.

Definition malloc (want : Z) : st arena (option Z) :=
  let want := if want =? 0 then 1 else want in
  let want := ALIGN_UP want 16 in
  h ← st_get;
  _ ← (if bool_decide (g_first h = None) then heap_init else mret tt);
  h ← st_get;
  malloc_loop (list_fuel h) (g_first h) want.

(** [while (b->next && b->next->free)] *)
Fixpoint merge_next (fuel : nat) (b : Z) : st arena unit :=
  match fuel with
  | O => st_stop Diverge
  | S fuel =>
      x ← get_block b;
      match b_next x with
      | None => mret tt
      | Some n =>
          y ← get_block n;
          if b_free y =? 0 then mret tt
          else
            _ ← upd_block b (λ x, b_set_next (b_next y) (b_set_size (u64 (b_size x + u64 (HDR + b_size y))) x));
            merge_next fuel b
      end
  end.

(** [while (p && p->next != b) p = p->next;] *)
Fixpoint find_prev (fuel : nat) (p : option Z) (b : Z) : st arena (option Z) :=
  match fuel, p with
  | _, None => mret None
  | O, _ => st_stop Diverge
  | S fuel, Some p =>
      x ← get_block p;
      if bool_decide (b_next x = Some b) then mret (Some p) else find_prev fuel (b_next x) b
  end.

Definition free (ptr : option Z) : st arena unit :=
  match ptr with
  | None => mret tt
  | Some ptr =>
      let b := block_of ptr in
      _ ← upd_block b (b_set_free 1);
      h ← st_get;
      _ ← merge_next (list_fuel h) b;
      h ← st_get;
      if bool_decide (g_first h = Some b) then mret tt
      else
        p ← find_prev (list_fuel h) (g_first h) b;
        match p with
        | None => mret tt
        | Some p =>
            x ← get_block p;
            if b_free x =? 0 then mret tt
            else
              y ← get_block b;
              upd_block p (λ x, b_set_next (b_next y) (b_set_size (u64 (b_size x + u64 (HDR + b_size y))) x))
        end
  end.

(** ** Over the memory of the program *)

Definition on_heap {A} (m : st arena A) : st (arena * mem) A := λ s,
  match m (fst s) with Done (a, h) => Done (a, (h, snd s)) | Stop e => Stop e end.
Definition on_bytes (f : mem → run mem) : st (arena * mem) unit := λ s,
  match f (snd s) with Done m => Done (tt, (fst s, m)) | Stop e => Stop e end.

Definition calloc (n size : Z) : st (arena * mem) (option Z) :=
  let total := u64 (n * size) in
  if negb (size =? 0) && negb (total / size =? n) then mret None
  else
    p ← on_heap (malloc total);
    match p with
    | Some a => _ ← on_bytes (memset a 0 total); mret p
    | None => mret p
    end.

Definition realloc (ptr : option Z) (size : Z) : st (arena * mem) (option Z) :=
  match ptr with
  | None => on_heap (malloc size)
  | Some a =>
      if size =? 0 then _ ← on_heap (free ptr); mret None
      else
        x ← on_heap (get_block (block_of a));
        if ALIGN_UP size 16 <=? b_size x then mret ptr
        else
          np ← on_heap (malloc size);
          match np with
          | None => mret None
          | Some d => _ ← on_bytes (memcpy d a (b_size x)); _ ← on_heap (free ptr); mret np
          end
  end.

Definition strdup (s : Z) : st (arena * mem) (option Z) :=
  m ← st_get;
  len ← st_run (strlen (snd m) s);
  let n := u64 (len + 1) in
  p ← on_heap (malloc n);
  match p with
  | Some a => _ ← on_bytes (memcpy a s n); mret p
  | None => mret p
  end.
End heap.

(** ** The arena as a list of segments *)

Record seg := Seg { sg_size : Z; sg_free : bool }.

Definition flag (b : bool) : Z := if b then 1 else 0.

Fixpoint span (L : list seg) : Z :=
  match L with [] => 0 | s :: L => HDR + sg_size s + span L end.

(** The headers from [p], at address [a], to [q], at address [z]. *)
Fixpoint lseg (m : gmap Z block) (p : option Z) (a : Z) (L : list seg) (q : option Z) (z : Z) : Prop :=
  match L with
  | [] => p = q ∧ a = z
  | s :: L =>
      p = Some a ∧ 0 <= sg_size s ∧ sg_size s mod 16 = 0 ∧
      ∃ n, m !! a = Some (Block (sg_size s) n (flag (sg_free s))) ∧ lseg m n (a + HDR + sg_size s) L q z
  end.

Fixpoint coalesced (L : list seg) : Prop :=
  match L with
  | [] => True
  | s :: L => match L with t :: _ => sg_free s && sg_free t = false | [] => True end ∧ coalesced L
  end.

(** Adjacent free segments made one. *)
Definition merge (s : seg) (L : list seg) : list seg :=
  match L with
  | t :: L' => if sg_free s && sg_free t then Seg (sg_size s + HDR + sg_size t) true :: L' else s :: L
  | [] => [s]
  end.

Fixpoint coalesce (L : list seg) : list seg :=
  match L with [] => [] | s :: L => merge s (coalesce L) end.

(** The first free segment that is large enough, cut when the rest can be a block. *)
Definition carve (want : Z) (s : seg) (L : list seg) : list seg :=
  if want + HDR + 16 <=? sg_size s
  then Seg want false :: Seg (sg_size s - want - HDR) true :: L
  else Seg (sg_size s) false :: L.

Fixpoint first_fit (want a : Z) (L : list seg) : option (Z * list seg) :=
  match L with
  | [] => None
  | s :: L =>
      if sg_free s && (want <=? sg_size s) then Some (a + HDR, carve want s L)
      else
        match first_fit want (a + HDR + sg_size s) L with
        | Some (r, L') => Some (r, s :: L')
        | None => None
        end
  end.

(** The payloads that are in use. *)
Fixpoint live (a : Z) (L : list seg) : list (Z * Z) :=
  match L with
  | [] => []
  | s :: L =>
      let rest := live (a + HDR + sg_size s) L in
      if sg_free s then rest else (a + HDR, sg_size s) :: rest
  end.

(** ** Lemmas on segments *)

Lemma span_app L K : span (L ++ K) = span L + span K.
Proof. induction L as [|s L IH]; cbn [app span]; lia. Qed.

Lemma lseg_app m p a L K q z :
  lseg m p a (L ++ K) q z ↔ ∃ r, lseg m p a L r (a + span L) ∧ lseg m r (a + span L) K q z.
Proof.
  revert p a. induction L as [|s L IH]; intros p a; cbn [app lseg span].
  - rewrite Z.add_0_r. split; [intros H; by exists p|]. by intros (r & [-> _] & H).
  - split.
    + intros (-> & Hs & Hm & n & Hn & (r & H1 & H2)%IH). exists r.
      rewrite Z.add_assoc in *. replace (a + (HDR + sg_size s) + span L) with (a + HDR + sg_size s + span L) by lia.
      split; [|done]. split; [done|]. split; [done|]. split; [done|]. by exists n.
    + intros (r & (-> & Hs & Hm & n & Hn & H1) & H2).
      replace (a + (HDR + sg_size s + span L)) with (a + HDR + sg_size s + span L) in * by lia.
      split; [done|]. split; [done|]. split; [done|]. exists n. split; [done|]. apply IH. by exists r.
Qed.

Lemma lseg_span m p a L q z : lseg m p a L q z → z = a + span L ∧ 0 <= span L.
Proof.
  revert p a. induction L as [|s L IH]; intros p a; cbn [lseg span].
  - intros [_ ->]. lia.
  - intros (_ & Hs & _ & n & _ & [-> Hp]%IH). unfold HDR in *. lia.
Qed.

(** Headers elsewhere do not matter. *)
Lemma lseg_frame m m' p a L q z :
  lseg m p a L q z → (∀ k, a <= k < z → m' !! k = m !! k) → lseg m' p a L q z.
Proof.
  revert p a. induction L as [|s L IH]; intros p a; cbn [lseg]; [done|].
  intros (-> & Hs & Hm & n & Hn & HL) Hk. pose proof (lseg_span _ _ _ _ _ _ HL) as [Hz Hp]. unfold HDR in *.
  split; [done|]. split; [done|]. split; [done|]. exists n. split; [rewrite Hk; [done|lia]|].
  apply IH; [done|]. intros k ?. apply Hk. lia.
Qed.

(** Every header of the list is in the table, so a walk ends. *)
Fixpoint addrs (a : Z) (L : list seg) : list Z :=
  match L with [] => [] | s :: L => a :: addrs (a + HDR + sg_size s) L end.

Lemma addrs_ge m p a L q z k : lseg m p a L q z → k ∈ addrs a L → a <= k ∧ is_Some (m !! k).
Proof.
  revert p a. induction L as [|s L IH]; intros p a; cbn [lseg addrs]; [by intros _ ?%not_elem_of_nil|].
  intros (-> & Hs & Hm & n & Hn & HL) Hk. unfold HDR in *. apply elem_of_cons in Hk as [->|Hk].
  - split; [lia|by eexists].
  - destruct (IH _ _ HL Hk). split; [lia|done].
Qed.

Lemma lseg_length m p a L q z : lseg m p a L q z → (length L <= size m)%nat.
Proof.
  intros H. assert (NoDup (addrs a L)) as Hnd.
  { revert p a H. induction L as [|s L IH]; intros p a; cbn [lseg addrs]; [constructor|].
    intros (-> & Hs & Hm & n & Hn & HL). constructor; [|by eapply IH].
    intros Hk. destruct (addrs_ge _ _ _ _ _ _ _ HL Hk). unfold HDR in *. lia. }
  assert (length (addrs a L) = length L) as <- by (clear; revert a; induction L; intros a'; cbn; auto).
  rewrite <- (size_list_to_set (C := gset Z) _ Hnd), <- (size_dom (D := gset Z) m).
  apply subseteq_size. intros k Hk%elem_of_list_to_set. apply elem_of_dom.
  by destruct (addrs_ge _ _ _ _ _ _ _ H Hk).
Qed.

Lemma merge_coalesced s L : coalesced L → coalesced (merge s L).
Proof.
  destruct L as [|t L]; cbn; [done|]. intros [Ht HL].
  destruct (sg_free s && sg_free t) eqn:E; [|by split].
  destruct L as [|u L]; cbn; [done|]. apply andb_true_iff in E as [_ E]. by rewrite E in Ht.
Qed.

Lemma coalesce_coalesced L : coalesced (coalesce L).
Proof. induction L as [|s L IH]; cbn [coalesce]; [done|]. by apply merge_coalesced. Qed.

Lemma coalesce_id L : coalesced L → coalesce L = L.
Proof.
  induction L as [|s L IH]; cbn [coalesce coalesced]; [done|]. intros [Hs HL]. rewrite (IH HL).
  destruct L as [|t L]; cbn [merge]; [done|]. by rewrite Hs.
Qed.

Lemma coalesce_app pre L : coalesce (pre ++ L) = coalesce (pre ++ coalesce L).
Proof.
  induction pre as [|s pre IH]; cbn [app coalesce]; [|by rewrite IH].
  symmetry. apply coalesce_id, coalesce_coalesced.
Qed.

Lemma coalesced_app pre L : coalesced (pre ++ L) → coalesced pre ∧ coalesced L.
Proof.
  induction pre as [|s pre IH]; cbn [app coalesced]; [done|]. intros [Hs (Hp & HL)%IH].
  split; [|done]. split; [|done]. by destruct pre.
Qed.

Lemma live_merge a s L : live a (merge s L) = live a (s :: L).
Proof.
  destruct L as [|t L]; cbn [merge]; [done|].
  destruct (sg_free s && sg_free t) eqn:E; [|done]. apply andb_true_iff in E as [Es Et].
  cbn [live sg_free sg_size]. rewrite Es, Et. f_equal. lia.
Qed.

(** Merging free space leaves the payloads in use. *)
Lemma live_coalesce a L : live a (coalesce L) = live a L.
Proof.
  revert a. induction L as [|s L IH]; intros a; cbn [coalesce]; [done|].
  rewrite live_merge. cbn [live]. by rewrite IH.
Qed.

Lemma live_app a L K : live a (L ++ K) = live a L ++ live (a + span L) K.
Proof.
  revert a. induction L as [|s L IH]; intros a; cbn [app live span]; [by rewrite Z.add_0_r|].
  rewrite IH. replace (a + HDR + sg_size s + span L) with (a + (HDR + sg_size s + span L)) by lia.
  by destruct (sg_free s).
Qed.

(** ** Lemmas on headers *)

Lemma get_block_Done a b h : blocks h !! a = Some b → get_block a h = Done (b, h).
Proof. unfold get_block. by intros ->. Qed.

Lemma upd_block_Done a f b h :
  blocks h !! a = Some b → upd_block a f h = Done (tt, set_blocks (<[a := f b]> (blocks h)) h).
Proof. intros E. unfold upd_block, mbind, st_bind. by rewrite (get_block_Done a b h E). Qed.

Ltac sstep E := unfold mbind at 1, st_bind at 1; rewrite E; cbn beta iota.

(** The header at [a] becomes used, and the rest of a split block one of its own. *)
Lemma carve_Done want a s n h L z :
  blocks h !! a = Some (Block (sg_size s) n 1) → lseg (blocks h) n (a + HDR + sg_size s) L None z →
  0 <= a → z < 2 ^ 63 → 0 <= want → want mod 16 = 0 → want <= sg_size s → sg_size s mod 16 = 0 →
  ∃ h',
    (_ ← (if u64 (u64 (want + HDR) + 16) <=? sg_size s then
            let nb := a + HDR + want in
            _ ← new_block nb (Block (u64 (u64 (sg_size s - want) - HDR)) n 1);
            upd_block a (λ x, b_set_next (Some nb) (b_set_size want x))
          else mret tt);
     _ ← upd_block a (b_set_free 0);
     mret (Some (a + HDR))) h = Done (Some (a + HDR), h') ∧
    g_first h' = g_first h ∧ lseg (blocks h') (Some a) a (carve want s L) None z ∧
    ∀ k, k < a → blocks h' !! k = blocks h !! k.
Proof.
  intros Ha HL Ha0 Hz Hw Hw16 Hws Hs16. pose proof (lseg_span _ _ _ _ _ _ HL) as [Hz' Hp].
  unfold carve. unfold HDR in *. rewrite (wrap_small 64 (want + 32)) by lia.
  rewrite (wrap_small 64 (want + 32 + 16)) by lia. destruct (Z.leb_spec (want + 32 + 16) (sg_size s)) as [Hc|Hc].
  - eexists. split; [|split; [|split]].
    + unfold mbind, st_bind, new_block, st_modify. cbn beta iota.
      erewrite upd_block_Done by (cbn [blocks set_blocks]; rewrite lookup_insert_ne by lia; exact Ha). cbn beta iota.
      erewrite upd_block_Done by (cbn [blocks set_blocks]; apply lookup_insert_eq). reflexivity.
    + done.
    + cbn [blocks set_blocks lseg sg_size sg_free flag b_set_free b_set_next b_set_size b_size b_next b_free].
      rewrite !insert_insert_eq. unfold HDR. split; [done|]. split; [lia|]. split; [done|].
      eexists. split; [apply lookup_insert_eq|]. split; [done|]. split; [lia|].
      split; [Z.to_euclidean_division_equations; lia|]. exists n. split.
      { rewrite lookup_insert_ne, lookup_insert_eq by lia.
        rewrite (wrap_small 64 (sg_size s - want)) by lia.
        by rewrite (wrap_small 64 (sg_size s - want - 32)) by lia. }
      replace (a + 32 + want + 32 + (sg_size s - want - 32)) with (a + 32 + sg_size s) by lia.
      eapply lseg_frame; [exact HL|]. intros k Hk. by rewrite !lookup_insert_ne by lia.
    + intros k Hk. cbn [blocks set_blocks]. by rewrite !lookup_insert_ne by lia.
  - eexists. split; [|split; [|split]].
    + unfold mbind, st_bind, mret, st_ret. cbn beta iota.
      erewrite upd_block_Done by exact Ha. reflexivity.
    + done.
    + cbn [blocks set_blocks lseg sg_size sg_free flag b_set_free b_size b_next b_free].
      unfold HDR. split; [done|]. split; [lia|]. split; [done|]. eexists. split; [apply lookup_insert_eq|].
      eapply lseg_frame; [exact HL|]. intros k Hk. by rewrite lookup_insert_ne by lia.
    + intros k Hk. cbn [blocks set_blocks]. by rewrite lookup_insert_ne by lia.
Qed.

Lemma malloc_loop_skip fuel want a x h :
  blocks h !! a = Some x → (b_free x =? 0) || (b_size x <? want) = true →
  malloc_loop (S fuel) (Some a) want h = malloc_loop fuel (b_next x) want h.
Proof. intros Hx E. cbn [malloc_loop]. sstep (get_block_Done _ _ _ Hx). by rewrite E. Qed.

Lemma malloc_loop_Done want fuel h p a L z :
  lseg (blocks h) p a L None z → 0 <= a → z < 2 ^ 63 → 0 <= want → want mod 16 = 0 → (length L <= fuel)%nat →
  match first_fit want a L with
  | None => malloc_loop fuel p want h = Done (None, h)
  | Some (r, L') =>
      ∃ h', malloc_loop fuel p want h = Done (Some r, h') ∧ g_first h' = g_first h ∧
            lseg (blocks h') p a L' None z ∧ ∀ k, k < a → blocks h' !! k = blocks h !! k
  end.
Proof.
  intros HL Ha Hz Hw Hw16. revert fuel p a HL Ha.
  induction L as [|s L IH]; intros fuel p a HL Ha Hf; cbn [first_fit].
  - destruct HL as [-> _]. by destruct fuel.
  - destruct HL as (-> & Hs & Hs16 & n & Hn & HL). cbn [length] in Hf.
    destruct fuel as [|fuel]; [lia|]. pose proof (lseg_span _ _ _ _ _ _ HL) as [Hz' Hp].
    destruct (sg_free s && (want <=? sg_size s)) eqn:Efit.
    + apply andb_true_iff in Efit as [Efree Hle%Z.leb_le]. cbn [malloc_loop]. cbv zeta.
      destruct (carve_Done want a s n h L z) as (h' & E & Hfst & HL' & Hk); [|exact HL|lia..|].
      { rewrite Hn, Efree. done. }
      exists h'. split; [|done]. sstep (get_block_Done _ _ _ Hn). cbn [b_free b_size b_next].
      rewrite Efree, (proj2 (Z.ltb_ge _ _)) by lia. exact E.
    + rewrite (malloc_loop_skip fuel want a _ h Hn).
      2: { cbn [b_free b_size]. destruct (sg_free s); cbn [flag andb] in *; [|done].
           apply Z.leb_gt in Efit. by rewrite (proj2 (Z.ltb_lt _ _)) by lia. }
      specialize (IH fuel n (a + HDR + sg_size s) HL). unfold HDR in *.
      specialize (IH ltac:(lia) ltac:(lia)).
      destruct (first_fit want (a + 32 + sg_size s) L) as [[r L']|]; [|exact IH].
      destruct IH as (h' & E & Hfst & HL' & Hk). exists h'. split; [exact E|]. split; [done|]. split.
      { split; [done|]. split; [done|]. split; [done|]. exists n. rewrite Hk by lia. by split. }
      intros k ?. apply Hk. lia.
Qed.

(** ** What the reference allocator does *)

Lemma first_fit_split want a L r L' :
  first_fit want a L = Some (r, L') →
  ∃ pre s post, L = pre ++ s :: post ∧ sg_free s = true ∧ want <= sg_size s ∧ r = a + span pre + HDR ∧
    L' = pre ++ carve want s post ∧ Forall (λ t, sg_free t = true → sg_size t < want) pre.
Proof.
  revert a L'. induction L as [|s L IH]; intros a L'; cbn [first_fit]; [done|].
  destruct (sg_free s && (want <=? sg_size s)) eqn:E.
  - apply andb_true_iff in E as [Ef Ew%Z.leb_le]. intros [= <- <-]. exists [], s, L. cbn [app span].
    rewrite Z.add_0_r. done.
  - destruct (first_fit want (a + HDR + sg_size s) L) as [[r0 K]|] eqn:EK; [|done]. intros [= -> <-].
    destruct (IH _ _ EK) as (pre & t & post & -> & Ht & Hw & -> & -> & Hpre).
    exists (s :: pre), t, post. cbn [app span]. split; [done|]. split; [done|]. split; [done|].
    split; [lia|]. split; [done|]. constructor; [|done]. intros Ef. rewrite Ef in E. cbn [andb] in E. lia.
Qed.

Lemma first_fit_None want a L :
  first_fit want a L = None → Forall (λ t, sg_free t = true → sg_size t < want) L.
Proof.
  revert a. induction L as [|s L IH]; intros a; cbn [first_fit]; [constructor|].
  destruct (sg_free s && (want <=? sg_size s)) eqn:E; [done|].
  destruct (first_fit want (a + HDR + sg_size s) L) as [[r0 K]|] eqn:EK; [done|]. intros _.
  constructor; [|by eapply IH]. intros Ef. rewrite Ef in E. cbn [andb] in E. lia.
Qed.

(** What a cut segment has in use. *)
Definition carved (want : Z) (s : seg) : Z :=
  if want + HDR + 16 <=? sg_size s then want else sg_size s.

Lemma live_carve want a s L :
  sg_free s = true → live a (carve want s L) = (a + HDR, carved want s) :: live a (s :: L).
Proof.
  intros Ef. unfold carve, carved. cbn [live]. rewrite Ef.
  destruct (want + HDR + 16 <=? sg_size s); cbn [live sg_free sg_size]; [|done].
  do 2 f_equal. lia.
Qed.

Lemma carve_coalesced want pre s post :
  coalesced (pre ++ s :: post) → sg_free s = true → coalesced (pre ++ carve want s post).
Proof.
  intros Hc Ef. induction pre as [|t pre IH]; cbn [app] in *.
  - destruct Hc as [Hs Hp]. unfold carve. destruct (want + HDR + 16 <=? sg_size s); cbn [coalesced sg_free andb].
    + split; [done|]. split; [|done]. destruct post; [done|]. by rewrite Ef in Hs.
    + split; [by destruct post|done].
  - destruct Hc as [Ht Hc]. split; [|by apply IH]. destruct pre; [|done]. cbn [app].
    unfold carve. destruct (want + HDR + 16 <=? sg_size s); cbn; apply andb_false_r.
Qed.

(** A block that is released where it was cut is the segment it was cut from. *)
Lemma coalesce_carve want pre s post :
  coalesced (pre ++ s :: post) → sg_free s = true → 0 <= want →
  coalesce (pre ++ match carve want s post with t :: K => Seg (sg_size t) true :: K | [] => [] end) = pre ++ s :: post.
Proof.
  intros Hc Ef Hw. rewrite coalesce_app. pose proof (coalesced_app _ _ Hc) as [_ Hs].
  assert (coalesce match carve want s post with t :: K => Seg (sg_size t) true :: K | [] => [] end = s :: post) as ->.
  { destruct Hs as [Hs Hp]. unfold carve. destruct (want + HDR + 16 <=? sg_size s) eqn:E; cbn [coalesce sg_size].
    - rewrite (coalesce_id _ Hp). destruct post as [|t post]; cbn [merge sg_free sg_size andb].
      + f_equal. destruct s as [n f]; cbn [sg_size sg_free] in *. subst f. f_equal. lia.
      + rewrite Ef in Hs. cbn [andb] in Hs. rewrite Hs. cbn [merge sg_free sg_size andb].
        destruct s as [n f]; cbn [sg_size sg_free] in *. subst f. replace (want + HDR + (n - want - HDR)) with n by lia. done.
    - rewrite (coalesce_id _ Hp). destruct s as [n f]. cbn [sg_size sg_free] in *. subst f.
      destruct post as [|t post]; cbn [merge sg_free andb]; [done|]. cbn [andb] in Hs. by rewrite Hs. }
  by apply coalesce_id.
Qed.

Lemma ALIGN_UP_16 n : 0 <= n → ALIGN_UP n 16 = u64 (n + 15) - u64 (n + 15) mod 16.
Proof.
  intros Hn. unfold ALIGN_UP. replace (n + 16 - 1) with (n + 15) by lia.
  rewrite (land_wrap _ _ 64); [|lia|apply wrap_range; lia].
  exact (land_lnot_ones (u64 (n + 15)) 4 ltac:(lia)).
Qed.

Lemma ALIGN_UP_spec n :
  0 <= n < 2 ^ 64 → 0 <= ALIGN_UP n 16 < 2 ^ 64 ∧ ALIGN_UP n 16 mod 16 = 0 ∧
  (n <= 2 ^ 64 - 16 → n <= ALIGN_UP n 16 < n + 16) ∧ (2 ^ 64 - 16 < n → ALIGN_UP n 16 = 0).
Proof.
  intros Hn. rewrite ALIGN_UP_16 by lia. pose proof (wrap_range 64 (n + 15) ltac:(lia)) as Hr.
  split; [Z.to_euclidean_division_equations; lia|]. split; [Z.to_euclidean_division_equations; lia|]. split.
  - intros Hs. rewrite wrap_small by lia. Z.to_euclidean_division_equations; lia.
  - intros Hs. assert (u64 (n + 15) = n + 15 - 2 ^ 64) as ->.
    { unfold wrap. symmetry. apply (Z.mod_unique _ _ 1); lia. }
    Z.to_euclidean_division_equations; lia.
Qed.

(** ** The invariant *)

Section heap_ok.
Variable g_heap : Z.

Definition placed : Prop := 0 <= g_heap ∧ g_heap mod 16 = 0 ∧ g_heap + HEAP_SIZE < 2 ^ 63.

(** The blocks tile the arena and no two neighbours are free; before the first request the
    arena is one free block that is not written yet. *)
Definition arena_ok (h : arena) (L : list seg) : Prop :=
  coalesced L ∧
  (g_first h = Some g_heap ∧ lseg (blocks h) (Some g_heap) g_heap L None (g_heap + HEAP_SIZE)
   ∨ g_first h = None ∧ L = [Seg (HEAP_SIZE - HDR) true]).

(** The size that is looked for. *)
Definition request (want : Z) : Z := ALIGN_UP (if want =? 0 then 1 else want) 16.

Lemma request_spec want :
  0 <= want < 2 ^ 64 → 0 <= request want < 2 ^ 64 ∧ request want mod 16 = 0 ∧
  (want <= 2 ^ 64 - 16 → want <= request want < want + 17) ∧ (2 ^ 64 - 16 < want → request want = 0).
Proof.
  intros Hw. unfold request. destruct (Z.eqb_spec want 0) as [->|Hne].
  - destruct (ALIGN_UP_spec 1 ltac:(lia)) as (H1 & H2 & H3 & H4). repeat split; try lia.
  - destruct (ALIGN_UP_spec want Hw) as (H1 & H2 & H3 & H4). repeat split; try lia.
Qed.

Lemma malloc_ok h L want :
  placed → arena_ok h L → 0 <= want < 2 ^ 64 →
  match first_fit (request want) g_heap L with
  | None => ∃ h', malloc g_heap want h = Done (None, h') ∧ arena_ok h' L
  | Some (r, L') => ∃ h', malloc g_heap want h = Done (Some r, h') ∧ arena_ok h' L'
  end.
Proof.
  intros (Hg & _ & Hend) [Hc HL] Hw. destruct (request_spec want Hw) as (Hr & Hr16 & _).
  assert (∃ h0, (∀ (k : arena → st arena (option Z)),
            (h ← st_get; _ ← (if bool_decide (g_first h = None) then heap_init g_heap else mret tt); h ← st_get; k h) h
              = k h0 h0) ∧
          g_first h0 = Some g_heap ∧
          lseg (blocks h0) (Some g_heap) g_heap L None (g_heap + HEAP_SIZE)) as (h0 & Eh & Hfst & Hl0).
  { destruct HL as [[Hfst Hl]|[Hfst ->]].
    - exists h. split; [|done]. intros k. unfold mbind, st_bind, st_get. by rewrite Hfst.
    - exists (set_blocks (<[g_heap := Block (HEAP_SIZE - HDR) None 1]> (blocks h)) (set_first (Some g_heap) h)).
      split; [|split; [done|]].
      + intros k. unfold mbind, st_bind, st_get. by rewrite Hfst.
      + cbn [lseg blocks set_blocks set_first sg_size sg_free flag]. split; [done|]. split; [done|].
        split; [done|]. eexists. split; [apply lookup_insert_eq|]. unfold HEAP_SIZE, HDR. split; [done|lia]. }
  pose proof (malloc_loop_Done (request want) (list_fuel h0) h0 (Some g_heap) g_heap L _ Hl0 Hg Hend
    ltac:(lia) Hr16) as Hloop.
  assert (malloc g_heap want h = malloc_loop (list_fuel h0) (Some g_heap) (request want) h0) as ->.
  { unfold malloc. cbv zeta. fold (request want).
    rewrite (Eh (λ h, malloc_loop (list_fuel h) (g_first h) (request want))). by rewrite Hfst. }
  specialize (Hloop ltac:(unfold list_fuel; pose proof (lseg_length _ _ _ _ _ _ Hl0); lia)).
  destruct (first_fit (request want) g_heap L) as [[r L']|] eqn:Efit.
  - destruct Hloop as (h' & E & Hfst' & Hl' & _). exists h'. split; [exact E|]. split.
    + destruct (first_fit_split _ _ _ _ _ Efit) as (pre & s & post & -> & Hs & _ & _ & -> & _).
      by apply carve_coalesced.
    + left. by rewrite Hfst', Hfst.
  - exists h0. split; [exact Hloop|]. split; [done|]. by left.
Qed.

(** ** Releasing a block *)

Lemma merge_next_stop fuel b x h :
  blocks h !! b = Some x →
  match b_next x with None => True | Some n => ∃ y, blocks h !! n = Some y ∧ b_free y = 0 end →
  merge_next (S fuel) b h = Done (tt, h).
Proof.
  intros Hx Hn. cbn [merge_next]. sstep (get_block_Done _ _ _ Hx). destruct (b_next x) as [n|]; [|done].
  destruct Hn as (y & Hy & Hf). sstep (get_block_Done _ _ _ Hy). by rewrite Hf.
Qed.

Lemma lseg_head_used m n a L z :
  lseg m n a L None z → match L with t :: _ => sg_free t = false | [] => True end →
  match n with None => True | Some n => ∃ y, m !! n = Some y ∧ b_free y = 0 end.
Proof.
  destruct L as [|t L]; cbn [lseg]; [by intros [-> _]|]. intros (-> & _ & _ & k & Hk & _) Ht.
  rewrite Ht in Hk. by exists (Block (sg_size t) k 0).
Qed.

(** The free block at [b] absorbs its free successor. *)
Lemma merge_next_Done fuel b n x h L z :
  blocks h !! b = Some (Block x n 1) → lseg (blocks h) n (b + HDR + x) L None z → coalesced L →
  0 <= b → 0 <= x → x mod 16 = 0 → z < 2 ^ 63 →
  ∃ h', merge_next (S (S fuel)) b h = Done (tt, h') ∧ g_first h' = g_first h ∧
    lseg (blocks h') (Some b) b (merge (Seg x true) L) None z ∧
    ∀ k, k < b → blocks h' !! k = blocks h !! k.
Proof.
  intros Hb HL Hc Hb0 Hx Hx16 Hz. destruct L as [|t L].
  { exists h. split; [by apply (merge_next_stop _ b _ h Hb); apply (lseg_head_used _ _ _ _ _ HL)|].
    split; [done|]. split; [|done]. cbn [merge lseg sg_size sg_free flag]. split; [done|].
    split; [done|]. split; [done|]. by exists n. }
  cbn [merge sg_free andb]. destruct (sg_free t) eqn:Ef.
  2: { exists h. split; [by apply (merge_next_stop _ b _ h Hb); apply (lseg_head_used _ _ _ _ _ HL)|].
       split; [done|]. split; [|done]. split; [done|]. split; [done|]. split; [done|]. by exists n. }
  destruct HL as (-> & Ht & Ht16 & k & Hk & HL). rewrite Ef in Hk. cbn [flag] in Hk.
  destruct Hc as [Hc _]. pose proof (lseg_span _ _ _ _ _ _ HL) as [Hz' Hp].
  assert (b < b + HDR + x) as Hlt by (unfold HDR; lia).
  set (y := Block (x + (HDR + sg_size t)) k 1).
  assert (∃ h', h' = set_blocks (<[b := y]> (blocks h)) h) as [h' Eh'] by eauto.
  assert (merge_next (S (S fuel)) b h = merge_next (S fuel) b h') as ->.
  { change (merge_next (S (S fuel)) b) with (x ← get_block b; match b_next x with
      | None => mret tt
      | Some n => y ← get_block n; if b_free y =? 0 then mret tt else
          _ ← upd_block b (λ x, b_set_next (b_next y) (b_set_size (u64 (b_size x + u64 (HDR + b_size y))) x));
          merge_next (S fuel) b end).
    sstep (get_block_Done _ _ _ Hb). cbn [b_next]. sstep (get_block_Done _ _ _ Hk). cbn [b_free Z.eqb b_size b_next].
    sstep (upd_block_Done _ (λ x0, b_set_next k (b_set_size (u64 (b_size x0 + u64 (HDR + sg_size t))) x0)) _ _ Hb).
    cbn [b_size b_next b_set_next b_set_size b_free]. unfold HDR in *.
    rewrite (wrap_small 64 (32 + sg_size t)) by lia. rewrite (wrap_small 64 (x + (32 + sg_size t))) by lia.
    rewrite Eh'. done. }
  assert (lseg (blocks h') k (b + HDR + (x + HDR + sg_size t)) L None z) as HL'.
  { replace (b + HDR + (x + HDR + sg_size t)) with (b + HDR + x + HDR + sg_size t) by lia.
    eapply lseg_frame; [exact HL|]. intros j Hj. rewrite Eh'. cbn [blocks set_blocks]. unfold HDR in *.
    by rewrite lookup_insert_ne by lia. }
  assert (blocks h' !! b = Some y) as Hy by (rewrite Eh'; apply lookup_insert_eq).
  exists h'. split.
  { apply (merge_next_stop _ b y h' Hy). cbn [b_next y]. apply (lseg_head_used _ _ _ _ _ HL').
    destruct L as [|u L]; [done|]. by rewrite Ef in Hc. }
  split; [by rewrite Eh'|]. split.
  - cbn [lseg sg_size sg_free flag]. split; [done|]. split; [unfold HDR; lia|].
    split; [unfold HDR; Z.to_euclidean_division_equations; lia|]. exists k. split; [|exact HL'].
    rewrite Hy. unfold y. do 2 f_equal. lia.
  - intros j Hj. rewrite Eh'. cbn [blocks set_blocks]. by rewrite lookup_insert_ne by lia.
Qed.

Lemma find_prev_Done fuel h p a pre t b :
  lseg (blocks h) p a (pre ++ [t]) (Some b) b → (length pre < fuel)%nat →
  find_prev fuel p b h = Done (Some (a + span pre), h).
Proof.
  revert fuel p a. induction pre as [|s pre IH]; intros [|fuel] p a Hl Hf; cbn [app length] in *; try lia.
  - destruct Hl as (-> & _ & _ & n & Hn & -> & _). cbn [find_prev]. sstep (get_block_Done _ _ _ Hn).
    rewrite bool_decide_eq_true_2 by done. cbn [span]. by rewrite Z.add_0_r.
  - destruct Hl as (-> & Hs & _ & n & Hn & Hl). cbn [find_prev]. sstep (get_block_Done _ _ _ Hn). cbn [b_next].
    rewrite bool_decide_eq_false_2.
    + rewrite (IH fuel n (a + HDR + sg_size s) Hl) by lia. cbn [span]. do 2 f_equal. f_equal. lia.
    + intros ->. pose proof (proj1 (lseg_app _ _ _ _ _ _ _) Hl) as (r & Hl1 & Hl2).
      pose proof (lseg_span _ _ _ _ _ _ Hl1) as [_ Hp]. destruct Hl2 as (-> & Ht & _ & k & _ & -> & Hb).
      destruct pre as [|u pre]; cbn [app lseg span] in *.
      * destruct Hl1 as [E _]. injection E as E. unfold HDR in *. lia.
      * destruct Hl1 as (E & _). injection E as E. unfold HDR in *. lia.
Qed.

Lemma coalesced_join pre t t' K :
  coalesced (pre ++ [t]) → coalesced (t' :: K) → sg_free t' = sg_free t → coalesced (pre ++ t' :: K).
Proof.
  intros Hp HK Ht. induction pre as [|s pre IH]; cbn [app] in *; [done|].
  destruct Hp as [Hs Hp]. split; [|by apply IH]. destruct pre; cbn [app] in *; [by rewrite Ht|done].
Qed.

Lemma merge_free_head x L : ∃ x' K, merge (Seg x true) L = Seg x' true :: K.
Proof.
  destruct L as [|t L]; cbn [merge sg_free andb]; [by eexists _, _|].
  destruct (sg_free t); by eexists _, _.
Qed.

(** The tail of [free]: the predecessor of [b] absorbs it. *)
Lemma absorb_prev_Done h pre t x K z :
  lseg (blocks h) (Some g_heap) g_heap (pre ++ [t]) (Some (g_heap + span (pre ++ [t]))) (g_heap + span (pre ++ [t])) →
  lseg (blocks h) (Some (g_heap + span (pre ++ [t]))) (g_heap + span (pre ++ [t])) (Seg x true :: K) None z →
  0 <= g_heap → z < 2 ^ 63 →
  let b := g_heap + span (pre ++ [t]) in
  ∃ h', (p ← find_prev (list_fuel h) (Some g_heap) b;
         match p with
         | None => mret tt
         | Some p =>
             x ← get_block p;
             if b_free x =? 0 then mret tt
             else
               y ← get_block b;
               upd_block p (λ x, b_set_next (b_next y) (b_set_size (u64 (b_size x + u64 (HDR + b_size y))) x))
         end) h = Done (tt, h') ∧ g_first h' = g_first h ∧
    lseg (blocks h') (Some g_heap) g_heap (pre ++ merge t (Seg x true :: K)) None z.
Proof.
  intros Hpre Hb Hg Hz b. set (p := g_heap + span pre).
  pose proof (lseg_length _ _ _ _ _ _ Hpre) as Hlen. rewrite length_app in Hlen. cbn [length] in Hlen.
  sstep (find_prev_Done (list_fuel h) h (Some g_heap) g_heap pre t b Hpre ltac:(unfold list_fuel; lia)).
  fold p. pose proof (proj1 (lseg_app _ _ _ _ _ _ _) Hpre) as (r & Hl1 & Hl2). fold p in Hl1, Hl2.
  destruct Hl2 as (-> & Ht & Ht16 & n & Hn & -> & Hend).
  destruct Hb as (_ & Hx & Hx16 & k & Hk & HK). cbn [sg_size sg_free flag] in Hk, Hx, Hx16, HK.
  pose proof (lseg_span _ _ _ _ _ _ Hl1) as [_ Hp1]. pose proof (lseg_span _ _ _ _ _ _ HK) as [Hz' Hp2].
  assert (b = p + HDR + sg_size t) as Eb by (unfold b; lia). fold b in Hn, Hk, HK, Hz'.
  sstep (get_block_Done _ _ _ Hn). cbn [b_free]. destruct (sg_free t) eqn:Ef; cbn [flag Z.eqb].
  - sstep (get_block_Done _ _ _ Hk). erewrite upd_block_Done by exact Hn. eexists. split; [reflexivity|].
    split; [done|]. cbn [b_next b_size b_set_next b_set_size b_free blocks set_blocks].
    cbn [merge sg_free andb]. rewrite Ef. apply lseg_app. exists (Some p). fold p. unfold HDR in *. split.
    + eapply lseg_frame; [exact Hl1|]. intros j Hj. by rewrite lookup_insert_ne by lia.
    + cbn. unfold HDR. split; [done|]. split; [lia|].
      split; [Z.to_euclidean_division_equations; lia|]. exists k. split.
      * rewrite lookup_insert_eq. rewrite (wrap_small 64 (32 + x)) by lia.
        rewrite (wrap_small 64 (sg_size t + (32 + x))) by lia. by rewrite Z.add_assoc.
      * eapply lseg_frame.
        { replace (p + 32 + (sg_size t + 32 + x)) with (b + 32 + x) by lia. exact HK. }
        intros j Hj. by rewrite lookup_insert_ne by lia.
  - exists h. split; [done|]. split; [done|]. cbn [merge]. rewrite Ef. cbn [andb].
    apply lseg_app. exists (Some p). split; [exact Hl1|]. fold p.
    cbn [lseg sg_size sg_free flag]. split; [done|]. split; [done|]. split; [done|]. exists (Some b).
    rewrite Ef. split; [exact Hn|]. rewrite <- Eb. split; [done|]. split; [done|]. split; [done|]. by exists k.
Qed.

Lemma free_ok h pre n post :
  placed → arena_ok h (pre ++ Seg n false :: post) →
  ∃ h', free (Some (g_heap + span pre + HDR)) h = Done (tt, h') ∧
        arena_ok h' (coalesce (pre ++ Seg n true :: post)).
Proof.
  intros (Hg & _ & Hend) [Hc [[Hfst Hl]|[_ E]]].
  2: { destruct pre as [|? [|]]; cbn in E; try done. }
  pose proof (proj1 (lseg_app _ _ _ _ _ _ _) Hl) as (r & Hpre & Hb). set (b := g_heap + span pre) in *.
  destruct Hb as (-> & Hn & Hn16 & nx & Hnx & Hpost). cbn [sg_size sg_free flag] in *.
  destruct (coalesced_app _ _ Hc) as [Hcpre [_ Hcpost]].
  pose proof (lseg_span _ _ _ _ _ _ Hpre) as [_ Hp]. pose proof (lseg_span _ _ _ _ _ _ Hpost) as [Hz _].
  unfold free. replace (block_of (b + HDR)) with b by (unfold block_of; lia). cbv zeta.
  set (h1 := set_blocks (<[b := Block n nx 1]> (blocks h)) h).
  assert (upd_block b (b_set_free 1) h = Done (tt, h1)) as E1 by exact (upd_block_Done b (b_set_free 1) _ _ Hnx).
  sstep E1.
  assert (∃ f, list_fuel h1 = S (S f)) as [f Ef].
  { unfold list_fuel. destruct (size (blocks h1)) eqn:Es; [|eauto]. exfalso.
    apply map_size_empty_inv in Es. assert (blocks h1 !! b = Some (Block n nx 1)) as Hb1 by apply lookup_insert_eq.
    by rewrite Es in Hb1. }
  destruct (merge_next_Done f b nx n h1 post (g_heap + HEAP_SIZE)) as (h2 & E2 & Hf2 & Hl2 & Hk2); [..|lia|lia|lia|lia|].
  { apply lookup_insert_eq. }
  { eapply lseg_frame; [exact Hpost|]. intros k Hk. unfold HDR in *. cbn. by rewrite lookup_insert_ne by lia. }
  { done. }
  unfold mbind at 1, st_bind at 1, st_get at 1. cbn beta iota. rewrite Ef. sstep E2.
  unfold mbind at 1, st_bind at 1, st_get at 1. cbn beta iota. rewrite Hf2. cbn [h1 set_blocks g_first]. rewrite Hfst.
  assert (lseg (blocks h2) (Some g_heap) g_heap pre (Some b) b) as Hpre2.
  { eapply lseg_frame; [exact Hpre|]. intros k Hk. rewrite Hk2 by lia. cbn. by rewrite lookup_insert_ne by lia. }
  destruct (merge_free_head n post) as (x' & K & EK).
  pose proof (merge_coalesced (Seg n true) post Hcpost) as HcK. rewrite EK in HcK, Hl2.
  destruct pre as [|t pre _] using rev_ind.
  - cbn [span] in b. assert (b = g_heap) as Eb by (unfold b; lia). rewrite Eb.
    rewrite bool_decide_eq_true_2 by done. exists h2. split; [done|]. cbn [app coalesce].
    rewrite (coalesce_id _ Hcpost), EK. split; [done|]. left. split; [by rewrite Hf2|]. by rewrite Eb in Hl2.
  - rewrite bool_decide_eq_false_2.
    2: { intros [= E]. unfold b in E. rewrite span_app in E. pose proof (proj1 (lseg_app _ _ _ _ _ _ _) Hpre) as (r & Hl1 & Ht).
         pose proof (lseg_span _ _ _ _ _ _ Hl1) as [_ ?]. destruct Ht as (_ & ? & _). cbn [span] in E. unfold HDR in E. lia. }
    destruct (absorb_prev_Done h2 pre t x' K (g_heap + HEAP_SIZE) Hpre2 Hl2 Hg ltac:(lia)) as (h3 & E3 & Hf3 & Hl3).
    exists h3. split; [exact E3|].
    assert (coalesce ((pre ++ [t]) ++ Seg n true :: post) = pre ++ merge t (Seg x' true :: K)) as ->.
    { rewrite <- app_assoc, coalesce_app. cbn [app coalesce]. rewrite (coalesce_id post) by done. rewrite EK.
      apply coalesce_id. cbn [merge]. destruct (sg_free t) eqn:Et; cbn [sg_free andb];
        eapply (coalesced_join pre t); [exact Hcpre|destruct HcK as [? ?]; by split|by rewrite Et|exact Hcpre| |done].
      split; [by rewrite Et|done]. }
    split; [|left; split; [by rewrite Hf3, Hf2|done]].
    cbn [merge]. destruct (sg_free t) eqn:Et; cbn [sg_free andb];
      eapply (coalesced_join pre t); [exact Hcpre|destruct HcK as [? ?]; by split|by rewrite Et|exact Hcpre| |done].
    split; [by rewrite Et|done].
Qed.

(** ** The payloads in use *)

Lemma live_bounds m p a L q z x :
  lseg m p a L q z → x ∈ live a L → a + HDR <= fst x ∧ 0 <= snd x ∧ fst x + snd x <= z.
Proof.
  revert p a. induction L as [|s L IH]; intros p a; cbn [lseg live]; [by intros _ ?%not_elem_of_nil|].
  intros (-> & Hs & _ & n & _ & HL) Hx. pose proof (lseg_span _ _ _ _ _ _ HL) as [Hz Hp].
  assert (x ∈ live (a + HDR + sg_size s) L → a + HDR <= fst x ∧ 0 <= snd x ∧ fst x + snd x <= z) as Hrest.
  { intros Hin. pose proof (IH _ _ HL Hin). unfold HDR in *. lia. }
  destruct (sg_free s); [by apply Hrest|]. apply elem_of_cons in Hx as [->|Hx]; [cbn; lia|by apply Hrest].
Qed.

Lemma lseg_aligned m p a L q z : lseg m p a L q z → a mod 16 = 0 → z mod 16 = 0.
Proof.
  revert p a. induction L as [|s L IH]; intros p a; cbn [lseg]; [by intros [_ ->]|].
  intros (_ & _ & Hs & n & _ & HL) Ha. eapply IH; [exact HL|].
  unfold HDR. Z.to_euclidean_division_equations; lia.
Qed.

(** An arena that is not written yet is described by the table with its one header. *)
Lemma arena_tiled h L :
  placed → arena_ok h L → ∃ m, lseg m (Some g_heap) g_heap L None (g_heap + HEAP_SIZE).
Proof.
  intros Hg [_ [[_ Hl]|[_ ->]]]; [by eexists|]. exists {[g_heap := Block (HEAP_SIZE - HDR) None 1]}.
  cbn. split; [done|]. split; [done|]. split; [done|]. eexists. split; [apply lookup_singleton_eq|].
  unfold HEAP_SIZE, HDR. split; [done|lia].
Qed.

Lemma live_split a L p n :
  (p, n) ∈ live a L →
  ∃ pre post, L = pre ++ Seg n false :: post ∧ p = a + span pre + HDR.
Proof.
  revert a. induction L as [|s L IH]; intros a; cbn [live]; [by intros ?%not_elem_of_nil|]. intros Hx.
  assert ((p, n) ∈ live (a + HDR + sg_size s) L →
          ∃ pre post, s :: L = pre ++ Seg n false :: post ∧ p = a + span pre + HDR) as Hrest.
  { intros (pre & post & -> & ->)%IH. exists (s :: pre), post. split; [done|]. cbn [span]. lia. }
  destruct s as [k f]. cbn [sg_free sg_size] in *. destruct f; [by apply Hrest|].
  apply elem_of_cons in Hx as [[= -> ->]|Hx]; [|by apply Hrest]. exists [], L. split; [done|]. cbn [span]. lia.
Qed.

(** The payload that a request gets, among the others. *)
Lemma live_first_fit h L want r L' :
  placed → arena_ok h L → 0 <= want → first_fit want g_heap L = Some (r, L') →
  ∃ n l1 l2, want <= n ∧ r mod 16 = 0 ∧ g_heap + HDR <= r ∧ r + n <= g_heap + HEAP_SIZE ∧
    live g_heap L = l1 ++ l2 ∧ live g_heap L' = l1 ++ (r, n) :: l2 ∧
    Forall (λ x, fst x + snd x <= r ∨ r + n <= fst x) (l1 ++ l2).
Proof.
  intros Hp HL Hw Hfit. destruct (arena_tiled _ _ Hp HL) as [m Hl].
  destruct (first_fit_split _ _ _ _ _ Hfit) as (pre & s & post & -> & Hs & Hws & -> & -> & _).
  pose proof (proj1 (lseg_app _ _ _ _ _ _ _) Hl) as (q & Hl1 & Hl2).
  destruct Hl2 as (_ & Hs0 & Hs16 & nx & _ & Hl2).
  pose proof (lseg_span _ _ _ _ _ _ Hl1) as [_ Hp1]. pose proof (lseg_span _ _ _ _ _ _ Hl2) as [Hz Hp2].
  exists (carved want s), (live g_heap pre), (live (g_heap + span pre) (s :: post)).
  assert (want <= carved want s <= sg_size s) as Hn.
  { unfold carved. destruct (Z.leb_spec (want + HDR + 16) (sg_size s)); unfold HDR in *; lia. }
  split; [lia|]. split.
  { destruct Hp as (_ & Hg16 & _). pose proof (lseg_aligned _ _ _ _ _ _ Hl1 Hg16) as H16.
    unfold HDR. Z.to_euclidean_division_equations; lia. }
  split; [lia|]. split; [lia|]. split; [apply live_app|]. split; [by rewrite live_app, live_carve|].
  apply Forall_app. split; apply Forall_forall; intros x Hx.
  - left. pose proof (live_bounds _ _ _ _ _ _ _ Hl1 Hx). unfold HDR. lia.
  - right. cbn [live] in Hx. rewrite Hs in Hx. pose proof (live_bounds _ _ _ _ _ _ _ Hl2 Hx). unfold HDR in *. lia.
Qed.

(** ** The theorems on blocks *)

(** C25: [malloc] keeps the arena tiled by blocks of which no two neighbours are free. The memory it returns is
    aligned, is as large as was asked for, lies in the arena and apart from every other payload in use,
    and the other payloads stay as they are; null is returned only when no free block is large enough. *)
Theorem malloc_exclusive h L want :
  placed → arena_ok h L → 0 <= want <= 2 ^ 64 - 16 →
  ∃ r h' L', malloc g_heap want h = Done (r, h') ∧ arena_ok h' L' ∧
    match r with
    | Some p => ∃ n l1 l2, want <= n ∧ p mod 16 = 0 ∧ g_heap + HDR <= p ∧ p + n <= g_heap + HEAP_SIZE ∧
        live g_heap L = l1 ++ l2 ∧ live g_heap L' = l1 ++ (p, n) :: l2 ∧
        Forall (λ x, fst x + snd x <= p ∨ p + n <= fst x) (live g_heap L)
    | None => L' = L ∧ Forall (λ s, sg_free s = true → sg_size s < request want) L
    end.
Proof.
  intros Hp HL Hw. destruct (request_spec want ltac:(lia)) as (Hr & _ & Hreq & _).
  pose proof (malloc_ok h L want Hp HL ltac:(lia)) as Hm.
  destruct (first_fit (request want) g_heap L) as [[r L']|] eqn:Efit.
  - destruct Hm as (h' & E & HL'). exists (Some r), h', L'. split; [exact E|]. split; [exact HL'|].
    destruct (live_first_fit h L (request want) r L' Hp HL ltac:(lia) Efit) as (n & l1 & l2 & Hn & H16 & Hlo & Hhi & E1 & E2 & Hd).
    exists n, l1, l2. rewrite E1. split; [lia|]. done.
  - destruct Hm as (h' & E & HL'). exists None, h', L. split; [exact E|]. split; [exact HL'|].
    split; [done|]. by eapply first_fit_None.
Qed.

(** [free] gives back a block in use and nothing else: the arena is still tiled by merged
    blocks, and the other payloads are the same. *)
Theorem free_releases h L p n :
  placed → arena_ok h L → (p, n) ∈ live g_heap L →
  ∃ h' L' l1 l2, free (Some p) h = Done (tt, h') ∧ arena_ok h' L' ∧
    live g_heap L = l1 ++ (p, n) :: l2 ∧ live g_heap L' = l1 ++ l2.
Proof.
  intros Hp HL Hin. destruct (live_split _ _ _ _ Hin) as (pre & post & -> & ->).
  destruct (free_ok h pre n post Hp HL) as (h' & E & HL').
  exists h', (coalesce (pre ++ Seg n true :: post)), (live g_heap pre), (live (g_heap + span pre + HDR + n) post).
  split; [exact E|]. split; [exact HL'|]. rewrite live_coalesce, !live_app. by cbn [live sg_free sg_size].
Qed.

(** C26: A block that is freed right after its allocation leaves the arena as it was, whatever was
    cut from it is merged again. *)
Theorem malloc_free h L want p h1 :
  placed → arena_ok h L → 0 <= want < 2 ^ 64 → malloc g_heap want h = Done (Some p, h1) →
  ∃ h2, free (Some p) h1 = Done (tt, h2) ∧ arena_ok h2 L.
Proof.
  intros Hp HL Hw Em. destruct (request_spec want Hw) as (Hr & _).
  pose proof (malloc_ok h L want Hp HL Hw) as Hm.
  destruct (first_fit (request want) g_heap L) as [[r L']|] eqn:Efit; destruct Hm as (h' & E & HL');
    rewrite E in Em; injection Em as; [subst|done].
  destruct (first_fit_split _ _ _ _ _ Efit) as (pre & s & post & -> & Hs & _ & -> & -> & _).
  destruct HL as [Hc _]. pose proof (coalesce_carve (request want) pre s post Hc Hs ltac:(lia)) as Eq.
  assert (∃ k K, carve (request want) s post = Seg k false :: K) as (k & K & EK).
  { unfold carve. destruct (request want + HDR + 16 <=? sg_size s); by eexists _, _. }
  rewrite EK in *. cbn [sg_size] in Eq. destruct (free_ok h1 pre k K Hp HL') as (h2 & E2 & HL2).
  exists h2. split; [exact E2|]. by rewrite Eq in HL2.
Qed.

(** ** Contents *)

Lemma on_heap_Done {A} (f : st arena A) a h h' m : f h = Done (a, h') → on_heap f (h, m) = Done (a, (h', m)).
Proof. unfold on_heap. cbn. by intros ->. Qed.

Lemma on_bytes_Done f h m m' : f m = Done m' → on_bytes f (h, m) = Done (tt, (h, m')).
Proof. unfold on_bytes. cbn. by intros ->. Qed.

(** The arena is memory of the program. *)
Definition backed (m : mem) : Prop := mapped m g_heap (Z.to_nat HEAP_SIZE).

Lemma backed_mapped m p n :
  backed m → g_heap <= p → p + n <= g_heap + HEAP_SIZE → mapped m p (Z.to_nat n).
Proof.
  intros Hm Hlo Hhi. destruct (decide (0 <= n)).
  - apply (mapped_range _ _ _ _ _ Hm); lia.
  - intros i Hi. lia.
Qed.

(** [calloc] returns zeroed memory for the product of its arguments, and null, with nothing
    changed, when the product does not fit in a word. *)
Theorem calloc_zeroes h L m n size :
  placed → arena_ok h L → backed m → 0 <= n < 2 ^ 64 → 0 <= size < 2 ^ 64 → n * size <= 2 ^ 64 - 16 ∨ 2 ^ 64 <= n * size →
  ∃ r h' m' L', calloc g_heap n size (h, m) = Done (r, (h', m')) ∧ arena_ok h' L' ∧
    match r with
    | Some p => n * size < 2 ^ 64 ∧ (∃ k l1 l2, n * size <= k ∧ live g_heap L = l1 ++ l2 ∧ live g_heap L' = l1 ++ (p, k) :: l2) ∧
                m' = put_at p (replicate (Z.to_nat (n * size)) 0) m
    | None => L' = L ∧ m' = m
    end ∧ (2 ^ 64 <= n * size → r = None).
Proof.
  intros Hp HL Hm Hn Hsz Hov. unfold calloc. cbv zeta.
  destruct Hov as [Hfit|Hov].
  - assert (0 <= n * size) by nia. rewrite (wrap_small 64 (n * size)) by lia.
    assert (negb (size =? 0) && negb (n * size / size =? n) = false) as ->.
    { destruct (Z.eqb_spec size 0) as [->|Hne]; [done|]. rewrite Z.div_mul by done. by rewrite Z.eqb_refl. }
    destruct (request_spec (n * size) ltac:(lia)) as (Hr & _ & Hreq & _).
    pose proof (malloc_ok h L (n * size) Hp HL ltac:(lia)) as Hmal.
    destruct (first_fit (request (n * size)) g_heap L) as [[r L']|] eqn:Efit; destruct Hmal as (h' & E & HL').
    + destruct (live_first_fit h L (request (n * size)) r L' Hp HL ltac:(lia) Efit)
        as (k & l1 & l2 & Hk & _ & Hlo & Hhi & E1 & E2 & _).
      eexists (Some r), h', _, L'. split; [|split; [exact HL'|split; [|intros ?; exfalso; lia]]].
      * sstep (on_heap_Done (malloc g_heap (n * size)) _ h h' m E). unfold mbind, st_bind.
        erewrite on_bytes_Done; [reflexivity|]. apply memset_Done; [|lia].
        apply backed_mapped; [done|unfold HDR in *; lia|lia].
      * split; [lia|]. split; [|done]. exists k, l1, l2. split; [lia|done].
    + exists None, h', m, L. split; [|split; [exact HL'|done]].
      sstep (on_heap_Done (malloc g_heap (n * size)) _ h h' m E). done.
  - exists None, h, m, L. split; [|split; [done|done]].
    assert (size ≠ 0) as Hne by nia. rewrite (proj2 (Z.eqb_neq _ _) Hne). cbn [negb andb].
    assert (u64 (n * size) / size ≠ n) as Hd.
    { pose proof (wrap_range 64 (n * size) ltac:(lia)) as Hw. intros E.
      pose proof (Z.div_mod (u64 (n * size)) size Hne) as Hdm. rewrite E in Hdm.
      pose proof (Z.mod_pos_bound (u64 (n * size)) size ltac:(lia)).
      assert (u64 (n * size) = n * size) as Ew; [|lia].
      unfold wrap in *. pose proof (Z.div_mod (n * size) (2 ^ 64) ltac:(lia)). nia. }
    by rewrite (proj2 (Z.eqb_neq _ _) Hd).
Qed.

(** The header of a payload in use. *)
Lemma live_header h L p n :
  arena_ok h L → (p, n) ∈ live g_heap L → ∃ nx, get_block (block_of p) h = Done (Block n nx 0, h).
Proof.
  intros [_ [[_ Hl]|[_ ->]]] Hin; [|by apply not_elem_of_nil in Hin].
  destruct (live_split _ _ _ _ Hin) as (pre & post & -> & ->).
  pose proof (proj1 (lseg_app _ _ _ _ _ _ _) Hl) as (r & _ & (_ & _ & _ & nx & Hnx & _)).
  exists nx. apply get_block_Done. unfold block_of.
  by replace (g_heap + span pre + HDR - HDR) with (g_heap + span pre) by lia.
Qed.

(** The payloads other than [x]. *)
Lemma elem_of_insert {A} (l1 l2 : list A) x y : y ∈ l1 ++ l2 → y ∈ l1 ++ x :: l2.
Proof. set_solver. Qed.

(** [realloc] keeps the contents: the bytes of the old block are at the start of the block that is
    returned, which is large enough, and neither the other payloads nor the memory outside of the
    new block change. When it returns null, nothing has changed. *)
Theorem realloc_keeps h L m p n l size :
  placed → arena_ok h L → backed m → (p, n) ∈ live g_heap L → bytes_at m p l → n = Z.of_nat (length l) →
  Forall byte l → 0 < size <= 2 ^ 64 - 16 →
  ∃ r h' m' L', realloc g_heap (Some p) size (h, m) = Done (r, (h', m')) ∧ arena_ok h' L' ∧
    match r with
    | Some q => ∃ k, (q, k) ∈ live g_heap L' ∧ size <= k ∧ bytes_at m' q l ∧
        (∀ x, x ∈ live g_heap L → x ≠ (p, n) → x ∈ live g_heap L') ∧
        (∀ a, a < q ∨ q + k <= a → m' !! a = m !! a)
    | None => L' = L ∧ m' = m
    end.
Proof.
  intros Hp HL Hm Hin Hb Hn Hbl Hsz. destruct (live_header h L p n HL Hin) as [nx Eh].
  destruct (request_spec size ltac:(lia)) as (Hr & _ & Hreq & _).
  assert (request size = ALIGN_UP size 16) as Erq by (unfold request; by rewrite (proj2 (Z.eqb_neq size 0)) by lia).
  unfold realloc. rewrite (proj2 (Z.eqb_neq size 0)) by lia.
  sstep (on_heap_Done (get_block (block_of p)) _ h h m Eh). cbn [b_size]. rewrite <- Erq.
  destruct (Z.leb_spec (request size) n) as [Hle|Hgt].
  { exists (Some p), h, m, L. split; [done|]. split; [done|]. exists n. split; [done|]. split; [lia|]. by repeat split. }
  pose proof (malloc_ok h L size Hp HL ltac:(lia)) as Hmal.
  destruct (first_fit (request size) g_heap L) as [[q L1]|] eqn:Efit; destruct Hmal as (h1 & E & HL1).
  2: { exists None, h1, m, L. sstep (on_heap_Done (malloc g_heap size) _ h h1 m E). by split. }
  sstep (on_heap_Done (malloc g_heap size) _ h h1 m E).
  destruct (live_first_fit h L (request size) q L1 Hp HL ltac:(lia) Efit)
    as (k & l1 & l2 & Hk & _ & Hlo & Hhi & E1 & E2 & Hd).
  assert ((p, n) ∈ live g_heap L1) as Hin1 by (rewrite E2; apply elem_of_insert; by rewrite <- E1).
  destruct (free_releases h1 L1 p n Hp HL1 Hin1) as (h2 & L2 & k1 & k2 & Ef & HL2 & Ek1 & Ek2).
  assert (p + n <= q ∨ q + k <= p) as Hap.
  { rewrite E1 in Hin. by pose proof (proj1 (Forall_forall _ _) Hd _ Hin). }
  exists (Some q), h2, (put_at q l m), L2. split.
  { unfold mbind at 1, st_bind at 1. erewrite on_bytes_Done.
    2: { rewrite Hn. apply user_memcpy_Done; [done..| |lia]. unfold HDR in *.
         pose proof (backed_mapped m q n Hm ltac:(lia) ltac:(lia)) as Hq. by rewrite Hn, Nat2Z.id in Hq. }
    cbn beta iota. by sstep (on_heap_Done (free (Some p)) _ h1 h2 (put_at q l m) Ef). }
  split; [exact HL2|]. exists k.
  assert (∀ x, x ∈ live g_heap L1 → x ≠ (p, n) → x ∈ live g_heap L2) as Hkeep.
  { intros x Hx Hne. rewrite Ek1 in Hx. rewrite Ek2. set_solver. }
  split; [|split; [lia|split; [apply put_at_in|split]]].
  - apply Hkeep; [rewrite E2; set_solver|]. intros [= -> ->]. lia.
  - intros x Hx Hne. apply Hkeep; [|done]. rewrite E2. apply elem_of_insert. by rewrite <- E1.
  - intros a Ha. apply put_at_out. lia.
Qed.

Lemma lseg_sizes m p a L q z : lseg m p a L q z → Forall (λ s, 0 <= sg_size s) L.
Proof.
  revert p a. induction L as [|s L IH]; intros p a; [constructor|].
  intros (_ & Hs & _ & n & _ & Hl). constructor; [done|by eapply IH].
Qed.

(** A size that the rounding wraps around: the request succeeds with less than 48 bytes. *)
Theorem malloc_wraps h L want :
  placed → arena_ok h L → 2 ^ 64 - 16 < want < 2 ^ 64 → Exists (λ s, sg_free s = true) L →
  ∃ p n h' L', malloc g_heap want h = Done (Some p, h') ∧ arena_ok h' L' ∧ (p, n) ∈ live g_heap L' ∧ n < 48.
Proof.
  intros Hp HL Hw Hex. destruct (request_spec want ltac:(lia)) as (_ & _ & _ & H0).
  pose proof (malloc_ok h L want Hp HL ltac:(lia)) as Hm. rewrite H0 in Hm by lia.
  destruct (first_fit 0 g_heap L) as [[r L']|] eqn:Efit; destruct Hm as (h' & E & HL').
  - destruct (first_fit_split _ _ _ _ _ Efit) as (pre & s & post & -> & Hs & _ & -> & -> & _).
    exists (g_heap + span pre + HDR), (carved 0 s), h', (pre ++ carve 0 s post).
    split; [exact E|]. split; [exact HL'|]. split.
    + rewrite live_app, live_carve by done. set_solver.
    + unfold carved. destruct (Z.leb_spec (0 + HDR + 16) (sg_size s)); unfold HDR in *; lia.
  - exfalso. apply first_fit_None in Efit. destruct (arena_tiled _ _ Hp HL) as [m Hl].
    apply lseg_sizes in Hl. apply Exists_exists in Hex as (s & Hin & Hs).
    pose proof (proj1 (Forall_forall _ _) Efit s Hin Hs). pose proof (proj1 (Forall_forall _ _) Hl s Hin).
    cbn beta in *. lia.
Qed.

Lemma arena_initial : arena_ok (Arena None ∅) [Seg (HEAP_SIZE - HDR) true].
Proof. split; [done|]. by right. Qed.
End heap_ok.

(** ** A concrete arena *)

Definition demo_heap : Z := 0x400000.

Lemma demo_placed : placed demo_heap.
Proof. unfold placed, demo_heap, HEAP_SIZE. split; [lia|]. split; [done|lia]. Qed.

(** One block in use, the rest free. *)
Definition demo_arena : arena :=
  Arena (Some demo_heap)
    {[ demo_heap := Block 112 (Some (demo_heap + 144)) 0;
       demo_heap + 144 := Block (HEAP_SIZE - 176) None 1 ]}.

Definition demo_segs : list seg := [Seg 112 false; Seg (HEAP_SIZE - 176) true].

Lemma demo_arena_ok : arena_ok demo_heap demo_arena demo_segs.
Proof.
  split; [done|]. left. split; [done|]. cbn. split; [done|]. split; [lia|]. split; [done|].
  eexists. split; [apply lookup_insert_eq|]. split; [done|]. unfold HEAP_SIZE, HDR, demo_heap. split; [lia|].
  split; [done|]. eexists. split; [by vm_compute|]. split; [done|lia].
Qed.

Lemma malloc_exclusive_witness :
  (0 <= 100 <= 2 ^ 64 - 16) ∧
  ∃ r h' L', malloc demo_heap 100 (Arena None ∅) = Done (r, h') ∧ arena_ok demo_heap h' L' ∧
    match r with
    | Some p => ∃ n l1 l2, 100 <= n ∧ p mod 16 = 0 ∧ demo_heap + HDR <= p ∧ p + n <= demo_heap + HEAP_SIZE ∧
        live demo_heap [Seg (HEAP_SIZE - HDR) true] = l1 ++ l2 ∧ live demo_heap L' = l1 ++ (p, n) :: l2 ∧
        Forall (λ x, fst x + snd x <= p ∨ p + n <= fst x) (live demo_heap [Seg (HEAP_SIZE - HDR) true])
    | None => L' = [Seg (HEAP_SIZE - HDR) true] ∧
        Forall (λ s, sg_free s = true → sg_size s < request 100) [Seg (HEAP_SIZE - HDR) true]
    end.
Proof.
  split; [lia|].
  apply (malloc_exclusive demo_heap (Arena None ∅) _ 100 demo_placed (arena_initial demo_heap)). lia.
Defined.

Lemma free_releases_witness :
  ∃ h' L' l1 l2, free (Some (demo_heap + 32)) demo_arena = Done (tt, h') ∧ arena_ok demo_heap h' L' ∧
    live demo_heap demo_segs = l1 ++ (demo_heap + 32, 112) :: l2 ∧ live demo_heap L' = l1 ++ l2.
Proof. apply (free_releases demo_heap demo_arena demo_segs _ 112 demo_placed demo_arena_ok). by left. Defined.

Lemma malloc_free_witness :
  malloc demo_heap 100 (Arena None ∅) = Done (Some (demo_heap + 32), demo_arena) ∧
  ∃ h2, free (Some (demo_heap + 32)) demo_arena = Done (tt, h2) ∧
    arena_ok demo_heap h2 [Seg (HEAP_SIZE - HDR) true].
Proof.
  assert (malloc demo_heap 100 (Arena None ∅) = Done (Some (demo_heap + 32), demo_arena)) as E by (by vm_compute).
  split; [exact E|].
  apply (malloc_free demo_heap (Arena None ∅) _ 100 _ _ demo_placed (arena_initial demo_heap)); [lia|exact E].
Defined.

(** A memory that maps the arena, with a text in the block. *)
Definition demo_bytes : mem := put_at (demo_heap + 32) (replicate 112 7) (put_at demo_heap (replicate (Z.to_nat HEAP_SIZE) 0) ∅).

Lemma demo_backed : backed demo_heap demo_bytes.
Proof.
  apply put_at_mapped, put_at_filled.
Qed.

Lemma calloc_zeroes_witness :
  2 ^ 64 <= 2 ^ 40 * 2 ^ 30 ∧
  ∃ r h' m' L', calloc demo_heap (2 ^ 40) (2 ^ 30) (demo_arena, demo_bytes) = Done (r, (h', m')) ∧ arena_ok demo_heap h' L' ∧
    match r with
    | Some p => 2 ^ 40 * 2 ^ 30 < 2 ^ 64 ∧ (∃ k l1 l2, 2 ^ 40 * 2 ^ 30 <= k ∧ live demo_heap demo_segs = l1 ++ l2 ∧ live demo_heap L' = l1 ++ (p, k) :: l2) ∧
                m' = put_at p (replicate (Z.to_nat (2 ^ 40 * 2 ^ 30)) 0) demo_bytes
    | None => L' = demo_segs ∧ m' = demo_bytes
    end ∧ (2 ^ 64 <= 2 ^ 40 * 2 ^ 30 → r = None).
Proof.
  split; [lia|].
  apply (calloc_zeroes demo_heap demo_arena demo_segs demo_bytes (2 ^ 40) (2 ^ 30) demo_placed demo_arena_ok demo_backed); [lia|lia|].
  right. lia.
Defined.

Lemma realloc_keeps_witness :
  ∃ r h' m' L', realloc demo_heap (Some (demo_heap + 32)) 1000 (demo_arena, demo_bytes) = Done (r, (h', m')) ∧ arena_ok demo_heap h' L' ∧
    match r with
    | Some q => ∃ k, (q, k) ∈ live demo_heap L' ∧ 1000 <= k ∧ bytes_at m' q (replicate 112 7) ∧
        (∀ x, x ∈ live demo_heap demo_segs → x ≠ (demo_heap + 32, 112) → x ∈ live demo_heap L') ∧
        (∀ a, a < q ∨ q + k <= a → m' !! a = demo_bytes !! a)
    | None => L' = demo_segs ∧ m' = demo_bytes
    end.
Proof.
  apply (realloc_keeps demo_heap demo_arena demo_segs demo_bytes _ 112 (replicate 112 7) 1000
           demo_placed demo_arena_ok demo_backed).
  - by left.
  - apply put_at_in.
  - by rewrite length_replicate.
  - apply Forall_replicate. unfold byte. lia.
  - lia.
Defined.
