(* ===== verification/USys.v ===== *)
(** * System calls of user space (userspace/lib/syscall.c, the wrappers of userspace/lib/misc.c)

    A program is a client of the class [userland]: its memory, and the instruction that
    enters the kernel. The kernel of Syscall is an instance, for the calls that return: a program that
    is suspended or has ended has no next step there. *)

From S2P Require Import Prelude CString Task Vfs Kernel Loader Syscall.

Local Open Scope Z_scope.

Class userland (W : Type) := Userland {
  wmem : W → mem;
  set_wmem : mem → W → W;
  __syscall6 : Z → Z → Z → Z → Z → Z → Z → st W Z;
}.

(** What every program can rely on. *)
Class UserlandLaws (W : Type) `{!userland W} : Prop := {
  wmem_set : ∀ m w, wmem (set_wmem m w) = m;
  set_wmem_set : ∀ m m' w, set_wmem m (set_wmem m' w) = set_wmem m w;
  set_wmem_id : ∀ w, set_wmem (wmem w) w = w;
}.

Section syscall.
Context {W : Type} `{!userland W}.

Definition __syscall0 (n : Z) : st W Z := __syscall6 n 0 0 0 0 0 0.
Definition __syscall1 (n a : Z) : st W Z := __syscall6 n a 0 0 0 0 0.
Definition __syscall2 (n a b : Z) : st W Z := __syscall6 n a b 0 0 0 0.
Definition __syscall3 (n a b c : Z) : st W Z := __syscall6 n a b c 0 0 0.

(** The cast of a result to [int]. *)
Definition to_int (m : st W Z) : st W Z := r ← m; mret (i32 r).

Definition sys_write (fd buf len : Z) : st W Z := __syscall3 1 (i32 fd) buf (i64 len).
Definition sys_read (fd buf len : Z) : st W Z := __syscall3 2 (i32 fd) buf (i64 len).
Definition sys_sleep (ms : Z) : st W Z := to_int (__syscall1 3 (u32 ms)).
Definition sys_getpid : st W Z := to_int (__syscall0 4).
Definition sys_open (path flags : Z) : st W Z := to_int (__syscall2 5 path (i32 flags)).
Definition sys_close (fd : Z) : st W Z := to_int (__syscall1 6 (i32 fd)).
Definition sys_lseek (fd off whence : Z) : st W Z := __syscall3 7 (i32 fd) off (i32 whence).
Definition sys_chdir (path : Z) : st W Z := to_int (__syscall1 16 path).
Definition sys_getcwd (buf size : Z) : st W Z := __syscall2 17 buf (i64 size).
Definition sys_mkdir (path mode : Z) : st W Z := to_int (__syscall2 18 path (i32 mode)).
Definition sys_unlink (path : Z) : st W Z := to_int (__syscall1 19 path).
Definition sys_rmdir (path : Z) : st W Z := to_int (__syscall1 20 path).
Definition sys_fb_info (out : Z) : st W Z := to_int (__syscall1 8 out).
Definition sys_fb_blit (xrgb w h : Z) : st W Z := to_int (__syscall3 9 xrgb (u32 w) (u32 h)).
Definition sys_key_get : st W Z := to_int (__syscall0 10).
Definition sys_uptime_ms : st W Z := r ← __syscall0 11; mret (u64 r).
Definition sys_spawn (path argv : Z) : st W Z := to_int (__syscall2 12 path argv).
Definition sys_waitpid (pid status options : Z) : st W Z := to_int (__syscall3 13 (i32 pid) status (i32 options)).
Definition sys_yield : st W Z := to_int (__syscall0 14).
Definition sys_readdir (fd buf max : Z) : st W Z := to_int (__syscall3 15 (i32 fd) buf (i32 max)).

(** [for (;;) ;] after the call, which does not return. *)
Definition _exit (code : Z) : st W unit := _ ← __syscall1 0 (i32 code); st_stop Diverge.

(** ** The memory of the program *)

Definition on_wmem (f : mem → run mem) : st W unit := λ w,
  match f (wmem w) with Done m => Done (tt, set_wmem m w) | Stop e => Stop e end.
Definition read_wmem {A} (f : mem → run A) : st W A := λ w,
  match f (wmem w) with Done a => Done (a, w) | Stop e => Stop e end.
End syscall.

(** ** The kernel as the other side *)

Section kernel.
Context {M F : Type} `{!task_mem M, !user_mem M, !fs_ops F}.
Variable idle : Z.

(** The registers at the call: those that the stub sets, over the others. *)
Definition call_regs (r : cpu_state) (nr a b c d e f : Z) : cpu_state :=
  CpuState (u64 nr) (rbx r) (rcx r) (u64 c) (u64 a) (u64 b) (rbp r) (u64 e) (u64 f) (u64 d) (r11 r) (r12 r)
    (r13 r) (r14 r) (r15 r) (vec r) (errcode r) (rip r) (cs r) (rflags r) (rsp r) (ss r).

Definition kernel_call (r : cpu_state) (nr a b c d e f : Z) : st (kern M F) Z := λ k,
  match syscall_handler_c idle (call_regs r nr a b c d e f) k with
  | Done (Returns r, k) => Done (i64 (rax r), k)
  | Done (_, _) => Stop Diverge
  | Stop e => Stop e
  end.

#[local] Instance kern_userland (r : cpu_state) : userland (kern M F) := {|
  wmem := umem;
  set_wmem := put_umem;
  __syscall6 := kernel_call r;
|}.

Lemma kern_userland_laws r : UserlandLaws (kern M F) (userland0 := kern_userland r).
Proof. by split; [| |intros [c v m]]. Qed.
End kernel.
