(* ===== verification/UPrintf.v ===== *)
(** * Formatted output of user space (userspace/lib/printf.c)

    [vfmt] over a sink, which is a buffer of the caller or a file descriptor with a buffer of its own.
    A format and the string arguments are lists of characters without their terminator, and an
    argument of the wrong kind is a [Fault]. The addresses of the buffers in the stack frame are
    parameters. The reference renders a format to the list of its characters. *)

From S2P Require Import Prelude CString Bytes UString Syscall SysMem USys.

Local Open Scope Z_scope.

Inductive uarg := UInt (z : Z) | UStr (s : list Z) | UPtr (p : Z).

Definition arg_int (args : list uarg) : run (Z * list uarg) :=
  match args with UInt z :: args => Done (z, args) | _ => Stop Fault end.

(** The null pointer is replaced by a text. *)
Definition arg_str (args : list uarg) : run (list Z * list uarg) :=
  match args with
  | UStr s :: args => Done (s, args)
  | UPtr p :: args => if p =? 0 then Done (chars "(null)", args) else Stop Fault
  | _ => Stop Fault
  end.

Definition arg_ptr (args : list uarg) : run (Z * list uarg) :=
  match args with UPtr p :: args => Done (p, args) | _ => Stop Fault end.

(** ** Directives *)

Record spec := Spec {
  left : bool; zero : bool; plus : bool; space : bool; alt : bool;
  width : Z; prec : Z; lng : Z
}.

Definition set_left (s : spec) : spec := Spec true (zero s) (plus s) (space s) (alt s) (width s) (prec s) (lng s).
Definition set_width (w : Z) (s : spec) : spec := Spec (left s) (zero s) (plus s) (space s) (alt s) w (prec s) (lng s).
Definition set_prec (p : Z) (s : spec) : spec := Spec (left s) (zero s) (plus s) (space s) (alt s) (width s) p (lng s).
Definition set_lng (l : Z) (s : spec) : spec := Spec (left s) (zero s) (plus s) (space s) (alt s) (width s) (prec s) l.

Fixpoint flags (fmt : list Z) (s : spec) : list Z * spec :=
  match fmt with
  | [] => ([], s)
  | c :: rest =>
      if c =? 45 then flags rest (set_left s)
      else if c =? 48 then flags rest (Spec (left s) true (plus s) (space s) (alt s) (width s) (prec s) (lng s))
      else if c =? 43 then flags rest (Spec (left s) (zero s) true (space s) (alt s) (width s) (prec s) (lng s))
      else if c =? 32 then flags rest (Spec (left s) (zero s) (plus s) true (alt s) (width s) (prec s) (lng s))
      else if c =? 35 then flags rest (Spec (left s) (zero s) (plus s) (space s) true (width s) (prec s) (lng s))
      else (fmt, s)
  end.

(** [while (isdigit( *fmt)) n = n * 10 + ( *fmt++ - '0');] *)
Fixpoint digits (fmt : list Z) (n : Z) : list Z * Z :=
  match fmt with
  | c :: rest => if isdigit c then digits rest (i32 (i32 (n * 10) + (c - 48))) else (fmt, n)
  | [] => ([], n)
  end.

Definition field_width (fmt : list Z) (args : list uarg) (s : spec) : run (list Z * list uarg * spec) :=
  match fmt with
  | 42 :: rest =>
      '(v, args) ← arg_int args;
      let w := i32 v in
      Done (rest, args, if w <? 0 then set_width (i32 (- w)) (set_left s) else set_width w s)
  | _ => let '(rest, w) := digits fmt 0 in Done (rest, args, set_width w s)
  end.

Definition precision (fmt : list Z) (args : list uarg) (s : spec) : run (list Z * list uarg * spec) :=
  match fmt with
  | 46 :: fmt =>
      '(rest, args, p) ←
        match fmt with
        | 42 :: rest => '(v, args) ← arg_int args; Done (rest, args, i32 v)
        | _ => let '(rest, p) := digits fmt 0 in Done (rest, args, p)
        end;
      Done (rest, args, set_prec (if p <? 0 then -1 else p) s)
  | _ => Done (fmt, args, s)
  end.

Fixpoint lengths (fmt : list Z) (n : Z) : list Z * Z :=
  match fmt with
  | c :: rest =>
      if c =? 108 then lengths rest (n + 1)
      else if (c =? 104) || (c =? 122) || (c =? 106) || (c =? 116) then lengths rest n
      else (fmt, n)
  | [] => ([], n)
  end.

(** What is between the percent sign and the conversion. *)
Definition directive (fmt : list Z) (args : list uarg) : run (list Z * list uarg * spec) :=
  let '(fmt, s) := flags fmt (Spec false false false false false 0 (-1) 0) in
  '(fmt, args, s) ← field_width fmt args s;
  '(fmt, args, s) ← precision fmt args s;
  let '(fmt, n) := lengths fmt 0 in
  Done (fmt, args, set_lng (if 2 <? n then 2 else n) s).

(** The digits of [u_to_str], of which the buffer of 32 characters has room for those of 64 bits. *)
Fixpoint udigits (fuel : nat) (v base : Z) : list Z :=
  match fuel with
  | O => []
  | S fuel => v mod base :: if v / base =? 0 then [] else udigits fuel (v / base) base
  end.

Definition digit_char (upper : bool) (d : Z) : Z :=
  if d <? 10 then d + 48 else if upper then d - 10 + 65 else d - 10 + 97.

Definition u_to_str (v base : Z) (upper : bool) : list Z := rev (digit_char upper <$> udigits 32 v base).

(** ** Sinks *)

Record sink := Sink { s_buf : option Z; s_cap : Z; s_len : Z; s_fd : Z; s_fn : Z }.

Section printf.
Context {W : Type} `{!userland W}.

(** The addresses of [fbuf] of the sink, and of the buffer of [putchar]. *)
Variables fbuf ch : Z.

Definition get_sink : st (sink * W) sink := s ← st_get; mret (fst s).
Definition upd_sink (f : sink → sink) : st (sink * W) unit := st_modify (λ s, (f (fst s), snd s)).
Definition on_w {A} (m : st W A) : st (sink * W) A := λ s,
  match m (snd s) with Done (a, w) => Done (a, (fst s, w)) | Stop e => Stop e end.

Definition sink_flush : st (sink * W) unit :=
  s ← get_sink;
  if (0 <=? s_fd s) && negb (s_fn s =? 0) then
    _ ← on_w (sys_write (s_fd s) fbuf (s_fn s));
    upd_sink (λ s, Sink (s_buf s) (s_cap s) (s_len s) (s_fd s) 0)
  else mret tt.

Definition sink_putc (c : Z) : st (sink * W) unit :=
  s ← get_sink;
  _ ← match s_buf s with
      | Some buf => if u64 (s_len s + 1) <? s_cap s then on_w (on_wmem (stb (buf + s_len s) c)) else mret tt
      | None =>
          if 0 <=? s_fd s then
            _ ← (if s_fn s =? 128 then sink_flush else mret tt);
            s ← get_sink;
            _ ← on_w (on_wmem (stb (fbuf + s_fn s) c));
            upd_sink (λ s, Sink (s_buf s) (s_cap s) (s_len s) (s_fd s) (s_fn s + 1))
          else mret tt
      end;
  upd_sink (λ s, Sink (s_buf s) (s_cap s) (u64 (s_len s + 1)) (s_fd s) (s_fn s)).

Fixpoint sink_write (l : list Z) : st (sink * W) unit :=
  match l with [] => mret tt | c :: l => _ ← sink_putc c; sink_write l end.

Fixpoint pad_loop (n : nat) (c : Z) : st (sink * W) unit :=
  match n with O => mret tt | S n => _ ← sink_putc c; pad_loop n c end.

(** [while (n-- > 0)] *)
Definition sink_pad (c n : Z) : st (sink * W) unit := pad_loop (Z.to_nat n) c.

(** ** Conversions *)

Definition when (b : bool) (m : st (sink * W) unit) : st (sink * W) unit := if b then m else mret tt.

(** The integer argument, of the size that the length modifier says. *)
Definition signed_arg (n v : Z) : Z := if n =? 0 then i32 v else i64 v.
Definition unsigned_arg (n v : Z) : Z := if n =? 0 then u32 v else u64 v.

Definition conv_signed (s : spec) (v : Z) : st (sink * W) unit :=
  let mag := if v <? 0 then u64 (u64 (- (v + 1)) + 1) else u64 v in
  let sign := if v <? 0 then [45] else if plus s then [43] else if space s then [32] else [] in
  let num := u_to_str mag 10 false in
  let nl := Z.of_nat (length num) in
  let zpad := if (0 <=? prec s) && (nl <? prec s) then prec s - nl else 0 in
  let body := nl + zpad + Z.of_nat (length sign) in
  let wpad := if body <? width s then width s - body else 0 in
  _ ← when (negb (left s) && negb (zero s)) (sink_pad 32 wpad);
  _ ← sink_write sign;
  _ ← when (negb (left s) && zero s && (prec s <? 0)) (sink_pad 48 wpad);
  _ ← sink_pad 48 zpad;
  _ ← sink_write num;
  when (left s) (sink_pad 32 wpad).

Definition conv_unsigned (s : spec) (conv v : Z) : st (sink * W) unit :=
  let base := if conv =? 111 then 8 else if conv =? 117 then 10 else 16 in
  let num := u_to_str v base (conv =? 88) in
  let prefix := if alt s && ((conv =? 120) || (conv =? 88)) && negb (v =? 0) then [48; conv] else [] in
  let nl := Z.of_nat (length num) in
  let zpad := if (0 <=? prec s) && (nl <? prec s) then prec s - nl else 0 in
  let body := nl + zpad + Z.of_nat (length prefix) in
  let wpad := if body <? width s then width s - body else 0 in
  _ ← when (negb (left s) && negb (zero s)) (sink_pad 32 wpad);
  _ ← sink_write prefix;
  _ ← when (negb (left s) && zero s && (prec s <? 0)) (sink_pad 48 wpad);
  _ ← sink_pad 48 zpad;
  _ ← sink_write num;
  when (left s) (sink_pad 32 wpad).

Definition conv_char (s : spec) (v : Z) : st (sink * W) unit :=
  let wpad := if 1 <? width s then width s - 1 else 0 in
  _ ← when (negb (left s)) (sink_pad 32 wpad);
  _ ← sink_putc (u8 v);
  when (left s) (sink_pad 32 wpad).

(** [strnlen] stops at the precision, when there is one. *)
Definition conv_string (s : spec) (str : list Z) : st (sink * W) unit :=
  let n := i32 (if 0 <=? prec s then Z.min (prec s) (Z.of_nat (length str)) else Z.of_nat (length str)) in
  let wpad := if n <? width s then width s - n else 0 in
  _ ← when (negb (left s)) (sink_pad 32 wpad);
  _ ← sink_write (take (Z.to_nat n) str);
  when (left s) (sink_pad 32 wpad).

Definition conv_pointer (s : spec) (p : Z) : st (sink * W) unit :=
  let num := u_to_str (u64 p) 16 false in
  let nl := Z.of_nat (length num) in
  let wpad := if nl + 2 <? width s then width s - nl - 2 else 0 in
  _ ← when (negb (left s)) (sink_pad 32 wpad);
  _ ← sink_write [48; 120];
  _ ← sink_write num;
  when (left s) (sink_pad 32 wpad).

(** The number of characters so far, stored through a pointer. *)
Definition conv_count (p : Z) : st (sink * W) unit :=
  if p =? 0 then mret tt
  else s ← get_sink; on_w (on_wmem (store_bytes p (put32 (u32 (s_len s))))).

(** The conversion at the head of the format: the rest of the format and the arguments. *)
Definition convert (s : spec) (fmt : list Z) (args : list uarg) : st (sink * W) (list Z * list uarg) :=
  match fmt with
  | [] => mret ([], args)
  | conv :: rest =>
      if (conv =? 100) || (conv =? 105) then
        '(v, args) ← st_run (arg_int args); _ ← conv_signed s (signed_arg (lng s) v); mret (rest, args)
      else if (conv =? 117) || (conv =? 111) || (conv =? 120) || (conv =? 88) then
        '(v, args) ← st_run (arg_int args); _ ← conv_unsigned s conv (unsigned_arg (lng s) v); mret (rest, args)
      else if conv =? 99 then
        '(v, args) ← st_run (arg_int args); _ ← conv_char s v; mret (rest, args)
      else if conv =? 115 then
        '(str, args) ← st_run (arg_str args); _ ← conv_string s str; mret (rest, args)
      else if conv =? 112 then
        '(p, args) ← st_run (arg_ptr args); _ ← conv_pointer s p; mret (rest, args)
      else if conv =? 110 then
        '(p, args) ← st_run (arg_ptr args); _ ← conv_count p; mret (rest, args)
      else if conv =? 37 then _ ← sink_putc 37; mret (rest, args)
      else _ ← sink_putc 37; _ ← sink_putc conv; mret (rest, args)
  end.

Fixpoint vfmt_loop (fuel : nat) (fmt : list Z) (args : list uarg) : st (sink * W) unit :=
  match fuel, fmt with
  | _, [] => mret tt
  | O, _ => st_stop Diverge
  | S fuel, c :: rest =>
      if negb (c =? 37) then _ ← sink_putc c; vfmt_loop fuel rest args
      else
        '(rest, args, s) ← st_run (directive rest args);
        '(rest, args) ← convert s rest args;
        vfmt_loop fuel rest args
  end.

Definition vfmt (fmt : list Z) (args : list uarg) : st (sink * W) Z :=
  _ ← vfmt_loop (length fmt) fmt args;
  _ ← sink_flush;
  s ← get_sink;
  mret (i32 (s_len s)).

(** ** The functions of the interface *)

Definition with_sink {A} (s : sink) (m : st (sink * W) A) : st W (A * sink) := λ w,
  match m (s, w) with Done (a, (s, w)) => Done ((a, s), w) | Stop e => Stop e end.

Definition __vfmt_buf (buf : option Z) (n : Z) (fmt : list Z) (args : list uarg) : st W Z :=
  '(r, s) ← with_sink (Sink buf n 0 (-1) 0) (vfmt fmt args);
  _ ← match buf with
      | Some b =>
          if negb (n =? 0) then on_wmem (stb (b + (if s_len s <? n then s_len s else n - 1)) 0) else mret tt
      | None => mret tt
      end;
  mret r.

Definition vsnprintf (buf : option Z) (n : Z) (fmt : list Z) (args : list uarg) : st W Z := __vfmt_buf buf n fmt args.
Definition vsprintf (buf : option Z) (fmt : list Z) (args : list uarg) : st W Z := __vfmt_buf buf (2 ^ 64 - 1) fmt args.
Definition snprintf (buf : option Z) (n : Z) (fmt : list Z) (args : list uarg) : st W Z := __vfmt_buf buf n fmt args.
Definition sprintf (buf : option Z) (fmt : list Z) (args : list uarg) : st W Z := __vfmt_buf buf (2 ^ 64 - 1) fmt args.

Definition vfd (fd : Z) (fmt : list Z) (args : list uarg) : st W Z :=
  '(r, _) ← with_sink (Sink None 0 0 fd 0) (vfmt fmt args); mret r.

Definition vprintf (fmt : list Z) (args : list uarg) : st W Z := vfd 1 fmt args.
Definition printf (fmt : list Z) (args : list uarg) : st W Z := vfd 1 fmt args.

Definition putchar (c : Z) : st W Z :=
  _ ← on_wmem (stb ch c);
  r ← sys_write 1 ch 1;
  mret (if r =? 1 then c else -1).

(** [puts] gets the address of the string, since the kernel reads it. *)
Definition puts (s : Z) : st W Z :=
  len ← read_wmem (λ m, strlen m s);
  n ← sys_write 1 s len;
  if n <? 0 then mret (-1)
  else r ← putchar 10; mret (if r =? -1 then -1 else 0).
End printf.

(** ** What a format means *)

Definition spaces (n : Z) : list Z := replicate (Z.to_nat n) 32.
Definition zeros (n : Z) : list Z := replicate (Z.to_nat n) 48.
Definition len (l : list Z) : Z := Z.of_nat (length l).

(** A text in a field of a width. *)
Definition field (s : spec) (l : list Z) : list Z :=
  if left s then l ++ spaces (width s - len l) else spaces (width s - len l) ++ l.

(** A number: at least as many digits as the precision, in a field. The zeros of a field are between
    the sign and the digits; with a precision, the flag for zeros removes the padding of the field. *)
Definition number (s : spec) (sign num : list Z) : list Z :=
  let digits := zeros (prec s - len num) ++ num in
  if left s || negb (zero s) then field s (sign ++ digits)
  else if prec s <? 0 then sign ++ zeros (width s - len (sign ++ num)) ++ num
  else sign ++ digits.

Definition sign_of (s : spec) (v : Z) : list Z :=
  if v <? 0 then [45] else if plus s then [43] else if space s then [32] else [].

Definition base_of (conv : Z) : Z := if conv =? 111 then 8 else if conv =? 117 then 10 else 16.

Definition prefix_of_base (s : spec) (conv v : Z) : list Z :=
  if alt s && ((conv =? 120) || (conv =? 88)) && negb (v =? 0) then [48; conv] else [].

Definition cut (s : spec) (l : list Z) : list Z := if 0 <=? prec s then take (Z.to_nat (prec s)) l else l.

(** The digits of a natural number in a base, the most significant first. *)
Definition numeral_text (v base : Z) (upper : bool) : list Z := rev (digit_char upper <$> udigits 64 v base).

Definition of_run {A} (m : run A) : option A := match m with Done a => Some a | Stop _ => None end.

(** The text of a conversion; the one that stores a count is left out. *)
Definition render_conv (s : spec) (fmt : list Z) (args : list uarg) : option (list Z * list Z * list uarg) :=
  match fmt with
  | [] => Some ([], [], args)
  | conv :: rest =>
      if (conv =? 100) || (conv =? 105) then
        '(v, args) ← of_run (arg_int args);
        let v := signed_arg (lng s) v in
        Some (number s (sign_of s v) (u_to_str (Z.abs v) 10 false), rest, args)
      else if (conv =? 117) || (conv =? 111) || (conv =? 120) || (conv =? 88) then
        '(v, args) ← of_run (arg_int args);
        let v := unsigned_arg (lng s) v in
        Some (number s (prefix_of_base s conv v) (u_to_str v (base_of conv) (conv =? 88)), rest, args)
      else if conv =? 99 then '(v, args) ← of_run (arg_int args); Some (field s [u8 v], rest, args)
      else if conv =? 115 then
        '(str, args) ← of_run (arg_str args);
        if 2 ^ 31 <=? len str then None else Some (field s (cut s str), rest, args)
      else if conv =? 112 then
        '(p, args) ← of_run (arg_ptr args);
        Some (field s ([48; 120] ++ u_to_str (u64 p) 16 false), rest, args)
      else if conv =? 110 then None
      else if conv =? 37 then Some ([37], rest, args)
      else Some ([37; conv], rest, args)
  end.

Fixpoint render (fuel : nat) (fmt : list Z) (args : list uarg) : option (list Z) :=
  match fuel, fmt with
  | _, [] => Some []
  | O, _ => None
  | S fuel, c :: rest =>
      if negb (c =? 37) then out ← render fuel rest args; Some (c :: out)
      else
        '(rest, args, s) ← of_run (directive rest args);
        '(out, rest, args) ← render_conv s rest args;
        out' ← render fuel rest args;
        Some (out ++ out')
  end.

Definition format_text (fmt : list Z) (args : list uarg) : option (list Z) := render (length fmt) fmt args.

Lemma len_app l k : len (l ++ k) = len l + len k.
Proof. unfold len. rewrite length_app. lia. Qed.

Lemma len_nonneg l : 0 <= len l.
Proof. unfold len. lia. Qed.

Lemma len_replicate n c : len (replicate n c) = Z.of_nat n.
Proof. unfold len. by rewrite length_replicate. Qed.

(** ** Conversions write their text *)

Section writes.
Context {W : Type} `{!userland W}.
Variable fbuf : Z.
Implicit Types (s : spec) (σ : sink * W).

Lemma bind_write l k (m : st (sink * W) unit) σ :
  (∀ σ', m σ' = sink_write fbuf k σ') → (_ ← sink_write fbuf l; m) σ = sink_write fbuf (l ++ k) σ.
Proof.
  intros Hm. revert σ. induction l as [|c l IH]; intros σ; cbn [sink_write app]; [apply Hm|].
  unfold mbind, st_bind in *. destruct (sink_putc fbuf c σ) as [[[] σ']|]; [|done]. apply IH.
Qed.

Lemma pad_write c n σ : sink_pad fbuf c n σ = sink_write fbuf (replicate (Z.to_nat n) c) σ.
Proof.
  unfold sink_pad. generalize (Z.to_nat n). intros k. revert σ.
  induction k as [|k IH]; intros σ; cbn [pad_loop replicate sink_write]; [done|].
  unfold mbind, st_bind. destruct (sink_putc fbuf c σ) as [[[] σ']|]; [|done]. apply IH.
Qed.

Lemma putc_write c σ : sink_putc fbuf c σ = sink_write fbuf [c] σ.
Proof. cbn [sink_write]. unfold mbind, st_bind. by destruct (sink_putc fbuf c σ) as [[[] σ']|]. Qed.

Lemma when_pad_write b c n σ :
  when b (sink_pad fbuf c n) σ = sink_write fbuf (if b then replicate (Z.to_nat n) c else []) σ.
Proof. destruct b; [apply pad_write|done]. Qed.

(** Replaces each write by the list it writes. *)
Lemma bind_as l k (m0 m : st (sink * W) unit) σ :
  (∀ σ', m0 σ' = sink_write fbuf l σ') → (∀ σ', m σ' = sink_write fbuf k σ') →
  (_ ← m0; m) σ = sink_write fbuf (l ++ k) σ.
Proof.
  intros H0 Hm. rewrite <- (bind_write l k m σ Hm). unfold mbind, st_bind. by rewrite H0.
Qed.

Ltac as_writes :=
  repeat (eapply bind_as; [first [apply when_pad_write|apply pad_write|apply putc_write|done]|intros ?]);
  first [apply when_pad_write|apply putc_write|done].

Lemma number_layout s (sign num : list Z) :
  let nl := len num in
  let zpad := if (0 <=? prec s) && (nl <? prec s) then prec s - nl else 0 in
  let body := nl + zpad + len sign in
  let wpad := if body <? width s then width s - body else 0 in
  (if negb (left s) && negb (zero s) then replicate (Z.to_nat wpad) 32 else []) ++ sign ++
  (if negb (left s) && zero s && (prec s <? 0) then replicate (Z.to_nat wpad) 48 else []) ++
  replicate (Z.to_nat zpad) 48 ++ num ++ (if left s then replicate (Z.to_nat wpad) 32 else []) = number s sign num.
Proof.
  intros nl zpad body wpad. pose proof (len_nonneg num) as Hnum. fold nl in Hnum.
  assert (replicate (Z.to_nat zpad) 48 = zeros (prec s - len num)) as Ez.
  { unfold zeros, zpad. fold nl. f_equal. destruct (Z.leb_spec 0 (prec s)), (Z.ltb_spec nl (prec s)); cbn [andb]; lia. }
  assert (Z.to_nat wpad = Z.to_nat (width s - len (sign ++ zeros (prec s - len num) ++ num))) as Ew.
  { rewrite <- Ez, !len_app, len_replicate. fold nl. unfold wpad, body.
    destruct (Z.ltb_spec (nl + zpad + len sign) (width s)); [f_equal|];
      unfold zpad; destruct (Z.leb_spec 0 (prec s)), (Z.ltb_spec nl (prec s)); cbn [andb] in *; lia. }
  rewrite Ez, Ew. unfold number, field, spaces.
  destruct (left s), (zero s); cbn [negb andb orb app]; rewrite ?app_nil_r, <- ?app_assoc; try done.
  destruct (Z.ltb_spec (prec s) 0) as [Hp|Hp]; [|done].
  assert (zeros (prec s - len num) = []) as -> by (unfold zeros; fold nl; by replace (Z.to_nat (prec s - nl)) with 0%nat by lia).
  done.
Qed.

Lemma conv_signed_write s v σ :
  - 2 ^ 63 <= v < 2 ^ 63 → conv_signed fbuf s v σ = sink_write fbuf (number s (sign_of s v) (u_to_str (Z.abs v) 10 false)) σ.
Proof.
  intros Hv. unfold conv_signed. cbv zeta.
  assert ((if v <? 0 then u64 (u64 (- (v + 1)) + 1) else u64 v) = Z.abs v) as ->.
  { destruct (Z.ltb_spec v 0); [rewrite (wrap_small 64 (- (v + 1))) by lia|]; rewrite wrap_small; lia. }
  fold (sign_of s v). rewrite <- number_layout. cbv zeta. as_writes.
Qed.

Lemma conv_unsigned_write s conv v σ :
  conv_unsigned fbuf s conv v σ =
    sink_write fbuf (number s (prefix_of_base s conv v) (u_to_str v (base_of conv) (conv =? 88))) σ.
Proof.
  unfold conv_unsigned. cbv zeta. fold (base_of conv) (prefix_of_base s conv v).
  rewrite <- number_layout. cbv zeta. as_writes.
Qed.

Lemma field_layout s l n :
  n = (if len l <? width s then width s - len l else 0) →
  (if negb (left s) then replicate (Z.to_nat n) 32 else []) ++ l ++ (if left s then replicate (Z.to_nat n) 32 else []) = field s l.
Proof.
  intros ->. unfold field, spaces.
  assert (Z.to_nat (if len l <? width s then width s - len l else 0) = Z.to_nat (width s - len l)) as ->
    by (destruct (Z.ltb_spec (len l) (width s)); lia).
  destruct (left s); cbn [negb app]; [done|by rewrite app_nil_r].
Qed.

Lemma conv_char_write s v σ : conv_char fbuf s v σ = sink_write fbuf (field s [u8 v]) σ.
Proof. unfold conv_char. cbv zeta. rewrite <- (field_layout s [u8 v] _ eq_refl). as_writes. Qed.

Lemma conv_string_write s str σ :
  len str < 2 ^ 31 → conv_string fbuf s str σ = sink_write fbuf (field s (cut s str)) σ.
Proof.
  intros Hl. unfold conv_string. cbv zeta. fold (len str). pose proof (len_nonneg str).
  set (n := i32 (if 0 <=? prec s then Z.min (prec s) (len str) else len str)).
  assert (n = len (cut s str) ∧ take (Z.to_nat n) str = cut s str) as [En Et].
  { unfold n, cut. destruct (Z.leb_spec 0 (prec s)).
    - rewrite swrap_small by lia. unfold len in *. split; [rewrite length_take; lia|].
      destruct (decide (prec s <= Z.of_nat (length str))); [f_equal; lia|]. rewrite !take_ge by lia. done.
    - rewrite swrap_small by lia. split; [done|]. unfold len. by rewrite Nat2Z.id, firstn_all. }
  rewrite Et, <- (field_layout s (cut s str) (if n <? width s then width s - n else 0)) by (by rewrite En). as_writes.
Qed.

Lemma conv_pointer_write s p σ :
  conv_pointer fbuf s p σ = sink_write fbuf (field s ([48; 120] ++ u_to_str (u64 p) 16 false)) σ.
Proof.
  unfold conv_pointer. cbv zeta. set (num := u_to_str (u64 p) 16 false).
  rewrite <- (field_layout s ([48; 120] ++ num) (if Z.of_nat (length num) + 2 <? width s then width s - Z.of_nat (length num) - 2 else 0)).
  - rewrite <- (app_assoc [48; 120]). as_writes.
  - rewrite len_app. change (len [48; 120]) with 2. unfold len.
    destruct (Z.ltb_spec (Z.of_nat (length num) + 2) (width s)), (Z.ltb_spec (2 + Z.of_nat (length num)) (width s)); lia.
Qed.

Lemma signed_arg_range n v : - 2 ^ 63 <= signed_arg n v < 2 ^ 63.
Proof. unfold signed_arg. pose proof (swrap_range 32 v). pose proof (swrap_range 64 v). case_if; lia. Qed.

Lemma mret_after {A} l (m : st (sink * W) unit) (a : A) σ :
  m σ = sink_write fbuf l σ → (_ ← m; mret a) σ = (_ ← sink_write fbuf l; mret a) σ.
Proof. intros E. unfold mbind, st_bind. by rewrite E. Qed.

(** A step that reads an argument. *)
Ltac take_arg E := unfold mbind at 1, st_bind at 1, st_run; try rewrite E; cbn beta iota.

Lemma convert_write s fmt args out rest args' σ :
  render_conv s fmt args = Some (out, rest, args') →
  convert fbuf s fmt args σ = (_ ← sink_write fbuf out; mret (rest, args')) σ.
Proof.
  unfold render_conv, convert. destruct fmt as [|conv fmt]; [by intros [= <- <- <-]|]. intros H.
  destruct ((conv =? 100) || (conv =? 105)).
  { destruct (arg_int args) as [[v k]|] eqn:E; [|done]. injection H as <- <- <-. take_arg E.
    apply mret_after, conv_signed_write, signed_arg_range. }
  destruct ((conv =? 117) || (conv =? 111) || (conv =? 120) || (conv =? 88)).
  { destruct (arg_int args) as [[v k]|] eqn:E; [|done]. injection H as <- <- <-. take_arg E.
    apply mret_after, conv_unsigned_write. }
  destruct (conv =? 99).
  { destruct (arg_int args) as [[v k]|] eqn:E; [|done]. injection H as <- <- <-. take_arg E.
    apply mret_after, conv_char_write. }
  destruct (conv =? 115).
  { destruct (arg_str args) as [[str k]|] eqn:E; [|done]. cbn in H. destruct (Z.leb_spec (2 ^ 31) (len str)); [done|].
    injection H as <- <- <-. take_arg E. by apply mret_after, conv_string_write. }
  destruct (conv =? 112).
  { destruct (arg_ptr args) as [[p k]|] eqn:E; [|done]. injection H as <- <- <-. take_arg E.
    apply mret_after, conv_pointer_write. }
  destruct (conv =? 110); [done|].
  destruct (conv =? 37); injection H as <- <- <-; cbn [sink_write]; unfold mbind, st_bind.
  - by destruct (sink_putc fbuf 37 σ) as [[[] σ']|].
  - destruct (sink_putc fbuf 37 σ) as [[[] σ']|]; [|done]. by destruct (sink_putc fbuf conv σ') as [[[] σ'']|].
Qed.

(** What is written is the text of the format. *)
Lemma vfmt_loop_write fuel fmt args out σ :
  render fuel fmt args = Some out → vfmt_loop fbuf fuel fmt args σ = sink_write fbuf out σ.
Proof.
  revert fmt args out σ. induction fuel as [|fuel IH]; intros [|c fmt] args out σ; cbn [render vfmt_loop];
    try (by intros [= <-]); try done.
  destruct (negb (c =? 37)).
  - intros (k & Hk & [= <-])%bind_Some. apply (bind_as [c] k); [apply putc_write|]. intros σ'. by apply IH.
  - intros ([[rest k] s] & Hd & ([[o rest'] k'] & Hc & (o' & Hr & [= <-])%bind_Some)%bind_Some)%bind_Some.
    destruct (directive fmt args) as [[[r0 k0] s0]|] eqn:Ed; [|done]. injection Hd as -> -> ->.
    take_arg Ed. unfold mbind at 1, st_bind at 1. rewrite (convert_write _ _ _ _ _ _ σ Hc).
    rewrite <- (bind_write o o' (vfmt_loop fbuf fuel rest' k')) by (intros σ'; by apply IH).
    unfold mbind, st_bind. by destruct (sink_write fbuf o σ) as [[[] σ']|].
Qed.
End writes.

(** ** Sinks *)

Section sinks.
Context {W : Type} `{!userland W, !UserlandLaws W}.
Variables fbuf ch : Z.

Lemma on_wmem_Done f m (w : W) : f (wmem w) = Done m → on_wmem f w = Done (tt, set_wmem m w).
Proof. unfold on_wmem. by intros ->. Qed.

Lemma on_w_Done {A} (m : st W A) a s (w w' : W) : m w = Done (a, w') → on_w m (s, w) = Done (a, (s, w')).
Proof. unfold on_w. cbn. by intros ->. Qed.

(** A buffer of [cap] characters, one of them for the terminator, takes the start of the text. *)
Lemma buf_write b cap n out (w : W) :
  0 <= n → n + len out < 2 ^ 63 → Forall byte out →
  mapped (wmem w) (b + n) (length (take (Z.to_nat (cap - 1 - n)) out)) →
  sink_write fbuf out (Sink (Some b) cap n (-1) 0, w) =
    Done (tt, (Sink (Some b) cap (n + len out) (-1) 0,
               set_wmem (put_at (b + n) (take (Z.to_nat (cap - 1 - n)) out) (wmem w)) w)).
Proof using UserlandLaws0.
  intros Hn Hlen Hb. revert n w Hn Hlen. induction Hb as [|c out Hc Hb IH]; intros n w Hn Hlen Hm; cbn [sink_write].
  - rewrite take_nil. cbn [put_at]. rewrite set_wmem_id. unfold len. cbn [length Z.of_nat]. by rewrite Z.add_0_r.
  - assert (len (c :: out) = len out + 1) as El by (unfold len; cbn [length]; lia).
    pose proof (len_nonneg out). rewrite El in *.
    assert (sink_putc fbuf c (Sink (Some b) cap n (-1) 0, w) =
      Done (tt, (Sink (Some b) cap (n + 1) (-1) 0,
        if n + 1 <? cap then set_wmem (<[b + n := c]> (wmem w)) w else w))) as E.
    { unfold sink_putc, get_sink, mbind, st_bind, st_get, mret, st_ret. cbn [fst s_buf s_len s_cap].
      rewrite (wrap_small 64 (n + 1)) by lia. destruct (Z.ltb_spec (n + 1) cap) as [Hlt|Hge].
      - erewrite on_w_Done; [|apply on_wmem_Done, stb_Done; [|done]].
        + unfold upd_sink, st_modify. cbn [fst snd s_buf s_cap s_len s_fd s_fn].
          by rewrite (wrap_small 64 (n + 1)) by lia.
        + replace (Z.to_nat (cap - 1 - n)) with (S (Z.to_nat (cap - 1 - n - 1))) in Hm by lia.
          cbn [take length] in Hm. by apply mapped_S in Hm as [? _].
      - unfold upd_sink, st_modify. cbn [fst snd s_buf s_cap s_len s_fd s_fn].
        by rewrite (wrap_small 64 (n + 1)) by lia. }
    unfold mbind, st_bind. rewrite E. destruct (Z.ltb_spec (n + 1) cap) as [Hlt|Hge].
    + replace (Z.to_nat (cap - 1 - n)) with (S (Z.to_nat (cap - 1 - (n + 1)))) in * by lia. cbn [take length put_at] in *.
      rewrite IH; [|lia|lia|].
      * rewrite wmem_set, set_wmem_set, !Z.add_assoc. do 4 f_equal. lia.
      * rewrite wmem_set, Z.add_assoc. apply mapped_insert. by apply mapped_S in Hm as [_ ?].
    + replace (Z.to_nat (cap - 1 - n)) with 0%nat in * by lia. cbn [take length put_at] in *.
      rewrite IH; [|lia|lia|].
      * replace (Z.to_nat (cap - 1 - (n + 1))) with 0%nat by lia. cbn [take put_at]. do 4 f_equal. lia.
      * replace (Z.to_nat (cap - 1 - (n + 1))) with 0%nat by lia. by intros ? ?%Nat.nlt_0_r.
Qed.

(** Without a buffer and without a descriptor the characters are only counted. *)
Lemma null_write cap n out (w : W) : 0 <= n → n + len out < 2 ^ 63 →
  sink_write fbuf out (Sink None cap n (-1) 0, w) = Done (tt, (Sink None cap (n + len out) (-1) 0, w)).
Proof using Type.
  revert n. induction out as [|c out IH]; intros n Hn Hlen; cbn [sink_write].
  - unfold len. cbn [length Z.of_nat]. by rewrite Z.add_0_r.
  - assert (len (c :: out) = len out + 1) as El by (unfold len; cbn [length]; lia).
    pose proof (len_nonneg out). rewrite El in *. unfold mbind, st_bind.
    assert (sink_putc fbuf c (Sink None cap n (-1) 0, w) = Done (tt, (Sink None cap (u64 (n + 1)) (-1) 0, w))) as -> by done.
    rewrite (wrap_small 64 (n + 1)), IH by lia. do 4 f_equal. lia.
Qed.

(** ** Output to a buffer *)

(** What [snprintf] leaves in the buffer: the start of the text and a terminator. *)
Definition bounded (n : Z) (out : list Z) : list Z :=
  if n =? 0 then [] else take (Z.to_nat (n - 1)) out ++ [0].

Lemma vfmt_Done fmt args out s s' (w w' : W) :
  format_text fmt args = Some out → sink_write fbuf out (s, w) = Done (tt, (s', w')) → s_fd s' < 0 →
  with_sink s (vfmt fbuf fmt args) w = Done ((i32 (s_len s'), s'), w').
Proof using Type.
  intros Ht Hw Hfd. unfold with_sink, vfmt. unfold mbind at 1, st_bind at 1.
  rewrite (vfmt_loop_write fbuf _ _ _ _ _ Ht), Hw. unfold sink_flush, get_sink, mbind, st_bind, st_get, mret, st_ret.
  cbn [fst]. rewrite (proj2 (Z.leb_gt 0 (s_fd s'))) by lia. done.
Qed.

Lemma snprintf_Done b n fmt args out (w : W) :
  format_text fmt args = Some out → Forall byte out → len out < 2 ^ 31 → 0 <= n < 2 ^ 64 →
  mapped (wmem w) b (length (bounded n out)) →
  __vfmt_buf fbuf (Some b) n fmt args w = Done (len out, set_wmem (put_at b (bounded n out) (wmem w)) w).
Proof using UserlandLaws0.
  intros Ht Hb Hl Hn Hm. pose proof (len_nonneg out). unfold __vfmt_buf. unfold bounded in *.
  pose proof (buf_write b n 0 out w ltac:(lia) ltac:(lia) Hb) as Hw. rewrite !Z.sub_0_r, !Z.add_0_r, Z.add_0_l in Hw.
  assert (mapped (wmem w) b (length (take (Z.to_nat (n - 1)) out))) as Hm1.
  { destruct (Z.eqb_spec n 0) as [->|]; [by intros ? ?%Nat.nlt_0_r|]. rewrite length_app in Hm. intros i Hi. apply Hm. lia. }
  specialize (Hw Hm1). unfold mbind at 1, st_bind at 1.
  rewrite (vfmt_Done fmt args out _ _ w _ Ht Hw) by done. cbn [s_len]. rewrite (swrap_small 32) by lia.
  destruct (Z.eqb_spec n 0) as [->|Hne]; cbn [negb].
  - change (Z.to_nat (0 - 1)) with 0%nat. rewrite take_0. cbn [put_at]. by rewrite set_wmem_id.
  - assert (b + (if len out <? n then len out else n - 1) = b + len (take (Z.to_nat (n - 1)) out)) as Ea.
    { unfold len in *. rewrite length_take. destruct (Z.ltb_spec (Z.of_nat (length out)) n); lia. }
    rewrite Ea. unfold mbind, st_bind, mret, st_ret. erewrite on_wmem_Done.
    2: { rewrite wmem_set. apply stb_Done; [|unfold byte; lia]. unfold len.
         apply (put_at_mapped b _ (wmem w) b (length (take (Z.to_nat (n - 1)) out ++ [0])) Hm).
         rewrite length_app. cbn [length]. lia. }
    rewrite set_wmem_set, put_at_snoc. do 3 f_equal. apply map_eq. intros k.
    destruct (decide (k = b + len (take (Z.to_nat (n - 1)) out))) as [->|Hk].
    + rewrite lookup_insert_eq. rewrite lookup_put_at. unfold len.
      rewrite (proj2 (Z.ltb_ge _ _)) by lia. rewrite andb_false_r. by rewrite lookup_insert_eq.
    + rewrite lookup_insert_ne by done. rewrite !lookup_put_at. case_if; [done|]. by rewrite lookup_insert_ne by done.
Qed.

(** ** Output to a descriptor *)

(** What a descriptor promises: characters that it accepts are appended to its output [P], and the
    memory of the program stays as it is. *)
Record prints (fd : Z) (ok : Z → Prop) (P : list Z → W → Prop) : Prop := {
  pr_write : ∀ out w a l, P out w → bytes_at (wmem w) a l → Forall ok l → 0 < a → a + len l < 2 ^ 47 → l ≠ [] →
    ∃ w', sys_write fd a (len l) w = Done (len l, w') ∧ P (out ++ l) w' ∧ wmem w' = wmem w;
  pr_mem : ∀ out w m, P out w → P out (set_wmem m w);
}.

Section descriptor.
Variables (fd : Z) (ok : Z → Prop) (P : list Z → W → Prop).
Hypothesis HP : prints fd ok P.
Hypothesis Hfd : 0 <= fd.
Hypothesis Hok : ∀ c, ok c → byte c.
Hypothesis Hbuf : 0 < fbuf < 2 ^ 47 - 128.

(** The memory outside of the buffer of the sink. *)
Definition same_else (w0 w : W) : Prop :=
  mapped (wmem w) fbuf 128 ∧ ∀ a, a < fbuf ∨ fbuf + 128 <= a → wmem w !! a = wmem w0 !! a.

(** [pre] has gone to the descriptor and [pend] is in the buffer. *)
Definition fd_sink (w0 : W) (n : Z) (pre pend : list Z) (sw : sink * W) : Prop :=
  fst sw = Sink None 0 n fd (len pend) ∧ len pend <= 128 ∧ Forall ok pend ∧
  bytes_at (wmem (snd sw)) fbuf pend ∧ P pre (snd sw) ∧ same_else w0 (snd sw).

Lemma flush_Done w0 n pre pend s w :
  fd_sink w0 n pre pend (s, w) →
  ∃ w', sink_flush fbuf (s, w) = Done (tt, (Sink None 0 n fd 0, w')) ∧
        fd_sink w0 n (pre ++ pend) [] (Sink None 0 n fd 0, w').
Proof using HP Hfd Hbuf.
  intros (Es & Hl & Ho & Hb & Hp & Hs). cbn [fst snd] in *. subst s.
  unfold sink_flush, get_sink, mbind, st_bind, st_get, mret, st_ret. cbn [fst snd s_fd s_fn].
  rewrite (proj2 (Z.leb_le 0 fd) Hfd). cbn [andb]. destruct pend as [|c pend].
  - exists w. rewrite app_nil_r. split; [done|]. split; [done|]. by split.
  - assert (len (c :: pend) =? 0 = false) as -> by (apply Z.eqb_neq; unfold len; cbn [length]; lia).
    cbn [negb]. destruct (pr_write _ _ _ HP pre w fbuf (c :: pend) Hp Hb Ho) as (w' & E & Hp' & Hm); [lia|lia|done|].
    exists w'. rewrite (on_w_Done _ _ _ _ _ E). split; [done|]. split; [done|]. split; [done|].
    split; [constructor|]. cbn [snd]. split; [by intros ? ?|]. split; [done|]. unfold same_else. by rewrite Hm.
Qed.

Lemma fd_putc_Done w0 n pre pend s w c :
  fd_sink w0 n pre pend (s, w) → ok c → 0 <= n → n + 1 < 2 ^ 63 →
  ∃ pre' pend' s' w', sink_putc fbuf c (s, w) = Done (tt, (s', w')) ∧
    pre' ++ pend' = (pre ++ pend) ++ [c] ∧ fd_sink w0 (n + 1) pre' pend' (s', w').
Proof using HP Hfd Hbuf Hok UserlandLaws0.
  intros Hi Hc Hn Hn1.
  assert (∃ p1 q1 w1, (if len pend =? 128 then sink_flush fbuf else mret tt) (s, w) = Done (tt, (Sink None 0 n fd (len q1), w1)) ∧
            p1 ++ q1 = pre ++ pend ∧ len q1 < 128 ∧ fd_sink w0 n p1 q1 (Sink None 0 n fd (len q1), w1)) as (p1 & q1 & w1 & E1 & E & Hq & Hi1).
  { destruct (Z.eqb_spec (len pend) 128) as [E|E].
    - destruct (flush_Done _ _ _ _ _ _ Hi) as (w1 & E1 & Hi1). exists (pre ++ pend), [], w1.
      rewrite app_nil_r. split; [exact E1|]. split; [done|]. split; [done|exact Hi1].
    - exists pre, pend, w. destruct Hi as (Es & Hl & Hr). cbn [fst] in Es. subst s. split; [done|]. split; [done|].
      split; [lia|]. by split. }
  assert (s = Sink None 0 n fd (len pend)) as Es by (by destruct Hi as [? _]). 
  destruct Hi1 as (_ & _ & Ho1 & Hb1 & Hp1 & [Hm1 Hs1]). cbn [snd] in *. pose proof (len_nonneg q1).
  exists p1, (q1 ++ [c]), (Sink None 0 (n + 1) fd (len q1 + 1)), (set_wmem (<[fbuf + len q1 := c]> (wmem w1)) w1).
  assert (0 <= fd) as Hfd' by exact Hfd.
  split; [|split; [by rewrite app_assoc, E|]].
  - unfold sink_putc, get_sink, mbind, st_bind, st_get. rewrite Es. cbn [fst s_buf s_fd].
    unfold mret, st_ret. cbn [s_buf s_fd s_fn]. rewrite (proj2 (Z.leb_le 0 fd) Hfd). rewrite Es in E1.
    unfold mret, st_ret in E1. rewrite E1. cbn [fst s_fn]. erewrite on_w_Done; [|apply on_wmem_Done, stb_Done; [|by apply Hok]].
    + unfold upd_sink, st_modify. cbn [fst snd s_buf s_cap s_len s_fd s_fn]. by rewrite (wrap_small 64 (n + 1)) by lia.
    + replace (len q1) with (Z.of_nat (Z.to_nat (len q1))) by lia. apply Hm1. lia.
  - split; [by rewrite len_app|]. cbn [snd]. rewrite wmem_set. split; [rewrite len_app; change (len [c]) with 1; lia|].
    split; [apply Forall_app; split; [done|by constructor]|]. split; [|split; [by apply (pr_mem _ _ _ HP)|]].
    + apply bytes_at_app. split; [apply (put_at_bytes (fbuf + len q1) [c]); [done|unfold len; lia]|].
      apply bytes_at_cons. split; [apply lookup_insert_eq|by intros ? ?].
    + unfold same_else. rewrite wmem_set. split; [by apply mapped_insert|].
      intros a Ha. rewrite lookup_insert_ne by lia. by apply Hs1.
Qed.

Lemma fd_write w0 n pre pend s w l :
  fd_sink w0 n pre pend (s, w) → Forall ok l → 0 <= n → n + len l < 2 ^ 63 →
  ∃ pre' pend' s' w', sink_write fbuf l (s, w) = Done (tt, (s', w')) ∧
    pre' ++ pend' = (pre ++ pend) ++ l ∧ fd_sink w0 (n + len l) pre' pend' (s', w').
Proof using HP Hfd Hbuf Hok UserlandLaws0.
  intros Hi Hl. revert n pre pend s w Hi. induction Hl as [|c l Hc Hl IH]; intros n pre pend s w Hi Hn Hn1.
  - exists pre, pend, s, w. change (len []) with 0. rewrite app_nil_r, Z.add_0_r. done.
  - assert (len (c :: l) = len l + 1) as El by (unfold len; cbn [length]; lia). pose proof (len_nonneg l). rewrite El in *.
    destruct (fd_putc_Done _ _ _ _ _ _ _ Hi Hc Hn ltac:(lia)) as (p1 & q1 & s1 & w1 & E1 & E & Hi1).
    destruct (IH (n + 1) p1 q1 s1 w1 Hi1 ltac:(lia) ltac:(lia)) as (p2 & q2 & s2 & w2 & E2 & E' & Hi2).
    exists p2, q2, s2, w2. cbn [sink_write]. unfold mbind, st_bind. rewrite E1, E2. split; [done|]. split.
    + rewrite E', E, <- !app_assoc. done.
    + by replace (n + (len l + 1)) with (n + 1 + len l) by lia.
Qed.

Lemma vfd_Done pre fmt args out w :
  format_text fmt args = Some out → Forall ok out → len out < 2 ^ 31 → P pre w → mapped (wmem w) fbuf 128 →
  ∃ w', vfd fbuf fd fmt args w = Done (len out, w') ∧ P (pre ++ out) w' ∧ same_else w w'.
Proof using HP Hfd Hbuf Hok UserlandLaws0.
  intros Ht Ho Hl Hp Hm. pose proof (len_nonneg out).
  assert (fd_sink w 0 pre [] (Sink None 0 0 fd 0, w)) as Hi.
  { split; [done|]. split; [done|]. split; [constructor|]. split; [by intros ? ?|]. split; [done|]. by split. }
  destruct (fd_write _ _ _ _ _ _ out Hi Ho ltac:(lia) ltac:(lia)) as (p1 & q1 & s1 & w1 & E1 & E & Hi1).
  rewrite Z.add_0_l, app_nil_r in *. destruct (flush_Done _ _ _ _ _ _ Hi1) as (w2 & E2 & Hi2).
  exists w2. unfold vfd, with_sink, vfmt. unfold mbind at 1, st_bind at 1. unfold mbind at 1, st_bind at 1.
  rewrite (vfmt_loop_write fbuf _ _ _ _ _ Ht), E1. unfold mbind at 1, st_bind at 1. rewrite E2.
  unfold get_sink, mbind, st_bind, st_get, mret, st_ret. cbn [fst s_len]. rewrite (swrap_small 32) by lia.
  split; [done|]. destruct Hi2 as (_ & _ & _ & _ & Hp2 & Hs2). by rewrite <- E.
Qed.
End descriptor.
End sinks.

(** ** Theorems *)

(** C28: [snprintf] returns the length of the whole text of its format, and writes only the start of it that
    fits, with a terminator, into the buffer: no byte outside of the [n] bytes of the buffer changes, and
    nothing is written when [n] is 0. *)
Theorem snprintf_bounded {W} `{!userland W, !UserlandLaws W} fbuf b n fmt args out (w : W) :
  format_text fmt args = Some out → Forall byte out → len out < 2 ^ 31 → 0 <= n < 2 ^ 64 →
  mapped (wmem w) b (Z.to_nat (Z.min n (len out + 1))) →
  ∃ w', snprintf fbuf (Some b) n fmt args w = Done (len out, w') ∧
    bytes_at (wmem w') b (bounded n out) ∧ len (bounded n out) <= n ∧
    (∀ a, a < b ∨ b + n <= a → wmem w' !! a = wmem w !! a) ∧
    w' = set_wmem (put_at b (bounded n out) (wmem w)) w.
Proof.
  intros Ht Hb Hl Hn Hm. pose proof (len_nonneg out).
  assert (len (bounded n out) = Z.min n (len out + 1)) as El.
  { unfold bounded. destruct (Z.eqb_spec n 0) as [->|]; [unfold len; cbn; lia|].
    rewrite len_app. unfold len in *. rewrite length_take. cbn [length]. lia. }
  exists (set_wmem (put_at b (bounded n out) (wmem w)) w). rewrite wmem_set.
  assert (mapped (wmem w) b (length (bounded n out))) as Hm'.
  { unfold len in El. replace (length (bounded n out)) with (Z.to_nat (Z.min n (Z.of_nat (length out) + 1))) by lia. exact Hm. }
  split; [by apply snprintf_Done|]. split; [apply put_at_in|]. split; [lia|]. split; [|done].
  intros a Ha. apply put_at_out. unfold len in El. lia.
Qed.

(** [printf] sends exactly the text of its format to the descriptor, in order and across the
    flushes of its buffer, and returns the length; the memory of the program outside of that buffer is unchanged. *)
Theorem printf_prints {W} `{!userland W, !UserlandLaws W} fbuf ok P pre fmt args out (w : W) :
  prints 1 ok P → (∀ c, ok c → byte c) → 0 < fbuf < 2 ^ 47 - 128 →
  format_text fmt args = Some out → Forall ok out → len out < 2 ^ 31 → P pre w → mapped (wmem w) fbuf 128 →
  ∃ w', printf fbuf fmt args w = Done (len out, w') ∧ P (pre ++ out) w' ∧
        ∀ a, a < fbuf ∨ fbuf + 128 <= a → wmem w' !! a = wmem w !! a.
Proof.
  intros HP Hok Hbuf Ht Ho Hl Hp Hm.
  destruct (vfd_Done fbuf 1 ok P HP ltac:(lia) Hok Hbuf pre fmt args out w Ht Ho Hl Hp Hm) as (w' & E & Hp' & Hs).
  exists w'. split; [exact E|]. split; [done|]. apply Hs.
Qed.

(** The flag for zeros with a precision: the field has no padding at all. *)
Theorem zero_flag_loses_width s sign num :
  left s = false → zero s = true → 0 <= prec s → number s sign num = sign ++ zeros (prec s - len num) ++ num.
Proof. intros Hl Hz Hp. unfold number. rewrite Hl, Hz. cbn [negb orb]. by rewrite (proj2 (Z.ltb_ge _ _)) by lia. Qed.

(** A world that records what is written to it. *)
Record recorder := Recorder { rec_mem : mem; rec_out : list Z }.

Definition rec_call (nr a b c d e f : Z) : st recorder Z := λ w,
  if (nr =? 1) && (a =? 1) then
    match load_bytes (Z.to_nat c) b (rec_mem w) with
    | Done l => Done (c, Recorder (rec_mem w) (rec_out w ++ l))
    | Stop e => Stop e
    end
  else Done (- ENOSYS, w).

#[export] Instance rec_userland : userland recorder := {|
  wmem := rec_mem;
  set_wmem := λ m w, Recorder m (rec_out w);
  __syscall6 := rec_call;
|}.

#[export] Instance rec_laws : UserlandLaws recorder.
Proof. by split; [| |intros []]. Qed.

Lemma rec_prints : prints 1 byte (λ out (w : recorder), rec_out w = out).
Proof.
  split; [|by intros out w m].
  intros out w a l <- Hb Hl Ha Hlen Hne. unfold sys_write, __syscall3. cbn [__syscall6 rec_userland].
  pose proof (len_nonneg l). change (i32 1) with 1. rewrite (swrap_small 64 (len l)) by lia. unfold rec_call.
  change ((1 =? 1) && (1 =? 1)) with true. cbn iota. unfold len. rewrite Nat2Z.id.
  cbn [wmem rec_userland] in Hb. rewrite (load_bytes_Done _ l a Hb). by eexists.
Qed.

Definition demo_fmt : list Z := chars "%-4d|%#06x|%.3s".
Definition demo_args : list uarg := [UInt (-42); UInt 255; UStr (chars "shell")].
Definition demo_world : recorder := Recorder (put_at 100 (replicate 160 0) ∅) [].

Lemma demo_text : format_text demo_fmt demo_args = Some (chars "-42 |0x00ff|she").
Proof. by vm_compute. Qed.

Lemma demo_world_mapped : mapped (wmem demo_world) 100 160.
Proof. apply put_at_filled. Qed.

Lemma demo_text_bytes : Forall byte (chars "-42 |0x00ff|she").
Proof. vm_compute. repeat constructor; discriminate. Qed.

Lemma snprintf_bounded_witness :
  ∃ w', snprintf 900 (Some 100) 8 demo_fmt demo_args demo_world = Done (15, w') ∧
    bytes_at (wmem w') 100 (bounded 8 (chars "-42 |0x00ff|she")) ∧ len (bounded 8 (chars "-42 |0x00ff|she")) <= 8 ∧
    (∀ a, a < 100 ∨ 100 + 8 <= a → wmem w' !! a = wmem demo_world !! a) ∧
    w' = set_wmem (put_at 100 (bounded 8 (chars "-42 |0x00ff|she")) (wmem demo_world)) demo_world.
Proof.
  apply (snprintf_bounded 900 100 8 demo_fmt demo_args (chars "-42 |0x00ff|she") demo_world demo_text demo_text_bytes).
  - done.
  - done.
  - apply (mapped_range _ _ _ _ _ demo_world_mapped); by vm_compute.
Defined.

Lemma printf_prints_witness :
  ∃ w', printf 110 demo_fmt demo_args demo_world = Done (15, w') ∧ rec_out w' = [] ++ chars "-42 |0x00ff|she" ∧
        ∀ a, a < 110 ∨ 110 + 128 <= a → wmem w' !! a = wmem demo_world !! a.
Proof.
  apply (printf_prints 110 byte (λ out (w : recorder), rec_out w = out) [] demo_fmt demo_args (chars "-42 |0x00ff|she") demo_world rec_prints).
  - done.
  - lia.
  - apply demo_text.
  - apply demo_text_bytes.
  - done.
  - done.
  - apply (mapped_range _ _ _ _ _ demo_world_mapped); by vm_compute.
Defined.
