(* ===== verification/UScanf.v ===== *)
(** * Formatted input of user space (userspace/lib/scanf.c, sscanf of userspace/lib/printf.c)

    [__vscan_core] over a source of characters, of which the string source is one and a stream another. A
    format is the list of its characters; an argument is the address that a value is stored to. *)

From S2P Require Import Prelude CString Bytes UString.

Local Open Scope Z_scope.

Definition EOF : Z := -1.

(** ** The core *)

Section scan.
Context {T : Type}.

(** [sc->get] and [sc->unget] with their context, and a store to the memory of the program. A source
    gives at most [limit] characters. *)
Variable get : st T Z.
Variable unget : Z → st T unit.
Variable store : Z → list Z → st T unit.
Variable limit : nat.

(** [do { c = sc->get(sc->ctx); } while (isspace(c));] *)
Fixpoint next_char (fuel : nat) : st T Z :=
  match fuel with
  | O => st_stop Diverge
  | S fuel => c ← get; if isspace c then next_char fuel else mret c
  end.

Definition skip_space : st T Z := next_char (S limit).

Definition hexval (c : Z) : option Z :=
  if (48 <=? c) && (c <=? 57) then Some (c - 48)
  else if (97 <=? c) && (c <=? 102) then Some (c - 97 + 10)
  else if (65 <=? c) && (c <=? 70) then Some (c - 65 + 10)
  else None.

(** The digits from [c] on: the value, whether there was one, and the character behind them. *)
Fixpoint scan_digits (fuel : nat) (c width base val : Z) (any : bool) : st T (Z * bool * Z) :=
  match fuel with
  | O => st_stop Diverge
  | S fuel =>
      if width <=? 0 then mret (val, any, c)
      else
        match hexval c with
        | Some d =>
            if base <=? d then mret (val, any, c)
            else
              n ← get;
              scan_digits fuel n (width - 1) base (i64 (i64 (val * base) + d)) true
        | None => mret (val, any, c)
        end
  end.

(** A failed conversion ends the call. *)
Definition fail (assigned : Z) : Z := if negb (assigned =? 0) then assigned else EOF.

(** The end of a conversion: the call goes on with a count, or ends with a result. *)
Inductive step := Next (assigned : Z) (args : list Z) | Finish (r : Z).

Definition take_arg (suppress : bool) (args : list Z) : run (option Z * list Z) :=
  if suppress then Done (None, args) else match args with p :: args => Done (Some p, args) | [] => Stop Fault end.

Definition scan_number (conv width : Z) (suppress : bool) (args : list Z) (assigned : Z) : st T step :=
  let base := if conv =? 120 then 16 else if conv =? 111 then 8 else 10 in
  c ← skip_space;
  '(neg, c, width) ←
    (if (c =? 43) || (c =? 45) then n ← get; mret (c =? 45, n, width - 1) else mret (false, c, width));
  '(base, c, width) ←
    (if ((conv =? 105) || (conv =? 120)) && (c =? 48) then
       c2 ← get;
       if (c2 =? 120) || (c2 =? 88) then n ← get; mret (16, n, width - 2)
       else _ ← unget c2; mret (if conv =? 105 then 8 else base, c, width)
     else mret (base, c, width));
  '(val, any, c) ← scan_digits (S limit) c width base 0 false;
  _ ← unget c;
  if negb any then mret (Finish (fail assigned))
  else
    '(p, args) ← st_run (take_arg suppress args);
    match p with
    | None => mret (Next assigned args)
    | Some p => _ ← store p (put32 (u32 (if neg : bool then i64 (- val) else val))); mret (Next (assigned + 1) args)
    end.

(** Characters from [c] on that [accept] takes, stored when there is a place; the number of them and the
    character behind. *)
Fixpoint scan_chars (fuel : nat) (accept : Z → bool) (c width : Z) (out : option Z) (n : Z) : st T (Z * Z) :=
  match fuel with
  | O => st_stop Diverge
  | S fuel =>
      if negb (c =? EOF) && accept c && (0 <? width) then
        _ ← match out with Some p => store (p + n) [u8 c] | None => mret tt end;
        c' ← get;
        scan_chars fuel accept c' (width - 1) out (n + 1)
      else mret (n, c)
  end.

Definition terminate (out : option Z) (n : Z) : st T unit :=
  match out with Some p => store (p + n) [0] | None => mret tt end.

Definition scan_string (width : Z) (suppress : bool) (args : list Z) (assigned : Z) : st T step :=
  c ← skip_space;
  '(out, args) ← st_run (take_arg suppress args);
  '(n, c) ← scan_chars (S limit) (λ c, negb (isspace c)) c width out 0;
  _ ← unget c;
  if n =? 0 then mret (Finish (fail assigned))
  else _ ← terminate out n; mret (Next (if suppress then assigned else assigned + 1) args).

(** [while (width-- > 0)] *)
Fixpoint scan_raw (n : nat) (out : option Z) (k : Z) : st T Z :=
  match n with
  | O => mret k
  | S n =>
      c ← get;
      if c =? EOF then mret k
      else
        _ ← match out with Some p => store (p + k) [u8 c] | None => mret tt end;
        scan_raw n out (k + 1)
  end.

Definition NO_WIDTH : Z := 2 ^ 40.

Definition scan_char (width : Z) (suppress : bool) (args : list Z) (assigned : Z) : st T step :=
  '(out, args) ← st_run (take_arg suppress args);
  let width := if width =? NO_WIDTH then 1 else width in
  n ← scan_raw (Z.to_nat width) out 0;
  if n =? 0 then mret (Finish (fail assigned))
  else mret (Next (if suppress then assigned else assigned + 1) args).

(** The conversion of a set: the terminator is stored before the test for an empty match. *)
Definition scan_set (negate : bool) (set : list Z) (width : Z) (suppress : bool) (args : list Z) (assigned : Z) :
    st T step :=
  '(out, args) ← st_run (take_arg suppress args);
  c ← get;
  '(n, c) ← scan_chars (S limit) (λ c, negb (Bool.eqb (bool_decide (c ∈ set)) negate)) c width out 0;
  _ ← unget c;
  _ ← terminate out n;
  if n =? 0 then mret (Finish (fail assigned))
  else mret (Next (if suppress then assigned else assigned + 1) args).

Fixpoint scan_width (fmt : list Z) (w : Z) : list Z * Z :=
  match fmt with
  | c :: rest => if isdigit c then scan_width rest (i64 (i64 (w * 10) + (c - 48))) else (fmt, w)
  | [] => ([], w)
  end.

Fixpoint scan_length (fmt : list Z) : list Z :=
  match fmt with
  | c :: rest => if (c =? 108) || (c =? 104) || (c =? 122) then scan_length rest else fmt
  | [] => []
  end.

(** The characters of a set, up to the bracket. *)
Fixpoint scan_set_text (fmt : list Z) : list Z * list Z :=
  match fmt with
  | c :: rest => if c =? 93 then ([], fmt) else let '(set, rest) := scan_set_text rest in (c :: set, rest)
  | [] => ([], [])
  end.

(** One conversion, behind its percent sign: the rest of the format with it. *)
Definition conversion (fmt : list Z) (args : list Z) (assigned : Z) : st T (step * list Z) :=
  let '(suppress, fmt) := match fmt with 42 :: rest => (true, rest) | _ => (false, fmt) end in
  let '(fmt, width) := scan_width fmt 0 in
  let width := if width =? 0 then NO_WIDTH else width in
  match scan_length fmt with
  | [] => mret (Finish assigned, [])
  | conv :: rest =>
      if (conv =? 100) || (conv =? 105) || (conv =? 117) || (conv =? 120) || (conv =? 111) then
        r ← scan_number conv width suppress args assigned; mret (r, rest)
      else if conv =? 115 then r ← scan_string width suppress args assigned; mret (r, rest)
      else if conv =? 99 then r ← scan_char width suppress args assigned; mret (r, rest)
      else if conv =? 91 then
        let '(negate, rest) := match rest with 94 :: rest => (true, rest) | _ => (false, rest) end in
        let '(set, rest) := scan_set_text rest in
        r ← scan_set negate set width suppress args assigned;
        match rest, r with
        | [], Next _ _ => st_stop Fault            (* the loop steps over the end of the format *)
        | _, _ => mret (r, tail rest)
        end
      else if conv =? 37 then
        c ← skip_space;
        if negb (c =? 37) then _ ← unget c; mret (Finish assigned, rest) else mret (Next assigned args, rest)
      else mret (Finish assigned, rest)
  end.

(** [assigned] values are stored so far; a literal is a signed [char]. *)
Fixpoint scan_loop (fuel : nat) (fmt : list Z) (args : list Z) (assigned : Z) : st T Z :=
  match fuel, fmt with
  | _, [] => mret assigned
  | O, _ => st_stop Diverge
  | S fuel, f :: rest =>
      if isspace f then c ← skip_space; _ ← unget c; scan_loop fuel rest args assigned
      else if negb (f =? 37) then
        c ← get;
        if negb (c =? swrap 8 f) then
          _ ← unget c; mret (if negb (assigned =? 0) then assigned else if c =? EOF then EOF else 0)
        else scan_loop fuel rest args assigned
      else
        '(r, rest) ← conversion rest args assigned;
        match r with
        | Next assigned args => scan_loop fuel rest args assigned
        | Finish r => mret r
        end
  end.

Definition __vscan_core (fmt : list Z) (args : list Z) : st T Z := scan_loop (length fmt) fmt args 0.
End scan.

(** ** The string source *)

Record strctx := StrCtx { sc_p : Z; sc_pushed : Z }.

Definition str_get : st (strctx * mem) Z := λ s,
  let '(x, m) := s in
  if 0 <=? sc_pushed x then Done (sc_pushed x, (StrCtx (sc_p x) (-1), m))
  else
    match ldb m (sc_p x) with
    | Done c => if c =? 0 then Done (EOF, s) else Done (c, (StrCtx (sc_p x + 1) (sc_pushed x), m))
    | Stop e => Stop e
    end.

Definition str_unget (c : Z) : st (strctx * mem) unit := λ s,
  if negb (c =? EOF) then Done (tt, (StrCtx (sc_p (fst s)) c, snd s)) else Done (tt, s).

Definition str_store (a : Z) (l : list Z) : st (strctx * mem) unit := λ s,
  match store_bytes a l (snd s) with Done m => Done (tt, (fst s, m)) | Stop e => Stop e end.

Definition __vscan_str (str : Z) (fmt args : list Z) (m : mem) : run (Z * mem) :=
  '(r, (_, m)) ← __vscan_core str_get str_unget str_store (S (scan_fuel m)) fmt args (StrCtx str (-1), m);
  Done (r, m).

Definition sscanf (str : Z) (fmt args : list Z) (m : mem) : run (Z * mem) := __vscan_str str fmt args m.

(** ** Reading a string *)

(** The characters that the source gives next; one that was put back comes first. *)
Definition src_at (l : list Z) (s : strctx * mem) : Prop :=
  Forall (λ c, 0 < c < 256) l ∧
  (sc_pushed (fst s) = -1 ∧ cstr (snd s) (sc_p (fst s)) l ∨
   ∃ l', l = sc_pushed (fst s) :: l' ∧ cstr (snd s) (sc_p (fst s)) l').

Lemma str_get_end x m : src_at [] (x, m) → str_get (x, m) = Done (EOF, (x, m)).
Proof.
  intros [_ [[Hp Hs]|(l' & E & _)]]; [|done]. cbn [fst snd] in *. unfold str_get. rewrite Hp. cbn [Z.leb].
  apply cstr_nil in Hs. rewrite (ldb_Some _ _ _ Hs). done.
Qed.

Lemma str_get_next x m c l : src_at (c :: l) (x, m) →
  ∃ x', str_get (x, m) = Done (c, (x', m)) ∧ src_at l (x', m) ∧ sc_pushed x' = -1.
Proof.
  intros [[Hc Hl]%Forall_cons [[Hp Hs]|(l' & [= E <-] & Hs)]]; cbn [fst snd] in *; unfold str_get.
  - rewrite Hp. cbn [Z.leb]. apply cstr_cons in Hs as (Hm & _ & Hs). rewrite (ldb_Some _ _ _ Hm).
    rewrite (proj2 (Z.eqb_neq c 0)) by lia. eexists. split; [done|]. split; [|done]. split; [done|]. by left.
  - rewrite <- E. rewrite (proj2 (Z.leb_le 0 c)) by lia. eexists. split; [done|]. split; [|done].
    split; [done|]. by left.
Qed.

Lemma str_unget_next x m c l : src_at l (x, m) → sc_pushed x = -1 → 0 < c < 256 →
  ∃ x', str_unget c (x, m) = Done (tt, (x', m)) ∧ src_at (c :: l) (x', m).
Proof.
  intros [Hl [[Hp Hs]|(l' & -> & Hs)]] Hp' Hc; cbn [fst snd] in *.
  - unfold str_unget, EOF. rewrite (proj2 (Z.eqb_neq c (-1))) by lia. eexists. split; [done|].
    split; [by constructor|]. right. by exists l.
  - apply Forall_cons in Hl as [Hl _]. rewrite Hp' in Hl. lia.
Qed.

Lemma next_char_Done fuel x m ws c l :
  src_at (ws ++ c :: l) (x, m) → Forall (λ c, isspace c = true) ws → isspace c = false → (length ws < fuel)%nat →
  ∃ x', next_char str_get fuel (x, m) = Done (c, (x', m)) ∧ src_at l (x', m) ∧ sc_pushed x' = -1.
Proof.
  intros Hs Hw Hc. revert fuel x Hs. induction Hw as [|d ws Hd Hw IH]; intros [|fuel] x Hs Hf; cbn [app length] in *; try lia;
    destruct (str_get_next _ _ _ _ Hs) as (x' & E & Hs' & Hp); cbn [next_char]; unfold mbind, st_bind; rewrite E.
  - rewrite Hc. by exists x'.
  - rewrite Hd. apply IH; [done|lia].
Qed.

(** Decimal digits, up to a character that is none or the end. *)
Definition decimal (ds : list Z) : Prop := Forall (λ c, 48 <= c <= 57) ds.
Definition stops (rest : list Z) : Prop := match rest with [] => True | c :: _ => isdigit c = false end.
Definition dec_number (val : Z) (ds : list Z) : Z := fold_left (λ a c, a * 10 + dec_val c) ds val.

Lemma hexval_digit c : 48 <= c <= 57 → hexval c = Some (c - 48).
Proof. intros Hc. unfold hexval. by rewrite (proj2 (Z.leb_le 48 c)), (proj2 (Z.leb_le c 57)) by lia. Qed.

Lemma hexval_other c : isdigit c = false → match hexval c with Some d => 10 <= d | None => True end.
Proof. unfold isdigit, hexval. intros ->. case_if; [lia|]. case_if; [lia|done]. Qed.

Lemma dec_number_ge val ds : 0 <= val → decimal ds → val <= dec_number val ds.
Proof.
  intros Ha Hd. revert val Ha. unfold dec_number. induction Hd as [|c ds Hc Hd IH]; intros val Ha; cbn [fold_left]; [lia|].
  unfold dec_val at 2. pose proof (IH (val * 10 + (c - 48)) ltac:(lia)). lia.
Qed.

(** The character that ended the digits has been read. *)
Definition after (rest : list Z) (c : Z) (s : strctx * mem) : Prop :=
  sc_pushed (fst s) = -1 ∧ match rest with [] => c = EOF ∧ src_at [] s | d :: rest => c = d ∧ 0 < d < 256 ∧ src_at rest s end.

Lemma get_after x m rest : src_at rest (x, m) → (rest = [] → sc_pushed x = -1) →
  ∃ c x', str_get (x, m) = Done (c, (x', m)) ∧ after rest c (x', m).
Proof.
  intros Hs Hp. destruct rest as [|c rest].
  - exists EOF, x. rewrite (str_get_end _ _ Hs). split; [done|]. by split; [apply Hp|].
  - destruct (str_get_next _ _ _ _ Hs) as (x' & E & Hs' & Hp'). exists c, x'. split; [done|]. split; [done|].
    split; [done|]. destruct Hs as [[Hc _]%Forall_cons _]. by split.
Qed.

Lemma unget_after rest c x m : after rest c (x, m) → ∃ x', str_unget c (x, m) = Done (tt, (x', m)) ∧ src_at rest (x', m).
Proof.
  intros [Hp Ha]. destruct rest as [|d rest].
  - destruct Ha as [-> Hs]. exists x. by split.
  - destruct Ha as (-> & Hd & Hs). by apply str_unget_next.
Qed.

Lemma scan_digits_stop fuel σ c rest width val any :
  after rest c σ → stops rest → scan_digits str_get (S fuel) c width 10 val any σ = Done ((val, any, c), σ).
Proof.
  intros [_ Ha] Hst. cbn [scan_digits]. destruct (width <=? 0); [done|]. destruct rest as [|d rest].
  - by destruct Ha as [-> _].
  - destruct Ha as (-> & _). pose proof (hexval_other d Hst). destruct (hexval d) as [n|]; [|done].
    by rewrite (proj2 (Z.leb_le 10 n)).
Qed.

Lemma scan_digits_Done fuel x m c ds rest width val any :
  src_at (ds ++ rest) (x, m) → (ds ++ rest = [] → sc_pushed x = -1) → 48 <= c <= 57 → decimal ds → stops rest →
  (S (length ds) < fuel)%nat → Z.of_nat (length ds) < width → 0 <= val → dec_number val (c :: ds) < 2 ^ 63 →
  ∃ c' x', scan_digits str_get fuel c width 10 val any (x, m) = Done ((dec_number val (c :: ds), true, c'), (x', m)) ∧
    after rest c' (x', m).
Proof.
  intros Hs Hp Hc Hd Hst. revert fuel x c width val any Hs Hp Hc.
  induction ds as [|d ds IH]; intros fuel x c width val any Hs Hp Hc Hf Hw Hv Hb; cbn [length] in *;
    (destruct fuel as [|fuel]; [lia|]); cbn [scan_digits]; rewrite (proj2 (Z.leb_gt width 0)) by lia;
    rewrite (hexval_digit c Hc), (proj2 (Z.leb_gt 10 (c - 48))) by lia.
  - destruct (get_after _ _ _ Hs Hp) as (c' & x' & E & Ha). exists c', x'. split; [|done].
    unfold dec_number in *. cbn [fold_left] in *. unfold dec_val in *.
    rewrite (swrap_small 64 (val * 10)), (swrap_small 64 (val * 10 + (c - 48))) by lia.
    unfold mbind, st_bind. rewrite E. destruct fuel as [|fuel]; [lia|]. by eapply scan_digits_stop.
  - apply Forall_cons in Hd as [Hd0 Hd]. cbn [app] in Hs.
    destruct (str_get_next _ _ _ _ Hs) as (x' & E & Hs' & Hp').
    pose proof (dec_number_ge (val * 10 + dec_val c) (d :: ds)) as Hge. unfold dec_number in *. cbn [fold_left] in *.
    unfold dec_val in *. specialize (Hge ltac:(lia) ltac:(by constructor)).
    rewrite (swrap_small 64 (val * 10)), (swrap_small 64 (val * 10 + (c - 48))) by lia.
    unfold mbind, st_bind. rewrite E. apply (IH Hd fuel x' d); try done; lia.
Qed.

Lemma dec_char_plain c : 48 <= c <= 57 → isspace c = false ∧ c ≠ 43 ∧ c ≠ 45.
Proof. intros Hc. unfold isspace. split; [|lia]. rewrite (proj2 (Z.eqb_neq c 32)) by lia. cbn [orb].
  rewrite (proj2 (Z.leb_gt c 13)) by lia. apply andb_false_r. Qed.

Lemma wp_Done {S A} (f : st S A) a s s' (Q : A → S → Prop) : f s = Done (a, s') → Q a s' → wp f Q s.
Proof. unfold wp. by intros ->. Qed.

(** The sign, when there is one, and the first digit. *)
Lemma sign_wp limit x m ws sg neg d l (Q : bool * Z * Z → strctx * mem → Prop) :
  src_at (ws ++ sg ++ d :: l) (x, m) → (length ws <= limit)%nat → Forall (λ c, isspace c = true) ws →
  (sg = [] ∧ neg = false ∨ sg = [43] ∧ neg = false ∨ sg = [45] ∧ neg = true) → 48 <= d <= 57 →
  (∀ x' w, src_at l (x', m) → sc_pushed x' = -1 → NO_WIDTH - 1 <= w → Q (neg, d, w) (x', m)) →
  wp (c ← skip_space str_get limit;
      if (c =? 43) || (c =? 45) then n ← str_get; mret (c =? 45, n, NO_WIDTH - 1) else mret (false, c, NO_WIDTH)) Q (x, m).
Proof.
  intros Hs Hl Hws Hsg Hd HQ. destruct (dec_char_plain d Hd) as (Hsp & H43 & H45). apply wp_bind. unfold skip_space.
  assert (∀ c, isspace c = false → src_at (ws ++ c :: d :: l) (x, m) →
    (c =? 43) || (c =? 45) = true → (c =? 45) = neg →
    wp (next_char str_get (S limit)) (λ c, wp (if (c =? 43) || (c =? 45) then n ← str_get; mret (c =? 45, n, NO_WIDTH - 1)
      else mret (false, c, NO_WIDTH)) Q) (x, m)) as Hsign.
  { intros c Hc Hs' Ec En. destruct (next_char_Done (S limit) x m ws c (d :: l) Hs' Hws Hc ltac:(lia)) as (x1 & E & Hs1 & Hp1).
    eapply wp_Done; [exact E|]. rewrite Ec, En. apply wp_bind.
    destruct (str_get_next _ _ _ _ Hs1) as (x2 & E2 & Hs2 & Hp2). eapply wp_Done; [exact E2|]. apply wp_ret.
    by apply HQ; [..|lia]. }
  destruct Hsg as [[-> ->]|[[-> ->]|[-> ->]]]; cbn [app] in Hs; [|by apply (Hsign 43)|by apply (Hsign 45)].
  destruct (next_char_Done (S limit) x m ws d l Hs Hws Hsp ltac:(lia)) as (x1 & E & Hs1 & Hp1).
  eapply wp_Done; [exact E|]. rewrite (proj2 (Z.eqb_neq d 43)), (proj2 (Z.eqb_neq d 45)) by done.
  apply wp_ret. by apply HQ; [..|lia].
Qed.

Lemma wp_assoc {S A B C} (f : st S A) (g : A → st S B) (h : B → st S C) Q s :
  wp (a ← f; b ← g a; h b) Q s ↔ wp (b ← (a ← f; g a); h b) Q s.
Proof. unfold wp, mbind, st_bind. by destruct (f s) as [[a s']|]. Qed.

(** Blanks, a sign and digits: a conversion [%d]. *)
Lemma scan_number_wp limit x m ws sg neg d ds rest p args assigned (Q : step → strctx * mem → Prop) :
  src_at (ws ++ sg ++ d :: ds ++ rest) (x, m) → (length ws <= limit)%nat → (length ds < limit)%nat →
  Forall (λ c, isspace c = true) ws → (sg = [] ∧ neg = false ∨ sg = [43] ∧ neg = false ∨ sg = [45] ∧ neg = true) →
  decimal (d :: ds) → stops rest → dec_number 0 (d :: ds) < 2 ^ 63 → Z.of_nat (length ds) + 1 < NO_WIDTH → mapped m p 4 →
  (∀ x', Q (Next (assigned + 1) args)
    (x', put_at p (put32 (u32 (if neg then - dec_number 0 (d :: ds) else dec_number 0 (d :: ds)))) m)) →
  wp (scan_number str_get str_unget str_store limit 100 NO_WIDTH false (p :: args) assigned) Q (x, m).
Proof.
  intros Hs Hl1 Hl2 Hws Hsg Hds Hst Hv Hn Hm HQ. pose proof (dec_number_ge 0 _ ltac:(lia) Hds) as Hge.
  apply Forall_cons in Hds as [Hd Hds]. unfold scan_number. cbv zeta.
  apply wp_assoc, wp_bind. eapply (sign_wp limit x m ws sg neg d (ds ++ rest)); [done..|].
  intros x1 w Hs1 Hp1 Hw. change ((100 =? 105) || (100 =? 120)) with false. cbn [andb]. apply wp_bind, wp_ret. apply wp_bind.
  destruct (scan_digits_Done (S limit) x1 m d ds rest w 0 false Hs1) as (c' & x2 & E2 & Ha); try done; [lia..|].
  eapply wp_Done; [exact E2|]. apply wp_bind. destruct (unget_after _ _ _ _ Ha) as (x3 & E3 & _).
  eapply wp_Done; [exact E3|]. cbn [negb]. apply wp_bind. eapply wp_run; [done|]. apply wp_bind.
  assert (∀ v, - 2 ^ 63 < v < 2 ^ 63 → str_store p (put32 (u32 v)) (x3, m) = Done (tt, (x3, put_at p (put32 (u32 v)) m))) as Est.
  { intros v Hr. unfold str_store. cbn [fst snd]. rewrite store_bytes_Done; [done|done|].
    unfold put32, put16, byte. repeat constructor; apply Z.mod_pos_bound; lia. }
  destruct neg; (eapply wp_Done; [|apply wp_ret, HQ]).
  - rewrite (swrap_small 64 (- dec_number 0 (d :: ds))) by lia. apply Est. lia.
  - apply Est. lia.
Qed.

(** [sscanf(s, "%d", p)]. *)
Lemma sscanf_Done m s ws sg neg d ds rest p :
  cstr m s (ws ++ sg ++ d :: ds ++ rest) →
  Forall (λ c, isspace c = true) ws → (sg = [] ∧ neg = false ∨ sg = [43] ∧ neg = false ∨ sg = [45] ∧ neg = true) →
  decimal (d :: ds) → stops rest → dec_number 0 (d :: ds) < 2 ^ 63 → Z.of_nat (length ds) + 1 < NO_WIDTH → mapped m p 4 →
  sscanf s (chars "%d") [p] m =
    Done (1, put_at p (put32 (u32 (if neg then - dec_number 0 (d :: ds) else dec_number 0 (d :: ds)))) m).
Proof.
  intros Hs Hws Hsg Hds Hst Hv Hn Hm. unfold sscanf, __vscan_str. pose proof (cstr_fuel _ _ _ Hs) as Hf.
  rewrite !length_app in Hf. cbn [length] in Hf. rewrite length_app in Hf.
  assert (wp (__vscan_core str_get str_unget str_store (S (scan_fuel m)) (chars "%d") [p])
    (λ r σ, r = 1 ∧ snd σ = put_at p (put32 (u32 (if neg then - dec_number 0 (d :: ds) else dec_number 0 (d :: ds)))) m)
    (StrCtx s (-1), m)) as Hw.
  { unfold __vscan_core. change (chars "%d") with [37; 100]. cbn [length scan_loop].
    change (isspace 37) with false. change (negb (37 =? 37)) with false. cbn iota. apply wp_bind.
    unfold conversion. cbn [scan_width scan_length]. change (isdigit 100) with false. cbn iota.
    change (0 =? 0) with true. change ((100 =? 108) || (100 =? 104) || (100 =? 122)) with false. cbn iota.
    change ((100 =? 100) || (100 =? 105) || (100 =? 117) || (100 =? 120) || (100 =? 111)) with true. cbn iota.
    apply wp_bind. eapply (scan_number_wp _ _ m ws sg neg d ds rest p [] 0); [|lia|lia|done..|].
    - split; [apply Hs|]. by left.
    - intros x'. apply wp_ret. cbn [scan_loop]. by apply wp_ret. }
  destruct (wp_elim _ _ _ Hw) as (r & [x' m'] & E & -> & Em). cbn [snd] in Em. subst m'. rewrite E. done.
Qed.
