(* ===== verification/ULibc.v ===== *)
(** * Numbers through the C library of user space

    What [snprintf] writes for an integer, [atoi] and [sscanf] read back. *)

From S2P Require Import Prelude CString Bytes UString UStdlib UScanf Syscall SysMem USys UPrintf.

Local Open Scope Z_scope.

(** ** The text of a number *)

Lemma udigits_cons fuel v b : ∃ d l, udigits (S fuel) v b = d :: l.
Proof. cbn [udigits]. by eexists _, _. Qed.

Lemma udigits_value fuel v b : 1 < b → 0 <= v < b ^ Z.of_nat fuel →
  fold_right (λ d acc, acc * b + d) 0 (udigits fuel v b) = v ∧ Forall (λ d, 0 <= d < b) (udigits fuel v b).
Proof.
  intros Hb. revert v. induction fuel as [|fuel IH]; intros v Hv; cbn [udigits].
  - cbn in *. split; [lia|constructor].
  - rewrite Nat2Z.inj_succ, Z.pow_succ_r in Hv by lia. pose proof (Z.div_mod v b ltac:(lia)) as Hdm.
    pose proof (Z.mod_pos_bound v b ltac:(lia)) as Hr. destruct (Z.eqb_spec (v / b) 0) as [E|E].
    + cbn [fold_right]. split; [lia|]. constructor; [done|constructor].
    + cbn [fold_right]. destruct (IH (v / b)) as [-> Hd].
      * split; [apply Z.div_pos; lia|]. apply Z.div_lt_upper_bound; lia.
      * split; [lia|by constructor].
Qed.

Lemma dec_number_numeral val l : dec_number val l = fold_left (λ a c, a * 10 + dec_val c) l val.
Proof. done. Qed.

Lemma u_to_str_decimal v : 0 <= v < 2 ^ 64 → decimal (u_to_str v 10 false) ∧ dec_number 0 (u_to_str v 10 false) = v ∧ u_to_str v 10 false ≠ [].
Proof.
  intros Hv. assert (0 <= v < 10 ^ Z.of_nat 32) as Hv' by (change (10 ^ Z.of_nat 32) with (10 ^ 32); lia).
  destruct (udigits_value 32 v 10 ltac:(lia) Hv') as [Hval Hd].
  assert (Forall (λ c, 48 <= c <= 57 ∧ dec_val c = c - 48) (digit_char false <$> udigits 32 v 10)) as Hc.
  { apply Forall_fmap. eapply Forall_impl; [exact Hd|]. intros d Hr. cbn beta in Hr. unfold compose, digit_char.
    rewrite (proj2 (Z.ltb_lt d 10)) by lia. split; [lia|done]. }
  split; [|split].
  - unfold u_to_str, decimal. apply Forall_rev. eapply Forall_impl; [exact Hc|]. by intros c [? _].
  - unfold u_to_str, dec_number. rewrite <- fold_left_rev_right, rev_involutive.
    transitivity (fold_right (λ d acc, acc * 10 + d) 0 (udigits 32 v 10)); [|exact Hval]. clear Hval Hc. induction Hd as [|d l Hr Hd IH]; cbn [fmap list_fmap fold_right]; [done|]. rewrite IH.
    unfold digit_char, dec_val. rewrite (proj2 (Z.ltb_lt d 10)) by lia. lia.
  - unfold u_to_str. destruct (udigits_cons 31 v 10) as (d & l & ->). cbn [fmap list_fmap rev].
    intros E. apply app_eq_nil in E as [_ E]. done.
Qed.

(** Blanks, a sign, zeros, the digits and blanks. *)
Lemma number_shape s sign num : ∃ i j k,
  number s sign num = replicate i 32 ++ sign ++ (replicate j 48 ++ num) ++ replicate k 32.
Proof.
  unfold number, field, spaces, zeros. destruct (left s) eqn:El; cbn [orb].
  - eexists 0%nat, _, _. cbn [replicate app]. by rewrite <- app_assoc.
  - destruct (negb (zero s)).
    + eexists _, _, 0%nat. cbn [replicate]. by rewrite app_nil_r.
    + destruct (prec s <? 0).
      * eexists 0%nat, _, 0%nat. cbn [replicate app]. by rewrite app_nil_r.
      * eexists 0%nat, _, 0%nat. cbn [replicate app]. by rewrite app_nil_r.
Qed.

Lemma decimal_app l k : decimal l → decimal k → decimal (l ++ k).
Proof. intros. by apply Forall_app. Qed.

Lemma decimal_zeros n : decimal (replicate n 48).
Proof. apply Forall_replicate. lia. Qed.

Lemma dec_number_zeros n l : dec_number 0 (replicate n 48 ++ l) = dec_number 0 l.
Proof. induction n as [|n IH]; cbn [replicate app]; [done|]. unfold dec_number in *. cbn [fold_left]. exact IH. Qed.

Lemma blanks n : Forall (λ c, isspace c = true) (replicate n 32).
Proof. by apply Forall_replicate. Qed.

(** The text of an integer, split the way its readers do. *)
Lemma number_text s v : - 2 ^ 63 < v < 2 ^ 63 →
  ∃ ws sg ds k, number s (sign_of s v) (u_to_str (Z.abs v) 10 false) = ws ++ sg ++ ds ++ replicate k 32 ∧
    Forall (λ c, isspace c = true) ws ∧ sign_text sg (v <? 0) ∧ decimal ds ∧ ds ≠ [] ∧
    dec_number 0 ds = Z.abs v.
Proof.
  intros Hv. destruct (u_to_str_decimal (Z.abs v) ltac:(lia)) as (Hd & Hn & Hne).
  destruct (number_shape s (sign_of s v) (u_to_str (Z.abs v) 10 false)) as (i & j & k & ->).
  set (ds := replicate j 48 ++ u_to_str (Z.abs v) 10 false).
  assert (decimal ds) as Hds by (apply decimal_app; [apply decimal_zeros|done]).
  assert (ds ≠ []) as Hdne by (intros [_ E]%app_eq_nil; done).
  assert (dec_number 0 ds = Z.abs v) as Hval by (unfold ds; by rewrite dec_number_zeros).
  unfold sign_of. destruct (v <? 0) eqn:En.
  { exists (replicate i 32), [45], ds, k. split; [done|]. split; [apply blanks|]. split; [right; by right|done]. }
  destruct (plus s).
  { exists (replicate i 32), [43], ds, k. split; [done|]. split; [apply blanks|]. split; [right; by left|done]. }
  destruct (space s).
  { exists (replicate i 32 ++ [32]), [], ds, k. split; [by rewrite <- app_assoc|].
    split; [apply Forall_app; split; [apply blanks|by repeat constructor]|]. split; [by left|done]. }
  exists (replicate i 32), [], ds, k. split; [done|]. split; [apply blanks|]. split; [by left|done].
Qed.

Lemma digitval_dec c : 48 <= c <= 57 → digitval c 10 = c - 48.
Proof.
  intros Hc. unfold digitval. rewrite (proj2 (Z.leb_le 48 c)), (proj2 (Z.leb_le c 57)) by lia. cbn [andb].
  by rewrite (proj2 (Z.ltb_lt (c - 48) 10)) by lia.
Qed.

Lemma digits_value_dec ds : decimal ds → is_digits 10 ds ∧ digits_value 10 ds = dec_number 0 ds.
Proof.
  intros Hd. split.
  - eapply Forall_impl; [exact Hd|]. intros c Hc. cbn beta in *. rewrite digitval_dec by done. lia.
  - unfold digits_value, numeral, dec_number. generalize 0. induction Hd as [|c ds Hc Hd IH]; intros val; cbn [fold_left]; [done|].
    rewrite digitval_dec by done. apply IH.
Qed.

(** ** Reading it back *)

Lemma strtol_number m a s v :
  cstr m a (number s (sign_of s v) (u_to_str (Z.abs v) 10 false)) → - 2 ^ 63 < v < 2 ^ 63 →
  ∃ e, strtol m a 10 = Done (v, e).
Proof.
  intros [Hm _] Hv. destruct (number_text s v Hv) as (ws & sg & ds & k & E & Hws & Hsg & Hd & Hne & Hval).
  rewrite E in Hm. destruct (digits_value_dec ds Hd) as [Hdig Hdv].
  assert (∃ x t, replicate k 32 ++ [0] = x :: t ∧ digitval x 10 < 0) as (x & t & Et & Hx) by (destruct k; by eexists _, _).
  eexists. rewrite (strtol_Done m a 10 10 ws sg (v <? 0) [] ds x); [|..].
  - rewrite Hdv, Hval. f_equal. f_equal. destruct (Z.ltb_spec v 0); lia.
  - apply (proj1 (proj1 (bytes_at_app m a (ws ++ sg ++ [] ++ ds ++ [x]) t) ltac:(rewrite <- !app_assoc in *; cbn [app]; by rewrite <- Et))).
  - done.
  - done.
  - apply prefix_given; [done|lia|done].
  - done.
  - done.
  - done.
  - lia.
  - intros _ c Hc. cbn [app] in Hc. destruct ds as [|d ds]; [done|]. injection Hc as ->.
    apply Forall_cons in Hd as [Hd _]. by apply dec_char_plain.
  - rewrite Hdv, Hval. lia.
Qed.

Lemma sscanf_number m a s v p :
  cstr m a (number s (sign_of s v) (u_to_str (Z.abs v) 10 false)) → - 2 ^ 63 < v < 2 ^ 63 →
  len (number s (sign_of s v) (u_to_str (Z.abs v) 10 false)) < 2 ^ 31 → mapped m p 4 →
  sscanf a (chars "%d") [p] m = Done (1, put_at p (put32 (u32 v)) m).
Proof.
  intros Hm Hv Hl Hp. destruct (number_text s v Hv) as (ws & sg & ds & k & E & Hws & Hsg & Hd & Hne & Hval).
  rewrite E in Hm, Hl. destruct ds as [|d ds]; [done|].
  rewrite (sscanf_Done m a ws sg (v <? 0) d ds (replicate k 32) p); try done.
  - do 2 f_equal. rewrite Hval. destruct (Z.ltb_spec v 0); do 3 f_equal; lia.
  - by destruct k.
  - rewrite Hval. lia.
  - unfold len, NO_WIDTH in *. rewrite !length_app in Hl. cbn [length] in Hl. lia.
Qed.

Lemma number_chars s v : - 2 ^ 63 < v < 2 ^ 63 →
  Forall (λ c, 0 < c < 256) (number s (sign_of s v) (u_to_str (Z.abs v) 10 false)).
Proof.
  intros Hv. destruct (u_to_str_decimal (Z.abs v) ltac:(lia)) as (Hd & _).
  destruct (number_shape s (sign_of s v) (u_to_str (Z.abs v) 10 false)) as (i & j & k & ->).
  assert (∀ n c, 0 < c < 256 → Forall (λ c, 0 < c < 256) (replicate n c)) as Hr by (intros; by apply Forall_replicate).
  apply Forall_app. split; [apply Hr; lia|]. apply Forall_app. split.
  { unfold sign_of. repeat case_if; repeat constructor; lia. }
  apply Forall_app. split; [|apply Hr; lia]. apply Forall_app. split; [apply Hr; lia|].
  - eapply Forall_impl; [exact Hd|]. cbn beta. lia.
Qed.

(** The directive and the conversion of a format that is one conversion of an integer. *)
Lemma number_format d conv args v s :
  directive d args = Done ([conv], [UInt v], s) → conv = 100 ∨ conv = 105 → lng s = 0 → - 2 ^ 31 <= v < 2 ^ 31 → d ≠ [] →
  format_text (37 :: d) args = Some (number s (sign_of s v) (u_to_str (Z.abs v) 10 false)).
Proof.
  intros Hd Hc Hl Hv Hne. unfold format_text. cbn [length render]. change (negb (37 =? 37)) with false. cbn iota.
  rewrite Hd. cbn [of_run mbind option_bind render_conv].
  assert ((conv =? 100) || (conv =? 105) = true) as -> by (by destruct Hc as [->| ->]).
  cbn [arg_int of_run mbind option_bind]. unfold signed_arg. rewrite Hl. change (0 =? 0) with true. cbn iota.
  rewrite (swrap_small 32 v) by lia. destruct d as [|c d]; [done|]. cbn [length render mbind option_bind]. by rewrite app_nil_r.
Qed.

(** C29: Whatever the flags, the width and the precision of the directive, the text that [snprintf]
    writes for an [int] is read back by [atoi] and by [sscanf] as the same number. *)
Theorem printed_number_reads_back {W} `{!userland W, !UserlandLaws W} fbuf b n d conv args v s p (w : W) :
  directive d args = Done ([conv], [UInt v], s) → conv = 100 ∨ conv = 105 → lng s = 0 → - 2 ^ 31 <= v < 2 ^ 31 → d ≠ [] →
  let out := number s (sign_of s v) (u_to_str (Z.abs v) 10 false) in
  len out < n → len out < 2 ^ 31 → n < 2 ^ 64 → mapped (wmem w) b (Z.to_nat (len out + 1)) → mapped (wmem w) p 4 →
  ∃ w', snprintf fbuf (Some b) n (37 :: d) args w = Done (len out, w') ∧ atoi (wmem w') b = Done v ∧
    sscanf b (chars "%d") [p] (wmem w') = Done (1, put_at p (put32 (u32 v)) (wmem w')).
Proof.
  intros Hd Hc Hl Hv Hne out Hn Ho Hn64 Hm Hp. pose proof (len_nonneg out).
  pose proof (number_format d conv args v s Hd Hc Hl Hv Hne) as Ht. fold out in Ht.
  pose proof (number_chars s v ltac:(lia)) as Hch. fold out in Hch.
  assert (bounded n out = out ++ [0]) as Eb.
  { unfold bounded. rewrite (proj2 (Z.eqb_neq n 0)) by lia. unfold len in *. by rewrite take_ge by lia. }
  assert (Forall byte out) as Hb by (eapply Forall_impl; [exact Hch|]; unfold byte; cbn beta; lia).
  assert (mapped (wmem w) b (length (bounded n out))) as Hm'.
  { rewrite Eb, length_app. cbn [length]. unfold len in Hm. by replace (length out + 1)%nat with (Z.to_nat (Z.of_nat (length out) + 1)) by lia. }
  eexists. split; [apply (snprintf_Done fbuf b n _ _ out w Ht Hb Ho ltac:(lia) Hm')|]. rewrite wmem_set, Eb.
  assert (cstr (put_at b (out ++ [0]) (wmem w)) b out) as Hs by (split; [apply put_at_in|done]). split.
  - destruct (strtol_number _ _ s v Hs ltac:(lia)) as [e E]. unfold atoi. rewrite E. cbn. by rewrite (swrap_small 32 v) by lia.
  - apply (sscanf_number _ _ s v p Hs); [lia|done|]. by apply put_at_mapped.
Qed.

Lemma printed_number_reads_back_witness :
  directive (chars "+08d") [UInt (-42)] = Done ([100], [UInt (-42)], Spec false true true false false 8 (-1) 0) ∧
  ∃ w', snprintf 900 (Some 100) 16 (37 :: chars "+08d") [UInt (-42)] demo_world = Done (8, w') ∧
    atoi (wmem w') 100 = Done (-42) ∧
    sscanf 100 (chars "%d") [200] (wmem w') = Done (1, put_at 200 (put32 (u32 (-42))) (wmem w')).
Proof.
  split; [by vm_compute|].
  apply (printed_number_reads_back 900 100 16 (chars "+08d") 100 [UInt (-42)] (-42) (Spec false true true false false 8 (-1) 0) 200 demo_world).
  - by vm_compute.
  - by left.
  - done.
  - lia.
  - done.
  - by vm_compute.
  - by vm_compute.
  - lia.
  - apply (mapped_range _ _ _ _ _ demo_world_mapped); by vm_compute.
  - apply (mapped_range _ _ _ _ _ demo_world_mapped); by vm_compute.
Defined.
