(* ===== verification/UFile.v ===== *)
(** * Streams of user space (userspace/lib/stdio_file.c, userspace/lib/misc.c, userspace/lib/errno.c)

    A stream is a [struct _FILE] at an address: the three of the program, and those that [fopen]
    allocates in the heap of UHeap. The state of a process is [errno], the heap, the streams and the world of
    USys. The addresses of local buffers are parameters. *)

From S2P Require Import Prelude CString Bytes UString UHeap Syscall USys UPrintf UScanf.

Local Open Scope Z_scope.

Definition O_RDONLY : Z := 0.
Definition O_WRONLY : Z := 1.
Definition O_RDWR : Z := 2.
Definition O_CREAT : Z := 0x40.
Definition O_TRUNC : Z := 0x200.
Definition O_APPEND : Z := 0x400.

Record FILE := File { fd : Z; eof : Z; err : Z; ungot : Z; is_std : Z }.

(** [sizeof(FILE)]: five integers. *)
Definition FILE_SIZE : Z := 20.

Definition set_eof (x : Z) (f : FILE) : FILE := File (fd f) x (err f) (ungot f) (is_std f).
Definition set_err (x : Z) (f : FILE) : FILE := File (fd f) (eof f) x (ungot f) (is_std f).
Definition set_ungot (x : Z) (f : FILE) : FILE := File (fd f) (eof f) (err f) x (is_std f).

Record proc (W : Type) := Proc { p_errno : Z; p_heap : arena; p_files : gmap Z FILE; p_world : W }.
Arguments Proc {_} _ _ _ _.
Arguments p_errno {_} _.
Arguments p_heap {_} _.
Arguments p_files {_} _.
Arguments p_world {_} _.

(** The flags of a mode string, before the access mode is added. *)
Fixpoint mode_flags (mode : list Z) (flags : Z) (rd wr : bool) : Z * bool * bool :=
  match mode with
  | [] => (flags, rd, wr)
  | c :: mode =>
      if c =? 114 then mode_flags mode flags true wr                                           (* 'r' *)
      else if c =? 119 then mode_flags mode (Z.lor flags (Z.lor O_CREAT O_TRUNC)) rd true      (* 'w' *)
      else if c =? 97 then mode_flags mode (Z.lor flags (Z.lor O_CREAT O_APPEND)) rd true      (* 'a' *)
      else if c =? 43 then mode_flags mode flags true true                                     (* '+' *)
      else mode_flags mode flags rd wr
  end.

Definition open_flags (mode : list Z) : Z :=
  let '(flags, rd, wr) := mode_flags mode 0 false false in
  Z.lor flags (if (rd : bool) && wr then O_RDWR else if wr : bool then O_WRONLY else O_RDONLY).

Section stdio.
Context {W : Type} `{!userland W}.

(** The arena, the three streams, and local variables: a character, the buffer of [vfprintf] and
    that of a sink. *)
Variables (g_heap stdin stdout stderr cbuf vbuf fbuf : Z).

Definition on_world {A} (m : st W A) : st (proc W) A := λ s,
  match m (p_world s) with
  | Done (a, w) => Done (a, Proc (p_errno s) (p_heap s) (p_files s) w)
  | Stop e => Stop e
  end.
Definition on_arena {A} (m : st arena A) : st (proc W) A := λ s,
  match m (p_heap s) with
  | Done (a, h) => Done (a, Proc (p_errno s) h (p_files s) (p_world s))
  | Stop e => Stop e
  end.
Definition set_errno (x : Z) : st (proc W) unit := st_modify (λ s, Proc x (p_heap s) (p_files s) (p_world s)).
Definition get_file (f : Z) : st (proc W) FILE := λ s, match p_files s !! f with Some x => Done (x, s) | None => Stop Fault end.
Definition put_file (f : Z) (x : FILE) : st (proc W) unit :=
  st_modify (λ s, Proc (p_errno s) (p_heap s) (<[f := x]> (p_files s)) (p_world s)).
Definition upd_file (f : Z) (g : FILE → FILE) : st (proc W) unit := x ← get_file f; put_file f (g x).
Definition drop_file (f : Z) : st (proc W) unit :=
  st_modify (λ s, Proc (p_errno s) (p_heap s) (delete f (p_files s)) (p_world s)).

(** ** Opening and closing *)

Definition fopen (path : Z) (mode : list Z) : st (proc W) (option Z) :=
  fd ← on_world (sys_open path (open_flags mode));
  if fd <? 0 then _ ← set_errno ENOENT; mret None
  else
    f ← on_arena (malloc g_heap FILE_SIZE);
    match f with
    | None => _ ← on_world (sys_close fd); mret None
    | Some a => _ ← put_file a (File fd 0 0 (-1) 0); mret f
    end.

Definition fclose (f : option Z) : st (proc W) Z :=
  match f with
  | None => mret 0
  | Some a =>
      x ← get_file a;
      if negb (is_std x =? 0) then mret 0
      else
        r ← on_world (sys_close (fd x));
        _ ← drop_file a;
        _ ← on_arena (free f);
        mret (if r <? 0 then EOF else 0)
  end.

(** ** Blocks *)

(** [while (got < total)] of [fread] *)
Fixpoint read_loop (fuel : nat) (f out total got : Z) : st (proc W) Z :=
  match fuel with
  | O => st_stop Diverge
  | S fuel =>
      if got <? total then
        x ← get_file f;
        n ← on_world (sys_read (fd x) (out + got) (total - got));
        if n <? 0 then _ ← upd_file f (set_err 1); mret got
        else if n =? 0 then _ ← upd_file f (set_eof 1); mret got
        else read_loop fuel f out total (u64 (got + n))
      else mret got
  end.

Definition fread (ptr size nmemb : Z) (f : option Z) : st (proc W) Z :=
  match f with
  | None => mret 0
  | Some f =>
      if (size =? 0) || (nmemb =? 0) then mret 0
      else
        let total := u64 (size * nmemb) in
        x ← get_file f;
        got ← (if 0 <=? ungot x then
                 _ ← on_world (on_wmem (stb ptr (ungot x))); _ ← put_file f (set_ungot (-1) x); mret 1
               else mret 0);
        got ← read_loop (S (Z.to_nat total)) f ptr total got;
        mret (got / size)
  end.

Fixpoint write_loop (fuel : nat) (f src total put : Z) : st (proc W) Z :=
  match fuel with
  | O => st_stop Diverge
  | S fuel =>
      if put <? total then
        x ← get_file f;
        n ← on_world (sys_write (fd x) (src + put) (total - put));
        if n <=? 0 then _ ← upd_file f (set_err 1); mret put
        else write_loop fuel f src total (u64 (put + n))
      else mret put
  end.

Definition fwrite (ptr size nmemb : Z) (f : option Z) : st (proc W) Z :=
  match f with
  | None => mret 0
  | Some f =>
      if (size =? 0) || (nmemb =? 0) then mret 0
      else
        let total := u64 (size * nmemb) in
        put ← write_loop (S (Z.to_nat total)) f ptr total 0;
        mret (put / size)
  end.

(** ** Positions *)

Definition fseek (f : option Z) (off whence : Z) : st (proc W) Z :=
  match f with
  | None => mret (-1)
  | Some f =>
      _ ← upd_file f (λ x, set_eof 0 (set_ungot (-1) x));
      x ← get_file f;
      r ← on_world (sys_lseek (fd x) off whence);
      mret (if r <? 0 then -1 else 0)
  end.

Definition ftell (f : option Z) : st (proc W) Z :=
  match f with
  | None => mret (-1)
  | Some f =>
      x ← get_file f;
      r ← on_world (sys_lseek (fd x) 0 LZ_SEEK_CUR);
      mret (if (0 <=? r) && (0 <=? ungot x) then r - 1 else r)
  end.

Definition rewind (f : option Z) : st (proc W) unit :=
  _ ← fseek f 0 0;
  match f with None => mret tt | Some f => upd_file f (set_err 0) end.

Definition feof (f : option Z) : st (proc W) Z :=
  match f with None => mret 1 | Some f => x ← get_file f; mret (eof x) end.
Definition ferror (f : option Z) : st (proc W) Z :=
  match f with None => mret 1 | Some f => x ← get_file f; mret (err x) end.
Definition clearerr (f : option Z) : st (proc W) unit :=
  match f with None => mret tt | Some f => upd_file f (λ x, set_eof 0 (set_err 0 x)) end.
Definition fileno (f : option Z) : st (proc W) Z :=
  match f with None => mret (-1) | Some f => x ← get_file f; mret (fd x) end.

(** ** Characters *)

Definition fgetc (f : option Z) : st (proc W) Z :=
  match f with
  | None => mret EOF
  | Some f =>
      x ← get_file f;
      if 0 <=? ungot x then _ ← put_file f (set_ungot (-1) x); mret (ungot x)
      else
        n ← on_world (sys_read (fd x) cbuf 1);
        if n =? 1 then on_world (read_wmem (λ m, ldb m cbuf))
        else _ ← upd_file f (if n =? 0 then set_eof 1 else set_err 1); mret EOF
  end.

Definition getc (f : option Z) : st (proc W) Z := fgetc f.

Definition ungetc (c : Z) (f : option Z) : st (proc W) Z :=
  match f with
  | None => mret EOF
  | Some f =>
      if c =? EOF then mret EOF
      else _ ← upd_file f (λ x, set_eof 0 (set_ungot (u8 c) x)); mret c
  end.

(** [while (i < size - 1)] *)
Fixpoint gets_loop (n : nat) (s : Z) (f : option Z) (i : Z) : st (proc W) Z :=
  match n with
  | O => mret i
  | S n =>
      c ← fgetc f;
      if c =? EOF then mret i
      else
        _ ← on_world (on_wmem (stb (s + i) c));
        if c =? 10 then mret (i + 1) else gets_loop n s f (i + 1)
  end.

Definition fgets (s size : Z) (f : option Z) : st (proc W) (option Z) :=
  match f with
  | None => mret None
  | Some _ =>
      if size <=? 0 then mret None
      else
        i ← gets_loop (Z.to_nat (size - 1)) s f 0;
        if i =? 0 then mret None
        else _ ← on_world (on_wmem (stb (s + i) 0)); mret (Some s)
  end.

Definition fputc (c : Z) (f : option Z) : st (proc W) Z :=
  _ ← on_world (on_wmem (stb cbuf c));
  r ← fwrite cbuf 1 1 f;
  mret (if r =? 1 then c else EOF).

Definition putc (c : Z) (f : option Z) : st (proc W) Z := fputc c f.

Definition fputs (s : Z) (f : option Z) : st (proc W) Z :=
  n ← on_world (read_wmem (λ m, strlen m s));
  r ← fwrite s 1 n f;
  mret (if r =? n then 0 else EOF).

(** The texts of [perror] are at [colon] and [error]. *)
Definition perror (s : option Z) (colon error : Z) : st (proc W) unit :=
  _ ← match s with
      | None => mret 0
      | Some a =>
          c ← on_world (read_wmem (λ m, ldb m a));
          if c =? 0 then mret 0 else _ ← fputs a (Some stderr); fputs colon (Some stderr)
      end;
  _ ← fputs error (Some stderr);
  mret tt.

(** ** Formats *)

Definition vfprintf (f : option Z) (fmt : list Z) (args : list uarg) : st (proc W) Z :=
  r ← on_world (__vfmt_buf fbuf (Some vbuf) 1024 fmt args);
  let n := if u64 r <? 1023 then u64 r else 1023 in
  _ ← fwrite vbuf 1 n f;
  mret r.

Definition fprintf (f : option Z) (fmt : list Z) (args : list uarg) : st (proc W) Z := vfprintf f fmt args.

Definition file_get (f : Z) : st (proc W) Z := fgetc (Some f).
Definition file_unget (f c : Z) : st (proc W) unit := _ ← ungetc c (Some f); mret tt.

(** [limit]: how many characters the stream can give. *)
Definition fscanf (limit : nat) (f : Z) (fmt args : list Z) : st (proc W) Z :=
  __vscan_core (file_get f) (file_unget f) (λ a l, on_world (on_wmem (store_bytes a l))) limit fmt args.

(** ** misc.c *)

Definition usleep (usec : Z) : st (proc W) Z := _ ← on_world (sys_sleep (u32 usec / 1000)); mret 0.
Definition getpid : st (proc W) Z := on_world sys_getpid.
Definition read (fd buf n : Z) : st (proc W) Z := on_world (sys_read fd buf n).
Definition write (fd buf n : Z) : st (proc W) Z := on_world (sys_write fd buf n).
Definition close (fd : Z) : st (proc W) Z := on_world (sys_close fd).
Definition lseek (fd off whence : Z) : st (proc W) Z := on_world (sys_lseek fd off whence).
Definition isatty (fd : Z) : bool := (fd =? 0) || (fd =? 1) || (fd =? 2).

(** The result of a call, its error in [errno]. *)
Definition or_errno (m : st W Z) : st (proc W) Z :=
  rc ← on_world m;
  if rc <? 0 then _ ← set_errno (i32 (- rc)); mret (-1) else mret 0.

Definition chdir (path : Z) : st (proc W) Z := or_errno (sys_chdir path).
Definition mkdir (path mode : Z) : st (proc W) Z := or_errno (sys_mkdir path mode).
Definition unlink (path : Z) : st (proc W) Z := or_errno (sys_unlink path).
Definition rmdir (path : Z) : st (proc W) Z := or_errno (sys_rmdir path).

Definition getcwd (buf size : Z) : st (proc W) (option Z) :=
  n ← on_world (sys_getcwd buf size);
  if n <? 0 then _ ← set_errno (i32 (- n)); mret None else mret (Some buf).

Definition access (path mode : Z) : st (proc W) Z :=
  f ← fopen path (chars "rb");
  match f with
  | None => mret (-1)
  | Some _ => _ ← fclose f; mret 0
  end.

(** The time is that since the start of the system. *)
Definition time (t : option Z) : st (proc W) Z :=
  ms ← on_world sys_uptime_ms;
  let v := ms / 1000 in
  _ ← match t with Some a => on_world (on_wmem (store_bytes a (put32 (u32 v) ++ put32 (u32 (v / 2 ^ 32))))) | None => mret tt end;
  mret v.

Definition gettimeofday (tv : option Z) : st (proc W) Z :=
  match tv with
  | None => mret 0
  | Some a =>
      ms ← on_world sys_uptime_ms;
      let sec := ms / 1000 in
      let usec := u64 (ms mod 1000 * 1000) in
      _ ← on_world (on_wmem (store_bytes a
            (put32 (u32 sec) ++ put32 (u32 (sec / 2 ^ 32)) ++ put32 (u32 usec) ++ put32 (u32 (usec / 2 ^ 32)))));
      mret 0
  end.

Definition strftime (s max : Z) : st (proc W) Z :=
  _ ← (if negb (max =? 0) then on_world (on_wmem (stb s 0)) else mret tt); mret 0.

Definition __assert_fail (expr file : list Z) (line : Z) : st (proc W) unit :=
  _ ← fprintf (Some stderr) (chars "assert failed: %s (%s:%d)" ++ [10]) [UStr expr; UStr file; UInt line];
  on_world (_exit 134).
End stdio.

(** The fields of [localtime]: seconds, minutes, hours, the day of the month, the month, the year, and
    the rest is zero. *)
Definition localtime (t : option Z) : list Z :=
  let s := default 0 t in
  [i32 (Z.rem s 60); i32 (Z.rem (Z.quot s 60) 60); i32 (Z.rem (Z.quot s 3600) 24); 1; 0; 70; 0; 0; 0].

(** ** Streams as lists *)

Section streams.
Context {W : Type} `{!userland W, !UserlandLaws W}.
Variables (g_heap cbuf : Z).

(** What a descriptor promises to a reader: a read gives some of the bytes that are left, none only at
    the end, and stores them in the memory of the program. *)
Record reader (n : Z) (P : list Z → W → Prop) : Prop := {
  rd_read : ∀ rem w a k, P rem w → mapped (wmem w) a (Z.to_nat k) → 0 < k < 2 ^ 31 → 0 < a → a + k < 2 ^ 47 →
    ∃ r w', sys_read n a k w = Done (Z.of_nat r, w') ∧ Z.of_nat r <= k ∧ (r <= length rem)%nat ∧ (r = 0%nat → rem = []) ∧
            wmem w' = put_at a (take r rem) (wmem w) ∧ P (drop r rem) w';
  rd_mem : ∀ rem w m, P rem w → P rem (set_wmem m w);
  rd_bytes : ∀ rem w, P rem w → Forall byte rem;
}.

Variables (n : Z) (P : list Z → W → Prop).
Hypothesis HR : reader n P.

(** The stream at [f] has [l] to give: a character that was put back, and the rest of the file. *)
Definition stream (f : Z) (l : list Z) (s : proc W) : Prop :=
  ∃ x rem, p_files s !! f = Some x ∧ fd x = n ∧ P rem (p_world s) ∧
    (ungot x = -1 ∧ l = rem ∨ byte (ungot x) ∧ l = ungot x :: rem).

Definition at_end (f : Z) (s : proc W) : Prop := ∃ x, p_files s !! f = Some x ∧ eof x = 1.

(** Only the memory of the program and the stream change. *)
Definition memory (s : proc W) : mem := wmem (p_world s).
Definition cleared : Prop := 0 < cbuf < 2 ^ 47 - 1.

Lemma stream_bytes f l s : stream f l s → Forall byte l.
Proof using HR.
  intros (x & rem & _ & _ & HP & [[_ ->]|[Hb ->]]); [|constructor; [done|]]; by eapply rd_bytes.
Qed.

Lemma stream_mem f l s m :
  stream f l s → stream f l (Proc (p_errno s) (p_heap s) (p_files s) (set_wmem m (p_world s))).
Proof using HR. intros (x & rem & Hx & Hn & HP & Hl). exists x, rem. split; [done|]. split; [done|]. split; [by eapply rd_mem|done]. Qed.

Lemma on_world_Done {A} (m : st W A) a (s : proc W) w : m (p_world s) = Done (a, w) →
  on_world m s = Done (a, Proc (p_errno s) (p_heap s) (p_files s) w).
Proof using Type. unfold on_world. by intros ->. Qed.

Lemma get_stream_Done f x (s : proc W) : p_files s !! f = Some x → get_file f s = Done (x, s).
Proof using Type. unfold get_file. by intros ->. Qed.

Lemma upd_file_Done f g x (s : proc W) : p_files s !! f = Some x →
  upd_file f g s = Done (tt, Proc (p_errno s) (p_heap s) (<[f := g x]> (p_files s)) (p_world s)).
Proof using Type. intros Hx. unfold upd_file, mbind, st_bind. by rewrite (get_stream_Done f x s Hx). Qed.

(** One character. *)
Lemma fgetc_wp f l s (Q : Z → proc W → Prop) :
  stream f l s → cleared → is_Some (memory s !! cbuf) →
  (∀ s', stream f (tail l) s' → (∀ a, a ≠ cbuf → memory s' !! a = memory s !! a) → is_Some (memory s' !! cbuf) →
         (l = [] → at_end f s') → Q (hd EOF l) s') →
  wp (fgetc cbuf (Some f)) Q s.
Proof using HR UserlandLaws0.
  intros Hs Hc Hm HQ. pose proof (stream_bytes _ _ _ Hs) as Hb. destruct Hs as (x & rem & Hx & Hn & HP & Hl).
  unfold fgetc. apply wp_bind. eapply wp_Done; [by apply get_stream_Done|]. destruct Hl as [[Hu ->]|[Hu ->]].
  - rewrite Hu. change (0 <=? -1) with false. cbn iota. apply wp_bind.
    destruct (rd_read _ _ HR rem (p_world s) cbuf 1 HP) as (r & w' & E & Hr & Hrl & Hr0 & Hm' & HP'); [|lia|unfold cleared in *; lia|unfold cleared in *; lia|].
    { intros i Hi. assert (i = 0%nat) as -> by lia. by rewrite Z.add_0_r. }
    eapply wp_Done; [apply on_world_Done; rewrite Hn; exact E|].
    destruct rem as [|c rem].
    + assert (r = 0%nat) as -> by (cbn in Hrl; lia). change (Z.of_nat 0 =? 1) with false. change (Z.of_nat 0 =? 0) with true. cbn iota.
      apply wp_bind. eapply wp_Done; [by apply upd_file_Done|]. apply wp_ret. cbn [take put_at drop] in *.
      apply HQ; cbn [p_files p_world p_heap p_errno].
      * eexists _, []. split; [apply lookup_insert_eq|]. split; [done|]. split; [done|]. by left.
      * intros a _. unfold memory. cbn. by rewrite Hm'.
      * unfold memory. cbn. by rewrite Hm'.
      * intros _. eexists. split; [apply lookup_insert_eq|done].
    + assert (r = 1%nat) as -> by (destruct r as [|[|r]]; [by specialize (Hr0 eq_refl)|done|lia]).
      change (Z.of_nat 1 =? 1) with true. cbn iota. cbn [take put_at drop] in *. rewrite take_0 in Hm'. cbn [put_at] in Hm'.
      eapply wp_Done; [apply on_world_Done; unfold read_wmem; cbn [p_world]; rewrite Hm', (ldb_Some _ _ c) by apply lookup_insert_eq; done|].
      apply HQ; cbn [p_files p_world p_heap p_errno tail].
      * exists x, rem. split; [done|]. split; [done|]. split; [done|]. by left.
      * intros a Ha. unfold memory. cbn. by rewrite Hm', lookup_insert_ne.
      * unfold memory. cbn. rewrite Hm'. by rewrite lookup_insert_eq.
      * done.
  - rewrite (proj2 (Z.leb_le 0 (ungot x))) by apply Hu. apply wp_bind. unfold put_file. apply wp_modify, wp_ret.
    apply HQ; [|done|done|done]. eexists _, rem. split; [apply lookup_insert_eq|]. split; [done|]. split; [done|]. by left.
Qed.

(** ** Lines *)

(** The characters up to the first newline, at most [k]. *)
Fixpoint first_line (k : nat) (l : list Z) : list Z :=
  match k, l with
  | S k, c :: l => if c =? 10 then [c] else c :: first_line k l
  | _, _ => []
  end.

Lemma first_line_prefix k l : first_line k l = take (length (first_line k l)) l.
Proof using Type.
  revert l. induction k as [|k IH]; intros [|c l]; cbn [first_line]; try done. case_if; [done|].
  cbn [length take]. by rewrite <- IH.
Qed.

Lemma gets_loop_wp k s0 f l i s (Q : Z → proc W → Prop) :
  stream f l s → cleared → is_Some (memory s !! cbuf) → mapped (memory s) (s0 + i) k →
  cbuf < s0 + i ∨ s0 + i + Z.of_nat k <= cbuf →
  (∀ s', let line := first_line k l in
     stream f (drop (length line) l) s' →
     (∀ a, a ≠ cbuf → memory s' !! a = put_at (s0 + i) line (memory s) !! a) → is_Some (memory s' !! cbuf) →
     Q (i + Z.of_nat (length line)) s') →
  wp (gets_loop cbuf k s0 (Some f) i) Q s.
Proof using HR UserlandLaws0.
  revert l i s. induction k as [|k IH]; intros l i s Hs Hc Hcb Hm Hd HQ; cbn [gets_loop].
  { apply wp_ret. rewrite <- (Z.add_0_r i). by apply (HQ s). }
  pose proof (stream_bytes _ _ _ Hs) as Hb. apply wp_bind. eapply (fgetc_wp f l); [done..|].
  intros s1 Hs1 Hm1 Hcb1 _. destruct l as [|c l]; cbn [hd tail] in *.
  { change (EOF =? EOF) with true. cbn iota. apply wp_ret. rewrite <- (Z.add_0_r i). apply HQ; [done| |done].
    intros a Ha. by apply Hm1. }
  apply Forall_cons in Hb as [Hc0 Hb]. unfold byte in Hc0.
  unfold EOF. rewrite (proj2 (Z.eqb_neq c (-1))) by lia. apply wp_bind.
  apply mapped_S in Hm as [Hm0 Hm].
  eapply wp_Done; [apply on_world_Done, on_wmem_Done, stb_Done|].
  { fold (memory s1). rewrite Hm1 by lia. exact Hm0. }
  { done. }
  cbn [first_line] in HQ.
  set (s2 := Proc (p_errno s1) (p_heap s1) (p_files s1) (set_wmem (<[s0 + i := c]> (wmem (p_world s1))) (p_world s1))).
  assert (memory s2 = <[s0 + i := c]> (memory s1)) as Em by apply wmem_set.
  assert (stream f l s2) as Hs2 by (by apply stream_mem).
  destruct (c =? 10).
  - apply wp_ret. change 1 with (Z.of_nat 1) at 1. apply (HQ s2); [done| |].
    + intros a Ha. cbn [put_at]. rewrite Em. destruct (decide (a = s0 + i)) as [->|Hne].
      * by rewrite !lookup_insert_eq.
      * rewrite !lookup_insert_ne by done. by apply Hm1.
    + rewrite Em. by rewrite lookup_insert_ne by lia.
  - apply (IH l (i + 1) s2).
    + done.
    + done.
    + rewrite Em. by rewrite lookup_insert_ne by lia.
    + rewrite Em, Z.add_assoc. apply mapped_insert. intros j Hj. rewrite Hm1 by lia. by apply Hm.
    + lia.
    + intros s' Hs' Hm' Hcb'. replace (i + 1 + Z.of_nat (length (first_line k l)))
        with (i + Z.of_nat (length (c :: first_line k l))) by (cbn [length]; lia).
      apply HQ; [done| |done]. intros a Ha. rewrite (Hm' a Ha), Em. cbn [put_at]. rewrite Z.add_assoc.
      destruct (decide (s0 + i + 1 <= a < s0 + i + 1 + Z.of_nat (length (first_line k l)))) as [Hin|Hout].
      * rewrite !lookup_put_at. by rewrite !(proj2 (Z.leb_le _ _)), !(proj2 (Z.ltb_lt _ _)) by lia.
      * rewrite !put_at_out by lia. destruct (decide (a = s0 + i)) as [->|Hne]; [by rewrite !lookup_insert_eq|].
        rewrite !lookup_insert_ne by done. by apply Hm1.
Qed.

Lemma fgets_wp s0 size f l s (Q : option Z → proc W → Prop) :
  stream f l s → cleared → is_Some (memory s !! cbuf) → 0 < size → mapped (memory s) s0 (Z.to_nat size) →
  cbuf < s0 ∨ s0 + size <= cbuf →
  let line := first_line (Z.to_nat (size - 1)) l in
  (∀ s', stream f (drop (length line) l) s' →
     (∀ a, a ≠ cbuf → memory s' !! a = if decide (line = []) then memory s !! a else put_at s0 (line ++ [0]) (memory s) !! a) →
     Q (if decide (line = []) then None else Some s0) s') →
  wp (fgets cbuf s0 size (Some f)) Q s.
Proof using HR UserlandLaws0.
  intros Hs Hc Hcb Hsz Hm Hd line HQ. unfold fgets. rewrite (proj2 (Z.leb_gt size 0)) by lia. apply wp_bind.
  apply (gets_loop_wp (Z.to_nat (size - 1)) s0 f l 0 s); rewrite ?Z.add_0_r; try done; [|lia|].
  { intros i Hi. apply Hm. lia. }
  intros s1. cbv zeta. fold line. intros Hs1 Hm1 Hcb1. rewrite Z.add_0_l.
  assert (length line <= Z.to_nat (size - 1))%nat as Hlen.
  { unfold line. clear. generalize (Z.to_nat (size - 1)) as k. intros k. revert l.
    induction k as [|k IH]; intros [|c l]; cbn [first_line length]; try lia. case_if; cbn [length]; [lia|]. specialize (IH l). lia. }
  destruct (decide (line = [])) as [E|E].
  - rewrite E in *. change (Z.of_nat (length []) =? 0) with true. cbn iota. apply wp_ret. apply HQ; [done|].
    intros a Ha. by rewrite (Hm1 a Ha).
  - assert (Z.of_nat (length line) =? 0 = false) as ->.
    { apply Z.eqb_neq. destruct line; [done|]. cbn. lia. }
    apply wp_bind. eapply wp_Done; [apply on_world_Done, on_wmem_Done, stb_Done; [|unfold byte; lia]|].
    + fold (memory s1). rewrite Hm1 by lia. apply (put_at_mapped s0 line (memory s) s0 (Z.to_nat size) Hm). lia.
    + apply wp_ret. apply HQ; [by apply stream_mem|]. intros a Ha. unfold memory at 1. cbn [p_world]. rewrite wmem_set.
      fold (memory s1). rewrite put_at_app. cbn [put_at].
      destruct (decide (a = s0 + Z.of_nat (length line))) as [->|Hne]; [by rewrite !lookup_insert_eq|].
      rewrite !lookup_insert_ne by done. by apply Hm1.
Qed.

(** ** Blocks *)

(** The loop asks again after a short read, until it has everything or the file ends. *)
Lemma read_loop_wp fuel f out total l x s (got : nat) (Q : Z → proc W → Prop) :
  p_files s !! f = Some x → fd x = n → P l (p_world s) → mapped (memory s) (out + Z.of_nat got) (Z.to_nat (total - Z.of_nat got)) →
  Z.of_nat got <= total → 0 < out → out + total < 2 ^ 47 → total < 2 ^ 31 → (Z.to_nat (total - Z.of_nat got) < fuel)%nat →
  let k := Nat.min (Z.to_nat (total - Z.of_nat got)) (length l) in
  (∀ s' x', p_files s' !! f = Some x' → fd x' = n → ungot x' = ungot x → P (drop k l) (p_world s') →
     memory s' = put_at (out + Z.of_nat got) (take k l) (memory s) → (Z.of_nat got + Z.of_nat (length l) < total → eof x' = 1) →
     Q (Z.of_nat got + Z.of_nat k) s') →
  wp (read_loop fuel f out total (Z.of_nat got)) Q s.
Proof using HR.
  revert got l s. induction fuel as [|fuel IH]; intros got l s Hx Hn HP Hm Hg Ho Hlim Hmax Hf k HQ; [lia|].
  cbn [read_loop]. destruct (Z.ltb_spec (Z.of_nat got) total) as [Hlt|Hge].
  2: { apply wp_ret. assert (k = 0%nat) as Ek by (unfold k; lia). rewrite Ek in *. rewrite <- (Z.add_0_r (Z.of_nat got)).
       apply (HQ s x); try done. lia. }
  apply wp_bind. eapply wp_Done; [by apply get_stream_Done|]. apply wp_bind.
  destruct (rd_read _ _ HR l (p_world s) (out + Z.of_nat got) (total - Z.of_nat got) HP Hm) as (r & w' & E & Hr & Hrl & Hr0 & Hm' & HP');
    [lia..|].
  eapply wp_Done; [apply on_world_Done; rewrite Hn; exact E|]. rewrite (proj2 (Z.ltb_ge (Z.of_nat r) 0)) by lia.
  destruct r as [|r].
  - specialize (Hr0 eq_refl). subst l. change (Z.of_nat 0 =? 0) with true. cbn iota. apply wp_bind.
    eapply wp_Done; [by apply upd_file_Done|]. apply wp_ret. assert (k = 0%nat) as Ek by (unfold k; cbn; lia). rewrite Ek in *.
    rewrite <- (Z.add_0_r (Z.of_nat got)).
    eapply HQ; [apply lookup_insert_eq|done|done|done|done|done].
  - rewrite (proj2 (Z.eqb_neq (Z.of_nat (S r)) 0)) by lia. rewrite (wrap_small 64) by lia. rewrite <- Nat2Z.inj_add.
    set (s1 := Proc (p_errno s) (p_heap s) (p_files s) w').
    assert (memory s1 = put_at (out + Z.of_nat got) (take (S r) l) (memory s)) as Em by done.
    assert (length (take (S r) l) = S r) as El by (rewrite length_take; lia).
    apply (IH (got + S r)%nat (drop (S r) l) s1); [done|done|done| |lia|done|done|done|lia|].
    + rewrite Em. apply put_at_mapped. apply (mapped_range _ _ _ _ _ Hm); lia.
    + rewrite length_drop. set (k1 := Nat.min (Z.to_nat (total - Z.of_nat (got + S r))) (length l - S r)).
      assert (k = S r + k1)%nat as Ek by (unfold k, k1; lia).
      intros s' x' Hx' Hn' Hu' HP1 Hm1 He1. replace (Z.of_nat (got + S r) + Z.of_nat k1) with (Z.of_nat got + Z.of_nat k) by lia.
      apply (HQ s' x'); [done|done|done| | |].
      * rewrite drop_drop in HP1. by rewrite Ek.
      * rewrite Hm1, Em, Ek.
        replace (take (S r + k1) l) with (take (S r) l ++ take k1 (drop (S r) l))
          by (rewrite take_take_drop; f_equal; lia).
        rewrite put_at_app, El. f_equal. lia.
      * intros Hend. apply He1. lia.
Qed.
End streams.

(** ** Theorems *)

(** [fread] gives the next bytes of the stream, a character that was put back first, as many as
    were asked for or as there are, however short the reads of the descriptor are; it returns the number of whole
    objects and raises the flag for the end when the stream ends before. *)
Theorem fread_completes {W} `{!userland W, !UserlandLaws W} n P f l ptr size nmemb (s : proc W) :
  reader n P → stream n P f l s → 0 < size → 0 < nmemb → 0 < ptr → ptr + size * nmemb < 2 ^ 47 → size * nmemb < 2 ^ 31 →
  mapped (memory s) ptr (Z.to_nat (size * nmemb)) →
  let k := Nat.min (Z.to_nat (size * nmemb)) (length l) in
  ∃ s', fread ptr size nmemb (Some f) s = Done (Z.of_nat k / size, s') ∧
    memory s' = put_at ptr (take k l) (memory s) ∧ stream n P f (drop k l) s' ∧
    (Z.of_nat (length l) < size * nmemb → at_end f s').
Proof.
  intros HR Hs Hsz Hnm Hp Hlim Hmax Hm k. pose proof (stream_bytes n P HR _ _ _ Hs) as Hb.
  assert (0 < size * nmemb) as Htot by nia.
  assert (wp (fread ptr size nmemb (Some f)) (λ r s', r = Z.of_nat k / size ∧ memory s' = put_at ptr (take k l) (memory s) ∧
    stream n P f (drop k l) s' ∧ (Z.of_nat (length l) < size * nmemb → at_end f s')) s) as Hw.
  2: { destruct (wp_elim _ _ _ Hw) as (r & s' & E & -> & ?). by exists s'. }
  destruct Hs as (x & rem & Hx & Hn & HP & Hl). unfold fread.
  rewrite (proj2 (Z.eqb_neq size 0)), (proj2 (Z.eqb_neq nmemb 0)) by lia. cbn [orb]. rewrite (wrap_small 64 (size * nmemb)) by lia.
  cbv zeta. apply wp_bind. eapply wp_Done; [by apply get_stream_Done|]. apply wp_bind. destruct Hl as [[Hu ->]|[Hu ->]].
  - rewrite Hu. change (0 <=? -1) with false. cbn iota. apply wp_ret. apply wp_bind. change 0 with (Z.of_nat 0) at 1.
    apply (read_loop_wp n P HR _ f ptr (size * nmemb) rem x s 0); try done; rewrite ?Z.add_0_r, ?Z.sub_0_r; try done; try lia.
    cbv zeta. fold k. intros s' x' Hx' Hn' Hu' HP' Hm' He'. apply wp_ret. rewrite Z.add_0_l. split; [done|]. split; [done|].
    split; [exists x', (drop k rem); split; [done|]; split; [done|]; split; [done|]; left; by rewrite Hu', Hu|].
    intros Hlt. exists x'. split; [done|]. apply He'. lia.
  - rewrite (proj2 (Z.leb_le 0 (ungot x))) by apply Hu.
    assert (k = S (Nat.min (Z.to_nat (size * nmemb - 1)) (length rem))) as Ek by (unfold k; cbn [length]; lia).
    set (k1 := Nat.min (Z.to_nat (size * nmemb - 1)) (length rem)) in *.
    replace (Z.to_nat (size * nmemb)) with (S (Z.to_nat (size * nmemb - 1))) in Hm by lia. apply mapped_S in Hm as [Hm0 Hm].
    apply wp_bind. eapply wp_Done; [apply on_world_Done, on_wmem_Done, stb_Done; [exact Hm0|done]|].
    apply wp_bind. unfold put_file. apply wp_modify, wp_ret. apply wp_bind. change 1 with (Z.of_nat 1) at 1.
    set (s1 := Proc _ _ _ _). assert (memory s1 = <[ptr := ungot x]> (memory s)) as Em by apply wmem_set.
    apply (read_loop_wp n P HR _ f ptr (size * nmemb) rem (set_ungot (-1) x) s1 1); try done; try lia.
    + apply lookup_insert_eq.
    + by apply (rd_mem _ _ HR).
    + rewrite Em. by apply mapped_insert.
    + cbv zeta. change (Z.of_nat 1) with 1. fold k1. intros s' x' Hx' Hn' Hu' HP' Hm' He'. apply wp_ret. rewrite Ek.
      split; [f_equal; lia|]. cbn [take drop]. split; [by rewrite Hm', Em|].
      split; [exists x', (drop k1 rem); split; [done|]; split; [done|]; split; [done|]; by left|].
      intros Hlt. exists x'. split; [done|]. apply He'. cbn [length] in Hlt. lia.
Qed.

(** [fgets] gives the next line of the stream, its newline included, or what fits of it, as a string;
    the rest of the stream stays for the next call, and null is returned at its end. *)
Theorem fgets_line {W} `{!userland W, !UserlandLaws W} cbuf n P f l s0 size (s : proc W) :
  reader n P → stream n P f l s → cleared cbuf → is_Some (memory s !! cbuf) → 1 < size → mapped (memory s) s0 (Z.to_nat size) →
  cbuf < s0 ∨ s0 + size <= cbuf →
  let line := first_line (Z.to_nat (size - 1)) l in
  ∃ s', fgets cbuf s0 size (Some f) s = Done (if decide (l = []) then None else Some s0, s') ∧
    stream n P f (drop (length line) l) s' ∧ line = take (length line) l ∧
    (l ≠ [] → bytes_at (memory s') s0 (line ++ [0])) ∧
    (∀ a, a ≠ cbuf → (a < s0 ∨ s0 + size <= a) → memory s' !! a = memory s !! a).
Proof.
  intros HR Hs Hc Hcb Hsz Hm Hd line.
  assert (line = [] ↔ l = []) as Hnil.
  { unfold line. destruct (Z.to_nat (size - 1)) eqn:E; [lia|]. destruct l as [|c l]; cbn [first_line]; [done|]. case_if; done. }
  assert (length line <= Z.to_nat (size - 1))%nat as Hlen.
  { unfold line. clear. generalize (Z.to_nat (size - 1)) as k. intros k. revert l.
    induction k as [|k IH]; intros [|c l]; cbn [first_line length]; try lia. case_if; cbn [length]; [lia|]. specialize (IH l). lia. }
  assert (wp (fgets cbuf s0 size (Some f)) (λ r s', r = (if decide (l = []) then None else Some s0) ∧
    stream n P f (drop (length line) l) s' ∧ line = take (length line) l ∧ (l ≠ [] → bytes_at (memory s') s0 (line ++ [0])) ∧
    (∀ a, a ≠ cbuf → (a < s0 ∨ s0 + size <= a) → memory s' !! a = memory s !! a)) s) as Hw.
  { apply (fgets_wp cbuf n P HR s0 size f l s); [done|done|done|lia|done|done|]. fold line. intros s' Hs' Hm'. split_and!.
    - destruct (decide (line = [])), (decide (l = [])); try done; exfalso; tauto.
    - done.
    - apply first_line_prefix.
    - intros Hne i c Hi. pose proof (lookup_lt_Some _ _ _ Hi) as Hlt. rewrite length_app in Hlt. cbn [length] in Hlt.
      rewrite Hm' by lia. rewrite decide_False by tauto. by apply put_at_in.
    - intros a Ha Ho. rewrite Hm' by done. destruct (decide (line = [])); [done|]. apply put_at_out.
      rewrite length_app. cbn [length]. lia. }
  destruct (wp_elim _ _ _ Hw) as (r & s' & E & -> & ?). by exists s'.
Qed.

(** A world with a file of which a read gives at most two bytes. *)
Record feeder := Feeder { fe_mem : mem; fe_rest : list Z }.

Definition feed_call (nr a b c d e f : Z) : st feeder Z := λ w,
  if nr =? 2 then
    let r := Nat.min (Nat.min 2 (Z.to_nat c)) (length (fe_rest w)) in
    Done (Z.of_nat r, Feeder (put_at b (take r (fe_rest w)) (fe_mem w)) (drop r (fe_rest w)))
  else Done (- ENOSYS, w).

#[export] Instance feed_userland : userland feeder := {|
  wmem := fe_mem;
  set_wmem := λ m w, Feeder m (fe_rest w);
  __syscall6 := feed_call;
|}.

#[export] Instance feed_laws : UserlandLaws feeder.
Proof. by split; [| |intros []]. Qed.

Definition holds_rest (rem : list Z) (w : feeder) : Prop := fe_rest w = rem ∧ Forall byte rem.

Lemma feed_reader : reader 3 holds_rest.
Proof.
  split; [|by intros rem w m|by intros rem w []].
  intros rem w a k [<- Hb] Hm Hk Ha Hlim. unfold sys_read, __syscall3. cbn [__syscall6 feed_userland].
  rewrite (swrap_small 64 k) by lia. unfold feed_call. change (2 =? 2) with true. cbn iota zeta.
  eexists _, _. split; [reflexivity|]. split; [lia|]. split; [lia|]. split.
  - intros E. destruct (fe_rest w); [done|]. cbn [length] in E. lia.
  - split; [done|]. split; [done|by apply Forall_drop].
Qed.

Definition demo_file : FILE := File 3 0 0 (-1) 0.
Definition demo_proc : proc feeder :=
  Proc 0 (Arena None ∅) {[7 := demo_file]}
    (Feeder (put_at 100 (replicate 100 0) ∅) (chars "one" ++ [10] ++ chars "two" ++ [10])).

Lemma demo_stream : stream 3 holds_rest 7 (chars "one" ++ [10] ++ chars "two" ++ [10]) demo_proc.
Proof.
  exists demo_file, (chars "one" ++ [10] ++ chars "two" ++ [10]). split; [apply lookup_insert_eq|]. split; [done|]. split; [|by left].
  split; [done|]. vm_compute. repeat constructor; discriminate.
Qed.

Lemma fread_completes_witness :
  let l := chars "one" ++ [10] ++ chars "two" ++ [10] in
  ∃ s', fread 100 4 5 (Some 7) demo_proc = Done (2, s') ∧ memory s' = put_at 100 (take 8 l) (memory demo_proc) ∧
    stream 3 holds_rest 7 (drop 8 l) s' ∧ (Z.of_nat (length l) < 4 * 5 → at_end 7 s').
Proof.
  apply (fread_completes 3 holds_rest 7 (chars "one" ++ [10] ++ chars "two" ++ [10]) 100 4 5 demo_proc feed_reader demo_stream); try lia.
  apply (mapped_range _ _ _ _ _ (put_at_filled 100 100 0 ∅)); lia.
Defined.

Lemma fgets_line_witness :
  let l := chars "one" ++ [10] ++ chars "two" ++ [10] in
  ∃ s', fgets 190 100 16 (Some 7) demo_proc = Done (Some 100, s') ∧
    stream 3 holds_rest 7 (drop 4 l) s' ∧ chars "one" ++ [10] = take 4 l ∧ (l ≠ [] → bytes_at (memory s') 100 ((chars "one" ++ [10]) ++ [0])) ∧
    (∀ a, a ≠ 190 → (a < 100 ∨ 100 + 16 <= a) → memory s' !! a = memory demo_proc !! a).
Proof.
  apply (fgets_line 190 3 holds_rest 7 (chars "one" ++ [10] ++ chars "two" ++ [10]) 100 16 demo_proc feed_reader demo_stream).
  - unfold cleared. lia.
  - apply (put_at_filled 100 100 0 ∅ 90%nat). lia.
  - lia.
  - apply (mapped_range _ _ _ _ _ (put_at_filled 100 100 0 ∅)); lia.
  - right. lia.
Defined.
