(* ===== verification/UKernel.v ===== *)
(** * Programs on the kernel

    The kernel keeps what the C library of user space relies on: a descriptor of the terminal prints, and one of
    an open file reads. The theorems on streams and formats hold for programs that run on the kernel. *)

From S2P Require Import Prelude CString Bytes VfsPath Vfs VfsFat16 Tty Input Task SchedDemo Kernel Loader LoaderDemo.
From S2P Require Import SysMem SysFiles SysTable Syscall SysCalls SysDemo.
From S2P Require Import UString UHeap USys UPrintf UScanf UFile.

Local Open Scope Z_scope.

Section kernel.
Context {M F : Type} `{!task_mem M, !user_mem M, !fs_ops F}.
Variables (idle : Z) (frame : cpu_state).
Implicit Types k : kern M F.

#[local] Instance kern_user : userland (kern M F) := kern_userland idle frame.
#[local] Instance kern_user_laws : UserlandLaws (kern M F) := kern_userland_laws idle frame.

(** A call of the stub is a call of the handler. *)
Lemma kernel_call_Done nr a b c h v k k' :
  0 <= nr < SYS_NR_MAX → - 2 ^ 63 <= a < 2 ^ 63 → - 2 ^ 63 <= b < 2 ^ 63 → - 2 ^ 63 <= c < 2 ^ 63 → - 2 ^ 63 <= v < 2 ^ 63 →
  syscall_table idle nr a b c = Some h → h k = Done (Returns v, k') →
  __syscall6 nr a b c 0 0 0 k = Done (v, k').
Proof.
  intros Hnr Ha Hb Hc Hv Hh E. assert (∀ x, - 2 ^ 63 <= x < 2 ^ 63 → i64 (u64 x) = x) as Hi.
  { intros x Hx. unfold swrap, wrap. rewrite Zplus_mod_idemp_l, Z.mod_small by lia. lia. }
  cbn [__syscall6 kern_user kern_userland]. unfold kernel_call, syscall_handler_c, call_regs. cbn [rax rdi rsi rdx].
  unfold SYS_NR_MAX in *. rewrite (wrap_small 64 nr) by lia. rewrite (proj2 (Z.ltb_lt nr 21)) by lia.
  rewrite !Hi, Hh by done. unfold mbind, st_bind. rewrite E. cbn [set_rax rax]. unfold mret, st_ret. cbn. by rewrite Hi.
Qed.

Lemma user_ptr_inside p n : 0 < p → 0 <= n → p + n < 2 ^ 47 → user_ptr_ok p n = true ∧ u64 p = p.
Proof.
  intros Hp Hn Hlim. rewrite user_ptr_ok_iff by lia. rewrite (wrap_small 64 p) by lia. split; [|done].
  apply bool_decide_eq_true. unfold BOOT_HHDM_BASE. lia.
Qed.

(** ** The terminal *)

(** The screen shows the text [out] after what it showed first. *)
Definition displays (cols rows : Z) (d : display) (out : list Z) (k : kern M F) : Prop :=
  shows cols rows false (tty (kcon k)) (fold_left (show cols rows) out d).

Lemma kern_write cols rows d out k a l :
  displays cols rows d out k → bytes_at (umem k) a l → Forall (λ c, 0 <= c < 128) l → 0 < a → a + len l < 2 ^ 47 →
  ∃ t', let k' := put_con (set_tty t' (kcon k)) k in
    USys.sys_write 1 a (len l) k = Done (len l, k') ∧ displays cols rows d (out ++ l) k'.
Proof.
  intros Hd Hb Hl Ha Hlim. pose proof (len_nonneg l). destruct (user_ptr_inside a (len l) Ha ltac:(lia) ltac:(lia)) as [Hp Hu].
  destruct (wp_elim _ _ _ (tty_write_wp l _ _ Hd Hl)) as ([] & t' & E & Ht').
  exists t'. split; [|unfold displays; by rewrite fold_left_app].
  unfold USys.sys_write, __syscall3. change (i32 1) with 1. rewrite (swrap_small 64 (len l)) by lia.
  eapply (kernel_call_Done 1 1 a (len l)); [unfold SYS_NR_MAX; lia|lia..|reflexivity|].
  unfold Syscall.sys_write. rewrite Hp. change ((1 =? 1) || (1 =? 2)) with true. cbn [negb].
  unfold read_user, mbind, st_bind, st_get, st_run. rewrite Hu. unfold len. rewrite Nat2Z.id.
  rewrite (load_bytes_Done (umem k) l a Hb). unfold on_term, on_con, on_tty. by rewrite E.
Qed.

Lemma kern_prints cols rows d : prints 1 (λ c, 0 <= c < 128) (displays cols rows d).
Proof.
  split; [|by intros out k m]. intros out k a l Hd Hb Hl Ha Hlim _.
  destruct (kern_write cols rows d out k a l Hd Hb Hl Ha Hlim) as (t' & E & Hd'). eexists. split; [exact E|]. by split.
Qed.

(** A read of the terminal, with something to read. *)
Lemma kern_read_stdin k a c q :
  holds STDIN_RING_SIZE (stdin (kcon k)) q → q ≠ [] → Forall byte q → 0 < c < 2 ^ 31 → 0 < a → a + c < 2 ^ 47 → mapped (umem k) a (Z.to_nat c) →
  let l := take (Z.to_nat c) q in
  ∃ r, USys.sys_read 0 a c k = Done (Z.of_nat (length l), put_umem (put_at a l (umem k)) (put_con (set_stdin r (kcon k)) k)) ∧
       holds STDIN_RING_SIZE r (drop (Z.to_nat c) q).
Proof.
  intros Hq Hne Hby Hc Ha Hlim Hm l. destruct (user_ptr_inside a c Ha ltac:(lia) ltac:(lia)) as [Hp Hu].
  destruct (stdin_read_ok _ q c Hq ltac:(lia)) as (r & E & Hr). exists r. split; [|done].
  assert (length l <= Z.to_nat c)%nat as Hl by (unfold l; rewrite length_take; lia).
  unfold USys.sys_read, __syscall3. change (i32 0) with 0. rewrite (swrap_small 64 c) by lia.
  eapply (kernel_call_Done 2 0 a c); [unfold SYS_NR_MAX; lia|lia..|reflexivity|].
  unfold Syscall.sys_read. rewrite Hp, (proj2 (Z.eqb_neq c 0)) by lia. change (0 =? 0) with true. cbn [negb].
  unfold mbind, st_bind, st_get. assert (tty_stdin_available (stdin (kcon k)) = true) as ->.
  { unfold tty_stdin_available. rewrite Z.eqb_sym, (ring_empty _ _ _ Hq) by done. by rewrite bool_decide_false. }
  unfold st_run. rewrite E. unfold on_con, st_modify, write_user, on_umem. cbn [negb umem put_con]. rewrite Hu.
  rewrite store_bytes_Done; [done|by eapply mapped_le|by apply Forall_take].
Qed.

(** C30: A program that calls [printf] shows the text on the screen: every pixel is that of the grid after
    the characters of the rendered format, the number of characters is returned, and the memory of the program
    outside of the buffer of the stream is unchanged. *)
Theorem program_printf_shows cols rows d fbuf fmt args out k :
  displays cols rows d [] k → format_text fmt args = Some out → Forall (λ c, 0 <= c < 128) out → len out < 2 ^ 31 →
  0 < fbuf < 2 ^ 47 - 128 → mapped (umem k) fbuf 128 →
  ∃ k', printf fbuf fmt args k = Done (len out, k') ∧ displays cols rows d out k' ∧
        ∀ a, a < fbuf ∨ fbuf + 128 <= a → umem k' !! a = umem k !! a.
Proof.
  intros Hd Ht Hout Hl Hf Hm.
  destruct (vfd_Done fbuf 1 _ _ (kern_prints cols rows d) ltac:(lia) ltac:(unfold byte; lia) Hf [] fmt args out k Ht Hout Hl Hd Hm)
    as (k' & E & Hd' & _ & Hs). by exists k'.
Qed.

(** ** Files *)

Lemma on_fs_files {A} (m : st F A) (v : vfs F) a v' : on_fs m v = Done (a, v') → files v' = files v.
Proof. unfold on_fs. destruct (m (fsys v)) as [[x s]|]; [|done]. by intros [= _ <-]. Qed.

(** A read moves the offset by what it gave. *)
Lemma vfs_read_advances f fl n r buf (v v' : vfs F) :
  files v !! f = Some fl → vfs_read (Some f) n v = Done ((r, buf), v') → 0 <= r → files v' !! f = Some (advance fl r).
Proof.
  intros Hf E Hr. unfold vfs_read in E. apply bind_inv in E as (x & v1 & [-> Hx]%SysFiles.get_file_Done & E).
  assert (x = fl) as -> by congruence. destruct (fl_inode fl ≫= op_read) as [rd|]; [|injection E as <- _ _; lia].
  apply bind_inv in E as ([n0 b0] & v2 & E2 & E). apply bind_inv in E as (u & v3 & E3 & [= -> -> ->]).
  injection E3 as _ <-. cbn. by rewrite lookup_insert_eq.
Qed.

(** The descriptor [n] of the running task is the open file [f], and [rem] is left of its contents. *)
Definition reading (P : vfs F → Prop) (f : Z) (data : list Z) (n : Z) (rem : list Z) (k : kern M F) : Prop :=
  P (kvfs k) ∧ has_fd k n f ∧ ∃ fl, files (kvfs k) !! f = Some fl ∧ 0 <= fl_offset fl <= Z.of_nat (length data) ∧
    rem = drop (Z.to_nat (fl_offset fl)) data.

Lemma kern_read (P : vfs F → Prop) f fl data n k a c :
  reads_as P f data → Forall byte data → P (kvfs k) → has_fd k n f → files (kvfs k) !! f = Some fl → 0 <= fl_offset fl →
  fl_offset fl + c < 2 ^ 32 → 0 < c → 0 < a → a + c < 2 ^ 47 → n < 2 ^ 31 → mapped (umem k) a (Z.to_nat c) →
  let bytes := slice (fl_offset fl) (Z.min c (Z.of_nat (length data) - fl_offset fl)) data in
  ∃ v', USys.sys_read n a c k = Done (Z.of_nat (length bytes), put_umem (put_at a bytes (umem k)) (put_vfs v' k)) ∧
        P v' ∧ files v' !! f = Some (advance fl (Z.of_nat (length bytes))).
Proof.
  intros Hra Hby HP Hfd Hf Hoff Hsum Hc Ha Hlim Hn Hm bytes. destruct (user_ptr_inside a c Ha ltac:(lia) ltac:(lia)) as [Hp Hu].
  destruct (wp_elim _ _ _ (ra_read _ _ _ Hra (kvfs k) fl c HP Hf Hoff ltac:(lia) ltac:(lia))) as (r & v' & E & -> & HP'). fold bytes in E.
  pose proof (vfs_read_advances _ _ _ _ _ _ _ Hf E ltac:(lia)) as Hadv. exists v'. split; [|by split].
  assert (3 <= n) as Hn3 by (destruct Hfd as (? & ? & ? & _ & _ & _ & -> & _); unfold TASK_FD_BASE; lia).
  assert (length bytes <= Z.to_nat c)%nat as Hb by (unfold bytes, slice; rewrite length_take; lia).
  unfold USys.sys_read, __syscall3. rewrite (swrap_small 32 n), (swrap_small 64 c) by lia.
  eapply (kernel_call_Done 2 n a c); [unfold SYS_NR_MAX; lia|lia..|reflexivity|].
  unfold Syscall.sys_read. rewrite Hp. cbn [negb].
  rewrite (proj2 (Z.eqb_neq c 0)), (proj2 (Z.eqb_neq n 0)), (proj2 (Z.eqb_neq n 1)), (proj2 (Z.eqb_neq n 2)) by lia. cbn [orb].
  destruct (wp_elim _ _ _ (fd_get_wp k n f (λ r k', r = Some f ∧ k' = k) Hfd (conj eq_refl eq_refl))) as (? & ? & E1 & -> & ->).
  unfold mbind, st_bind. rewrite E1. unfold on_vfs. rewrite E. unfold write_user, on_umem. cbn [umem put_vfs]. rewrite Hu.
  rewrite store_bytes_Done; [done|by eapply mapped_le|by apply slice_byte].
Qed.

(** An open file is a stream of its contents to the C library: each read of the descriptor gives the next
    bytes, all that were asked for or all that are left, in the memory of the program, and nothing else of the
    memory changes; so the theorems on [fread] and [fgets] hold for files of the kernel. *)
Theorem kern_reader (P : vfs F → Prop) f data n :
  reads_as P f data → Forall byte data → Z.of_nat (length data) < 2 ^ 31 → n < 2 ^ 31 → reader n (reading P f data n).
Proof.
  intros Hra Hby Hlen Hn. split.
  - intros rem k a c (HP & Hfd & fl & Hf & Hoff & ->) Hm Hc Ha Hlim.
    destruct (kern_read P f fl data n k a c Hra Hby HP Hfd Hf ltac:(lia) ltac:(lia) ltac:(lia) Ha Hlim Hn Hm) as (v' & E & HP' & Hf').
    set (bytes := slice _ _ data) in *.
    assert (length bytes = Z.to_nat (Z.min c (Z.of_nat (length data) - fl_offset fl))) as Hl
      by (unfold bytes, slice; rewrite length_take, length_drop; lia).
    exists (length bytes), (put_umem (put_at a bytes (umem k)) (put_vfs v' k)). rewrite length_drop. split_and!; [exact E|lia|lia| | |].
    + intros Hz. apply nil_length_inv. rewrite length_drop. lia.
    + change (put_at a bytes (umem k) = put_at a (take (length bytes) (drop (Z.to_nat (fl_offset fl)) data)) (umem k)).
      f_equal. rewrite Hl. done.
    + split; [exact HP'|]. split; [exact Hfd|]. exists (advance fl (Z.of_nat (length bytes))). split; [exact Hf'|].
      assert (fl_offset (advance fl (Z.of_nat (length bytes))) = fl_offset fl + Z.of_nat (length bytes)) as ->.
      { unfold advance. cbn [fl_offset]. case_match; breflect; [apply wrap_small; lia|lia]. }
      split; [lia|]. rewrite drop_drop. f_equal. lia.
  - intros rem k m (HP & Hfd & Hfl). by split_and!.
  - intros rem k (_ & _ & fl & _ & _ & ->). by apply Forall_drop.
Qed.
End kernel.

(** ** A program on a kernel *)

#[local] Instance prog_user : userland (kern LoaderDemo.space (list Z)) := kern_user 0 (prog_regs 0 0 0 0).

(** The program of the demonstration with 160 bytes at 100. *)
Definition print_kern : kern LoaderDemo.space (list Z) := put_umem (put_at 100 (replicate 160 0) ∅) prog_kern.

Lemma program_printf_shows_witness :
  ∃ k', printf 110 demo_fmt demo_args print_kern = Done (15, k') ∧ displays 4 2 demo_display (chars "-42 |0x00ff|she") k' ∧
        ∀ a, a < 110 ∨ 110 + 128 <= a → umem k' !! a = umem print_kern !! a.
Proof.
  apply (program_printf_shows 0 (prog_regs 0 0 0 0) 4 2 demo_display 110 demo_fmt demo_args (chars "-42 |0x00ff|she") print_kern).
  - exact demo_term_shows.
  - exact demo_text.
  - apply (bool_decide_unpack _). by vm_compute.
  - by vm_compute.
  - lia.
  - apply (mapped_range _ _ _ _ _ demo_world_mapped); by vm_compute.
Defined.

Lemma kern_reader_witness : reader 3 (reading (blob_file 5 tiny_elf) 5 tiny_elf 3) ∧
  reading (blob_file 5 tiny_elf) 5 tiny_elf 3 tiny_elf prog_kern.
Proof.
  split.
  - apply (kern_reader 0 (prog_regs 0 0 0 0) (blob_file 5 tiny_elf) 5 tiny_elf 3).
    + apply blob_reads_as. by vm_compute.
    + apply (bool_decide_unpack _). by vm_compute.
    + by vm_compute.
    + lia.
  - split; [by exists (Vfs.File (Some 1) 0 0 None)|]. split; [exact prog_has_fd|]. exists (Vfs.File (Some 1) 0 0 None). split_and!; try done.
Defined.
