(* ===== verification/Words.v ===== *)
(** * Words of a string in memory

    The scanning loops that the command line of the kernel and the lines of the shell are split with, and the first word
    of a string for a set of delimiters. *)

From S2P Require Import Prelude CString.

Local Open Scope Z_scope.

(** [while (P( *p)) p++;] *)
Fixpoint skip_while (fuel : nat) (P : Z → bool) (m : mem) (p : Z) : run Z :=
  match fuel with
  | O => Stop Diverge
  | S fuel => c ← ldb m p; if P c then skip_while fuel P m (p + 1) else Done p
  end.

(** The scan ends at the terminator at the latest. *)
Lemma skip_while_Done fuel P Q m p s a b : P 0 = false → (∀ c, 0 < c < 256 → P c = Q c) → cstr m p s → (length s < fuel)%nat →
  split_while Q s = (a, b) → skip_while fuel P m p = Done (p + Z.of_nat (length a)).
Proof.
  intros H0 HPQ. revert p fuel a b. induction s as [|c s IH]; intros p [|fuel] a b Hs Hf; cbn [skip_while split_while length] in *; try lia.
  - apply cstr_nil in Hs. rstep (ldb_Some _ _ _ Hs). rewrite H0. intros [= <- <-]. cbn. by rewrite Z.add_0_r.
  - apply cstr_cons in Hs as (Hc & Hr & Hs). rstep (ldb_Some _ _ _ Hc). rewrite (HPQ c Hr). destruct (Q c).
    + destruct (split_while _ s) as [a' b'] eqn:Es. intros [= <- <-]. rewrite (IH (p + 1) fuel a' b') by (done || lia). cbn [length]. f_equal. lia.
    + intros [= <- <-]. cbn. by rewrite Z.add_0_r.
Qed.

(** The first word of a string, the delimiters before it and what is after it. *)
Lemma words_first ds blank s : (∀ c, blank c = is_delim ds c) →
  ∃ a w r, s = a ++ w ++ r ∧ Forall (λ c, blank c = true) a ∧ Forall (λ c, blank c = false) w ∧
  split_while blank s = (a, w ++ r) ∧ split_while (λ c, negb (blank c)) (w ++ r) = (w, r) ∧
  match w with
  | [] => r = [] ∧ words ds s = []
  | _ => words ds s = w :: words ds (drop 1 r) ∧ match r with [] => True | x :: _ => blank x = true end
  end.
Proof.
  intros Hbl. destruct (split_while blank s) as [a t] eqn:E1. destruct (split_while (λ c, negb (blank c)) t) as [w r] eqn:E2.
  pose proof (split_while_app _ _ _ _ E1) as ->. pose proof (split_while_rest _ _ _ _ E1) as [Ha Ht].
  pose proof (split_while_app _ _ _ _ E2) as ->. pose proof (split_while_rest _ _ _ _ E2) as [Hw Hr].
  exists a, w, r. split; [done|]. split; [done|]. split; [by eapply Forall_impl; [exact Hw|]; intros x Hx%negb_true_iff|]. split; [done|]. split; [done|].
  assert (words ds (a ++ w ++ r) = words_from ds w r) as ->.
  { rewrite words_skip; [|eapply Forall_impl; [exact Ha|]; intros x Hx; cbn beta; by rewrite <- Hbl, Hx].
    unfold words. rewrite words_take; [done|]. eapply Forall_impl; [exact Hw|]. intros x Hx%negb_true_iff. cbn beta. by rewrite <- Hbl, Hx. }
  assert (match r with [] => True | x :: _ => blank x = true end) as Hr' by (destruct r; [done|by apply negb_false_iff]).
  destruct w as [|c w].
  - destruct r as [|x r]; [done|]. cbn in Ht. congruence.
  - split; [|done]. destruct r as [|x r]; [done|]. cbn [words_from drop]. by rewrite <- Hbl, Hr'.
Qed.

(** ** Strings that stay *)

Lemma cstr_same m m' p s : cstr m p s → (∀ x, p <= x <= p + Z.of_nat (length s) → m' !! x = m !! x) → cstr m' p s.
Proof.
  intros [Hb Hs] He. split; [|done]. intros i c Hi. pose proof (lookup_lt_Some _ _ _ Hi). rewrite length_app in *. cbn in *.
  rewrite He by lia. by apply Hb.
Qed.

Lemma cstr_head m p s : cstr m p s → s = [] ∧ m !! p = Some 0 ∨ ∃ c, m !! p = Some c ∧ (c =? 0) = false.
Proof.
  destruct s as [|c s]; [intros Hs%cstr_nil; by left|]. intros (Hc & Hr & _)%cstr_cons. right. exists c. split; [done|].
  apply Z.eqb_neq. lia.
Qed.

(** A word becomes a string of its own when the byte behind it is cleared. *)
Lemma cstr_cut m p w r : cstr m p (w ++ r) → cstr (put_at (p + Z.of_nat (length w)) [0] m) p w.
Proof.
  intros [H Hb]. rewrite <- app_assoc in H. apply bytes_at_app in H as [H _]. apply Forall_app in Hb as [Hb _]. split; [|done].
  apply bytes_at_app. split; [apply put_at_bytes; [done|lia]|apply put_at_in].
Qed.
