(* ===== verification/Shell.v ===== *)
(** * The shell

    The first program of user space, src/userspace/src/sh.c: it reads a line from the terminal, splits it
    into words and runs a builtin or an external program. The string literals that the program passes to the
    kernel are in its memory, at addresses that are parameters like those of its local variables. *)

From S2P Require Import Prelude CString Words Bytes Dirent Loader SysMem Syscall UString UStdlib UHeap USys UPrintf UScanf UFile.

Local Open Scope Z_scope.

Definition LINE_MAX : Z := 256.
Definition MAX_ARGS : Z := 32.

(** ** Words *)

Definition is_blank (c : Z) : bool := (c =? 32) || (c =? 9).

(** [while ( *p == ' ' || *p == '\t') p++;] *)
Definition skip_blanks (fuel : nat) (m : mem) (p : Z) : run Z := skip_while fuel is_blank m p.

(** [while ( *p && *p != ' ' && *p != '\t') p++;] *)
Definition skip_token (fuel : nat) (m : mem) (p : Z) : run Z := skip_while fuel (λ c, negb ((c =? 0) || is_blank c)) m p.

(** With [n] places left in the array. *)
Fixpoint token_loop (n : nat) (argv argc p : Z) (m : mem) : run (Z * mem) :=
  c ← ldb m p;
  if c =? 0 then Done (argc, m)
  else
    match n with
    | O => Done (argc, m)
    | S n =>
        p ← skip_blanks (scan_fuel m) m p;
        c ← ldb m p;
        if c =? 0 then Done (argc, m)
        else
          m ← store_bytes (argv + 8 * argc) (put64 p) m;
          p ← skip_token (scan_fuel m) m p;
          c ← ldb m p;
          if c =? 0 then token_loop n argv (argc + 1) p m
          else m ← stb p 0 m; token_loop n argv (argc + 1) (p + 1) m
    end.

Definition tokenize (line argv : Z) (m : mem) : run (Z * mem) :=
  '(argc, m) ← token_loop (Z.to_nat (MAX_ARGS - 1)) argv 0 line m;
  m ← store_bytes (argv + 8 * argc) (put64 0) m;
  Done (argc, m).

(** [strcmp] of a string in memory with a literal. *)
Fixpoint strcmp_lit (m : mem) (a : Z) (lit : list Z) : run Z :=
  c ← ldb m a;
  match lit with
  | [] => Done c
  | d :: lit => if negb (c =? 0) && (c =? d) then strcmp_lit m (a + 1) lit else Done (c - d)
  end.

Definition is_path (m : mem) (cmd : Z) : run bool := p ← strchr m cmd 47; Done (bool_decide (p ≠ None)).

(** The string at an address, for a conversion [%s]. *)
Definition string_at (m : mem) (a : Z) : run (list Z) := n ← strlen m a; load_bytes (Z.to_nat n) a m.

Definition load64 (m : mem) (a : Z) : run Z := l ← load_bytes 8 a m; Done (le64 l 0).

(** The shell goes on with the status of the last command, or returns. *)
Inductive next := Again (last : Z) | Leave (code : Z).

Section shell.
Context {W : Type} `{!userland W}.

(** The buffer of [printf], the variables of [main], and the literals that the kernel is given. *)
Variables (fbuf line argv cwd ents status slash dot formfeed : Z).

Definition mem_get {A} (f : mem → run A) : st (proc W) A := on_world (read_wmem f).
Definition mem_do (f : mem → run mem) : st (proc W) unit := on_world (on_wmem f).
Definition say (fmt : list Z) (args : list uarg) : st (proc W) unit := _ ← on_world (printf fbuf fmt args); mret tt.
Definition arg (i : Z) : st (proc W) Z := mem_get (λ m, load64 m (argv + 8 * i)).
Definition text (a : Z) : st (proc W) uarg := l ← mem_get (λ m, string_at m a); mret (UStr l).

(** ** A line *)

(** The end of the input, or the length of the line before it is stripped. *)
Inductive got := Ended (r : Z) | Got (len : Z).

Fixpoint fill_line (fuel : nat) (buf cap len : Z) : st (proc W) got :=
  match fuel with
  | O => st_stop Diverge
  | S fuel =>
      if len <? cap - 1 then
        n ← read 0 (buf + len) (cap - 1 - len);
        if n <=? 0 then mret (Ended (if negb (len =? 0) then len else -1))
        else
          let len := len + i32 n in
          c ← mem_get (λ m, ldb m (buf + len - 1));
          if c =? 10 then mret (Got len) else fill_line fuel buf cap len
      else mret (Got len)
  end.

(** [while (len > 0 && (buf[len - 1] == '\n' || buf[len - 1] == '\r')) len--;] *)
Fixpoint strip (n : nat) (buf : Z) (m : mem) : run Z :=
  match n with
  | O => Done 0
  | S k => c ← ldb m (buf + Z.of_nat k); if (c =? 10) || (c =? 13) then strip k buf m else Done (Z.of_nat n)
  end.

Definition read_line (buf cap : Z) : st (proc W) Z :=
  r ← fill_line (Z.to_nat cap) buf cap 0;
  match r with
  | Ended r => mret r
  | Got len =>
      len ← mem_get (strip (Z.to_nat len) buf);
      _ ← mem_do (stb (buf + len) 0);
      mret len
  end.

(** ** Commands *)

Definition newline : list Z := [10].

Definition is_cmd (lit : list Z) : st (proc W) bool := a ← arg 0; r ← mem_get (λ m, strcmp_lit m a lit); mret (r =? 0).

Definition cmd_help : st (proc W) unit :=
  _ ← say (chars "builtins: help  exit [code]  echo ...  clear  status  cd [dir]  pwd  mkdir dir...  rmdir dir...  rm file...  ls [dir]" ++ newline) [];
  say (chars "else: ./prog or path/prog runs an external program (no PATH)" ++ newline) [].

Definition cmd_cd (argc : Z) : st (proc W) Z :=
  dir ← (if 1 <? argc then arg 1 else mret slash);
  rc ← chdir dir;
  if negb (rc =? 0) then t ← text dir; _ ← say (chars "cd: %s: no such directory" ++ newline) [t]; mret 1
  else mret 0.

(** The line is the buffer of the name. *)
Definition cmd_pwd : st (proc W) Z :=
  r ← getcwd line LINE_MAX;
  _ ← match r with
      | Some _ => t ← text line; say (chars "%s" ++ newline) [t]
      | None => mret tt
      end;
  mret 0.

(** The loop of [mkdir], [rm] and [rmdir] over their arguments. *)
Fixpoint each_arg (n : nat) (i : Z) (op : Z → st W Z) (fmt : list Z) (why : Z → list Z) (last : Z) : st (proc W) Z :=
  match n with
  | O => mret last
  | S n =>
      a ← arg i;
      rc ← on_world (op a);
      if rc <? 0 then
        t ← text a;
        _ ← say fmt [t; UStr (why rc)];
        each_arg n (i + 1) op fmt why 1
      else each_arg n (i + 1) op fmt why last
  end.

Definition cmd_each (name : list Z) (op : Z → st W Z) (why : Z → list Z) (argc : Z) : st (proc W) Z :=
  if argc <? 2 then _ ← say (name ++ chars ": missing operand" ++ newline) []; mret 1
  else each_arg (Z.to_nat (argc - 1)) 1 op (name ++ chars ": %s: %s" ++ newline) why 0.

Definition mkdir_why (rc : Z) : list Z :=
  if rc =? - EEXIST then chars "already exists"
  else if rc =? - ENOENT then chars "no such parent directory"
  else if rc =? - ENOTDIR then chars "not a directory" else chars "cannot create".
Definition rm_why (rc : Z) : list Z :=
  if rc =? - ENOENT then chars "no such file"
  else if rc =? - EISDIR then chars "is a directory"
  else if rc =? - ENOTDIR then chars "not a directory" else chars "cannot remove".
Definition rmdir_why (rc : Z) : list Z :=
  if rc =? - ENOENT then chars "no such directory"
  else if rc =? - ENOTDIR then chars "not a directory"
  else if rc =? - ENOTEMPTY then chars "directory not empty" else chars "cannot remove".

Definition cmd_mkdir : Z → st (proc W) Z := cmd_each (chars "mkdir") (λ a, sys_mkdir a 0x1ed) mkdir_why.
Definition cmd_rm : Z → st (proc W) Z := cmd_each (chars "rm") sys_unlink rm_why.
Definition cmd_rmdir : Z → st (proc W) Z := cmd_each (chars "rmdir") sys_rmdir rmdir_why.

(** The records of the kernel: the type and the name follow two words and the length. *)
Fixpoint show_entries (n : nat) (i : Z) : st (proc W) unit :=
  match n with
  | O => mret tt
  | S n =>
      let d := ents + i * DIRENT_SIZE in
      name ← text (d + 19);
      type ← mem_get (λ m, ldb m (d + 18));
      _ ← say (chars "%s%s" ++ newline) [name; UStr (if type =? DT_DIR then chars "/" else [])];
      show_entries n (i + 1)
  end.

(** [while ((n = sys_readdir(fd, ents, 32)) > 0)], with the last [n]. *)
Fixpoint ls_loop (fuel : nat) (fd : Z) : st (proc W) Z :=
  match fuel with
  | O => st_stop Diverge
  | S fuel =>
      n ← on_world (sys_readdir fd ents 32);
      if 0 <? n then _ ← show_entries (Z.to_nat n) 0; ls_loop fuel fd else mret n
  end.

Definition cmd_ls (rounds : nat) (argc : Z) : st (proc W) Z :=
  dir ← (if 1 <? argc then arg 1 else mret dot);
  fd ← on_world (sys_open dir 0);
  if fd <? 0 then t ← text dir; _ ← say (chars "ls: %s: cannot open" ++ newline) [t]; mret 1
  else
    n ← ls_loop rounds fd;
    _ ← on_world (sys_close fd);
    mret (if n <? 0 then 1 else 0).

Fixpoint echo_loop (n : nat) (i argc : Z) : st (proc W) unit :=
  match n with
  | O => mret tt
  | S n =>
      a ← arg i;
      t ← text a;
      _ ← say (chars "%s%s") [t; UStr (if i + 1 <? argc then chars " " else [])];
      echo_loop n (i + 1) argc
  end.

Definition cmd_echo (argc : Z) : st (proc W) unit :=
  _ ← echo_loop (Z.to_nat (argc - 1)) 1 argc;
  say newline [].

Definition external : st (proc W) Z :=
  a ← arg 0;
  p ← mem_get (λ m, is_path m a);
  if negb p then
    t ← text a;
    _ ← say (chars "%s: not found (use ./%s to run it from here)" ++ newline) [t; t];
    mret 127
  else
    pid ← on_world (sys_spawn a argv);
    if pid <? 0 then t ← text a; _ ← say (chars "%s: not found" ++ newline) [t]; mret 127
    else
      _ ← mem_do (store_bytes status (put32 0));
      _ ← on_world (sys_waitpid pid status 0);
      mem_get (λ m, l ← load_bytes 4 status m; Done (i32 (le32 l 0))).

(** The commands that leave the status as it was, and those that set it. *)
Definition quiet (last : Z) (m : st (proc W) unit) : st (proc W) next := _ ← m; mret (Again last).
Definition with_status (m : st (proc W) Z) : st (proc W) next := last ← m; mret (Again last).

Definition cmd_exit (argc last : Z) : st (proc W) next :=
  if 1 <? argc then a ← arg 1; c ← mem_get (λ m, atoi m a); mret (Leave c) else mret (Leave last).

(** The builtins in the order of their tests. *)
Definition builtins (rounds : nat) (argc last : Z) : list (list Z * st (proc W) next) :=
  [(chars "exit", cmd_exit argc last);
   (chars "help", quiet last cmd_help);
   (chars "cd", with_status (cmd_cd argc));
   (chars "pwd", with_status cmd_pwd);
   (chars "mkdir", with_status (cmd_mkdir argc));
   (chars "rm", with_status (cmd_rm argc));
   (chars "rmdir", with_status (cmd_rmdir argc));
   (chars "ls", with_status (cmd_ls rounds argc));
   (chars "echo", quiet last (cmd_echo argc));
   (chars "clear", quiet last (_ ← write 1 formfeed 1; mret tt));
   (chars "status", quiet last (say (chars "%d" ++ newline) [UInt last]))].

Fixpoint dispatch (cmds : list (list Z * st (proc W) next)) : st (proc W) next :=
  match cmds with
  | [] => with_status external
  | (name, run) :: cmds => b ← is_cmd name; if b : bool then run else dispatch cmds
  end.

Definition prompt : st (proc W) unit :=
  r ← getcwd cwd 128;
  match r with
  | Some _ => t ← text cwd; say (chars "lizard:%s$ ") [t]
  | None => say (chars "lizard$ ") []
  end.

(** One command: the prompt, the line, its words, and what they say. *)
Definition turn (rounds : nat) (last : Z) : st (proc W) next :=
  _ ← prompt;
  len ← read_line line LINE_MAX;
  if len <? 0 then mret (Leave last)
  else
    argc ← on_world (λ w, match tokenize line argv (wmem w) with Done (argc, m) => Done (argc, set_wmem m w) | Stop e => Stop e end);
    if argc =? 0 then mret (Again last) else dispatch (builtins rounds argc last).

Fixpoint turns (fuel : nat) (rounds : nat) (last : Z) : st (proc W) Z :=
  match fuel with
  | O => st_stop Diverge
  | S fuel =>
      r ← turn rounds last;
      match r with Again last => turns fuel rounds last | Leave code => mret code end
  end.

Definition main (fuel rounds : nat) : st (proc W) Z :=
  _ ← say (chars "lizard shell - 'help' for builtins" ++ newline) [];
  turns fuel rounds 0.
End shell.

(** ** Lemmas on words *)

Definition BLANKS : list Z := [32; 9].

Lemma is_blank_delim c : is_blank c = is_delim BLANKS c.
Proof.
  unfold is_blank, is_delim, BLANKS. destruct (Z.eqb_spec c 32) as [->|H1]; [done|]. destruct (Z.eqb_spec c 9) as [->|H2]; [done|].
  symmetry. apply bool_decide_eq_false. set_solver.
Qed.

Lemma skip_blanks_Done fuel m p s a b :
  cstr m p s → (length s < fuel)%nat → split_while is_blank s = (a, b) → skip_blanks fuel m p = Done (p + Z.of_nat (length a)).
Proof. by apply skip_while_Done. Qed.

Lemma skip_token_Done fuel m p s a b :
  cstr m p s → (length s < fuel)%nat → split_while (λ c, negb (is_blank c)) s = (a, b) → skip_token fuel m p = Done (p + Z.of_nat (length a)).
Proof. apply skip_while_Done; [done|]. intros c Hc. by rewrite (proj2 (Z.eqb_neq c 0)) by lia. Qed.

Lemma put64_byte v : Forall byte (put64 v).
Proof. apply Forall_app. split; apply put32_byte. Qed.

Lemma token_loop_nil n argv argc p m : m !! p = Some 0 → token_loop n argv argc p m = Done (argc, m).
Proof. intros Hp. destruct n; cbn [token_loop]; by rstep (ldb_Some _ _ _ Hp). Qed.

(** What the tokenizer leaves alone: it writes in the string and in [n] places of the array. *)
Definition spared (p len a : Z) (n : nat) (m m' : mem) : Prop :=
  (∀ x, x < p ∨ p + len < x → x < a ∨ a + 8 * Z.of_nat n <= x → m' !! x = m !! x) ∧ ∀ x, is_Some (m !! x) → is_Some (m' !! x).

Lemma spared_trans p len a n m1 m2 m3 : spared p len a n m1 m2 → spared p len a n m2 m3 → spared p len a n m1 m3.
Proof. intros [H1 I1] [H2 I2]. split; [|auto]. intros x Hx Hy. by rewrite H2, H1. Qed.

Lemma spared_slot p len a n v m : spared p len a (S n) m (put_at a (put64 v) m).
Proof. split; [|intros x; apply put_at_keeps]. intros x Hx Hy. apply put_at_out. rewrite put64_length. lia. Qed.

Lemma spared_byte p len a n q c m : p <= q <= p + len → spared p len a n m (put_at q [c] m).
Proof. intros Hq. split; [|intros x; apply put_at_keeps]. intros x Hx Hy. apply put_at_out. cbn. lia. Qed.

(** The word [w] at [q] is inside of a string. *)
Definition within_string (p len q : Z) (w : list Z) : Prop := p <= q ∧ q + Z.of_nat (length w) <= p + len.

Lemma token_loop_Done n argv : ∀ argc p s m,
  let l := Z.of_nat (length s) in let a := argv + 8 * argc in
  cstr m p s → 0 <= argc → mapped m a (8 * n) → a + 8 * Z.of_nat n <= p ∨ p + l < a →
  ∃ ps m', token_loop n argv argc p m = Done (argc + Z.of_nat (length ps), m') ∧ Forall2 (cstr m') ps (take n (words BLANKS s)) ∧
    bytes_at m' a (concat (put64 <$> ps)) ∧ Forall2 (within_string p l) ps (take n (words BLANKS s)) ∧ spared p l a n m m'.
Proof.
  induction n as [|n IH]; intros argc p s m l a Hs Hargc Hm Hd.
  { exists [], m. split; [|by split_and!]. cbn [token_loop length]. rewrite Z.add_0_r.
    destruct (cstr_head _ _ _ Hs) as [[_ Hc]|(c & Hc & Hne)]; rstep (ldb_Some _ _ _ Hc); [done|by rewrite Hne]. }
  destruct (cstr_head _ _ _ Hs) as [[-> Hc0]|(c0 & Hc0 & Hne)].
  { exists [], m. rewrite token_loop_nil by done. cbn. rewrite Z.add_0_r. by split_and!. }
  cbn [token_loop]. rstep (ldb_Some _ _ _ Hc0). rewrite Hne.
  destruct (words_first BLANKS is_blank s is_blank_delim) as (b & w & r & Esw & Hb & Hw & E1 & E2 & Hword).
  rstep (skip_blanks_Done (scan_fuel m) m p s b (w ++ r) Hs (cstr_fuel _ _ _ Hs) E1).
  assert (Hq := Hs). rewrite Esw in Hq. apply cstr_app in Hq. set (p1 := p + Z.of_nat (length b)) in *.
  assert (l = Z.of_nat (length b) + Z.of_nat (length w) + Z.of_nat (length r)) as Hl by (unfold l; rewrite Esw, !length_app; lia).
  destruct w as [|c w'].
  { destruct Hword as [-> ->]. apply cstr_nil in Hq. rstep (ldb_Some _ _ _ Hq). exists [], m. cbn. rewrite Z.add_0_r. by split_and!. }
  set (w := c :: w') in *. destruct Hword as [-> Hr].
  destruct (cstr_head _ _ _ Hq) as [[[=] _]|(c1 & Hc1 & Hne1)]. rstep (ldb_Some _ _ _ Hc1). rewrite Hne1. fold a.
  rstep (store_bytes_Done a (put64 p1) m ltac:(rewrite put64_length; eapply mapped_range; [exact Hm|lia|lia]) (put64_byte p1)).
  set (m1 := put_at a (put64 p1) m).
  assert (cstr m1 p1 (w ++ r)) as Hq1 by (apply cstr_put; [done|rewrite length_app, put64_length; lia]).
  rstep (skip_token_Done (scan_fuel m1) m1 p1 (w ++ r) w r Hq1 (cstr_fuel _ _ _ Hq1) E2).
  set (q := p1 + Z.of_nat (length w)) in *. assert (Hr1 := cstr_app _ _ _ _ Hq1). fold q in Hr1.
  enough (∃ ps m', (c ← ldb m1 q; if c =? 0 then token_loop n argv (argc + 1) q m1 else m ← stb q 0 m1; token_loop n argv (argc + 1) (q + 1) m) =
      Done (argc + 1 + Z.of_nat (length ps), m') ∧ Forall2 (cstr m') ps (take n (words BLANKS (drop 1 r))) ∧
      bytes_at m' (a + 8) (concat (put64 <$> ps)) ∧ Forall2 (within_string p l) ps (take n (words BLANKS (drop 1 r))) ∧
      cstr m' p1 w ∧ bytes_at m' a (put64 p1) ∧ spared p l a (S n) m m') as (ps & m' & E & Hps & Hpb & Hrange & Hw' & Hp1 & Hsp).
  { exists (p1 :: ps), m'. split; [rewrite E; cbn [length]; f_equal; f_equal; lia|]. split; [cbn [take]; by constructor|]. split; [|split; [|done]].
    - rewrite fmap_cons. cbn [concat]. apply bytes_at_app. rewrite put64_length. by split.
    - cbn [take]. constructor; [unfold within_string, p1; lia|done]. }
  destruct (cstr_head _ _ _ Hr1) as [[-> Hz]|(x & Hx & Hxne)].
  - rstep (ldb_Some _ _ _ Hz). exists [], m1. rewrite token_loop_nil by done. rewrite app_nil_r in Hq1. cbn [length drop]. change (words BLANKS []) with (@nil (list Z)). rewrite take_nil.
    split; [f_equal; f_equal; lia|]. split_and!; [done|done|done|exact Hq1|apply put_at_in|by apply spared_slot].
  - rstep (ldb_Some _ _ _ Hx). rewrite Hxne. destruct r as [|x' r]; [apply cstr_nil in Hr1; rewrite Hr1 in Hx; by injection Hx as <-|].
    assert (Hq2 := Hr1). apply cstr_cons in Hq2 as (Hx' & _ & Hq2). cbn [length] in Hl.
    rewrite stb_Done by (by eexists || (unfold byte; lia)). rsimpl.
    set (m2 := <[q := 0]> m1). assert (m2 = put_at q [0] m1) as Em2 by done.
    assert (cstr m2 p1 w) as Hw2 by (rewrite Em2; exact (cstr_cut _ _ _ _ Hq1)).
    assert (spared p l a (S n) m m2) as Hsp2.
    { rewrite Em2. eapply spared_trans; [by apply spared_slot|]. apply spared_byte. lia. }
    destruct (IH (argc + 1) (q + 1) r m2) as (ps & m' & E & Hps & Hpb & Hrange & Hsp).
    + rewrite Em2. apply cstr_put; [done|cbn [length]; lia].
    + lia.
    + intros i Hi. apply Hsp2. replace (argv + 8 * (argc + 1) + Z.of_nat i) with (a + Z.of_nat (8 + i)) by lia. apply Hm. lia.
    + lia.
    + exists ps, m'. replace (argv + 8 * (argc + 1)) with (a + 8) in * by lia. cbn [drop]. split_and!; [done|done|done| | | |].
      * eapply Forall2_impl; [exact Hrange|]. unfold within_string. intros. lia.
      * eapply cstr_same; [exact Hw2|]. intros y Hy. apply Hsp; lia.
      * intros i c' Hi. pose proof (lookup_lt_Some _ _ _ Hi). rewrite put64_length in *. destruct Hsp as [Hsp _]. rewrite Hsp by lia.
        rewrite Em2. rewrite put_at_out by (cbn; lia). by apply put_at_in.
      * eapply spared_trans; [exact Hsp2|]. split; [|apply Hsp]. intros y H1 H2. apply Hsp; lia.
Qed.

(** ** The array of the words *)

Definition words_at (m : mem) (argv : Z) (ps : list Z) (ws : list (list Z)) : Prop :=
  bytes_at m argv (concat (put64 <$> ps ++ [0])) ∧ Forall2 (cstr m) ps ws ∧ Forall (λ p, 0 <= p < 2 ^ 64) ps.

Lemma concat_put64_length ps : length (concat (put64 <$> ps)) = (8 * length ps)%nat.
Proof. induction ps as [|p ps IH]; [done|]. rewrite fmap_cons. cbn [concat]. rewrite length_app, IH, put64_length. cbn [length]. lia. Qed.

Lemma strings_same m m' lo len ps ws :
  Forall2 (cstr m) ps ws → Forall2 (within_string lo len) ps ws → (∀ x, lo <= x <= lo + len → m' !! x = m !! x) → Forall2 (cstr m') ps ws.
Proof.
  intros Hw Hin He. induction Hw as [|p w ps ws Hc _ IH]; [constructor|]. inversion_clear Hin as [|? ? ? ? Hpw Hin']. constructor; [|by apply IH].
  eapply cstr_same; [exact Hc|]. unfold within_string in Hpw. intros x Hx. apply He. lia.
Qed.

Lemma words_at_same m m' argv ps ws lo len :
  words_at m argv ps ws → Forall2 (within_string lo len) ps ws → (length ps < 32)%nat →
  (∀ x, lo <= x <= lo + len ∨ argv <= x < argv + 256 → m' !! x = m !! x) → words_at m' argv ps ws.
Proof.
  intros (Hb & Hw & Hp) Hin Hlen He. split; [|split; [|done]].
  - intros i c Hi. pose proof (lookup_lt_Some _ _ _ Hi) as Hlt. rewrite concat_put64_length, length_app in Hlt. cbn in Hlt. rewrite He by lia. by apply Hb.
  - eapply strings_same; [exact Hw|exact Hin|]. intros x Hx. apply He. by left.
Qed.

Lemma tokenize_Done line argv s m :
  let l := Z.of_nat (length s) in
  cstr m line s → mapped m argv 256 → argv + 256 <= line ∨ line + l < argv → 0 <= line → line + l < 2 ^ 64 →
  ∃ ps m', let ws := take 31 (words BLANKS s) in tokenize line argv m = Done (Z.of_nat (length ws), m') ∧ words_at m' argv ps ws ∧
    Forall2 (within_string line l) ps ws ∧ spared line l argv 32 m m'.
Proof.
  intros l Hs Hm Hd H0 Hl. destruct (token_loop_Done 31 argv 0 line s m Hs ltac:(lia)) as (ps & m1 & E & Hw & Hb & Hin & Hsp).
  { replace (argv + 8 * 0) with argv by lia. by eapply mapped_range; [exact Hm|lia|lia]. }
  { lia. }
  fold l in Hin, Hsp. replace (argv + 8 * 0) with argv in * by lia. pose proof (Forall2_length _ _ _ Hw) as Elen. rewrite Z.add_0_l in E.
  assert (length ps <= 31)%nat as Hps by (rewrite Elen, length_take; lia).
  set (a := argv + 8 * Z.of_nat (length ps)). exists ps, (put_at a (put64 0) m1). cbv zeta. split.
  { unfold tokenize. rewrite (E : token_loop (Z.to_nat (MAX_ARGS - 1)) argv 0 line m = _). rsimpl. fold a.
    rstep (store_bytes_Done a (put64 0) m1 ltac:(intros i Hi; rewrite put64_length in Hi; apply Hsp, (mapped_range _ _ _ a 8 Hm); lia) (put64_byte 0)).
    by rewrite Elen. }
  assert (∀ x, line <= x <= line + l ∨ argv <= x < a → put_at a (put64 0) m1 !! x = m1 !! x) as Hsame.
  { intros x Hx. apply put_at_out. rewrite put64_length. lia. }
  split; [split; [|split]|split; [done|]].
  - rewrite fmap_app, concat_app. apply bytes_at_app. rewrite concat_put64_length. split.
    + intros i c Hi. pose proof (lookup_lt_Some _ _ _ Hi) as Hlt. rewrite concat_put64_length in Hlt. rewrite Hsame by lia. by apply Hb.
    + cbn [fmap list_fmap concat]. rewrite app_nil_r. replace (argv + Z.of_nat (8 * length ps)) with a by lia. apply put_at_in.
  - eapply strings_same; [exact Hw|exact Hin|]. intros x Hx. apply Hsame. by left.
  - clear - Hin H0 Hl. induction Hin as [|p w ps' ws Hpw _ IH]; constructor; [unfold within_string in Hpw; lia|done].
  - eapply spared_trans; [split; [|apply Hsp]|].
    + intros x H1 H2. apply Hsp; lia.
    + split; [|intros x; apply put_at_keeps]. intros x H1 H2. apply put_at_out. rewrite put64_length. lia.
Qed.

Lemma concat_put64_lookup ps i p : ps !! i = Some p → ∃ l1 l2, concat (put64 <$> ps) = l1 ++ put64 p ++ l2 ∧ length l1 = (8 * i)%nat.
Proof.
  intros Hi. pose proof (take_drop_middle _ _ _ Hi) as E. exists (concat (put64 <$> take i ps)), (concat (put64 <$> drop (S i) ps)).
  split; [|rewrite concat_put64_length, length_take; pose proof (lookup_lt_Some _ _ _ Hi); lia].
  rewrite <- E at 1. rewrite fmap_app, concat_app. done.
Qed.

Lemma load64_array m argv ps ws i p : words_at m argv ps ws → (ps ++ [0]) !! i = Some p → load64 m (argv + 8 * Z.of_nat i) = Done p.
Proof.
  intros (Hb & _ & Hp) Hi. destruct (concat_put64_lookup _ i p Hi) as (l1 & l2 & E & El).
  rewrite E in Hb. apply bytes_at_app in Hb as [_ Hb]. apply bytes_at_app in Hb as [Hb _]. rewrite El in Hb. replace (Z.of_nat (8 * i)) with (8 * Z.of_nat i) in Hb by lia.
  assert (0 <= p < 2 ^ 64) as Hr by (apply (Forall_lookup_1 (λ p, 0 <= p < 2 ^ 64) (ps ++ [0]) i p); [apply Forall_app; split; [exact Hp|by repeat constructor]|exact Hi]).
  unfold load64. rewrite <- (put64_length p). rstep (load_bytes_Done m (put64 p) _ Hb). by rewrite le64_put64.
Qed.

Lemma load64_words m argv ps ws i p : words_at m argv ps ws → ps !! i = Some p → load64 m (argv + 8 * Z.of_nat i) = Done p.
Proof. intros Hw Hi. eapply load64_array; [exact Hw|by apply lookup_app_l_Some]. Qed.

Lemma string_at_Done m a w : cstr m a w → string_at m a = Done w.
Proof.
  intros Hw. unfold string_at. rstep (user_strlen_Done m a w Hw). rewrite Nat2Z.id. apply load_bytes_Done. destruct Hw as [Hw _]. by apply bytes_at_app in Hw as [? _].
Qed.

Lemma strcmp_lit_Done m lit : ∀ a s, cstr m a s → Forall (λ c, c ≠ 0) lit → ∃ r, strcmp_lit m a lit = Done r ∧ (r = 0 ↔ s = lit).
Proof.
  induction lit as [|d lit IH]; intros a s Hs Hl; cbn [strcmp_lit].
  - destruct s as [|c s]; [apply cstr_nil in Hs; rstep (ldb_Some _ _ _ Hs); by exists 0|].
    apply cstr_cons in Hs as (Hc & Hr & _). rstep (ldb_Some _ _ _ Hc). exists c. split; [done|]. split; [lia|done].
  - inversion_clear Hl as [|? ? Hd Hl']. destruct s as [|c s].
    + apply cstr_nil in Hs. rstep (ldb_Some _ _ _ Hs). cbn [Z.eqb negb andb]. exists (0 - d). split; [done|]. split; [lia|done].
    + apply cstr_cons in Hs as (Hc & Hr & Hs). rstep (ldb_Some _ _ _ Hc). rewrite (proj2 (Z.eqb_neq c 0)) by lia. cbn [negb andb].
      destruct (Z.eqb_spec c d) as [->|Hne].
      * destruct (IH (a + 1) s Hs Hl') as (r & E & Hiff). exists r. split; [exact E|]. rewrite Hiff. split; [by intros ->|by intros [=]].
      * exists (c - d). split; [done|]. split; [lia|]. intros [=]. done.
Qed.
