(* ===== verification/ShellRun.v ===== *)
(** * What the shell does

    The words of a line are in the array of the arguments, a line is what the terminal gives, and a command
    prints what it says: the theorems on the shell, over any kernel that prints and reads. *)

From S2P Require Import Prelude CString Bytes Dirent Loader SysMem Syscall UString UStdlib UHeap USys UPrintf UScanf UFile Shell.

Local Open Scope Z_scope.

(** ** Commands of a line *)

Section commands.
Context {W : Type} `{!userland W, !UserlandLaws W}.
Variables (fbuf line argv cwd ents status slash dot formfeed : Z).
Variables (ok : Z → Prop) (P : list Z → W → Prop).
Hypothesis HP : prints 1 ok P.
Hypothesis Hok : ∀ c, ok c → byte c.

(** The buffers of the shell are apart. *)
Record apart : Prop := {
  ap_fbuf : 0 < fbuf < 2 ^ 47 - 128;
  ap_line : 0 < line < 2 ^ 47 - 256;
  ap_fbuf_line : fbuf + 128 <= line ∨ line + 256 <= fbuf;
  ap_fbuf_argv : fbuf + 128 <= argv ∨ argv + 256 <= fbuf;
  ap_line_argv : argv + 256 <= line ∨ line + 256 <= argv
}.
Hypothesis Hap : apart.

(** The text [out] has been printed, and the words [ws] are in the array. *)
Record ready (out : list Z) (ps : list Z) (ws : list (list Z)) (s : proc W) : Prop := {
  rd_out : P out (p_world s);
  rd_fbuf : mapped (memory s) fbuf 128;
  rd_words : words_at (memory s) argv ps ws;
  rd_in : Forall2 (within_string line 255) ps ws;
  rd_short : (length ps < 32)%nat
}.

Lemma mem_get_Done {A} (f : mem → run A) (s : proc W) a : f (memory s) = Done a → mem_get f s = Done (a, s).
Proof. unfold mem_get, on_world, read_wmem, memory. intros ->. by destruct s. Qed.

Lemma arg_Done out ps ws s i p : ready out ps ws s → ps !! i = Some p → arg argv (Z.of_nat i) s = Done (p, s).
Proof. intros Hr Hi. apply mem_get_Done. by eapply load64_words; [apply Hr|]. Qed.

Lemma text_Done a w s : cstr (memory s) a w → text a s = Done (UStr w, s).
Proof. intros Hw. unfold text, mbind, st_bind. by rewrite (mem_get_Done _ s w (string_at_Done _ _ _ Hw)). Qed.

(** Only the kernel has changed. *)
Definition moved (s s' : proc W) : Prop := p_errno s' = p_errno s ∧ p_heap s' = p_heap s ∧ p_files s' = p_files s.

Lemma say_mem out s fmt args t :
  P out (p_world s) → mapped (memory s) fbuf 128 → format_text fmt args = Some t → Forall ok t → len t < 2 ^ 31 →
  ∃ s', say fbuf fmt args s = Done (tt, s') ∧ P (out ++ t) (p_world s') ∧ mapped (memory s') fbuf 128 ∧
        (∀ x, x < fbuf ∨ fbuf + 128 <= x → memory s' !! x = memory s !! x) ∧ moved s s'.
Proof using HP Hok Hap UserlandLaws0.
  intros Ho Hm Ht Hokt Hl. destruct Hap as [H1 H2 H3 H4 H5].
  destruct (vfd_Done fbuf 1 ok P HP ltac:(lia) Hok H1 out fmt args t (p_world s) Ht Hokt Hl Ho Hm) as (w' & E & Ho' & [Hm' Hs]).
  eexists. split; [unfold say, printf, mbind, st_bind; rewrite (on_world_Done _ _ s _ E); done|]. by split_and!.
Qed.

Lemma say_Done out ps ws s fmt args t :
  ready out ps ws s → format_text fmt args = Some t → Forall ok t → len t < 2 ^ 31 →
  ∃ s', say fbuf fmt args s = Done (tt, s') ∧ ready (out ++ t) ps ws s'.
Proof using HP Hok Hap UserlandLaws0.
  intros [Ho Hm Hw Hi Hsh] Ht Hokt Hl. destruct (say_mem out s fmt args t Ho Hm Ht Hokt Hl) as (s' & E & Ho' & Hm' & Hs & _).
  exists s'. split; [done|]. destruct Hap as [H1 H2 H3 H4 H5].
  split; [done|done| |done|done]. eapply words_at_same; [exact Hw|exact Hi|done|]. intros x Hx. apply Hs. lia.
Qed.

Lemma render_string fuel a rest args : len a < 2 ^ 31 →
  render (Datatypes.S fuel) (37 :: 115 :: rest) (UStr a :: args) = (out ← render fuel rest args; Some (a ++ out)).
Proof.
  intros Ha. cbn [render]. change (negb (37 =? 37)) with false. cbn iota.
  change (directive (115 :: rest) (UStr a :: args)) with (Done (115 :: rest, UStr a :: args, Spec false false false false false 0 (-1) 0)).
  cbn [of_run mbind option_bind]. unfold render_conv. cbn [Z.eqb Pos.eqb orb of_run arg_str mbind option_bind].
  rewrite (proj2 (Z.leb_gt _ _)) by done. unfold cut, field. cbn [prec left width]. change (0 <=? -1) with false. cbn iota.
  unfold spaces. replace (Z.to_nat (0 - len a)) with 0%nat by (unfold len; lia). done.
Qed.

Lemma two_strings a b : len a < 2 ^ 31 → len b < 2 ^ 31 → format_text (chars "%s%s") [UStr a; UStr b] = Some (a ++ b).
Proof.
  intros Ha Hb. unfold format_text. change (chars "%s%s") with [37; 115; 37; 115]. cbn [length].
  rewrite !render_string by done. cbn. by rewrite app_nil_r.
Qed.

Lemma render_char fuel c rest args : c ≠ 37 → render (Datatypes.S fuel) (c :: rest) args = (out ← render fuel rest args; Some (c :: out)).
Proof. intros Hc. cbn [render]. by rewrite (proj2 (Z.eqb_neq c 37)). Qed.

Lemma prompt_format d : len d < 2 ^ 31 → format_text (chars "lizard:%s$ ") [UStr d] = Some (chars "lizard:" ++ d ++ chars "$ ").
Proof.
  intros Hd. unfold format_text. change (chars "lizard:%s$ ") with (chars "lizard:" ++ [37; 115; 36; 32]). change (length _) with 11%nat.
  change (chars "lizard:") with [108; 105; 122; 97; 114; 100; 58]. cbn [app]. rewrite !render_char by done. by rewrite render_string.
Qed.

(** The words with a space between them. *)
Fixpoint joined (ws : list (list Z)) : list Z :=
  match ws with [] => [] | w :: ws => w ++ (if bool_decide (ws = []) then [] else [32]) ++ joined ws end.

Lemma echo_loop_Done n : ∀ i ps ws out s,
  ready out ps ws s → (i + n = length ps)%nat → Forall (Forall ok) ws → ok 32 →
  ∃ s', echo_loop fbuf argv n (Z.of_nat i) (Z.of_nat (length ps)) s = Done (tt, s') ∧ ready (out ++ joined (drop i ws)) ps ws s'.
Proof using HP Hok Hap UserlandLaws0.
  induction n as [|n IH]; intros i ps ws out s Hr Hn Hw Hsp; pose proof (Forall2_length _ _ _ (rd_in _ _ _ _ Hr)) as El.
  { exists s. rewrite drop_ge by lia. cbn [joined]. by rewrite app_nil_r. }
  destruct (lookup_lt_is_Some_2 ps i ltac:(lia)) as [p Hp]. destruct (lookup_lt_is_Some_2 ws i ltac:(lia)) as [w Ew].
  pose proof (rd_words _ _ _ _ Hr) as (_ & Hc & _). pose proof (Forall2_lookup_lr _ _ _ _ _ _ Hc Hp Ew) as Hcw.
  pose proof (Forall2_lookup_lr _ _ _ _ _ _ (rd_in _ _ _ _ Hr) Hp Ew) as Hin. unfold within_string in Hin.
  assert (Forall ok w) as Hww by (by eapply Forall_lookup_1).
  set (sep := if Z.of_nat i + 1 <? Z.of_nat (length ps) then chars " " else []).
  destruct (say_Done out ps ws s (chars "%s%s") [UStr w; UStr sep] (w ++ sep) Hr) as (s1 & E1 & Hr1).
  { apply two_strings; unfold len; [lia|]. unfold sep. by case_match. }
  { apply Forall_app. split; [done|]. unfold sep. case_match; [by repeat constructor|done]. }
  { rewrite len_app. unfold len. assert (length sep <= 1)%nat by (unfold sep; by case_match; cbn; lia). lia. }
  destruct (IH (Datatypes.S i) ps ws (out ++ w ++ sep) s1 Hr1 ltac:(lia) Hw Hsp) as (s2 & E2 & Hr2).
  exists s2. cbn [echo_loop]. unfold mbind, st_bind. rewrite (arg_Done _ _ _ _ _ _ Hr Hp), (text_Done _ _ _ Hcw). fold sep. rewrite E1.
  replace (Z.of_nat i + 1) with (Z.of_nat (Datatypes.S i)) by lia. split; [exact E2|].
  rewrite (drop_S _ _ _ Ew). cbn [joined].
  enough (sep = if bool_decide (drop (Datatypes.S i) ws = []) then [] else [32]) as <- by (by rewrite <- !app_assoc in Hr2).
  unfold sep. destruct (Z.ltb_spec (Z.of_nat i + 1) (Z.of_nat (length ps))); case_bool_decide as Ed; try done.
  - apply (f_equal length) in Ed. rewrite length_drop in Ed. cbn in Ed. lia.
  - destruct Ed. apply drop_ge. lia.
Qed.

Lemma is_cmd_Done out p ps w ws s lit : ready out (p :: ps) (w :: ws) s → Forall (λ c, c ≠ 0) lit →
  is_cmd argv lit s = Done (bool_decide (w = lit), s).
Proof.
  intros Hr Hl. pose proof (rd_words _ _ _ _ Hr) as (_ & Hc & _). inversion_clear Hc as [|? ? ? ? Hw _].
  destruct (strcmp_lit_Done (memory s) lit p w Hw Hl) as (r & E & Hiff). unfold is_cmd, mbind, st_bind.
  rewrite (arg_Done _ _ _ _ 0 p Hr eq_refl : arg argv 0 s = _), (mem_get_Done _ s r E). unfold mret, st_ret. f_equal. f_equal.
  case_bool_decide as Ew; [apply Z.eqb_eq|apply Z.eqb_neq]; tauto.
Qed.

(** The first command of a name. *)
Fixpoint lookup_cmd {A} (w : list Z) (cmds : list (list Z * A)) : option A :=
  match cmds with [] => None | (name, run) :: cmds => if decide (w = name) then Some run else lookup_cmd w cmds end.

Lemma dispatch_Done out p ps w ws s cmds : ready out (p :: ps) (w :: ws) s → Forall (λ c, Forall (λ x, x ≠ 0) (fst c)) cmds →
  dispatch fbuf argv status cmds s = (match lookup_cmd w cmds with Some run => run | None => with_status (external fbuf argv status) end) s.
Proof.
  intros Hr. induction cmds as [|[name run] cmds IH]; intros Hn; [done|]. inversion_clear Hn as [|? ? Hname Hn'].
  cbn [dispatch lookup_cmd]. unfold mbind, st_bind at 1. rewrite (is_cmd_Done _ _ _ _ _ _ name Hr Hname).
  case_bool_decide; case_decide; [done|done|done|by apply IH].
Qed.

Lemma builtin_names rounds argc last : Forall (λ c, Forall (λ x, x ≠ 0) (fst c)) (builtins fbuf line argv ents slash dot formfeed rounds argc last).
Proof. repeat constructor; cbn; lia. Qed.

Lemma cmd_echo_Done out ps ws s :
  ready out ps ws s → Forall (Forall ok) ws → ok 32 → ok 10 → ps ≠ [] →
  ∃ s', cmd_echo fbuf argv (Z.of_nat (length ps)) s = Done (tt, s') ∧ ready (out ++ joined (drop 1 ws) ++ newline) ps ws s'.
Proof using HP Hok Hap UserlandLaws0.
  intros Hr Hw H32 H10 Hne. destruct ps as [|p ps]; [done|].
  destruct (echo_loop_Done (length ps) 1 (p :: ps) ws out s Hr ltac:(cbn; lia) Hw H32) as (s1 & E1 & Hr1).
  destruct (say_Done _ _ _ s1 newline [] newline Hr1) as (s2 & E2 & Hr2); [done|by repeat constructor|done|].
  exists s2. unfold cmd_echo, mbind, st_bind. replace (Z.to_nat (Z.of_nat (length (p :: ps)) - 1)) with (length ps) by (cbn; lia).
  rewrite (E1 : echo_loop _ _ _ 1 _ _ = _), E2. split; [done|]. by rewrite <- app_assoc in Hr2.
Qed.
End commands.

(** ** A line of the terminal *)

Section reading.
Context {W : Type} `{!userland W, !UserlandLaws W}.
Variables (R : list Z → W → Prop).

(** A read gives some of what is left, when something is left; otherwise it may wait. *)
Record source : Prop := {
  so_read rem w a k : R rem w → rem ≠ [] → mapped (wmem w) a (Z.to_nat k) → 0 < k < 2 ^ 31 → 0 < a → a + k < 2 ^ 47 →
    ∃ r w', sys_read 0 a k w = Done (Z.of_nat r, w') ∧ (0 < r <= length rem)%nat ∧ Z.of_nat r <= k ∧
            wmem w' = put_at a (take r rem) (wmem w) ∧ R (drop r rem) w';
  so_mem rem w m : R rem w → R rem (set_wmem m w)
}.
Hypothesis HR : source.

Lemma read_Done rem s a k : R rem (p_world s) → rem ≠ [] → mapped (memory s) a (Z.to_nat k) → 0 < k < 2 ^ 31 → 0 < a → a + k < 2 ^ 47 →
  ∃ r s', read 0 a k s = Done (Z.of_nat r, s') ∧ (0 < r <= length rem)%nat ∧ Z.of_nat r <= k ∧
    memory s' = put_at a (take r rem) (memory s) ∧ R (drop r rem) (p_world s') ∧ moved s s'.
Proof using HR.
  intros HRr Hne Hm Hk Ha Hlim. destruct (so_read HR rem (p_world s) a k HRr Hne Hm Hk Ha Hlim) as (r & w' & E & H1 & H2 & H3 & H4).
  exists r, (Proc (p_errno s) (p_heap s) (p_files s) w'). split; [by apply on_world_Done|]. split; [exact H1|]. by split_and!.
Qed.

Lemma last_drop (l : list Z) k : (k < length l)%nat → last (drop k l) = last l.
Proof. intros Hk. rewrite !last_lookup, lookup_drop, length_drop. f_equal. lia. Qed.

(** The text that has been read ends a line, or the buffer is full. *)
Definition line_got (cap : Z) (text : list Z) : Prop := last text = Some 10 ∨ len text = cap - 1.

Lemma fill_line_Done buf cap fuel : ∀ pre rem s,
  R rem (p_world s) → bytes_at (memory s) buf pre → mapped (memory s) buf (Z.to_nat cap) → 0 < buf → buf + cap < 2 ^ 47 → cap < 2 ^ 31 →
  len pre <= cap - 1 → cap - 1 - len pre < Z.of_nat fuel → last pre ≠ Some 10 → last rem = Some 10 →
  ∃ k s', let text := pre ++ take k rem in fill_line fuel buf cap (len pre) s = Done (Got (len text), s') ∧
    R (drop k rem) (p_world s') ∧ memory s' = put_at (buf + len pre) (take k rem) (memory s) ∧ len text <= cap - 1 ∧ (k <= length rem)%nat ∧
    line_got cap text ∧ moved s s'.
Proof using HR.
  induction fuel as [|fuel IH]; intros pre rem s HRr Hb Hm H0 Hlim Hcap Hpre Hfuel Hnl Hrem; [unfold len in *; lia|].
  cbn [fill_line]. destruct (Z.ltb_spec (len pre) (cap - 1)) as [Hlt|Hge].
  2: { exists 0%nat, s. rewrite take_0, drop_0, app_nil_r. split_and!; [done|done|done|lia|lia| |by split_and!]. right. lia. }
  pose proof (len_nonneg pre). assert (rem ≠ []) as Hne by (by intros ->).
  destruct (read_Done rem s (buf + len pre) (cap - 1 - len pre) HRr Hne) as (r & s1 & E & Hr1 & Hr2 & Hmem & HR1 & Hmv); [|lia..|].
  { eapply mapped_range; [exact Hm|lia|lia]. }
  unfold mbind, st_bind at 1. rewrite E. rewrite (proj2 (Z.leb_gt _ _)) by lia.
  set (pre' := pre ++ take r rem). assert (len pre' = len pre + Z.of_nat r) as El by (unfold pre'; rewrite len_app; unfold len; rewrite length_take; lia).
  rewrite (swrap_small 32 (Z.of_nat r)) by lia. rewrite <- El.
  assert (bytes_at (memory s1) buf pre') as Hb1.
  { rewrite Hmem. apply bytes_at_app. split; [apply put_at_bytes; [done|unfold len; lia]|apply put_at_in]. }
  assert (∃ c, last pre' = Some c ∧ ldb (memory s1) (buf + len pre' - 1) = Done c) as (c & Hc & Ec).
  { destruct (last pre') as [c|] eqn:Elast; [|apply last_None in Elast; unfold len in El; rewrite Elast in El; cbn in El; lia].
    exists c. split; [done|]. rewrite last_lookup in Elast. pose proof (lookup_lt_Some _ _ _ Elast). apply Hb1 in Elast. apply ldb_Some.
    rewrite <- Elast. f_equal. unfold len. lia. }
  unfold st_bind at 1. rewrite (mem_get_Done _ s1 c Ec). destruct (Z.eqb_spec c 10) as [->|Hne10].
  - exists r, s1. cbv zeta. fold pre'. split_and!; [done|exact HR1|exact Hmem|lia|lia|by left|exact Hmv].
  - assert (r < length rem)%nat as Hr.
    { destruct (decide (r < length rem)%nat) as [|Hge]; [done|]. unfold pre' in Hc. rewrite take_ge, last_app, Hrem in Hc by lia. by injection Hc as <-. }
    destruct (IH pre' (drop r rem) s1 HR1 Hb1) as (k & s2 & E2 & HR2 & Hmem2 & Hl2 & Hk2 & Hg & Hmv2); [|lia..| | |].
    { rewrite Hmem. intros i Hi. apply put_at_keeps. by apply Hm. }
    { rewrite Hc. by intros [= ->]. }
    { by rewrite last_drop. }
    rewrite length_drop in Hk2. assert (take (r + k) rem = take r rem ++ take k (drop r rem)) as Et by (rewrite <- take_take_drop; done).
    exists (r + k)%nat, s2. cbv zeta. rewrite Et, <- drop_drop. unfold pre' in *. rewrite <- app_assoc in *.
    split_and!; [exact E2|done| |lia|lia|done|].
    * rewrite Hmem2, Hmem, put_at_app. f_equal. rewrite El. unfold len. rewrite length_take. lia.
    * destruct Hmv as (? & ? & ?), Hmv2 as (? & ? & ?). by split_and!; etrans.
Qed.

(** The line without its end. *)
Definition is_eol (c : Z) : bool := (c =? 10) || (c =? 13).
Definition chomp (l : list Z) : list Z := rev (snd (split_while is_eol (rev l))).

Lemma chomp_snoc l c : chomp (l ++ [c]) = if is_eol c then chomp l else l ++ [c].
Proof.
  unfold chomp. rewrite rev_app_distr. cbn [rev app split_while]. destruct (is_eol c).
  - by destruct (split_while is_eol (rev l)).
  - cbn [snd rev]. by rewrite rev_involutive.
Qed.

Lemma chomp_prefix l : chomp l `prefix_of` l.
Proof.
  induction l as [|c l IH] using rev_ind; [done|]. rewrite chomp_snoc. destruct (is_eol c); [|done]. by apply prefix_app_r.
Qed.

Lemma chomp_plain l : Forall (λ c, is_eol c = false) l → chomp l = l.
Proof. destruct l as [|c l _] using rev_ind; [done|]. intros [_ Hc]%Forall_app. rewrite chomp_snoc. inversion_clear Hc as [|? ? E _]. by rewrite E. Qed.

Lemma strip_Done m buf l : bytes_at m buf l → strip (length l) buf m = Done (len (chomp l)).
Proof.
  induction l as [|c l IH] using rev_ind; intros Hb; [done|]. rewrite length_app, Nat.add_1_r. cbn [strip].
  apply bytes_at_app in Hb as [Hb Hc]. apply bytes_at_cons in Hc as [Hc _]. rstep (ldb_Some _ _ _ Hc). rewrite chomp_snoc.
  change ((c =? 10) || (c =? 13)) with (is_eol c). destruct (is_eol c); [by apply IH|]. rewrite len_app. unfold len. cbn [length]. f_equal. lia.
Qed.

(** What is in the buffer after a line has been read into it: the line and its terminator, and what was behind. *)
Lemma read_line_Done buf cap rem s :
  R rem (p_world s) → last rem = Some 10 → mapped (memory s) buf (Z.to_nat cap) → 0 < buf → buf + cap < 2 ^ 47 → 1 <= cap < 2 ^ 31 →
  ∃ k s', let text := take k rem in let n := len (chomp text) in
    read_line buf cap s = Done (n, s') ∧ R (drop k rem) (p_world s') ∧ memory s' = put_at (buf + n) [0] (put_at buf text (memory s)) ∧
    len text <= cap - 1 ∧ (k <= length rem)%nat ∧ line_got cap text ∧ moved s s'.
Proof using HR UserlandLaws0.
  intros HRr Hrem Hm H0 Hlim Hcap.
  destruct (fill_line_Done buf cap (Z.to_nat cap) [] rem s HRr) as (k & s1 & E & HR1 & Hmem & Hl & Hk & Hg & Hmv);
    [by intros ? ?|done|change (len []) with 0; lia..|done|done|].
  cbn [app] in *. change (len []) with 0 in *. rewrite Z.add_0_r in Hmem. set (text := take k rem) in *. set (n := len (chomp text)).
  pose proof (prefix_length _ _ (chomp_prefix text)). assert (mapped (memory s1) buf (Z.to_nat cap)) as Hm1 by (rewrite Hmem; intros i Hi; by apply put_at_keeps, Hm).
  exists k, (Proc (p_errno s1) (p_heap s1) (p_files s1) (set_wmem (put_at (buf + n) [0] (wmem (p_world s1))) (p_world s1))). fold text. split.
  { unfold read_line, mbind, st_bind. change (len []) with 0 in E. rewrite E. replace (Z.to_nat (len text)) with (length text) by (unfold len; lia).
    rewrite (mem_get_Done _ s1 n) by (apply strip_Done; rewrite Hmem; apply put_at_in).
    unfold mem_do, on_world, on_wmem. rewrite (stb_Done (wmem (p_world s1)) (buf + n) 0); [reflexivity| |unfold byte; lia].
    unfold n, len in *. apply Hm1. lia. }
  split_and!; [by apply (so_mem HR)| |lia|done|done|by destruct Hmv as (? & ? & ?)..].
  unfold memory. cbn [p_world]. rewrite wmem_set. unfold memory in Hmem. by rewrite Hmem.
Qed.
End reading.

(** ** A turn *)

Lemma words_from_Forall (ok : Z → Prop) ds s : ∀ cur, Forall ok cur → Forall ok s → Forall (Forall ok) (words_from ds cur s).
Proof.
  induction s as [|c s IH]; intros cur Hcur Hs; cbn [words_from]; [destruct cur; [constructor|by constructor]|].
  inversion_clear Hs. destruct (is_delim ds c); [destruct cur; [by apply IH|constructor; [done|by apply IH]]|].
  apply IH; [|done]. apply Forall_app. split; [done|by constructor].
Qed.

Lemma take_to_newline k l : 10 ∉ l → last (take k (l ++ [10])) = Some 10 → take k (l ++ [10]) = l ++ [10] ∧ drop k (l ++ [10]) = [].
Proof.
  intros Hl Hlast. destruct (decide (length l < k)%nat) as [Hk|Hk].
  - rewrite take_ge, drop_ge by (rewrite length_app; cbn; lia). done.
  - destruct Hl. rewrite take_app_le in Hlast by lia. apply last_Some in Hlast as [l' E].
    rewrite <- (take_drop k l), E. set_solver.
Qed.

Section turn.
Context {W : Type} `{!userland W, !UserlandLaws W}.
Variables (fbuf line argv cwd ents status slash dot formfeed : Z).
Variables (ok : Z → Prop) (Q : list Z → list Z → W → Prop) (dir : option (list Z)).

Definition prompt_text : list Z :=
  match dir with Some d => chars "lizard:" ++ d ++ chars "$ " | None => chars "lizard$ " end.

(** The kernel prints and reads, [Q] says what has been printed and what is left to read, and it knows the
    directory of the shell, or does not. *)
Record console : Prop := {
  co_prints rem : prints 1 ok (λ out, Q out rem);
  co_reads out : source (Q out);
  co_chars c : ok c → byte c;
  co_getcwd out rem w : Q out rem w → mapped (wmem w) cwd 128 →
    ∃ r w', USys.sys_getcwd cwd 128 w = Done (r, w') ∧ Q out rem w' ∧
      match dir with
      | Some d => 0 <= r ∧ wmem w' = put_at cwd (d ++ [0]) (wmem w)
      | None => r < 0 ∧ wmem w' = wmem w
      end;
  co_dir d : dir = Some d → len d < 128 ∧ Forall (λ c, 0 < c < 256) d;
  co_prompt : Forall ok prompt_text;
  co_cwd : fbuf + 128 <= cwd ∨ cwd + 128 <= fbuf
}.
Hypothesis Hco : console.
Hypothesis Hap : apart fbuf line argv.

(** The buffers of the shell are mapped. *)
Definition buffers (m : mem) : Prop := mapped m fbuf 128 ∧ mapped m line 256 ∧ mapped m argv 256 ∧ mapped m cwd 128.

Lemma buffers_keep (m m' : mem) : buffers m → (∀ x, is_Some (m !! x) → is_Some (m' !! x)) → buffers m'.
Proof. intros (H1 & H2 & H3 & H4) He. split_and!; intros i Hi; apply He; auto. Qed.

Lemma keep_outside (m m' : mem) : mapped m' fbuf 128 → (∀ x, x < fbuf ∨ fbuf + 128 <= x → m' !! x = m !! x) → ∀ x, is_Some (m !! x) → is_Some (m' !! x).
Proof.
  intros Hm He x Hx. destruct (decide (fbuf <= x < fbuf + 128)); [|by rewrite He by lia].
  replace x with (fbuf + Z.of_nat (Z.to_nat (x - fbuf))) by lia. apply Hm. lia.
Qed.

Lemma say_Q out rem s fmt args t :
  Q out rem (p_world s) → buffers (memory s) → format_text fmt args = Some t → Forall ok t → len t < 2 ^ 31 →
  ∃ s', say fbuf fmt args s = Done (tt, s') ∧ Q (out ++ t) rem (p_world s') ∧ buffers (memory s') ∧
        (∀ x, x < fbuf ∨ fbuf + 128 <= x → memory s' !! x = memory s !! x).
Proof using Hco Hap UserlandLaws0.
  intros HQ Hb Ht Hokt Hl. destruct (say_mem fbuf line argv ok (λ out, Q out rem) (co_prints Hco rem) (co_chars Hco) Hap out s fmt args t HQ (proj1 Hb) Ht Hokt Hl)
    as (s' & E & HQ' & Hm' & Hs & _).
  exists s'. split_and!; [done|done| |done]. eapply buffers_keep; [exact Hb|]. by apply keep_outside.
Qed.

Lemma prompt_Done out rem s : Q out rem (p_world s) → buffers (memory s) →
  ∃ s', prompt fbuf cwd s = Done (tt, s') ∧ Q (out ++ prompt_text) rem (p_world s') ∧ buffers (memory s').
Proof using Hco Hap UserlandLaws0.
  intros HQ Hb. destruct Hco as [Hpr _ Hok Hcwd Hdir Hprompt Hapart].
  destruct (Hcwd out rem (p_world s) HQ ltac:(apply Hb)) as (r & w & E & HQ1 & Hr).
  set (s1 := Proc (p_errno s) (p_heap s) (p_files s) w). unfold prompt, getcwd, mbind, st_bind.
  rewrite (on_world_Done _ r s w E). fold s1. unfold prompt_text in *. destruct dir as [d|] eqn:Ed.
  - destruct Hr as [Hr Hm]. rewrite (proj2 (Z.ltb_ge r 0)) by lia. unfold mret, st_ret. destruct (Hdir d eq_refl) as [Hl Hd].
    assert (cstr (memory s1) cwd d) as Hc by (split; [unfold memory, s1; cbn [p_world]; rewrite Hm; apply put_at_in|done]).
    assert (buffers (memory s1)) as Hb1 by (eapply buffers_keep; [exact Hb|]; unfold memory, s1; cbn [p_world]; rewrite Hm; intros x; apply put_at_keeps).
    rewrite (text_Done cwd d s1 Hc). destruct (say_Q out rem s1 (chars "lizard:%s$ ") [UStr d] (chars "lizard:" ++ d ++ chars "$ ") HQ1 Hb1) as (s2 & E2 & HQ2 & Hb2 & _).
    + apply prompt_format. lia.
    + done.
    + rewrite !len_app. change (len (chars "lizard:")) with 7. change (len (chars "$ ")) with 2. lia.
    + by exists s2.
  - destruct Hr as [Hr Hm]. rewrite (proj2 (Z.ltb_lt r 0)) by lia. unfold set_errno, st_modify, mret, st_ret.
    destruct (say_Q out rem (Proc (i32 (- r)) (p_heap s) (p_files s) w) (chars "lizard$ ") [] (chars "lizard$ ") HQ1) as (s2 & E2 & HQ2 & Hb2 & _);
      [unfold memory; cbn [p_world]; by rewrite Hm|done|done|done|]. by exists s2.
Qed.

(** The characters of a line. *)
Definition plain (l : list Z) : Prop := Forall (λ c, 0 < c < 256 ∧ is_eol c = false) l.

Lemma plain_newline l : plain l → 10 ∉ l.
Proof. intros Hl Hin. eapply Forall_forall in Hl as [_ Hl]; [|exact Hin]. done. Qed.

(** A line that the terminal has ready is read as it is. *)
Lemma line_Done out l s : Q out (l ++ [10]) (p_world s) → buffers (memory s) → plain l → len l < 255 →
  ∃ s', read_line line LINE_MAX s = Done (len l, s') ∧ Q out [] (p_world s') ∧ buffers (memory s') ∧ cstr (memory s') line l.
Proof using Hco Hap UserlandLaws0.
  intros HQ Hb Hl Hlen. destruct Hap as [_ H1 _ _ _]. unfold LINE_MAX.
  destruct (read_line_Done (Q out) (co_reads Hco out) line 256 (l ++ [10]) s HQ (last_snoc _ _) ltac:(apply Hb))
    as (k & s1 & E & HQ1 & Hmem & Hk1 & Hk2 & Hend & _); [lia..|].
  rewrite length_app in Hk2. cbn [length] in Hk2.
  assert (take k (l ++ [10]) = l ++ [10] ∧ drop k (l ++ [10]) = []) as [Et Ed].
  { destruct Hend as [Hlast|Hfull]; [by apply take_to_newline; [apply plain_newline|]|].
    unfold len in *. rewrite length_take, length_app in Hfull. cbn [length] in Hfull.
    rewrite take_ge, drop_ge by (rewrite length_app; cbn [length]; lia). done. }
  rewrite Et, Ed in *. assert (chomp (l ++ [10]) = l) as Ec.
  { rewrite chomp_snoc. change (is_eol 10) with true. apply chomp_plain. eapply Forall_impl; [exact Hl|]. by intros c [_ ?]. }
  rewrite Ec in *. exists s1. split; [exact E|]. split; [exact HQ1|]. split.
  - eapply buffers_keep; [exact Hb|]. rewrite Hmem. intros x Hx. by apply put_at_keeps, put_at_keeps.
  - rewrite Hmem. split; [|eapply Forall_impl; [exact Hl|]; by intros c [? _]]. apply bytes_at_app. split; [|apply put_at_in].
    apply put_at_bytes; [|unfold len; lia]. apply (proj1 (bytes_at_app _ line l [10])), put_at_in.
Qed.

(** The commands of a line with words, and what follows the last of them. *)
Definition run_line (rounds : nat) (last : Z) (ws : list (list Z)) : st (proc W) next :=
  match ws with
  | [] => mret (Again last)
  | w :: _ => match lookup_cmd w (builtins fbuf line argv ents slash dot formfeed rounds (Z.of_nat (length ws)) last) with
              | Some run => run
              | None => with_status (external fbuf argv status)
              end
  end.

Lemma turn_Done rounds last out l s : Q out (l ++ [10]) (p_world s) → buffers (memory s) → plain l → len l < 255 →
  let ws := take 31 (words BLANKS l) in
  ∃ ps s', turn fbuf line argv cwd ents status slash dot formfeed rounds last s = run_line rounds last ws s' ∧
    ready fbuf line argv (λ out, Q out []) (out ++ prompt_text) ps ws s'.
Proof using Hco Hap UserlandLaws0.
  intros HQ Hb Hl Hlen ws. destruct Hap as [H0 H1 H2 H3 H4].
  destruct (prompt_Done out _ s HQ Hb) as (s1 & E1 & HQ1 & Hb1). destruct (line_Done _ l s1 HQ1 Hb1 Hl Hlen) as (s2 & E2 & HQ2 & Hb2 & Hc).
  destruct (tokenize_Done line argv l (memory s2) Hc ltac:(apply Hb2)) as (ps & m3 & E3 & Hw & Hin & Hsp); [unfold len in *; lia..|].
  fold ws in E3, Hw, Hin. set (s3 := Proc (p_errno s2) (p_heap s2) (p_files s2) (set_wmem m3 (p_world s2))).
  assert (ready fbuf line argv (λ out, Q out []) (out ++ prompt_text) ps ws s3) as Hr.
  { split.
    - by apply (pr_mem _ _ _ (co_prints Hco [])).
    - unfold memory, s3. cbn [p_world]. rewrite wmem_set. intros i Hi. apply Hsp. by apply (proj1 Hb2).
    - unfold memory, s3. cbn [p_world]. by rewrite wmem_set.
    - eapply Forall2_impl; [exact Hin|]. unfold within_string, len in *. intros. lia.
    - rewrite (Forall2_length _ _ _ Hin). unfold ws. rewrite length_take. lia. }
  exists ps, s3. split; [|exact Hr]. unfold turn. unfold mbind, st_bind. rewrite E1, E2. rewrite (proj2 (Z.ltb_ge _ _)) by apply len_nonneg.
  unfold on_world. unfold memory in E3. rewrite E3. fold s3. unfold run_line.
  pose proof (Forall2_length _ _ _ (rd_in _ _ _ _ _ _ _ _ Hr)) as El. destruct ws as [|w ws'] eqn:Ews; [done|].
  rewrite (proj2 (Z.eqb_neq _ _)) by (cbn [length]; lia). destruct ps as [|p ps]; [done|].
  by rewrite (dispatch_Done fbuf line argv status (λ out, Q out []) (out ++ prompt_text) p ps w ws' s3 _ Hr (builtin_names _ _ _ _ _ _ _ _ _ _)).
Qed.
End turn.

(** A turn of the shell on a line that starts with [echo]: the prompt is printed, the line is taken from the
    terminal, and the words after the first, with a space between them, are printed with a newline; the status is the last one. *)
Lemma shell_echo_Done {W} `{!userland W, !UserlandLaws W} fbuf line argv cwd ents status slash dot formfeed ok Q dir
    rounds last out l ws (s : proc W) :
  console fbuf cwd ok Q dir → apart fbuf line argv → Q out (l ++ [10]) (p_world s) → buffers fbuf line argv cwd (memory s) →
  plain l → len l < 255 → Forall ok (l ++ [32; 10]) → take 31 (words BLANKS l) = chars "echo" :: ws →
  ∃ s', turn fbuf line argv cwd ents status slash dot formfeed rounds last s = Done (Again last, s') ∧
        Q (out ++ prompt_text dir ++ joined ws ++ newline) [] (p_world s').
Proof.
  intros Hco Hap HQ Hb Hl Hlen Hok Hws. apply Forall_app in Hok as [Hokl Hoks].
  destruct (turn_Done fbuf line argv cwd ents status slash dot formfeed ok Q dir Hco Hap rounds last out l s HQ Hb Hl Hlen) as (ps & s1 & E & Hr).
  rewrite Hws in *. pose proof (Forall2_length _ _ _ (rd_in _ _ _ _ _ _ _ _ Hr)) as El.
  destruct (cmd_echo_Done fbuf line argv ok (λ out, Q out []) (co_prints _ _ _ _ _ Hco []) (co_chars _ _ _ _ _ Hco) Hap _ ps _ s1 Hr) as (s2 & E2 & Hr2).
  - rewrite <- Hws. by apply Forall_take, words_from_Forall.
  - by inversion Hoks.
  - inversion_clear Hoks as [|? ? _ H10]. by inversion H10.
  - by intros ->.
  - exists s2. rewrite El in E2. split; [|rewrite <- app_assoc in Hr2; apply Hr2].
    rewrite E. cbn [run_line]. unfold builtins. cbn [lookup_cmd]. rewrite !decide_False by done. rewrite decide_True by done.
    unfold quiet, mbind, st_bind. by rewrite E2.
Qed.

(** ** Theorems *)

(** C31: The words of a line are those between its blanks: the tokenizer returns how many there are, at most 31,
    with a pointer to each, as a string of its own, in order in the array, and null after the last; and
    it writes only in the line and in the array. *)
Theorem tokenize_words line argv s m :
  let l := Z.of_nat (length s) in let ws := take 31 (words BLANKS s) in
  cstr m line s → mapped m argv 256 → argv + 256 <= line ∨ line + l < argv → 0 <= line → line + l < 2 ^ 64 →
  ∃ ps m', tokenize line argv m = Done (Z.of_nat (length ws), m') ∧ Forall2 (cstr m') ps ws ∧
    (∀ i p, (ps ++ [0]) !! i = Some p → load64 m' (argv + 8 * Z.of_nat i) = Done p) ∧
    ∀ x, x < line ∨ line + l < x → x < argv ∨ argv + 256 <= x → m' !! x = m !! x.
Proof.
  intros l ws Hs Hm Hd H0 Hl. destruct (tokenize_Done line argv s m Hs Hm Hd H0 Hl) as (ps & m' & E & Hw & _ & Hsp).
  exists ps, m'. split; [exact E|]. split; [apply Hw|]. split; [|intros x H1 H2; by apply Hsp].
  intros i p Hp. by eapply load64_array.
Qed.

Definition demo_command : mem := put_at 100 (chars " ls  -l" ++ [0]) (put_at 200 (replicate 256 0) ∅).

Lemma tokenize_words_witness : ∃ ps m', tokenize 100 200 demo_command = Done (2, m') ∧ Forall2 (cstr m') ps [chars "ls"; chars "-l"] ∧
  (∀ i p, (ps ++ [0]) !! i = Some p → load64 m' (200 + 8 * Z.of_nat i) = Done p) ∧
  ∀ x, x < 100 ∨ 107 < x → x < 200 ∨ 456 <= x → m' !! x = demo_command !! x.
Proof.
  apply (tokenize_words 100 200 (chars " ls  -l") demo_command).
  - split; [apply put_at_in|]. repeat constructor; lia.
  - apply put_at_mapped. rewrite <- (length_replicate 256 0). apply bytes_at_mapped, put_at_in.
  - right. reflexivity.
  - lia.
  - reflexivity.
Defined.
