(* ===== verification/ShellKernel.v ===== *)
(** * The shell on the kernel

    The terminal of the kernel is a console to the shell, so a command that is typed on the keyboard shows its
    output on the screen. *)

From S2P Require Import Prelude CString Bytes VfsPath Vfs Tty Input Task SchedDemo Kernel Loader LoaderDemo.
From S2P Require Import SysMem SysFiles SysTable Syscall SysCalls SysDemo.
From S2P Require Import UString UHeap USys UPrintf UScanf UFile UKernel Shell ShellRun.

Local Open Scope Z_scope.

Section kernel.
Context {M F : Type} `{!task_mem M, !user_mem M, !fs_ops F}.
Variables (idle : Z) (frame : cpu_state).
Implicit Types k : kern M F.

#[local] Instance shell_user : userland (kern M F) := kern_user idle frame.
#[local] Instance shell_user_laws : UserlandLaws (kern M F) := kern_user_laws idle frame.

(** The running task is in the directory [d]. *)
Definition in_dir (d : list Z) (s : sys M) : Prop := ∃ c tk, current_task s = Some c ∧ tasks s !! c = Some tk ∧ t_cwd tk = d.

(** The screen shows [out] after what it showed first, and [rem] is left in the input ring. *)
Definition at_console (cols rows : Z) (g : display) (dir : list Z) (out rem : list Z) (k : kern M F) : Prop :=
  displays cols rows g out k ∧ holds STDIN_RING_SIZE (stdin (kcon k)) rem ∧ Forall byte rem ∧ in_dir dir (ksys k).

Lemma kern_getcwd d k a n :
  in_dir d (ksys k) → Forall byte d → len d < n → 0 < n → 0 < a → a + n < 2 ^ 47 → mapped (umem k) a (Z.to_nat n) →
  USys.sys_getcwd a n k = Done (len d, put_umem (put_at a (d ++ [0]) (umem k)) k).
Proof.
  intros (c & tk & Hc & Ht & <-) Hd Hl Hn Ha Hlim Hm. destruct (user_ptr_inside a n Ha ltac:(lia) ltac:(lia)) as [Hp Hu].
  pose proof (len_nonneg (t_cwd tk)). unfold USys.sys_getcwd, __syscall2. rewrite ?(swrap_small 64 n) by lia.
  eapply (kernel_call_Done _ _ 17 a n 0); [unfold SYS_NR_MAX; lia|lia..|reflexivity|].
  unfold Syscall.sys_getcwd. rewrite Hp, (proj2 (Z.leb_gt n 0)) by lia. cbn [negb].
  destruct (wp_elim _ _ _ (cur_task_wp k c tk (λ r k', r = tk ∧ k' = k) Hc Ht (conj eq_refl eq_refl))) as (? & ? & E1 & -> & ->).
  unfold mbind, st_bind. rewrite E1. rewrite (wrap_small 64 n) by lia. rewrite (proj2 (Z.ltb_ge n _)) by (unfold len in *; lia).
  unfold write_user, on_umem. rewrite Hu.
  rewrite store_bytes_Done; [done|eapply mapped_le; [exact Hm|rewrite length_app; unfold len in *; cbn; lia]|].
  apply Forall_app. split; [done|]. repeat constructor; lia.
Qed.

Lemma in_dir_woken b d (s s' : sys M) : readers_woken b s s' → in_dir d s → in_dir d s'.
Proof.
  intros (ts & -> & Hts) (c & tk & Hc & Ht & Ed). exists c. cbn [current_task tasks put_tasks]. rewrite Hts, Ht.
  case_match; cbn [fmap option_fmap option_map]; eexists; (split; [done|split; [done|]]); [|done]. unfold woken. by case_match.
Qed.

(** The kernel is a console in a directory that the buffer of the shell has room for. *)
Lemma kern_console fbuf cwd cols rows g d :
  Forall (λ c, 0 < c < 128) d → len d < 128 → 0 < cwd < 2 ^ 47 - 128 → fbuf + 128 <= cwd ∨ cwd + 128 <= fbuf →
  console fbuf cwd (λ c, 0 <= c < 128) (at_console cols rows g d) (Some d).
Proof.
  intros Hd Hl Hcwd Hap. assert (Forall byte d) as Hby by (eapply Forall_impl; [exact Hd|]; unfold byte; cbn beta; lia). split.
  - intros rem. split; [|done]. intros out k a l (Hs & Hr) Hb Hok Ha Hlim _.
    destruct (kern_write idle frame cols rows g out k a l Hs Hb Hok Ha Hlim) as (t' & E & Hs'). eexists. split; [exact E|]. by split.
  - intros out. split; [|done]. intros rem k a n (Hs & Hr & Hrem & Hdir) Hne Hm Hn Ha Hlim.
    destruct (kern_read_stdin idle frame k a n rem Hr Hne Hrem Hn Ha Hlim Hm) as (r & E & Hr').
    assert (0 < length rem)%nat by (destruct rem; [done|cbn; lia]).
    set (j := length (take (Z.to_nat n) rem)) in *. assert (j = Nat.min (Z.to_nat n) (length rem)) as Ej by apply length_take.
    assert (take j rem = take (Z.to_nat n) rem ∧ drop j rem = drop (Z.to_nat n) rem) as [E1 E2].
    { rewrite Ej. destruct (Nat.min_spec (Z.to_nat n) (length rem)) as [[? ->]|[? ->]]; [done|]. rewrite !take_ge, !drop_ge by lia. done. }
    exists j. eexists. split; [exact E|]. split; [lia|]. split; [lia|]. split; [by rewrite E1|]. rewrite E2.
    split; [done|]. split; [done|]. split; [by apply Forall_drop|done].
  - unfold byte. lia.
  - intros out rem k (Hs & Hr & Hrem & Hdir) Hm. exists (len d), (put_umem (put_at cwd (d ++ [0]) (umem k)) k). pose proof (len_nonneg d).
    split; [by apply kern_getcwd; [..|lia|lia|lia|lia|]|]. by split.
  - intros ? [= <-]. split; [done|]. eapply Forall_impl; [exact Hd|]. cbn beta. lia.
  - unfold prompt_text. rewrite !Forall_app. split_and!; [|eapply Forall_impl; [exact Hd|]; cbn beta; lia|]; by apply (bool_decide_unpack _); vm_compute.
  - done.
Qed.

(** C32: From the keyboard to the screen: after the interrupts of scancodes that type a line with [echo], a turn of the
    shell takes the line from the input ring, and the screen shows, after what the editor showed, the prompt with the directory of the shell and the words of
    the line with a space between them. *)
Theorem typed_echo_shows cols rows fbuf line argv cwd ents status slash dot formfeed rounds last (k : kern M F) e e' scs d l ws err heap streams :
  edited (cols := cols) (rows := rows) (kcon k) e → Forall byte (ed_line e ++ ed_queue e) → Forall (λ sc, 0 <= sc < 256) scs →
  edits cols rows e scs = Some e' → ed_queue e' = l ++ [10] →
  in_dir d (ksys k) → Forall (λ c, 0 < c < 128) d → len d < 128 →
  apart fbuf line argv → 0 < cwd < 2 ^ 47 - 128 → fbuf + 128 <= cwd ∨ cwd + 128 <= fbuf → buffers fbuf line argv cwd (umem k) →
  Forall (λ c, 0 < c < 128 ∧ is_eol c = false) l → len l < 255 → take 31 (words BLANKS l) = chars "echo" :: ws →
  ∃ k1 s', on_con (isr_keyboard scs) k = Done (tt, k1) ∧
    turn fbuf line argv cwd ents status slash dot formfeed rounds last (Proc err heap streams k1) = Done (Again last, s') ∧
    displays cols rows (ed_screen e') (prompt_text (Some d) ++ joined ws ++ newline) (p_world s').
Proof.
  intros Hed Hby Hscs He Hq Hdir Hd Hdl Hap Hcwd Hapc Hbuf Hl Hlen Hws.
  destruct (wp_elim _ _ _ (isr_keyboard_wp scs (kcon k) e e' Hed Hscs He)) as ([] & c' & E & Hed' & Hw).
  exists (put_con c' k). assert (Forall byte (ed_queue e')) as Hby' by (by apply edits_bytes in He as [_ ?]%Forall_app).
  assert (plain l) as Hpl by (eapply Forall_impl; [exact Hl|]; cbn beta; intros c [? ?]; split; [lia|done]).
  destruct (shell_echo_Done fbuf line argv cwd ents status slash dot formfeed (λ c, 0 <= c < 128) (at_console cols rows (ed_screen e') d) (Some d)
    rounds last [] l ws (Proc err heap streams (put_con c' k))) as (s' & E1 & HQ); [by apply kern_console|done| |done|done|done| |done|].
  - split; [exact (e_tty _ _ Hed')|]. split; [rewrite <- Hq; exact (e_stdin _ _ Hed')|]. split; [by rewrite <- Hq|]. by eapply in_dir_woken.
  - apply Forall_app. split; [|by repeat constructor]. eapply Forall_impl; [exact Hl|]. cbn beta. lia.
  - exists s'. split; [unfold on_con; by rewrite E|]. split; [exact E1|apply HQ].
Qed.
(** Two lines that wait in the input ring are read as one: the newline between them stays in the line of the
    shell, where it is not a blank, so that it joins the last word of one command with the first word of the next. *)
Theorem typed_ahead_merges cols rows g d line l1 l2 (s : proc (kern M F)) :
  at_console cols rows g d [] (l1 ++ [10] ++ l2 ++ [10]) (p_world s) → plain l1 → plain l2 → 0 < len l2 → len l1 + len l2 + 2 <= 255 →
  0 < line < 2 ^ 47 - 256 → mapped (memory s) line 256 →
  ∃ s', read_line line LINE_MAX s = Done (len (l1 ++ [10] ++ l2), s') ∧ bytes_at (memory s') line (l1 ++ [10] ++ l2 ++ [0]) ∧
        at_console cols rows g d [] [] (p_world s').
Proof.
  intros (Hsc & Hr & Hby & Hdir) H1 H2 Hl2 Hlen Hline Hm. set (q := l1 ++ [10] ++ l2 ++ [10]) in *. set (t := l1 ++ [10] ++ l2).
  assert (q = t ++ [10]) as Eq by (unfold q, t; by rewrite <- !app_assoc).
  assert (len q = len l1 + len l2 + 2) as Hlq by (unfold q; rewrite !len_app; change (len [10]) with 1; lia).
  destruct (kern_read_stdin idle frame (p_world s) line 255 q Hr) as (r & E & Hr'); [by rewrite Eq; destruct t|done|lia|lia|lia|by eapply mapped_range; [exact Hm|lia|lia]|].
  rewrite take_ge in E by (unfold len in *; lia). rewrite drop_ge in Hr' by (unfold len in *; lia). set (w1 := put_umem _ _) in E.
  set (s1 := Proc (p_errno s) (p_heap s) (p_files s) w1).
  assert (fill_line (Z.to_nat LINE_MAX) line LINE_MAX 0 s = Done (Got (len q), s1)) as Ef.
  { change (Z.to_nat LINE_MAX) with (Datatypes.S 255). cbn [fill_line]. change (0 <? LINE_MAX - 1) with true. cbn iota.
    change (LINE_MAX - 1 - 0) with 255. rewrite Z.add_0_r. unfold mbind, st_bind at 1. assert (read 0 line 255 s = Done (len q, s1)) as -> by exact (on_world_Done _ _ s w1 E).
    pose proof (len_nonneg l1). rewrite (proj2 (Z.leb_gt (len q) 0)) by lia. rewrite (swrap_small 32 (len q)) by lia. rewrite Z.add_0_l.
    unfold st_bind at 1. rewrite (mem_get_Done _ s1 10); [done|]. apply ldb_Some. unfold memory, s1, w1. cbn [p_world wmem].
    replace (line + len q - 1) with (line + Z.of_nat (length t)) by (rewrite Eq, len_app; change (len [10]) with 1; unfold len; lia).
    apply (put_at_in line q). rewrite Eq, lookup_app_r, Nat.sub_diag by lia. done. }
  assert (chomp q = t) as Ec.
  { rewrite Eq, chomp_snoc. change (is_eol 10) with true. cbn iota. destruct l2 as [|c l2' _] using rev_ind; [done|].
    unfold t. rewrite !app_assoc, chomp_snoc. apply Forall_app in H2 as [_ H2]. inversion_clear H2 as [|? ? [_ Hc] _]. by rewrite Hc. }
  assert (len t + 1 = len q) as Elt by (rewrite Eq, len_app; done). pose proof (len_nonneg t).
  exists (Proc (p_errno s) (p_heap s) (p_files s) (put_umem (put_at (line + len t) [0] (put_at line q (memory s))) w1)). split; [|split].
  - unfold read_line, mbind, st_bind. rewrite Ef. replace (Z.to_nat (len q)) with (length q) by (unfold len; lia).
    rewrite (mem_get_Done _ s1 (len t)) by (rewrite <- Ec; apply strip_Done, put_at_in).
    unfold mem_do, on_world, on_wmem. rewrite stb_Done; [done| |unfold byte; lia].
    apply put_at_keeps. replace (line + len t) with (line + Z.of_nat (Z.to_nat (len t))) by lia. apply Hm. lia.
  - unfold memory. cbn [p_world wmem]. change (bytes_at (put_at (line + len t) [0] (put_at line q (memory s))) line (l1 ++ [10] ++ l2 ++ [0])).
    rewrite !app_assoc. rewrite <- (app_assoc l1). fold t. apply bytes_at_app. split; [|apply put_at_in].
    apply put_at_bytes; [|unfold len; lia]. apply (proj1 (bytes_at_app _ line t [10])). rewrite <- Eq. apply put_at_in.
  - by split.
Qed.

End kernel.

(** ** A shell on a kernel *)

Definition echo_keys : list Z := [0x12; 0x2E; 0x23; 0x18; 0x39; 0x1E; 0x1C].
Definition shell_kern : kern LoaderDemo.space (list Z) := put_umem (put_at 0x2000 (replicate 1024 0) ∅) prog_kern.

Lemma shell_mapped a n : 0x2000 <= a → a + Z.of_nat n <= 0x2400 → mapped (umem shell_kern) a n.
Proof.
  intros Ha Hn. apply (mapped_range _ 0x2000 1024); [|lia|lia]. change 1024%nat with (length (replicate 1024 0)). apply bytes_at_mapped, put_at_in.
Qed.

Lemma typed_echo_shows_witness :
  ∃ k1 s', on_con (isr_keyboard echo_keys) shell_kern = Done (tt, k1) ∧
    turn (userland0 := shell_user 0 (prog_regs 0 0 0 0)) 0x2000 0x2100 0x2200 0x2300 0x2400 0 0 0 0 1 5 (Proc 0 (Arena None ∅) ∅ k1) = Done (Again 5, s') ∧
    displays 4 2 (ed_screen (default demo_editor (edits 4 2 demo_editor echo_keys))) (chars "lizard:/$ a" ++ newline) (p_world s').
Proof.
  set (e' := default demo_editor (edits 4 2 demo_editor echo_keys)).
  apply (typed_echo_shows 0 (prog_regs 0 0 0 0) 4 2 0x2000 0x2100 0x2200 0x2300 0x2400 0 0 0 0 1 5 shell_kern demo_editor e' echo_keys [47] (chars "echo a") [chars "a"]).
  - exact prog_edited.
  - constructor.
  - repeat constructor; by vm_compute.
  - reflexivity.
  - reflexivity.
  - exists prog, prog_task. by split_and!.
  - repeat constructor.
  - by vm_compute.
  - split; lia.
  - lia.
  - lia.
  - split_and!; apply shell_mapped; lia.
  - repeat constructor.
  - by vm_compute.
  - reflexivity.
Defined.
