(* ===== verification/Ports.v ===== *)
(** * The port instructions (lizard/io.c, lizard/io.h)

    The drivers of the disk, of the interrupt controller, of the timer and of the serial line of the boot
    loader are clients of this interface; what answers behind a port is a matter of the instance. *)

From S2P Require Import Prelude.

Local Open Scope Z_scope.

Class ports (W : Type) := Ports {
  inb : Z → st W Z;
  inw : Z → st W Z;
  outb : Z → Z → st W unit;
  outw : Z → Z → st W unit
}.

Definition io_wait {W} `{!ports W} : st W unit := outb 0x80 0.
