(* ===== verification/Ata.v ===== *)
(** * The ATA driver (lizard/ata.c, lizard/ata.h)

    The driver talks to the disk through ports. What the disk does with
    its registers, the PIO protocol of the ATA standard, is its laws: a view of the device says which
    sector its registers address, which words it still has to give or to take, and how many
    reads of the status will still find it busy. A sector can be bad: the commands on it end in an error. *)

From S2P Require Import Prelude CString Bytes BlkDev BlkMgr SysMem Syscall SysCalls Ports.

Local Open Scope Z_scope.

Definition ATA_PRIMARY_BASE : Z := 0x1F0.
Definition ATA_SECONDARY_BASE : Z := 0x170.
Definition ATA_PRIMARY_CTRL : Z := 0x3F6.
Definition ATA_SECONDARY_CTRL : Z := 0x376.

Definition ATA_REG_DATA : Z := 0.
Definition ATA_REG_SECCOUNT0 : Z := 2.
Definition ATA_REG_LBA0 : Z := 3.
Definition ATA_REG_LBA1 : Z := 4.
Definition ATA_REG_LBA2 : Z := 5.
Definition ATA_REG_DRIVE : Z := 6.
Definition ATA_REG_COMMAND : Z := 7.
Definition ATA_REG_STATUS : Z := 7.

Definition ATA_CMD_WRITE_SECT : Z := 0x30.
Definition ATA_CMD_READ_SECT : Z := 0x20.
Definition ATA_CMD_IDENTIFY : Z := 0xEC.
Definition ATA_CMD_CACHE_FLUSH : Z := 0xE7.

Definition ATA_SR_BSY : Z := 0x80.
Definition ATA_SR_DRQ : Z := 0x08.
Definition ATA_SR_ERR : Z := 0x01.
Definition ATA_SR_DF : Z := 0x20.

Definition ATA_DEFAULT_SECTOR_SIZE : Z := 512.

Record ata_device := AtaDevice {
  ata_id : Z;
  io_base : Z;
  ctrl_base : Z;
  present : Z;
  model : list Z;
  cylinders : Z;
  heads : Z;
  chs_sectors : Z;
  ata_sector_size : Z;
  ata_total_sectors : Z;
  total_bytes : Z
}.

Section driver.
Context {W : Type} `{!ports W}.

(** With [n] reads of the status left. *)
Fixpoint wait_loop (n : nat) (io mask : Z) (set : bool) : st W Z :=
  match n with
  | O => mret (-1)
  | S n =>
      status ← inb (io + ATA_REG_STATUS);
      if (if set then Z.land status mask =? mask else Z.land status mask =? 0) then mret 0
      else _ ← io_wait; wait_loop n io mask set
  end.

Definition ata_wait (io mask : Z) (set : bool) : st W Z := wait_loop (Z.to_nat 100000) io mask set.

Definition ata_select (io : Z) : st W unit := _ ← outb (io + ATA_REG_DRIVE) 0xA0; io_wait.

Definition ata_setup_lba (ata lba : Z) : st W unit :=
  _ ← outb (ata + ATA_REG_DRIVE) (Z.lor 0xE0 (Z.land (Z.shiftr lba 24) 0x0F));
  _ ← outb (ata + ATA_REG_SECCOUNT0) 1;
  _ ← outb (ata + ATA_REG_LBA0) (Z.land lba 0xFF);
  _ ← outb (ata + ATA_REG_LBA1) (Z.land (Z.shiftr lba 8) 0xFF);
  outb (ata + ATA_REG_LBA2) (Z.land (Z.shiftr lba 16) 0xFF).

Fixpoint delay_loop (n : nat) (ata : Z) : st W unit :=
  match n with O => mret tt | S n => _ ← inb (ata + ATA_REG_STATUS); delay_loop n ata end.

Definition ata_io_delay (ata : Z) : st W unit := delay_loop 4 ata.

Fixpoint poll_loop (n : nat) (ata : Z) : st W Z :=
  match n with
  | O => mret (-1)
  | S n =>
      status ← inb (ata + ATA_REG_STATUS);
      if negb (Z.land status ATA_SR_BSY =? 0) then _ ← io_wait; poll_loop n ata
      else if negb (Z.land status (Z.lor ATA_SR_ERR ATA_SR_DF) =? 0) then mret (-1)
      else if negb (Z.land status ATA_SR_DRQ =? 0) then mret 0
      else _ ← io_wait; poll_loop n ata
  end.

Definition ata_poll_data (ata : Z) : st W Z := poll_loop (Z.to_nat 1000000) ata.

(** ** Transfers, between the disk and memory *)

Definition on_ports {A} (m : st W A) : st (W * mem) A := λ s,
  match m (fst s) with Done (a, w) => Done (a, (w, snd s)) | Stop e => Stop e end.
Definition on_buf (f : mem → run mem) : st (W * mem) unit := λ s,
  match f (snd s) with Done m => Done (tt, (fst s, m)) | Stop e => Stop e end.
Definition of_buf {A} (f : mem → run A) : st (W * mem) A := λ s,
  match f (snd s) with Done a => Done (a, s) | Stop e => Stop e end.

(** [for (i = 0; i < 256; ++i) ((u16 * )buf)[i] = inw(data)], with [n] words left. *)
Fixpoint words_in (n : nat) (ata buf : Z) : st (W * mem) unit :=
  match n with
  | O => mret tt
  | S n =>
      x ← on_ports (inw (ata + ATA_REG_DATA));
      _ ← on_buf (store_bytes buf (put16 x));
      words_in n ata (buf + 2)
  end.

Fixpoint words_out (n : nat) (ata buf : Z) : st (W * mem) unit :=
  match n with
  | O => mret tt
  | S n =>
      l ← of_buf (load_bytes 2 buf);
      _ ← on_ports (outw (ata + ATA_REG_DATA) (le16 l 0));
      words_out n ata (buf + 2)
  end.

(** One turn of the loop of [block_read]. *)
Definition read_one (ata s buf : Z) : st (W * mem) Z :=
  r ← on_ports (ata_wait ata ATA_SR_BSY false);
  if negb (r =? 0) then mret (-1)
  else
    _ ← on_ports (ata_setup_lba ata s);
    _ ← on_ports (outb (ata + ATA_REG_COMMAND) ATA_CMD_READ_SECT);
    _ ← on_ports (ata_io_delay ata);
    r ← on_ports (ata_poll_data ata);
    if negb (r =? 0) then mret (-1)
    else
      _ ← words_in 256 ata buf;
      _ ← on_ports (ata_io_delay ata);
      mret 0.

Fixpoint read_sectors (n : nat) (ata size s buf : Z) : st (W * mem) Z :=
  match n with
  | O => mret 0
  | S n => r ← read_one ata s buf; if negb (r =? 0) then mret (-1) else read_sectors n ata size (s + 1) (buf + size)
  end.

(** The turns of [for (s = sector; s < sector + count; s++)]. *)
Definition turns (sector count : Z) : nat := Z.to_nat (u64 (sector + count) - sector).

Definition block_read (dev : ata_device) (sector buf count : Z) : st (W * mem) Z :=
  read_sectors (turns sector count) (io_base dev) (ata_sector_size dev) sector buf.

Definition write_one (ata s buf : Z) : st (W * mem) Z :=
  r ← on_ports (ata_wait ata ATA_SR_BSY false);
  if negb (r =? 0) then mret (-1)
  else
    _ ← on_ports (ata_setup_lba ata s);
    _ ← on_ports (outb (ata + ATA_REG_COMMAND) ATA_CMD_WRITE_SECT);
    _ ← on_ports (ata_io_delay ata);
    r ← on_ports (ata_poll_data ata);
    if negb (r =? 0) then mret (-1)
    else
      _ ← words_out 256 ata buf;
      _ ← on_ports (ata_io_delay ata);
      r ← on_ports (ata_wait ata ATA_SR_BSY false);
      if negb (r =? 0) then mret (-1) else mret 0.

Fixpoint write_sectors (n : nat) (ata size s buf : Z) : st (W * mem) Z :=
  match n with
  | O => mret 0
  | S n => r ← write_one ata s buf; if negb (r =? 0) then mret (-1) else write_sectors n ata size (s + 1) (buf + size)
  end.

Definition block_write (dev : ata_device) (sector buf count : Z) : st (W * mem) Z :=
  let ata := io_base dev in
  r ← write_sectors (turns sector count) ata (ata_sector_size dev) sector buf;
  if negb (r =? 0) then mret (-1)
  else
    _ ← on_ports (outb (ata + ATA_REG_COMMAND) ATA_CMD_CACHE_FLUSH);
    r ← on_ports (ata_wait ata ATA_SR_BSY false);
    if negb (r =? 0) then mret (-1) else mret 0.

Definition block_flush : st (W * mem) Z := mret 0.

(** ** Identification *)

(** The word [i] of the data of the device. *)
Definition id_word (l : list Z) (i : nat) : Z := default 0 (l !! i).

Definition id_total (l : list Z) : Z :=
  let w := id_word l in
  let lba48 := Z.lor (Z.lor (w 100%nat) (Z.shiftl (w 101%nat) 16)) (Z.lor (Z.shiftl (w 102%nat) 32) (Z.shiftl (w 103%nat) 48)) in
  let lba28 := Z.lor (w 60%nat) (Z.shiftl (w 61%nat) 16) in
  if negb (Z.land (w 83%nat) (Z.shiftl 1 10) =? 0) && negb (lba48 =? 0) then u32 lba48
  else if negb (lba28 =? 0) then lba28
  else u32 (u32 (w 1%nat * w 3%nat) * w 6%nat).

Definition id_sector_size (l : list Z) : Z :=
  if negb (id_word l 117 =? 0) then id_word l 117 else ATA_DEFAULT_SECTOR_SIZE.

Definition id_model (l : list Z) : list Z :=
  concat ((λ i, [Z.shiftr (id_word l (27 + i)) 8; Z.land (id_word l (27 + i)) 0xFF]) <$> seq 0 20) ++ [0].

Definition device_of (io ctrl : Z) (l : list Z) : ata_device :=
  AtaDevice 0 io ctrl 1 (id_model l) (id_word l 1) (id_word l 3) (id_word l 6) (id_sector_size l) (id_total l)
    (u64 (id_total l * id_sector_size l)).

Fixpoint id_words (n : nat) (io : Z) : st W (list Z) :=
  match n with
  | O => mret []
  | S n => x ← inw io; l ← id_words n io; mret (x :: l)
  end.

Definition base (id : nat) : Z := if bool_decide (id = 0%nat) then ATA_PRIMARY_BASE else ATA_SECONDARY_BASE.
Definition ctrl (id : nat) : Z := if bool_decide (id = 0%nat) then ATA_PRIMARY_CTRL else ATA_SECONDARY_CTRL.

(** The probe of one device; where it fails the caller frees the structure and goes on. *)
Definition ata_probe (id : nat) : st W (option ata_device) :=
  let io := base id in
  _ ← ata_select io;
  _ ← outb (io + ATA_REG_SECCOUNT0) 0;
  _ ← outb (io + ATA_REG_LBA0) 0;
  _ ← outb (io + ATA_REG_LBA1) 0;
  _ ← outb (io + ATA_REG_LBA2) 0;
  _ ← outb (io + ATA_REG_COMMAND) ATA_CMD_IDENTIFY;
  status ← inb (io + ATA_REG_STATUS);
  if status =? 0 then mret None
  else
    r ← ata_wait io ATA_SR_BSY false;
    if negb (r =? 0) then mret None
    else
      r ← ata_wait io ATA_SR_ERR false;
      if negb (r =? 0) then mret None
      else
        l ← id_words 256 io;
        if negb (Z.land (id_word l 0) (Z.shiftl 1 15) =? 0) then mret None else mret (Some (device_of io (ctrl id) l)).

(** The block device of a disk; its private data, the disk itself, is on the side of the driver. *)
Definition block_dev_of (id : nat) (d : ata_device) : block_dev :=
  BDev (chars "ata" ++ [48 + Z.of_nat id]) 0 BLKDEV_TYPE_PHYSICAL (ata_total_sectors d) (ata_sector_size d)
    (Some (Ops (Some OpDriver) (Some OpDriver))) None true false true None.

Section detect.
Context {D : Type} `{!block_driver D}.

Definition kfree (p : Z) (m : mgr D) : mgr D := Mgr (mblk m) (blk_devs m) (blkdev_id_bitmap m) (children m) (p :: arena m).

(** The only turn of the loop is for the primary bus. *)
Definition ata_detect_devices : st (W * mgr D) Z := λ s,
  let '(w, m) := s in
  let '(p, m) := zalloc m in
  p ← access p;
  '(r, w) ← ata_probe 0 w;
  match r with
  | None => Done (0, (w, kfree p m))
  | Some d =>
      let '(q, m) := zalloc m in
      q ← access q;
      let m := set_dev q (block_dev_of 0 d) m in
      let m := Mgr (mblk m) (blk_devs m) (blkdev_id_bitmap m) (<[q := []]> (children m)) (arena m) in
      '(m, _) ← blkdev_manager_add q m;
      Done (0, (w, m))
  end.
End detect.
End driver.

(** ** The device *)

(** What the device is at: nothing, an error, words to give or to take. *)
Inductive phase := Idle | Failed | Serving (rest : list Z) | Taking (k : Z) (got : list Z).

#[export] Instance phase_eq_dec : EqDecision phase.
Proof. solve_decision. Defined.

Record view := View {
  v_disk : Z → list Z;           (* the words of a sector *)
  v_bad : Z → bool;
  v_drive : Z; v_lba0 : Z; v_lba1 : Z; v_lba2 : Z;
  v_phase : phase;
  v_busy : nat                   (* reads of the status that will find it busy *)
}.

Definition set_phase (p : phase) (n : nat) (v : view) : view :=
  View (v_disk v) (v_bad v) (v_drive v) (v_lba0 v) (v_lba1 v) (v_lba2 v) p n.
Definition set_sector (k : Z) (l : list Z) (v : view) : view :=
  View (λ j, if j =? k then l else v_disk v j) (v_bad v) (v_drive v) (v_lba0 v) (v_lba1 v) (v_lba2 v) (v_phase v) (v_busy v).

(** The device takes a command when it neither transfers nor is busy. *)
Definition at_rest (v : view) : Prop := (v_phase v = Idle ∨ v_phase v = Failed) ∧ v_busy v = 0%nat.

Definition set_reg (r x : Z) (v : view) : view :=
  let set d l0 l1 l2 := View (v_disk v) (v_bad v) d l0 l1 l2 (v_phase v) (v_busy v) in
  if r =? ATA_REG_LBA0 then set (v_drive v) x (v_lba1 v) (v_lba2 v)
  else if r =? ATA_REG_LBA1 then set (v_drive v) (v_lba0 v) x (v_lba2 v)
  else if r =? ATA_REG_LBA2 then set (v_drive v) (v_lba0 v) (v_lba1 v) x
  else if r =? ATA_REG_DRIVE then set x (v_lba0 v) (v_lba1 v) (v_lba2 v) else v.

(** The 28 bits of the address. *)
Definition addressed (v : view) : Z := v_lba0 v + 2 ^ 8 * v_lba1 v + 2 ^ 16 * v_lba2 v + 2 ^ 24 * (v_drive v mod 16).

(** The status register: the busy bit alone, or the bits of the phase. *)
Definition status_of (v : view) (x : Z) : Prop :=
  if bool_decide (v_busy v = 0%nat) then
    Z.land x ATA_SR_BSY = 0 ∧
    match v_phase v with
    | Failed => Z.land x (Z.lor ATA_SR_ERR ATA_SR_DF) ≠ 0
    | Idle => Z.land x (Z.lor ATA_SR_ERR ATA_SR_DF) = 0
    | Serving _ | Taking _ _ => Z.land x (Z.lor ATA_SR_ERR ATA_SR_DF) = 0 ∧ Z.land x ATA_SR_DRQ ≠ 0
    end
  else Z.land x ATA_SR_BSY ≠ 0.

Definition settled (v : view) : view := set_phase (v_phase v) (pred (v_busy v)) v.

(** The PIO protocol, for the registers at [io] and commands that are done in [bound] reads of the status. *)
Class AtaLaws (W : Type) `{!ports W} (io : Z) (bound : nat) := {
  sees : W → view → Prop;
  al_wait w v : sees w v → ∃ w', outb 0x80 0 w = Done (tt, w') ∧ sees w' v;
  al_status w v : sees w v → ∃ x w', inb (io + ATA_REG_STATUS) w = Done (x, w') ∧ status_of v x ∧ sees w' (settled v);
  al_reg w v r x : sees w v → at_rest v → r ∈ [ATA_REG_SECCOUNT0; ATA_REG_LBA0; ATA_REG_LBA1; ATA_REG_LBA2; ATA_REG_DRIVE] →
    0 <= x < 256 → ∃ w', outb (io + r) x w = Done (tt, w') ∧ sees w' (set_reg r x v);
  al_read w v : sees w v → at_rest v → Z.testbit (v_drive v) 6 = true →
    ∃ w' n, outb (io + ATA_REG_COMMAND) ATA_CMD_READ_SECT w = Done (tt, w') ∧ (n <= bound)%nat ∧
      sees w' (set_phase (if v_bad v (addressed v) then Failed else Serving (v_disk v (addressed v))) n v);
  al_inw w v x l : sees w v → v_phase v = Serving (x :: l) → v_busy v = 0%nat →
    ∃ w' n, inw (io + ATA_REG_DATA) w = Done (x, w') ∧ (n <= bound)%nat ∧
      sees w' (set_phase (match l with [] => Idle | _ => Serving l end) (match l with [] => n | _ => 0%nat end) v);
  al_write w v : sees w v → at_rest v → Z.testbit (v_drive v) 6 = true →
    ∃ w' n, outb (io + ATA_REG_COMMAND) ATA_CMD_WRITE_SECT w = Done (tt, w') ∧ (n <= bound)%nat ∧
      sees w' (set_phase (Taking (addressed v) []) n v);
  al_outw w v k l x : sees w v → v_phase v = Taking k l → v_busy v = 0%nat → 0 <= x < 2 ^ 16 → (length l < 256)%nat →
    ∃ w' n, outw (io + ATA_REG_DATA) x w = Done (tt, w') ∧ (n <= bound)%nat ∧
      sees w' (if bool_decide (length l = 255%nat)
               then if v_bad v k then set_phase Failed n v else set_phase Idle n (set_sector k (l ++ [x]) v)
               else set_phase (Taking k (l ++ [x])) 0 v);
  al_flush w v : sees w v → at_rest v → ∃ w' n, outb (io + ATA_REG_COMMAND) ATA_CMD_CACHE_FLUSH w = Done (tt, w') ∧ (n <= bound)%nat ∧
      sees w' (set_phase Idle n v);
  al_words w v k : sees w v → length (v_disk v k) = 256%nat ∧ Forall (λ x, 0 <= x < 2 ^ 16) (v_disk v k)
}.

Lemma on_ports_Done {W A} (f : st W A) w a w' (m : mem) : f w = Done (a, w') → on_ports f (w, m) = Done (a, (w', m)).
Proof. unfold on_ports. cbn. by intros ->. Qed.

(** One step of the driver on the ports. *)
Ltac pstep E := unfold mbind at 1, st_bind at 1; rewrite (on_ports_Done _ _ _ _ _ E); cbn [negb Z.eqb Pos.eqb].

Section transfers.
Context {W : Type} `{!ports W} (io : Z) (bound : nat) `{!AtaLaws W io bound}.
Implicit Types (v : view) (w : W).

Definition ready v : view := set_phase (v_phase v) 0 v.

Lemma wait_bsy n : ∀ w v, sees w v → ∃ w', wait_loop n io ATA_SR_BSY false w = Done (if bool_decide (v_busy v < n)%nat then 0 else -1, w') ∧
  sees w' (set_phase (v_phase v) (v_busy v - n) v).
Proof.
  induction n as [|n IH]; intros w v Hv; cbn [wait_loop].
  { exists w. rewrite bool_decide_false by lia. split; [done|]. rewrite Nat.sub_0_r. by destruct v. }
  destruct (al_status w v Hv) as (x & w1 & E1 & Hx & H1). unfold mbind, st_bind at 1. rewrite E1. unfold status_of in Hx.
  case_bool_decide as Hb.
  - destruct Hx as [-> _]. exists w1. rewrite bool_decide_true by lia. split; [done|]. unfold settled in H1. rewrite Hb in *. exact H1.
  - rewrite (proj2 (Z.eqb_neq _ _) Hx). destruct (al_wait w1 _ H1) as (w2 & E2 & H2). unfold io_wait, st_bind. rewrite E2.
    destruct (IH w2 _ H2) as (w3 & E3 & H3). cbn [settled set_phase v_busy v_phase] in E3, H3. exists w3. split.
    + rewrite E3. f_equal. f_equal. case_bool_decide; case_bool_decide; done || lia.
    + replace (v_busy v - S n)%nat with (pred (v_busy v) - n)%nat by lia. exact H3.
Qed.

Lemma ata_wait_Done w v : sees w v → (v_busy v < Z.to_nat 100000)%nat → ∃ w', ata_wait io ATA_SR_BSY false w = Done (0, w') ∧ sees w' (ready v).
Proof.
  intros Hv Hb. destruct (wait_bsy (Z.to_nat 100000) w v Hv) as (w' & E & H). exists w'. unfold ata_wait. rewrite E, bool_decide_true by done.
  split; [done|]. unfold ready. by replace (v_busy v - Z.to_nat 100000)%nat with 0%nat in H by lia.
Qed.

Lemma delay_Done n : ∀ w v, sees w v → ∃ w', delay_loop n io w = Done (tt, w') ∧ sees w' (set_phase (v_phase v) (v_busy v - n) v).
Proof.
  induction n as [|n IH]; intros w v Hv; cbn [delay_loop].
  { exists w. split; [done|]. rewrite Nat.sub_0_r. by destruct v. }
  destruct (al_status w v Hv) as (x & w1 & E1 & _ & H1). unfold mbind, st_bind. rewrite E1. destruct (IH w1 _ H1) as (w2 & E2 & H2).
  exists w2. split; [exact E2|]. cbn [settled set_phase v_busy v_phase] in H2. by replace (v_busy v - S n)%nat with (pred (v_busy v) - n)%nat by lia.
Qed.

Definition transfers v : Prop := match v_phase v with Serving _ | Taking _ _ => True | _ => False end.

(** The poll ends at the data of a transfer, or at an error. *)
Lemma poll_Done n : ∀ w v, sees w v → (v_busy v < n)%nat → transfers v ∨ v_phase v = Failed →
  ∃ w', poll_loop n io w = Done (if bool_decide (v_phase v = Failed) then -1 else 0, w') ∧ sees w' (ready v).
Proof.
  induction n as [|n IH]; intros w v Hv Hn Hp; [lia|]. cbn [poll_loop].
  destruct (al_status w v Hv) as (x & w1 & E1 & Hx & H1). unfold mbind, st_bind at 1. rewrite E1. unfold status_of in Hx.
  case_bool_decide as Hb.
  - destruct Hx as [-> Hx]. change (0 =? 0) with true. cbn [negb]. exists w1. unfold settled in H1. rewrite Hb in H1. split; [|exact H1].
    unfold transfers in Hp. destruct (v_phase v); [by destruct Hp|by rewrite (proj2 (Z.eqb_neq _ _) Hx)|..];
      destruct Hx as [-> Hd]; change (0 =? 0) with true; cbn [negb]; by rewrite (proj2 (Z.eqb_neq _ _) Hd).
  - rewrite (proj2 (Z.eqb_neq _ _) Hx). cbn [negb]. destruct (al_wait w1 _ H1) as (w2 & E2 & H2). unfold io_wait, st_bind. rewrite E2.
    destruct (IH w2 _ H2) as (w3 & E3 & H3); [cbn; lia|done|]. by exists w3.
Qed.

(** The five registers address the sector, modulo what 28 bits hold. *)
Definition with_lba (s : Z) (v : view) : view :=
  View (v_disk v) (v_bad v) (0xE0 + s / 2 ^ 24 mod 16) (s mod 256) (s / 2 ^ 8 mod 256) (s / 2 ^ 16 mod 256) (v_phase v) (v_busy v).

Lemma low_byte s n : 0 <= n → Z.land (Z.shiftr s n) 0xFF = s / 2 ^ n mod 256.
Proof. intros Hn. rewrite Z.shiftr_div_pow2 by done. change 0xFF with (Z.ones 8). by rewrite Z.land_ones by lia. Qed.

Lemma drive_byte s : Z.lor 0xE0 (Z.land (Z.shiftr s 24) 0x0F) = 0xE0 + s / 2 ^ 24 mod 16.
Proof.
  pose proof (Z.add_lor_land 0xE0 (Z.land (Z.shiftr s 24) 0x0F)) as E. rewrite (Z.land_comm (Z.shiftr s 24)), Z.land_assoc in E.
  change (Z.land 0xE0 0x0F) with 0 in E. rewrite Z.land_0_l, (Z.land_comm 0x0F), Z.add_0_r in E. rewrite E.
  f_equal. rewrite Z.shiftr_div_pow2 by lia. change 0x0F with (Z.ones 4). by rewrite Z.land_ones by lia.
Qed.

Lemma addressed_lba s v : 0 <= s → addressed (with_lba s v) = s mod 2 ^ 28.
Proof. intros Hs. unfold addressed. cbn [with_lba v_lba0 v_lba1 v_lba2 v_drive]. Z.to_euclidean_division_equations. lia. Qed.

Lemma lba_mode s v : Z.testbit (v_drive (with_lba s v)) 6 = true.
Proof.
  cbn [with_lba v_drive]. rewrite <- drive_byte, Z.lor_spec. done.
Qed.

Lemma setup_Done s w v : sees w v → at_rest v → 0 <= s → ∃ w', ata_setup_lba io s w = Done (tt, w') ∧ sees w' (with_lba s v).
Proof.
  intros Hv Hr Hs. unfold ata_setup_lba. rewrite drive_byte, !low_byte by lia. change 0xFF with (Z.ones 8). rewrite Z.land_ones by lia. change (s mod 2 ^ 8) with (s mod 256).
  pose proof (Z.mod_pos_bound s 256 ltac:(lia)). pose proof (Z.mod_pos_bound (s / 2 ^ 8) 256 ltac:(lia)). pose proof (Z.mod_pos_bound (s / 2 ^ 16) 256 ltac:(lia)).
  pose proof (Z.mod_pos_bound (s / 2 ^ 24) 16 ltac:(lia)).
  destruct (al_reg w v ATA_REG_DRIVE (0xE0 + s / 2 ^ 24 mod 16) Hv Hr) as (w1 & E1 & G1); [by repeat constructor|lia|].
  destruct (al_reg w1 _ ATA_REG_SECCOUNT0 1 G1) as (w2 & E2 & G2); [done|by repeat constructor|lia|].
  destruct (al_reg w2 _ ATA_REG_LBA0 (s mod 256) G2) as (w3 & E3 & G3); [done|by repeat constructor|lia|].
  destruct (al_reg w3 _ ATA_REG_LBA1 (s / 2 ^ 8 mod 256) G3) as (w4 & E4 & G4); [done|by repeat constructor|lia|].
  destruct (al_reg w4 _ ATA_REG_LBA2 (s / 2 ^ 16 mod 256) G4) as (w5 & E5 & G5); [done|by repeat constructor|lia|].
  exists w5. unfold mbind, st_bind. rewrite E1, E2, E3, E4, E5. split; [done|exact G5].
Qed.

Hypothesis Hbound : Z.of_nat bound < 100000.

(** Between the commands of the driver: no transfer, and busy for no longer than a command takes. *)
Definition calm v : Prop := (v_phase v = Idle ∨ v_phase v = Failed) ∧ (v_busy v <= bound)%nat.

Lemma calm_wait w v : sees w v → calm v → ∃ w', ata_wait io ATA_SR_BSY false w = Done (0, w') ∧ sees w' (ready v) ∧ at_rest (ready v).
Proof using AtaLaws0 Hbound.
  intros Hv [Hp Hb]. destruct (ata_wait_Done w v Hv) as (w' & E & H); [lia|]. exists w'. by split_and!.
Qed.

(** The bytes of words, the low byte first. *)
Definition word_bytes (l : list Z) : list Z := concat (put16 <$> l).

Lemma word_bytes_length l : length (word_bytes l) = (2 * length l)%nat.
Proof. unfold word_bytes. induction l as [|x l IH]; [done|]. rewrite fmap_cons. cbn [concat]. rewrite length_app, IH. cbn. lia. Qed.

Lemma words_in_Done l : ∀ w v buf m, l ≠ [] → sees w v → v_phase v = Serving l → v_busy v = 0%nat → mapped m buf (2 * length l) →
  ∃ w' n, words_in (length l) io buf (w, m) = Done (tt, (w', put_at buf (word_bytes l) m)) ∧ (n <= bound)%nat ∧ sees w' (set_phase Idle n v).
Proof using AtaLaws0.
  induction l as [|x l IH]; intros w v buf m Hne Hv Hp Hb Hm; [done|].
  destruct (al_inw w v x l Hv Hp Hb) as (w1 & n & E & Hn & H1). cbn [words_in length]. unfold mbind, st_bind at 1, on_ports. cbn [fst snd]. rewrite E.
  unfold st_bind, on_buf. cbn [fst snd].
  rewrite store_bytes_Done; [|intros i Hi; apply Hm; cbn in Hi |- *; lia|apply put16_byte].
  assert (word_bytes (x :: l) = put16 x ++ word_bytes l) as -> by done. rewrite put_at_app. change (Z.of_nat (length (put16 x))) with 2.
  destruct l as [|y l]; [by exists w1, n|].
  destruct (IH w1 (set_phase (Serving (y :: l)) 0 v) (buf + 2) (put_at buf (put16 x) m)) as (w2 & n2 & E2 & Hn2 & H2); [done..| |by exists w2, n2].
  intros i Hi. apply put_at_keeps. replace (buf + 2 + Z.of_nat i) with (buf + Z.of_nat (2 + i)) by lia. apply Hm. cbn [length] in *. lia.
Qed.

(** The driver runs while nothing of the disk changes. *)
Definition same_disk v v' : Prop := v_disk v' = v_disk v ∧ v_bad v' = v_bad v.

(** The sector that a number reaches. *)
Definition reached (s : Z) : Z := s mod 2 ^ 28.

Lemma read_one_Done s buf m w v : sees w v → calm v → 0 <= s → mapped m buf 512 →
  ∃ w' v', read_one io s buf (w, m) =
      Done (if v_bad v (reached s) then (-1, (w', m)) else (0, (w', put_at buf (word_bytes (v_disk v (reached s))) m))) ∧
    sees w' v' ∧ calm v' ∧ same_disk v v'.
Proof using AtaLaws0 Hbound.
  intros Hv Hc Hs Hm. destruct (calm_wait w v Hv Hc) as (w1 & E1 & H1 & Hr1).
  destruct (setup_Done s w1 _ H1 Hr1 Hs) as (w2 & E2 & H2).
  destruct (al_read w2 _ H2 Hr1 (lba_mode _ _)) as (w3 & n3 & E3 & Hn3 & H3). rewrite addressed_lba in H3 by done. fold (reached s) in H3. cbn [with_lba ready set_phase v_disk v_bad] in H3.
  destruct (delay_Done 4 w3 _ H3) as (w4 & E4 & H4).
  destruct (poll_Done (Z.to_nat 1000000) w4 _ H4) as (w5 & E5 & H5).
  { cbn. lia. }
  { cbn. destruct (v_bad v (reached s)); [by right|by left]. }
  unfold read_one. pstep E1. pstep E2. pstep E3. pstep (E4 : ata_io_delay io w3 = _). pstep (E5 : ata_poll_data io w4 = _). cbn [set_phase v_phase]. destruct (v_bad v (reached s)).
  - cbn. eexists w5, _. split; [done|]. split; [exact H5|]. split; [|done]. split; [by right|cbn; lia].
  - rewrite bool_decide_false by done. cbn [negb Z.eqb]. pose proof (al_words w v (reached s) Hv) as [Hlen _].
    destruct (words_in_Done (v_disk v (reached s)) w5 (set_phase (Serving (v_disk v (reached s))) 0 (with_lba s (ready v))) buf m) as (w6 & n6 & E6 & Hn6 & H6); [by intros E; rewrite E in Hlen|exact H5|done|done|by rewrite Hlen|].
    rewrite Hlen in E6. unfold mbind at 1, st_bind at 1. rewrite E6. destruct (delay_Done 4 w6 _ H6) as (w7 & E7 & H7). pstep (E7 : ata_io_delay io w6 = _).
    eexists w7, _. split; [done|]. split; [exact H7|]. split; [|done]. split; [by left|cbn; lia].
Qed.

(** The bytes of a sector. *)
Definition disk_bytes v (s : Z) : list Z := word_bytes (v_disk v (reached s)).

Lemma read_sectors_Done n : ∀ s buf m w v, sees w v → calm v → 0 <= s → mapped m buf (512 * n) →
  ∃ w' v' m', read_sectors n io 512 s buf (w, m) = Done (if existsb (λ i, v_bad v (reached (s + Z.of_nat i))) (seq 0 n) then -1 else 0, (w', m')) ∧
    sees w' v' ∧ calm v' ∧ same_disk v v' ∧
    (existsb (λ i, v_bad v (reached (s + Z.of_nat i))) (seq 0 n) = false → m' = put_at buf (sectors (disk_bytes v) s n) m).
Proof using AtaLaws0 Hbound.
  induction n as [|n IH]; intros s buf m w v Hv Hc Hs Hm.
  { exists w, v, m. by split_and!. }
  destruct (read_one_Done s buf m w v Hv Hc Hs) as (w1 & v1 & E1 & H1 & Hc1 & Hd1); [eapply mapped_le; [exact Hm|lia]|].
  cbn [read_sectors seq existsb sectors]. rewrite Z.add_0_r. unfold mbind, st_bind at 1. rewrite E1.
  destruct (v_bad v (reached s)); cbn [orb].
  { exists w1, v1, m. by split_and!. }
  change (negb (0 =? 0)) with false. cbn iota. pose proof (al_words w v (reached s) Hv) as [Hlen _].
  assert (length (disk_bytes v s) = 512%nat) as Hl by (unfold disk_bytes; rewrite word_bytes_length, Hlen; done).
  destruct (IH (s + 1) (buf + 512) (put_at buf (disk_bytes v s) m) w1 v1 H1 Hc1 ltac:(lia)) as (w2 & v2 & m2 & E2 & H2 & Hc2 & Hd2 & Hm2).
  { apply put_at_mapped. intros i Hi. replace (buf + 512 + Z.of_nat i) with (buf + Z.of_nat (512 + i)) by lia. apply Hm. lia. }
  destruct Hd1 as [Ed Eb], Hd2 as [Ed2 Eb2].
  assert (existsb (λ i, v_bad v1 (reached (s + 1 + Z.of_nat i))) (seq 0 n) = existsb (λ i, v_bad v (reached (s + Z.of_nat i))) (seq 1 n)) as Ex.
  { rewrite Eb, <- seq_shift. generalize (seq 0 n). intros l. induction l as [|i l IHl]; [done|]. cbn [existsb map]. rewrite IHl. do 3 f_equal. lia. }
  exists w2, v2, m2. rewrite <- Ex. split; [exact E2|]. split; [exact H2|]. split; [exact Hc2|]. split; [by split; congruence|].
  intros Hg. rewrite (Hm2 Hg), put_at_app, Hl. unfold disk_bytes. by rewrite Ed.
Qed.

(** ** Writes *)

Lemma word_at m buf x l : bytes_at m buf (word_bytes (x :: l)) → 0 <= x < 2 ^ 16 →
  load_bytes 2 buf m = Done (put16 x) ∧ le16 (put16 x) 0 = x ∧ bytes_at m (buf + 2) (word_bytes l).
Proof.
  intros Hb Hx. assert (word_bytes (x :: l) = put16 x ++ word_bytes l) as E by done. rewrite E in Hb. apply bytes_at_app in Hb as [Hb1 Hb2].
  split; [exact (load_bytes_Done m (put16 x) buf Hb1)|]. split; [apply le16_put16; lia|exact Hb2].
Qed.

Lemma words_out_Done l k : ∀ g w v buf m, l ≠ [] → (length g + length l = 256)%nat → sees w v → v_phase v = Taking k g → v_busy v = 0%nat →
  bytes_at m buf (word_bytes l) → Forall (λ x, 0 <= x < 2 ^ 16) l →
  ∃ w' n, words_out (length l) io buf (w, m) = Done (tt, (w', m)) ∧ (n <= bound)%nat ∧
    sees w' (if v_bad v k then set_phase Failed n v else set_phase Idle n (set_sector k (g ++ l) v)).
Proof using AtaLaws0.
  induction l as [|x l IH]; intros g w v buf m Hne Hlen Hv Hp Hb Hm Hl; [done|]. inversion_clear Hl as [|? ? Hx Hl']. cbn [length] in Hlen.
  destruct (word_at m buf x l Hm Hx) as (E1 & Ex & Hm'). destruct (al_outw w v k g x Hv Hp Hb Hx ltac:(lia)) as (w1 & n & E2 & Hn & H1).
  cbn [words_out length]. unfold mbind at 1, st_bind at 1, of_buf. cbn [fst snd]. rewrite E1, Ex. pstep E2.
  destruct l as [|y l].
  - rewrite bool_decide_true in H1 by (cbn in Hlen; lia). by exists w1, n.
  - rewrite bool_decide_false in H1 by (cbn in Hlen; lia).
    destruct (IH (g ++ [x]) w1 (set_phase (Taking k (g ++ [x])) 0 v) (buf + 2) m) as (w2 & n2 & E3 & Hn2 & H2); [done|rewrite length_app; cbn in *; lia|done..|].
    exists w2, n2. split; [exact E3|]. split; [exact Hn2|]. rewrite <- app_assoc in H2. exact H2.
Qed.

(** What a write of the words [l] makes of the sectors. *)
Definition stored_at v (k : Z) (l : list Z) v' : Prop :=
  v_bad v' = v_bad v ∧ ∀ j, v_disk v' j = if (j =? k) && negb (v_bad v k) then l else v_disk v j.

Lemma rest_calm v : at_rest v → calm v.
Proof. intros [Hp Hb]. split; [done|lia]. Qed.

Lemma write_one_Done s buf m w v l : sees w v → calm v → 0 <= s → length l = 256%nat → Forall (λ x, 0 <= x < 2 ^ 16) l → bytes_at m buf (word_bytes l) →
  ∃ w' v', write_one io s buf (w, m) = Done (0, (w', m)) ∧ sees w' v' ∧ at_rest v' ∧ stored_at v (reached s) l v'.
Proof using AtaLaws0 Hbound.
  intros Hv Hc Hs Hlen Hl Hm. destruct (calm_wait w v Hv Hc) as (w1 & E1 & H1 & Hr1). destruct (setup_Done s w1 _ H1 Hr1 Hs) as (w2 & E2 & H2).
  destruct (al_write w2 _ H2 Hr1 (lba_mode _ _)) as (w3 & n3 & E3 & Hn3 & H3). rewrite addressed_lba in H3 by done. fold (reached s) in H3.
  set (v0 := with_lba s (ready v)) in *. destruct (delay_Done 4 w3 _ H3) as (w4 & E4 & H4). 
  destruct (poll_Done (Z.to_nat 1000000) w4 _ H4) as (w5 & E5 & H5); [cbn; lia|by left|].
  assert (sees w5 (set_phase (Taking (reached s) []) 0 v0)) as H5' by exact H5.
  destruct (words_out_Done l (reached s) [] w5 (set_phase (Taking (reached s) []) 0 v0) buf m) as (w6 & n6 & E6 & Hn6 & H6); [by intros ->|cbn; lia|done..|].
  set (v6 := if v_bad _ _ then _ else _) in H6.
  assert (v_busy v6 = n6 ∧ (v_phase v6 = Idle ∨ v_phase v6 = Failed) ∧ stored_at v (reached s) l v6) as (Hb6 & Hp6 & Hd6).
  { unfold v6, stored_at. cbn. destruct (v_bad v (reached s)); cbn; [split_and!; [done|by right|done|intros j; by rewrite andb_false_r]|].
    split_and!; [done|by left|done|]. intros j. by rewrite andb_true_r. }
  destruct (delay_Done 4 w6 v6 H6) as (w7 & E7 & H7). destruct (ata_wait_Done w7 _ H7) as (w8 & E8 & H8); [cbn; lia|].
  exists w8, (set_phase (v_phase v6) 0 v6). split; [|split; [exact H8|split; [split; [exact Hp6|done]|exact Hd6]]].
  unfold write_one. pstep E1. pstep E2. pstep E3. pstep (E4 : ata_io_delay io w3 = _). pstep (E5 : ata_poll_data io w4 = _).
  cbn [set_phase v_phase bool_decide decide_rel negb Z.eqb]. rewrite Hlen in E6. unfold mbind at 1, st_bind at 1. rewrite E6.
  pstep (E7 : ata_io_delay io w6 = _). by pstep E8.
Qed.

Definition sector_words (l : list Z) : Prop := length l = 256%nat ∧ Forall (λ x, 0 <= x < 2 ^ 16) l.

(** The sectors [ls] written from [s] on; a bad one keeps what it had. *)
Definition written v (s : Z) (ls : list (list Z)) (j : Z) : list Z :=
  if (s <=? j) && negb (v_bad v j) then default (v_disk v j) (ls !! Z.to_nat (j - s)) else v_disk v j.

Lemma write_sectors_Done ls : ∀ s buf m w v, sees w v → calm v → 0 <= s → s + Z.of_nat (length ls) <= 2 ^ 28 → Forall sector_words ls →
  bytes_at m buf (concat (word_bytes <$> ls)) →
  ∃ w' v', write_sectors (length ls) io 512 s buf (w, m) = Done (0, (w', m)) ∧ sees w' v' ∧ calm v' ∧ (at_rest v ∨ ls ≠ [] → at_rest v') ∧ v_bad v' = v_bad v ∧
    ∀ j, v_disk v' j = written v s ls j.
Proof using AtaLaws0 Hbound.
  induction ls as [|l ls IH]; intros s buf m w v Hv Hc Hs Hlim Hls Hm.
  { exists w, v. split; [done|]. split; [done|]. split; [done|]. split; [by intros [?|?]|]. split; [done|]. intros j. unfold written. rewrite lookup_nil. cbn. by case_match. }
  inversion_clear Hls as [|? ? [Hlen Hl] Hls']. cbn [length] in Hlim. rewrite fmap_cons in Hm. cbn [concat] in Hm. apply bytes_at_app in Hm as [Hm1 Hm2].
  rewrite word_bytes_length, Hlen in Hm2.
  destruct (write_one_Done s buf m w v l Hv Hc Hs Hlen Hl Hm1) as (w1 & v1 & E1 & H1 & Hr1 & [Hb1 Hd1]).
  destruct (IH (s + 1) (buf + 512) m w1 v1 H1 (rest_calm _ Hr1) ltac:(lia) ltac:(lia) Hls' Hm2) as (w2 & v2 & E2 & H2 & Hc2 & Hr2 & Hb2 & Hd2).
  exists w2, v2. split; [cbn [write_sectors length]; unfold mbind, st_bind; rewrite E1; exact E2|]. split; [exact H2|]. split; [exact Hc2|].
  split; [intros _; apply Hr2; by left|].
  split; [congruence|]. intros j. rewrite Hd2. unfold written. rewrite Hb1, Hd1. unfold reached. rewrite (Z.mod_small s) by lia.
  destruct (Z.eqb_spec j s) as [->|Hne]; cbn [andb].
  - rewrite (proj2 (Z.leb_gt (s + 1) s)), Z.leb_refl, Z.sub_diag by lia. cbn. by destruct (v_bad v s).
  - destruct (Z.leb_spec s j) as [Hle|Hlt].
    + rewrite (proj2 (Z.leb_le (s + 1) j)) by lia. cbn [andb]. destruct (v_bad v j); [done|]. cbn [negb]. f_equal.
      replace (Z.to_nat (j - s)) with (Datatypes.S (Z.to_nat (j - (s + 1)))) by lia. done.
    + by rewrite (proj2 (Z.leb_gt (s + 1) j)) by lia.
Qed.

(** ** Words of bytes *)

Fixpoint words_of (l : list Z) : list Z := match l with a :: b :: l => (a + 256 * b) :: words_of l | _ => [] end.

Lemma words_of_bytes n : ∀ l, length l = (2 * n)%nat → Forall byte l → word_bytes (words_of l) = l ∧ length (words_of l) = n ∧ Forall (λ x, 0 <= x < 2 ^ 16) (words_of l).
Proof.
  induction n as [|n IH]; intros l Hl Hb; [by destruct l|]. destruct l as [|a [|b l]]; [cbn in Hl; lia..|].
  inversion_clear Hb as [|? ? Ha Hb']. inversion_clear Hb' as [|? ? Hb Hb'']. destruct (IH l ltac:(cbn in Hl; lia) Hb'') as (E & El & Hw). unfold byte in *. cbn [words_of].
  assert (word_bytes ((a + 256 * b) :: words_of l) = put16 (a + 256 * b) ++ word_bytes (words_of l)) as -> by done. rewrite E. split_and!; [|cbn; lia|constructor; [lia|done]].
  unfold put16. cbn [app]. f_equal; [|f_equal]; Z.to_euclidean_division_equations; lia.
Qed.

(** The sectors of a buffer. *)
Definition chop (n : nat) (dat : list Z) : list (list Z) := (λ i, words_of (slice (512 * Z.of_nat i) 512 dat)) <$> seq 0 n.

Lemma slice_length dat i n : length dat = (512 * n)%nat → (i < n)%nat → length (slice (512 * Z.of_nat i) 512 dat) = 512%nat.
Proof. intros Hl Hi. unfold slice. rewrite length_take, length_drop. lia. Qed.

Lemma chop_spec n : ∀ dat, length dat = (512 * n)%nat → Forall byte dat → concat (word_bytes <$> chop n dat) = dat ∧ Forall sector_words (chop n dat) ∧ length (chop n dat) = n.
Proof.
  intros dat Hl Hb. unfold chop. rewrite length_fmap, length_seq. split; [|split; [|done]].
  - assert (∀ i k, (i + k <= n)%nat → concat (word_bytes <$> ((λ i, words_of (slice (512 * Z.of_nat i) 512 dat)) <$> seq i k)) = take (512 * k) (drop (512 * i) dat)) as H.
    { intros i k. revert i. induction k as [|k IH]; intros i Hi; [by rewrite Nat.mul_0_r|]. cbn [seq]. rewrite !fmap_cons. cbn [concat].
      rewrite IH by lia. destruct (words_of_bytes 256 (slice (512 * Z.of_nat i) 512 dat)) as [-> _]; [apply (slice_length dat i n); lia|by apply slice_byte|].
      unfold slice. replace (Z.to_nat (512 * Z.of_nat i)) with (512 * i)%nat by lia. change (Z.to_nat 512) with 512%nat.
      replace (512 * S i)%nat with (512 * i + 512)%nat by lia. rewrite <- drop_drop, take_take_drop. f_equal. lia. }
    rewrite (H 0%nat n) by lia. rewrite Nat.mul_0_r, drop_0. apply take_ge. lia.
  - apply Forall_forall. intros l (i & -> & Hi)%list_elem_of_fmap. apply elem_of_seq in Hi.
    destruct (words_of_bytes 256 (slice (512 * Z.of_nat i) 512 dat)) as (_ & ? & ?); [apply (slice_length dat i n); lia|by apply slice_byte|]. by split.
Qed.

(** ** Whole transfers *)

Lemma turns_small s n : 0 <= s → s + Z.of_nat n <= 2 ^ 28 → turns s (Z.of_nat n) = n.
Proof. intros Hs Hn. unfold turns, u64. rewrite Z.mod_small by lia. lia. Qed.

(** A driver structure for the registers at [io], with the sectors of 512 bytes that the transfers move. *)
Definition drives (dev : ata_device) : Prop := io_base dev = io ∧ ata_sector_size dev = 512.

Definition bad_in v (s : Z) (n : nat) : bool := existsb (λ i, v_bad v (reached (s + Z.of_nat i))) (seq 0 n).

Lemma block_read_Done dev s n buf m w v : drives dev → sees w v → calm v → 0 <= s → s + Z.of_nat n <= 2 ^ 28 → mapped m buf (512 * n) →
  ∃ w' v' m', block_read dev s buf (Z.of_nat n) (w, m) = Done (if bad_in v s n then -1 else 0, (w', m')) ∧ sees w' v' ∧ calm v' ∧
    same_disk v v' ∧ (bad_in v s n = false → m' = put_at buf (sectors (disk_bytes v) s n) m).
Proof using AtaLaws0 Hbound.
  intros [Eio Esz] Hv Hc Hs Hn Hm. unfold block_read. rewrite Eio, Esz, turns_small by done. by apply read_sectors_Done.
Qed.

Lemma block_write_Done dev s n dat buf m w v : drives dev → sees w v → calm v → (0 < n)%nat → 0 <= s → s + Z.of_nat n <= 2 ^ 28 →
  length dat = (512 * n)%nat → Forall byte dat → bytes_at m buf dat →
  ∃ w' v', block_write dev s buf (Z.of_nat n) (w, m) = Done (0, (w', m)) ∧ sees w' v' ∧ calm v' ∧ v_bad v' = v_bad v ∧
    ∀ j, v_disk v' j = written v s (chop n dat) j.
Proof using AtaLaws0 Hbound.
  intros [Eio Esz] Hv Hc Hn0 Hs Hn Hl Hb Hm. destruct (chop_spec n dat Hl Hb) as (Ec & Hw & Hlen).
  destruct (write_sectors_Done (chop n dat) s buf m w v Hv Hc Hs) as (w1 & v1 & E1 & H1 & _ & Hr1 & Hb1 & Hd1); [by rewrite Hlen|done|by rewrite Ec|].
  specialize (Hr1 ltac:(right; intros E; rewrite E in Hlen; cbn in Hlen; lia)).
  unfold block_write. rewrite Eio, Esz, turns_small by done. rewrite Hlen in E1. unfold mbind at 1, st_bind at 1. rewrite E1. cbn [negb Z.eqb].
  destruct (al_flush w1 v1 H1 Hr1) as (w2 & k & E2 & Hk & H2). destruct (ata_wait_Done w2 _ H2) as (w3 & E3 & H3); [cbn; lia|].
  exists w3, (set_phase Idle 0 v1). split; [pstep E2; by pstep E3|]. split; [exact H3|]. split; [split; [by left|cbn; lia]|]. done.
Qed.

Lemma sectors_words ls : ∀ f s, (∀ i l, ls !! i = Some l → f (s + Z.of_nat i) = word_bytes l) → sectors f s (length ls) = concat (word_bytes <$> ls).
Proof.
  induction ls as [|l ls IH]; intros f s H; [done|]. cbn [length sectors]. rewrite fmap_cons. cbn [concat]. f_equal.
  - rewrite <- (H 0%nat l) by done. f_equal. lia.
  - apply IH. intros i l' Hi. rewrite <- (H (S i) l') by done. f_equal. lia.
Qed.

Lemma bad_in_false v s n : 0 <= s → s + Z.of_nat n <= 2 ^ 28 → (∀ j, s <= j < s + Z.of_nat n → v_bad v j = false) → bad_in v s n = false.
Proof.
  intros Hs Hn Hg. apply not_true_iff_false. intros (i & Hi%in_seq & Hb)%existsb_exists. unfold reached in Hb.
  rewrite Z.mod_small, Hg in Hb by lia. done.
Qed.

(** C33: what [block_write] writes to sectors that are good, [block_read] reads back: both return 0, the buffer
    receives the bytes written, no other sector changes, and the device is left calm. The transfers end although the
    device may be busy after each command for up to [bound] reads of its status. *)
Theorem ata_write_read dev s n src dst dat m w v : drives dev → sees w v → calm v → (0 < n)%nat → 0 <= s → s + Z.of_nat n <= 2 ^ 28 →
  (∀ j, s <= j < s + Z.of_nat n → v_bad v j = false) → length dat = (512 * n)%nat → Forall byte dat → bytes_at m src dat → mapped m dst (512 * n) →
  ∃ w1 w2 v2, block_write dev s src (Z.of_nat n) (w, m) = Done (0, (w1, m)) ∧
    block_read dev s dst (Z.of_nat n) (w1, m) = Done (0, (w2, put_at dst dat m)) ∧
    sees w2 v2 ∧ calm v2 ∧ ∀ j, j < s ∨ s + Z.of_nat n <= j → v_disk v2 j = v_disk v j.
Proof using AtaLaws0 Hbound.
  intros Hd Hv Hc Hn Hs Hlim Hg Hl Hb Hsrc Hdst.
  destruct (block_write_Done dev s n dat src m w v Hd Hv Hc Hn Hs Hlim Hl Hb Hsrc) as (w1 & v1 & E1 & H1 & Hc1 & Hb1 & Hd1).
  destruct (block_read_Done dev s n dst m w1 v1 Hd H1 Hc1 Hs Hlim Hdst) as (w2 & v2 & m2 & E2 & H2 & Hc2 & [Ed2 _] & Em2).
  assert (bad_in v1 s n = false) as Hgood by (apply bad_in_false; [done..|by rewrite Hb1]). rewrite Hgood in E2. specialize (Em2 Hgood).
  destruct (chop_spec n dat Hl Hb) as (Ec & _ & Hlen).
  exists w1, w2, v2. split; [exact E1|]. split; [rewrite E2, Em2|split; [exact H2|split; [exact Hc2|]]].
  - do 4 f_equal. rewrite <- Ec, <- Hlen at 1. apply sectors_words. intros i l Hi. pose proof (lookup_lt_Some _ _ _ Hi). unfold disk_bytes, reached.
    rewrite Z.mod_small by lia. f_equal. rewrite Hd1. unfold written. rewrite Hg, (proj2 (Z.leb_le s _)) by lia. cbn.
    replace (Z.to_nat (s + Z.of_nat i - s)) with i by lia. by rewrite Hi.
  - intros j Hj. rewrite Ed2, Hd1. unfold written. destruct (Z.leb_spec s j); [|done]. cbn. destruct (v_bad v j); [done|]. cbn.
    rewrite (lookup_ge_None_2 _ _) by lia. done.
Qed.

(** C34: on a bad sector [block_read] fails with -1 and changes neither memory nor the disk, while [block_write] reports
    success, 0, although the sector keeps what it held: only the busy bit is looked at after the data. *)
Theorem ata_bad_sector dev s src dst dat m w v : drives dev → sees w v → calm v → 0 <= s < 2 ^ 28 → v_bad v s = true →
  length dat = 512%nat → Forall byte dat → bytes_at m src dat → mapped m dst 512 →
  (∃ w' v', block_read dev s dst 1 (w, m) = Done (-1, (w', m)) ∧ sees w' v' ∧ same_disk v v') ∧
  (∃ w' v', block_write dev s src 1 (w, m) = Done (0, (w', m)) ∧ sees w' v' ∧ ∀ j, v_disk v' j = v_disk v j).
Proof using AtaLaws0 Hbound.
  intros Hd Hv Hc Hs Hbad Hl Hb Hsrc Hdst. split.
  - destruct Hd as [Eio Esz]. destruct (read_one_Done s dst m w v Hv Hc ltac:(lia) Hdst) as (w1 & v1 & E1 & H1 & _ & H1d).
    unfold reached in E1. rewrite Z.mod_small, Hbad in E1 by lia. exists w1, v1. split; [|done]. unfold block_read.
    rewrite Eio, Esz. rewrite (turns_small s 1 : _ → _ → turns s 1 = 1%nat) by lia. cbn [read_sectors]. unfold mbind, st_bind. by rewrite E1.
  - destruct (block_write_Done dev s 1 dat src m w v) as (w1 & v1 & E1 & H1 & _ & _ & Hd1); try done; [lia..|].
    exists w1, v1. split; [exact E1|]. split; [done|]. intros j. rewrite Hd1. unfold written. destruct (Z.leb_spec s j); [|done]. cbn.
    destruct (decide (j = s)) as [->|Hne]; [by rewrite Hbad|]. destruct (v_bad v j); [done|]. cbn [negb].
    by rewrite lookup_ge_None_2 by (cbn; lia).
Qed.

(** A device that stays busy for the 100000 reads of its status ends both transfers: they return -1, no command is
    sent and nothing of memory or of the disk changes. *)
Theorem ata_stuck dev s n buf m w v : io_base dev = io → sees w v → (Z.to_nat 100000 <= v_busy v)%nat → 0 <= s → 0 < n → s + n < 2 ^ 64 →
  ∃ w', block_read dev s buf n (w, m) = Done (-1, (w', m)) ∧ block_write dev s buf n (w, m) = Done (-1, (w', m)) ∧
    sees w' (set_phase (v_phase v) (v_busy v - Z.to_nat 100000) v).
Proof using AtaLaws0.
  intros Eio Hv Hb Hs Hn Hlim. destruct (wait_bsy (Z.to_nat 100000) w v Hv) as (w' & E & H). rewrite bool_decide_false in E by lia.
  exists w'. unfold block_read, block_write. rewrite Eio. assert (turns s n = S (Z.to_nat (n - 1))) as ->.
  { unfold turns, u64. rewrite Z.mod_small by lia. lia. }
  cbn [read_sectors write_sectors]. unfold read_one, write_one, mbind, st_bind. rewrite !(on_ports_Done _ _ _ _ _ (E : ata_wait io ATA_SR_BSY false w = _)).
  by split_and!.
Qed.
End transfers.
