(* ===== verification/AtaDisk.v ===== *)
(** * A disk that follows the PIO protocol

    An executable device with 512-byte sectors on the registers of one bus: it obeys the laws that Ata.v asks of a
    device, so that the theorems on the driver apply to its runs. Each command keeps it busy for three reads of the status. *)

From S2P Require Import Prelude CString Bytes BlkDev SysMem Ports Ata.

Local Open Scope Z_scope.

Record chip := Chip {
  c_sectors : gmap Z (list Z);
  c_bad : list Z;
  c_drive : Z; c_lba0 : Z; c_lba1 : Z; c_lba2 : Z;
  c_phase : phase;
  c_busy : nat
}.

Definition c_words (c : chip) (k : Z) : list Z := default (replicate 256 0) (c_sectors c !! k).

Definition view_of (c : chip) : view :=
  View (c_words c) (λ k, bool_decide (k ∈ c_bad c)) (c_drive c) (c_lba0 c) (c_lba1 c) (c_lba2 c) (c_phase c) (c_busy c).

Definition go (p : phase) (n : nat) (c : chip) : chip :=
  Chip (c_sectors c) (c_bad c) (c_drive c) (c_lba0 c) (c_lba1 c) (c_lba2 c) p n.

Definition keep (k : Z) (l : list Z) (c : chip) : chip :=
  Chip (<[k := l]> (c_sectors c)) (c_bad c) (c_drive c) (c_lba0 c) (c_lba1 c) (c_lba2 c) (c_phase c) (c_busy c).

Definition work : nat := 3.

Definition c_status (c : chip) : Z :=
  if bool_decide (c_busy c = 0%nat) then
    match c_phase c with Idle => 0x50 | Failed => 0x51 | Serving _ | Taking _ _ => 0x58 end
  else 0xD0.

Definition c_reg (r x : Z) (c : chip) : chip :=
  let set d l0 l1 l2 := Chip (c_sectors c) (c_bad c) d l0 l1 l2 (c_phase c) (c_busy c) in
  if r =? ATA_REG_LBA0 then set (c_drive c) x (c_lba1 c) (c_lba2 c)
  else if r =? ATA_REG_LBA1 then set (c_drive c) (c_lba0 c) x (c_lba2 c)
  else if r =? ATA_REG_LBA2 then set (c_drive c) (c_lba0 c) (c_lba1 c) x
  else if r =? ATA_REG_DRIVE then set x (c_lba0 c) (c_lba1 c) (c_lba2 c) else c.

Definition c_command (x : Z) (c : chip) : chip :=
  let k := addressed (view_of c) in
  if x =? ATA_CMD_READ_SECT then go (if bool_decide (k ∈ c_bad c) then Failed else Serving (c_words c k)) work c
  else if x =? ATA_CMD_WRITE_SECT then go (Taking k []) work c
  else go Idle work c.

Definition c_give (c : chip) : Z * chip :=
  match c_phase c with
  | Serving [x] => (x, go Idle work c)
  | Serving (x :: l) => (x, go (Serving l) 0 c)
  | _ => (0, c)
  end.

Definition c_take (x : Z) (c : chip) : chip :=
  match c_phase c with
  | Taking k l =>
      if bool_decide (length l = 255%nat)
      then if bool_decide (k ∈ c_bad c) then go Failed work c else go Idle work (keep k (l ++ [x]) c)
      else go (Taking k (l ++ [x])) 0 c
  | _ => c
  end.

(** The registers of the primary bus; a write elsewhere does nothing, a read there gives 0. *)
#[export] Instance chip_ports : ports chip := {
  inb p := λ c, if p =? ATA_PRIMARY_BASE + ATA_REG_STATUS then Done (c_status c, go (c_phase c) (pred (c_busy c)) c) else Done (0, c);
  inw p := λ c, if p =? ATA_PRIMARY_BASE + ATA_REG_DATA then Done (c_give c) else Done (0, c);
  outb p x := λ c, Done (tt,
    if p =? ATA_PRIMARY_BASE + ATA_REG_COMMAND then c_command x c
    else if (ATA_PRIMARY_BASE <=? p) && (p <? ATA_PRIMARY_BASE + ATA_REG_COMMAND) then c_reg (p - ATA_PRIMARY_BASE) x c else c);
  outw p x := λ c, Done (tt, if p =? ATA_PRIMARY_BASE + ATA_REG_DATA then c_take x c else c)
}.

(** The sectors hold 256 words, so do the ones being transferred. *)
Definition c_ok (c : chip) : Prop :=
  (∀ k l, c_sectors c !! k = Some l → sector_words l) ∧
  match c_phase c with Taking _ l => Forall (λ x, 0 <= x < 2 ^ 16) l | _ => True end.

(** The view of a chip, up to the equality of functions. *)
Record shows (c : chip) (v : view) : Prop := {
  sh_ok : c_ok c;
  sh_disk k : v_disk v k = c_words c k;
  sh_bad k : v_bad v k = bool_decide (k ∈ c_bad c);
  sh_regs : (v_drive v, v_lba0 v, v_lba1 v, v_lba2 v) = (c_drive c, c_lba0 c, c_lba1 c, c_lba2 c);
  sh_phase : v_phase v = c_phase c;
  sh_busy : v_busy v = c_busy c
}.

Lemma shows_addressed c v : shows c v → addressed (view_of c) = addressed v.
Proof. intros [_ _ _ E _ _]. unfold addressed. cbn. by injection E as -> -> -> ->. Qed.

Lemma c_words_ok c k : c_ok c → sector_words (c_words c k).
Proof.
  intros [H _]. unfold c_words. destruct (c_sectors c !! k) eqn:E; [by eapply H|]. split; [apply length_replicate|].
  apply Forall_replicate. lia.
Qed.

Lemma go_shows c v p n : shows c v → match p with Taking _ l => Forall (λ x, 0 <= x < 2 ^ 16) l | _ => True end →
  shows (go p n c) (set_phase p n v).
Proof. intros [[Hk Hp] Hd Hb Hr _ _] Hw. split; try done. Qed.

Lemma keep_shows c v k l : shows c v → sector_words l → shows (keep k l c) (set_sector k l v).
Proof.
  intros [[Hk Hp] Hd Hb Hr Eph Ebu] Hl. split; try done.
  - split; [|exact Hp]. cbn [keep c_sectors]. intros j l' [[<- <-]|[_ Hj]]%lookup_insert_Some; [done|by eapply Hk].
  - intros j. unfold c_words. cbn. destruct (Z.eqb_spec j k) as [->|Hne]; [by rewrite lookup_insert_eq|].
    rewrite lookup_insert_ne by congruence. apply Hd.
Qed.

Lemma reg_shows c v r x : shows c v → shows (c_reg r x c) (set_reg r x v).
Proof.
  intros [Hok Hd Hb Hr Eph Ebu]. injection Hr as E1 E2 E3 E4. unfold c_reg, set_reg.
  destruct (r =? ATA_REG_LBA0), (r =? ATA_REG_LBA1), (r =? ATA_REG_LBA2), (r =? ATA_REG_DRIVE);
    (split; [exact Hok|exact Hd|exact Hb|cbn; congruence|exact Eph|exact Ebu]).
Qed.

#[export] Program Instance chip_laws : AtaLaws chip ATA_PRIMARY_BASE work := { sees := shows }.
Next Obligation. intros. eexists. split; [reflexivity|done]. Qed.
Next Obligation.
  intros c v Hv. eexists _, _. split; [reflexivity|]. destruct (Hv) as [_ _ _ _ Ep Eb]. split.
  - unfold status_of, c_status. rewrite Ep, Eb. case_bool_decide; [|done]. by destruct (c_phase c).
  - unfold settled. rewrite Ep, Eb. apply go_shows; [done|]. apply Hv.
Qed.
Next Obligation.
  intros c v r x Hv _ Hr _. exists (c_reg r x c). split; [|by apply reg_shows].
  repeat (apply elem_of_cons in Hr as [->|Hr]; [reflexivity|]). by apply not_elem_of_nil in Hr.
Qed.
Next Obligation.
  intros c v Hv _ _. eexists _, work. split; [reflexivity|]. split; [done|]. change (c_command ATA_CMD_READ_SECT c) with
    (go (if bool_decide (addressed (view_of c) ∈ c_bad c) then Failed else Serving (c_words c (addressed (view_of c)))) work c).
  rewrite (shows_addressed c v Hv), (sh_bad c v Hv), (sh_disk c v Hv). apply go_shows; [done|]. by destruct (bool_decide _).
Qed.
Next Obligation.
  intros c v x l Hv Hp Hb. rewrite (sh_phase c v Hv) in Hp. exists (snd (c_give c)), work.
  assert (fst (c_give c) = x ∧ snd (c_give c) = go (match l with [] => Idle | _ => Serving l end) (match l with [] => work | _ => 0%nat end) c) as [E1 E2].
  { unfold c_give. rewrite Hp. by destruct l. }
  split; [|split; [done|]]; [|rewrite E2; apply go_shows; [done|by destruct l]]. rewrite <- E1. cbn. by destruct (c_give c).
Qed.
Next Obligation.
  intros c v Hv _ _. eexists _, work. split; [reflexivity|]. split; [done|]. rewrite <- (shows_addressed c v Hv). by apply go_shows.
Qed.
Next Obligation.
  intros c v k l x Hv Hp Hb Hx Hl. exists (c_take x c), work. split; [done|]. split; [done|]. rewrite (sh_phase c v Hv) in Hp.
  assert (Forall (λ x, 0 <= x < 2 ^ 16) (l ++ [x])) as Hw.
  { apply Forall_app. split; [|by apply Forall_singleton]. pose proof (sh_ok c v Hv) as [_ H]. by rewrite Hp in H. }
  unfold c_take. rewrite Hp, (sh_bad c v Hv). case_bool_decide; [case_bool_decide|]; apply go_shows; try done. apply keep_shows; [done|].
  split; [rewrite length_app; cbn; lia|done].
Qed.
Next Obligation. intros c v Hv _. eexists _, work. split; [reflexivity|]. split; [done|]. by apply go_shows. Qed.
Next Obligation. intros c v k Hv. rewrite (sh_disk c v Hv). by apply c_words_ok, Hv. Qed.

(** ** Runs *)

(** A disk of zeros whose sector 7 is bad, at rest, or busy for [n] reads. *)
Definition fresh (n : nat) : chip := Chip ∅ [7] 0 0 0 0 Idle n.
Definition ata0 : ata_device := AtaDevice 0 ATA_PRIMARY_BASE ATA_PRIMARY_CTRL 1 [] 0 0 0 512 64 32768.

Lemma fresh_shows n : shows (fresh n) (view_of (fresh n)).
Proof. by split. Qed.

Definition two_sectors : list Z := replicate 512 65 ++ replicate 512 66.
Definition buffers_at (l : list Z) : mem := put_at 1000 l (demo_mem 5000 (replicate (length l) 0)).

Lemma buffers_mapped l : mapped (buffers_at l) 5000 (length l).
Proof. apply put_at_mapped. rewrite <- (length_replicate (length l) 0) at 2. apply bytes_at_mapped, demo_bytes. Qed.

Lemma two_sectors_bytes : Forall byte two_sectors.
Proof. apply Forall_app. split; apply Forall_replicate; unfold byte; lia. Qed.

Lemma ata_write_read_witness : ∃ w1 w2 v2, block_write ata0 4 1000 2 (fresh 0, buffers_at two_sectors) = Done (0, (w1, buffers_at two_sectors)) ∧
  block_read ata0 4 5000 2 (w1, buffers_at two_sectors) = Done (0, (w2, put_at 5000 two_sectors (buffers_at two_sectors))) ∧
  sees w2 v2 ∧ calm work v2 ∧ ∀ j, j < 4 ∨ 4 + 2 <= j → v_disk v2 j = v_disk (view_of (fresh 0)) j.
Proof.
  apply (ata_write_read ATA_PRIMARY_BASE work ltac:(done) ata0 4 2 1000 5000 two_sectors (buffers_at two_sectors) (fresh 0) (view_of (fresh 0))).
  - done.
  - apply fresh_shows.
  - split; [by left|cbn; lia].
  - lia.
  - lia.
  - lia.
  - intros j Hj. cbn. rewrite bool_decide_false; [done|]. rewrite list_elem_of_singleton. lia.
  - done.
  - apply two_sectors_bytes.
  - apply put_at_in.
  - apply buffers_mapped.
Defined.

Lemma ata_bad_sector_witness :
  (∃ w' v', block_read ata0 7 5000 1 (fresh 0, buffers_at (replicate 512 65)) = Done (-1, (w', buffers_at (replicate 512 65))) ∧ sees w' v' ∧
    same_disk (view_of (fresh 0)) v') ∧
  (∃ w' v', block_write ata0 7 1000 1 (fresh 0, buffers_at (replicate 512 65)) = Done (0, (w', buffers_at (replicate 512 65))) ∧ sees w' v' ∧
    ∀ j, v_disk v' j = v_disk (view_of (fresh 0)) j).
Proof.
  apply (ata_bad_sector ATA_PRIMARY_BASE work ltac:(done) ata0 7 1000 5000 (replicate 512 65) (buffers_at (replicate 512 65)) (fresh 0) (view_of (fresh 0))).
  - done.
  - apply fresh_shows.
  - split; [by left|cbn; lia].
  - lia.
  - done.
  - done.
  - apply Forall_replicate. unfold byte. lia.
  - apply put_at_in.
  - apply buffers_mapped.
Defined.

Lemma ata_stuck_witness : ∃ w', block_read ata0 4 5000 2 (fresh (Z.to_nat 200000), ∅) = Done (-1, (w', ∅)) ∧
  block_write ata0 4 5000 2 (fresh (Z.to_nat 200000), ∅) = Done (-1, (w', ∅)) ∧
  sees w' (set_phase Idle (Z.to_nat 200000 - Z.to_nat 100000) (view_of (fresh (Z.to_nat 200000)))).
Proof.
  apply (ata_stuck ATA_PRIMARY_BASE work ata0 4 2 5000 ∅ (fresh (Z.to_nat 200000)) (view_of (fresh (Z.to_nat 200000)))); [done|apply fresh_shows|cbn [v_busy view_of fresh c_busy]; lia|lia..].
Defined.
