(* ===== verification/Boot.v ===== *)
(** * The boot loader (boot/main.c)

    The loader is a UEFI program. The firmware is an interface: memory, the file with the kernel, blocks of pages, the map of
    the memory and the end of the boot services. The structure that the kernel is handed is the record of
    EarlyAlloc; a call of [die] is the outcome [Panic]. *)

From S2P Require Import Prelude Helpers EarlyAlloc CString Bytes Task Kernel Loader SysMem Ports.

Local Open Scope Z_scope.

Definition SCRATCH_PAGES : Z := 32.
Definition KALIGN : Z := 0x200000.
Definition EFI_PAGE_SIZE : Z := 4096.
Definition KERNEL_PATH : list Z := chars "kernel.elf".
Definition KERNEL_CMDLINE : list Z := chars "root=ata0p0".

Definition BI_RESERVED : Z := 2.
Definition BI_ACPI_RECLAIM : Z := 3.
Definition BI_ACPI_NVS : Z := 4.
Definition BI_LOADER : Z := 5.
Definition BI_BAD : Z := 6.
Definition BI_FB_BGRX : Z := 1.
Definition BI_FB_RGBX : Z := 2.

Definition EFI_BUFFER_TOO_SMALL : Z := 2 ^ 63 + 5.
Definition EFI_ERROR (s : Z) : bool := i64 s <? 0.
Definition EFI_FILE_MODE_READ : Z := 1.
Definition PixelRedGreenBlueReserved8BitPerColor : Z := 0.

(** The memory types of the firmware that the loader tells apart. *)
Definition EfiLoaderCode : Z := 1.
Definition EfiLoaderData : Z := 2.
Definition EfiBootServicesCode : Z := 3.
Definition EfiBootServicesData : Z := 4.
Definition EfiConventionalMemory : Z := 7.
Definition EfiUnusableMemory : Z := 8.
Definition EfiACPIReclaimMemory : Z := 9.
Definition EfiACPIMemoryNVS : Z := 10.

(** The mode of the graphics output. *)
Record gop_mode := GopMode {
  FrameBufferBase : Z; FrameBufferSize : Z;
  HorizontalResolution : Z; VerticalResolution : Z; PixelFormat : Z; PixelsPerScanLine : Z
}.

(** What [GetMemoryMap] gives: the size of the map, its bytes, its key and the size of a descriptor. *)
Record efi_map := EfiMap { map_size : Z; map_data : list Z; map_key : Z; desc_size : Z }.

(** The result of a call, or the status that says why it failed. *)
Notation efi_result A := (Z + A)%type.

(** [GetMemoryMap], for a buffer of a size, and [ExitBootServices] give their status. The image is given by its handle. *)
Class firmware (W : Type) := Firmware {
  fmem : W → mem;
  set_fmem : mem → W → W;
  ClearScreen : st W unit;
  OutputString : list Z → st W unit;
  LoadedImageDevice : Z → st W (efi_result Z);
  SimpleFileSystem : Z → st W (efi_result Z);
  OpenVolume : Z → st W (efi_result Z);
  Open : Z → list Z → Z → st W (efi_result Z);
  GetInfo : Z → st W (efi_result Z);
  Read : Z → Z → st W (efi_result (list Z));
  Close : Z → st W unit;
  AllocatePool : Z → st W (efi_result Z);
  FreePool : Z → st W unit;
  AllocatePages : Z → st W (efi_result Z);
  LocateGop : st W (option gop_mode);
  GetMemoryMap : Z → st W (Z * efi_map);
  ExitBootServices : Z → st W Z
}.

(** ** Helpers *)

Definition hex_digit (v : Z) : Z := if v <? 10 then 48 + v else 55 + v.

Definition hex_text (v : Z) : list Z :=
  chars "0x" ++ ((λ i, hex_digit (Z.land (Z.shiftr v ((15 - Z.of_nat i) * 4)) 0xF)) <$> seq 0 16).

Fixpoint mem_set (n : nat) (d c : Z) (m : mem) : run mem :=
  match n with O => Done m | S n => m ← stb d c m; mem_set n (d + 1) c m end.

(** The bytes come from the buffer of the file. *)
Fixpoint mem_cpy (d : Z) (s : list Z) (m : mem) : run mem :=
  match s with [] => Done m | c :: s => m ← stb d c m; mem_cpy (d + 1) s m end.

(** [for (; s[i] && i + 1 < max; i++) d[i] = s[i];], with [n] places left before that of the terminator. *)
Fixpoint str_loop (n : nat) (s : list Z) : list Z :=
  match n, s with S n, c :: s => if c =? 0 then [] else c :: str_loop n s | _, _ => [] end.

Definition str_copy (s : list Z) (max : Z) : list Z := str_loop (Z.to_nat (max - 1)) s.

(** ** The kernel image *)

Record Elf64_Ehdr := BootEhdr { bh_ident : list Z; bh_entry : Z; bh_phoff : Z; bh_phentsize : Z; bh_phnum : Z }.

Definition header_of (l : list Z) : Elf64_Ehdr := BootEhdr (take 16 l) (le64 l 24) (le64 l 32) (le16 l 54) (le16 l 56).
Definition Elf64_Phdr (l : list Z) : elf64_phdr := Phdr (le32 l 0) (le64 l 8) (le64 l 16) (le64 l 32) (le64 l 40).

Definition phdr_in (elf : list Z) (eh : Elf64_Ehdr) (i : Z) : run elf64_phdr :=
  l ← copy_from (u64 (bh_phoff eh + i * bh_phentsize eh)) 56 elf; Done (Elf64_Phdr l).

(** The first pass, over [n] headers from [i] on. *)
Fixpoint span_loop (n : nat) (elf : list Z) (eh : Elf64_Ehdr) (i vmin vmax : Z) : run (Z * Z) :=
  match n with
  | O => Done (vmin, vmax)
  | S n =>
      ph ← phdr_in elf eh i;
      if negb (p_type ph =? PT_LOAD) || (p_memsz ph =? 0) then span_loop n elf eh (i + 1) vmin vmax
      else
        let vmin := if p_vaddr ph <? vmin then p_vaddr ph else vmin in
        let top := u64 (p_vaddr ph + p_memsz ph) in
        span_loop n elf eh (i + 1) vmin (if vmax <? top then top else vmax)
  end.

Fixpoint copy_segments (n : nat) (elf : list Z) (eh : Elf64_Ehdr) (i base vmin : Z) (m : mem) : run mem :=
  match n with
  | O => Done m
  | S n =>
      ph ← phdr_in elf eh i;
      if negb (p_type ph =? PT_LOAD) || (p_memsz ph =? 0) then copy_segments n elf eh (i + 1) base vmin m
      else
        let dst := u64 (base + u64 (p_vaddr ph - vmin)) in
        s ← copy_from (p_offset ph) (p_filesz ph) elf;
        m ← mem_cpy dst s m;
        copy_segments n elf eh (i + 1) base vmin m
  end.

Section loader.
Context {W : Type} `{!firmware W}.

Definition print (s : list Z) : st W unit := OutputString s.
Definition print_hex (v : Z) : st W unit := print (hex_text v).
Definition crlf : list Z := [13; 10].
Definition die {A} (msg : list Z) (status : Z) : st W A :=
  _ ← print (chars "loader: "); _ ← print msg; _ ← print (chars " status="); _ ← print_hex status; _ ← print crlf; st_stop Panic.

(** A call whose failure ends the loader, with its status or without. *)
Definition or_die {A} (m : st W (efi_result A)) (msg : list Z) : st W A :=
  r ← m; match r with inr a => mret a | inl status => die msg status end.
Definition or_die0 {A} (m : st W (efi_result A)) (msg : list Z) : st W A :=
  r ← m; match r with inr a => mret a | inl _ => die msg 0 end.

Definition on_fmem (f : mem → run mem) : st W unit := λ w, match f (fmem w) with Done m => Done (tt, set_fmem m w) | Stop e => Stop e end.

Definition read_kernel (image : Z) : st W (list Z) :=
  dev ← or_die (LoadedImageDevice image) (chars "HandleProtocol(loaded image)");
  fs ← or_die (SimpleFileSystem dev) (chars "HandleProtocol(simple fs)");
  root ← or_die (OpenVolume fs) (chars "OpenVolume");
  kf ← or_die (Open root KERNEL_PATH EFI_FILE_MODE_READ) (chars "Open(\kernel.elf)");
  fsize ← or_die (GetInfo kf) (chars "GetInfo");
  _ ← or_die (AllocatePool fsize) (chars "AllocatePool(kernel)");
  buf ← or_die (Read kf fsize) (chars "Read(kernel)");
  if negb (Z.of_nat (length buf) =? fsize) then die (chars "Read(kernel)") 0
  else _ ← Close kf; mret buf.

(** The base of the image, its lowest virtual address, its size and the offset of the entry. *)
Definition load_kernel (elf : list Z) : st W (Z * Z * Z * Z) :=
  l ← st_run (copy_from 0 64 elf);
  let eh := header_of l in
  if negb (bool_decide (take 4 (bh_ident eh) = elf_magic)) then die (chars "kernel.elf: bad magic") 0
  else
    '(vmin, vmax) ← st_run (span_loop (Z.to_nat (bh_phnum eh)) elf eh 0 (2 ^ 64 - 1) 0);
    if vmin =? 2 ^ 64 - 1 then die (chars "kernel.elf: no PT_LOAD") 0
    else
      let span := align_up (u64 (vmax - vmin)) EFI_PAGE_SIZE in
      let pages := u64 (span + KALIGN) / EFI_PAGE_SIZE in
      raw ← or_die (AllocatePages pages) (chars "AllocatePages(kernel)");
      let base := align_up raw KALIGN in
      _ ← on_fmem (mem_set (Z.to_nat span) base 0);
      _ ← on_fmem (copy_segments (Z.to_nat (bh_phnum eh)) elf eh 0 base vmin);
      mret (base, vmin, span, u64 (bh_entry eh - vmin)).

(** ** The memory map *)

Definition xlate_type (efi : Z) : Z :=
  if bool_decide (efi ∈ [EfiConventionalMemory; EfiBootServicesCode; EfiBootServicesData]) then BI_USABLE
  else if bool_decide (efi ∈ [EfiLoaderCode; EfiLoaderData]) then BI_LOADER
  else if efi =? EfiACPIReclaimMemory then BI_ACPI_RECLAIM
  else if efi =? EfiACPIMemoryNVS then BI_ACPI_NVS
  else if efi =? EfiUnusableMemory then BI_BAD
  else BI_RESERVED.

Definition low_limit : Z := 0x100000.

(** One descriptor: the entry of the kernel's map. *)
Definition entry_of (d : list Z) : bi_mmap_entry :=
  let start := le64 d 8 in
  let type := xlate_type (le32 d 0) in
  MmapEntry start (u64 (le64 d 24 * EFI_PAGE_SIZE)) (if (type =? BI_USABLE) && (start <? low_limit) then BI_RESERVED else type).

Definition bi_mmap_cap : nat := Z.to_nat (7 * EFI_PAGE_SIZE / 24).

(** With [n] entries of room left. *)
Fixpoint map_loop (n : nat) (map : efi_map) (off highest : Z) : run (list bi_mmap_entry * Z) :=
  if off <? map_size map then
    match n with
    | O => Done ([], highest)
    | S n =>
        d ← copy_from off 40 (map_data map);
        let e := entry_of d in
        let top := u64 (base e + len e) in
        '(l, highest) ← map_loop n map (u64 (off + desc_size map)) (if (type e =? BI_USABLE) && (highest <? top) then top else highest);
        Done (e :: l, highest)
    end
  else Done ([], highest).

(** The attempts, [n] of them left; the map and the highest address that the structure holds so far. *)
Fixpoint exit_loop (n : nat) (mm : list bi_mmap_entry) (highest : Z) : st W (list bi_mmap_entry * Z) :=
  match n with
  | O => mret (mm, highest)
  | S n =>
      '(s, map) ← GetMemoryMap 0;
      if negb (s =? EFI_BUFFER_TOO_SMALL) then die (chars "GetMemoryMap(size)") s
      else
        let size := u64 (map_size map + 4 * desc_size map) in
        buf ← or_die0 (AllocatePool size) (chars "AllocatePool(mmap)");
        '(s, map) ← GetMemoryMap size;
        if EFI_ERROR s then _ ← FreePool buf; exit_loop n mm highest
        else
          '(mm, highest) ← st_run (map_loop bi_mmap_cap map 0 0);
          s ← ExitBootServices (map_key map);
          if negb (EFI_ERROR s) then mret (mm, highest)
          else
            _ ← FreePool buf;
            if bool_decide (n = 0%nat) then die (chars "ExitBootServices") s else exit_loop n mm highest
  end.

(** ** Graphics *)

Definition query_gop : st W boot_fb :=
  r ← LocateGop;
  match r with
  | None => _ ← print (chars "no GOP; serial-only" ++ crlf); mret (BootFb 0 0 0 0 0 0 0)
  | Some mi =>
      let f := BootFb (FrameBufferBase mi) (FrameBufferSize mi) (HorizontalResolution mi) (VerticalResolution mi)
        (u32 (PixelsPerScanLine mi * 4)) 32 (if PixelFormat mi =? PixelRedGreenBlueReserved8BitPerColor then BI_FB_RGBX else BI_FB_BGRX) in
      _ ← print (chars "GOP "); _ ← print_hex (fb_width f); _ ← print (chars " x "); _ ← print_hex (fb_height f);
      _ ← print (chars " @ "); _ ← print_hex (fb_base f); _ ← print (chars " pitch "); _ ← print_hex (fb_pitch f);
      _ ← print crlf;
      mret f
  end.

(** ** The serial line *)

Context `{!ports W}.

Definition com1_init : st W unit :=
  _ ← outb (0x3F8 + 1) 0x00; _ ← outb (0x3F8 + 3) 0x80; _ ← outb (0x3F8 + 0) 0x01; _ ← outb (0x3F8 + 1) 0x00;
  _ ← outb (0x3F8 + 3) 0x03; _ ← outb (0x3F8 + 2) 0xC7; outb (0x3F8 + 4) 0x0B.

Fixpoint com1_spin (n : nat) : st W unit :=
  match n with
  | O => mret tt
  | S n => x ← inb (0x3F8 + 5); if Z.land x 0x20 =? 0 then com1_spin n else mret tt
  end.

Fixpoint com1_puts (s : list Z) : st W unit :=
  match s with
  | [] => mret tt
  | c :: s => _ ← com1_spin (Z.to_nat 100000); _ ← outb 0x3F8 c; com1_puts s
  end.

(** ** The whole loader: the address that is called, and what it is given *)

Definition efi_main (image : Z) : st W (Z * boot_info) :=
  _ ← ClearScreen;
  _ ← print (chars "lizard loader" ++ crlf);
  elf ← read_kernel image;
  _ ← print (chars "kernel.elf loaded, "); _ ← print_hex (Z.of_nat (length elf)); _ ← print (chars " bytes" ++ crlf);
  _ ← or_die0 (AllocatePages 8) (chars "AllocatePages(boot_info)");
  '(kbase, vmin, span, entry_off) ← load_kernel elf;
  _ ← print (chars "kernel phys="); _ ← print_hex kbase; _ ← print (chars " size="); _ ← print_hex span;
  _ ← print (chars " entry_off="); _ ← print_hex entry_off; _ ← print crlf;
  scratch ← or_die0 (AllocatePages SCRATCH_PAGES) (chars "AllocatePages(scratch)");
  _ ← on_fmem (mem_set (Z.to_nat (SCRATCH_PAGES * EFI_PAGE_SIZE)) scratch 0);
  fb ← query_gop;
  _ ← com1_init;
  _ ← print (chars "exiting boot services..." ++ crlf);
  '(mm, highest) ← exit_loop 8 [] 0;
  _ ← com1_puts (chars "L");
  mret (u64 (kbase + entry_off),
        BootInfo BOOT_INFO_MAGIC BOOT_HHDM_BASE highest kbase vmin span scratch (SCRATCH_PAGES * EFI_PAGE_SIZE) mm
          (str_copy KERNEL_CMDLINE 256) fb).
End loader.

(** ** Lemmas on the loops *)

Lemma mem_set_Done n c : ∀ d m, mapped m d n → byte c → mem_set n d c m = Done (put_at d (replicate n c) m).
Proof.
  induction n as [|n IH]; intros d m Hm Hc; [done|]. apply mapped_S in Hm as [Ha Hm]. cbn [mem_set replicate put_at].
  rstep (stb_Done m d c Ha Hc). apply IH; [|done]. by apply mapped_insert.
Qed.

Lemma mem_cpy_Done s : ∀ d m, mapped m d (length s) → Forall byte s → mem_cpy d s m = Done (put_at d s m).
Proof.
  induction s as [|c s IH]; intros d m Hm Hs; [done|]. apply mapped_S in Hm as [Ha Hm]. apply Forall_cons in Hs as [Hc Hs].
  cbn [mem_cpy put_at]. rstep (stb_Done m d c Ha Hc). apply IH; [|done]. by apply mapped_insert.
Qed.

(** The program headers from [i] on, and the segments that are loaded. *)
Definition headers (elf : list Z) (eh : Elf64_Ehdr) (n : nat) (i : Z) : list elf64_phdr :=
  (λ k, Elf64_Phdr (slice (u64 (bh_phoff eh + k * bh_phentsize eh)) 56 elf)) <$> seqZ i (Z.of_nat n).
Definition to_load (phs : list elf64_phdr) : list elf64_phdr := filter (λ ph, loadable ph = true) phs.

(** The headers lie in the file. *)
Definition table_in (elf : list Z) (eh : Elf64_Ehdr) (n : nat) (i : Z) : Prop :=
  ∀ k, i <= k < i + Z.of_nat n → u64 (bh_phoff eh + k * bh_phentsize eh) + 56 <= Z.of_nat (length elf).

Lemma headers_S elf eh n i : table_in elf eh (S n) i → ∃ ph, phdr_in elf eh i = Done ph ∧ headers elf eh (S n) i = ph :: headers elf eh n (i + 1) ∧
  table_in elf eh n (i + 1).
Proof.
  intros Ht. eexists. split; [|split; [|intros k Hk; apply Ht; lia]].
  - unfold phdr_in. rewrite copy_from_Done; [done|apply (wrap_range 64); lia|lia|apply Ht; lia].
  - unfold headers. rewrite (seqZ_cons i) by lia. rewrite fmap_cons. do 3 f_equal; lia.
Qed.

Lemma skip_loadable ph : negb (p_type ph =? PT_LOAD) || (p_memsz ph =? 0) = negb (loadable ph).
Proof. unfold loadable. by rewrite negb_andb, negb_involutive. Qed.

Lemma to_load_cons ph phs : to_load (ph :: phs) = if loadable ph then ph :: to_load phs else to_load phs.
Proof. unfold to_load. rewrite filter_cons. destruct (loadable ph) eqn:E; [by rewrite decide_True|by rewrite decide_False by congruence]. Qed.

Definition lowest (v : Z) (phs : list elf64_phdr) : Z := foldl (λ a ph, Z.min a (p_vaddr ph)) v phs.
Definition top (v : Z) (phs : list elf64_phdr) : Z := foldl (λ a ph, Z.max a (u64 (p_vaddr ph + p_memsz ph))) v phs.

Lemma load_span_Done elf eh n : ∀ i vmin vmax, table_in elf eh n i →
  span_loop n elf eh i vmin vmax = Done (lowest vmin (to_load (headers elf eh n i)), top vmax (to_load (headers elf eh n i))).
Proof.
  induction n as [|n IH]; intros i vmin vmax Ht; [done|]. destruct (headers_S elf eh n i Ht) as (ph & E & -> & Ht').
  cbn [span_loop]. rstep E. rewrite skip_loadable, to_load_cons. destruct (loadable ph); cbn [negb]; [|by apply IH].
  rewrite IH by done. unfold lowest, top. cbn [foldl]. do 3 f_equal; repeat case_if; lia.
Qed.

Lemma lowest_spec phs : ∀ v, lowest v phs <= v ∧ (∀ ph, ph ∈ phs → lowest v phs <= p_vaddr ph) ∧ (lowest v phs = v ∨ ∃ ph, ph ∈ phs ∧ p_vaddr ph = lowest v phs).
Proof.
  induction phs as [|ph phs IH]; intros v; [split; [done|split; [by intros ? ?%not_elem_of_nil|by left]]|].
  change (lowest v (ph :: phs)) with (lowest (Z.min v (p_vaddr ph)) phs). destruct (IH (Z.min v (p_vaddr ph))) as (H1 & H2 & H3).
  split; [lia|]. split; [intros ph' [->|?]%elem_of_cons; [lia|by apply H2]|]. destruct H3 as [E|(ph' & Hin & E)].
  - rewrite E. destruct (Z.min_spec v (p_vaddr ph)) as [[_ ->]|[_ ->]]; [by left|right]. exists ph. split; [by left|done].
  - right. exists ph'. split; [by right|done].
Qed.

Lemma top_spec phs : ∀ v, v <= top v phs ∧ (∀ ph, ph ∈ phs → u64 (p_vaddr ph + p_memsz ph) <= top v phs) ∧
  (top v phs = v ∨ ∃ ph, ph ∈ phs ∧ u64 (p_vaddr ph + p_memsz ph) = top v phs).
Proof.
  induction phs as [|ph phs IH]; intros v; [split; [done|split; [by intros ? ?%not_elem_of_nil|by left]]|].
  set (t := u64 (p_vaddr ph + p_memsz ph)). change (top v (ph :: phs)) with (top (Z.max v t) phs). destruct (IH (Z.max v t)) as (H1 & H2 & H3).
  split; [lia|]. split; [intros ph' [->|?]%elem_of_cons; [fold t; lia|by apply H2]|]. destruct H3 as [E|(ph' & Hin & E)].
  - rewrite E. destruct (Z.max_spec v t) as [[_ ->]|[_ ->]]; [right|by left]. exists ph. split; [by left|done].
  - right. exists ph'. split; [by right|done].
Qed.

(** ** The segments in memory *)

(** Where a segment goes when the address [vmin] is loaded at [base]. *)
Definition seg_at (base vmin : Z) (ph : elf64_phdr) : Z := base + (p_vaddr ph - vmin).
Definition file_part (elf : list Z) (ph : elf64_phdr) : list Z := slice (p_offset ph) (p_filesz ph) elf.

Definition put_segment (elf : list Z) (base vmin : Z) (m : mem) (ph : elf64_phdr) : mem := put_at (seg_at base vmin ph) (file_part elf ph) m.

(** A segment whose file part is in the file and in its memory. *)
Record segment_in (elf : list Z) (vmin span : Z) (ph : elf64_phdr) : Prop := {
  si_file : 0 <= p_offset ph ∧ 0 <= p_filesz ph ∧ p_offset ph + p_filesz ph <= Z.of_nat (length elf);
  si_size : p_filesz ph <= p_memsz ph;
  si_range : vmin <= p_vaddr ph ∧ p_vaddr ph + p_memsz ph <= vmin + span
}.

Lemma file_part_length elf vmin span ph : segment_in elf vmin span ph → Z.of_nat (length (file_part elf ph)) = p_filesz ph.
Proof. intros [(? & ? & ?) _ _]. unfold file_part. rewrite length_slice by lia. lia. Qed.

Lemma copy_segments_Done elf eh base vmin span n : Forall byte elf → 0 <= vmin → 0 <= base → base + span < 2 ^ 64 → ∀ i m, table_in elf eh n i →
  Forall (segment_in elf vmin span) (to_load (headers elf eh n i)) → mapped m base (Z.to_nat span) →
  copy_segments n elf eh i base vmin m = Done (foldl (put_segment elf base vmin) m (to_load (headers elf eh n i))).
Proof.
  intros Hb Hv Hbase Hlim. induction n as [|n IH]; intros i m Ht Hs Hm; [done|]. destruct (headers_S elf eh n i Ht) as (ph & E & Eh & Ht').
  rewrite Eh, to_load_cons in *. cbn [copy_segments]. rstep E. rewrite skip_loadable. destruct (loadable ph); cbn [negb]; [|by apply IH].
  apply Forall_cons in Hs as [Hph Hs]. pose proof (file_part_length _ _ _ _ Hph) as Hl. destruct Hph as [(? & ? & ?) ? ?].
  rewrite copy_from_Done by lia. rsimpl. change (slice (p_offset ph) (p_filesz ph) elf) with (file_part elf ph).
  rewrite (wrap_small 64 (p_vaddr ph - vmin)) by lia. rewrite (wrap_small 64 (base + _)) by lia. change (base + (p_vaddr ph - vmin)) with (seg_at base vmin ph).
  rewrite mem_cpy_Done; [|intros k Hk; unfold seg_at|by apply slice_byte].
  2:{ replace (base + (p_vaddr ph - vmin) + Z.of_nat k) with (base + Z.of_nat (Z.to_nat (p_vaddr ph - vmin) + k)) by lia. apply Hm. lia. }
  rsimpl. rewrite IH; [done|done|done|]. by apply put_at_mapped.
Qed.

(** Two segments that do not overlap. *)
Definition apart_in (a b : elf64_phdr) : Prop := p_vaddr a + p_memsz a <= p_vaddr b ∨ p_vaddr b + p_memsz b <= p_vaddr a.

(** The file part of a segment covers an address of the image. *)
Definition in_file_part (base vmin : Z) (ph : elf64_phdr) (x : Z) : Prop := seg_at base vmin ph <= x < seg_at base vmin ph + p_filesz ph.

Lemma put_segments_out elf base vmin span phs x : ∀ m, Forall (segment_in elf vmin span) phs → (∀ ph, ph ∈ phs → ¬ in_file_part base vmin ph x) →
  foldl (put_segment elf base vmin) m phs !! x = m !! x.
Proof.
  induction phs as [|ph phs IH]; intros m Hs Hx; [done|]. apply Forall_cons in Hs as [Hph Hs]. cbn [foldl]. rewrite IH; [|done|intros ph' ?; apply Hx; by right].
  unfold put_segment. apply put_at_out. rewrite (file_part_length _ _ _ _ Hph). pose proof (Hx ph ltac:(by left)) as Hn. unfold in_file_part in Hn. lia.
Qed.

Lemma put_segments_in elf base vmin span phs ph i : ∀ m, Forall (segment_in elf vmin span) phs → ForallOrdPairs apart_in phs → ph ∈ phs →
  0 <= i < p_filesz ph → foldl (put_segment elf base vmin) m phs !! (seg_at base vmin ph + i) = Some (byte_of elf (p_offset ph + i)).
Proof.
  induction phs as [|ph' phs IH]; intros m Hs Hap Hin Hi; [by apply not_elem_of_nil in Hin|]. apply Forall_cons in Hs as [Hph Hs]. inversion_clear Hap as [|? ? Ha Hap'].
  cbn [foldl]. apply elem_of_cons in Hin as [->|Hin]; [|by apply IH].
  rewrite (put_segments_out _ _ _ span); [|done|].
  - pose proof (file_part_length _ _ _ _ Hph) as Hl. destruct Hph as [(? & ? & ?) ? ?].
    replace i with (Z.of_nat (Z.to_nat i)) at 1 by lia. apply (put_at_in _ (file_part elf ph')). unfold file_part. rewrite lookup_slice by lia.
    unfold byte_of. destruct (lookup_lt_is_Some_2 elf (Z.to_nat (p_offset ph' + i))) as [c Hc]; [lia|]. rewrite Hc.
    replace (Z.to_nat (p_offset ph') + Z.to_nat i)%nat with (Z.to_nat (p_offset ph' + i)) by lia. done.
  - intros q Hq. rewrite Forall_forall in Ha. specialize (Ha q Hq). rewrite Forall_forall in Hs. pose proof (si_size _ _ _ _ (Hs q Hq)). pose proof (si_size _ _ _ _ Hph).
    unfold in_file_part, seg_at, apart_in in *. lia.
Qed.

(** ** The image *)

(** A kernel file with the segments [phs]. *)
Record kernel_file (elf : list Z) (eh : Elf64_Ehdr) (phs : list elf64_phdr) : Prop := {
  kf_bytes : Forall byte elf;
  kf_length : 64 <= Z.of_nat (length elf);
  kf_header : header_of (slice 0 64 elf) = eh;
  kf_magic : take 4 (bh_ident eh) = elf_magic;
  kf_table : table_in elf eh (Z.to_nat (bh_phnum eh)) 0;
  kf_phs : to_load (headers elf eh (Z.to_nat (bh_phnum eh)) 0) = phs;
  kf_some : phs ≠ [];
  kf_file ph : ph ∈ phs → 0 <= p_offset ph ∧ 0 <= p_filesz ph <= p_memsz ph ∧ p_offset ph + p_filesz ph <= Z.of_nat (length elf);
  kf_virt ph : ph ∈ phs → 0 <= p_vaddr ph < 2 ^ 64 - 1 ∧ p_vaddr ph + p_memsz ph < 2 ^ 64;
  kf_size : top 0 phs - lowest (2 ^ 64 - 1) phs < 2 ^ 62;
  kf_apart : ForallOrdPairs apart_in phs
}.

Definition image_base (phs : list elf64_phdr) : Z := lowest (2 ^ 64 - 1) phs.
Definition image_size (phs : list elf64_phdr) : Z := align_up (top 0 phs - image_base phs) EFI_PAGE_SIZE.

(** The image in memory: every segment with zeros behind its file part, and zeros between the segments. *)
Record image (elf : list Z) (phs : list elf64_phdr) (kbase : Z) (m : mem) : Prop := {
  im_segment ph i : ph ∈ phs → 0 <= i < p_memsz ph →
    m !! (seg_at kbase (image_base phs) ph + i) = Some (if i <? p_filesz ph then byte_of elf (p_offset ph + i) else 0);
  im_zero x : kbase <= x < kbase + image_size phs → (∀ ph, ph ∈ phs → ¬ in_file_part kbase (image_base phs) ph x) → m !! x = Some 0
}.

Lemma image_bounds elf eh phs : kernel_file elf eh phs →
  0 <= image_base phs < 2 ^ 64 - 1 ∧ 0 <= top 0 phs - image_base phs <= image_size phs ∧ image_size phs < 2 ^ 62 + 4096 ∧ image_size phs mod 4096 = 0 ∧
  Forall (segment_in elf (image_base phs) (image_size phs)) phs.
Proof.
  intros [Hb Hlen _ _ _ _ Hne Hf Hv Hsz _]. fold (image_base phs) in Hsz. destruct (lowest_spec phs (2 ^ 64 - 1)) as (_ & Hl & _). destruct (top_spec phs 0) as (Ht0 & Ht & _).
  fold (image_base phs) in Hl. assert (0 <= image_base phs) as H0.
  { unfold image_base. destruct (lowest_spec phs (2 ^ 64 - 1)) as (_ & _ & [->|(ph & Hin & <-)]); [lia|]. apply (Hv ph Hin). }
  destruct phs as [|ph0 phs]; [done|]. set (l := ph0 :: phs) in *. assert (ph0 ∈ l) as Hin0 by by left.
  pose proof (Hl ph0 Hin0). destruct (Hv ph0 Hin0) as [? ?]. destruct (Hf ph0 Hin0) as (? & ? & ?). pose proof (Ht ph0 Hin0) as Hp. rewrite (wrap_small 64) in Hp by lia.
  destruct (align_up_bounds (top 0 l - image_base l) 12) as [Hal Hmod]; [lia|lia|lia|]. change (align_up _ (2 ^ 12)) with (image_size l) in Hal, Hmod. change (2 ^ 12) with 4096 in *.
  split_and!; [lia|lia|lia|lia|lia|done|]. apply Forall_forall. intros ph Hin. destruct (Hf ph Hin) as (? & ? & ?), (Hv ph Hin) as [? ?]. pose proof (Hl ph Hin).
  pose proof (Ht ph Hin) as Hq. rewrite (wrap_small 64) in Hq by lia. split; lia.
Qed.

Section image.
Context {W : Type} `{!firmware W}.

Lemma load_kernel_Done elf eh phs (w w1 : W) raw : kernel_file elf eh phs →
  AllocatePages ((image_size phs + KALIGN) / EFI_PAGE_SIZE) w = Done (inr raw, w1) →
  0 <= raw → raw + image_size phs + KALIGN < 2 ^ 64 → mapped (fmem w1) raw (Z.to_nat (image_size phs + KALIGN)) →
  (∀ m m' w, set_fmem m (set_fmem m' w) = set_fmem m w) → (∀ m w, fmem (set_fmem m w) = m) →
  ∃ kbase m', load_kernel elf w = Done ((kbase, image_base phs, image_size phs, u64 (bh_entry eh - image_base phs)), set_fmem m' w1) ∧
    kbase mod KALIGN = 0 ∧ raw <= kbase ∧ kbase + image_size phs <= raw + image_size phs + KALIGN ∧ image elf phs kbase m' ∧
    ∀ x, x < kbase ∨ kbase + image_size phs <= x → m' !! x = fmem w1 !! x.
Proof.
  intros Hk HA Hraw Hlim Hm Hss Hfs. destruct (image_bounds elf eh phs Hk) as (Hb0 & Hsz & Hsz2 & Hmod & Hsegs). pose proof Hk as [Hb Hlen Hh Hmag Htab Hphs Hne _ _ _ Hap].
  assert (KALIGN = 2 ^ 21) as EK by done. destruct (align_up_bounds raw 21) as [Hal Hal0]; [lia|lia|rewrite EK in Hlim; lia|]. rewrite <- EK in *. set (kbase := align_up raw KALIGN) in *.
  set (m1 := put_at kbase (replicate (Z.to_nat (image_size phs)) 0) (fmem w1)). set (m2 := foldl (put_segment elf kbase (image_base phs)) m1 phs).
  assert (mapped (fmem w1) kbase (Z.to_nat (image_size phs))) as Hmb.
  { intros i Hi. replace (kbase + Z.of_nat i) with (raw + Z.of_nat (Z.to_nat (kbase - raw) + i)) by lia. apply Hm. lia. }
  exists kbase, m2. split; [|split; [done|split; [lia|split; [lia|]]]].
  - unfold load_kernel. rewrite copy_from_Done by lia. unfold mbind at 1, st_bind at 1, st_run. rewrite Hh, (bool_decide_true _ Hmag). cbn [negb].
    unfold mbind at 1, st_bind at 1. rewrite load_span_Done by done. rewrite Hphs. change (lowest (2 ^ 64 - 1) phs) with (image_base phs). rewrite (proj2 (Z.eqb_neq _ _)) by lia.
    rewrite (wrap_small 64 (top 0 phs - image_base phs)) by lia. change (align_up (top 0 phs - image_base phs) EFI_PAGE_SIZE) with (image_size phs).
    rewrite (wrap_small 64 (image_size phs + KALIGN)) by lia. unfold or_die, mbind, st_bind. rewrite HA. cbn [mret st_ret]. fold kbase.
    unfold on_fmem. rewrite mem_set_Done by (done || (unfold byte; lia)). fold m1. rewrite Hfs.
    rewrite (copy_segments_Done _ _ _ _ (image_size phs)); [|done|lia|lia|lia|done|by rewrite Hphs|by apply put_at_mapped]. rewrite Hphs, Hss. done.
  - assert (∀ x, kbase <= x < kbase + image_size phs → (∀ ph, ph ∈ phs → ¬ in_file_part kbase (image_base phs) ph x) → m2 !! x = Some 0) as Hz.
    { intros x Hx Hno. unfold m2. rewrite (put_segments_out elf _ _ (image_size phs)) by done. replace x with (kbase + Z.of_nat (Z.to_nat (x - kbase))) by lia.
      apply (put_at_in kbase). apply lookup_replicate_2. lia. }
    split; [split; [|exact Hz]|].
    + intros ph i Hin Hi. destruct (Z.ltb_spec i (p_filesz ph)); [by apply (put_segments_in _ _ _ (image_size phs)); try done; lia|].
      rewrite Forall_forall in Hsegs. destruct (Hsegs ph Hin) as [? ? ?]. apply Hz; [unfold seg_at; lia|]. intros q Hq Hc.
      destruct (Hsegs q Hq) as [? ? ?].
      destruct (ForallOrdPairs_In Hap q ph) as [->|[?|?]]; [by apply list_elem_of_In|by apply list_elem_of_In|..]; unfold in_file_part, seg_at, apart_in in *; lia.
    + intros x Hx. unfold m2. rewrite (put_segments_out elf _ _ (image_size phs)); [|done|].
      * unfold m1. apply put_at_out. rewrite length_replicate. lia.
      * intros ph Hin Hc. rewrite Forall_forall in Hsegs. destruct (Hsegs ph Hin) as [? ? ?]. unfold in_file_part, seg_at in Hc. lia.
Qed.
End image.
