(* ===== verification/BootRun.v ===== *)
(** * A run of the boot loader

    What the UEFI specification promises is the laws of a class, over a view of the firmware: its memory map, the blocks
    of pages that it has given out, the room that is left, and how many times the end of the boot services will still fail. The memory map gives the blocks as
    memory of the loader. With that the loader reaches the kernel, and the early allocator of the kernel never
    gives out memory of the loader. *)

From S2P Require Import Prelude Helpers EarlyAlloc CString Bytes Task Kernel Loader SysMem Ports Boot.

Local Open Scope Z_scope.

Record efi_desc := EfiDesc { d_type : Z; d_start : Z; d_pages : Z }.

Record fview := FView {
  fv_descs : list efi_desc;
  fv_blocks : list (Z * Z);         (* base and bytes *)
  fv_room : Z;
  fv_fails : nat
}.

Definition d_end (d : efi_desc) : Z := d_start d + d_pages d * EFI_PAGE_SIZE.

Definition usable (d : efi_desc) : bool := xlate_type (d_type d) =? BI_USABLE.

(** Two ranges of bytes. *)
Definition clear_of (a n b k : Z) : Prop := a + n <= b ∨ b + k <= a.

(** The map: regions of the address space, none of which that is usable meets a block. *)
Record map_ok (v : fview) : Prop := {
  mo_range d : d ∈ fv_descs v → 0 <= d_type d < 2 ^ 32 ∧ 0 <= d_start d ∧ 0 <= d_pages d ∧ d_end d < 2 ^ 64 ∧ d_start d mod EFI_PAGE_SIZE = 0;
  mo_some : fv_blocks v ≠ [] → fv_descs v ≠ [];
  mo_blocks d a n : d ∈ fv_descs v → usable d = true → (a, n) ∈ fv_blocks v → clear_of (d_start d) (d_end d - d_start d) a n;
  mo_apart : ForallOrdPairs (λ x y : Z * Z, clear_of x.1 x.2 y.1 y.2) (fv_blocks v)
}.

(** The bytes of a map with descriptors of [dsz] bytes. *)
Definition encodes (dsz : Z) (l : list Z) (ds : list efi_desc) : Prop :=
  Z.of_nat (length l) = dsz * Z.of_nat (length ds) ∧
  ∀ i d, ds !! i = Some d → let s := slice (Z.of_nat i * dsz) 40 l in
    le32 s 0 = d_type d ∧ le64 s 8 = d_start d ∧ le64 s 24 = d_pages d.

(** What a call leaves as it is, whatever it does to the map; it costs [n] bytes. *)
Record costs (v v' : fview) (n : Z) : Prop := {
  co_blocks : fv_blocks v' = fv_blocks v;
  co_fails : fv_fails v' = fv_fails v;
  co_room : fv_room v' = fv_room v - n;
  co_descs : (length (fv_descs v') <= length (fv_descs v) + 2)%nat
}.

Class FirmwareLaws (W : Type) `{!firmware W, !ports W} (handle : Z) (elf : list Z) := {
  fsees : W → fview → Prop;
  fl_device : Z; fl_fs : Z; fl_root : Z; fl_kernel : Z; fl_dsz : Z;
  fl_dsz_ok : 40 <= fl_dsz < 2 ^ 12;
  fl_get_set m w : fmem (set_fmem m w) = m;
  fl_set_set m m' w : set_fmem m (set_fmem m' w) = set_fmem m w;
  fl_map_ok w v : fsees w v → map_ok v;
  (* memory outside the blocks belongs to the firmware *)
  fl_set w v m : fsees w v → (∀ x, (∀ a n, (a, n) ∈ fv_blocks v → x < a ∨ a + n <= x) → m !! x = fmem w !! x) → fsees (set_fmem m w) v;
  fl_clear w v : fsees w v → wp ClearScreen (λ _ w', fsees w' v ∧ fmem w' = fmem w) w;
  fl_print s w v : fsees w v → wp (OutputString s) (λ _ w', fsees w' v ∧ fmem w' = fmem w) w;
  fl_loaded w v : fsees w v → wp (LoadedImageDevice handle) (λ r w', r = inr fl_device ∧ fsees w' v ∧ fmem w' = fmem w) w;
  fl_simple w v : fsees w v → wp (SimpleFileSystem fl_device) (λ r w', r = inr fl_fs ∧ fsees w' v ∧ fmem w' = fmem w) w;
  fl_volume w v : fsees w v → wp (OpenVolume fl_fs) (λ r w', r = inr fl_root ∧ fsees w' v ∧ fmem w' = fmem w) w;
  fl_open w v : fsees w v → wp (Open fl_root KERNEL_PATH EFI_FILE_MODE_READ) (λ r w', r = inr fl_kernel ∧ fsees w' v ∧ fmem w' = fmem w) w;
  fl_info w v : fsees w v → wp (GetInfo fl_kernel) (λ r w', r = inr (Z.of_nat (length elf)) ∧ fsees w' v ∧ fmem w' = fmem w) w;
  fl_read w v : fsees w v → wp (Read fl_kernel (Z.of_nat (length elf))) (λ r w', r = inr elf ∧ fsees w' v ∧ fmem w' = fmem w) w;
  fl_close w v : fsees w v → wp (Close fl_kernel) (λ _ w', fsees w' v ∧ fmem w' = fmem w) w;
  fl_pool n w v : fsees w v → 0 <= n <= fv_room v →
    wp (AllocatePool n) (λ r w', (∃ p, r = inr p) ∧ ∃ v', fsees w' v' ∧ costs v v' n ∧ fmem w' = fmem w) w;
  fl_free p w v : fsees w v → wp (FreePool p) (λ _ w', ∃ v', fsees w' v' ∧ costs v v' 0 ∧ fmem w' = fmem w) w;
  fl_pages n w v : fsees w v → 0 < n → n * EFI_PAGE_SIZE <= fv_room v →
    wp (AllocatePages n) (λ r w', ∃ a v', r = inr a ∧ 0 < a ∧ a + n * EFI_PAGE_SIZE < 2 ^ 63 ∧ mapped (fmem w') a (Z.to_nat (n * EFI_PAGE_SIZE)) ∧
      fsees w' v' ∧ fmem w' = fmem w ∧ fv_blocks v' = (a, n * EFI_PAGE_SIZE) :: fv_blocks v ∧ fv_fails v' = fv_fails v ∧
      fv_room v' = fv_room v - n * EFI_PAGE_SIZE ∧ (length (fv_descs v') <= length (fv_descs v) + 2)%nat) w;
  fl_gop w v : fsees w v → wp LocateGop (λ _ w', fsees w' v ∧ fmem w' = fmem w) w;
  (* a buffer that is too small, and one that is not *)
  fl_map_size w v : fsees w v → wp (GetMemoryMap 0) (λ r w', fsees w' v ∧ fmem w' = fmem w ∧ r.1 = EFI_BUFFER_TOO_SMALL ∧
      map_size r.2 = fl_dsz * Z.of_nat (length (fv_descs v)) ∧ desc_size r.2 = fl_dsz) w;
  fl_map n w v : fsees w v → fl_dsz * Z.of_nat (length (fv_descs v)) <= n →
    wp (GetMemoryMap n) (λ r w', fsees w' v ∧ fmem w' = fmem w ∧ r.1 = 0 ∧ map_size r.2 = fl_dsz * Z.of_nat (length (fv_descs v)) ∧
      desc_size r.2 = fl_dsz ∧ encodes fl_dsz (map_data r.2) (fv_descs v) ∧
      (* the key is good for the next call *)
      wp (ExitBootServices (map_key r.2)) (λ s w', EFI_ERROR s = bool_decide (fv_fails v ≠ 0%nat) ∧ fmem w' = fmem w ∧
        ∃ v', fsees w' v' ∧ fv_blocks v' = fv_blocks v ∧ fv_room v' = fv_room v ∧ fv_fails v' = pred (fv_fails v) ∧
          (length (fv_descs v') <= length (fv_descs v) + 2)%nat) w') w;
  fl_outb p x w v : fsees w v → wp (outb p x) (λ _ w', fsees w' v ∧ fmem w' = fmem w) w;
  fl_inb p w v : fsees w v → wp (inb p) (λ _ w', fsees w' v ∧ fmem w' = fmem w) w
}.

(** ** The map of the kernel *)

Definition entry_for (d : efi_desc) : bi_mmap_entry :=
  MmapEntry (d_start d) (d_pages d * EFI_PAGE_SIZE) (if usable d && (d_start d <? low_limit) then BI_RESERVED else xlate_type (d_type d)).

Definition highest_of (h : Z) (es : list bi_mmap_entry) : Z :=
  foldl (λ h e, if type e =? BI_USABLE then Z.max h (base e + len e) else h) h es.

(** What the kernel is given of the map [ds]. *)
Definition kernel_map (ds : list efi_desc) : list bi_mmap_entry := take bi_mmap_cap (entry_for <$> ds).

Lemma entry_of_for s d : le32 s 0 = d_type d → le64 s 8 = d_start d → le64 s 24 = d_pages d → 0 <= d_start d → 0 <= d_pages d → d_end d < 2 ^ 64 →
  entry_of s = entry_for d.
Proof.
  intros E1 E2 E3 H1 H2 H3. unfold entry_of, entry_for, usable, d_end, EFI_PAGE_SIZE in *. rewrite E1, E2, E3. by rewrite wrap_small by lia.
Qed.

Lemma map_loop_Done dsz map ds : 40 <= dsz < 2 ^ 12 → map_size map = dsz * Z.of_nat (length ds) → desc_size map = dsz → encodes dsz (map_data map) ds →
  (∀ d, d ∈ ds → 0 <= d_start d ∧ 0 <= d_pages d ∧ d_end d < 2 ^ 64) → dsz * Z.of_nat (length ds) + dsz < 2 ^ 64 →
  ∀ n i h, (i <= length ds)%nat → map_loop n map (dsz * Z.of_nat i) h =
    Done (take n (entry_for <$> drop i ds), highest_of h (take n (entry_for <$> drop i ds))).
Proof.
  intros Hd Esz Eds [Hlen Henc] Hr Hlim. induction n as [|n IH]; intros i h Hi; cbn [map_loop]; rewrite Esz.
  { by case_if. }
  destruct (decide (i < length ds)%nat) as [Hlt|Hge].
  2:{ replace i with (length ds) by lia. by rewrite Z.ltb_irrefl, drop_all. }
  assert (dsz * Z.of_nat i + dsz <= dsz * Z.of_nat (length ds)) as Hnext by (rewrite <- Z.mul_succ_r; apply Z.mul_le_mono_nonneg_l; lia).
  assert (0 <= dsz * Z.of_nat i) as H0 by (apply Z.mul_nonneg_nonneg; lia). rewrite (proj2 (Z.ltb_lt _ _)) by lia.
  destruct (lookup_lt_is_Some_2 ds i Hlt) as [d Ei]. rewrite (drop_S ds d i Ei), fmap_cons. cbn [take].
  rewrite copy_from_Done by lia. rsimpl. destruct (Henc i d Ei) as (E1 & E2 & E3). rewrite (Z.mul_comm (Z.of_nat i)) in E1, E2, E3.
  destruct (Hr d) as (H1 & H2 & H3); [by eapply list_elem_of_lookup_2|]. rewrite (entry_of_for _ d) by done. rewrite Eds.
  rewrite (wrap_small 64 (dsz * _ + dsz)) by lia. replace (dsz * Z.of_nat i + dsz) with (dsz * Z.of_nat (S i)) by (rewrite Nat2Z.inj_succ; apply Z.mul_succ_r).
  rewrite (wrap_small 64 (base _ + len _)) by (unfold entry_for, d_end, EFI_PAGE_SIZE in *; cbn; lia). rewrite IH by lia. rsimpl.
  unfold highest_of. cbn [foldl]. do 3 f_equal. destruct (type (entry_for d) =? BI_USABLE); cbn [andb]; [|done]. case_if; lia.
Qed.

(** ** What the kernel makes of the map *)

Lemma early_scan_from es : ∀ b l h b' l' h', foldl early_scan (b, l, h) es = (b', l', h') →
  (b', l') = (b, l) ∨ ∃ e, e ∈ es ∧ type e = BI_USABLE ∧ base e = b' ∧ len e = l'.
Proof.
  induction es as [|e es IH]; intros b l h b' l' h' E; [injection E as <- <- <-; by left|]. cbn [foldl] in E. unfold early_scan at 2 in E.
  assert (∀ x y z, foldl early_scan (x, y, z) es = (b', l', h') → (x, y) = (b, l) ∨ (type e = BI_USABLE ∧ (x, y) = (base e, len e)) →
    (b', l') = (b, l) ∨ ∃ e', e' ∈ e :: es ∧ type e' = BI_USABLE ∧ base e' = b' ∧ len e' = l') as Hgo.
  { intros x y z Hxy [Exy|[Hu Exy]]; destruct (IH _ _ _ _ _ _ Hxy) as [E2|(e' & Hin & ?)]; try (right; exists e'; split; [by right|done]).
    - left. congruence.
    - right. exists e. split; [by left|]. by simplify_eq. }
  destruct (Z.eqb_spec (type e) BI_USABLE) as [Hu|]; [|eapply Hgo; [exact E|by left]].
  destruct (l <? len e); (eapply Hgo; [exact E|]); [right|left]; done.
Qed.

(** An address that nothing of the loader has: no byte of a block, and none of the first megabyte. *)
Definition free_of (blocks : list (Z * Z)) (x : Z) : Prop := low_limit <= x ∧ ∀ a n, (a, n) ∈ blocks → x < a ∨ a + n <= x.

Lemma usable_free v d x : map_ok v → d ∈ fv_descs v → type (entry_for d) = BI_USABLE → d_start d <= x < d_end d → free_of (fv_blocks v) x.
Proof.
  intros Hok Hd Ht Hx. assert (usable d = true ∧ low_limit <= d_start d) as [Hu Hlow].
  { unfold entry_for in Ht. cbn [type] in Ht. unfold usable in *. destruct (Z.eqb_spec (xlate_type (d_type d)) BI_USABLE) as [|Hne]; cbn [andb] in Ht; [|done].
    destruct (Z.ltb_spec (d_start d) low_limit); [done|done]. }
  split; [lia|]. intros a n Hb. pose proof (mo_blocks v Hok d a n Hd Hu Hb) as Hc. unfold clear_of in Hc. lia.
Qed.

Lemma early_region_free v bi : map_ok v → mmap bi = take BI_MMAP_MAX (kernel_map (fv_descs v)) → bi_magic bi = BOOT_INFO_MAGIC → mmap bi ≠ [] →
  ∃ e, early_alloc_init (Some bi) = Done e ∧ ∀ x, early_base e <= x < early_end e → free_of (fv_blocks v) x.
Proof.
  intros Hok Em Hmag Hne. unfold early_alloc_init. rewrite Hmag, Z.eqb_refl, (bool_decide_false _ Hne). cbn [negb orb].
  destruct (foldl early_scan (0, 0, 0) (mmap bi)) as [[lb ls] hi] eqn:E. eexists. split; [done|]. cbn [early_base early_end]. intros x Hx.
  apply early_scan_from in E as [[= -> ->]|(e & Hin & Hu & <- & <-)].
  { change (align_up 0 PAGE_SIZE) with 0 in Hx. change (align_down (u64 (0 + 0)) PAGE_SIZE) with 0 in Hx. lia. }
  rewrite Em in Hin. apply subseteq_take, subseteq_take in Hin. apply list_elem_of_fmap in Hin as (d & -> & Hd).
  destruct (mo_range v Hok d Hd) as (_ & H0 & Hp & He & Hal). unfold d_end in He. cbn [entry_for base len] in Hx. set (n := d_pages d * EFI_PAGE_SIZE) in *.
  assert (0 <= n) by (unfold n, EFI_PAGE_SIZE; lia). assert (d_start d + 4095 < 2 ^ 64) as H1.
  { unfold EFI_PAGE_SIZE in Hal. apply Z.mod_divide in Hal as [q Hq]; [|done]. lia. }
  destruct (align_up_bounds (d_start d) 12) as [Hau _]; [lia|lia|lia|]. change (2 ^ 12) with PAGE_SIZE in Hau.
  rewrite (wrap_small 64 (d_start d + n)) in Hx by lia. unfold align_down in Hx. pose proof (Z.mod_pos_bound (d_start d + n) PAGE_SIZE ltac:(done)).
  apply (usable_free v d); [done|done|done|]. unfold d_end. fold n. lia.
Qed.

Lemma image_kept elf eh phs kbase (m m2 : mem) : kernel_file elf eh phs → image elf phs kbase m →
  (∀ x, kbase <= x < kbase + image_size phs → m2 !! x = m !! x) → image elf phs kbase m2.
Proof.
  intros Hk [Hs Hz] Hm. destruct (image_bounds elf eh phs Hk) as (_ & _ & _ & _ & Hin). rewrite Forall_forall in Hin. split.
  - intros ph i Hph Hi. rewrite Hm; [by apply Hs|]. destruct (Hin ph Hph) as [? ? ?]. unfold seg_at. lia.
  - intros x Hx Hno. rewrite Hm by done. by apply Hz.
Qed.

(** ** The steps of the loader *)

(** One call whose law is [lem], the rest of the loader next. *)
Ltac fcall lem := apply wp_bind; eapply wp_mono; [eapply lem; eauto|cbv beta].

Section run.
Context {W : Type} `{!firmware W, !ports W} (handle : Z) (elf : list Z) `{!FirmwareLaws W handle elf}.
Implicit Types (v : fview) (w : W) (m : mem).

(** The firmware is at a view, and memory has a content. *)
Definition at_fw v m w : Prop := fsees w v ∧ fmem w = m.

Lemma print_wp s v m w : at_fw v m w → wp (OutputString s) (λ _ w', at_fw v m w') w.
Proof. intros [Hv <-]. by apply fl_print. Qed.

Lemma say_wp {B} s (k : st W B) Q v m w : at_fw v m w → (∀ w', at_fw v m w' → wp k Q w') → wp (_ ← OutputString s; k) Q w.
Proof. intros H HQ. fcall print_wp. intros _ w'. apply HQ. Qed.

(** Messages; [H] says where the firmware is. *)
Local Ltac says H := repeat (eapply say_wp; [exact H|clear H; let w := fresh "w" in intros w H]).

Lemma outb_wp p x v m w : at_fw v m w → wp (outb p x) (λ _ w', at_fw v m w') w.
Proof. intros [Hv <-]. by apply fl_outb. Qed.

(** A call that gives a result, on the way to more of them. *)
Lemma or_die_wp {A} (c : st W (efi_result A)) msg (Q : A → W → Prop) w : wp c (λ r w', ∃ a, r = inr a ∧ Q a w') w → wp (or_die c msg) Q w.
Proof. intros H. apply wp_bind. eapply wp_mono; [exact H|]. by intros r w' (a & -> & HQ). Qed.

Lemma or_die0_wp {A} (c : st W (efi_result A)) msg (Q : A → W → Prop) w : wp c (λ r w', ∃ a, r = inr a ∧ Q a w') w → wp (or_die0 c msg) Q w.
Proof. intros H. apply wp_bind. eapply wp_mono; [exact H|]. by intros r w' (a & -> & HQ). Qed.

Local Ltac ask lem := apply wp_bind, or_die_wp; eapply wp_mono; [eapply lem; eauto|cbv beta].

Lemma read_kernel_wp v m w : at_fw v m w → Z.of_nat (length elf) <= fv_room v →
  wp (read_kernel handle) (λ l w', l = elf ∧ ∃ v', at_fw v' m w' ∧ costs v v' (Z.of_nat (length elf))) w.
Proof.
  intros [Hv <-] Hroom. unfold read_kernel.
  ask fl_loaded. intros _ w1 (-> & H1 & <-). exists fl_device. split; [done|].
  ask fl_simple. intros _ w2 (-> & H2 & <-). exists fl_fs. split; [done|].
  ask fl_volume. intros _ w3 (-> & H3 & <-). exists fl_root. split; [done|].
  ask fl_open. intros _ w4 (-> & H4 & <-). exists fl_kernel. split; [done|].
  ask fl_info. intros _ w5 (-> & H5 & <-). exists (Z.of_nat (length elf)). split; [done|].
  apply wp_bind, or_die_wp. eapply wp_mono; [eapply fl_pool; [done|lia]|]. intros r w6 ([a ->] & v6 & H6 & Hc & <-). exists a. split; [done|].
  ask fl_read. intros _ w7 (-> & H7 & <-). exists elf. split; [done|]. rewrite Z.eqb_refl. cbn [negb].
  fcall fl_close. intros _ w8 [H8 <-]. apply wp_ret. split; [done|]. by exists v6.
Qed.

Lemma query_gop_wp v m w : at_fw v m w → wp query_gop (λ _ w', at_fw v m w') w.
Proof.
  intros [Hv <-]. unfold query_gop. fcall fl_gop. intros [mi|] w1 [H1 E1]; assert (at_fw v (fmem w) w1) as H by done; clear E1 H1; unfold print_hex, print; says H; by apply wp_ret.
Qed.

Lemma com1_init_wp v m w : at_fw v m w → wp com1_init (λ _ w', at_fw v m w') w.
Proof. intros H. unfold com1_init. repeat (fcall outb_wp; intros _ ? ?). by apply outb_wp. Qed.

Lemma com1_spin_wp n v m : ∀ w, at_fw v m w → wp (com1_spin n) (λ _ w', at_fw v m w') w.
Proof.
  induction n as [|n IH]; intros w H; [by apply wp_ret|]. cbn [com1_spin]. destruct H as [Hv <-]. fcall fl_inb. intros x w' [H' E'].
  case_match; [|by apply wp_ret]. by apply IH.
Qed.

Lemma com1_puts_wp s v m : ∀ w, at_fw v m w → wp (com1_puts s) (λ _ w', at_fw v m w') w.
Proof.
  induction s as [|c s IH]; intros w H; [by apply wp_ret|]. cbn [com1_puts]. fcall com1_spin_wp. intros _ w1 H1. fcall outb_wp. intros _ w2 H2. by apply IH.
Qed.

(** ** The end of the boot services *)

Definition map_given v (r : list bi_mmap_entry * Z) : Prop :=
  ∃ ds, r = (kernel_map ds, highest_of 0 (kernel_map ds)) ∧ map_ok (FView ds (fv_blocks v) 0 0).

Lemma exit_loop_wp (D : nat) m : fl_dsz * (Z.of_nat D + 5) < 2 ^ 62 → ∀ n mm h v w, at_fw v m w → (fv_fails v < n)%nat →
  (length (fv_descs v) + 6 * n <= D)%nat → Z.of_nat n * (fl_dsz * (Z.of_nat D + 4)) <= fv_room v →
  wp (exit_loop n mm h) (λ r w', map_given v r ∧ ∃ v', at_fw v' m w' ∧ fv_blocks v' = fv_blocks v) w.
Proof.
  intros HD. pose proof fl_dsz_ok as Hdsz. induction n as [|n IH]; intros mm h v w [Hv Em] Hf Hlen Hroom; [lia|]. cbn [exit_loop].
  set (c := fl_dsz * (Z.of_nat D + 4)) in *. assert (0 <= Z.of_nat n * c) by (unfold c; nia).
  assert (∀ k : nat, (k <= D)%nat → 0 <= fl_dsz * Z.of_nat k ∧ fl_dsz * Z.of_nat k + 4 * fl_dsz <= c) as Hmul by (intros k Hk; unfold c; nia).
  fcall fl_map_size. intros [s map] w1 (H1 & E1 & Es & Esz & Eds). cbn [fst snd] in *. rewrite Es. change (EFI_BUFFER_TOO_SMALL =? EFI_BUFFER_TOO_SMALL) with true. cbn [negb].
  rewrite Esz, Eds. destruct (Hmul (length (fv_descs v))) as [Hm0 Hm4]; [lia|]. rewrite wrap_small by (unfold c in *; lia).
  apply wp_bind, or_die0_wp. eapply wp_mono; [eapply fl_pool; [exact H1|lia]|]. intros r w2 ([buf ->] & v2 & H2 & [Hb2 Hf2 Hr2 Hd2] & E2). exists buf. split; [done|].
  apply wp_bind. eapply wp_mono; [eapply fl_map; [exact H2|]|].
  { rewrite <- Z.mul_comm, (Z.mul_comm _ (Z.of_nat (length (fv_descs v)))). rewrite <- Z.mul_add_distr_r. apply Z.mul_le_mono_nonneg_r; lia. }
  intros [s2 map2] w3 (H3 & E3 & Es2 & Esz2 & Eds2 & Henc & Hex). cbn [fst snd] in *. rewrite Es2. change (EFI_ERROR 0) with false. cbn iota.
  pose proof (fl_map_ok w3 v2 H3) as [Hrange Hsome Hblk Hap]. destruct (Hmul (length (fv_descs v2))) as [Hm0' Hm4']; [lia|].
  assert (map_loop bi_mmap_cap map2 0 0 = Done (kernel_map (fv_descs v2), highest_of 0 (kernel_map (fv_descs v2)))) as Emap.
  { unfold kernel_map. rewrite <- (drop_0 (fv_descs v2)) at 1 2. rewrite <- (Z.mul_0_r fl_dsz) at 1. change 0 with (Z.of_nat 0) at 1.
    apply (map_loop_Done fl_dsz map2 (fv_descs v2)); try done; [|unfold c in *; lia|lia]. intros d Hd. destruct (Hrange d Hd) as (? & ? & ? & ? & ?). done. }
  apply wp_bind, (wp_run _ _ _ _ Emap). apply wp_bind. eapply wp_mono; [exact Hex|]. intros s3 w4 (Es3 & E4 & v4 & H4 & Hb4 & Hr4 & Hf4 & Hd4).
  assert (fmem w4 = m) as Em4 by congruence. rewrite Es3. case_bool_decide as Hz; cbn [negb].
  - fcall fl_free. intros _ w5 (v5 & H5 & [Hb5 Hf5 Hr5 Hd5] & E5). rewrite bool_decide_false by lia.
    eapply wp_mono; [apply (IH _ _ v5 w5); [split; [done|congruence]|lia|lia|lia]|]. intros r w6 [(ds & Er & Hok) (v6 & H6 & Hb6)].
    split; [exists ds; split; [done|]|exists v6; split; [done|congruence]]. by replace (fv_blocks v) with (fv_blocks v5) by congruence.
  - apply wp_ret. split; [|exists v4; split; [done|congruence]]. exists (fv_descs v2). split; [done|]. rewrite <- Hb2. by split.
Qed.

(** ** The image and the scratch pages *)

Lemma pages_exact n : n mod 4096 = 0 → (n + KALIGN) / EFI_PAGE_SIZE * EFI_PAGE_SIZE = n + KALIGN.
Proof.
  intros Hn. unfold EFI_PAGE_SIZE. rewrite Z.mul_comm. symmetry. apply Z_div_exact_full_2; [lia|]. rewrite Z.add_mod, Hn by lia. done.
Qed.

Lemma load_kernel_wp eh phs v m w : kernel_file elf eh phs → at_fw v m w → image_size phs + KALIGN <= fv_room v →
  wp (load_kernel elf) (λ r w', ∃ kbase raw v' m', r = (kbase, image_base phs, image_size phs, u64 (bh_entry eh - image_base phs)) ∧ at_fw v' m' w' ∧
    kbase mod KALIGN = 0 ∧ raw <= kbase ∧ kbase + image_size phs <= raw + (image_size phs + KALIGN) ∧ image elf phs kbase m' ∧
    fv_blocks v' = (raw, image_size phs + KALIGN) :: fv_blocks v ∧ fv_fails v' = fv_fails v ∧ fv_room v' = fv_room v - (image_size phs + KALIGN) ∧
    (length (fv_descs v') <= length (fv_descs v) + 2)%nat) w.
Proof.
  intros Hk [Hv Em] Hroom. destruct (image_bounds elf eh phs Hk) as (Hb0 & Hsz & Hsz2 & Hmod & _). set (n := image_size phs) in *. pose proof (pages_exact n Hmod) as En.
  assert (KALIGN = 2097152) as EK by done.
  destruct (wp_elim _ _ _ (fl_pages ((n + KALIGN) / EFI_PAGE_SIZE) w v Hv ltac:(unfold EFI_PAGE_SIZE; apply Z.div_str_pos; lia) ltac:(lia))) as (r & w1 & E & raw & v1 & -> & Hraw & Hlim & Hm & H1 & Em1 & Hb & Hf & Hr & Hd).
  rewrite En in *.
  destruct (load_kernel_Done elf eh phs w w1 raw Hk E) as (kbase & m' & EL & Hal & Hge & Hle & Him & Hot); [lia|fold n; lia|done|apply fl_set_set|apply fl_get_set|].
  fold n in EL, Hle. unfold wp. rewrite EL. exists kbase, raw, v1, m'. rewrite Em1, Em in Hot. split; [done|]. split; [|split_and!; try done; lia].
  split; [|apply fl_get_set]. apply fl_set; [done|]. intros x Hx. rewrite Em1, Em. apply Hot. fold n. specialize (Hx raw (n + KALIGN)). rewrite Hb in Hx.
  specialize (Hx ltac:(by left)). lia.
Qed.

Lemma scratch_wp {B} (k : Z → st W B) Q msg n v m w : at_fw v m w → 0 < n → n * EFI_PAGE_SIZE <= fv_room v →
  (∀ a w' v', at_fw v' (put_at a (replicate (Z.to_nat (n * EFI_PAGE_SIZE)) 0) m) w' → fv_blocks v' = (a, n * EFI_PAGE_SIZE) :: fv_blocks v →
    fv_fails v' = fv_fails v → fv_room v' = fv_room v - n * EFI_PAGE_SIZE → (length (fv_descs v') <= length (fv_descs v) + 2)%nat → wp (k a) Q w') →
  wp (a ← or_die0 (AllocatePages n) msg; _ ← on_fmem (mem_set (Z.to_nat (n * EFI_PAGE_SIZE)) a 0); k a) Q w.
Proof.
  intros [Hv Em] Hn Hroom HQ. apply wp_bind, or_die0_wp. eapply wp_mono; [by eapply fl_pages|]. intros r w1 (a & v1 & -> & Ha & Hlim & Hm & H1 & Em1 & Hb & Hf & Hr & Hd).
  exists a. split; [done|]. apply wp_bind. unfold wp at 1, on_fmem. rewrite mem_set_Done; [|done|unfold byte; lia]. apply (HQ a _ v1); [|done..].
  rewrite Em1, Em. split; [|apply fl_get_set]. apply fl_set; [done|]. intros x Hx. rewrite Em1, Em. apply put_at_out. rewrite length_replicate.
  specialize (Hx a (n * EFI_PAGE_SIZE)). rewrite Hb in Hx. specialize (Hx ltac:(by left)). unfold EFI_PAGE_SIZE in *. lia.
Qed.
(** ** The hand-over *)

(** The bytes that the loader asks the firmware for, the eight attempts included. *)
Definition descs_bound (v : fview) : Z := Z.of_nat (length (fv_descs v)) + 56.
Definition needed (phs : list elf64_phdr) (v : fview) : Z :=
  Z.of_nat (length elf) + (image_size phs + KALIGN) + 40 * EFI_PAGE_SIZE + 8 * (fl_dsz * (descs_bound v + 4)).

(** What the kernel can rely on: the image at a physical base that is 2 MiB aligned, scratch pages of zeros, and a map whose largest
    usable region, from which the early allocator serves, has no byte of either and none of the first megabyte. *)
Record hand_over (phs : list elf64_phdr) (bi : boot_info) (m : mem) : Prop := {
  ho_aligned : kernel_phys_base bi mod KALIGN = 0;
  ho_virt : kernel_virt_base bi = image_base phs;
  ho_size : bi_kernel_size bi = image_size phs;
  ho_image : image elf phs (kernel_phys_base bi) m;
  ho_scratch x : scratch_phys_base bi <= x < scratch_phys_base bi + scratch_size bi → m !! x = Some 0;
  ho_early : ∃ bi' e, boot_info_relocate (Some bi) = Done bi' ∧ early_alloc_init (Some bi') = Done e ∧
    ∀ x, early_base e <= x < early_end e → low_limit <= x ∧
      ¬ kernel_phys_base bi <= x < kernel_phys_base bi + bi_kernel_size bi ∧ ¬ scratch_phys_base bi <= x < scratch_phys_base bi + scratch_size bi
}.

Lemma hand_over_ok eh phs v raw kbase scratch blocks (m : mem) r fb cmd : kernel_file elf eh phs → map_given v r → image elf phs kbase m → kbase mod KALIGN = 0 →
  raw <= kbase → kbase + image_size phs <= raw + (image_size phs + KALIGN) →
  fv_blocks v = (scratch, SCRATCH_PAGES * EFI_PAGE_SIZE) :: (raw, image_size phs + KALIGN) :: blocks →
  hand_over phs (BootInfo BOOT_INFO_MAGIC BOOT_HHDM_BASE r.2 kbase (image_base phs) (image_size phs) scratch (SCRATCH_PAGES * EFI_PAGE_SIZE) r.1 cmd fb)
    (put_at scratch (replicate (Z.to_nat (SCRATCH_PAGES * EFI_PAGE_SIZE)) 0) m).
Proof.
  intros Hk (ds & -> & Hok) Him Hal Hge Hle Hbl.
  assert (clear_of scratch (SCRATCH_PAGES * EFI_PAGE_SIZE) raw (image_size phs + KALIGN)) as Hcl.
  { pose proof (mo_apart _ Hok) as Hap. cbn [fv_blocks] in Hap. rewrite Hbl in Hap. inversion_clear Hap as [|? ? Ha _]. by inversion_clear Ha. }
  split; cbn [kernel_phys_base kernel_virt_base bi_kernel_size scratch_phys_base scratch_size]; [exact Hal|done|done|..].
  - eapply image_kept; [exact Hk|exact Him|]. intros x Hx. apply put_at_out. rewrite length_replicate. unfold clear_of in Hcl.
    pose proof (eq_refl : SCRATCH_PAGES * EFI_PAGE_SIZE = 131072). lia.
  - intros x Hx. replace x with (scratch + Z.of_nat (Z.to_nat (x - scratch))) by lia. apply (put_at_in scratch), lookup_replicate_2. lia.
  - eexists. unfold boot_info_relocate. cbn [bi_magic]. rewrite Z.eqb_refl. cbn [negb]. set (bi' := BootInfo _ _ _ _ _ _ _ _ _ _ _).
    destruct (early_region_free (FView ds (fv_blocks v) 0 0) bi' Hok) as (e & E & He); [done|done| |].
    { cbn [mmap bi' fst]. unfold kernel_map. pose proof (mo_some _ Hok) as Hs. cbn [fv_blocks fv_descs] in Hs. destruct ds; [|done]. destruct Hs; [|done]. by rewrite Hbl. }
    exists e. split; [done|]. split; [done|]. intros x Hx. destruct (He x Hx) as [Hlow Hf]. cbn [fv_blocks] in Hf. split; [done|].
    rewrite Hbl in Hf. pose proof (Hf _ _ ltac:(by left)). pose proof (Hf _ _ ltac:(by right; left)). lia.
Qed.

Lemma efi_main_wp eh phs v w : fsees w v → fv_blocks v = [] → (fv_fails v < 8)%nat → kernel_file elf eh phs → descs_bound v < 2 ^ 32 → needed phs v <= fv_room v →
  wp (efi_main handle) (λ r w', r.1 = u64 (kernel_phys_base r.2 + u64 (bh_entry eh - image_base phs)) ∧ hand_over phs r.2 (fmem w')) w.
Proof.
  intros Hv Hnone Hf Hk HD Hroom. pose proof fl_dsz_ok as Hdsz. destruct (image_bounds elf eh phs Hk) as (_ & Hsz & _ & _ & _).
  assert (0 <= fl_dsz * (descs_bound v + 4)) as Hpos by (apply Z.mul_nonneg_nonneg; unfold descs_bound; lia). unfold needed in Hroom.
  pose proof (eq_refl : KALIGN = 2097152) as EK. pose proof (eq_refl : EFI_PAGE_SIZE = 4096) as EP. pose proof (eq_refl : SCRATCH_PAGES = 32) as ES. unfold efi_main, print, print_hex.
  assert (at_fw v (fmem w) w) as H by done. fcall fl_clear. clear H. intros _ w1 H. says H.
  fcall read_kernel_wp; [lia|]. clear H. intros l w3 (-> & v3 & H & [Hb3 Hf3 Hr3 Hd3]). says H.
  apply wp_bind, or_die0_wp. eapply wp_mono; [eapply fl_pages; [apply H|lia|lia]|]. intros _ u4 (bip & v4 & -> & _ & _ & _ & H4 & E4 & Hb4 & Hf4 & Hr4 & Hd4).
  exists bip. split; [done|]. destruct H as [_ Em]. pose proof (conj H4 (eq_trans E4 Em) : at_fw v4 (fmem w) u4) as H.
  fcall load_kernel_wp; [lia|]. clear H. intros r u5 (kbase & raw & v5 & m5 & -> & H & Hal & Hge & Hle & Him & Hb5 & Hf5 & Hr5 & Hd5). says H.
  eapply scratch_wp; [exact H|done|lia|]. clear H. intros scratch u6 v6 H Hb6 Hf6 Hr6 Hd6.
  fcall query_gop_wp. clear H. intros fb u7 H. fcall com1_init_wp. clear H. intros _ u8 H. says H.
  assert (Z.of_nat (Z.to_nat (descs_bound v)) = descs_bound v) as ED by (unfold descs_bound; lia).
  apply wp_bind. eapply wp_mono; [eapply (exit_loop_wp (Z.to_nat (descs_bound v))); [rewrite ED; nia|exact H|lia|unfold descs_bound; lia|rewrite ED; lia]|].
  intros [mm highest] u9 (Hmap & v9 & H9 & Hb9). fcall com1_puts_wp. intros _ u10 [_ Em']. apply wp_ret. cbn [fst snd kernel_phys_base]. split; [reflexivity|]. rewrite Em'.
  assert (fv_blocks v6 = (scratch, SCRATCH_PAGES * EFI_PAGE_SIZE) :: (raw, image_size phs + KALIGN) :: fv_blocks v4) as Hbl by (rewrite Hb6, Hb5; reflexivity).
  pose proof (hand_over_ok eh phs v6 raw kbase scratch (fv_blocks v4) m5 (mm, highest) fb (str_copy KERNEL_CMDLINE 256) Hk Hmap Him Hal Hge Hle Hbl) as Hho.
  cbn [fst snd] in Hho |- *. exact Hho.
Qed.


(** C35: The loader reaches the kernel when the firmware has the memory and lets the boot services end within eight attempts. The image holds every
    segment of the file at its place, with zeros behind it and between them. The kernel accepts the structure that it is handed,
    and the region from which its early allocator serves contains no byte of the image, of the scratch pages or of
    the first megabyte. *)
Theorem loader_hands_over eh phs v w : fsees w v → fv_blocks v = [] → (fv_fails v < 8)%nat → kernel_file elf eh phs → descs_bound v < 2 ^ 32 → needed phs v <= fv_room v →
  ∃ bi w', efi_main handle w = Done ((u64 (kernel_phys_base bi + u64 (bh_entry eh - image_base phs)), bi), w') ∧ hand_over phs bi (fmem w').
Proof.
  intros Hv Hnone Hf Hk HD Hroom. destruct (wp_elim _ _ _ (efi_main_wp eh phs v w Hv Hnone Hf Hk HD Hroom)) as ([entry bi] & w' & E & Eentry & Hho).
  exists bi, w'. split; [|exact Hho]. cbn [fst snd] in *. by rewrite E, Eentry.
Qed.
End run.
