(* ===== verification/BootDemo.v ===== *)
(** * A firmware for the boot loader

    A firmware with 16 MiB of memory, which gives pages from the bottom and pool memory from the top, and whose boot services can
    fail to end a number of times: an instance of the laws of BootRun, on which the hand-over is witnessed. *)

From S2P Require Import Prelude Helpers EarlyAlloc CString Bytes Task Kernel Loader SysMem Ports Boot BootRun.

Local Open Scope Z_scope.

(** ** The file *)

Definition demo_phdr (off vaddr filesz memsz : Z) : list Z :=
  put32 1 ++ put32 7 ++ put64 off ++ put64 vaddr ++ put64 0 ++ put64 filesz ++ put64 memsz ++ put64 4096.

Definition kernel_elf : list Z :=
  elf_magic ++ replicate 20 0 ++ put64 0xffffffff80000002 ++ put64 64 ++ replicate 14 0 ++ put16 56 ++ put16 2 ++ replicate 6 0 ++
  demo_phdr 176 0xffffffff80000000 4 8 ++ demo_phdr 180 0xffffffff80001000 2 16 ++ chars "codeda".

Definition demo_header : Elf64_Ehdr := Eval vm_compute in header_of (slice 0 64 kernel_elf).
Definition demo_phs : list elf64_phdr := [Phdr 1 176 0xffffffff80000000 4 8; Phdr 1 180 0xffffffff80001000 2 16].

Lemma kernel_elf_ok : kernel_file kernel_elf demo_header demo_phs.
Proof.
  assert (∀ P : elf64_phdr → Prop, P (Phdr 1 176 0xffffffff80000000 4 8) → P (Phdr 1 180 0xffffffff80001000 2 16) → ∀ ph, ph ∈ demo_phs → P ph) as Hall.
  { intros P H1 H2 ph Hph. apply elem_of_cons in Hph as [->|[->|[]%not_elem_of_nil]%elem_of_cons]; done. }
  split.
  - apply (bool_decide_unpack (Forall (λ c, 0 <= c < 256) kernel_elf)). vm_compute. done.
  - vm_compute. done.
  - vm_compute. done.
  - vm_compute. done.
  - intros k Hk. change (Z.of_nat (Z.to_nat (bh_phnum demo_header))) with 2 in Hk. assert (k = 0 ∨ k = 1) as [->| ->] by lia; vm_compute; done.
  - vm_compute. done.
  - done.
  - apply Hall; vm_compute; repeat split; done.
  - apply Hall; vm_compute; repeat split; done.
  - vm_compute. done.
  - constructor; [constructor; [|constructor]|constructor; [constructor|constructor]]. left. vm_compute. done.
Qed.

(** ** The firmware *)

Definition RAM : Z := 0x1000000.
Definition BOTTOM : Z := 0x200000.

Record fw := Fw { f_mem : mem; f_blocks : list (Z * Z); f_next : Z; f_top : Z; f_fails : nat }.

Definition free_pages (w : fw) : Z := (f_top w - f_next w) / 4096.

Definition f_descs (w : fw) : list efi_desc :=
  [EfiDesc EfiConventionalMemory 0 160;
   EfiDesc EfiLoaderData BOTTOM ((f_next w - BOTTOM) / 4096);
   EfiDesc EfiConventionalMemory (f_next w) (free_pages w);
   EfiDesc EfiLoaderData (f_next w + free_pages w * 4096) ((RAM - f_next w) / 4096 - free_pages w)].

Definition desc_bytes (d : efi_desc) : list Z :=
  put32 (d_type d) ++ put32 0 ++ put64 (d_start d) ++ put64 0 ++ put64 (d_pages d) ++ put64 15 ++ put64 0.

Definition DSZ : Z := 48.

Definition EFI_INVALID_PARAMETER : Z := 2 ^ 63 + 2.
Definition EFI_OUT_OF_RESOURCES : Z := 2 ^ 63 + 9.

#[export] Instance demo_firmware : firmware fw := {
  fmem := f_mem;
  set_fmem m w := Fw m (f_blocks w) (f_next w) (f_top w) (f_fails w);
  ClearScreen := mret tt;
  OutputString _ := mret tt;
  LoadedImageDevice _ := mret (inr 1);
  SimpleFileSystem _ := mret (inr 2);
  OpenVolume _ := mret (inr 3);
  Open _ _ _ := mret (inr 4);
  GetInfo _ := mret (inr (Z.of_nat (length kernel_elf)));
  Read _ n := mret (inr (take (Z.to_nat n) kernel_elf));
  Close _ := mret tt;
  AllocatePool n := λ w, Done (if n <=? f_top w - f_next w
    then (inr (f_top w - n), Fw (f_mem w) (f_blocks w) (f_next w) (f_top w - n) (f_fails w)) else (inl EFI_OUT_OF_RESOURCES, w));
  FreePool _ := mret tt;
  AllocatePages n := λ w, Done (if n * 4096 <=? f_top w - f_next w
    then (inr (f_next w), Fw (f_mem w) ((f_next w, n * 4096) :: f_blocks w) (f_next w + n * 4096) (f_top w) (f_fails w)) else (inl EFI_OUT_OF_RESOURCES, w));
  LocateGop := mret None;
  GetMemoryMap n := λ w, let size := DSZ * Z.of_nat (length (f_descs w)) in Done (if n <? size
    then ((EFI_BUFFER_TOO_SMALL, EfiMap size [] 0 DSZ), w)
    else ((0, EfiMap size (concat (desc_bytes <$> f_descs w)) 1 DSZ), w));
  ExitBootServices _ := λ w, Done (if bool_decide (f_fails w ≠ 0%nat) then EFI_INVALID_PARAMETER else 0, Fw (f_mem w) (f_blocks w) (f_next w) (f_top w) (pred (f_fails w)))
}.

#[export] Instance demo_ports : ports fw := { inb _ := mret 0x20; inw _ := mret 0; outb _ _ := mret tt; outw _ _ := mret tt }.

Definition view_of (w : fw) : fview := FView (f_descs w) (f_blocks w) (f_top w - f_next w) (f_fails w).

Record fw_ok (w : fw) : Prop := {
  fo_range : BOTTOM <= f_next w <= f_top w ∧ f_top w <= RAM;
  fo_page : f_next w mod 4096 = 0;
  fo_blocks a n : (a, n) ∈ f_blocks w → BOTTOM <= a ∧ 0 <= n ∧ a + n <= f_next w;
  fo_apart : ForallOrdPairs (λ x y : Z * Z, clear_of x.1 x.2 y.1 y.2) (f_blocks w);
  fo_mem x : f_next w <= x < RAM → is_Some (f_mem w !! x)
}.

Definition seen (w : fw) (v : fview) : Prop := v = view_of w ∧ fw_ok w.

Lemma demo_map_ok w : fw_ok w → map_ok (view_of w).
Proof.
  intros [[Hr1 Hr2] Hp Hb Ha _]. unfold RAM, BOTTOM in *.
  assert (∀ P : efi_desc → Prop, P (EfiDesc EfiConventionalMemory 0 160) → P (EfiDesc EfiLoaderData BOTTOM ((f_next w - BOTTOM) / 4096)) →
    P (EfiDesc EfiConventionalMemory (f_next w) (free_pages w)) → P (EfiDesc EfiLoaderData (f_next w + free_pages w * 4096) ((RAM - f_next w) / 4096 - free_pages w)) →
    ∀ d, d ∈ f_descs w → P d) as Hall.
  { intros P H1 H2 H3 H4 d Hd. unfold f_descs in Hd. repeat (apply elem_of_cons in Hd as [->|Hd]; [done|]). by apply not_elem_of_nil in Hd. }
  split; cbn [view_of fv_descs fv_blocks].
  - apply Hall; unfold d_end, EFI_PAGE_SIZE, BOTTOM, RAM, free_pages; cbn [d_type d_start d_pages]; unfold EfiConventionalMemory, EfiLoaderData;
      Z.to_euclidean_division_equations; lia.
  - done.
  - intros d a n Hd. revert d Hd. apply (Hall (λ d, usable d = true → (a, n) ∈ f_blocks w → clear_of (d_start d) (d_end d - d_start d) a n)); [|by intros| |by intros];
      intros _ Hin; destruct (Hb a n Hin) as (? & ? & ?); unfold clear_of, d_end, EFI_PAGE_SIZE, free_pages; cbn [d_start d_pages]; [|Z.to_euclidean_division_equations]; lia.
  - exact Ha.
Qed.

Lemma desc_encodes w : fw_ok w → encodes DSZ (concat (desc_bytes <$> f_descs w)) (f_descs w).
Proof.
  intros [[Hr1 Hr2] Hp _ _ _]. unfold RAM, BOTTOM in *. split; [done|]. intros i d Hi. cbn zeta.
  assert (0 <= d_type d < 2 ^ 32 ∧ 0 <= d_start d < 2 ^ 64 ∧ 0 <= d_pages d < 2 ^ 64) as (Ht & Hs & Hn).
  { destruct i as [|[|[|[|i]]]]; cbn in Hi; try done; injection Hi as <-; unfold EfiConventionalMemory, EfiLoaderData, free_pages, BOTTOM, RAM; cbn [d_type d_start d_pages];
      Z.to_euclidean_division_equations; lia. }
  assert (slice (Z.of_nat i * DSZ) 40 (concat (desc_bytes <$> f_descs w)) = take 40 (desc_bytes d)) as ->.
  { destruct i as [|[|[|[|i]]]]; cbn in Hi; try done; injection Hi as <-; reflexivity. }
  rewrite <- (le32_put32 (d_type d)) at 1 by done. rewrite <- (le64_put64 (d_start d)) at 1 by done. rewrite <- (le64_put64 (d_pages d)) at 1 by done. split_and!; reflexivity.
Qed.

Lemma pool_ok n w : fw_ok w → 0 <= n <= f_top w - f_next w → fw_ok (Fw (f_mem w) (f_blocks w) (f_next w) (f_top w - n) (f_fails w)).
Proof. intros [[Hr1 Hr2] Hp Hb Ha Hm] Hn. split; cbn; try done. lia. Qed.

Lemma pages_ok n w : fw_ok w → 0 < n → n * 4096 <= f_top w - f_next w →
  fw_ok (Fw (f_mem w) ((f_next w, n * 4096) :: f_blocks w) (f_next w + n * 4096) (f_top w) (f_fails w)).
Proof.
  intros [[Hr1 Hr2] Hp Hb Ha Hm] Hn Hroom. split; cbn [f_next f_top f_mem f_blocks].
  - lia.
  - by rewrite Z.mod_add.
  - intros a k [[= -> ->]|Hin]%elem_of_cons; [lia|]. destruct (Hb a k Hin) as (? & ? & ?). lia.
  - constructor; [|done]. apply Forall_forall. intros [a k] Hin. destruct (Hb a k Hin) as (? & ? & ?). unfold clear_of. cbn. lia.
  - intros x Hx. apply Hm. lia.
Qed.

Lemma set_ok w m : fw_ok w → (∀ x, (∀ a n, (a, n) ∈ f_blocks w → x < a ∨ a + n <= x) → m !! x = f_mem w !! x) →
  fw_ok (Fw m (f_blocks w) (f_next w) (f_top w) (f_fails w)).
Proof.
  intros [Hr Hp Hb Ha Hm] Hsame. split; cbn [f_next f_top f_mem f_blocks]; try done. intros x Hx. rewrite Hsame; [by apply Hm|].
  intros a n Hin. destruct (Hb a n Hin) as (? & ? & ?). lia.
Qed.

#[export] Instance demo_laws : FirmwareLaws fw 7 kernel_elf.
Proof.
  refine {| fsees := seen; fl_device := 1; fl_fs := 2; fl_root := 3; fl_kernel := 4; fl_dsz := DSZ |}; try done; unfold wp, seen.
  all: try (intros; subst; by split).
  - intros w v [-> H]. by apply demo_map_ok.
  - intros w v m [-> H] Hm. split; [done|by apply set_ok].
  - intros n w v [-> H] Hn. cbn [AllocatePool demo_firmware]. cbn [view_of fv_room] in Hn. rewrite (proj2 (Z.leb_le _ _)) by lia. split; [by eexists|]. eexists.
    split; [split; [reflexivity|by apply pool_ok]|]. split; [|done]. split; [done..|cbn; lia|cbn; lia].
  - intros p w v [-> H]. exists (view_of w). split; [done|]. split; [|done]. split; [done..|lia|lia].
  - intros n w v [-> H] Hn Hroom. cbn [AllocatePages demo_firmware]. cbn [view_of fv_room] in Hroom. unfold EFI_PAGE_SIZE in *. rewrite (proj2 (Z.leb_le _ _)) by lia.
    pose proof H as [[Hr1 Hr2] Hp Hb Ha Hm]. unfold BOTTOM, RAM in *. eexists _, _. split; [reflexivity|]. split; [lia|]. split; [lia|].
    split; [intros i Hi; apply Hm; lia|]. split; [split; [reflexivity|by apply pages_ok]|]. split; [done|]. split; [done|]. split; [done|]. cbn; lia.
  - intros w v [-> H]. done.
  - intros n w v [-> H] Hn. cbn [GetMemoryMap demo_firmware]. rewrite (proj2 (Z.ltb_ge _ _)) by exact Hn. split; [done|]. split; [done|]. split; [done|].
    split; [done|]. split; [done|]. split; [by apply desc_encodes|]. split; [cbn [view_of fv_fails]; by case_bool_decide|]. split; [done|]. exists (view_of (Fw (f_mem w) (f_blocks w) (f_next w) (f_top w) (pred (f_fails w)))).
    split; [split; [done|]|done || (split_and!; try done; cbn; lia)]. destruct H. by split.
Defined.

(** ** The hand-over, with the first three attempts to end the boot services failing *)

Definition power_on : fw := Fw (put_at BOTTOM (replicate (Z.to_nat (RAM - BOTTOM)) 255) ∅) [] BOTTOM RAM 3.

Lemma filled_at n c m a x : a <= x < a + Z.of_nat n → put_at a (replicate n c) m !! x = Some c.
Proof. intros Hx. replace x with (a + Z.of_nat (Z.to_nat (x - a))) by lia. apply (put_at_in a), lookup_replicate_2. lia. Qed.

Lemma power_on_ok : fw_ok power_on.
Proof.
  split; cbn [power_on f_next f_top f_mem f_blocks]; [done|done|by intros ? ? ?%not_elem_of_nil|constructor|]. intros x Hx.
  exists 255. apply filled_at. rewrite Z2Nat.id by done. replace (BOTTOM + (RAM - BOTTOM)) with RAM by lia. exact Hx.
Qed.

Lemma loader_hands_over_witness : ∃ bi w', efi_main 7 power_on = Done ((u64 (kernel_phys_base bi + u64 (bh_entry demo_header - image_base demo_phs)), bi), w') ∧
  hand_over kernel_elf demo_phs bi (fmem w').
Proof.
  apply (loader_hands_over 7 kernel_elf demo_header demo_phs (view_of power_on) power_on).
  - split; [reflexivity|exact power_on_ok].
  - reflexivity.
  - cbn. lia.
  - exact kernel_elf_ok.
  - reflexivity.
  - unfold needed, descs_bound. change (fv_room (view_of power_on)) with (RAM - BOTTOM). change (length (fv_descs (view_of power_on))) with 4%nat.
    change fl_dsz with DSZ. vm_compute. discriminate.
Defined.
