(* ===== verification/Setup.v ===== *)
(** * Kernel parameters (lizard/setup.c, lizard/setup.h)

    The command line of the boot loader is cut into words in a buffer of the kernel, and the words go to the functions
    that are registered for their prefixes. The linker collects the registrations in a table, a parameter here; the kernel has
    one, for the root device. *)

From S2P Require Import Prelude CString Words Syscall SysMem UString VfsRoot Boot.

Local Open Scope Z_scope.

Definition MAX_CMDLINE_LEN : Z := 1024.

(** A function gets the text behind its prefix, and acts on the state [S] of the kernel. *)
Record setup_entry (S : Type) := SetupEntry { se_str : list Z; se_fn : list Z → S → run (Z * S) }.
Arguments SetupEntry {_} _ _.
Arguments se_str {_} _.
Arguments se_fn {_} _.

Definition is_space (c : Z) : bool := c =? 32.

Definition skip_spaces (m : mem) (s : Z) : run Z := skip_while (scan_fuel m) is_space m s.
Definition next_arg (m : mem) (cmdline : Z) : run Z := skip_while (scan_fuel m) (λ c, negb ((c =? 0) || is_space c)) m cmdline.

(** [!strncmp(a, str, strlen(str))], for a string that is not in the memory. *)
Fixpoint has_prefix (m : mem) (a : Z) (str : list Z) : run bool :=
  match str with
  | [] => Done true
  | d :: str => c ← ldb m a; if c =? d then has_prefix m (a + 1) str else Done false
  end.

(** The text at an address, for a function of the table. *)
Definition text_at (m : mem) (a : Z) : run (list Z) := n ← CString.strlen m a; load_bytes (Z.to_nat n) a m.

Section setup.
Context {S : Type}.
Implicit Types (es : list (setup_entry S)) (k : S).

(** The loop over the table: a function that returns non-zero ends it. *)
Fixpoint call_entries es (m : mem) (arg : Z) (k : S) : run S :=
  match es with
  | [] => Done k
  | e :: es =>
      b ← has_prefix m arg (se_str e);
      if b : bool then
        v ← text_at m (arg + Z.of_nat (length (se_str e)));
        '(r, k) ← se_fn e v k;
        if negb (r =? 0) then Done k else call_entries es m arg k
      else call_entries es m arg k
  end.

(** [while ( *cmdline)] *)
Fixpoint params_loop (fuel : nat) es (cmdline : Z) (m : mem) (k : S) : run (mem * S) :=
  match fuel with
  | O => Stop Diverge
  | Datatypes.S fuel =>
      c ← ldb m cmdline;
      if c =? 0 then Done (m, k)
      else
        cmdline ← skip_spaces m cmdline;
        c ← ldb m cmdline;
        if c =? 0 then Done (m, k)
        else
          let arg := cmdline in
          end_ ← next_arg m cmdline;
          c ← ldb m end_;
          '(cmdline, m) ← (if negb (c =? 0) then m ← stb end_ 0 m; Done (end_ + 1, m) else Done (end_, m));
          k ← call_entries es m arg k;
          params_loop fuel es cmdline m k
  end.

Definition setup_params es (boot_cmdline cmdline : Z) (m : mem) (k : S) : run (mem * S) :=
  m ← CString.strncpy boot_cmdline cmdline (MAX_CMDLINE_LEN - 1) m;
  m ← stb (boot_cmdline + (MAX_CMDLINE_LEN - 1)) 0 m;
  params_loop (scan_fuel m) es boot_cmdline m k.

(** ** The reference: what the words do *)

Fixpoint word_calls es (w : list Z) (k : S) : run S :=
  match es with
  | [] => Done k
  | e :: es =>
      if starts_with (se_str e) w then
        '(r, k) ← se_fn e (drop (length (se_str e)) w) k;
        if negb (r =? 0) then Done k else word_calls es w k
      else word_calls es w k
  end.

Fixpoint words_calls es (ws : list (list Z)) (k : S) : run S :=
  match ws with [] => Done k | w :: ws => k ← word_calls es w k; words_calls es ws k end.

Lemma has_prefix_Done m str : ∀ a w, cstr m a w → Forall (λ c, c ≠ 0) str → has_prefix m a str = Done (starts_with str w).
Proof.
  induction str as [|d str IH]; intros a w Hw Hs; [done|]. apply Forall_cons in Hs as [Hd Hs]. cbn [has_prefix]. unfold starts_with in *. cbn [length take].
  destruct w as [|c w].
  - apply cstr_nil in Hw. rstep (ldb_Some _ _ _ Hw). by rewrite (proj2 (Z.eqb_neq 0 d)) by congruence.
  - apply cstr_cons in Hw as (Hc & _ & Hw). rstep (ldb_Some _ _ _ Hc). destruct (Z.eqb_spec c d) as [->|Hne].
    + rewrite (IH (a + 1) w Hw Hs). f_equal. apply bool_decide_ext. cbn [take]. split; congruence.
    + cbn [take]. by rewrite bool_decide_false by congruence.
Qed.

Lemma text_at_Done m a w : cstr m a w → text_at m a = Done w.
Proof.
  intros Hw. unfold text_at. rstep (CString.strlen_Done m a w Hw). rewrite Nat2Z.id. apply load_bytes_Done. destruct Hw as [Hw _].
  by apply bytes_at_app in Hw as [Hw _].
Qed.

Definition table_ok es : Prop := Forall (λ e, Forall (λ c, c ≠ 0) (se_str e)) es.

Lemma call_entries_Done es m a w k : cstr m a w → table_ok es → call_entries es m a k = word_calls es w k.
Proof.
  intros Hw. revert k. induction es as [|e es IH]; intros k Hes; [done|]. apply Forall_cons in Hes as [He Hes]. cbn [call_entries word_calls].
  rstep (has_prefix_Done m (se_str e) a w Hw He). unfold starts_with. case_bool_decide as Hp; [|by apply IH].
  assert (cstr m (a + Z.of_nat (length (se_str e))) (drop (length (se_str e)) w)) as Hv.
  { pose proof (take_drop (length (se_str e)) w) as Ew. rewrite Hp in Ew. rewrite <- Ew in Hw. by apply cstr_app in Hw. }
  rstep (text_at_Done _ _ _ Hv). destruct (se_fn e _ k) as [[r k']|]; [|done]. rsimpl. destruct (negb (r =? 0)); [done|by apply IH].
Qed.

(** ** The loop over the words *)

Lemma is_space_delim c : is_space c = is_delim [32] c.
Proof. unfold is_space, is_delim. symmetry. destruct (Z.eqb_spec c 32) as [->|H]; [done|]. apply bool_decide_eq_false. set_solver. Qed.

Lemma params_loop_Done es fuel : ∀ p s m k, cstr m p s → (length s < fuel)%nat → table_ok es →
  ∃ m', (∀ x, x < p ∨ p + Z.of_nat (length s) < x → m' !! x = m !! x) ∧
    params_loop fuel es p m k = match words_calls es (words [32] s) k with Done k' => Done (m', k') | Stop e => Stop e end.
Proof.
  induction fuel as [|fuel IH]; intros p s m k Hs Hf Hes; [lia|]. cbn [params_loop].
  destruct (cstr_head _ _ _ Hs) as [[-> Hc0]|(c0 & Hc0 & Hne)]; rstep (ldb_Some _ _ _ Hc0); [by exists m|]. rewrite Hne.
  destruct (words_first [32] is_space s is_space_delim) as (b & w & r & Esw & Hb & Hw & E1 & E2 & Hword).
  unfold skip_spaces. rstep (skip_while_Done (scan_fuel m) is_space is_space m p s b (w ++ r) eq_refl ltac:(done) Hs (cstr_fuel _ _ _ Hs) E1).
  assert (Hq := Hs). rewrite Esw in Hq. apply cstr_app in Hq. set (p1 := p + Z.of_nat (length b)) in *.
  assert (length s = length b + length w + length r)%nat as Hl by (rewrite Esw, !length_app; lia).
  destruct w as [|c w'].
  { destruct Hword as [-> ->]. apply cstr_nil in Hq. rstep (ldb_Some _ _ _ Hq). by exists m. }
  set (w := c :: w') in *. destruct Hword as [-> Hr].
  destruct (cstr_head _ _ _ Hq) as [[[=] _]|(c1 & Hc1 & Hne1)]. rstep (ldb_Some _ _ _ Hc1). rewrite Hne1. unfold next_arg.
  rstep (skip_while_Done (scan_fuel m) (λ c, negb ((c =? 0) || is_space c)) (λ c, negb (is_space c)) m p1 (w ++ r) w r eq_refl
    ltac:(intros x Hx; cbv beta; by rewrite (proj2 (Z.eqb_neq x 0)) by lia) Hq (cstr_fuel _ _ _ Hq) E2).
  set (q := p1 + Z.of_nat (length w)) in *. assert (Hr1 := cstr_app _ _ _ _ Hq). fold q in Hr1. cbn [words_calls].
  destruct (cstr_head _ _ _ Hr1) as [[-> Hz]|(x & Hx & Hxne)].
  - rstep (ldb_Some _ _ _ Hz). rewrite app_nil_r in Hq. change (negb (0 =? 0)) with false. rsimpl. rewrite (call_entries_Done es m p1 w k Hq Hes). destruct (word_calls es w k) as [k'|]; [|by exists m]. rsimpl.
    destruct (IH q [] m k' Hr1) as (m' & Hm' & E); [cbn in *; lia|done|]. exists m'. split; [|exact E]. intros y Hy. apply Hm'. cbn. lia.
  - rstep (ldb_Some _ _ _ Hx). rewrite Hxne. cbn [negb]. destruct r as [|x' r]; [apply cstr_nil in Hr1; rewrite Hr1 in Hx; by injection Hx as <-|].
    rewrite stb_Done by (by eexists || (unfold byte; lia)). rsimpl. change (<[q := 0]> m) with (put_at q [0] m).
    rewrite (call_entries_Done es (put_at q [0] m) p1 w k (cstr_cut _ _ _ _ Hq) Hes). destruct (word_calls es w k) as [k'|].
    2:{ exists (put_at q [0] m). split; [|done]. intros y Hy. apply put_at_out. cbn [length] in *. lia. }
    rsimpl. apply cstr_cons in Hr1 as (_ & _ & Hr2). cbn [length] in Hl. destruct (IH (q + 1) r (put_at q [0] m) k') as (m' & Hm' & E); [apply cstr_put; [done|cbn; lia]|cbn in *; lia|done|].
    exists m'. split; [|exact E]. intros y Hy. rewrite Hm' by lia. apply put_at_out. cbn. lia.
Qed.
End setup.

(** ** The copy of the command line *)

Lemma memset_loop_Done n c : ∀ p i m, mapped m (p + i) n → byte c → CString.memset_loop n p c i m = Done (put_at (p + i) (replicate n c) m).
Proof.
  induction n as [|n IH]; intros p i m Hm Hc; [done|]. apply mapped_S in Hm as [Ha Hm]. cbn [CString.memset_loop replicate put_at].
  rstep (stb_Done m (p + i) c Ha Hc). rewrite IH; [by rewrite Z.add_assoc| |done]. rewrite Z.add_assoc. by apply mapped_insert.
Qed.

Lemma kernel_strncpy_Done d a s n m : cstr m a s → mapped m d n → d + Z.of_nat n <= a ∨ a + Z.of_nat (length s) < d →
  CString.strncpy d a (Z.of_nat n) m = Done (put_at d (take n s ++ replicate (n - length s) 0) m).
Proof.
  intros Hs Hm Hd. unfold CString.strncpy. rewrite Nat2Z.id. change CString.strncpy_copy with strncpy_from. pose proof (strncpy_from_Done n d a 0 s m) as E.
  rewrite !Z.add_0_r, Z.add_0_l in E. rewrite (E Hs Hm Hd). rsimpl. pose proof (firstn_le_length n s) as Hle. rewrite memset_loop_Done.
  - rewrite (put_at_app d (take n s)). rewrite length_take. by replace (Z.to_nat (Z.of_nat n - Z.of_nat (n `min` length s))) with (n - length s)%nat by lia.
  - apply put_at_mapped. intros i Hi. rewrite <- Z.add_assoc, <- Nat2Z.inj_add. apply Hm. rewrite length_take in *. lia.
  - unfold byte. lia.
Qed.

Lemma setup_params_Done {S} (es : list (setup_entry S)) buf src s m k : cstr m src s → mapped m buf 1024 → buf + 1024 <= src ∨ src + Z.of_nat (length s) < buf → table_ok es →
  ∃ m', (∀ x, x < buf ∨ buf + 1024 <= x → m' !! x = m !! x) ∧
    setup_params es buf src m k = match words_calls es (words [32] (take 1023 s)) k with Done k' => Done (m', k') | Stop e => Stop e end.
Proof.
  intros Hs Hm Hd Hes. set (t := take 1023 s). set (pad := replicate (1023 - length s) 0). set (m1 := put_at buf ((t ++ pad) ++ [0]) m).
  assert (length (t ++ pad) = 1023%nat) as Hl by (unfold t, pad; rewrite length_app, length_take, length_replicate; lia).
  assert (length t <= 1023)%nat as Ht by (unfold t; rewrite length_take; lia).
  assert (cstr m1 buf t) as Ht1.
  { split; [|destruct Hs as [_ Hs]; by apply Forall_take]. assert (bytes_at m1 buf ((t ++ [0]) ++ pad)) as Hb; [|by apply bytes_at_app in Hb as [Hb _]].
    assert ((t ++ [0]) ++ pad = (t ++ pad) ++ [0]) as -> by (rewrite <- !app_assoc; f_equal; unfold pad; apply replicate_cons_app). apply put_at_in. }
  destruct (params_loop_Done es (scan_fuel m1) buf t m1 k Ht1 (cstr_fuel _ _ _ Ht1) Hes) as (m' & Hm' & E). exists m'. split.
  - intros x Hx. rewrite Hm' by lia. apply put_at_out. rewrite length_app, Hl. cbn. lia.
  - rewrite <- E. unfold setup_params. change (MAX_CMDLINE_LEN - 1) with (Z.of_nat 1023).
    rewrite (kernel_strncpy_Done buf src s 1023 m Hs ltac:(intros i Hi; apply Hm; lia) ltac:(lia)). rsimpl. fold t pad.
    rewrite stb_Done; [|apply put_at_keeps, Hm; lia|unfold byte; lia]. rsimpl. unfold m1. rewrite (put_at_app buf (t ++ pad)), Hl. done.
Qed.

(** ** The parameter of the kernel *)

Definition ROOT_ : list Z := chars "root=".

Definition kernel_params : list (setup_entry (list Z)) := [SetupEntry ROOT_ (λ v _, r ← setup_root v; Done (0, r))].

Definition root_values (ws : list (list Z)) : list (list Z) := omap (λ w, if starts_with ROOT_ w then Some (drop 5 w) else None) ws.

(** The ways to name a device that the kernel does not know. *)
Definition unsupported (v : list Z) : bool := starts_with UUID_ v || starts_with PARTUUID_ v || starts_with LABEL_ v.

Lemma word_calls_root w dev : word_calls kernel_params w dev =
  if starts_with ROOT_ w then if unsupported (drop 5 w) then Stop Panic else Done (take 63 (drop 5 w)) else Done dev.
Proof.
  unfold kernel_params. cbn [word_calls se_str se_fn]. destruct (starts_with ROOT_ w); [|done]. change (length ROOT_) with 5%nat.
  unfold setup_root, unsupported. by destruct (starts_with UUID_ _), (starts_with PARTUUID_ _), (starts_with LABEL_ _).
Qed.

Lemma words_calls_root ws : ∀ dev, words_calls kernel_params ws dev =
  if existsb unsupported (root_values ws) then Stop Panic else Done (default dev (last (take 63 <$> root_values ws))).
Proof.
  induction ws as [|w ws IH]; intros dev; [done|]. cbn [words_calls]. rewrite word_calls_root.
  assert (root_values (w :: ws) = if starts_with ROOT_ w then drop 5 w :: root_values ws else root_values ws) as ->
    by (unfold root_values; cbn [omap list_omap]; by destruct (starts_with ROOT_ w)).
  destruct (starts_with ROOT_ w); [|by rsimpl]. cbn [existsb]. destruct (unsupported (drop 5 w)); [done|]. rsimpl. rewrite IH. cbn [orb].
  destruct (existsb unsupported (root_values ws)); [done|]. f_equal. rewrite fmap_cons, last_cons. by destruct (last _).
Qed.

(** C36: The root device is the value of the last word of the command line that starts with root=, cut to 63 characters, and stays as it was when there
    is none; a value that names the device by UUID=, PARTUUID= or LABEL= stops the machine. Only the kernel's copy of the line is written. *)
Theorem root_parameter buf src s m dev : cstr m src s → mapped m buf 1024 → buf + 1024 <= src ∨ src + Z.of_nat (length s) < buf →
  let vs := root_values (words [32] (take 1023 s)) in
  ∃ m', (∀ x, x < buf ∨ buf + 1024 <= x → m' !! x = m !! x) ∧
    setup_params kernel_params buf src m dev = if existsb unsupported vs then Stop Panic else Done (m', default dev (last (take 63 <$> vs))).
Proof.
  intros Hs Hm Hd vs. destruct (setup_params_Done kernel_params buf src s m dev Hs Hm Hd) as (m' & Hm' & E); [by repeat constructor|].
  exists m'. split; [done|]. rewrite E, words_calls_root. fold vs. by destruct (existsb unsupported vs).
Qed.

(** The command line of the boot loader. *)
Definition boot_line : list Z := str_copy KERNEL_CMDLINE 256.

Lemma root_parameter_witness : let m := put_at 2000 (boot_line ++ [0]) (put_at 0 (replicate 1024 7) ∅) in
  ∃ m', (∀ x, x < 0 ∨ 0 + 1024 <= x → m' !! x = m !! x) ∧ setup_params kernel_params 0 2000 m [] = Done (m', chars "ata0p0").
Proof.
  intros m. apply (root_parameter 0 2000 boot_line m []).
  - split; [apply put_at_in|]. apply (bool_decide_unpack (Forall (λ c, 0 < c < 256) boot_line)). vm_compute. done.
  - apply put_at_mapped, put_at_filled.
  - left. lia.
Defined.
