(* ===== verification/Gdt.v ===== *)
(** * Segment descriptors and the task state segment (lizard/gdt.c, lizard/gdt.h, lizard/tss.c, lizard/tss.h)

    The descriptor table of the boot, the table that replaces it, and the task state segment behind two of its entries. The
    instructions that load the processor's registers are assignments of the state. What the processor reads in a descriptor is
    the specification. *)

From S2P Require Import Prelude Task.

Local Open Scope Z_scope.

Definition GDT_MAX_ENTRIES : Z := 1024.

Record global_descriptor := Descriptor {
  limit_low : Z; base_low : Z; base_middle : Z; gd_access : Z; granularity : Z; base_high : Z
}.

Definition GDT_ACCESS_PRESENT : Z := Z.shiftl 1 7.
Definition GDT_ACCESS_DPL3 : Z := Z.shiftl 3 5.
Definition GDT_ACCESS_S : Z := Z.shiftl 1 4.
Definition GDT_ACCESS_EX : Z := Z.shiftl 1 3.
Definition GDT_ACCESS_RW : Z := Z.shiftl 1 1.

Definition GDT_KERNEL_CODE : Z := Z.lor (Z.lor (Z.lor GDT_ACCESS_PRESENT GDT_ACCESS_S) GDT_ACCESS_EX) GDT_ACCESS_RW.
Definition GDT_KERNEL_DATA : Z := Z.lor (Z.lor GDT_ACCESS_PRESENT GDT_ACCESS_S) GDT_ACCESS_RW.
Definition GDT_USER_CODE : Z := Z.lor (Z.lor (Z.lor (Z.lor GDT_ACCESS_PRESENT GDT_ACCESS_DPL3) GDT_ACCESS_S) GDT_ACCESS_EX) GDT_ACCESS_RW.
Definition GDT_USER_DATA : Z := Z.lor (Z.lor (Z.lor GDT_ACCESS_PRESENT GDT_ACCESS_DPL3) GDT_ACCESS_S) GDT_ACCESS_RW.

Definition TSS_SEL : Z := 0x28.

Definition GDT_GRAN_4KB : Z := Z.shiftl 1 7.
Definition GDT_GRAN_64BIT : Z := Z.shiftl 1 5.
Definition GDT_GRAN_LIMIT_HIGH : Z := 0x0F.

(** The fields of the segment that the kernel writes; the others stay zero. *)
Record tss := Tss { rsp0 : Z; iopb_offset : Z }.
Definition tss_size : Z := 104.

Inductive gdt_table := BootTable | RuntimeTable.

(** The tables with their counters, the registers of the processor (table and limit, task register) and the task state segment. *)
Record gdt := Gdt {
  boot_gdt : list global_descriptor;
  runtime_gdt : list global_descriptor;
  gdt_next_index : Z;
  gdt_is_dynamic : bool;
  gdtr : option (gdt_table * Z);
  task_register : Z;
  main_tss : tss
}.

Definition gdt_create_gate (base limit access granularity : Z) : global_descriptor :=
  Descriptor (Z.land limit 0xFFFF) (Z.land base 0xFFFF) (Z.land (Z.shiftr base 16) 0xFF) access
    (Z.lor (Z.land (Z.shiftr limit 16) 0x0F) (Z.land granularity 0xF0)) (Z.land (Z.shiftr base 24) 0xFF).

(** The eight bytes of an entry, written as one word. *)
Definition descriptor_of (w : Z) : global_descriptor :=
  Descriptor (Z.land w 0xFFFF) (Z.land (Z.shiftr w 16) 0xFFFF) (Z.land (Z.shiftr w 32) 0xFF) (Z.land (Z.shiftr w 40) 0xFF)
    (Z.land (Z.shiftr w 48) 0xFF) (Z.land (Z.shiftr w 56) 0xFF).

Definition put_entry (i : Z) (g : global_descriptor) (n : Z) (s : gdt) : gdt :=
  Gdt (boot_gdt s) (<[Z.to_nat i := g]> (runtime_gdt s)) n (gdt_is_dynamic s) (gdtr s) (task_register s) (main_tss s).

Definition gdt_add_gate (base limit access granularity : Z) : st gdt Z := λ s,
  if negb (gdt_is_dynamic s) then Stop Panic
  else if GDT_MAX_ENTRIES <=? gdt_next_index s then Stop Panic
  else Done (gdt_next_index s, put_entry (gdt_next_index s) (gdt_create_gate base limit access granularity) (gdt_next_index s + 1) s).

Definition gdt_add_tss_gate (base limit access granularity : Z) : st gdt Z := λ s,
  if negb (gdt_is_dynamic s) then Stop Panic
  else if GDT_MAX_ENTRIES <=? gdt_next_index s + 1 then Stop Panic
  else
    let i := gdt_next_index s in
    let s := put_entry i (gdt_create_gate base limit access granularity) i s in
    let s := put_entry (i + 1) (descriptor_of (Z.shiftr base 32)) (i + 2) s in
    Done (i, s).

Definition gdt_load (t : gdt_table) (limit : Z) : st gdt unit :=
  st_modify (λ s, Gdt (boot_gdt s) (runtime_gdt s) (gdt_next_index s) (gdt_is_dynamic s) (Some (t, limit)) (task_register s) (main_tss s)).

Definition set_tss (t : tss) : st gdt unit :=
  st_modify (λ s, Gdt (boot_gdt s) (runtime_gdt s) (gdt_next_index s) (gdt_is_dynamic s) (gdtr s) (task_register s) t).

Definition load_task_register (sel : Z) : st gdt unit :=
  st_modify (λ s, Gdt (boot_gdt s) (runtime_gdt s) (gdt_next_index s) (gdt_is_dynamic s) (gdtr s) sel (main_tss s)).

(** The address of the task state segment is that of a static object. *)
Definition tss_init (main_tss_addr : Z) : st gdt unit :=
  _ ← set_tss (Tss 0 tss_size);
  index ← gdt_add_tss_gate main_tss_addr (tss_size - 1) 0x89 0;
  load_task_register (u16 (index * 8)).

Definition tss_set_stack (stack : Z) : st gdt unit := s ← st_get; set_tss (Tss stack (iopb_offset (main_tss s))).

Definition null_descriptor : global_descriptor := Descriptor 0 0 0 0 0 0.

Definition gdt_init_dynamic (main_tss_addr : Z) : st gdt unit :=
  _ ← st_modify (λ s, Gdt (boot_gdt s) (take 5 (boot_gdt s) ++ replicate (Z.to_nat GDT_MAX_ENTRIES - 5) null_descriptor) 5 true (gdtr s)
    (task_register s) (main_tss s));
  _ ← gdt_load RuntimeTable (8 * GDT_MAX_ENTRIES - 1);
  tss_init main_tss_addr.

Definition init_gdt : st gdt Z :=
  let gran := Z.lor (Z.lor GDT_GRAN_4KB GDT_GRAN_64BIT) GDT_GRAN_LIMIT_HIGH in
  let gates := [gdt_create_gate 0 0 0x00 0x00;
                gdt_create_gate 0 0xFFFFFFFF GDT_KERNEL_CODE gran;
                gdt_create_gate 0 0xFFFFFFFF GDT_KERNEL_DATA gran;
                gdt_create_gate 0 0xFFFFFFFF GDT_USER_CODE gran;
                gdt_create_gate 0 0xFFFFFFFF GDT_USER_DATA gran] in
  _ ← st_modify (λ s, Gdt gates (runtime_gdt s) (gdt_next_index s) (gdt_is_dynamic s) (gdtr s) (task_register s) (main_tss s));
  _ ← gdt_load BootTable (8 * 5 - 1);
  mret 0.

(** ** What the processor reads *)

Definition seg_base (g : global_descriptor) : Z := base_low g + 2 ^ 16 * base_middle g + 2 ^ 24 * base_high g.
Definition seg_limit (g : global_descriptor) : Z := limit_low g + 2 ^ 16 * (granularity g mod 16).
Definition seg_flags (g : global_descriptor) : Z := granularity g / 16 * 16.

Definition seg_present (g : global_descriptor) : bool := Z.testbit (gd_access g) 7.
Definition seg_dpl (g : global_descriptor) : Z := gd_access g / 32 mod 4.
Definition seg_type (g : global_descriptor) : Z := gd_access g mod 32.
Definition long_mode (g : global_descriptor) : bool := Z.testbit (granularity g) 5.

(** A code segment of the long mode, a data segment that can be written. *)
Definition is_code (g : global_descriptor) : Prop := seg_present g = true ∧ seg_type g = 0x1A ∧ long_mode g = true.
Definition is_data (g : global_descriptor) : Prop := seg_present g = true ∧ seg_type g = 0x12.

(** The entry that a selector names, whose privilege level is the one the selector asks for. *)
Definition selects (l : list global_descriptor) (sel : Z) (P : global_descriptor → Prop) : Prop :=
  ∃ g, l !! Z.to_nat (sel / 8) = Some g ∧ seg_dpl g = sel mod 4 ∧ P g.

(** The 16 bytes of a task state segment descriptor: available, present, with a base of 64 bits. *)
Definition is_tss (l : list global_descriptor) (sel base limit : Z) : Prop :=
  ∃ g h, l !! Z.to_nat (sel / 8) = Some g ∧ l !! S (Z.to_nat (sel / 8)) = Some h ∧ seg_present g = true ∧ seg_type g = 0x09 ∧
    seg_base g + 2 ^ 32 * (limit_low h + 2 ^ 16 * base_low h) = base ∧ seg_limit g = limit.

Lemma land_low x n : 0 <= n → Z.land x (Z.ones n) = x mod 2 ^ n.
Proof. intros Hn. by rewrite Z.land_ones. Qed.

Lemma shift_low x k n : 0 <= k → 0 <= n → Z.land (Z.shiftr x k) (Z.ones n) = x / 2 ^ k mod 2 ^ n.
Proof. intros Hk Hn. by rewrite Z.shiftr_div_pow2, Z.land_ones. Qed.

Lemma lor_parts a b n : 0 <= n → Z.lor (a mod 2 ^ n) (b * 2 ^ n) = a mod 2 ^ n + b * 2 ^ n.
Proof.
  intros Hn. assert (Z.land (a mod 2 ^ n) (b * 2 ^ n) = 0) as E; [|pose proof (Z.add_lor_land (a mod 2 ^ n) (b * 2 ^ n)); lia].
  apply Z.bits_inj. intros i. rewrite Z.land_spec, Z.bits_0. destruct (decide (i < n)).
  - rewrite (Z.mul_pow2_bits_low b n i) by lia. by rewrite andb_false_r.
  - by rewrite (Z.mod_pow2_bits_high a n i) by lia.
Qed.

Lemma high_nibble x : 0 <= x < 256 → Z.land x 0xF0 = x / 16 * 16.
Proof.
  intros Hx. change 0xF0 with (Z.ldiff (Z.ones 8) (Z.ones 4)). rewrite Z.ldiff_land, Z.land_assoc, land_low by lia. change (2 ^ 8) with 256. rewrite (Z.mod_small x) by lia.
  by rewrite <- Z.ldiff_land, Z.ldiff_ones_r, Z.shiftr_div_pow2, Z.shiftl_mul_pow2 by lia.
Qed.

(** A gate holds what it is made of: 32 bits of the base, 20 of the limit, the access byte and the flags. *)
Lemma gdt_create_gate_ok base limit access gran : 0 <= gran < 256 →
  let g := gdt_create_gate base limit access gran in
  seg_base g = base mod 2 ^ 32 ∧ seg_limit g = limit mod 2 ^ 20 ∧ gd_access g = access ∧ seg_flags g = gran / 16 * 16.
Proof.
  intros Hg g. assert (granularity g = limit / 2 ^ 16 mod 2 ^ 4 + gran / 16 * 16) as Egran.
  { unfold g, gdt_create_gate. cbn [granularity]. rewrite high_nibble by lia. change 0x0F with (Z.ones 4). rewrite shift_low by lia. apply (lor_parts _ _ 4). lia. }
  unfold seg_base, seg_limit, seg_flags. rewrite Egran. unfold g, gdt_create_gate. cbn [base_low base_middle base_high limit_low gd_access].
  change 0xFFFF with (Z.ones 16). change 0xFF with (Z.ones 8). rewrite !shift_low, !land_low by lia.
  split_and!; [..|done|]; Z.to_euclidean_division_equations; lia.
Qed.

(** ** The tables of the kernel *)

Definition gran64 : Z := Z.lor (Z.lor GDT_GRAN_4KB GDT_GRAN_64BIT) GDT_GRAN_LIMIT_HIGH.

(** The entry behind that of the segment has the high half of its base. *)
Lemma tss_pair addr limit : 0 <= addr < 2 ^ 64 → 0 <= limit < 2 ^ 20 →
  let g := gdt_create_gate addr limit 0x89 0 in let h := descriptor_of (Z.shiftr addr 32) in
  seg_base g + 2 ^ 32 * (limit_low h + 2 ^ 16 * base_low h) = addr ∧ seg_limit g = limit.
Proof.
  intros Ha Hl g h. destruct (gdt_create_gate_ok addr limit 0x89 0) as (Eb & El & _); [lia|]. fold g in Eb, El. rewrite Eb, El, (Z.mod_small limit) by lia.
  split; [|done]. unfold h, descriptor_of. cbn [limit_low base_low]. change 0xFFFF with (Z.ones 16). rewrite !land_low by lia.
  rewrite !Z.shiftr_div_pow2 by lia. Z.to_euclidean_division_equations. lia.
Qed.

Definition boot_gates : list global_descriptor :=
  [gdt_create_gate 0 0 0x00 0x00; gdt_create_gate 0 0xFFFFFFFF GDT_KERNEL_CODE gran64; gdt_create_gate 0 0xFFFFFFFF GDT_KERNEL_DATA gran64;
   gdt_create_gate 0 0xFFFFFFFF GDT_USER_CODE gran64; gdt_create_gate 0 0xFFFFFFFF GDT_USER_DATA gran64].

(** The table at the end, in one piece. *)
Definition final_gdt (addr : Z) : list global_descriptor :=
  boot_gates ++ gdt_create_gate addr (tss_size - 1) 0x89 0 :: descriptor_of (Z.shiftr addr 32) :: replicate (Z.to_nat GDT_MAX_ENTRIES - 7) null_descriptor.

Lemma init_gdt_Done s : init_gdt s = Done (0, Gdt boot_gates (runtime_gdt s) (gdt_next_index s) (gdt_is_dynamic s) (Some (BootTable, 39)) (task_register s) (main_tss s)).
Proof. done. Qed.

Lemma gdt_init_dynamic_Done addr s : boot_gdt s = boot_gates →
  gdt_init_dynamic addr s = Done (tt, Gdt boot_gates (final_gdt addr) 7 true (Some (RuntimeTable, 8 * GDT_MAX_ENTRIES - 1)) TSS_SEL (Tss 0 tss_size)).
Proof.
  intros E. unfold gdt_init_dynamic, tss_init, mbind, st_bind, st_modify. rewrite E.
  assert (replicate (Z.to_nat GDT_MAX_ENTRIES - 5) null_descriptor = null_descriptor :: null_descriptor :: replicate (Z.to_nat GDT_MAX_ENTRIES - 7) null_descriptor) as -> by done.
  unfold final_gdt. generalize (replicate (Z.to_nat GDT_MAX_ENTRIES - 7) null_descriptor). intros l. reflexivity.
Qed.

(** Whatever the state before, the two initialisations leave a loaded table in which each selector that a task's registers are given
    names a present segment of its own privilege level, long-mode code for KERNEL_CS and USER_CS and writable data for KERNEL_SS and USER_SS; the task register names the
    task state segment, with its whole 64-bit address, and the next gate goes behind it. *)
Theorem selectors_name_segments addr s : 0 <= addr < 2 ^ 64 →
  ∃ s', (_ ← init_gdt; gdt_init_dynamic addr) s = Done (tt, s') ∧ gdtr s' = Some (RuntimeTable, 8 * GDT_MAX_ENTRIES - 1) ∧
    Z.of_nat (length (runtime_gdt s')) = GDT_MAX_ENTRIES ∧
    selects (runtime_gdt s') KERNEL_CS is_code ∧ selects (runtime_gdt s') KERNEL_SS is_data ∧
    selects (runtime_gdt s') USER_CS is_code ∧ selects (runtime_gdt s') USER_SS is_data ∧
    task_register s' = TSS_SEL ∧ is_tss (runtime_gdt s') TSS_SEL addr (tss_size - 1) ∧ gdt_next_index s' = 7.
Proof.
  intros Ha. eexists. split; [unfold mbind, st_bind; rewrite init_gdt_Done, gdt_init_dynamic_Done by done; reflexivity|]. cbn [gdtr runtime_gdt task_register gdt_next_index].
  split; [done|]. split; [by unfold final_gdt; rewrite length_app, !length_cons, length_replicate|]. unfold final_gdt.
  generalize (replicate (Z.to_nat GDT_MAX_ENTRIES - 7) null_descriptor). intros l.
  repeat (split; [eexists; split; [reflexivity|]; split; [reflexivity|by repeat split]|]).
  split; [done|]. split; [|done]. eexists _, _. split; [reflexivity|]. split; [reflexivity|]. split; [done|]. split; [done|]. apply tss_pair; [done|by split].
Qed.

Definition reset : gdt := Gdt [] [] 0 false None 0 (Tss 0 0).

Lemma selectors_name_segments_witness :
  ∃ s', (_ ← init_gdt; gdt_init_dynamic 0xffffffff80123450) reset = Done (tt, s') ∧ gdtr s' = Some (RuntimeTable, 8 * GDT_MAX_ENTRIES - 1) ∧
    Z.of_nat (length (runtime_gdt s')) = GDT_MAX_ENTRIES ∧
    selects (runtime_gdt s') KERNEL_CS is_code ∧ selects (runtime_gdt s') KERNEL_SS is_data ∧
    selects (runtime_gdt s') USER_CS is_code ∧ selects (runtime_gdt s') USER_SS is_data ∧
    task_register s' = TSS_SEL ∧ is_tss (runtime_gdt s') TSS_SEL 0xffffffff80123450 (tss_size - 1) ∧ gdt_next_index s' = 7.
Proof. apply (selectors_name_segments 0xffffffff80123450 reset). by split. Defined.
