(* ===== verification/Interrupts.v ===== *)
(** * Interrupt gates, the interrupt controller and the timers (lizard/idt.c, lizard/pic.c, lizard/pit.c, lizard/timer.c)

    The interrupt descriptor table as data, what the processor reads in it as the specification, and the drivers of the two
    controller chips and of the interval timer over the port instructions. *)

From S2P Require Import Prelude Task Ports Gdt.

Local Open Scope Z_scope.

Definition IDT_ENTRIES : Z := 256.

Record idt_entry := IdtEntry {
  offset_low : Z; selector : Z; ist : Z; type_attr : Z; offset_mid : Z; offset_high : Z; zero : Z
}.

(** ** The interrupt descriptor table *)

Definition gate_for (addr flags : Z) : idt_entry :=
  IdtEntry (Z.land addr 0xFFFF) KERNEL_CS 0 flags (Z.land (Z.shiftr addr 16) 0xFFFF) (Z.land (Z.shiftr addr 32) 0xFFFFFFFF) 0.

Definition set_idt_gate (vector addr flags : Z) (idt : list idt_entry) : run (list idt_entry) :=
  if (0 <=? vector) && (vector <? Z.of_nat (length idt)) then Done (<[Z.to_nat vector := gate_for addr flags]> idt) else Stop Fault.

(** [for (int i = 0; i < IDT_ENTRIES; i++)], from [i] on. *)
Fixpoint set_gates (n : nat) (i : Z) (stubs : Z → Z) (idt : list idt_entry) : run (list idt_entry) :=
  match n with
  | O => Done idt
  | S n => idt ← set_idt_gate i (stubs i) 0x8E idt; set_gates n (i + 1) stubs idt
  end.

(** The table of the handlers is cleared as well; [stubs] is the table of the entry points. *)
Definition init_idt {H} (stubs : Z → Z) (idt : list idt_entry) (isr_table : Z → option H) : run (list idt_entry * (Z → option H)) :=
  idt ← set_gates (Z.to_nat IDT_ENTRIES) 0 stubs idt; Done (idt, λ _, None).

(** ** The controller chips *)

Definition PIC1_COMMAND : Z := 0x20.
Definition PIC1_DATA : Z := 0x21.
Definition PIC2_COMMAND : Z := 0xA0.
Definition PIC2_DATA : Z := 0xA1.
Definition PIC_EOI : Z := 0x20.
Definition PIC_INIT_COMMAND : Z := 0x11.
Definition PIC_CASCADE_CONFIG : Z := 0x04.
Definition PIC_MODE_CONFIG : Z := 0x01.
Definition PIC_VECTOR_OFFSET1 : Z := 32.
Definition PIC_VECTOR_OFFSET2 : Z := 40.

Definition PIT_COMMAND : Z := 0x43.
Definition PIT_CHANNEL0 : Z := 0x40.
Definition PIT_FREQUENCY_HZ : Z := 1193182.
Definition PIT_TARGET_HZ : Z := 1000.
Definition PIT_DESIRED_FREQUENCY_HZ : Z := PIT_FREQUENCY_HZ / PIT_TARGET_HZ.
Definition PIT_VECTOR_INDEX : Z := 32.

Section drivers.
Context {W : Type} `{!ports W}.

Definition PIC_remap : st W Z :=
  _ ← outb PIC1_COMMAND PIC_INIT_COMMAND;
  _ ← outb PIC2_COMMAND PIC_INIT_COMMAND;
  _ ← outb PIC1_DATA PIC_VECTOR_OFFSET1;
  _ ← outb PIC2_DATA PIC_VECTOR_OFFSET2;
  _ ← outb PIC1_DATA PIC_CASCADE_CONFIG;
  _ ← outb PIC2_DATA 0x02;
  _ ← outb PIC1_DATA PIC_MODE_CONFIG;
  _ ← outb PIC2_DATA PIC_MODE_CONFIG;
  _ ← outb PIC1_DATA 0xFF;
  _ ← outb PIC2_DATA 0xFF;
  mret 0.

Definition PIC_sendEOI (irq : Z) : st W unit :=
  _ ← (if 8 <=? irq then outb PIC2_COMMAND PIC_EOI else mret tt);
  outb PIC1_COMMAND PIC_EOI.

Definition PIC_unmaskIRQ (irq : Z) : st W unit :=
  let '(port, irq) := if irq <? 8 then (PIC1_DATA, irq) else (PIC2_DATA, irq - 8) in
  value ← inb port;
  outb port (Z.land value (u8 (Z.lnot (Z.shiftl 1 irq)))).

Definition PIC_unmaskVector (vector : Z) : st W unit :=
  if (vector <? 32) || (47 <? vector) then mret tt else PIC_unmaskIRQ (vector - 32).

(** The entry of every interrupt: the registers [regs] are where the handlers look for them ([set_ptrace]), then an exception, or the handler of the
    table and its acknowledgement. *)
Definition isr_common_entry {R} (set_ptrace : R → st W unit) (exception_handle : R → st W unit) (isr_table : Z → option (R → st W unit)) (int_id : Z) (regs : R) : st W unit :=
  _ ← set_ptrace regs;
  if int_id <? 32 then exception_handle regs
  else match isr_table int_id with Some isr => _ ← isr regs; PIC_sendEOI 15 | None => mret tt end.

(** ** The interval timer *)

Definition pit_stop : st W unit := mask ← inb PIC1_DATA; outb PIC1_DATA (Z.lor mask 0x01).
Definition pit_start : st W unit := PIC_unmaskVector PIT_VECTOR_INDEX.

(** The new table of the handlers is the second part of the result. *)
Definition pit_init {H} (isr_pit : H) (isr_table : Z → option H) : st W (Z * (Z → option H)) :=
  _ ← outb PIT_COMMAND 0x36;
  _ ← outb PIT_CHANNEL0 (Z.land PIT_DESIRED_FREQUENCY_HZ 0xFF);
  _ ← outb PIT_CHANNEL0 (u8 (Z.shiftr PIT_DESIRED_FREQUENCY_HZ 8));
  mret (0, λ v, if v =? PIT_VECTOR_INDEX then Some isr_pit else isr_table v).
End drivers.

(** ** Timer drivers *)

Record timer_driver (W : Type) := TimerDriver {
  td_init : option (st W Z); td_start : option (st W unit); td_stop : option (st W unit); td_read : option (st W Z)
}.
Arguments TimerDriver {_} _ _ _ _.
Arguments td_init {_} _.
Arguments td_start {_} _.
Arguments td_stop {_} _.
Arguments td_read {_} _.

Record timers (W : Type) := Timers { active_timer : option (timer_driver W); registered_timers : list (timer_driver W) }.
Arguments Timers {_} _ _.
Arguments active_timer {_} _.
Arguments registered_timers {_} _.

Section timers.
Context {W : Type}.

Definition register_timer (d : timer_driver W) (t : timers W) : timers W :=
  Timers (match active_timer t with Some a => Some a | None => Some d end) (d :: registered_timers t).

(** The operation of the active driver, when there is a driver that has it. *)
Definition active_op {A} (op : timer_driver W → option (st W A)) (t : timers W) : option (st W A) := active_timer t ≫= op.

Definition timer_init (t : timers W) : st W Z := match active_op td_init t with Some m => m | None => mret (-1) end.
Definition timer_start (t : timers W) : st W unit := match active_op td_start t with Some m => m | None => mret tt end.
Definition timer_stop (t : timers W) : st W unit := match active_op td_stop t with Some m => m | None => mret tt end.
Definition timer_read (t : timers W) : st W Z := match active_op td_read t with Some m => m | None => mret 0 end.
End timers.

(** ** What the processor reads in a gate *)

Definition gate_offset (g : idt_entry) : Z := offset_low g + 2 ^ 16 * offset_mid g + 2 ^ 32 * offset_high g.
Definition gate_dpl (g : idt_entry) : Z := type_attr g / 32 mod 4.

(** A present interrupt gate, which clears the interrupt flag, into the code of the kernel. *)
Definition interrupt_gate (g : idt_entry) : Prop := Z.testbit (type_attr g) 7 = true ∧ type_attr g mod 16 = 0x0E ∧ selector g = KERNEL_CS.

Lemma gate_for_ok addr flags : 0 <= addr < 2 ^ 64 → gate_offset (gate_for addr flags) = addr.
Proof.
  intros Ha. unfold gate_offset, gate_for. cbn [offset_low offset_mid offset_high]. change 0xFFFF with (Z.ones 16). change 0xFFFFFFFF with (Z.ones 32).
  rewrite !shift_low, land_low by lia. Z.to_euclidean_division_equations. lia.
Qed.

Lemma set_gates_Done n stubs : ∀ i idt, 0 <= i → i + Z.of_nat n <= Z.of_nat (length idt) →
  ∃ idt', set_gates n i stubs idt = Done idt' ∧ length idt' = length idt ∧
    ∀ v : nat, idt' !! v = if decide (i <= Z.of_nat v < i + Z.of_nat n) then Some (gate_for (stubs (Z.of_nat v)) 0x8E) else idt !! v.
Proof.
  induction n as [|n IH]; intros i idt Hi Hn; cbn [set_gates].
  { exists idt. split; [done|]. split; [done|]. intros v. by rewrite decide_False by lia. }
  unfold set_idt_gate. rewrite (proj2 (Z.leb_le _ _)), (proj2 (Z.ltb_lt _ _)) by lia. cbn [andb]. rsimpl.
  destruct (IH (i + 1) (<[Z.to_nat i := gate_for (stubs i) 0x8E]> idt)) as (idt' & E & El & Ev); [lia|rewrite length_insert; lia|].
  exists idt'. split; [exact E|]. rewrite length_insert in El. split; [exact El|]. intros v. rewrite Ev. case_decide; case_decide; try lia; try done.
  - assert (v = Z.to_nat i) as -> by lia. rewrite list_lookup_insert_eq by lia. by rewrite Z2Nat.id by lia.
  - rewrite list_lookup_insert_ne by lia. done.
Qed.

(** C37: After the initialisation and the gate of the system calls, every vector has a present interrupt gate into the code of the kernel at the address of
    its entry point, and software of user mode can raise the vector of the system calls and no other. *)
Theorem only_syscall_gate_open (stubs : Z → Z) (sys : Z) idt (table : Z → option unit) : length idt = Z.to_nat IDT_ENTRIES →
  (∀ v, 0 <= v < IDT_ENTRIES → 0 <= stubs v < 2 ^ 64) → 0 <= sys < 2 ^ 64 →
  ∃ idt1 t1 idt2, init_idt stubs idt table = Done (idt1, t1) ∧ set_idt_gate 0x80 sys 0xEE idt1 = Done idt2 ∧
    ∀ v, 0 <= v < IDT_ENTRIES → ∃ g, idt2 !! Z.to_nat v = Some g ∧ interrupt_gate g ∧ gate_offset g = (if v =? 0x80 then sys else stubs v) ∧
      gate_dpl g = (if v =? 0x80 then 3 else 0).
Proof.
  intros Hl Hs Hsys. unfold IDT_ENTRIES in *. destruct (set_gates_Done (Z.to_nat 256) stubs 0 idt) as (idt1 & E1 & El & Ev); [lia|lia|].
  exists idt1, (λ _, None), (<[Z.to_nat 0x80 := gate_for sys 0xEE]> idt1). unfold init_idt, IDT_ENTRIES. split; [by rewrite E1|]. split.
  { unfold set_idt_gate. rewrite El, Hl. done. }
  intros v Hv. destruct (Z.eqb_spec v 0x80) as [->|Hne].
  - exists (gate_for sys 0xEE). split; [apply list_lookup_insert_eq; lia|]. split; [done|]. split; [by apply gate_for_ok|done].
  - exists (gate_for (stubs v) 0x8E). rewrite list_lookup_insert_ne by lia. rewrite Ev, decide_True by lia. rewrite Z2Nat.id by lia.
    split; [done|]. split; [done|]. split; [apply gate_for_ok, Hs; lia|done].
Qed.

Lemma only_syscall_gate_open_witness :
  ∃ idt1 t1 idt2, init_idt (λ v, 0xffffffff80100000 + 16 * v) (replicate (Z.to_nat IDT_ENTRIES) (IdtEntry 0 0 0 0 0 0 0)) (λ _ : Z, @None unit) = Done (idt1, t1) ∧
    set_idt_gate 0x80 0xffffffff80200000 0xEE idt1 = Done idt2 ∧
    ∀ v, 0 <= v < IDT_ENTRIES → ∃ g, idt2 !! Z.to_nat v = Some g ∧ interrupt_gate g ∧
      gate_offset g = (if v =? 0x80 then 0xffffffff80200000 else 0xffffffff80100000 + 16 * v) ∧ gate_dpl g = (if v =? 0x80 then 3 else 0).
Proof.
  apply (only_syscall_gate_open (λ v, 0xffffffff80100000 + 16 * v) 0xffffffff80200000).
  - reflexivity.
  - unfold IDT_ENTRIES. lia.
  - by split.
Defined.

(** ** The masks of the controller *)

(** After its initialisation each chip has a mask register behind its data port. *)
Class MaskLaws (W : Type) `{!ports W} := {
  imr : W → Z → Z;
  ml_byte w p : 0 <= imr w p < 256;
  ml_in p w : p = PIC1_DATA ∨ p = PIC2_DATA → inb p w = Done (imr w p, w);
  ml_out p x w : p = PIC1_DATA ∨ p = PIC2_DATA → 0 <= x < 256 →
    ∃ w', outb p x w = Done (tt, w') ∧ ∀ q, imr w' q = if q =? p then x else imr w q
}.

Section masks.
Context {W : Type} `{!ports W, !MaskLaws W}.

Definition masked (w : W) (irq : Z) : bool :=
  if irq <? 8 then Z.testbit (imr w PIC1_DATA) irq else Z.testbit (imr w PIC2_DATA) (irq - 8).

Lemma clear_bit x k i : 0 <= x < 256 → 0 <= k < 8 → 0 <= i < 8 →
  0 <= Z.land x (u8 (Z.lnot (Z.shiftl 1 k))) < 256 ∧ Z.testbit (Z.land x (u8 (Z.lnot (Z.shiftl 1 k)))) i = Z.testbit x i && negb (i =? k).
Proof.
  intros Hx Hk Hi. assert (u8 (Z.lnot (Z.shiftl 1 k)) = Z.land (Z.lnot (Z.shiftl 1 k)) (Z.ones 8)) as -> by (by rewrite Z.land_ones).
  rewrite Z.land_assoc. split.
  - rewrite Z.land_ones by lia. apply Z.mod_pos_bound. lia.
  - rewrite !Z.land_spec, Z.lnot_spec, Z.ones_spec_low, andb_true_r by lia. f_equal. f_equal. rewrite Z.shiftl_spec by lia.
    destruct (Z.eqb_spec i k) as [->|Hne]; [by rewrite Z.sub_diag|]. destruct (decide (i < k)); [by rewrite Z.testbit_neg_r by lia|].
    apply Z.bits_above_log2; [done|]. change (Z.log2 1) with 0. lia.
Qed.

(** Unmasking a vector of the controller clears the mask of its line and of no other; another vector changes nothing. *)
Lemma PIC_unmaskVector_ok v w : ∃ w', PIC_unmaskVector v w = Done (tt, w') ∧
  ∀ irq, 0 <= irq < 16 → masked w' irq = masked w irq && negb (irq =? v - 32).
Proof.
  unfold PIC_unmaskVector. destruct ((v <? 32) || (47 <? v)) eqn:Hr.
  { exists w. split; [done|]. intros irq Hirq. apply orb_true_iff in Hr. rewrite (proj2 (Z.eqb_neq irq (v - 32))); [by rewrite andb_true_r|].
    destruct Hr as [Hr%Z.ltb_lt|Hr%Z.ltb_lt]; lia. }
  breflect. unfold PIC_unmaskIRQ. set (port := if v - 32 <? 8 then PIC1_DATA else PIC2_DATA). set (k := if v - 32 <? 8 then v - 32 else v - 32 - 8).
  assert ((if v - 32 <? 8 then (PIC1_DATA, v - 32) else (PIC2_DATA, v - 32 - 8)) = (port, k)) as -> by (unfold port, k; by case_match).
  assert (port = PIC1_DATA ∨ port = PIC2_DATA) as Hport by (unfold port; case_match; auto). assert (0 <= k < 8) as Hk by (unfold k; case_match; breflect; lia).
  destruct (ml_out port (Z.land (imr w port) (u8 (Z.lnot (Z.shiftl 1 k)))) w Hport) as (w' & E & Hw'); [apply (clear_bit _ _ 0); [apply ml_byte|done|lia]|].
  exists w'. split; [unfold mbind, st_bind; by rewrite (ml_in port w Hport), E|]. intros irq Hirq. unfold masked. rewrite !Hw'.
  destruct (Z.ltb_spec irq 8); unfold port, k; destruct (Z.ltb_spec (v - 32) 8);
    change (PIC1_DATA =? PIC1_DATA) with true || change (PIC1_DATA =? PIC2_DATA) with false || change (PIC2_DATA =? PIC1_DATA) with false || change (PIC2_DATA =? PIC2_DATA) with true; cbv iota.
  - apply clear_bit; [apply ml_byte|lia|lia].
  - by rewrite (proj2 (Z.eqb_neq irq (v - 32))), andb_true_r by lia.
  - by rewrite (proj2 (Z.eqb_neq irq (v - 32))), andb_true_r by lia.
  - destruct (clear_bit (imr w PIC2_DATA) (v - 32 - 8) (irq - 8)) as [_ ->]; [apply ml_byte|lia|lia|]. f_equal. f_equal. by destruct (Z.eqb_spec (irq - 8) (v - 32 - 8)), (Z.eqb_spec irq (v - 32)); try lia.
Qed.
End masks.
