(* ===== verification/Startup.v ===== *)
(** * Kernel start-up (lizard/init.c, lizard/init.h)

    The initialisers run in the order that the linker makes of the names of their sections, and the pages of the
    code and data that only they use are given to the page allocator afterwards. The initialisers are the operations of an interface; most are
    modelled with their components. *)

From S2P Require Import Prelude Helpers ListHead EarlyAlloc Buddy.

Local Open Scope Z_scope.

(** ** The order of the initialisers *)

Record initcall := Initcall { ic_fn : list Z; ic_level : Z; ic_subl : list Z }.

Definition early_initcall (fn : list Z) : initcall := Initcall fn 0 (chars "00").
Definition core_initcall (fn : list Z) : initcall := Initcall fn 1 (chars "00").
Definition postcore_initcall (fn : list Z) : initcall := Initcall fn 2 (chars "00").
Definition subsys_initcall (fn : list Z) : initcall := Initcall fn 4 (chars "00").
Definition fs_initcall (fn : list Z) : initcall := Initcall fn 5 (chars "00").
Definition device_initcall (fn : list Z) : initcall := Initcall fn 6 (chars "00").
Definition late_initcall (fn : list Z) : initcall := Initcall fn 7 (chars "00").

(** The name of the section of a registration, which the macro [__initcall] makes. *)
Definition section_of (c : initcall) : list Z :=
  chars ".initcall" ++ [48 + ic_level c] ++ chars ".sublevel" ++ ic_subl c ++ chars "_" ++ ic_fn c ++ chars ".init".

Fixpoint name_leb (a b : list Z) : bool :=
  match a, b with
  | [], _ => true
  | _, [] => false
  | x :: a, y :: b => if x <? y then true else if y <? x then false else name_leb a b
  end.

(** [SORT] in the script of the linker. *)
Fixpoint put_sorted (c : initcall) (l : list initcall) : list initcall :=
  match l with [] => [c] | d :: l => if name_leb (section_of c) (section_of d) then c :: d :: l else d :: put_sorted c l end.

Definition level_of (n : Z) (cs : list initcall) : list initcall := foldr put_sorted [] (filter (λ c, ic_level c = n) cs).

(** The registrations of the kernel. *)
Definition registered : list initcall :=
  [device_initcall (chars "ata_detect_devices"); core_initcall (chars "buddy_init"); core_initcall (chars "init_cpuid"); early_initcall (chars "early_alloc_init");
   fs_initcall (chars "fat16_init"); early_initcall (chars "init_framebuffer"); core_initcall (chars "init_gdt"); core_initcall (chars "init_idt");
   device_initcall (chars "init_keyboard"); core_initcall (chars "PIC_remap"); core_initcall (chars "pit_register"); subsys_initcall (chars "sched_init");
   early_initcall (chars "setup_params"); device_initcall (chars "syscall_init"); early_initcall (chars "tty_init"); late_initcall (chars "vfs_init");
   postcore_initcall (chars "vmm_init")].

(** ** The start *)

(** What the start calls, on the state [K] of the kernel; the result of an initialiser is not looked at. *)
Class kernel_ops (K : Type) := KernelOps {
  call : list Z → K → run K;
  gdt_init_dynamic : K → run K;
  time_init : K → run K;
  timer_init : K → run K;
  timer_start : K → run K;
  start_interrupts : K → run K;
  free_init : K → run K
}.

Section start.
Context {K : Type} `{!kernel_ops K}.

Fixpoint do_initcalls (cs : list initcall) (k : K) : run K :=
  match cs with [] => Done k | c :: cs => k ← call (ic_fn c) k; do_initcalls cs k end.

Definition kernel_bootstrap (cs : list initcall) (k : K) : run K :=
  k ← do_initcalls (level_of 0 cs) k;
  k ← do_initcalls (level_of 1 cs) k;
  k ← do_initcalls (level_of 2 cs) k;
  k ← do_initcalls (level_of 3 cs) k;
  k ← do_initcalls (level_of 4 cs) k;
  k ← gdt_init_dynamic k;
  k ← time_init k;
  k ← timer_init k;
  k ← timer_start k;
  k ← start_interrupts k;
  k ← do_initcalls (level_of 5 cs) k;
  k ← do_initcalls (level_of 6 cs) k;
  k ← do_initcalls (level_of 7 cs) k;
  free_init k.
End start.

(** ** The pages of the initialisers *)

(** [for (u64 addr = start; addr < end; addr += PAGE_SIZE)], with [n] rounds to go at most. *)
Fixpoint free_range (n : nat) (addr end_ virt_base phys_base hhdm_offset : Z) (b : buddy_allocator) : run buddy_allocator :=
  match n with
  | O => Stop Diverge
  | S n =>
      if addr <? end_ then
        let phys := u64 (u64 (addr - virt_base) + phys_base) in
        b ← buddy_free (u64 (phys + hhdm_offset)) 0 hhdm_offset b;
        free_range n (u64 (addr + PAGE_SIZE)) end_ virt_base phys_base hhdm_offset b
      else Done b
  end.

(** The bounds of the sections and the start of the kernel are symbols of the linker. The number of pages, for the message, is the second part. *)
Definition free_init_sections (init_start init_end kernel_start phys_base hhdm_offset : Z) (b : buddy_allocator) : run (buddy_allocator * Z) :=
  let start := align_down init_start PAGE_SIZE in
  let end_ := align_up init_end PAGE_SIZE in
  let pages := u64 (end_ - start) / PAGE_SIZE in
  b ← free_range (S (Z.to_nat pages)) start end_ kernel_start phys_base hhdm_offset b;
  Done (b, i32 pages).

(** ** The order, as it comes out *)

#[local] Instance trace_ops : kernel_ops (list (list Z)) := {|
  call f k := Done (k ++ [f]);
  gdt_init_dynamic k := Done (k ++ [chars "gdt_init_dynamic"]);
  time_init k := Done (k ++ [chars "time_init"]);
  timer_init k := Done (k ++ [chars "timer_init"]);
  timer_start k := Done (k ++ [chars "timer_start"]);
  start_interrupts k := Done (k ++ [chars "sti"]);
  free_init k := Done (k ++ [chars "free_init_sections"])
|}.

(** Within a level the order is that of the names, upper case first. *)
Lemma bootstrap_order : kernel_bootstrap registered [] = Done
  [chars "early_alloc_init"; chars "init_framebuffer"; chars "setup_params"; chars "tty_init";
   chars "PIC_remap"; chars "buddy_init"; chars "init_cpuid"; chars "init_gdt"; chars "init_idt"; chars "pit_register";
   chars "vmm_init"; chars "sched_init"; chars "gdt_init_dynamic"; chars "time_init"; chars "timer_init"; chars "timer_start"; chars "sti";
   chars "fat16_init"; chars "ata_detect_devices"; chars "init_keyboard"; chars "syscall_init"; chars "vfs_init"; chars "free_init_sections"].
Proof. vm_compute. reflexivity. Qed.

(** ** The free lists are determined by the allocator *)

Lemma seg_unique {K} `{!EqDecision K, !Countable K} (s : gmap K (list_head K)) b l1 : ∀ l2 a, seg s a l1 b → seg s a l2 b → b ∉ l1 → b ∉ l2 → l1 = l2.
Proof.
  induction l1 as [|x l1 IH]; intros [|y l2] a; cbn [seg]; [done|..].
  - intros [E _] (E' & _) _ Hb. destruct Hb. assert (y = b) as -> by congruence. by left.
  - intros (E & _) [E' _] Hb _. destruct Hb. assert (x = b) as -> by congruence. by left.
  - intros (E & _ & S1) (E' & _ & S2) H1 H2. assert (x = y) as -> by congruence. f_equal. apply (IH l2 y); [done|done|by intros ?; apply H1; right|by intros ?; apply H2; right].
Qed.

Lemma blk_unique b L1 L2 o p : buddy_inv b L1 → buddy_inv b L2 → blk L1 o p → blk L2 o p.
Proof.
  intros I1 I2 (xs & E & Hp). assert (0 <= o <= MAX_ORDER) as Ho by (eapply blk_range; [exact I1|by exists xs]).
  destruct (area_list b L2 o I2 Ho) as [ys E2]. assert (xs = ys) as ->; [|by exists ys].
  pose proof (lo_nodup _ _ (bi_lists _ _ I1) _ _ E) as N1%NoDup_cons_1_1. pose proof (lo_nodup _ _ (bi_lists _ _ I2) _ _ E2) as N2%NoDup_cons_1_1.
  eapply (seg_unique (links b) (Area o)); [by apply (lo_ring _ _ (bi_lists _ _ I1))|by apply (lo_ring _ _ (bi_lists _ _ I2))|done|done].
Qed.

Lemma free_page_unique b L1 L2 q : buddy_inv b L1 → buddy_inv b L2 → free_page L1 q → free_page L2 q.
Proof. intros I1 I2 (o & p & Hb & Hq). exists o, p. split; [by apply (blk_unique b L1 L2)|done]. Qed.

(** ** What the allocator can hand out never grows *)

Section within.
Variables (hhdm n : Z) (F : Z → Prop).
Hypothesis hhdm_pos : 0 < hhdm.
Hypothesis hhdm_top : hhdm + n * PAGE_SIZE < 2 ^ 64.

(** The free frames and those of the blocks in [A] satisfy [F]. *)
Definition within (b : buddy_allocator) (A : list (Z * Z)) : Prop :=
  (∃ L, buddy_inv b L ∧ ∀ q, free_page L q → F q) ∧
  ∀ o p q, (o, p * PAGE_SIZE + hhdm) ∈ A → in_block o p q → F q.

Lemma within_step c c' : buddy_step hhdm c c' → buddy_config hhdm n c.1 c.2 → within c.1 c.2 → within c'.1 c'.2.
Proof.
  intros [o b A b' v Ho E Hv|o b A b' Ho E|o v b A1 A2 b' E] HC [(L & I & HL) HA]; cbn [fst snd] in *.
  - destruct (buddy_alloc_ok o hhdm b L I Ho) as [[E' _]|(p & b1 & L1 & E' & Al)]; rewrite E' in E; [naive_solver|]. injection E as -> Ev.
    destruct Al as [I1 C1 Hp Hal Hhi Hwas Hfree _ _]. rewrite (bc_count _ _ _ _ HC) in Hhi. pose proof (pow2_pos o Ho) as Hpos. unfold PAGE_SIZE in *.
    rewrite wrap_small in Ev by lia. split; [exists L1; split; [done|]; intros q [? _]%Hfree; by apply HL|].
    intros o2 p2 q [[= -> E2]|Hin]%elem_of_cons Hq; [|by eapply HA]. assert (p2 = p) as -> by (unfold PAGE_SIZE in *; lia). by apply HL, Hwas.
  - destruct (buddy_alloc_ok o hhdm b L I Ho) as [[E' _]|(p & b1 & L1 & E' & Al)].
    + rewrite E' in E. injection E as <-. split; [by exists L|done].
    + rewrite E' in E. injection E as -> E. destruct Al as [_ _ Hp _ Hhi _ _ _ _]. rewrite (bc_count _ _ _ _ HC) in Hhi. pose proof (pow2_pos o Ho).
      unfold PAGE_SIZE in *. rewrite wrap_small in E; lia.
  - destruct HC as [C (L2 & I2 & HV) _]. destruct (HV (o, v)) as (p & Ep & V); [set_solver|]. cbn [fst snd] in *.
    destruct (vacant_addr hhdm n hhdm_pos hhdm_top b L2 o p C V) as [Eu Hpos].
    destruct (buddy_free_ok o hhdm b L2 p I2 V) as (b1 & L1 & Ef & I1 & _ & Fr); [lia|by rewrite C|done|].
    rewrite Eu, <- Ep, E in Ef. injection Ef as <-. split.
    + exists L1. split; [done|]. intros q [Hq|Hq]%Fr; [by apply HL, (free_page_unique b L2 L)|]. apply (HA o p q); [|done]. rewrite <- Ep. set_solver.
    + intros o2 p2 q Hin. apply HA. set_solver.
Qed.

Lemma within_reach c c' : rtc (buddy_step hhdm) c c' → buddy_config hhdm n c.1 c.2 → within c.1 c.2 → within c'.1 c'.2.
Proof. induction 1 as [|c1 c2 c3 Hs _ IH]; [done|]. intros HC Hw. apply IH; [by eapply config_step|by eapply within_step]. Qed.
End within.

(** ** Freeing the pages *)

(** A page of the range: on the lists afterwards, unless it lies behind the last frame that the allocator knows. *)
Lemma free_one hhdm b L p : buddy_inv b L → 0 <= p → 0 < hhdm → hhdm + p * PAGE_SIZE < 2 ^ 64 → hhdm + page_count b * PAGE_SIZE < 2 ^ 64 → ¬ free_page L p →
  ∃ b' L', buddy_free (u64 (p * PAGE_SIZE + hhdm)) 0 hhdm b = Done b' ∧ buddy_inv b' L' ∧ page_count b' = page_count b ∧
    ∀ q, free_page L' q ↔ free_page L q ∨ (q = p ∧ p < page_count b).
Proof.
  intros I Hp Hh Hhi Htop Hfree. destruct (decide (p < page_count b)) as [Hlt|Hge].
  - assert (vacant b L 0 p) as V.
    { split; [unfold MAX_ORDER; lia|done|by rewrite Z.mod_1_r|cbn; lia|]. intros q Hq. unfold in_block in Hq. by assert (q = p) as -> by (cbn in Hq; lia). }
    destruct (buddy_free_ok 0 hhdm b L p I V) as (b' & L' & E & I' & [C _ _] & Fr); [lia|done|unfold PAGE_SIZE; lia|].
    exists b', L'. split; [done|]. split; [done|]. split; [done|]. intros q. rewrite Fr. unfold in_block. change (2 ^ 0) with 1. intuition lia.
  - exists b, L. split; [|split; [done|]; split; [done|]; intros q; intuition lia]. unfold buddy_free, PAGE_SIZE in *.
    rewrite (wrap_small 64 (p * 4096 + hhdm)) by lia. rewrite (proj2 (Z.eqb_neq _ _)) by lia. replace (p * 4096 + hhdm - hhdm) with (p * 4096) by lia.
    rewrite wrap_small, Z.div_mul by lia. by rewrite (proj2 (Z.leb_le _ _)) by lia.
Qed.

(** The frame behind an address of the kernel. *)
Definition frame_of (virt_base phys_base addr : Z) : Z := (addr - virt_base + phys_base) / PAGE_SIZE.

Lemma free_range_ok hhdm virt phys n : ∀ addr b L, buddy_inv b L → 0 < hhdm → hhdm + page_count b * PAGE_SIZE < 2 ^ 64 →
  0 <= phys → phys mod PAGE_SIZE = 0 → 0 <= virt <= addr → (addr - virt) mod PAGE_SIZE = 0 → addr + (Z.of_nat n + 1) * PAGE_SIZE < 2 ^ 64 →
  hhdm + (addr - virt + phys) + (Z.of_nat n + 1) * PAGE_SIZE < 2 ^ 64 →
  (∀ q, frame_of virt phys addr <= q < frame_of virt phys addr + Z.of_nat n → ¬ free_page L q) →
  ∃ b' L', free_range (S n) addr (addr + Z.of_nat n * PAGE_SIZE) virt phys hhdm b = Done b' ∧ buddy_inv b' L' ∧ page_count b' = page_count b ∧
    ∀ q, free_page L' q ↔ free_page L q ∨ (frame_of virt phys addr <= q < frame_of virt phys addr + Z.of_nat n ∧ q < page_count b).
Proof.
  unfold PAGE_SIZE. induction n as [|n IH]; intros addr b L I Hh Htop Hp Hpm Hva Hvm Hend Hhi Hfree.
  { exists b, L. cbn [free_range]. rewrite (proj2 (Z.ltb_ge _ _)) by lia. split; [done|]. split; [done|]. split; [done|]. intros q. intuition lia. }
  replace (addr + Z.of_nat (S n) * 4096) with (addr + 4096 + Z.of_nat n * 4096) by lia.
  assert (addr < addr + 4096 + Z.of_nat n * 4096) as Hlt%Z.ltb_lt by lia. unfold free_range at 1; fold free_range. rewrite Hlt. clear Hlt. set (p := frame_of virt phys addr) in *.
  assert (addr - virt + phys = p * 4096) as Ep.
  { unfold p, frame_of, PAGE_SIZE. assert ((addr - virt + phys) mod 4096 = 0) as Hm by (by rewrite Z.add_mod, Hvm, Hpm by done).
    apply Z.mod_divide in Hm as [k ->]; [|done]. by rewrite Z.div_mul. }
  assert (0 <= p) by lia. rewrite (wrap_small 64 (addr - virt)), (wrap_small 64 (addr - virt + phys)) by lia. rewrite Ep.
  destruct (free_one hhdm b L p I) as (b1 & L1 & E1 & I1 & C1 & F1); [done|done|unfold PAGE_SIZE; lia|done|apply Hfree; lia|]. unfold PAGE_SIZE in E1. rstep E1.
  assert (frame_of virt phys (addr + 4096) = p + 1) as Ef.
  { unfold frame_of, PAGE_SIZE. replace (addr + 4096 - virt + phys) with ((p + 1) * 4096) by lia. by rewrite Z.div_mul. }
  change (addr + PAGE_SIZE) with (addr + 4096). rewrite (wrap_small 64 (addr + 4096)) by lia. destruct (IH (addr + 4096) b1 L1 I1) as (b' & L' & E & I' & C & F); rewrite ?Ef, ?C1; try done; try lia.
  - replace (addr + 4096 - virt) with (addr - virt + 1 * 4096) by lia. by rewrite Z.mod_add.
  - intros q Hq [Hf|[-> _]]%F1; [|lia]. apply (Hfree q); [lia|done].
  - exists b', L'. split; [|split; [done|]; split; [congruence|]].
    + exact E.
    + intros q. rewrite F, F1, Ef, C1. intuition lia.
Qed.

(** ** The start of the allocator and its end of the initialisers' pages *)

(** The image of the kernel, [init_start] to [init_end] in it, and what the addresses leave room for. *)
Record layout (bi : boot_info) (kernel_size kernel_start init_start init_end hhdm : Z) : Prop := {
  la_phys : 0 <= kernel_phys_base bi ∧ kernel_phys_base bi mod PAGE_SIZE = 0;
  la_start : 0 <= kernel_start ∧ kernel_start mod PAGE_SIZE = 0;
  la_init : kernel_start <= init_start <= init_end ∧ init_end <= kernel_start + kernel_size;
  la_size : kernel_size < 2 ^ 31;
  la_virt_top : kernel_start + kernel_size + 2 * PAGE_SIZE < 2 ^ 64;
  la_top : 0 < hhdm ∧ hhdm + kernel_phys_base bi + kernel_size + 2 * PAGE_SIZE < 2 ^ 64
}.

(** A frame with a byte of the sections. *)
Definition init_frame (phys_base kernel_start init_start init_end q : Z) : Prop :=
  align_down init_start PAGE_SIZE <= q * PAGE_SIZE - phys_base + kernel_start < align_up init_end PAGE_SIZE.

Lemma layout_frames bi ks virt s e hhdm : layout bi ks virt s e hhdm → let phys := kernel_phys_base bi in
  ∃ n : nat, align_up e PAGE_SIZE = align_down s PAGE_SIZE + Z.of_nat n * PAGE_SIZE ∧ virt <= align_down s PAGE_SIZE ∧ (align_down s PAGE_SIZE - virt) mod PAGE_SIZE = 0 ∧
    align_up e PAGE_SIZE < virt + ks + PAGE_SIZE ∧ Z.of_nat n < 2 ^ 31 ∧
    ∀ q, frame_of virt phys (align_down s PAGE_SIZE) <= q < frame_of virt phys (align_down s PAGE_SIZE) + Z.of_nat n ↔ init_frame phys virt s e q.
Proof.
  intros [[Hp Hpm] [Hv Hvm] [[Hs He] Hee] Hks Htop _] phys. unfold init_frame, frame_of. fold phys in Hp, Hpm.
  rewrite page_size_pow, align_down_spec, align_up_spec by (unfold PAGE_SIZE in *; lia). rewrite <- page_size_pow. unfold PAGE_SIZE in *.
  apply Z.mod_divide in Hvm as [v ->]; [|done]. apply Z.mod_divide in Hpm as [p ->]; [|done].
  exists (Z.to_nat ((e + 4096 - 1) / 4096 - s / 4096)). assert (s / 4096 <= (e + 4096 - 1) / 4096) by (apply Z.div_le_mono; lia).
  rewrite Z2Nat.id by lia. assert (v <= s / 4096) by (apply Z.div_le_lower_bound; lia).
  assert ((e + 4096 - 1) / 4096 * 4096 <= e + 4095) by (Z.to_euclidean_division_equations; lia).
  split; [lia|]. split; [lia|]. split; [by rewrite <- Z.mul_sub_distr_r, Z.mod_mul|]. split; [lia|]. split; [Z.to_euclidean_division_equations; lia|].
  intros q. rewrite <- Z.mul_sub_distr_r, <- Z.mul_add_distr_r, Z.div_mul by done. lia.
Qed.

Lemma init_frame_reserved bi ks virt s e hhdm ea q : layout bi ks virt s e hhdm → init_frame (kernel_phys_base bi) virt s e q →
  is_reserved (early_reserved bi ks ea) q = true.
Proof.
  intros Hl Hq. destruct (layout_frames _ _ _ _ _ _ Hl) as (n & En & Hge & Hmod & Hle & _). destruct Hl as [[Hp Hpm] _ [[Hs He] Hee] Hks _ [Hh Hpt]].
  unfold init_frame in Hq. rewrite En in Hq, Hle. unfold is_reserved, early_reserved. cbn. apply orb_true_iff. left. apply andb_true_iff. unfold PAGE_SIZE in *.
  apply Z.mod_divide in Hpm as [p Ep]; [|done]. apply Z.mod_divide in Hmod as [k Ek]; [|done]. rewrite Ep in *.
  split; [apply Z.leb_le; rewrite Z.div_mul; lia|]. apply Z.ltb_lt. rewrite wrap_small by lia.
  change 4096 with (2 ^ 12) at 2 3. rewrite align_up_spec, Z.div_mul by lia. change (2 ^ 12) with 4096. apply Z.le_succ_l, Z.div_le_lower_bound; lia.
Qed.

(** The state of the boot before the sections are freed: the allocator as it was made, and what its clients did since. *)
Lemma boot_within bi ks e e' b0 hhdm b A : mmap_ok (mmap bi) → (∃ p, early_alloc (u64 (detect_page_count bi * SIZEOF_BUDDY_PAGE)) 0 e = Done (e', p)) →
  buddy_init bi ks e = Done (e', b0) → 0 < hhdm → hhdm + detect_page_count bi * PAGE_SIZE < 2 ^ 64 → rtc (buddy_step hhdm) (b0, []) (b, A) →
  buddy_config hhdm (detect_page_count bi) b A ∧
  within hhdm (λ q, usable (mmap bi) q ∧ is_reserved (early_reserved bi ks e') q = false) b A.
Proof.
  intros Hok [p Ee] Ei Hpos Htop Hr. destruct (buddy_init_ok bi ks e e' p Hok Ee) as (b1 & L1 & Ei' & I1 & C1 & F1). rewrite Ei' in Ei. injection Ei as <-.
  assert (buddy_config hhdm (detect_page_count bi) b1 []) as HC0.
  { split; [done| |done]. exists L1. split; [done|]. by intros x ?%elem_of_nil. }
  split; [by apply (config_reach hhdm _ Hpos Htop _ _ Hr)|]. apply (within_reach hhdm _ _ Hpos Htop _ _ Hr HC0). split.
  - exists L1. split; [done|]. intros q. apply F1.
  - by intros o q0 q ?%elem_of_nil.
Qed.

(** C38: Whatever the initialisers allocated and released, at the end of the start exactly the frames of their own code and data join the free frames, those
    behind the last frame of the allocator aside. None of them was free before, and the blocks that are still held stay off the
    lists. *)
Theorem init_sections_reclaimed bi ks e e' b0 hhdm b A virt s i : mmap_ok (mmap bi) →
  (∃ p, early_alloc (u64 (detect_page_count bi * SIZEOF_BUDDY_PAGE)) 0 e = Done (e', p)) → buddy_init bi ks e = Done (e', b0) →
  hhdm + detect_page_count bi * PAGE_SIZE < 2 ^ 64 → layout bi ks virt s i hhdm → rtc (buddy_step hhdm) (b0, []) (b, A) →
  let init := init_frame (kernel_phys_base bi) virt s i in
  ∃ b' pages L L', free_init_sections s i virt (kernel_phys_base bi) hhdm b = Done (b', pages) ∧ buddy_inv b L ∧ buddy_inv b' L' ∧
    (∀ q, free_page L' q ↔ free_page L q ∨ (init q ∧ q < page_count b)) ∧ (∀ q, init q → ¬ free_page L q) ∧
    ∀ o v, (o, v) ∈ A → ∃ p, v = p * PAGE_SIZE + hhdm ∧ vacant b' L' o p.
Proof.
  intros Hok Ee Ei Htop Hl Hr init. pose proof (la_top _ _ _ _ _ _ Hl) as [Hpos Htop2].
  destruct (boot_within bi ks e e' b0 hhdm b A Hok Ee Ei Hpos Htop Hr) as [[C (L & I & HV) _] [(L1 & I1 & HF) HA]].
  assert (∀ q, init q → is_reserved (early_reserved bi ks e') q = true) as Hres by (intros q; by eapply init_frame_reserved).
  assert (∀ q, init q → ¬ free_page L q) as Hnf.
  { intros q Hq Hf. apply (free_page_unique b L L1) in Hf; [|done..]. destruct (HF q Hf) as [_ Hr']. by rewrite (Hres q Hq) in Hr'. }
  destruct (layout_frames _ _ _ _ _ _ Hl) as (n & En & Hge & Hmod & Hle & Hn & Hin). cbv zeta in Hin. fold init in Hin.
  pose proof Hl as [[Hp Hpm] [Hv Hvm] [[Hs He] Hee] Hks Hvt _]. set (start := align_down s PAGE_SIZE) in *.
  destruct (free_range_ok hhdm virt (kernel_phys_base bi) n start b L I) as (b' & L' & E & I' & C' & F'); try done; try (unfold PAGE_SIZE in *; lia).
  { intros q Hq. apply Hnf, Hin. exact Hq. }
  exists b', (i32 (u64 (align_up i PAGE_SIZE - start) / PAGE_SIZE)), L, L'. split; [|split; [done|]; split; [done|]; split; [|split; [done|]]].
  - unfold free_init_sections. fold start. rewrite En. replace (start + Z.of_nat n * PAGE_SIZE - start) with (Z.of_nat n * PAGE_SIZE) by lia.
    rewrite wrap_small, Z.div_mul, Nat2Z.id by (unfold PAGE_SIZE in *; lia). by rewrite E.
  - intros q. by rewrite F', Hin.
  - intros o v HoA. destruct (HV _ HoA) as (p & Ep & V). cbn [fst snd] in *. exists p. split; [done|]. destruct V as [? ? ? ? Hnot]. split; try done; [by rewrite C'|].
    intros q Hq [Hf|[Hf%Hin _]]%F'; [by apply (Hnot q)|]. rewrite Ep in HoA. destruct (HA o p q HoA Hq) as [_ Hr']. by rewrite (Hres q Hf) in Hr'.
Qed.

(** The machine of Buddy: 512 KiB, a kernel of two pages at 0x3000 of which the second is for the start. *)
Lemma init_sections_reclaimed_witness : match demo_trace with
  | Done (b, A) => let init := init_frame 0x3000 0xFFFFFFFF80000000 0xFFFFFFFF80001000 0xFFFFFFFF80001800 in
      ∃ b' pages L L', free_init_sections 0xFFFFFFFF80001000 0xFFFFFFFF80001800 0xFFFFFFFF80000000 (kernel_phys_base demo_bi) 0xFFFF800000000000 b = Done (b', pages) ∧
        buddy_inv b L ∧ buddy_inv b' L' ∧ (∀ q, free_page L' q ↔ free_page L q ∨ (init q ∧ q < page_count b)) ∧ (∀ q, init q → ¬ free_page L q) ∧
        ∀ o v, (o, v) ∈ A → ∃ p, v = p * PAGE_SIZE + 0xFFFF800000000000 ∧ vacant b' L' o p
  | Stop _ => False end.
Proof.
  pose proof demo_trace_reach as Hr. destruct demo_trace as [[b A]|]; [|exact Hr]. destruct demo_buddy_inv as (L & E & _).
  apply (init_sections_reclaimed demo_bi 0x2000 demo_early (Early 0x80000 0xFFFF800000000000 0 0x40000 3072) demo_buddy).
  - apply demo_mmap_ok.
  - eexists. apply demo_early_alloc.
  - exact E.
  - vm_compute. reflexivity.
  - split; vm_compute; repeat split; discriminate || reflexivity.
  - exact Hr.
Defined.
