(* ===== verification/Kmain.v ===== *)
(** * The first tasks (lizard/main.c, lizard/sched.c)

    The boot context becomes the idle task, and [kmain] ends with the creation of init and a yield to it. The state that
    this leaves is the one that the theorems on the scheduler start from. *)

From S2P Require Import Prelude Helpers Ktime Task SchedOk SchedRun SchedLive SchedDemo.

Local Open Scope Z_scope.

Section kmain.
Context {M : Type} `{!task_mem M}.
Variables idle init_task : Z.
Implicit Types (s : sys M) (m : M).

(** [kmain] behind the initialisers; [init_loop] is at an address. *)
Definition kmain_tasks (init_loop : Z) : st (sys M) unit :=
  _ ← task_create init_task init_loop (chars "init") 1 false;
  _ ← task_set_ready init_task;
  _ ← enable_scheduler;
  task_yield idle.

(** The calls with which [task_create] gets the page tables and the stack of a task. *)
Record makes m m' (pml4 kstack : Z) : Prop := {
  mk_mem : ∃ m1 m2, tm_pgtable_create m = Done (pml4, m1) ∧ tm_buddy_alloc KSTACK_ORDER m1 = Done (kstack, m2) ∧
    tm_memset kstack (KSTACK_PAGES * PAGE_SIZE) m2 = Done (tt, m')
}.

(** The structure of a new kernel task. *)
Definition made (pid entry : Z) (name : list Z) (priority pml4 kstack : Z) : task :=
  let top := u64 (kstack + KSTACK_PAGES * PAGE_SIZE) in
  Task name pid 0 TASK_STATE_NEW WAIT_NONE false false
    (CpuState 0 0 0 0 0 0 0 0 0 0 0 0 0 0 0 0 0 entry KERNEL_CS RFLAGS_DEFAULT top KERNEL_SS) pml4 top
    None [] SSelf priority TASK_TIMESLICE 0 (replicate TASK_MAX_FDS None) [47].

Lemma task_create_Done s t tk entry name priority pml4 kstack m : tasks s !! t = Some tk → Z.of_nat (length name) <= TASK_NAME_MAX_LEN → makes (tmem s) m pml4 kstack →
  let pid := u32 (pid_counter s + 1) in
  task_create t entry name priority false s = Done (tt,
    put_list (t :: task_list s) (put_tasks (<[t := made pid entry name priority pml4 kstack]> (tasks s)) (put_mem m (put_pid_counter pid s)))).
Proof.
  intros Ht Hn [(m1 & m2 & E1 & E2 & E3)] pid. unfold task_create, get_task, upd_task, st_run, st_modify, st_get, on_mem, mbind, st_bind.
  rewrite Ht. cbn [access]. rewrite (proj2 (Z.ltb_ge _ _)) by lia. unfold mret, st_ret, get_task, st_run, mbind, st_bind, st_get. cbn. rewrite E1. cbn. rewrite E2. cbn.
  rewrite E3. cbn. rewrite Ht. cbn. done.
Qed.

(** ** The boot context and init *)

(** The state of [sched_init], with the timer at any value, the two tasks made from the memory calls. *)
Definition two_tasks (ik nk : task) s (n : Z) (c : clocks) m : sys M :=
  Sys (<[init_task := nk]> (<[idle := ik]> (tasks s))) [init_task; idle] (Some idle) (ptrace s) (u32 (u32 (pid_counter s + 1) + 1)) n c true (tss_rsp0 s) m.

Lemma two_tasks_live ik nk s n c m t tk : idle ≠ init_task → live (two_tasks ik nk s n c m) t tk → (t = init_task ∧ tk = nk) ∨ (t = idle ∧ tk = ik).
Proof.
  intros Hne [Hin Ht]. cbn in Hin, Ht. apply elem_of_cons in Hin as [->|Hin%list_elem_of_singleton]; [left|right]; subst; (split; [done|]); by simplify_map_eq.
Qed.

Lemma two_tasks_ok `{!TaskMemLaws M} ik nk s n c m R : idle ≠ init_task →
  (∀ tk, tk = ik ∨ tk = nk → t_children tk = [] ∧ t_parent tk = None ∧ t_sibling tk = SSelf ∧ 0 <= t_ticks tk <= TASK_TIMESLICE) →
  t_state ik = TASK_STATE_RUNNING → t_state nk = TASK_STATE_READY → tm_own m (R ++ res_of init_task nk ++ res_of idle ik) →
  at_work idle (two_tasks ik nk s n c m) R.
Proof.
  intros Hne Hk Hi Hn Hown. set (s' := two_tasks ik nk s n c m).
  assert (∀ t tk, live s' t tk → (t = init_task ∧ tk = nk) ∨ (t = idle ∧ tk = ik)) as Hl by (intros t tk; by apply two_tasks_live).
  assert (∀ t tk, live s' t tk → t_children tk = [] ∧ t_parent tk = None ∧ t_sibling tk = SSelf ∧ 0 <= t_ticks tk <= TASK_TIMESLICE) as Hall.
  { intros t tk [[_ ->]|[_ ->]]%Hl; apply Hk; auto. }
  assert (live s' idle ik) as Hidle by (split; [right; left|]; cbn; by simplify_map_eq).
  split; [|split; [by exists idle, ik|done]]. split.
  - cbn. apply NoDup_cons. split; [|apply NoDup_singleton]. by intros ?%list_elem_of_singleton.
  - cbn. right. left.
  - exists idle. split; [done|]. cbn. right. left.
  - intros t Ht. cbn in *. apply elem_of_cons in Ht as [->|Ht%list_elem_of_singleton]; [|subst t]; simplify_map_eq; by eexists.
  - intros t tk Ht. destruct (Hall _ _ Ht) as (Hc & Hp & _ & Htk). assert (¬ dead tk) as Hd by (unfold dead; destruct (Hl _ _ Ht) as [[_ ->]|[_ ->]]; rewrite ?Hi, ?Hn; by intros [|]).
    split; [|done|done|..].
    + intros Hr. destruct (Hl _ _ Ht) as [[_ ->]|[-> _]]; [congruence|by left].
    + intros E. destruct Hd. by left.
    + intros E. destruct Hd. by right.
  - split.
    + intros p pk Hp. destruct (Hall _ _ Hp) as (-> & _). constructor.
    + intros p pk x Hp. destruct (Hall _ _ Hp) as (-> & _). split; [by intros ?%not_elem_of_nil|]. intros (ck & Hx & E). destruct (Hall _ _ Hx) as (_ & E' & _). congruence.
    + intros x ck p Hx E. destruct (Hall _ _ Hx) as (_ & E' & _). congruence.
    + intros x ck Hx. by destruct (Hall _ _ Hx) as (_ & -> & -> & _).
    + intros k Hx. by destruct (Hall _ _ Hx) as (_ & -> & _).
  - unfold owned. cbn. rewrite lookup_insert_eq, lookup_insert_ne, lookup_insert_eq by done. by rewrite app_nil_r.
Qed.

Lemma made_res pid entry name priority p k t : p ≠ 0 → 0 < k < 2 ^ 64 - KSTACK_PAGES * PAGE_SIZE → res_of t (made pid entry name priority p k) = [RStack k; RTree p].
Proof.
  intros Hp Hk. unfold res_of, made. cbn [t_kstack t_pml4 t_heap]. assert (0 < KSTACK_PAGES * PAGE_SIZE < 2 ^ 64) by done.
  rewrite (wrap_small 64 (k + _)) by lia. rewrite (proj2 (Z.eqb_neq _ _)), (proj2 (Z.eqb_neq p 0)) by lia. rewrite wrap_small by lia. cbn. do 2 f_equal. lia.
Qed.

Lemma makes_own `{!TaskMemLaws M} m m' p k R : makes m m' p k → tm_own m R →
  p ≠ 0 ∧ 0 < k < 2 ^ 64 - KSTACK_PAGES * PAGE_SIZE ∧ tm_own m' (RStack k :: RTree p :: R).
Proof.
  intros [(m1 & m2 & E1 & E2 & E3)] Hown. destruct (tm_create_ok m R p m1 Hown E1) as [Hp H1].
  destruct (tm_alloc_ok m1 _ k m2 H1 E2) as [[-> _]|[Hk H2]]; [by rewrite tm_memset_null in E3|]. split; [done|]. split; [done|]. by eapply tm_memset_ok.
Qed.

(** The state that [kmain_tasks] yields in. *)
Definition before_yield idle_fn init_fn s p1 k1 p2 k2 n c m : sys M :=
  two_tasks (set_state TASK_STATE_RUNNING (made (u32 (pid_counter s + 1)) idle_fn [105; 100; 108; 101] 0 p1 k1))
    (set_state TASK_STATE_READY (made (u32 (u32 (pid_counter s + 1) + 1)) init_fn (chars "init") 1 p2 k2)) s n c m.

Lemma sched_init_Done s tk1 idle_fn m1 p1 k1 : tasks s !! idle = Some tk1 → task_list s = [] → makes (tmem s) m1 p1 k1 →
  let ik := set_state TASK_STATE_RUNNING (made (u32 (pid_counter s + 1)) idle_fn [105; 100; 108; 101] 0 p1 k1) in
  sched_init idle idle_fn s = Done (tt, Sys (<[idle := ik]> (tasks s)) [idle] (Some idle) (ptrace s) (u32 (pid_counter s + 1)) (pit_ticks s) (clock s)
    (scheduler_enabled s) (tss_rsp0 s) m1).
Proof.
  intros Ht Hl Hm ik. unfold sched_init, mbind, st_bind. rewrite (task_create_Done s idle tk1 idle_fn [105; 100; 108; 101] 0 p1 k1 m1 Ht ltac:(vm_compute; discriminate) Hm). rewrite Hl.
  unfold upd_task, get_task, st_run, st_modify, st_get, mbind, st_bind. cbn. rewrite lookup_insert_eq. cbn. unfold put_tasks, put_current, put_list. cbn. by rewrite insert_insert_eq.
Qed.

Lemma kmain_tasks_Done `{!TaskMemLaws M} s idle_fn init_fn p1 k1 p2 k2 n c m2 m3 tk R : idle ≠ init_task → tasks s !! init_task = Some tk → makes m2 m3 p2 k2 →
  p1 ≠ 0 → 0 < k1 < 2 ^ 64 - KSTACK_PAGES * PAGE_SIZE → tm_own m2 (R ++ [RStack k1; RTree p1]) →
  let ik := set_state TASK_STATE_RUNNING (made (u32 (pid_counter s + 1)) idle_fn [105; 100; 108; 101] 0 p1 k1) in
  let s1 := Sys (<[idle := ik]> (tasks s)) [idle] (Some idle) (ptrace s) (u32 (pid_counter s + 1)) n c (scheduler_enabled s) (tss_rsp0 s) m2 in
  let s2 := before_yield idle_fn init_fn s p1 k1 p2 k2 n c m3 in
  kmain_tasks init_fn s1 = task_yield idle s2 ∧ at_work idle s2 R.
Proof.
  intros Hne Ht Hm Hp1 Hk1 Hown ik s1 s2. split.
  - unfold kmain_tasks, mbind, st_bind. rewrite (task_create_Done s1 init_task tk init_fn (chars "init") 1 p2 k2 m3); [|cbn; by rewrite lookup_insert_ne|by vm_compute|done].
    unfold task_set_ready, upd_task, get_task, st_run, st_modify, st_get, mbind, st_bind, enable_scheduler.
    cbn [tasks put_list put_tasks put_mem put_pid_counter access]. rewrite !lookup_insert_eq. cbn [access]. change (in_state TASK_STATE_NEW (made _ _ _ _ _ _)) with true. cbv iota.
    cbn [tasks put_list put_tasks put_mem put_pid_counter access]. rewrite !lookup_insert_eq. cbn [access]. unfold st_modify, put_list, put_tasks, put_enabled.
    cbn [tasks task_list current_task ptrace pid_counter pit_ticks clock scheduler_enabled tss_rsp0 tmem put_mem put_pid_counter]. rewrite insert_insert_eq. reflexivity.
  - apply two_tasks_ok; [done| |done|done|].
    + intros x [-> | ->]; split_and!; by vm_compute.
    + destruct (makes_own _ _ _ _ _ Hm Hown) as (Hp2 & Hk2 & Ho). eapply tm_own_perm; [|exact Ho].
      change (res_of init_task (set_state _ ?x)) with (res_of init_task x). change (res_of idle (set_state _ ?x)) with (res_of idle x).
      rewrite !made_res by done. solve_Permutation.
Qed.

Lemma reap_skip s t tk (Q : unit → sys M → Prop) : tasks s !! t = Some tk → t_state tk ≠ TASK_STATE_TERMINATED → Q tt s → wp (reap idle t) Q s.
Proof.
  intros Ht Hst HQ. unfold reap. eapply wp_bind, wp_get. eapply wp_bind, wp_get_task; [exact Ht|]. unfold in_state. rewrite (bool_decide_false (t_state tk = _)) by done.
  rewrite orb_true_r. by apply wp_ret.
Qed.

(** The yield of the idle task to the only other one. *)
Lemma yield_wp `{!TaskMemLaws M} ik nk s n c m R : idle ≠ init_task → t_state ik = TASK_STATE_RUNNING → t_state nk = TASK_STATE_READY → tm_own m R → RTree (t_pml4 nk) ∈ R →
  wp (task_yield idle) (λ _ s', current_task s' = Some init_task ∧ ptrace s' = copy_regs (t_regs nk) (ptrace s) ∧ tss_rsp0 s' = t_kstack nk) (two_tasks ik nk s n c m).
Proof.
  intros Hne Hi Hn Hown Htree. set (s1 := two_tasks ik nk s n c m). unfold task_yield, scheduler_trigger, isr_scheduler, scheduler.
  assert (tasks s1 !! init_task = Some nk) as Hnk by (cbn; by rewrite lookup_insert_eq).
  assert (tasks s1 !! idle = Some ik) as Hik by (cbn; by rewrite lookup_insert_ne, lookup_insert_eq).
  eapply wp_bind, wp_get. change (scheduler_enabled s1) with true. cbn [negb]. eapply wp_bind. unfold reap_terminated. eapply wp_bind, wp_get. change (task_list s1) with [init_task; idle].
  cbn [reap_list]. eapply wp_bind, (reap_skip s1 init_task nk); [done|by rewrite Hn|]. eapply wp_bind, (reap_skip s1 idle ik); [done|by rewrite Hi|]. apply wp_ret.
  unfold dispatch. eapply wp_bind, wp_get. change (current_task s1) with (Some idle). eapply wp_bind. eapply wp_bind, wp_get_task; [exact Hik|]. apply wp_ret.
  rewrite bool_decide_true by done. cbn [negb]. rewrite andb_false_r. eapply wp_bind, wp_ret. cbv iota.
  eapply wp_bind. unfold next_or_idle. eapply wp_bind. unfold next_ready_task. eapply wp_bind. unfold get_current. eapply wp_bind, wp_get. apply (wp_run _ idle); [done|].
  eapply wp_bind, wp_get. change (task_list s1) with [init_task; idle].
  assert (split_at idle [init_task; idle] = Some ([init_task], [])) as Esp.
  { cbn [split_at]. rewrite (proj2 (Z.eqb_neq init_task idle)) by congruence. cbn [split_at]. by rewrite Z.eqb_refl. }
  rewrite Esp. eapply wp_bind, (wp_run _ ([init_task], [])); [done|]. cbn [first_ready]. eapply wp_bind, wp_ret. eapply wp_bind, wp_get_task; [exact Hnk|].
  unfold in_state. rewrite (bool_decide_true (t_state nk = _)) by done. rewrite (proj2 (Z.eqb_neq init_task idle)) by congruence. cbn [negb andb]. apply wp_ret. apply wp_ret.
  unfold run_next. eapply wp_bind, wp_ret. eapply wp_bind, wp_upd_task; [exact Hnk|]. eapply wp_bind, wp_upd_task; [cbn [tasks put_tasks]; by rewrite lookup_insert_eq|].
  rewrite bool_decide_false by congruence. unfold task_switch_to, task_save_context, task_load_context.
  eapply wp_bind. eapply wp_bind. unfold get_current. eapply wp_bind, wp_get. apply (wp_run _ idle); [done|]. eapply wp_bind, wp_get.
  eapply wp_upd_task; [cbn [tasks put_tasks]; by rewrite !lookup_insert_ne by congruence|].
  eapply wp_bind. eapply wp_bind, wp_get_task; [cbn [tasks put_tasks]; rewrite lookup_insert_ne by done; by rewrite lookup_insert_eq|]. apply wp_modify.
  eapply wp_bind, wp_get_task; [cbn [tasks put_tasks put_ptrace]; rewrite lookup_insert_ne by done; by rewrite lookup_insert_eq|]. cbn [t_pml4 set_ticks set_state].
  eapply wp_bind. destruct (t_pml4 nk =? 0) eqn:E0.
  - apply wp_ret. eapply wp_bind, wp_modify. apply wp_modify. done.
  - destruct (tm_switch_ok m R (t_pml4 nk) Hown Htree) as (m' & Em & _). eapply wp_on_mem; [exact Em|]. eapply wp_bind, wp_modify. apply wp_modify. done.
Qed.

(** C39: The boot ends in init. The boot context becomes the idle task; whatever the timer and the memory did in between, [kmain] then makes the task
    of init and yields to it: the processor continues at [init_loop], in kernel mode with interrupts enabled, on the stack of init, and the scheduler is in
    the state that its invariant describes. *)
Theorem start_enters_init `{!TaskMemLaws M} s tk1 tk2 idle_fn init_fn m1 p1 k1 R1 n c m2 R m3 p2 k2 : idle ≠ init_task →
  tasks s !! idle = Some tk1 → tasks s !! init_task = Some tk2 → task_list s = [] →
  tm_own (tmem s) R1 → makes (tmem s) m1 p1 k1 → tm_own m2 (R ++ [RStack k1; RTree p1]) → makes m2 m3 p2 k2 →
  ∃ s1 s2, sched_init idle idle_fn s = Done (tt, s1) ∧ tmem s1 = m1 ∧ kmain_tasks init_fn (put_time n c (put_mem m2 s1)) = Done (tt, s2) ∧
    at_work idle s2 R ∧ current_task s2 = Some init_task ∧ rip (ptrace s2) = init_fn ∧ cs (ptrace s2) = KERNEL_CS ∧ rflags (ptrace s2) = RFLAGS_DEFAULT ∧
    rsp (ptrace s2) = k2 + KSTACK_PAGES * PAGE_SIZE ∧ tss_rsp0 s2 = rsp (ptrace s2).
Proof.
  intros Hne H1 H2 Hl Ho1 Hm1 Ho2 Hm2. destruct (makes_own _ _ _ _ _ Hm1 Ho1) as (Hp1 & Hk1 & _).
  pose proof (sched_init_Done s tk1 idle_fn m1 p1 k1 H1 Hl Hm1) as E1. cbv zeta in E1. eexists. rewrite E1.
  destruct (kmain_tasks_Done s idle_fn init_fn p1 k1 p2 k2 n c m2 m3 tk2 R Hne H2 Hm2 Hp1 Hk1 Ho2) as [E2 Hw].
  destruct (makes_own _ _ _ _ _ Hm2 Ho2) as (Hp2 & Hk2 & Ho3).
  destruct (wp_elim _ _ _ (scheduler_ok idle _ R (proj1 Hw) (proj2 (proj2 Hw)))) as ([] & s2 & Es & Hok & Hrun & Hsc).
  pose proof (yield_wp (set_state TASK_STATE_RUNNING (made (u32 (pid_counter s + 1)) idle_fn [105; 100; 108; 101] 0 p1 k1))
    (set_state TASK_STATE_READY (made (u32 (u32 (pid_counter s + 1) + 1)) init_fn (chars "init") 1 p2 k2)) s n c m3 _ Hne eq_refl eq_refl Ho3 ltac:(right; left)) as Hy.
  fold (before_yield idle_fn init_fn s p1 k1 p2 k2 n c m3) in Hy.
  unfold task_yield, scheduler_trigger, isr_scheduler in *. apply wp_elim in Hy as ([] & s2' & Es' & Hc & Hp & Ht). rewrite Es in Es'. injection Es' as <-.
  exists s2. split; [reflexivity|]. split; [reflexivity|]. split; [rewrite <- Es; exact E2|]. split.
  { split; [done|]. split; [done|]. by rewrite (scheduled_enabled idle _ _ Hsc). }
  split; [done|]. rewrite Hp, Ht. cbn [t_regs t_kstack set_state made copy_regs rip cs rflags rsp]. split; [done|]. split; [done|]. split; [done|].
  split; [|done]. apply wrap_small. assert (0 < KSTACK_PAGES * PAGE_SIZE) by done. lia.
Qed.
End kmain.

(** ** A machine with nothing but its memory *)

Definition demo_init : Z := 4000.

Definition demo_boot : sys (list res) :=
  Sys (<[demo_idle := zero_task]> {[demo_init := zero_task]}) [] None zero_regs 0 0 (Clocks demo_ts demo_ts demo_ts demo_ts) false 0 [].

(** Between the two tasks the kernel took a page for itself. *)
Definition demo_others2 : list res := [RTree 7000].

Lemma start_enters_init_witness : ∃ s1 s2, sched_init demo_idle 111 demo_boot = Done (tt, s1) ∧ tmem s1 = [RStack 2; RTree 1] ∧
  kmain_tasks demo_idle demo_init 222 (put_time 5 (clock demo_boot) (put_mem (demo_others2 ++ [RStack 2; RTree 1]) s1)) = Done (tt, s2) ∧
  at_work demo_idle s2 demo_others2 ∧ current_task s2 = Some demo_init ∧ rip (ptrace s2) = 222 ∧ cs (ptrace s2) = KERNEL_CS ∧
  rflags (ptrace s2) = RFLAGS_DEFAULT ∧ rsp (ptrace s2) = 7002 + KSTACK_PAGES * PAGE_SIZE ∧ tss_rsp0 s2 = rsp (ptrace s2).
Proof.
  apply (start_enters_init demo_idle demo_init demo_boot zero_task zero_task 111 222 [RStack 2; RTree 1] 1 2 [] 5 (clock demo_boot)
    (demo_others2 ++ [RStack 2; RTree 1]) demo_others2 [RStack 7002; RTree 7001; RTree 7000; RStack 2; RTree 1] 7001 7002).
  - done.
  - by vm_compute.
  - by vm_compute.
  - done.
  - split; [constructor|done].
  - split. eexists _, _. split; [by vm_compute|]. split; by vm_compute.
  - split; [apply (bool_decide_unpack _); by vm_compute|done].
  - split. eexists _, _. split; [by vm_compute|]. split; by vm_compute.
Defined.
