(* ===== verification/Cpuid.v ===== *)
(** * Identification of the processor (lizard/cpuid.c, lizard/cpuid.h)

    The instruction is a function from a leaf to the four registers; the brand string is the bytes of three
    leaves. *)

From S2P Require Import Prelude Helpers CString Bytes.

Local Open Scope Z_scope.

Record cpuid_regs := CpuidRegs { r_eax : Z; r_ebx : Z; r_ecx : Z; r_edx : Z }.

Definition CPUID_FEAT_EDX_APIC : Z := Z.shiftl 1 9.

Section cpuid.
Variable cpuid : Z → cpuid_regs.

Definition reg_bytes (r : cpuid_regs) : list Z := put32 (r_eax r) ++ put32 (r_ebx r) ++ put32 (r_ecx r) ++ put32 (r_edx r).

(** The field [brand_name], all of it. *)
Definition cpuid_get_brand : list Z := reg_bytes (cpuid 0x80000002) ++ reg_bytes (cpuid 0x80000003) ++ reg_bytes (cpuid 0x80000004) ++ [0].

Definition cpuid_get_feature (feature_id : Z) : Z :=
  i32 (Z.land (Z.land feature_id (r_ecx (cpuid 0x01))) (r_edx (cpuid 0x01))).

Definition check_apic : bool := negb (Z.land (r_edx (cpuid 1)) CPUID_FEAT_EDX_APIC =? 0).

(** The brand string has its terminator inside the field of 49 characters. *)
Lemma brand_terminated : length cpuid_get_brand = 49%nat ∧ last cpuid_get_brand = Some 0.
Proof. split; [done|]. unfold cpuid_get_brand. by rewrite !app_assoc, last_snoc. Qed.

Lemma check_apic_bit : check_apic = Z.testbit (r_edx (cpuid 1)) 9.
Proof.
  unfold check_apic, CPUID_FEAT_EDX_APIC. generalize (r_edx (cpuid 1)). intros x. destruct (Z.testbit x 9) eqn:E.
  - apply negb_true_iff, Z.eqb_neq. intros H. assert (Z.testbit (Z.land x (Z.shiftl 1 9)) 9 = true) as Hb by (by rewrite Z.land_spec, E). by rewrite H, Z.bits_0 in Hb.
  - apply negb_false_iff, Z.eqb_eq, Z.bits_inj'. intros i Hi. rewrite Z.land_spec, Z.bits_0. destruct (decide (i = 9)) as [->|Hne]; [by rewrite E|].
    rewrite Z.shiftl_1_l, Z.pow2_bits_false by done. apply andb_false_r.
Qed.
End cpuid.
