(* ===== verification/Init.v ===== *)
(** * The loop of init (lizard/main.c)

    Init starts the shell and waits for it, forever. A step is what it does between two calls that may switch
    to another task. *)

From S2P Require Import Prelude CString Tty Input Kprintf Ktime Task SchedOk SchedRun SchedLive SchedDemo Vfs Kernel Loader LoaderDemo.

Local Open Scope Z_scope.

Definition shell_path : list Z := chars "/sh".

(** Where init is in its loop: before [spawn], or waiting; [InitGone] is behind [task_exit], which does not return. *)
Inductive init_at := InitSpawn | InitWait (pid : Z) | InitGone.

Section init.
Context {M F : Type} `{!task_mem M, !user_mem M, !fs_ops F}.
Variable idle : Z.
Implicit Types k : kern M F.

Definition init_loop (a : init_at) : st (kern M F) init_at :=
  match a with
  | InitSpawn =>
      pid ← spawn shell_path [];
      if pid <? 0 then
        _ ← klog "init: cannot spawn /sh - halting" [];
        _ ← on_tasks (task_exit idle);
        mret InitGone
      else mret (InitWait pid)
  | InitWait pid =>
      r ← on_tasks (task_waitpid idle pid);
      match r with
      | Again => mret (InitWait pid)
      | Waited _ status =>
          _ ← klog "init: /sh (pid %d) exited with %d, restarting" [KInt pid; KInt (default 0 status)];
          mret InitSpawn
      end
  | InitGone => mret InitGone
  end.
End init.

(** The line that reports the end of a shell. *)
Definition exit_line (pid code : Z) : list Z :=
  chars "init: /sh (pid " ++ signed_text pid ++ chars ") exited with " ++ signed_text code ++ chars ", restarting" ++ [10].

Lemma kformat_text lit fuel rest args out : Forall (λ c, c ≠ pct) lit → kformat fuel rest args = Some out →
  kformat (length lit + fuel) (lit ++ rest) args = Some (lit ++ out).
Proof.
  intros Hl E. induction lit as [|c lit IH]; [exact E|]. apply Forall_cons in Hl as [Hc Hl]. cbn [length plus app kformat]. rewrite (proj2 (Z.eqb_neq c pct) Hc), (IH Hl). done.
Qed.

Lemma kformat_int fuel rest z args out : - 2 ^ 31 < z < 2 ^ 31 → kformat fuel rest args = Some out →
  kformat (S fuel) (pct :: 100 :: rest) (KInt z :: args) = Some (signed_text z ++ out).
Proof.
  intros Hz E. cbn [kformat]. change (pct =? pct) with true. cbv iota. unfold convert. cbn [head default tail from_option id].
  change (100 =? pct) with false. change (100 =? 99) with false. change (100 =? 115) with false. change (prefixed [108; 108; 117] (100 :: rest)) with (@None (list Z)).
  change (100 =? 117) with false. change (100 =? 100) with true. cbv iota. rewrite swrap_small by lia. rewrite (proj2 (Z.eqb_neq z _)) by lia. cbn [mbind option_bind]. by rewrite E.
Qed.

Definition exit_format : list Z := chars "init: /sh (pid %d) exited with %d, restarting" ++ [10].

Lemma no_pct l : forallb (λ c, negb (c =? pct)) l = true → Forall (λ c, c ≠ pct) l.
Proof. intros H. apply Forall_forall. intros c Hc%list_elem_of_In. rewrite forallb_forall in H. specialize (H c Hc). by breflect. Qed.

Lemma exit_line_format pid code : - 2 ^ 31 < pid < 2 ^ 31 → - 2 ^ 31 < code < 2 ^ 31 →
  kformat (S (length exit_format)) exit_format [KInt pid; KInt code] = Some (exit_line pid code).
Proof.
  intros Hp Hc.
  assert (exit_format = chars "init: /sh (pid " ++ pct :: 100 :: chars ") exited with " ++ pct :: 100 :: (chars ", restarting" ++ [10]) ++ []) as E by (vm_compute; reflexivity).
  set (a := chars "init: /sh (pid ") in *. set (b := chars ") exited with ") in *. set (c := chars ", restarting" ++ [10]) in *.
  assert (S (length exit_format) = length a + S (length b + S (length c + 3)))%nat as El by (vm_compute; reflexivity).
  assert (exit_line pid code = a ++ signed_text pid ++ b ++ signed_text code ++ c ++ []) as -> by (unfold exit_line; by rewrite app_nil_r). rewrite El, E.
  apply kformat_text; [apply no_pct; vm_compute; reflexivity|]. apply kformat_int; [done|].
  apply kformat_text; [apply no_pct; vm_compute; reflexivity|]. apply kformat_int; [done|].
  apply kformat_text; [apply no_pct; vm_compute; reflexivity|]. reflexivity.
Qed.

Lemma exit_line_ascii pid code : Forall ascii (exit_line pid code).
Proof.
  assert (∀ v, Forall ascii (signed_text v)) as Hs.
  { intros v. unfold signed_text. case_match; [constructor; [unfold ascii; lia|]|]; apply dec_ascii. }
  assert (∀ l, forallb (λ c, (0 <=? c) && (c <? 128)) l = true → Forall ascii l) as Hl.
  { intros l H. apply Forall_forall. intros c Hc%list_elem_of_In. rewrite forallb_forall in H. specialize (H c Hc). breflect. unfold ascii. lia. }
  unfold exit_line. repeat apply Forall_app_2; try apply Hs; apply Hl; vm_compute; reflexivity.
Qed.

Lemma signed_text_length v : (length (signed_text v) <= 21)%nat.
Proof.
  assert (∀ fuel b v, (length (digits_rev fuel b v) <= fuel)%nat) as Hd.
  { induction fuel as [|fuel IH]; intros b x; cbn [digits_rev]; [done|]. case_match; cbn [length]; [|lia]. specialize (IH b (x / b)). lia. }
  assert (∀ v, (length (dec_string v) <= 20)%nat) as Hs.
  { intros x. unfold dec_string. case_match; [cbn; lia|]. rewrite length_rev, length_fmap. apply Hd. }
  unfold signed_text. case_match; cbn [length]; [specialize (Hs (- v))|specialize (Hs v)]; lia.
Qed.

Lemma exit_line_length pid code : Z.of_nat (length (exit_line pid code)) <= INT_MAX.
Proof.
  unfold exit_line. rewrite !length_app. pose proof (signed_text_length pid). pose proof (signed_text_length code).
  change (length (chars "init: /sh (pid ")) with 15%nat. change (length (chars ") exited with ")) with 14%nat. change (length (chars ", restarting")) with 12%nat.
  change (length [10]) with 1%nat. unfold INT_MAX. lia.
Qed.

Section restart.
Context {M F : Type} `{TaskMemLaws M} `{!user_mem M, !fs_ops F}.
Variables (idle cols rows : Z).
Implicit Types k : kern M F.

End restart.

(** ** The shell of the demo system ends *)

#[local] Instance ledger_user : user_mem (list res) := {
  um_kva _ _ := mret 0; um_memcpy _ _ := mret tt; um_byte _ _ _ := None; um_room _ _ _ := False
}.

(** [taskB] waits for its child [taskA], which has called exit. *)
Definition ended : sys (list res) := run_demo [EExit] demo_sys.
Definition demo_kern : kern (list res) (list Z) :=
  Kern (Con demo_term demo_ring (replicate 256 0) 0 (Ring (replicate 256 0) 0 0) false ended) (Vfs ∅ ∅ [] None []) ∅.

Definition at_task (t : Z) : task := default zero_task (tasks ended !! t).

Lemma ended_ok : at_work demo_idle ended demo_others.
Proof.
  apply (exec_Done demo_idle demo_sys demo_others EExit); [exact demo_at_work|]. vm_compute. reflexivity.
Qed.

